(* ===== verification/_CoqProject ===== *)
-Q . S2P
Prelude.v
CLib.v
Unifdef.v
UnifdefParse.v
UnifdefMain.v
UnifdefFacts.v
UnifdefSafety.v
UnifdefSpec.v
UnifdefRefine.v
UnifdefExamples.v
Cksum.v
CksumFacts.v
Decimal.v
ShVar.v
ShVarFacts.v
ShVarScope.v
ShArith.v
ShArithFacts.v
ShArithSpec.v
ShArithText.v
Uuencode.v
UuencodeFacts.v
UuencodeB64.v
Calendar.v
CalendarFacts.v
CalendarSpec.v
Ncal.v
NcalFacts.v
Compress.v
CompressBits.v
CompressStream.v
CompressTable.v
CompressSpec.v
CompressWriter.v
CompressReader.v
CompressFacts.v
CompressSafety.v
Locate.v
LocateFacts.v
LocateSpec.v
Tsort.v
TsortFacts.v
TsortCycle.v
TsortSort.v
TsortRead.v
TsortSpec.v
FindExpr.v
FindGrammar.v
FindSquish.v
FindSpec.v
TrSet.v
TrSetFacts.v
Tr.v
TrStr.v
TrFacts.v
TrSpec.v
TelnetNeg.v
TelnetOpts.v
Telnetd.v
TelnetdStat.v
TelnetdRecv.v
Telnet.v
TelnetIO.v
TelnetSub.v
TelnetRing.v
TelnetFocus.v
TelnetdFacts.v
TelnetdSlc.v
TelnetFacts.v
TelnetPair.v
TelnetdRecvFacts.v
TelnetFrame.v
TelnetEnviron.v
TelnetdData.v
TelnetIOFacts.v
TelnetSubFacts.v
TelnetReply.v
TelnetRingFacts.v
TelnetExamples.v
TelnetIOExamples.v
