(* ===== verification/Prelude.v ===== *)
(** * apple_cmds: a verification library for the command-line utilities

    The repository is a collection of command-line utilities (the directories named [.._cmds]
    under src/), each a C program of its own.  They share no state; what they share is the
    C library.  The library models a choice of programs whose core is their own logic, each as a
    group of files: the definitions (data, state, one definition per function, composed
    as the code composes them), facts, and the theorems that say the program is right.

    ** Shared files

    - [Prelude] (this file): machine-width integers ([uwrap], [swrap]), the result type
      [res] and the state monad [M] with its Hoare triples, list lemmas, bit operations and tactics.
    - [CLib]: what the programs use of the C library, on [string]s: character classes of
      the C locale, [fgets] on the rest of the input, [strtol], [strrchr].
    - [Decimal]: decimal numbers and [strtol].

    ** unifdef (src/developer_cmds/unifdef/unifdef.c)

    - [Unifdef]: the state ([ust], one field per global of the program), the output
      functions, the stack of conditionals and the transition table [trans_table] with its
      action functions, [process].
    - [UnifdefParse]: [skipcomment], [parseline], [findsym], [ifeval] and the expression
      evaluator; [UnifdefMain]: [main]'s options, [addsym], the exit status.
    - [UnifdefSpec]: what a preprocessor does with a text of conditionals, as an
      independent specification; [UnifdefRefine]: [unifdef_preserves_meaning] (the output
      means what the input means under the symbols given); [UnifdefSafety]: [unifdef_always_exits] (no loop goes on for ever, no [abort()]);
      [UnifdefExamples]: runs, and what the exit status tells ([unifdef_exit_status]).

    ** cksum (src/file_cmds/cksum)

    - [Cksum]: [crc], [crc32], [csum1], [csum2] over a descriptor as a list of reads, the
      options and the loop of [main], the printed numbers.
    - [CksumFacts]: the CRCs are remainders of the message polynomial over GF(2); totals;
      the two sums.

    ** compress and uncompress (src/file_cmds/compress)

    - [Compress]: all of zopen.c; one structure serves for writing and for reading, which use
      different members of it, so that there are two Modules, [Writer] and [Reader], each with
      its record [zs].
    - [CompressBits]: codes in the octets of a group; [CompressStream]: the stream of codes, in
      groups that end where the width changes, for both sides; [CompressTable]: the hash table
      finds what it holds; [CompressSpec]: the Lempel-Ziv-Welch code as a relation, whatever
      table a coder uses and whenever it clears it.
    - [CompressWriter]: what is written is such a code; [CompressReader]: what is read are its
      strings; [CompressFacts]: the round trip, and what is refused; [CompressSafety]: reading
      any file, up to the first error.

    ** locate (src/shell_cmds/locate)

    - [Locate]: locate.code ([Module Code]: the database written from a list of paths) and the
      search ([Module Find]: [patprep], the four variants of [fastfind], [colon]).
    - [LocateFacts]: what locate.code writes, and that the scan, the search of the new octets
      and the search of all of them find what is in a path; [LocateSpec]: termination, [patprep],
      the theorem about both programs and what its conditions are for.

    ** sh (src/shell_cmds/sh)

    - [ShVar]: the hash table of variables, [setvar], [unsetvar], [mklocal],
      [poplocalvars], [export], [set], initialisation; callbacks and locale changes are
      events of a log.  [ShVarFacts]: the invariant of the table and every operation on the
      view "name to value and attributes"; [ShVarScope]: function scopes and the environment.
    - [ShArith]: the scanner and the recursive evaluator of arithmetic expansion, over an
      interface [VarStore] that the variables of [ShVar] implement (class [VarStoreLaws]).
      [ShArithFacts]: termination; [ShArithSpec]: the evaluator against expressions over its
      tokens; [ShArithText]: against C expressions spelled as text, with C's levels and
      64-bit arithmetic written down independently.

    ** uuencode and uudecode (src/basic_cmds/uuencode, src/basic_cmds/uudecode)

    - [Uuencode]: both encoders, [b64_ntop], [b64_pton], the header search and both decoders.
      [UuencodeFacts], [UuencodeB64]: the decoders undo the encoders; termination, and the
      input on which the base64 decoder does not return.

    ** ncal and cal (src/misc_cmds/ncal)

    - [Calendar]: calendar.c and easter.c; [CalendarFacts], [CalendarSpec]: day numbers are
      the steps of the successor of a date, round trips, ISO weeks, Easter.
    - [Ncal]: the switch table, the local calendar, months, pages, arguments;
      [NcalFacts]: the first day of a month and the place of every day in the lines of a month.

    ** tsort (src/misc_cmds/tsort)

    - [Tsort]: all of tsort.c, with the nodes in a heap, linked in both directions;
      [TsortFacts]: the links, and removing a node; [TsortCycle]: the search for a cycle, which
      finds one if there is one; [TsortSort]: the invariant of the graph, and the sort as steps on
      the nodes that are left; [TsortRead]: the graph is what the pairs say; [TsortSpec]: the
      abstract sort of the words, the order of what is printed, and the option -l.

    ** find (src/shell_cmds/find)

    - [FindExpr]: the table of options and its search, [find_formplan] with the three passes of operator.c,
      and the functions of a plan's nodes; the primaries are parameters.  [FindGrammar]: the grammar of
      expressions and their meaning, and the forms of a plan between the passes; [FindSquish]: each
      pass takes one form to the next; [FindSpec]: the arguments as a language.

    ** tr (src/text_cmds/tr)

    - [TrSet]: the splay trees of cset.c and cmap.c with their caches (Modules [Cset] and [Cmap]);
      [TrSetFacts]: they are sets and maps.  [Tr]: the operands (str.c) and the program (tr.c), over a
      locale that is a parameter; [TrStr]: the conventions of an operand, as str.c reads them, as a relation between its text and the characters
      it denotes ([denotes]; where it is not the manual's is said at [tr_translates]), and that [next] gives just these; [TrFacts]: the set and the map that are
      made of them; [TrSpec]: what tr writes.

    ** telnet and telnetd (src/remote_cmds/telnet.tproj, src/remote_cmds/telnetd.tproj)

    - [TelnetNeg]: the machine of one option, two of them joined by queues, and the proof that
      they settle.  [TelnetOpts]: the numbers of the protocol and the option words.
    - The server: [Telnetd] (the state [tnd]; sys_term.c, slc.c, the output buffer, the
      requests of state.c), [TelnetdStat] (termstat.c, the option handlers), [TelnetdRecv]
      ([telrcv], [suboption] and [send_status] of state.c, the buffers of utility.c, the
      process's output in telnetd.c).
    - The client: [Telnet] (the handlers and requests of telnet.c and commands.c),
      [TelnetIO] ([telsnd] and [telrcv], the commands to the server, the state [io]),
      [TelnetSub] ([suboption], the environment list of commands.c, the terminal's names,
      line mode and its special characters, what libtelnet's authentication may call in authenc.c), [TelnetRing] (ring.c, [netflush] of network.c,
      [ttyflush] of terminal.c).  The client's definitions are in Modules ([Client],
      [ClientIO], [ClientSub], [Ring]), since both programs have functions of the same names.
    - The two programs share the wire only: the client's [netoring] and the server's
      [netobuf] are lists of messages, and the theorems about both give one's output to the
      other's [telrcv].  [TelnetFocus] reads the machine of one option in a state;
      [TelnetdFacts], [TelnetFacts]: the handlers are that machine; [TelnetPair]: they are the machine of the
      comment in state.c but for one answer, and both ends agree.  Both lists have no bound: the rings of the programs have one,
      and the theorems that depend on it say how much room there must be.  [TelnetdRecvFacts]: the server's receiving machine is safe but for three overruns; [TelnetdData],
      [TelnetIOFacts]: data goes through unchanged in both directions; [TelnetFrame]: a
      suboption goes through; [TelnetEnviron], [TelnetReply]: what the server asks for is
      what the client has; [TelnetSubFacts]: the client comes back from every input;
      [TelnetRingFacts]: a ring is a queue with a mark; [TelnetdSlc]: the third overrun, and
      a linemode that is not recognised.
      [TelnetExamples], [TelnetIOExamples]: a system's numbers, runs, witnesses.

    ** Conventions

    An [int] that the program keeps small is a [Z]; where width matters the wrap-around is
    written out.  Text is [string] (characters are octets), binary data a list of octets.  A
    text that C handles as a string ends at its first NUL ([cstr]).  A loop that is not
    structural has fuel, and its result marks fuel that ran out; each such function has a
    theorem that the fuel given is enough: the main loop of [unifdef] has one turn per octet of
    the input and one more, its evaluator six levels of calls per character,
    [arith_fuel] eight rounds per character, the decoders one round per
    character, [year_fuel] one year in 1460 and two more, [firstday] the days left out by
    a switch, the lines of a month one more than the days; the hash table of [compress] is
    probed as often as it has slots, [zread] has one turn per bit left to read ([turns]; a
    code takes nine), a string of its table one step per octet of the stack; locate.code has one turn
    per octet of the list, [fastfind] one per octet of the database; tsort's loops have one turn per
    node, its recursion is as deep as there are nodes; find's passes have one turn
    per node, [yankexpr] two; [next] of tr calls itself at most twice per octet of the operand and three times
    more, and the loops of [main] take a fuel of which each theorem says how much is enough; [telrcv] of telnetd has one turn per octet
    read, that of telnet also one per gap in its input ([ClientIO.turns]), the loops over a
    suboption one per octet of its buffer, and [env_opt_add], which calls itself once, fuel 1.

    ** What the theorems are about

    Refinement of an abstract specification: [unifdef_preserves_meaning], [setvar_spec],
    [date_refines_tomorrow], [ring_refines_queue], [telnetd_handlers_receive], [tsort_refines], [tables_refine].  Equivalence with a reference: [arith_evaluates],
    [crc_is_posix], [crc32_is_standard], [easterg_is_computus], [locate_finds], [find_follows_grammar].  Invariants: [local_scope],
    [crc_total_is_concatenation].  Termination: [unifdef_always_exits], [arith_terminates],
    [uu_decode_terminates], [firstday_spec], [locate_terminates].  Safety for every
    input: [telrcv_safe], [client_telrcv_safe], [zread_safe].  Agreement of two programs:
    [telnet_telnetd_agree], [typed_arrives], [written_arrives], [environ_arrives],
    [terminal_arrives].  Round trips: [uncompress_compress], [uudecode_uuencode],
    [b64_roundtrip], [date_roundtrip], [sndays_inverts_sdate], [assignment_roundtrip].
    Functional behaviour: [mkmonthr_places_days], [week_is_iso], [unsetvar_spec],
    [patprep_spec], [tsort_orders], [tr_translates], [tr_filters], [case_conversion] and others.
    Behaviour a reader may not expect: [first_code_unchecked], [compressed_but_refused], [read_after_error], [mmap_misses_last],
    [front_of_path],
    [longest_missed], [unbalanced_accepted], [fill_hangs], [last_bracket_reads_on],
    [unifdef_exit_status],
    [local_drops_export], [base64_decode_hangs], [slc_replies_overrun],
    [erase_before_slc_defaults], [linemode_asked_again].

    ** Not modelled

    I/O errors, signals, locales other than C, [printf] to the terminal, memory allocation
    and its failure.  In unifdef the debugging output and the handling of the -o file; in
    var.c the ownership of the texts; in uudecode the opening of the output file and the
    expansion of ~user; in ncal the clock and [getopt].  In telnet the command interpreter (a
    parameter of [telsnd]), the modes of the local terminal and the sockets; in telnetd the
    login, the choice of a pseudo-terminal and the waiting loops; in both the diagnostics, which are off, and
    encryption, in telnetd also authentication, which are compiled out.  What libtelnet's functions do for the client's
    authentication is a parameter ([libprog]: any program that calls [net_write] and [telnet_getenv] and returns).  In compress the files and their
    attributes (compress.c) and the buffering of stdio above [zopen].  In find the primaries themselves, the walk of the tree and the dates.  In tr [getopt] and
    the locale's tables; what -C does with two operands is defined, but no theorem is about it.  In locate the options, the
    opening of databases, their statistics and the counting of bigrams.  [fnmatch] and the
    character tables of locate, in the other programs [MAXPATHLEN], [setmode], the
    addresses of names, terminal sequences, the names of months, <termios.h>, [setupterm],
    [getenv] and [gethostname] are parameters.  The other programs of the repository are not
    modelled: some are wrappers of system calls, some are vendored (libpcap), the rest is
    work to do, in this order: the line filters of
    text_cmds, the pattern matching of sh, dd's conversions,
    patch, the command interpreter of telnet. *)

From Stdlib Require Import ZArith Lia List Bool.
From stdpp Require Import base tactics list numbers.

(** ** Machine-width integers

    C values are kept as [Z]; [uwrap w] and [swrap w] are the conversions to an
    unsigned and to a two's complement integer of [w] bits. *)

Declare Scope cmds_scope.
Delimit Scope cmds_scope with cmds.

Definition uwrap (w : Z) (z : Z) : Z := (z mod 2 ^ w)%Z.
Definition swrap (w : Z) (z : Z) : Z :=
  ((z + 2 ^ (w - 1)) mod 2 ^ w - 2 ^ (w - 1))%Z.

Abbreviation u8 := (uwrap 8).
Abbreviation u16 := (uwrap 16).
Abbreviation u32 := (uwrap 32).
Abbreviation u64 := (uwrap 64).
Abbreviation s32 := (swrap 32).
Abbreviation s64 := (swrap 64).

(** The value of a C comparison. *)
Definition b2z (b : bool) : Z := if b then 1%Z else 0%Z.

Lemma uwrap_range w z : (0 <= w)%Z -> (0 <= uwrap w z < 2 ^ w)%Z.
Proof. intros. apply Z.mod_pos_bound, Z.pow_pos_nonneg; lia. Qed.

Lemma uwrap_small w z : (0 <= z < 2 ^ w)%Z -> uwrap w z = z.
Proof. intros. by apply Z.mod_small. Qed.

Lemma uwrap_uwrap w z : uwrap w (uwrap w z) = uwrap w z.
Proof. apply Zmod_mod. Qed.

Lemma swrap_range w z : (0 < w)%Z -> (- 2 ^ (w - 1) <= swrap w z < 2 ^ (w - 1))%Z.
Proof.
  intros. unfold swrap.
  pose proof (Z.mod_pos_bound (z + 2 ^ (w - 1)) (2 ^ w)).
  assert (2 ^ w = 2 * 2 ^ (w - 1))%Z as E
    by (rewrite <- (Z.pow_succ_r 2) by lia; f_equal; lia).
  assert (0 < 2 ^ w)%Z by (apply Z.pow_pos_nonneg; lia). lia.
Qed.

Lemma swrap_small w z :
  (0 < w)%Z -> (- 2 ^ (w - 1) <= z < 2 ^ (w - 1))%Z -> swrap w z = z.
Proof.
  intros Hw Hz. unfold swrap.
  assert (2 ^ w = 2 * 2 ^ (w - 1))%Z as E
    by (rewrite <- (Z.pow_succ_r 2) by lia; f_equal; lia).
  rewrite Z.mod_small; lia.
Qed.

(** ** How a command ends

    A command either goes on or ends: [Exit] is [exit(status)] after a
    diagnostic, [Crash] is [abort()], and [NoFuel] marks a loop of the model
    that was given too little fuel (the termination theorems show that it never
    appears). *)

Inductive halt :=
  | Exit (status : Z)
  | Crash
  | NoFuel.

#[export] Instance halt_eq_dec : EqDecision halt.
Proof. solve_decision. Defined.

Inductive res (E A : Type) :=
  | Ok (a : A)
  | Ex (e : E).
Arguments Ok {E A} a.
Arguments Ex {E A} e.

(** ** The state and exit monad

    [M E S A] is a computation on the global state [S] that returns an [A] or
    leaves through an [E]; the state it leaves behind is kept in both cases. *)

Definition M (E S A : Type) : Type := S -> res E A * S.

#[export] Instance M_ret {E S} : MRet (M E S) := fun A a s => (Ok a, s).
#[export] Instance M_bind {E S} : MBind (M E S) := fun A B k m s =>
  match m s with
  | (Ok a, s') => k a s'
  | (Ex e, s') => (Ex e, s')
  end.

Definition leave {E S A} (e : E) : M E S A := fun s => (Ex e, s).
Definition get {E S} : M E S S := fun s => (Ok s, s).
Definition gets {E S A} (f : S -> A) : M E S A := fun s => (Ok (f s), s).
Definition modify {E S} (f : S -> S) : M E S unit := fun s => (Ok tt, f s).
Definition mwhen {E S} (b : bool) (m : M E S unit) : M E S unit :=
  if b then m else mret tt.

Section MonadLaws.
Context {E S : Type}.
Implicit Types s : S.

Lemma run_ret {A} (a : A) s : (mret a : M E S A) s = (Ok a, s).
Proof. reflexivity. Qed.

Lemma run_bind_ok {A B} (m : M E S A) (k : A -> M E S B) s a s' :
  m s = (Ok a, s') -> (m ≫= k) s = k a s'.
Proof. intros H. cbv [mbind M_bind]. by rewrite H. Qed.

Lemma run_bind_ex {A B} (m : M E S A) (k : A -> M E S B) s e s' :
  m s = (Ex e, s') -> (m ≫= k) s = (Ex e, s').
Proof. intros H. cbv [mbind M_bind]. by rewrite H. Qed.

Lemma run_bind_ret {A B} (a : A) (k : A -> M E S B) s :
  (mret a ≫= k) s = k a s.
Proof. reflexivity. Qed.

Lemma run_bind_gets {A B} (f : S -> A) (k : A -> M E S B) s :
  (gets f ≫= k) s = k (f s) s.
Proof. reflexivity. Qed.

Lemma run_bind_get {B} (k : S -> M E S B) s : (get ≫= k) s = k s s.
Proof. reflexivity. Qed.

Lemma run_bind_modify {B} (f : S -> S) (k : unit -> M E S B) s :
  (modify f ≫= k) s = k tt (f s).
Proof. reflexivity. Qed.

Lemma run_bind_assoc {A B C} (m : M E S A) (f : A -> M E S B) (g : B -> M E S C) s :
  ((m ≫= f) ≫= g) s = (m ≫= (fun a => f a ≫= g)) s.
Proof. cbv [mbind M_bind]. by destruct (m s) as [[a|e] s']. Qed.
End MonadLaws.

(** ** Triples

    [triple P m Q R]: from a state in [P], [m] either returns [a] in a state
    of [Q a] or ends through [e] in a state of [R e]. *)

Definition triple {E S A} (P : S -> Prop) (m : M E S A)
  (Q : A -> S -> Prop) (R : E -> S -> Prop) : Prop :=
  forall s, P s ->
    match m s with
    | (Ok a, s') => Q a s'
    | (Ex e, s') => R e s'
    end.

Section Triples.
Context {E S : Type} (R : E -> S -> Prop).

Lemma triple_ret {A} (a : A) (P : S -> Prop) (Q : A -> S -> Prop) :
  (forall s, P s -> Q a s) -> triple P (mret a : M E S A) Q R.
Proof. intros H s Hs. exact (H s Hs). Qed.

Lemma triple_bind {A B} (m : M E S A) (k : A -> M E S B) P Q Q' :
  triple P m Q' R -> (forall a, triple (Q' a) (k a) Q R) ->
  triple P (m ≫= k) Q R.
Proof.
    intros Hm Hk s Hs. specialize (Hm s Hs). cbv [mbind M_bind].
    destruct (m s) as [[a|e] s']; [exact (Hk a s' Hm) | exact Hm].
  Qed.

Lemma triple_gets {A} (f : S -> A) (P : S -> Prop) :
  triple P (gets f : M E S A) (fun a s => P s /\ a = f s) R.
Proof. intros s Hs. simpl. by split. Qed.

Lemma triple_modify (f : S -> S) (P : S -> Prop) (Q : unit -> S -> Prop) :
  (forall s, P s -> Q tt (f s)) -> triple P (modify f : M E S unit) Q R.
Proof. intros H s Hs. exact (H s Hs). Qed.

Lemma triple_leave {A} (e : E) (P : S -> Prop) (Q : A -> S -> Prop) :
  (forall s, P s -> R e s) -> triple P (leave e : M E S A) Q R.
Proof. intros H s Hs. exact (H s Hs). Qed.

Lemma triple_weaken {A} (m : M E S A) (P P' : S -> Prop) (Q Q' : A -> S -> Prop) :
  triple P' m Q' R -> (forall s, P s -> P' s) ->
  (forall a s, Q' a s -> Q a s) -> triple P m Q R.
Proof.
    intros Hm HP HQ s Hs. specialize (Hm s (HP s Hs)).
    destruct (m s) as [[a|e] s']; auto.
  Qed.

Lemma triple_when (b : bool) (m : M E S unit) (P : S -> Prop) (Q : unit -> S -> Prop) :
  (b = true -> triple P m Q R) -> (forall s, b = false -> P s -> Q tt s) ->
  triple P (mwhen b m) Q R.
Proof.
    intros Ht Hf s Hs. destruct b; simpl; [by apply Ht | by apply Hf].
  Qed.
End Triples.

(** ** Bit operations on [Z] *)

Ltac xor_bits :=
  apply Z.bits_inj'; intros ? ?; rewrite ?Z.lxor_spec;
  repeat match goal with |- context [Z.testbit ?a ?n] => destruct (Z.testbit a n) end;
  reflexivity.

Section Bits.
Local Open Scope Z_scope.

Lemma lxor_nonneg a b : 0 <= a -> 0 <= b -> 0 <= Z.lxor a b.
Proof. intros. apply Z.lxor_nonneg; lia. Qed.

Lemma lxor_bound a b n : 0 <= n -> 0 <= a < 2 ^ n -> 0 <= b < 2 ^ n -> 0 <= Z.lxor a b < 2 ^ n.
Proof.
  intros Hn Ha Hb. assert (0 <= Z.lxor a b) by (apply lxor_nonneg; lia). split; [done|].
  destruct (decide (Z.lxor a b = 0)) as [->|]; [lia|].
  apply Z.log2_lt_pow2; [lia|].
  assert (0 < n). { destruct (decide (n = 0)) as [->|]; [|lia].
    assert (a = 0 /\ b = 0) as [-> ->] by lia. done. }
  pose proof (Z.log2_lxor a b ltac:(lia) ltac:(lia)).
  assert (forall x, 0 <= x < 2 ^ n -> Z.log2 x < n) as L.
  { intros x Hx. destruct (decide (x = 0)) as [->|]; [simpl; lia|].
    apply Z.log2_lt_pow2; lia. }
  pose proof (L a Ha). pose proof (L b Hb). lia.
Qed.

Lemma lxor_disjoint a b n : 0 <= n -> 0 <= b < 2 ^ n -> Z.lxor (Z.shiftl a n) b = Z.shiftl a n + b.
Proof.
  intros Hn Hb. symmetry. apply Z.add_nocarry_lxor. apply Z.bits_inj'. intros m Hm.
  rewrite Z.land_spec, Z.bits_0, Z.shiftl_spec by lia.
  destruct (decide (m < n)); [by rewrite Z.testbit_neg_r by lia|].
  rewrite <- (Z.mod_small b (2 ^ n)) by lia.
  by rewrite Z.mod_pow2_bits_high, andb_false_r by lia.
Qed.

Lemma lor_shiftl_lxor a b n :
  0 <= n -> 0 <= b < 2 ^ n -> Z.lor (Z.shiftl a n) b = Z.lxor (Z.shiftl a n) b.
Proof.
  intros Hn Hb. apply Z.bits_inj'. intros m Hm.
  rewrite Z.lor_spec, Z.lxor_spec, Z.shiftl_spec by lia.
  destruct (decide (m < n)); [rewrite (Z.testbit_neg_r a) by lia; by destruct (Z.testbit b m)|].
  rewrite <- (Z.mod_small b (2 ^ n)) by lia.
  rewrite Z.mod_pow2_bits_high by lia. by destruct (Z.testbit a (m - n)).
Qed.

(** Fields of bits that do not overlap are added. *)
Lemma lor_shiftl_add a b n :
  0 <= n -> 0 <= b < 2 ^ n -> Z.lor (Z.shiftl a n) b = a * 2 ^ n + b.
Proof. intros. rewrite lor_shiftl_lxor, lxor_disjoint, Z.shiftl_mul_pow2 by lia. done. Qed.

Lemma land_ones_mod a k n : 0 <= n -> k = Z.ones n -> Z.land a k = a mod 2 ^ n.
Proof. intros Hn ->. by apply Z.land_ones. Qed.

(** The octets, to check a property of all of them by computation. *)
Definition octets : list Z := map Z.of_nat (seq 0 256).

Lemma octets_spec (P : Z -> bool) b : forallb P octets = true -> 0 <= b < 256 -> P b = true.
Proof.
  intros H Hb. rewrite forallb_forall in H. apply H. unfold octets. apply in_map_iff.
  exists (Z.to_nat b). split; [lia|]. apply in_seq. lia.
Qed.

End Bits.
