(* ===== verification/CLib.v ===== *)
(** * The C library as the commands use it

    C strings are [string]s without their terminating NUL, so that [*cp == '\0']
    is [cp = EmptyString] and a pointer into a buffer is the suffix it points to.
    The character classes are those of the C locale. *)

From Stdlib Require Import ZArith Lia List Bool String Ascii.
From stdpp Require Import base tactics list numbers strings.
From S2P Require Import Prelude.

Local Open Scope string_scope.
Local Open Scope bool_scope.

#[global] Arguments String.append : simpl nomatch.

(** ** Characters *)

Definition code (c : ascii) : Z := Z.of_N (N_of_ascii c).

Definition in_range (lo hi : ascii) (c : ascii) : bool :=
  ((code lo <=? code c) && (code c <=? code hi))%Z.

Definition isdigit (c : ascii) : bool := in_range "0" "9" c.
Definition isupper (c : ascii) : bool := in_range "A" "Z" c.
Definition islower (c : ascii) : bool := in_range "a" "z" c.
Definition isalpha (c : ascii) : bool := isupper c || islower c.
Definition isalnum (c : ascii) : bool := isalpha c || isdigit c.

(** [isspace]: space, \t, \n, \v, \f and \r. *)
Definition isspace (c : ascii) : bool :=
  (code c =? 32)%Z || ((9 <=? code c)%Z && (code c <=? 13)%Z).

Definition LF : ascii := "010"%char.
Definition CR : ascii := "013"%char.
Definition TAB : ascii := "009"%char.
Definition NUL : ascii := "000"%char.
Definition BSL : ascii := "092"%char.
Definition DQ : ascii := "034"%char.
Definition SQ : ascii := "039"%char.

Definition str1 (c : ascii) : string := String c "".

(** ** Strings *)

(** What a C string function sees of a buffer: the text before the first NUL. *)
Fixpoint cstr (s : string) : string :=
  match s with
  | "" => ""
  | String c s' => if decide (c = NUL) then "" else String c (cstr s')
  end.

(** [s + n], the pointer [n] characters further. *)
Fixpoint sdrop (n : nat) (s : string) : string :=
  match n, s with
  | O, _ => s
  | _, "" => ""
  | S n', String _ s' => sdrop n' s'
  end.

Fixpoint stake (n : nat) (s : string) : string :=
  match n, s with
  | O, _ => ""
  | _, "" => ""
  | S n', String c s' => String c (stake n' s')
  end.

(** [strncmp(s, lit, strlen(lit)) == 0]. *)
Definition starts (lit s : string) : bool := String.prefix lit s.

(** [*s], with NUL at the end of the string. *)
Definition hd (s : string) : ascii :=
  match s with "" => NUL | String c _ => c end.

(** [s[strspn(s, accept)] == '\0'] *)
Fixpoint all_in (accept : list ascii) (s : string) : bool :=
  match s with
  | "" => true
  | String c s' => bool_decide (c ∈ accept) && all_in accept s'
  end.

(** [strrchr(s, c)] as an index. *)
Fixpoint strrchr (c : ascii) (s : string) : option nat :=
  match s with
  | "" => None
  | String a s' =>
      match strrchr c s' with
      | Some i => Some (S i)
      | None => if decide (a = c) then Some O else None
      end
  end.

Lemma sdrop_length n s : String.length (sdrop n s) = (String.length s - n)%nat.
Proof. revert s; induction n; intros [|c s]; simpl; auto; lia. Qed.

Lemma sdrop_sdrop m n s : sdrop m (sdrop n s) = sdrop (n + m) s.
Proof.
  revert s; induction n; intros [|c s]; simpl; auto. by destruct m.
Qed.

Lemma starts_length lit s : starts lit s = true -> (String.length lit <= String.length s)%nat.
Proof.
  unfold starts. revert s; induction lit as [|a lit IH]; intros [|c s]; simpl; try lia; try done.
  destruct (ascii_dec a c); [|done]. intros H. specialize (IH s H). lia.
Qed.

Lemma starts_app lit s : starts lit (lit +:+ s) = true.
Proof.
  unfold starts. induction lit as [|a lit IH]; simpl.
  - by destruct s.
  - by destruct (ascii_dec a a).
Qed.

Lemma sdrop_app lit s : sdrop (String.length lit) (lit +:+ s) = s.
Proof. induction lit; simpl; auto. Qed.

Lemma append_assoc (a b c : string) : (a +:+ b) +:+ c = a +:+ (b +:+ c).
Proof. induction a as [|x a IH]; simpl; [done|]. by rewrite IH. Qed.

Lemma append_nil_r (a : string) : a +:+ "" = a.
Proof. induction a as [|x a IH]; simpl; [done|]. by rewrite IH. Qed.

Lemma length_append (a b : string) :
  String.length (a +:+ b) = (String.length a + String.length b)%nat.
Proof. induction a; simpl; auto. Qed.

(** ** [fgets(buf, n, stdin)] on the rest of the input

    At most [n - 1] characters, up to and including a newline; [None] is the
    NULL of end of file.  The second component is the input left. *)

Fixpoint fgets_take (n : nat) (inp : string) : string * string :=
  match n, inp with
  | O, _ => ("", inp)
  | S _, "" => ("", "")
  | S n', String c inp' =>
      if decide (c = LF) then (str1 LF, inp')
      else let (l, r) := fgets_take n' inp' in (String c l, r)
  end.

Definition fgets (n : Z) (inp : string) : option string * string :=
  if (n <=? 0)%Z then (None, inp)
  else if (n =? 1)%Z then (Some "", inp)
  else match inp with
       | "" => (None, "")
       | _ => let (l, r) := fgets_take (Z.to_nat (n - 1)) inp in (Some (cstr l), r)
       end.

Lemma fgets_take_length n inp l r :
  fgets_take n inp = (l, r) ->
  (String.length l + String.length r = String.length inp)%nat.
Proof.
  revert inp l r. induction n as [|n IH]; intros [|c inp] l r; simpl; intros H;
    simplify_eq; auto.
  case_decide; simplify_eq; simpl; [lia|].
  destruct (fgets_take n inp) as [l' r'] eqn:E. simplify_eq.
  apply IH in E. simpl. lia.
Qed.

Lemma fgets_progress n inp l r :
  (1 < n)%Z -> fgets n inp = (Some l, r) -> (String.length r < String.length inp)%nat.
Proof.
  unfold fgets. intros Hn.
  destruct (Z.leb_spec n 0), (Z.eqb_spec n 1); try lia.
  destruct inp as [|c inp]; [done|].
  destruct (Z.to_nat (n - 1)) as [|k] eqn:E; [lia|]. simpl.
  case_decide; intros ?; simplify_eq; simpl; [lia|].
  destruct (fgets_take k inp) as [l' r'] eqn:E'. simplify_eq.
  apply fgets_take_length in E'. lia.
Qed.

Lemma fgets_no_longer n inp o r :
  fgets n inp = (o, r) -> (String.length r <= String.length inp)%nat.
Proof.
  unfold fgets. destruct (n <=? 0)%Z; [by intros [= <- <-]|].
  destruct (n =? 1)%Z; [by intros [= <- <-]|].
  destruct inp as [|c inp]; [by intros [= <- <-]|].
  destruct (fgets_take _ _) as [l' r'] eqn:E. intros [= <- <-].
  apply fgets_take_length in E. lia.
Qed.

(** ** [strtol(s, &end, 0)] and [strtoimax(s, &end, 0)] (both 64 bits wide)

    White space, an optional sign, then [0x]/[0X] and hexadecimal digits, [0]
    and octal digits, or decimal digits; the result saturates, with [errno]
    set, when it does not fit. *)

Definition INTMAX_MAX : Z := (2 ^ 63 - 1)%Z.
Definition INTMAX_MIN : Z := (- 2 ^ 63)%Z.

Definition digit_val (c : ascii) : option Z :=
  if isdigit c then Some (code c - code "0")%Z
  else if islower c then Some (code c - code "a" + 10)%Z
  else if isupper c then Some (code c - code "A" + 10)%Z
  else None.

Definition base_digit (base : Z) (c : ascii) : option Z :=
  match digit_val c with
  | Some d => if (d <? base)%Z then Some d else None
  | None => None
  end.

Fixpoint digits (base acc : Z) (s : string) : Z * string :=
  match s with
  | "" => (acc, "")
  | String c s' =>
      match base_digit base c with
      | Some d => digits base (acc * base + d)%Z s'
      | None => (acc, s)
      end
  end.

Fixpoint skip_space (s : string) : string :=
  match s with
  | "" => ""
  | String c s' => if isspace c then skip_space s' else s
  end.

Record strtol_result := {
  sr_val : Z;
  sr_end : string;
  sr_range : bool (* errno == ERANGE *) }.

Definition saturate (v : Z) : Z := Z.max INTMAX_MIN (Z.min INTMAX_MAX v).

(** The base that [base == 0] selects and where its digits start. *)
Definition strtol_base (s : string) : Z * string :=
  match s with
  | String "0" (String x (String d _ as r)) =>
      if (bool_decide (x = "x"%char) || bool_decide (x = "X"%char))
         && match base_digit 16 d with Some _ => true | None => false end
      then (16%Z, r) else (8%Z, s)
  | String "0" _ => (8%Z, s)
  | _ => (10%Z, s)
  end.

Definition strtol0 (s : string) : strtol_result :=
  let s1 := skip_space s in
  let '(neg, s2) :=
    match s1 with
    | String "-" r => (true, r)
    | String "+" r => (false, r)
    | _ => (false, s1)
    end in
  let '(base, s3) := strtol_base s2 in
  match s3 with
  | String c _ =>
      match base_digit base c with
      | Some _ =>
          let '(v, r) := digits base 0 s3 in
          let v' := if neg then (- v)%Z else v in
          {| sr_val := saturate v'; sr_end := r;
             sr_range := negb (saturate v' =? v')%Z |}
      | None => {| sr_val := 0%Z; sr_end := s; sr_range := false |}
      end
  | "" => {| sr_val := 0%Z; sr_end := s; sr_range := false |}
  end.

Example strtol0_dec : sr_val (strtol0 "  -42;") = (-42)%Z.
Proof. reflexivity. Qed.
Example strtol0_hex : (sr_val (strtol0 "0x1fz"), sr_end (strtol0 "0x1fz")) = (31%Z, "z").
Proof. reflexivity. Qed.
Example strtol0_hex_bare : (sr_val (strtol0 "0xg"), sr_end (strtol0 "0xg")) = (0%Z, "xg").
Proof. reflexivity. Qed.
Example strtol0_big : sr_range (strtol0 "9223372036854775808") = true.
Proof. reflexivity. Qed.

(** [strtol(s, &end, 10)] *)
Definition strtol10 (s : string) : strtol_result :=
  let s1 := skip_space s in
  let '(neg, s2) :=
    match s1 with
    | String "-" r => (true, r)
    | String "+" r => (false, r)
    | _ => (false, s1)
    end in
  match s2 with
  | String c _ =>
      match base_digit 10 c with
      | Some _ =>
          let '(v, r) := digits 10 0 s2 in
          let v' := if neg then (- v)%Z else v in
          {| sr_val := saturate v'; sr_end := r;
             sr_range := negb (saturate v' =? v')%Z |}
      | None => {| sr_val := 0%Z; sr_end := s; sr_range := false |}
      end
  | "" => {| sr_val := 0%Z; sr_end := s; sr_range := false |}
  end.

(** ** Lines *)

(** A text that [fgets] does not cut: no newline and no NUL. *)
Fixpoint plain (s : string) : bool :=
  match s with
  | "" => true
  | String c s => negb (bool_decide (c = LF)) && negb (bool_decide (c = NUL)) && plain s
  end.

Lemma plain_app a b : plain (a +:+ b) = plain a && plain b.
Proof. induction a as [|c a IH]; simpl; [done|]. by rewrite IH, !andb_assoc. Qed.

Lemma cstr_plain s : plain s = true -> cstr s = s.
Proof.
  induction s as [|c s IH]; simpl; [done|]. rewrite !andb_true_iff, !negb_true_iff, !bool_decide_eq_false.
  intros [[_ H] Hs]. rewrite decide_False by done. by rewrite IH.
Qed.

Lemma cstr_plain_line s : plain s = true -> cstr (s +:+ str1 LF) = s +:+ str1 LF.
Proof.
  induction s as [|c s IH]; simpl; [done|]. rewrite !andb_true_iff, !negb_true_iff, !bool_decide_eq_false.
  intros [[_ H] Hs]. rewrite decide_False by done. by rewrite IH.
Qed.

Lemma fgets_take_line n l rest :
  plain l = true -> (String.length l < n)%nat ->
  fgets_take n (l +:+ String LF rest) = (l +:+ str1 LF, rest).
Proof.
  revert n. induction l as [|c l IH]; intros [|n] Hp Hn; simpl in *; try lia; [done|].
  rewrite !andb_true_iff, !negb_true_iff, !bool_decide_eq_false in Hp. destruct Hp as [[H _] Hs].
  rewrite decide_False by done. rewrite IH by (done || lia). done.
Qed.

Lemma fgets_take_full l rest :
  plain l = true -> fgets_take (String.length l) (l +:+ rest) = (l, rest).
Proof.
  induction l as [|c l IH]; simpl; [by destruct rest|].
  rewrite !andb_true_iff, !negb_true_iff, !bool_decide_eq_false. intros [[H _] Hs].
  rewrite decide_False by done. by rewrite IH.
Qed.

Lemma fgets_line n l rest :
  plain l = true -> (Z.of_nat (String.length l) + 1 < n)%Z ->
  fgets n (l +:+ String LF rest) = (Some (l +:+ str1 LF), rest).
Proof.
  intros Hp Hn. unfold fgets. destruct (Z.leb_spec n 0); [lia|]. destruct (Z.eqb_spec n 1); [lia|].
  rewrite fgets_take_line by (done || lia). rewrite cstr_plain_line by done.
  by destruct l.
Qed.

Lemma sdrop_prefix (a b : string) : sdrop (String.length a) (a +:+ b) = b.
Proof. apply sdrop_app. Qed.
