(* ===== verification/Unifdef.v ===== *)
(** * unifdef: types, state and line machine ([src/developer_cmds/unifdef/unifdef.c])

    The C globals are the fields of [ust]; the command-line options and the
    symbol table, which do not change while a file is processed, are the
    arguments [opt] and [syms].  [U A] is a computation on the globals that may
    end the program ([error], [done], [abort]). *)

From Stdlib Require Import ZArith Lia List Bool String Ascii.
From stdpp Require Import base tactics list numbers strings pretty.
From S2P Require Import Prelude CLib.

Local Open Scope string_scope.
Local Open Scope bool_scope.

(** ** Line types *)

(** The directives a line can be; the ten first values of [Linetype]. *)
Inductive directive :=
  | TRUEI | FALSEI | IF | TRUE | FALSE | ELIF | ELTRUE | ELFALSE | ELSE | ENDIF.

(** [Linetype]: [LT_DODGY + d] is [Dodgy d]. *)
Inductive Linetype :=
  | LT (d : directive)
  | Dodgy (d : directive)
  | PLAIN
  | EOF
  | ERROR.

Inductive Ifstate :=
  | IS_OUTSIDE
  | IS_FALSE_PREFIX
  | IS_TRUE_PREFIX
  | IS_PASS_MIDDLE
  | IS_FALSE_MIDDLE
  | IS_TRUE_MIDDLE
  | IS_PASS_ELSE
  | IS_FALSE_ELSE
  | IS_TRUE_ELSE
  | IS_FALSE_TRAILER.

Inductive Comment_state :=
  | NO_COMMENT
  | C_COMMENT
  | CXX_COMMENT
  | STARTING_COMMENT
  | FINISHING_COMMENT
  | CHAR_LITERAL
  | STRING_LITERAL.

Inductive Line_state := LS_START | LS_HASH | LS_DIRTY.

#[export] Instance directive_eq_dec : EqDecision directive.
Proof. solve_decision. Defined.
#[export] Instance Linetype_eq_dec : EqDecision Linetype.
Proof. solve_decision. Defined.
#[export] Instance Ifstate_eq_dec : EqDecision Ifstate.
Proof. solve_decision. Defined.
#[export] Instance Comment_state_eq_dec : EqDecision Comment_state.
Proof. solve_decision. Defined.
#[export] Instance Line_state_eq_dec : EqDecision Line_state.
Proof. solve_decision. Defined.

Definition directive_index (d : directive) : nat :=
  match d with
  | TRUEI => 0 | FALSEI => 1 | IF => 2 | TRUE => 3 | FALSE => 4
  | ELIF => 5 | ELTRUE => 6 | ELFALSE => 7 | ELSE => 8 | ENDIF => 9
  end.

(** The enum's numbering: [LT_DODGY] is 10, so the dodgy directives are 10..19. *)
Definition lt_index (l : Linetype) : nat :=
  match l with
  | LT d => directive_index d
  | Dodgy d => 10 + directive_index d
  | PLAIN => 20
  | EOF => 21
  | ERROR => 22
  end.

Definition is_index (s : Ifstate) : nat :=
  match s with
  | IS_OUTSIDE => 0 | IS_FALSE_PREFIX => 1 | IS_TRUE_PREFIX => 2
  | IS_PASS_MIDDLE => 3 | IS_FALSE_MIDDLE => 4 | IS_TRUE_MIDDLE => 5
  | IS_PASS_ELSE => 6 | IS_FALSE_ELSE => 7 | IS_TRUE_ELSE => 8
  | IS_FALSE_TRAILER => 9
  end.

Definition MAXDEPTH : nat := 64.
Definition MAXLINE : Z := 4096.
Definition MAXSYMS : nat := 4096.
Definition EDITSLOP : Z := 10.

(** ** Options and symbols *)

Record options := {
  compblank : bool;    (* -B *)
  lnblank : bool;      (* -b, -l *)
  complement : bool;   (* -c *)
  iocccok : bool;      (* -e *)
  strictlogic : bool;  (* -K *)
  killconsts : bool;   (* -k *)
  lnnum : bool;        (* -n *)
  symlist : bool;      (* -s, -S *)
  symdepth : bool;     (* -S *)
  text : bool          (* -t *) }.

(** One slot of the parallel arrays [symname], [value] and [ignore]. *)
Record symbol := {
  symname : string;
  value : option string;
  ignore : bool }.

(** ** The global state *)

Record ust := {
  input : string;            (* what stdin still holds *)
  output : list string;      (* what was written, oldest first *)
  listing : list string;     (* what -s and -S printed, oldest first *)
  linenum : Z;
  tline : string;
  keyword : nat;             (* offset in tline *)
  newline : option string;
  incomment : Comment_state;
  linestate : Line_state;
  ifstate : list Ifstate;
  ignoring : list bool;
  stifline : list Z;
  depth : nat;
  delcount : Z;
  blankcount : Z;
  blankmax : Z;
  constexpr : bool;
  zerosyms : bool;
  firstsym : bool;
  exitstat : Z }.

(** The C initial values: zeroed arrays of [MAXDEPTH] entries, [zerosyms] true. *)
Definition ust_init (inp : string) : ust := {|
  input := inp; output := []; listing := []; linenum := 0; tline := "";
  keyword := 0; newline := None; incomment := NO_COMMENT; linestate := LS_START;
  ifstate := replicate MAXDEPTH IS_OUTSIDE; ignoring := replicate MAXDEPTH false;
  stifline := replicate MAXDEPTH 0%Z; depth := 0; delcount := 0;
  blankcount := 0; blankmax := 0; constexpr := false; zerosyms := true;
  firstsym := false; exitstat := 0 |}.

(** Assignments to one global. *)

Definition set_input v s := {|
  input := v; output := output s; listing := listing s; linenum := linenum s;
  tline := tline s; keyword := keyword s; newline := newline s;
  incomment := incomment s; linestate := linestate s; ifstate := ifstate s;
  ignoring := ignoring s; stifline := stifline s; depth := depth s;
  delcount := delcount s; blankcount := blankcount s; blankmax := blankmax s;
  constexpr := constexpr s; zerosyms := zerosyms s; firstsym := firstsym s;
  exitstat := exitstat s |}.

Definition set_output v s := {|
  input := input s; output := v; listing := listing s; linenum := linenum s;
  tline := tline s; keyword := keyword s; newline := newline s;
  incomment := incomment s; linestate := linestate s; ifstate := ifstate s;
  ignoring := ignoring s; stifline := stifline s; depth := depth s;
  delcount := delcount s; blankcount := blankcount s; blankmax := blankmax s;
  constexpr := constexpr s; zerosyms := zerosyms s; firstsym := firstsym s;
  exitstat := exitstat s |}.

Definition set_listing v s := {|
  input := input s; output := output s; listing := v; linenum := linenum s;
  tline := tline s; keyword := keyword s; newline := newline s;
  incomment := incomment s; linestate := linestate s; ifstate := ifstate s;
  ignoring := ignoring s; stifline := stifline s; depth := depth s;
  delcount := delcount s; blankcount := blankcount s; blankmax := blankmax s;
  constexpr := constexpr s; zerosyms := zerosyms s; firstsym := firstsym s;
  exitstat := exitstat s |}.

Definition set_linenum v s := {|
  input := input s; output := output s; listing := listing s; linenum := v;
  tline := tline s; keyword := keyword s; newline := newline s;
  incomment := incomment s; linestate := linestate s; ifstate := ifstate s;
  ignoring := ignoring s; stifline := stifline s; depth := depth s;
  delcount := delcount s; blankcount := blankcount s; blankmax := blankmax s;
  constexpr := constexpr s; zerosyms := zerosyms s; firstsym := firstsym s;
  exitstat := exitstat s |}.

Definition set_tline v s := {|
  input := input s; output := output s; listing := listing s;
  linenum := linenum s; tline := v; keyword := keyword s;
  newline := newline s; incomment := incomment s; linestate := linestate s;
  ifstate := ifstate s; ignoring := ignoring s; stifline := stifline s;
  depth := depth s; delcount := delcount s; blankcount := blankcount s;
  blankmax := blankmax s; constexpr := constexpr s; zerosyms := zerosyms s;
  firstsym := firstsym s; exitstat := exitstat s |}.

Definition set_keyword v s := {|
  input := input s; output := output s; listing := listing s;
  linenum := linenum s; tline := tline s; keyword := v; newline := newline s;
  incomment := incomment s; linestate := linestate s; ifstate := ifstate s;
  ignoring := ignoring s; stifline := stifline s; depth := depth s;
  delcount := delcount s; blankcount := blankcount s; blankmax := blankmax s;
  constexpr := constexpr s; zerosyms := zerosyms s; firstsym := firstsym s;
  exitstat := exitstat s |}.

Definition set_newline v s := {|
  input := input s; output := output s; listing := listing s;
  linenum := linenum s; tline := tline s; keyword := keyword s; newline := v;
  incomment := incomment s; linestate := linestate s; ifstate := ifstate s;
  ignoring := ignoring s; stifline := stifline s; depth := depth s;
  delcount := delcount s; blankcount := blankcount s; blankmax := blankmax s;
  constexpr := constexpr s; zerosyms := zerosyms s; firstsym := firstsym s;
  exitstat := exitstat s |}.

Definition set_incomment v s := {|
  input := input s; output := output s; listing := listing s;
  linenum := linenum s; tline := tline s; keyword := keyword s;
  newline := newline s; incomment := v; linestate := linestate s;
  ifstate := ifstate s; ignoring := ignoring s; stifline := stifline s;
  depth := depth s; delcount := delcount s; blankcount := blankcount s;
  blankmax := blankmax s; constexpr := constexpr s; zerosyms := zerosyms s;
  firstsym := firstsym s; exitstat := exitstat s |}.

Definition set_linestate v s := {|
  input := input s; output := output s; listing := listing s;
  linenum := linenum s; tline := tline s; keyword := keyword s;
  newline := newline s; incomment := incomment s; linestate := v;
  ifstate := ifstate s; ignoring := ignoring s; stifline := stifline s;
  depth := depth s; delcount := delcount s; blankcount := blankcount s;
  blankmax := blankmax s; constexpr := constexpr s; zerosyms := zerosyms s;
  firstsym := firstsym s; exitstat := exitstat s |}.

Definition set_ifstate v s := {|
  input := input s; output := output s; listing := listing s;
  linenum := linenum s; tline := tline s; keyword := keyword s;
  newline := newline s; incomment := incomment s; linestate := linestate s;
  ifstate := v; ignoring := ignoring s; stifline := stifline s;
  depth := depth s; delcount := delcount s; blankcount := blankcount s;
  blankmax := blankmax s; constexpr := constexpr s; zerosyms := zerosyms s;
  firstsym := firstsym s; exitstat := exitstat s |}.

Definition set_ignoring v s := {|
  input := input s; output := output s; listing := listing s;
  linenum := linenum s; tline := tline s; keyword := keyword s;
  newline := newline s; incomment := incomment s; linestate := linestate s;
  ifstate := ifstate s; ignoring := v; stifline := stifline s;
  depth := depth s; delcount := delcount s; blankcount := blankcount s;
  blankmax := blankmax s; constexpr := constexpr s; zerosyms := zerosyms s;
  firstsym := firstsym s; exitstat := exitstat s |}.

Definition set_stifline v s := {|
  input := input s; output := output s; listing := listing s;
  linenum := linenum s; tline := tline s; keyword := keyword s;
  newline := newline s; incomment := incomment s; linestate := linestate s;
  ifstate := ifstate s; ignoring := ignoring s; stifline := v;
  depth := depth s; delcount := delcount s; blankcount := blankcount s;
  blankmax := blankmax s; constexpr := constexpr s; zerosyms := zerosyms s;
  firstsym := firstsym s; exitstat := exitstat s |}.

Definition set_depth v s := {|
  input := input s; output := output s; listing := listing s;
  linenum := linenum s; tline := tline s; keyword := keyword s;
  newline := newline s; incomment := incomment s; linestate := linestate s;
  ifstate := ifstate s; ignoring := ignoring s; stifline := stifline s;
  depth := v; delcount := delcount s; blankcount := blankcount s;
  blankmax := blankmax s; constexpr := constexpr s; zerosyms := zerosyms s;
  firstsym := firstsym s; exitstat := exitstat s |}.

Definition set_delcount v s := {|
  input := input s; output := output s; listing := listing s;
  linenum := linenum s; tline := tline s; keyword := keyword s;
  newline := newline s; incomment := incomment s; linestate := linestate s;
  ifstate := ifstate s; ignoring := ignoring s; stifline := stifline s;
  depth := depth s; delcount := v; blankcount := blankcount s;
  blankmax := blankmax s; constexpr := constexpr s; zerosyms := zerosyms s;
  firstsym := firstsym s; exitstat := exitstat s |}.

Definition set_blankcount v s := {|
  input := input s; output := output s; listing := listing s;
  linenum := linenum s; tline := tline s; keyword := keyword s;
  newline := newline s; incomment := incomment s; linestate := linestate s;
  ifstate := ifstate s; ignoring := ignoring s; stifline := stifline s;
  depth := depth s; delcount := delcount s; blankcount := v;
  blankmax := blankmax s; constexpr := constexpr s; zerosyms := zerosyms s;
  firstsym := firstsym s; exitstat := exitstat s |}.

Definition set_blankmax v s := {|
  input := input s; output := output s; listing := listing s;
  linenum := linenum s; tline := tline s; keyword := keyword s;
  newline := newline s; incomment := incomment s; linestate := linestate s;
  ifstate := ifstate s; ignoring := ignoring s; stifline := stifline s;
  depth := depth s; delcount := delcount s; blankcount := blankcount s;
  blankmax := v; constexpr := constexpr s; zerosyms := zerosyms s;
  firstsym := firstsym s; exitstat := exitstat s |}.

Definition set_constexpr v s := {|
  input := input s; output := output s; listing := listing s;
  linenum := linenum s; tline := tline s; keyword := keyword s;
  newline := newline s; incomment := incomment s; linestate := linestate s;
  ifstate := ifstate s; ignoring := ignoring s; stifline := stifline s;
  depth := depth s; delcount := delcount s; blankcount := blankcount s;
  blankmax := blankmax s; constexpr := v; zerosyms := zerosyms s;
  firstsym := firstsym s; exitstat := exitstat s |}.

Definition set_zerosyms v s := {|
  input := input s; output := output s; listing := listing s;
  linenum := linenum s; tline := tline s; keyword := keyword s;
  newline := newline s; incomment := incomment s; linestate := linestate s;
  ifstate := ifstate s; ignoring := ignoring s; stifline := stifline s;
  depth := depth s; delcount := delcount s; blankcount := blankcount s;
  blankmax := blankmax s; constexpr := constexpr s; zerosyms := v;
  firstsym := firstsym s; exitstat := exitstat s |}.

Definition set_firstsym v s := {|
  input := input s; output := output s; listing := listing s;
  linenum := linenum s; tline := tline s; keyword := keyword s;
  newline := newline s; incomment := incomment s; linestate := linestate s;
  ifstate := ifstate s; ignoring := ignoring s; stifline := stifline s;
  depth := depth s; delcount := delcount s; blankcount := blankcount s;
  blankmax := blankmax s; constexpr := constexpr s; zerosyms := zerosyms s;
  firstsym := v; exitstat := exitstat s |}.

Definition set_exitstat v s := {|
  input := input s; output := output s; listing := listing s;
  linenum := linenum s; tline := tline s; keyword := keyword s;
  newline := newline s; incomment := incomment s; linestate := linestate s;
  ifstate := ifstate s; ignoring := ignoring s; stifline := stifline s;
  depth := depth s; delcount := delcount s; blankcount := blankcount s;
  blankmax := blankmax s; constexpr := constexpr s; zerosyms := zerosyms s;
  firstsym := firstsym s; exitstat := v |}.

Abbreviation U := (M halt ust).

Definition ifstate_at (s : ust) : Ifstate := default IS_OUTSIDE (ifstate s !! depth s).
Definition ignoring_at (s : ust) (d : nat) : bool := default false (ignoring s !! d).
Definition newline_str (s : ust) : string := default "" (newline s).

(** ** Output and errors *)

Section Machine.
  Context (opt : options).

Definition emit (t : string) : U unit := modify (fun s => set_output (output s ++ [t]) s).
Definition say (t : string) : U unit := modify (fun s => set_listing (listing s ++ [t]) s).

  (** [closeout]: the final newline of the [-S] listing; writing and closing
      the output file are taken to succeed. *)
Definition closeout : U unit :=
  z ← gets zerosyms;
  mwhen (symdepth opt && negb z) (say (str1 LF)).

  (** [error]: diagnose, flush, and exit with status 2. *)
Definition error {A} : U A := _ ← closeout; leave (Exit 2).

Definition crash {A} : U A := leave Crash.

Definition Eioccc : U unit := error.

  (** [done] *)
Definition done_ : U unit :=
  c ← gets incomment;
  _ ← mwhen (bool_decide (c <> NO_COMMENT)) error;
  _ ← closeout;
  e ← gets exitstat;
  leave (Exit e).

  (** [flushline] *)
Definition is_blank (t : string) : bool := all_in [" "%char; TAB; CR; LF] t.

Definition flushline (keep : bool) : U unit :=
  if symlist opt then mret tt else
  if xorb keep (complement opt) then
    s ← get;
    let blankline := is_blank (tline s) in
    if blankline && compblank opt && negb (blankcount s =? blankmax s)%Z then
      modify (fun s => set_blankcount (u32 (blankcount s + 1)) (set_delcount (delcount s + 1) s))
    else
      _ ← mwhen (lnnum opt && (0 <? delcount s)%Z)
            (emit ("#line " +:+ pretty (linenum s) +:+ newline_str s));
      _ ← emit (tline s);
      modify (fun s =>
        let b := if blankline then u32 (blankcount s + 1) else 0%Z in
        set_blankmax b (set_blankcount b (set_delcount 0 s)))
  else
    nl ← gets newline_str;
    _ ← mwhen (lnblank opt) (emit nl);
    modify (fun s => set_blankcount 0 (set_delcount (delcount s + 1) (set_exitstat 1 s))).

Definition print : U unit := flushline true.
Definition drop : U unit := flushline false.

  (** ** State machine utility functions *)

Definition ignoreoff : U unit :=
  d ← gets depth;
  match d with
  | O => crash
  | S d' => modify (fun s => set_ignoring (<[d := ignoring_at s d']> (ignoring s)) s)
  end.

Definition ignoreon : U unit :=
  modify (fun s => set_ignoring (<[depth s := true]> (ignoring s)) s).

  (** [snprintf(keyword, tline + sizeof(tline) - keyword, "%s%s", ...)]
      replaces the line from the keyword on, cut to the room the buffer has. *)
Definition keywordedit (replacement : string) : U unit :=
  _ ← modify (fun s =>
    let room := Z.to_nat (MAXLINE + EDITSLOP - Z.of_nat (keyword s) - 1) in
    set_tline (stake (keyword s) (tline s) +:+
               stake room (replacement +:+ newline_str s)) s);
  print.

Definition nest : U unit :=
  d ← gets depth;
  _ ← mwhen (MAXDEPTH - 1 <? d)%nat crash;
  _ ← mwhen (d =? MAXDEPTH - 1)%nat error;
  modify (fun s => set_stifline (<[S d := linenum s]> (stifline s)) (set_depth (S d) s)).

Definition unnest : U unit :=
  d ← gets depth;
  match d with
  | O => crash
  | S d' => modify (set_depth d')
  end.

Definition state (ifs : Ifstate) : U unit :=
  modify (fun s => set_ifstate (<[depth s := ifs]> (ifstate s)) s).

  (** [strncpy(p, lit, strlen(lit))] at the keyword: overwrite in place. *)
Definition overwrite (k : nat) (lit t : string) : string :=
  stake k t +:+ lit +:+ sdrop (k + String.length lit) t.

  (** ** The transition functions *)

Definition Eelif : U unit := error.
Definition Eelse : U unit := error.
Definition Eendif : U unit := error.
Definition Eeof : U unit := error.
(* output lacks group's start line *)
Definition Strue : U unit := _ ← drop; _ ← ignoreoff; state IS_TRUE_PREFIX.
Definition Sfalse : U unit := _ ← drop; _ ← ignoreoff; state IS_FALSE_PREFIX.
Definition Selse : U unit := _ ← drop; state IS_TRUE_ELSE.
(* print/pass this block *)
Definition Pelif : U unit := _ ← print; _ ← ignoreoff; state IS_PASS_MIDDLE.
Definition Pelse : U unit := _ ← print; state IS_PASS_ELSE.
Definition Pendif : U unit := _ ← print; unnest.
(* discard this block *)
Definition Dfalse : U unit := _ ← drop; _ ← ignoreoff; state IS_FALSE_TRAILER.
Definition Delif : U unit := _ ← drop; _ ← ignoreoff; state IS_FALSE_MIDDLE.
Definition Delse : U unit := _ ← drop; state IS_FALSE_ELSE.
Definition Dendif : U unit := _ ← drop; unnest.
(* first line of group *)
Definition Fdrop : U unit := _ ← nest; Dfalse.
Definition Fpass : U unit := _ ← nest; Pelif.
Definition Ftrue : U unit := _ ← nest; Strue.
Definition Ffalse : U unit := _ ← nest; Sfalse.
(* variable pedantry for obfuscated lines *)
Definition Oiffy : U unit := _ ← mwhen (negb (iocccok opt)) Eioccc; _ ← Fpass; ignoreon.
Definition Oif : U unit := _ ← mwhen (negb (iocccok opt)) Eioccc; Fpass.
Definition Oelif : U unit := _ ← mwhen (negb (iocccok opt)) Eioccc; Pelif.
(* ignore comments in this block *)
Definition Idrop : U unit := _ ← Fdrop; ignoreon.
Definition Itrue : U unit := _ ← Ftrue; ignoreon.
Definition Ifalse : U unit := _ ← Ffalse; ignoreon.
(* modify this line *)
Definition Mpass : U unit :=
  _ ← modify (fun s => set_tline (overwrite (keyword s) "if  " (tline s)) s); Pelif.
Definition Mtrue : U unit := _ ← keywordedit "else"; state IS_TRUE_MIDDLE.
Definition Melif : U unit := _ ← keywordedit "endif"; state IS_FALSE_TRAILER.
Definition Melse : U unit := _ ← keywordedit "endif"; state IS_FALSE_ELSE.
Definition abort : U unit := crash.

  (** [trans_table[IS_COUNT][LT_COUNT]] *)
Definition trans_table : list (list (U unit)) := [
  (* IS_OUTSIDE *)
  [Itrue; Ifalse; Fpass; Ftrue; Ffalse; Eelif; Eelif; Eelif; Eelse; Eendif;
   Oiffy; Oiffy; Fpass; Oif; Oif; Eelif; Eelif; Eelif; Eelse; Eendif;
   print; done_; abort];
  (* IS_FALSE_PREFIX *)
  [Idrop; Idrop; Fdrop; Fdrop; Fdrop; Mpass; Strue; Sfalse; Selse; Dendif;
   Idrop; Idrop; Fdrop; Fdrop; Fdrop; Mpass; Eioccc; Eioccc; Eioccc; Eioccc;
   drop; Eeof; abort];
  (* IS_TRUE_PREFIX *)
  [Itrue; Ifalse; Fpass; Ftrue; Ffalse; Dfalse; Dfalse; Dfalse; Delse; Dendif;
   Oiffy; Oiffy; Fpass; Oif; Oif; Eioccc; Eioccc; Eioccc; Eioccc; Eioccc;
   print; Eeof; abort];
  (* IS_PASS_MIDDLE *)
  [Itrue; Ifalse; Fpass; Ftrue; Ffalse; Pelif; Mtrue; Delif; Pelse; Pendif;
   Oiffy; Oiffy; Fpass; Oif; Oif; Pelif; Oelif; Oelif; Pelse; Pendif;
   print; Eeof; abort];
  (* IS_FALSE_MIDDLE *)
  [Idrop; Idrop; Fdrop; Fdrop; Fdrop; Pelif; Mtrue; Delif; Pelse; Pendif;
   Idrop; Idrop; Fdrop; Fdrop; Fdrop; Eioccc; Eioccc; Eioccc; Eioccc; Eioccc;
   drop; Eeof; abort];
  (* IS_TRUE_MIDDLE *)
  [Itrue; Ifalse; Fpass; Ftrue; Ffalse; Melif; Melif; Melif; Melse; Pendif;
   Oiffy; Oiffy; Fpass; Oif; Oif; Eioccc; Eioccc; Eioccc; Eioccc; Pendif;
   print; Eeof; abort];
  (* IS_PASS_ELSE *)
  [Itrue; Ifalse; Fpass; Ftrue; Ffalse; Eelif; Eelif; Eelif; Eelse; Pendif;
   Oiffy; Oiffy; Fpass; Oif; Oif; Eelif; Eelif; Eelif; Eelse; Pendif;
   print; Eeof; abort];
  (* IS_FALSE_ELSE *)
  [Idrop; Idrop; Fdrop; Fdrop; Fdrop; Eelif; Eelif; Eelif; Eelse; Dendif;
   Idrop; Idrop; Fdrop; Fdrop; Fdrop; Eelif; Eelif; Eelif; Eelse; Eioccc;
   drop; Eeof; abort];
  (* IS_TRUE_ELSE *)
  [Itrue; Ifalse; Fpass; Ftrue; Ffalse; Eelif; Eelif; Eelif; Eelse; Dendif;
   Oiffy; Oiffy; Fpass; Oif; Oif; Eelif; Eelif; Eelif; Eelse; Eioccc;
   print; Eeof; abort];
  (* IS_FALSE_TRAILER *)
  [Idrop; Idrop; Fdrop; Fdrop; Fdrop; Dfalse; Dfalse; Dfalse; Delse; Dendif;
   Idrop; Idrop; Fdrop; Fdrop; Fdrop; Dfalse; Dfalse; Dfalse; Delse; Eioccc;
   drop; Eeof; abort]].

  (** [trans_table[ifstate[depth]][lineval]()] *)
Definition trans (ifs : Ifstate) (lineval : Linetype) : U unit :=
  nth (lt_index lineval) (nth (is_index ifs) trans_table []) crash.

  (** One turn of [process]: read a line, make the transition. *)
Definition process_step (parseline : U Linetype) : U unit :=
  lineval ← parseline;
  s ← get;
  trans (ifstate_at s) lineval.

Fixpoint process_loop (parseline : U Linetype) (fuel : nat) : U unit :=
  match fuel with
  | O => leave NoFuel
  | S fuel' => _ ← process_step parseline; process_loop parseline fuel'
  end.

  (** [process], given what [parseline] does. *)
Definition process_with (parseline : U Linetype) (fuel : nat) : U unit :=
  _ ← modify (fun s => set_blankmax 1000 (set_blankcount 1000 s));
  process_loop parseline fuel.

End Machine.
