(* ===== verification/UnifdefParse.v ===== *)
(** * unifdef: the line parser and the expression evaluator

    [skipcomment], [skipargs], [skipsym], [findsym], [ifeval] with its operator
    table, and [parseline], of [src/developer_cmds/unifdef/unifdef.c].  A
    [const char *] into the line buffer is the suffix of [tline] it points to. *)

From Stdlib Require Import ZArith Lia List Bool String Ascii.
From stdpp Require Import base tactics list numbers strings pretty.
From S2P Require Import Prelude CLib Unifdef.

Local Open Scope string_scope.
Local Open Scope bool_scope.

(** [endsym(c)] *)
Definition endsym (c : ascii) : bool := negb (isalnum c) && negb (bool_decide (c = "_"%char)).

Definition CONT_CRLF : string := String BSL (String CR (str1 LF)).
Definition CONT_LF : string := String BSL (str1 LF).

(** [skipsym]; the NUL at the end is an [endsym]. *)
Fixpoint skipsym (cp : string) : string :=
  match cp with
  | "" => ""
  | String c r => if endsym c then cp else skipsym r
  end.

(** [cp - keyword], for two pointers into the same buffer. *)
Definition ptrdiff (later earlier : string) : nat :=
  String.length earlier - String.length later.

(** [strlcmp(s, t, n)] *)
Fixpoint strlcmp (s t : string) (n : nat) : Z :=
  match n, t with
  | S n', String tc t' =>
      match s with
      | String sc s' => if decide (sc = tc) then strlcmp s' t' n' else (code sc - code tc)%Z
      | "" => (code NUL - code tc)%Z
      end
  | _, _ => code (hd s)
  end.

Definition z2b (z : Z) : bool := negb (z =? 0)%Z.

Section Parser.
  Context (opt : options) (syms : list symbol).
  (** What an uninitialised [int] on the stack holds. *)
  Context (undef : Z).

Definition set_state (c : Comment_state) : U unit := modify (set_incomment c).
Definition set_line (l : Line_state) : U unit := modify (set_linestate l).

  (** ** [skipcomment] *)

  (** The loop for [-t] and for ignored blocks: only white space is skipped. *)
Fixpoint skipspace (cp : string) : U string :=
  match cp with
  | "" => mret ""
  | String c r =>
      if isspace c then
        _ ← mwhen (bool_decide (c = LF)) (set_line LS_START);
        skipspace r
      else mret cp
  end.

  (** One turn of the comment loop on a non-empty [cp]: [inl] goes round again,
      [inr] returns. *)
Definition skipcomment_step (cp : string) : U (string + string) :=
  if starts CONT_CRLF cp then mret (inl (sdrop 3 cp))
  else if starts CONT_LF cp then mret (inl (sdrop 2 cp))
  else
    st ← gets incomment;
    match st with
    | NO_COMMENT =>
        if starts ("/" +:+ CONT_CRLF) cp then
          _ ← set_state STARTING_COMMENT; mret (inl (sdrop 4 cp))
        else if starts ("/" +:+ CONT_LF) cp then
          _ ← set_state STARTING_COMMENT; mret (inl (sdrop 3 cp))
        else if starts "/*" cp then
          _ ← set_state C_COMMENT; mret (inl (sdrop 2 cp))
        else if starts "//" cp then
          _ ← set_state CXX_COMMENT; mret (inl (sdrop 2 cp))
        else if starts (str1 SQ) cp then
          _ ← set_state CHAR_LITERAL; _ ← set_line LS_DIRTY; mret (inl (sdrop 1 cp))
        else if starts (str1 DQ) cp then
          _ ← set_state STRING_LITERAL; _ ← set_line LS_DIRTY; mret (inl (sdrop 1 cp))
        else if starts (str1 LF) cp then
          _ ← set_line LS_START; mret (inl (sdrop 1 cp))
        else if bool_decide (hd cp ∈ [" "%char; CR; TAB]) then mret (inl (sdrop 1 cp))
        else mret (inr cp)
    | CXX_COMMENT =>
        _ ← mwhen (starts (str1 LF) cp)
              (_ ← set_state NO_COMMENT; set_line LS_START);
        mret (inl (sdrop 1 cp))
    | CHAR_LITERAL | STRING_LITERAL =>
        if (bool_decide (st = CHAR_LITERAL) && bool_decide (hd cp = SQ))
           || (bool_decide (st = STRING_LITERAL) && bool_decide (hd cp = DQ)) then
          _ ← set_state NO_COMMENT; mret (inl (sdrop 1 cp))
        else if bool_decide (hd cp = BSL) then
          match sdrop 1 cp with
          | "" => mret (inl (sdrop 1 cp))
          | _ => mret (inl (sdrop 2 cp))
          end
        else if starts (str1 LF) cp then error opt
        else mret (inl (sdrop 1 cp))
    | C_COMMENT =>
        if starts ("*" +:+ CONT_CRLF) cp then
          _ ← set_state FINISHING_COMMENT; mret (inl (sdrop 4 cp))
        else if starts ("*" +:+ CONT_LF) cp then
          _ ← set_state FINISHING_COMMENT; mret (inl (sdrop 3 cp))
        else if starts "*/" cp then
          _ ← set_state NO_COMMENT; mret (inl (sdrop 2 cp))
        else mret (inl (sdrop 1 cp))
    | STARTING_COMMENT =>
        if bool_decide (hd cp = "*"%char) then
          _ ← set_state C_COMMENT; mret (inl (sdrop 1 cp))
        else if bool_decide (hd cp = "/"%char) then
          _ ← set_state CXX_COMMENT; mret (inl (sdrop 1 cp))
        else
          _ ← set_state NO_COMMENT; _ ← set_line LS_DIRTY; mret (inl cp)
    | FINISHING_COMMENT =>
        if bool_decide (hd cp = "/"%char) then
          _ ← set_state NO_COMMENT; mret (inl (sdrop 1 cp))
        else _ ← set_state C_COMMENT; mret (inl cp)
    end.

Fixpoint skipcomment_loop (fuel : nat) (cp : string) : U string :=
  match cp with
  | "" => mret ""
  | _ =>
      match fuel with
      | O => leave NoFuel
      | S fuel' =>
          r ← skipcomment_step cp;
          match r with
          | inl cp' => skipcomment_loop fuel' cp'
          | inr cp' => mret cp'
          end
      end
  end.

  (** A turn that does not advance only leaves a half-open or half-closed
      comment, so two turns per character, and one more, are enough. *)
Definition skipcomment (cp : string) : U string :=
  ign ← gets (fun s => ignoring_at s (depth s));
  if text opt || ign then skipspace cp
  else skipcomment_loop (S (2 * String.length cp)) cp.

  (** ** [skipargs] *)

Fixpoint skipargs_loop (fuel : nat) (level : Z) (cp : string) : U (Z * string) :=
  match fuel with
  | O => leave NoFuel
  | S fuel' =>
      let level := if decide (hd cp = "("%char) then (level + 1)%Z else level in
      let level := if decide (hd cp = ")"%char) then (level - 1)%Z else level in
      cp' ← skipcomment (sdrop 1 cp);
      if (level =? 0)%Z || bool_decide (cp' = "") then mret (level, cp')
      else skipargs_loop fuel' level cp'
  end.

Definition skipargs (ocp : string) : U string :=
  cp ← skipcomment ocp;
  if decide (hd cp = "("%char) then
    '(level, cp') ← skipargs_loop (String.length cp) 0 cp;
    mret (if (level =? 0)%Z then cp' else ocp)
  else mret cp.

  (** ** [findsym] *)

Fixpoint find_index (p : symbol -> bool) (l : list symbol) (i : nat) : option nat :=
  match l with
  | [] => None
  | x :: l' => if p x then Some i else find_index p l' (S i)
  end.

Definition pad3 (t : string) : string :=
  match String.length t with
  | O => "   " | 1 => "  " +:+ t | 2 => " " +:+ t | _ => t
  end.

  (** [None] is the result -1. *)
Definition findsym (str : string) : U (option nat) :=
  let cp := skipsym str in
  let n := ptrdiff cp str in
  if (n =? 0)%nat then mret None
  else if symlist opt then
    s ← get;
    _ ← mwhen (symdepth opt && firstsym s)
          (say ((if zerosyms s then "" else str1 LF) +:+ pad3 (pretty (depth s))));
    _ ← modify (fun s => set_firstsym false (set_zerosyms false s));
    _ ← say ((if symdepth opt then " " else "") +:+ stake n str
             +:+ (if symdepth opt then "" else str1 LF));
    mret (Some O)
  else mret (find_index (fun y => (strlcmp (symname y) str n =? 0)%Z) syms 0).

Definition sym_at (i : nat) : symbol :=
  nth i syms {| symname := ""; value := None; ignore := false |}.

  (** ** The binary operators: the new [*p] and the result's type *)

Definition truth (v : bool) : Linetype := if v then LT TRUE else LT FALSE.

Definition opfn : Type := Z -> Linetype -> Z -> Linetype -> Z -> Linetype * Z.

Definition op_strict (p : Z) (v : bool) (at_ bt : Linetype) : Linetype * Z :=
  if bool_decide (at_ = LT IF) || bool_decide (bt = LT IF) then (LT IF, p)
  else (truth v, b2z v).

Definition op_lt : opfn := fun p at_ a bt b => op_strict p (a <? b)%Z at_ bt.
Definition op_gt : opfn := fun p at_ a bt b => op_strict p (b <? a)%Z at_ bt.
Definition op_le : opfn := fun p at_ a bt b => op_strict p (a <=? b)%Z at_ bt.
Definition op_ge : opfn := fun p at_ a bt b => op_strict p (b <=? a)%Z at_ bt.
Definition op_eq : opfn := fun p at_ a bt b => op_strict p (a =? b)%Z at_ bt.
Definition op_ne : opfn := fun p at_ a bt b => op_strict p (negb (a =? b)%Z) at_ bt.
Definition op_or : opfn := fun p at_ a bt b =>
  if negb (strictlogic opt) && (bool_decide (at_ = LT TRUE) || bool_decide (bt = LT TRUE))
  then (LT TRUE, 1%Z)
  else op_strict p (z2b a || z2b b) at_ bt.
Definition op_and : opfn := fun p at_ a bt b =>
  if negb (strictlogic opt) && (bool_decide (at_ = LT FALSE) || bool_decide (bt = LT FALSE))
  then (LT FALSE, 0%Z)
  else op_strict p (z2b a && z2b b) at_ bt.

  (** ** The precedence table *)

Inductive eval_fn := EvalTable | EvalUnary.

Definition eval_ops : list (eval_fn * list (string * opfn)) := [
  (EvalTable, [("||", op_or)]);
  (EvalTable, [("&&", op_and)]);
  (EvalTable, [("==", op_eq); ("!=", op_ne)]);
  (EvalUnary, [("<=", op_le); (">=", op_ge); ("<", op_lt); (">", op_gt)])].

Definition inner_at (lvl : nat) : eval_fn := fst (nth lvl eval_ops (EvalUnary, [])).
Definition ops_at (lvl : nat) : list (string * opfn) := snd (nth lvl eval_ops (EvalUnary, [])).

  (** The first operator of the level that [cp] starts with. *)
Fixpoint find_op (l : list (string * opfn)) (cp : string) : option (string * opfn) :=
  match l with
  | [] => None
  | (str, fn) :: l' => if starts str cp then Some (str, fn) else find_op l' cp
  end.

Definition is_error (l : Linetype) : bool := bool_decide (l = ERROR).

  (** An evaluation function gets [*valp] and [*cpp] and gives back the type of
      the result and their new values. *)
Fixpoint eval_unary (fuel : nat) (valp : Z) (cpp : string) {struct fuel}
    : U (Linetype * Z * string) :=
  match fuel with
  | O => leave NoFuel
  | S fuel' =>
    cp ← skipcomment cpp;
    if bool_decide (hd cp = "!"%char) then
      '(lt, v, cp) ← eval_unary fuel' valp (sdrop 1 cp);
      if is_error lt then mret (ERROR, v, cpp)
      else if bool_decide (lt = LT IF) then mret (lt, v, cp)
      else mret (truth (negb (z2b v)), b2z (negb (z2b v)), cp)
    else if bool_decide (hd cp = "("%char) then
      '(lt, v, cp) ← eval_table fuel' 0 valp (sdrop 1 cp);
      if is_error lt then mret (ERROR, v, cpp)
      else
        cp ← skipcomment cp;
        if bool_decide (hd cp = ")"%char) then mret (lt, v, sdrop 1 cp)
        else mret (ERROR, v, cpp)
    else if isdigit (hd cp) then
      let v := s32 (sr_val (strtol0 cp)) in
      if bool_decide (sr_end (strtol0 cp) = cp) then mret (ERROR, v, cpp)
      else mret (truth (z2b v), v, skipsym cp)
    else if starts "defined" cp && endsym (hd (sdrop 7 cp)) then
      cp ← skipcomment (sdrop 7 cp);
      let defparen := bool_decide (hd cp = "("%char) in
      cp ← (if defparen then skipcomment (sdrop 1 cp) else mret cp);
      sym ← findsym cp;
      let '(lt, v) :=
        match sym with
        | None => (LT IF, valp)
        | Some i =>
            let d := match value (sym_at i) with Some _ => true | None => false end in
            (truth d, b2z d)
        end in
      cp ← skipcomment (skipsym cp);
      if defparen && negb (bool_decide (hd cp = ")"%char)) then mret (ERROR, v, cpp)
      else
        _ ← modify (set_constexpr false);
        mret (lt, v, if defparen then sdrop 1 cp else cp)
    else if negb (endsym (hd cp)) then
      sym ← findsym cp;
      let cp := skipsym cp in
      match sym with
      | None =>
          cp ← skipargs cp;
          _ ← modify (set_constexpr false);
          mret (LT IF, valp, cp)
      | Some i =>
          match value (sym_at i) with
          | None =>
              _ ← modify (set_constexpr false);
              mret (LT FALSE, 0%Z, cp)
          | Some t =>
              let v := s32 (sr_val (strtol0 t)) in
              let ep := sr_end (strtol0 t) in
              if negb (bool_decide (ep = "")) || bool_decide (ep = t) then
                mret (ERROR, v, cpp)
              else
                cp ← skipargs cp;
                _ ← modify (set_constexpr false);
                mret (truth (z2b v), v, cp)
          end
      end
    else mret (ERROR, valp, cpp)
  end
with eval_table (fuel : nat) (lvl : nat) (valp : Z) (cpp : string) {struct fuel}
    : U (Linetype * Z * string) :=
  match fuel with
  | O => leave NoFuel
  | S fuel' =>
    '(lt, v, cp) ← (match inner_at lvl with
         | EvalUnary => eval_unary fuel' valp cpp
         | EvalTable => eval_table fuel' (S lvl) valp cpp
         end);
    if is_error lt then mret (ERROR, v, cpp)
    else eval_loop fuel' lvl lt v undef cpp cp
  end
  (* the [for (;;)] of eval_table; [val] is the local that receives the right operand *)
with eval_loop (fuel : nat) (lvl : nat) (lt : Linetype) (valp val : Z) (cpp cp : string)
    {struct fuel} : U (Linetype * Z * string) :=
  match fuel with
  | O => leave NoFuel
  | S fuel' =>
    cp ← skipcomment cp;
    match find_op (ops_at lvl) cp with
    | None => mret (lt, valp, cp)
    | Some (str, fn) =>
        '(rt, val, cp) ← (match inner_at lvl with
             | EvalUnary => eval_unary fuel' val (sdrop (String.length str) cp)
             | EvalTable => eval_table fuel' (S lvl) val (sdrop (String.length str) cp)
             end);
        if is_error rt then mret (ERROR, valp, cpp)
        else
          let '(lt, valp) := fn valp lt valp rt val in
          eval_loop fuel' lvl lt valp val cpp cp
    end
  end.

  (** Every call goes down one level or one operand, and an operand starts at
      least one character further on. *)
Definition eval_fuel (cp : string) : nat := 6 * S (String.length cp).

  (** ** [ifeval] *)
Definition ifeval (cp : string) : U (Linetype * string) :=
  _ ← modify (set_constexpr (negb (killconsts opt)));
  '(ret, _, cp') ← eval_table (eval_fuel cp) 0 0 cp;
  c ← gets constexpr;
  mret (if (c : bool) then LT IF else if is_error ret then LT IF else ret, cp').
End Parser.
