(* ===== verification/UnifdefMain.v ===== *)
(** * unifdef: [parseline], the driver, and the command line

    [parseline], [process], [addsym] and the option loop of [main]
    ([src/developer_cmds/unifdef/unifdef.c]). *)

From Stdlib Require Import ZArith Lia List Bool String Ascii.
From stdpp Require Import base tactics list numbers strings pretty.
From S2P Require Import Prelude CLib Unifdef UnifdefParse.

Local Open Scope string_scope.
Local Open Scope bool_scope.

(** [t - LT_IF + LT_ELIF] for a result of [ifeval]. *)
Definition elif_of (t : Linetype) : Linetype :=
  match t with
  | LT TRUE => LT ELTRUE
  | LT FALSE => LT ELFALSE
  | _ => LT ELIF
  end.

(** [retval += LT_DODGY] *)
Definition dodgy_of (t : Linetype) : Linetype :=
  match t with LT d => Dodgy d | _ => t end.

(** The line ending of the file, from its first line. *)
Definition detect_newline (t : string) : string :=
  match strrchr LF t, strrchr CR t with
  | Some i, Some j => if decide (i = S j) then String CR (str1 LF) else str1 LF
  | _, _ => str1 LF
  end.

Section Main.
  Context (opt : options) (syms : list symbol) (undef : Z).

  (** The type of an [#ifdef] ([false]) or [#ifndef] ([true]) line for a known symbol. *)
Definition ifdef_type (ifndef : bool) (sym : symbol) : Linetype :=
  let t := if ifndef then FALSE else TRUE in
  let t := match value sym with
           | None => if decide (t = TRUE) then FALSE else TRUE
           | Some _ => t
           end in
  LT (if ignore sym then (if decide (t = TRUE) then TRUEI else FALSEI) else t).

  (** The keyword of a directive and its operand: the line's type and where its
      text goes on.  [kw] points to the keyword. *)
Definition parse_directive (kw : string) : U (Linetype * string) :=
  let cp := skipsym kw in
  let kwlen := ptrdiff cp kw in
  let is_kw s := (strlcmp s kw kwlen =? 0)%Z in
  _ ← mwhen (starts CONT_CRLF cp || starts CONT_LF cp) (Eioccc opt);
  if is_kw "ifdef" || is_kw "ifndef" then
    cp ← skipcomment opt cp;
    cursym ← findsym opt syms cp;
    mret (match cursym with
          | None => LT IF
          | Some i => ifdef_type (bool_decide (hd (sdrop 2 kw) = "n"%char)) (sym_at syms i)
          end, skipsym cp)
  else if is_kw "if" then ifeval opt syms undef cp
  else if is_kw "elif" then
    '(t, cp') ← ifeval opt syms undef cp;
    mret (elif_of t, cp')
  else if is_kw "else" then mret (LT ELSE, cp)
  else if is_kw "endif" then mret (LT ENDIF, cp)
  else
    _ ← set_line LS_DIRTY;
    mret (PLAIN, cp).

  (** Text after a condition makes it unknown. *)
Definition blur (t : Linetype) : Linetype :=
  match t with
  | LT TRUE | LT FALSE | LT TRUEI | LT FALSEI => LT IF
  | LT ELTRUE | LT ELFALSE => LT ELIF
  | _ => t
  end.

  (** The [linestate == LS_HASH] tail: the line ended without its newline. *)
Definition refill (cp : string) : U string :=
  s ← get;
  let len := ptrdiff cp (tline s) in
  let '(o, rest) := fgets (MAXLINE - Z.of_nat len) (input s) in
  match o with
  | None =>
      _ ← modify (fun s => set_linestate LS_START
                             (set_tline (stake len (tline s) +:+ newline_str s) (set_input rest s)));
      mret ""
  | Some more =>
      _ ← modify (fun s => set_linestate LS_DIRTY
                             (set_tline (stake len (tline s) +:+ more) (set_input rest s)));
      mret more
  end.

  (** [while ( *cp != '\0') cp = skipcomment(cp + 1)] *)
Fixpoint skip_rest (fuel : nat) (cp : string) : U unit :=
  match cp with
  | "" => mret tt
  | _ =>
      match fuel with
      | O => leave NoFuel
      | S fuel' => cp' ← skipcomment opt (sdrop 1 cp); skip_rest fuel' cp'
      end
  end.

  (** The directive part of [parseline]; [wascomment] is the comment state the
      line started in. *)
Definition parse_hash (wascomment : Comment_state) (cp : string) : U (Linetype * string) :=
  _ ← modify (fun s => set_keyword (ptrdiff cp (tline s)) s);
  '(retval, cp) ← parse_directive cp;
  cp ← skipcomment opt cp;
  _ ← mwhen (negb (bool_decide (cp = ""))) (set_line LS_DIRTY);
  let retval := if bool_decide (cp = "") then retval else blur retval in
  now ← gets incomment;
  let dodgy := negb (bool_decide (retval = PLAIN)) &&
               (bool_decide (wascomment <> NO_COMMENT) || bool_decide (now <> NO_COMMENT)) in
  _ ← mwhen (dodgy && bool_decide (now <> NO_COMMENT)) (set_line LS_DIRTY);
  let retval := if dodgy then dodgy_of retval else retval in
  ls ← gets linestate;
  cp ← (if bool_decide (ls = LS_HASH) then refill cp else mret cp);
  mret (retval, cp).

  (** [parseline] once [fgets] has delivered a line. *)
Definition parse_text (line : string) : U Linetype :=
  _ ← modify (set_tline line);
  _ ← modify (fun s => set_newline (Some (default (detect_newline line) (newline s))) s);
  wascomment ← gets incomment;
  cp ← skipcomment opt line;
  ls ← gets linestate;
  cp ← (if bool_decide (ls = LS_START) then
          if bool_decide (hd cp = "#"%char) then
            _ ← modify (fun s => set_firstsym true (set_linestate LS_HASH s));
            skipcomment opt (sdrop 1 cp)
          else
            _ ← mwhen (negb (bool_decide (cp = ""))) (set_line LS_DIRTY);
            mret cp
        else mret cp);
  s ← get;
  '(retval, cp) ←
    (if bool_decide (incomment s = NO_COMMENT) && bool_decide (linestate s = LS_HASH)
     then parse_hash wascomment cp
     else mret (PLAIN, cp));
  ls ← gets linestate;
  _ ← mwhen (bool_decide (ls = LS_DIRTY)) (skip_rest (String.length cp) cp);
  mret retval.

  (** [parseline] *)
Definition parseline : U Linetype :=
  _ ← modify (fun s => set_linenum (linenum s + 1) s);
  inp ← gets input;
  let '(o, rest) := fgets MAXLINE inp in
  _ ← modify (set_input rest);
  match o with
  | None => mret EOF
  | Some line => parse_text line
  end.

  (** [process]: every turn but the last one reads at least one character. *)
Definition process : U unit :=
  inp ← gets input;
  process_with opt parseline (S (String.length inp)).

  (** The run of the program on an input, after the options are read. *)
Definition unifdef (inp : string) : res halt unit * ust := process (ust_init inp).

End Main.

(** ** The command line *)

Record conf := {
  c_opt : options;
  c_syms : list symbol;   (* the slots of the symbol arrays written so far *)
  c_nsyms : nat;
  c_ust : ust }.

Definition no_options : options := {|
  compblank := false; lnblank := false; complement := false; iocccok := false;
  strictlogic := false; killconsts := false; lnnum := false; symlist := false;
  symdepth := false; text := false |}.

Abbreviation C := (M halt conf).

Definition set_c_opt (f : options -> options) (c : conf) : conf :=
  {| c_opt := f (c_opt c); c_syms := c_syms c; c_nsyms := c_nsyms c; c_ust := c_ust c |}.

(** A step on the processing globals. *)
Definition on_ust {A} (m : options -> list symbol -> U A) : C A := fun c =>
  let '(r, s) := m (c_opt c) (c_syms c) (c_ust c) in
  (r, {| c_opt := c_opt c; c_syms := c_syms c; c_nsyms := c_nsyms c; c_ust := s |}).

(** Write a slot of the symbol arrays; slots are first written in order. *)
Definition put_sym (i : nat) (y : symbol) (l : list symbol) : list symbol :=
  if decide (i < length l) then <[i := y]> l else (l ++ [y])%list.

Definition usage {A} : C A := leave (Exit 2).
Definition errx2 {A} : C A := leave (Exit 2).

(** [addsym] *)
Definition addsym (ignorethis definethis : bool) (sym : string) : C unit :=
  n ← gets c_nsyms;
  found ← on_ust (fun o l => findsym o (take n l) sym);
  symind ← (match found with
            | Some i => mret i
            | None =>
                _ ← mwhen (MAXSYMS <=? n)%nat errx2;
                _ ← modify (fun c => {| c_opt := c_opt c; c_syms := c_syms c;
                                        c_nsyms := S n; c_ust := c_ust c |});
                mret n
            end);
  let val := skipsym sym in
  let name := stake (ptrdiff val sym) sym in
  v ← (if definethis then
         if bool_decide (hd val = "="%char) then mret (Some (sdrop 1 val))
         else if bool_decide (val = "") then mret (Some "1")
         else usage
       else if negb (bool_decide (val = "")) then usage
       else mret None);
  modify (fun c => {| c_opt := c_opt c;
    c_syms := put_sym symind {| symname := name; value := v; ignore := ignorethis |} (c_syms c);
    c_nsyms := c_nsyms c; c_ust := c_ust c |}).

(** The assignments of the option switch: every flag is only ever set. *)
Definition with_flag (o : ascii) (c : options) : options :=
  let isopt x := bool_decide (o = x) in
  {| compblank := compblank c || isopt "B"%char;
     lnblank := lnblank c || isopt "b"%char || isopt "l"%char;
     complement := complement c || isopt "c"%char;
     iocccok := iocccok c || isopt "e"%char;
     strictlogic := strictlogic c || isopt "K"%char;
     killconsts := killconsts c || isopt "k"%char;
     lnnum := lnnum c || isopt "n"%char;
     symlist := symlist c || isopt "s"%char || isopt "S"%char;
     symdepth := symdepth c || isopt "S"%char;
     text := text c || isopt "t"%char |}.

Definition flag_letters : list ascii :=
  ["b"; "l"; "B"; "c"; "e"; "K"; "k"; "n"; "s"; "S"; "t"]%char.

(** One option of [main]'s [getopt] loop; [-d] and [-o], which only choose
    where text goes, are left out. *)
Definition main_option (o : ascii) (optarg : string) : C unit :=
  if bool_decide (o = "i"%char) then
    if bool_decide (hd optarg = "D"%char) then addsym true true (sdrop 1 optarg)
    else if bool_decide (hd optarg = "U"%char) then addsym true false (sdrop 1 optarg)
    else usage
  else if bool_decide (o = "D"%char) then addsym false true optarg
  else if bool_decide (o = "U"%char) then addsym false false optarg
  else if bool_decide (o = "I"%char) then mret tt
  else if bool_decide (o ∈ flag_letters) then modify (set_c_opt (with_flag o))
  else if bool_decide (o = "V"%char) then leave (Exit 0)
  else usage.

Fixpoint main_options (l : list (ascii * string)) : C unit :=
  match l with
  | [] => mret tt
  | (o, optarg) :: l' => _ ← main_option o optarg; main_options l'
  end.

(** [main] on the options [getopt] finds, reading standard input. *)
Definition main (undef : Z) (args : list (ascii * string)) : C unit :=
  _ ← main_options args;
  o ← gets c_opt;
  _ ← mwhen (compblank o && lnblank o) errx2;
  on_ust (fun o l => process o l undef).

Definition conf_init (inp : string) : conf :=
  {| c_opt := no_options; c_syms := []; c_nsyms := 0; c_ust := ust_init inp |}.

(** The whole program: exit outcome and final globals. *)
Definition run_main (undef : Z) (args : list (ascii * string)) (inp : string)
    : res halt unit * ust :=
  let '(r, c) := main undef args (conf_init inp) in (r, c_ust c).
