(* ===== verification/UnifdefFacts.v ===== *)
(** * unifdef: the parser stays in its lane

    The line parser touches neither the nesting state nor the input (but for
    the refill of an unfinished line), never runs out of fuel, and only leaves
    through [error]. *)

From Stdlib Require Import ZArith Lia List Bool String Ascii.
From stdpp Require Import base tactics list numbers strings pretty.
From S2P Require Import Prelude CLib Unifdef UnifdefParse UnifdefMain.

Local Open Scope string_scope.
Local Open Scope bool_scope.

#[local] Arguments sdrop : simpl never.

(** What the parser leaves alone. *)
Definition frame (s0 s : ust) : Prop :=
  depth s = depth s0 /\ ifstate s = ifstate s0 /\ ignoring s = ignoring s0 /\
  input s = input s0 /\ exitstat s = exitstat s0 /\ output s = output s0.

(** [m] run from any state framed by [s0] ends in one, with a result in [Q],
    or leaves through [error]. *)
Definition keeps {A} (s0 : ust) (m : U A) (Q : A -> Prop) : Prop :=
  triple (frame s0) m (fun a s => frame s0 s /\ Q a) (fun e _ => e = Exit 2).

Create HintDb unifdef.

Section Keeps.
  Context (s0 : ust).

Lemma keeps_ret {A} (a : A) (Q : A -> Prop) : Q a -> keeps s0 (mret a) Q.
Proof. intros HQ. apply triple_ret. auto. Qed.

Lemma keeps_bind {A B} (m : U A) (k : A -> U B) Q Q' :
  keeps s0 m Q' -> (forall a, Q' a -> keeps s0 (k a) Q) -> keeps s0 (m ≫= k) Q.
Proof.
  intros Hm Hk. eapply triple_bind; [exact Hm|].
  intros a s [Hf Ha]. exact (Hk a Ha s Hf).
Qed.

Lemma keeps_gets {A} (f : ust -> A) : keeps s0 (gets f) (fun _ => True).
Proof. intros s Hs. by split. Qed.

Lemma keeps_gets_framed {A} (f : ust -> A) (a : A) :
  (forall s, frame s0 s -> f s = a) -> keeps s0 (gets f) (fun b => b = a).
Proof. intros Hf s Hs. split; [done|]. simpl. auto. Qed.

Lemma keeps_get : keeps s0 get (frame s0).
Proof. intros s Hs. by split. Qed.

Lemma keeps_modify (f : ust -> ust) :
  (forall s, frame s0 s -> frame s0 (f s)) -> keeps s0 (modify f) (fun _ => True).
Proof. intros Hf s Hs. split; [auto|done]. Qed.

Lemma keeps_when b (m : U unit) :
  (b = true -> keeps s0 m (fun _ => True)) -> keeps s0 (mwhen b m) (fun _ => True).
Proof. destruct b; simpl; [auto|intros _; by apply keeps_ret]. Qed.

Lemma keeps_weaken {A} (m : U A) (Q Q' : A -> Prop) :
  keeps s0 m Q' -> (forall a, Q' a -> Q a) -> keeps s0 m Q.
Proof. intros Hm HQ s Hs. generalize (Hm s Hs). destruct (m s) as [[a|e] s']; [by intros [? ?]; auto|done]. Qed.

Lemma keeps_closeout opt : keeps s0 (closeout opt) (fun _ => True).
Proof.
  apply keeps_bind with (Q' := fun _ => True); [apply keeps_gets|].
  intros z _. apply keeps_when. intros _. by apply keeps_modify.
Qed.

Lemma keeps_error {A} opt (Q : A -> Prop) : keeps s0 (error opt) Q.
Proof.
  apply keeps_bind with (Q' := fun _ => True); [apply keeps_closeout|].
  intros _ _ s Hs. done.
Qed.

Lemma keeps_set_state c : keeps s0 (set_state c) (fun _ => True).
Proof. by apply keeps_modify. Qed.

Lemma keeps_set_line l : keeps s0 (set_line l) (fun _ => True).
Proof. by apply keeps_modify. Qed.

Lemma keeps_say t : keeps s0 (say t) (fun _ => True).
Proof. by apply keeps_modify. Qed.
End Keeps.

#[export] Hint Resolve keeps_ret keeps_gets keeps_get keeps_when keeps_closeout keeps_error
  keeps_set_state keeps_set_line keeps_say : unifdef.

(** One bind whose first part has a known postcondition. *)
Ltac kbind lem := eapply keeps_bind; [eapply lem|cbv beta].
(** A bind whose result does not matter. *)
Ltac kstep := eapply keeps_bind with (Q' := fun _ => True);
  [first [by apply keeps_modify | solve [eauto with unifdef]
         | apply keeps_when; intros _; first [by apply keeps_modify | solve [eauto with unifdef]] ]
  | intros ? _].

(** ** [skipcomment] *)

Abbreviation slen := String.length.

Definition half_open (c : Comment_state) : nat :=
  match c with STARTING_COMMENT | FINISHING_COMMENT => 1 | _ => 0 end.

(** The measure that every turn of the comment loop lowers. *)
Definition comment_measure (s : ust) (cp : string) : nat :=
  2 * slen cp + half_open (incomment s).

Lemma slen_sdrop n cp : slen (sdrop n cp) = slen cp - n.
Proof. apply sdrop_length. Qed.

Lemma nonempty_length (cp : string) : cp <> "" -> 0 < slen cp.
Proof. destruct cp; simpl; [done|lia]. Qed.

Ltac run_monad :=
  cbv [mbind M_bind mret M_ret gets get modify leave mwhen set_state set_line say].

Lemma error_run {A} opt s :
  exists s', (error opt : U A) s = (Ex (Exit 2), s').
Proof. cbv [error closeout]. run_monad. destruct (_ && _); eexists; reflexivity. Qed.

(** A leaf of the comment loop: the new pointer is further on. *)
Ltac advance :=
  unfold frame; rewrite ?slen_sdrop; simpl;
  repeat match goal with H : incomment _ = _ |- _ => rewrite H end; simpl;
  repeat split; auto; lia.

Lemma skipcomment_step_spec opt cp s :
  cp <> "" ->
  match skipcomment_step opt cp s with
  | (Ok (inl cp'), s') =>
      frame s s' /\ slen cp' <= slen cp /\ comment_measure s' cp' < comment_measure s cp
  | (Ok (inr cp'), s') => s' = s /\ cp' = cp /\ incomment s = NO_COMMENT
  | (Ex e, _) => e = Exit 2
  end.
Proof.
  intros Hcp. apply nonempty_length in Hcp.
  unfold skipcomment_step, comment_measure.
  destruct (starts CONT_CRLF cp); [|destruct (starts CONT_LF cp)];
    [run_monad; advance..|].
  run_monad.
  destruct (incomment s) eqn:E;
  repeat match goal with
  | |- context [@error _ ?A ?s1] =>
      let s' := fresh in destruct (@error_run A opt s1) as [s' ->]; reflexivity
  | |- context [if ?b then _ else _] => destruct b
  | |- context [match sdrop 1 cp with _ => _ end] => destruct (sdrop 1 cp)
  end; try done; advance.
Qed.

Lemma frame_refl s : frame s s.
Proof. by repeat split. Qed.

Lemma frame_trans s1 s2 s3 : frame s1 s2 -> frame s2 s3 -> frame s1 s3.
Proof. unfold frame. intuition congruence. Qed.

#[export] Hint Resolve frame_refl frame_trans : unifdef.

Lemma skipcomment_loop_spec opt fuel cp s :
  comment_measure s cp <= fuel ->
  match skipcomment_loop opt fuel cp s with
  | (Ok cp', s') => frame s s' /\ slen cp' <= slen cp
  | (Ex e, _) => e = Exit 2
  end.
Proof.
  revert cp s. induction fuel as [|fuel IH]; intros cp s Hm;
    (destruct (decide (cp = "")) as [->|Hne]; [by split; auto with unifdef|]).
  { apply nonempty_length in Hne. unfold comment_measure in Hm. lia. }
  pose proof (skipcomment_step_spec opt cp s Hne) as Hstep.
  assert (skipcomment_loop opt (S fuel) cp s =
    (r ← skipcomment_step opt cp;
     match r with inl cp' => skipcomment_loop opt fuel cp' | inr cp' => mret cp' end) s)
    as -> by (destruct cp; done).
  cbv [mbind M_bind]. destruct (skipcomment_step opt cp s) as [[[cp'|cp']|e] s'].
  - destruct Hstep as (Hf & Hl & Hc).
    specialize (IH cp' s'). destruct (skipcomment_loop _ _ _ _) as [[a|e] s''].
    + destruct IH; [lia|]. split; [eauto with unifdef|lia].
    + apply IH; lia.
  - destruct Hstep as (-> & -> & _). split; auto with unifdef.
  - done.
Qed.

Lemma skipspace_keeps s0 cp : keeps s0 (skipspace cp) (fun cp' => slen cp' <= slen cp).
Proof.
  induction cp as [|c r IH]; simpl; [by apply keeps_ret|].
  destruct (isspace c); [|by apply keeps_ret].
  kstep. eapply keeps_weaken; [exact IH|]. simpl. lia.
Qed.

Lemma skipcomment_keeps s0 opt cp :
  keeps s0 (skipcomment opt cp) (fun cp' => slen cp' <= slen cp).
Proof.
  unfold skipcomment. kstep. destruct (_ || _); [apply skipspace_keeps|].
  intros s Hs. generalize (skipcomment_loop_spec opt (S (2 * slen cp)) cp s).
  destruct (skipcomment_loop _ _ _ _) as [[c|e] s']; intros H.
  - destruct H as [Hf Hl]; [unfold comment_measure; destruct (incomment s); simpl; lia|].
    eauto with unifdef.
  - apply H. unfold comment_measure; destruct (incomment s); simpl; lia.
Qed.

Lemma skipsym_length cp : slen (skipsym cp) <= slen cp.
Proof. induction cp as [|c r IH]; simpl; [lia|]. destruct (endsym c); simpl; lia. Qed.

(** ** [findsym], [skipargs] *)

Lemma findsym_keeps s0 opt syms str : keeps s0 (findsym opt syms str) (fun _ => True).
Proof.
  unfold findsym. destruct (_ =? 0)%nat; [by apply keeps_ret|].
  destruct (symlist opt); [|by apply keeps_ret].
  eapply keeps_bind; [apply keeps_get|]. intros s _.
  do 3 kstep. by apply keeps_ret.
Qed.

Lemma skipargs_loop_keeps s0 opt fuel level cp :
  slen cp <= fuel -> 0 < fuel ->
  keeps s0 (skipargs_loop opt fuel level cp) (fun r => slen (snd r) <= slen cp).
Proof.
  revert level cp. induction fuel as [|fuel IH]; intros level cp Hl H0; [lia|]. simpl.
  eapply keeps_bind; [apply skipcomment_keeps|]. intros cp'. rewrite slen_sdrop. intros Hc.
  case_match; [apply keeps_ret; simpl; lia|].
  destruct (decide (cp' = "")) as [->|Hne]; [by rewrite orb_true_r in *|].
  apply nonempty_length in Hne.
  eapply keeps_weaken; [apply IH; lia|]. simpl. lia.
Qed.

Lemma skipargs_keeps s0 opt cp : keeps s0 (skipargs opt cp) (fun cp' => slen cp' <= slen cp).
Proof.
  unfold skipargs. eapply keeps_bind; [apply skipcomment_keeps|]. intros cp1 H1.
  case_decide as Hp; [|by apply keeps_ret].
  assert (0 < slen cp1) by (destruct cp1; simpl; [done|lia]).
  eapply keeps_bind; [apply skipargs_loop_keeps; lia|]. intros [l cp2] H2. simpl in *.
  apply keeps_ret. destruct (l =? 0)%Z; lia.
Qed.

(** ** The expression evaluator *)

Definition evaluated (l : Linetype) : Prop := l = LT TRUE \/ l = LT FALSE \/ l = LT IF.

(** What an evaluation function started at [cpp] returns. *)
Definition eval_result (cpp : string) (r : Linetype * Z * string) : Prop :=
  let '(lt, _, cp) := r in
  (lt = ERROR /\ cp = cpp) \/ (evaluated lt /\ slen cp < slen cpp).

Lemma evaluated_truth b : evaluated (truth b).
Proof. destruct b; unfold evaluated, truth; auto. Qed.

Lemma evaluated_IF : evaluated (LT IF).
Proof. unfold evaluated; auto. Qed.

Lemma eval_result_error cpp v : eval_result cpp (ERROR, v, cpp).
Proof. by left. Qed.

Lemma eval_result_ok cpp lt v cp :
  evaluated lt -> slen cp < slen cpp -> eval_result cpp (lt, v, cp).
Proof. by right. Qed.

#[export] Hint Resolve evaluated_truth evaluated_IF eval_result_error eval_result_ok : unifdef.

Lemma skipsym_progress cp : endsym (hd cp) = false -> slen (skipsym cp) < slen cp.
Proof.
  destruct cp as [|c r]; [done|]. simpl. intros ->.
  pose proof (skipsym_length r). lia.
Qed.

Lemma isdigit_sym c : isdigit c = true -> endsym c = false.
Proof. unfold endsym, isalnum. intros ->. by rewrite orb_true_r. Qed.

Lemma sdrop1_length cp c : bool_decide (hd cp = c) = true -> c <> NUL ->
  slen (sdrop 1 cp) < slen cp.
Proof.
  rewrite bool_decide_eq_true. intros <- Hn. destruct cp as [|x r]; [done|].
  rewrite slen_sdrop. simpl. lia.
Qed.

Lemma op_strict_evaluated p v a b : evaluated (fst (op_strict p v a b)).
Proof. unfold op_strict. case_match; simpl; auto with unifdef. Qed.

Lemma ops_evaluated opt lvl cp str fn p a x b y :
  find_op (ops_at opt lvl) cp = Some (str, fn) ->
  evaluated (fst (fn p a x b y)) /\ 0 < slen str /\ starts str cp = true.
Proof.
  destruct lvl as [|[|[|[|lvl]]]]; unfold ops_at; cbn [nth eval_ops snd find_op];
    [..|by destruct lvl];
    repeat case_match; intros; simplify_eq; (split_and!; [|simpl; lia|done]);
    unfold op_or, op_and, op_eq, op_ne, op_le, op_ge, op_lt, op_gt;
    try apply op_strict_evaluated;
    case_match; try apply op_strict_evaluated; unfold evaluated; simpl; auto.
Qed.

(** Which fuel is enough at each level; level 4 stands for [eval_unary]. *)
Definition fuel_at (lvl : nat) (cp : string) : nat := 6 * slen cp + 6 - lvl.

Definition unary_ok opt syms undef fuel : Prop := forall s0 valp cpp,
  6 * slen cpp + 1 <= fuel ->
  keeps s0 (eval_unary opt syms undef fuel valp cpp) (eval_result cpp).

Definition table_ok opt syms undef fuel : Prop := forall s0 lvl valp cpp,
  lvl <= 3 -> fuel_at lvl cpp <= fuel ->
  keeps s0 (eval_table opt syms undef fuel lvl valp cpp) (eval_result cpp).

Definition loop_ok opt syms undef fuel : Prop := forall s0 lvl lt valp val cpp cp,
  lvl <= 3 -> 6 * slen cp + 1 <= fuel -> evaluated lt -> slen cp < slen cpp ->
  keeps s0 (eval_loop opt syms undef fuel lvl lt valp val cpp cp) (eval_result cpp).

Section EvalKeeps.
  Context (opt : options) (syms : list symbol) (undef : Z).

Ltac kskip := eapply keeps_bind;
  [apply skipcomment_keeps|let c := fresh "cp" in let H := fresh "Hc" in intros c H; cbv beta in H].
Ltac kfind := eapply keeps_bind; [apply findsym_keeps|intros ? _].
Ltac kret := apply keeps_ret; eauto with unifdef lia.

Lemma unary_step fuel :
  unary_ok opt syms undef fuel -> table_ok opt syms undef fuel ->
  unary_ok opt syms undef (S fuel).
Proof.
  intros IHu IHt s0 valp cpp Hf. cbn [eval_unary].
  kskip. destruct (bool_decide (hd cp = "!"%char)) eqn:E1.
  { apply sdrop1_length in E1; [|done].
    eapply keeps_bind; [apply IHu; lia|]. intros [[lt v] cp1] Hr.
    destruct Hr as [[-> _]|[He Hl]]; [by kret|].
    destruct He as [->|[->| ->]]; simpl; apply keeps_ret, eval_result_ok;
      auto with unifdef; lia. }
  destruct (bool_decide (hd cp = "("%char)) eqn:E2.
  { apply sdrop1_length in E2; [|done].
    eapply keeps_bind; [apply IHt; unfold fuel_at; lia|]. intros [[lt v] cp1] Hr.
    destruct Hr as [[-> _]|[He Hl]]; [by kret|].
    assert (is_error lt = false) as -> by (destruct He as [->|[->| ->]]; done).
    kskip. destruct (bool_decide (hd cp0 = ")"%char)) eqn:E3; [|by kret].
    apply sdrop1_length in E3; [|done].
    apply keeps_ret, eval_result_ok; [done|lia]. }
  destruct (isdigit (hd cp)) eqn:E3.
  { apply isdigit_sym, skipsym_progress in E3.
    case_match; [by kret|]. apply keeps_ret, eval_result_ok; [auto with unifdef|lia]. }
  destruct (starts "defined" cp && endsym (hd (sdrop 7 cp))) eqn:E4.
  { apply andb_true_iff in E4 as [E4 _]. apply starts_length in E4. simpl in E4.
    kskip. rewrite slen_sdrop in Hc0.
    eapply keeps_bind with (Q' := fun c => slen c <= slen cp0).
    { case_match; [|by kret].
      eapply keeps_weaken; [apply skipcomment_keeps|]. intros a. rewrite slen_sdrop. lia. }
    intros cp1 Hc1. kfind.
    match goal with |- context [match ?x with None => (LT IF, valp) | _ => _ end] =>
      destruct x as [i|] end.
    all: kskip; pose proof (skipsym_length cp1).
    all: case_match; [by kret|]; kstep; apply keeps_ret, eval_result_ok; auto with unifdef.
    all: case_match; rewrite ?slen_sdrop; lia. }
  destruct (endsym (hd cp)) eqn:E5; [by kret|]. simpl.
  apply skipsym_progress in E5. kfind. destruct a as [i|].
  - destruct (value (sym_at syms i)) as [t|].
    + case_match; [by kret|].
      eapply keeps_bind; [apply skipargs_keeps|]. intros cp1 H1. cbv beta in H1.
      kstep. apply keeps_ret, eval_result_ok; [auto with unifdef|lia].
    + kstep. apply keeps_ret, eval_result_ok; [unfold evaluated; auto|lia].
  - eapply keeps_bind; [apply skipargs_keeps|]. intros cp1 H1. cbv beta in H1.
    kstep. apply keeps_ret, eval_result_ok; [auto with unifdef|lia].
Qed.

  (** The call of [ops->inner] at a level. *)
Lemma inner_step fuel s0 lvl valp cpp :
  unary_ok opt syms undef fuel -> table_ok opt syms undef fuel ->
  lvl <= 3 -> fuel_at (S lvl) cpp <= fuel ->
  keeps s0 (match inner_at opt lvl with
            | EvalUnary => eval_unary opt syms undef fuel valp cpp
            | EvalTable => eval_table opt syms undef fuel (S lvl) valp cpp
            end) (eval_result cpp).
Proof.
  intros IHu IHt Hl Hf. unfold fuel_at in Hf.
  destruct lvl as [|[|[|[|lvl]]]]; [..|lia]; cbn [inner_at nth eval_ops fst].
  1-3: apply IHt; unfold fuel_at; lia.
  apply IHu. lia.
Qed.

Lemma table_step fuel :
  unary_ok opt syms undef fuel -> table_ok opt syms undef fuel ->
  loop_ok opt syms undef fuel -> table_ok opt syms undef (S fuel).
Proof.
  intros IHu IHt IHl s0 lvl valp cpp Hl Hf. cbn [eval_table].
  eapply keeps_bind; [apply inner_step; auto; unfold fuel_at in *; lia|].
  intros [[lt v] cp] Hr. destruct Hr as [[-> _]|[He Hc]]; [by kret|].
  assert (is_error lt = false) as -> by (destruct He as [->|[->| ->]]; done).
  apply IHl; auto. unfold fuel_at in Hf. lia.
Qed.

Lemma loop_step fuel :
  unary_ok opt syms undef fuel -> table_ok opt syms undef fuel ->
  loop_ok opt syms undef fuel -> loop_ok opt syms undef (S fuel).
Proof.
  intros IHu IHt IHl s0 lvl lt valp val cpp cp Hl Hf He Hlt. cbn [eval_loop].
  kskip. destruct (find_op _ _) as [[str fn]|] eqn:Eop;
    [|apply keeps_ret, eval_result_ok; [done|lia]].
  assert (forall p a x b y, evaluated (fst (fn p a x b y))) as Hfn
    by (intros; by eapply ops_evaluated).
  assert (0 < slen str /\ starts str cp0 = true) as [Hs Hst]
    by (eapply (ops_evaluated opt lvl cp0 str fn 0 (LT IF) 0 (LT IF) 0 Eop)).
  apply starts_length in Hst.
  eapply keeps_bind.
  { apply inner_step; auto. unfold fuel_at. rewrite slen_sdrop. lia. }
  intros [[rt v] cp1] Hr. destruct Hr as [[-> _]|[Hrt Hc1]]; [by kret|].
  assert (is_error rt = false) as -> by (destruct Hrt as [->|[->| ->]]; done).
  rewrite slen_sdrop in Hc1.
  specialize (Hfn valp lt valp rt v). destruct (fn valp lt valp rt v) as [lt' v'].
  apply IHl; auto; lia.
Qed.

Lemma eval_ok fuel :
  unary_ok opt syms undef fuel /\ table_ok opt syms undef fuel /\ loop_ok opt syms undef fuel.
Proof.
  induction fuel as [|fuel (IHu & IHt & IHl)].
  - repeat split; intros ?; intros; unfold fuel_at in *; lia.
  - split; [by apply unary_step|split; [by apply table_step|by apply loop_step]].
Qed.

Lemma ifeval_keeps s0 cp :
  keeps s0 (ifeval opt syms undef cp)
    (fun r => evaluated (fst r) /\ slen (snd r) <= slen cp).
Proof.
  unfold ifeval. kstep. eapply keeps_bind.
  { apply (proj1 (proj2 (eval_ok _))); [lia|]. unfold fuel_at, eval_fuel. lia. }
  intros [[lt v] cp1] Hr. kstep. apply keeps_ret. simpl.
  assert (slen cp1 <= slen cp) by (destruct Hr as [[_ ->]|[_ ?]]; lia).
  split; [|done]. destruct a0; [auto with unifdef|].
  destruct Hr as [[-> _]|[He _]]; [unfold evaluated; auto|].
  by assert (is_error lt = false) as -> by (destruct He as [->|[->| ->]]; done).
Qed.
End EvalKeeps.

(** ** [parseline] *)

(** What a whole call of [parseline] leaves alone: it may read more input. *)
Definition below (s0 s : ust) : Prop :=
  depth s = depth s0 /\ ifstate s = ifstate s0 /\ ignoring s = ignoring s0 /\
  exitstat s = exitstat s0 /\ output s = output s0 /\ slen (input s) <= slen (input s0).

Definition advances {A} (s0 : ust) (m : U A) (Q : A -> Prop) : Prop :=
  triple (below s0) m (fun a s => below s0 s /\ Q a) (fun e _ => e = Exit 2).

Lemma below_frame s0 s s' : below s0 s -> frame s s' -> below s0 s'.
Proof. unfold below, frame. intuition congruence. Qed.

Lemma advances_keeps {A} s0 (m : U A) Q : (forall s, keeps s m Q) -> advances s0 m Q.
Proof.
  intros Hm s Hs. generalize (Hm s s (frame_refl s)).
  destruct (m s) as [[a|e] s']; [|done]. intros [Hf HQ]. eauto using below_frame.
Qed.

Lemma advances_bind {A B} s0 (m : U A) (k : A -> U B) Q Q' :
  advances s0 m Q' -> (forall a, Q' a -> advances s0 (k a) Q) -> advances s0 (m ≫= k) Q.
Proof.
  intros Hm Hk. eapply triple_bind; [exact Hm|]. intros a s [Hf Ha]. exact (Hk a Ha s Hf).
Qed.

Lemma advances_ret {A} s0 (a : A) (Q : A -> Prop) : Q a -> advances s0 (mret a) Q.
Proof. intros HQ. apply triple_ret. auto. Qed.

Lemma advances_modify s0 (f : ust -> ust) :
  (forall s, below s0 s -> below s0 (f s)) -> advances s0 (modify f) (fun _ => True).
Proof. intros Hf s Hs. split; [auto|done]. Qed.

(** The types a directive or plain line can have. *)
Definition line_type (l : Linetype) : Prop := l <> ERROR /\ l <> EOF.

Lemma evaluated_line_type l : evaluated l -> line_type l.
Proof. intros [->|[->| ->]]; done. Qed.

Lemma elif_of_line_type l : line_type (elif_of l).
Proof. destruct l as [[]| | | |]; done. Qed.

Lemma blur_line_type l : line_type l -> line_type (blur l).
Proof. by destruct l as [[]| | | |]. Qed.

Lemma dodgy_of_line_type l : line_type l -> line_type (dodgy_of l).
Proof. by destruct l. Qed.

#[export] Hint Resolve evaluated_line_type elif_of_line_type blur_line_type
  dodgy_of_line_type : unifdef.

Section ParseKeeps.
  Context (opt : options) (syms : list symbol) (undef : Z).

Ltac kret := apply keeps_ret; simpl; auto with unifdef lia.

Lemma parse_directive_keeps s0 kw :
  keeps s0 (parse_directive opt syms undef kw)
    (fun r => line_type (fst r) /\ slen (snd r) <= slen kw).
Proof.
  pose proof (skipsym_length kw) as Hk.
  unfold parse_directive. kstep.
  destruct (_ || _).
  { eapply keeps_bind; [apply skipcomment_keeps|]. intros cp Hc. cbv beta in Hc.
    eapply keeps_bind; [apply findsym_keeps|]. intros cursym _.
    pose proof (skipsym_length cp). apply keeps_ret. simpl. split; [|lia].
    destruct cursym; [|done]. unfold ifdef_type. by repeat case_match. }
  case_match.
  { eapply keeps_weaken; [apply ifeval_keeps|]. intros r [He Hl].
    split; [auto with unifdef|lia]. }
  case_match.
  { eapply keeps_bind; [apply ifeval_keeps|]. intros [t cp] [He Hl]. simpl in *.
    apply keeps_ret; simpl. split; [auto with unifdef|lia]. }
  repeat case_match; by apply keeps_ret.
Qed.

Lemma refill_advances s0 cp : advances s0 (refill cp) (fun _ => True).
Proof.
  intros s Hs. unfold refill. cbv [mbind M_bind get].
  destruct (fgets _ _) as [o rest] eqn:E. apply fgets_no_longer in E.
  unfold below in *. destruct o; simpl; intuition lia.
Qed.

Lemma skip_rest_keeps s0 fuel cp :
  slen cp <= fuel -> keeps s0 (skip_rest opt fuel cp) (fun _ => True).
Proof.
  revert cp. induction fuel as [|fuel IH]; intros [|c r] Hl; simpl in *; try lia;
    try by apply keeps_ret.
  eapply keeps_bind; [apply skipcomment_keeps|]. intros cp. rewrite slen_sdrop.
  simpl. intros Hc. apply IH. lia.
Qed.

Ltac akeep lem := eapply advances_bind; [apply advances_keeps; intros ?; apply lem|].
Ltac astep := eapply advances_bind with (Q' := fun _ => True);
  [apply advances_keeps; intros ?;
   first [by apply keeps_modify | solve [eauto with unifdef]
         | apply keeps_when; intros _; first [by apply keeps_modify | solve [eauto with unifdef]]]
  | intros ? _].

Lemma parse_hash_advances s0 was cp :
  advances s0 (parse_hash opt syms undef was cp) (fun r => line_type (fst r)).
Proof.
  unfold parse_hash. astep.
  akeep parse_directive_keeps. intros [retval cp1] [Ht _]. simpl in Ht.
  akeep skipcomment_keeps. intros cp2 _. do 4 astep.
  eapply advances_bind with (Q' := fun _ => True).
  { case_match; [apply refill_advances|by apply advances_ret]. }
  intros cp3 _. apply advances_ret. simpl.
  repeat case_match; auto with unifdef.
Qed.

Lemma parse_text_advances s0 line :
  advances s0 (parse_text opt syms undef line) line_type.
Proof.
  unfold parse_text. do 3 astep. akeep skipcomment_keeps. intros cp _. astep.
  eapply advances_bind with (Q' := fun _ => True).
  { case_match; [|by apply advances_ret]. case_match; apply advances_keeps; intros s1.
    - kstep. eapply keeps_weaken; [apply skipcomment_keeps|done].
    - kstep. by apply keeps_ret. }
  intros cp1 _.
  eapply advances_bind with (Q' := fun _ => True); [intros ?; by split|]. intros s _.
  eapply advances_bind with (Q' := fun r => line_type (fst r)).
  { case_match; [apply parse_hash_advances|by apply advances_ret]. }
  intros [retval cp2] Ht. simpl in Ht. astep.
  eapply advances_bind with (Q' := fun _ => True).
  { apply advances_keeps; intros ?. apply keeps_when. intros _. by apply skip_rest_keeps. }
  intros _ _. by apply advances_ret.
Qed.

  (** A call of [parseline]: a line type with input consumed, the end of the
      input, or an error; it never runs out of fuel. *)
Lemma parseline_spec s :
  match parseline opt syms undef s with
  | (Ok lt, s') =>
      below s s' /\ lt <> ERROR /\
      (lt = EOF \/ (line_type lt /\ slen (input s') < slen (input s)))
  | (Ex e, _) => e = Exit 2
  end.
Proof.
  unfold parseline. cbv [mbind M_bind modify gets].
  change (input (set_linenum (linenum s + 1) s)) with (input s).
  destruct (fgets MAXLINE (input s)) as [[line|] rest] eqn:E.
  - apply fgets_progress in E; [|done].
    set (s1 := set_input rest (set_linenum (linenum s + 1) s)).
    assert (below s1 s1) as Hb by (unfold below; split_and!; auto).
    generalize (parse_text_advances s1 line s1 Hb).
    destruct (parse_text opt syms undef line s1) as [[lt|e] s']; [|done].
    intros [Hs [??]]. unfold below in *. simpl in *.
    split_and!; try tauto; [lia|]. right. split; [done|]. lia.
  - apply fgets_no_longer in E. unfold below; simpl. split_and!; auto.
Qed.
End ParseKeeps.
