(* ===== verification/UnifdefSafety.v ===== *)
(** * unifdef always ends, and never by [abort]

    The nesting invariant of the state machine, and the termination theorem of
    the whole program. *)

From Stdlib Require Import ZArith Lia List Bool String Ascii.
From stdpp Require Import base tactics list numbers strings pretty.
From S2P Require Import Prelude CLib Unifdef UnifdefParse UnifdefMain UnifdefFacts.

Local Open Scope bool_scope.

(** Level 0 is the outside of every group, the levels above are inside one. *)
Definition level_ok (s : ust) (d : nat) : Prop :=
  exists i, ifstate s !! d = Some i /\ (i = IS_OUTSIDE <-> d = 0).

(** The exit status so far. *)
Definition status_ok (s : ust) : Prop := exitstat s = 0%Z \/ exitstat s = 1%Z.

Section Invariant.
  Context (opt : options) (inp : string).

Definition core (s : ust) : Prop :=
  depth s < MAXDEPTH /\ length (ifstate s) = MAXDEPTH /\ length (ignoring s) = MAXDEPTH /\
  status_ok s /\ input s = inp.

  (** Every level up to the current one is described. *)
Definition closed (s : ust) : Prop := core s /\ forall d, d <= depth s -> level_ok s d.
  (** The same, inside a group. *)
Definition inside (s : ust) : Prop := closed s /\ 0 < depth s.
  (** Inside a group whose state is still to be set. *)
Definition opened (s : ust) : Prop :=
  core s /\ 0 < depth s /\ forall d, d < depth s -> level_ok s d.

Definition ends (e : halt) (_ : ust) : Prop := exists c, e = Exit c /\ (0 <= c <= 2)%Z.

Lemma inside_closed s : inside s -> closed s.
Proof. by intros [? ?]. Qed.
Lemma inside_opened s : inside s -> opened s.
Proof. intros [[? Hd] ?]. split_and!; auto. intros; apply Hd; lia. Qed.

  (** The parts of the state the invariant looks at. *)
Definition same_nest (s s' : ust) : Prop :=
  depth s' = depth s /\ ifstate s' = ifstate s /\ length (ignoring s') = length (ignoring s) /\
  input s' = input s /\ (status_ok s -> status_ok s').

Definition stable (P : ust -> Prop) : Prop := forall s s', same_nest s s' -> P s -> P s'.

Lemma stable_core : stable core.
Proof. intros s s' (Hd & Hi & Hg & Hp & He) (?&?&?&?&?). unfold core. rewrite Hd, Hi, Hg, Hp. split_and!; auto. Qed.
Lemma stable_level s s' d : same_nest s s' -> level_ok s d -> level_ok s' d.
Proof. intros (Hd & Hi & _). unfold level_ok. by rewrite Hi. Qed.
Lemma stable_closed : stable closed.
Proof.
  intros s s' Hs [Hc Hd]. split; [by eapply stable_core|].
  intros d Hle. rewrite (proj1 Hs) in Hle. eapply stable_level; eauto.
Qed.
Lemma stable_inside : stable inside.
Proof.
  intros s s' Hs [Hc Hd]. split; [by eapply stable_closed|]. destruct Hs as [-> _]. done.
Qed.
Lemma stable_opened : stable opened.
Proof.
  intros s s' Hs (Hc & Hp & Hd). split_and!; [by eapply stable_core| |].
  - destruct Hs as [-> _]. done.
  - intros d Hlt. rewrite (proj1 Hs) in Hlt. eapply stable_level; eauto.
Qed.

Lemma triple_stable {A} (m : U A) (P : ust -> Prop) :
  stable P ->
  (forall s, match m s with
             | (Ok _, s') => same_nest s s'
             | (Ex e, s') => ends e s'
             end) ->
  triple P m (fun _ => P) ends.
Proof.
  intros HP Hm s Hs. generalize (Hm s). destruct (m s) as [[a|e] s']; [|done].
  intros. by eapply HP.
Qed.

Lemma flushline_same keep s :
  match flushline opt keep s with
  | (Ok _, s') => same_nest s s'
  | (Ex e, s') => ends e s'
  end.
Proof.
  unfold flushline, emit. run_monad.
  repeat case_match; simplify_eq; unfold same_nest, status_ok; simpl; split_and!; auto.
Qed.

Lemma keywordedit_same r s :
  match keywordedit opt r s with
  | (Ok _, s') => same_nest s s'
  | (Ex e, s') => ends e s'
  end.
Proof.
  unfold keywordedit, print.
  match goal with |- context [modify ?f] => set (g := f) end.
  change (match flushline opt true (g s) with
          | (Ok _, s') => same_nest s s' | (Ex e, s') => ends e s' end).
  generalize (flushline_same true (g s)). destruct (flushline opt true (g s)) as [[a|e] s']; done.
Qed.

Lemma error_ends {A} (P : ust -> Prop) (Q : A -> ust -> Prop) : triple P (error opt) Q ends.
Proof.
  intros s Hs. destruct (@error_run A opt s) as [s' ->]. exists 2%Z. split; [done|lia].
Qed.

Lemma ignoreoff_ok : triple opened ignoreoff (fun _ => opened) ends.
Proof.
  intros s Hs. pose proof Hs as (Hc & Hp & Hd). unfold ignoreoff. run_monad.
  destruct (depth s) as [|d'] eqn:E; [lia|].
  apply (stable_opened s); [|done].
  unfold same_nest; simpl. split_and!; auto. by rewrite length_insert.
Qed.

Lemma ignoreon_ok : triple inside ignoreon (fun _ => inside) ends.
Proof.
  intros s Hs. apply (stable_inside s); [|done].
  unfold same_nest; simpl. split_and!; auto. by rewrite length_insert.
Qed.

Lemma state_ok i : i <> IS_OUTSIDE -> triple opened (state i) (fun _ => inside) ends.
Proof.
  intros Hi s ((H1 & H2 & H3 & H4 & H5) & Hp & Hd). split; [split|done].
  - split_and!; simpl; auto. by rewrite length_insert.
  - intros d Hle. simpl in Hle. unfold level_ok. simpl.
    destruct (decide (d = depth s)) as [->|Hne].
    + exists i. rewrite list_lookup_insert_eq by lia. split; [done|]. split; intros; [done|lia].
    + rewrite list_lookup_insert_ne by done. apply Hd. lia.
Qed.

Lemma nest_ok : triple closed (nest opt) (fun _ => opened) ends.
Proof.
  intros s ((H1 & H2 & H3 & H4 & H5) & Hd). unfold nest. run_monad.
  destruct (Nat.ltb_spec (MAXDEPTH - 1) (depth s)); [unfold MAXDEPTH in *; lia|].
  destruct (Nat.eqb_spec (depth s) (MAXDEPTH - 1)).
  - destruct (@error_run unit opt s) as [s' ->]. exists 2%Z. split; [done|lia].
  - unfold opened, core; simpl. unfold MAXDEPTH in *. split_and!; auto; try lia.
    intros d Hlt. apply Hd. lia.
Qed.

Lemma unnest_ok : triple inside unnest (fun _ => closed) ends.
Proof.
  intros s (((H1 & H2 & H3 & H4 & H5) & Hd) & Hp). unfold unnest. run_monad.
  destruct (depth s) as [|d'] eqn:E; [lia|].
  unfold closed, core; simpl. split_and!; auto; try lia.
  intros d Hle. apply Hd. lia.
Qed.

Lemma done_ends (P : ust -> Prop) (Q : unit -> ust -> Prop) :
  (forall s, P s -> status_ok s) -> triple P (done_ opt) Q ends.
Proof.
  intros HP s Hs. specialize (HP s Hs). unfold done_.
  cbv [mbind M_bind gets mwhen]. destruct (bool_decide _).
  - destruct (@error_run unit opt s) as [s' ->]. exists 2%Z. split; [done|lia].
  - cbv [closeout say]. run_monad.
    destruct (_ && _); simpl; exists (exitstat s); (split; [done|]); destruct HP; lia.
Qed.

Lemma flush_closed k : triple closed (flushline opt k) (fun _ => closed) ends.
Proof. apply triple_stable; [apply stable_closed|apply flushline_same]. Qed.
Lemma flush_inside k : triple inside (flushline opt k) (fun _ => inside) ends.
Proof. apply triple_stable; [apply stable_inside|apply flushline_same]. Qed.
Lemma flush_opened k : triple opened (flushline opt k) (fun _ => opened) ends.
Proof. apply triple_stable; [apply stable_opened|apply flushline_same]. Qed.
Lemma edit_opened r : triple opened (keywordedit opt r) (fun _ => opened) ends.
Proof. apply triple_stable; [apply stable_opened|apply keywordedit_same]. Qed.
End Invariant.

Create HintDb machine.

Section Transitions.
  Context (opt : options) (inp : string).

Abbreviation goes P m Q := (triple (P inp) m (fun _ => Q inp) ends).

Lemma goes_seq (P Q P' : string -> ust -> Prop) (m k : U unit) :
  goes P m P' -> goes P' k Q -> goes P (_ ← m; k) Q.
Proof. intros Hm Hk. eapply triple_bind; [exact Hm|]. intros a. exact Hk. Qed.

Lemma goes_pre (P P' Q : string -> ust -> Prop) (m : U unit) :
  goes P' m Q -> (forall s, P inp s -> P' inp s) -> goes P m Q.
Proof. intros Hm HP. eapply triple_weaken; eauto. Qed.

Lemma goes_post (P Q Q' : string -> ust -> Prop) (m : U unit) :
  goes P m Q' -> (forall s, Q' inp s -> Q inp s) -> goes P m Q.
Proof. intros Hm HP. eapply triple_weaken; eauto. Qed.

Lemma goes_error P Q : goes P (error opt : U unit) Q.
Proof. apply error_ends. Qed.

Lemma goes_when b P (m : U unit) : goes P m P -> goes P (mwhen b m) P.
Proof. intros Hm. apply triple_when; auto. Qed.

Ltac goes :=
  repeat first
    [ apply goes_error | apply goes_when
    | apply flush_closed | apply flush_inside | apply flush_opened | apply edit_opened
    | apply ignoreoff_ok | apply ignoreon_ok | apply nest_ok | apply unnest_ok
    | apply state_ok; done | eapply goes_seq ].

Lemma goes_Strue : goes opened (Strue opt) inside.
Proof. goes. Qed.
Lemma goes_Sfalse : goes opened (Sfalse opt) inside.
Proof. goes. Qed.
Lemma goes_Selse : goes opened (Selse opt) inside.
Proof. goes. Qed.
Lemma goes_Pelif : goes opened (Pelif opt) inside.
Proof. goes. Qed.
Lemma goes_Pelse : goes opened (Pelse opt) inside.
Proof. goes. Qed.
Lemma goes_Pendif : goes inside (Pendif opt) closed.
Proof. goes. Qed.
Lemma goes_Dfalse : goes opened (Dfalse opt) inside.
Proof. goes. Qed.
Lemma goes_Delif : goes opened (Delif opt) inside.
Proof. goes. Qed.
Lemma goes_Delse : goes opened (Delse opt) inside.
Proof. goes. Qed.
Lemma goes_Dendif : goes inside (Dendif opt) closed.
Proof. goes. Qed.
Lemma goes_Fdrop : goes closed (Fdrop opt) inside.
Proof. goes. Qed.
Lemma goes_Fpass : goes closed (Fpass opt) inside.
Proof. goes. Qed.
Lemma goes_Ftrue : goes closed (Ftrue opt) inside.
Proof. goes. Qed.
Lemma goes_Ffalse : goes closed (Ffalse opt) inside.
Proof. goes. Qed.
Lemma goes_Oiffy : goes closed (Oiffy opt) inside.
Proof. goes. Qed.
Lemma goes_Oif : goes closed (Oif opt) inside.
Proof. goes. Qed.
Lemma goes_Oelif : goes opened (Oelif opt) inside.
Proof. goes. Qed.
Lemma goes_Idrop : goes closed (Idrop opt) inside.
Proof. eapply goes_seq; [apply goes_Fdrop|goes]. Qed.
Lemma goes_Itrue : goes closed (Itrue opt) inside.
Proof. eapply goes_seq; [apply goes_Ftrue|goes]. Qed.
Lemma goes_Ifalse : goes closed (Ifalse opt) inside.
Proof. eapply goes_seq; [apply goes_Ffalse|goes]. Qed.
Lemma goes_Mpass : goes opened (Mpass opt) inside.
Proof.
  eapply goes_seq; [|apply goes_Pelif].
  apply triple_modify. intros s Hs. eapply stable_opened; [|exact Hs].
  by unfold same_nest.
Qed.
Lemma goes_Mtrue : goes opened (Mtrue opt) inside.
Proof. goes. Qed.
Lemma goes_Melif : goes opened (Melif opt) inside.
Proof. goes. Qed.
Lemma goes_Melse : goes opened (Melse opt) inside.
Proof. goes. Qed.

Lemma goes_done P Q : (forall s, P inp s -> status_ok s) -> goes P (done_ opt) Q.
Proof. intros HP. by apply done_ends. Qed.

Lemma outside_depth s : closed inp s -> ifstate_at s = IS_OUTSIDE -> depth s = 0.
Proof.
  intros [_ Hd] Hi. destruct (Hd (depth s)) as (i & Hl & Hz); [lia|].
  unfold ifstate_at in Hi. rewrite Hl in Hi. simpl in Hi. by apply Hz.
Qed.

Lemma group_inside s : closed inp s -> ifstate_at s <> IS_OUTSIDE -> inside inp s.
Proof.
  intros Hc Hi. split; [done|]. destruct Hc as [_ Hd].
  destruct (Hd (depth s)) as (i & Hl & Hz); [lia|].
  unfold ifstate_at in Hi. rewrite Hl in Hi. simpl in Hi.
  destruct (depth s); [|lia]. by destruct (Hi (proj2 Hz eq_refl)).
Qed.

Lemma closed_status s : closed inp s -> status_ok s.
Proof. by intros [(_ & _ & _ & ? & _) _]. Qed.

  (** From the outside, a line starts a group, is printed, or ends the program. *)
Lemma trans_outside lt : lt <> ERROR -> goes closed (trans opt IS_OUTSIDE lt) closed.
Proof.
  intros He. destruct lt as [[]|[]| | |]; try done; unfold trans; simpl;
    try apply goes_error; try apply flush_closed; try (apply goes_done; apply closed_status);
    (eapply goes_post; [|apply inside_closed]).
  all: first [apply goes_Itrue | apply goes_Ifalse | apply goes_Fpass | apply goes_Ftrue
             | apply goes_Ffalse | apply goes_Oiffy | apply goes_Oif].
Qed.

  (** Inside a group every line is handled and the group's state stays set. *)
Lemma trans_inside i lt : i <> IS_OUTSIDE -> lt <> ERROR -> goes inside (trans opt i lt) closed.
Proof.
  intros Hi He.
  destruct i; try done; destruct lt as [[]|[]| | |]; try done; unfold trans; simpl;
    try apply goes_error; try apply goes_Pendif; try apply goes_Dendif;
    (eapply goes_post; [|apply inside_closed]);
    try apply flush_inside;
    first
    [ eapply goes_pre; [|apply inside_closed];
      first [apply goes_Itrue | apply goes_Ifalse | apply goes_Fpass | apply goes_Ftrue
            | apply goes_Ffalse | apply goes_Oiffy | apply goes_Oif | apply goes_Fdrop
            | apply goes_Idrop]
    | eapply goes_pre; [|apply inside_opened];
      first [apply goes_Strue | apply goes_Sfalse | apply goes_Selse | apply goes_Pelif
            | apply goes_Pelse | apply goes_Dfalse | apply goes_Delif | apply goes_Delse
            | apply goes_Oelif | apply goes_Mpass | apply goes_Mtrue | apply goes_Melif
            | apply goes_Melse] ].
Qed.

Lemma trans_ok s lt :
  closed inp s -> lt <> ERROR ->
  match trans opt (ifstate_at s) lt s with
  | (Ok _, s') => closed inp s'
  | (Ex e, s') => ends e s'
  end.
Proof.
  intros Hs He. destruct (decide (ifstate_at s = IS_OUTSIDE)) as [Ho|Ho].
  - rewrite Ho. exact (trans_outside lt He s Hs).
  - exact (trans_inside _ lt Ho He s (group_inside s Hs Ho)).
Qed.

  (** At the end of the input every row of the table leaves the program. *)
Lemma trans_eof i s : exists e s', trans opt i EOF s = (Ex e, s').
Proof.
  destruct i; unfold trans; simpl;
    try (destruct (@error_run unit opt s) as [s' Hs]; exists (Exit 2), s'; exact Hs).
  unfold done_. cbv [mbind M_bind gets mwhen]. destruct (bool_decide _).
  - destruct (@error_run unit opt s) as [s' ->]. by eexists _, _.
  - cbv [closeout say]. run_monad. destruct (_ && _); by eexists _, _.
Qed.
End Transitions.

(** ** The driver *)

Section Driver.
  Context (opt : options) (syms : list symbol) (undef : Z).

Lemma closed_below s s1 : closed (input s) s -> below s s1 -> closed (input s1) s1.
Proof.
  intros [(H1 & H2 & H3 & H4 & H5) Hd] (B1 & B2 & B3 & B4 & B5 & B6).
  unfold closed, core, status_ok, level_ok in *. rewrite B1, B2, B3, B4. split_and!; auto.
Qed.

Lemma closed_init txt :
  closed txt (set_blankmax 1000 (set_blankcount 1000 (ust_init txt))).
Proof.
  unfold closed, core, status_ok, level_ok, MAXDEPTH. simpl. split_and!; auto; try lia.
  intros d Hd. assert (d = 0) as -> by lia. exists IS_OUTSIDE. split; done.
Qed.

Lemma process_step_ok s :
  closed (input s) s ->
  match process_step opt (parseline opt syms undef) s with
  | (Ok _, s') => closed (input s') s' /\ String.length (input s') < String.length (input s)
  | (Ex e, s') => ends e s'
  end.
Proof.
  intros Hs. unfold process_step. cbv [mbind M_bind get].
  generalize (parseline_spec opt syms undef s).
  destruct (parseline opt syms undef s) as [[lt|e] s1]; [|intros ->; exists 2%Z; split; [done|lia]].
  intros (Hb & He & Hlt).
  pose proof (closed_below s s1 Hs Hb) as Hc.
  destruct Hlt as [->|[_ Hlt]].
  - destruct (trans_eof opt (ifstate_at s1) s1) as (e & s' & E).
    generalize (trans_ok opt _ s1 EOF Hc He). by rewrite E.
  - generalize (trans_ok opt _ s1 lt Hc He).
    destruct (trans opt (ifstate_at s1) lt s1) as [[[]|e] s']; [|done].
    intros Hc'. assert (input s' = input s1) as E by (by destruct Hc' as [(_&_&_&_&?) _]).
    rewrite E. by split.
Qed.

Lemma process_loop_ends fuel s :
  closed (input s) s -> String.length (input s) < fuel ->
  exists c s', process_loop opt (parseline opt syms undef) fuel s = (Ex (Exit c), s') /\
               (0 <= c <= 2)%Z.
Proof.
  revert s. induction fuel as [|fuel IH]; intros s Hs Hf; [lia|]. simpl.
  generalize (process_step_ok s Hs). cbv [mbind M_bind].
  destruct (process_step _ _ s) as [[[]|e] s'].
  - intros [Hc Hl]. apply IH; [done|lia].
  - intros (c & -> & Hc). eauto.
Qed.

(** C4. Whatever the options, the symbol table, the contents of uninitialised
    memory and the input text, [unifdef] ends by calling [exit] with one of the
    documented statuses 0, 1 and 2: no loop of the line parser, of the
    expression evaluator or of the driver goes on for ever, and none of the
    [abort()] calls (stack underflow, stack overflow, unevaluable line) is
    reachable. *)
Theorem unifdef_always_exits inp :
  exists c s', unifdef opt syms undef inp = (Ex (Exit c), s') /\ (0 <= c <= 2)%Z.
Proof.
  unfold unifdef, process, process_with. cbv [mbind M_bind gets modify].
  apply process_loop_ends; [apply closed_init|simpl; lia].
Qed.
End Driver.
