(* ===== verification/UnifdefSpec.v ===== *)
(** * unifdef: what a run may do to a program

    A reference preprocessor over typed lines, the abstract transition function
    that the state machine implements, and the proof that the lines a
    successful run writes preprocess to the same text as the lines it read. *)

From Stdlib Require Import ZArith Lia List Bool String Ascii.
From stdpp Require Import base tactics list numbers strings pretty.
From S2P Require Import Prelude CLib Unifdef UnifdefParse UnifdefMain UnifdefFacts UnifdefSafety.

Local Open Scope bool_scope.

(** ** A reference preprocessor

    A line is what [#if] processing sees of it: its kind, the number that
    identifies its condition, and the condition's known value, if any. *)

Inductive kind := KPlain | KIf | KElif | KElse | KEndif.

Record pline := {
  pl_kind : kind;
  pl_known : option bool;   (* the condition's value, when it is known *)
  pl_id : nat;              (* identifies the line *) }.

(** One open group: whether a branch was taken, and whether the text of the
    current branch is live. *)
Record cpp_frame := { taken : bool; live : bool }.

Section Cpp.
  (** The values of the unknown conditions. *)
  Context (rho : nat -> bool).

Definition cond_value (l : pline) : bool := default (rho (pl_id l)) (pl_known l).

Definition all_live (st : list cpp_frame) : bool := forallb live st.

Definition cpp_step (l : pline) (st : list cpp_frame) : list cpp_frame :=
  let c := cond_value l in
  match pl_kind l, st with
  | KPlain, _ => st
  | KIf, _ => {| taken := c; live := c |} :: st
  | KElif, f :: st' => {| taken := taken f || c; live := negb (taken f) && c |} :: st'
  | KElse, f :: st' => {| taken := true; live := negb (taken f) |} :: st'
  | KEndif, _ :: st' => st'
  | _, [] => []
  end.

  (** The plain lines that survive preprocessing. *)
Fixpoint cpp (ls : list pline) (st : list cpp_frame) : list nat :=
  match ls with
  | [] => []
  | l :: ls' =>
      match pl_kind l with
      | KPlain => if all_live st then pl_id l :: cpp ls' st else cpp ls' st
      | _ => cpp ls' (cpp_step l st)
      end
  end.
End Cpp.

(** ** The lines a run reads *)

Record rline := {
  rl_state : Ifstate;    (* the state the line was met in *)
  rl_type : Linetype;
  rl_text : string;
  rl_keyword : nat;
  rl_newline : string }.

Definition known_of (d : directive) : option bool :=
  match d with
  | TRUEI | TRUE | ELTRUE => Some true
  | FALSEI | FALSE | ELFALSE => Some false
  | _ => None
  end.

Definition kind_of (d : directive) : kind :=
  match d with
  | TRUEI | FALSEI | IF | TRUE | FALSE => KIf
  | ELIF | ELTRUE | ELFALSE => KElif
  | ELSE => KElse
  | ENDIF => KEndif
  end.

(** A line of the input, as the reference preprocessor sees it. *)
Definition input_line (n : nat) (t : Linetype) : pline :=
  match t with
  | LT d | Dodgy d => {| pl_kind := kind_of d; pl_known := known_of d; pl_id := n |}
  | _ => {| pl_kind := KPlain; pl_known := None; pl_id := n |}
  end.

(** ** The abstract state machine *)

(** Whether plain text is kept in a state. *)
Definition printing (i : Ifstate) : bool :=
  match i with
  | IS_OUTSIDE | IS_TRUE_PREFIX | IS_PASS_MIDDLE | IS_TRUE_MIDDLE
  | IS_PASS_ELSE | IS_TRUE_ELSE => true
  | _ => false
  end.

Inductive move := Keep | Push (i : Ifstate) | Become (i : Ifstate) | Pop.

(** What happens to the line itself. *)
Inductive fate := Dropped | Kept | Edited (k : kind).

Definition group_start (i : Ifstate) (dodgy : bool) (d : directive) : move * fate :=
  if negb (printing i) then (Push IS_FALSE_TRAILER, Dropped)
  else if dodgy then (Push IS_PASS_MIDDLE, Kept)
  else match known_of d with
       | Some true => (Push IS_TRUE_PREFIX, Dropped)
       | Some false => (Push IS_FALSE_PREFIX, Dropped)
       | None => (Push IS_PASS_MIDDLE, Kept)
       end.

Definition group_elif (i : Ifstate) (dodgy : bool) (d : directive) : option (move * fate) :=
  match i, known_of d with
  | IS_FALSE_PREFIX, None => Some (Become IS_PASS_MIDDLE, Edited KIf)
  | IS_FALSE_PREFIX, Some true => Some (Become IS_TRUE_PREFIX, Dropped)
  | IS_FALSE_PREFIX, Some false => Some (Keep, Dropped)
  | (IS_TRUE_PREFIX | IS_FALSE_TRAILER), _ => Some (Become IS_FALSE_TRAILER, Dropped)
  | (IS_PASS_MIDDLE | IS_FALSE_MIDDLE), None => Some (Become IS_PASS_MIDDLE, Kept)
  | (IS_PASS_MIDDLE | IS_FALSE_MIDDLE), Some b =>
      if dodgy then Some (Become IS_PASS_MIDDLE, Kept)
      else if b then Some (Become IS_TRUE_MIDDLE, Edited KElse)
      else Some (Become IS_FALSE_MIDDLE, Dropped)
  | IS_TRUE_MIDDLE, _ => Some (Become IS_FALSE_TRAILER, Edited KEndif)
  | _, _ => None
  end.

Definition group_else (i : Ifstate) : option (move * fate) :=
  match i with
  | IS_FALSE_PREFIX => Some (Become IS_TRUE_ELSE, Dropped)
  | IS_TRUE_PREFIX | IS_FALSE_TRAILER => Some (Become IS_FALSE_ELSE, Dropped)
  | IS_PASS_MIDDLE | IS_FALSE_MIDDLE => Some (Become IS_PASS_ELSE, Kept)
  | IS_TRUE_MIDDLE => Some (Become IS_FALSE_ELSE, Edited KEndif)
  | _ => None
  end.

Definition group_endif (i : Ifstate) : option (move * fate) :=
  match i with
  | IS_OUTSIDE => None
  | IS_PASS_MIDDLE | IS_FALSE_MIDDLE | IS_TRUE_MIDDLE | IS_PASS_ELSE => Some (Pop, Kept)
  | _ => Some (Pop, Dropped)
  end.

(** What a line does in a state, when it is not an error. *)
Definition effect (i : Ifstate) (t : Linetype) : option (move * fate) :=
  match t with
  | PLAIN => Some (Keep, if printing i then Kept else Dropped)
  | EOF | ERROR => None
  | LT d | Dodgy d =>
      let dodgy := match t with Dodgy _ => true | _ => false end in
      match kind_of d with
      | KIf => Some (group_start i dodgy d)
      | KElif => group_elif i dodgy d
      | KElse => group_else i
      | KEndif => group_endif i
      | KPlain => None
      end
  end.

Definition apply_move (m : move) (l : list Ifstate) : list Ifstate :=
  match m, l with
  | Keep, _ => l
  | Push i, _ => i :: l
  | Become i, _ :: l' => i :: l'
  | Pop, _ :: l' => l'
  | _, [] => []
  end.

(** The line as it is written. *)
Definition output_line (n : nat) (t : Linetype) (f : fate) : list pline :=
  match f with
  | Dropped => []
  | Kept => [input_line n t]
  | Edited k => [{| pl_kind := k; pl_known := pl_known (input_line n t); pl_id := n |}]
  end.

(** ** The abstract machine preserves the meaning of the program *)

Section Preservation.
  Context (rho : nat -> bool).

  (** How the groups open in the input and in the output belong together; the
      first list holds the states of the open groups, innermost first. *)
Inductive related : list Ifstate -> list cpp_frame -> list cpp_frame -> Prop :=
  | rel_nil : related [] [] []
  | rel_dead i l f fi fo :      (* inside text that is dropped *)
      related l fi fo -> printing (List.hd IS_OUTSIDE l) = false ->
      i = IS_FALSE_TRAILER \/ i = IS_FALSE_ELSE ->
      related (i :: l) (f :: fi) fo
  | rel_gone i l t lv fi fo :   (* the group's directives are dropped *)
      related l fi fo -> printing (List.hd IS_OUTSIDE l) = true ->
      (i = IS_FALSE_PREFIX /\ t = false /\ lv = false) \/
      (i = IS_TRUE_PREFIX /\ t = true /\ lv = true) \/
      (i = IS_TRUE_ELSE /\ lv = true) \/
      ((i = IS_FALSE_ELSE \/ i = IS_FALSE_TRAILER) /\ t = true /\ lv = false) ->
      related (i :: l) ({| taken := t; live := lv |} :: fi) fo
  | rel_same i l f fi fo :      (* the group is kept *)
      related l fi fo -> printing (List.hd IS_OUTSIDE l) = true ->
      i = IS_PASS_MIDDLE \/ i = IS_PASS_ELSE \/ (i = IS_TRUE_MIDDLE /\ taken f = true) ->
      related (i :: l) (f :: fi) (f :: fo)
  | rel_skip l t lv fi fo :     (* a dropped branch of a kept group *)
      related l fi fo -> printing (List.hd IS_OUTSIDE l) = true ->
      related (IS_FALSE_MIDDLE :: l) ({| taken := t; live := false |} :: fi)
              ({| taken := t; live := lv |} :: fo).

Lemma related_live l fi fo :
  related l fi fo ->
  if printing (List.hd IS_OUTSIDE l) then all_live fi = all_live fo else all_live fi = false.
Proof.
  induction 1 as [|i l f fi fo Hr IH Hp Hi|i l t lv fi fo Hr IH Hp Hi
                  |i l f fi fo Hr IH Hp Hi|l t lv fi fo Hr IH Hp]; simpl in *;
    try rewrite Hp in IH; try done.
  - destruct Hi as [-> | ->]; simpl; rewrite IH; apply andb_false_r.
  - destruct Hi as [(->&->&->)|[(->&->&->)|[(->&->)|([->| ->]&->&->)]]]; simpl; auto.
  - destruct Hi as [->|[->|[-> _]]]; simpl; by rewrite IH.
Qed.

  (** Reading the line in the input and what was made of it in the output keeps
      the groups related. *)
Definition cpp_steps (ls : list pline) (st : list cpp_frame) : list cpp_frame :=
  List.fold_left (fun (st : list cpp_frame) (l : pline) => cpp_step rho l st) ls st.

Lemma start_related n t d (dodgy : bool) l fi fo m f :
  related l fi fo -> kind_of d = KIf -> t = (if dodgy then Dodgy d else LT d) ->
  group_start (List.hd IS_OUTSIDE l) dodgy d = (m, f) ->
  related (apply_move m l) (cpp_step rho (input_line n t) fi)
          (cpp_steps (output_line n t f) fo).
Proof.
  intros Hr Hk Ht Hg. unfold group_start in Hg.
  assert (cpp_step rho (input_line n t) fi =
    {| taken := default (rho n) (known_of d); live := default (rho n) (known_of d) |} :: fi) as ->
    by (subst t; destruct dodgy; simpl; by rewrite Hk).
  assert (cpp_steps [input_line n t] fo =
    {| taken := default (rho n) (known_of d); live := default (rho n) (known_of d) |} :: fo) as Ho
    by (subst t; destruct dodgy; simpl; by rewrite Hk).
  destruct (printing (List.hd IS_OUTSIDE l)) eqn:Hp; simpl in Hg.
  - destruct dodgy; [|destruct (known_of d) as [[]|]]; simplify_eq; simpl apply_move;
      unfold output_line; rewrite ?Ho; simpl.
    all: first [apply rel_same; by auto | apply rel_gone; by auto 6].
  - simplify_eq. simpl. apply rel_dead; auto.
Qed.

Lemma elif_related n t d (dodgy : bool) l fi fo m f :
  related l fi fo -> kind_of d = KElif -> t = (if dodgy then Dodgy d else LT d) ->
  group_elif (List.hd IS_OUTSIDE l) dodgy d = Some (m, f) ->
  related (apply_move m l) (cpp_step rho (input_line n t) fi)
          (cpp_steps (output_line n t f) fo).
Proof.
  intros Hr Hk Ht Hg.
  assert (input_line n t = {| pl_kind := KElif; pl_known := known_of d; pl_id := n |}) as Hin
    by (subst t; destruct dodgy; simpl; by rewrite Hk).
  unfold output_line. rewrite Hin.
  unfold cpp_steps, cpp_step, cond_value; simpl.
  destruct Hr as [|i l f0 fi fo Hr Hp Hi|i l t0 lv fi fo Hr Hp Hi
                 |i l f0 fi fo Hr Hp Hi|l t0 lv fi fo Hr Hp]; simpl in Hg.
  - by destruct (known_of d).
  - destruct Hi as [-> | ->]; simpl in Hg; simplify_eq. apply rel_dead; auto.
  - destruct Hi as [(->&->&->)|[(->&->&->)|[(->&->)|([->| ->]&->&->)]]]; simpl in Hg;
      destruct (known_of d) as [[]|]; simplify_eq; simpl;
      first [apply rel_same; by auto | apply rel_gone; by auto 7].
  - destruct f0 as [t0 lv]; simpl in *.
    destruct Hi as [->|[->|[-> ->]]]; simpl in Hg; destruct (known_of d) as [[]|];
      try destruct dodgy; simplify_eq; simpl; rewrite ?orb_true_r, ?orb_false_r, ?andb_false_r, ?andb_true_r;
      first [apply rel_same; by auto | apply rel_skip; by auto | apply rel_gone; by auto 7].
  - destruct (known_of d) as [[]|]; try destruct dodgy; simplify_eq; simpl;
      rewrite ?orb_true_r, ?orb_false_r, ?andb_false_r, ?andb_true_r;
      first [apply rel_same; by auto | apply rel_skip; by auto].
Qed.

Lemma else_related n t l fi fo m f :
  related l fi fo -> t = LT ELSE \/ t = Dodgy ELSE ->
  group_else (List.hd IS_OUTSIDE l) = Some (m, f) ->
  related (apply_move m l) (cpp_step rho (input_line n t) fi)
          (cpp_steps (output_line n t f) fo).
Proof.
  intros Hr Ht Hg.
  assert (input_line n t = {| pl_kind := KElse; pl_known := None; pl_id := n |}) as Hin
    by (by destruct Ht; subst t).
  unfold output_line. rewrite Hin. unfold cpp_steps, cpp_step; simpl.
  destruct Hr as [|i l f0 fi fo Hr Hp Hi|i l t0 lv fi fo Hr Hp Hi
                 |i l f0 fi fo Hr Hp Hi|l t0 lv fi fo Hr Hp]; simpl in Hg; try done.
  - destruct Hi as [-> | ->]; simpl in Hg; simplify_eq. apply rel_dead; auto.
  - destruct Hi as [(->&->&->)|[(->&->&->)|[(->&->)|([->| ->]&->&->)]]]; simpl in Hg;
      simplify_eq; simpl; apply rel_gone; by auto 7.
  - destruct f0 as [t0 lv]; simpl in *.
    destruct Hi as [->|[->|[-> ->]]]; simpl in Hg; simplify_eq; simpl;
      first [apply rel_same; by auto | apply rel_gone; by auto 7].
  - simplify_eq; simpl. apply rel_same; auto.
Qed.

Lemma endif_related n t l fi fo m f :
  related l fi fo -> t = LT ENDIF \/ t = Dodgy ENDIF ->
  group_endif (List.hd IS_OUTSIDE l) = Some (m, f) ->
  related (apply_move m l) (cpp_step rho (input_line n t) fi)
          (cpp_steps (output_line n t f) fo).
Proof.
  intros Hr Ht Hg.
  assert (input_line n t = {| pl_kind := KEndif; pl_known := None; pl_id := n |}) as Hin
    by (by destruct Ht; subst t).
  unfold output_line. rewrite Hin. unfold cpp_steps, cpp_step; simpl.
  destruct Hr as [|i l f0 fi fo Hr Hp Hi|i l t0 lv fi fo Hr Hp Hi
                 |i l f0 fi fo Hr Hp Hi|l t0 lv fi fo Hr Hp]; simpl in Hg; try done.
  - destruct Hi as [-> | ->]; simpl in Hg; by simplify_eq.
  - destruct Hi as [(->&->&->)|[(->&->&->)|[(->&->)|([->| ->]&->&->)]]]; simpl in Hg;
      by simplify_eq.
  - destruct Hi as [->|[->|[-> _]]]; simpl in Hg; by simplify_eq.
  - by simplify_eq.
Qed.

Lemma effect_related n t l fi fo m f :
  related l fi fo ->
  effect (List.hd IS_OUTSIDE l) t = Some (m, f) ->
  related (apply_move m l) (cpp_step rho (input_line n t) fi)
          (cpp_steps (output_line n t f) fo).
Proof.
  intros Hr He. destruct t as [d|d| | |]; try done.
  - unfold effect in He. destruct (kind_of d) eqn:Hk; try done.
    + injection He as He. by eapply (start_related n _ d false).
    + by eapply (elif_related n _ d false).
    + destruct d; try done. eapply else_related; eauto.
    + destruct d; try done. eapply endif_related; eauto.
  - unfold effect in He. destruct (kind_of d) eqn:Hk; try done.
    + injection He as He. by eapply (start_related n _ d true).
    + by eapply (elif_related n _ d true).
    + destruct d; try done. eapply else_related; eauto.
    + destruct d; try done. eapply endif_related; eauto.
  - simpl in He. simplify_eq. by destruct (printing _).
Qed.

Lemma cpp_app ls1 ls2 st :
  cpp rho (ls1 ++ ls2) st = cpp rho ls1 st ++ cpp rho ls2 (cpp_steps ls1 st).
Proof.
  revert st. induction ls1 as [|l ls1 IH]; intros st; simpl; [done|].
  destruct (pl_kind l) eqn:E; rewrite ?IH; try done.
  assert (cpp_step rho l st = st) as -> by (unfold cpp_step; by rewrite E).
  by destruct (all_live st).
Qed.

  (** A line and what was made of it give the same preprocessed text. *)
Lemma effect_same_text n t l fi fo m f :
  related l fi fo ->
  effect (List.hd IS_OUTSIDE l) t = Some (m, f) ->
  cpp rho [input_line n t] fi = cpp rho (output_line n t f) fo.
Proof.
  intros Hr He. apply related_live in Hr.
  destruct t as [d|d| | |]; try done.
  - simpl in He |- *.
    assert (forall k, f = Edited k -> k <> KPlain) as Hk.
    { intros k ->. unfold group_start, group_elif, group_else, group_endif in He.
      repeat case_match; simplify_eq; done. }
    destruct f as [| |k]; simpl; destruct d; try done; specialize (Hk k eq_refl); by destruct k.
  - simpl in He |- *.
    assert (forall k, f = Edited k -> k <> KPlain) as Hk.
    { intros k ->. unfold group_start, group_elif, group_else, group_endif in He.
      repeat case_match; simplify_eq; done. }
    destruct f as [| |k]; simpl; destruct d; try done; specialize (Hk k eq_refl); by destruct k.
  - simpl in He. simplify_eq.
    destruct (printing (List.hd IS_OUTSIDE l)); simpl; by rewrite Hr.
Qed.
End Preservation.
