(* ===== verification/UnifdefRefine.v ===== *)
(** * unifdef: the state machine implements the abstract one

    Under the options that only select the output format being off, every
    entry of [trans_table] does what [effect] says; hence the theorem on whole
    runs. *)

From Stdlib Require Import ZArith Lia List Bool String Ascii.
From stdpp Require Import base tactics list numbers strings pretty.
From S2P Require Import Prelude CLib Unifdef UnifdefParse UnifdefMain UnifdefFacts UnifdefSafety UnifdefSpec.

Local Open Scope bool_scope.

(** No -B, -b, -c, -n, -s: the output consists of kept lines only. *)
Definition plain_output (opt : options) : Prop :=
  compblank opt = false /\ lnblank opt = false /\ complement opt = false /\
  lnnum opt = false /\ symlist opt = false.

(** The states of the open groups, innermost first. *)
Fixpoint levels_upto (ifs : list Ifstate) (d : nat) : list Ifstate :=
  match d with
  | O => []
  | S d' => default IS_OUTSIDE (ifs !! d) :: levels_upto ifs d'
  end.
Definition levels (s : ust) : list Ifstate := levels_upto (ifstate s) (depth s).

Lemma levels_upto_insert ifs d e i : d < e -> levels_upto (<[e := i]> ifs) d = levels_upto ifs d.
Proof.
  induction d as [|d IH]; intros Hd; [done|]. simpl levels_upto.
  rewrite IH by lia. by rewrite list_lookup_insert_ne by lia.
Qed.

(** The text that is written for a line. *)
Definition edit_line (nl : string) (k : nat) (t r : string) : string :=
  (stake k t +:+ stake (Z.to_nat (MAXLINE + EDITSLOP - Z.of_nat k - 1)) (r +:+ nl))%string.

Definition written (nl : string) (k : nat) (t : string) (f : fate) : list string :=
  match f with
  | Dropped => []
  | Kept => [t]
  | Edited KIf => [overwrite k "if  " t]
  | Edited KElse => [edit_line nl k t "else"]
  | Edited _ => [edit_line nl k t "endif"]
  end.

Section Refine.
  Context (opt : options) (Hopt : plain_output opt).
  (** The line at hand. *)
  Context (t : string) (k : nat) (nl : option string).

Definition anyhow (_ : halt) (_ : ust) : Prop := True.

  (** The output so far, the open groups, and the exit status so far. *)
Definition at_ (out : list string) (lv : list Ifstate) (e : Z) (s : ust) : Prop :=
  depth s < MAXDEPTH /\ length (ifstate s) = MAXDEPTH /\
  output s = out /\ levels s = lv /\ exitstat s = e /\
  tline s = t /\ keyword s = k /\ newline s = nl.

Definition opened_at out lv e (s : ust) : Prop := exists j, at_ out (j :: lv) e s.

Abbreviation does P m Q := (triple P m (fun _ => Q) anyhow).

Lemma does_seq (P Q P' : ust -> Prop) (m n : U unit) :
  does P m P' -> does P' n Q -> does P (_ ← m; n) Q.
Proof. intros Hm Hk. eapply triple_bind; [exact Hm|]. intros a. exact Hk. Qed.

Lemma does_pre (P P' Q : ust -> Prop) (m : U unit) :
  does P' m Q -> (forall s, P s -> P' s) -> does P m Q.
Proof. intros Hm HP. eapply triple_weaken; eauto. Qed.

Lemma does_error P Q : does P (error opt : U unit) Q.
Proof. intros s Hs. destruct (@error_run unit opt s) as [s' ->]. exact I. Qed.

Lemma does_when_error b P Q (m : U unit) :
  does P m Q -> does P (_ ← mwhen b (Eioccc opt); m) Q.
Proof.
  intros Hm. eapply does_seq; [|exact Hm]. apply triple_when; [intros _; apply does_error|auto].
Qed.

Lemma flush_keep s :
  exists s', flushline opt true s = (Ok tt, s') /\ output s' = output s ++ [tline s] /\
    depth s' = depth s /\ ifstate s' = ifstate s /\ exitstat s' = exitstat s /\
    tline s' = tline s /\ keyword s' = keyword s /\ newline s' = newline s.
Proof using Hopt.
  destruct Hopt as (H1 & H2 & H3 & H4 & H5). unfold flushline. rewrite H3, H5, H1, H4. simpl.
  unfold emit. run_monad. simpl. rewrite andb_false_r. simpl. eexists; split; [reflexivity|].
  by split_and!.
Qed.

Lemma flush_drop s :
  exists s', flushline opt false s = (Ok tt, s') /\ output s' = output s /\
    depth s' = depth s /\ ifstate s' = ifstate s /\ exitstat s' = 1%Z /\
    tline s' = tline s /\ keyword s' = keyword s /\ newline s' = newline s.
Proof using Hopt.
  destruct Hopt as (H1 & H2 & H3 & H4 & H5). unfold flushline. rewrite H3, H5, H2. simpl.
  run_monad. simpl. eexists; split; [reflexivity|]. by split_and!.
Qed.

Lemma does_print out lv e : does (at_ out lv e) (print opt) (at_ (out ++ [t]) lv e).
Proof using Hopt.
  intros s (H1&H2&H3&H4&H5&H6&H7&H8). unfold print.
  destruct (flush_keep s) as (s' & -> & E1 & E2 & E3 & E4 & E5 & E6 & E7).
  unfold at_, levels. rewrite E1, E2, E3, E4, E5, E6, E7. subst. by split_and!.
Qed.

Lemma does_drop out lv e : does (at_ out lv e) (drop opt) (at_ out lv 1).
Proof using Hopt.
  intros s (H1&H2&H3&H4&H5&H6&H7&H8). unfold drop.
  destruct (flush_drop s) as (s' & -> & E1 & E2 & E3 & E4 & E5 & E6 & E7).
  unfold at_, levels. rewrite E1, E2, E3, E4, E5, E6, E7. subst. by split_and!.
Qed.

Lemma opened_print out lv e : does (opened_at out lv e) (print opt) (opened_at (out ++ [t]) lv e).
Proof using Hopt.
  intros s [j Hs]. generalize (does_print _ _ _ s Hs).
  destruct (print opt s) as [[]?]; [by exists j|done].
Qed.

Lemma opened_drop out lv e : does (opened_at out lv e) (drop opt) (opened_at out lv 1).
Proof using Hopt.
  intros s [j Hs]. generalize (does_drop _ _ _ s Hs).
  destruct (drop opt s) as [[]?]; [by exists j|done].
Qed.

Lemma opened_ignoreoff out lv e : does (opened_at out lv e) ignoreoff (opened_at out lv e).
Proof.
  intros s [j Hs]. unfold ignoreoff. run_monad. destruct (depth s) eqn:E; [done|].
  exists j. exact Hs.
Qed.

Lemma does_ignoreon out lv e : does (at_ out lv e) ignoreon (at_ out lv e).
Proof. intros s Hs. exact Hs. Qed.

Lemma opened_state i out lv e : does (opened_at out lv e) (state i) (at_ out (i :: lv) e).
Proof.
  intros s [j (H1&H2&H3&H4&H5&H6&H7&H8)]. unfold state. run_monad.
  unfold at_; simpl. split_and!; auto; [by rewrite length_insert|].
  unfold levels in *; simpl. destruct (depth s) as [|d]; [done|]. simpl levels_upto in *.
  injection H4 as <- <-. rewrite levels_upto_insert by lia.
  by rewrite list_lookup_insert_eq by lia.
Qed.

Lemma does_nest out lv e : does (at_ out lv e) (nest opt) (opened_at out lv e).
Proof.
  intros s (H1&H2&H3&H4&H5&H6&H7&H8). unfold nest. run_monad.
  destruct (_ <? _)%nat; [done|]. destruct (Nat.eqb_spec (depth s) (MAXDEPTH - 1)).
  - by destruct (@error_run unit opt s) as [s' ->].
  - unfold opened_at, at_, levels. simpl. rewrite <- H4. unfold levels.
    exists (default IS_OUTSIDE (ifstate s !! S (depth s))). split_and!; auto; unfold MAXDEPTH in *; lia.
Qed.

Lemma does_unnest j out lv e : does (at_ out (j :: lv) e) unnest (at_ out lv e).
Proof.
  intros s (H1&H2&H3&H4&H5&H6&H7&H8). unfold unnest. run_monad.
  unfold levels in H4. destruct (depth s) as [|d] eqn:E; [done|].
  simpl levels_upto in H4. injection H4 as _ H4.
  unfold at_, levels; simpl. split_and!; auto; lia.
Qed.

Lemma opened_of j out lv e s : at_ out (j :: lv) e s -> opened_at out lv e s.
Proof. by exists j. Qed.

Ltac does :=
  repeat first
    [ apply does_error | apply does_when_error
    | apply does_print | apply does_drop | apply opened_print | apply opened_drop
    | apply opened_ignoreoff | apply does_ignoreon | apply opened_state
    | apply does_nest | apply does_unnest | eapply does_seq ].

Lemma does_Strue out lv e : does (opened_at out lv e) (Strue opt) (at_ out (IS_TRUE_PREFIX :: lv) 1).
Proof using Hopt. does. Qed.
Lemma does_Sfalse out lv e : does (opened_at out lv e) (Sfalse opt) (at_ out (IS_FALSE_PREFIX :: lv) 1).
Proof using Hopt. does. Qed.
Lemma does_Selse out lv e : does (opened_at out lv e) (Selse opt) (at_ out (IS_TRUE_ELSE :: lv) 1).
Proof using Hopt. does. Qed.
Lemma does_Pelif out lv e :
  does (opened_at out lv e) (Pelif opt) (at_ (out ++ [t]) (IS_PASS_MIDDLE :: lv) e).
Proof using Hopt. does. Qed.
Lemma does_Pelse out lv e :
  does (opened_at out lv e) (Pelse opt) (at_ (out ++ [t]) (IS_PASS_ELSE :: lv) e).
Proof using Hopt. does. Qed.
Lemma does_Pendif j out lv e : does (at_ out (j :: lv) e) (Pendif opt) (at_ (out ++ [t]) lv e).
Proof using Hopt. does. Qed.
Lemma does_Dfalse out lv e : does (opened_at out lv e) (Dfalse opt) (at_ out (IS_FALSE_TRAILER :: lv) 1).
Proof using Hopt. does. Qed.
Lemma does_Delif out lv e : does (opened_at out lv e) (Delif opt) (at_ out (IS_FALSE_MIDDLE :: lv) 1).
Proof using Hopt. does. Qed.
Lemma does_Delse out lv e : does (opened_at out lv e) (Delse opt) (at_ out (IS_FALSE_ELSE :: lv) 1).
Proof using Hopt. does. Qed.
Lemma does_Dendif j out lv e : does (at_ out (j :: lv) e) (Dendif opt) (at_ out lv 1).
Proof using Hopt. does. Qed.
Lemma does_Fdrop out lv e : does (at_ out lv e) (Fdrop opt) (at_ out (IS_FALSE_TRAILER :: lv) 1).
Proof using Hopt. does. Qed.
Lemma does_Fpass out lv e : does (at_ out lv e) (Fpass opt) (at_ (out ++ [t]) (IS_PASS_MIDDLE :: lv) e).
Proof using Hopt. does. Qed.
Lemma does_Ftrue out lv e : does (at_ out lv e) (Ftrue opt) (at_ out (IS_TRUE_PREFIX :: lv) 1).
Proof using Hopt. does. Qed.
Lemma does_Ffalse out lv e : does (at_ out lv e) (Ffalse opt) (at_ out (IS_FALSE_PREFIX :: lv) 1).
Proof using Hopt. does. Qed.
Lemma does_Oiffy out lv e : does (at_ out lv e) (Oiffy opt) (at_ (out ++ [t]) (IS_PASS_MIDDLE :: lv) e).
Proof using Hopt. apply does_when_error. eapply does_seq; [apply does_Fpass|does]. Qed.
Lemma does_Oif out lv e : does (at_ out lv e) (Oif opt) (at_ (out ++ [t]) (IS_PASS_MIDDLE :: lv) e).
Proof using Hopt. apply does_when_error, does_Fpass. Qed.
Lemma does_Oelif out lv e :
  does (opened_at out lv e) (Oelif opt) (at_ (out ++ [t]) (IS_PASS_MIDDLE :: lv) e).
Proof using Hopt. apply does_when_error, does_Pelif. Qed.
Lemma does_Idrop out lv e : does (at_ out lv e) (Idrop opt) (at_ out (IS_FALSE_TRAILER :: lv) 1).
Proof using Hopt. eapply does_seq; [apply does_Fdrop|does]. Qed.
Lemma does_Itrue out lv e : does (at_ out lv e) (Itrue opt) (at_ out (IS_TRUE_PREFIX :: lv) 1).
Proof using Hopt. eapply does_seq; [apply does_Ftrue|does]. Qed.
Lemma does_Ifalse out lv e : does (at_ out lv e) (Ifalse opt) (at_ out (IS_FALSE_PREFIX :: lv) 1).
Proof using Hopt. eapply does_seq; [apply does_Ffalse|does]. Qed.
End Refine.

(** ** The transitions that edit the line *)

Section Edits.
  Context (opt : options) (Hopt : plain_output opt) (k : nat) (nl : option string).

Lemma edit_does r t out lv e :
  triple (opened_at t k nl out lv e) (keywordedit opt r)
    (fun _ => opened_at (edit_line (default "" nl) k t r) k nl
                (out ++ [edit_line (default "" nl) k t r]) lv e) anyhow.
Proof using Hopt.
  unfold keywordedit. eapply triple_bind; [|intros a; by apply opened_print].
  apply triple_modify. intros s [j (H1&H2&H3&H4&H5&H6&H7&H8)]. exists j.
  unfold at_, levels in *; simpl. unfold newline_str. rewrite H6, H7, H8. split_and!; done.
Qed.

Lemma does_edit_state r i t out lv e :
  triple (opened_at t k nl out lv e) (_ ← keywordedit opt r; state i)
    (fun _ => at_ (edit_line (default "" nl) k t r) k nl
                (out ++ [edit_line (default "" nl) k t r]) (i :: lv) e) anyhow.
Proof using Hopt.
  eapply triple_bind; [apply edit_does|]. intros a. apply opened_state.
Qed.

Lemma does_Mpass t out lv e :
  triple (opened_at t k nl out lv e) (Mpass opt)
    (fun _ => at_ (overwrite k "if  " t) k nl
                (out ++ [overwrite k "if  " t]) (IS_PASS_MIDDLE :: lv) e) anyhow.
Proof using Hopt.
  eapply triple_bind; [|intros a; by apply does_Pelif].
  apply triple_modify. intros s [j (H1&H2&H3&H4&H5&H6&H7&H8)]. exists j.
  unfold at_, levels in *; simpl. rewrite H6, H7. split_and!; done.
Qed.
End Edits.

Definition after (f : fate) (e : Z) : Z := match f with Dropped => 1%Z | _ => e end.

Lemma run_post (P Q : ust -> Prop) (m : U unit) s s' :
  triple P m (fun _ => Q) anyhow -> P s -> m s = (Ok tt, s') -> Q s'.
Proof. intros Hm Hs E. specialize (Hm s Hs). by rewrite E in Hm. Qed.

Section Table.
  Context (opt : options) (Hopt : plain_output opt) (k : nat) (nl : option string).

Abbreviation refines lv t out e lt s' :=
  (exists m f t', effect (List.hd IS_OUTSIDE lv) lt = Some (m, f) /\
     at_ t' k nl (out ++ written (default "" nl) k t f)%list (apply_move m lv) (after f e) s').

  (** Which lemma describes a transition function. *)
Ltac dispatch :=
  rewrite ?app_nil_r;
  first
    [ by apply does_Fpass | by apply does_Ftrue | by apply does_Ffalse | by apply does_Fdrop
    | by apply does_Itrue | by apply does_Ifalse | by apply does_Idrop
    | by apply does_Oiffy | by apply does_Oif
    | by apply does_Pendif | by apply does_Dendif
    | by apply does_print | by apply does_drop
    | eapply does_pre; [|apply opened_of];
      first [ by apply does_Strue | by apply does_Sfalse | by apply does_Selse
            | by apply does_Pelif | by apply does_Pelse | by apply does_Dfalse
            | by apply does_Delif | by apply does_Delse | by apply does_Oelif
            | by apply does_Mpass | by apply does_edit_state ] ].

Lemma outside_refines t out e lt s s' :
  at_ t k nl out [] e s -> trans opt IS_OUTSIDE lt s = (Ok tt, s') -> refines [] t out e lt s'.
Proof using Hopt.
  intros Hs Hrun.
  destruct lt as [[]|[]| | |]; unfold trans in Hrun; simpl in Hrun.
  all: try (exfalso; by destruct (@error_run unit opt s) as [? E]; unfold Eelif, Eelse, Eendif in Hrun;
            rewrite E in Hrun).
  all: try (destruct (trans_eof opt IS_OUTSIDE s) as (? & ? & E); unfold trans in E; simpl in E;
            by rewrite E in Hrun).
  all: try done.
  all: eexists _, _, _; (split; [reflexivity|]).
  all: eapply run_post; [|exact Hs|exact Hrun]; dispatch.
Qed.

Lemma inside_refines i t out lv e lt s s' :
  i <> IS_OUTSIDE ->
  at_ t k nl out (i :: lv) e s -> trans opt i lt s = (Ok tt, s') ->
  refines (i :: lv) t out e lt s'.
Proof using Hopt.
  intros Hi Hs Hrun.
  destruct i; try done; destruct lt as [[]|[]| | |]; unfold trans in Hrun; simpl in Hrun.
  all: try (exfalso; by destruct (@error_run unit opt s) as [? E];
            unfold Eelif, Eelse, Eendif, Eeof, Eioccc in Hrun; rewrite E in Hrun).
  all: try done.
  all: eexists _, _, _; (split; [reflexivity|]).
  all: eapply run_post; [|exact Hs|exact Hrun]; dispatch.
Qed.
End Table.

(** ** Whole runs *)

Definition fate_of (r : rline) : fate :=
  match effect (rl_state r) (rl_type r) with Some (_, f) => f | None => Dropped end.

(** The program a run read and the one it wrote, lines numbered from [n]. *)
Fixpoint program_in (n : nat) (tr : list rline) : list pline :=
  match tr with
  | [] => []
  | r :: tr' => input_line n (rl_type r) :: program_in (S n) tr'
  end.

Fixpoint program_out (n : nat) (tr : list rline) : list pline :=
  match tr with
  | [] => []
  | r :: tr' => output_line n (rl_type r) (fate_of r) ++ program_out (S n) tr'
  end.

Definition text_out (tr : list rline) : list string :=
  flat_map (fun r => written (rl_newline r) (rl_keyword r) (rl_text r) (fate_of r)) tr.

Definition is_dropped (r : rline) : bool :=
  match fate_of r with Dropped => true | _ => false end.

Section Runs.
  Context (opt : options) (syms : list symbol) (undef : Z).

  (** The lines that the driver handles until it leaves. *)
Fixpoint trace (fuel : nat) (s : ust) : list rline :=
  match fuel with
  | O => []
  | S fuel' =>
      match parseline opt syms undef s with
      | (Ok lt, s1) =>
          match trans opt (ifstate_at s1) lt s1 with
          | (Ok _, s2) =>
              {| rl_state := ifstate_at s1; rl_type := lt; rl_text := tline s1;
                 rl_keyword := keyword s1; rl_newline := newline_str s1 |} :: trace fuel' s2
          | (Ex _, _) => []
          end
      | (Ex _, _) => []
      end
  end.

  (** The lines of the run on an input. *)
Definition lines_of (inp : string) : list rline :=
  trace (S (String.length inp)) (set_blankmax 1000 (set_blankcount 1000 (ust_init inp))).

Lemma closed_levels_hd inp s : closed inp s -> List.hd IS_OUTSIDE (levels s) = ifstate_at s.
Proof.
  intros [_ Hd]. unfold levels, ifstate_at. destruct (Hd 0) as (i & Hl & Hz); [lia|].
  destruct (depth s); simpl; [|done]. rewrite Hl. simpl. symmetry. by apply Hz.
Qed.

Lemma closed_levels_shape inp s :
  closed inp s ->
  levels s = [] \/ exists i lv, levels s = i :: lv /\ i <> IS_OUTSIDE.
Proof.
  intros Hc. pose proof (closed_levels_hd inp s Hc) as Hh. destruct Hc as [_ Hd].
  destruct (Hd (depth s)) as (i & Hl & Hz); [lia|].
  unfold levels, ifstate_at in *. rewrite Hl in Hh. destruct (depth s) as [|d]; [by left|].
  right. simpl levels_upto in *. simpl in Hh. eexists _, _. split; [reflexivity|].
  rewrite Hh. intros Hi. by apply Hz in Hi.
Qed.

Lemma trans_refines s lt s' :
  plain_output opt -> closed (input s) s ->
  trans opt (ifstate_at s) lt s = (Ok tt, s') ->
  exists m f, effect (ifstate_at s) lt = Some (m, f) /\
    output s' = output s ++ written (newline_str s) (keyword s) (tline s) f /\
    levels s' = apply_move m (levels s) /\ exitstat s' = after f (exitstat s).
Proof.
  intros Hopt Hc Hrun. pose proof (closed_levels_hd _ _ Hc) as Hh.
  assert (at_ (tline s) (keyword s) (newline s) (output s) (levels s) (exitstat s) s) as Hat
    by (destruct Hc as [(?&?&_) _]; unfold at_; by split_and!).
  assert (exists m f t', effect (List.hd IS_OUTSIDE (levels s)) lt = Some (m, f) /\
    at_ t' (keyword s) (newline s)
      (output s ++ written (newline_str s) (keyword s) (tline s) f)
      (apply_move m (levels s)) (after f (exitstat s)) s') as (m & f & t' & He & Ha).
  { rewrite <- Hh in Hrun.
    destruct (closed_levels_shape _ _ Hc) as [E|(i & lv & E & Hi)]; rewrite E in *.
    - by eapply outside_refines.
    - by eapply inside_refines. }
  rewrite Hh in He. exists m, f. destruct Ha as (_ & _ & ? & ? & ? & _). by split_and!.
Qed.

  (** Every transition function but [done] only leaves through an error. *)
Definition bad (e : halt) (_ : ust) : Prop := e = Exit 2 \/ e = Crash.
Definition only_errors (m : U unit) : Prop := triple (fun _ => True) m (fun _ _ => True) bad.

Lemma oe_seq (m n : U unit) : only_errors m -> only_errors n -> only_errors (_ ← m; n).
Proof. intros Hm Hn. eapply triple_bind; [exact Hm|]. intros a. exact Hn. Qed.
Lemma oe_gets {A} (f : ust -> A) (n : A -> U unit) :
  (forall a, only_errors (n a)) -> only_errors (x ← gets f; n x).
Proof. intros Hn s Hs. exact (Hn (f s) s I). Qed.
Lemma oe_modify f : only_errors (modify f).
Proof. by intros s Hs. Qed.
Lemma oe_ret : only_errors (mret tt).
Proof. by intros s Hs. Qed.
Lemma oe_when b m : only_errors m -> only_errors (mwhen b m).
Proof. by destruct b. Qed.
Lemma oe_error : only_errors (error opt).
Proof. intros s Hs. destruct (@error_run unit opt s) as [s' ->]. by left. Qed.
Lemma oe_crash : only_errors crash.
Proof. intros s Hs. by right. Qed.
Lemma oe_flush b : only_errors (flushline opt b).
Proof.
  intros s Hs. generalize (flushline_same opt b s). unfold flushline, emit. run_monad.
  repeat case_match; simplify_eq; done.
Qed.

Ltac oe :=
  repeat first
    [ apply oe_flush | apply oe_error | apply oe_crash | apply oe_modify | apply oe_ret
    | apply oe_when | apply oe_seq
    | apply oe_gets; intros ?
    | match goal with |- only_errors (match ?x with _ => _ end) => destruct x end ].

Lemma trans_only_errors i lt : lt <> EOF -> only_errors (trans opt i lt).
Proof.
  intros He. destruct i; destruct lt as [[]|[]| | |]; try done; unfold trans; simpl; oe.
Qed.

Lemma done_run s :
  exists e s', done_ opt s = (Ex e, s') /\ output s' = output s /\
    (e = Exit 2 \/ e = Exit (exitstat s)).
Proof.
  unfold done_, error, closeout, say. run_monad.
  destruct (bool_decide _), (_ && _); simpl; eexists _, _; split_and!; auto.
Qed.

Lemma trans_leaves s lt e s' :
  closed (input s) s -> lt <> ERROR -> trans opt (ifstate_at s) lt s = (Ex e, s') ->
  e = Exit 2 \/ (e = Exit (exitstat s) /\ output s' = output s).
Proof.
  intros Hc He Hrun. pose proof (trans_ok opt _ s lt Hc He) as Hok. rewrite Hrun in Hok.
  destruct (decide (lt = EOF)) as [->|Hne].
  - destruct (decide (ifstate_at s = IS_OUTSIDE)) as [Ho|Ho].
    + rewrite Ho in Hrun. unfold trans in Hrun; simpl in Hrun.
      destruct (done_run s) as (e' & s1 & E & Hout & Hor). rewrite E in Hrun. simplify_eq.
      destruct Hor; auto.
    + left. destruct (@error_run unit opt s) as [s1 E].
      destruct (ifstate_at s); try done; unfold trans in Hrun; simpl in Hrun;
        unfold Eeof in Hrun; rewrite E in Hrun; by simplify_eq.
  - left. generalize (trans_only_errors (ifstate_at s) lt Hne s I). rewrite Hrun.
    destruct Hok as (c & -> & _). by intros [?|?].
Qed.

  (** What a run from any point on does to the lines it still has to read. *)
Lemma loop_preserves fuel n s c s' :
  plain_output opt -> closed (input s) s -> c <> 2%Z ->
  process_loop opt (parseline opt syms undef) fuel s = (Ex (Exit c), s') ->
  output s' = output s ++ text_out (trace fuel s) /\
  c = (if existsb is_dropped (trace fuel s) then 1%Z else exitstat s) /\
  forall rho fi fo, related (levels s) fi fo ->
    cpp rho (program_in n (trace fuel s)) fi = cpp rho (program_out n (trace fuel s)) fo.
Proof.
  intros Hopt. revert n s. induction fuel as [|fuel IH]; intros n s Hc Hne Hrun; [done|].
  simpl in Hrun |- *. unfold process_step in Hrun. cbv [mbind M_bind get] in Hrun.
  generalize (parseline_spec opt syms undef s).
  destruct (parseline opt syms undef s) as [[lt|e] s1]; [|intros ->; congruence].
  intros (Hb & Herr & Hlt).
  assert (closed (input s1) s1) as Hc1 by (eapply closed_below; eauto).
  destruct Hb as (B1 & B2 & B3 & B4 & B5 & B6).
  destruct (trans opt (ifstate_at s1) lt s1) as [[[]|e] s2] eqn:Et.
  - destruct (trans_refines _ _ _ Hopt Hc1 Et) as (m & f & Hf & Hout & Hlv & Hst).
    assert (closed (input s2) s2) as Hc2.
    { pose proof (trans_ok opt _ s1 lt Hc1 Herr) as H. rewrite Et in H.
      assert (input s2 = input s1) as -> by (by destruct H as [(_&_&_&_&?) _]). done. }
    destruct (IH (S n) s2 Hc2 Hne Hrun) as (I1 & I2 & I3).
    set (r := {| rl_state := ifstate_at s1; rl_type := lt; rl_text := tline s1;
                 rl_keyword := keyword s1; rl_newline := newline_str s1 |}).
    assert (fate_of r = f) as Hfate by (unfold fate_of; simpl; by rewrite Hf).
    split_and!.
    + rewrite I1, Hout, B5. simpl. rewrite Hfate. by rewrite <- app_assoc.
    + rewrite I2, Hst, B4. simpl. unfold is_dropped at 2. rewrite Hfate.
      destruct f; simpl; try done. by destruct (existsb _ _).
    + intros rho fi fo Hr.
      assert (levels s1 = levels s) as El by (unfold levels; by rewrite B1, B2).
      rewrite <- El in Hr. pose proof (closed_levels_hd _ _ Hc1) as Hh.
      rewrite <- Hh in Hf. rewrite Hlv in I3.
      cbn [program_in program_out]. rewrite Hfate. simpl rl_type.
      rewrite (cpp_app rho (output_line n lt f)).
      change (input_line n lt :: program_in (S n) (trace fuel s2))
        with ([input_line n lt] ++ program_in (S n) (trace fuel s2)).
      rewrite cpp_app. f_equal; [by eapply effect_same_text|].
      apply I3. by eapply effect_related.
  - simplify_eq. destruct (trans_leaves _ _ _ _ Hc1 Herr Et) as [|[He Ho]]; [congruence|].
    simplify_eq. simpl. rewrite app_nil_r. split_and!; [congruence|congruence|done].
Qed.

(** C2. With no output-format option (-B, -b, -c, -n, -s), a run that does not
    end in an error writes exactly the lines its transition table keeps or
    edits, and the program it writes means what the program it read means:
    whatever the unknown conditions evaluate to, preprocessing the output
    gives the same surviving plain lines, in the same order, as preprocessing
    the input, where the conditions unifdef resolved have the values it
    resolved them to. *)
Theorem unifdef_preserves_meaning inp c s' :
  plain_output opt ->
  unifdef opt syms undef inp = (Ex (Exit c), s') -> c <> 2%Z ->
  output s' = text_out (lines_of inp) /\
  forall rho, cpp rho (program_in 0 (lines_of inp)) [] = cpp rho (program_out 0 (lines_of inp)) [].
Proof.
  intros Hopt Hrun Hne.
  destruct (loop_preserves (S (String.length inp)) 0
              (set_blankmax 1000 (set_blankcount 1000 (ust_init inp))) c s' Hopt
              (closed_init inp) Hne Hrun) as (H1 & _ & H3).
  split; [exact H1|]. intros rho. apply H3. apply rel_nil.
Qed.

Lemma text_out_length tr :
  (length (text_out tr) + length (List.filter is_dropped tr) = length tr)%nat.
Proof.
  induction tr as [|r tr IH]; [done|]. unfold text_out in *. cbn [flat_map List.filter length].
  rewrite length_app. unfold is_dropped at 1. destruct (fate_of r) as [| |[]]; simpl; lia.
Qed.

Lemma text_out_kept tr : existsb is_dropped tr = false <-> length (text_out tr) = length tr.
Proof.
  pose proof (text_out_length tr) as H. split; intros E.
  - assert (List.filter is_dropped tr = []) as F; [|rewrite F in H; simpl in H; lia].
    clear H. induction tr as [|r tr IH]; [done|]. simpl in *. apply orb_false_iff in E as [-> E]. by apply IH.
  - assert (List.filter is_dropped tr = []) as F by (apply nil_length_inv; lia).
    clear H E. induction tr as [|r tr IH]; [done|]. simpl in *. destruct (is_dropped r); [done|by apply IH].
Qed.

(** The exit status tells whether the transition table dropped a line. *)
Lemma exit_status_dropped inp c s' :
  plain_output opt ->
  unifdef opt syms undef inp = (Ex (Exit c), s') -> c <> 2%Z ->
  c = (if existsb is_dropped (lines_of inp) then 1%Z else 0%Z) /\
  (c = 0%Z <-> length (output s') = length (lines_of inp)).
Proof.
  intros Hopt Hrun Hne.
  destruct (loop_preserves (S (String.length inp)) 0
    (set_blankmax 1000 (set_blankcount 1000 (ust_init inp))) c s' Hopt
    (closed_init inp) Hne Hrun) as (Ho & Hc & _).
  change (exitstat _) with 0%Z in Hc. change (output _ ++ ?l)%list with l in Ho. fold (lines_of inp) in Ho, Hc.
  split; [exact Hc|]. rewrite Ho, <- text_out_kept. subst c. by destruct (existsb _ _).
Qed.
End Runs.
