(* ===== verification/UnifdefExamples.v ===== *)
(** * unifdef: concrete runs

    Witnesses for the theorems on runs, and a run whose exit status does not
    tell that the output differs from the input. *)

From Stdlib Require Import ZArith Lia List Bool String Ascii.
From stdpp Require Import base tactics list numbers strings pretty.
From S2P Require Import Prelude CLib Unifdef UnifdefParse UnifdefMain UnifdefFacts UnifdefSafety UnifdefSpec UnifdefRefine.

Local Open Scope string_scope.

Definition text_of (ls : list string) : string :=
  String.concat "" (map (fun l => l +:+ str1 LF) ls).

(** [-DFOO -UBAR] *)
Definition foo_bar : list symbol := [
  {| symname := "FOO"; value := Some "1"; ignore := false |};
  {| symname := "BAR"; value := None; ignore := false |}].

Definition sample : string := text_of
  ["#ifdef BAR"; "a"; "#elif X"; "b"; "#elif FOO"; "c"; "#else"; "d"; "#endif"; "e"].

Example sample_output :
  String.concat "" (output (snd (unifdef no_options foo_bar 0 sample))) =
  text_of ["#if   X"; "b"; "#else"; "c"; "#endif"; "e"].
Proof. vm_compute. reflexivity. Qed.

Lemma plain_no_options : plain_output no_options.
Proof. by split_and!. Qed.

Lemma unifdef_preserves_meaning_witness :
  unifdef no_options foo_bar 0 sample =
    (Ex (Exit 1), snd (unifdef no_options foo_bar 0 sample)) /\
  output (snd (unifdef no_options foo_bar 0 sample)) =
    text_out (lines_of no_options foo_bar 0 sample).
Proof.
  assert (unifdef no_options foo_bar 0 sample =
    (Ex (Exit 1), snd (unifdef no_options foo_bar 0 sample))) as H
    by (vm_compute; reflexivity).
  split; [exact H|].
  exact (proj1 (unifdef_preserves_meaning no_options foo_bar 0 sample 1
    (snd (unifdef no_options foo_bar 0 sample)) plain_no_options H ltac:(discriminate))).
Defined.

Definition edited_input : string := text_of
  ["#if X"; "a"; "#elif FOO"; "b"; "#endif"].

(** C32. The exit status does not tell, as the manual says it does, whether the output is an
    exact copy of the input: without output-format options a run that does not end with 2
    ends with 1 if the transition table dropped some line, and with 0 if it dropped none, that
    is, if it wrote as many lines as it read.  When a known-true [#elif] follows an unknown
    [#if] the line is rewritten to [#else], none is dropped, and the run ends with
    0 although the output differs from the input. *)
Theorem unifdef_exit_status :
  (forall opt syms undef inp c s',
     plain_output opt -> unifdef opt syms undef inp = (Ex (Exit c), s') -> c <> 2%Z ->
     c = (if existsb is_dropped (lines_of opt syms undef inp) then 1%Z else 0%Z) /\
     (c = 0%Z <-> length (output s') = length (lines_of opt syms undef inp))) /\
  exists s', unifdef no_options foo_bar 0 edited_input = (Ex (Exit 0), s') /\
    String.concat "" (output s') = text_of ["#if X"; "a"; "#else"; "b"; "#endif"] /\
    String.concat "" (output s') <> edited_input.
Proof.
  split; [apply exit_status_dropped|].
  exists (snd (unifdef no_options foo_bar 0 edited_input)).
  split; [vm_compute; reflexivity|]. split; [vm_compute; reflexivity|].
  vm_compute. discriminate.
Qed.

Lemma unifdef_exit_status_witness :
  1%Z = (if existsb is_dropped (lines_of no_options foo_bar 0 sample) then 1%Z else 0%Z).
Proof.
  apply (proj1 unifdef_exit_status no_options foo_bar 0%Z sample 1%Z
    (snd (unifdef no_options foo_bar 0 sample)) plain_no_options).
  - vm_compute. reflexivity.
  - discriminate.
Defined.
