(* ===== verification/CksumFacts.v ===== *)
(** * The checksums compute what their standards say

    Arithmetic of binary polynomials, the remainder theorem for the table-driven
    [crc], the mirror-image theorem for [crc32], and the two sums. *)

From Stdlib Require Import ZArith Lia List Bool.
From stdpp Require Import base tactics list numbers.
From S2P Require Import Prelude Cksum.

Local Open Scope Z_scope.

(** ** Polynomials over GF(2)

    A non-negative integer stands for the polynomial whose coefficients are its
    bits; addition is [Z.lxor] and [clmul] is the product. *)

Fixpoint clmul_pos (g : Z) (q : positive) : Z :=
  match q with
  | xH => g
  | xO q => 2 * clmul_pos g q
  | xI q => Z.lxor g (2 * clmul_pos g q)
  end.

Definition clmul (g q : Z) : Z := match q with Zpos q => clmul_pos g q | _ => 0 end.

(** [r] is the remainder of [a] by [g] (of degree [d]). *)

Definition gf2_rem (g d a r : Z) : Prop :=
  0 <= r < 2 ^ d /\ exists q, 0 <= q /\ Z.lxor a r = clmul g q.

Lemma double_shiftl a : 2 * a = Z.shiftl a 1.
Proof. rewrite Z.shiftl_mul_pow2 by lia. lia. Qed.

Lemma lxor_double a b : Z.lxor (2 * a) (2 * b) = 2 * Z.lxor a b.
Proof. rewrite !double_shiftl. by rewrite Z.shiftl_lxor. Qed.

Lemma lxor_odd_l a b : Z.lxor (2 * a + 1) (2 * b) = 2 * Z.lxor a b + 1.
Proof.
  apply Z.bits_inj'. intros n Hn. rewrite Z.lxor_spec.
  destruct (decide (n = 0)) as [->|]; [by rewrite !Z.testbit_odd_0, Z.testbit_even_0|].
  replace n with (Z.succ (n - 1)) by lia.
  by rewrite !Z.testbit_odd_succ, Z.testbit_even_succ, Z.lxor_spec by lia.
Qed.

Lemma lxor_odd_r a b : Z.lxor (2 * a) (2 * b + 1) = 2 * Z.lxor a b + 1.
Proof. by rewrite Z.lxor_comm, lxor_odd_l, Z.lxor_comm. Qed.

Lemma lxor_odd_odd a b : Z.lxor (2 * a + 1) (2 * b + 1) = 2 * Z.lxor a b.
Proof.
  apply Z.bits_inj'. intros n Hn. rewrite Z.lxor_spec.
  destruct (decide (n = 0)) as [->|]; [by rewrite !Z.testbit_odd_0, Z.testbit_even_0|].
  replace n with (Z.succ (n - 1)) by lia.
  by rewrite !Z.testbit_odd_succ, Z.testbit_even_succ, Z.lxor_spec by lia.
Qed.

Lemma clmul_double g q : clmul g (2 * q) = 2 * clmul g q.
Proof. by destruct q. Qed.

Lemma clmul_odd g q : 0 <= q -> clmul g (2 * q + 1) = Z.lxor g (2 * clmul g q).
Proof. destruct q; simpl; intros; [by rewrite Z.lxor_0_r | done | lia]. Qed.

Lemma clmul_lxor g p q :
  0 <= p -> 0 <= q -> clmul g (Z.lxor p q) = Z.lxor (clmul g p) (clmul g q).
Proof.
  intros Hp. revert q. pattern p. apply Zlt_0_ind; [|exact Hp]. clear p Hp.
  intros p IH Hp q Hq.
  destruct (decide (p = 0)) as [->|]; [simpl; by rewrite !Z.lxor_0_l|].
  pose proof (Z.div2_odd p) as Ep. pose proof (Z.div2_odd q) as Eq.
  assert (0 <= Z.div2 p) by (apply Z.div2_nonneg; lia).
  assert (0 <= Z.div2 q) by (apply Z.div2_nonneg; lia).
  assert (Z.div2 p < p) by (destruct (Z.odd p); simpl in *; lia).
  pose proof (IH (Z.div2 p) ltac:(lia) (Z.div2 q) ltac:(lia)) as E.
  pose proof (lxor_nonneg (Z.div2 p) (Z.div2 q)).
  rewrite Ep, Eq. destruct (Z.odd p), (Z.odd q); cbn [Z.b2z]; rewrite ?Z.add_0_r.
  - rewrite lxor_odd_odd, !clmul_odd, clmul_double, E, <- lxor_double by lia. xor_bits.
  - rewrite lxor_odd_l, !clmul_odd, clmul_double, E, <- lxor_double by lia. xor_bits.
  - rewrite lxor_odd_r, !clmul_odd, clmul_double, E, <- lxor_double by lia. xor_bits.
  - rewrite lxor_double, !clmul_double, E, lxor_double. done.
Qed.

Lemma clmul_shiftl g q n : 0 <= n -> clmul g (Z.shiftl q n) = Z.shiftl (clmul g q) n.
Proof.
  intros Hn. pattern n. apply natlike_ind; [by rewrite !Z.shiftl_0_r| |exact Hn].
  intros m Hm IH. unfold Z.succ. rewrite <- !Z.shiftl_shiftl by lia.
  rewrite <- !double_shiftl, clmul_double, IH. done.
Qed.

Lemma log2_lxor_lt a b :
  0 <= a -> 0 < b -> Z.log2 a < Z.log2 b ->
  0 < Z.lxor a b /\ Z.log2 (Z.lxor a b) = Z.log2 b.
Proof.
  intros Ha Hb L. pose proof (lxor_nonneg a b Ha ltac:(lia)).
  assert (Z.testbit (Z.lxor a b) (Z.log2 b) = true) as T.
  { by rewrite Z.lxor_spec, (Z.bits_above_log2 a), Z.bit_log2 by lia. }
  assert (Z.lxor a b <> 0) by (intros E; by rewrite E, Z.bits_0 in T).
  pose proof (Z.log2_lxor a b Ha ltac:(lia)).
  destruct (Z.le_gt_cases (Z.log2 b) (Z.log2 (Z.lxor a b))); [lia|].
  by rewrite Z.bits_above_log2 in T by lia.
Qed.

Lemma clmul_log2 g p :
  0 < g -> 0 < clmul_pos g p /\ Z.log2 (clmul_pos g p) = Z.log2 g + Z.log2 (Zpos p).
Proof.
  intros Hg. induction p as [p [P IH]|p [P IH]|]; cbn [clmul_pos].
  - assert (Z.log2 (2 * clmul_pos g p) = Z.succ (Z.log2 (clmul_pos g p))) as E
      by (apply Z.log2_double; lia).
    destruct (log2_lxor_lt g (2 * clmul_pos g p)) as [A B]; [lia|lia| |].
    { pose proof (Z.log2_nonneg (Zpos p)). lia. }
    split; [done|]. rewrite B, E, IH.
    rewrite (Pos2Z.inj_xI p), Z.log2_succ_double by lia. lia.
  - split; [lia|]. rewrite Z.log2_double, IH by lia.
    rewrite (Pos2Z.inj_xO p), Z.log2_double by lia. lia.
  - split; [done|]. simpl. lia.
Qed.

Lemma clmul_size g q d :
  0 <= d -> 2 ^ d <= g < 2 ^ (d + 1) -> 0 < q -> 2 ^ d <= clmul g q.
Proof.
  intros Hd Hg Hq. assert (0 < 2 ^ d) by (apply Z.pow_pos_nonneg; lia).
  destruct q as [|p|p]; try lia. simpl.
  destruct (clmul_log2 g p ltac:(lia)) as [P L].
  assert (Z.log2 g = d) by (apply Z.log2_unique; unfold Z.succ; lia).
  pose proof (Z.log2_nonneg (Zpos p)).
  apply Z.le_trans with (2 ^ Z.log2 (clmul_pos g p)); [apply Z.pow_le_mono_r; lia|].
  apply Z.log2_spec; lia.
Qed.

(** A remainder is unique. *)

Lemma gf2_rem_unique g d a r r' :
  0 <= d -> 2 ^ d <= g < 2 ^ (d + 1) -> gf2_rem g d a r -> gf2_rem g d a r' -> r = r'.
Proof.
  intros Hd Hg (Hr & q & Hq & E) (Hr' & q' & Hq' & E').
  assert (Z.lxor r r' = clmul g (Z.lxor q q')) as X.
  { rewrite clmul_lxor, <- E, <- E' by lia. xor_bits. }
  pose proof (lxor_nonneg q q' Hq Hq').
  destruct (decide (Z.lxor q q' = 0)) as [Z0|].
  - rewrite Z0 in X. simpl in X. by apply Z.lxor_eq.
  - pose proof (clmul_size g (Z.lxor q q') d Hd Hg ltac:(lia)).
    pose proof (lxor_bound r r' d Hd Hr Hr'). lia.
Qed.

(** ** The POSIX CRC *)

(** x^32 + x^26 + x^23 + x^22 + x^16 + x^12 + x^11 + x^10 + x^8 + x^7 + x^5 +
    x^4 + x^2 + x + 1 *)
Definition crc_poly : Z := 0x104c11db7.

(** The polynomial of a message: its bits, most significant first. *)
Definition message (bs : list Z) : Z := foldl (fun m b => Z.lor (Z.shiftl m 8) b) 0 bs.

(** The length as the octets POSIX appends: least significant first, none that
    are zero at the end. *)
Fixpoint length_octets (fuel : nat) (len : Z) : list Z :=
  match fuel with
  | O => []
  | S fuel => if len =? 0 then [] else Z.land len 255 :: length_octets fuel (Z.shiftr len 8)
  end.

Definition is_byte (b : Z) : Prop := 0 <= b < 256.

(** The quotient of [i * x^32] by the polynomial, by long division. *)
Fixpoint quot_bits (fuel : nat) (a q : Z) : Z :=
  match fuel with
  | O => q
  | S fuel =>
      if Z.testbit a (32 + Z.of_nat fuel)
      then quot_bits fuel (Z.lxor a (Z.shiftl crc_poly (Z.of_nat fuel))) (2 * q + 1)
      else quot_bits fuel a (2 * q)
  end.

Definition tab_ok (i : nat) : bool :=
  let r := nth i crctab 0 in
  let q := quot_bits 8 (Z.shiftl (Z.of_nat i) 32) 0 in
  (0 <=? r) && (r <? 2 ^ 32) && (0 <=? q)
  && (Z.lxor (Z.shiftl (Z.of_nat i) 32) r =? clmul crc_poly q).

Lemma crctab_checked : forallb tab_ok (seq 0 256) = true.
Proof. by vm_compute. Qed.

Lemma crctab_spec i :
  0 <= i < 256 -> gf2_rem crc_poly 32 (Z.shiftl i 32) (nth (Z.to_nat i) crctab 0).
Proof.
  intros Hi. pose proof (proj1 (forallb_forall _ _) crctab_checked (Z.to_nat i)
    ltac:(apply in_seq; lia)) as H.
  unfold tab_ok in H.
  rewrite !andb_true_iff, !Z.leb_le, Z.ltb_lt, Z.eqb_eq, Z2Nat.id in H by lia.
  destruct H as (((? & ?) & ?) & ?). split; [lia|]. eauto.
Qed.

(** One table step is one octet of the long division. *)

Lemma COMPUTE_rem a r b :
  is_byte b -> gf2_rem crc_poly 32 a r ->
  gf2_rem crc_poly 32 (Z.lxor (Z.shiftl a 8) (Z.shiftl b 32)) (COMPUTE r b).
Proof.
  intros Hb (Hr & q & Hq & E). unfold is_byte in Hb.
  assert (0 <= Z.shiftr r 24 < 2 ^ 8) as Hs.
  { rewrite Z.shiftr_div_pow2 by lia. split; [apply Z.div_pos; lia|].
    apply Z.div_lt_upper_bound; lia. }
  assert (0 <= Z.lxor (Z.shiftr r 24) b < 2 ^ 8) as Hi by (apply lxor_bound; lia).
  destruct (crctab_spec (Z.lxor (Z.shiftr r 24) b) Hi) as (Ht & qt & Hqt & Et).
  unfold COMPUTE. set (t := nth _ _ _) in *.
  split; [apply lxor_bound; [lia| |lia]; apply uwrap_range; lia|].
  exists (Z.lxor (Z.shiftl q 8) qt). split.
  { apply lxor_nonneg; [|done]. apply Z.shiftl_nonneg. lia. }
  rewrite clmul_lxor, clmul_shiftl, <- E, <- Et by (rewrite ?Z.shiftl_nonneg; lia).
  rewrite !Z.shiftl_lxor.
  assert (Z.shiftl r 8 = Z.lxor (Z.shiftl (Z.shiftr r 24) 32) (u32 (Z.shiftl r 8))) as Er.
  { rewrite lxor_disjoint by (try apply uwrap_range; lia).
    unfold uwrap. rewrite !Z.shiftl_mul_pow2, Z.shiftr_div_pow2 by lia.
    change (2 ^ 32) with (2 ^ 24 * 2 ^ 8). rewrite Z.mul_mod_distr_r by lia.
    pose proof (Z.div_mod r (2 ^ 24)). lia. }
  set (v := u32 _) in *.
  rewrite Er. xor_bits.
Qed.

Definition message_step (a b : Z) : Z := Z.lxor (Z.shiftl a 8) (Z.shiftl b 32).

Lemma COMPUTE_rems bs a r :
  Forall is_byte bs -> gf2_rem crc_poly 32 a r ->
  gf2_rem crc_poly 32 (foldl message_step a bs) (foldl COMPUTE r bs).
Proof.
  intros H. revert a r. induction H as [|b bs Hb _ IH]; intros a r Hr; simpl; [done|].
  apply IH. by apply COMPUTE_rem.
Qed.

Lemma message_snoc bs b : message (bs ++ [b]) = Z.lor (Z.shiftl (message bs) 8) b.
Proof. unfold message. by rewrite foldl_app. Qed.

Lemma message_steps bs a :
  Forall is_byte bs ->
  foldl message_step a bs =
  Z.lxor (Z.shiftl a (8 * Z.of_nat (length bs))) (Z.shiftl (message bs) 32).
Proof.
  intros H. induction bs as [|b bs IH] using rev_ind.
  - simpl. by rewrite Z.shiftl_0_r, Z.lxor_0_r.
  - apply Forall_app in H as [H Hb]. inv Hb. unfold is_byte in *.
    rewrite foldl_app, length_app, message_snoc, lor_shiftl_lxor, IH by (done || lia).
    simpl. unfold message_step. rewrite !Z.shiftl_lxor, !Z.shiftl_shiftl by lia.
    rewrite Z.lxor_assoc. do 2 f_equal. lia.
Qed.

Lemma COMPUTE_message bs :
  Forall is_byte bs -> gf2_rem crc_poly 32 (Z.shiftl (message bs) 32) (foldl COMPUTE 0 bs).
Proof.
  intros H. pose proof (COMPUTE_rems bs 0 0 H) as R. rewrite message_steps in R by done.
  rewrite Z.shiftl_0_l, Z.lxor_0_l in R. apply R. split; [lia|]. by exists 0.
Qed.

(** ** The read loop *)

(** The octets a descriptor delivers, [None] when a [read] fails. *)
Fixpoint contents (fd : fd_t) : option (list Z) :=
  match fd with
  | [] => Some []
  | None :: _ => None
  | Some [] :: _ => Some []
  | Some buf :: fd => bs ← contents fd; Some (buf ++ bs)
  end.

Lemma read_loop_ok {A} (step : A -> Z -> A) fd a len bs :
  contents fd = Some bs ->
  read_loop step a len fd = (foldl step a bs, len + Z.of_nat (length bs), false).
Proof.
  revert a len bs. induction fd as [|[[|b buf]|] fd IH]; intros a len bs H; simplify_eq/=;
    rewrite ?Z.add_0_r; try done.
  destruct (contents fd) as [bs'|]; simplify_eq/=. erewrite IH by done.
  rewrite foldl_app, length_app. do 2 f_equal. lia.
Qed.

Lemma read_loop_error {A} (step : A -> Z -> A) fd a len :
  contents fd = None -> (read_loop step a len fd).2 = true.
Proof.
  revert a len. induction fd as [|[[|b buf]|] fd IH]; intros a len H; simplify_eq/=; try done.
  destruct (contents fd); simplify_eq/=. by apply IH.
Qed.

Lemma foldl_pair {A B} (f : A -> B -> A) l a b :
  foldl (fun (st : A * A) ch => (f st.1 ch, f st.2 ch)) (a, b) l = (foldl f a l, foldl f b l).
Proof. revert a b. induction l; simpl; auto. Qed.

Lemma crc_length_octets n len a b :
  crc_length n len a b =
  (foldl COMPUTE a (length_octets n len), foldl COMPUTE b (length_octets n len)).
Proof.
  revert len a b. induction n as [|n IH]; intros; simpl; [done|].
  destruct (len =? 0); [done|]. by rewrite IH.
Qed.

Lemma length_octets_bytes n len : Forall is_byte (length_octets n len).
Proof.
  revert len. induction n as [|n IH]; intros; simpl; [constructor|].
  destruct (len =? 0); constructor; [|apply IH].
  unfold is_byte. change 255 with (Z.ones 8). rewrite Z.land_ones by lia.
  apply Z.mod_pos_bound. lia.
Qed.

(** The eight rounds are enough: the octets spell the length. *)
Lemma length_octets_value n len :
  0 <= len < 2 ^ (8 * Z.of_nat n) ->
  foldr (fun b acc => b + 256 * acc) 0 (length_octets n len) = len.
Proof.
  revert len. induction n as [|n IH]; intros len Hl.
  - simpl in *. lia.
  - cbn [length_octets]. destruct (Z.eqb_spec len 0) as [->|]; [done|]. cbn [foldr].
    rewrite IH.
    + change 255 with (Z.ones 8). rewrite Z.land_ones, Z.shiftr_div_pow2 by lia.
      pose proof (Z.div_mod len (2 ^ 8)). lia.
    + rewrite Z.shiftr_div_pow2 by lia. split; [apply Z.div_pos; lia|].
      apply Z.div_lt_upper_bound; [lia|]. rewrite <- Z.pow_add_r by lia.
      replace (8 + 8 * Z.of_nat n) with (8 * Z.of_nat (S n)) by lia. lia.
Qed.

Lemma not32_involutive x : 0 <= x < 2 ^ 32 -> not32 (not32 x) = x.
Proof.
  intros. unfold not32, uwrap, Z.lnot, Z.pred.
  replace (- x + -1) with (2 ^ 32 - 1 - x + -1 * 2 ^ 32) by lia.
  rewrite Z.mod_add, (Z.mod_small (2 ^ 32 - 1 - x)) by lia.
  replace (- (2 ^ 32 - 1 - x) + -1) with (x + -1 * 2 ^ 32) by lia.
  rewrite Z.mod_add, Z.mod_small by lia. done.
Qed.

Definition posix_message (bs : list Z) : list Z :=
  bs ++ length_octets 8 (Z.of_nat (length bs)).

(** C20. [crc] returns 1 exactly when a read fails; otherwise the length is the
    number of octets read, whatever the sizes of the reads, and the complement of the
    checksum is the remainder of the polynomial of the octets and of the length
    octets, times x^32, by the POSIX generator polynomial. *)
Theorem crc_is_posix fd tot :
  0 <= tot < 2 ^ 32 ->
  match contents fd with
  | None => (crc fd tot).1 = None
  | Some bs =>
      Forall is_byte bs ->
      exists cval, (crc fd tot).1 = Some (cval, Z.of_nat (length bs)) /\ 0 <= cval < 2 ^ 32 /\
        gf2_rem crc_poly 32 (Z.shiftl (message (posix_message bs)) 32) (not32 cval)
  end.
Proof.
  intros Ht. unfold crc. destruct (contents fd) as [bs|] eqn:E.
  - intros Hb. rewrite (read_loop_ok _ _ _ _ _ E). unfold crc_step. rewrite foldl_pair.
    rewrite crc_length_octets, !Z.add_0_l. eexists. split; [done|].
    split; [apply uwrap_range; lia|].
    assert (gf2_rem crc_poly 32 (Z.shiftl (message (posix_message bs)) 32)
              (foldl COMPUTE 0 (posix_message bs))) as R.
    { apply COMPUTE_message, Forall_app. split; [done|]. apply length_octets_bytes. }
    rewrite <- foldl_app. fold (posix_message bs). rewrite not32_involutive; [done|]. apply R.
  - pose proof (read_loop_error crc_step fd (0, not32 tot) 0 E) as X.
    destruct (read_loop _ _ _ _) as [[[? ?] ?] ?]. simpl in X. by subst.
Qed.

(** ** [crc32]: the same division, mirrored *)

(** The [n] low bits of [x] in the opposite order. *)
Fixpoint mirror (n : nat) (x : Z) : Z :=
  match n with
  | O => 0
  | S n => Z.lor (Z.shiftl (Z.b2z (Z.testbit x 0)) (Z.of_nat n)) (mirror n (Z.shiftr x 1))
  end.

Lemma mirror_spec n x i :
  0 <= i ->
  Z.testbit (mirror n x) i = (i <? Z.of_nat n) && Z.testbit x (Z.of_nat n - 1 - i).
Proof.
  intros Hi. revert x. induction n as [|n IH]; intros x; cbn [mirror].
  - rewrite Z.bits_0. by destruct (Z.ltb_spec i (Z.of_nat 0)); [lia|].
  - rewrite Z.lor_spec, Z.shiftl_spec, IH by done.
    rewrite Nat2Z.inj_succ. replace (Z.succ (Z.of_nat n) - 1 - i) with (Z.of_nat n - i) by lia.
    destruct (Z.ltb_spec i (Z.of_nat n)), (Z.ltb_spec i (Z.succ (Z.of_nat n))); try lia;
      rewrite ?andb_true_l, ?andb_false_l.
    + rewrite Z.testbit_neg_r, orb_false_l, Z.shiftr_spec by lia. f_equal. lia.
    + replace (i - Z.of_nat n) with 0 by lia. replace (Z.of_nat n - i) with 0 by lia.
      rewrite orb_false_r. by destruct (Z.testbit x 0).
    + rewrite orb_false_r. apply Z.bits_above_log2; [by destruct (Z.testbit x 0)|].
      destruct (Z.testbit x 0); simpl; lia.
Qed.

#[local] Arguments mirror : simpl never.

Lemma mirror_lxor n x y : mirror n (Z.lxor x y) = Z.lxor (mirror n x) (mirror n y).
Proof.
  apply Z.bits_inj'. intros i Hi. rewrite Z.lxor_spec, !mirror_spec, Z.lxor_spec by done.
  by destruct (i <? _).
Qed.

Lemma mirror_range n x : 0 <= mirror n x < 2 ^ Z.of_nat n.
Proof.
  assert (mirror n x = mirror n x mod 2 ^ Z.of_nat n) as ->; [|apply Z.mod_pos_bound; lia].
  apply Z.bits_inj'. intros i Hi. destruct (decide (i < Z.of_nat n)).
  - by rewrite Z.mod_pow2_bits_low.
  - rewrite Z.mod_pow2_bits_high, mirror_spec by lia.
    by destruct (Z.ltb_spec i (Z.of_nat n)); [lia|].
Qed.

Lemma mirror_involutive n x : 0 <= x < 2 ^ Z.of_nat n -> mirror n (mirror n x) = x.
Proof.
  intros Hx. apply Z.bits_inj'. intros i Hi. rewrite mirror_spec by done.
  destruct (Z.ltb_spec i (Z.of_nat n)); simpl.
  - rewrite mirror_spec by lia.
    destruct (Z.ltb_spec (Z.of_nat n - 1 - i) (Z.of_nat n)); [|lia]. simpl. f_equal. lia.
  - rewrite <- (Z.mod_small x (2 ^ Z.of_nat n)) by lia. by rewrite Z.mod_pow2_bits_high by lia.
Qed.

Lemma mirror_shift_out r : mirror 32 (u32 (Z.shiftl r 8)) = Z.shiftr (mirror 32 r) 8.
Proof.
  apply Z.bits_inj'. intros i Hi. rewrite Z.shiftr_spec, !mirror_spec by lia. unfold uwrap.
  change (Z.of_nat 32) with 32.
  destruct (Z.ltb_spec i 32), (Z.ltb_spec (i + 8) 32); simpl; try lia; try done.
  - rewrite Z.mod_pow2_bits_low, Z.shiftl_spec by lia. f_equal. lia.
  - rewrite Z.mod_pow2_bits_low, Z.shiftl_spec by lia. apply Z.testbit_neg_r. lia.
Qed.

Lemma mirror_top_byte r : 0 <= r < 2 ^ 32 -> mirror 8 (Z.shiftr r 24) = Z.land (mirror 32 r) 255.
Proof.
  intros Hr. apply Z.bits_inj'. intros i Hi. change 255 with (Z.ones 8).
  rewrite Z.land_spec, !mirror_spec, Z.testbit_ones_nonneg by lia.
  change (Z.of_nat 32) with 32. change (Z.of_nat 8) with 8.
  destruct (Z.ltb_spec i 8), (Z.ltb_spec i 32); simpl; try lia;
    rewrite ?andb_false_r, ?andb_true_r; try done.
  rewrite Z.shiftr_spec by lia. f_equal. lia.
Qed.

Definition mirror_ok (i : nat) : bool :=
  nth (Z.to_nat (mirror 8 (Z.of_nat i))) crc32_tab 0 =? mirror 32 (nth i crctab 0).

Lemma crc32_tab_checked : forallb mirror_ok (seq 0 256) = true.
Proof. by vm_compute. Qed.

Lemma crc32_tab_spec i :
  0 <= i < 256 ->
  nth (Z.to_nat (mirror 8 i)) crc32_tab 0 = mirror 32 (nth (Z.to_nat i) crctab 0).
Proof.
  intros Hi. pose proof (proj1 (forallb_forall _ _) crc32_tab_checked (Z.to_nat i)
    ltac:(apply in_seq; lia)) as H.
  unfold mirror_ok in H. rewrite Z.eqb_eq, Z2Nat.id in H by lia. done.
Qed.

Lemma signed_low_byte b : is_byte b -> Z.land (u32 (swrap 8 b)) 255 = b.
Proof.
  intros Hb. change 255 with (Z.ones 8). rewrite Z.land_ones by lia. unfold uwrap, swrap.
  change (2 ^ 32) with (2 ^ 8 * 2 ^ 24). 
  unfold is_byte in Hb. rewrite Z.rem_mul_r by lia.
  rewrite (Z.mul_comm (2 ^ 8) (_ mod _)), Z.mod_add, Z.mod_mod by lia.
  rewrite Zminus_mod_idemp_l. rewrite Z.add_simpl_r. by apply Z.mod_small.
Qed.

Lemma CRC_mirror r b :
  0 <= r < 2 ^ 32 -> is_byte b -> CRC (mirror 32 r) b = mirror 32 (COMPUTE r (mirror 8 b)).
Proof.
  intros Hr Hb. unfold CRC, COMPUTE. rewrite mirror_lxor, mirror_shift_out. f_equal.
  assert (0 <= Z.shiftr r 24 < 2 ^ 8) as Hs.
  { rewrite Z.shiftr_div_pow2 by lia. split; [apply Z.div_pos; lia|].
    apply Z.div_lt_upper_bound; lia. }
  pose proof (mirror_range 8 b) as Hm. change (Z.of_nat 8) with 8 in Hm.
  rewrite <- crc32_tab_spec by (apply (lxor_bound _ _ 8); lia).
  rewrite mirror_lxor, mirror_involutive, mirror_top_byte by (unfold is_byte in Hb; simpl; lia).
  do 2 f_equal. rewrite <- (signed_low_byte b Hb) at 2.
  apply Z.bits_inj'. intros i Hi. rewrite ?Z.lxor_spec, ?Z.land_spec, ?Z.lxor_spec.
  by destruct (Z.testbit 255 i); rewrite ?andb_false_r, ?andb_true_r.
Qed.

Lemma COMPUTE_range r b : is_byte b -> 0 <= r < 2 ^ 32 -> 0 <= COMPUTE r b < 2 ^ 32.
Proof.
  intros Hb Hr. assert (gf2_rem crc_poly 32 r r) as R.
  { split; [done|]. exists 0. by rewrite Z.lxor_nilpotent. }
  apply (COMPUTE_rem _ _ _ Hb R).
Qed.

Lemma mirror8_byte b : is_byte (mirror 8 b).
Proof. apply (mirror_range 8). Qed.

Lemma CRC_fold bs r :
  Forall is_byte bs -> 0 <= r < 2 ^ 32 ->
  foldl CRC (mirror 32 r) bs = mirror 32 (foldl COMPUTE r (map (mirror 8) bs)).
Proof.
  intros H. revert r. induction H as [|b bs Hb _ IH]; intros r Hr; cbn [foldl map]; [done|].
  rewrite CRC_mirror by done. apply IH. apply COMPUTE_range; [apply mirror8_byte|done].
Qed.

Lemma mirror8_bytes bs : Forall is_byte (map (mirror 8) bs).
Proof. induction bs; constructor; auto using mirror8_byte. Qed.

(** [crc32] returns 1 exactly when a read fails; otherwise the length is the
    number of octets read and the checksum is CRC-32: taking every octet, and the
    result, with its bits in the opposite order, the complement of the checksum is the
    remainder, by the same polynomial, of the message times x^32 with its first 32
    bits complemented. *)
Theorem crc32_is_standard fd tot :
  match contents fd with
  | None => (crc32 fd tot).1 = None
  | Some bs =>
      Forall is_byte bs ->
      exists cval, (crc32 fd tot).1 = Some (cval, Z.of_nat (length bs)) /\ 0 <= cval < 2 ^ 32 /\
        gf2_rem crc_poly 32
          (Z.lxor (Z.shiftl (2 ^ 32 - 1) (8 * Z.of_nat (length bs)))
             (Z.shiftl (message (map (mirror 8) bs)) 32))
          (mirror 32 (not32 cval))
  end.
Proof.
  unfold crc32. destruct (contents fd) as [bs|] eqn:E.
  - intros Hb. rewrite (read_loop_ok _ _ _ _ _ E). unfold crc32_step. rewrite foldl_pair.
    eexists. split; [done|]. split; [apply uwrap_range; lia|].
    change (not32 0) with (mirror 32 (2 ^ 32 - 1)). rewrite CRC_fold by (done || lia).
    pose proof (mirror_range 32 (foldl COMPUTE (2 ^ 32 - 1) (map (mirror 8) bs))).
    assert (gf2_rem crc_poly 32 (2 ^ 32 - 1) (2 ^ 32 - 1)) as R0 by (split; [lia|by exists 0]).
    pose proof (COMPUTE_rems (map (mirror 8) bs) _ _ (mirror8_bytes bs) R0) as R.
    rewrite not32_involutive, mirror_involutive by (apply R || done).
    rewrite message_steps, length_map in R by apply mirror8_bytes. exact R.
  - pose proof (read_loop_error crc32_step fd (not32 0, not32 tot) 0 E) as X.
    destruct (read_loop _ _ _ _) as [[[? ?] ?] ?]. simpl in X. by subst.
Qed.

(** ** The running total *)

Lemma crc_total_step fd tot bs :
  contents fd = Some bs ->
  (crc fd tot).2 = not32 (foldl COMPUTE (not32 tot) (posix_message bs)).
Proof.
  intros E. unfold crc. rewrite (read_loop_ok _ _ _ _ _ E). unfold crc_step.
  rewrite foldl_pair, crc_length_octets, Z.add_0_l. cbn [snd]. unfold posix_message.
  by rewrite foldl_app.
Qed.

(** [crc_total] after a number of files read without error. *)
Definition crc_totals (fds : list fd_t) : Z :=
  foldl (fun tot fd => (crc fd tot).2) crc_total_init fds.

Lemma posix_message_bytes bs : Forall is_byte bs -> Forall is_byte (posix_message bs).
Proof. intros. apply Forall_app. split; [done|]. apply length_octets_bytes. Qed.

Lemma COMPUTE_fold_range bs r :
  Forall is_byte bs -> 0 <= r < 2 ^ 32 -> 0 <= foldl COMPUTE r bs < 2 ^ 32.
Proof.
  intros H. revert r. induction H; intros r Hr; cbn [foldl]; auto using COMPUTE_range.
Qed.

(** The total over a number of files is the POSIX checksum of the
    concatenation of the files, each followed by its length octets. *)
Theorem crc_total_is_concatenation fds bss :
  mapM contents fds = Some bss -> Forall (Forall is_byte) bss ->
  0 <= crc_totals fds < 2 ^ 32 /\
  gf2_rem crc_poly 32 (Z.shiftl (message (concat (map posix_message bss))) 32)
    (not32 (crc_totals fds)).
Proof.
  intros HM HB.
  assert (forall tot, 0 <= tot < 2 ^ 32 ->
    foldl (fun tot fd => (crc fd tot).2) (not32 tot) fds =
    not32 (foldl COMPUTE tot (concat (map posix_message bss)))) as G.
  { apply mapM_Some in HM. revert HB.
    induction HM as [|fd bs fds bss Hbs _ IH]; intros HB tot Ht; cbn [foldl map concat]; [done|]. inv HB.
    rewrite (crc_total_step _ _ _ Hbs), not32_involutive, foldl_app by done.
    apply IH; [done|]. apply COMPUTE_fold_range; [by apply posix_message_bytes|done]. }
  assert (Forall is_byte (concat (map posix_message bss))) as HC.
  { clear -HB. induction HB; cbn [map concat]; [constructor|].
    apply Forall_app. auto using posix_message_bytes. }
  unfold crc_totals, crc_total_init. rewrite G by lia.
  pose proof (COMPUTE_message _ HC) as R.
  split; [apply uwrap_range; lia|]. rewrite not32_involutive; [done|]. apply R.
Qed.

(** ** The sums *)

(** Rotation of a 16-bit word right by one bit. *)
Definition rotr16 (x : Z) : Z := x / 2 + 2 ^ 15 * (x mod 2).

Lemma csum1_step_spec x b :
  0 <= x < 2 ^ 16 -> is_byte b -> csum1_step x b = (rotr16 x + b) mod 2 ^ 16.
Proof.
  intros Hx Hb. unfold csum1_step, rotr16, is_byte in *. cbv zeta.
  change 1 with (Z.ones 1) at 1. change 0xffff with (Z.ones 16).
  rewrite !Z.land_ones by lia.
  assert (Z.shiftr (if negb (x mod 2 ^ 1 =? 0) then Z.lor x 0x10000 else x) 1
          = x / 2 + 2 ^ 15 * (x mod 2)) as ->.
  { change (2 ^ 1) with 2. pose proof (Z.mod_pos_bound x 2).
    destruct (Z.eqb_spec (x mod 2) 0) as [E|E]; simpl negb; cbv iota.
    - rewrite Z.shiftr_div_pow2, E by lia. change (2 ^ 1) with 2. lia.
    - rewrite Z.lor_comm. change 0x10000 with (Z.shiftl 1 16).
      rewrite lor_shiftl_lxor, lxor_disjoint by lia.
      rewrite Z.shiftr_div_pow2, Z.shiftl_mul_pow2 by lia.
      replace (1 * 2 ^ 16 + x) with (x + 2 ^ 15 * 2 ^ 1) by lia.
      rewrite Z.div_add by lia. change (2 ^ 1) with 2. lia. }
  unfold uwrap. rewrite (Z.mod_small _ (2 ^ 32)); [done|].
  pose proof (Z.mod_pos_bound x 2). pose proof (Z.div_mod x 2). lia.
Qed.

Definition sum_of (bs : list Z) : Z := foldr Z.add 0 bs.

Lemma csum2_sum bs a :
  foldl (fun l ch => u32 (l + ch)) (u32 a) bs = u32 (a + sum_of bs).
Proof.
  revert a. induction bs as [|b bs IH]; intros a; simpl; [by rewrite Z.add_0_r|].
  unfold uwrap in *. rewrite Zplus_mod_idemp_l, IH. f_equal. lia.
Qed.

Lemma csum2_fold_spec x : 0 <= x < 2 ^ 32 -> csum2_fold x = x mod 2 ^ 16 + x / 2 ^ 16.
Proof.
  intros Hx. unfold csum2_fold. change 0xffff with (Z.ones 16).
  rewrite Z.land_ones, Z.shiftr_div_pow2 by lia. apply uwrap_small.
  pose proof (Z.mod_pos_bound x (2 ^ 16)). pose proof (Z.div_mod x (2 ^ 16)). lia.
Qed.

(** [csum1] and [csum2] return 1 exactly when a read fails.  [csum1] is the
    rotate-right-and-add sum modulo 2^16 of the octets; [csum2] is the double fold of
    the octet sum s modulo 2^32, which is below 2^16, congruent to that sum modulo
    65535, and zero only for a zero sum. *)
Theorem csum_spec fd :
  match contents fd with
  | None => csum1 fd = None /\ csum2 fd = None
  | Some bs =>
      Forall is_byte bs ->
      csum1 fd = Some (foldl (fun x b => (rotr16 x + b) mod 2 ^ 16) 0 bs, Z.of_nat (length bs)) /\
      let s := sum_of bs mod 2 ^ 32 in
      let r := s mod 2 ^ 16 + s / 2 ^ 16 in
      let v := r mod 2 ^ 16 + r / 2 ^ 16 in
      csum2 fd = Some (v, Z.of_nat (length bs)) /\
      0 <= v < 2 ^ 16 /\ v mod 65535 = s mod 65535 /\ (v = 0 <-> s = 0)
  end.
Proof.
  unfold csum1, csum2. destruct (contents fd) as [bs|] eqn:E.
  - intros Hb. rewrite !(read_loop_ok _ _ _ _ _ E), Z.add_0_l. split.
    + do 2 f_equal. assert (0 <= 0 < 2 ^ 16) as H0 by lia. revert H0. generalize 0 at 2 3 4 5.
      clear E. induction Hb as [|b bs Hb _ IH]; intros x Hx; simpl; [done|].
      rewrite csum1_step_spec by done. apply IH. apply Z.mod_pos_bound. lia.
    + cbv zeta. change 0 with (u32 0) at 1. rewrite csum2_sum, Z.add_0_l.
      set (s := sum_of bs mod 2 ^ 32).
      assert (0 <= s < 2 ^ 32) as Hs by (apply Z.mod_pos_bound; lia).
      fold (uwrap 32 (sum_of bs)) in s. unfold s at 1. fold s.
      rewrite (csum2_fold_spec s) by done. set (r := s mod 2 ^ 16 + s / 2 ^ 16).
      pose proof (Z.mod_pos_bound s (2 ^ 16)). pose proof (Z.div_mod s (2 ^ 16)).
      assert (0 <= s / 2 ^ 16 < 2 ^ 16)
        by (split; [apply Z.div_pos; lia|apply Z.div_lt_upper_bound; lia]).
      assert (0 <= r < 2 ^ 32) as Hr by (unfold r; lia).
      rewrite (csum2_fold_spec r) by done.
      pose proof (Z.mod_pos_bound r (2 ^ 16)). pose proof (Z.div_mod r (2 ^ 16)).
      split; [done|]. split; [|split].
      * split; [assert (0 <= r / 2 ^ 16) by (apply Z.div_pos; lia); lia|]. unfold r in *. lia.
      * replace (r mod 2 ^ 16 + r / 2 ^ 16) with (s + (- (s / 2 ^ 16) - r / 2 ^ 16) * 65535)
          by (unfold r in *; lia). by rewrite Z.mod_add by lia.
      * unfold r in *. lia.
  - pose proof (read_loop_error csum1_step fd 0 0 E) as X.
    pose proof (read_loop_error (fun l ch => u32 (l + ch)) fd 0 0 E) as Y.
    destruct (read_loop csum1_step _ _ _) as [[? ?] ?].
    destruct (read_loop (fun l ch => u32 (l + ch)) _ _ _) as [[? ?] ?].
    simpl in X, Y. by subst.
Qed.

(** ** Examples *)

Example crc_123456789 :
  crc [Some [49; 50; 51; 52]; Some [53; 54; 55; 56; 57]] crc_total_init =
  (Some (930766865, 9), 930766865).
Proof. by vm_compute. Qed.

Example crc32_123456789 :
  (crc32 [Some [49; 50; 51; 52]; Some [53; 54; 55; 56; 57]] crc32_total_init).1 =
  Some (0xcbf43926, 9).
Proof. by vm_compute. Qed.

Lemma crc_is_posix_witness :
  (0 <= crc_total_init < 2 ^ 32) /\
  exists cval, (crc [Some [65; 66]; Some [67]] crc_total_init).1 = Some (cval, 3) /\
    0 <= cval < 2 ^ 32 /\
    gf2_rem crc_poly 32 (Z.shiftl (message (posix_message [65; 66; 67])) 32) (not32 cval).
Proof.
  split; [vm_compute; split; congruence|].
  apply (crc_is_posix [Some [65; 66]; Some [67]] crc_total_init).
  - vm_compute. split; congruence.
  - repeat constructor; unfold is_byte; lia.
Defined.

Lemma crc_total_is_concatenation_witness :
  gf2_rem crc_poly 32
    (Z.shiftl (message (concat (map posix_message [[65; 66]; [67]]))) 32)
    (not32 (crc_totals [[Some [65]; Some [66]]; [Some [67]]])).
Proof.
  apply (crc_total_is_concatenation [[Some [65]; Some [66]]; [Some [67]]] [[65; 66]; [67]]).
  - reflexivity.
  - repeat constructor; unfold is_byte; lia.
Defined.

Lemma crc32_is_standard_witness :
  exists cval, (crc32 [Some [65; 66]; Some [67]] crc32_total_init).1 = Some (cval, 3) /\
    0 <= cval < 2 ^ 32 /\
    gf2_rem crc_poly 32
      (Z.lxor (Z.shiftl (2 ^ 32 - 1) 24) (Z.shiftl (message (map (mirror 8) [65; 66; 67])) 32))
      (mirror 32 (not32 cval)).
Proof.
  apply (crc32_is_standard [Some [65; 66]; Some [67]] crc32_total_init).
  repeat constructor; unfold is_byte; lia.
Defined.

Lemma csum_spec_witness :
  csum1 [Some [65; 66]; Some [67]] = Some (16500, 3).
Proof.
  apply (csum_spec [Some [65; 66]; Some [67]]).
  repeat constructor; unfold is_byte; lia.
Defined.
