(* ===== verification/Decimal.v ===== *)
(** * Decimal numbers: printing with [%d] and reading with [strtol]

    [pretty] of stdpp prints a number in decimal the way [printf("%jd")] does; what
    [strtol0] reads back. *)

From Stdlib Require Import ZArith Lia List Bool String Ascii.
From stdpp Require Import base tactics list numbers strings pretty.
From S2P Require Import Prelude CLib.

Local Open Scope bool_scope.
Local Open Scope Z_scope.

Lemma pretty_N_char_digit x :
  (x < 10)%N -> isdigit (pretty_N_char x) = true /\ code (pretty_N_char x) = 48 + Z.of_N x.
Proof.
  intros H. assert (x = 0 \/ x = 1 \/ x = 2 \/ x = 3 \/ x = 4 \/ x = 5 \/ x = 6 \/ x = 7
    \/ x = 8 \/ x = 9)%N as E by lia.
  repeat destruct E as [->|E]; try (split; reflexivity). subst. by split.
Qed.

Lemma digits_digit acc c s d :
  base_digit 10 c = Some d -> digits 10 acc (String c s) = digits 10 (acc * 10 + d) s.
Proof. intros H. simpl. by rewrite H. Qed.

Lemma base_digit_pretty x :
  (x < 10)%N -> base_digit 10 (pretty_N_char x) = Some (Z.of_N x).
Proof.
  intros H. destruct (pretty_N_char_digit x H) as [Hd Hc].
  unfold base_digit, digit_val. rewrite Hd, Hc. change (code "0") with 48.
  replace (48 + Z.of_N x - 48) with (Z.of_N x) by lia.
  destruct (Z.ltb_spec (Z.of_N x) 10); [done|lia].
Qed.

Lemma digits_pretty_go x t : digits 10 0 (pretty_N_go x t) = digits 10 (Z.of_N x) t.
Proof.
  revert t. induction (N.lt_wf_0 x) as [x _ IH]; intros t.
  destruct (decide (x = 0%N)) as [->|Hx]; [by rewrite pretty_N_go_0|].
  rewrite pretty_N_go_step by lia. rewrite IH by (apply N.div_lt; lia).
  rewrite (digits_digit _ _ _ (Z.of_N (x mod 10))) by (apply base_digit_pretty, N.mod_lt; lia).
  f_equal. rewrite N2Z.inj_div, N2Z.inj_mod. pose proof (Z.div_mod (Z.of_N x) 10). lia.
Qed.

(** The first digit of a positive number is not 0. *)
Lemma pretty_go_first x t :
  (0 < x)%N -> exists c r, pretty_N_go x t = String c r /\ isdigit c = true /\ c <> "0"%char.
Proof.
  revert t. induction (N.lt_wf_0 x) as [x _ IH]; intros t Hx. rewrite pretty_N_go_step by done.
  destruct (decide (x < 10)%N) as [H|H].
  - rewrite N.div_small, N.mod_small by done. rewrite pretty_N_go_0. do 2 eexists. split; [done|].
    destruct (pretty_N_char_digit x H) as [Hd Hc]. split; [done|]. intros E.
    rewrite E in Hc. change (code "0") with 48 in Hc. lia.
  - apply IH; [apply N.div_lt; lia|]. apply N.div_str_pos. lia.
Qed.

Lemma pretty_go_append x s t : (pretty_N_go x s +:+ t) = pretty_N_go x (s +:+ t).
Proof.
  revert s. induction (N.lt_wf_0 x) as [x _ IH]; intros s.
  destruct (decide (x = 0%N)) as [->|Hx]; [by rewrite !pretty_N_go_0|].
  rewrite !(pretty_N_go_step x) by lia. by rewrite IH by (apply N.div_lt; lia).
Qed.

(** [rest] does not continue a number. *)
Definition no_digit (rest : string) : Prop :=
  match rest with EmptyString => True | String c _ => base_digit 10 c = None end.

Lemma digits_stop acc rest : no_digit rest -> digits 10 acc rest = (acc, rest).
Proof. destruct rest as [|c r]; simpl; [done|]. by intros ->. Qed.

Lemma strtol_base_plain c r :
  isdigit c = true -> c <> "0"%char -> strtol_base (String c r) = (10, String c r).
Proof. intros _ H. destruct c as [[] [] [] [] [] [] [] []]; done. Qed.

Definition fits64 (z : Z) : Prop := INTMAX_MIN <= z <= INTMAX_MAX.

Lemma saturate_fits z : fits64 z -> saturate z = z.
Proof. unfold fits64, saturate. lia. Qed.

Lemma saturate_range z : fits64 (saturate z).
Proof. unfold fits64, saturate, INTMAX_MIN, INTMAX_MAX. lia. Qed.

Lemma isdigit_range c : isdigit c = true -> 48 <= code c <= 57.
Proof.
  unfold isdigit, in_range. rewrite andb_true_iff, !Z.leb_le.
  change (code "0") with 48. change (code "9") with 57. lia.
Qed.

Lemma isdigit_isspace c : isdigit c = true -> isspace c = false.
Proof.
  intros H%isdigit_range. unfold isspace.
  destruct (Z.eqb_spec (code c) 32), (Z.leb_spec 9 (code c)), (Z.leb_spec (code c) 13); try done; lia.
Qed.

Lemma isdigit_base c : isdigit c = true -> base_digit 10 c = Some (code c - 48).
Proof.
  intros H. pose proof (isdigit_range c H). unfold base_digit, digit_val. rewrite H.
  change (code "0") with 48. destruct (Z.ltb_spec (code c - 48) 10); [done|lia].
Qed.

(** Reading a run of decimal digits, with or without a minus sign before it. *)
Lemma strtol0_digits c r v e (neg : bool) :
  isdigit c = true -> c <> "0"%char -> digits 10 0 (String c r) = (v, e) ->
  fits64 (if neg then - v else v) ->
  strtol0 (if neg then String "-" (String c r) else String c r) =
    {| sr_val := if neg then - v else v; sr_end := e; sr_range := false |}.
Proof.
  intros Hd H0 Hv Hf. unfold strtol0.
  destruct neg; cbn [skip_space].
  - change (isspace "-") with false. cbv iota. rewrite strtol_base_plain, isdigit_base, Hv by done.
    cbv zeta. rewrite saturate_fits by done. by rewrite Z.eqb_refl.
  - rewrite isdigit_isspace by done.
    assert ((match String c r with
      | String "-" r => (true, r) | String "+" r => (false, r)
      | _ => (false, String c r) end) = (false, String c r)) as ->.
    { destruct c as [[] [] [] [] [] [] [] []]; done. }
    rewrite strtol_base_plain, isdigit_base, Hv by done.
    cbv zeta. rewrite saturate_fits by done. by rewrite Z.eqb_refl.
Qed.

Lemma strtol0_pretty z rest :
  fits64 z -> no_digit rest -> (rest = EmptyString \/ (hd rest <> "x"%char /\ hd rest <> "X"%char)) ->
  strtol0 (pretty z +:+ rest) = {| sr_val := z; sr_end := rest; sr_range := false |}.
Proof.
  intros Hz Hr Hx.
  assert (forall p, exists c r, pretty (Npos p) +:+ rest = String c r /\ isdigit c = true /\
    c <> "0"%char /\ digits 10 0 (String c r) = (Zpos p, rest)) as P.
  { intros p. unfold pretty, pretty_N. rewrite decide_False by done.
    rewrite pretty_go_append. cbn [String.append].
    destruct (pretty_go_first (Npos p) rest) as (c & r & E & Hc & H0); [done|].
    exists c, r. split_and!; try done. rewrite <- E, digits_pretty_go. by apply digits_stop. }
  destruct z as [|p|p].
  - change (pretty 0) with "0"%string. cbn [String.append].
    destruct rest as [|a r]; [done|]. destruct Hx as [?|[H1 H2]]; [done|]. simpl in H1, H2.
    assert (strtol_base (String "0" (String a r)) = (8, String "0" (String a r))) as E.
    { unfold strtol_base. destruct r as [|b r]; [done|].
      by rewrite !bool_decide_eq_false_2. }
    unfold strtol0. cbn [skip_space]. change (isspace "0") with false. cbv iota. rewrite E.
    change (base_digit 8 "0") with (Some 0). cbv iota. cbn [digits].
    change (base_digit 8 "0") with (Some 0). cbv iota.
    assert (base_digit 8 a = None) as H8.
    { simpl in Hr. unfold base_digit in *. destruct (digit_val a) as [d|]; [|done].
      destruct (Z.ltb_spec d 10), (Z.ltb_spec d 8); try done; lia. }
    rewrite H8. done.
  - destruct (P p) as (c & r & E & Hc & H0 & D).
    change (pretty (Zpos p)) with (pretty (Npos p)). rewrite E.
    by apply (strtol0_digits c r (Zpos p) rest false).
  - destruct (P p) as (c & r & E & Hc & H0 & D).
    change (pretty (Zneg p)) with ("-" +:+ pretty (Npos p)). cbn [String.append]. rewrite E.
    by apply (strtol0_digits c r (Zpos p) rest true).
Qed.

Lemma strtol0_range s : fits64 (sr_val (strtol0 s)).
Proof.
  assert (fits64 0) as F0 by (unfold fits64, INTMAX_MIN, INTMAX_MAX; lia).
  unfold strtol0. destruct (match skip_space s with
    | String "-" r => (true, r) | String "+" r => (false, r) | _ => (false, skip_space s) end)
    as [neg s2].
  destruct (strtol_base s2) as [base [|c r]]; [done|].
  destruct (base_digit base c); [|done]. destruct (digits base 0 (String c r)) as [v e].
  apply saturate_range.
Qed.
