(* ===== verification/ShVar.v ===== *)
(** * sh: shell variables (src/shell_cmds/sh/var.c)

    The hash table of variables, the stack of local variables of the running
    function, and the operations on them.  A [struct var *] is named by the variable
    it points to (the table never holds two of the same name, see ShVarFacts); memory
    management is left out, and calls that leave the file (callbacks of special
    variables, the process environment, the locale, the mail check) are logged. *)

From Stdlib Require Import ZArith Lia List Bool String Ascii.
From stdpp Require Import base tactics list numbers strings.
From S2P Require Import Prelude CLib.

Local Open Scope string_scope.
Local Open Scope bool_scope.
Local Open Scope Z_scope.

(** ** var.h *)

Definition VEXPORT : Z := 0x01.
Definition VREADONLY : Z := 0x02.
Definition VSTRFIXED : Z := 0x04.
Definition VTEXTFIXED : Z := 0x08.
Definition VSTACK : Z := 0x10.
Definition VUNSET : Z := 0x20.
Definition VNOFUNC : Z := 0x40.
Definition VNOSET : Z := 0x80.
Definition VNOLOCAL : Z := 0x100.

(** [flags & m] as a condition. *)
Definition has (flags m : Z) : bool := negb (Z.land flags m =? 0).

(** [flags & ~m] *)
Definition without (flags m : Z) : Z := Z.ldiff flags m.

(** The callbacks of [varinit] and the variables with a static structure. *)
Inductive vfunc := Sethistsize | Changepath | Setterm | Getoptsreset.
Inductive svar :=
  | Vhistsize | Vifs | Vmail | Vmpath | Vpath | Vps1 | Vps2 | Vps4 | Vterm | Voptind
  | Vdisvfork.

#[export] Instance svar_eq_dec : EqDecision svar.
Proof. solve_decision. Defined.

Record var := mkvar {
  v_flags : Z;
  v_name_len : nat;
  v_text : string;
  v_func : option vfunc;
  v_static : option svar }.

Definition with_flags (fl : Z) (v : var) : var :=
  mkvar fl (v_name_len v) (v_text v) (v_func v) (v_static v).
Definition with_flags_text (fl : Z) (s : string) (v : var) : var :=
  mkvar fl (v_name_len v) s (v_func v) (v_static v).

(** [struct localvar]: the saved [$-], a variable that did not exist before (saved
    text NULL, saved flags VUNSET), or the saved flags and text of one that did. *)
Inductive localvar :=
  | LOpt (text : string)
  | LNew (vp : string)
  | LOld (vp : string) (flags : Z) (text : string).

(** What leaves the file. *)
Inductive vevent :=
  | Callback (f : vfunc) (val : string)
  | Setenv (name val : string)
  | Unsetenv (name : string)
  | SetLocale
  | Chkmail
  | OptsChanged.

Record sh := mksh {
  vartab : list (list var);
  localvars : list localvar;
  forcelocal : Z;
  aflag : bool;
  iflag : Z;
  optval : string;
  events : list vevent }.

Definition set_vartab (t : list (list var)) (s : sh) : sh :=
  mksh t (localvars s) (forcelocal s) (aflag s) (iflag s) (optval s) (events s).
Definition set_localvars (l : list localvar) (s : sh) : sh :=
  mksh (vartab s) l (forcelocal s) (aflag s) (iflag s) (optval s) (events s).
Definition set_optval (o : string) (s : sh) : sh :=
  mksh (vartab s) (localvars s) (forcelocal s) (aflag s) (iflag s) o (events s).
Definition log (e : vevent) (s : sh) : sh :=
  mksh (vartab s) (localvars s) (forcelocal s) (aflag s) (iflag s) (optval s)
    (events s ++ [e]).

(** [error()] leaves the command; [NotInFunction] is that of [local]. *)
Inductive sh_error :=
  | BadVariableName (name : string)
  | IsReadOnly (name : string)
  | NotInFunction
  | TooManyArguments.

Abbreviation V := (M sh_error sh).

(** ** Names *)

Definition VTABSIZE : nat := 39.

Definition is_name (c : ascii) : bool := isalpha c || bool_decide (c = "_"%char).
Definition is_in_name (c : ascii) : bool := is_name c || isdigit c.

(** The text before '=', and the text after it, if there is one. *)
Fixpoint name_part (s : string) : string :=
  match s with
  | "" => ""
  | String c s' => if decide (c = "="%char) then "" else String c (name_part s')
  end.

Fixpoint value_part (s : string) : option string :=
  match s with
  | "" => None
  | String c s' => if decide (c = "="%char) then Some s' else value_part s'
  end.

Fixpoint varequal (p q : string) : bool :=
  match p, q with
  | String a p', String b q' =>
      if decide (a = b) then (if decide (a = "="%char) then true else varequal p' q')
      else false
  | String a _, "" => bool_decide (a = "="%char)
  | "", _ => false
  end.

Definition locale_names : list string :=
  ["LC_COLLATE"; "LC_CTYPE"; "LC_MONETARY"; "LC_NUMERIC"; "LC_TIME"; "LC_MESSAGES"].

Definition localevar (s : string) : bool :=
  if decide (hd s = "L"%char) then
    if varequal (sdrop 1 s) "ANG" then true
    else if negb (starts "C_" (sdrop 1 s)) then false
    else if varequal (sdrop 3 s) "ALL" then true
    else existsb (fun ss => varequal (sdrop 3 s) (sdrop 3 ss)) locale_names
  else false.

(** ** The table *)

Fixpoint hashval (h : Z) (name : string) : Z :=
  match name with
  | "" => h
  | String c s => if decide (c = "="%char) then h else hashval (u32 (2 * h + code c)) s
  end.

Definition bucket_of (name : string) : nat := Z.to_nat (hashval 0 name mod Z.of_nat VTABSIZE).

(** The comparison of [find_var]'s loop, [n] being the name without '='. *)
Definition var_named (n : string) (v : var) : bool :=
  (v_name_len v =? String.length n)%nat && bool_decide (stake (String.length n) (v_text v) = n).

Definition find_var (name : string) (t : list (list var)) : option var :=
  List.find (var_named (name_part name)) (nth (bucket_of name) t []).

(** Writing through [vp], and unlinking it. *)
Fixpoint update_first (p : var -> bool) (f : var -> var) (l : list var) : list var :=
  match l with
  | [] => []
  | v :: l => if p v then f v :: l else v :: update_first p f l
  end.

Fixpoint remove_first (p : var -> bool) (l : list var) : list var :=
  match l with
  | [] => []
  | v :: l => if p v then l else v :: remove_first p l
  end.

Definition on_bucket (name : string) (f : list var -> list var) (t : list (list var)) :
  list (list var) := alter f (bucket_of name) t.

Definition write_var (name : string) (f : var -> var) (s : sh) : sh :=
  set_vartab (on_bucket name (update_first (var_named (name_part name)) f) (vartab s)) s.
Definition link_var (name : string) (v : var) (s : sh) : sh :=
  set_vartab (on_bucket name (cons v) (vartab s)) s.
Definition unlink_var (name : string) (s : sh) : sh :=
  set_vartab (on_bucket name (remove_first (var_named (name_part name))) (vartab s)) s.

(** ** Setting a variable *)

Definition change_env (s : string) (set : bool) : V unit :=
  match set, value_part s with
  | true, Some v => modify (log (Setenv (name_part s) v))
  | _, _ => modify (log (Unsetenv (name_part s)))
  end.

(** [change_env(s, set); setlocale(LC_ALL, ""); updatecharset();] *)
Definition relocale (s : string) (set : bool) : V unit :=
  _ ← change_env s set; modify (log SetLocale).

Definition mpathset (s : sh) : bool :=
  match find_var "MAILPATH" (vartab s) with
  | Some v => negb (has (v_flags v) VUNSET)
  | None => true
  end.

Definition run_func (v : var) (val : string) : V unit :=
  match v_func v with Some f => modify (log (Callback f val)) | None => mret tt end.

(** [setvareq] after the [forcelocal] test, which [VNOLOCAL] skips. *)
Definition setvareq_found (v : var) (s : string) (flags : Z) : V unit :=
  if has (v_flags v) VREADONLY then leave (IsReadOnly (stake (v_name_len v) (v_text v)))
  else if has flags VNOSET then mret tt
  else
    _ ← mwhen (negb (has flags VNOFUNC)) (run_func v (sdrop (v_name_len v + 1) s));
    let fl := Z.lor (without (v_flags v) (Z.lor VTEXTFIXED (Z.lor VSTACK VUNSET))) flags in
    _ ← modify (write_var s (with_flags_text fl s));
    st ← (get : V sh);
    _ ← mwhen ((bool_decide (v_static v = Some Vmpath)
                || (bool_decide (v_static v = Some Vmail) && negb (mpathset st)))
               && (iflag st =? 1)) (modify (log Chkmail));
    mwhen (has fl VEXPORT && localevar s) (relocale s true).

Definition setvareq_new (s : string) (flags : Z) : V unit :=
  if has flags VNOSET then mret tt
  else
    _ ← modify (link_var s (mkvar flags (String.length (name_part s)) s None None));
    mwhen (has flags VEXPORT && localevar s) (relocale s true).

Definition setvareq_nolocal (s : string) (flags : Z) : V unit :=
  st ← (get : V sh);
  let flags := if aflag st then Z.lor flags VEXPORT else flags in
  match find_var s (vartab st) with
  | Some v => setvareq_found v s flags
  | None => setvareq_new s flags
  end.

(** The name test of [setvar]: a letter or underscore, then letters, digits and
    underscores up to the end or '='. *)
Fixpoint in_name_part (s : string) : bool :=
  match s with
  | "" => true
  | String c s' => if decide (c = "="%char) then true else is_in_name c && in_name_part s'
  end.

Definition goodvar (name : string) : bool :=
  is_name (hd name) && in_name_part (sdrop 1 name).

Definition nameeq (name : string) (val : option string) : string :=
  name_part name +:+ "=" +:+ match val with Some v => v | None => "" end.

Definition setvar_flags (val : option string) (flags : Z) : Z :=
  match val with Some _ => flags | None => Z.lor flags VUNSET end.

Definition setvar_with (seteq : string -> Z -> V unit)
  (name : string) (val : option string) (flags : Z) : V unit :=
  if negb (goodvar name) then leave (BadVariableName name)
  else seteq (nameeq name val) (setvar_flags val flags).

(** ** Local variables *)

Definition mklocal (name : string) : V unit :=
  if decide (name = "-") then
    st ← (get : V sh);
    modify (set_localvars (LOpt (optval st) :: localvars st))
  else
    st ← (get : V sh);
    lv ← match find_var name (vartab st) with
         | None =>
             _ ← (match value_part name with
                  | Some _ => setvareq_nolocal name (Z.lor VSTRFIXED VNOLOCAL)
                  | None =>
                      setvar_with setvareq_nolocal name None (Z.lor VSTRFIXED VNOLOCAL)
                  end);
             mret (LNew (name_part name))
         | Some v =>
             _ ← modify (write_var name
                   (with_flags (Z.lor (v_flags v) (Z.lor VSTRFIXED VTEXTFIXED))));
             _ ← (match value_part name with
                  | Some _ => setvareq_nolocal name VNOLOCAL
                  | None => mret tt
                  end);
             mret (LOld (name_part name) (v_flags v) (v_text v))
         end;
    modify (fun st => set_localvars (lv :: localvars st) st).

Definition setvareq (s : string) (flags : Z) : V unit :=
  st ← (get : V sh);
  _ ← mwhen (negb (forcelocal st =? 0) && negb (has flags (Z.lor VNOSET VNOLOCAL))) (mklocal s);
  setvareq_nolocal s flags.

Definition setvar (name : string) (val : option string) (flags : Z) : V unit :=
  setvar_with setvareq name val flags.

(** [setvarsafe]: the error is caught, 1 is returned. *)
Definition setvarsafe (name : string) (val : option string) (flags : Z) : V Z := fun s =>
  match setvar name val flags s with
  | (Ok _, s') => (Ok 0, s')
  | (Ex _, s') => (Ok 1, s')
  end.

Definition lookupvar (name : string) (s : sh) : option string :=
  match find_var name (vartab s) with
  | Some v => if has (v_flags v) VUNSET then None else Some (sdrop (v_name_len v + 1) (v_text v))
  | None => None
  end.

Definition unsetvar (name : string) : V Z :=
  st ← (get : V sh);
  match find_var name (vartab st) with
  | None => mret 0
  | Some v =>
      if has (v_flags v) VREADONLY then mret 1
      else
        _ ← mwhen (negb (bool_decide (sdrop (v_name_len v + 1) (v_text v) = "")))
              (setvar name (Some "") 0);
        st ← (get : V sh);
        match find_var name (vartab st) with
        | None => mret 0
        | Some v =>
            _ ← mwhen (has (v_flags v) VEXPORT && localevar (v_text v)) (relocale name false);
            let fl := Z.lor (without (v_flags v) VEXPORT) VUNSET in
            _ ← modify (write_var name (with_flags fl));
            _ ← mwhen (negb (has fl VSTRFIXED)) (modify (unlink_var name));
            mret 0
        end
  end.

(** One round of [poplocalvars], and the loop. *)

Definition poplocal (lv : localvar) : V unit :=
  match lv with
  | LOpt text => _ ← modify (set_optval text); modify (log OptsChanged)
  | LNew vp =>
      _ ← modify (write_var vp (fun v => with_flags (without (v_flags v) VREADONLY) v));
      _ ← unsetvar vp; mret tt
  | LOld vp flags text =>
      if Z.land flags (Z.lor VUNSET VSTRFIXED) =? VUNSET then
        _ ← modify (write_var vp (fun v => with_flags (without (v_flags v) VREADONLY) v));
        _ ← unsetvar vp; mret tt
      else
        st ← (get : V sh);
        match find_var vp (vartab st) with
        | None => mret tt
        | Some v =>
            _ ← modify (write_var vp (with_flags_text flags text));
            _ ← run_func v (sdrop (v_name_len v + 1) text);
            mwhen (has (Z.lor (v_flags v) flags) VEXPORT && localevar text)
              (relocale text (has flags VEXPORT && negb (has flags VUNSET)))
        end
  end.

Fixpoint poplocals (ls : list localvar) : V unit :=
  match ls with
  | [] => mret tt
  | lv :: ls => _ ← modify (set_localvars ls); _ ← poplocal lv; poplocals ls
  end.

Definition poplocalvars : V unit := st ← (get : V sh); poplocals (localvars st).

(** ** The environment and the builtins *)

Definition environment (s : sh) : list string :=
  flat_map (fun b => flat_map (fun v => if has (v_flags v) VEXPORT then [v_text v] else []) b)
    (vartab s).

(** [bltinlookup] with the assignments before the command, [cmdenviron]. *)
Definition bltinlookup (cmdenviron : list string) (name : string) (doall : bool) (s : sh) :
  option string :=
  match foldl (fun r a => if varequal a name then value_part a else r) None cmdenviron with
  | Some v => Some v
  | None =>
      match find_var name (vartab s) with
      | Some v =>
          if has (v_flags v) VUNSET || (negb doall && negb (has (v_flags v) VEXPORT)) then None
          else Some (sdrop (v_name_len v + 1) (v_text v))
      | None => None
      end
  end.

Fixpoint listsetvar (args : list string) (flags : Z) : V unit :=
  match args with
  | [] => mret tt
  | a :: args => _ ← setvareq a flags; listsetvar args flags
  end.

(** [export] ([flag] = VEXPORT) and [readonly] ([flag] = VREADONLY) with operands. *)
Definition export_one (flag : Z) (name : string) : V unit :=
  st ← (get : V sh);
  match value_part name, find_var name (vartab st) with
  | None, Some v =>
      let fl := Z.lor (v_flags v) flag in
      _ ← modify (write_var name (with_flags fl));
      mwhen (has fl VEXPORT && localevar (v_text v)) (relocale (v_text v) true)
  | p, _ => setvar name p flag
  end.

Fixpoint exportcmd (flag : Z) (names : list string) : V Z :=
  match names with
  | [] => mret 0
  | n :: names => _ ← export_one flag n; exportcmd flag names
  end.

Fixpoint localcmd_loop (names : list string) : V Z :=
  match names with
  | [] => mret 0
  | n :: names => _ ← mklocal n; localcmd_loop names
  end.

Definition localcmd (in_function : bool) (names : list string) : V Z :=
  if negb in_function then leave NotInFunction else localcmd_loop names.

(** [unset -v] *)
Fixpoint unset_loop (ret : Z) (names : list string) : V Z :=
  match names with
  | [] => mret ret
  | n :: names => '(r : Z) ← unsetvar n; unset_loop (Z.lor ret r) names
  end.

Definition setvarcmd (args : list string) : V Z :=
  match args with
  | [] | [_] => unset_loop 0 args
  | [n; v] => _ ← setvar n (Some v) 0; mret 0
  | _ => leave TooManyArguments
  end.

(** ** Initialisation *)

(** [varinit]; [defpath] is _PATH_DEFPATH of the system's headers. *)
Definition varinit (defpath : string) : list (svar * Z * string * option vfunc) :=
  [ (Vhistsize, VUNSET, "HISTSIZE=", Some Sethistsize);
    (Vifs, 0, "IFS= " +:+ String TAB (String LF ""), None);
    (Vmail, VUNSET, "MAIL=", None);
    (Vmpath, VUNSET, "MAILPATH=", None);
    (Vpath, 0, "PATH=" +:+ defpath, Some Changepath);
    (Vps2, 0, "PS2=> ", None);
    (Vps4, 0, "PS4=+ ", None);
    (Vterm, VUNSET, "TERM=", Some Setterm);
    (Voptind, 0, "OPTIND=1", Some Getoptsreset);
    (Vdisvfork, VUNSET, "SH_DISABLE_VFORK=", None) ].

Definition init_static (t : list (list var)) (i : svar * Z * string * option vfunc) :
  list (list var) :=
  let '(id, flags, text, func) := i in
  match find_var text t with
  | Some _ => t
  | None =>
      on_bucket text
        (cons (mkvar (Z.lor flags (Z.lor VSTRFIXED VTEXTFIXED))
                 (String.length (name_part text)) text func (Some id))) t
  end.

Definition init_ps1 (euid : Z) (t : list (list var)) : list (list var) :=
  init_static t (Vps1, 0, if euid =? 0 then "PS1=# " else "PS1=$ ", None).

Fixpoint import_environ (environ : list string) : V unit :=
  match environ with
  | [] => mret tt
  | e :: environ =>
      _ ← (match value_part e with
           | Some _ => setvareq e (Z.lor VEXPORT VTEXTFIXED)
           | None => mret tt
           end);
      import_environ environ
  end.

Definition initvar (defpath : string) (euid : Z) (ppid : string) (environ : list string) :
  V unit :=
  _ ← modify (fun s =>
        set_vartab (init_ps1 euid (foldl init_static (vartab s) (varinit defpath))) s);
  _ ← setvarsafe "PPID" (Some ppid) 0;
  _ ← import_environ environ;
  _ ← setvareq "OPTIND=1" VTEXTFIXED;
  setvareq ("IFS= " +:+ String TAB (String LF "")) VTEXTFIXED.

Definition sh_init : sh := mksh (replicate VTABSIZE []) [] 0 false 0 "" [].

(** A shell started with the given environment. *)
Definition sh_start (environ : list string) : sh :=
  (initvar "/usr/bin:/bin" 501 "1" environ sh_init).2.

Example start_lookup :
  (lookupvar "HOME" (sh_start ["HOME=/root"; "X"]), lookupvar "X" (sh_start ["X"]),
   lookupvar "PS1" (sh_start []), lookupvar "MAIL" (sh_start [])) =
  (Some "/root", None, Some "$ ", None).
Proof. by vm_compute. Qed.
