(* ===== verification/ShVarFacts.v ===== *)
(** * sh variables: the table is a finite map with scopes

    The invariant of the hash table and of the stack of local variables, what a
    variable looks like from outside ([view]), and the specifications of the
    operations in these terms. *)

From Stdlib Require Import ZArith Lia List Bool String Ascii.
From stdpp Require Import base tactics list numbers strings.
From S2P Require Import Prelude CLib ShVar.

Local Open Scope string_scope.
Local Open Scope bool_scope.
Local Open Scope Z_scope.

(** ** Flags *)

Lemma has_lor a b m : has (Z.lor a b) m = has a m || has b m.
Proof.
  unfold has. rewrite Z.land_lor_distr_l.
  destruct (Z.eqb_spec (Z.land a m) 0) as [Ha|Ha], (Z.eqb_spec (Z.land b m) 0) as [Hb|Hb],
    (Z.eqb_spec (Z.lor (Z.land a m) (Z.land b m)) 0) as [H|H]; try done;
    first [apply Z.lor_eq_0_iff in H as [? ?]; done | by rewrite Ha, Hb in H].
Qed.

Lemma has_without_keep a b m : Z.land b m = 0 -> has (without a b) m = has a m.
Proof.
  intros H. unfold has, without. do 2 f_equal. apply Z.bits_inj'. intros n Hn.
  apply (f_equal (fun z => Z.testbit z n)) in H.
  rewrite Z.land_spec, Z.bits_0 in H. rewrite !Z.land_spec, Z.ldiff_spec.
  by destruct (Z.testbit a n), (Z.testbit b n), (Z.testbit m n).
Qed.

Lemma has_without_clear a b m : Z.land b m = m -> has (without a b) m = false.
Proof.
  intros H. unfold has, without.
  assert (Z.land (Z.ldiff a b) m = 0) as ->; [|done]. apply Z.bits_inj'. intros n Hn.
  apply (f_equal (fun z => Z.testbit z n)) in H.
  rewrite Z.land_spec in H. rewrite Z.land_spec, Z.ldiff_spec, Z.bits_0.
  by destruct (Z.testbit a n), (Z.testbit b n), (Z.testbit m n).
Qed.

(** ** Names and texts *)

Lemma name_value_part s w : value_part s = Some w -> s = name_part s +:+ "=" +:+ w.
Proof.
  induction s as [|c s IH]; simpl; [done|]. case_decide; intros; simplify_eq/=; [done|].
  f_equal. auto.
Qed.

Lemma name_part_idem s : name_part (name_part s) = name_part s.
Proof. induction s as [|c s IH]; simpl; [done|]. case_decide; simpl; [done|]. case_decide; [done|]. by f_equal. Qed.

Lemma value_part_name s : value_part (name_part s) = None.
Proof. induction s as [|c s IH]; simpl; [done|]. case_decide; simpl; [done|]. by case_decide. Qed.

Lemma name_part_eq n w : name_part n = n -> name_part (n +:+ "=" +:+ w) = n.
Proof.
  induction n as [|c n IH]; simpl; [done|]. case_decide; intros E; [done|]. f_equal.
  apply IH. by injection E.
Qed.

Lemma value_part_eq n w : name_part n = n -> value_part (n +:+ "=" +:+ w) = Some w.
Proof.
  induction n as [|c n IH]; simpl; [done|]. case_decide; intros E; [done|].
  apply IH. by injection E.
Qed.

Lemma stake_name s : stake (String.length (name_part s)) s = name_part s.
Proof. induction s as [|c s IH]; simpl; [done|]. case_decide; simpl; [done|]. by f_equal. Qed.

Lemma sdrop_value s w : value_part s = Some w -> sdrop (String.length (name_part s) + 1) s = w.
Proof.
  induction s as [|c s IH]; simpl; [done|]. case_decide; intros; simplify_eq/=; [done|]. auto.
Qed.

Lemma stake_length_le n s : (String.length (stake n s) <= n)%nat.
Proof. revert s. induction n; intros [|c s]; simpl; try lia. specialize (IHn s). lia. Qed.

Lemma hashval_name h s : hashval h (name_part s) = hashval h s.
Proof.
  revert h. induction s as [|c s IH]; intros h; simpl; [done|].
  case_decide; simpl; [done|]. case_decide; [done|]. apply IH.
Qed.

Lemma bucket_of_name s : bucket_of (name_part s) = bucket_of s.
Proof. unfold bucket_of. by rewrite hashval_name. Qed.

Lemma bucket_of_bound s : (bucket_of s < VTABSIZE)%nat.
Proof.
  unfold bucket_of. pose proof (Z.mod_pos_bound (hashval 0 s) (Z.of_nat VTABSIZE)).
  unfold VTABSIZE in *. lia.
Qed.

(** ** The invariant of the table *)

Definition key (v : var) : string := name_part (v_text v).

Definition wf_var (v : var) : Prop :=
  v_name_len v = String.length (key v) /\ is_Some (value_part (v_text v)).

Definition wf_bucket (i : nat) (b : list var) : Prop :=
  NoDup (key <$> b) /\ Forall (fun v => wf_var v /\ bucket_of (key v) = i) b.

Definition wf_tab (t : list (list var)) : Prop :=
  List.length t = VTABSIZE /\ forall i b, t !! i = Some b -> wf_bucket i b.

Lemma key_name v : name_part (key v) = key v.
Proof. apply name_part_idem. Qed.

Lemma var_named_key n v :
  wf_var v -> var_named (name_part n) v = bool_decide (key v = name_part n).
Proof.
  intros [Hl Hv]. unfold var_named. rewrite Hl.
  destruct (Nat.eqb_spec (String.length (key v)) (String.length (name_part n))) as [E|E]; simpl.
  - rewrite <- E. unfold key. by rewrite stake_name.
  - symmetry. apply bool_decide_eq_false. intros F. by rewrite F in E.
Qed.

Lemma lookup_nth {A} (l : list A) i d : (i < List.length l)%nat -> l !! i = Some (nth i l d).
Proof. intros H. destruct (nth_lookup_or_length l i d); [done|lia]. Qed.

Lemma wf_tab_bucket t n : wf_tab t -> wf_bucket (bucket_of n) (nth (bucket_of n) t []).
Proof.
  intros [Hl H]. apply H, lookup_nth. rewrite Hl. apply bucket_of_bound.
Qed.

Definition find_key (n : string) (b : list var) : option var :=
  List.find (fun v => bool_decide (key v = n)) b.

Lemma find_named n i b :
  wf_bucket i b -> List.find (var_named (name_part n)) b = find_key (name_part n) b.
Proof.
  intros [_ H]. unfold find_key. induction H as [|v b [Hv _] _ IH]; simpl; [done|].
  by rewrite var_named_key, IH.
Qed.

Lemma find_var_key t n :
  wf_tab t -> find_var n t = find_key (name_part n) (nth (bucket_of n) t []).
Proof. intros H. unfold find_var. by eapply find_named, wf_tab_bucket. Qed.

Lemma find_key_some n b v : find_key n b = Some v -> key v = n /\ v ∈ b.
Proof.
  intros H. apply List.find_some in H as [H1 H2]. apply bool_decide_eq_true in H2.
  split; [done|]. by apply list_elem_of_In.
Qed.

Lemma find_var_some t n v :
  wf_tab t -> find_var n t = Some v -> key v = name_part n /\ wf_var v.
Proof.
  intros Ht H. rewrite find_var_key in H by done.
  apply find_key_some in H as [Hk Hin]. split; [done|].
  destruct (wf_tab_bucket t n Ht) as [_ HF]. rewrite Forall_forall in HF. by apply HF.
Qed.

Lemma find_var_same t m n : name_part m = name_part n -> find_var m t = find_var n t.
Proof. intros E. unfold find_var. by rewrite E, <- (bucket_of_name m), E, bucket_of_name. Qed.

(** ** Writing, linking and unlinking *)

Lemma nth_alter (f : list var -> list var) i j (t : list (list var)) :
  (i < List.length t)%nat ->
  nth j (alter f i t) [] = if decide (j = i) then f (nth i t []) else nth j t [].
Proof.
  revert i j. induction t as [|b t IH]; intros i j Hi; simpl in *; [lia|].
  destruct i as [|i], j as [|j]; simpl; try done.
  change (nth j (alter f i t) [] = if decide (S j = S i) then f (nth i t []) else nth j t []).
  rewrite IH by lia. by repeat case_decide; try lia.
Qed.

Section OnBucket.
Context (t : list (list var)) (Ht : wf_tab t) (n : string).

Lemma wf_on_bucket f :
  (forall b, wf_bucket (bucket_of n) b -> wf_bucket (bucket_of n) (f b)) ->
  wf_tab (on_bucket n f t).
Proof.
  intros Hf. destruct Ht as [Hl Hb]. split; [by unfold on_bucket; rewrite length_alter|].
  intros i b. unfold on_bucket. destruct (decide (i = bucket_of n)) as [->|Hi].
  - rewrite list_lookup_alter_eq. destruct (t !! bucket_of n) eqn:E; simpl; [|done].
    intros [= <-]. auto.
  - rewrite list_lookup_alter_ne by done. auto.
Qed.

Lemma find_on_bucket f m :
  (forall b, wf_bucket (bucket_of n) b -> wf_bucket (bucket_of n) (f b)) ->
  find_var m (on_bucket n f t) =
    if decide (bucket_of m = bucket_of n)
    then find_key (name_part m) (f (nth (bucket_of n) t [])) else find_var m t.
Proof.
  intros Hf. rewrite !find_var_key by auto using wf_on_bucket. unfold on_bucket.
  rewrite nth_alter by (destruct Ht as [-> _]; apply bucket_of_bound).
  by case_decide as E; rewrite ?E.
Qed.
End OnBucket.

Lemma find_key_remove n m b :
  NoDup (key <$> b) ->
  find_key m (remove_first (fun v => bool_decide (key v = n)) b) =
    if decide (m = n) then None else find_key m b.
Proof.
  unfold find_key. induction b as [|v b IH]; simpl; intros H; [by case_decide|].
  apply NoDup_cons in H as [Hn H]. case_bool_decide as E; simpl.
  - destruct (decide (m = n)) as [->|N].
    + destruct (List.find _ b) as [w|] eqn:F; [|done]. exfalso.
      apply find_key_some in F as [Fk Fi]. apply Hn. rewrite E, <- Fk.
      by apply list_elem_of_fmap_2.
    + by rewrite bool_decide_eq_false_2 by congruence.
  - rewrite IH by done. destruct (decide (m = n)) as [->|N]; [|done].
    by rewrite (bool_decide_eq_false_2 (key v = n)) by done.
Qed.

Lemma Forall_update {P : var -> Prop} p f b :
  (forall v, p v = true -> P v -> P (f v)) -> Forall P b -> Forall P (update_first p f b).
Proof.
  intros Hf H. induction H as [|v b Hv H IH]; simpl; [constructor|].
  destruct (p v) eqn:E; constructor; auto.
Qed.

Lemma update_named n i f b :
  wf_bucket i b ->
  update_first (var_named (name_part n)) f b =
  update_first (fun v => bool_decide (key v = name_part n)) f b.
Proof.
  intros [_ H]. induction H as [|v b [Hv _] _ IH]; simpl; [done|].
  by rewrite var_named_key, IH.
Qed.

Lemma remove_named n i b :
  wf_bucket i b ->
  remove_first (var_named (name_part n)) b =
  remove_first (fun v => bool_decide (key v = name_part n)) b.
Proof.
  intros [_ H]. induction H as [|v b [Hv _] _ IH]; simpl; [done|].
  by rewrite var_named_key, IH.
Qed.

(** A write that keeps the name. *)
Definition keeps (n : string) (f : var -> var) : Prop :=
  forall v, wf_var v -> key v = name_part n -> wf_var (f v) /\ key (f v) = name_part n.

Lemma wf_bucket_update n i f b :
  keeps n f -> wf_bucket i b -> wf_bucket i (update_first (var_named (name_part n)) f b).
Proof.
  intros Hf W. rewrite (update_named _ _ _ _ W). destruct W as [Hn HF].
  split.
  - clear - Hn Hf HF. assert (key <$> update_first (fun v => bool_decide (key v = name_part n)) f b
      = key <$> b) as ->; [|done].
    clear Hn. induction HF as [|v b [Hv _] _ IH]; cbn [update_first]; [done|].
    case_bool_decide as E; rewrite !fmap_cons; [by rewrite (proj2 (Hf v Hv E)), E|].
    by rewrite IH.
  - apply Forall_update; [|done]. intros v Hv [Wv Bv]. apply bool_decide_eq_true in Hv.
    destruct (Hf v Wv Hv) as [W' K']. split; [done|]. by rewrite K', <- Hv.
Qed.

Lemma find_write t n f m :
  wf_tab t -> keeps n f ->
  find_var m (on_bucket n (update_first (var_named (name_part n)) f) t) =
    if decide (name_part m = name_part n) then f <$> find_var n t else find_var m t.
Proof.
  intros Ht Hf. rewrite find_on_bucket by (auto using wf_bucket_update).
  pose proof (wf_tab_bucket t n Ht) as W. rewrite (update_named _ _ _ _ W).
  rewrite !(find_var_key t) by done.
  assert (forall b, Forall wf_var b ->
    find_key (name_part m) (update_first (fun v => bool_decide (key v = name_part n)) f b) =
    if decide (name_part m = name_part n) then f <$> find_key (name_part n) b
    else find_key (name_part m) b) as G.
  { intros b Hb. unfold find_key. induction Hb as [|v b Hv Hb IH]; simpl; [by case_decide|].
    case_bool_decide as E; simpl.
    - rewrite (proj2 (Hf v Hv E)), E. destruct (decide (name_part m = name_part n)) as [->|N];
        [by rewrite bool_decide_eq_true_2 by done|].
      by rewrite bool_decide_eq_false_2 by congruence.
    - rewrite IH. destruct (decide (name_part m = name_part n)) as [->|N]; [|done].
      by rewrite (bool_decide_eq_false_2 (key v = name_part n)) by done. }
  rewrite G by (eapply Forall_impl; [apply W|]; by intros ? [? _]).
  destruct (decide (bucket_of m = bucket_of n)) as [Eb|Nb].
  - by rewrite Eb.
  - rewrite decide_False; [done|]. intros E. apply Nb.
    by rewrite <- (bucket_of_name m), E, bucket_of_name.
Qed.

Lemma wf_write t n f :
  wf_tab t -> keeps n f -> wf_tab (on_bucket n (update_first (var_named (name_part n)) f) t).
Proof. intros. apply wf_on_bucket; auto using wf_bucket_update. Qed.

Lemma wf_bucket_cons n v b :
  wf_var v -> key v = name_part n -> find_key (name_part n) b = None ->
  wf_bucket (bucket_of n) b -> wf_bucket (bucket_of n) (v :: b).
Proof.
  intros Hv Hk Hf [Hn HF]. split.
  - simpl. constructor; [|done]. intros Hin. apply list_elem_of_fmap in Hin as (w & Ew & Hw).
    rewrite Hk in Ew. pose proof (List.find_none _ _ Hf w) as X. simpl in X.
    rewrite bool_decide_eq_true_2 in X by done. by discriminate X; apply list_elem_of_In.
  - constructor; [|done]. split; [done|]. by rewrite Hk, bucket_of_name.
Qed.

(** A link of a variable that is not there. *)
Lemma find_link t n v m :
  wf_tab t -> wf_var v -> key v = name_part n -> find_var n t = None ->
  wf_tab (on_bucket n (cons v) t) /\
  find_var m (on_bucket n (cons v) t) =
    if decide (name_part m = name_part n) then Some v else find_var m t.
Proof.
  intros Ht Hv Hk Hf. pose proof Hf as Hn. rewrite find_var_key in Hn by done.
  destruct Ht as [Hl Hb]. assert (wf_tab (on_bucket n (cons v) t)) as W.
  { split; [by unfold on_bucket; rewrite length_alter|]. intros i b. unfold on_bucket.
    destruct (decide (i = bucket_of n)) as [->|Hi].
    - rewrite list_lookup_alter_eq. destruct (t !! bucket_of n) as [b'|] eqn:E; simpl; [|done].
      intros [= <-]. apply wf_bucket_cons; try done; [|by apply Hb].
      by rewrite (nth_lookup_Some _ _ _ _ E) in Hn.
    - rewrite list_lookup_alter_ne by done. auto. }
  split; [done|]. rewrite !find_var_key by done. unfold on_bucket.
  rewrite nth_alter by (rewrite Hl; apply bucket_of_bound).
  destruct (decide (bucket_of m = bucket_of n)) as [Eb|Nb].
  - unfold find_key. simpl. rewrite Hk. case_bool_decide as E.
    + by rewrite decide_True.
    + rewrite decide_False by done. by rewrite Eb.
  - rewrite decide_False; [done|]. intros E. apply Nb.
    by rewrite <- (bucket_of_name m), E, bucket_of_name.
Qed.

Lemma remove_sublist {p : var -> bool} b : sublist (remove_first p b) b.
Proof. induction b as [|v b IH]; simpl; [done|]. destruct (p v); by constructor. Qed.

Lemma wf_bucket_remove i p b : wf_bucket i b -> wf_bucket i (remove_first p b).
Proof.
  intros [Hn HF]. pose proof (@remove_sublist p b) as S. split.
  - eapply sublist_NoDup; [exact Hn|by apply fmap_sublist].
  - rewrite Forall_forall in *. intros v Hv. apply HF. by eapply elem_of_sublist.
Qed.

Lemma find_unlink t n m :
  wf_tab t ->
  find_var m (on_bucket n (remove_first (var_named (name_part n))) t) =
    if decide (name_part m = name_part n) then None else find_var m t.
Proof.
  intros Ht. rewrite find_on_bucket by (auto using wf_bucket_remove).
  pose proof (wf_tab_bucket t n Ht) as W. rewrite (remove_named _ _ _ W).
  rewrite find_key_remove by apply W. rewrite (find_var_key t) by done.
  destruct (decide (bucket_of m = bucket_of n)) as [Eb|Nb]; [by rewrite Eb|].
  rewrite decide_False; [done|]. intros E. apply Nb.
  by rewrite <- (bucket_of_name m), E, bucket_of_name.
Qed.

(** ** What a variable looks like *)

Record avar := mkav { a_val : option string; a_export : bool; a_readonly : bool }.

Definition absent : avar := mkav None false false.

Definition view_text (flags : Z) (text : string) : avar :=
  mkav (if has flags VUNSET then None else value_part text) (has flags VEXPORT)
    (has flags VREADONLY).

Definition view (s : sh) (n : string) : avar :=
  match find_var n (vartab s) with
  | Some v => view_text (v_flags v) (v_text v)
  | None => absent
  end.

(** [lookupvar] and [bltinlookup] return what the view says. *)

Lemma wf_var_value v : wf_var v -> Some (sdrop (v_name_len v + 1) (v_text v)) = value_part (v_text v).
Proof. intros [-> [w Hw]]. unfold key. by rewrite (sdrop_value _ _ Hw). Qed.

Lemma lookupvar_view s n : wf_tab (vartab s) -> lookupvar n s = a_val (view s n).
Proof.
  intros W. unfold lookupvar, view. destruct (find_var n (vartab s)) as [v|] eqn:E; [|done].
  apply find_var_some in E as [_ Hv]; [|done]. simpl. by rewrite wf_var_value.
Qed.

(** ** The stack of local variables *)

Definition lv_name (lv : localvar) : option string :=
  match lv with LOpt _ => None | LNew n | LOld n _ _ => Some n end.

Definition has_local (n : string) (ls : list localvar) : Prop := Some n ∈ (lv_name <$> ls).

(** Every saved variable is in the table and its structure is kept there by
    VSTRFIXED; the saved text is one of the same variable, and only the oldest entry
    of a variable may lack VSTRFIXED. *)
Fixpoint wf_locals (ls : list localvar) : Prop :=
  match ls with
  | [] => True
  | LOpt _ :: ls => wf_locals ls
  | LNew n :: ls => name_part n = n /\ ~ has_local n ls /\ wf_locals ls
  | LOld n flags text :: ls =>
      name_part text = n /\ is_Some (value_part text) /\
      (has_local n ls -> has flags VSTRFIXED = true) /\ wf_locals ls
  end.

Definition fixed_locals (t : list (list var)) (ls : list localvar) : Prop :=
  forall n, has_local n ls -> exists v, find_var n t = Some v /\ has (v_flags v) VSTRFIXED = true.

Definition inv (s : sh) : Prop :=
  wf_tab (vartab s) /\ wf_locals (localvars s) /\ fixed_locals (vartab s) (localvars s).

Lemma wf_locals_name ls n : wf_locals ls -> has_local n ls -> name_part n = n.
Proof.
  unfold has_local. induction ls as [|lv ls IH]; [by intros _ H%not_elem_of_nil|].
  rewrite fmap_cons, elem_of_cons. destruct lv as [?|m|m fl text]; simpl.
  - intros H [?|?]; [done|auto].
  - intros (Hm & _ & H) [[= ->]|?]; auto.
  - intros (<- & _ & _ & H) [[= ->]|?]; [apply name_part_idem|auto].
Qed.

(** A change of the table that keeps the structures the stack points to. *)
Definition same_others (n : string) (t t' : list (list var)) : Prop :=
  forall m, name_part m <> name_part n -> find_var m t' = find_var m t.

Lemma inv_change s n t' :
  inv s -> wf_tab t' -> same_others n (vartab s) t' ->
  (has_local (name_part n) (localvars s) ->
     exists v, find_var n t' = Some v /\ has (v_flags v) VSTRFIXED = true) ->
  inv (set_vartab t' s).
Proof.
  intros (W & L & F) W' O K. split; [done|]. split; [done|]. intros m Hm. simpl in *.
  destruct (decide (name_part m = name_part n)) as [E|N].
  - rewrite (find_var_same t' m n) by done. apply K.
    rewrite <- E, (wf_locals_name _ _ L Hm). done.
  - rewrite (O m N). auto.
Qed.

Lemma inv_log s e : inv s -> inv (log e s).
Proof. done. Qed.

(** ** Setting *)

Definition same_frame (s s' : sh) : Prop :=
  localvars s' = localvars s /\ forcelocal s' = forcelocal s /\ aflag s' = aflag s /\
  iflag s' = iflag s /\ optval s' = optval s.

(** A computation that only adds to the log. *)
Definition quiet (m : V unit) : Prop :=
  forall s, exists s', m s = (Ok tt, s') /\ vartab s' = vartab s /\ same_frame s s'.

Lemma quiet_ret : quiet (mret tt).
Proof. intros s. by exists s. Qed.

Lemma quiet_log e : quiet (modify (log e)).
Proof. intros s. by exists (log e s). Qed.

Lemma quiet_bind m k : quiet m -> quiet k -> quiet (_ ← m; k).
Proof.
  intros Hm Hk s. destruct (Hm s) as (s1 & E1 & T1 & F1).
  destruct (Hk s1) as (s2 & E2 & T2 & F2). exists s2.
  rewrite (run_bind_ok _ _ _ _ _ E1). split; [done|]. unfold same_frame in *.
  split; [congruence|]. intuition congruence.
Qed.

Lemma quiet_when b m : quiet m -> quiet (mwhen b m).
Proof. destruct b; [done|]. intros _. apply quiet_ret. Qed.

Lemma quiet_run_func v val : quiet (run_func v val).
Proof. unfold run_func. destruct (v_func v); [apply quiet_log|apply quiet_ret]. Qed.

Lemma quiet_relocale text set : quiet (relocale text set).
Proof.
  apply quiet_bind; [|apply quiet_log]. unfold change_env.
  destruct set, (value_part text); apply quiet_log.
Qed.

Create HintDb quiet.
#[export] Hint Resolve quiet_ret quiet_log quiet_when quiet_run_func quiet_relocale : quiet.

Definition flags_of (s : sh) (n : string) : Z :=
  match find_var n (vartab s) with Some v => v_flags v | None => 0 end.

Definition kept_flags (fl : Z) : Z := without fl (Z.lor VTEXTFIXED (Z.lor VSTACK VUNSET)).

(** [text] is stored with the flags [fl], and nothing else changes. *)
Definition stored (s : sh) (text : string) (fl : Z) (s' : sh) : Prop :=
  same_frame s s' /\ inv s' /\ same_others text (vartab s) (vartab s') /\
  exists v, find_var text (vartab s') = Some v /\ v_text v = text /\ v_flags v = fl.

Lemma keeps_text text fl : is_Some (value_part text) -> keeps text (with_flags_text fl text).
Proof.
  intros Hv v [Hl _] Hk. unfold wf_var, key in *. simpl. by rewrite Hl, Hk.
Qed.

Lemma keeps_flags n fl : keeps n (with_flags fl).
Proof. done. Qed.

Lemma fixed_flags s n v :
  inv s -> find_var n (vartab s) = Some v -> has_local (name_part n) (localvars s) ->
  has (v_flags v) VSTRFIXED = true.
Proof.
  intros (W & L & F) E H. destruct (F _ H) as (v' & E' & H').
  rewrite (find_var_same _ (name_part n) n) in E' by apply name_part_idem. congruence.
Qed.

Lemma stored_write s text v fl :
  inv s -> is_Some (value_part text) -> find_var text (vartab s) = Some v ->
  (has (v_flags v) VSTRFIXED = true -> has fl VSTRFIXED = true) ->
  stored s text fl (write_var text (with_flags_text fl text) s).
Proof.
  intros I Hv E Hf. pose proof (keeps_text text fl Hv) as K. pose proof I as (W & _ & _).
  pose proof (find_write _ text _ text W K) as Ft. rewrite decide_True, E in Ft by done.
  split; [done|]. split; [|split].
  - eapply (inv_change s text); [done|by apply wf_write| |].
    + intros m Hm. rewrite find_write by done. by rewrite decide_False.
    + intros H. eexists. split; [exact Ft|]. simpl. eauto using fixed_flags.
  - intros m Hm. simpl. rewrite find_write by done. by rewrite decide_False.
  - eexists. split; [exact Ft|]. done.
Qed.

Lemma stored_link s text fl :
  inv s -> is_Some (value_part text) -> find_var text (vartab s) = None ->
  stored s text fl (link_var text (mkvar fl (String.length (name_part text)) text None None) s).
Proof.
  intros I Hv E. pose proof I as (W & L & F).
  set (v := mkvar _ _ _ _ _).
  assert (wf_var v) as Wv by done.
  pose proof (find_link _ text v text W Wv eq_refl E) as [Wt Ft].
  rewrite decide_True in Ft by done.
  assert (same_others text (vartab s) (on_bucket text (cons v) (vartab s))) as O.
  { intros m Hm. destruct (find_link _ text v m W Wv eq_refl E) as [_ ->].
    by rewrite decide_False. }
  split; [done|]. split; [|split; [done|]].
  - eapply (inv_change s text); [done|done|done|]. intros H. destruct (F _ H) as (v' & E' & _).
    rewrite (find_var_same _ (name_part text) text) in E' by apply name_part_idem. congruence.
  - exists v. done.
Qed.

Lemma stored_quiet s text fl s1 s2 :
  stored s text fl s1 -> vartab s2 = vartab s1 -> same_frame s1 s2 -> stored s text fl s2.
Proof.
  intros (F & (W & L & X) & O & E) Ht F2. unfold stored, inv, same_frame in *.
  destruct F2 as (El & ? & ? & ? & ?), F as (? & ? & ? & ? & ?).
  rewrite Ht, El. split_and!; try congruence; done.
Qed.

Lemma setvareq_nolocal_spec s text fl0 :
  inv s -> is_Some (value_part text) ->
  let fl := if aflag s then Z.lor fl0 VEXPORT else fl0 in
  let old := flags_of s text in
  if has old VREADONLY then setvareq_nolocal text fl0 s = (Ex (IsReadOnly (name_part text)), s)
  else if has fl0 VNOSET then setvareq_nolocal text fl0 s = (Ok tt, s)
  else exists s', setvareq_nolocal text fl0 s = (Ok tt, s') /\
         stored s text (Z.lor (kept_flags old) fl) s'.
Proof.
  intros I Hv fl old. unfold setvareq_nolocal, old, flags_of.
  cbv [get mbind M_bind]. fold fl.
  assert (has fl VNOSET = has fl0 VNOSET) as Hno.
  { unfold fl. destruct (aflag s); [|done]. rewrite has_lor. apply orb_false_r. }
  destruct (find_var text (vartab s)) as [v|] eqn:E.
  - unfold setvareq_found.
    destruct (find_var_some _ _ _ (proj1 I) E) as [Hk [Hl Hvv]].
    destruct (has (v_flags v) VREADONLY) eqn:Hro.
    { unfold leave. rewrite Hl. unfold key. by rewrite stake_name, <- Hk. }
    rewrite Hno. destruct (has fl0 VNOSET) eqn:Hn; [done|].
    set (val := sdrop _ text). fold (kept_flags (v_flags v)).
    set (F := Z.lor (kept_flags (v_flags v)) fl).
    destruct (quiet_when (negb (has fl VNOFUNC)) _ (quiet_run_func v val) s)
      as (s1 & E1 & T1 & F1).
    rewrite (run_bind_ok _ _ _ _ _ E1), run_bind_modify.
    assert (inv s1) as I1.
    { destruct F1 as (L1 & _). unfold inv. by rewrite T1, L1. }
    assert (stored s text F (write_var text (with_flags_text F text) s1)) as S1.
    { assert (stored s1 text F (write_var text (with_flags_text F text) s1)) as (A & B & C & D).
      { eapply stored_write; [done|done|by rewrite T1|]. intros HS. unfold F, kept_flags.
        rewrite has_lor, has_without_keep, HS by done. done. }
      unfold stored, same_frame in *. rewrite T1 in C. split_and!; try done; intuition congruence. }
    set (s2 := write_var _ _ s1) in *.
    cbv [get mbind M_bind]. 
    match goal with |- context [mwhen ?b (modify (log Chkmail))] =>
      destruct (quiet_when b _ (quiet_log Chkmail) s2) as (s3 & E3 & T3 & F3); rewrite E3 end.
    destruct (quiet_when (has F VEXPORT && localevar text) _ (quiet_relocale text true) s3)
      as (s4 & E4 & T4 & F4). rewrite E4.
    exists s4. split; [done|]. eapply stored_quiet; [eapply stored_quiet; [exact S1|..]|..]; done.
  - unfold setvareq_new. change (has 0 VREADONLY) with false. cbv iota. rewrite Hno.
    destruct (has fl0 VNOSET) eqn:Hn; [done|]. rewrite run_bind_modify.
    pose proof (stored_link s text fl I Hv E) as S1. set (s1 := link_var _ _ s) in *.
    destruct (quiet_when (has fl VEXPORT && localevar text) _ (quiet_relocale text true) s1)
      as (s2 & E2 & T2 & F2). exists s2. split; [done|].
    replace (Z.lor (kept_flags 0) fl) with fl by (unfold kept_flags, without; by rewrite Z.ldiff_0_l).
    by eapply stored_quiet.
Qed.

(** ** [setvar] *)

Lemma nameeq_name n val : name_part (nameeq n val) = name_part n.
Proof. unfold nameeq. destruct val; apply name_part_eq, name_part_idem. Qed.

Lemma nameeq_value n val :
  value_part (nameeq n val) = Some (match val with Some v => v | None => "" end).
Proof. unfold nameeq. destruct val; apply value_part_eq, name_part_idem. Qed.

Lemma flags_of_same s m n : name_part m = name_part n -> flags_of s m = flags_of s n.
Proof. intros E. unfold flags_of. by rewrite (find_var_same _ _ _ E). Qed.

Lemma view_readonly s n : a_readonly (view s n) = has (flags_of s n) VREADONLY.
Proof. unfold view, flags_of. by destruct (find_var n (vartab s)). Qed.

Lemma view_export s n : a_export (view s n) = has (flags_of s n) VEXPORT.
Proof. unfold view, flags_of. by destruct (find_var n (vartab s)). Qed.

Lemma same_others_view n s s' m :
  same_others n (vartab s) (vartab s') -> name_part m <> name_part n -> view s' m = view s m.
Proof. intros O Hm. unfold view. by rewrite O. Qed.

Lemma stored_view s text fl s' n :
  stored s text fl s' -> name_part n = name_part text -> view s' n = view_text fl text.
Proof.
  intros (_ & _ & _ & v & E & Ht & Hf) Hn. unfold view.
  by rewrite (find_var_same _ n text), E, Ht, Hf by done.
Qed.

(** The flags [setvar] is given by the builtins and the arithmetic: VEXPORT and
    VREADONLY. *)
Definition attr (export readonly : bool) : Z :=
  Z.lor (if export then VEXPORT else 0) (if readonly then VREADONLY else 0).

Lemma setvareq_eq text fl s :
  forcelocal s = 0 -> setvareq text fl s = setvareq_nolocal text fl s.
Proof. intros H. unfold setvareq. cbv [get mbind M_bind]. by rewrite H. Qed.

(** C27. Setting a variable outside a special command changes exactly that variable:
    a bad name and a read-only variable are errors that change nothing, otherwise the
    variable gets the value (or is unset for a null value), and the attributes given, or
    it had, or [set -a] adds. *)
Theorem setvar_spec s n val ex ro :
  inv s -> forcelocal s = 0 ->
  if negb (goodvar n) then setvar n val (attr ex ro) s = (Ex (BadVariableName n), s)
  else if a_readonly (view s n)
  then setvar n val (attr ex ro) s = (Ex (IsReadOnly (name_part n)), s)
  else exists s', setvar n val (attr ex ro) s = (Ok tt, s') /\ inv s' /\
         view s' n = mkav val (a_export (view s n) || ex || aflag s) ro /\
         (forall m, name_part m <> name_part n -> view s' m = view s m) /\
         same_frame s s'.
Proof.
  intros I Hfl. unfold setvar, setvar_with. destruct (negb (goodvar n)); [done|].
  rewrite setvareq_eq by done.
  pose proof (setvareq_nolocal_spec s (nameeq n val) (setvar_flags val (attr ex ro)) I
    ltac:(rewrite nameeq_value; eauto)) as H. cbv zeta in H.
  rewrite (flags_of_same s _ n (nameeq_name n val)), nameeq_name, <- view_readonly in H.
  destruct (a_readonly (view s n)) eqn:Hro; [done|].
  replace (has (setvar_flags val (attr ex ro)) VNOSET) with false in H
    by (by destruct val, ex, ro).
  destruct H as (s' & E & S). exists s'. split; [done|].
  split; [apply S|]. split; [|split; [|apply S]].
  - rewrite (stored_view _ _ _ _ n S) by (by rewrite nameeq_name).
    unfold view_text. rewrite nameeq_value, view_export. rewrite view_readonly in Hro.
    unfold kept_flags. rewrite !has_lor, (has_without_clear _ _ VUNSET), !has_without_keep by done.
    rewrite Hro. destruct val, ex, ro, (aflag s), (has (flags_of s n) VEXPORT); reflexivity.
  - intros m Hm. eapply same_others_view; [apply S|]. by rewrite nameeq_name.
Qed.

(** ** Unsetting *)

Lemma write_spec s n v f :
  inv s -> keeps n f -> find_var n (vartab s) = Some v ->
  (has (v_flags v) VSTRFIXED = true -> has (v_flags (f v)) VSTRFIXED = true) ->
  inv (write_var n f s) /\ same_others n (vartab s) (vartab (write_var n f s)) /\
  find_var n (vartab (write_var n f s)) = Some (f v).
Proof.
  intros I K E Hf. pose proof I as (W & _ & _).
  assert (same_others n (vartab s) (vartab (write_var n f s))) as O.
  { intros m Hm. simpl. rewrite find_write by done. by rewrite decide_False. }
  assert (find_var n (vartab (write_var n f s)) = Some (f v)) as F.
  { simpl. by rewrite find_write, decide_True, E by done. }
  split_and!; try done. eapply (inv_change s n); try done; [by apply wf_write|].
  intros H. exists (f v). eauto using fixed_flags.
Qed.

Lemma unlink_spec s n v :
  inv s -> find_var n (vartab s) = Some v -> has (v_flags v) VSTRFIXED = false ->
  inv (unlink_var n s) /\ same_others n (vartab s) (vartab (unlink_var n s)) /\
  find_var n (vartab (unlink_var n s)) = None.
Proof.
  intros I E Hf. pose proof I as (W & _ & _).
  assert (same_others n (vartab s) (vartab (unlink_var n s))) as O.
  { intros m Hm. simpl. rewrite find_unlink by done. by rewrite decide_False. }
  split_and!; try done.
  - eapply (inv_change s n); try done.
    + apply wf_on_bucket; auto using wf_bucket_remove.
    + intros H. rewrite (fixed_flags _ _ _ I E H) in Hf. done.
  - simpl. by rewrite find_unlink, decide_True by done.
Qed.

Lemma same_others_trans n t1 t2 t3 :
  same_others n t1 t2 -> same_others n t2 t3 -> same_others n t1 t3.
Proof. intros H1 H2 m Hm. by rewrite H2, H1. Qed.

Lemma same_frame_trans s1 s2 s3 : same_frame s1 s2 -> same_frame s2 s3 -> same_frame s1 s3.
Proof. unfold same_frame. intuition congruence. Qed.

Lemma inv_quiet s s' : inv s -> vartab s' = vartab s -> same_frame s s' -> inv s'.
Proof. intros I Ht (El & _). unfold inv. by rewrite Ht, El. Qed.

Lemma kept_readonly fl : has fl VREADONLY = false -> has (Z.lor (kept_flags fl) 0) VREADONLY = false.
Proof. intros H. unfold kept_flags. by rewrite has_lor, has_without_keep, H. Qed.

(** The second half of [unsetvar], when the value is already empty. *)
Lemma unsetvar_tail s n v :
  inv s -> find_var n (vartab s) = Some v ->
  exists s', ((_ ← mwhen (has (v_flags v) VEXPORT && localevar (v_text v)) (relocale n false);
    let fl := Z.lor (without (v_flags v) VEXPORT) VUNSET in
    _ ← modify (write_var n (with_flags fl));
    _ ← mwhen (negb (has fl VSTRFIXED)) (modify (unlink_var n));
    mret 0) : V Z) s = (Ok 0, s') /\ inv s' /\ same_others n (vartab s) (vartab s') /\
    view s' n = mkav None false (has (v_flags v) VREADONLY && has (v_flags v) VSTRFIXED) /\
    same_frame s s'.
Proof.
  intros I E. destruct (quiet_when (has (v_flags v) VEXPORT && localevar (v_text v)) _
    (quiet_relocale n false) s) as (s1 & E1 & T1 & F1).
  rewrite (run_bind_ok _ _ _ _ _ E1). cbv zeta. rewrite run_bind_modify.
  set (fl := Z.lor _ VUNSET).
  assert (has fl VSTRFIXED = has (v_flags v) VSTRFIXED) as Hs.
  { unfold fl. by rewrite has_lor, has_without_keep, orb_false_r by done. }
  assert (inv s1) as I1 by (eapply inv_quiet; eauto).
  rewrite <- T1 in E.
  destruct (write_spec s1 n v (with_flags fl) I1 (keeps_flags n fl) E) as (I2 & O2 & E2);
    [by intros ?; simpl; rewrite Hs|].
  set (s2 := write_var _ _ s1) in *. rewrite Hs. destruct (has (v_flags v) VSTRFIXED) eqn:Hf.
  - exists s2. split; [done|]. rewrite <- T1. split_and!; [done|done| |done].
    unfold view. rewrite E2. unfold view_text. simpl. unfold fl.
    rewrite !has_lor, (has_without_clear _ _ VEXPORT), !has_without_keep by done.
    rewrite !andb_true_r. destruct (has (v_flags v) VUNSET), (has (v_flags v) VREADONLY); reflexivity.
  - cbn [negb mwhen]. rewrite run_bind_modify.
    destruct (unlink_spec s2 n _ I2 E2) as (I3 & O3 & E3); [done|].
    exists (unlink_var n s2). split; [done|]. rewrite <- T1.
    split_and!; [done|eauto using same_others_trans| |done].
    unfold view. rewrite E3. by rewrite andb_false_r.
Qed.

(** [unset] of a variable: a read-only one is refused with status 1, any other
    loses its value and its attributes, and no other variable changes. *)
Theorem unsetvar_spec s n :
  inv s -> forcelocal s = 0 -> goodvar n = true ->
  if a_readonly (view s n) then unsetvar n s = (Ok 1, s)
  else exists s', unsetvar n s = (Ok 0, s') /\ inv s' /\ view s' n = absent /\
         (forall m, name_part m <> name_part n -> view s' m = view s m) /\
         same_frame s s'.
Proof.
  intros I Hfl Hg. rewrite view_readonly. unfold unsetvar, flags_of.
  cbv [get mbind M_bind]. destruct (find_var n (vartab s)) as [v|] eqn:E.
  2: { change (has 0 VREADONLY) with false. cbv iota. exists s. split_and!; try done.
       unfold view. by rewrite E. }
  destruct (has (v_flags v) VREADONLY) eqn:Hro; [done|].
  destruct (find_var_some _ _ _ (proj1 I) E) as [Hk Hw].
  destruct (bool_decide_reflect (sdrop (v_name_len v + 1) (v_text v) = "")) as [Hempty|Hval].
  - cbn [negb mwhen]. cbv [mret M_ret]. rewrite E.
    destruct (unsetvar_tail s n v I E) as (s' & R & I' & O' & V' & F').
    exists s'. split; [exact R|]. split_and!; try done.
    + by rewrite V', Hro.
    + intros m Hm. by eapply same_others_view.
  - cbn [negb mwhen]. unfold setvar, setvar_with. rewrite Hg. cbn [negb].
    rewrite setvareq_eq by done.
    pose proof (setvareq_nolocal_spec s (nameeq n (Some "")) 0 I
      ltac:(rewrite nameeq_value; eauto)) as H. cbv zeta in H.
    rewrite (flags_of_same s _ n (nameeq_name n _)) in H.
    unfold flags_of in H. rewrite E, Hro in H. change (has 0 VNOSET) with false in H.
    cbv iota in H. destruct H as (s1 & E1 & F1 & I1 & O1 & w & Ew & Tw & Fw).
    cbn [setvar_flags]. rewrite E1.
    rewrite (find_var_same _ _ n (nameeq_name n _)) in Ew. rewrite Ew.
    destruct (unsetvar_tail s1 n w I1 Ew) as (s' & R & I' & O' & V' & F').
    exists s'. split; [exact R|]. split_and!; try done.
    + rewrite V', Fw. destruct (aflag s); unfold kept_flags;
        rewrite !has_lor, !has_without_keep, Hro by done; done.
    + intros m Hm. rewrite (same_others_view n s1 s' m) by done.
      eapply same_others_view; [exact O1|]. by rewrite nameeq_name.
    + eauto using same_frame_trans.
Qed.
