(* ===== verification/ShVarScope.v ===== *)
(** * sh variables: function scopes

    [local] and the return from a function: what [mklocal] saves and
    [poplocalvars] restores, for every run of assignments, [unset], [export],
    [readonly] and [local] in between. *)

From Stdlib Require Import ZArith Lia List Bool String Ascii.
From stdpp Require Import base tactics list numbers strings.
From S2P Require Import Prelude CLib ShVar ShVarFacts.

Local Open Scope string_scope.
Local Open Scope bool_scope.
Local Open Scope Z_scope.

(** The view an entry of the stack puts back. *)
Definition saved_view (lv : localvar) : avar :=
  match lv with
  | LOld _ flags text =>
      if Z.land flags (Z.lor VUNSET VSTRFIXED) =? VUNSET then absent else view_text flags text
  | _ => absent
  end.

(** What [mklocal] saves of the variable [n]: its view, except that the attributes of
    a variable that is unset and has no static structure are not kept. *)
Definition restored (s : sh) (n : string) : avar :=
  match find_var n (vartab s) with
  | Some v =>
      if Z.land (v_flags v) (Z.lor VUNSET VSTRFIXED) =? VUNSET then absent else view s n
  | None => absent
  end.

Lemma has_land fl a b : Z.land fl (Z.lor a b) = a -> Z.land b a = 0 -> a <> 0 -> has fl a = true.
Proof.
  intros H Hd Ha. unfold has. assert (Z.land fl a = a) as ->.
  { apply Z.bits_inj'. intros n Hn.
    apply (f_equal (fun z => Z.testbit z n)) in H. apply (f_equal (fun z => Z.testbit z n)) in Hd.
    rewrite !Z.land_spec, ?Z.lor_spec, ?Z.bits_0 in *.
    by destruct (Z.testbit fl n), (Z.testbit a n), (Z.testbit b n). }
  by destruct (Z.eqb_spec a 0).
Qed.

(** The value is always restored, and so are the attributes of a set variable. *)
Lemma restored_value s n : a_val (restored s n) = a_val (view s n).
Proof.
  unfold restored, view. destruct (find_var n (vartab s)) as [v|]; [|done].
  destruct (Z.eqb_spec (Z.land (v_flags v) (Z.lor VUNSET VSTRFIXED)) VUNSET) as [E|]; [|done].
  unfold view_text. simpl. by rewrite (has_land _ _ _ E).
Qed.

Lemma restored_set s n : is_Some (a_val (view s n)) -> restored s n = view s n.
Proof.
  rewrite <- restored_value. unfold restored. destruct (find_var n (vartab s)); [|by intros [? ?]].
  case_match; [by intros [? ?]|done].
Qed.

(** What returning would leave in [n], whose current view is [cur]. *)
Fixpoint pend (ls : list localvar) (cur : avar) (n : string) : avar :=
  match ls with
  | [] => cur
  | lv :: ls => pend ls (if decide (lv_name lv = Some n) then saved_view lv else cur) n
  end.

Lemma pend_no_local ls cur n : ~ has_local n ls -> pend ls cur n = cur.
Proof.
  unfold has_local. induction ls as [|lv ls IH]; simpl; [done|].
  rewrite elem_of_cons. intros H. rewrite decide_False by (intros E; apply H; by left).
  apply IH. intros Hin. apply H. by right.
Qed.

Lemma pend_local ls a b n : has_local n ls -> pend ls a n = pend ls b n.
Proof.
  unfold has_local. revert a b. induction ls as [|lv ls IH]; intros a b; simpl;
    [by intros H%not_elem_of_nil|].
  rewrite elem_of_cons. intros H. case_decide as E; [done|].
  apply IH. destruct H; [congruence|done].
Qed.

Lemma has_local_cons n lv ls : has_local n (lv :: ls) <-> Some n = lv_name lv \/ has_local n ls.
Proof. unfold has_local. rewrite fmap_cons. apply elem_of_cons. Qed.

#[export] Instance has_local_dec n ls : Decision (has_local n ls).
Proof. unfold has_local. apply _. Defined.

(** ** [mklocal] *)

Lemma hd_name_part n : is_name (hd n) = true -> hd (name_part n) = hd n /\ exists c r, n = String c r /\ c <> "="%char.
Proof.
  destruct n as [|c n]; simpl; [done|]. case_decide as E; [by subst|]. eauto.
Qed.

Lemma in_name_part_idem n : in_name_part (name_part n) = in_name_part n.
Proof.
  induction n as [|c n IH]; simpl; [done|]. case_decide; simpl; [done|].
  case_decide; [done|]. by rewrite IH.
Qed.

Lemma goodvar_name_part n : goodvar (name_part n) = goodvar n.
Proof.
  unfold goodvar. destruct n as [|c n]; simpl; [done|]. case_decide as E; simpl.
  - by subst.
  - by rewrite in_name_part_idem.
Qed.

Lemma goodvar_not_dash n : goodvar n = true -> n <> "-".
Proof. by intros H ->. Qed.

Lemma view_same s m n : name_part m = name_part n -> view s m = view s n.
Proof. intros E. unfold view. by rewrite (find_var_same _ _ _ E). Qed.

Lemma restored_same s m n : name_part m = name_part n -> restored s m = restored s n.
Proof. intros E. unfold restored. by rewrite (find_var_same _ _ _ E), (view_same _ _ _ E). Qed.

Definition linv (s : sh) : Prop :=
  inv s /\ forcelocal s = 0 /\ forall n, has_local n (localvars s) -> goodvar n = true.

(** The stack grew by one entry, which holds what [s] had. *)
Definition pushed (s s' : sh) : Prop :=
  exists lv, localvars s' = lv :: localvars s /\
    forall n, lv_name lv = Some n -> saved_view lv = restored s n /\ goodvar n = true.

Definition pushed_as (n : string) (s s' : sh) : Prop :=
  exists lv, localvars s' = lv :: localvars s /\ lv_name lv = Some (name_part n) /\
    saved_view lv = restored s n /\ goodvar n = true.

Lemma pushed_as_pushed n s s' : pushed_as n s s' -> pushed s s'.
Proof.
  intros (lv & El & Hn & Hs & Hg). exists lv. split; [done|]. intros m Em. simplify_eq.
  rewrite goodvar_name_part, Hs. split; [|done]. apply restored_same. by rewrite name_part_idem.
Qed.

Lemma inv_push s lv :
  inv s -> wf_locals (lv :: localvars s) ->
  (forall n, lv_name lv = Some n ->
     exists v, find_var n (vartab s) = Some v /\ has (v_flags v) VSTRFIXED = true) ->
  inv (set_localvars (lv :: localvars s) s).
Proof.
  intros (W & L & F) L' H. split_and!; [done|done|]. intros n. simpl. rewrite has_local_cons.
  intros [E|Hn]; [by apply H|by apply F].
Qed.

Lemma find_var_name_part n t : find_var (name_part n) t = find_var n t.
Proof. apply find_var_same, name_part_idem. Qed.

(** A local variable that did not exist. *)
Lemma mklocal_new s name :
  linv s -> goodvar name = true -> find_var name (vartab s) = None ->
  exists s', mklocal name s = (Ok tt, s') /\ inv s' /\ pushed_as name s s' /\
    forcelocal s' = forcelocal s /\
    forall m, name_part m <> name_part name -> view s' m = view s m.
Proof.
  intros (I & Hfl & Hgl) Hg E. unfold mklocal.
  rewrite decide_False by (by apply goodvar_not_dash). cbv [get mbind M_bind]. rewrite E.
  set (FL := Z.lor VSTRFIXED VNOLOCAL).
  assert (exists s1 text, (match value_part name with
      | Some _ => setvareq_nolocal name FL
      | None => setvar_with setvareq_nolocal name None FL end) s = (Ok tt, s1) /\
      name_part text = name_part name /\
      exists fl, has fl VSTRFIXED = true /\ stored s text fl s1) as (s1 & text & E1 & Ht & fl & Hf & S).
  { destruct (value_part name) as [w|] eqn:Ev.
    - pose proof (setvareq_nolocal_spec s name FL I ltac:(eauto)) as H. cbv zeta in H.
      unfold flags_of in H. rewrite E in H. change (has 0 VREADONLY) with false in H.
      change (has FL VNOSET) with false in H. cbv iota in H. destruct H as (s1 & E1 & S).
      exists s1, name. split_and!; try done. eexists. split; [|exact S]. by destruct (aflag s).
    - unfold setvar_with. rewrite Hg. cbn [negb].
      pose proof (setvareq_nolocal_spec s (nameeq name None) (setvar_flags None FL) I
        ltac:(rewrite nameeq_value; eauto)) as H. cbv zeta in H.
      unfold flags_of in H. rewrite (find_var_same _ _ name (nameeq_name name _)), E in H.
      change (has 0 VREADONLY) with false in H.
      change (has (setvar_flags None FL) VNOSET) with false in H. cbv iota in H.
      destruct H as (s1 & E1 & S). exists s1, (nameeq name None).
      split_and!; [done|apply nameeq_name|]. eexists. split; [|exact S]. by destruct (aflag s). }
  cbv [mbind M_bind mret M_ret] in *. rewrite E1. cbv [modify].
  destruct S as ((Fl & Ff & Fr) & I1 & O & v & Fv & Tv & Vv). eexists. split; [done|].
  rewrite (find_var_same _ text name) in Fv by done.
  assert (~ has_local (name_part name) (localvars s)) as NL.
  { intros Hh. destruct I as (_ & _ & F). destruct (F _ Hh) as (v' & Ev' & _).
    rewrite find_var_name_part in Ev'. congruence. }
  split_and!.
  - apply inv_push; [done| |].
    + simpl. rewrite Fl. split_and!; [apply name_part_idem|done|apply I].
    + intros n [= <-]. exists v. rewrite find_var_name_part. split; [done|]. by rewrite Vv.
  - exists (LNew (name_part name)). simpl. rewrite Fl. split_and!; try done.
    unfold restored. by rewrite E.
  - done.
  - intros m Hm. apply (same_others_view text s _ m O). by rewrite Ht.
Qed.

(** A local variable that exists: refused only for an assignment to a read-only one. *)
Lemma mklocal_old s name v :
  linv s -> goodvar name = true -> find_var name (vartab s) = Some v ->
  exists r s', mklocal name s = (r, s') /\ inv s' /\
    (r = Ex (IsReadOnly (name_part name)) /\ localvars s' = localvars s \/
     r = Ok tt /\ pushed_as name s s') /\
    forcelocal s' = forcelocal s /\
    forall m, name_part m <> name_part name -> view s' m = view s m.
Proof.
  intros (I & Hfl & Hgl) Hg E. unfold mklocal.
  rewrite decide_False by (by apply goodvar_not_dash). cbv [get mbind M_bind modify]. rewrite E.
  set (fl1 := Z.lor (v_flags v) (Z.lor VSTRFIXED VTEXTFIXED)).
  destruct (write_spec s name v (with_flags fl1) I (keeps_flags name fl1) E) as (I1 & O1 & E1).
  { intros H. simpl. unfold fl1. by rewrite has_lor, H. }
  set (s1 := write_var name _ s) in *.
  destruct (find_var_some _ _ _ (proj1 I) E) as [Hk [Hl Hv]].
  assert (forall s2, inv s2 -> localvars s2 = localvars s -> forcelocal s2 = forcelocal s ->
    (exists v2, find_var name (vartab s2) = Some v2 /\ has (v_flags v2) VSTRFIXED = true) ->
    let s3 := set_localvars (LOld (name_part name) (v_flags v) (v_text v) :: localvars s2) s2 in
    inv s3 /\ pushed_as name s s3) as Push.
  { intros s2 I2 L2 F2 (v2 & E2 & H2). cbv zeta. split.
    - apply inv_push; [done| |].
      + simpl. split_and!; [exact Hk|exact Hv| |apply I2]. rewrite L2. intros Hh.
        exact (fixed_flags s name v I E Hh).
      + intros n [= <-]. exists v2. by rewrite find_var_name_part.
    - eexists. simpl. rewrite L2. split_and!; [done..| |done]. simpl.
      unfold restored, view. by rewrite E. }
  destruct (value_part name) as [w|] eqn:Ev.
  - pose proof (setvareq_nolocal_spec s1 name VNOLOCAL I1 ltac:(eauto)) as H. cbv zeta in H.
    destruct (has (flags_of s1 name) VREADONLY).
    { rewrite H. do 2 eexists. split; [done|]. split_and!; [done|by left|done|].
      intros m Hm. by eapply same_others_view. }
    change (has VNOLOCAL VNOSET) with false in H. cbv iota in H.
    destruct H as (s2 & E2 & (Fl & Ff & Fr) & I2 & O2 & v2 & Ev2 & Tv2 & Fv2). rewrite E2.
    cbv [mret M_ret]. do 2 eexists. split; [done|].
    destruct (Push s2 I2 Fl Ff) as [I3 P3].
    { exists v2. split; [done|]. rewrite Fv2. unfold flags_of. rewrite E1. unfold kept_flags.
      rewrite has_lor, has_without_keep by done. cbn [v_flags with_flags]. unfold fl1.
      rewrite has_lor. by destruct (has (v_flags v) VSTRFIXED). }
    split_and!; [done|by right|done|]. intros m Hm.
    rewrite <- (same_others_view name s s1 m O1 Hm). by apply (same_others_view name).
  - cbv [mret M_ret]. do 2 eexists. split; [done|].
    destruct (Push s1 I1 eq_refl eq_refl) as [I3 P3].
    { eexists. split; [exact E1|]. simpl. unfold fl1. rewrite has_lor.
      by destruct (has (v_flags v) VSTRFIXED). }
    split_and!; [done|by right|done|]. intros m Hm. by apply (same_others_view name).
Qed.

(** ** [poplocalvars] *)

Lemma linv_tail s lv ls :
  inv s -> localvars s = lv :: ls -> inv (set_localvars ls s).
Proof.
  intros (W & L & F) E. rewrite E in L, F. split_and!; [done| |].
  - simpl. destruct lv; simpl in L; try apply L; done.
  - intros n Hn. apply F. apply has_local_cons. by right.
Qed.

(** The entry [lv] whose variable is [n] is undone by unsetting it. *)
Lemma pop_unset s n v :
  inv s -> forcelocal s = 0 -> goodvar n = true -> find_var n (vartab s) = Some v ->
  exists s', ((_ ← modify (write_var n (fun v => with_flags (without (v_flags v) VREADONLY) v));
     _ ← unsetvar n; mret tt) : V unit) s = (Ok tt, s') /\ inv s' /\ view s' n = absent /\
    (forall m, name_part m <> name_part n -> view s' m = view s m) /\ same_frame s s'.
Proof.
  intros I Hfl Hg E. rewrite run_bind_modify.
  set (f := fun v : var => _).
  assert (keeps n f) as K by done.
  destruct (write_spec s n v f I K E) as (I1 & O1 & E1).
  { intros H. simpl. by rewrite has_without_keep. }
  set (s1 := write_var n f s) in *.
  pose proof (unsetvar_spec s1 n I1 Hfl Hg) as H. rewrite view_readonly in H.
  unfold flags_of in H. rewrite E1 in H. simpl in H. rewrite has_without_clear in H by done.
  destruct H as (s' & R & I' & V' & O' & F'). exists s'.
  rewrite (run_bind_ok _ _ _ _ _ R). split_and!; try done.
  intros m Hm. rewrite O' by done. by apply (same_others_view n).
Qed.

Lemma poplocal_spec s lv ls :
  linv s -> localvars s = lv :: ls ->
  exists s', poplocal lv (set_localvars ls s) = (Ok tt, s') /\ linv s' /\ localvars s' = ls /\
    forall m, name_part m = m ->
      view s' m = if decide (lv_name lv = Some m) then saved_view lv else view s m.
Proof.
  intros (I & Hfl & Hgl) El. pose proof (linv_tail s lv ls I El) as I0.
  set (s0 := set_localvars ls s) in *.
  assert (forall n, has_local n ls -> goodvar n = true) as Hgl'.
  { intros n Hn. apply Hgl. rewrite El. apply has_local_cons. by right. }
  assert (forall n, lv_name lv = Some n -> name_part n = n /\ goodvar n = true /\
    exists v, find_var n (vartab s0) = Some v /\ has (v_flags v) VSTRFIXED = true) as Hn.
  { intros n En. assert (has_local n (localvars s)) as Hl
      by (rewrite El; apply has_local_cons; by left). split_and!.
    - eapply wf_locals_name; [apply I|done].
    - by apply Hgl.
    - by apply I. }
  assert (forall n s', lv_name lv = Some n -> inv s' -> view s' n = absent ->
    (forall m, name_part m <> name_part n -> view s' m = view s0 m) -> same_frame s0 s' ->
    saved_view lv = absent ->
    linv s' /\ localvars s' = ls /\ forall m, name_part m = m ->
      view s' m = if decide (lv_name lv = Some m) then saved_view lv else view s m) as Done.
  { intros n s' En I' V' O' (Fl & Ff & _) Hs. unfold linv. rewrite Fl, Ff.
    split_and!; try done. intros m Hm. destruct (decide (lv_name lv = Some m)) as [Em|Nm].
    - rewrite Hs. by simplify_eq.
    - apply O'. rewrite Hm. destruct (Hn n En) as [-> _]. congruence. }
  destruct lv as [text|n|n flags text]; simpl.
  - exists (log OptsChanged (set_optval text s0)). split_and!; try done.
  - destruct (Hn n eq_refl) as (Hnn & Hg & v & E & Hv).
    destruct (pop_unset s0 n v I0 Hfl Hg E) as (s' & R & I' & V' & O' & F').
    exists s'. split; [exact R|]. eapply Done; eauto.
  - destruct (Hn n eq_refl) as (Hnn & Hg & v & E & Hv).
    destruct (Z.eqb_spec (Z.land flags (Z.lor VUNSET VSTRFIXED)) VUNSET) as [Ef|Nf].
    { destruct (pop_unset s0 n v I0 Hfl Hg E) as (s' & R & I' & V' & O' & F').
      exists s'. split; [exact R|].
      pose proof (Done n s' eq_refl I' V' O' F') as D. simpl in D. rewrite Ef in D. by apply D. }
    cbv [get]. rewrite run_bind_ok with (a := s0) (s' := s0) by done. rewrite E.
    rewrite run_bind_modify.
    destruct I as (W & L & F). rewrite El in L. destruct L as (Ht & Hvt & Hfx & L).
    assert (keeps n (with_flags_text flags text)) as K.
    { intros w [Hl Hw] Hk. unfold wf_var, key in *. simpl. rewrite Hl, Hk, Ht, Hnn. done. }
    assert (find_var n (vartab (write_var n (with_flags_text flags text) s0)) =
            Some (with_flags_text flags text v)) as E1.
    { simpl. rewrite find_write by done. rewrite decide_True by done. simpl in E. by rewrite E. }
    assert (same_others n (vartab s0) (vartab (write_var n (with_flags_text flags text) s0))) as O1.
    { intros m Hm. simpl. rewrite find_write by done. by rewrite decide_False. }
    assert (inv (write_var n (with_flags_text flags text) s0)) as I1.
    { eapply (inv_change s0 n); [done|by apply wf_write|done|].
      intros Hh. rewrite Hnn in Hh. eexists. split; [exact E1|]. simpl. by apply Hfx. }
    set (s1 := write_var _ _ s0) in *.
    set (b := has (Z.lor (v_flags v) flags) VEXPORT && localevar text).
    destruct (quiet_bind _ _ (quiet_run_func v (sdrop (v_name_len v + 1) text))
      (quiet_when b _ (quiet_relocale text (has flags VEXPORT && negb (has flags VUNSET)))) s1)
      as (s2 & R & T2 & F2).
    exists s2. split; [exact R|]. assert (inv s2) as I2 by (eapply inv_quiet; eauto).
    destruct F2 as (Fl & Ff & _). unfold linv. rewrite Fl, Ff. split_and!; try done.
    intros m Hm. unfold view. rewrite T2. destruct (decide (Some n = Some m)) as [Em|Nm].
    + injection Em as <-. rewrite E1. done.
    + rewrite O1 by congruence. done.
Qed.

Lemma poplocals_spec ls s :
  linv s -> localvars s = ls ->
  exists s', poplocals ls s = (Ok tt, s') /\ linv s' /\ localvars s' = [] /\
    forall m, name_part m = m -> view s' m = pend ls (view s m) m.
Proof.
  revert s. induction ls as [|lv ls IH]; intros s L E.
  - exists s. by split_and!.
  - destruct (poplocal_spec s lv ls L E) as (s1 & R1 & L1 & E1 & V1).
    destruct (IH s1 L1 E1) as (s2 & R2 & L2 & E2 & V2).
    exists s2. cbn [poplocals]. rewrite run_bind_modify, (run_bind_ok _ _ _ _ _ R1).
    split_and!; try done. intros m Hm. rewrite V2, V1 by done. done.
Qed.

(** ** Function bodies *)

(** What a function body does to variables. *)
Inductive fop :=
  | FSet (n v : string)
  | FUnset (n : string)
  | FExport (n : string)
  | FReadonly (n : string)
  | FLocal (n : string).

Definition run_fop (o : fop) : V unit :=
  match o with
  | FSet n v => setvar n (Some v) 0
  | FUnset n => _ ← unsetvar n; mret tt
  | FExport n => export_one VEXPORT n
  | FReadonly n => export_one VREADONLY n
  | FLocal n => mklocal n
  end.

Fixpoint run_fops (os : list fop) : V unit :=
  match os with
  | [] => mret tt
  | o :: os => _ ← run_fop o; run_fops os
  end.

Definition fop_good (o : fop) : bool :=
  match o with
  | FSet n _ | FUnset n | FExport n | FReadonly n => goodvar n
  | FLocal n => bool_decide (n = "-") || goodvar n
  end.

Lemma linv_frame s s' : linv s -> inv s' -> same_frame s s' -> linv s'.
Proof. intros (_ & Hfl & Hg) I (El & Ef & _). unfold linv. by rewrite El, Ef. Qed.

Lemma linv_pushed s s' :
  linv s -> inv s' -> forcelocal s' = forcelocal s -> pushed s s' -> linv s'.
Proof.
  intros (_ & Hfl & Hg) I Ef (lv & El & Hlv). split_and!; [done|congruence|].
  rewrite El. intros n [E|Hn]%has_local_cons; [by apply Hlv|by apply Hg].
Qed.

Lemma export_one_spec s flag n :
  linv s -> goodvar n = true -> flag = VEXPORT \/ flag = VREADONLY ->
  exists r s', export_one flag n s = (r, s') /\ inv s' /\ same_frame s s'.
Proof.
  intros L Hg Hflag. pose proof L as (I & Hfl & _). unfold export_one. cbv [get mbind M_bind].
  assert (forall p, exists r s', setvar n p flag s = (r, s') /\ inv s' /\ same_frame s s') as Hset.
  { intros p. pose proof (setvar_spec s n p (bool_decide (flag = VEXPORT))
      (bool_decide (flag = VREADONLY)) I Hfl) as H.
    assert (attr (bool_decide (flag = VEXPORT)) (bool_decide (flag = VREADONLY)) = flag) as Ea
      by (destruct Hflag; subst; reflexivity).
    rewrite Ea, Hg in H. cbn [negb] in H. destruct (a_readonly (view s n)).
    - rewrite H. by do 2 eexists.
    - destruct H as (s' & -> & I' & _ & _ & F'). by do 2 eexists. }
  destruct (value_part n) as [w|] eqn:Ev; [apply Hset|].
  destruct (find_var n (vartab s)) as [v|] eqn:E; [|apply Hset].
  set (fl := Z.lor (v_flags v) flag).
  destruct (write_spec s n v (with_flags fl) I (keeps_flags n fl) E) as (I1 & _ & _).
  { intros H. simpl. unfold fl. by rewrite has_lor, H. }
  cbv [modify]. set (s1 := write_var _ _ s) in *.
  destruct (quiet_when (has fl VEXPORT && localevar (v_text v)) _
    (quiet_relocale (v_text v) true) s1) as (s2 & E2 & T2 & F2).
  do 2 eexists. split; [exact E2|]. split; [by eapply inv_quiet|]. done.
Qed.

Lemma run_fop_spec s o :
  linv s -> fop_good o = true ->
  exists r s', run_fop o s = (r, s') /\ linv s' /\ (localvars s' = localvars s \/ pushed s s').
Proof.
  intros L Hg. pose proof L as (I & Hfl & _). destruct o as [n v|n|n|n|n]; simpl in *.
  - pose proof (setvar_spec s n (Some v) false false I Hfl) as H. rewrite Hg in H. cbn [negb] in H.
    change (attr false false) with 0 in H. destruct (a_readonly (view s n)).
    + do 2 eexists. split; [exact H|]. by split; [|left].
    + destruct H as (s' & E & I' & _ & _ & F'). do 2 eexists. split; [exact E|].
      split; [by eapply linv_frame|]. left. apply F'.
  - pose proof (unsetvar_spec s n I Hfl Hg) as H. destruct (a_readonly (view s n)).
    + rewrite (run_bind_ok _ _ _ _ _ H). do 2 eexists. split; [done|]. by split; [|left].
    + destruct H as (s' & E & I' & _ & _ & F'). rewrite (run_bind_ok _ _ _ _ _ E).
      do 2 eexists. split; [done|]. split; [by eapply linv_frame|]. left. apply F'.
  - destruct (export_one_spec s VEXPORT n L Hg) as (r & s' & E & I' & F'); [by left|].
    do 2 eexists. split; [exact E|]. split; [by eapply linv_frame|]. left. apply F'.
  - destruct (export_one_spec s VREADONLY n L Hg) as (r & s' & E & I' & F'); [by right|].
    do 2 eexists. split; [exact E|]. split; [by eapply linv_frame|]. left. apply F'.
  - destruct (bool_decide_reflect (n = "-")) as [->|Hd].
    + do 2 eexists. split; [done|]. assert (pushed s (set_localvars (LOpt (optval s) :: localvars s) s))
        as P by (eexists; split; [done|]; done). split; [|by right].
      eapply linv_pushed; try done. apply inv_push; [done|apply I|done].
    + simpl in Hg. destruct (find_var n (vartab s)) as [v|] eqn:E.
      * destruct (mklocal_old s n v L Hg E) as (r & s' & R & I' & Hr & Hf & O').
        do 2 eexists. split; [exact R|]. destruct Hr as [(-> & El)|(-> & P)].
        -- split; [|by left]. unfold linv. rewrite El, Hf. split_and!; [done|apply L..].
        -- apply pushed_as_pushed in P. split; [|by right]. by eapply linv_pushed.
      * destruct (mklocal_new s n L Hg E) as (s' & R & I' & P%pushed_as_pushed & Hf & O').
        do 2 eexists. split; [exact R|]. split; [|by right]. by eapply linv_pushed.
Qed.

Lemma mklocal_ok s n s' :
  linv s -> goodvar n = true -> mklocal n s = (Ok tt, s') -> linv s' /\ pushed_as n s s'.
Proof.
  intros L Hg R. destruct (find_var n (vartab s)) as [v|] eqn:E.
  - destruct (mklocal_old s n v L Hg E) as (r & s1 & R' & I' & Hr & Hf & _).
    rewrite R in R'. simplify_eq. destruct Hr as [[? _]|[_ P]]; [done|].
    split; [|done]. eapply linv_pushed; eauto using pushed_as_pushed.
  - destruct (mklocal_new s n L Hg E) as (s1 & R' & I' & P & Hf & _).
    rewrite R in R'. simplify_eq. split; [|done].
    eapply linv_pushed; eauto using pushed_as_pushed.
Qed.

Lemma pend_step s s' n a b :
  linv s' -> (localvars s' = localvars s \/ pushed s s') -> has_local n (localvars s) ->
  pend (localvars s') a n = pend (localvars s) b n.
Proof.
  intros _ [->|(lv & -> & Hlv)] Hn; [by apply pend_local|]. simpl. by apply pend_local.
Qed.

Lemma run_fops_spec os s :
  linv s -> Forall (fun o => fop_good o = true) os ->
  exists r s', run_fops os s = (r, s') /\ linv s' /\
    forall n, has_local n (localvars s) ->
      has_local n (localvars s') /\ forall a b, pend (localvars s') a n = pend (localvars s) b n.
Proof.
  intros L H. revert s L. induction H as [|o os Ho _ IH]; intros s L.
  - do 2 eexists. split; [done|]. split; [done|]. intros n Hn. split; [done|].
    intros. by apply pend_local.
  - destruct (run_fop_spec s o L Ho) as (r & s1 & E1 & L1 & P1).
    assert (forall n, has_local n (localvars s) -> has_local n (localvars s1) /\
      forall a b, pend (localvars s1) a n = pend (localvars s) b n) as Q1.
    { intros n Hn. split; [|intros; by eapply pend_step].
      destruct P1 as [->|(lv & -> & _)]; [done|]. apply has_local_cons. by right. }
    cbn [run_fops]. destruct r as [[]|e].
    + rewrite (run_bind_ok _ _ _ _ _ E1). destruct (IH s1 L1) as (r & s2 & E2 & L2 & Q2).
      do 2 eexists. split; [exact E2|]. split; [done|]. intros n Hn.
      destruct (Q1 n Hn) as [H1 P]. destruct (Q2 n H1) as [H2 P2]. split; [done|].
      intros a b. by rewrite (P2 a b), (P b b).
    + rewrite (run_bind_ex _ _ _ _ _ E1). do 2 eexists. split; [done|]. by split.
Qed.

(** The variable is one of the shell's own, whose structure is never freed. *)
Definition static (s : sh) (n : string) : bool :=
  match find_var n (vartab s) with Some v => has (v_flags v) VSTRFIXED | None => false end.

(** Nothing is lost of a variable that is set, that does not exist or that is static. *)
Lemma restored_kept s n :
  is_Some (a_val (view s n)) \/ view s n = absent \/ static s n = true -> restored s n = view s n.
Proof.
  intros [H|[H|H]]; [by apply restored_set| |]; unfold restored, static in *.
  - rewrite H. destruct (find_var n (vartab s)); [by case_match|done].
  - destruct (find_var n (vartab s)) as [v|]; [|done].
    destruct (Z.eqb_spec (Z.land (v_flags v) (Z.lor VUNSET VSTRFIXED)) VUNSET) as [E|]; [|done].
    apply (f_equal (fun z => Z.land z VSTRFIXED)) in E. rewrite <- Z.land_assoc in E.
    unfold has in H. change (Z.land (Z.lor VUNSET VSTRFIXED) VSTRFIXED) with VSTRFIXED in E.
    rewrite E in H. done.
Qed.

(** C12. A function's local variables: whatever assignments, [unset], [export],
    [readonly] and [local] the body performs, and whether it returns or is left through
    an error, [poplocalvars] succeeds and leaves every variable that was not made local
    as the body left it; a variable the body makes local is set again to the value, or unset
    again, as just before the first [local], and it gets back its attributes when it was set,
    did not exist or is static (of another that was exported or readonly without a value they
    are lost). *)
Theorem local_scope s body r s' :
  linv s -> localvars s = [] -> Forall (fun o => fop_good o = true) body ->
  run_fops body s = (r, s') ->
  exists s'', poplocalvars s' = (Ok tt, s'') /\ inv s'' /\ localvars s'' = [] /\
    (forall n, ~ has_local (name_part n) (localvars s') -> view s'' n = view s' n) /\
    (forall body1 body2 n s1 s2, body = (body1 ++ FLocal n :: body2)%list ->
       run_fops body1 s = (Ok tt, s1) -> ~ has_local (name_part n) (localvars s1) ->
       mklocal n s1 = (Ok tt, s2) -> n <> "-" ->
       a_val (view s'' n) = a_val (view s1 n) /\
       (is_Some (a_val (view s1 n)) \/ view s1 n = absent \/ static s1 n = true ->
        view s'' n = view s1 n)).
Proof.
  intros L El Hg R. destruct (run_fops_spec body s L Hg) as (r' & s0 & R' & L' & _).
  rewrite R in R'. injection R' as <- <-. destruct (poplocals_spec _ s' L' eq_refl) as (s'' & P & L'' & E'' & V).
  assert (forall n, view s'' n = pend (localvars s') (view s' (name_part n)) (name_part n)) as V'.
  { intros n. rewrite <- (V (name_part n)) by apply name_part_idem.
    apply view_same. by rewrite name_part_idem. }
  exists s''. split; [exact P|]. split; [apply L''|]. split; [done|]. split.
  - intros n Hn. rewrite V', pend_no_local by done. apply view_same, name_part_idem.
  - intros body1 body2 n s1 s2 -> R1 Hn R2 Hd. apply Forall_app in Hg as [Hg1 Hg2].
    inv Hg2. destruct (run_fops_spec body1 s L Hg1) as (r1 & s1' & R1' & L1 & _).
    rewrite R1 in R1'. simplify_eq.
    assert (Hgn : fop_good (FLocal n) = true) by done. simpl in Hgn.
    rewrite bool_decide_eq_false_2 in Hgn by done. simpl in Hgn.
    destruct (mklocal_ok s1' n s2 L1 Hgn R2) as (L2 & lv & Elv & Hlv & Hsv & _).
    assert (run_fops (body1 ++ FLocal n :: body2)%list s = run_fops body2 s2) as E2.
    { clear -R1 R2. revert s R1. induction body1 as [|o os IH]; intros s; cbn [run_fops app].
      - intros [= ->]. cbn [run_fop]. by rewrite (run_bind_ok _ _ _ _ _ R2).
      - cbv [mbind M_bind]. destruct (run_fop o s) as [[[]|e] s3]; [apply IH|done]. }
    rewrite E2 in R. destruct (run_fops_spec body2 s2 L2 ltac:(done)) as (r3 & s3 & R3 & _ & Q).
    rewrite R in R3. simplify_eq.
    destruct (Q (name_part n)) as [_ Q']; [rewrite Elv; apply has_local_cons; by left|].
    assert (view s'' n = restored s1' n) as Hr.
    { rewrite V', (Q' _ absent), Elv. cbn [pend]. rewrite decide_True by done.
      by rewrite pend_no_local, Hsv by done. }
    rewrite Hr, restored_value. split; [done|]. apply restored_kept.
Qed.

(** ** The environment *)

Lemma wf_find_elem t v :
  wf_tab t -> (exists b, b ∈ t /\ v ∈ b) <-> find_var (key v) t = Some v.
Proof.
  intros W. pose proof W as [Hl Hb]. rewrite find_var_key by done. unfold key at 1.
  rewrite name_part_idem. fold (key v). split.
  - intros (b & Hb1 & Hv). apply list_elem_of_lookup in Hb1 as [i Hi].
    pose proof (Hb i b Hi) as [Hn HF]. pose proof (proj1 (Forall_forall _ _) HF v Hv) as [_ Ei].
    rewrite Ei, (nth_lookup_Some _ _ _ _ Hi). clear -Hn Hv. unfold find_key.
    induction b as [|w b IH]; [by apply not_elem_of_nil in Hv|]. rewrite fmap_cons in Hn.
    apply NoDup_cons in Hn as [Hw Hn]. simpl. case_bool_decide as E.
    + apply elem_of_cons in Hv as [->|Hv]; [done|]. exfalso. apply Hw. rewrite E.
      by apply list_elem_of_fmap_2.
    + apply elem_of_cons in Hv as [->|Hv]; [done|]. by apply IH.
  - intros H. apply find_key_some in H as [_ H]. eexists. split; [|exact H].
    apply list_elem_of_lookup. exists (bucket_of (key v)). apply lookup_nth.
    rewrite Hl. apply bucket_of_bound.
Qed.

(** The environment of a command holds exactly the texts of the exported variables:
    a text [name=value] is in it if and only if the variable of that name has that text
    and is exported. *)
Theorem environment_exported s text :
  inv s ->
  text ∈ environment s <->
  exists v, find_var text (vartab s) = Some v /\ v_text v = text /\
    a_export (view s text) = true.
Proof.
  intros (W & _ & _). unfold environment. split.
  - intros H. apply list_elem_of_In, in_flat_map in H as (b & Hb & H).
    apply in_flat_map in H as (v & Hv & H). destruct (has (v_flags v) VEXPORT) eqn:E; [|done].
    simpl in H. destruct H as [<-|[]].
    assert (find_var (key v) (vartab s) = Some v) as F.
    { apply wf_find_elem; [done|]. exists b. by rewrite !list_elem_of_In. }
    unfold key in F. rewrite find_var_name_part in F. exists v. unfold view. by rewrite F.
  - intros (v & F & <- & E). unfold view in E. rewrite F in E. simpl in E.
    assert (find_var (key v) (vartab s) = Some v) as F'.
    { unfold key. by rewrite find_var_name_part. }
    apply wf_find_elem in F' as (b & Hb & Hv); [|done].
    apply list_elem_of_In, in_flat_map. exists b. split; [by apply list_elem_of_In|].
    apply in_flat_map. exists v. split; [by apply list_elem_of_In|]. rewrite E. by left.
Qed.

(** ** Initialisation *)

Lemma init_static_wf t i :
  wf_tab t -> is_Some (value_part (i.1.2)) -> wf_tab (init_static t i).
Proof.
  destruct i as [[[id fl] text] func]. simpl. intros W Hv.
  destruct (find_var text t) eqn:E; [done|]. by apply find_link.
Qed.

Lemma varinit_wf defpath t :
  wf_tab t -> wf_tab (init_ps1 501 (foldl init_static t (varinit defpath))).
Proof.
  intros W. unfold init_ps1. apply init_static_wf; [|done].
  assert (Forall (fun i : svar * Z * string * option vfunc => is_Some (value_part i.1.2))
    (varinit defpath)) as H.
  { unfold varinit. repeat constructor; simpl; eauto. }
  revert t W. induction H; intros t W; simpl; [done|]. auto using init_static_wf.
Qed.

Lemma setvareq_linv s text fl :
  linv s -> localvars s = [] -> is_Some (value_part text) ->
  exists r s', setvareq text fl s = (r, s') /\ linv s' /\ localvars s' = [].
Proof.
  intros L El Hv. pose proof L as (I & Hfl & _). rewrite setvareq_eq by done.
  pose proof (setvareq_nolocal_spec s text fl I Hv) as H. cbv zeta in H.
  destruct (has _ VREADONLY); [by do 2 eexists|]. destruct (has fl VNOSET); [by do 2 eexists|].
  destruct H as (s' & E & F & I' & _). do 2 eexists. split; [exact E|].
  split; [by eapply linv_frame|]. destruct F as [-> _]. done.
Qed.

Lemma sh_init_linv : linv sh_init.
Proof.
  split_and!; [|done|].
  - split_and!; [split; [done|]|done|].
    + intros i b H. change (vartab sh_init) with (replicate VTABSIZE ([] : list var)) in H.
      apply lookup_replicate in H as [-> _]. split; constructor.
    + intros n H. by apply not_elem_of_nil in H.
  - intros n H. by apply not_elem_of_nil in H.
Qed.

Lemma import_environ_linv environ s :
  linv s -> localvars s = [] ->
  exists r s', import_environ environ s = (r, s') /\ linv s' /\ localvars s' = [].
Proof.
  revert s. induction environ as [|e environ IH]; intros s L El; [by do 2 eexists|].
  cbn [import_environ]. destruct (value_part e) as [w|] eqn:Ev; [|by apply IH].
  destruct (setvareq_linv s e (Z.lor VEXPORT VTEXTFIXED) L El ltac:(eauto))
    as ([[]|x] & s1 & E1 & L1 & El1).
  - rewrite (run_bind_ok _ _ _ _ _ E1). by apply IH.
  - rewrite (run_bind_ex _ _ _ _ _ E1). by do 2 eexists.
Qed.

(** A started shell satisfies the invariant, whatever its environment. *)
Lemma sh_start_linv environ : linv (sh_start environ) /\ localvars (sh_start environ) = [].
Proof.
  unfold sh_start, initvar. rewrite run_bind_modify. set (s0 := set_vartab _ _).
  assert (linv s0) as L0.
  { destruct sh_init_linv as ((W & L & F) & Hfl & Hg). split; [split; [|split]|split].
    - apply varinit_wf. exact W.
    - exact L.
    - intros n H. by apply not_elem_of_nil in H.
    - exact Hfl.
    - intros n H. by apply not_elem_of_nil in H. }
  assert (localvars s0 = []) as E0 by done.
  clearbody s0.
  assert (exists z s1, setvarsafe "PPID" (Some "1") 0 s0 = (Ok z, s1) /\ linv s1 /\ localvars s1 = [])
    as (z & s1 & R1 & L1 & E1).
  { unfold setvarsafe, setvar, setvar_with. cbn [negb goodvar].
    destruct (setvareq_linv s0 (nameeq "PPID" (Some "1")) 0 L0 E0) as (r & s1 & R & L1 & E1);
      [rewrite nameeq_value; eauto|].
    change (negb (goodvar "PPID")) with false. cbv iota. unfold setvar_flags.
    rewrite R. destruct r; eauto. }
  rewrite (run_bind_ok _ _ _ _ _ R1).
  destruct (import_environ_linv environ s1 L1 E1) as ([[]|x] & s2 & R2 & L2 & E2);
    [|rewrite (run_bind_ex _ _ _ _ _ R2); exact (conj L2 E2)].
  rewrite (run_bind_ok _ _ _ _ _ R2).
  destruct (setvareq_linv s2 "OPTIND=1" VTEXTFIXED L2 E2 ltac:(by eexists))
    as ([[]|x] & s3 & R3 & L3 & E3); [|rewrite (run_bind_ex _ _ _ _ _ R3); exact (conj L3 E3)].
  rewrite (run_bind_ok _ _ _ _ _ R3).
  destruct (setvareq_linv s3 ("IFS= " +:+ String TAB (String LF "")) VTEXTFIXED L3 E3 ltac:(by eexists))
    as (r & s4 & R4 & L4 & E4). rewrite R4. exact (conj L4 E4).
Qed.

(** ** Examples *)

Definition st0 : sh := sh_start ["x=1"; "HOME=/root"].

Definition body0 : list fop := [FLocal "x"; FSet "x" "2"; FLocal "y=3"; FSet "z" "4"; FUnset "x"].

Example body0_runs :
  let s := (run_fops body0 st0).2 in
  let s' := (poplocalvars s).2 in
  (lookupvar "x" s, lookupvar "y" s, lookupvar "x" s', lookupvar "y" s', lookupvar "z" s') =
  (None, Some "3", Some "1", None, Some "4").
Proof. by vm_compute. Qed.

Lemma local_scope_witness :
  exists s'', poplocalvars (run_fops body0 st0).2 = (Ok tt, s'') /\
    view s'' "x" = mkav (Some "1") true false.
Proof.
  destruct (sh_start_linv ["x=1"; "HOME=/root"]) as [L E].
  destruct (local_scope st0 body0 (Ok tt) (run_fops body0 st0).2 L E) as (s'' & P & _ & _ & _ & H).
  - repeat constructor.
  - vm_compute. reflexivity.
  - exists s''. split; [exact P|].
    destruct (H [] [FSet "x" "2"; FLocal "y=3"; FSet "z" "4"; FUnset "x"] "x" st0
      (mklocal "x" st0).2) as [_ Hx].
    + reflexivity.
    + reflexivity.
    + unfold st0; rewrite E. apply not_elem_of_nil.
    + vm_compute. reflexivity.
    + done.
    + rewrite Hx; [vm_compute; reflexivity|]. left. exists "1". vm_compute. reflexivity.
Defined.

Lemma setvar_spec_witness :
  exists s', setvar "x" (Some "5") (attr true false) st0 = (Ok tt, s') /\
    view s' "x" = mkav (Some "5") true false.
Proof.
  destruct (sh_start_linv ["x=1"; "HOME=/root"]) as [(I & F & _) E].
  pose proof (setvar_spec st0 "x" (Some "5") true false I F) as H.
  assert (view st0 "x" = mkav (Some "1") true false) as E1 by (vm_compute; reflexivity).
  assert (goodvar "x" = true) as E2 by reflexivity.
  rewrite E2, E1 in H. cbn [negb a_readonly a_export orb] in H.
  destruct H as (s' & R & _ & V & _). exists s'. exact (conj R V).
Defined.

Lemma unsetvar_spec_witness :
  exists s', unsetvar "x" st0 = (Ok 0, s') /\ view s' "x" = absent.
Proof.
  destruct (sh_start_linv ["x=1"; "HOME=/root"]) as [(I & F & _) E].
  pose proof (unsetvar_spec st0 "x" I F eq_refl) as H.
  assert (view st0 "x" = mkav (Some "1") true false) as E1 by (vm_compute; reflexivity).
  rewrite E1 in H. cbn [a_readonly] in H.
  destruct H as (s' & R & _ & V & _). exists s'. exact (conj R V).
Defined.

Lemma environment_exported_witness : "x=1" ∈ environment st0.
Proof.
  destruct (sh_start_linv ["x=1"; "HOME=/root"]) as [(I & F & _) E].
  apply (environment_exported st0 "x=1" I).
  destruct (find_var "x=1" (vartab st0)) as [v|] eqn:Ev; [|by vm_compute in Ev].
  exists v. vm_compute in Ev. injection Ev as <-. vm_compute. auto.
Defined.

(** A variable that is exported but not set loses its export attribute when a
    function makes it local: after [export foo] and a call of a function that only
    runs [local foo], [foo] is no longer exported. *)
Theorem local_drops_export :
  let s := (run_fop (FExport "foo") (sh_start [])).2 in
  let s' := (poplocalvars (run_fops [FLocal "foo"] s).2).2 in
  view s "foo" = mkav None true false /\ view s' "foo" = mkav None false false.
Proof. vm_compute. by split. Qed.
