(* ===== verification/ShArith.v ===== *)
(** * sh: arithmetic expansion (src/shell_cmds/sh/arith_yylex.c, arith_yacc.c)

    The lexer and the recursive-descent evaluator of [$((...))] and [let].  The
    variables are an interface, [VarStore]; the address [stalloc] returns, which the
    evaluator reads as a number when it skips an operand, is a parameter. *)

From Stdlib Require Import ZArith Lia List Bool String Ascii.
From stdpp Require Import base tactics list numbers strings pretty.
From S2P Require Import Prelude CLib ShVar.

Local Open Scope string_scope.
Local Open Scope bool_scope.
Local Open Scope Z_scope.

(** ** Variables, as the evaluator sees them *)

Class VarStore (S : Type) := {
  vs_lookup : string -> S -> option string;
  vs_set : string -> string -> M sh_error S unit
}.

(** ** Tokens (arith_yacc.h) *)

Definition ARITH_ASS := 1.
Definition ARITH_OR := 2.
Definition ARITH_AND := 3.
Definition ARITH_BAD := 4.
Definition ARITH_NUM := 5.
Definition ARITH_VAR := 6.
Definition ARITH_NOT := 7.
Definition ARITH_BINOP_MIN := 8.
Definition ARITH_LE := 8.
Definition ARITH_GE := 9.
Definition ARITH_LT := 10.
Definition ARITH_GT := 11.
Definition ARITH_EQ := 12.
Definition ARITH_REM := 13.
Definition ARITH_BAND := 14.
Definition ARITH_LSHIFT := 15.
Definition ARITH_RSHIFT := 16.
Definition ARITH_MUL := 17.
Definition ARITH_ADD := 18.
Definition ARITH_BOR := 19.
Definition ARITH_SUB := 20.
Definition ARITH_BXOR := 21.
Definition ARITH_DIV := 22.
Definition ARITH_NE := 23.
Definition ARITH_BINOP_MAX := 24.
Definition ARITH_ASS_MIN := 24.
Definition ARITH_ASS_MAX := 34.
Definition ARITH_LPAREN := 34.
Definition ARITH_RPAREN := 35.
Definition ARITH_BNOT := 36.
Definition ARITH_QMARK := 37.
Definition ARITH_COLON := 38.

(** [union yystype]: a value, or a name and its address. *)
Inductive yystype :=
  | YVal (val : Z)
  | YName (name : string) (addr : Z).

(** Reading the other member of the union: the value of a name is its address. *)
Definition yy_val (v : yystype) : Z := match v with YVal z => z | YName _ a => a end.
Definition yy_name (v : yystype) : string := match v with YName n _ => n | YVal _ => "" end.

(** ** The lexer *)

Definition is_blank_char (c : ascii) : bool :=
  bool_decide (c = " "%char) || bool_decide (c = TAB) || bool_decide (c = LF).

Fixpoint skip_blank (buf : string) : string :=
  match buf with
  | String c r => if is_blank_char c then skip_blank r else buf
  | "" => ""
  end.

(** The name that starts at [buf], by [is_in_name], and what follows it. *)
Fixpoint name_end (buf : string) : string * string :=
  match buf with
  | String c r => if is_in_name c then let (n, e) := name_end r in (String c n, e) else ("", buf)
  | "" => ("", "")
  end.

(** The label [checkeqcur], [buf] being the current position. *)
Definition checkeqcur (value : Z) (buf : string) : Z * string :=
  if decide (hd buf = "="%char) then (value + 11, sdrop 1 buf) else (value, buf).

(** The operators: [buf] starts with [c] and goes on with [r]; [None] is ARITH_BAD. *)
Definition lex_op (c : ascii) (r : string) : option (Z * string) :=
  if decide (c = "="%char) then Some (checkeqcur ARITH_ASS r)
  else if decide (c = ">"%char) then
    Some (if decide (hd r = "="%char) then (ARITH_GE, sdrop 1 r)
          else if decide (hd r = ">"%char) then checkeqcur ARITH_RSHIFT (sdrop 1 r)
          else (ARITH_GT, r))
  else if decide (c = "<"%char) then
    Some (if decide (hd r = "="%char) then (ARITH_LE, sdrop 1 r)
          else if decide (hd r = "<"%char) then checkeqcur ARITH_LSHIFT (sdrop 1 r)
          else (ARITH_LT, r))
  else if decide (c = "|"%char) then
    Some (if decide (hd r = "|"%char) then (ARITH_OR, sdrop 1 r) else checkeqcur ARITH_BOR r)
  else if decide (c = "&"%char) then
    Some (if decide (hd r = "&"%char) then (ARITH_AND, sdrop 1 r) else checkeqcur ARITH_BAND r)
  else if decide (c = "!"%char) then
    Some (if decide (hd r = "="%char) then (ARITH_NE, sdrop 1 r) else (ARITH_NOT, r))
  else if decide (c = "("%char) then Some (ARITH_LPAREN, r)
  else if decide (c = ")"%char) then Some (ARITH_RPAREN, r)
  else if decide (c = "*"%char) then Some (checkeqcur ARITH_MUL r)
  else if decide (c = "/"%char) then Some (checkeqcur ARITH_DIV r)
  else if decide (c = "%"%char) then Some (checkeqcur ARITH_REM r)
  else if decide (c = "+"%char) then
    if decide (hd r = "+"%char) then None else Some (checkeqcur ARITH_ADD r)
  else if decide (c = "-"%char) then
    if decide (hd r = "-"%char) then None else Some (checkeqcur ARITH_SUB r)
  else if decide (c = "~"%char) then Some (ARITH_BNOT, r)
  else if decide (c = "^"%char) then Some (checkeqcur ARITH_BXOR r)
  else if decide (c = "?"%char) then Some (ARITH_QMARK, r)
  else if decide (c = ":"%char) then Some (ARITH_COLON, r)
  else None.

Section Arith.
Context {S : Type} {VS : VarStore S} (uflag : bool) (stalloc : string -> Z).

(** The token at [arith_buf], the new [yylval] if it is set, and the new
    [arith_buf], which ARITH_BAD leaves where it was. *)
Definition lex (arith_buf : string) : Z * option yystype * string :=
  match skip_blank arith_buf with
  | "" => (0, None, "")
  | String c r as buf =>
      if isdigit c then
        (ARITH_NUM, Some (YVal (sr_val (strtol0 buf))), sr_end (strtol0 buf))
      else if is_name c then
        let (n, e) := name_end r in (ARITH_VAR, Some (YName (String c n) (stalloc buf)), e)
      else match lex_op c r with
           | Some (value, r') => (value, None, r')
           | None => (ARITH_BAD, None, arith_buf)
           end
  end.

(** ** The evaluator *)

Record astate := mkast {
  arith_buf : string;
  yylval : yystype;
  last_token : Z;
  store : S }.

(** [yyerror], an error of [setvar], or a model that was given too little fuel. *)
Inductive arith_error :=
  | Yyerror (msg : string)
  | SetvarError (e : sh_error)
  | ArithFuel.

Abbreviation AM := (M arith_error astate).

Definition yyerror {A} (msg : string) : AM A := leave (Yyerror msg).

Definition yylex : AM Z := fun s =>
  let '(t, v, buf) := lex (arith_buf s) in
  (Ok t, mkast buf (match v with Some v => v | None => yylval s end) (last_token s) (store s)).

Definition set_last_token (t : Z) : AM unit :=
  modify (fun s => mkast (arith_buf s) (yylval s) t (store s)).

(** A computation on the variables. *)
Definition on_store {A} (m : M arith_error S A) : AM A := fun s =>
  let '(r, st) := m (store s) in (r, mkast (arith_buf s) (yylval s) (last_token s) st).

Definition arith_lookupvarint (varname : string) : M arith_error S Z :=
  st ← (get : M arith_error S S);
  let str := vs_lookup varname st in
  match str with
  | None => if uflag then leave (Yyerror "variable not set") else mret 0
  | Some "" => mret 0
  | Some str =>
      let r := strtol0 str in
      if sr_range r || negb (bool_decide (sr_end r = "")) then
        leave (Yyerror "variable conversion error")
      else mret (sr_val r)
  end.

Definition setvar_arith (name val : string) : M arith_error S unit := fun st =>
  match vs_set name val st with
  | (Ok u, st') => (Ok u, st')
  | (Ex e, st') => (Ex (SetvarError e), st')
  end.

(** [prec] *)
Definition arith_prec (op : Z) : Z :=
  if decide (op = ARITH_MUL \/ op = ARITH_DIV \/ op = ARITH_REM) then 0
  else if decide (op = ARITH_ADD \/ op = ARITH_SUB) then 1
  else if decide (op = ARITH_LSHIFT \/ op = ARITH_RSHIFT) then 2
  else if decide (op = ARITH_LT \/ op = ARITH_LE \/ op = ARITH_GT \/ op = ARITH_GE) then 3
  else if decide (op = ARITH_EQ \/ op = ARITH_NE) then 4
  else if decide (op = ARITH_BAND) then 5
  else if decide (op = ARITH_BXOR) then 6
  else if decide (op = ARITH_BOR) then 7
  else 0.

Definition ARITH_MAX_PREC := 8.
Definition ARITH_MIN := - 2 ^ 63.

Definition is_binop (op : Z) : bool := (ARITH_BINOP_MIN <=? op) && (op <? ARITH_BINOP_MAX).

Definition is_assop (op : Z) : bool :=
  (op =? ARITH_ASS) || ((ARITH_ASS_MIN <=? op) && (op <? ARITH_ASS_MAX)).


Definition do_binop (op a b : Z) : M arith_error S Z :=
  if op =? ARITH_MUL then mret (s64 (a * b))
  else if op =? ARITH_ADD then mret (s64 (a + b))
  else if op =? ARITH_SUB then mret (s64 (a - b))
  else if op =? ARITH_LSHIFT then mret (s64 (Z.shiftl (u64 a) (Z.land b 63)))
  else if op =? ARITH_RSHIFT then mret (Z.shiftr a (Z.land b 63))
  else if op =? ARITH_LT then mret (b2z (a <? b))
  else if op =? ARITH_LE then mret (b2z (a <=? b))
  else if op =? ARITH_GT then mret (b2z (b <? a))
  else if op =? ARITH_GE then mret (b2z (b <=? a))
  else if op =? ARITH_EQ then mret (b2z (a =? b))
  else if op =? ARITH_NE then mret (b2z (negb (a =? b)))
  else if op =? ARITH_BAND then mret (Z.land a b)
  else if op =? ARITH_BXOR then mret (Z.lxor a b)
  else if op =? ARITH_BOR then mret (Z.lor a b)
  else if b =? 0 then leave (Yyerror "division by zero")
  else if (a =? ARITH_MIN) && (b =? -1) then leave (Yyerror "divide error")
  else mret (if op =? ARITH_REM then Z.rem a b else Z.quot a b).

(** [result = op(lookup(name), result); setvar(name, result)], the end of [assignment]. *)
Definition assign (op : Z) (name : string) (result : Z) : M arith_error S Z :=
  '(result : Z) ← (if op =? ARITH_ASS then mret result
     else '(old : Z) ← arith_lookupvarint name; do_binop (op - 11) old result);
  _ ← setvar_arith name (pretty result);
  mret result.

Fixpoint primary (fuel : nat) (token : Z) (val : yystype) (op : Z) (noeval : bool) : AM Z :=
  match fuel with
  | O => leave ArithFuel
  | Datatypes.S fuel =>
      if token =? ARITH_LPAREN then
        '(result : Z) ← assignment fuel op noeval;
        '(t : Z) ← gets last_token;
        if negb (t =? ARITH_RPAREN) then yyerror "expecting ')'"
        else ('(t : Z) ← yylex; _ ← set_last_token t; mret result)
      else if token =? ARITH_NUM then (_ ← set_last_token op; mret (yy_val val))
      else if token =? ARITH_VAR then
        _ ← set_last_token op;
        if (noeval : bool) then mret (yy_val val)
        else on_store (arith_lookupvarint (yy_name val))
      else if token =? ARITH_ADD then
        '(v : yystype) ← gets yylval; '(op' : Z) ← yylex; primary fuel op v op' noeval
      else if token =? ARITH_SUB then
        '(v : yystype) ← gets yylval; '(op' : Z) ← yylex;
        '(r : Z) ← primary fuel op v op' noeval; mret (s64 (- r))
      else if token =? ARITH_NOT then
        '(v : yystype) ← gets yylval; '(op' : Z) ← yylex;
        '(r : Z) ← primary fuel op v op' noeval; mret (b2z (r =? 0))
      else if token =? ARITH_BNOT then
        '(v : yystype) ← gets yylval; '(op' : Z) ← yylex;
        '(r : Z) ← primary fuel op v op' noeval; mret (Z.lnot r)
      else yyerror "expecting primary"
  end
with binop2 (fuel : nat) (a op precedence : Z) (noeval : bool) : AM Z :=
  match fuel with
  | O => leave ArithFuel
  | Datatypes.S fuel =>
      '(token : Z) ← yylex; '(val : yystype) ← gets yylval; '(t : Z) ← yylex;
      '(b : Z) ← primary fuel token val t noeval;
      '(op2 : Z) ← gets last_token;
      '(b : Z) ← (if is_binop op2 && (arith_prec op2 <? arith_prec op)
                  then binop2 fuel b op2 (arith_prec op) noeval else mret b);
      '(op2 : Z) ← gets last_token;
      '(a : Z) ← (if (noeval : bool) then mret b else on_store (do_binop op a b));
      if negb (is_binop op2) || (precedence <=? arith_prec op2) then mret a
      else binop2 fuel a op2 precedence noeval
  end
with binop (fuel : nat) (token : Z) (val : yystype) (op : Z) (noeval : bool) : AM Z :=
  match fuel with
  | O => leave ArithFuel
  | Datatypes.S fuel =>
      '(a : Z) ← primary fuel token val op noeval;
      '(op : Z) ← gets last_token;
      if negb (is_binop op) then mret a else binop2 fuel a op ARITH_MAX_PREC noeval
  end
with and_ (fuel : nat) (token : Z) (val : yystype) (op : Z) (noeval : bool) : AM Z :=
  match fuel with
  | O => leave ArithFuel
  | Datatypes.S fuel =>
      '(a : Z) ← binop fuel token val op noeval;
      '(op : Z) ← gets last_token;
      if negb (op =? ARITH_AND) then mret a
      else
        '(token : Z) ← yylex; '(val : yystype) ← gets yylval; '(t : Z) ← yylex;
        '(b : Z) ← and_ fuel token val t (noeval || (a =? 0));
        mret (b2z (negb (a =? 0) && negb (b =? 0)))
  end
with or_ (fuel : nat) (token : Z) (val : yystype) (op : Z) (noeval : bool) : AM Z :=
  match fuel with
  | O => leave ArithFuel
  | Datatypes.S fuel =>
      '(a : Z) ← and_ fuel token val op noeval;
      '(op : Z) ← gets last_token;
      if negb (op =? ARITH_OR) then mret a
      else
        '(token : Z) ← yylex; '(val : yystype) ← gets yylval; '(t : Z) ← yylex;
        '(b : Z) ← or_ fuel token val t (noeval || negb (a =? 0));
        mret (b2z (negb (a =? 0) || negb (b =? 0)))
  end
with cond (fuel : nat) (token : Z) (val : yystype) (op : Z) (noeval : bool) : AM Z :=
  match fuel with
  | O => leave ArithFuel
  | Datatypes.S fuel =>
      '(a : Z) ← or_ fuel token val op noeval;
      '(t : Z) ← gets last_token;
      if negb (t =? ARITH_QMARK) then mret a
      else
        '(t : Z) ← yylex;
        '(b : Z) ← assignment fuel t (noeval || (a =? 0));
        '(t : Z) ← gets last_token;
        if negb (t =? ARITH_COLON) then yyerror "expecting ':'"
        else
          '(token : Z) ← yylex; '(val : yystype) ← gets yylval; '(t : Z) ← yylex;
          '(c : Z) ← cond fuel token val t (noeval || negb (a =? 0));
          mret (if a =? 0 then c else b)
  end
with assignment (fuel : nat) (var : Z) (noeval : bool) : AM Z :=
  match fuel with
  | O => leave ArithFuel
  | Datatypes.S fuel =>
      '(val : yystype) ← gets yylval; '(op : Z) ← yylex;
      if negb (var =? ARITH_VAR) then cond fuel var val op noeval
      else if negb (is_assop op) then cond fuel var val op noeval
      else
        '(t : Z) ← yylex; '(result : Z) ← assignment fuel t noeval;
        if (noeval : bool) then mret result
        else on_store (assign op (yy_name val) result)
  end.

(** [arith(s)] with the variables [st]; [yylval] and [last_token] are what the last
    call left. *)

Definition arith_fuel (s : string) : nat := 8 * String.length s + 16.

Definition arith_run (s : string) : AM Z :=
  '(t : Z) ← yylex;
  '(result : Z) ← assignment (arith_fuel s) t false;
  '(t : Z) ← gets last_token;
  if negb (t =? 0) then yyerror "expecting EOF" else mret result.

Definition arith_from (yl : yystype) (lt : Z) (s : string) (st : S) :
  res arith_error Z * S :=
  let '(r, a) := arith_run s (mkast s yl lt st) in (r, store a).

Definition arith (s : string) (st : S) : res arith_error Z * S := arith_from (YVal 0) 0 s st.

(** [letcmd]: the arguments separated by spaces; the number printed and the status. *)
Fixpoint concat_args (argv : list string) : string :=
  match argv with
  | [] => ""
  | [a] => a
  | a :: argv => a +:+ String " " (concat_args argv)
  end.

Definition letcmd (argv : list string) (st : S) : res arith_error (Z * Z) * S :=
  match arith (concat_args argv) st with
  | (Ok i, st') => (Ok (i, b2z (i =? 0)), st')
  | (Ex e, st') => (Ex e, st')
  end.
End Arith.

#[export] Instance sh_VarStore : VarStore sh := {
  vs_lookup := lookupvar;
  vs_set := fun n v => setvar n (Some v) 0 }.

Definition arith_sh (s : string) (vars : list string) : res arith_error Z * list (option string) :=
  let '(r, st) := arith false (fun _ => 4096) s (sh_start vars) in
  (r, map (fun n => lookupvar n st) ["x"; "y"]).

Example arith1 : (arith_sh "1 + 2*3 - -4 << 1 | x" ["x=64"]).1 = Ok 86.
Proof. by vm_compute. Qed.
Example arith2 : arith_sh "x = y += 5, 3" ["y=2"] = (Ex (Yyerror "expecting EOF"), [Some "7"; Some "7"]).
Proof. by vm_compute. Qed.
Example arith3 : arith_sh "0 && (x = 1/0) || (y = x > 3 ? 10 : 20)" ["x=4"] = (Ok 1, [Some "4"; Some "10"]).
Proof. by vm_compute. Qed.
