(* ===== verification/ShArithFacts.v ===== *)
(** * sh arithmetic: every expression is evaluated to an end

    The lexer makes progress, and the fuel [arith] gives its evaluator is enough. *)

From Stdlib Require Import ZArith Lia List Bool String Ascii.
From stdpp Require Import base tactics list numbers strings pretty.
From S2P Require Import Prelude CLib ShVar ShArith.

Local Open Scope string_scope.
Local Open Scope bool_scope.
Local Open Scope Z_scope.

(** ** Lengths *)

Lemma digits_shorter base acc s : (String.length (digits base acc s).2 <= String.length s)%nat.
Proof.
  revert acc. induction s as [|c s IH]; intros acc; simpl; [done|].
  destruct (base_digit base c); simpl; [|done]. etrans; [apply IH|]. lia.
Qed.

Lemma digits_shorter_cons base acc c s d :
  base_digit base c = Some d ->
  (String.length (digits base acc (String c s)).2 < String.length (String c s))%nat.
Proof. intros H. simpl. rewrite H. pose proof (digits_shorter base (acc * base + d) s). lia. Qed.

Lemma code_range c : 0 <= code c < 256.
Proof.
  unfold code. pose proof (N_ascii_bounded c). lia.
Qed.

Lemma isdigit_digit c base :
  isdigit c = true -> 10 <= base -> base_digit base c = Some (code c - code "0").
Proof.
  intros H Hb. unfold base_digit, digit_val. rewrite H.
  unfold isdigit, in_range in H. rewrite andb_true_iff, !Z.leb_le in H.
  change (code "0") with 48 in *. change (code "9") with 57 in *.
  destruct (Z.ltb_spec (code c - 48) base); [done|lia].
Qed.

Lemma isdigit_not_space c : isdigit c = true -> isspace c = false.
Proof.
  intros H. unfold isdigit, in_range in H. unfold isspace.
  rewrite andb_true_iff, !Z.leb_le in H. change (code "0") with 48 in *.
  change (code "9") with 57 in *.
  destruct (Z.eqb_spec (code c) 32), (Z.leb_spec 9 (code c)), (Z.leb_spec (code c) 13); try done; lia.
Qed.

(** The number [strtol0] reads when the text starts with a digit. *)
Lemma strtol0_digit c r :
  isdigit c = true ->
  let '(base, s3) := strtol_base (String c r) in
  let '(v, e) := digits base 0 s3 in
  strtol0 (String c r) =
    {| sr_val := saturate v; sr_end := e; sr_range := negb (saturate v =? v) |} /\
  (String.length e < String.length (String c r))%nat.
Proof.
  intros H. unfold strtol0. cbn [skip_space]. rewrite isdigit_not_space by done.
  assert (c <> "-"%char /\ c <> "+"%char) as [Hm Hp] by (split; intros ->; done).
  assert ((match String c r with
           | String "-" r => (true, r) | String "+" r => (false, r)
           | _ => (false, String c r) end) = (false, String c r)) as ->.
  { destruct c as [[] [] [] [] [] [] [] []]; done. }
  cbv iota beta. destruct (strtol_base (String c r)) as [base s3] eqn:E.
  assert (exists c' r' d, s3 = String c' r' /\ base_digit base c' = Some d /\
    (String.length s3 <= String.length (String c r))%nat) as (c' & r' & d & -> & Hd & Hl).
  { unfold strtol_base in E.
    assert (forall b, b = 10 \/ (b = 8 /\ c = "0"%char) ->
      exists c' r' d, String c r = String c' r' /\ base_digit b c' = Some d /\
        (String.length (String c r) <= String.length (String c r))%nat) as G.
    { intros b [->|[-> ->]]; do 3 eexists; (split; [done|]); split; try done.
      by apply isdigit_digit. }
    destruct (decide (c = "0"%char)) as [->|N].
    - destruct r as [|x [|d r]]; simplify_eq; try (apply G; by right).
      destruct (bool_decide (x = "x"%char) || bool_decide (x = "X"%char)); simpl in E;
        [|simplify_eq; apply G; by right].
      destruct (base_digit 16 d) eqn:Ed; simplify_eq; [|apply G; by right].
      do 3 eexists. split; [done|]. split; [done|]. simpl. lia.
    - assert ((base, s3) = (10, String c r)) as E'.
      { rewrite <- E. destruct c as [[] [] [] [] [] [] [] []]; done. }
      simplify_eq. apply G. by left. }
  rewrite Hd. pose proof (digits_shorter_cons base 0 c' r' d Hd) as Hs.
  destruct (digits base 0 (String c' r')) as [v e]. simpl snd in Hs. split; [done|]. lia.
Qed.

Lemma skip_blank_length s : (String.length (skip_blank s) <= String.length s)%nat.
Proof. induction s as [|c s IH]; simpl; [done|]. destruct (is_blank_char c); simpl; lia. Qed.

Lemma name_end_length s : (String.length (name_end s).2 <= String.length s)%nat.
Proof.
  induction s as [|c s IH]; simpl; [done|]. destruct (is_in_name c); simpl; [|done].
  destruct (name_end s). simpl in *. lia.
Qed.

Lemma checkeqcur_length v s : (String.length (checkeqcur v s).2 <= String.length s)%nat.
Proof. unfold checkeqcur. case_decide; cbn [snd]; rewrite ?sdrop_length; lia. Qed.

Lemma lex_op_length c r v r' :
  lex_op c r = Some (v, r') -> (String.length r' <= String.length r)%nat.
Proof.
  unfold lex_op. intros H.
  assert (forall w s, checkeqcur w s = (v, r') -> (String.length r' <= String.length s)%nat) as G.
  { intros w s E. pose proof (checkeqcur_length w s) as L. by rewrite E in L. }
  repeat case_decide; simplify_eq;
    try match goal with E : checkeqcur _ _ = _ |- _ => apply G in E end;
    rewrite ?sdrop_length in *; lia.
Qed.

(** The weight of a token: what it takes from the text. *)
Definition tok_weight (t : Z) : nat := if (t =? 0) || (t =? ARITH_BAD) then 0 else 1.

Lemma tok_weight_le t : (tok_weight t <= 1)%nat.
Proof. unfold tok_weight. destruct (_ || _); lia. Qed.

Lemma lex_progress stalloc buf t v b :
  lex stalloc buf = (t, v, b) -> (String.length b + tok_weight t <= String.length buf)%nat.
Proof.
  unfold lex. pose proof (skip_blank_length buf) as Hb.
  destruct (skip_blank buf) as [|c r]; [intros; simplify_eq; unfold tok_weight; simpl; lia|].
  simpl in Hb. destruct (isdigit c) eqn:Hd.
  { intros. simplify_eq. pose proof (strtol0_digit c r Hd) as H.
    destruct (strtol_base _) as [base s3], (digits base 0 s3) as [z e].
    destruct H as [-> H]. pose proof (tok_weight_le ARITH_NUM). cbn [sr_end] in *.
    simpl String.length in *. lia. }
  destruct (is_name c) eqn:Hn.
  { pose proof (name_end_length r) as H. destruct (name_end r) as [n e].
    intros. simplify_eq. pose proof (tok_weight_le ARITH_VAR). simpl in *. lia. }
  destruct (lex_op c r) as [[w r']|] eqn:E; intros; simplify_eq.
  - apply lex_op_length in E. pose proof (tok_weight_le t). lia.
  - unfold tok_weight. simpl. lia.
Qed.

(** ** Termination *)

Section Term.
Context {S : Type} {VS : VarStore S} (uflag : bool) (stalloc : string -> Z).
Abbreviation AM := (M arith_error (@astate S)).

Definition left_ (s : @astate S) : nat := String.length (arith_buf s).
Definition ended (e : arith_error) (s : @astate S) : Prop := e <> ArithFuel.

(** A computation that reads no token. *)
Definition pure_store {A} (m : M arith_error S A) : Prop :=
  forall st, match m st with (Ex e, _) => e <> ArithFuel | _ => True end.

Lemma pure_ret {A} (a : A) : pure_store (mret a).
Proof. done. Qed.

Lemma pure_leave {A} e : e <> ArithFuel -> pure_store (leave e : M arith_error S A).
Proof. by intros H st. Qed.

Lemma pure_bind {A B} (m : M arith_error S A) (k : A -> M arith_error S B) :
  pure_store m -> (forall a, pure_store (k a)) -> pure_store (m ≫= k).
Proof.
  intros Hm Hk st. cbv [mbind M_bind]. specialize (Hm st).
  destruct (m st) as [[a|e] st']; [apply Hk|done].
Qed.

Lemma pure_lookup name : pure_store (arith_lookupvarint uflag name).
Proof.
  intros st. unfold arith_lookupvarint. cbv [get mbind M_bind].
  destruct (vs_lookup name st) as [[|c w]|]; [done| |by destruct uflag].
  by destruct (_ || _).
Qed.

Lemma pure_do_binop op a b : pure_store (do_binop op a b).
Proof.
  intros st. unfold do_binop.
  repeat match goal with |- context [if ?b then _ else _] => destruct b; try done end.
Qed.

Lemma pure_assign op name z : pure_store (assign uflag op name z).
Proof.
  unfold assign. apply pure_bind.
  - destruct (op =? ARITH_ASS); [done|].
    apply pure_bind; [apply pure_lookup|]. intros. apply pure_do_binop.
  - intros r. apply pure_bind; [|done]. intros st. unfold setvar_arith.
    by destruct (vs_set _ _ st) as [[]?].
Qed.

Lemma t_yylex (k : nat) :
  triple (fun s => (left_ s <= k)%nat) (yylex stalloc)
    (fun t s => (left_ s + tok_weight t <= k)%nat) ended.
Proof.
  intros s Hs. unfold yylex. destruct (lex stalloc (arith_buf s)) as [[t v] b] eqn:E.
  apply lex_progress in E. unfold left_ in *. simpl. lia.
Qed.

Lemma t_on_store {A} (m : M arith_error S A) (P : nat -> Z -> Prop) :
  pure_store m ->
  triple (fun s => P (left_ s) (last_token s)) (on_store m)
    (fun _ s => P (left_ s) (last_token s)) ended.
Proof.
  intros Hm s Hs. unfold on_store. specialize (Hm (store s)).
  by destruct (m (store s)) as [[a|e] st].
Qed.

Lemma t_gets_val (P : @astate S -> Prop) : triple P (gets yylval : AM yystype) (fun _ s => P s) ended.
Proof. by intros s Hs. Qed.

Lemma t_set_last t (P : nat -> Prop) :
  triple (fun s => P (left_ s)) (set_last_token t)
    (fun _ s => P (left_ s) /\ last_token s = t) ended.
Proof. by intros s Hs. Qed.

Lemma t_error {A} msg (P : @astate S -> Prop) (Q : A -> @astate S -> Prop) :
  triple P (yyerror msg) Q ended.
Proof. by intros s Hs. Qed.

(** What is left after an expression that started with [m] tokens at most. *)
Definition consumed (m : nat) (_ : Z) (s : @astate S) : Prop :=
  (left_ s + tok_weight (last_token s) + 1 <= m)%nat.

Lemma binop_weight op : is_binop op = true -> tok_weight op = 1%nat.
Proof.
  unfold is_binop, ARITH_BINOP_MIN, ARITH_BINOP_MAX, tok_weight, ARITH_BAD.
  destruct (Z.leb_spec 8 op), (Z.ltb_spec op 24), (Z.eqb_spec op 0), (Z.eqb_spec op 4);
    simpl; intros; try done; lia.
Qed.

Lemma assop_weight op : is_assop op = true -> tok_weight op = 1%nat.
Proof.
  unfold is_assop, ARITH_ASS, ARITH_ASS_MIN, ARITH_ASS_MAX, tok_weight, ARITH_BAD.
  destruct (Z.eqb_spec op 1), (Z.leb_spec 24 op), (Z.ltb_spec op 34), (Z.eqb_spec op 0),
    (Z.eqb_spec op 4); simpl; intros; try done; lia.
Qed.

Definition term_at (n : nat) : Prop :=
  (forall token val op ne m, (8 * m + 1 <= n)%nat ->
     triple (fun s => (left_ s + tok_weight op + tok_weight token <= m)%nat)
       (primary uflag stalloc n token val op ne) (consumed m) ended) /\
  (forall a op p ne m, is_binop op = true -> (8 * m + 2 <= n)%nat ->
     triple (fun s => (left_ s + tok_weight op <= m)%nat)
       (binop2 uflag stalloc n a op p ne) (consumed m) ended) /\
  (forall token val op ne m, (8 * m + 3 <= n)%nat ->
     triple (fun s => (left_ s + tok_weight op + tok_weight token <= m)%nat)
       (binop uflag stalloc n token val op ne) (consumed m) ended) /\
  (forall token val op ne m, (8 * m + 4 <= n)%nat ->
     triple (fun s => (left_ s + tok_weight op + tok_weight token <= m)%nat)
       (and_ uflag stalloc n token val op ne) (consumed m) ended) /\
  (forall token val op ne m, (8 * m + 5 <= n)%nat ->
     triple (fun s => (left_ s + tok_weight op + tok_weight token <= m)%nat)
       (or_ uflag stalloc n token val op ne) (consumed m) ended) /\
  (forall token val op ne m, (8 * m + 6 <= n)%nat ->
     triple (fun s => (left_ s + tok_weight op + tok_weight token <= m)%nat)
       (cond uflag stalloc n token val op ne) (consumed m) ended) /\
  (forall var ne m, (8 * m + 7 <= n)%nat ->
     triple (fun s => (left_ s + tok_weight var <= m)%nat)
       (assignment uflag stalloc n var ne) (consumed m) ended).

(** [token = yylex(); val = yylval; t = yylex(); f(token, val, t)], where [f] gets
    [m] tokens. *)
Lemma t_operand (f : Z -> yystype -> Z -> AM Z) (k m : nat) (P : @astate S -> Prop) Q :
  (forall s, P s -> (left_ s <= k)%nat) -> (k <= m)%nat ->
  (forall token val t,
     triple (fun s => (left_ s + tok_weight t + tok_weight token <= m)%nat) (f token val t) Q ended) ->
  triple P ('(token : Z) ← yylex stalloc; '(val : yystype) ← gets yylval;
            '(t : Z) ← yylex stalloc; f token val t) Q ended.
Proof.
  intros HP Hm Hf. eapply triple_bind; [eapply triple_weaken; [apply (t_yylex k)|exact HP|by intros]|].
  intros token. eapply triple_bind; [apply t_gets_val|]. intros val.
  eapply triple_bind.
  - intros s Hs. pose proof (t_yylex (left_ s) s (le_n _)) as Y.
    unfold yylex in *. destruct (lex _ _) as [[t v] b]. simpl in *.
    instantiate (1 := fun t s => (left_ s + tok_weight t + tok_weight token <= k)%nat). simpl. lia.
  - intros t. eapply triple_weaken; [apply (Hf token val t)| |by intros]. simpl. intros. lia.
Qed.

Lemma t_last (P : @astate S -> Prop) :
  triple P (gets last_token : AM Z) (fun t s => P s /\ t = last_token s) ended.
Proof. apply triple_gets. Qed.

Lemma consumed_mono k m r s : consumed k r s -> (k <= m)%nat -> consumed m r s.
Proof. unfold consumed. lia. Qed.

Lemma t_return (k m : nat) (g : Z -> Z) (f : AM Z) P :
  triple P f (consumed k) ended -> (k <= m)%nat ->
  triple P ('(r : Z) ← f; mret (g r)) (consumed m) ended.
Proof.
  intros Hf Hk. eapply triple_bind; [exact Hf|]. intros r s Hs. simpl. by eapply consumed_mono.
Qed.

Section Step.
Context (n : nat) (IH : term_at n).

Lemma step_unary f op m ne :
  (8 * m + 1 <= Datatypes.S n)%nat ->
  (forall op' v P, triple P (primary uflag stalloc n op v op' ne) (consumed (m - 1)) ended ->
     triple P (f op v op') (consumed m) ended) ->
  triple (fun s => (left_ s + tok_weight op + 1 <= m)%nat)
    ('(v : yystype) ← gets yylval; '(op' : Z) ← yylex stalloc; f op v op') (consumed m) ended.
Proof.
  intros Hn Hf. destruct IH as (Hp & _).
  eapply triple_bind; [apply t_gets_val|]. intros v. eapply triple_bind.
  - intros s Hs. pose proof (t_yylex (left_ s) s (le_n _)) as Y. unfold yylex in *.
    destruct (lex _ _) as [[t w] b].
    instantiate (1 := fun t s => (left_ s + tok_weight t + tok_weight op + 1 <= m)%nat).
    simpl in *. lia.
  - intros t. apply Hf. destruct m as [|m].
    { intros s Hs. lia. }
    eapply triple_weaken; [apply (Hp op v t ne m)|..]; [lia| |].
    + simpl. intros. lia.
    + intros r s. replace (Datatypes.S m - 1)%nat with m by lia. done.
Qed.

Lemma step_primary token val op ne m :
  (8 * m + 1 <= Datatypes.S n)%nat ->
  triple (fun s => (left_ s + tok_weight op + tok_weight token <= m)%nat)
    (primary uflag stalloc (Datatypes.S n) token val op ne) (consumed m) ended.
Proof.
  intros Hn. cbn [primary]. pose proof IH as (_ & _ & _ & _ & _ & _ & Ha).
  assert (forall t P (Q : Z -> @astate S -> Prop) (x y : AM Z), tok_weight t = 1%nat ->
    (token = t -> triple P x Q ended) -> triple P y Q ended ->
    triple P (if token =? t then x else y) Q ended) as Case.
  { intros t P Q x y _ Hx Hy. destruct (Z.eqb_spec token t); auto. }
  apply Case; [done| |apply Case; [done| |apply Case; [done| |apply Case; [done| |
    apply Case; [done| |apply Case; [done| |apply Case; [done| |]]]]]]]; try intros ->.
  - destruct m as [|m]; [intros s Hs; unfold tok_weight in Hs; simpl in Hs; lia|].
    eapply triple_bind; [eapply triple_weaken; [apply (Ha op ne m); lia| |by intros]|].
    { simpl. change (tok_weight ARITH_LPAREN) with 1%nat. intros. lia. }
    intros r. eapply triple_bind; [apply t_last|]. intros t. cbv beta.
    destruct (Z.eqb_spec t ARITH_RPAREN) as [->|]; cbn [negb]; [|apply t_error].
    eapply triple_bind; [eapply triple_weaken; [apply (t_yylex (m - 2)%nat)| |by intros]|].
    { intros s [Hc Hl]. unfold consumed in Hc. rewrite <- Hl in Hc.
      change (tok_weight ARITH_RPAREN) with 1%nat in Hc. lia. }
    intros t. eapply triple_bind; [apply (t_set_last t (fun k => (k + tok_weight t <= m - 2)%nat))|].
    intros [] s [Hs Hl]. simpl. unfold consumed. rewrite Hl. simpl in Hs. lia.
  - intros s Hs. simpl. unfold consumed. simpl. change (tok_weight ARITH_NUM) with 1%nat in Hs. unfold left_ in *. simpl. lia.
  - eapply triple_bind; [apply (t_set_last op (fun k => (k + tok_weight op + 1 <= m)%nat))|].
    intros []. destruct ne.
    + intros s [Hs Hl]. simpl. unfold consumed. by rewrite Hl.
    + eapply triple_weaken; [apply (t_on_store _ (fun k t => (k + tok_weight t + 1 <= m)%nat));
        apply pure_lookup|by intros s [? ->]|by intros].
  - eapply triple_weaken; [apply (step_unary (fun op v op' => primary uflag stalloc n op v op' ne) op m ne Hn)| |by intros].
    + intros. eapply triple_weaken; [eassumption|by intros|]. intros. eapply consumed_mono; [done|lia].
    + done.
  - eapply triple_weaken; [apply (step_unary (fun op v op' => '(r : Z) ← primary uflag stalloc n op v op' ne;
      mret (s64 (- r))) op m ne Hn)|done|by intros]. intros. eapply t_return; [done|lia].
  - eapply triple_weaken; [apply (step_unary (fun op v op' => '(r : Z) ← primary uflag stalloc n op v op' ne;
      mret (b2z (r =? 0))) op m ne Hn)|done|by intros]. intros.
    eapply (t_return (m - 1) m (fun r => b2z (r =? 0))); [done|lia].
  - eapply triple_weaken; [apply (step_unary (fun op v op' => '(r : Z) ← primary uflag stalloc n op v op' ne;
      mret (Z.lnot r)) op m ne Hn)|done|by intros]. intros. eapply t_return; [done|lia].
  - apply t_error.
Qed.

Lemma step_binop2 a op p ne m :
  is_binop op = true -> (8 * m + 2 <= Datatypes.S n)%nat ->
  triple (fun s => (left_ s + tok_weight op <= m)%nat)
    (binop2 uflag stalloc (Datatypes.S n) a op p ne) (consumed m) ended.
Proof.
  intros Hop Hn. cbn [binop2]. pose proof IH as (Hp & Hb & _). rewrite (binop_weight op Hop).
  destruct m as [|m]; [intros s Hs; lia|].
  apply (t_operand _ m m); [intros; lia|done|]. intros token val t.
  eapply triple_bind; [apply (Hp token val t ne m); lia|]. intros b.
  eapply triple_bind; [apply t_last|]. intros op2.
  eapply (triple_bind _ _ _ _ _ (fun b s => consumed m b s)).
  { destruct (is_binop op2) eqn:H2; simpl; [destruct (arith_prec op2 <? arith_prec op)|];
      try (intros s [Hs _]; exact Hs).
    destruct m as [|m]; [intros s [Hs _]; unfold consumed in Hs; lia|].
    eapply triple_weaken; [apply (Hb b op2 (arith_prec op) ne m H2); lia| |].
    - intros s [Hs ->]. unfold consumed in Hs. lia.
    - intros r s Hs. eapply consumed_mono; [exact Hs|lia]. }
  intros b'. eapply triple_bind; [apply t_last|]. intros op3.
  eapply (triple_bind _ _ _ _ _ (fun _ s => (left_ s + tok_weight (last_token s) + 1 <= m)%nat /\ op3 = last_token s)).
  { destruct ne; [by intros s Hs|]. eapply triple_weaken;
      [apply (t_on_store (do_binop op a b') (fun k t => (k + tok_weight t + 1 <= m)%nat /\ op3 = t));
       apply pure_do_binop|by intros|by intros]. }
  intros a'. destruct (is_binop op3) eqn:H3; simpl; [destruct (p <=? arith_prec op3)|].
  - intros s [Hs _]. simpl. unfold consumed. lia.
  - destruct m as [|m]; [intros s [Hs _]; lia|].
    eapply triple_weaken; [apply (Hb a' op3 p ne m H3); lia| |].
    + intros s [Hs ->]. lia.
    + intros r s Hs. eapply consumed_mono; [exact Hs|lia].
  - intros s [Hs _]. simpl. unfold consumed. lia.
Qed.

Lemma step_binop token val op ne m :
  (8 * m + 3 <= Datatypes.S n)%nat ->
  triple (fun s => (left_ s + tok_weight op + tok_weight token <= m)%nat)
    (binop uflag stalloc (Datatypes.S n) token val op ne) (consumed m) ended.
Proof.
  intros Hn. cbn [binop]. pose proof IH as (Hp & Hb & _).
  eapply triple_bind; [apply (Hp token val op ne m); lia|]. intros a.
  eapply triple_bind; [apply t_last|]. intros t. destruct (is_binop t) eqn:Ht; simpl.
  - eapply triple_weaken; [apply (Hb a t ARITH_MAX_PREC ne m Ht); lia| |by intros].
    intros s [Hs ->]. unfold consumed in Hs. lia.
  - by intros s [Hs _].
Qed.

(** [and], [or]: a left operand, the operator [o], and the rest of the same kind. *)
Lemma step_chain (f g : nat -> Z -> yystype -> Z -> bool -> AM Z) token val op ne m (o : Z)
  (ne' : Z -> bool) (h : Z -> Z -> Z) :
  tok_weight o = 1%nat ->
  (forall token val op ne, triple (fun s => (left_ s + tok_weight op + tok_weight token <= m)%nat)
     (f n token val op ne) (consumed m) ended) ->
  (forall token val op ne k, (k < m)%nat ->
     triple (fun s => (left_ s + tok_weight op + tok_weight token <= k)%nat)
     (g n token val op ne) (consumed k) ended) ->
  triple (fun s => (left_ s + tok_weight op + tok_weight token <= m)%nat)
    ('(a : Z) ← f n token val op ne;
     '(op : Z) ← gets last_token;
     if negb (op =? o) then mret a
     else '(token : Z) ← yylex stalloc; '(val : yystype) ← gets yylval; '(t : Z) ← yylex stalloc;
          '(b : Z) ← g n token val t (ne' a); mret (h a b)) (consumed m) ended.
Proof.
  intros Ho Hf Hg. eapply triple_bind; [apply Hf|]. intros a.
  eapply triple_bind; [apply t_last|]. intros t.
  destruct (Z.eqb_spec t o) as [->|]; cbn [negb]; [|by intros s [Hs _]].
  destruct m as [|m]; [intros s [Hs _]; unfold consumed in Hs; lia|].
  apply (t_operand (fun token val t => '(b : Z) ← g n token val t (ne' a); mret (h a b)) m m).
  - intros s [Hs Hl]. unfold consumed in Hs. rewrite <- Hl in Hs. lia.
  - done.
  - intros token' val' t. eapply (t_return m); [|lia]. apply Hg. lia.
Qed.

Lemma step_assignment var ne m :
  (8 * m + 7 <= Datatypes.S n)%nat ->
  triple (fun s => (left_ s + tok_weight var <= m)%nat)
    (assignment uflag stalloc (Datatypes.S n) var ne) (consumed m) ended.
Proof.
  intros Hn. cbn [assignment]. pose proof IH as (_ & _ & _ & _ & _ & Hc & Ha).
  eapply triple_bind; [apply t_gets_val|]. intros val. eapply triple_bind.
  { intros s Hs. pose proof (t_yylex (left_ s) s (le_n _)) as Y. unfold yylex in *.
    destruct (lex _ _) as [[t w] b].
    instantiate (1 := fun t s => (left_ s + tok_weight t + tok_weight var <= m)%nat).
    simpl in *. lia. }
  intros op. destruct (Z.eqb_spec var ARITH_VAR) as [->|]; cbn [negb]; [|apply Hc; lia].
  destruct (is_assop op) eqn:Eo; cbn [negb]; [|apply Hc; lia].
  rewrite (assop_weight op Eo). change (tok_weight ARITH_VAR) with 1%nat.
  destruct m as [|[|m]]; [intros s Hs; lia..|].
  eapply triple_bind; [eapply triple_weaken; [apply (t_yylex m)| |by intros]; simpl; intros; lia|].
  intros t. eapply triple_bind; [apply (Ha t ne m); lia|]. intros r. destruct ne.
  - intros s Hs. simpl. unfold consumed in *. lia.
  - eapply triple_weaken; [apply (t_on_store _ (fun k t => (k + tok_weight t + 1 <= m)%nat));
      apply pure_assign|by intros|]. intros r' s Hs. cbv beta in Hs. unfold consumed. lia.
Qed.

Lemma step_cond token val op ne m :
  (8 * m + 6 <= Datatypes.S n)%nat ->
  triple (fun s => (left_ s + tok_weight op + tok_weight token <= m)%nat)
    (cond uflag stalloc (Datatypes.S n) token val op ne) (consumed m) ended.
Proof.
  intros Hn. cbn [cond]. pose proof IH as (_ & _ & _ & _ & Ho & Hc & Ha).
  eapply triple_bind; [apply (Ho token val op ne m); lia|]. intros a.
  eapply triple_bind; [apply t_last|]. intros t.
  destruct (Z.eqb_spec t ARITH_QMARK) as [->|]; cbn [negb]; [|by intros s [Hs _]].
  destruct m as [|[|m]]; [intros s [Hs Hl]; unfold consumed in Hs; rewrite <- Hl in Hs;
    change (tok_weight ARITH_QMARK) with 1%nat in Hs; lia..|].
  eapply triple_bind; [eapply triple_weaken; [apply (t_yylex m)| |by intros]|].
  { intros s [Hs Hl]. unfold consumed in Hs. rewrite <- Hl in Hs.
    change (tok_weight ARITH_QMARK) with 1%nat in Hs. lia. }
  intros t. eapply triple_bind; [apply (Ha t _ m); lia|]. intros b.
  eapply triple_bind; [apply t_last|]. intros t'.
  destruct (Z.eqb_spec t' ARITH_COLON) as [->|]; cbn [negb]; [|apply t_error].
  apply (t_operand (fun token val t => '(c : Z) ← cond uflag stalloc n token val t (ne || negb (a =? 0));
    mret (if a =? 0 then c else b)) m m).
  - intros s [Hs _]. unfold consumed in Hs. lia.
  - done.
  - intros token' val' t''. eapply (t_return m _ (fun c => if a =? 0 then c else b)); [|lia].
    apply Hc. lia.
Qed.
End Step.

Lemma term_all n : term_at n.
Proof.
  induction n as [|n IH].
  - split_and!; intros; lia.
  - pose proof IH as (_ & _ & Hbi & Han & Hor & _).
    split_and!; intros; eauto using step_primary, step_binop2, step_binop, step_cond, step_assignment.
    + cbn [and_]. apply (step_chain n (binop uflag stalloc) (and_ uflag stalloc) _ _ _ _ _ ARITH_AND
        (fun a => ne || (a =? 0)) (fun a b => b2z (negb (a =? 0) && negb (b =? 0)))); [done| |].
      * intros. apply Hbi. lia.
      * intros. apply Han. lia.
    + cbn [or_]. apply (step_chain n (and_ uflag stalloc) (or_ uflag stalloc) _ _ _ _ _ ARITH_OR
        (fun a => ne || negb (a =? 0)) (fun a b => b2z (negb (a =? 0) || negb (b =? 0)))); [done| |].
      * intros. apply Han. lia.
      * intros. apply Hor. lia.
Qed.

Lemma arith_from_no_fuel yl lt s st st' : arith_from uflag stalloc yl lt s st <> (Ex ArithFuel, st').
Proof.
  unfold arith_from, arith_run, arith_fuel. pose proof (term_all (8 * String.length s + 16)) as H.
  destruct H as (_ & _ & _ & _ & _ & _ & H).
  assert (triple (fun a : @astate S => (left_ a <= String.length s)%nat)
    ('(t : Z) ← yylex stalloc;
     '(result : Z) ← assignment uflag stalloc (8 * String.length s + 16) t false;
     '(t : Z) ← gets last_token;
     if negb (t =? 0) then yyerror "expecting EOF" else mret result)
    (fun _ _ => True) ended) as T.
  { eapply triple_bind; [apply t_yylex|]. intros t.
    eapply triple_bind; [apply (H t false (String.length s)); lia|]. intros r.
    eapply triple_bind; [apply t_last|]. intros t'. destruct (negb (t' =? 0)); by intros x Hx. }
  specialize (T (mkast s yl lt st) (le_n _)).
  revert T. match goal with |- match ?x with _ => _ end -> _ => destruct x as [[z|e] a] end;
    [done|]. intros T [= ->]. by apply T.
Qed.
End Term.

(** C24. Every arithmetic expression is evaluated to an end: for every text, set of
    variables and previous scanner state [arith] returns a value or reports an
    error, with the fuel it is given. *)
Theorem arith_terminates {S : Type} {VS : VarStore S} uflag stalloc yl lt s (st : S) :
  (arith_from uflag stalloc yl lt s st).1 <> Ex ArithFuel.
Proof.
  pose proof (arith_from_no_fuel uflag stalloc yl lt s st) as H.
  destruct (arith_from _ _ _ _ _ _) as [r st'] eqn:E. simpl. intros ->. by apply (H st').
Qed.
