(* ===== verification/ShArithSpec.v ===== *)
(** * sh arithmetic: the evaluator implements the expression semantics

    Expressions with C's precedences, their meaning on the variables, and the
    theorem that the token-by-token evaluator computes it, operands that C does
    not evaluate included. *)

From Stdlib Require Import ZArith Lia List Bool String Ascii.
From stdpp Require Import base tactics list numbers strings pretty.
From S2P Require Import Prelude CLib Decimal ShVar ShVarFacts ShVarScope ShArith ShArithFacts.

Local Open Scope bool_scope.
Local Open Scope Z_scope.

(** ** Expressions *)

Inductive unop := UPlus | UMinus | UNot | UBnot.

Inductive expr :=
  | ENum (z : Z)
  | EVar (x : string)
  | EParen (e : expr)
  | EUn (o : unop) (e : expr)
  | EBin (op : Z) (l r : expr)
  | EAnd (l r : expr)
  | EOr (l r : expr)
  | ECond (a b c : expr)
  | EAsg (op : Z) (x : string) (e : expr).

(** The binding strength of an expression, 0 for a primary up to 12 for an assignment. *)
Definition level (e : expr) : Z :=
  match e with
  | ENum _ | EVar _ | EParen _ | EUn _ _ => 0
  | EBin op _ _ => arith_prec op + 1
  | EAnd _ _ => 9
  | EOr _ _ => 10
  | ECond _ _ _ => 11
  | EAsg _ _ _ => 12
  end.

(** The grammar: binary operators group to the left, [&&], [||], [?:] and the
    assignments to the right. *)
Fixpoint wf (e : expr) : bool :=
  match e with
  | ENum _ | EVar _ => true
  | EParen e => wf e
  | EUn _ e => wf e && (level e <=? 0)
  | EBin op l r =>
      is_binop op && wf l && wf r && (level l <=? arith_prec op + 1) && (level r <=? arith_prec op)
  | EAnd l r => wf l && wf r && (level l <=? 8) && (level r <=? 9)
  | EOr l r => wf l && wf r && (level l <=? 9) && (level r <=? 10)
  | ECond a b c => wf a && wf b && wf c && (level a <=? 10) && (level c <=? 11)
  | EAsg op _ e => is_assop op && wf e
  end.

Inductive tok := TNum (z : Z) | TVar (x : string) | TOp (code : Z).

Definition unop_code (o : unop) : Z :=
  match o with UPlus => ARITH_ADD | UMinus => ARITH_SUB | UNot => ARITH_NOT | UBnot => ARITH_BNOT end.

Fixpoint tokens (e : expr) : list tok :=
  match e with
  | ENum z => [TNum z]
  | EVar x => [TVar x]
  | EParen e => TOp ARITH_LPAREN :: tokens e ++ [TOp ARITH_RPAREN]
  | EUn o e => TOp (unop_code o) :: tokens e
  | EBin op l r => tokens l ++ TOp op :: tokens r
  | EAnd l r => tokens l ++ TOp ARITH_AND :: tokens r
  | EOr l r => tokens l ++ TOp ARITH_OR :: tokens r
  | ECond a b c => tokens a ++ TOp ARITH_QMARK :: tokens b ++ TOp ARITH_COLON :: tokens c
  | EAsg op x e => TVar x :: TOp op :: tokens e
  end.

Definition unop_fn (o : unop) (r : Z) : Z :=
  match o with UPlus => r | UMinus => s64 (- r) | UNot => b2z (r =? 0) | UBnot => Z.lnot r end.

Definition tok_code (t : tok) : Z :=
  match t with TNum _ => ARITH_NUM | TVar _ => ARITH_VAR | TOp c => c end.

Definition hcode (ts : list tok) : Z := match ts with [] => 0 | t :: _ => tok_code t end.

(** Where an operator stops an expression of a lower level. *)
Definition rank (c : Z) : Z :=
  if is_binop c then arith_prec c + 1
  else if c =? ARITH_AND then 9
  else if c =? ARITH_OR then 10
  else if c =? ARITH_QMARK then 11
  else if is_assop c then 12
  else 13.

Definition stops (k : Z) (ts : list tok) : Prop := k < rank (hcode ts).

Section Spec.
Context {S : Type} {VS : VarStore S} (uflag : bool) (stalloc : string -> Z).
Abbreviation AM := (M arith_error (@astate S)).

(** ** Meaning *)

Fixpoint eval (e : expr) : M arith_error S Z :=
  match e with
  | ENum z => mret z
  | EVar x => arith_lookupvarint uflag x
  | EParen e => eval e
  | EUn o e => '(r : Z) ← eval e; mret (unop_fn o r)
  | EBin op l r => '(a : Z) ← eval l; '(b : Z) ← eval r; do_binop op a b
  | EAnd l r =>
      '(a : Z) ← eval l;
      if a =? 0 then mret 0 else ('(b : Z) ← eval r; mret (b2z (negb (b =? 0))))
  | EOr l r =>
      '(a : Z) ← eval l;
      if a =? 0 then ('(b : Z) ← eval r; mret (b2z (negb (b =? 0)))) else mret 1
  | ECond a b c => '(v : Z) ← eval a; if v =? 0 then eval c else eval b
  | EAsg op x e => '(r : Z) ← eval e; assign uflag op x r
  end.

(** ** Token streams *)

(** The text [buf] is the tokens [ts]. *)
Inductive stream : string -> list tok -> Prop :=
  | stream_end buf : skip_blank buf = EmptyString -> stream buf []
  | stream_num buf z rest ts :
      lex stalloc buf = (ARITH_NUM, Some (YVal z), rest) -> stream rest ts ->
      stream buf (TNum z :: ts)
  | stream_var buf x a rest ts :
      lex stalloc buf = (ARITH_VAR, Some (YName x a), rest) -> stream rest ts ->
      stream buf (TVar x :: ts)
  | stream_op buf c rest ts :
      lex stalloc buf = (c, None, rest) -> stream rest ts ->
      stream buf (TOp c :: ts).

Definition matches (t : tok) (v : yystype) : Prop :=
  match t with TNum z => v = YVal z | TVar x => exists a, v = YName x a | TOp _ => True end.

(** The first token of [ts] has been read, its value is in [yylval]. *)
Definition here (ts : list tok) (s : @astate S) : Prop :=
  match ts with
  | [] => stream (arith_buf s) []
  | t :: ts => matches t (yylval s) /\ stream (arith_buf s) ts
  end.

Lemma yylex_stream s ts :
  stream (arith_buf s) ts ->
  exists s', yylex stalloc s = (Ok (hcode ts), s') /\ here ts s' /\
    store s' = store s /\ last_token s' = last_token s.
Proof.
  unfold yylex. intros H. inv H as [? E|? ? ? ? E|? ? ? ? ? E|? ? ? ? E].
  - unfold lex. rewrite E. eexists. split_and!; try done. by constructor.
  - rewrite E. eexists. by split_and!.
  - rewrite E. eexists. split_and!; try done. simpl. split; [eauto|done].
  - rewrite E. eexists. by split_and!.
Qed.

(** ** What a parser function does

    It reads its expression up to [rest], whose first token becomes [last_token];
    with [noeval] the variables stay as they are, otherwise value, error and variables
    are those of the meaning. *)
Definition out (ne : bool) (m : M arith_error S Z) (rest : list tok) (st : S)
  (p : res arith_error Z * @astate S) : Prop :=
  match p with
  | (Ok v, s') =>
      last_token s' = hcode rest /\ here rest s' /\
      (if ne then store s' = st else m st = (Ok v, store s'))
  | (Ex ArithFuel, _) => True
  | (Ex e, s') => ne = false /\ m st = (Ex e, store s')
  end.

Lemma out_fuel ne m rest st s : out ne m rest st (Ex ArithFuel, s).
Proof. done. Qed.

Lemma out_bind ne (m : M arith_error S Z) (k : Z -> M arith_error S Z) rest rest' st
  (p : AM Z) (q : Z -> AM Z) s :
  out ne m rest st (p s) ->
  (forall v s', last_token s' = hcode rest -> here rest s' ->
     (if ne then store s' = st else m st = (Ok v, store s')) ->
     out ne (k v) rest' (store s') (q v s')) ->
  out ne (m ≫= k) rest' st ((p ≫= q) s).
Proof.
  intros Hp Hq. cbv [mbind M_bind]. unfold out in Hp.
  destruct (p s) as [[v|e] s'] eqn:E.
  - destruct Hp as (Hl & Hh & Hm). specialize (Hq v s' Hl Hh Hm). unfold out in *.
    destruct (q v s') as [[w|e] s'']; destruct ne.
    + destruct Hq as (? & ? & ?). split_and!; congruence.
    + by rewrite Hm.
    + destruct e; try done; by destruct Hq.
    + destruct e; try done; by rewrite Hm.
  - simpl. destruct e; try done; destruct Hp as [-> ->]; done.
Qed.

(** A computation whose value does not matter and that leaves the variables alone. *)
Lemma out_skip ne m m' rest rest' st (p : AM Z) (q : Z -> AM Z) s :
  out true m rest st (p s) ->
  (forall v s', last_token s' = hcode rest -> here rest s' -> store s' = st ->
     out ne m' rest' st (q v s')) ->
  out ne m' rest' st ((p ≫= q) s).
Proof.
  intros Hp Hq. cbv [mbind M_bind]. unfold out in Hp.
  destruct (p s) as [[v|e] s'].
  - destruct Hp as (Hl & Hh & Hst). by apply Hq.
  - destruct e; try done; by destruct Hp.
Qed.

Lemma out_ret ne v rest s : last_token s = hcode rest -> here rest s ->
  out ne (mret v) rest (store s) ((mret v : AM Z) s).
Proof. intros. split_and!; try done. by destruct ne. Qed.

Lemma out_ext ne m m' rest st p : (forall st, m st = m' st) -> out ne m rest st p -> out ne m' rest st p.
Proof.
  intros E. unfold out. destruct p as [[v|[]] s]; try rewrite E; try done.
Qed.

Lemma out_ne_any m m' rest st p : out true m rest st p -> out true m' rest st p.
Proof. unfold out. destruct p as [[v|[]] s]; intuition congruence. Qed.

Lemma out_on_store m rest s :
  pure_store m -> last_token s = hcode rest -> here rest s ->
  out false m rest (store s) (on_store m s).
Proof.
  intros Hm Hl Hh. unfold on_store. specialize (Hm (store s)).
  destruct (m (store s)) as [[v|e] st] eqn:E; simpl.
  - by split_and!.
  - destruct e; try done.
Qed.

Definition prim_claim (e : expr) : Prop :=
  forall fuel t ts val ne rest s,
    tokens e ++ rest = t :: ts -> matches t val -> here ts s ->
    out ne (eval e) rest (store s) (primary uflag stalloc fuel (tok_code t) val (hcode ts) ne s).

Definition asg_claim (e : expr) : Prop :=
  forall fuel t ts ne rest s,
    tokens e ++ rest = t :: ts -> here (t :: ts) s -> stops 12 rest ->
    out ne (eval e) rest (store s) (assignment uflag stalloc fuel (tok_code t) ne s).

(** An operand and the operators after it that bind tighter than level [k]. *)
Definition operand (fuel : nat) (k token : Z) (val : yystype) (t : Z) (ne : bool) : AM Z :=
  '(b : Z) ← primary uflag stalloc fuel token val t ne;
  '(op2 : Z) ← gets last_token;
  if is_binop op2 && (arith_prec op2 <? k) then binop2 uflag stalloc fuel b op2 k ne
  else mret b.

Definition opnd_claim (k : Z) (e : expr) : Prop :=
  forall fuel t ts val ne rest s,
    tokens e ++ rest = t :: ts -> matches t val -> here ts s -> stops k rest ->
    out ne (eval e) rest (store s) (operand fuel k (tok_code t) val (hcode ts) ne s).

Lemma tokens_cons e rest : exists t ts, tokens e ++ rest = t :: ts.
Proof.
  revert rest. induction e; intros rest; simpl; eauto;
    rewrite <- app_assoc; eauto.
Qed.

(** ** The evaluator's equations *)

Lemma primary_lparen fuel val op ne :
  primary uflag stalloc (Datatypes.S fuel) ARITH_LPAREN val op ne =
  ('(result : Z) ← assignment uflag stalloc fuel op ne;
   '(t : Z) ← gets last_token;
   if negb (t =? ARITH_RPAREN) then yyerror "expecting ')'"
   else ('(t : Z) ← yylex stalloc; _ ← set_last_token t; mret result)).
Proof. reflexivity. Qed.

Lemma primary_plus fuel val op ne :
  primary uflag stalloc (Datatypes.S fuel) ARITH_ADD val op ne =
  ('(v : yystype) ← gets yylval; '(op' : Z) ← yylex stalloc;
   primary uflag stalloc fuel op v op' ne).
Proof. reflexivity. Qed.

Lemma primary_unop fuel o val op ne s :
  primary uflag stalloc (Datatypes.S fuel) (unop_code o) val op ne s =
  ('(v : yystype) ← gets yylval; '(op' : Z) ← yylex stalloc;
   '(r : Z) ← primary uflag stalloc fuel op v op' ne; mret (unop_fn o r)) s.
Proof.
  destruct o; try reflexivity. cbn [unop_code]. rewrite primary_plus.
  cbv [mbind M_bind gets mret M_ret].
  destruct (yylex stalloc s) as [[t|] s1]; [|done].
  by destruct (primary _ _ _ _ _ _ _ s1) as [[]?].
Qed.

Lemma binop2_S fuel a op p ne :
  binop2 uflag stalloc (Datatypes.S fuel) a op p ne =
  ('(token : Z) ← yylex stalloc; '(val : yystype) ← gets yylval; '(t : Z) ← yylex stalloc;
   '(b : Z) ← primary uflag stalloc fuel token val t ne;
   '(op2 : Z) ← gets last_token;
   '(b : Z) ← (if is_binop op2 && (arith_prec op2 <? arith_prec op)
               then binop2 uflag stalloc fuel b op2 (arith_prec op) ne else mret b);
   '(op2 : Z) ← gets last_token;
   '(a : Z) ← (if (ne : bool) then mret b else on_store (do_binop op a b));
   if negb (is_binop op2) || (p <=? arith_prec op2) then mret a
   else binop2 uflag stalloc fuel a op2 p ne).
Proof. reflexivity. Qed.

Lemma binop_S fuel token val op ne :
  binop uflag stalloc (Datatypes.S fuel) token val op ne =
  ('(a : Z) ← primary uflag stalloc fuel token val op ne;
   '(op : Z) ← gets last_token;
   if negb (is_binop op) then mret a else binop2 uflag stalloc fuel a op ARITH_MAX_PREC ne).
Proof. reflexivity. Qed.

Lemma and_S fuel token val op ne :
  and_ uflag stalloc (Datatypes.S fuel) token val op ne =
  ('(a : Z) ← binop uflag stalloc fuel token val op ne;
   '(op : Z) ← gets last_token;
   if negb (op =? ARITH_AND) then mret a
   else
     '(token : Z) ← yylex stalloc; '(val : yystype) ← gets yylval; '(t : Z) ← yylex stalloc;
     '(b : Z) ← and_ uflag stalloc fuel token val t (ne || (a =? 0));
     mret (b2z (negb (a =? 0) && negb (b =? 0)))).
Proof. reflexivity. Qed.

Lemma or_S fuel token val op ne :
  or_ uflag stalloc (Datatypes.S fuel) token val op ne =
  ('(a : Z) ← and_ uflag stalloc fuel token val op ne;
   '(op : Z) ← gets last_token;
   if negb (op =? ARITH_OR) then mret a
   else
     '(token : Z) ← yylex stalloc; '(val : yystype) ← gets yylval; '(t : Z) ← yylex stalloc;
     '(b : Z) ← or_ uflag stalloc fuel token val t (ne || negb (a =? 0));
     mret (b2z (negb (a =? 0) || negb (b =? 0)))).
Proof. reflexivity. Qed.

Lemma cond_S fuel token val op ne :
  cond uflag stalloc (Datatypes.S fuel) token val op ne =
  ('(a : Z) ← or_ uflag stalloc fuel token val op ne;
   '(t : Z) ← gets last_token;
   if negb (t =? ARITH_QMARK) then mret a
   else
     '(t : Z) ← yylex stalloc;
     '(b : Z) ← assignment uflag stalloc fuel t (ne || (a =? 0));
     '(t : Z) ← gets last_token;
     if negb (t =? ARITH_COLON) then yyerror "expecting ':'"
     else
       '(token : Z) ← yylex stalloc; '(val : yystype) ← gets yylval; '(t : Z) ← yylex stalloc;
       '(c : Z) ← cond uflag stalloc fuel token val t (ne || negb (a =? 0));
       mret (if a =? 0 then c else b)).
Proof. reflexivity. Qed.

Lemma assignment_S fuel var ne :
  assignment uflag stalloc (Datatypes.S fuel) var ne =
  ('(val : yystype) ← gets yylval; '(op : Z) ← yylex stalloc;
   if negb (var =? ARITH_VAR) then cond uflag stalloc fuel var val op ne
   else if negb (is_assop op) then cond uflag stalloc fuel var val op ne
   else
     '(t : Z) ← yylex stalloc; '(result : Z) ← assignment uflag stalloc fuel t ne;
     if (ne : bool) then mret result else on_store (assign uflag op (yy_name val) result)).
Proof. reflexivity. Qed.

(** ** Primaries *)

Lemma run_get_yylval {B} (k : yystype -> AM B) s : (gets yylval ≫= k) s = k (yylval s) s.
Proof. reflexivity. Qed.

Lemma run_get_last {B} (k : Z -> AM B) s : (gets last_token ≫= k) s = k (last_token s) s.
Proof. reflexivity. Qed.

(** [val = yylval; t = yylex(); f(val, t)] when [ts] is what follows the token. *)
Lemma out_next (f : yystype -> Z -> AM Z) ne m rest st t ts s :
  store s = st -> here (t :: ts) s ->
  (forall val s', matches t val -> here ts s' -> store s' = st ->
     out ne m rest st (f val (hcode ts) s')) ->
  out ne m rest st (('(val : yystype) ← gets yylval; '(t : Z) ← yylex stalloc; f val t) s).
Proof.
  intros Hst [Hm Hs] Hf. rewrite run_get_yylval.
  destruct (yylex_stream s ts Hs) as (s' & E & Hh & Hst' & _).
  rewrite (run_bind_ok _ _ _ _ _ E). apply Hf; congruence || done.
Qed.

(** [token = yylex(); ...] when the text is [ts]. *)
Lemma out_yylex (f : Z -> AM Z) ne m rest st ts s :
  store s = st -> stream (arith_buf s) ts ->
  (forall s', here ts s' -> store s' = st -> out ne m rest st (f (hcode ts) s')) ->
  out ne m rest st (('(token : Z) ← yylex stalloc; f token) s).
Proof.
  intros Hst Hs Hf. destruct (yylex_stream s ts Hs) as (s' & E & Hh & Hst' & _).
  rewrite (run_bind_ok _ _ _ _ _ E). apply Hf; congruence || done.
Qed.

(** [token = yylex(); val = yylval; t = yylex(); f(token, val, t)]. *)
Lemma out_operand (f : Z -> yystype -> Z -> AM Z) ne m rest st ts0 t ts s :
  store s = st -> ts0 = t :: ts -> stream (arith_buf s) ts0 ->
  (forall val s', matches t val -> here ts s' -> store s' = st ->
     out ne m rest st (f (tok_code t) val (hcode ts) s')) ->
  out ne m rest st (('(token : Z) ← yylex stalloc; '(val : yystype) ← gets yylval;
    '(t : Z) ← yylex stalloc; f token val t) s).
Proof.
  intros Hst -> Hs Hf. eapply out_yylex; [done|exact Hs|]. intros s' Hh Hst'.
  by eapply out_next.
Qed.

Lemma prim_num z : prim_claim (ENum z).
Proof.
  intros fuel t ts val ne rest s [= <- <-] Hm Hh. destruct fuel; [done|]. simpl in *.
  subst val. split_and!; try done. by destruct ne.
Qed.

Lemma prim_var x : prim_claim (EVar x).
Proof.
  intros fuel t ts val ne rest s [= <- <-] [a ->] Hh. destruct fuel; [done|]. simpl in *.
  destruct ne; [by split_and!|]. cbv [mbind M_bind set_last_token modify].
  apply (out_on_store _ rest (mkast (arith_buf s) (yylval s) (hcode rest) (store s)));
    [apply pure_lookup|done|]. by destruct rest.
Qed.

Lemma prim_un o e : prim_claim e -> prim_claim (EUn o e).
Proof.
  intros He fuel t ts val ne rest s E Hm Hh. simpl in E. injection E as <- <-.
  destruct fuel as [|fuel]; [done|].
  destruct (tokens_cons e rest) as (t & ts & E). rewrite E in *.
  assert (forall val s', matches t val -> here ts s' -> store s' = store s ->
    out ne (eval (EUn o e)) rest (store s)
      (('(r : Z) ← primary uflag stalloc fuel (tok_code t) val (hcode ts) ne; mret (unop_fn o r)) s'))
    as G.
  { intros v s' Hv Hs' Hst. rewrite <- Hst. cbn [eval]. eapply out_bind; [by apply He|].
    intros. by apply out_ret. }
  cbn [tok_code]. rewrite primary_unop. change (hcode (t :: ts)) with (tok_code t).
  eapply out_next; [done|exact Hh|]. intros v s' Hv Hs' Hst. by apply G.
Qed.

Lemma prim_paren e : asg_claim e -> prim_claim (EParen e).
Proof.
  intros He fuel t ts val ne rest s E Hm Hh. simpl in E. injection E as <- Ets.
  destruct fuel as [|fuel]; [done|]. cbn [tok_code]. rewrite <- app_assoc in Ets.
  destruct (tokens_cons e ([TOp ARITH_RPAREN] ++ rest)) as (t' & ts' & E).
  rewrite E in Ets. subst ts. change (hcode (t' :: ts')) with (tok_code t'). rewrite primary_lparen.
  eapply (out_ext _ (eval e ≫= mret)).
  { intros st. cbv [mbind M_bind mret M_ret]. cbn [eval]. by destruct (eval e st) as [[]?]. }
  eapply out_bind; [eapply He; [exact E|done|done]|]. intros v s' Hl Hs' _.
  rewrite run_get_last, Hl.
  destruct Hs' as [_ Hs'].
  destruct (yylex_stream s' rest Hs') as (s'' & E' & Hh' & Hst' & _).
  change (hcode ([TOp ARITH_RPAREN] ++ rest) =? ARITH_RPAREN) with true. cbn [negb].  rewrite (run_bind_ok _ _ _ _ _ E'). cbv [mbind M_bind set_last_token modify].
  rewrite <- Hst'. split_and!; try done; by destruct ne.
Qed.

(** ** Binary operators *)

Lemma binop_rank op : is_binop op = true -> rank op = arith_prec op + 1.
Proof. unfold rank. by intros ->. Qed.

Lemma arith_prec_range op : 0 <= arith_prec op < 8.
Proof. unfold arith_prec. repeat case_decide; lia. Qed.

Lemma stops_binop k ts :
  k <= 8 -> stops k ts -> is_binop (hcode ts) && (arith_prec (hcode ts) <? k) = false.
Proof.
  intros Hk. unfold stops, rank. destruct (is_binop (hcode ts)); simpl; [|done].
  intros. by destruct (Z.ltb_spec (arith_prec (hcode ts)) k); [lia|].
Qed.

(** [a op1 e1 op2 e2 ...] from left to right. *)
Fixpoint eval_spine (a : Z) (sg : list (Z * expr)) : M arith_error S Z :=
  match sg with
  | [] => mret a
  | (op, e) :: sg => '(b : Z) ← eval e; '(a : Z) ← do_binop op a b; eval_spine a sg
  end.

Definition sg_tokens (sg : list (Z * expr)) : list tok :=
  flat_map (fun p => TOp p.1 :: tokens p.2) sg.

(** Operators of non-decreasing precedence from [lo], below [k]. *)
Fixpoint spine_ok (P : Z -> expr -> Prop) (k lo : Z) (sg : list (Z * expr)) : Prop :=
  match sg with
  | [] => True
  | (op, e) :: sg =>
      is_binop op = true /\ lo <= arith_prec op < k /\ P (arith_prec op) e /\
      spine_ok P k (arith_prec op) sg
  end.

(** [binop2] as its operand and the rest of the loop. *)
Lemma binop2_unfold fuel a op p ne s :
  binop2 uflag stalloc (Datatypes.S fuel) a op p ne s =
  ('(token : Z) ← yylex stalloc; '(val : yystype) ← gets yylval; '(t : Z) ← yylex stalloc;
   '(b : Z) ← operand fuel (arith_prec op) token val t ne;
   '(op2 : Z) ← gets last_token;
   '(a : Z) ← (if (ne : bool) then mret b else on_store (do_binop op a b));
   if negb (is_binop op2) || (p <=? arith_prec op2) then mret a
   else binop2 uflag stalloc fuel a op2 p ne) s.
Proof.
  rewrite binop2_S. unfold operand. cbv [mbind M_bind gets mret M_ret].
  destruct (yylex stalloc s) as [[t|] s1]; [|done].
  destruct (yylex stalloc s1) as [[t'|] s2]; [|done].
  destruct (primary _ _ _ _ _ _ _ _) as [[b|] s3]; [|done].
  by destruct (is_binop _ && _).
Qed.

Lemma here_store ts s s' :
  here ts s -> arith_buf s' = arith_buf s -> yylval s' = yylval s -> here ts s'.
Proof. intros H E1 E2. destruct ts; simpl in *; by rewrite E1, ?E2. Qed.

Lemma binop2_spine k sg : k <= 8 ->
  forall op e lo fuel a ne rest s,
    spine_ok opnd_claim k lo ((op, e) :: sg) -> stops k rest ->
    stream (arith_buf s) (tokens e ++ sg_tokens sg ++ rest) ->
    out ne (eval_spine a ((op, e) :: sg)) rest (store s)
      (binop2 uflag stalloc fuel a op k ne s).
Proof.
  intros Hk. induction sg as [|[op' e'] sg IH]; intros op e lo fuel a ne rest s Hok Hst Hs;
    (destruct fuel as [|fuel]; [done|]); rewrite binop2_unfold;
    destruct Hok as (Hop & Hp & He & Hok).
  - cbn [sg_tokens flat_map app] in Hs. destruct (tokens_cons e rest) as (t & ts & E).
    eapply out_operand; [done|exact E|exact Hs|]. intros val s1 Hv H1 Hst1.
    rewrite <- Hst1. cbn [eval_spine]. eapply out_bind.
    { apply He; [exact E|done|done|]. unfold stops in *. lia. }
    intros b s2 Hl2 H2 _. rewrite run_get_last, Hl2.
    assert (forall a s3, last_token s3 = hcode rest -> here rest s3 ->
      out ne (mret a) rest (store s3) ((if negb (is_binop (hcode rest)) || (k <=? arith_prec (hcode rest))
        then mret a else binop2 uflag stalloc fuel a (hcode rest) k ne) s3)) as G.
    { intros a' s3 H3 H3'. pose proof (stops_binop k rest Hk Hst) as Hn.
      destruct (is_binop (hcode rest)); simpl in *; [|by apply out_ret].
      destruct (Z.ltb_spec (arith_prec (hcode rest)) k); [done|].
      destruct (Z.leb_spec k (arith_prec (hcode rest))); [|lia]. by apply out_ret. }
    destruct ne.
    + eapply out_ne_any, G; done.
    + eapply out_bind; [apply out_on_store; [apply pure_do_binop|done|done]|].
      intros a' s3 H3 H3' _. by apply G.
  - cbn [sg_tokens flat_map fst snd] in Hs. rewrite <- app_assoc in Hs. cbn [app] in Hs.
    pose proof Hok as (Hop' & Hp' & _).
    destruct (tokens_cons e (TOp op' :: tokens e' ++ sg_tokens sg ++ rest)) as (t & ts & E).
    eapply out_operand; [done|exact E| |].
    { exact Hs. }
    intros val s1 Hv H1 Hst1. rewrite <- Hst1. cbn [eval_spine]. eapply out_bind.
    { apply He; [exact E|done|done|]. unfold stops. cbn [hcode tok_code].
      rewrite binop_rank by done. lia. }
    intros b s2 Hl2 H2 _. rewrite run_get_last, Hl2. cbn [hcode tok_code].
    assert (forall a s3, here (TOp op' :: tokens e' ++ sg_tokens sg ++ rest) s3 ->
      out ne (eval_spine a ((op', e') :: sg)) rest (store s3)
        ((if negb (is_binop op') || (k <=? arith_prec op') then mret a
          else binop2 uflag stalloc fuel a op' k ne) s3)) as G.
    { intros a' s3 [_ H3]. rewrite Hop'. destruct (Z.leb_spec k (arith_prec op')); [lia|].
      cbn [negb orb]. by eapply IH. }
    destruct ne.
    + eapply out_ne_any, G; done.
    + eapply out_bind; [apply out_on_store; [apply pure_do_binop|done|done]|].
      intros a' s3 H3 H3' _. by apply G.
Qed.

Fixpoint spine (e : expr) : expr * list (Z * expr) :=
  match e with
  | EBin op l r => let (p, sg) := spine l in (p, sg ++ [(op, r)])
  | _ => (e, [])
  end.

Lemma spine_tokens e : tokens e = tokens (spine e).1 ++ sg_tokens (spine e).2.
Proof.
  induction e as [| | | |op l IH r _| | | |]; simpl; rewrite ?app_nil_r; try done.
  destruct (spine l) as [p sg]. simpl in *. unfold sg_tokens in *.
  rewrite flat_map_app, IH, <- app_assoc. simpl. by rewrite app_nil_r.
Qed.

Lemma eval_spine_app sg sg' a st :
  eval_spine a (sg ++ sg') st = (eval_spine a sg ≫= fun a => eval_spine a sg') st.
Proof.
  revert a st. induction sg as [|[op e] sg IH]; intros a st; simpl; [done|].
  cbv [mbind M_bind] in *. destruct (eval e st) as [[b|] st1]; [|done].
  destruct (do_binop op a b st1) as [[a'|] st2]; [|done]. apply IH.
Qed.

Lemma spine_eval e st : eval e st = (eval (spine e).1 ≫= fun a => eval_spine a (spine e).2) st.
Proof.
  revert st. induction e as [| | | |op l IH r _| | | |]; intros st;
    try (cbn [spine fst snd eval_spine]; cbv [mbind M_bind mret M_ret];
         by match goal with |- _ = match ?x with _ => _ end => destruct x as [[]?] end).
  cbn [spine eval]. destruct (spine l) as [p sg]. cbn [fst snd] in *. cbv [mbind M_bind] in *.
  rewrite IH. destruct (eval p st) as [[a|] st1]; [|done].
  rewrite eval_spine_app. cbv [mbind M_bind].
  destruct (eval_spine a sg st1) as [[a'|] st2]; [|done]. cbn [eval_spine].
  cbv [mbind M_bind mret M_ret]. destruct (eval r st2) as [[b|] st3]; [|done].
  by destruct (do_binop op a' b st3) as [[]?].
Qed.

Lemma spine_ok_app (P : Z -> expr -> Prop) k lo sg op r :
  is_binop op = true -> arith_prec op < k -> lo <= arith_prec op -> P (arith_prec op) r ->
  spine_ok P (arith_prec op + 1) lo sg -> spine_ok P k lo (sg ++ [(op, r)]).
Proof.
  intros Hop Hk. revert lo. induction sg as [|[op' e'] sg IH]; intros lo Hlo Hr; simpl.
  - intros _. split_and!; try done; lia.
  - intros (H1 & H2 & H3 & H4). split_and!; try done; try lia. apply IH; try done. lia.
Qed.

Lemma level_range e : 0 <= level e <= 12.
Proof. destruct e; simpl; try lia. pose proof (arith_prec_range op). lia. Qed.

Fixpoint size (e : expr) : nat :=
  match e with
  | ENum _ | EVar _ => 1
  | EParen e | EUn _ e | EAsg _ _ e => Datatypes.S (size e)
  | EBin _ l r | EAnd l r | EOr l r => Datatypes.S (size l + size r)
  | ECond a b c => Datatypes.S (size a + size b + size c)
  end.

Lemma spine_wf (P : Z -> expr -> Prop) e k :
  wf e = true -> level e <= k -> k <= 8 ->
  (forall r j, (size r < size e)%nat -> wf r = true -> level r <= j -> j <= 8 -> P j r) ->
  level (spine e).1 = 0 /\ wf (spine e).1 = true /\ (size (spine e).1 <= size e)%nat /\
  spine_ok P k 0 (spine e).2.
Proof.
  revert k. induction e as [| | | |op l IH r _| | | |]; intros k Hw Hl Hk HP; simpl in *;
    try (by split_and!); try lia.
  rewrite !andb_true_iff, !Z.leb_le in Hw. destruct Hw as ((((Hop & Hwl) & Hwr) & Hll) & Hlr).
  pose proof (arith_prec_range op).
  destruct (IH (arith_prec op + 1) Hwl Hll ltac:(lia)) as (L0 & W0 & S0 & O0).
  { intros. apply HP; try done. lia. }
  destruct (spine l) as [p sg]. simpl in *. split_and!; try done; [lia|].
  apply spine_ok_app; try done; try lia. apply HP; try done; lia.
Qed.

(** ** All levels *)

Definition claim (k : Z) (f : nat -> Z -> yystype -> Z -> bool -> AM Z) (e : expr) : Prop :=
  forall fuel t ts val ne rest s,
    tokens e ++ rest = t :: ts -> matches t val -> here ts s -> stops k rest ->
    out ne (eval e) rest (store s) (f fuel (tok_code t) val (hcode ts) ne s).

Section Claims.
Context (n : nat).
Hypothesis IH : forall e, (size e < n)%nat -> wf e = true ->
  asg_claim e /\ (level e <= 11 -> claim 11 (cond uflag stalloc) e) /\
  (level e <= 10 -> claim 10 (or_ uflag stalloc) e) /\
  (level e <= 9 -> claim 9 (and_ uflag stalloc) e) /\
  (level e <= 8 -> claim 8 (binop uflag stalloc) e) /\
  (forall k, level e <= k <= 8 -> opnd_claim k e) /\ (level e <= 0 -> prim_claim e).

Lemma claim_prim e : (size e <= n)%nat -> wf e = true -> level e <= 0 -> prim_claim e.
Proof.
  intros Hs Hw Hl. destruct e as [z|x|e|o e|op l r| | | |]; simpl in *; try lia.
  - apply prim_num.
  - apply prim_var.
  - apply prim_paren. apply IH; [lia|done].
  - rewrite andb_true_iff, Z.leb_le in Hw. destruct Hw as [Hw Hl']. apply prim_un.
    apply IH; (done || lia).
  - pose proof (arith_prec_range op). lia.
Qed.

Lemma claim_opnd e k : (size e <= n)%nat -> wf e = true -> level e <= k <= 8 -> opnd_claim k e.
Proof.
  intros Hs Hw Hl fuel t ts val ne rest s E Hm Hh Hst.
  destruct (spine_wf opnd_claim e k Hw) as (L0 & W0 & S0 & O0); [lia|lia| |].
  { intros r j Hr Hwr Hlr Hj. apply IH; [lia|done|lia]. }
  rewrite spine_tokens, <- app_assoc in E.
  eapply out_ext; [intros st; symmetry; apply spine_eval|]. unfold operand.
  eapply out_bind; [eapply claim_prim; [|done|lia|exact E|done|done]; lia|].
  intros a s' Hl' Hh' _. rewrite run_get_last, Hl'.
  destruct (spine e).2 as [|[op e'] sg].
  - cbn [sg_tokens flat_map app]. rewrite stops_binop by (done || lia). by apply out_ret.
  - pose proof O0 as (Hop & Hp & _). cbn [sg_tokens flat_map fst snd app hcode tok_code] in *.
    rewrite Hop. destruct (Z.ltb_spec (arith_prec op) k); [|lia]. cbn [andb].
    eapply binop2_spine; [lia|exact O0|done|]. destruct Hh' as [_ Hh'].
    by rewrite <- app_assoc in Hh'.
Qed.

Lemma claim_binop e : (size e <= n)%nat -> wf e = true -> level e <= 8 ->
  claim 8 (binop uflag stalloc) e.
Proof.
  intros Hs Hw Hl fuel t ts val ne rest s E Hm Hh Hst. destruct fuel as [|fuel]; [done|].
  pose proof (claim_opnd e 8 Hs Hw ltac:(lia) fuel t ts val ne rest s E Hm Hh Hst) as H.
  rewrite binop_S. unfold operand in H. cbv [mbind M_bind gets] in *.
  destruct (primary _ _ _ _ _ _ _ s) as [[a|] s']; [|done].
  pose proof (arith_prec_range (last_token s')).
  destruct (Z.ltb_spec (arith_prec (last_token s')) 8); [|lia].
  rewrite andb_true_r in H. by destruct (is_binop (last_token s')).
Qed.

Lemma stops_weaken j k ts : j <= k -> stops k ts -> stops j ts.
Proof. unfold stops. lia. Qed.

Lemma stops_not k ts c : stops k ts -> rank c <= k -> (hcode ts =? c) = false.
Proof. unfold stops. intros H Hc. destruct (Z.eqb_spec (hcode ts) c); [|done]. subst. lia. Qed.

Lemma claim_and e : (size e <= n)%nat -> wf e = true -> level e <= 9 ->
  claim 9 (and_ uflag stalloc) e.
Proof.
  intros Hs Hw Hl fuel t ts val ne rest s E Hm Hh Hst. destruct fuel as [|fuel]; [done|].
  rewrite and_S. destruct (decide (level e <= 8)) as [L8|L8].
  - eapply (out_ext _ (eval e ≫= mret)).
    { intros st. cbv [mbind M_bind mret M_ret]. by destruct (eval e st) as [[]?]. }
    eapply out_bind.
    { eapply claim_binop; try done. by eapply (stops_weaken 8 9). }
    intros a s' Hl' Hh' _. rewrite run_get_last, Hl'. rewrite (stops_not 9) by done.
    by apply out_ret.
  - destruct e as [| | | |op ? ?|l r| | |]; simpl in Hl, L8; try lia.
    { pose proof (arith_prec_range op). lia. }
    simpl in Hw, Hs. rewrite !andb_true_iff, !Z.leb_le in Hw. destruct Hw as (((Hwl & Hwr) & Hll) & Hlr).
    simpl in E. rewrite <- app_assoc in E. cbn [eval]. eapply out_bind.
    { eapply IH; try done; lia. }
    intros a s' Hl' [_ Hh'] _. rewrite run_get_last, Hl'.
    change (hcode ((TOp ARITH_AND :: tokens r) ++ rest) =? ARITH_AND) with true. cbn [negb].
    destruct (tokens_cons r rest) as (t' & ts' & E').
    eapply out_operand; [done|exact E'|exact Hh'|]. intros v' s2 Hv2 Hh2 Hst2. rewrite <- Hst2.
    destruct ne; [|destruct (Z.eqb_spec a 0) as [->|Ha]]; cbn [orb negb andb].
    + eapply (out_skip _ (eval r)); [eapply IH; try done; lia|].
      intros b s3 Hl3 Hh3 Hst3. rewrite <- Hst3. by eapply out_ne_any, out_ret.
    + eapply (out_skip _ (eval r)); [eapply IH; try done; lia|].
      intros b s3 Hl3 Hh3 Hst3. rewrite <- Hst3. by apply out_ret.
    + eapply out_bind; [eapply IH; try done; lia|]. intros. by apply out_ret.
Qed.

Lemma claim_or e : (size e <= n)%nat -> wf e = true -> level e <= 10 ->
  claim 10 (or_ uflag stalloc) e.
Proof.
  intros Hs Hw Hl fuel t ts val ne rest s E Hm Hh Hst. destruct fuel as [|fuel]; [done|].
  rewrite or_S. destruct (decide (level e <= 9)) as [L9|L9].
  - eapply (out_ext _ (eval e ≫= mret)).
    { intros st. cbv [mbind M_bind mret M_ret]. by destruct (eval e st) as [[]?]. }
    eapply out_bind.
    { eapply claim_and; try done. by eapply (stops_weaken 9 10). }
    intros a s' Hl' Hh' _. rewrite run_get_last, Hl'. rewrite (stops_not 10) by done.
    by apply out_ret.
  - destruct e as [| | | |op ? ?| |l r| |]; simpl in Hl, L9; try lia.
    { pose proof (arith_prec_range op). lia. }
    simpl in Hw, Hs. rewrite !andb_true_iff, !Z.leb_le in Hw. destruct Hw as (((Hwl & Hwr) & Hll) & Hlr).
    simpl in E. rewrite <- app_assoc in E. cbn [eval]. eapply out_bind.
    { eapply IH; try done; lia. }
    intros a s' Hl' [_ Hh'] _. rewrite run_get_last, Hl'.
    change (hcode ((TOp ARITH_OR :: tokens r) ++ rest) =? ARITH_OR) with true. cbn [negb].
    destruct (tokens_cons r rest) as (t' & ts' & E').
    eapply out_operand; [done|exact E'|exact Hh'|]. intros v' s2 Hv2 Hh2 Hst2. rewrite <- Hst2.
    destruct ne; [|destruct (Z.eqb_spec a 0) as [->|Ha]]; cbn [orb negb andb].
    + eapply (out_skip _ (eval r)); [eapply IH; try done; lia|].
      intros b s3 Hl3 Hh3 Hst3. rewrite <- Hst3. by eapply out_ne_any, out_ret.
    + eapply out_bind; [eapply IH; try done; lia|]. intros. by apply out_ret.
    + eapply (out_skip _ (eval r)); [eapply IH; try done; lia|].
      intros b s3 Hl3 Hh3 Hst3. rewrite <- Hst3. by apply out_ret.
Qed.

Lemma claim_cond e : (size e <= n)%nat -> wf e = true -> level e <= 11 ->
  claim 11 (cond uflag stalloc) e.
Proof.
  intros Hs Hw Hl fuel t ts val ne rest s E Hm Hh Hst. destruct fuel as [|fuel]; [done|].
  rewrite cond_S. destruct (decide (level e <= 10)) as [L10|L10].
  - eapply (out_ext _ (eval e ≫= mret)).
    { intros st. cbv [mbind M_bind mret M_ret]. by destruct (eval e st) as [[]?]. }
    eapply out_bind.
    { eapply claim_or; try done. by eapply (stops_weaken 10 11). }
    intros a s' Hl' Hh' _. rewrite run_get_last, Hl'. rewrite (stops_not 11) by done.
    by apply out_ret.
  - destruct e as [| | | |op ? ?| | |a b c|]; simpl in Hl, L10; try lia.
    { pose proof (arith_prec_range op). lia. }
    simpl in Hw, Hs. rewrite !andb_true_iff, !Z.leb_le in Hw.
    destruct Hw as ((((Hwa & Hwb) & Hwc) & Hla) & Hlc).
    simpl in E. rewrite <- app_assoc in E. cbn [eval]. eapply out_bind.
    { eapply IH; try done; lia. }
    intros v s' Hl' [_ Hh'] _. rewrite run_get_last, Hl'.
    change (hcode ((TOp ARITH_QMARK :: tokens b ++ TOp ARITH_COLON :: tokens c) ++ rest)
            =? ARITH_QMARK) with true. cbn [negb].
    rewrite <- app_assoc in Hh'. cbn [app] in Hh'.
    destruct (tokens_cons b (TOp ARITH_COLON :: tokens c ++ rest)) as (t1 & ts1 & E1).
    destruct (tokens_cons c rest) as (t2 & ts2 & E2).
    eapply out_yylex; [done|exact Hh'|]. intros s1 Hh1 Hst1. rewrite E1 in *.
    change (hcode (t1 :: ts1)) with (tok_code t1). rewrite <- Hst1.
    assert (forall ne, out ne (eval b) (TOp ARITH_COLON :: tokens c ++ rest) (store s1)
      (assignment uflag stalloc fuel (tok_code t1) ne s1)) as Hb.
    { intros ne'. eapply IH; try done; lia. }
    assert (forall ne val s, matches t2 val -> here ts2 s ->
      out ne (eval c) rest (store s)
        (cond uflag stalloc fuel (tok_code t2) val (hcode ts2) ne s)) as Hc.
    { intros. eapply IH; try done; lia. }
    assert (forall ne m w s2, last_token s2 = ARITH_COLON ->
      here (TOp ARITH_COLON :: tokens c ++ rest) s2 ->
      (forall val s3, matches t2 val -> here ts2 s3 -> store s3 = store s2 ->
        out ne m rest (store s2)
          (('(c : Z) ← cond uflag stalloc fuel (tok_code t2) val (hcode ts2)
              (ne || negb (v =? 0)); mret (if v =? 0 then c else w)) s3)) ->
      out ne m rest (store s2)
        (('(t : Z) ← gets last_token;
          if negb (t =? ARITH_COLON) then yyerror "expecting ':'"
          else
            '(token : Z) ← yylex stalloc; '(val : yystype) ← gets yylval;
            '(t : Z) ← yylex stalloc;
            '(c : Z) ← cond uflag stalloc fuel token val t (ne || negb (v =? 0));
            mret (if v =? 0 then c else w)) s2)) as Tail.
    { intros ne' m w s2 Hl2 [_ Hh2] K. rewrite run_get_last, Hl2.
      change (ARITH_COLON =? ARITH_COLON) with true. cbn [negb].
      eapply out_operand; [done|exact E2|exact Hh2|exact K]. }
    destruct ne; [|destruct (Z.eqb_spec v 0) as [->|Hv]]; cbn [orb negb].
    + eapply (out_skip _ (eval b)); [apply Hb|]. intros w s2 Hl2 Hh2 Hst2. rewrite <- Hst2.
      apply Tail; [done|done|]. intros v' s3 Hv3 Hh3 Hst3. rewrite <- Hst3.
      eapply (out_skip _ (eval c)); [by apply Hc|]. intros x s4 Hl4 Hh4 Hst4. rewrite <- Hst4.
      by eapply out_ne_any, out_ret.
    + eapply (out_skip _ (eval b)); [apply Hb|]. intros w s2 Hl2 Hh2 Hst2. rewrite <- Hst2.
      apply (Tail false (eval c) w s2 Hl2 Hh2). intros v' s3 Hv3 Hh3 Hst3. rewrite <- Hst3.
      eapply (out_ext _ (eval c ≫= mret)).
      { intros st. cbv [mbind M_bind mret M_ret]. by destruct (eval c st) as [[]?]. }
      eapply out_bind; [by apply Hc|]. intros. by apply out_ret.
    + eapply (out_ext _ (eval b ≫= mret)).
      { intros st. cbv [mbind M_bind mret M_ret]. by destruct (eval b st) as [[]?]. }
      eapply out_bind; [apply Hb|]. intros w s2 Hl2 Hh2 _.
      pose proof (Tail false (mret w) w s2 Hl2 Hh2) as T.
      destruct (Z.eqb_spec v 0); [done|]. cbn [orb negb] in T. apply T.
      intros v' s3 Hv3 Hh3 Hst3. rewrite <- Hst3.
      eapply (out_skip _ (eval c)); [by apply Hc|]. intros x s4 Hl4 Hh4 Hst4. rewrite <- Hst4.
      by apply out_ret.
Qed.

(** An expression that is not an assignment does not start like one. *)
Lemma second_not_assop e x rest ts :
  wf e = true -> level e <= 11 -> is_assop (hcode rest) = false ->
  tokens e ++ rest = TVar x :: ts -> is_assop (hcode ts) = false.
Proof.
  assert (forall op, is_binop op = true -> is_assop op = false) as B.
  { intros op. unfold is_binop, is_assop, ARITH_BINOP_MIN, ARITH_BINOP_MAX, ARITH_ASS,
      ARITH_ASS_MIN, ARITH_ASS_MAX. rewrite andb_true_iff, Z.leb_le, Z.ltb_lt. intros [? ?].
    destruct (Z.eqb_spec op 1), (Z.leb_spec 24 op); try lia; done. }
  revert rest. induction e; intros rest Hw Hl Hr E; simpl in *;
    rewrite ?andb_true_iff, ?Z.leb_le in Hw; try (injection E as -> <-; done); try lia;
    try discriminate; rewrite <- app_assoc in E; destruct_and!.
  - pose proof (arith_prec_range op). eapply IHe1; [done|lia| |exact E]. by apply B.
  - eapply IHe1; [done|lia| |exact E]. done.
  - eapply IHe1; [done|lia| |exact E]. done.
  - eapply IHe1; [done|lia| |exact E]. done.
Qed.

Lemma first_op e c rest ts : tokens e ++ rest = TOp c :: ts -> c <> ARITH_VAR.
Proof.
  revert rest. induction e as [| | |o e J|op l J r _|l J r _|l J r _|a J b _ c' _|];
    intros rest E; simpl in E; try discriminate; try (rewrite <- app_assoc in E; by eapply J).
  - by injection E as <- _.
  - by destruct o; injection E as <- _.
Qed.

Lemma stops_assop ts : stops 12 ts -> is_assop (hcode ts) = false.
Proof.
  unfold stops, rank. pose proof (arith_prec_range (hcode ts)).
  destruct (is_binop _); [lia|]. repeat (destruct (_ =? _); [lia|]).
  destruct (is_assop _); [lia|done].
Qed.

Lemma assop_code op : is_assop op = true -> (op =? 0) = false.
Proof. by destruct (Z.eqb_spec op 0) as [->|]. Qed.

Lemma claim_asg e : (size e <= n)%nat -> wf e = true -> asg_claim e.
Proof.
  intros Hs Hw fuel t ts ne rest s E Hh Hst. destruct fuel as [|fuel]; [done|].
  rewrite assignment_S. eapply out_next; [done|exact Hh|]. intros val s' Hm Hh' Hst'.
  destruct (decide (level e <= 11)) as [L|L].
  - assert (out ne (eval e) rest (store s)
      (cond uflag stalloc fuel (tok_code t) val (hcode ts) ne s')) as C.
    { rewrite <- Hst'. eapply claim_cond; try done. by eapply (stops_weaken 11 12). }
    destruct (Z.eqb_spec (tok_code t) ARITH_VAR) as [Et|]; cbn [negb]; [|exact C].
    assert (is_assop (hcode ts) = false) as ->; [|exact C].
    destruct t as [z|x|c]; [done| |].
    + eapply second_not_assop; try done. by apply stops_assop.
    + by destruct (first_op _ _ _ _ E).
  - destruct e as [| | | |op ? ?| | |a b c|op x e]; simpl in L; try lia.
    { pose proof (arith_prec_range op). lia. }
    simpl in Hw, Hs. rewrite andb_true_iff in Hw. destruct Hw as [Hop Hwe].
    simpl in E. injection E as <- <-. cbn [tok_code hcode]. destruct Hm as [a ->].
    change (ARITH_VAR =? ARITH_VAR) with true. cbn [negb]. rewrite Hop. cbn [negb].
    destruct Hh' as [_ Hh']. destruct (tokens_cons e rest) as (t' & ts' & E').
    eapply out_yylex; [done|exact Hh'|]. intros s2 Hh2 Hst2. rewrite E' in *.
    change (hcode (t' :: ts')) with (tok_code t'). rewrite <- Hst2.
    cbn [eval yy_name]. destruct ne.
    + eapply (out_skip _ (eval e)); [eapply IH; try done; lia|].
      intros v s3 Hl3 Hh3 Hst3. rewrite <- Hst3. by eapply out_ne_any, out_ret.
    + eapply out_bind; [eapply IH; try done; lia|]. intros v s3 Hl3 Hh3 _.
      apply out_on_store; [apply pure_assign|done|done].
Qed.
End Claims.

Lemma all_claims e : wf e = true -> asg_claim e.
Proof.
  intros Hw. assert (forall n e, (size e < n)%nat -> wf e = true ->
    asg_claim e /\ (level e <= 11 -> claim 11 (cond uflag stalloc) e) /\
    (level e <= 10 -> claim 10 (or_ uflag stalloc) e) /\
    (level e <= 9 -> claim 9 (and_ uflag stalloc) e) /\
    (level e <= 8 -> claim 8 (binop uflag stalloc) e) /\
    (forall k, level e <= k <= 8 -> opnd_claim k e) /\ (level e <= 0 -> prim_claim e)) as H.
  { intros n. induction n as [|n IH]; intros e' Hs Hw'; [lia|].
    assert (size e' <= n)%nat as Hs' by lia.
    split_and!; intros; [eapply claim_asg|eapply claim_cond|eapply claim_or|eapply claim_and|
      eapply claim_binop|eapply claim_opnd|eapply claim_prim]; eauto. }
  apply (H (Datatypes.S (size e))); [lia|done].
Qed.

Lemma eval_no_fuel e : pure_store (eval e).
Proof.
  induction e; cbn [eval]; repeat first
    [ done | apply pure_lookup | apply pure_do_binop | apply pure_assign
    | apply pure_bind; [|intros ?] | destruct (_ =? _) ].
Qed.

(** Any text with the tokens of an expression has its meaning. *)
Lemma arith_eval yl lt s e st :
  wf e = true -> stream s (tokens e) -> arith_from uflag stalloc yl lt s st = eval e st.
Proof.
  intros Hw Hs. pose proof (arith_from_no_fuel uflag stalloc yl lt s st) as NF.
  unfold arith_from, arith_run in *.
  destruct (yylex_stream (mkast s yl lt st) (tokens e) Hs) as (s1 & E1 & H1 & S1 & _).
  rewrite (run_bind_ok _ _ _ _ _ E1) in *. cbn [store] in S1.
  destruct (tokens_cons e []) as (t & ts & E). rewrite app_nil_r in E. rewrite E in *.
  pose proof (all_claims e Hw (arith_fuel s) t ts false [] s1) as C.
  rewrite app_nil_r in C. specialize (C E H1 ltac:(done)). rewrite S1 in C.
  change (hcode (t :: ts)) with (tok_code t) in *. cbv [mbind M_bind gets] in *.
  destruct (assignment uflag stalloc (arith_fuel s) (tok_code t) false s1) as [[v|er] s2].
  - destruct C as (Hl & _ & ->). rewrite Hl. done.
  - unfold out in C. destruct er; [by destruct C as [_ ->]|by destruct C as [_ ->]|].
    by destruct (NF (store s2)).
Qed.

(** ** Values are 64 bits wide *)

Definition ranged (m : M arith_error S Z) : Prop :=
  forall st, match m st with (Ok v, _) => fits64 v | _ => True end.

Lemma ranged_ret v : fits64 v -> ranged (mret v).
Proof. by intros H st. Qed.

Lemma ranged_bind {A} (m : M arith_error S A) (k : A -> M arith_error S Z) :
  (forall a, ranged (k a)) -> ranged (m ≫= k).
Proof.
  intros H st. cbv [mbind M_bind]. destruct (m st) as [[a|] st']; [apply H|done].
Qed.

Lemma ranged_bind2 (m : M arith_error S Z) (k : Z -> M arith_error S Z) :
  ranged m -> (forall a, fits64 a -> ranged (k a)) -> ranged (m ≫= k).
Proof.
  intros Hm H st. cbv [mbind M_bind]. specialize (Hm st).
  destruct (m st) as [[a|] st']; [by apply H|done].
Qed.

Lemma s64_fits z : fits64 (s64 z).
Proof. unfold fits64, INTMAX_MIN, INTMAX_MAX. pose proof (swrap_range 64 z ltac:(lia)). lia. Qed.

Lemma b2z_fits b : fits64 (b2z b).
Proof. destruct b; unfold fits64, INTMAX_MIN, INTMAX_MAX; simpl; lia. Qed.

Lemma fits_shiftr z : fits64 z <-> Z.shiftr z 63 = 0 \/ Z.shiftr z 63 = -1.
Proof.
  unfold fits64, INTMAX_MIN, INTMAX_MAX. rewrite Z.shiftr_div_pow2 by lia.
  pose proof (Z.div_mod z (2 ^ 63)). pose proof (Z.mod_pos_bound z (2 ^ 63)). split.
  - intros Hz. assert (-1 <= z / 2 ^ 63 < 1); [|lia].
    split; [apply Z.div_le_lower_bound; lia|apply Z.div_lt_upper_bound; lia].
  - intros [E|E]; rewrite E in *; lia.
Qed.

Lemma land_fits a b : fits64 a -> fits64 b -> fits64 (Z.land a b).
Proof. rewrite !fits_shiftr, Z.shiftr_land. intros [-> | ->] [-> | ->]; simpl; auto. Qed.

Lemma lor_fits a b : fits64 a -> fits64 b -> fits64 (Z.lor a b).
Proof. rewrite !fits_shiftr, Z.shiftr_lor. intros [-> | ->] [-> | ->]; simpl; auto. Qed.

Lemma lxor_fits a b : fits64 a -> fits64 b -> fits64 (Z.lxor a b).
Proof. rewrite !fits_shiftr, Z.shiftr_lxor. intros [-> | ->] [-> | ->]; simpl; auto. Qed.

Lemma shiftr_fits a n : 0 <= n -> fits64 a -> fits64 (Z.shiftr a n).
Proof.
  intros Hn. rewrite !fits_shiftr, Z.shiftr_shiftr, Z.add_comm, <- Z.shiftr_shiftr by lia.
  intros [-> | ->]; [left; apply Z.shiftr_0_l|right].
  rewrite Z.shiftr_div_pow2 by lia. assert (0 < 2 ^ n) by (apply Z.pow_pos_nonneg; lia).
  symmetry. apply (Z.div_unique _ _ _ (2 ^ n - 1)); lia.
Qed.

Lemma lnot_fits a : fits64 a -> fits64 (Z.lnot a).
Proof. unfold fits64, INTMAX_MIN, INTMAX_MAX, Z.lnot, Z.pred. lia. Qed.

Lemma quot_fits a b :
  fits64 a -> fits64 b -> b <> 0 -> ~ (a = ARITH_MIN /\ b = -1) -> fits64 (Z.quot a b).
Proof.
  unfold fits64, INTMAX_MIN, INTMAX_MAX, ARITH_MIN. intros Ha Hb H0 Hm.
  assert (Z.abs (Z.quot a b) <= Z.abs a) as Hq.
  { rewrite <- Z.quot_abs by done. apply Z.quot_le_upper_bound; [lia|].
    assert (1 <= Z.abs b) by lia. nia. }
  destruct (decide (a = - 2 ^ 63)) as [->|]; [|lia].
  destruct (decide (Z.quot (- 2 ^ 63) b = 2 ^ 63)) as [E|]; [|lia].
  exfalso. pose proof (Z.quot_rem (- 2 ^ 63) b H0). pose proof (Z.rem_bound_abs (- 2 ^ 63) b H0).
  rewrite E in *. assert (b = -1 \/ b = -2 ^ 63 * 0 + b) by lia. nia.
Qed.

Lemma rem_fits a b : fits64 a -> fits64 b -> b <> 0 -> fits64 (Z.rem a b).
Proof.
  unfold fits64, INTMAX_MIN, INTMAX_MAX. intros Ha Hb H0.
  pose proof (Z.rem_bound_abs a b H0). lia.
Qed.

Lemma do_binop_ranged op a b : fits64 a -> fits64 b -> ranged (do_binop op a b).
Proof.
  intros Ha Hb st. unfold do_binop.
  assert (0 <= Z.land b 63) as Hs by (apply Z.land_nonneg; lia).
  repeat (destruct (op =? _); [simpl; first [ apply s64_fits | apply b2z_fits | by apply land_fits
    | by apply lor_fits | by apply lxor_fits | by apply shiftr_fits]|]).
  destruct (Z.eqb_spec b 0) as [|Hb0]; [done|].
  destruct (Z.eqb_spec a ARITH_MIN), (Z.eqb_spec b (-1)); simpl; try done;
    (destruct (op =? ARITH_REM); [by apply rem_fits|apply quot_fits; try done; tauto]).
Qed.

Lemma lookup_ranged x : ranged (arith_lookupvarint uflag x).
Proof.
  intros st. unfold arith_lookupvarint. cbv [get mbind M_bind].
  assert (fits64 0) as F0 by (unfold fits64, INTMAX_MIN, INTMAX_MAX; lia).
  destruct (vs_lookup x st) as [[|c w]|]; [done| |by destruct uflag].
  destruct (_ || _); [done|]. apply strtol0_range.
Qed.

(** The numbers of an expression fit. *)
Fixpoint nums_fit (e : expr) : Prop :=
  match e with
  | ENum z => fits64 z
  | EVar _ => True
  | EParen e | EUn _ e | EAsg _ _ e => nums_fit e
  | EBin _ l r | EAnd l r | EOr l r => nums_fit l /\ nums_fit r
  | ECond a b c => nums_fit a /\ nums_fit b /\ nums_fit c
  end.

Lemma assign_ranged op x r : fits64 r -> ranged (assign uflag op x r).
Proof.
  intros Hr. unfold assign. apply ranged_bind2.
  - destruct (op =? ARITH_ASS); [by apply ranged_ret|].
    apply ranged_bind2; [apply lookup_ranged|]. intros. by apply do_binop_ranged.
  - intros a Ha. apply ranged_bind. intros _. by apply ranged_ret.
Qed.

Lemma eval_ranged e : nums_fit e -> ranged (eval e).
Proof.
  induction e as [z|x|e IH|o e IH|op l IHl r IHr|l IHl r IHr|l IHl r IHr|a IHa b IHb c IHc|op x e IH];
    simpl; intros H; destruct_and?.
  - by apply ranged_ret.
  - apply lookup_ranged.
  - auto.
  - apply ranged_bind2; [auto|]. intros r Hr. apply ranged_ret.
    destruct o; simpl; auto using s64_fits, b2z_fits, lnot_fits.
  - apply ranged_bind2; [auto|]. intros a Ha. apply ranged_bind2; [auto|].
    intros b Hb. by apply do_binop_ranged.
  - apply ranged_bind. intros a. destruct (a =? 0); [apply ranged_ret, (b2z_fits false)|].
    apply ranged_bind. intros b. apply ranged_ret, b2z_fits.
  - apply ranged_bind. intros a. destruct (a =? 0); [|apply ranged_ret, (b2z_fits true)].
    apply ranged_bind. intros b. apply ranged_ret, b2z_fits.
  - apply ranged_bind. intros v. destruct (v =? 0); auto.
  - apply ranged_bind2; [auto|]. intros r Hr. by apply assign_ranged.
Qed.

Lemma stream_nums s e rest : stream s (tokens e ++ rest) -> nums_fit e /\ exists s', stream s' rest.
Proof.
  assert (forall c ts s, stream s (TOp c :: ts) -> exists s', stream s' ts) as Hop.
  { intros c ts s' H. inv H. eauto. }
  revert s rest. induction e as [z|x|e IH|o e IH|op l IHl r IHr|l IHl r IHr|l IHl r IHr|a IHa b IHb c IHc|op x e IH];
    intros s rest H; simpl in *; rewrite <- ?app_assoc in H; cbn [app] in H.
  - inv H as [|? ? ? ? E|? ? ? ? ? E|]. split; [|eauto].
    unfold lex in E. destruct (skip_blank s) as [|c r]; [done|].
    destruct (isdigit c) eqn:Hc; [|destruct (is_name c); [by destruct (name_end r)|
      by destruct (lex_op c r) as [[]|]]].
    injection E as E _. pose proof (strtol0_digit c r Hc) as D.
    destruct (strtol_base _) as [base s3], (digits base 0 s3) as [v e].
    destruct D as [D _]. rewrite D in E. simpl in E. subst. apply saturate_range.
  - split; [done|]. inv H; eauto.
  - apply Hop in H as [s' H]. apply IH in H as [? [s'' H]].
    split; [done|]. by apply Hop in H.
  - apply Hop in H as [s' H]. by apply IH in H.
  - apply IHl in H as [? [s' H]]. apply Hop in H as [s'' H]. apply IHr in H as [? ?]. auto.
  - apply IHl in H as [? [s' H]]. apply Hop in H as [s'' H]. apply IHr in H as [? ?]. auto.
  - apply IHl in H as [? [s' H]]. apply Hop in H as [s'' H]. apply IHr in H as [? ?]. auto.
  - apply IHa in H as [? [s' H]]. apply Hop in H as [s'' H].
    rewrite <- ?app_assoc in H. cbn [app] in H. apply IHb in H as [? [s3 H]]. apply Hop in H as [s4 H]. apply IHc in H as [? ?]. auto.
  - inv H as [| |? ? ? ? ? ? H'|]. apply Hop in H' as [s'' H']. by apply IH in H'.
Qed.

(** ** Assignment and the variables' interface *)

(** What the evaluator relies on: an assignment that succeeds is seen by later lookups
    of that name and of no other. *)
Class VarStoreLaws := {
  vs_ok : S -> Prop;
  vs_name : string -> bool;
  vs_set_lookup : forall n v st st', vs_ok st -> vs_name n = true ->
    vs_set n v st = (Ok tt, st') ->
    vs_ok st' /\ vs_lookup n st' = Some v /\
    forall m, vs_name m = true -> m <> n -> vs_lookup m st' = vs_lookup m st;
  vs_set_error : forall n v st e st', vs_ok st -> vs_name n = true ->
    vs_set n v st = (Ex e, st') ->
    vs_ok st' /\ forall m, vs_name m = true -> vs_lookup m st' = vs_lookup m st }.

Context {VL : VarStoreLaws}.

(** Every variable the expression assigns has an admissible name. *)
Fixpoint names_ok (e : expr) : bool :=
  match e with
  | ENum _ | EVar _ => true
  | EParen e | EUn _ e => names_ok e
  | EBin _ l r | EAnd l r | EOr l r => names_ok l && names_ok r
  | ECond a b c => names_ok a && names_ok b && names_ok c
  | EAsg _ x e => vs_name x && names_ok e
  end.

Definition keeps_ok {A} (m : M arith_error S A) : Prop := forall st, vs_ok st -> vs_ok (m st).2.

Lemma keeps_ok_bind {A B} (m : M arith_error S A) (k : A -> M arith_error S B) :
  keeps_ok m -> (forall a, keeps_ok (k a)) -> keeps_ok (m ≫= k).
Proof.
  intros Hm Hk st Hst. specialize (Hm st Hst). cbv [mbind M_bind].
  destruct (m st) as [[a|] st']; [by apply Hk|done].
Qed.

Lemma keeps_ok_lookup x : keeps_ok (arith_lookupvarint uflag x).
Proof.
  intros st H. unfold arith_lookupvarint. cbv [get mbind M_bind].
  destruct (vs_lookup x st) as [[|c w]|]; [done| |by destruct uflag]. by destruct (_ || _).
Qed.

Lemma keeps_ok_do_binop op a b : keeps_ok (do_binop op a b).
Proof. intros st H. unfold do_binop. repeat (case_match; try done). Qed.

Lemma keeps_ok_assign op x r : vs_name x = true -> keeps_ok (assign uflag op x r).
Proof.
  intros Hx. unfold assign. apply keeps_ok_bind.
  - destruct (op =? ARITH_ASS); [by intros ?|].
    apply keeps_ok_bind; [apply keeps_ok_lookup|]. intros. apply keeps_ok_do_binop.
  - intros v. apply keeps_ok_bind; [|by intros _ ?]. intros st H. unfold setvar_arith.
    destruct (vs_set x (pretty v) st) as [[[]|er] st'] eqn:E.
    + by apply (vs_set_lookup _ _ _ _ H Hx E).
    + by apply (vs_set_error _ _ _ _ _ H Hx E).
Qed.

Lemma keeps_ok_eval e : names_ok e = true -> keeps_ok (eval e).
Proof.
  induction e as [z|x|e IH|o e IH|op l IHl r IHr|l IHl r IHr|l IHl r IHr|a IHa b IHb c IHc|op x e IH];
    simpl; rewrite ?andb_true_iff; intros H; destruct_and?; auto using keeps_ok_lookup;
    try (by intros ?); try (apply keeps_ok_bind; [by auto|intros ?]); try (by intros ?).
  - apply keeps_ok_bind; [by auto|]. intros ?. apply keeps_ok_do_binop.
  - destruct (_ =? 0); [by intros ?|]. apply keeps_ok_bind; [by auto|]. by intros ? ?.
  - destruct (_ =? 0); [|by intros ?]. apply keeps_ok_bind; [by auto|]. by intros ? ?.
  - destruct (_ =? 0); auto.
  - by apply keeps_ok_assign.
Qed.

(** The value of an assignment is a 64-bit number, and it is what the variable then
    evaluates to: after [x op= e] has returned [v], [x] evaluates to [v] and no other
    variable has changed since the operand was evaluated. *)
Theorem assignment_roundtrip s op x e v st st' :
  vs_ok st -> vs_name x = true ->
  wf (EAsg op x e) = true -> stream s (tokens (EAsg op x e)) ->
  names_ok e = true ->
  arith uflag stalloc s st = (Ok v, st') ->
  fits64 v /\ vs_ok st' /\ arith_lookupvarint uflag x st' = (Ok v, st') /\
  exists r st1, eval e st = (Ok r, st1) /\
    forall m, vs_name m = true -> m <> x -> vs_lookup m st' = vs_lookup m st1.
Proof.
  intros Hok Hx Hw Hs Hnames H. unfold arith in H. rewrite (arith_eval _ _ _ _ _ Hw Hs) in H.
  destruct (stream_nums s (EAsg op x e) []) as [Hn _]; [by rewrite app_nil_r|].
  pose proof (eval_ranged _ Hn st) as Hr. rewrite H in Hr.
  assert (lookup_pure : forall n st, (arith_lookupvarint uflag n st).2 = st).
  { intros n st0. unfold arith_lookupvarint. cbv [get mbind M_bind].
    destruct (vs_lookup n st0) as [[|c w]|]; [done| |by destruct uflag]. by destruct (_ || _). }
  cbn [eval] in H. cbv [mbind M_bind] in H.
  destruct (eval e st) as [[r|er] st1] eqn:E; [|done].
  pose proof (keeps_ok_eval e Hnames st Hok) as Hpres. rewrite E in Hpres. simpl in Hpres.
  unfold assign in H. cbv [mbind M_bind] in H.
  assert (exists z, setvar_arith x (pretty z) st1 = (Ok tt, st') /\ z = v) as (z & Hset & ->).
  { destruct (op =? ARITH_ASS).
    - cbv [mret M_ret] in H. destruct (setvar_arith x (pretty r) st1) as [[[]|] st2] eqn:F; [|done].
      injection H as -> ->. eauto.
    - pose proof (lookup_pure x st1) as LP. destruct (arith_lookupvarint uflag x st1) as [[old|] st2]; [|done].
      simpl in LP. subst st2.
      assert ((do_binop (op - 11) old r st1).2 = st1) as DP.
      { unfold do_binop. repeat (case_match; try done). }
      destruct (do_binop (op - 11) old r st1) as [[z|] st2]; [|done]. simpl in DP. subst st2.
      destruct (setvar_arith x (pretty z) st1) as [[[]|] st2] eqn:F; [|done].
      cbv [mret M_ret] in H. injection H as -> ->. eauto. }
  unfold setvar_arith in Hset. destruct (vs_set x (pretty v) st1) as [[[]|] st2] eqn:F; [|done].
  injection Hset as ->. destruct (vs_set_lookup _ _ _ _ Hpres Hx F) as (Hok' & Hl & Hother).
  split; [done|]. split; [done|]. split; [|eauto].
  unfold arith_lookupvarint. cbv [get mbind M_bind]. rewrite Hl.
  pose proof (strtol0_pretty v EmptyString Hr) as P. rewrite append_nil_r in P.
  rewrite P by (done || by left).
  assert (exists c w, pretty v = String c w) as (c & w & ->).
  { destruct v; [by do 2 eexists| |by do 2 eexists].
    unfold pretty, pretty_Z, pretty_positive, pretty, pretty_N. rewrite decide_False by done.
    destruct (pretty_go_first (Npos p) EmptyString) as (c & w & -> & _); [done|]. eauto. }
  done.
Qed.
End Spec.

Arguments vs_ok {S VS VL} _ : rename.

(** The shell's variables satisfy the interface. *)
#[export] Instance sh_VarStoreLaws : VarStoreLaws (S := sh).
Proof.
  refine {| vs_ok := fun s => inv s /\ forcelocal s = 0;
            vs_name := fun n => goodvar n && bool_decide (name_part n = n) |}.
  - intros n v s s' [I Hf] [Hg Hn]%andb_true_iff H. apply bool_decide_eq_true in Hn.
    pose proof (setvar_spec s n (Some v) false false I Hf) as SP. rewrite Hg in SP. cbn [negb] in SP.
    change (attr false false) with 0 in SP. simpl in H.
    destruct (a_readonly (view s n)); [congruence|].
    destruct SP as (s1 & E & I1 & V1 & O1 & F1). rewrite H in E. injection E as <-.
    destruct F1 as (_ & Ff & _). split_and!; try done; [congruence| |].
    + simpl. rewrite lookupvar_view by apply I1. by rewrite V1.
    + intros m [_ Hm]%andb_true_iff Hmn. apply bool_decide_eq_true in Hm. simpl.
      rewrite !lookupvar_view by (apply I1 || apply I). rewrite O1; [done|congruence].
  - intros n v s e s' [I Hf] [Hg Hn]%andb_true_iff H.
    pose proof (setvar_spec s n (Some v) false false I Hf) as SP. rewrite Hg in SP. cbn [negb] in SP.
    change (attr false false) with 0 in SP. simpl in H.
    destruct (a_readonly (view s n)); [rewrite H in SP; by injection SP as _ ->|].
    destruct SP as (s1 & E & _). congruence.
Defined.

(** ** Examples *)

(** The tokens of a text, to state the examples. *)
Fixpoint lex_tokens (fuel : nat) (buf : string) : option (list tok) :=
  match fuel with
  | O => None
  | S fuel =>
      match skip_blank buf, lex (fun _ => 0) buf with
      | EmptyString, _ => Some []
      | _, (c, v, rest) =>
          ts ← lex_tokens fuel rest;
          match v with
          | Some (YVal z) => if c =? ARITH_NUM then Some (TNum z :: ts) else None
          | Some (YName x _) => if c =? ARITH_VAR then Some (TVar x :: ts) else None
          | None => Some (TOp c :: ts)
          end
      end
  end.

Lemma lex_tokens_stream fuel buf ts : lex_tokens fuel buf = Some ts -> stream (fun _ => 0) buf ts.
Proof.
  revert buf ts. induction fuel as [|fuel IH]; intros buf ts H; simpl in H; [done|].
  destruct (skip_blank buf) as [|a r] eqn:Eb; [injection H as <-; by constructor|].
  destruct (lex (fun _ => 0) buf) as [[c v] rest] eqn:E.
  destruct (lex_tokens fuel rest) as [ts'|] eqn:Et; [|done]. simpl in H. apply IH in Et.
  destruct v as [[z|x ad]|].
  - destruct (Z.eqb_spec c ARITH_NUM) as [->|]; [|done]. injection H as <-. by econstructor.
  - destruct (Z.eqb_spec c ARITH_VAR) as [->|]; [|done]. injection H as <-. by econstructor.
  - injection H as <-. by econstructor.
Qed.

(** [x = y > 3 && (z = 1) ? 2 + 3*y : -010] *)
Definition text0 : string := "x = y > 3 && (z = 1) ? 2 + 3*y : -010"%string.

Definition expr0 : expr :=
  EAsg ARITH_ASS "x"
    (ECond (EAnd (EBin ARITH_GT (EVar "y") (ENum 3)) (EParen (EAsg ARITH_ASS "z" (ENum 1))))
       (EBin ARITH_ADD (ENum 2) (EBin ARITH_MUL (ENum 3) (EVar "y")))
       (EUn UMinus (ENum 8))).

Lemma text0_stream : stream (fun _ => 0) text0 (tokens expr0).
Proof. apply (lex_tokens_stream 30). vm_compute. reflexivity. Qed.

Example text0_value :
  let '(r, st) := arith false (fun _ => 0) text0 (sh_start ["y=2"%string; "z=9"%string]) in
  (r, lookupvar "x" st, lookupvar "z" st) = (Ok (-8), Some "-8"%string, Some "9"%string).
Proof. by vm_compute. Qed.

Lemma assignment_roundtrip_witness :
  exists st', arith false (fun _ => 0) text0 (sh_start ["y=5"%string]) = (Ok 17, st') /\
    arith_lookupvarint false "x" st' = (Ok 17, st').
Proof.
  destruct (ShVarScope.sh_start_linv ["y=5"%string]) as [(I & F & _) _].
  set (st := sh_start ["y=5"%string]) in *.
  assert ((arith false (fun _ => 0) text0 st).1 = Ok 17) as E by (vm_compute; reflexivity).
  destruct (arith false (fun _ => 0) text0 st) as [r st'] eqn:R. simpl in E. subst r.
  exists st'. split; [reflexivity|].
  destruct (assignment_roundtrip false (fun _ => 0) text0 ARITH_ASS "x"
    (ECond (EAnd (EBin ARITH_GT (EVar "y") (ENum 3)) (EParen (EAsg ARITH_ASS "z" (ENum 1))))
       (EBin ARITH_ADD (ENum 2) (EBin ARITH_MUL (ENum 3) (EVar "y")))
       (EUn UMinus (ENum 8))) 17 st st') as (_ & _ & H & _).
  - exact (conj I F).
  - reflexivity.
  - reflexivity.
  - exact text0_stream.
  - reflexivity.
  - exact R.
  - exact H.
Defined.
