(* ===== verification/ShArithText.v ===== *)
(** * sh arithmetic: C expressions as text

    C's operators with their levels and their meaning on 64-bit integers, written down
    independently of the shell's token codes and precedence table, expressions
    spelled as text, and the theorem that [arith] computes their meaning. *)

From Stdlib Require Import ZArith Lia List Bool String Ascii.
From stdpp Require Import base tactics list numbers strings pretty.
From S2P Require Import Prelude CLib Decimal ShVar ShVarFacts ShVarScope ShArith ShArithFacts ShArithSpec.

Local Open Scope string_scope.
Local Open Scope bool_scope.
Local Open Scope Z_scope.

(** ** C's binary operators *)

Inductive cop :=
  | Mul | Div | Rem | Add | Sub | Shl | Shr | Lt | Le | Gt | Ge | Eq | Ne | And | Xor | Or.

(** From the tightest, 1, to the loosest, 8. *)
Definition c_level (o : cop) : Z :=
  match o with
  | Mul | Div | Rem => 1
  | Add | Sub => 2
  | Shl | Shr => 3
  | Lt | Le | Gt | Ge => 4
  | Eq | Ne => 5
  | And => 6
  | Xor => 7
  | Or => 8
  end.

Definition c_text (o : cop) : string :=
  match o with
  | Mul => "*" | Div => "/" | Rem => "%" | Add => "+" | Sub => "-" | Shl => "<<" | Shr => ">>"
  | Lt => "<" | Le => "<=" | Gt => ">" | Ge => ">=" | Eq => "==" | Ne => "!="
  | And => "&" | Xor => "^" | Or => "|"
  end.

(** The operators that have an assignment. *)
Definition c_assigns (o : cop) : bool :=
  match o with Lt | Le | Gt | Ge | Eq | Ne => false | _ => true end.

(** The value on 64-bit integers in two's complement: arithmetic wraps around, the count of a
    shift is taken modulo 64, a right shift keeps the sign, division truncates. *)
Definition c_apply (o : cop) (a b : Z) : res arith_error Z :=
  match o with
  | Mul => Ok (s64 (a * b))
  | Add => Ok (s64 (a + b))
  | Sub => Ok (s64 (a - b))
  | Shl => Ok (s64 (a * 2 ^ (b mod 64)))
  | Shr => Ok (a / 2 ^ (b mod 64))
  | Lt => Ok (if a <? b then 1 else 0)
  | Le => Ok (if a <=? b then 1 else 0)
  | Gt => Ok (if b <? a then 1 else 0)
  | Ge => Ok (if b <=? a then 1 else 0)
  | Eq => Ok (if a =? b then 1 else 0)
  | Ne => Ok (if a =? b then 0 else 1)
  | And => Ok (Z.land a b)
  | Xor => Ok (Z.lxor a b)
  | Or => Ok (Z.lor a b)
  | Div | Rem =>
      if b =? 0 then Ex (Yyerror "division by zero")
      else if (a =? - 2 ^ 63) && (b =? -1) then Ex (Yyerror "divide error")
      else Ok (match o with Div => Z.quot a b | _ => Z.rem a b end)
  end.

(** ** Expressions *)

Inductive cexpr :=
  | CNum (z : Z)
  | CVar (x : string)
  | CParen (e : cexpr)
  | CUn (o : unop) (e : cexpr)
  | CBin (o : cop) (l r : cexpr)
  | CAnd (l r : cexpr)
  | COr (l r : cexpr)
  | CCond (a b c : cexpr)
  | CAsg (o : option cop) (x : string) (e : cexpr).

Definition c_lev (e : cexpr) : Z :=
  match e with
  | CNum _ | CVar _ | CParen _ | CUn _ _ => 0
  | CBin o _ _ => c_level o
  | CAnd _ _ => 9
  | COr _ _ => 10
  | CCond _ _ _ => 11
  | CAsg _ _ _ => 12
  end.

(** The grammar of C: an operand that binds less tightly is in parentheses. *)
Fixpoint c_wf (e : cexpr) : bool :=
  match e with
  | CNum _ | CVar _ => true
  | CParen e => c_wf e
  | CUn _ e => c_wf e && (c_lev e <=? 0)
  | CBin o l r => c_wf l && c_wf r && (c_lev l <=? c_level o) && (c_lev r <? c_level o)
  | CAnd l r => c_wf l && c_wf r && (c_lev l <=? 8) && (c_lev r <=? 9)
  | COr l r => c_wf l && c_wf r && (c_lev l <=? 9) && (c_lev r <=? 10)
  | CCond a b c => c_wf a && c_wf b && c_wf c && (c_lev a <=? 10) && (c_lev c <=? 11)
  | CAsg o _ e => match o with Some o => c_assigns o | None => true end && c_wf e
  end.

Definition unop_text (o : unop) : string :=
  match o with UPlus => "+" | UMinus => "-" | UNot => "!" | UBnot => "~" end.

Definition c_unop (o : unop) (r : Z) : Z :=
  match o with UPlus => r | UMinus => s64 (- r) | UNot => if r =? 0 then 1 else 0 | UBnot => - r - 1 end.

Section Meaning.
Context {S : Type} {VS : VarStore S} (uflag : bool).

Definition of_res {A} (r : res arith_error A) : M arith_error S A := fun st => (r, st).

(** The meaning, operands from the left, those C does not evaluate left out. *)
Fixpoint ceval (e : cexpr) : M arith_error S Z :=
  match e with
  | CNum z => mret z
  | CVar x => arith_lookupvarint uflag x
  | CParen e => ceval e
  | CUn o e => '(r : Z) ← ceval e; mret (c_unop o r)
  | CBin o l r => '(a : Z) ← ceval l; '(b : Z) ← ceval r; of_res (c_apply o a b)
  | CAnd l r =>
      '(a : Z) ← ceval l;
      if a =? 0 then mret 0 else ('(b : Z) ← ceval r; mret (if b =? 0 then 0 else 1))
  | COr l r =>
      '(a : Z) ← ceval l;
      if a =? 0 then ('(b : Z) ← ceval r; mret (if b =? 0 then 0 else 1)) else mret 1
  | CCond a b c => '(v : Z) ← ceval a; if v =? 0 then ceval c else ceval b
  | CAsg o x e =>
      '(r : Z) ← ceval e;
      '(v : Z) ← (match o with
                  | None => mret r
                  | Some o => '(old : Z) ← arith_lookupvarint uflag x; of_res (c_apply o old r)
                  end);
      _ ← setvar_arith x (pretty v);
      mret v
  end.
End Meaning.

(** ** Spelling *)

Inductive word := WNum (z : Z) | WName (x : string) | WSym (t : string).

Fixpoint words (e : cexpr) : list word :=
  match e with
  | CNum z => [WNum z]
  | CVar x => [WName x]
  | CParen e => (WSym "(" :: words e ++ [WSym ")"])%list
  | CUn o e => WSym (unop_text o) :: words e
  | CBin o l r => (words l ++ WSym (c_text o) :: words r)%list
  | CAnd l r => (words l ++ WSym "&&" :: words r)%list
  | COr l r => (words l ++ WSym "||" :: words r)%list
  | CCond a b c => (words a ++ WSym "?" :: words b ++ WSym ":" :: words c)%list
  | CAsg o x e =>
      WName x :: WSym (match o with Some o => c_text o | None => "" end +:+ "=") :: words e
  end.

Definition all_cops : list cop :=
  [Mul; Div; Rem; Add; Sub; Shl; Shr; Lt; Le; Gt; Ge; Eq; Ne; And; Xor; Or].

Definition symbols : list string :=
  (map c_text all_cops ++ map (fun o => c_text o +:+ "=") (List.filter c_assigns all_cops)
   ++ ["="; "("; ")"; "!"; "~"; "&&"; "||"; "?"; ":"])%list.

(** Whether [c] after the symbol [t] makes a longer one; [++] and [--] are C's too. *)
Definition extends (t : string) (c : ascii) : bool :=
  existsb (fun t' => String.prefix (t +:+ str1 c) t') symbols
  || (String.eqb t "+" && bool_decide (c = "+"%char))
  || (String.eqb t "-" && bool_decide (c = "-"%char)).

Definition blank (w : string) : Prop := Forall (fun c => is_blank_char c = true) (list_ascii_of_string w).

Definition is_cname (x : string) : bool :=
  match x with
  | String c n => is_name c && forallb is_in_name (list_ascii_of_string n)
  | "" => false
  end.

(** [rest] does not go on with a letter, a digit or an underscore. *)
Definition ends_name (rest : string) : Prop := is_in_name (hd rest) = false.

(** The text [s] spells the words: any blanks before each word and at the end, numbers in
    decimal, and no symbol running into the next. *)
Inductive spelled : string -> list word -> Prop :=
  | spelled_end w : blank w -> spelled w []
  | spelled_num w z rest ws :
      blank w -> 0 <= z < 2 ^ 63 -> ends_name rest -> spelled rest ws ->
      spelled (w +:+ pretty z +:+ rest) (WNum z :: ws)
  | spelled_name w x rest ws :
      blank w -> is_cname x = true -> ends_name rest -> spelled rest ws ->
      spelled (w +:+ x +:+ rest) (WName x :: ws)
  | spelled_sym w t rest ws :
      blank w -> In t symbols -> extends t (hd rest) = false -> spelled rest ws ->
      spelled (w +:+ t +:+ rest) (WSym t :: ws).

(** ** The shell's tokens for them *)

Definition cop_code (o : cop) : Z :=
  match o with
  | Mul => ARITH_MUL | Div => ARITH_DIV | Rem => ARITH_REM | Add => ARITH_ADD | Sub => ARITH_SUB
  | Shl => ARITH_LSHIFT | Shr => ARITH_RSHIFT | Lt => ARITH_LT | Le => ARITH_LE | Gt => ARITH_GT
  | Ge => ARITH_GE | Eq => ARITH_EQ | Ne => ARITH_NE | And => ARITH_BAND | Xor => ARITH_BXOR
  | Or => ARITH_BOR
  end.

Fixpoint to_expr (e : cexpr) : expr :=
  match e with
  | CNum z => ENum z
  | CVar x => EVar x
  | CParen e => EParen (to_expr e)
  | CUn o e => EUn o (to_expr e)
  | CBin o l r => EBin (cop_code o) (to_expr l) (to_expr r)
  | CAnd l r => EAnd (to_expr l) (to_expr r)
  | COr l r => EOr (to_expr l) (to_expr r)
  | CCond a b c => ECond (to_expr a) (to_expr b) (to_expr c)
  | CAsg o x e => EAsg (match o with Some o => cop_code o + 11 | None => ARITH_ASS end) x (to_expr e)
  end.

Definition sym_code (t : string) : Z :=
  if String.eqb t "=" then ARITH_ASS else if String.eqb t "(" then ARITH_LPAREN
  else if String.eqb t ")" then ARITH_RPAREN else if String.eqb t "!" then ARITH_NOT
  else if String.eqb t "~" then ARITH_BNOT else if String.eqb t "&&" then ARITH_AND
  else if String.eqb t "||" then ARITH_OR else if String.eqb t "?" then ARITH_QMARK
  else if String.eqb t ":" then ARITH_COLON
  else match List.find (fun o => String.eqb t (c_text o)) all_cops with
       | Some o => cop_code o
       | None =>
           match List.find (fun o => String.eqb t (c_text o +:+ "=")) all_cops with
           | Some o => cop_code o + 11
           | None => 0
           end
       end.

Definition word_tok (w : word) : tok :=
  match w with WNum z => TNum z | WName x => TVar x | WSym t => TOp (sym_code t) end.

Lemma tokens_words e : c_wf e = true -> tokens (to_expr e) = map word_tok (words e).
Proof.
  induction e; cbn [c_wf to_expr tokens words map]; rewrite ?andb_true_iff, ?map_app; cbn [map];
    rewrite ?map_app; cbn [map word_tok]; intros H; destruct_and?;
    repeat match goal with IH : c_wf ?e = true -> _, H : c_wf ?e = true |- _ => specialize (IH H); rewrite IH end;
    try done.
  - by destruct o.
  - by destruct o.
  - do 2 f_equal. destruct o as [o|]; [|done]. by destruct o.
Qed.

(** The code's precedences are C's. *)
Lemma prec_is_c o : arith_prec (cop_code o) + 1 = c_level o.
Proof. by destruct o. Qed.

Lemma level_to_expr e : level (to_expr e) = c_lev e.
Proof. destruct e; try done. apply prec_is_c. Qed.

Lemma wf_to_expr e : wf (to_expr e) = c_wf e.
Proof.
  induction e; cbn [wf to_expr c_wf]; rewrite ?level_to_expr; try congruence.
  - rewrite IHe1, IHe2. pose proof (prec_is_c o) as P. rewrite P.
    assert (is_binop (cop_code o) = true) as -> by (by destruct o). cbn [andb]. f_equal.
    destruct (Z.leb_spec (c_lev e2) (arith_prec (cop_code o))), (Z.ltb_spec (c_lev e2) (c_level o)); lia.
  - rewrite IHe. f_equal. destruct o as [o|]; [|done]. by destruct o.
Qed.

Section Eval.
Context {S : Type} {VS : VarStore S} (uflag : bool) (stalloc : string -> Z).

Lemma swrap_mod w a b : 0 < w -> a mod 2 ^ w = b mod 2 ^ w -> swrap w a = swrap w b.
Proof.
  intros Hw H. unfold swrap.
  rewrite <- (Zplus_mod_idemp_l a), H, Zplus_mod_idemp_l. done.
Qed.

(** The operators compute C's values. *)
Lemma do_binop_is_c o a b (st : S) : do_binop (cop_code o) a b st = (c_apply o a b, st).
Proof.
  assert (Z.land b 63 = b mod 64) as E63 by (change 63 with (Z.ones 6); by rewrite Z.land_ones).
  destruct o; unfold do_binop, cop_code, c_apply, ARITH_MIN;
    repeat match goal with |- context [?x =? ?y] =>
      let v := eval vm_compute in (x =? y) in
      match v with true => idtac | false => idtac end; change (x =? y) with v end;
    cbv iota; try done.
  - by destruct (b =? 0), (a =? - 2 ^ 63), (b =? -1).
  - by destruct (b =? 0), (a =? - 2 ^ 63), (b =? -1).
  - rewrite E63. cbv [mret M_ret]. do 2 f_equal. pose proof (Z.mod_pos_bound b 64).
    rewrite Z.shiftl_mul_pow2 by lia. apply swrap_mod; [lia|]. unfold uwrap.
    by rewrite Zmult_mod_idemp_l.
  - rewrite E63. cbv [mret M_ret]. pose proof (Z.mod_pos_bound b 64). by rewrite Z.shiftr_div_pow2 by lia.
  - by destruct (a =? b).
Qed.

Lemma assign_is_c o x r (st : S) :
  assign uflag (match o with Some o => cop_code o + 11 | None => ARITH_ASS end) x r st =
  ('(v : Z) ← (match o with
               | None => mret r
               | Some o => '(old : Z) ← arith_lookupvarint uflag x; of_res (c_apply o old r)
               end);
   _ ← setvar_arith x (pretty v);
   mret v) st.
Proof.
  unfold assign. destruct o as [o|]; [|done].
  assert ((cop_code o + 11 =? ARITH_ASS) = false) as -> by (by destruct o).
  replace (cop_code o + 11 - 11) with (cop_code o) by lia. cbv [mbind M_bind of_res].
  destruct (arith_lookupvarint uflag x st) as [[old|er] st1]; [|done]. by rewrite do_binop_is_c.
Qed.

Lemma eval_is_c e (st : S) : eval uflag (to_expr e) st = ceval uflag e st.
Proof.
  revert st. induction e; intros st; cbn [to_expr eval ceval]; cbv [mbind M_bind mret M_ret] in *.
  - done.
  - done.
  - done.
  - rewrite IHe. destruct (ceval uflag e st) as [[r|er] st1]; [|done].
    by destruct o.
  - rewrite IHe1. destruct (ceval uflag e1 st) as [[a|er] st1]; [|done].
    rewrite IHe2. destruct (ceval uflag e2 st1) as [[b|er] st2]; [|done]. apply do_binop_is_c.
  - rewrite IHe1. destruct (ceval uflag e1 st) as [[a|er] st1]; [|done].
    destruct (a =? 0); [done|]. rewrite IHe2.
    destruct (ceval uflag e2 st1) as [[b|er] st2]; [|done]. by destruct (b =? 0).
  - rewrite IHe1. destruct (ceval uflag e1 st) as [[a|er] st1]; [|done].
    destruct (a =? 0); [|done]. rewrite IHe2.
    destruct (ceval uflag e2 st1) as [[b|er] st2]; [|done]. by destruct (b =? 0).
  - rewrite IHe1. destruct (ceval uflag e1 st) as [[a|er] st1]; [|done].
    destruct (a =? 0); auto.
  - rewrite IHe. destruct (ceval uflag e st) as [[r|er] st1]; [|done]. apply assign_is_c.
Qed.

(** ** The lexer reads the spelling *)

Lemma skip_blank_app w r : blank w -> skip_blank (w +:+ r) = skip_blank r.
Proof.
  unfold blank. induction w as [|c w IH]; simpl; [done|]. intros H. apply Forall_cons in H as [-> Hw]. auto.
Qed.

Lemma skip_blank_first c r : is_blank_char c = false -> skip_blank (String c r) = String c r.
Proof. intros H. simpl. by rewrite H. Qed.

Lemma isdigit_not_blank c : isdigit c = true -> is_blank_char c = false.
Proof.
  intros H. unfold is_blank_char.
  rewrite !bool_decide_eq_false_2; [done| | |]; intros ->; vm_compute in H; discriminate.
Qed.

Lemma is_name_not_blank c : is_name c = true -> is_blank_char c = false /\ isdigit c = false.
Proof.
  intros H. destruct c as [b0 b1 b2 b3 b4 b5 b6 b7].
  destruct b0, b1, b2, b3, b4, b5, b6, b7; vm_compute in H; try discriminate H; by vm_compute.
Qed.

Lemma ends_name_number rest :
  ends_name rest -> no_digit rest /\ (rest = "" \/ (hd rest <> "x"%char /\ hd rest <> "X"%char)).
Proof.
  unfold ends_name, no_digit. destruct rest as [|c rest]; [by auto|]. cbn [hd]. intros H.
  assert (forall d, is_in_name d = true -> c <> d) as D by (intros d Hd ->; congruence).
  split; [|right; split; by apply D].
  destruct c as [b0 b1 b2 b3 b4 b5 b6 b7].
  destruct b0, b1, b2, b3, b4, b5, b6, b7; vm_compute in H; try discriminate H; by vm_compute.
Qed.

Lemma name_end_app n rest :
  forallb is_in_name (list_ascii_of_string n) = true -> ends_name rest -> name_end (n +:+ rest) = (n, rest).
Proof.
  intros Hn Hr. induction n as [|c n IH]; simpl.
  - destruct rest as [|c r]; [done|]. unfold ends_name in Hr. cbn [hd] in Hr. simpl. by rewrite Hr.
  - simpl in Hn. apply andb_true_iff in Hn as [-> Hn]. by rewrite IH.
Qed.

Lemma lex_number z rest :
  0 <= z < 2 ^ 63 -> ends_name rest ->
  lex stalloc (pretty z +:+ rest) = (ARITH_NUM, Some (YVal z), rest).
Proof.
  intros Hz Hr. destruct (ends_name_number rest Hr) as [Hd Hx].
  assert (fits64 z) as Hf by (unfold fits64, INTMAX_MIN, INTMAX_MAX; lia).
  pose proof (strtol0_pretty z rest Hf Hd Hx) as St.
  assert (exists c r, pretty z +:+ rest = String c r /\ isdigit c = true) as (c & r & E & Hc).
  { destruct z as [|p|p]; [by eexists _, _| |lia]. change (pretty (Zpos p)) with (pretty (Npos p)).
    unfold pretty, pretty_N. rewrite decide_False by done. rewrite pretty_go_append. cbn [String.append].
    destruct (pretty_go_first (Npos p) rest) as (c & r & E & Hc & _); [done|]. eauto. }
  unfold lex. rewrite E in *. rewrite (skip_blank_first c r (isdigit_not_blank c Hc)), Hc.
  by rewrite St.
Qed.

Lemma lex_name x rest :
  is_cname x = true -> ends_name rest -> exists a, lex stalloc (x +:+ rest) = (ARITH_VAR, Some (YName x a), rest).
Proof.
  destruct x as [|c n]; [done|]. unfold is_cname. rewrite andb_true_iff. intros [Hc Hn] Hr.
  destruct (is_name_not_blank c Hc) as [Hb Hd]. eexists. unfold lex. cbn [String.append].
  rewrite (skip_blank_first c _ Hb), Hd, Hc, name_end_app by done. done.
Qed.

Lemma lex_symbol t rest :
  In t symbols -> extends t (hd rest) = false -> lex stalloc (t +:+ rest) = (sym_code t, None, rest).
Proof.
  intros Ht He.
  assert (forall c, extends t c = true -> hd rest <> c) as Hn by (intros c Hc E; congruence).
  unfold symbols in Ht. cbn [map c_text all_cops List.filter c_assigns app String.append] in Ht.
  repeat (destruct Ht as [<-|Ht]); [..|destruct Ht];
    cbn [String.append]; unfold lex;
    (rewrite skip_blank_first by (by vm_compute)).
  all: match goal with |- context [isdigit ?c] => change (isdigit c) with false; change (is_name c) with false end.
  all: cbv iota.
  all: unfold lex_op.
  all: repeat match goal with
    | |- context [decide (?c = ?d)] =>
        first [ rewrite (decide_True (P := c = d)) by reflexivity
              | rewrite (decide_False (P := c = d)) by discriminate ]
    end.
  all: unfold checkeqcur.
  all: repeat match goal with
    | Hn : forall c, _ -> hd ?r <> c |- context [decide (hd ?r = ?d)] =>
        rewrite (decide_False (P := hd r = d)) by (apply Hn; by vm_compute)
    | |- context [decide (hd (String ?c ?r) = ?d)] =>
        rewrite (decide_True (P := hd (String c r) = d)) by reflexivity
    end.
  all: done.
Qed.

Lemma lex_blank w r c v rest :
  blank w -> lex stalloc r = (c, v, rest) -> c <> ARITH_BAD -> lex stalloc (w +:+ r) = (c, v, rest).
Proof.
  intros Hw E Hc. unfold lex in *. rewrite skip_blank_app by done.
  destruct (skip_blank r) as [|c0 r0]; [done|]. destruct (isdigit c0); [done|].
  destruct (is_name c0); [done|]. destruct (lex_op c0 r0) as [[v0 r1]|]; [done|].
  injection E as <- _ _. done.
Qed.

Lemma sym_code_good t : In t symbols -> sym_code t <> ARITH_BAD.
Proof.
  unfold symbols. cbn [map c_text all_cops List.filter c_assigns app String.append].
  intros Ht. repeat (destruct Ht as [<-|Ht]); [..|destruct Ht]; by vm_compute.
Qed.

Lemma spelled_stream s ws : spelled s ws -> stream stalloc s (map word_tok ws).
Proof.
  induction 1 as [w Hw|w z rest ws Hw Hz Hr _ IH|w x rest ws Hw Hx Hr _ IH|w t rest ws Hw Ht He _ IH];
    cbn [map word_tok].
  - constructor. rewrite <- (append_nil_r w). by rewrite skip_blank_app.
  - apply (stream_num _ _ _ rest); [|done]. apply lex_blank; [done| |done]. by apply lex_number.
  - destruct (lex_name x rest Hx Hr) as [a Ea]. apply (stream_var _ _ _ a rest); [|done].
    by apply lex_blank.
  - apply (stream_op _ _ _ rest); [|done]. apply lex_blank; [done| |by apply sym_code_good].
    by apply lex_symbol.
Qed.

(** C11. The arithmetic expansion computes the meaning of C expressions: for every expression
    of C's grammar (numbers, variables, the unary operators, the sixteen binary operators
    with their precedences grouping to the left, [&&], [||], [?:] and the
    assignments), however it is spaced, whatever the variables and the previous state of
    the scanner, [arith] returns the value, the variables and the error of the expression
    evaluated on 64-bit integers, operands C does not evaluate left out. *)
Theorem arith_evaluates yl lt s e (st : S) :
  c_wf e = true -> spelled s (words e) ->
  arith_from uflag stalloc yl lt s st = ceval uflag e st.
Proof.
  intros Hw Hs. rewrite (arith_eval uflag stalloc yl lt s (to_expr e) st).
  - apply eval_is_c.
  - by rewrite wf_to_expr.
  - rewrite tokens_words by done. by apply spelled_stream.
Qed.
End Eval.

(** [x = y > 3 && (z = 1) ? 2 + 3*y : -10] *)
Definition cexpr0 : cexpr :=
  CAsg None "x"
    (CCond (CAnd (CBin Gt (CVar "y") (CNum 3)) (CParen (CAsg None "z" (CNum 1))))
       (CBin Add (CNum 2) (CBin Mul (CNum 3) (CVar "y")))
       (CUn UMinus (CNum 10))).

(** Read a spelling off a text: the words with the blanks before them. *)
Fixpoint spell (l : list (string * word)) (tail : string) : string :=
  match l with
  | [] => tail
  | (w, WNum z) :: l => w +:+ pretty z +:+ spell l tail
  | (w, WName x) :: l => w +:+ x +:+ spell l tail
  | (w, WSym t) :: l => w +:+ t +:+ spell l tail
  end.

Fixpoint spell_ok (l : list (string * word)) (tail : string) : bool :=
  match l with
  | [] => forallb is_blank_char (list_ascii_of_string tail)
  | (w, x) :: l =>
      let rest := spell l tail in
      forallb is_blank_char (list_ascii_of_string w) && spell_ok l tail &&
      match x with
      | WNum z => (0 <=? z) && (z <? 2 ^ 63) && negb (is_in_name (hd rest))
      | WName x => is_cname x && negb (is_in_name (hd rest))
      | WSym t => existsb (String.eqb t) symbols && negb (extends t (hd rest))
      end
  end.

Lemma spell_spelled l tail : spell_ok l tail = true -> spelled (spell l tail) (map snd l).
Proof.
  assert (forall w, forallb is_blank_char (list_ascii_of_string w) = true -> blank w) as B.
  { intros w H. apply List.Forall_forall. by rewrite <- forallb_forall. }
  induction l as [|[w [z|x|t]] l IH]; cbn [spell spell_ok map snd]; intros H; [constructor; auto|..];
    rewrite !andb_true_iff in H.
  - destruct H as [[Hw Hl] [[Hz1 Hz2] Hr]]. apply spelled_num; auto; [lia|].
    unfold ends_name. by apply negb_true_iff.
  - destruct H as [[Hw Hl] [Hx Hr]]. apply spelled_name; auto. unfold ends_name. by apply negb_true_iff.
  - destruct H as [[Hw Hl] [Hx Hr]]. apply spelled_sym; auto; [|by apply negb_true_iff].
    apply existsb_exists in Hx as (t' & Ht & E%String.eqb_eq). by subst.
Qed.

Lemma cexpr0_spelled : spelled "x = y > 3 && (z = 1) ? 2 + 3*y : -10" (words cexpr0).
Proof.
  apply (spell_spelled
    [("", WName "x"); (" ", WSym "="); (" ", WName "y"); (" ", WSym ">"); (" ", WNum 3); (" ", WSym "&&");
     (" ", WSym "("); ("", WName "z"); (" ", WSym "="); (" ", WNum 1); ("", WSym ")"); (" ", WSym "?");
     (" ", WNum 2); (" ", WSym "+"); (" ", WNum 3); ("", WSym "*"); ("", WName "y"); (" ", WSym ":");
     (" ", WSym "-"); ("", WNum 10)] "").
  vm_compute. reflexivity.
Qed.

Lemma arith_evaluates_witness :
  arith_from false (fun _ => 0) (YVal 7) 9 "x = y > 3 && (z = 1) ? 2 + 3*y : -10" (sh_start ["y=5"%string]) =
  ceval false cexpr0 (sh_start ["y=5"%string]).
Proof.
  apply (arith_evaluates false (fun _ => 0) (YVal 7) 9 "x = y > 3 && (z = 1) ? 2 + 3*y : -10" cexpr0).
  - reflexivity.
  - apply cexpr0_spelled.
Defined.
