(* ===== verification/Uuencode.v ===== *)
(** * uuencode and uudecode (src/basic_cmds/uuencode, src/basic_cmds/uudecode)

    The historical and the base64 encoding, and the decoders.  Files are octet
    lists ([Z] from 0 to 255) on the binary side and strings on the text side; the
    files themselves (opening, [setmode], write errors) are outside. *)

From Stdlib Require Import ZArith Lia List Bool String Ascii.
From stdpp Require Import base tactics list numbers strings.
From S2P Require Import Prelude CLib.

Local Open Scope string_scope.
Local Open Scope bool_scope.
Local Open Scope Z_scope.

(** [putc(ch)]: the character of the low octet. *)
Definition chr (z : Z) : ascii := ascii_of_N (Z.to_N (u8 z)).

(** A plain [char] holding the octet [b] is signed. *)
Definition schar (b : Z) : Z := swrap 8 b.

(** ** uuencode.c *)

Definition ENC (c : Z) : Z := if c =? 0 then 96 else Z.land c 63 + 32.

(** The four characters of [p[0]], [p[1]], [p[2]]. *)
Definition enc_group (p0 p1 p2 : Z) : string :=
  String (chr (ENC (Z.shiftr (schar p0) 2)))
    (String (chr (ENC (Z.lor (Z.land (Z.shiftl (schar p0) 4) 48)
                              (Z.land (Z.shiftr (schar p1) 4) 15))))
      (String (chr (ENC (Z.lor (Z.land (Z.shiftl (schar p1) 2) 60)
                                (Z.land (Z.shiftr (schar p2) 6) 3))))
        (String (chr (ENC (Z.land (schar p2) 63))) ""))).

(** [for (p = buf; n > 0; n -= 3, p += 3)], with the padding nulls. *)
Fixpoint enc_groups (buf : list Z) : string :=
  match buf with
  | [] => ""
  | [a] => enc_group a 0 0
  | [a; b] => enc_group a b 0
  | a :: b :: c :: buf => enc_group a b c +:+ enc_groups buf
  end.

Definition enc_line (buf : list Z) : string :=
  String (chr (ENC (Z.of_nat (length buf)))) (enc_groups buf +:+ str1 LF).

(** [while ((n = fread(buf, 1, 45, stdin)))]; one round per octet is more than enough. *)
Fixpoint enc_lines (fuel : nat) (data : list Z) : string :=
  match fuel, data with
  | _, [] => ""
  | O, _ => ""
  | S fuel, _ => enc_line (take 45 data) +:+ enc_lines fuel (drop 45 data)
  end.

(** ["%o"] *)
Fixpoint octal_digits (fuel : nat) (z : Z) (acc : string) : string :=
  match fuel with
  | O => acc
  | S fuel =>
      let acc := String (chr (48 + Z.land z 7)) acc in
      if z <? 8 then acc else octal_digits fuel (Z.shiftr z 3) acc
  end.

Definition octal (mode : Z) : string := octal_digits 11 mode "".

Definition encode (mode : Z) (name : string) (data : list Z) : string :=
  "begin " +:+ octal mode +:+ " " +:+ name +:+ str1 LF
  +:+ enc_lines (length data) data
  +:+ String (chr (ENC 0)) (str1 LF +:+ "end" +:+ str1 LF).

(** ** base64.c *)

Definition Base64 : string := "ABCDEFGHIJKLMNOPQRSTUVWXYZabcdefghijklmnopqrstuvwxyz0123456789+/".
Definition Pad64 : ascii := "="%char.

Definition b64_char (i : Z) : ascii :=
  match String.get (Z.to_nat i) Base64 with Some c => c | None => NUL end.

Definition out0 (i0 : Z) : Z := Z.shiftr i0 2.
Definition out1 (i0 i1 : Z) : Z := Z.shiftl (Z.land i0 3) 4 + Z.shiftr i1 4.
Definition out2 (i1 i2 : Z) : Z := Z.shiftl (Z.land i1 15) 2 + Z.shiftr i2 6.
Definition out3 (i2 : Z) : Z := Z.land i2 63.

(** [b64_ntop] from [datalength] on: [None] is the return of -1. *)
Fixpoint b64_ntop_from (datalength : Z) (src : list Z) (targsize : Z) : option string :=
  match src with
  | [] => if targsize <=? datalength then None else Some ""
  | [a] =>
      if targsize <? datalength + 4 then None
      else if targsize <=? datalength + 4 then None
      else Some (String (b64_char (out0 a)) (String (b64_char (out1 a 0))
                  (String Pad64 (str1 Pad64))))
  | [a; b] =>
      if targsize <? datalength + 4 then None
      else if targsize <=? datalength + 4 then None
      else Some (String (b64_char (out0 a)) (String (b64_char (out1 a b))
                  (String (b64_char (out2 b 0)) (str1 Pad64))))
  | a :: b :: c :: src =>
      if targsize <? datalength + 4 then None
      else
        r ← b64_ntop_from (datalength + 4) src targsize;
        Some (String (b64_char (out0 a)) (String (b64_char (out1 a b))
                (String (b64_char (out2 b c)) (String (b64_char (out3 c)) r))))
  end.

Definition b64_ntop (src : list Z) (targsize : Z) : option string := b64_ntop_from 0 src targsize.

Definition GROUPS : Z := 19.

(** The loop of [base64_encode], three octets at a time; [None] is [errx]. *)
Fixpoint base64_lines (fuel : nat) (sequence : Z) (data : list Z) : option string :=
  match fuel, data with
  | _, [] => Some (if negb (sequence mod GROUPS =? 0) then str1 LF else "")
  | O, _ => None
  | S fuel, _ =>
      let sequence := sequence + 1 in
      buf2 ← b64_ntop (take 3 data) 7;
      r ← base64_lines fuel sequence (drop 3 data);
      Some (buf2 +:+ (if negb (sequence mod GROUPS =? 0) then "" else str1 LF) +:+ r)
  end.

Definition base64_encode (mode : Z) (name : string) (data : list Z) : option string :=
  r ← base64_lines (length data) 0 data;
  Some ("begin-base64 " +:+ octal mode +:+ " " +:+ name +:+ str1 LF +:+ r
        +:+ "====" +:+ str1 LF).

(** [pos - Base64] of [strchr(Base64, ch)]. *)
Fixpoint strchr_index (c : ascii) (s : string) (i : Z) : option Z :=
  match s with
  | "" => None
  | String a s => if decide (a = c) then Some i else strchr_index c s (i + 1)
  end.

Fixpoint all_space (s : string) : bool :=
  match s with "" => true | String c s => isspace c && all_space s end.

Fixpoint skip_spaces (s : string) : string :=
  match s with String c r => if isspace c then skip_spaces r else s | "" => "" end.

(** The end of [b64_pton] at a pad character, [src] being what follows it and [cell]
    the octet [target[tarindex]]. *)
Definition pton_pad (state : Z) (src : string) (cell : Z) (acc : list Z) : option (list Z) :=
  let tail (s : string) := if all_space s && (cell =? 0) then Some acc else None in
  if (state =? 0) || (state =? 1) then None
  else if state =? 2 then
    match skip_spaces src with
    | String c s => if decide (c = Pad64) then tail s else None
    | "" => None
    end
  else tail src.

(** [b64_pton]: [acc] is the complete octets before [target[tarindex]], [cell] that
    octet so far. *)
Fixpoint pton_loop (src : string) (state cell : Z) (acc : list Z) (targsize : Z) :
  option (list Z) :=
  match src with
  | "" => if state =? 0 then Some acc else None
  | String ch src =>
      let tarindex := Z.of_nat (length acc) in
      if isspace ch then pton_loop src state cell acc targsize
      else if decide (ch = Pad64) then pton_pad state src cell acc
      else
        match strchr_index ch Base64 0 with
        | None => None
        | Some v =>
            if state =? 0 then
              if targsize <=? tarindex then None
              else pton_loop src 1 (u8 (Z.shiftl v 2)) acc targsize
            else if state =? 1 then
              if targsize <=? tarindex + 1 then None
              else pton_loop src 2 (u8 (Z.shiftl (Z.land v 15) 4))
                     (acc ++ [Z.lor cell (Z.shiftr v 4)])%list targsize
            else if state =? 2 then
              if targsize <=? tarindex + 1 then None
              else pton_loop src 3 (u8 (Z.shiftl (Z.land v 3) 6))
                     (acc ++ [Z.lor cell (Z.shiftr v 2)])%list targsize
            else
              if targsize <=? tarindex then None
              else pton_loop src 0 0 (acc ++ [Z.lor cell v])%list targsize
        end
  end.

Definition b64_pton (src : string) (targsize : Z) : option (list Z) := pton_loop src 0 0 [] targsize.

(** ** uudecode.c *)

Section Decode.
(** MAXPATHLEN of the system's headers, and whether [setmode] accepts a mode. *)
Context (MAXPATHLEN : Z) (setmode : string -> bool).

Record dflags := mkdflags { cflag : bool; rflag : bool }.

Definition DEC (c : ascii) : Z := Z.land (swrap 8 (code c) - 32) 63.
Definition IS_DEC (c : ascii) : bool :=
  (0 <=? swrap 8 (code c) - 32) && (swrap 8 (code c) - 32 <=? 64).

(** [uugetline]: the line and the input left, or the status to return with. *)
Definition uugetline (fl : dflags) (size : Z) (inp : string) : res Z string * string :=
  match fgets size inp with
  | (Some l, inp) => (Ok l, inp)
  | (None, inp) => (Ex (if rflag fl then 0 else 1), inp)
  end.

Definition checkend (ptr end_ : string) : Z :=
  if starts end_ ptr
     && all_in [" "%char; TAB; CR; LF] (sdrop (String.length end_) ptr)
  then 0 else 1.

Definition pat (p : string) (i : nat) : ascii := hd (sdrop i p).

Definition dec0 (p : string) : Z := Z.lor (Z.shiftl (DEC (pat p 0)) 2) (Z.shiftr (DEC (pat p 1)) 4).
Definition dec1 (p : string) : Z := Z.lor (Z.shiftl (DEC (pat p 1)) 4) (Z.shiftr (DEC (pat p 2)) 2).
Definition dec2 (p : string) : Z := Z.lor (Z.shiftl (DEC (pat p 2)) 6) (DEC (pat p 3)).

(** The characters of a line: [i] octets from [p]; [false] is OUT_OF_RANGE, after the
    octets written so far. *)
Fixpoint dec_line (fuel : nat) (i : Z) (p : string) : list Z * bool :=
  match fuel with
  | O => ([], false)
  | S fuel =>
      if i <=? 0 then ([], true)
      else if 3 <=? i then
        if negb (IS_DEC (pat p 0) && IS_DEC (pat p 1) && IS_DEC (pat p 2) && IS_DEC (pat p 3))
        then ([], false)
        else
          let (out, ok) := dec_line fuel (i - 3) (sdrop 4 p) in
          (u8 (dec0 p) :: u8 (dec1 p) :: u8 (dec2 p) :: out, ok)
      else
        if negb (IS_DEC (pat p 0) && IS_DEC (pat p 1)) then ([], false)
        else if i <? 2 then ([u8 (dec0 p)], true)
        else if negb (IS_DEC (pat p 1) && IS_DEC (pat p 2)) then ([u8 (dec0 p)], false)
        else ([u8 (dec0 p); u8 (dec1 p)], true)
  end.

(** [uu_decode]: the octets written, the status, and the input left; [None] for the
    status marks fuel that ran out. *)
Fixpoint uu_decode (fuel : nat) (fl : dflags) (inp : string) : list Z * option Z * string :=
  match fuel with
  | O => ([], None, inp)
  | S fuel =>
      match uugetline fl (MAXPATHLEN + 1) inp with
      | (Ex r, inp) => ([], Some r, inp)
      | (Ok buf, inp) =>
          let i := DEC (hd buf) in
          if i <=? 0 then
            match uugetline fl (MAXPATHLEN + 1) inp with
            | (Ex r, inp) => ([], Some r, inp)
            | (Ok buf, inp) => ([], Some (checkend buf "end"), inp)
            end
          else
            let (out, ok) := dec_line 64 i (sdrop 1 buf) in
            if (ok : bool) then
              let '(out', r, inp) := uu_decode fuel fl inp in ((out ++ out')%list, r, inp)
            else (out, Some 1, inp)
      end
  end.

(** The scan for complete groups of four: [count4 + 1], the length of the text up to
    the last position where the number of base64 characters is a multiple of four. *)
Definition is_b64 (c : ascii) : bool :=
  isalnum c || bool_decide (c = "+"%char) || bool_decide (c = "/"%char) || bool_decide (c = "="%char).

Fixpoint scan4 (s : string) (idx : nat) (count : Z) (count4 : nat) : nat :=
  match s with
  | "" => count4
  | String c s =>
      let count := if is_b64 c then count + 1 else count in
      scan4 s (S idx) count (if count mod 4 =? 0 then S idx else count4)
  end.

Fixpoint base64_decode (fuel : nat) (fl : dflags) (leftover inp : string) :
  list Z * option Z * string :=
  match fuel with
  | O => ([], None, inp)
  | S fuel =>
      match uugetline fl (MAXPATHLEN + 1 - Z.of_nat (String.length leftover)) inp with
      | (Ex r, inp) => ([], Some r, inp)
      | (Ok l, inp) =>
          let inbuf := leftover +:+ l in
          let c4 := scan4 inbuf 0 0 0 in
          let whole := stake c4 inbuf in
          match b64_pton whole (MAXPATHLEN * 4) with
          | None => ([], Some (checkend whole "===="), inp)
          | Some out =>
              let '(out', r, inp) := base64_decode fuel fl (sdrop c4 inbuf) inp in
              ((out ++ out')%list, r, inp)
          end
      end
  end.

(** ** The header *)

Fixpoint split_at_space (p : string) : option (string * string) :=
  match p with
  | "" => None
  | String c p =>
      if decide (c = " "%char) then Some ("", p)
      else match split_at_space p with Some (a, b) => Some (String c a, b) | None => None end
  end.

(** [while (n > 0 && (q[n-1] == '\n' || q[n-1] == '\r')) q[--n] = '\0'] *)
Fixpoint strip_eol (q : string) : string :=
  match q with
  | "" => ""
  | String c q =>
      match strip_eol q with
      | "" => if bool_decide (c = LF) || bool_decide (c = CR) then "" else str1 c
      | q => String c q
      end
  end.

(** A line as a header: whether it is base64, the mode and the file name. *)
Definition parse_header (buf : string) : option (bool * string * string) :=
  let header b64 p :=
    match split_at_space p with
    | Some (m, q) => match strip_eol q with "" => None | q => Some (b64, m, q) end
    | None => None
    end in
  if starts "begin-base64 " buf then header true (sdrop 13 buf)
  else if starts "begin " buf then header false (sdrop 6 buf)
  else None.

Fixpoint find_header (fuel : nat) (inp : string) : option (bool * string * string) * string :=
  match fuel with
  | O => (None, inp)
  | S fuel =>
      match fgets (MAXPATHLEN + 1) inp with
      | (None, inp) => (None, inp)
      | (Some buf, inp) =>
          match parse_header buf with Some h => (Some h, inp) | None => find_header fuel inp end
      end
  end.

(** The name without its directories. *)
Definition leaf (q : string) : string :=
  match strrchr "/" q with Some i => sdrop (S i) q | None => q end.

(** One file found in the input: its mode, its name, the octets written and the status. *)
Record decoded := mkdecoded {
  d_mode : string;
  d_name : string;
  d_out : list Z;
  d_status : option Z }.

(** [decode2]: [None] is EOF; a mode [setmode] does not accept gives status 1. *)
Definition decode2 (fl : dflags) (inp : string) : option decoded * string :=
  match find_header (S (String.length inp)) inp with
  | (None, inp) => (None, inp)
  | (Some (b64, m, q), inp) =>
      if negb (setmode m) then (Some (mkdecoded m (leaf q) [] (Some 1)), inp)
      else
        let '(out, r, inp) :=
          if (b64 : bool) then base64_decode (S (String.length inp)) fl "" inp
          else uu_decode (S (String.length inp)) fl inp in
        (Some (mkdecoded m (leaf q) out r), inp)
  end.
End Decode.
