(* ===== verification/UuencodeFacts.v ===== *)
(** * uuencode: the decoders undo the encoders

    Round trips of the historical and of the base64 format, through the header, the
    lines and the end marker. *)

From Stdlib Require Import ZArith Lia List Bool String Ascii.
From stdpp Require Import base tactics list numbers strings.
From S2P Require Import Prelude CLib Uuencode.

Local Open Scope string_scope.
Local Open Scope bool_scope.
Local Open Scope Z_scope.

Definition byte (b : Z) : Prop := 0 <= b < 256.

(** ** The historical code *)

#[local] Arguments enc_group : simpl never.

Definition E0 (a : Z) : ascii := chr (ENC (Z.shiftr (schar a) 2)).
Definition E1 (a b : Z) : ascii :=
  chr (ENC (Z.lor (Z.land (Z.shiftl (schar a) 4) 48) (Z.land (Z.shiftr (schar b) 4) 15))).
Definition E2 (b c : Z) : ascii :=
  chr (ENC (Z.lor (Z.land (Z.shiftl (schar b) 2) 60) (Z.land (Z.shiftr (schar c) 6) 3))).
Definition E3 (c : Z) : ascii := chr (ENC (Z.land (schar c) 63)).

Lemma E0_checked : forallb (fun a => IS_DEC (E0 a) && (DEC (E0 a) =? a / 4)) octets = true.
Proof. by vm_compute. Qed.

Lemma E3_checked : forallb (fun a => IS_DEC (E3 a) && (DEC (E3 a) =? a mod 64)) octets = true.
Proof. by vm_compute. Qed.

(** The fields that one octet contributes to a character. *)
Lemma fields_checked :
  forallb (fun a =>
    (Z.land (Z.shiftl (schar a) 4) 48 =? Z.shiftl (a mod 4) 4)
    && (Z.land (Z.shiftr (schar a) 4) 15 =? a / 16)
    && (Z.land (Z.shiftl (schar a) 2) 60 =? Z.shiftl (a mod 16) 2)
    && (Z.land (Z.shiftr (schar a) 6) 3 =? a / 64)) octets = true.
Proof. by vm_compute. Qed.

(** The 64 codes. *)
Lemma codes_checked :
  forallb (fun n => (64 <=? n) || (IS_DEC (chr (ENC n)) && (DEC (chr (ENC n)) =? n))) octets = true.
Proof. by vm_compute. Qed.

Lemma code_spec n : 0 <= n < 64 -> IS_DEC (chr (ENC n)) = true /\ DEC (chr (ENC n)) = n.
Proof.
  intros Hn. pose proof (octets_spec _ n codes_checked ltac:(lia)) as H. cbv beta in H.
  destruct (Z.leb_spec 64 n); [lia|]. by rewrite orb_false_l, andb_true_iff, Z.eqb_eq in H.
Qed.

Ltac inv_forall :=
  repeat match goal with H : Forall _ (_ :: _) |- _ => apply Forall_cons in H as [? H] end.

Section Codes.
Context (a b c : Z) (Ha : byte a) (Hb : byte b) (Hc : byte c).

Lemma E0_spec : IS_DEC (E0 a) = true /\ DEC (E0 a) = a / 4.
Proof.
  pose proof (octets_spec _ a E0_checked Ha) as H. by rewrite andb_true_iff, Z.eqb_eq in H.
Qed.

Lemma E1_spec : IS_DEC (E1 a b) = true /\ DEC (E1 a b) = (a mod 4) * 16 + b / 16.
Proof.
  pose proof (octets_spec _ a fields_checked Ha) as Fa. pose proof (octets_spec _ b fields_checked Hb) as Fb.
  cbv beta in Fa, Fb. rewrite !andb_true_iff, !Z.eqb_eq in Fa, Fb.
  destruct Fa as [[[F1 _] _] _], Fb as [[[_ F2] _] _]. unfold E1, byte in *.
  assert (0 <= b / 16 < 16) by (split; [apply Z.div_pos; lia|apply Z.div_lt_upper_bound; lia]).
  pose proof (Z.mod_pos_bound a 4). rewrite F1, F2, lor_shiftl_add by lia. change (2 ^ 4) with 16.
  apply code_spec. lia.
Qed.

Lemma E2_spec : IS_DEC (E2 b c) = true /\ DEC (E2 b c) = (b mod 16) * 4 + c / 64.
Proof.
  pose proof (octets_spec _ b fields_checked Hb) as Fb. pose proof (octets_spec _ c fields_checked Hc) as Fc.
  cbv beta in Fb, Fc. rewrite !andb_true_iff, !Z.eqb_eq in Fb, Fc.
  destruct Fb as [[_ F1] _], Fc as [_ F2]. unfold E2, byte in *.
  assert (0 <= c / 64 < 4) by (split; [apply Z.div_pos; lia|apply Z.div_lt_upper_bound; lia]).
  pose proof (Z.mod_pos_bound b 16). rewrite F1, F2, lor_shiftl_add by lia. change (2 ^ 2) with 4.
  apply code_spec. lia.
Qed.

Lemma E3_spec : IS_DEC (E3 c) = true /\ DEC (E3 c) = c mod 64.
Proof.
  pose proof (octets_spec _ c E3_checked Hc) as H. by rewrite andb_true_iff, Z.eqb_eq in H.
Qed.

Lemma enc_group_chars p :
  enc_group a b c +:+ p =
  String (E0 a) (String (E1 a b) (String (E2 b c) (String (E3 c) p))).
Proof. done. Qed.

Lemma dec0_spec p : u8 (dec0 (enc_group a b c +:+ p)) = a.
Proof.
  unfold dec0. rewrite enc_group_chars. unfold pat. simpl.
  rewrite (proj2 E0_spec), (proj2 E1_spec). unfold byte in *.
  assert (Z.shiftr (a mod 4 * 16 + b / 16) 4 = a mod 4) as ->.
  { rewrite Z.shiftr_div_pow2 by lia. change (2 ^ 4) with 16.
    assert (0 <= b / 16 < 16) by (split; [apply Z.div_pos; lia|apply Z.div_lt_upper_bound; lia]).
    rewrite Z.add_comm, Z.div_add, Z.div_small by lia. lia. }
  pose proof (Z.mod_pos_bound a 4). rewrite lor_shiftl_add by lia. change (2 ^ 2) with 4.
  pose proof (Z.div_mod a 4). replace (a / 4 * 4 + a mod 4) with a by lia.
  apply uwrap_small. lia.
Qed.

Lemma dec1_spec p : u8 (dec1 (enc_group a b c +:+ p)) = b.
Proof.
  unfold dec1. rewrite enc_group_chars. unfold pat. simpl.
  rewrite (proj2 E1_spec), (proj2 E2_spec). unfold byte in *.
  assert (0 <= b / 16 < 16) by (split; [apply Z.div_pos; lia|apply Z.div_lt_upper_bound; lia]).
  assert (0 <= c / 64 < 4) by (split; [apply Z.div_pos; lia|apply Z.div_lt_upper_bound; lia]).
  assert (Z.shiftr (b mod 16 * 4 + c / 64) 2 = b mod 16) as ->.
  { rewrite Z.shiftr_div_pow2 by lia. change (2 ^ 2) with 4.
    rewrite Z.add_comm, Z.div_add, Z.div_small by lia. lia. }
  pose proof (Z.mod_pos_bound b 16). rewrite lor_shiftl_add by lia. change (2 ^ 4) with 16.
  pose proof (Z.div_mod b 16). unfold uwrap. change (2 ^ 8) with 256.
  replace ((a mod 4 * 16 + b / 16) * 16 + b mod 16) with (b + (a mod 4) * 256) by lia.
  rewrite Z.mod_add by lia. apply Z.mod_small. lia.
Qed.

Lemma dec2_spec p : u8 (dec2 (enc_group a b c +:+ p)) = c.
Proof.
  unfold dec2. rewrite enc_group_chars. unfold pat. simpl.
  rewrite (proj2 E2_spec), (proj2 E3_spec). unfold byte in *.
  pose proof (Z.mod_pos_bound c 64). rewrite lor_shiftl_add by lia. change (2 ^ 6) with 64.
  pose proof (Z.div_mod c 64). unfold uwrap. change (2 ^ 8) with 256.
  replace ((b mod 16 * 4 + c / 64) * 64 + c mod 64) with (c + (b mod 16) * 256) by lia.
  rewrite Z.mod_add by lia. apply Z.mod_small. lia.
Qed.

Lemma is_dec_group p :
  let q := enc_group a b c +:+ p in
  IS_DEC (pat q 0) = true /\ IS_DEC (pat q 1) = true /\ IS_DEC (pat q 2) = true /\
  IS_DEC (pat q 3) = true /\ sdrop 4 q = p.
Proof.
  cbv zeta. rewrite enc_group_chars. unfold pat. simpl.
  split_and!; [apply E0_spec|apply E1_spec|apply E2_spec|apply E3_spec|by destruct p].
Qed.
End Codes.

Lemma is_dec_plain c : IS_DEC c = true -> c <> LF /\ c <> NUL.
Proof. intros H. by split; intros ->. Qed.

Lemma zero_byte : byte 0.
Proof. unfold byte. lia. Qed.

(** Induction on an octet list by groups of three. *)
Lemma triple_ind (P : list Z -> Prop) :
  P [] -> (forall a, P [a]) -> (forall a b, P [a; b]) ->
  (forall a b c l, P l -> P (a :: b :: c :: l)) -> forall l, P l.
Proof.
  intros H0 H1 H2 H3 l. assert (forall n l, (length l <= n)%nat -> P l) as G; [|by eapply G].
  intros n. induction n as [|n IH]; intros [|a [|b [|c l']]] Hl; simpl in *; auto; try lia.
  apply H3, IH. lia.
Qed.

Lemma enc_groups_plain buf : Forall byte buf -> plain (enc_groups buf) = true.
Proof.
  assert (forall a b c p, byte a -> byte b -> byte c -> plain p = true ->
    plain (enc_group a b c +:+ p) = true) as G.
  { intros a b c p Ha Hb Hc Hp. rewrite enc_group_chars. cbn [plain].
    destruct (is_dec_plain _ (proj1 (E0_spec a Ha))), (is_dec_plain _ (proj1 (E1_spec a b Ha Hb))),
      (is_dec_plain _ (proj1 (E2_spec b c Hb Hc))), (is_dec_plain _ (proj1 (E3_spec c Hc))).
    by rewrite !bool_decide_eq_false_2. }
  induction buf as [|a|a b|a b c l IH] using triple_ind; intros H; inv_forall.
  - done.
  - pose proof (G a 0 0 "" ltac:(done) zero_byte zero_byte eq_refl) as X.
    exact X.
  - pose proof (G a b 0 "" ltac:(done) ltac:(done) zero_byte eq_refl) as X.
    exact X.
  - change (enc_groups (a :: b :: c :: l)) with (enc_group a b c +:+ enc_groups l).
    apply G; auto.
Qed.

Lemma enc_groups_length buf : (String.length (enc_groups buf) <= 4 * length buf)%nat.
Proof.
  induction buf as [|a|a b|a b c l IH] using triple_ind; cbn [enc_groups length];
    try (simpl; lia).
Qed.

Lemma dec_line_spec buf rest fuel :
  Forall byte buf -> (length buf < fuel)%nat ->
  dec_line fuel (Z.of_nat (length buf)) (enc_groups buf +:+ rest) = (buf, true).
Proof.
  revert fuel. induction buf as [|a|a b|a b c l IH] using triple_ind; intros fuel H Hf;
    inv_forall; destruct fuel as [|fuel]; simpl in Hf; try lia; cbn [dec_line].
  - done.
  - change (Z.of_nat (length [a])) with 1. change (enc_groups [a]) with (enc_group a 0 0).
    destruct (is_dec_group a 0 0 ltac:(done) zero_byte zero_byte rest) as (-> & -> & _).
    rewrite (dec0_spec a 0 0) by (done || apply zero_byte). done.
  - change (Z.of_nat (length [a; b])) with 2. change (enc_groups [a; b]) with (enc_group a b 0).
    destruct (is_dec_group a b 0 ltac:(done) ltac:(done) zero_byte rest) as (-> & -> & -> & _).
    rewrite (dec0_spec a b 0), (dec1_spec a b 0) by (done || apply zero_byte). done.
  - change (enc_groups (a :: b :: c :: l)) with (enc_group a b c +:+ enc_groups l).
    rewrite append_assoc.
    destruct (is_dec_group a b c ltac:(done) ltac:(done) ltac:(done) (enc_groups l +:+ rest))
      as (-> & -> & -> & -> & ->).
    cbn [length]. destruct (Z.leb_spec (Z.of_nat (S (S (S (length l))))) 0); [lia|].
    destruct (Z.leb_spec 3 (Z.of_nat (S (S (S (length l)))))); [|lia]. cbn [negb andb].
    replace (Z.of_nat (S (S (S (length l)))) - 3) with (Z.of_nat (length l)) by lia.
    rewrite IH by (done || lia). by rewrite dec0_spec, dec1_spec, dec2_spec.
Qed.

(** The count character of a line. *)
Lemma count_spec n : 0 <= n <= 45 -> IS_DEC (chr (ENC n)) = true /\ DEC (chr (ENC n)) = n.
Proof. intros Hn. apply code_spec. lia. Qed.

(** What the encoder appends after the lines, before [rest]. *)
Definition uu_end (rest : string) : string :=
  String (chr (ENC 0)) (String LF ("end" +:+ String LF rest)).

Section RoundTrip.
Context (MAXPATHLEN : Z) (Hmax : 300 <= MAXPATHLEN).

Lemma uu_decode_end fuel fl rest :
  uu_decode MAXPATHLEN (S fuel) fl (uu_end rest) = ([], Some 0, rest).
Proof.
  cbn [uu_decode]. unfold uugetline, uu_end.
  change (String (chr (ENC 0)) (String LF ("end" +:+ String LF rest)))
    with (str1 (chr (ENC 0)) +:+ String LF ("end" +:+ String LF rest)).
  rewrite fgets_line; [|done|change (String.length (str1 (chr (ENC 0)))) with 1%nat; lia].
  change (DEC (hd (str1 (chr (ENC 0)) +:+ str1 LF)) <=? 0) with true. cbv iota.
  rewrite fgets_line; [done|done|change (String.length "end") with 3%nat; lia].
Qed.

Lemma uu_lines fuel n data fl rest :
  Forall byte data -> (length data <= n)%nat -> (String.length (enc_lines n data) < fuel)%nat ->
  uu_decode MAXPATHLEN fuel fl (enc_lines n data +:+ uu_end rest) = (data, Some 0, rest).
Proof.
  revert fuel data. induction n as [|n IH]; intros fuel data Hb Hn Hf;
    (destruct fuel as [|fuel]; [lia|]).
  { destruct data; [|simpl in Hn; lia]. apply uu_decode_end. }
  destruct (decide (data = [])) as [->|Hne]; [apply uu_decode_end|].
  assert (1 <= length data)%nat as Hpos by (destruct data; [done|simpl; lia]).
  set (chunk := take 45 data) in *.
  assert (enc_lines (S n) data = enc_line chunk +:+ enc_lines n (drop 45 data)) as El
    by (by destruct data).
  assert (1 <= length chunk <= 45)%nat as Hc.
  { unfold chunk. rewrite length_take. lia. }
  assert (Forall byte chunk) as Hbc by (by apply Forall_take).
  rewrite El. unfold enc_line. cbn [uu_decode]. unfold uugetline.
  set (c0 := chr (ENC (Z.of_nat (length chunk)))).
  assert ((String c0 (enc_groups chunk +:+ str1 LF) +:+ enc_lines n (drop 45 data)) +:+ uu_end rest
    = String c0 (enc_groups chunk) +:+ String LF (enc_lines n (drop 45 data) +:+ uu_end rest)) as ->.
  { cbn [String.append]. by rewrite !append_assoc. }
  destruct (count_spec (Z.of_nat (length chunk)) ltac:(lia)) as [Hd Hv].
  rewrite fgets_line.
  - cbn [String.append hd]. fold c0 in Hd, Hv. rewrite Hv.
    destruct (Z.leb_spec (Z.of_nat (length chunk)) 0); [lia|].
    cbn [sdrop]. rewrite dec_line_spec by (done || lia).
    rewrite IH; [|by apply Forall_drop|rewrite length_drop; lia|].
    + do 2 f_equal. unfold chunk. by rewrite take_drop.
    + rewrite El in Hf. unfold enc_line in Hf. cbn [String.append String.length] in Hf.
      rewrite !length_append in Hf. lia.
  - cbn [plain]. destruct (is_dec_plain _ Hd). rewrite !bool_decide_eq_false_2 by done.
    by apply enc_groups_plain.
  - pose proof (enc_groups_length chunk). cbn [String.length]. lia.
Qed.
End RoundTrip.
