(* ===== verification/UuencodeB64.v ===== *)
(** * uuencode: the base64 format

    [b64_pton] undoes [b64_ntop], the decoder undoes the encoder line by line, and the
    whole [decode2] undoes [encode] and [base64_encode]. *)

From Stdlib Require Import ZArith Lia List Bool String Ascii.
From stdpp Require Import base tactics list numbers strings.
From S2P Require Import Prelude CLib Uuencode UuencodeFacts.

Local Open Scope string_scope.
Local Open Scope bool_scope.
Local Open Scope Z_scope.

(** ** The alphabet *)

Definition char_ok (v : Z) : bool :=
  let c := b64_char v in
  bool_decide (strchr_index c Base64 0 = Some v) && negb (isspace c)
  && negb (bool_decide (c = Pad64)) && is_b64 c && negb (bool_decide (c = LF))
  && negb (bool_decide (c = NUL)).

Lemma alphabet_checked : forallb (fun v => (64 <=? v) || char_ok v) octets = true.
Proof. by vm_compute. Qed.

Lemma alphabet v : 0 <= v < 64 -> char_ok v = true.
Proof.
  intros Hv. pose proof (octets_spec _ v alphabet_checked ltac:(lia)) as H. cbv beta in H.
  destruct (Z.leb_spec 64 v); [lia|done].
Qed.

Lemma steps a b : byte a -> byte b ->
  Z.lor (u8 (Z.shiftl (out0 a) 2)) (Z.shiftr (out1 a b) 4) = a /\
  u8 (Z.shiftl (Z.land (out1 a b) 15) 4) = 16 * (b / 16) /\
  Z.lor (16 * (a / 16)) (Z.shiftr (out2 a b) 2) = a /\
  u8 (Z.shiftl (Z.land (out2 a b) 3) 6) = 64 * (b / 64) /\
  Z.lor (64 * (a / 64)) (out3 a) = a /\
  0 <= out0 a < 64 /\ 0 <= out1 a b < 64 /\ 0 <= out2 a b < 64 /\ 0 <= out3 a < 64.
Proof.
  unfold byte. intros Ha Hb. unfold out0, out1, out2, out3.
  rewrite (land_ones_mod a 3 2), (land_ones_mod a 15 4), (land_ones_mod a 63 6) by done.
  change (2 ^ 2) with 4. change (2 ^ 4) with 16. change (2 ^ 6) with 64.
  rewrite !Z.shiftr_div_pow2, !(Z.shiftl_mul_pow2 (a mod _)) by lia.
  rewrite (land_ones_mod _ 15 4), (land_ones_mod _ 3 2) by done.
  rewrite !Z.shiftl_mul_pow2 by lia. unfold uwrap.
  change (2 ^ 2) with 4. change (2 ^ 4) with 16. change (2 ^ 6) with 64. change (2 ^ 8) with 256.
  assert (forall n x r, 0 <= n -> 0 <= r < 2 ^ n -> Z.lor (2 ^ n * x) r = 2 ^ n * x + r) as L.
  { intros n x r Hn Hr. rewrite (Z.mul_comm _ x), <- lor_shiftl_add, Z.shiftl_mul_pow2 by lia. done. }
  assert ((a / 4 * 4) mod 256 = 2 ^ 2 * (a / 4)) as -> by (Z.to_euclidean_division_equations; lia).
  assert ((a mod 4 * 16 + b / 16) / 16 = a mod 4) as -> by (Z.to_euclidean_division_equations; lia).
  assert ((a mod 16 * 4 + b / 64) / 4 = a mod 16) as -> by (Z.to_euclidean_division_equations; lia).
  rewrite (L 2 (a / 4)), (L 4 (a / 16)), (L 6 (a / 64)) by (lia || apply Z.mod_pos_bound; lia).
  change (2 ^ 2) with 4. change (2 ^ 4) with 16. change (2 ^ 6) with 64.
  split_and!; Z.to_euclidean_division_equations; lia.
Qed.

(** ** [b64_ntop] *)

(** The encoding, when the target is large enough. *)
Fixpoint enc64 (src : list Z) : string :=
  match src with
  | [] => ""
  | [a] => String (b64_char (out0 a)) (String (b64_char (out1 a 0)) (String Pad64 (str1 Pad64)))
  | [a; b] =>
      String (b64_char (out0 a)) (String (b64_char (out1 a b))
        (String (b64_char (out2 b 0)) (str1 Pad64)))
  | a :: b :: c :: src =>
      String (b64_char (out0 a)) (String (b64_char (out1 a b))
        (String (b64_char (out2 b c)) (String (b64_char (out3 c)) (enc64 src))))
  end.

Lemma enc64_length src : (String.length (enc64 src) <= 4 * length src)%nat.
Proof. induction src as [|a|a b|a b c l IH] using triple_ind; simpl; lia. Qed.

Lemma enc64_length3 src : (3 * String.length (enc64 src) <= 4 * (length src + 2))%nat.
Proof. induction src as [|a|a b|a b c l IH] using triple_ind; simpl; lia. Qed.

(** The target needs room for the encoding and its NUL. *)
Lemma b64_ntop_from_spec d src targsize :
  0 <= d ->
  b64_ntop_from d src targsize =
    if targsize <=? d + Z.of_nat (String.length (enc64 src)) then None else Some (enc64 src).
Proof.
  revert d. induction src as [|a|a b|a b c l IH] using triple_ind; intros d Hd.
  - simpl. by rewrite Z.add_0_r.
  - simpl. change (Z.of_nat 4) with 4.
    destruct (Z.ltb_spec targsize (d + 4)), (Z.leb_spec targsize (d + 4)); try done; lia.
  - simpl. change (Z.of_nat 4) with 4.
    destruct (Z.ltb_spec targsize (d + 4)), (Z.leb_spec targsize (d + 4)); try done; lia.
  - cbn [b64_ntop_from enc64 String.length]. rewrite IH by lia.
    destruct (Z.ltb_spec targsize (d + 4)) as [H|H].
    + destruct (Z.leb_spec targsize (d + Z.of_nat (S (S (S (S (String.length (enc64 l)))))))); [done|lia].
    + destruct (Z.leb_spec targsize (d + 4 + Z.of_nat (String.length (enc64 l)))),
        (Z.leb_spec targsize (d + Z.of_nat (S (S (S (S (String.length (enc64 l)))))))); try done; lia.
Qed.

Lemma b64_ntop_spec src targsize :
  b64_ntop src targsize =
    if targsize <=? Z.of_nat (String.length (enc64 src)) then None else Some (enc64 src).
Proof. unfold b64_ntop. by rewrite b64_ntop_from_spec. Qed.

(** ** [b64_pton] *)

Lemma char_ok_facts v :
  0 <= v < 64 ->
  strchr_index (b64_char v) Base64 0 = Some v /\ isspace (b64_char v) = false /\
  b64_char v <> Pad64 /\ is_b64 (b64_char v) = true /\ b64_char v <> LF /\ b64_char v <> NUL.
Proof.
  intros H%alphabet. unfold char_ok in H.
  rewrite !andb_true_iff, !negb_true_iff, !bool_decide_eq_true, !bool_decide_eq_false in H.
  intuition.
Qed.

Section PtonSteps.
Context (v : Z) (Hv : 0 <= v < 64) (src : string) (cell : Z) (acc : list Z) (ts : Z).
Context (Hts : Z.of_nat (length acc) + 1 < ts).

Lemma pton_0 :
  pton_loop (String (b64_char v) src) 0 cell acc ts = pton_loop src 1 (u8 (Z.shiftl v 2)) acc ts.
Proof.
  destruct (char_ok_facts v Hv) as (E & Es & Ep & _). cbn [pton_loop].
  rewrite Es, decide_False, E by done. change (0 =? 0) with true. cbv iota.
  destruct (Z.leb_spec ts (Z.of_nat (length acc))); [lia|done].
Qed.

Lemma pton_1 :
  pton_loop (String (b64_char v) src) 1 cell acc ts =
  pton_loop src 2 (u8 (Z.shiftl (Z.land v 15) 4)) (acc ++ [Z.lor cell (Z.shiftr v 4)])%list ts.
Proof.
  destruct (char_ok_facts v Hv) as (E & Es & Ep & _). cbn [pton_loop].
  rewrite Es, decide_False, E by done. change (1 =? 0) with false. change (1 =? 1) with true.
  cbv iota. destruct (Z.leb_spec ts (Z.of_nat (length acc) + 1)); [lia|done].
Qed.

Lemma pton_2 :
  pton_loop (String (b64_char v) src) 2 cell acc ts =
  pton_loop src 3 (u8 (Z.shiftl (Z.land v 3) 6)) (acc ++ [Z.lor cell (Z.shiftr v 2)])%list ts.
Proof.
  destruct (char_ok_facts v Hv) as (E & Es & Ep & _). cbn [pton_loop].
  rewrite Es, decide_False, E by done. change (2 =? 0) with false. change (2 =? 1) with false.
  change (2 =? 2) with true. cbv iota.
  destruct (Z.leb_spec ts (Z.of_nat (length acc) + 1)); [lia|done].
Qed.

Lemma pton_3 :
  pton_loop (String (b64_char v) src) 3 cell acc ts =
  pton_loop src 0 0 (acc ++ [Z.lor cell v])%list ts.
Proof.
  destruct (char_ok_facts v Hv) as (E & Es & Ep & _). cbn [pton_loop].
  rewrite Es, decide_False, E by done. change (3 =? 0) with false. change (3 =? 1) with false.
  change (3 =? 2) with false. cbv iota.
  destruct (Z.leb_spec ts (Z.of_nat (length acc))); [lia|done].
Qed.
End PtonSteps.

Lemma pton_spaces s cell acc ts : all_space s = true -> pton_loop s 0 cell acc ts = Some acc.
Proof.
  induction s as [|c s IH]; simpl; [done|]. rewrite andb_true_iff. intros [-> Hs]. auto.
Qed.

Lemma pton_pad2 rest acc ts :
  all_space rest = true ->
  pton_loop (String Pad64 (str1 Pad64 +:+ rest)) 2 0 acc ts = Some acc.
Proof.
  intros H. cbn [pton_loop]. change (isspace Pad64) with false. rewrite decide_True by done.
  change (pton_pad 2 (str1 Pad64 +:+ rest) 0 acc)
    with (if all_space rest && (0 =? 0) then Some acc else None). by rewrite H.
Qed.

Lemma pton_pad3 rest acc ts :
  all_space rest = true -> pton_loop (str1 Pad64 +:+ rest) 3 0 acc ts = Some acc.
Proof.
  intros H. cbn [str1 String.append pton_loop]. change (isspace Pad64) with false.
  rewrite decide_True by done.
  change (pton_pad 3 rest 0 acc) with (if all_space rest && (0 =? 0) then Some acc else None).
  by rewrite H.
Qed.

Lemma pton_enc64 src rest cell acc ts :
  Forall byte src -> all_space rest = true ->
  Z.of_nat (length acc) + Z.of_nat (length src) + 1 < ts ->
  pton_loop (enc64 src +:+ rest) 0 cell acc ts = Some (acc ++ src)%list.
Proof.
  intros H Hr. revert cell acc.
  induction src as [|a|a b|a b c l IH] using triple_ind; intros cell acc Hts; inv_forall.
  - cbn [enc64 String.append]. rewrite app_nil_r. by apply pton_spaces.
  - destruct (steps a 0) as (S1 & S2 & _ & _ & _ & R0 & R1 & _); [done|apply zero_byte|].
    cbn [length] in Hts. cbn [enc64 String.append].
    rewrite pton_0, pton_1 by (done || lia). rewrite S1, S2. change (16 * (0 / 16)) with 0.
    by apply pton_pad2.
  - destruct (steps a b) as (S1 & S2 & _ & _ & _ & R0 & R1 & _); [done|done|].
    destruct (steps b 0) as (_ & _ & S3 & S4 & _ & _ & _ & R2 & _); [done|apply zero_byte|].
    cbn [length] in Hts. cbn [enc64 String.append].
    rewrite pton_0, pton_1, pton_2 by (done || rewrite ?length_app; simpl; lia).
    rewrite S1, S2, S3, S4, <- app_assoc. change (64 * (0 / 64)) with 0. by apply pton_pad3.
  - destruct (steps a b) as (S1 & S2 & _ & _ & _ & R0 & R1 & _); [done|done|].
    destruct (steps b c) as (_ & _ & S3 & S4 & _ & _ & _ & R2 & _); [done|done|].
    destruct (steps c c) as (_ & _ & _ & _ & S5 & _ & _ & _ & R3); [done|done|].
    cbn [length] in Hts. cbn [enc64 String.append].
    rewrite pton_0, pton_1, pton_2, pton_3 by (done || rewrite ?length_app; simpl; lia).
    rewrite S1, S2, S3, S4, S5, IH; [by rewrite <- !app_assoc|done|].
    rewrite !length_app. simpl. lia.
Qed.

(** [b64_pton] undoes [b64_ntop]: for every octet string, whenever the encoding fits its
    buffer, decoding it, with any white space after it, into a buffer larger than
    the octets by two gives the octets back. *)
Theorem b64_roundtrip src targsize text rest ts :
  Forall byte src -> b64_ntop src targsize = Some text -> all_space rest = true ->
  Z.of_nat (length src) + 1 < ts ->
  b64_pton (text +:+ rest) ts = Some src.
Proof.
  intros Hb Hn Hr Hts. rewrite b64_ntop_spec in Hn. case_match; [done|]. injection Hn as <-.
  unfold b64_pton. by rewrite pton_enc64.
Qed.

(** ** Lines of 19 groups *)

Fixpoint ref_lines (fuel : nat) (data : list Z) : string :=
  match fuel, data with
  | _, [] => ""
  | O, _ => ""
  | S fuel, _ => enc64 (take 57 data) +:+ str1 LF +:+ ref_lines fuel (drop 57 data)
  end.

Lemma ref_lines_nil n : ref_lines n [] = "".
Proof. by destruct n. Qed.

Lemma ref_lines_fuel n m data :
  (length data <= n)%nat -> (length data <= m)%nat -> ref_lines n data = ref_lines m data.
Proof.
  revert m data. induction n as [|n IH]; intros [|m] [|x data] Hn Hm; simpl in *; try lia; try done.
  do 2 f_equal. apply IH; rewrite length_drop; lia.
Qed.

Lemma enc64_app3 a b c l : enc64 (a :: b :: c :: l) = enc64 [a; b; c] +:+ enc64 l.
Proof. done. Qed.

Lemma enc64_take3 k data :
  (3 <= k)%nat -> (3 <= length data \/ length data <= 3)%nat ->
  enc64 (take 3 data) +:+ enc64 (take (k - 3) (drop 3 data)) = enc64 (take k data).
Proof.
  intros Hk _. destruct k as [|[|[|k]]]; try lia.
  replace (S (S (S k)) - 3)%nat with k by lia.
  destruct data as [|a [|b [|c l]]]; cbn [take drop]; rewrite ?take_nil; try done.
Qed.

(** The text from the [r]-th group before the end of a line on. *)
Definition partial (r : nat) (n : nat) (data : list Z) : string :=
  match data with
  | [] => if decide (r = 19%nat) then "" else str1 LF
  | _ => enc64 (take (3 * r) data) +:+ str1 LF +:+ ref_lines n (drop (3 * r) data)
  end.

Lemma base64_lines_partial n sq data r :
  0 <= sq -> (length data <= n)%nat -> Z.of_nat r = 19 - sq mod 19 ->
  base64_lines n sq data = Some (partial r n data).
Proof.
  revert sq data r. induction n as [|n IH]; intros sq data r Hsq Hn Hr.
  { destruct data; [|simpl in Hn; lia]. simpl. unfold GROUPS.
    destruct (Z.eqb_spec (sq mod 19) 0); case_decide; try done; lia. }
  destruct (decide (data = [])) as [->|Hne].
  { simpl. unfold GROUPS. destruct (Z.eqb_spec (sq mod 19) 0); case_decide; try done; lia. }
  pose proof (Z.mod_pos_bound sq 19).
  assert (base64_lines (S n) sq data =
    (buf2 ← b64_ntop (take 3 data) 7;
     rr ← base64_lines n (sq + 1) (drop 3 data);
     Some (buf2 +:+ (if negb ((sq + 1) mod GROUPS =? 0) then "" else str1 LF) +:+ rr))) as ->
    by (by destruct data).
  rewrite b64_ntop_spec. pose proof (enc64_length3 (take 3 data)) as HL.
  rewrite length_take in HL.
  destruct (Z.leb_spec 7 (Z.of_nat (String.length (enc64 (take 3 data))))); [lia|].
  cbn [mbind option_bind].
  assert (length (drop 3 data) <= n)%nat as Hd.
  { rewrite length_drop. destruct data; [done|]. simpl in Hn. simpl. lia. }
  assert (partial r (S n) data =
    enc64 (take (3 * r) data) +:+ str1 LF +:+ ref_lines (S n) (drop (3 * r) data)) as Ep
    by (by destruct data).
  unfold GROUPS. destruct (decide (r = 1%nat)) as [->|Hr1].
  - assert ((sq + 1) mod 19 = 0) as E.
    { pose proof (Z.div_mod sq 19). replace (sq + 1) with ((sq / 19 + 1) * 19) by lia.
      by rewrite Z.mod_mul. }
    rewrite (IH (sq + 1) (drop 3 data) 19%nat) by (done || lia).
    rewrite E, Ep. cbn [Z.eqb negb mbind option_bind]. change (3 * 1)%nat with 3%nat.
    reflexivity.
  - assert ((sq + 1) mod 19 = sq mod 19 + 1) as E.
    { rewrite <- Zplus_mod_idemp_l. apply Z.mod_small. lia. }
    rewrite (IH (sq + 1) (drop 3 data) (r - 1)%nat) by lia.
    rewrite E. destruct (Z.eqb_spec (sq mod 19 + 1) 0); [lia|]. rewrite Ep.
    cbn [negb mbind option_bind String.append]. f_equal.
    rewrite <- (enc64_take3 (3 * r)) by lia. rewrite append_assoc. f_equal. unfold partial.
    replace (3 * r - 3)%nat with (3 * (r - 1))%nat by lia.
    destruct (drop 3 data) as [|x l] eqn:Ed.
    + rewrite decide_False by lia. rewrite take_nil.
      assert (drop (3 * r) data = []) as ->.
      { replace (3 * r)%nat with (3 + (3 * r - 3))%nat by lia. rewrite <- drop_drop, Ed.
        apply drop_nil. }
      done.
    + replace (drop (3 * r) data) with (drop (3 * (r - 1)) (x :: l)).
      2: { rewrite <- Ed, drop_drop. f_equal. lia. }
      f_equal. f_equal. apply ref_lines_fuel; rewrite length_drop; simpl in *; lia.
Qed.

Lemma base64_lines_spec data : base64_lines (length data) 0 data = Some (ref_lines (length data) data).
Proof.
  rewrite (base64_lines_partial _ _ _ 19%nat) by (done || lia). f_equal.
  change (partial 19 (length data) data) with (ref_lines (S (length data)) data).
  apply ref_lines_fuel; lia.
Qed.

(** ** Scanning and decoding a line *)

Fixpoint n64 (s : string) : Z :=
  match s with "" => 0 | String c s => (if is_b64 c then 1 else 0) + n64 s end.

Lemma scan4_line s idx count c4 :
  (count + n64 s) mod 4 = 0 ->
  scan4 (s +:+ str1 LF) idx count c4 = (idx + String.length s + 1)%nat.
Proof.
  revert idx count c4. induction s as [|c s IH]; intros idx count c4 H.
  - cbn [n64] in H. rewrite Z.add_0_r in H.
    change (scan4 (str1 LF) idx count c4 = (idx + 0 + 1)%nat). unfold str1. cbn [scan4].
    change (is_b64 LF) with false. cbv iota zeta. rewrite H. simpl. lia.
  - cbn [String.append scan4 n64 String.length] in *. rewrite IH; [lia|].
    rewrite <- H. f_equal. destruct (is_b64 c); lia.
Qed.

Lemma n64_enc64 src : Forall byte src -> n64 (enc64 src) mod 4 = 0.
Proof.
  assert (is_b64 Pad64 = true) as HP by done.
  induction src as [|a|a b|a b c l IH] using triple_ind; intros H; inv_forall; cbn [enc64 n64 str1];
    rewrite ?HP.
  - done.
  - destruct (steps a 0) as (_ & _ & _ & _ & _ & R0 & R1 & _); [done|apply zero_byte|].
    destruct (char_ok_facts _ R0) as (_ & _ & _ & -> & _).
    destruct (char_ok_facts _ R1) as (_ & _ & _ & -> & _). done.
  - destruct (steps a b) as (_ & _ & _ & _ & _ & R0 & R1 & _); [done|done|].
    destruct (steps b 0) as (_ & _ & _ & _ & _ & _ & _ & R2 & _); [done|apply zero_byte|].
    destruct (char_ok_facts _ R0) as (_ & _ & _ & -> & _).
    destruct (char_ok_facts _ R1) as (_ & _ & _ & -> & _).
    destruct (char_ok_facts _ R2) as (_ & _ & _ & -> & _). done.
  - destruct (steps a b) as (_ & _ & _ & _ & _ & R0 & R1 & _); [done|done|].
    destruct (steps b c) as (_ & _ & _ & _ & _ & _ & _ & R2 & _); [done|done|].
    destruct (steps c c) as (_ & _ & _ & _ & _ & _ & _ & _ & R3); [done|done|].
    destruct (char_ok_facts _ R0) as (_ & _ & _ & -> & _).
    destruct (char_ok_facts _ R1) as (_ & _ & _ & -> & _).
    destruct (char_ok_facts _ R2) as (_ & _ & _ & -> & _).
    destruct (char_ok_facts _ R3) as (_ & _ & _ & -> & _).
    replace (1 + (1 + (1 + (1 + n64 (enc64 l))))) with (n64 (enc64 l) + 1 * 4) by lia.
    rewrite Z.mod_add by lia. auto.
Qed.

Lemma plain_cons c s : c <> LF -> c <> NUL -> plain s = true -> plain (String c s) = true.
Proof. intros. cbn [plain]. by rewrite !bool_decide_eq_false_2. Qed.

Lemma enc64_plain src : Forall byte src -> plain (enc64 src) = true.
Proof.
  assert (forall v s, 0 <= v < 64 -> plain s = true -> plain (String (b64_char v) s) = true) as G.
  { intros v s (_ & _ & _ & _ & H1 & H2)%char_ok_facts Hs. by apply plain_cons. }
  induction src as [|a|a b|a b c l IH] using triple_ind; intros H; inv_forall; cbn [enc64].
  - done.
  - destruct (steps a 0) as (_ & _ & _ & _ & _ & R0 & R1 & _); [done|apply zero_byte|].
    do 2 (apply G; [done|]). done.
  - destruct (steps a b) as (_ & _ & _ & _ & _ & R0 & R1 & _); [done|done|].
    destruct (steps b 0) as (_ & _ & _ & _ & _ & _ & _ & R2 & _); [done|apply zero_byte|].
    do 3 (apply G; [done|]). done.
  - destruct (steps a b) as (_ & _ & _ & _ & _ & R0 & R1 & _); [done|done|].
    destruct (steps b c) as (_ & _ & _ & _ & _ & _ & _ & R2 & _); [done|done|].
    destruct (steps c c) as (_ & _ & _ & _ & _ & _ & _ & _ & R3); [done|done|].
    do 4 (apply G; [done|]). auto.
Qed.

Lemma stake_all s : stake (String.length s) s = s.
Proof. induction s; simpl; congruence. Qed.

Lemma sdrop_all s : sdrop (String.length s) s = "".
Proof. by induction s. Qed.

Lemma all_space_LF : all_space (str1 LF) = true.
Proof. done. Qed.

Definition b64_end (rest : string) : string := "====" +:+ String LF rest.

Section Decode2.
Context (MAXPATHLEN : Z) (setmode : string -> bool) (Hmax : 300 <= MAXPATHLEN).

Lemma base64_decode_end fuel fl rest :
  base64_decode MAXPATHLEN (S fuel) fl "" (b64_end rest) = ([], Some 0, rest).
Proof.
  cbn [base64_decode]. unfold uugetline, b64_end. rewrite fgets_line; [|done|simpl; lia].
  change (stake (scan4 ("" +:+ "====" +:+ str1 LF) 0 0 0) ("" +:+ "====" +:+ str1 LF))
    with ("====" +:+ str1 LF).
  change (b64_pton ("====" +:+ str1 LF) (MAXPATHLEN * 4)) with (@None (list Z)). done.
Qed.

Lemma base64_decode_lines fuel n data fl rest :
  Forall byte data -> (length data <= n)%nat -> (String.length (ref_lines n data) < fuel)%nat ->
  base64_decode MAXPATHLEN fuel fl "" (ref_lines n data +:+ b64_end rest) = (data, Some 0, rest).
Proof.
  revert fuel data. induction n as [|n IH]; intros fuel data Hb Hn Hf;
    (destruct fuel as [|fuel]; [lia|]).
  { destruct data; [|simpl in Hn; lia]. apply base64_decode_end. }
  destruct (decide (data = [])) as [->|Hne]; [apply base64_decode_end|].
  assert (1 <= length data)%nat as Hpos by (destruct data; [done|simpl; lia]).
  set (chunk := take 57 data).
  assert (ref_lines (S n) data = enc64 chunk +:+ str1 LF +:+ ref_lines n (drop 57 data)) as El
    by (by destruct data).
  rewrite El in Hf |- *. rewrite !length_append in Hf.
  assert (length chunk <= 57)%nat as Hc by (unfold chunk; rewrite length_take; lia).
  assert (Forall byte chunk) as Hbc by (by apply Forall_take).
  cbn [base64_decode]. unfold uugetline. change (Z.of_nat (String.length "")) with 0.
  rewrite Z.sub_0_r.
  assert ((enc64 chunk +:+ str1 LF +:+ ref_lines n (drop 57 data)) +:+ b64_end rest =
    enc64 chunk +:+ String LF (ref_lines n (drop 57 data) +:+ b64_end rest)) as ->
    by (by rewrite !append_assoc).
  pose proof (enc64_length3 chunk).
  rewrite fgets_line by (apply enc64_plain || lia; done).
  change ("" +:+ enc64 chunk +:+ str1 LF) with (enc64 chunk +:+ str1 LF).
  rewrite scan4_line by (rewrite Z.add_0_l; by apply n64_enc64).
  assert (0 + String.length (enc64 chunk) + 1 = String.length (enc64 chunk +:+ str1 LF))%nat as ->
    by (rewrite length_append; simpl; lia).
  rewrite stake_all, sdrop_all. unfold b64_pton.
  rewrite pton_enc64; [|done|done|simpl; lia].
  rewrite IH; [|by apply Forall_drop|rewrite length_drop; lia|simpl in Hf; lia].
  cbn [app]. unfold chunk. by rewrite take_drop.
Qed.

(** ** The header *)

(** A file name on a header line. *)
Definition name_ok (name : string) : Prop :=
  name <> "" /\ plain name = true /\ strip_eol (name +:+ str1 LF) = name.

Fixpoint no_space (s : string) : bool :=
  match s with "" => true | String c s => negb (bool_decide (c = " "%char)) && no_space s end.

Lemma split_at_space_app a b :
  no_space a = true -> split_at_space (a +:+ String " " b) = Some (a, b).
Proof.
  induction a as [|c a IH]; simpl; [done|]. rewrite andb_true_iff, negb_true_iff, bool_decide_eq_false.
  intros [Hc Ha]. rewrite decide_False by done. by rewrite IH.
Qed.

Lemma octal_digits_ok fuel z acc :
  0 <= z -> no_space acc = true -> plain acc = true ->
  no_space (octal_digits fuel z acc) = true /\ plain (octal_digits fuel z acc) = true /\
  (String.length (octal_digits fuel z acc) <= String.length acc + fuel)%nat.
Proof.
  revert z acc. induction fuel as [|fuel IH]; intros z acc Hz H1 H2; simpl; [split_and!; lia || done|].
  assert (forall d, 0 <= d < 8 -> let c := chr (48 + d) in
    c <> " "%char /\ c <> LF /\ c <> NUL) as D.
  { intros d Hd. cbv zeta.
    assert (d = 0 \/ d = 1 \/ d = 2 \/ d = 3 \/ d = 4 \/ d = 5 \/ d = 6 \/ d = 7) as E by lia.
    repeat destruct E as [->|E]; try (split_and!; done). subst. by split_and!. }
  destruct (D (Z.land z 7)) as (D1 & D2 & D3).
  { change 7 with (Z.ones 3). rewrite Z.land_ones by lia. apply Z.mod_pos_bound. lia. }
  set (c := chr _) in *.
  assert (no_space (String c acc) = true) as A1 by (simpl; by rewrite bool_decide_eq_false_2).
  assert (plain (String c acc) = true) as A2 by (by apply plain_cons).
  destruct (z <? 8); [split_and!; try done; simpl; lia|].
  destruct (IH (Z.shiftr z 3) (String c acc)) as (? & ? & ?); try done.
  { by apply Z.shiftr_nonneg. }
  split_and!; try done. simpl in *. lia.
Qed.

Lemma octal_ok mode :
  0 <= mode ->
  no_space (octal mode) = true /\ plain (octal mode) = true /\ (String.length (octal mode) <= 11)%nat.
Proof. intros H. apply (octal_digits_ok 11 mode ""); done. Qed.

Lemma parse_header_ok b64 m name :
  no_space m = true -> name_ok name ->
  parse_header ((if (b64 : bool) then "begin-base64 " else "begin ") +:+ m +:+ " " +:+ name +:+ str1 LF) =
  Some (b64, m, name).
Proof.
  intros Hm (Hne & _ & Hs). unfold parse_header.
  destruct b64; cbn [String.append].
  - change (starts "begin-base64 " _) with
      (starts "begin-base64 " ("begin-base64 " +:+ m +:+ String " " (name +:+ str1 LF))).
    rewrite starts_app. cbn [sdrop]. rewrite split_at_space_app, Hs by done. by destruct name.
  - change (starts "begin-base64 " _) with false. cbv iota.
    change (starts "begin " _) with (starts "begin " ("begin " +:+ m +:+ String " " (name +:+ str1 LF))).
    rewrite starts_app. cbn [sdrop]. rewrite split_at_space_app, Hs by done. by destruct name.
Qed.

Lemma find_header_ok b64 mode name body fuel :
  0 <= mode -> name_ok name -> Z.of_nat (String.length name) + 100 <= MAXPATHLEN ->
  find_header MAXPATHLEN (S fuel)
    ((if (b64 : bool) then "begin-base64 " else "begin ") +:+ octal mode +:+ " " +:+ name +:+ String LF body) =
  (Some (b64, octal mode, name), body).
Proof.
  intros Hm Hn Hl. destruct (octal_ok mode Hm) as (H1 & H2 & H3). destruct Hn as (N1 & N2 & N3).
  set (kw := if b64 then "begin-base64 " else "begin ").
  assert (plain kw = true /\ (String.length kw <= 13)%nat) as [K1 K2]
    by (unfold kw; destruct b64; simpl; split; lia || done).
  cbn [find_header].
  replace (kw +:+ octal mode +:+ " " +:+ name +:+ String LF body)
    with ((kw +:+ octal mode +:+ " " +:+ name) +:+ String LF body) by (by rewrite !append_assoc).
  rewrite fgets_line.
  - replace ((kw +:+ octal mode +:+ " " +:+ name) +:+ str1 LF)
      with (kw +:+ octal mode +:+ " " +:+ name +:+ str1 LF) by (by rewrite !append_assoc).
    unfold kw. by rewrite parse_header_ok.
  - rewrite !plain_app, K1, H2, N2. done.
  - rewrite !length_append. simpl. lia.
Qed.

(** C23. What uuencode writes, uudecode reads back: for every mode, every file name without
    line ends that fits a header line, and every contents, the historical and the
    base64 encoding are produced, and [decode2] finds the header with that mode and
    name, writes exactly the contents, returns 0 and leaves what follows the encoded
    file unread. *)
Theorem uudecode_uuencode b64 mode name data fl rest :
  0 <= mode -> name_ok name -> Z.of_nat (String.length name) + 100 <= MAXPATHLEN ->
  Forall byte data -> setmode (octal mode) = true ->
  exists text,
    (if (b64 : bool) then base64_encode mode name data else Some (encode mode name data)) = Some text /\
    decode2 MAXPATHLEN setmode fl (text +:+ rest) =
      (Some (mkdecoded (octal mode) (leaf name) data (Some 0)), rest).
Proof.
  intros Hm Hn Hl Hb Hs. destruct b64.
  - unfold base64_encode. rewrite base64_lines_spec. eexists. split; [done|]. unfold decode2.
    match goal with |- context [find_header _ (S ?n) ?t] => replace t with
      ("begin-base64 " +:+ octal mode +:+ " " +:+ name +:+
         String LF (ref_lines (length data) data +:+ b64_end rest)) end.
    2: { unfold b64_end. by repeat rewrite append_assoc. }
    rewrite (find_header_ok true) by done. rewrite Hs. cbn [negb].
    rewrite base64_decode_lines; [done|done|lia|rewrite length_append; lia].
  - unfold encode. eexists. split; [done|]. unfold decode2.
    match goal with |- context [find_header _ (S ?n) ?t] => replace t with
      ("begin " +:+ octal mode +:+ " " +:+ name +:+
         String LF (enc_lines (length data) data +:+ uu_end rest)) end.
    2: { unfold uu_end. by rewrite !append_assoc. }
    rewrite (find_header_ok false) by done. rewrite Hs. cbn [negb].
    rewrite uu_lines; [done|done|done|lia|rewrite length_append; lia].
Qed.

(** ** Termination *)

(** [uu_decode] returns on every input, malformed ones included: each round reads at
    least one character, so the rounds the model allows are enough. *)
Theorem uu_decode_terminates fuel fl inp :
  (String.length inp < fuel)%nat -> exists r, (uu_decode MAXPATHLEN fuel fl inp).1.2 = Some r.
Proof.
  revert inp. induction fuel as [|fuel IH]; intros inp Hf; [lia|]. cbn [uu_decode]. unfold uugetline.
  destruct (fgets (MAXPATHLEN + 1) inp) as [[l|] inp'] eqn:E; [|by eexists].
  apply fgets_progress in E; [|lia].
  destruct (DEC (hd l) <=? 0).
  { destruct (fgets (MAXPATHLEN + 1) inp') as [[l'|] inp'']; by eexists. }
  destruct (dec_line 64 (DEC (hd l)) (sdrop 1 l)) as [out ok]. destruct ok; [|by eexists].
  destruct (IH inp') as [r Hr]; [lia|].
  destruct (uu_decode MAXPATHLEN fuel fl inp') as [[out' r'] inp'']. by exists r.
Qed.

(** How many base64 characters there are. *)
Fixpoint b64_count (s : string) : Z :=
  match s with
  | "" => 0
  | String c s => (if is_b64 c then 1 else 0) + b64_count s
  end.

Lemma b64_count_nonneg s : 0 <= b64_count s.
Proof. induction s as [|c s IH]; simpl; [lia|]. case_match; lia. Qed.

Lemma scan4_few s idx count c4 : 0 < count -> count + b64_count s < 4 -> scan4 s idx count c4 = c4.
Proof.
  revert idx count. induction s as [|c s IH]; intros idx count Hc Hs; [done|]. cbn [b64_count scan4] in *.
  pose proof (b64_count_nonneg s) as Hn. cbv zeta.
  set (count' := if is_b64 c then count + 1 else count).
  assert (0 < count' /\ count' + b64_count s < 4) as [H0 H4] by (unfold count'; destruct (is_b64 c); lia).
  rewrite (Z.mod_small count' 4) by lia. destruct (Z.eqb_spec count' 0); [lia|]. by apply IH.
Qed.

Lemma base64_decode_stuck fuel fl lo inp :
  Z.of_nat (String.length lo) = MAXPATHLEN -> scan4 lo 0 0 0 = 0%nat ->
  (base64_decode MAXPATHLEN fuel fl lo inp).1.2 = None.
Proof.
  intros Hl Hs. revert inp. induction fuel as [|fuel IH]; intros inp; [done|].
  cbn [base64_decode]. unfold uugetline.
  replace (MAXPATHLEN + 1 - Z.of_nat (String.length lo)) with 1 by lia.
  change (fgets 1 inp) with (Some "", inp). cbv iota beta zeta.
  rewrite append_nil_r, Hs. change (b64_pton (stake 0 lo) (MAXPATHLEN * 4)) with (Some (@nil Z)).
  cbv iota. specialize (IH inp). change (sdrop 0 lo) with lo.
  by destruct (base64_decode MAXPATHLEN fuel fl lo inp) as [[? ?] ?].
Qed.

(** C38. [base64_decode] does not return when its buffer fills up before a group of four is complete: when what is
    left of the lines before and the next [MAXPATHLEN] characters in all begin with a base64
    character and have at most three of them, the leftover leaves [fgets] no room, and whatever
    follows in the input the loop goes on for ever. *)
Theorem base64_decode_hangs fuel fl c left lo rest :
  Z.of_nat (String.length (left +:+ lo)) = MAXPATHLEN -> plain lo = true ->
  String.get 0 (left +:+ lo) = Some c -> is_b64 c = true -> b64_count (left +:+ lo) < 4 ->
  (base64_decode MAXPATHLEN fuel fl left (lo +:+ rest)).1.2 = None.
Proof.
  intros Hl Hp Hh Hc Hfew. destruct fuel as [|fuel]; [done|].
  assert (scan4 (left +:+ lo) 0 0 0 = 0%nat) as Hs.
  { destruct (left +:+ lo) as [|d s]; [done|]. injection Hh as ->. cbn [scan4 b64_count] in *. rewrite Hc in *.
    apply scan4_few; lia. }
  cbn [base64_decode]. unfold uugetline. rewrite length_append in Hl.
  assert (fgets (MAXPATHLEN + 1 - Z.of_nat (String.length left)) (lo +:+ rest) = (Some lo, rest)) as ->.
  { unfold fgets. replace (MAXPATHLEN + 1 - Z.of_nat (String.length left)) with (Z.of_nat (String.length lo) + 1) by lia.
    destruct (Z.leb_spec (Z.of_nat (String.length lo) + 1) 0); [lia|].
    destruct (Z.eqb_spec (Z.of_nat (String.length lo) + 1) 1) as [E|]; [by destruct lo; [|simpl in E; lia]|].
    destruct lo as [|d lo]; [simpl in *; lia|]. cbn [String.append].
    change (String d (lo +:+ rest)) with (String d lo +:+ rest).
    replace (Z.to_nat (Z.of_nat (String.length (String d lo)) + 1 - 1)) with (String.length (String d lo)) by lia.
    by rewrite fgets_take_full, cstr_plain. }
  cbv iota beta zeta. rewrite Hs.
  change (b64_pton (stake 0 (left +:+ lo)) (MAXPATHLEN * 4)) with (Some (@nil Z)). cbv iota.
  change (sdrop 0 (left +:+ lo)) with (left +:+ lo).
  pose proof (base64_decode_stuck fuel fl (left +:+ lo) rest ltac:(rewrite length_append; lia) Hs) as G.
  by destruct (base64_decode MAXPATHLEN fuel fl (left +:+ lo) rest) as [[? ?] ?].
Qed.
End Decode2.

Lemma b64_roundtrip_witness :
  Forall byte [77; 97; 110; 255] /\ b64_pton ("TWFu/w==" +:+ str1 LF) 6 = Some [77; 97; 110; 255].
Proof.
  assert (Forall byte [77; 97; 110; 255]) as H by (repeat constructor; unfold byte; lia).
  split; [exact H|]. exact (b64_roundtrip [77; 97; 110; 255] 9 "TWFu/w==" (str1 LF) 6 H eq_refl eq_refl eq_refl).
Defined.

Lemma uudecode_uuencode_witness :
  exists text, base64_encode 420 "dir/f" [1; 2; 3; 255] = Some text /\
    decode2 1024 (String.eqb "644") (mkdflags false false) (text +:+ "x") =
      (Some (mkdecoded "644" "f" [1; 2; 3; 255] (Some 0)), "x").
Proof.
  refine (uudecode_uuencode 1024 (String.eqb "644") _ true 420 "dir/f" [1; 2; 3; 255]
    (mkdflags false false) "x" _ _ _ _ _).
  - lia.
  - lia.
  - split; [discriminate|]. split; reflexivity.
  - vm_compute. discriminate.
  - repeat constructor; unfold byte; lia.
  - reflexivity.
Defined.

Lemma uu_decode_terminates_witness :
  exists r, (uu_decode 1024 5 (mkdflags false false) "#abc").1.2 = Some r.
Proof. apply (uu_decode_terminates 1024); [lia|vm_compute; lia]. Defined.

Fixpoint dashes (n : nat) : string :=
  match n with O => "" | S n => String "-" (dashes n) end.

(** A line of "Q" and dashes, with two characters left of the line before. *)
Lemma base64_decode_hangs_witness :
  (base64_decode 300 1000 (mkdflags false false) "A-" (String "Q" (dashes 297) +:+ "====")).1.2 = None.
Proof. by apply (base64_decode_hangs 300 1000 (mkdflags false false) "A"). Defined.
