(* ===== verification/Calendar.v ===== *)
(** * The calendar library of ncal (src/misc_cmds/ncal/calendar.c, easter.c)

    Dates and day numbers in the Julian and the Gregorian calendar, week numbers,
    week days and the date of Easter.  An [int] is an integer here: the program
    itself keeps years below 10000 (and [CalendarFacts] bounds the day numbers).
    C's [/] and [%] are [Z.quot] and [Z.rem]. *)

From Stdlib Require Import ZArith Lia List Bool.
From stdpp Require Import base tactics list numbers.
From S2P Require Import Prelude.

Local Open Scope bool_scope.
Local Open Scope Z_scope.

Record date := mkdate { date_y : Z; date_m : Z; date_d : Z }.

#[export] Instance date_eq_dec : EqDecision date.
Proof. solve_decision. Defined.

Definition month1 : list Z := [0; 31; 61; 92; 122; 153; 184; 214; 245; 275; 306; 337].
Definition month1s : list Z := [0; 31; 61; 92; 122; 153; 184; 214; 235; 265; 296; 327].

(** [t[i]] *)
Definition entry (t : list Z) (i : Z) : Z := nth (Z.to_nat i) t 0.

Definition jiswitch : date := mkdate 1582 7 3.

(** [None] is the NULL of a date before March 1st of year zero or of an impossible month. *)
Definition date2idt (dt : date) : option date :=
  let idt :=
    if 2 <? date_m dt then mkdate (date_y dt) (date_m dt - 3) (date_d dt - 1)
    else mkdate (date_y dt - 1) (date_m dt + 9) (date_d dt - 1) in
  if (date_m idt <? 0) || (11 <? date_m idt) || (date_y idt <? 0) then None else Some idt.

(** The date stored at [dt]. *)
Definition idt2date (idt : date) : date :=
  if date_m idt <? 10 then mkdate (date_y idt) (date_m idt + 3) (date_d idt + 1)
  else mkdate (date_y idt + 1) (date_m idt - 9) (date_d idt + 1).

Definition ndaysji (idt : date) : Z :=
  date_d idt + entry month1 (date_m idt) + date_y idt * 365 + Z.quot (date_y idt) 4.

Definition ndaysj (dt : date) : Z :=
  match date2idt dt with None => -1 | Some idt => ndaysji idt end.

(** The value [nswitch] caches. *)
Definition nswitch : Z := ndaysji jiswitch.

Definition ndaysgi (idt : date) : Z :=
  let nd := ndaysji idt in
  if nd =? -1 then -1
  else if 1600 <=? date_y idt then
    nd - 10 - Z.quot (date_y idt - 1600) 100 + Z.quot (date_y idt - 1600) 400
  else if nswitch <? nd then nd - 10
  else nd.

Definition ndaysg (dt : date) : Z :=
  match date2idt dt with None => -1 | Some idt => ndaysgi idt end.

(** [while ((r = days(&idt)) > ndays) idt.y--]; [None] when the fuel does not reach. *)
Fixpoint find_year (days : date -> Z) (fuel : nat) (yy ndays : Z) : option Z :=
  match fuel with
  | O => None
  | S fuel =>
      if ndays <? days (mkdate yy 0 0) then find_year days fuel (yy - 1) ndays else Some yy
  end.

(** [for (idt.m = 11; montht[idt.m] > r; idt.m--)], from the month [i] down; the first
    entry of the tables is zero. *)
Fixpoint find_month (t : list Z) (i : nat) (r : Z) : Z :=
  match i with
  | O => 0
  | S j => if r <? entry t (Z.of_nat i) then find_month t j r else Z.of_nat i
  end.

Definition year_fuel (ndays : Z) : nat := (Z.to_nat (Z.quot (Z.quot ndays 365) 1460) + 3)%nat.

Definition jdate (ndays : Z) : option date :=
  yy ← find_year ndaysji (year_fuel ndays) (Z.quot ndays 365) ndays;
  let r := ndays - ndaysji (mkdate yy 0 0) in
  let mm := find_month month1 11 r in
  Some (idt2date (mkdate yy mm (r - entry month1 mm))).

Definition gdate (ndays : Z) : option date :=
  yy ← find_year ndaysgi (year_fuel ndays) (Z.quot ndays 365) ndays;
  let ndays := ndays - ndaysgi (mkdate yy 0 0) in
  let montht := if yy =? 1582 then month1s else month1 in
  let mm := find_month montht 11 ndays in
  let dd := ndays - entry montht mm in
  let dd := if (yy =? date_y jiswitch) && (mm =? date_m jiswitch) && (date_d jiswitch <? dd) then dd + 10 else dd in
  Some (idt2date (mkdate yy mm dd)).

(** ** Weeks *)

Definition dmondaygi : date := mkdate 1997 8 16.
Definition nmonday : Z := ndaysgi dmondaygi.

Definition weekday (nd : Z) : Z :=
  let nd := Z.rem (nd - nmonday) 7 in
  if nd <? 0 then nd + 7 else nd.

Definition firstweek (yy : Z) : Z :=
  let nd := ndaysgi (mkdate (yy - 1) 10 0) in
  let wd := weekday nd in
  if 3 <? wd then nd - wd + 7 else nd - wd.

(** [for (y = dt.y + 1; nd < (fw = firstweek(y)); y--)]: the year and its [fw]. *)
Fixpoint week_year (fuel : nat) (nd yy : Z) : option (Z * Z) :=
  match fuel with
  | O => None
  | S fuel =>
      let fw := firstweek yy in
      if nd <? fw then week_year fuel nd (yy - 1) else Some (yy, fw)
  end.

(** The week number and the year it belongs to. *)
Definition week (nd : Z) : option (Z * Z) :=
  dt ← gdate nd;
  '(yy, fw) ← week_year 3 nd (date_y dt + 1);
  Some (Z.quot (nd - fw) 7 + 1, yy).

(** ** easter.c *)

Definition easterg (yy : Z) : date :=
  let n := Z.rem yy 19 in
  let c := Z.quot yy 100 in
  let k := Z.quot (c - 17) 25 in
  let i := Z.rem (c - Z.quot c 4 - Z.quot (c - k) 3 + 19 * n + 15) 30 in
  let i := i - Z.quot i 28 * (1 - Z.quot i 28 * Z.quot 29 (i + 1) * Z.quot (21 - n) 11) in
  let j := Z.rem (yy + Z.quot yy 4 + i + 2 - c + Z.quot c 4) 7 in
  let l := i - j in
  let mm := 3 + Z.quot (l + 40) 44 in
  mkdate yy mm (l + 28 - 31 * Z.quot mm 4).

(** The easter limits of a metonic cycle. *)
Definition mc : list Z := [5; 25; 13; 2; 22; 10; 30; 18; 7; 27; 15; 4; 24; 12; 1; 21; 9; 29; 17].

(** From a week day to the next Sunday. *)
Definition ns : list Z := [6; 5; 4; 3; 2; 1; 7].

Definition easter_limit (yy : Z) : date :=
  let dd := entry mc (Z.rem yy 19) in
  mkdate yy (if dd <? 21 then 4 else 3) dd.

Definition easterodn (yy : Z) : Z :=
  let dn := ndaysj (easter_limit yy) in
  dn + entry ns (weekday dn).

Definition easterog (yy : Z) : option date := gdate (easterodn yy).

Definition easteroj (yy : Z) : option date := jdate (easterodn yy).
