(* ===== verification/CalendarFacts.v ===== *)
(** * Arithmetic of the calendar library

    The rules of the two calendars, the closed forms of the day numbers and the
    searches of [jdate] and [gdate]: the day number of a date leads back to it. *)

From Stdlib Require Import ZArith Lia List Bool.
From stdpp Require Import base tactics list numbers.
From S2P Require Import Prelude Calendar.

Local Open Scope bool_scope.
Local Open Scope Z_scope.

Ltac Zify.zify_post_hook ::= Z.to_euclidean_division_equations.

(** ** The two calendars, by their rules *)

Inductive calendar := Julian | Gregorian.

#[export] Instance calendar_eq_dec : EqDecision calendar.
Proof. solve_decision. Defined.

(** Leap years; the Gregorian calendar of the library is Julian up to 1582. *)
Definition leap (c : calendar) (yy : Z) : bool :=
  match c with
  | Julian => yy mod 4 =? 0
  | Gregorian =>
      if yy <=? 1582 then yy mod 4 =? 0
      else (yy mod 4 =? 0) && (negb (yy mod 100 =? 0) || (yy mod 400 =? 0))
  end.

Definition month_days (c : calendar) (yy mm : Z) : Z :=
  if mm =? 2 then if leap c yy then 29 else 28
  else if (mm =? 4) || (mm =? 6) || (mm =? 9) || (mm =? 11) then 30 else 31.

(** The days left out by the Gregorian reform. *)
Definition dropped (c : calendar) (dt : date) : bool :=
  match c with
  | Julian => false
  | Gregorian => (date_y dt =? 1582) && (date_m dt =? 10) && (4 <? date_d dt) && (date_d dt <? 15)
  end.

(** The dates that exist, from March 1st of year zero on. *)
Definition valid (c : calendar) (dt : date) : Prop :=
  1 <= date_m dt <= 12 /\ 1 <= date_d dt <= month_days c (date_y dt) (date_m dt) /\
  (1 <= date_y dt \/ (date_y dt = 0 /\ 3 <= date_m dt)) /\ dropped c dt = false.

(** The day after. *)
Definition tomorrow (c : calendar) (dt : date) : date :=
  if decide (c = Gregorian /\ dt = mkdate 1582 10 4) then mkdate 1582 10 15
  else if date_d dt <? month_days c (date_y dt) (date_m dt)
  then mkdate (date_y dt) (date_m dt) (date_d dt + 1)
  else if date_m dt =? 12 then mkdate (date_y dt + 1) 1 1
  else mkdate (date_y dt) (date_m dt + 1) 1.

(** The library's functions by calendar. *)
Definition of_date (c : calendar) (dt : date) : Z :=
  match c with Julian => ndaysj dt | Gregorian => ndaysg dt end.

Definition to_date (c : calendar) (nd : Z) : option date :=
  match c with Julian => jdate nd | Gregorian => gdate nd end.

Definition idays (c : calendar) : date -> Z :=
  match c with Julian => ndaysji | Gregorian => ndaysgi end.

(** ** Dates in the internal representation *)

Definition ilen (c : calendar) (yy mm : Z) : Z :=
  if mm =? 11 then if leap c (yy + 1) then 29 else 28
  else if (mm =? 1) || (mm =? 3) || (mm =? 6) || (mm =? 8) then 30 else 31.

Definition idropped (c : calendar) (yy mm dd : Z) : bool :=
  match c with
  | Julian => false
  | Gregorian => (yy =? 1582) && (mm =? 7) && (3 <? dd) && (dd <? 14)
  end.

Definition ivalid (c : calendar) (i : date) : Prop :=
  0 <= date_y i /\ 0 <= date_m i <= 11 /\ 0 <= date_d i < ilen c (date_y i) (date_m i) /\
  idropped c (date_y i) (date_m i) (date_d i) = false.

Definition table (c : calendar) (yy : Z) : list Z :=
  match c with Julian => month1 | Gregorian => if yy =? 1582 then month1s else month1 end.

(** The day in its month, without the days left out. *)
Definition shown (c : calendar) (yy mm dd : Z) : Z :=
  match c with
  | Julian => dd
  | Gregorian => if (yy =? 1582) && (mm =? 7) && (3 <? dd) then dd - 10 else dd
  end.

(** A case analysis on the month. *)
Lemma month_cases mm :
  0 <= mm <= 11 ->
  mm = 0 \/ mm = 1 \/ mm = 2 \/ mm = 3 \/ mm = 4 \/ mm = 5 \/ mm = 6 \/ mm = 7 \/ mm = 8 \/
  mm = 9 \/ mm = 10 \/ mm = 11.
Proof. lia. Qed.

Ltac months H :=
  apply month_cases in H;
  repeat match type of H with _ \/ _ => destruct H as [H|H] end.

(** Entries of the tables at literal months. *)
Ltac entry_values :=
  repeat match goal with
  | |- context [entry ?t ?i] =>
      let v := eval vm_compute in (entry t i) in
      match v with 0 => idtac | Zpos _ => idtac end; change (entry t i) with v
  end.

Lemma idays_offset c yy mm dd :
  ivalid c (mkdate yy mm dd) ->
  idays c (mkdate yy mm dd) = idays c (mkdate yy 0 0) + entry (table c yy) mm + shown c yy mm dd.
Proof.
  intros (Hy & Hm & Hd & Hx). simpl in *.
  destruct c; simpl; unfold ndaysgi, ndaysji, nswitch, shown, table; cbn [date_y date_m date_d].
  { change (entry month1 0) with 0. lia. }
  change (ndaysji jiswitch) with 578042. change (entry month1 0) with 0.
  unfold idropped in Hx. unfold ilen in Hd.
  destruct (Z.eqb_spec yy 1582) as [->|Hne].
  - change (leap Gregorian (1582 + 1)) with false in Hd.
    change (1600 <=? 1582) with false. change (Z.quot 1582 4) with 395. cbv iota.
    months Hm; subst mm;
      entry_values; simpl in Hx, Hd; repeat case_match; lia.
  - assert (0 <= entry month1 mm <= 337) as Hb by (months Hm; subst mm; entry_values; lia).
    assert (dd <= 31) by (repeat case_match; lia).
    assert (entry month1 mm + dd <= 366) as Hc by (months Hm; subst mm; entry_values; cbn in Hd; repeat case_match; lia).
    repeat case_match; lia.
Qed.

Lemma year_start c yy :
  0 <= yy ->
  idays c (mkdate yy 0 0) =
  match c with
  | Julian => yy * 365 + yy / 4
  | Gregorian =>
      if 1600 <=? yy then yy * 365 + yy / 4 - 10 - (yy - 1600) / 100 + (yy - 1600) / 400
      else if 1582 <? yy then yy * 365 + yy / 4 - 10 else yy * 365 + yy / 4
  end.
Proof.
  intros Hy. destruct c; simpl; unfold ndaysgi, ndaysji, nswitch; cbn [date_y date_m date_d];
    entry_values; change (ndaysji jiswitch) with 578042.
  - rewrite Z.quot_div_nonneg by lia. lia.
  - rewrite Z.quot_div_nonneg by lia.
    destruct (Z.eqb_spec (0 + 0 + yy * 365 + yy / 4) (-1)); [lia|].
    destruct (Z.leb_spec 1600 yy).
    + rewrite !Z.quot_div_nonneg by lia. lia.
    + destruct (Z.ltb_spec 578042 (0 + 0 + yy * 365 + yy / 4)), (Z.ltb_spec 1582 yy); lia.
Qed.

Definition year_len (c : calendar) (yy : Z) : Z :=
  (if leap c (yy + 1) then 366 else 365) -
  match c with Julian => 0 | Gregorian => if yy =? 1582 then 10 else 0 end.

Lemma year_step c yy :
  0 <= yy -> idays c (mkdate (yy + 1) 0 0) = idays c (mkdate yy 0 0) + year_len c yy.
Proof.
  intros Hy. rewrite !year_start by lia. unfold year_len, leap. destruct c.
  - destruct (Z.eqb_spec ((yy + 1) mod 4) 0); lia.
  - destruct (Z.leb_spec (yy + 1) 1582), (Z.leb_spec 1600 yy), (Z.leb_spec 1600 (yy + 1)),
      (Z.ltb_spec 1582 yy), (Z.ltb_spec 1582 (yy + 1)), (Z.eqb_spec yy 1582); try lia;
      destruct (Z.eqb_spec ((yy + 1) mod 4) 0); try lia;
      destruct (Z.eqb_spec ((yy + 1) mod 100) 0); try lia;
      destruct (Z.eqb_spec ((yy + 1) mod 400) 0); simpl; lia.
Qed.

Lemma year_len_pos c yy : 355 <= year_len c yy <= 366.
Proof. unfold year_len. destruct c; repeat case_match; lia. Qed.

Lemma year_mono c a b : 0 <= a <= b -> idays c (mkdate a 0 0) <= idays c (mkdate b 0 0).
Proof.
  intros [Ha Hb]. replace b with (a + Z.of_nat (Z.to_nat (b - a))) by lia.
  generalize (Z.to_nat (b - a)) as k. intros k. induction k as [|k IH]; [rewrite Z.add_0_r; lia|].
  replace (a + Z.of_nat (S k)) with (a + Z.of_nat k + 1) by lia.
  rewrite year_step by lia. pose proof (year_len_pos c (a + Z.of_nat k)). lia.
Qed.

(** ** The two searches *)

Lemma find_year_spec f fuel y0 nd yy :
  yy <= y0 -> f (mkdate yy 0 0) <= nd -> (forall z, yy < z -> nd < f (mkdate z 0 0)) ->
  (Z.to_nat (y0 - yy) < fuel)%nat -> find_year f fuel y0 nd = Some yy.
Proof.
  intros Hy Hf Hz. revert y0 Hy. induction fuel as [|fuel IH]; intros y0 Hy Hn; [lia|].
  simpl. destruct (Z.ltb_spec nd (f (mkdate y0 0 0))) as [H|H].
  - destruct (decide (y0 = yy)) as [->|]; [lia|]. apply IH; lia.
  - destruct (decide (y0 = yy)) as [->|]; [done|]. specialize (Hz y0). lia.
Qed.

Lemma find_year_idays c yy r :
  0 <= yy -> 0 <= r < year_len c yy ->
  let nd := idays c (mkdate yy 0 0) + r in
  find_year (idays c) (year_fuel nd) (Z.quot nd 365) nd = Some yy.
Proof.
  intros Hy Hr nd.
  assert (idays c (mkdate (yy + 1) 0 0) = idays c (mkdate yy 0 0) + year_len c yy) as Hs
    by (by apply year_step).
  assert (365 * yy <= nd) as Hlow.
  { unfold nd. rewrite year_start by lia. destruct c; [lia|].
    destruct (Z.leb_spec 1600 yy), (Z.ltb_spec 1582 yy); lia. }
  assert (nd <= 365 * yy + (yy + 1) / 4 + 365) as Hup.
  { assert (nd < idays c (mkdate (yy + 1) 0 0)) as Hl by lia.
    rewrite year_start in Hl by lia. destruct c; [lia|].
    destruct (Z.leb_spec 1600 (yy + 1)), (Z.ltb_spec 1582 (yy + 1)); lia. }
  rewrite Z.quot_div_nonneg by lia.
  apply find_year_spec.
  - lia.
  - lia.
  - intros z Hz. pose proof (year_mono c (yy + 1) z). lia.
  - unfold year_fuel. rewrite !(Z.quot_div_nonneg nd), Z.quot_div_nonneg by lia. lia.
Qed.

Lemma find_month_spec c yy mm r :
  0 <= mm <= 11 -> entry (table c yy) mm <= r ->
  (mm < 11 -> r < entry (table c yy) (mm + 1)) -> find_month (table c yy) 11 r = mm.
Proof.
  intros Hm. unfold table.
  assert (forall t, t = month1 \/ t = month1s -> entry t mm <= r -> (mm < 11 -> r < entry t (mm + 1)) ->
    find_month t 11 r = mm) as G; [|destruct c; [|destruct (yy =? 1582)]; apply G; auto].
  intros t [-> | ->]; months Hm; subst mm; cbn [find_month Z.of_nat Pos.of_succ_nat Pos.succ Z.add Pos.add]; entry_values;
    repeat match goal with |- context [?a <? ?b] => destruct (Z.ltb_spec a b) end; lia.
Qed.

#[local] Arguments find_month : simpl never.
#[local] Arguments entry : simpl never.

(** The days of the year before a date, in its row of the month table. *)
Lemma offset_bounds c yy mm dd :
  ivalid c (mkdate yy mm dd) ->
  let r := entry (table c yy) mm + shown c yy mm dd in
  entry (table c yy) mm <= r /\ (mm < 11 -> r < entry (table c yy) (mm + 1)) /\ 0 <= r < year_len c yy.
Proof.
  intros (Hy & Hm & Hd & Hx) r. cbn [date_y date_m date_d] in *. subst r.
  unfold table, shown, idropped, ilen, year_len in *.
  destruct c; [|destruct (Z.eqb_spec yy 1582) as [->|]].
  - destruct (leap Julian (yy + 1)); months Hm; subst mm; entry_values; cbn in Hd; lia.
  - change (leap Gregorian (1582 + 1)) with false in *.
    months Hm; subst mm; entry_values; cbn in Hd, Hx |- *; try lia.
    destruct (Z.ltb_spec 3 dd), (Z.ltb_spec dd 14); cbn in Hx; (done || lia).
  - cbn [andb]. destruct (leap Gregorian (yy + 1));
      months Hm; subst mm; entry_values; cbn in Hd; lia.
Qed.

(** The forward direction: the day number of a date leads back to it. *)
Lemma to_date_idays c i :
  ivalid c i -> to_date c (idays c i) = Some (idt2date i).
Proof.
  destruct i as [yy mm dd]. intros Hv. rewrite idays_offset by done.
  destruct (offset_bounds c yy mm dd Hv) as (Hlo & Hhi & Hr).
  destruct Hv as (Hy & Hm & Hd & Hx). cbn [date_y date_m date_d] in *.
  set (r := entry (table c yy) mm + shown c yy mm dd) in *.
  pose proof (find_month_spec c yy mm r Hm Hlo Hhi) as Em.
  pose proof (find_year_idays c yy r Hy Hr) as Ey. cbv zeta in Ey.
  rewrite <- Z.add_assoc. fold r. destruct c; cbn [to_date idays table] in *.
  - unfold jdate. rewrite Ey. cbn [mbind option_bind].
    rewrite Z.add_simpl_l, Em. unfold r, shown. do 3 f_equal. lia.
  - unfold gdate. rewrite Ey. cbn [mbind option_bind].
    rewrite Z.add_simpl_l, Em. unfold r. do 3 f_equal.
    change (date_y jiswitch) with 1582. change (date_m jiswitch) with 7. change (date_d jiswitch) with 3.
    rewrite Z.add_simpl_l. unfold shown, idropped in *.
    destruct (Z.eqb_spec yy 1582), (Z.eqb_spec mm 7); cbn in *; try done.
    destruct (Z.ltb_spec 3 dd), (Z.ltb_spec dd 14), (Z.ltb_spec 3 (dd - 10)), (Z.ltb_spec 3 dd); cbn in Hx; (done || lia).
Qed.
