(* ===== verification/CalendarSpec.v ===== *)
(** * The calendar library refines the successor of a date

    Day numbers step through the dates one by one; round trips, weeks of ISO 8601,
    Easter. *)

From Stdlib Require Import ZArith Lia List Bool.
From stdpp Require Import base tactics list numbers.
From S2P Require Import Prelude Calendar CalendarFacts.

Local Open Scope bool_scope.
Local Open Scope Z_scope.

#[local] Arguments find_month : simpl never.
#[local] Arguments entry : simpl never.

(** ** Between the representations *)

Lemma ilen_month_days c yy mm :
  0 <= mm <= 11 ->
  ilen c yy mm = month_days c (date_y (idt2date (mkdate yy mm 0))) (date_m (idt2date (mkdate yy mm 0))).
Proof.
  intros Hm. months Hm; subst mm; try done.
Qed.

Lemma ilen_bounds c yy mm : 28 <= ilen c yy mm <= 31.
Proof. unfold ilen. repeat case_match; lia. Qed.

Lemma ivalid_valid c i :
  ivalid c i -> valid c (idt2date i) /\ date2idt (idt2date i) = Some i.
Proof.
  destruct i as [yy mm dd]. intros (Hy & Hm & Hd & Hx). cbn [date_y date_m date_d] in *.
  rewrite ilen_month_days in Hd by done. unfold valid, date2idt, idt2date, dropped, idropped in *.
  cbn [date_y date_m date_d] in *.
  destruct (Z.ltb_spec mm 10); cbn [date_y date_m date_d] in *.
  - destruct (Z.ltb_spec 2 (mm + 3)); [|lia]. cbn [date_y date_m date_d].
    replace (mm + 3 - 3) with mm by lia. replace (dd + 1 - 1) with dd by lia.
    destruct (Z.ltb_spec mm 0), (Z.ltb_spec 11 mm), (Z.ltb_spec yy 0); try lia.
    split; [|done]. split_and!; try lia. destruct c; [done|]. rewrite <- Hx.
    destruct (Z.eqb_spec yy 1582), (Z.eqb_spec (mm + 3) 10), (Z.eqb_spec mm 7), (Z.ltb_spec 4 (dd + 1)),
      (Z.ltb_spec (dd + 1) 15), (Z.ltb_spec 3 dd), (Z.ltb_spec dd 14); done || lia.
  - destruct (Z.ltb_spec 2 (mm - 9)); [lia|]. cbn [date_y date_m date_d].
    replace (mm - 9 + 9) with mm by lia. replace (dd + 1 - 1) with dd by lia.
    replace (yy + 1 - 1) with yy by lia.
    destruct (Z.ltb_spec mm 0), (Z.ltb_spec 11 mm), (Z.ltb_spec yy 0); try lia.
    split; [|done]. split_and!; try lia. destruct c; [done|].
    destruct (Z.eqb_spec (mm - 9) 10); [lia|]. by rewrite andb_false_r.
Qed.

Lemma valid_ivalid c dt :
  valid c dt -> exists i, date2idt dt = Some i /\ ivalid c i /\ idt2date i = dt.
Proof.
  destruct dt as [yy mm dd]. intros (Hm & Hd & Hy & Hx). cbn [date_y date_m date_d] in *.
  set (i := if 2 <? mm then mkdate yy (mm - 3) (dd - 1) else mkdate (yy - 1) (mm + 9) (dd - 1)).
  assert (idt2date i = mkdate yy mm dd) as Ei.
  { unfold i, idt2date. destruct (Z.ltb_spec 2 mm); cbn [date_y date_m date_d].
    - destruct (Z.ltb_spec (mm - 3) 10); [|lia]. f_equal; lia.
    - destruct (Z.ltb_spec (mm + 9) 10); [lia|]. f_equal; lia. }
  assert (ivalid c i) as Hi.
  { unfold ivalid. split_and!.
    - unfold i. destruct (Z.ltb_spec 2 mm); simpl; lia.
    - unfold i. destruct (Z.ltb_spec 2 mm); simpl; lia.
    - unfold i. destruct (Z.ltb_spec 2 mm); simpl; lia.
    - unfold i. destruct (Z.ltb_spec 2 mm); simpl; lia.
    - rewrite ilen_month_days by (unfold i; destruct (Z.ltb_spec 2 mm); simpl; lia).
      unfold i, idt2date. destruct (Z.ltb_spec 2 mm); cbn [date_y date_m date_d].
      + destruct (Z.ltb_spec (mm - 3) 10); [|lia]. cbn [date_y date_m date_d].
        replace (mm - 3 + 3) with mm by lia. lia.
      + destruct (Z.ltb_spec (mm + 9) 10); [exfalso; lia|]. cbn [date_y date_m date_d].
        replace (mm + 9 - 9) with mm by lia. replace (yy - 1 + 1) with yy by lia. lia.
    - unfold idropped, dropped, i in *. destruct c; [done|]. cbn [date_y date_m date_d] in *.
      rewrite <- Hx. destruct (Z.ltb_spec 2 mm); cbn [date_y date_m date_d].
      + destruct (Z.eqb_spec yy 1582), (Z.eqb_spec mm 10), (Z.eqb_spec (mm - 3) 7), (Z.ltb_spec 4 dd),
          (Z.ltb_spec dd 15), (Z.ltb_spec 3 (dd - 1)), (Z.ltb_spec (dd - 1) 14); done || lia.
      + destruct (Z.eqb_spec (mm + 9) 7), (Z.eqb_spec mm 10); lia. }
  exists i. split; [|done]. rewrite <- Ei. apply (ivalid_valid c i Hi).
Qed.

Lemma of_date_idays c dt i : date2idt dt = Some i -> of_date c dt = idays c i.
Proof. intros H. destruct c; simpl; unfold ndaysj, ndaysg; by rewrite H. Qed.

(** ** The successor *)

Lemma idt2date_lo yy mm dd : mm < 10 -> idt2date (mkdate yy mm dd) = mkdate yy (mm + 3) (dd + 1).
Proof. intros H. unfold idt2date. simpl. destruct (Z.ltb_spec mm 10); [done|lia]. Qed.

Lemma idt2date_hi yy mm dd :
  10 <= mm -> idt2date (mkdate yy mm dd) = mkdate (yy + 1) (mm - 9) (dd + 1).
Proof. intros H. unfold idt2date. simpl. destruct (Z.ltb_spec mm 10); [lia|done]. Qed.

Lemma tomorrow_idt c yy mm dd :
  0 <= mm <= 11 -> ~ (c = Gregorian /\ mkdate yy mm dd = mkdate 1582 7 3) ->
  tomorrow c (idt2date (mkdate yy mm dd)) =
  idt2date (if dd + 1 <? ilen c yy mm then mkdate yy mm (dd + 1)
            else if mm =? 11 then mkdate (yy + 1) 0 0 else mkdate yy (mm + 1) 0).
Proof.
  intros Hm Hne. rewrite ilen_month_days by done. unfold tomorrow. rewrite decide_False.
  2: { intros [Hc E]. apply Hne. split; [done|]. revert E.
       destruct (Z.ltb_spec mm 10); [rewrite idt2date_lo by done|rewrite idt2date_hi by done];
         intros [= E1 E2 E3]; f_equal; lia. }
  destruct (Z.ltb_spec mm 10).
  - rewrite !(idt2date_lo yy mm) by done. cbn [date_y date_m date_d].
    destruct (_ <? _); [by rewrite idt2date_lo|].
    destruct (Z.eqb_spec (mm + 3) 12), (Z.eqb_spec mm 11); try lia.
    + rewrite idt2date_hi by lia. f_equal; lia.
    + rewrite idt2date_lo by lia. f_equal; lia.
  - rewrite !(idt2date_hi yy mm) by done. cbn [date_y date_m date_d].
    destruct (_ <? _); [by rewrite idt2date_hi|].
    destruct (Z.eqb_spec (mm - 9) 12), (Z.eqb_spec mm 11); try lia.
    + rewrite idt2date_lo by lia. f_equal; lia.
    + rewrite idt2date_hi by lia. f_equal; lia.
Qed.

Lemma year_end c yy dd :
  dd = ilen c yy 11 - 1 -> year_len c yy = entry (table c yy) 11 + shown c yy 11 dd + 1.
Proof.
  unfold year_len, ilen, table, shown. change (11 =? 11) with true. change (11 =? 7) with false. cbv iota.
  intros ->. destruct c; [|destruct (Z.eqb_spec yy 1582)]; cbn [andb]; entry_values;
    destruct (leap _ _) eqn:E; try lia.
Qed.

Lemma month_end c yy mm dd :
  0 <= mm < 11 -> dd = ilen c yy mm - 1 ->
  entry (table c yy) (mm + 1) + shown c yy (mm + 1) 0 = entry (table c yy) mm + shown c yy mm dd + 1.
Proof.
  intros Hm ->. assert (0 <= mm <= 11) as H by lia.
  unfold ilen, table, shown. destruct c; [|destruct (Z.eqb_spec yy 1582)];
    months H; try lia; subst mm; entry_values; cbn; lia || reflexivity.
Qed.

Lemma next_idays c i :
  ivalid c i ->
  exists i', ivalid c i' /\ idays c i' = idays c i + 1 /\ idt2date i' = tomorrow c (idt2date i).
Proof.
  destruct i as [yy mm dd]. intros Hv. pose proof Hv as (Hy & Hm & Hd & Hx).
  cbn [date_y date_m date_d] in *.
  assert (forall i', ivalid c i' -> idays c i' = idays c (mkdate yy mm dd) + 1 ->
    idt2date i' = tomorrow c (idt2date (mkdate yy mm dd)) ->
    exists i', ivalid c i' /\ idays c i' = idays c (mkdate yy mm dd) + 1 /\
      idt2date i' = tomorrow c (idt2date (mkdate yy mm dd))) as G by eauto.
  destruct (decide (c = Gregorian /\ mkdate yy mm dd = mkdate 1582 7 3)) as [[-> [= -> -> ->]]|Hne].
  { apply (G (mkdate 1582 7 14)); [|done|done]. unfold ivalid. by split_and!. }
  assert (shown c yy mm (dd + 1) = shown c yy mm dd + 1) as Hsh.
  { unfold shown, idropped in *. destruct c; [done|].
    destruct (Z.eqb_spec yy 1582), (Z.eqb_spec mm 7); try done. subst. cbn in Hx |- *.
    assert (dd <> 3) by (intros ->; by apply Hne).
    destruct (Z.ltb_spec 3 (dd + 1)), (Z.ltb_spec 3 dd); lia. }
  destruct (decide (dd + 1 < ilen c yy mm)) as [Hlast|Hlast].
  - assert (ivalid c (mkdate yy mm (dd + 1))) as Hv'.
    { unfold ivalid. cbn [date_y date_m date_d]. split_and!; try lia.
      unfold shown, idropped in *. destruct c; [done|].
      destruct (Z.eqb_spec yy 1582), (Z.eqb_spec mm 7); try done. cbn in Hx, Hsh |- *.
      destruct (Z.ltb_spec 3 (dd + 1)), (Z.ltb_spec 3 dd), (Z.ltb_spec dd 14),
        (Z.ltb_spec (dd + 1) 14); cbn in Hx; done || lia. }
    apply (G (mkdate yy mm (dd + 1)) Hv').
    + rewrite (idays_offset c yy mm dd), (idays_offset c yy mm (dd + 1)) by done. lia.
    + rewrite tomorrow_idt by done. destruct (Z.ltb_spec (dd + 1) (ilen c yy mm)); [done|lia].
  - pose proof (ilen_bounds c yy mm).
    assert (forall i', i' = (if mm =? 11 then mkdate (yy + 1) 0 0 else mkdate yy (mm + 1) 0) ->
      idt2date i' = tomorrow c (idt2date (mkdate yy mm dd))) as Ht.
    { intros i' ->. rewrite tomorrow_idt by done.
      destruct (Z.ltb_spec (dd + 1) (ilen c yy mm)); [lia|done]. }
    destruct (decide (mm = 11)) as [->|Hm11].
    + apply (G (mkdate (yy + 1) 0 0)); [|rewrite year_step, (idays_offset c yy 11 dd) by done|by apply Ht].
      * pose proof (ilen_bounds c (yy + 1) 0). unfold ivalid. cbn [date_y date_m date_d].
        split_and!; try lia. unfold idropped. destruct c; [done|].
        destruct (Z.eqb_spec (yy + 1) 1582); done.
      * pose proof (year_end c yy dd). lia.
    + assert (ivalid c (mkdate yy (mm + 1) 0)) as Hv'.
      { pose proof (ilen_bounds c yy (mm + 1)). unfold ivalid. cbn [date_y date_m date_d].
        split_and!; try lia. unfold idropped. destruct c; [done|]. by rewrite andb_false_r. }
      apply (G (mkdate yy (mm + 1) 0) Hv').
      * rewrite (idays_offset c yy mm dd), (idays_offset c yy (mm + 1) 0) by done.
        pose proof (month_end c yy mm dd). lia.
      * apply Ht. destruct (Z.eqb_spec mm 11); [lia|done].
Qed.

Lemma idays_surjective c n : exists i, ivalid c i /\ idays c i = Z.of_nat n.
Proof.
  induction n as [|n (i & Hi & E)].
  - exists (mkdate 0 0 0). split; [unfold ivalid; by destruct c|by destruct c].
  - destruct (next_idays c i Hi) as (i' & Hi' & E' & _). exists i'. split; [done|]. lia.
Qed.

Lemma idays_nonneg c i : ivalid c i -> 0 <= idays c i.
Proof.
  destruct i as [yy mm dd]. intros Hi. rewrite idays_offset by done.
  pose proof (offset_bounds c yy mm dd Hi). pose proof (year_mono c 0 yy).
  destruct Hi as (? & _). cbn [date_y] in *.
  assert (idays c (mkdate 0 0 0) = 0) by (by destruct c). lia.
Qed.

Lemma of_date_nonneg c dt : valid c dt -> 0 <= of_date c dt.
Proof.
  intros Hv. destruct (valid_ivalid c dt Hv) as (i & Hd & Hi & _).
  rewrite (of_date_idays c _ i Hd). by apply idays_nonneg.
Qed.

Lemma date_refines c :
  to_date c 0 = Some (mkdate 0 3 1) /\
  forall nd, 0 <= nd -> exists dt,
    to_date c nd = Some dt /\ valid c dt /\ of_date c dt = nd /\
    to_date c (nd + 1) = Some (tomorrow c dt).
Proof.
  split; [by destruct c|]. intros nd Hnd.
  destruct (idays_surjective c (Z.to_nat nd)) as (i & Hi & E). rewrite Z2Nat.id in E by done.
  destruct (next_idays c i Hi) as (i' & Hi' & E' & Et). exists (idt2date i).
  destruct (ivalid_valid c i Hi) as [Hv Hd].
  rewrite <- E. split_and!; [by apply to_date_idays|done|by apply of_date_idays|].
  by rewrite <- E', to_date_idays, Et.
Qed.

(** C25. Both calendars count days by the successor of a date: day zero is March 1st of year
    zero, and if day [nd] is the date [dt], then [dt] is a date of the calendar, day
    [nd + 1] is the day after it by the leap year rules (October 4th, 1582 being followed
    by October 15th in the Gregorian calendar), and [nd] is the day number of [dt]. *)
Theorem date_refines_tomorrow c :
  to_date c 0 = Some (mkdate 0 3 1) /\
  forall nd, 0 <= nd -> exists dt,
    to_date c nd = Some dt /\ valid c dt /\ of_date c dt = nd /\
    to_date c (nd + 1) = Some (tomorrow c dt).
Proof. exact (date_refines c). Qed.

(** Every date of a calendar survives the way to its day number and back. *)
Theorem date_roundtrip c dt :
  valid c dt -> 0 <= of_date c dt /\ to_date c (of_date c dt) = Some dt.
Proof.
  intros Hv. destruct (valid_ivalid c dt Hv) as (i & Hd & Hi & <-).
  rewrite (of_date_idays c _ i Hd). split; [by apply idays_nonneg|by apply to_date_idays].
Qed.

Lemma date_roundtrip_witness :
  0 <= ndaysg (mkdate 2000 2 29) /\ gdate (ndaysg (mkdate 2000 2 29)) = Some (mkdate 2000 2 29).
Proof. apply (date_roundtrip Gregorian).
  unfold valid. cbn [date_y date_m date_d]. change (month_days Gregorian 2000 2) with 29.
  split; [lia|]. split; [lia|]. split; [lia|reflexivity].
Defined.

(** The day numbers of the dates up to a year, for [int]s. *)
Lemma of_date_le c dt : valid c dt -> of_date c dt <= 365 * date_y dt + date_y dt / 4 + 366.
Proof.
  intros Hv. destruct (valid_ivalid c dt Hv) as (i & Hd & Hi & <-).
  rewrite (of_date_idays c _ i Hd). destruct i as [yy mm dd]. rewrite idays_offset by done.
  pose proof (offset_bounds c yy mm dd Hi) as Hr. cbv zeta in Hr. pose proof (year_len_pos c yy).
  destruct Hi as (Hy & Hm & _). cbn [date_y date_m date_d] in *.
  assert (yy <= date_y (idt2date (mkdate yy mm dd))).
  { destruct (Z.ltb_spec mm 10); [rewrite idt2date_lo by done|rewrite idt2date_hi by done]; simpl; lia. }
  rewrite year_start by lia. destruct c; [lia|].
  destruct (Z.leb_spec 1600 yy), (Z.ltb_spec 1582 yy); lia.
Qed.

(** ** Weeks *)

Lemma weekday_mod nd :
  weekday nd = (nd - ndaysg (mkdate 1997 11 17)) mod 7 /\ 0 <= weekday nd < 7 /\
  weekday (nd + 1) = (weekday nd + 1) mod 7.
Proof.
  change (ndaysg (mkdate 1997 11 17)) with nmonday. unfold weekday.
  generalize nmonday as k. intros k.
  destruct (Z.ltb_spec (Z.rem (nd - k) 7) 0), (Z.ltb_spec (Z.rem (nd + 1 - k) 7) 0); lia.
Qed.

(** [weekday] counts the days of the week from Monday: it is the day number modulo seven,
    with November 17th, 1997 a Monday, for day numbers before that day as well. *)
Theorem weekday_spec nd :
  weekday nd = (nd - ndaysg (mkdate 1997 11 17)) mod 7 /\ 0 <= weekday nd < 7 /\
  weekday (nd + 1) = (weekday nd + 1) mod 7.
Proof. apply weekday_mod. Qed.

(** January 1st. *)
Definition jan1 (yy : Z) : Z := ndaysgi (mkdate (yy - 1) 10 0).

Lemma jan1_start yy : 1 <= yy -> jan1 yy = idays Gregorian (mkdate (yy - 1) 0 0) + (if yy =? 1583 then 296 else 306).
Proof.
  intros Hy. unfold jan1. change ndaysgi with (idays Gregorian). rewrite idays_offset.
  - unfold table, shown. destruct (Z.eqb_spec (yy - 1) 1582), (Z.eqb_spec yy 1583); try lia; entry_values;
      cbn; lia.
  - pose proof (ilen_bounds Gregorian (yy - 1) 10). unfold ivalid. cbn [date_y date_m date_d].
    split_and!; try lia. unfold idropped. by rewrite andb_false_r.
Qed.

Lemma jan1_step yy : 0 <= yy -> 355 <= jan1 (yy + 1) - jan1 yy <= 366.
Proof.
  intros Hy. destruct (decide (yy = 0)) as [->|].
  { change (jan1 (0 + 1)) with 306. change (jan1 0) with (-59). lia. }
  rewrite !jan1_start by lia. replace (yy + 1 - 1) with (yy - 1 + 1) by lia.
  rewrite year_step by lia. unfold year_len.
  replace (yy - 1 + 1) with yy by lia.
  destruct (Z.eqb_spec (yy + 1) 1583), (Z.eqb_spec yy 1583), (Z.eqb_spec (yy - 1) 1582); try lia;
    destruct (leap Gregorian yy); lia.
Qed.

Lemma firstweek_near yy : -3 <= firstweek yy - jan1 yy <= 3 /\ weekday (firstweek yy) = 0.
Proof.
  unfold firstweek. fold (jan1 yy). destruct (weekday_mod (jan1 yy)) as (E & B & _).
  destruct (Z.ltb_spec 3 (weekday (jan1 yy))) as [H|H];
    (split; [lia|]); rewrite (proj1 (weekday_mod _)); rewrite E in *;
    generalize (ndaysg (mkdate 1997 11 17)) as k; intros; lia.
Qed.

Lemma table_increasing c yy mm : 0 <= mm < 11 -> entry (table c yy) mm < entry (table c yy) (mm + 1).
Proof.
  intros Hm. assert (0 <= mm <= 11) as H by lia. unfold table.
  destruct c; [|destruct (yy =? 1582)]; months H; try lia; subst mm; entry_values; lia.
Qed.

Lemma year_of_day nd dt :
  0 <= nd -> gdate nd = Some dt -> 0 <= date_y dt /\ jan1 (date_y dt) <= nd < jan1 (date_y dt + 1).
Proof.
  intros Hnd E. destruct (idays_surjective Gregorian (Z.to_nat nd)) as (i & Hi & En).
  rewrite Z2Nat.id in En by done. pose proof (to_date_idays Gregorian i Hi) as E'.
  rewrite En in E'. cbn [to_date] in E'. rewrite E in E'. injection E' as ->. subst nd.
  destruct i as [yy mm dd]. pose proof (offset_bounds Gregorian yy mm dd Hi) as Hr. cbv zeta in Hr.
  rewrite idays_offset in * by done. destruct Hi as (Hy & Hm & _). cbn [date_y date_m date_d] in *.
  assert (jan1 (yy + 1) = idays Gregorian (mkdate yy 0 0) + entry (table Gregorian yy) 10) as J.
  { rewrite jan1_start by lia. replace (yy + 1 - 1) with yy by lia. unfold table.
    destruct (Z.eqb_spec (yy + 1) 1583), (Z.eqb_spec yy 1582); try lia; by entry_values. }
  set (S0 := idays Gregorian (mkdate yy 0 0)) in *. set (t := table Gregorian yy) in *.
  assert (forall k, 0 <= k < 11 -> entry t k < entry t (k + 1)) as T by (intros; by apply table_increasing).
  pose proof (jan1_step yy Hy) as J0. pose proof (jan1_step (yy + 1)) as J1.
  destruct (Z.ltb_spec mm 10).
  - rewrite idt2date_lo by done. cbn [date_y].
    assert (entry t (mm + 1) <= entry t 10).
    { clear -Hm H. months Hm; subst mm; unfold t; cbn [table]; destruct (yy =? 1582); entry_values; lia. }
    assert (jan1 yy <= S0).
    { unfold S0. destruct (decide (yy = 0)) as [->|]; [by vm_compute|].
      rewrite jan1_start by lia. replace yy with (yy - 1 + 1) at 3 by lia.
      rewrite year_step by lia. pose proof (year_len_pos Gregorian (yy - 1)).
      destruct (yy =? 1583); lia. }
    lia.
  - rewrite idt2date_hi by done. cbn [date_y].
    assert (entry t 10 <= entry t mm).
    { assert (mm = 10 \/ mm = 11) as [-> | ->] by lia; [lia|]. pose proof (T 10 ltac:(lia)) as T10. change (10 + 1) with 11 in T10. lia. }
    assert (S0 + year_len Gregorian yy <= jan1 (yy + 1 + 1)).
    { rewrite jan1_start by lia. replace (yy + 1 + 1 - 1) with (yy + 1) by lia.
      unfold S0. rewrite year_step by lia. destruct (yy + 1 + 1 =? 1583); lia. }
    lia.
Qed.

Lemma jan4 yy : 1 <= yy -> ndaysg (mkdate yy 1 4) = jan1 yy + 3.
Proof.
  intros Hy. rewrite jan1_start by done. unfold ndaysg, date2idt. cbn [date_y date_m date_d].
  change (2 <? 1) with false. cbn [date_y date_m date_d orb].
  change ((1 + 9 <? 0) || (11 <? 1 + 9)) with false. cbn [orb].
  destruct (Z.ltb_spec (yy - 1) 0); [lia|]. change (1 + 9) with 10. change (4 - 1) with 3.
  change ndaysgi with (idays Gregorian). rewrite idays_offset.
  - unfold table, shown. destruct (Z.eqb_spec (yy - 1) 1582), (Z.eqb_spec yy 1583); try lia; entry_values;
      cbn; lia.
  - pose proof (ilen_bounds Gregorian (yy - 1) 10). unfold ivalid. cbn [date_y date_m date_d].
    split_and!; try lia. unfold idropped. by rewrite andb_false_r.
Qed.

Lemma week_iso nd :
  firstweek 1 <= nd ->
  exists w yy, week nd = Some (w, yy) /\ 1 <= w <= 53 /\
    weekday (firstweek yy) = 0 /\ firstweek yy <= ndaysg (mkdate yy 1 4) < firstweek yy + 7 /\
    firstweek yy + 7 * (w - 1) <= nd < firstweek yy + 7 * w /\ nd < firstweek (yy + 1).
Proof.
  intros Hnd. change (firstweek 1) with 308 in Hnd.
  destruct (proj2 (date_refines Gregorian) nd ltac:(lia)) as (dt & E & _).
  cbn [to_date] in E.
  destruct (year_of_day nd dt ltac:(lia) E) as (Hy & Hj). set (y0 := date_y dt) in *.
  pose proof (firstweek_near (y0 + 1)) as [N1 _]. pose proof (firstweek_near y0) as [N0 _].
  pose proof (jan1_step (y0 + 1) ltac:(lia)) as J1.
  assert (1 <= y0) as Hy1.
  { destruct (decide (y0 = 0)) as [E0|]; [|lia]. rewrite E0 in Hj. change (jan1 (0 + 1)) with 306 in Hj. lia. }
  pose proof (firstweek_near (y0 - 1)) as [Nm _]. pose proof (firstweek_near (y0 + 1 + 1)) as [N2 _].
  pose proof (jan1_step (y0 - 1) ltac:(lia)) as Jm. replace (y0 - 1 + 1) with y0 in Jm by lia.
  assert (exists yy, week_year 3 nd (y0 + 1) = Some (yy, firstweek yy) /\ 0 <= yy /\
    firstweek yy <= nd < firstweek (yy + 1)) as (yy & Ew & Hyy & Hlo & Hhi).
  { cbn [week_year]. destruct (Z.ltb_spec nd (firstweek (y0 + 1))); [|exists (y0 + 1); split_and!; done || lia].
    replace (y0 + 1 - 1) with y0 by lia.
    destruct (Z.ltb_spec nd (firstweek y0)); [|exists y0; split_and!; done || lia].
    destruct (Z.ltb_spec nd (firstweek (y0 - 1))); [lia|]. exists (y0 - 1).
    replace (y0 - 1 + 1) with y0 by lia. split_and!; done || lia. }
  assert (1 <= yy) as Hyy1.
  { destruct (decide (yy = 0)) as [->|]; [|lia]. change (firstweek (0 + 1)) with 308 in Hhi. lia. }
  pose proof (firstweek_near yy) as [Ny Wy]. pose proof (firstweek_near (yy + 1)) as [Ny1 Wy1].
  pose proof (jan1_step yy Hyy) as Jy.
  assert (firstweek (yy + 1) - firstweek yy <= 371) as Hw.
  { rewrite (proj1 (weekday_mod _)) in Wy. rewrite (proj1 (weekday_mod _)) in Wy1. lia. }
  exists ((nd - firstweek yy) / 7 + 1), yy. unfold week. rewrite E. cbn [mbind option_bind].
  fold y0. rewrite Ew. cbn [mbind option_bind]. rewrite Z.quot_div_nonneg by lia.
  rewrite jan4 by done. split_and!; first [done|lia].
Qed.

(** C35. Weeks are those of ISO 8601: from the first week of year 1 on, [week] returns the
    week number [w] and the year [yy] such that the day is in the [w]-th week from the
    Monday of the week with January 4th of [yy], and before that Monday of the next
    year; [w] is between 1 and 53. *)
Theorem week_is_iso nd :
  firstweek 1 <= nd ->
  exists w yy, week nd = Some (w, yy) /\ 1 <= w <= 53 /\
    weekday (firstweek yy) = 0 /\ firstweek yy <= ndaysg (mkdate yy 1 4) < firstweek yy + 7 /\
    firstweek yy + 7 * (w - 1) <= nd < firstweek yy + 7 * w /\ nd < firstweek (yy + 1).
Proof. exact (week_iso nd). Qed.

Lemma week_is_iso_witness :
  exists w yy, week (ndaysg (mkdate 2024 12 30)) = Some (w, yy) /\ 1 <= w <= 53 /\
    weekday (firstweek yy) = 0 /\ firstweek yy <= ndaysg (mkdate yy 1 4) < firstweek yy + 7 /\
    firstweek yy + 7 * (w - 1) <= ndaysg (mkdate 2024 12 30) < firstweek yy + 7 * w /\
    ndaysg (mkdate 2024 12 30) < firstweek (yy + 1).
Proof. apply week_is_iso. vm_compute. discriminate. Defined.

(** ** Easter *)

(** Easter Sunday of the Gregorian calendar by the computus of Meeus, Jones and Butcher. *)
Definition computus (yy : Z) : date :=
  let a := yy mod 19 in
  let b := yy / 100 in let c := yy mod 100 in
  let d := b / 4 in let e := b mod 4 in
  let f := (b + 8) / 25 in
  let g := (b - f + 1) / 3 in
  let h := (19 * a + b - d - g + 15) mod 30 in
  let i := c / 4 in let k := c mod 4 in
  let l := (32 + 2 * e + 2 * i - h - k) mod 7 in
  let m := (a + 11 * h + 22 * l) / 451 in
  mkdate yy ((h + l - 7 * m + 114) / 31) ((h + l - 7 * m + 114) mod 31 + 1).

Definition easter_ok (yy : Z) : bool :=
  bool_decide (easterg yy = computus yy) && (weekday (ndaysg (easterg yy)) =? 6) &&
  (ndaysg (mkdate yy 3 22) <=? ndaysg (easterg yy)) && (ndaysg (easterg yy) <=? ndaysg (mkdate yy 4 25)).

(** The years from [a] on. *)
Fixpoint years (a : Z) (n : nat) : list Z :=
  match n with O => [] | S n => a :: years (a + 1) n end.

Lemma years_in a n yy : a <= yy < a + Z.of_nat n -> In yy (years a n).
Proof.
  revert a. induction n as [|n IH]; intros a H; simpl; [lia|].
  destruct (decide (a = yy)); [by left|]. right. apply IH. lia.
Qed.

Lemma easter_checked : forallb easter_ok (years 1583 (Z.to_nat 8417)) = true.
Proof. by vm_compute. Qed.

(** C36. For every year the program prints a Gregorian Easter for, from 1583 to 9999, [easterg] is
    the date of the computus, a Sunday from March 22nd to April 25th. *)
Theorem easterg_is_computus yy :
  1583 <= yy <= 9999 ->
  easterg yy = computus yy /\ weekday (ndaysg (easterg yy)) = 6 /\
  ndaysg (mkdate yy 3 22) <= ndaysg (easterg yy) <= ndaysg (mkdate yy 4 25).
Proof.
  intros H. pose proof easter_checked as C. rewrite forallb_forall in C.
  specialize (C yy (years_in 1583 (Z.to_nat 8417) yy ltac:(lia))). unfold easter_ok in C.
  rewrite !andb_true_iff, bool_decide_eq_true, Z.eqb_eq, !Z.leb_le in C. tauto.
Qed.

Lemma easterg_is_computus_witness :
  easterg 2024 = computus 2024 /\ weekday (ndaysg (easterg 2024)) = 6 /\
  ndaysg (mkdate 2024 3 22) <= ndaysg (easterg 2024) <= ndaysg (mkdate 2024 4 25).
Proof. apply easterg_is_computus. lia. Defined.

(** Orthodox Easter of any year is the first Sunday after the easter limit of the year in
    its metonic cycle, and [easteroj] and [easterog] show that day in the two calendars. *)
Theorem easterodn_spec yy :
  1 <= yy ->
  let limit := ndaysj (easter_limit yy) in
  limit < easterodn yy <= limit + 7 /\ weekday (easterodn yy) = 6 /\
  exists dj dg, easteroj yy = Some dj /\ easterog yy = Some dg /\
    valid Julian dj /\ valid Gregorian dg /\ ndaysj dj = easterodn yy /\ ndaysg dg = easterodn yy.
Proof.
  intros Hy limit. unfold easterodn. fold limit.
  assert (0 <= limit) as Hlim.
  { unfold limit. assert (valid Julian (easter_limit yy)) as Hv.
    { unfold valid, easter_limit. cbn [date_y date_m date_d dropped].
      assert (0 <= Z.rem yy 19 < 19) as Hr by lia. set (r := Z.rem yy 19) in *.
      assert (1 <= entry mc r <= 30).
      { assert (forallb (fun i => (1 <=? entry mc i) && (entry mc i <=? 30)) (years 0 19) = true) as C
          by (by vm_compute).
        rewrite forallb_forall in C. specialize (C r (years_in 0 19 r ltac:(lia))). lia. }
      destruct (entry mc r <? 21); (split; [lia|]; split; [|split; [lia|done]]).
      - change (month_days Julian yy 4) with 30. lia.
      - change (month_days Julian yy 3) with 31. lia. }
    apply (of_date_nonneg Julian _ Hv). }
  destruct (weekday_mod limit) as (Ew & Bw & _). set (w := weekday limit) in *.
  assert (entry ns w = if w =? 6 then 7 else 6 - w) as En.
  { assert (w = 0 \/ w = 1 \/ w = 2 \/ w = 3 \/ w = 4 \/ w = 5 \/ w = 6) as D by lia.
    repeat destruct D as [D|D]; rewrite D; done. }
  rewrite En. set (k := if w =? 6 then 7 else 6 - w).
  assert (1 <= k <= 7 /\ (w + k) mod 7 = 6) as [Hk Hk'] by (unfold k; destruct (Z.eqb_spec w 6); lia).
  split; [lia|]. split.
  { rewrite (proj1 (weekday_mod _)). rewrite Ew in Hk'. lia. }
  destruct (proj2 (date_refines Julian) (limit + k) ltac:(lia)) as (dj & Ej & Vj & Oj & _).
  destruct (proj2 (date_refines Gregorian) (limit + k) ltac:(lia)) as (dg & Eg & Vg & Og & _).
  exists dj, dg. unfold easteroj, easterog, easterodn. fold limit. fold w. rewrite En. fold k.
  by split_and!.
Qed.

Lemma easterodn_spec_witness :
  let limit := ndaysj (easter_limit 2024) in
  limit < easterodn 2024 <= limit + 7 /\ weekday (easterodn 2024) = 6 /\
  exists dj dg, easteroj 2024 = Some dj /\ easterog 2024 = Some dg /\
    valid Julian dj /\ valid Gregorian dg /\ ndaysj dj = easterodn 2024 /\ ndaysg dg = easterodn 2024.
Proof. apply easterodn_spec. lia. Defined.

(** No day number the conversions compute from a date of a year up to 5,000,000 leaves the
    range of an [int]; the program accepts the years 1 to 9999. *)
Theorem day_numbers_fit c dt :
  valid c dt -> date_y dt <= 5000000 ->
  0 <= of_date c dt < 2 ^ 31 /\ 0 <= date_y dt * 365 + date_y dt / 4 + 366 < 2 ^ 31.
Proof.
  intros Hv Hy. pose proof (of_date_le c dt Hv). pose proof (of_date_nonneg c dt Hv).
  destruct Hv as (_ & _ & Hy0 & _). change (2 ^ 31) with 2147483648. lia.
Qed.

Lemma day_numbers_fit_witness :
  let dt := mkdate 9999 12 31 in
  0 <= ndaysg dt < 2 ^ 31 /\ 0 <= date_y dt * 365 + date_y dt / 4 + 366 < 2 ^ 31.
Proof.
  apply (day_numbers_fit Gregorian).
  - unfold valid. cbn [date_y date_m date_d]. change (month_days Gregorian 9999 12) with 31.
    split; [lia|]. split; [lia|]. split; [lia|reflexivity].
  - simpl. lia.
Defined.
