(* ===== verification/Ncal.v ===== *)
(** * ncal and cal (src/misc_cmds/ncal/ncal.c)

    The switch from the Julian to the Gregorian calendar, the tables of a month and
    the layout of the pages.  What the locale and the terminal provide (the names of
    months and days, [isatty], the highlighting sequences) is a parameter; the
    [switches] table, the day strings and the layout are the program's. *)

From Stdlib Require Import ZArith Lia List Bool String Ascii.
From stdpp Require Import base tactics list numbers strings pretty.
From S2P Require Import Prelude CLib Calendar.

Local Open Scope string_scope.
Local Open Scope bool_scope.
Local Open Scope Z_scope.

Local Abbreviation len s := (Z.of_nat (String.length s)).

(** ** Tables *)

Record djswitch := mkswitch { cc : string; nm : string; sw_dt : date }.

Definition switches : list djswitch :=
  [mkswitch "AL" "Albania" (mkdate 1912 11 30);
   mkswitch "AT" "Austria" (mkdate 1583 10 5);
   mkswitch "AU" "Australia" (mkdate 1752 9 2);
   mkswitch "BE" "Belgium" (mkdate 1582 12 14);
   mkswitch "BG" "Bulgaria" (mkdate 1916 3 18);
   mkswitch "CA" "Canada" (mkdate 1752 9 2);
   mkswitch "CH" "Switzerland" (mkdate 1655 2 28);
   mkswitch "CN" "China" (mkdate 1911 12 18);
   mkswitch "CZ" "Czech Republic" (mkdate 1584 1 6);
   mkswitch "DE" "Germany" (mkdate 1700 2 18);
   mkswitch "DK" "Denmark" (mkdate 1700 2 18);
   mkswitch "ES" "Spain" (mkdate 1582 10 4);
   mkswitch "FI" "Finland" (mkdate 1753 2 17);
   mkswitch "FR" "France" (mkdate 1582 12 9);
   mkswitch "GB" "United Kingdom" (mkdate 1752 9 2);
   mkswitch "GR" "Greece" (mkdate 1924 3 9);
   mkswitch "HU" "Hungary" (mkdate 1587 10 21);
   mkswitch "IS" "Iceland" (mkdate 1700 11 16);
   mkswitch "IT" "Italy" (mkdate 1582 10 4);
   mkswitch "JP" "Japan" (mkdate 1918 12 18);
   mkswitch "LI" "Lithuania" (mkdate 1918 2 1);
   mkswitch "LN" "Latin" (mkdate 9999 5 31);
   mkswitch "LU" "Luxembourg" (mkdate 1582 12 14);
   mkswitch "LV" "Latvia" (mkdate 1918 2 1);
   mkswitch "NL" "Netherlands" (mkdate 1582 12 14);
   mkswitch "NO" "Norway" (mkdate 1700 2 18);
   mkswitch "PL" "Poland" (mkdate 1582 10 4);
   mkswitch "PT" "Portugal" (mkdate 1582 10 4);
   mkswitch "RO" "Romania" (mkdate 1919 3 31);
   mkswitch "RU" "Russia" (mkdate 1918 1 31);
   mkswitch "SI" "Slovenia" (mkdate 1919 3 4);
   mkswitch "SE" "Sweden" (mkdate 1753 2 17);
   mkswitch "TR" "Turkey" (mkdate 1926 12 18);
   mkswitch "US" "United States" (mkdate 1752 9 2);
   mkswitch "YU" "Yugoslavia" (mkdate 1919 3 4)].

(** The default, [switches + n - 2]. *)
Definition dftswitch : option djswitch := nth_error switches (length switches - 2).

Definition daystr : string :=
  "     1  2  3  4  5  6  7  8  9 10 11 12 13 14 15" +:+
  " 16 17 18 19 20 21 22 23 24 25 26 27 28 29 30 31" +:+
  " 32 33 34 35 36 37 38 39 40 41 42 43 44 45 46 47" +:+
  " 48 49 50 51 52 53".

Definition jdaystr : string :=
  "       1   2   3   4   5   6   7   8   9" +:+
  "  10  11  12  13  14  15  16  17  18  19" +:+
  "  20  21  22  23  24  25  26  27  28  29" +:+
  "  30  31  32  33  34  35  36  37  38  39" +:+
  "  40  41  42  43  44  45  46  47  48  49" +:+
  "  50  51  52  53  54  55  56  57  58  59" +:+
  "  60  61  62  63  64  65  66  67  68  69" +:+
  "  70  71  72  73  74  75  76  77  78  79" +:+
  "  80  81  82  83  84  85  86  87  88  89" +:+
  "  90  91  92  93  94  95  96  97  98  99" +:+
  " 100 101 102 103 104 105 106 107 108 109" +:+
  " 110 111 112 113 114 115 116 117 118 119" +:+
  " 120 121 122 123 124 125 126 127 128 129" +:+
  " 130 131 132 133 134 135 136 137 138 139" +:+
  " 140 141 142 143 144 145 146 147 148 149" +:+
  " 150 151 152 153 154 155 156 157 158 159" +:+
  " 160 161 162 163 164 165 166 167 168 169" +:+
  " 170 171 172 173 174 175 176 177 178 179" +:+
  " 180 181 182 183 184 185 186 187 188 189" +:+
  " 190 191 192 193 194 195 196 197 198 199" +:+
  " 200 201 202 203 204 205 206 207 208 209" +:+
  " 210 211 212 213 214 215 216 217 218 219" +:+
  " 220 221 222 223 224 225 226 227 228 229" +:+
  " 230 231 232 233 234 235 236 237 238 239" +:+
  " 240 241 242 243 244 245 246 247 248 249" +:+
  " 250 251 252 253 254 255 256 257 258 259" +:+
  " 260 261 262 263 264 265 266 267 268 269" +:+
  " 270 271 272 273 274 275 276 277 278 279" +:+
  " 280 281 282 283 284 285 286 287 288 289" +:+
  " 290 291 292 293 294 295 296 297 298 299" +:+
  " 300 301 302 303 304 305 306 307 308 309" +:+
  " 310 311 312 313 314 315 316 317 318 319" +:+
  " 320 321 322 323 324 325 326 327 328 329" +:+
  " 330 331 332 333 334 335 336 337 338 339" +:+
  " 340 341 342 343 344 345 346 347 348 349" +:+
  " 350 351 352 353 354 355 356 357 358 359" +:+
  " 360 361 362 363 364 365 366".

Definition MONTH_WIDTH_B_J : Z := 27.
Definition MONTH_WIDTH_B : Z := 20.
Definition MONTH_WIDTH_R_J : Z := 24.
Definition MONTH_WIDTH_R : Z := 18.
Definition MAX_WIDTH : Z := 64.

(** ** The local calendar *)

(** [sndaysr] and [sdater], the switch date being the global [nswitch] of ncal.c. *)
Definition sndaysr (nsw : Z) (dt : date) : Z :=
  if negb (nsw =? 0) then if nsw <? ndaysj dt then ndaysg dt else ndaysj dt else ndaysg dt.

Definition sndaysb (nswb : Z) (dt : date) : Z :=
  if nswb <? ndaysj dt then ndaysg dt else ndaysj dt.

Definition sdater (nsw nd : Z) : option date := if nsw <? nd then gdate nd else jdate nd.

Definition sdateb (nswb nd : Z) : option date := if nswb <? nd then gdate nd else jdate nd.

(** The loop of [firstday] from the day [nd] on. *)
Fixpoint firstday_from (fuel : nat) (nsw nd yy mm : Z) : option Z :=
  match fuel with
  | O => None
  | S fuel =>
      dt ← sdater nsw nd;
      if ((mm <=? date_m dt) && (date_y dt =? yy)) || (yy <? date_y dt) then Some nd
      else firstday_from fuel nsw (nd + 1) yy mm
  end.

(** The days left out at the switch bound the rounds. *)
Definition firstday (nsw yy mm : Z) : option Z :=
  let dt := mkdate yy mm 1 in
  firstday_from (S (Z.to_nat (ndaysj dt - ndaysg dt))) nsw (sndaysr nsw dt) yy mm.

(** ** A month *)

(** The globals of ncal.c and what the terminal and the locale provide. *)
Record ncal_conf := mkconf {
  flag_nohighlight : bool;
  flag_weeks : bool;
  g_nswitch : Z;
  g_nswitchb : Z;
  highlightdate : Z;
  tty : bool;
  term : option (string * string);
  month_name : Z -> string;
  day_name : Z -> string;
  wcswidth : string -> Z;
  strptime_mon : string -> option Z }.

(** [memcpy(.., ds + n * dw, dw)] *)
Definition cell (ds : string) (dw n : Z) : string :=
  stake (Z.to_nat dw) (sdrop (Z.to_nat (n * dw)) ds).

Definition blanks (n : Z) : string := string_of_list_ascii (replicate (Z.to_nat n) " "%char).

(** Underlining: a [_] and a backspace before each character. *)
Fixpoint underline (s : string) : string :=
  match s with
  | "" => ""
  | String c s => String "_" (String "008" (String c (underline s)))
  end.

(** What [highlight] stores for the text [src], and [*extralen]. *)
Definition highlight (cf : ncal_conf) (src : string) (extralen : Z) : string * Z :=
  if flag_nohighlight cf then (src, extralen)
  else match term cf with
  | Some (so, se) =>
      (" " +:+ so +:+ sdrop 1 src +:+ se, Z.of_nat (String.length so) + Z.of_nat (String.length se))
  | None => (" " +:+ underline (sdrop 1 src), 2 * (Z.of_nat (String.length src) - 1))
  end.

Record monthlines := mkmonth {
  ml_name : string;
  ml_lines : list string;
  ml_extralen : list Z;
  ml_weeks : string }.

(** One entry of a line: the text and the new value of [l]. *)
Definition put_day (cf : ncal_conf) (shine : bool) (sdate : Z -> option date)
    (ds : string) (dw : Z) (jan1 : option Z) (first j l : Z) : option (string * Z) :=
  if first <=? j then
    dd ← match jan1 with
         | Some jan1 => Some (j - jan1 + 1)
         | None => dt ← sdate j; Some (date_d dt)
         end;
    Some (if shine && (j =? highlightdate cf) && negb (flag_nohighlight cf)
          then highlight cf (cell ds dw dd) l else (cell ds dw dd, l))
  else Some (stake (Z.to_nat dw) "    ", l).

(** A line of [mkmonthr] from the day [j] on: every seventh day. *)
Fixpoint line_r (fuel : nat) (put : Z -> Z -> option (string * Z)) (j last l : Z) :
  option (string * Z) :=
  match fuel with
  | O => None
  | S fuel =>
      if j <? last then
        '(s, l) ← put j l;
        '(r, l) ← line_r fuel put (j + 7) last l;
        Some (s +:+ r, l)
      else Some ("", l)
  end.

(** The week numbers under a month. *)
Fixpoint weeks_r (fuel : nat) (nsw : Z) (ds : string) (dw j last : Z) : option string :=
  match fuel with
  | O => None
  | S fuel =>
      if j <? last then
        s ← (if j <=? nsw then Some (blanks dw)
             else '(w, _) ← week j; Some (cell ds dw w));
        r ← weeks_r fuel nsw ds dw (j + 7) last;
        Some (s +:+ r)
      else Some ""
  end.

Definition upper_first (s : string) : string :=
  match s with
  | String c s => String (if islower c then ascii_of_N (N_of_ascii c - 32) else c) s
  | "" => ""
  end.

(** [mkmonthr(y, m, jd_flag, mlines)]; the fuel of a line is one more than the weeks
    between the days. *)
Definition mkmonthr (cf : ncal_conf) (yy mm : Z) (jd_flag : bool) : option monthlines :=
  first ← firstday (g_nswitch cf) yy (mm + 1);
  last ← (if mm =? 11 then firstday (g_nswitch cf) (yy + 1) 1 else firstday (g_nswitch cf) yy (mm + 2));
  jan1 ← (if jd_flag then j ← firstday (g_nswitch cf) yy 1; Some (Some j) else Some None);
  let firstm := first - weekday first in
  let ds := if jd_flag then jdaystr else daystr in
  let dw := if jd_flag then 4 else 3 in
  let fuel := S (Z.to_nat (last - firstm)) in
  let put := put_day cf (tty cf) (sdater (g_nswitch cf)) ds dw jan1 first in
  ls ← mapM (fun i => line_r fuel put (firstm + i) last 0) [0; 1; 2; 3; 4; 5; 6];
  wk ← (if flag_weeks cf then weeks_r fuel (g_nswitch cf) ds dw firstm last else Some "");
  Some (mkmonth (upper_first (month_name cf mm)) (map fst ls) (map snd ls) wk).

(** A line of [mkmonthb]: [n] more days. *)
Fixpoint line_b (n : nat) (put : Z -> Z -> option (string * Z)) (j last l : Z) :
  option (string * Z) :=
  match n with
  | O => Some ("", l)
  | S n =>
      if j <? last then
        '(s, l) ← put j l;
        '(r, l) ← line_b n put (j + 1) last l;
        Some (s +:+ r, l)
      else Some ("", l)
  end.

(** A line without days keeps its first character and ends after it: the caller prints
    from the second character on.  The character is what the buffer held; a blank
    stands for it. *)
Definition mkmonthb (cf : ncal_conf) (yy mm : Z) (jd_flag : bool) : option monthlines :=
  let ds := if jd_flag then jdaystr else daystr in
  let dw := if jd_flag then 4 else 3 in
  let first := sndaysb (g_nswitchb cf) (mkdate yy (mm + 1) 1) in
  let last := sndaysb (g_nswitchb cf)
    (if mm =? 11 then mkdate (yy + 1) 1 1 else mkdate yy (mm + 2) 1) in
  let jan1 := if jd_flag then Some (sndaysb (g_nswitchb cf) (mkdate yy 1 1)) else None in
  let firsts := first - Z.rem (weekday first + 1) 7 in
  let put := put_day cf true (sdateb (g_nswitchb cf)) ds dw jan1 first in
  ls ← mapM (fun i =>
          '(s, l) ← line_b 7 put (firsts + 7 * i) last 0;
          Some (if last <=? firsts + 7 * i then " " else s, l)) [0; 1; 2; 3; 4; 5];
  Some (mkmonth (upper_first (month_name cf mm)) (map fst ls) (map snd ls) "").

(** ** Pages *)

(** ["%-*s"] *)
Definition pad (w : Z) (s : string) : string := s +:+ blanks (w - len s).

(** [center] and [wcenter]; with less room than text the precision of ["%.*s"] is negative
    and the blanks are printed whole. *)
Definition center (t : string) (w : Z) : string :=
  let n := Z.quot (w - len t) 2 in
  blanks (if n <? 0 then MAX_WIDTH else Z.min n MAX_WIDTH) +:+ t.

(** [for (len = 2; len > 0; --len) if ((width = wcswidth(buf, len)) <= 2) break;] *)
Fixpoint fit_name (cf : ncal_conf) (n : nat) (buf : string) (width : Z) : nat * Z :=
  match n with
  | O => (O, width)
  | S k => let width := wcswidth cf (stake n buf) in
           if width <=? 2 then (n, width) else fit_name cf k buf width
  end.

(** [mkweekdays]: Monday first. *)
Definition mkweekdays (cf : ncal_conf) : list string :=
  map (fun i =>
    let buf := day_name cf (Z.rem (i + 1) 7) in
    let '(n, width) := fit_name cf 2 buf 0 in
    (if width =? 1 then " " else "") +:+ stake n buf +:+ " ") [0; 1; 2; 3; 4; 5; 6].

Definition DECREASEMONTH (my : Z * Z) : Z * Z :=
  let '(mm, yy) := my in if mm - 1 =? 0 then (12, yy - 1) else (mm - 1, yy).

Definition M2Y (k : Z) : Z := Z.quot k 12.
Definition M2M (k : Z) : Z := 1 + Z.rem k 12.

(** The months [m .. m + mpl - 1] up to [m2]. *)
Fixpoint group (n : nat) (k m2 : Z) : list Z :=
  match n with
  | O => []
  | S n => if k <=? m2 then k :: group n (k + 1) m2 else []
  end.

Definition concat_s (l : list string) : string := foldr String.append "" l.

(** The line [i] of every month of a group. *)
Definition row (f : string -> Z -> string) (year : list monthlines) (i : nat) : string :=
  concat_s (map (fun ml => f (nth i (ml_lines ml) "") (nth i (ml_extralen ml) 0)) year).

(** The first month shown, the months after it included in [after]. *)
Definition month_range (yy mm before after : Z) : Z * Z :=
  let '(mm, yy) := Nat.iter (Z.to_nat before) DECREASEMONTH (mm, yy) in
  let m1 := yy * 12 + mm - 1 in
  (m1, m1 + (after + before)).

Definition printyearheader (mpl m1 m2 : Z) : bool :=
  (mpl - 1 <=? m2 - m1) && (Z.rem (M2M m1 - 1) mpl =? 0).

(** One round of the loops of [monthranger] and [monthrangeb]. *)
Definition page_top (mpl mw m1 k : Z) (header : bool) (prevyear : Z) : list string * Z :=
  let show := header && negb (M2Y k =? prevyear) in
  ((if k =? m1 then [] else [""]) ++ (if show then [center (pretty (M2Y k)) (mpl * mw)] else []),
   if show then M2Y k else prevyear)%list.

Fixpoint monthranger_from (fuel : nat) (cf : ncal_conf) (jd_flag : bool) (m1 m2 k prevyear : Z) :
  option (list string) :=
  match fuel with
  | O => None
  | S fuel =>
      if m2 <? k then Some []
      else
        let mpl := if jd_flag then 3 else 4 in
        let mw := if jd_flag then MONTH_WIDTH_R_J else MONTH_WIDTH_R in
        let header := printyearheader mpl m1 m2 in
        let ks := group (Z.to_nat mpl) k m2 in
        year ← mapM (fun k => mkmonthr cf (M2Y k) (M2M k - 1) jd_flag) ks;
        let '(top, prevyear) := page_top mpl mw m1 k header prevyear in
        let names :=
          "    " +:+ concat_s (zip_with (fun ml k =>
            if header then pad mw (ml_name ml)
            else ml_name ml +:+ " " +:+ pad (Z.abs (mw - len (ml_name ml) - 1)) (pretty (M2Y k))) year ks) in
        let days := imap (fun i wd =>
            stake 2 wd +:+ row (fun l extra => pad (mw + extra) l) year i) (mkweekdays cf) in
        let weeks :=
          if flag_weeks cf then ["  " +:+ concat_s (map (fun ml => pad mw (ml_weeks ml)) year)] else [] in
        rest ← monthranger_from fuel cf jd_flag m1 m2 (k + mpl) prevyear;
        Some (top ++ names :: days ++ weeks ++ rest)%list
  end.

Definition monthranger (cf : ncal_conf) (yy mm : Z) (jd_flag : bool) (before after : Z) :
  option (list string) :=
  let '(m1, m2) := month_range yy mm before after in
  monthranger_from (S (Z.to_nat (m2 - m1 + 1))) cf jd_flag m1 m2 m1 (-1).

Fixpoint monthrangeb_from (fuel : nat) (cf : ncal_conf) (jd_flag : bool) (m1 m2 k prevyear : Z) :
  option (list string) :=
  match fuel with
  | O => None
  | S fuel =>
      if m2 <? k then Some []
      else
        let mpl := if jd_flag then 2 else 3 in
        let mw := if jd_flag then MONTH_WIDTH_B_J else MONTH_WIDTH_B in
        let wdss := if mpl =? 2 then " " else "" in
        let header := printyearheader mpl m1 m2 in
        let ks := group (Z.to_nat mpl) k m2 in
        year ← mapM (fun k => mkmonthb cf (M2Y k) (M2M k - 1) jd_flag) ks;
        let '(top, prevyear) := page_top mpl mw m1 k header prevyear in
        let names :=
          concat_s (zip_with (fun ml k =>
            pad mw (center (if header then ml_name ml
                            else ml_name ml +:+ " " +:+ pretty (M2Y k)) mw) +:+ "  ") year ks) in
        let wds := mkweekdays cf in
        let wdline :=
          concat_s (map (fun _ =>
            concat_s (map (fun i => wdss +:+ nth i wds "") [6; 0; 1; 2; 3; 4; 5]%nat) +:+ " ") ks) in
        let days := map (fun i =>
            row (fun l extra => pad (mw + extra) (sdrop 1 l) +:+ "  ") year i) [0; 1; 2; 3; 4; 5]%nat in
        rest ← monthrangeb_from fuel cf jd_flag m1 m2 (k + mpl) prevyear;
        Some (top ++ names :: wdline :: days ++ rest)%list
  end.

Definition monthrangeb (cf : ncal_conf) (yy mm : Z) (jd_flag : bool) (before after : Z) :
  option (list string) :=
  let '(m1, m2) := month_range yy mm before after in
  monthrangeb_from (S (Z.to_nat (m2 - m1 + 1))) cf jd_flag m1 m2 m1 (-1).

(** ** Easter and the arguments *)

(** The date [printeaster] formats. *)
Definition printeaster (yy : Z) (julian orthodox : bool) : option date :=
  let orthodox := if yy <? 1583 then true else orthodox in
  if orthodox then if julian then easteroj yy else easterog yy else Some (easterg yy).

(** [parsemonth(s, &m, &y)]: [None] is the return of 1; [strptime] gives the month by name. *)
Definition parsemonth (cf : ncal_conf) (s : string) (mm yy : Z) : option (Z * Z) :=
  let r := strtol10 s in
  let nm := s32 (sr_val r) in
  let cp := sr_end r in
  if negb (String.length cp =? String.length s)%nat then
    ny ← (match cp with
          | "" => Some yy
          | String c _ =>
              if bool_decide (c = "f"%char) || bool_decide (c = "F"%char)
              then Some (if nm <=? mm then yy + 1 else yy)
              else if bool_decide (c = "p"%char) || bool_decide (c = "P"%char)
              then Some (if mm <=? nm then yy - 1 else yy)
              else None
          end);
    if (nm <? 1) || (12 <? nm) then None else Some (nm, ny)
  else match strptime_mon cf s with Some tm_mon => Some (tm_mon + 1, yy) | None => None end.

(** The flags [main] collects; [flag_before] and [flag_after] are 0 when not given. *)
Record opts := mkopts {
  flag_3months : bool;
  flag_after : Z;
  flag_before : Z;
  flag_wholeyear : bool;
  flag_givenyear : bool;
  flag_givenmonth : bool;
  flag_specifiedmonth : bool }.

(** The combinations [main] refuses with [errx]. *)
Definition unsupported (o : opts) : bool :=
  (flag_3months o && (negb (flag_after o =? 0) || negb (flag_before o =? 0)))
  || (flag_3months o && flag_wholeyear o)
  || (flag_3months o && flag_givenyear o && negb (flag_givenmonth o || flag_specifiedmonth o))
  || (flag_specifiedmonth o && flag_givenmonth o)
  || (flag_wholeyear o && flag_specifiedmonth o)
  || (flag_wholeyear o && flag_givenmonth o)
  || (flag_wholeyear o && ((0 <? flag_before o) || (0 <? flag_after o))).

(** The period to display: the first month, and the months before and after it. *)
Definition period (o : opts) (mm : Z) : Z * Z * Z :=
  let '(mm, before, after) := (mm, -1, -1) in
  let '(mm, before, after) :=
    if flag_wholeyear o || (flag_givenyear o && negb (flag_givenmonth o || flag_specifiedmonth o))
    then (1, 0, 11) else (mm, before, after) in
  let '(before, after) :=
    if flag_givenyear o && flag_givenmonth o then (0, 0) else (before, after) in
  let '(before, after) := if flag_specifiedmonth o then (0, 0) else (before, after) in
  let before := if flag_before o =? 0 then before else flag_before o in
  let after := if flag_after o =? 0 then after else flag_after o in
  let '(before, after) := if flag_3months o then (1, 1) else (before, after) in
  let after := if after =? -1 then 0 else after in
  let before := if before =? -1 then 0 else before in
  (mm, before, after).
