(* ===== verification/NcalFacts.v ===== *)
(** * ncal: the local calendar and the months shown

    Day numbers and dates across the switch of a country, the first day of a month,
    and the place of every day in the lines of a month. *)

From Stdlib Require Import ZArith Lia List Bool String Ascii.
From stdpp Require Import base tactics list numbers strings pretty.
From S2P Require Import Prelude CLib Calendar CalendarFacts CalendarSpec Ncal.

Local Open Scope string_scope.
Local Open Scope bool_scope.
Local Open Scope Z_scope.

(** ** Dates in order *)

Definition key (dt : date) : Z := 372 * date_y dt + 31 * date_m dt + date_d dt.

Lemma month_days_bounds c yy mm : 28 <= month_days c yy mm <= 31.
Proof. unfold month_days. repeat case_match; lia. Qed.

Lemma valid_bounds c dt : valid c dt -> 0 <= date_y dt /\ 1 <= date_m dt <= 12 /\ 1 <= date_d dt <= 31.
Proof.
  intros (Hm & Hd & Hy & _). pose proof (month_days_bounds c (date_y dt) (date_m dt)). lia.
Qed.

Lemma key_tomorrow c dt : valid c dt -> key dt < key (tomorrow c dt).
Proof.
  intros Hv. pose proof (valid_bounds c dt Hv) as (Hy & Hm & Hd). unfold tomorrow, key.
  case_decide as E; [destruct E as [_ ->]; simpl; lia|].
  destruct (Z.ltb_spec (date_d dt) (month_days c (date_y dt) (date_m dt))); simpl; [lia|].
  destruct (Z.eqb_spec (date_m dt) 12); simpl; lia.
Qed.

(** [to_date] on the days from 0 on, as a relation. *)
Lemma to_date_total c nd :
  0 <= nd -> exists dt, to_date c nd = Some dt /\ valid c dt /\ of_date c dt = nd.
Proof.
  intros H. destruct (proj2 (date_refines c) nd H) as (dt & ? & ? & ? & _). eauto.
Qed.

Lemma to_date_of_date c dt : valid c dt -> to_date c (of_date c dt) = Some dt.
Proof.
  intros Hv. destruct (valid_ivalid c dt Hv) as (i & Hd & Hi & <-).
  rewrite (of_date_idays c _ i Hd). by apply to_date_idays.
Qed.

Lemma key_mono c n k a b :
  0 <= n -> to_date c n = Some a -> to_date c (n + Z.of_nat (S k)) = Some b -> key a < key b.
Proof.
  intros Hn Ha. revert b. induction k as [|k IH]; intros b Hb.
  - destruct (proj2 (date_refines c) n Hn) as (dt & E & Hv & _ & E'). change (Z.of_nat 1) with 1 in Hb.
    rewrite Ha in E. injection E as ->. rewrite Hb in E'. injection E' as ->. by apply key_tomorrow.
  - destruct (proj2 (date_refines c) (n + Z.of_nat (S k)) ltac:(lia)) as (dt & E & Hv & _ & E').
    replace (n + Z.of_nat (S (S k))) with (n + Z.of_nat (S k) + 1) in Hb by lia.
    rewrite Hb in E'. injection E' as ->. pose proof (IH dt E). pose proof (key_tomorrow c dt Hv). lia.
Qed.

Lemma key_lt c n n' a b :
  0 <= n < n' -> to_date c n = Some a -> to_date c n' = Some b -> key a < key b.
Proof.
  intros H Ha Hb. apply (key_mono c n (Z.to_nat (n' - n - 1)) a b); [lia|done|].
  by replace (n + Z.of_nat (S (Z.to_nat (n' - n - 1)))) with n' by lia.
Qed.

(** A date of the Gregorian calendar is one of the Julian calendar, on a later or the same day. *)
Lemma gregorian_julian dt : valid Gregorian dt -> valid Julian dt /\ ndaysg dt <= ndaysj dt.
Proof.
  intros Hv. split.
  - destruct Hv as (Hm & Hd & Hy & _). split; [done|]. split; [|done].
    unfold month_days, leap in *. destruct (date_m dt =? 2); [|done].
    destruct (date_y dt <=? 1582); [done|]. destruct (date_y dt mod 4 =? 0); cbn [andb] in Hd; [|done].
    destruct (_ || _); lia.
  - destruct (valid_ivalid _ dt Hv) as (i & Hd & (Hy & _) & _). unfold ndaysg, ndaysj. rewrite Hd.
    unfold ndaysgi. destruct (Z.eqb_spec (ndaysji i) (-1)); [lia|].
    destruct (Z.leb_spec 1600 (date_y i)); [|destruct (nswitch <? ndaysji i); lia].
    rewrite !Z.quot_div_nonneg by lia. lia.
Qed.

(** ** The switch *)

(** [sndaysr] inverts [sdater], and [sndaysb] inverts [sdateb]: whatever day the country
    changes calendars, every day from March 1st of year zero on has a date, and the
    day number of that date is the day. *)
Theorem sndays_inverts_sdate nsw nd :
  0 <= nd ->
  (exists dt, sdater nsw nd = Some dt /\ sndaysr nsw dt = nd) /\
  (exists dt, sdateb nsw nd = Some dt /\ sndaysb nsw dt = nd).
Proof.
  intros Hnd. unfold sdater, sdateb, sndaysr, sndaysb. destruct (Z.ltb_spec nsw nd) as [H|H].
  - destruct (to_date_total Gregorian nd Hnd) as (dt & E & Hv & Ed). cbn [to_date of_date] in E, Ed.
    destruct (gregorian_julian dt Hv) as [_ Hle].
    split; exists dt; (split; [done|]); (destruct (Z.ltb_spec nsw (ndaysj dt)); [|lia]);
      [by destruct (nsw =? 0)|done].
  - destruct (to_date_total Julian nd Hnd) as (dt & E & Hv & Ed). cbn [to_date of_date] in E, Ed.
    split; exists dt; (split; [done|]); (destruct (Z.ltb_spec nsw (ndaysj dt)); [lia|]); [|done].
    destruct (Z.eqb_spec nsw 0) as [->|]; [|done]. assert (nd = 0) as -> by lia.
    vm_compute in E. injection E as <-. done.
Qed.

Lemma sndays_inverts_sdate_witness :
  0 <= 640115 /\
  (exists dt, sdater 640115 640115 = Some dt /\ sndaysr 640115 dt = 640115) /\
  (exists dt, sdateb 640115 640115 = Some dt /\ sndaysb 640115 dt = 640115).
Proof. split; [lia|]. apply sndays_inverts_sdate. lia. Defined.

(** ** The first day of a month *)

(** A date in the month [mm] of [yy] or later. *)
Definition reached (yy mm : Z) (dt : date) : Prop := yy < date_y dt \/ (date_y dt = yy /\ mm <= date_m dt).

#[export] Instance reached_dec yy mm dt : Decision (reached yy mm dt).
Proof. unfold reached. apply _. Defined.

Lemma reached_spec yy mm dt :
  ((mm <=? date_m dt) && (date_y dt =? yy)) || (yy <? date_y dt) = bool_decide (reached yy mm dt).
Proof.
  unfold reached.
  destruct (Z.leb_spec mm (date_m dt)), (Z.eqb_spec (date_y dt) yy), (Z.ltb_spec yy (date_y dt)); symmetry;
    (apply bool_decide_eq_true_2 || apply bool_decide_eq_false_2); lia.
Qed.

Lemma reached_key c yy mm dt :
  valid c dt -> 1 <= mm <= 12 -> reached yy mm dt <-> key (mkdate yy mm 1) <= key dt.
Proof.
  intros Hv%valid_bounds Hm. unfold reached, key. cbn [date_y date_m date_d]. lia.
Qed.

Lemma firstday_from_spec nsw yy mm n fuel nd :
  (forall k, nd <= k < nd + Z.of_nat n -> exists dt, sdater nsw k = Some dt /\ ~ reached yy mm dt) ->
  (exists dt, sdater nsw (nd + Z.of_nat n) = Some dt /\ reached yy mm dt) -> (n < fuel)%nat ->
  firstday_from fuel nsw nd yy mm = Some (nd + Z.of_nat n).
Proof.
  revert fuel nd. induction n as [|n IH]; intros [|fuel] nd H (dt & Ed & Hr) Hf; try lia;
    cbn [firstday_from].
  - rewrite Z.add_0_r in Ed |- *. rewrite Ed. cbn [mbind option_bind].
    by rewrite reached_spec, bool_decide_eq_true_2.
  - destruct (H nd) as (d0 & E0 & H0); [lia|]. rewrite E0. cbn [mbind option_bind].
    rewrite reached_spec, bool_decide_eq_false_2 by done.
    replace (nd + Z.of_nat (S n)) with (nd + 1 + Z.of_nat n) in * by lia.
    apply IH; [|by eauto|lia]. intros k Hk. apply H. lia.
Qed.

Section FirstDay.
Context (nsw yy mm : Z) (Hy : 1 <= yy) (Hm : 1 <= mm <= 12).
Let D := mkdate yy mm 1.

Lemma first_valid c : valid c D.
Proof.
  pose proof (month_days_bounds c yy mm). unfold valid, D. cbn [date_y date_m date_d].
  split_and!; try lia. unfold dropped. destruct c; [done|]. cbn [date_y date_m date_d].
  change (4 <? 1) with false. by rewrite andb_false_r.
Qed.

Lemma first_positive c : 0 < of_date c D.
Proof.
  pose proof (of_date_nonneg c D (first_valid c)).
  destruct (decide (of_date c D = 0)) as [E|]; [|lia].
  pose proof (to_date_of_date c D (first_valid c)) as T. rewrite E in T.
  rewrite (proj1 (date_refines c)) in T. unfold D in T. injection T as T1 T2. lia.
Qed.

Lemma julian_before k :
  0 <= k < ndaysj D -> exists dt, jdate k = Some dt /\ ~ reached yy mm dt.
Proof.
  intros Hk. destruct (to_date_total Julian k ltac:(lia)) as (dt & E & Hv & _). exists dt.
  split; [done|]. rewrite (reached_key Julian) by done. fold D.
  pose proof (key_lt Julian k (ndaysj D) dt D ltac:(lia) E (to_date_of_date Julian D (first_valid Julian))).
  lia.
Qed.

Lemma gregorian_before k :
  0 <= k < ndaysg D -> exists dt, gdate k = Some dt /\ ~ reached yy mm dt.
Proof.
  intros Hk. destruct (to_date_total Gregorian k ltac:(lia)) as (dt & E & Hv & _). exists dt.
  split; [done|]. rewrite (reached_key Gregorian) by done. fold D.
  pose proof (key_lt Gregorian k (ndaysg D) dt D ltac:(lia) E (to_date_of_date Gregorian D (first_valid Gregorian))).
  lia.
Qed.

Lemma gregorian_after k :
  ndaysg D <= k -> exists dt, gdate k = Some dt /\ reached yy mm dt.
Proof.
  intros Hk. pose proof (first_positive Gregorian) as Hp. cbn [of_date] in Hp.
  destruct (to_date_total Gregorian k ltac:(lia)) as (dt & E & Hv & _). exists dt.
  split; [done|]. rewrite (reached_key Gregorian) by done. fold D.
  pose proof (to_date_of_date Gregorian D (first_valid Gregorian)) as T. cbn [to_date of_date] in T, E.
  destruct (decide (ndaysg D = k)) as [Ek|].
  - rewrite Ek, E in T. injection T as ->. lia.
  - pose proof (key_lt Gregorian (ndaysg D) k D dt ltac:(lia) T E). lia.
Qed.

Lemma firstday_is :
  exists nd, firstday nsw yy mm = Some nd /\ 0 < nd /\
    (exists dt, sdater nsw nd = Some dt /\ reached yy mm dt) /\
    forall k, 0 <= k < nd -> exists dt, sdater nsw k = Some dt /\ ~ reached yy mm dt.
Proof.
  pose proof (first_positive Julian) as PJ. pose proof (first_positive Gregorian) as PG.
  pose proof (gregorian_julian D (first_valid Gregorian)) as [_ Hle]. cbn [of_date] in *.
  assert (sndaysr nsw D = if nsw <? ndaysj D then ndaysg D else ndaysj D) as Es.
  { unfold sndaysr. destruct (Z.eqb_spec nsw 0) as [->|]; [|done].
    by destruct (Z.ltb_spec 0 (ndaysj D)); [|lia]. }
  (* the result, [n] days after the start of the search *)
  assert (forall n nd, nd = sndaysr nsw D + Z.of_nat n -> (n <= Z.to_nat (ndaysj D - ndaysg D))%nat ->
    0 < sndaysr nsw D ->
    (exists dt, sdater nsw nd = Some dt /\ reached yy mm dt) ->
    (forall k, 0 <= k < nd -> exists dt, sdater nsw k = Some dt /\ ~ reached yy mm dt) ->
    exists nd, firstday nsw yy mm = Some nd /\ 0 < nd /\
      (exists dt, sdater nsw nd = Some dt /\ reached yy mm dt) /\
      forall k, 0 <= k < nd -> exists dt, sdater nsw k = Some dt /\ ~ reached yy mm dt) as G.
  { intros n nd -> Hn Hp Hr Hb. eexists. split; [|split; [|split; [exact Hr|exact Hb]]]; [|lia].
    unfold firstday. apply firstday_from_spec; [|done|fold D; lia].
    intros k Hk. apply Hb. fold D in Hk. lia. }
  destruct (Z.ltb_spec nsw (ndaysj D)) as [H|H].
  - assert (forall k, 0 <= k -> k <= nsw -> exists dt, sdater nsw k = Some dt /\ ~ reached yy mm dt) as B.
    { intros k Hk Hk'. unfold sdater. destruct (Z.ltb_spec nsw k); [lia|]. apply julian_before. lia. }
    destruct (Z.ltb_spec nsw (ndaysg D)) as [H'|H'].
    + apply (G 0%nat (ndaysg D)); [lia|lia|lia| |].
      * unfold sdater. destruct (Z.ltb_spec nsw (ndaysg D)); [|lia]. apply gregorian_after. lia.
      * intros k Hk. destruct (Z.ltb_spec nsw k) as [H0|H0]; [|apply B; lia].
        unfold sdater. destruct (Z.ltb_spec nsw k); [|lia]. by apply gregorian_before.
    + apply (G (Z.to_nat (nsw + 1 - ndaysg D)) (nsw + 1)); [lia|lia|lia| |].
      * unfold sdater. destruct (Z.ltb_spec nsw (nsw + 1)); [|lia]. apply gregorian_after. lia.
      * intros k Hk. apply B; lia.
  - apply (G 0%nat (ndaysj D)); [lia|lia|lia| |].
    + unfold sdater. destruct (Z.ltb_spec nsw (ndaysj D)); [lia|].
      exists D. split; [apply (to_date_of_date Julian D (first_valid Julian))|].
      rewrite (reached_key Julian) by (done || apply first_valid). done.
    + intros k Hk. unfold sdater. destruct (Z.ltb_spec nsw k); [lia|]. by apply julian_before.
Qed.
End FirstDay.

(** [firstday] finds the first existing day of a month, for every day of the switch: the
    loop ends, the date of the result is in the month or later, and no earlier day is;
    so a month that lost its first days begins with its first existing date. *)
Theorem firstday_spec nsw yy mm :
  1 <= yy -> 1 <= mm <= 12 ->
  exists nd, firstday nsw yy mm = Some nd /\
    (exists dt, sdater nsw nd = Some dt /\ reached yy mm dt) /\
    forall k, 0 <= k < nd -> exists dt, sdater nsw k = Some dt /\ ~ reached yy mm dt.
Proof.
  intros Hy Hm. destruct (firstday_is nsw yy mm Hy Hm) as (nd & E & _ & H). eauto.
Qed.

Lemma firstday_spec_witness :
  exists nd, firstday (ndaysj (mkdate 1916 3 18)) 1916 4 = Some nd /\
    (exists dt, sdater (ndaysj (mkdate 1916 3 18)) nd = Some dt /\ reached 1916 4 dt) /\
    forall k, 0 <= k < nd -> exists dt, sdater (ndaysj (mkdate 1916 3 18)) k = Some dt /\ ~ reached 1916 4 dt.
Proof. apply firstday_spec; lia. Defined.

(** ** Lines of cells *)

Lemma mapM_total {A B} (f : A -> option B) (P : A -> B -> Prop) l :
  (forall x, In x l -> exists y, f x = Some y /\ P x y) ->
  exists ys, mapM f l = Some ys /\ Forall2 P l ys.
Proof.
  induction l as [|x l IH]; intros H; [by exists []|].
  destruct (H x) as (y & E & Py); [by left|]. destruct IH as (ys & Es & Ps).
  { intros z Hz. apply H. by right. }
  exists (y :: ys). simpl. rewrite E. simpl. rewrite Es. split; [done|]. by constructor.
Qed.

Lemma Forall2_nth_error {A B} (P : A -> B -> Prop) l k i x :
  Forall2 P l k -> nth_error l i = Some x -> exists y, nth_error k i = Some y /\ P x y.
Proof.
  intros HP. revert i. induction HP as [|a b l k Pab HP IH]; intros [|i]; simpl; try done.
  - intros [= ->]. eauto.
  - apply IH.
Qed.

Lemma stake_app_exact a b : stake (String.length a) (a +:+ b) = a.
Proof. induction a as [|c a IH]; simpl; [by destruct b|]. by rewrite IH. Qed.

Lemma cell_0 a b dw : Z.of_nat (String.length a) = dw -> cell (a +:+ b) dw 0 = a.
Proof.
  intros <-. unfold cell. rewrite Z.mul_0_l, Nat2Z.id. change (sdrop (Z.to_nat 0) (a +:+ b)) with (a +:+ b).
  apply stake_app_exact.
Qed.

Lemma cell_S a b dw k :
  Z.of_nat (String.length a) = dw -> 0 <= k -> cell (a +:+ b) dw (k + 1) = cell b dw k.
Proof.
  intros <- Hk. unfold cell. f_equal.
  replace (Z.to_nat ((k + 1) * Z.of_nat (String.length a)))
    with (String.length a + Z.to_nat (k * Z.of_nat (String.length a)))%nat by lia.
  by rewrite <- sdrop_sdrop, sdrop_app.
Qed.

Section Lines.
Context (put : Z -> Z -> option (string * Z)) (dw last : Z).

(** Every entry of a line is [dw] wide and leaves [l] at zero. *)
Definition narrow (j : Z) : Prop := exists s, put j 0 = Some (s, 0) /\ Z.of_nat (String.length s) = dw.

Lemma line_r_cells fuel j :
  (forall j', j <= j' < last -> narrow j') -> last - j < Z.of_nat fuel -> (0 < fuel)%nat ->
  exists s, line_r fuel put j last 0 = Some (s, 0) /\
    Z.of_nat (String.length s) = dw * Z.max 0 ((last - j + 6) / 7) /\
    forall k, 0 <= k -> j + 7 * k < last -> put (j + 7 * k) 0 = Some (cell s dw k, 0).
Proof.
  revert j. induction fuel as [|fuel IH]; intros j Hn Hf Hp; [lia|]; cbn [line_r];
    destruct (Z.ltb_spec j last) as [Hj|Hj].
  - destruct (Hn j ltac:(lia)) as (s & Es & Ls).
    destruct (IH (j + 7)) as (r & Er & Lr & Hr); [intros; apply Hn; lia|lia|lia|].
    rewrite Es. cbn [mbind option_bind]. rewrite Er. cbn [mbind option_bind].
    exists (s +:+ r). split; [done|]. split.
    { rewrite length_append, Nat2Z.inj_add, Ls, Lr.
      replace (last - j + 6) with (last - (j + 7) + 6 + 1 * 7) by lia. rewrite Z.div_add by lia.
      assert (0 <= (last - (j + 7) + 6) / 7 + 1) by lia. 
      destruct (Z.max_spec 0 ((last - (j + 7) + 6) / 7)) as [[? ->]|[? ->]],
        (Z.max_spec 0 ((last - (j + 7) + 6) / 7 + 1)) as [[? ->]|[? ->]]; nia. }
    intros k Hk Hl.
    destruct (decide (k = 0)) as [->|].
    + replace (j + 7 * 0) with j by lia. by rewrite cell_0.
    + replace k with (k - 1 + 1) by lia. rewrite cell_S by lia.
      rewrite <- Hr by lia. f_equal. lia.
  - exists "". split; [done|]. split; [|lia]. rewrite Z.max_l by lia. simpl. lia.
Qed.
End Lines.

(** ** The day strings *)

Definition ralign (w : Z) (s : string) : string := blanks (w - Z.of_nat (String.length s)) +:+ s.

Lemma daystr_checked :
  forallb (fun n => String.eqb (cell daystr 3 n) (ralign 3 (pretty n))) (years 1 53) = true.
Proof. by vm_compute. Qed.

Lemma jdaystr_checked :
  forallb (fun n => String.eqb (cell jdaystr 4 n) (ralign 4 (pretty n))) (years 1 366) = true.
Proof. by vm_compute. Qed.

Lemma daystr_cell n : 1 <= n <= 53 -> cell daystr 3 n = ralign 3 (pretty n).
Proof.
  intros H. pose proof daystr_checked as C. rewrite forallb_forall in C.
  apply String.eqb_eq, C, years_in. lia.
Qed.

Lemma jdaystr_cell n : 1 <= n <= 366 -> cell jdaystr 4 n = ralign 4 (pretty n).
Proof.
  intros H. pose proof jdaystr_checked as C. rewrite forallb_forall in C.
  apply String.eqb_eq, C, years_in. lia.
Qed.

(** ** The months of [ncal] *)

Lemma sdater_valid nsw nd :
  0 <= nd -> exists dt, sdater nsw nd = Some dt /\ valid Julian dt /\ nd <= ndaysj dt.
Proof.
  intros Hnd. unfold sdater. destruct (Z.ltb_spec nsw nd).
  - destruct (to_date_total Gregorian nd Hnd) as (dt & E & Hv & Ed). cbn [to_date of_date] in E, Ed.
    destruct (gregorian_julian dt Hv). exists dt. split_and!; [done|done|lia].
  - destruct (to_date_total Julian nd Hnd) as (dt & E & Hv & Ed). cbn [to_date of_date] in E, Ed.
    exists dt. split_and!; [done|done|lia].
Qed.

Lemma ndaysj_key a b : valid Julian a -> valid Julian b -> key a < key b -> ndaysj a < ndaysj b.
Proof.
  intros Ha Hb Hk. pose proof (of_date_nonneg Julian a Ha) as Na. pose proof (of_date_nonneg Julian b Hb) as Nb.
  pose proof (to_date_of_date Julian a Ha) as Ea. pose proof (to_date_of_date Julian b Hb) as Eb.
  cbn [of_date] in *. destruct (Z.lt_trichotomy (ndaysj a) (ndaysj b)) as [|[E|H]]; [done| |].
  - rewrite E, Eb in Ea. injection Ea as ->. lia.
  - pose proof (key_lt Julian _ _ b a (conj Nb H) Eb Ea). lia.
Qed.

(** Dates follow each other across the switch. *)
Lemma sdater_step nsw nd a b :
  0 <= nd -> sdater nsw nd = Some a -> sdater nsw (nd + 1) = Some b -> key a < key b.
Proof.
  unfold sdater. intros Hnd.
  destruct (Z.ltb_spec nsw nd), (Z.ltb_spec nsw (nd + 1)); try lia; intros Ea Eb.
  - apply (key_lt Gregorian nd (nd + 1)); [lia|done|done].
  - (* the day of the switch *)
    destruct (to_date_total Gregorian (nd + 1) ltac:(lia)) as (b' & Eb' & Hb & Db).
    cbn [to_date of_date] in Eb', Db. rewrite Eb in Eb'. injection Eb' as <-.
    destruct (gregorian_julian b Hb) as [Hbj Hle].
    apply (key_lt Julian nd (ndaysj b)); [lia|done|]. by apply (to_date_of_date Julian).
  - apply (key_lt Julian nd (nd + 1)); [lia|done|done].
Qed.

Lemma sdater_gap nsw nd n a b :
  0 <= nd -> sdater nsw nd = Some a -> sdater nsw (nd + Z.of_nat n) = Some b ->
  ndaysj a + Z.of_nat n <= ndaysj b.
Proof.
  intros Hnd Ea. revert b. induction n as [|n IH]; intros b Eb.
  - rewrite Z.add_0_r in Eb. rewrite Ea in Eb. injection Eb as ->. lia.
  - destruct (sdater_valid nsw (nd + Z.of_nat n) ltac:(lia)) as (c & Ec & Hc & _).
    destruct (sdater_valid nsw (nd + Z.of_nat (S n)) ltac:(lia)) as (b' & Eb' & Hb & _).
    rewrite Eb in Eb'. injection Eb' as <-.
    replace (nd + Z.of_nat (S n)) with (nd + Z.of_nat n + 1) in Eb by lia.
    pose proof (sdater_step nsw (nd + Z.of_nat n) c b ltac:(lia) Ec Eb) as Hk.
    pose proof (ndaysj_key c b Hc Hb Hk). pose proof (IH c Ec). lia.
Qed.

Lemma sdater_mono nsw nd n a b :
  0 <= nd -> sdater nsw nd = Some a -> sdater nsw (nd + Z.of_nat n) = Some b -> key a <= key b.
Proof.
  intros Hnd Ea. revert b. induction n as [|n IH]; intros b Eb.
  - rewrite Z.add_0_r, Ea in Eb. injection Eb as ->. lia.
  - destruct (sdater_valid nsw (nd + Z.of_nat n) ltac:(lia)) as (c & Ec & _).
    replace (nd + Z.of_nat (S n)) with (nd + Z.of_nat n + 1) in Eb by lia.
    pose proof (sdater_step nsw (nd + Z.of_nat n) c b ltac:(lia) Ec Eb). pose proof (IH c Ec). lia.
Qed.

(** The first day parts the days before the month from the others. *)
Lemma firstday_parts nsw yy mm first nd dt :
  1 <= yy -> 1 <= mm <= 12 -> firstday nsw yy mm = Some first -> 0 <= nd -> sdater nsw nd = Some dt ->
  (first <= nd <-> reached yy mm dt).
Proof.
  intros Hy Hm Ef Hnd Ed. destruct (firstday_is nsw yy mm Hy Hm) as (f & Ef' & Pf & (d0 & E0 & R0) & B).
  rewrite Ef in Ef'. injection Ef' as <-. split.
  - intros Hle. destruct (sdater_valid nsw nd Hnd) as (d' & Ed' & Hv & _). rewrite Ed in Ed'. injection Ed' as <-.
    destruct (sdater_valid nsw first ltac:(lia)) as (d0' & E0' & Hv0 & _). rewrite E0 in E0'. injection E0' as <-.
    rewrite (reached_key Julian) in R0 |- * by done.
    assert (key d0 <= key dt); [|lia]. apply (sdater_mono nsw first (Z.to_nat (nd - first))); [lia|done|].
    by replace (first + Z.of_nat (Z.to_nat (nd - first))) with nd by lia.
  - intros R. destruct (Z.le_gt_cases first nd) as [|Hlt]; [done|].
    destruct (B nd ltac:(lia)) as (d' & Ed' & Hn). rewrite Ed in Ed'. by injection Ed' as <-.
Qed.

(** The day of the year. *)
Lemma year_day nsw yy j0 nd :
  1 <= yy -> firstday nsw yy 1 = Some j0 -> j0 <= nd ->
  (exists dt, sdater nsw nd = Some dt /\ ~ reached (yy + 1) 1 dt) -> 1 <= nd - j0 + 1 <= 366.
Proof.
  intros Hy Hj Hnd (dt & Ed & Hr). split; [lia|].
  destruct (firstday_is nsw yy 1 Hy ltac:(lia)) as (j & Ej & Hp & (d0 & E0 & R0) & _).
  rewrite Hj in Ej. injection Ej as <-.
  destruct (sdater_valid nsw nd ltac:(lia)) as (dt' & Ed' & Hv & _). rewrite Ed in Ed'. injection Ed' as <-.
  destruct (sdater_valid nsw j0 ltac:(lia)) as (d0' & E0' & Hv0 & _). rewrite E0 in E0'. injection E0' as <-.
  pose proof (sdater_gap nsw j0 (Z.to_nat (nd - j0)) d0 dt ltac:(lia) E0) as G.
  replace (j0 + Z.of_nat (Z.to_nat (nd - j0))) with nd in G by lia. specialize (G Ed).
  pose proof (first_valid yy 1 Hy ltac:(lia) Julian) as Va.
  pose proof (first_valid (yy + 1) 1 ltac:(lia) ltac:(lia) Julian) as Vb.
  rewrite (reached_key Julian) in Hr, R0 by (done || lia).
  pose proof (ndaysj_key dt (mkdate (yy + 1) 1 1) Hv Vb ltac:(lia)) as B1.
  assert (ndaysj (mkdate yy 1 1) <= ndaysj d0) as B0.
  { destruct (decide (key (mkdate yy 1 1) = key d0)) as [Ek|].
    - destruct (Z.le_gt_cases (ndaysj (mkdate yy 1 1)) (ndaysj d0)) as [|Hgt]; [done|].
      pose proof (of_date_nonneg Julian d0 Hv0) as N0. cbn [of_date] in N0.
      pose proof (key_lt Julian (ndaysj d0) (ndaysj (mkdate yy 1 1)) d0 (mkdate yy 1 1)
        (conj N0 (Z.gt_lt _ _ (Z.lt_gt _ _ Hgt))) (to_date_of_date Julian d0 Hv0)
        (to_date_of_date Julian _ Va)). lia.
    - pose proof (ndaysj_key (mkdate yy 1 1) d0 Va Hv0 ltac:(lia)). lia. }
  assert (ndaysj (mkdate (yy + 1) 1 1) - ndaysj (mkdate yy 1 1) <= 366) as B2.
  { unfold ndaysj, date2idt. cbn [date_y date_m date_d]. change (2 <? 1) with false. cbn [date_y date_m date_d].
    change (1 + 9 <? 0) with false. change (11 <? 1 + 9) with false. cbn [orb].
    destruct (Z.ltb_spec (yy + 1 - 1) 0), (Z.ltb_spec (yy - 1) 0); try lia.
    unfold ndaysji. cbn [date_y date_m date_d]. lia. }
  lia.
Qed.

(** The number shown for a day. *)
Definition day_number (cf : ncal_conf) (jd_flag : bool) (yy nd : Z) : option Z :=
  if jd_flag then j ← firstday (g_nswitch cf) yy 1; Some (nd - j + 1)
  else dt ← sdater (g_nswitch cf) nd; Some (date_d dt).

Definition dwidth (jd_flag : bool) : Z := if jd_flag then 4 else 3.

Lemma cell_day (jd_flag : bool) n :
  1 <= n <= (if jd_flag then 366 else 53) ->
  cell (if jd_flag then jdaystr else daystr) (dwidth jd_flag) n = ralign (dwidth jd_flag) (pretty n).
Proof. destruct jd_flag; [apply jdaystr_cell|apply daystr_cell]. Qed.

Lemma length_ralign_day (jd_flag : bool) n :
  1 <= n <= (if jd_flag then 366 else 53) ->
  Z.of_nat (String.length (ralign (dwidth jd_flag) (pretty n))) = dwidth jd_flag.
Proof.
  intros H.
  assert (forallb (fun n => Z.of_nat (String.length (ralign 3 (pretty n))) =? 3) (years 1 53) = true) as C3
    by (by vm_compute).
  assert (forallb (fun n => Z.of_nat (String.length (ralign 4 (pretty n))) =? 4) (years 1 366) = true) as C4
    by (by vm_compute).
  rewrite forallb_forall in C3, C4.
  destruct jd_flag; apply Z.eqb_eq; [apply C4|apply C3]; apply years_in; lia.
Qed.

Section Month.
Context (cf : ncal_conf) (yy mm : Z) (jd_flag : bool) (Hy : 1 <= yy) (Hm : 0 <= mm <= 11).

Definition next_first : option Z :=
  if mm =? 11 then firstday (g_nswitch cf) (yy + 1) 1 else firstday (g_nswitch cf) yy (mm + 2).

(** The days from the first of the month to that of the next are those of the month. *)
Lemma month_is first last nd :
  firstday (g_nswitch cf) yy (mm + 1) = Some first -> next_first = Some last -> 0 <= nd ->
  exists dt, sdater (g_nswitch cf) nd = Some dt /\ (first <= nd < last <-> date_y dt = yy /\ date_m dt = mm + 1).
Proof.
  intros Ef El Hnd. destruct (sdater_valid (g_nswitch cf) nd Hnd) as (dt & Ed & Hv & _). exists dt. split; [done|].
  pose proof (firstday_parts _ yy (mm + 1) _ _ _ Hy ltac:(lia) Ef Hnd Ed) as Pf. pose proof (valid_bounds _ _ Hv) as Hb.
  assert (last <= nd <-> reached yy (mm + 2) dt) as Pl.
  { unfold next_first in El. destruct (Z.eqb_spec mm 11).
    - rewrite (firstday_parts _ (yy + 1) 1 _ _ _ ltac:(lia) ltac:(lia) El Hnd Ed). unfold reached. lia.
    - apply (firstday_parts _ yy (mm + 2) _ _ _ Hy ltac:(lia) El Hnd Ed). }
  unfold reached in *. lia.
Qed.

Lemma month_days_spec first last nd :
  firstday (g_nswitch cf) yy (mm + 1) = Some first -> next_first = Some last -> first <= nd < last ->
  0 < first /\ exists n, day_number cf jd_flag yy nd = Some n /\ 1 <= n <= (if jd_flag then 366 else 53).
Proof.
  intros Ef El Hnd.
  destruct (firstday_is (g_nswitch cf) yy (mm + 1) Hy ltac:(lia)) as (f & Ef' & Pf & _ & Bf).
  rewrite Ef in Ef'. injection Ef' as <-. split; [done|]. unfold day_number. destruct jd_flag.
  - destruct (firstday_is (g_nswitch cf) yy 1 Hy ltac:(lia)) as (j & Ej & Pj & _ & Bj).
    rewrite Ej. cbn [mbind option_bind]. eexists. split; [done|].
    apply (year_day (g_nswitch cf) yy); [done|done| |].
    + destruct (Z.le_gt_cases j nd) as [|Hgt]; [done|]. destruct (Bj first) as (dt & Ed & Hr); [lia|].
      destruct (firstday_is (g_nswitch cf) yy (mm + 1) Hy ltac:(lia)) as (f & Ef' & _ & (d1 & E1 & R1) & _).
      rewrite Ef in Ef'. injection Ef' as <-. rewrite Ed in E1. injection E1 as ->.
      exfalso. apply Hr. unfold reached in *. 
      destruct (sdater_valid (g_nswitch cf) first ltac:(lia)) as (d1' & E1' & V1 & _).
      rewrite Ed in E1'. injection E1' as <-. pose proof (valid_bounds _ _ V1). lia.
    + unfold next_first in El. destruct (Z.eqb_spec mm 11).
      * destruct (firstday_is (g_nswitch cf) (yy + 1) 1 ltac:(lia) ltac:(lia)) as (l & El' & _ & _ & Bl).
        rewrite El in El'. injection El' as <-. apply Bl. lia.
      * destruct (firstday_is (g_nswitch cf) yy (mm + 2) ltac:(lia) ltac:(lia)) as (l & El' & _ & _ & Bl).
        rewrite El in El'. injection El' as <-. destruct (Bl nd) as (dt & Ed & Hr); [lia|].
        exists dt. split; [done|]. unfold reached in *. lia.
  - destruct (sdater_valid (g_nswitch cf) nd ltac:(lia)) as (dt & Ed & Hv & _). rewrite Ed.
    cbn [mbind option_bind]. eexists. split; [done|]. pose proof (valid_bounds _ _ Hv). lia.
Qed.

Let ds := if jd_flag then jdaystr else daystr.
Let dw := dwidth jd_flag.

Lemma cell_zero n : 1 <= n <= (if jd_flag then 366 else 53) ->
  cell ds dw n = ralign dw (pretty n) /\ Z.of_nat (String.length (cell ds dw n)) = dw.
Proof.
  intros Hn. unfold ds, dw. rewrite cell_day by done. split; [done|]. by apply length_ralign_day.
Qed.

Lemma blanks_dw : stake (Z.to_nat dw) "    " = blanks dw /\ Z.of_nat (String.length (blanks dw)) = dw.
Proof. unfold dw. by destruct jd_flag. Qed.

(** What [mkmonthr] puts in for a day when nothing is highlighted. *)
Lemma put_day_spec first last nd jan1 :
  flag_nohighlight cf = true \/ tty cf = false ->
  firstday (g_nswitch cf) yy (mm + 1) = Some first -> next_first = Some last -> nd < last ->
  (if jd_flag then j ← firstday (g_nswitch cf) yy 1; Some (Some j) else Some None) = Some jan1 ->
  let put := put_day cf (tty cf) (sdater (g_nswitch cf)) ds dw jan1 first in
  narrow put dw nd /\
  (nd < first -> put nd 0 = Some (blanks dw, 0)) /\
  (first <= nd -> exists n, day_number cf jd_flag yy nd = Some n /\ put nd 0 = Some (ralign dw (pretty n), 0)).
Proof.
  intros Hh Ef El Hnd Ej. cbv zeta. unfold narrow, put_day.
  destruct blanks_dw as [B1 B2]. destruct (Z.leb_spec first nd) as [H|H].
  - destruct (month_days_spec first last nd Ef El ltac:(lia)) as (Pf & n & En & Hn).
    destruct (cell_zero n Hn) as [C1 C2].
    assert (match jan1 with
            | Some jan1 => Some (nd - jan1 + 1)
            | None => dt ← sdater (g_nswitch cf) nd; Some (date_d dt) end = Some n) as ->.
    { unfold day_number in En. destruct jd_flag.
      - destruct (firstday (g_nswitch cf) yy 1) as [j|]; [|done]. cbn [mbind option_bind] in *.
        injection Ej as <-. done.
      - injection Ej as <-. done. }
    cbn [mbind option_bind].
    assert (tty cf && (nd =? highlightdate cf) && negb (flag_nohighlight cf) = false) as ->.
    { destruct Hh as [-> | ->]; [by rewrite andb_false_r|done]. }
    split_and!; [by eexists|lia|]. intros _. exists n. by rewrite C1.
  - rewrite B1. split_and!; [by eexists|done|lia].
Qed.

Lemma weeks_r_cells fuel j last :
  308 <= g_nswitch cf -> last - j < Z.of_nat fuel -> (0 < fuel)%nat ->
  exists s, weeks_r fuel (g_nswitch cf) ds dw j last = Some s /\
    forall k, 0 <= k -> j + 7 * k < last ->
      if j + 7 * k <=? g_nswitch cf then cell s dw k = blanks dw
      else exists w y0, week (j + 7 * k) = Some (w, y0) /\ cell s dw k = ralign dw (pretty w).
Proof.
  intros Hsw. revert j. induction fuel as [|fuel IH]; intros j Hf Hp; [lia|]. cbn [weeks_r].
  destruct (Z.ltb_spec j last) as [Hj|Hj]; [|exists ""; split; [done|lia]].
  destruct (IH (j + 7)) as (r & Er & Hr); [lia|lia|].
  assert (exists s, (if j <=? g_nswitch cf then Some (blanks dw)
      else '(w, _) ← week j; Some (cell ds dw w)) = Some s /\ Z.of_nat (String.length s) = dw /\
      if j <=? g_nswitch cf then s = blanks dw
      else exists w y0, week j = Some (w, y0) /\ s = ralign dw (pretty w)) as (s & -> & Ls & Hs).
  { destruct (Z.leb_spec j (g_nswitch cf)).
    - exists (blanks dw). split_and!; [done|apply blanks_dw|done].
    - destruct (week_iso j) as (w & y0 & Ew & Hw & _).
      { change (firstweek 1) with 308. lia. }
      rewrite Ew. cbn [mbind option_bind]. destruct (cell_zero w) as [C1 C2].
      { destruct jd_flag; lia. }
      exists (cell ds dw w). split_and!; [done|done|]. eauto. }
  cbn [mbind option_bind]. rewrite Er. cbn [mbind option_bind].
  exists (s +:+ r). split; [done|]. intros k Hk Hl. destruct (decide (k = 0)) as [->|].
  - replace (j + 7 * 0) with j by lia. rewrite cell_0 by done. done.
  - replace k with (k - 1 + 1) by lia. rewrite cell_S by lia.
    replace (j + 7 * (k - 1 + 1)) with (j + 7 + 7 * (k - 1)) by lia. apply Hr; lia.
Qed.
End Month.

(** C26. A month of [ncal] shows its days: for every year from 1 on, every month and every day
    of the switch from day 308 on (January 3rd of year 1), when nothing is
    highlighted, [mkmonthr] finds the first day of the month and of the next one, so that the
    days in between are those whose date is in the month, makes seven lines, and on the line of its week day, in the column
    of its week, every day of the month has its number (the day of the month, or with
    [-j] the day of the year), right aligned; the places before the first day are
    blank, there are no others, and with [-w] each column has its ISO week number
    below it, blank up to the switch. *)
Theorem mkmonthr_places_days cf yy mm jd_flag :
  1 <= yy -> 0 <= mm <= 11 -> flag_nohighlight cf = true \/ tty cf = false -> 308 <= g_nswitch cf ->
  exists first last ml,
    firstday (g_nswitch cf) yy (mm + 1) = Some first /\ next_first cf yy mm = Some last /\
    mkmonthr cf yy mm jd_flag = Some ml /\
    (forall nd, 0 <= nd -> exists dt, sdater (g_nswitch cf) nd = Some dt /\
       (first <= nd < last <-> date_y dt = yy /\ date_m dt = mm + 1)) /\
    let firstm := first - weekday first in
    let dw := dwidth jd_flag in
    let at_day nd := cell (nth (Z.to_nat (weekday nd)) (ml_lines ml) "") dw ((nd - firstm) / 7) in
    (forall nd, first <= nd < last -> exists n, day_number cf jd_flag yy nd = Some n /\
       at_day nd = ralign dw (pretty n)) /\
    (forall nd, firstm <= nd < first -> nd < last -> at_day nd = blanks dw) /\
    length (ml_lines ml) = 7%nat /\
    (forall i, 0 <= i < 7 -> Z.of_nat (String.length (nth (Z.to_nat i) (ml_lines ml) "")) =
       dw * Z.max 0 ((last - (firstm + i) + 6) / 7)) /\
    (flag_weeks cf = true -> forall k, 0 <= k -> firstm + 7 * k < last ->
       if firstm + 7 * k <=? g_nswitch cf then cell (ml_weeks ml) dw k = blanks dw
       else exists w y0, week (firstm + 7 * k) = Some (w, y0) /\
         cell (ml_weeks ml) dw k = ralign dw (pretty w)).
Proof.
  intros Hy Hm Hh Hsw.
  destruct (firstday_is (g_nswitch cf) yy (mm + 1) Hy ltac:(lia)) as (first & Ef & Pf & _).
  assert (exists last, next_first cf yy mm = Some last /\ 0 < last) as (last & El & Pl).
  { unfold next_first. destruct (Z.eqb_spec mm 11).
    - destruct (firstday_is (g_nswitch cf) (yy + 1) 1 ltac:(lia) ltac:(lia)) as (l & E & P & _). eauto.
    - destruct (firstday_is (g_nswitch cf) yy (mm + 2) ltac:(lia) ltac:(lia)) as (l & E & P & _). eauto. }
  assert (exists jan1, (if jd_flag then j ← firstday (g_nswitch cf) yy 1; Some (Some j) else Some None) = Some jan1)
    as (jan1 & Ej).
  { destruct jd_flag; [|by eexists]. destruct (firstday_is (g_nswitch cf) yy 1 Hy ltac:(lia)) as (j & E & _).
    rewrite E. by eexists. }
  set (firstm := first - weekday first).
  set (ds := if jd_flag then jdaystr else daystr).
  set (dw := dwidth jd_flag).
  set (put := put_day cf (tty cf) (sdater (g_nswitch cf)) ds dw jan1 first).
  set (fuel := S (Z.to_nat (last - firstm))).
  pose proof (proj1 (proj2 (weekday_mod first))) as Wf.
  assert (forall nd, nd < last -> narrow put dw nd /\ (nd < first -> put nd 0 = Some (blanks dw, 0)) /\
    (first <= nd -> exists n, day_number cf jd_flag yy nd = Some n /\ put nd 0 = Some (ralign dw (pretty n), 0)))
    as Hput by (intros nd Hnd; exact (put_day_spec cf yy mm jd_flag Hy Hm first last nd jan1 Hh Ef El Hnd Ej)).
  destruct (mapM_total (fun i => line_r fuel put (firstm + i) last 0)
    (fun i sl => exists s, sl = (s, 0) /\
       Z.of_nat (String.length s) = dw * Z.max 0 ((last - (firstm + i) + 6) / 7) /\
       forall k, 0 <= k -> firstm + i + 7 * k < last -> put (firstm + i + 7 * k) 0 = Some (cell s dw k, 0))
    [0; 1; 2; 3; 4; 5; 6]) as (ls & Els & Pls).
  { intros i Hi. assert (0 <= i < 7) by (simpl in Hi; lia).
    destruct (line_r_cells put dw last fuel (firstm + i)) as (s & E & L & Hs); [|lia|lia|].
    - intros j Hj. apply Hput. lia.
    - exists (s, 0). split; [done|]. by exists s. }
  assert (exists wk, (if flag_weeks cf then weeks_r fuel (g_nswitch cf) ds dw firstm last else Some "") = Some wk /\
    (flag_weeks cf = true -> forall k, 0 <= k -> firstm + 7 * k < last ->
       if firstm + 7 * k <=? g_nswitch cf then cell wk dw k = blanks dw
       else exists w y0, week (firstm + 7 * k) = Some (w, y0) /\ cell wk dw k = ralign dw (pretty w)))
    as (wk & Ew & Hw).
  { destruct (flag_weeks cf); [|by eexists].
    destruct (weeks_r_cells cf jd_flag fuel firstm last Hsw) as (wk & E & H); [lia|lia|]. eauto. }
  exists first, last, (mkmonth (upper_first (month_name cf mm)) (map fst ls) (map snd ls) wk).
  split; [done|]. split; [done|]. split.
  { unfold mkmonthr. rewrite Ef. cbn [mbind option_bind].
    change (if mm =? 11 then firstday (g_nswitch cf) (yy + 1) 1 else firstday (g_nswitch cf) yy (mm + 2))
      with (next_first cf yy mm). rewrite El. cbn [mbind option_bind]. rewrite Ej. cbn [mbind option_bind].
    fold firstm. fold ds. change (if jd_flag then 4 else 3) with dw. fold put. fold fuel.
    rewrite Els. cbn [mbind option_bind]. by rewrite Ew. }
  split; [intros nd Hnd; exact (month_is cf yy mm Hy Hm first last nd Ef El Hnd)|].
  cbv zeta. cbn [ml_lines ml_weeks].
  assert (forall i, 0 <= i < 7 -> exists s, nth (Z.to_nat i) (map fst ls) "" = s /\
       Z.of_nat (String.length s) = dw * Z.max 0 ((last - (firstm + i) + 6) / 7) /\
       forall k, 0 <= k -> firstm + i + 7 * k < last -> put (firstm + i + 7 * k) 0 = Some (cell s dw k, 0)) as Hline.
  { intros i Hi. assert (nth_error [0; 1; 2; 3; 4; 5; 6] (Z.to_nat i) = Some i) as Ei.
    { assert (i = 0 \/ i = 1 \/ i = 2 \/ i = 3 \/ i = 4 \/ i = 5 \/ i = 6) as D by lia.
      repeat destruct D as [D|D]; rewrite D; done. }
    destruct (Forall2_nth_error _ _ _ _ _ Pls Ei) as (sl & En & s & -> & L & H). exists s.
    split; [|done]. apply nth_error_nth. by rewrite nth_error_map, En. }
  assert (forall nd, firstm <= nd < last -> put nd 0 =
    Some (cell (nth (Z.to_nat (weekday nd)) (map fst ls) "") dw ((nd - firstm) / 7), 0)) as Hday.
  { intros nd Hnd. pose proof (weekday_mod nd) as (Wn & Bn & _). pose proof (weekday_mod first) as (Wq & _).
    destruct (Hline (weekday nd) Bn) as (s & -> & _ & H).
    assert (firstm + weekday nd + 7 * ((nd - firstm) / 7) = nd) as En by (unfold firstm; lia).
    rewrite <- (H ((nd - firstm) / 7)) by lia. by rewrite En. }
  split_and!.
  - intros nd Hnd. destruct (Hput nd) as (_ & _ & Hn); [lia|]. destruct Hn as (n & En & Ep); [lia|].
    exists n. split; [done|]. pose proof (Hday nd ltac:(lia)) as Hd. rewrite Ep in Hd. by injection Hd.
  - intros nd Hnd Hl. destruct (Hput nd Hl) as (_ & Hb & _). pose proof (Hday nd ltac:(lia)) as Hd.
    rewrite Hb in Hd by lia. by injection Hd.
  - rewrite length_map. by rewrite <- (Forall2_length _ _ _ Pls).
  - intros i Hi. destruct (Hline i Hi) as (s & -> & L & _). done.
  - done.
Qed.

Lemma mkmonthr_places_days_witness :
  let cf := mkconf true true 640115 640115 0 false None (fun _ => "m") (fun _ => "d")
    (fun s => Z.of_nat (String.length s)) (fun _ => None) in
  exists first last ml,
    firstday (g_nswitch cf) 1752 (8 + 1) = Some first /\ next_first cf 1752 8 = Some last /\
    mkmonthr cf 1752 8 false = Some ml /\
    (forall nd, 0 <= nd -> exists dt, sdater (g_nswitch cf) nd = Some dt /\
       (first <= nd < last <-> date_y dt = 1752 /\ date_m dt = 8 + 1)) /\
    let firstm := first - weekday first in
    let dw := dwidth false in
    let at_day nd := cell (nth (Z.to_nat (weekday nd)) (ml_lines ml) "") dw ((nd - firstm) / 7) in
    (forall nd, first <= nd < last -> exists n, day_number cf false 1752 nd = Some n /\
       at_day nd = ralign dw (pretty n)) /\
    (forall nd, firstm <= nd < first -> nd < last -> at_day nd = blanks dw) /\
    length (ml_lines ml) = 7%nat /\
    (forall i, 0 <= i < 7 -> Z.of_nat (String.length (nth (Z.to_nat i) (ml_lines ml) "")) =
       dw * Z.max 0 ((last - (firstm + i) + 6) / 7)) /\
    (flag_weeks cf = true -> forall k, 0 <= k -> firstm + 7 * k < last ->
       if firstm + 7 * k <=? g_nswitch cf then cell (ml_weeks ml) dw k = blanks dw
       else exists w y0, week (firstm + 7 * k) = Some (w, y0) /\
         cell (ml_weeks ml) dw k = ralign dw (pretty w)).
Proof.
  intros cf. apply (mkmonthr_places_days cf 1752 8 false); [lia|lia|left; reflexivity|vm_compute; discriminate].
Defined.
