(* ===== verification/Compress.v ===== *)
(** * compress and uncompress: the Lempel-Ziv-Welch coder
    ([src/file_cmds/compress/zopen.c])

    A compressed file is a stream that [zopen] opens; what is written to it goes through
    [zwrite], what is read through [zread], and [zclose] ends it.  The stream's state is
    [struct s_zstate]; writing and reading use different members of it, so it is one
    record in [Module Writer] and another in [Module Reader].  The tables are functions from
    the index, [fp] is the list of octets that have been written, or that are left to read. The
    file takes all that is written.

    For reading, the program lays [tab_suffix] over the first 2^16 octets of [htab] and the
    stack of decoded octets over the rest of it: [DE_STACK_SIZE] octets.  The list [stack] has
    the top first; an octet behind its end is a [Crash]. *)

From Stdlib Require Import ZArith Lia List Bool.
From stdpp Require Import base tactics list numbers functions.
From S2P Require Import Prelude.

Local Open Scope Z_scope.

Definition BITS : Z := 16.
Definition HSIZE : Z := 69001.
Definition magic_header : list Z := [31; 157].
Definition BIT_MASK : Z := 31.
Definition BLOCK_MASK : Z := 128.
Definition INIT_BITS : Z := 9.
Definition MAXCODE (n : Z) : Z := Z.shiftl 1 n - 1.
Definition CHECK_GAP : Z := 10000.
Definition FIRST : Z := 257.
Definition CLEAR : Z := 256.

Inductive zstate := S_START | S_MIDDLE | S_EOF.
Inductive error := EFTYPE | EINVAL.

Definition byte_at (l : list Z) (i : nat) : Z := default 0 (l !! i).

Definition lmask (i : Z) : Z := byte_at [255; 254; 252; 248; 240; 224; 192; 128; 0] (Z.to_nat i).
Definition rmask (i : Z) : Z := byte_at [0; 1; 3; 7; 15; 31; 63; 127; 255] (Z.to_nat i).

(** [ocode], of [bits] bits, into the buffer [b] at bit [r_off] ([output]). *)
Definition put_code (b : list Z) (r_off bits ocode : Z) : list Z :=
  let bp := Z.to_nat (Z.shiftr r_off 3) in
  let r_off := Z.land r_off 7 in
  let b := <[bp := Z.lor (Z.land (byte_at b bp) (rmask r_off))
                         (Z.land (Z.shiftl ocode r_off) (lmask r_off))]> b in
  let bp := S bp in
  let bits := u32 (bits - (8 - r_off)) in
  let ocode := Z.shiftr ocode (8 - r_off) in
  if 8 <=? bits then
    let b := <[bp := u8 ocode]> b in
    let bp := S bp in
    let ocode := Z.shiftr ocode 8 in
    if bits - 8 =? 0 then b else <[bp := u8 ocode]> b
  else if bits =? 0 then b else <[bp := u8 ocode]> b.

(** The code of [bits] bits at bit [r_off] of the buffer [b] ([getcode]). *)
Definition get_code (b : list Z) (r_off bits : Z) : Z :=
  let bp := Z.to_nat (Z.shiftr r_off 3) in
  let r_off := Z.land r_off 7 in
  let gcode := Z.shiftr (byte_at b bp) r_off in
  let bp := S bp in
  let bits := bits - (8 - r_off) in
  let r_off := 8 - r_off in
  if 8 <=? bits then
    let gcode := Z.lor gcode (Z.shiftl (byte_at b bp) r_off) in
    let bp := S bp in
    Z.lor gcode (Z.shiftl (Z.land (byte_at b bp) (rmask (bits - 8))) (r_off + 8))
  else Z.lor gcode (Z.shiftl (Z.land (byte_at b bp) (rmask bits)) r_off).

(** What [zopen] says of its arguments; 0 bits are the default. *)
Definition bits_ok (bits : Z) : bool := (0 <=? bits) && (bits <=? BITS).
Definition bits_of (bits : Z) : Z := if bits =? 0 then BITS else bits.

(** ** Writing *)

Module Writer.

Record zs := mkZs {
  fp : list Z; state : zstate; n_bits : Z; maxbits : Z; maxcode : Z; maxmaxcode : Z; htab : Z ->
  Z; codetab : Z -> Z; hsize : Z; free_ent : Z; block_compress : Z; clear_flg : Z; ratio : Z;
  checkpoint : Z; offset : Z; in_count : Z; bytes_out : Z; out_count : Z; buf : list Z; fcode :
  Z; ent : Z; hsize_reg : Z; hshift : Z }.

Definition set_fp v (s : zs) := mkZs v (state s) (n_bits s) (maxbits s) (maxcode s) (maxmaxcode
  s) (htab s) (codetab s) (hsize s) (free_ent s) (block_compress s) (clear_flg s) (ratio s)
  (checkpoint s) (offset s) (in_count s) (bytes_out s) (out_count s) (buf s) (fcode s) (ent s)
  (hsize_reg s) (hshift s).
Definition set_state v (s : zs) := mkZs (fp s) v (n_bits s) (maxbits s) (maxcode s) (maxmaxcode
  s) (htab s) (codetab s) (hsize s) (free_ent s) (block_compress s) (clear_flg s) (ratio s)
  (checkpoint s) (offset s) (in_count s) (bytes_out s) (out_count s) (buf s) (fcode s) (ent s)
  (hsize_reg s) (hshift s).
Definition set_n_bits v (s : zs) := mkZs (fp s) (state s) v (maxbits s) (maxcode s) (maxmaxcode
  s) (htab s) (codetab s) (hsize s) (free_ent s) (block_compress s) (clear_flg s) (ratio s)
  (checkpoint s) (offset s) (in_count s) (bytes_out s) (out_count s) (buf s) (fcode s) (ent s)
  (hsize_reg s) (hshift s).
Definition set_maxbits v (s : zs) := mkZs (fp s) (state s) (n_bits s) v (maxcode s) (maxmaxcode
  s) (htab s) (codetab s) (hsize s) (free_ent s) (block_compress s) (clear_flg s) (ratio s)
  (checkpoint s) (offset s) (in_count s) (bytes_out s) (out_count s) (buf s) (fcode s) (ent s)
  (hsize_reg s) (hshift s).
Definition set_maxcode v (s : zs) := mkZs (fp s) (state s) (n_bits s) (maxbits s) v (maxmaxcode
  s) (htab s) (codetab s) (hsize s) (free_ent s) (block_compress s) (clear_flg s) (ratio s)
  (checkpoint s) (offset s) (in_count s) (bytes_out s) (out_count s) (buf s) (fcode s) (ent s)
  (hsize_reg s) (hshift s).
Definition set_maxmaxcode v (s : zs) := mkZs (fp s) (state s) (n_bits s) (maxbits s) (maxcode s)
  v (htab s) (codetab s) (hsize s) (free_ent s) (block_compress s) (clear_flg s) (ratio s)
  (checkpoint s) (offset s) (in_count s) (bytes_out s) (out_count s) (buf s) (fcode s) (ent s)
  (hsize_reg s) (hshift s).
Definition set_htab v (s : zs) := mkZs (fp s) (state s) (n_bits s) (maxbits s) (maxcode s)
  (maxmaxcode s) v (codetab s) (hsize s) (free_ent s) (block_compress s) (clear_flg s) (ratio s)
  (checkpoint s) (offset s) (in_count s) (bytes_out s) (out_count s) (buf s) (fcode s) (ent s)
  (hsize_reg s) (hshift s).
Definition set_codetab v (s : zs) := mkZs (fp s) (state s) (n_bits s) (maxbits s) (maxcode s)
  (maxmaxcode s) (htab s) v (hsize s) (free_ent s) (block_compress s) (clear_flg s) (ratio s)
  (checkpoint s) (offset s) (in_count s) (bytes_out s) (out_count s) (buf s) (fcode s) (ent s)
  (hsize_reg s) (hshift s).
Definition set_hsize v (s : zs) := mkZs (fp s) (state s) (n_bits s) (maxbits s) (maxcode s)
  (maxmaxcode s) (htab s) (codetab s) v (free_ent s) (block_compress s) (clear_flg s) (ratio s)
  (checkpoint s) (offset s) (in_count s) (bytes_out s) (out_count s) (buf s) (fcode s) (ent s)
  (hsize_reg s) (hshift s).
Definition set_free_ent v (s : zs) := mkZs (fp s) (state s) (n_bits s) (maxbits s) (maxcode s)
  (maxmaxcode s) (htab s) (codetab s) (hsize s) v (block_compress s) (clear_flg s) (ratio s)
  (checkpoint s) (offset s) (in_count s) (bytes_out s) (out_count s) (buf s) (fcode s) (ent s)
  (hsize_reg s) (hshift s).
Definition set_block_compress v (s : zs) := mkZs (fp s) (state s) (n_bits s) (maxbits s)
  (maxcode s) (maxmaxcode s) (htab s) (codetab s) (hsize s) (free_ent s) v (clear_flg s) (ratio
  s) (checkpoint s) (offset s) (in_count s) (bytes_out s) (out_count s) (buf s) (fcode s) (ent
  s) (hsize_reg s) (hshift s).
Definition set_clear_flg v (s : zs) := mkZs (fp s) (state s) (n_bits s) (maxbits s) (maxcode s)
  (maxmaxcode s) (htab s) (codetab s) (hsize s) (free_ent s) (block_compress s) v (ratio s)
  (checkpoint s) (offset s) (in_count s) (bytes_out s) (out_count s) (buf s) (fcode s) (ent s)
  (hsize_reg s) (hshift s).
Definition set_ratio v (s : zs) := mkZs (fp s) (state s) (n_bits s) (maxbits s) (maxcode s)
  (maxmaxcode s) (htab s) (codetab s) (hsize s) (free_ent s) (block_compress s) (clear_flg s) v
  (checkpoint s) (offset s) (in_count s) (bytes_out s) (out_count s) (buf s) (fcode s) (ent s)
  (hsize_reg s) (hshift s).
Definition set_checkpoint v (s : zs) := mkZs (fp s) (state s) (n_bits s) (maxbits s) (maxcode s)
  (maxmaxcode s) (htab s) (codetab s) (hsize s) (free_ent s) (block_compress s) (clear_flg s)
  (ratio s) v (offset s) (in_count s) (bytes_out s) (out_count s) (buf s) (fcode s) (ent s)
  (hsize_reg s) (hshift s).
Definition set_offset v (s : zs) := mkZs (fp s) (state s) (n_bits s) (maxbits s) (maxcode s)
  (maxmaxcode s) (htab s) (codetab s) (hsize s) (free_ent s) (block_compress s) (clear_flg s)
  (ratio s) (checkpoint s) v (in_count s) (bytes_out s) (out_count s) (buf s) (fcode s) (ent s)
  (hsize_reg s) (hshift s).
Definition set_in_count v (s : zs) := mkZs (fp s) (state s) (n_bits s) (maxbits s) (maxcode s)
  (maxmaxcode s) (htab s) (codetab s) (hsize s) (free_ent s) (block_compress s) (clear_flg s)
  (ratio s) (checkpoint s) (offset s) v (bytes_out s) (out_count s) (buf s) (fcode s) (ent s)
  (hsize_reg s) (hshift s).
Definition set_bytes_out v (s : zs) := mkZs (fp s) (state s) (n_bits s) (maxbits s) (maxcode s)
  (maxmaxcode s) (htab s) (codetab s) (hsize s) (free_ent s) (block_compress s) (clear_flg s)
  (ratio s) (checkpoint s) (offset s) (in_count s) v (out_count s) (buf s) (fcode s) (ent s)
  (hsize_reg s) (hshift s).
Definition set_out_count v (s : zs) := mkZs (fp s) (state s) (n_bits s) (maxbits s) (maxcode s)
  (maxmaxcode s) (htab s) (codetab s) (hsize s) (free_ent s) (block_compress s) (clear_flg s)
  (ratio s) (checkpoint s) (offset s) (in_count s) (bytes_out s) v (buf s) (fcode s) (ent s)
  (hsize_reg s) (hshift s).
Definition set_buf v (s : zs) := mkZs (fp s) (state s) (n_bits s) (maxbits s) (maxcode s)
  (maxmaxcode s) (htab s) (codetab s) (hsize s) (free_ent s) (block_compress s) (clear_flg s)
  (ratio s) (checkpoint s) (offset s) (in_count s) (bytes_out s) (out_count s) v (fcode s) (ent
  s) (hsize_reg s) (hshift s).
Definition set_fcode v (s : zs) := mkZs (fp s) (state s) (n_bits s) (maxbits s) (maxcode s)
  (maxmaxcode s) (htab s) (codetab s) (hsize s) (free_ent s) (block_compress s) (clear_flg s)
  (ratio s) (checkpoint s) (offset s) (in_count s) (bytes_out s) (out_count s) (buf s) v (ent s)
  (hsize_reg s) (hshift s).
Definition set_ent v (s : zs) := mkZs (fp s) (state s) (n_bits s) (maxbits s) (maxcode s)
  (maxmaxcode s) (htab s) (codetab s) (hsize s) (free_ent s) (block_compress s) (clear_flg s)
  (ratio s) (checkpoint s) (offset s) (in_count s) (bytes_out s) (out_count s) (buf s) (fcode s)
  v (hsize_reg s) (hshift s).
Definition set_hsize_reg v (s : zs) := mkZs (fp s) (state s) (n_bits s) (maxbits s) (maxcode s)
  (maxmaxcode s) (htab s) (codetab s) (hsize s) (free_ent s) (block_compress s) (clear_flg s)
  (ratio s) (checkpoint s) (offset s) (in_count s) (bytes_out s) (out_count s) (buf s) (fcode s)
  (ent s) v (hshift s).
Definition set_hshift v (s : zs) := mkZs (fp s) (state s) (n_bits s) (maxbits s) (maxcode s)
  (maxmaxcode s) (htab s) (codetab s) (hsize s) (free_ent s) (block_compress s) (clear_flg s)
  (ratio s) (checkpoint s) (offset s) (in_count s) (bytes_out s) (out_count s) (buf s) (fcode s)
  (ent s) (hsize_reg s) v.

Abbreviation W := (M halt zs).

(** [zopen(fname, "w", bits)]. *)
Definition zopen (bits : Z) : option zs :=
  if bits_ok bits then
    Some (mkZs [] S_START 0 (bits_of bits) 0 (Z.shiftl 1 (bits_of bits)) (fun _ => 0) (fun _ => 0) HSIZE 0
      BLOCK_MASK 0 0 CHECK_GAP 0 1 0 0 (replicate (Z.to_nat BITS) 0) 0 0 0 0)
  else None.

(** The first [n] octets of [buf] to the file. *)
Definition fwrite_buf (n : Z) (s : zs) : zs := set_fp (fp s ++ take (Z.to_nat n) (buf s)) s.

Definition output_code (ocode : Z) (s : zs) : zs :=
  let s := set_buf (put_code (buf s) (offset s) (n_bits s) ocode) s in
  let s := set_offset (offset s + n_bits s) s in
  let s := if offset s =? Z.shiftl (n_bits s) 3
           then set_offset 0 (fwrite_buf (n_bits s) (set_bytes_out (bytes_out s + n_bits s) s))
           else s in
  if (maxcode s <? free_ent s) || (0 <? clear_flg s) then
    let s := if 0 <? offset s
             then set_bytes_out (bytes_out s + n_bits s) (fwrite_buf (n_bits s) s) else s in
    let s := set_offset 0 s in
    if negb (clear_flg s =? 0) then
      set_clear_flg 0 (set_maxcode (MAXCODE INIT_BITS) (set_n_bits INIT_BITS s))
    else
      let s := set_n_bits (n_bits s + 1) s in
      set_maxcode (if n_bits s =? maxbits s then maxmaxcode s else MAXCODE (n_bits s)) s
  else s.

(** [output(zs, -1)]: the rest of the buffer. *)
Definition output_rest (s : zs) : zs :=
  let s := if 0 <? offset s then
             let s := set_offset ((offset s + 7) / 8) s in
             set_bytes_out (bytes_out s + offset s) (fwrite_buf (offset s) s)
           else s in
  set_offset 0 s.

Definition output (ocode : Z) (s : zs) : zs :=
  if 0 <=? ocode then output_code ocode s else output_rest s.

(** [cl_hash]: sixteen entries at a time from the end, then what is left. *)
Fixpoint clear_down (n : nat) (p : Z) (h : Z -> Z) : Z -> Z :=
  match n with O => h | S n => clear_down n (p - 1) (<[p - 1 := -1]> h) end.
Fixpoint cl_hash_loop (fuel : nat) (p i : Z) (h : Z -> Z) : option (Z -> Z) :=
  match fuel with
  | O => None
  | S fuel =>
      let h := clear_down 16 p h in
      let i := i - 16 in
      if 0 <=? i then cl_hash_loop fuel (p - 16) i h
      else Some (clear_down (Z.to_nat (i + 16)) (p - 16) h)
  end.
Definition cl_hash (cl_hsize : Z) : W unit :=
  h ← gets htab;
  match cl_hash_loop (Z.to_nat cl_hsize) cl_hsize (cl_hsize - 16) h with
  | Some h => modify (set_htab h)
  | None => leave NoFuel
  end.

Definition cl_rat (s : zs) : Z :=
  if 8388607 <? in_count s then
    let rat := Z.shiftr (bytes_out s) 8 in
    if rat =? 0 then 2147483647 else Z.quot (in_count s) rat
  else Z.quot (Z.shiftl (in_count s) 8) (bytes_out s).

Definition cl_block : W unit :=
  _ ← modify (fun s => set_checkpoint (in_count s + CHECK_GAP) s);
  rat ← gets cl_rat;
  r ← gets ratio;
  if r <? rat then modify (set_ratio rat)
  else
    _ ← modify (set_ratio 0);
    n ← gets hsize;
    _ ← cl_hash n;
    _ ← modify (set_free_ent FIRST);
    _ ← modify (set_clear_flg 1);
    modify (output CLEAR).

(** From [probe] on: the slot with [fcode], or an empty one. *)
Fixpoint probe (fuel : nat) (h : Z -> Z) (fc reg disp i : Z) : option Z :=
  match fuel with
  | O => None
  | S fuel =>
      let i := i - disp in
      let i := if i <? 0 then i + reg else i in
      if h i =? fc then Some i
      else if 0 <=? h i then probe fuel h fc reg disp i
      else Some i
  end.

Definition find_slot (h : Z -> Z) (fc reg i : Z) : option Z :=
  if h i =? fc then Some i
  else if h i <? 0 then Some i
  else probe (Z.to_nat reg) h fc reg (if i =? 0 then 1 else reg - i) i.

(** The body of the loop of [zwrite]. *)
Definition zwrite_octet (c : Z) : W unit :=
  _ ← modify (fun s => set_in_count (in_count s + 1) s);
  _ ← modify (fun s => set_fcode (Z.shiftl c (maxbits s) + ent s) s);
  s ← get;
  match find_slot (htab s) (fcode s) (hsize_reg s) (Z.lxor (Z.shiftl c (hshift s)) (ent s)) with
  | None => leave NoFuel
  | Some i =>
      if htab s i =? fcode s then modify (set_ent (codetab s i))
      else
        _ ← modify (output (ent s));
        _ ← modify (fun s => set_out_count (out_count s + 1) s);
        _ ← modify (set_ent c);
        s ← get;
        if free_ent s <? maxmaxcode s then
          _ ← modify (set_codetab (<[i := u16 (free_ent s)]> (codetab s)));
          _ ← modify (set_free_ent (free_ent s + 1));
          modify (set_htab (<[i := fcode s]> (htab s)))
        else mwhen ((checkpoint s <=? in_count s) && negb (block_compress s =? 0)) cl_block
  end.

Fixpoint zwrite_octets (l : list Z) : W unit :=
  match l with
  | [] => mret ()
  | c :: l => _ ← zwrite_octet c; zwrite_octets l
  end.

(** [for (fcode = (long)hsize; fcode < 65536L; fcode *= 2L) hshift++]. *)
Fixpoint shift_loop (fuel : nat) (fc n : Z) : option (Z * Z) :=
  if fc <? 65536 then
    match fuel with O => None | S fuel => shift_loop fuel (fc * 2) (n + 1) end
  else Some (fc, n).

Definition zwrite_first (c : Z) : W unit :=
  _ ← modify (set_state S_MIDDLE);
  _ ← modify (fun s => set_maxmaxcode (Z.shiftl 1 (maxbits s)) s);
  _ ← modify (fun s => set_fp (fp s ++ magic_header) s);
  _ ← modify (fun s => set_fp (fp s ++ [u8 (Z.lor (maxbits s) (block_compress s))]) s);
  _ ← modify (set_offset 0);
  _ ← modify (set_bytes_out 3);
  _ ← modify (set_out_count 0);
  _ ← modify (set_clear_flg 0);
  _ ← modify (set_ratio 0);
  _ ← modify (set_in_count 1);
  _ ← modify (set_checkpoint CHECK_GAP);
  _ ← modify (set_n_bits INIT_BITS);
  _ ← modify (set_maxcode (MAXCODE INIT_BITS));
  _ ← modify (fun s => set_free_ent (if negb (block_compress s =? 0) then FIRST else 256) s);
  _ ← modify (set_ent c);
  n ← gets hsize;
  match shift_loop 17 n 0 with
  | None => leave NoFuel
  | Some (fc, sh) =>
      _ ← modify (set_fcode fc);
      _ ← modify (set_hshift (8 - sh));
      _ ← modify (set_hsize_reg n);
      cl_hash n
  end.

Definition zwrite (l : list Z) : W Z :=
  let num := Z.of_nat (length l) in
  st ← gets state;
  match l, st with
  | [], _ => mret 0
  | _, S_MIDDLE => _ ← zwrite_octets l; mret num
  | c :: l, _ => _ ← zwrite_first c; _ ← zwrite_octets l; mret num
  end.

(** [zclose] of a stream that is written. *)
Definition zclose : W unit :=
  e ← gets ent;
  _ ← modify (output e);
  _ ← modify (fun s => set_out_count (out_count s + 1) s);
  modify (output (-1)).

End Writer.

(** ** Reading *)

Module Reader.

Record zs := mkZs {
  fp : list Z; errno : option error; state : zstate; n_bits : Z; maxbits : Z; maxcode : Z;
  maxmaxcode : Z; tab_prefix : Z -> Z; tab_suffix : Z -> Z; free_ent : Z; block_compress : Z;
  clear_flg : Z; stack : list Z; finchar : Z; code : Z; oldcode : Z; incode : Z; roffset : Z;
  size : Z; gbuf : list Z }.

Definition set_fp v (s : zs) := mkZs v (errno s) (state s) (n_bits s) (maxbits s) (maxcode s)
  (maxmaxcode s) (tab_prefix s) (tab_suffix s) (free_ent s) (block_compress s) (clear_flg s)
  (stack s) (finchar s) (code s) (oldcode s) (incode s) (roffset s) (size s) (gbuf s).
Definition set_errno v (s : zs) := mkZs (fp s) v (state s) (n_bits s) (maxbits s) (maxcode s)
  (maxmaxcode s) (tab_prefix s) (tab_suffix s) (free_ent s) (block_compress s) (clear_flg s)
  (stack s) (finchar s) (code s) (oldcode s) (incode s) (roffset s) (size s) (gbuf s).
Definition set_state v (s : zs) := mkZs (fp s) (errno s) v (n_bits s) (maxbits s) (maxcode s)
  (maxmaxcode s) (tab_prefix s) (tab_suffix s) (free_ent s) (block_compress s) (clear_flg s)
  (stack s) (finchar s) (code s) (oldcode s) (incode s) (roffset s) (size s) (gbuf s).
Definition set_n_bits v (s : zs) := mkZs (fp s) (errno s) (state s) v (maxbits s) (maxcode s)
  (maxmaxcode s) (tab_prefix s) (tab_suffix s) (free_ent s) (block_compress s) (clear_flg s)
  (stack s) (finchar s) (code s) (oldcode s) (incode s) (roffset s) (size s) (gbuf s).
Definition set_maxbits v (s : zs) := mkZs (fp s) (errno s) (state s) (n_bits s) v (maxcode s)
  (maxmaxcode s) (tab_prefix s) (tab_suffix s) (free_ent s) (block_compress s) (clear_flg s)
  (stack s) (finchar s) (code s) (oldcode s) (incode s) (roffset s) (size s) (gbuf s).
Definition set_maxcode v (s : zs) := mkZs (fp s) (errno s) (state s) (n_bits s) (maxbits s) v
  (maxmaxcode s) (tab_prefix s) (tab_suffix s) (free_ent s) (block_compress s) (clear_flg s)
  (stack s) (finchar s) (code s) (oldcode s) (incode s) (roffset s) (size s) (gbuf s).
Definition set_maxmaxcode v (s : zs) := mkZs (fp s) (errno s) (state s) (n_bits s) (maxbits s)
  (maxcode s) v (tab_prefix s) (tab_suffix s) (free_ent s) (block_compress s) (clear_flg s)
  (stack s) (finchar s) (code s) (oldcode s) (incode s) (roffset s) (size s) (gbuf s).
Definition set_tab_prefix v (s : zs) := mkZs (fp s) (errno s) (state s) (n_bits s) (maxbits s)
  (maxcode s) (maxmaxcode s) v (tab_suffix s) (free_ent s) (block_compress s) (clear_flg s)
  (stack s) (finchar s) (code s) (oldcode s) (incode s) (roffset s) (size s) (gbuf s).
Definition set_tab_suffix v (s : zs) := mkZs (fp s) (errno s) (state s) (n_bits s) (maxbits s)
  (maxcode s) (maxmaxcode s) (tab_prefix s) v (free_ent s) (block_compress s) (clear_flg s)
  (stack s) (finchar s) (code s) (oldcode s) (incode s) (roffset s) (size s) (gbuf s).
Definition set_free_ent v (s : zs) := mkZs (fp s) (errno s) (state s) (n_bits s) (maxbits s)
  (maxcode s) (maxmaxcode s) (tab_prefix s) (tab_suffix s) v (block_compress s) (clear_flg s)
  (stack s) (finchar s) (code s) (oldcode s) (incode s) (roffset s) (size s) (gbuf s).
Definition set_block_compress v (s : zs) := mkZs (fp s) (errno s) (state s) (n_bits s) (maxbits
  s) (maxcode s) (maxmaxcode s) (tab_prefix s) (tab_suffix s) (free_ent s) v (clear_flg s)
  (stack s) (finchar s) (code s) (oldcode s) (incode s) (roffset s) (size s) (gbuf s).
Definition set_clear_flg v (s : zs) := mkZs (fp s) (errno s) (state s) (n_bits s) (maxbits s)
  (maxcode s) (maxmaxcode s) (tab_prefix s) (tab_suffix s) (free_ent s) (block_compress s) v
  (stack s) (finchar s) (code s) (oldcode s) (incode s) (roffset s) (size s) (gbuf s).
Definition set_stack v (s : zs) := mkZs (fp s) (errno s) (state s) (n_bits s) (maxbits s)
  (maxcode s) (maxmaxcode s) (tab_prefix s) (tab_suffix s) (free_ent s) (block_compress s)
  (clear_flg s) v (finchar s) (code s) (oldcode s) (incode s) (roffset s) (size s) (gbuf s).
Definition set_finchar v (s : zs) := mkZs (fp s) (errno s) (state s) (n_bits s) (maxbits s)
  (maxcode s) (maxmaxcode s) (tab_prefix s) (tab_suffix s) (free_ent s) (block_compress s)
  (clear_flg s) (stack s) v (code s) (oldcode s) (incode s) (roffset s) (size s) (gbuf s).
Definition set_code v (s : zs) := mkZs (fp s) (errno s) (state s) (n_bits s) (maxbits s)
  (maxcode s) (maxmaxcode s) (tab_prefix s) (tab_suffix s) (free_ent s) (block_compress s)
  (clear_flg s) (stack s) (finchar s) v (oldcode s) (incode s) (roffset s) (size s) (gbuf s).
Definition set_oldcode v (s : zs) := mkZs (fp s) (errno s) (state s) (n_bits s) (maxbits s)
  (maxcode s) (maxmaxcode s) (tab_prefix s) (tab_suffix s) (free_ent s) (block_compress s)
  (clear_flg s) (stack s) (finchar s) (code s) v (incode s) (roffset s) (size s) (gbuf s).
Definition set_incode v (s : zs) := mkZs (fp s) (errno s) (state s) (n_bits s) (maxbits s)
  (maxcode s) (maxmaxcode s) (tab_prefix s) (tab_suffix s) (free_ent s) (block_compress s)
  (clear_flg s) (stack s) (finchar s) (code s) (oldcode s) v (roffset s) (size s) (gbuf s).
Definition set_roffset v (s : zs) := mkZs (fp s) (errno s) (state s) (n_bits s) (maxbits s)
  (maxcode s) (maxmaxcode s) (tab_prefix s) (tab_suffix s) (free_ent s) (block_compress s)
  (clear_flg s) (stack s) (finchar s) (code s) (oldcode s) (incode s) v (size s) (gbuf s).
Definition set_size v (s : zs) := mkZs (fp s) (errno s) (state s) (n_bits s) (maxbits s)
  (maxcode s) (maxmaxcode s) (tab_prefix s) (tab_suffix s) (free_ent s) (block_compress s)
  (clear_flg s) (stack s) (finchar s) (code s) (oldcode s) (incode s) (roffset s) v (gbuf s).
Definition set_gbuf v (s : zs) := mkZs (fp s) (errno s) (state s) (n_bits s) (maxbits s)
  (maxcode s) (maxmaxcode s) (tab_prefix s) (tab_suffix s) (free_ent s) (block_compress s)
  (clear_flg s) (stack s) (finchar s) (code s) (oldcode s) (incode s) (roffset s) (size s) v.

Abbreviation R := (M halt zs).

(** [zopen(fname, "r", bits)] of a file with the octets [file]. *)
Definition zopen (file : list Z) (bits : Z) : option zs :=
  if bits_ok bits then
    Some (mkZs file None S_START 0 (bits_of bits) 0 (Z.shiftl 1 (bits_of bits)) (fun _ => 0) (fun _ => 0) 0
      BLOCK_MASK 0 [] 0 0 0 0 0 0 (replicate (Z.to_nat BITS) 0))
  else None.

Definition fread (n : Z) : R (list Z) :=
  l ← gets fp;
  _ ← modify (set_fp (drop (Z.to_nat n) l));
  mret (take (Z.to_nat n) l).

(** The next code is longer than what the buffer was read for, or the table was cleared. *)
Definition widen (s : zs) : zs :=
  let s := if maxcode s <? free_ent s then
             let s := set_n_bits (n_bits s + 1) s in
             set_maxcode (if n_bits s =? maxbits s then maxmaxcode s else MAXCODE (n_bits s)) s
           else s in
  if 0 <? clear_flg s then set_clear_flg 0 (set_maxcode (MAXCODE INIT_BITS) (set_n_bits INIT_BITS s)) else s.

Definition getcode : R Z :=
  s ← get;
  fresh ← (if (0 <? clear_flg s) || (size s <=? roffset s) || (maxcode s <? free_ent s) then
    _ ← modify widen;
    n ← gets n_bits;
    l ← fread n;
    _ ← modify (fun s => set_gbuf (l ++ drop (length l) (gbuf s)) s);
    let sz := Z.of_nat (length l) in
    _ ← modify (set_size sz);
    if sz <=? 0 then mret false
    else
      _ ← modify (set_roffset 0);
      _ ← modify (set_size (Z.shiftl sz 3 - (n - 1)));
      mret true
    else mret true);
  if negb fresh then mret (-1)
  else
    s ← get;
    _ ← modify (set_roffset (roffset s + n_bits s));
    mret (get_code (gbuf s) (roffset s) (n_bits s)).

(** The octets of [htab] behind [tab_suffix]. *)
Definition DE_STACK_SIZE : Z := HSIZE * 8 - Z.shiftl 1 BITS.

Definition push (c : Z) : R unit :=
  l ← gets stack;
  if DE_STACK_SIZE <=? Z.of_nat (length l) then leave Crash else modify (set_stack (u8 c :: l)).

(** [for (code = 255; code >= 0; code--)]. *)
Fixpoint first_codes (n : nat) (v : Z -> Z) (t : Z -> Z) : Z -> Z :=
  match n with O => t | S n => first_codes n v (<[Z.of_nat n := v (Z.of_nat n)]> t) end.
Definition clear_prefix : R unit :=
  modify (fun s => set_tab_prefix (first_codes 256 (fun _ => 0) (tab_prefix s)) s).
Definition init_suffix : R unit :=
  modify (fun s => set_tab_suffix (first_codes 256 (fun c => c) (tab_suffix s)) s).

(** [while (code >= 256)]. *)
Fixpoint unwind (fuel : nat) : R unit :=
  s ← get;
  if code s <? 256 then mret ()
  else
    match fuel with
    | O => leave NoFuel
    | S fuel =>
        _ ← push (tab_suffix s (code s));
        _ ← modify (set_code (tab_prefix s (code s)));
        unwind fuel
    end.

(** A code, but [CLEAR], to the stack; false: it is not possible here. *)
Definition decode : R bool :=
  _ ← modify (fun s => set_incode (code s) s);
  s ← get;
  good ← (if free_ent s <=? code s then
            if (free_ent s <? code s) || (oldcode s =? -1) then
              _ ← modify (set_errno (Some EINVAL)); mret false
            else
              _ ← push (finchar s);
              _ ← modify (set_code (oldcode s));
              mret true
          else mret true);
  if negb good then mret false
  else
    _ ← unwind (S (Z.to_nat DE_STACK_SIZE));
    _ ← modify (fun s => set_finchar (tab_suffix s (code s)) s);
    f ← gets finchar;
    _ ← push f;
    mret true.

Definition new_entry : R unit :=
  _ ← modify (fun s => set_code (free_ent s) s);
  s ← get;
  _ ← mwhen ((code s <? maxmaxcode s) && negb (oldcode s =? -1))
        (_ ← modify (set_tab_prefix (<[code s := u16 (oldcode s)]> (tab_prefix s)));
         _ ← modify (set_tab_suffix (<[code s := u8 (finchar s)]> (tab_suffix s)));
         modify (set_free_ent (code s + 1)));
  modify (fun s => set_oldcode (incode s) s).

(** The [do ... while (stackp > de_stack)]: what is put out of the stack [l] when [count]
    octets are asked for, what is left of it, and of [count] when it is empty. *)
Inductive popped := Full (l out : list Z) | Empty (count : Z) (out : list Z).
Fixpoint pop (l : list Z) (count : Z) (out : list Z) : option popped :=
  if count =? 0 then Some (Full l out)
  else
    match l with
    | [] => None
    | c :: [] => Some (Empty (count - 1) (out ++ [c]))
    | c :: l => pop l (count - 1) (out ++ [c])
    end.

(** From [middle] on; [again] is the next turn of the loop. *)
Definition middle (again : Z -> list Z -> R (Z * list Z)) (num count : Z) (out : list Z) : R (Z * list Z) :=
  l ← gets stack;
  match pop l count out with
  | None => leave Crash
  | Some (Full l out) => _ ← modify (set_stack l); mret (num, out)
  | Some (Empty count out) => _ ← modify (set_stack []); _ ← new_entry; again count out
  end.

Fixpoint zread_loop (fuel : nat) (num count : Z) (out : list Z) : R (Z * list Z) :=
  match fuel with
  | O => leave NoFuel
  | S fuel =>
      c ← getcode;
      _ ← modify (set_code c);
      b ← gets block_compress;
      if c <=? -1 then _ ← modify (set_state S_EOF); mret (num - count, out)
      else if (c =? CLEAR) && negb (b =? 0) then
        _ ← clear_prefix;
        _ ← modify (set_code (-1));
        _ ← modify (set_clear_flg 1);
        _ ← modify (set_free_ent FIRST);
        _ ← modify (set_oldcode (-1));
        zread_loop fuel num count out
      else
        good ← decode;
        if negb good then mret (-1, out)
        else middle (zread_loop fuel num) num count out
  end.

(** Enough turns: a code has nine bits or more. *)
Definition turns (s : zs) : nat := S (8 * length (fp s) + 8 * Z.to_nat BITS).

Definition zread_first (num : Z) : R (Z * list Z) :=
  _ ← modify (set_state S_MIDDLE);
  header ← fread 3;
  let bad := _ ← modify (set_errno (Some EFTYPE)); mret (-1, []) in
  match header with
  | [m0; m1; b] =>
      if negb (bool_decide ([m0; m1] = magic_header)) then bad
      else
        _ ← modify (set_block_compress (Z.land b BLOCK_MASK));
        _ ← modify (set_maxbits (Z.land b BIT_MASK));
        _ ← modify (fun s => set_maxmaxcode (Z.shiftl 1 (maxbits s)) s);
        mb ← gets maxbits;
        if (BITS <? mb) || (mb <? 12) then bad
        else
          _ ← modify (set_n_bits INIT_BITS);
          _ ← modify (set_maxcode (MAXCODE INIT_BITS));
          _ ← clear_prefix;
          _ ← init_suffix;
          _ ← modify (set_code (-1));
          _ ← modify (fun s => set_free_ent (if negb (block_compress s =? 0) then FIRST else 256) s);
          c ← getcode;
          _ ← modify (set_oldcode c);
          _ ← modify (set_finchar c);
          if c =? -1 then mret (0, [])
          else
            _ ← modify (set_stack []);
            n ← gets turns;
            zread_loop n num (num - 1) [u8 c]
  | _ => bad
  end.

Definition zread (num : Z) : R (Z * list Z) :=
  if num =? 0 then mret (0, [])
  else
    st ← gets state;
    match st with
    | S_START => zread_first num
    | S_MIDDLE => n ← gets turns; middle (zread_loop n num) num num []
    | S_EOF => mret (0, [])
    end.

End Reader.
