(* ===== verification/CompressBits.v ===== *)
(** * compress: codes in the buffer

    [put_code] and [get_code] work on the octets that a code lies on.  Seen as bits, [put_code]
    changes the bits of its place to those of the code and no bit in front of it, and
    [get_code] returns the bits of its place. *)

From Stdlib Require Import ZArith Lia List Bool.
From stdpp Require Import base tactics list numbers.
From S2P Require Import Prelude Compress.

Local Open Scope Z_scope.

Definition octet (c : Z) : Prop := 0 <= c < 256.

(** Bit [j] of a buffer. *)
Definition bit_at (b : list Z) (j : Z) : bool := Z.testbit (byte_at b (Z.to_nat (j / 8))) (j mod 8).

Lemma byte_at_put b i x : (i < length b)%nat -> byte_at (<[i := x]> b) i = x.
Proof. intros Hi. unfold byte_at. by rewrite list_lookup_insert_eq. Qed.

Lemma byte_at_other b i k x : i <> k -> byte_at (<[i := x]> b) k = byte_at b k.
Proof. intros Hi. unfold byte_at. by rewrite list_lookup_insert_ne. Qed.

Lemma byte_at_octet b i : Forall octet b -> octet (byte_at b i).
Proof.
  intros Hb. unfold byte_at. destruct (b !! i) as [x|] eqn:E; [|unfold octet; simpl; lia].
  by eapply Forall_lookup_1 in E.
Qed.

Lemma octet_bits c i : octet c -> 8 <= i -> Z.testbit c i = false.
Proof.
  intros Hc Hi. unfold octet in Hc. destruct (decide (c = 0)) as [->|]; [by rewrite Z.bits_0|].
  apply Z.bits_above_log2; [lia|]. apply Z.log2_lt_pow2; [lia|]. pose proof (Z.pow_le_mono_r 2 8 i). lia.
Qed.

Lemma u8_bit x i : 0 <= i < 8 -> Z.testbit (u8 x) i = Z.testbit x i.
Proof. intros Hi. unfold uwrap. by rewrite Z.mod_pow2_bits_low by lia. Qed.

Lemma u8_octet x : octet (u8 x).
Proof. apply uwrap_range. lia. Qed.

Lemma rmask_bit r i : 0 <= r <= 8 -> 0 <= i -> Z.testbit (rmask r) i = (i <? r).
Proof.
  intros Hr Hi. assert (rmask r = Z.ones r) as ->.
  { assert (r = 0 \/ r = 1 \/ r = 2 \/ r = 3 \/ r = 4 \/ r = 5 \/ r = 6 \/ r = 7 \/ r = 8) as Hc by lia.
    by destruct Hc as [->|[->|[->|[->|[->|[->|[->|[->| ->]]]]]]]]. }
  destruct (Z.ltb_spec i r); [by apply Z.ones_spec_low|apply Z.ones_spec_high; lia].
Qed.

Lemma lmask_bit r i : 0 <= r <= 7 -> 0 <= i -> Z.testbit (lmask r) i = (r <=? i) && (i <? 8).
Proof.
  intros Hr Hi. assert (lmask r = Z.shiftl (Z.ones (8 - r)) r) as ->.
  { assert (r = 0 \/ r = 1 \/ r = 2 \/ r = 3 \/ r = 4 \/ r = 5 \/ r = 6 \/ r = 7) as Hc by lia.
    by destruct Hc as [->|[->|[->|[->|[->|[->|[->| ->]]]]]]]. }
  rewrite Z.shiftl_spec by done. destruct (Z.leb_spec r i); [|by rewrite Z.testbit_neg_r by lia].
  destruct (Z.ltb_spec i 8); [by apply Z.ones_spec_low; lia|apply Z.ones_spec_high; lia].
Qed.

Lemma first_octet a c r :
  octet a -> 0 <= r <= 7 -> octet (Z.lor (Z.land a (rmask r)) (Z.land (Z.shiftl c r) (lmask r))).
Proof.
  intros Ha Hr. set (x := Z.lor _ _).
  assert (x = x mod 2 ^ 8) as ->; [|apply Z.mod_pos_bound; lia].
  apply Z.bits_inj'. intros i Hi. destruct (Z.ltb_spec i 8).
  - by rewrite Z.mod_pow2_bits_low.
  - rewrite Z.mod_pow2_bits_high by lia. unfold x. rewrite Z.lor_spec, !Z.land_spec, rmask_bit, lmask_bit by lia.
    destruct (Z.ltb_spec i r); [lia|]. destruct (Z.ltb_spec i 8); [lia|]. by rewrite !andb_false_r.
Qed.

Lemma first_bit a c r i :
  0 <= r <= 7 -> 0 <= i < 8 ->
  Z.testbit (Z.lor (Z.land a (rmask r)) (Z.land (Z.shiftl c r) (lmask r))) i =
  if i <? r then Z.testbit a i else Z.testbit c (i - r).
Proof.
  intros Hr Hi. rewrite Z.lor_spec, !Z.land_spec, rmask_bit, lmask_bit, Z.shiftl_spec by lia.
  destruct (Z.ltb_spec i r), (Z.leb_spec r i), (Z.ltb_spec i 8); try lia;
    rewrite ?andb_true_r, ?andb_false_r, ?orb_false_r; done.
Qed.

(** The place of a code: octet [q], bit [r] of it. *)
Lemma place off : 0 <= off ->
  Z.to_nat (Z.shiftr off 3) = Z.to_nat (off / 8) /\ Z.land off 7 = off mod 8 /\
  off = 8 * (off / 8) + off mod 8 /\ 0 <= off mod 8 < 8 /\ 0 <= off / 8.
Proof.
  intros Ho. rewrite Z.shiftr_div_pow2 by lia. change (2 ^ 3) with 8.
  change 7 with (Z.ones 3). rewrite Z.land_ones by lia. change (2 ^ 3) with 8.
  pose proof (Z.div_mod off 8). pose proof (Z.mod_pos_bound off 8). pose proof (Z.div_pos off 8).
  split_and!; try done; lia.
Qed.

Section Put.
Context (b : list Z) (off n c : Z).
Hypothesis (Hlen : length b = 16%nat) (Hb : Forall octet b) (Hoff : 0 <= off) (Hn : 9 <= n <= 16)
  (Hfit : off + n <= 128).

Lemma put_code_length : length (put_code b off n c) = 16%nat.
Proof. unfold put_code. cbv zeta. repeat case_match; by rewrite ?length_insert. Qed.

Lemma put_code_octets : Forall octet (put_code b off n c).
Proof.
  destruct (place off Hoff) as (_ & Er & _ & Hr & _). unfold put_code. cbv zeta. rewrite !Er.
  repeat case_match; repeat (apply Forall_insert; [|try apply u8_octet]); try done;
    apply first_octet; (by apply byte_at_octet) || lia.
Qed.

(** Octet [k] with the bits in front of the code and those of the code. *)
Lemma put_code_bit k i :
  0 <= k -> 0 <= i < 8 -> 8 * k + i < off + n ->
  Z.testbit (byte_at (put_code b off n c) (Z.to_nat k)) i =
  if 8 * k + i <? off then Z.testbit (byte_at b (Z.to_nat k)) i else Z.testbit c (8 * k + i - off).
Proof.
  intros Hk Hi Hin. destruct (place off Hoff) as (Eq & Er & E & Hr & Hq). unfold put_code. cbv zeta.
  rewrite !Eq, !Er. set (q := off / 8) in *. set (r := off mod 8) in *.
  rewrite (uwrap_small 32) by lia.
  assert (Z.to_nat q < 16)%nat as Hq16 by lia.
  assert (8 <= n - (8 - r) -> n - (8 - r) - 8 <> 0 -> (S (S (Z.to_nat q)) < 16)%nat) as A2 by lia.
  assert (S (Z.to_nat q) < 16)%nat as A1 by lia.
  set (b1 := <[Z.to_nat q := _]> b).
  assert (length b1 = 16%nat) as L1 by (unfold b1; by rewrite length_insert).
  assert (k < q \/ k = q \/ k = q + 1 \/ k = q + 2) as Hcases by lia.
  assert (k < q -> byte_at b1 (Z.to_nat k) = byte_at b (Z.to_nat k)) as Bl.
  { intros Hlt. apply byte_at_other. lia. }
  assert (k = q -> Z.testbit (byte_at b1 (Z.to_nat k)) i =
    if 8 * k + i <? off then Z.testbit (byte_at b (Z.to_nat k)) i else Z.testbit c (8 * k + i - off)) as Bq.
  { intros ->. unfold b1. rewrite byte_at_put, first_bit by lia.
    destruct (Z.ltb_spec i r), (Z.ltb_spec (8 * q + i) off); try lia; [done|]. f_equal. lia. }
  assert (q < k -> (8 * k + i <? off) = false) as Hlater by (intros; apply Z.ltb_ge; lia).
  destruct (Z.leb_spec 8 (n - (8 - r))); [destruct (Z.eqb_spec (n - (8 - r) - 8) 0)|destruct (Z.eqb_spec (n - (8 - r)) 0); [lia|]];
    (destruct Hcases as [Hc|[Hc|[Hc|Hc]]];
     [rewrite !byte_at_other, (Bl Hc) by lia; destruct (Z.ltb_spec (8 * k + i) off); [done|lia]
     |rewrite !byte_at_other by lia; by apply Bq
     |rewrite Hlater by lia; replace (Z.to_nat k) with (S (Z.to_nat q)) by lia
     |rewrite Hlater by lia; replace (Z.to_nat k) with (S (S (Z.to_nat q))) by lia]).
  all: try lia.
  all: rewrite ?(byte_at_other _ (S (S (Z.to_nat q)))) by lia.
  all: rewrite byte_at_put, u8_bit, ?Z.shiftr_spec by (rewrite ?length_insert; lia).
  all: f_equal; lia.
Qed.

Lemma put_code_before j : 0 <= j < off -> bit_at (put_code b off n c) j = bit_at b j.
Proof.
  intros Hj. unfold bit_at. pose proof (Z.div_mod j 8). pose proof (Z.mod_pos_bound j 8).
  rewrite put_code_bit by (lia || (apply Z.div_pos; lia)).
  destruct (Z.ltb_spec (8 * (j / 8) + j mod 8) off); [done|lia].
Qed.

Lemma put_code_here i : 0 <= i < n -> bit_at (put_code b off n c) (off + i) = Z.testbit c i.
Proof.
  intros Hi. unfold bit_at. set (j := off + i).
  pose proof (Z.div_mod j 8). pose proof (Z.mod_pos_bound j 8).
  rewrite put_code_bit by (lia || (apply Z.div_pos; lia)).
  destruct (Z.ltb_spec (8 * (j / 8) + j mod 8) off); [lia|]. f_equal. lia.
Qed.

End Put.

(** ** Reading *)

Section Get.
Context (g : list Z) (off n : Z).
Hypothesis (Hg : Forall octet g) (Hoff : 0 <= off) (Hn : 9 <= n <= 16).

Lemma get_code_bit i : 0 <= i ->
  Z.testbit (get_code g off n) i = (i <? n) && bit_at g (off + i).
Proof.
  intros Hi. destruct (place off Hoff) as (Eq & Er & E & Hr & Hq). unfold get_code, bit_at. cbv zeta.
  rewrite !Eq, !Er. set (q := off / 8) in *. set (r := off mod 8) in *.
  assert (forall k i, octet (byte_at g k) /\ (8 <= i -> Z.testbit (byte_at g k) i = false)) as Ho.
  { intros k j. split; [by apply byte_at_octet|]. intros Hj. apply octet_bits; [by apply byte_at_octet|lia]. }
  set (j := off + i). pose proof (Z.div_mod j 8). pose proof (Z.mod_pos_bound j 8).
  assert (0 <= j / 8) by (apply Z.div_pos; lia).
  assert (i < 8 - r -> j / 8 = q /\ j mod 8 = i + r) as C0 by lia.
  assert (8 - r <= i < 16 - r -> j / 8 = q + 1 /\ j mod 8 = i + r - 8) as C1 by lia.
  assert (16 - r <= i < 24 - r -> j / 8 = q + 2 /\ j mod 8 = i + r - 16) as C2 by lia.
  destruct (Z.leb_spec 8 (n - (8 - r))).
  - rewrite !Z.lor_spec, Z.shiftr_spec, !Z.shiftl_spec, Z.land_spec by done.
    destruct (Z.ltb_spec i (8 - r)) as [A0|A0].
    + destruct (C0 A0) as [-> ->]. rewrite (Z.testbit_neg_r _ (i - (8 - r))) by lia.
      rewrite !(Z.testbit_neg_r _ (i - (8 - r + 8))) by lia. destruct (Z.ltb_spec i n); [|lia].
      by rewrite !orb_false_r.
    + rewrite (proj2 (Ho _ _)) by lia. cbn [orb]. destruct (Z.ltb_spec i (16 - r)) as [A1|A1].
      * destruct (C1 (conj A0 A1)) as [-> ->]. rewrite !(Z.testbit_neg_r _ (i - (8 - r + 8))) by lia.
        destruct (Z.ltb_spec i n); [|lia]. rewrite orb_false_r. cbn [andb].
        replace (Z.to_nat (q + 1)) with (S (Z.to_nat q)) by lia. f_equal. lia.
      * rewrite (proj2 (Ho (S (Z.to_nat q)) (i - (8 - r)))) by lia. cbn [orb].
        rewrite rmask_bit by lia. destruct (Z.ltb_spec i n) as [A2|A2].
        -- destruct (C2 ltac:(lia)) as [-> ->]. destruct (Z.ltb_spec (i - (8 - r + 8)) (n - (8 - r) - 8)); [|lia].
           replace (Z.to_nat (q + 2)) with (S (S (Z.to_nat q))) by lia. rewrite andb_true_r. cbn [andb]. f_equal. lia.
        -- destruct (Z.ltb_spec (i - (8 - r + 8)) (n - (8 - r) - 8)); [lia|]. by rewrite andb_false_r.
  - rewrite !Z.lor_spec, Z.shiftr_spec, !Z.shiftl_spec, Z.land_spec by done.
    destruct (Z.ltb_spec i (8 - r)) as [A0|A0].
    + destruct (C0 A0) as [-> ->]. rewrite !(Z.testbit_neg_r _ (i - (8 - r))) by lia.
      destruct (Z.ltb_spec i n); [|lia]. by rewrite !orb_false_r.
    + rewrite (proj2 (Ho _ _)) by lia. cbn [orb]. rewrite rmask_bit by lia.
      destruct (Z.ltb_spec i n) as [A2|A2].
      * destruct (C1 ltac:(lia)) as [-> ->]. destruct (Z.ltb_spec (i - (8 - r)) (n - (8 - r))); [|lia].
        replace (Z.to_nat (q + 1)) with (S (Z.to_nat q)) by lia. rewrite andb_true_r. cbn [andb]. f_equal. lia.
      * destruct (Z.ltb_spec (i - (8 - r)) (n - (8 - r))); [lia|]. by rewrite andb_false_r.
Qed.

Lemma get_code_is c :
  0 <= c < 2 ^ n -> (forall i, 0 <= i < n -> bit_at g (off + i) = Z.testbit c i) -> get_code g off n = c.
Proof.
  intros Hc Hbits. apply Z.bits_inj'. intros i Hi. rewrite get_code_bit by done.
  destruct (Z.ltb_spec i n); [by apply Hbits|]. cbn [andb]. symmetry.
  destruct (decide (c = 0)) as [->|]; [by rewrite Z.bits_0|].
  apply Z.bits_above_log2; [lia|]. apply Z.log2_lt_pow2; [lia|]. pose proof (Z.pow_le_mono_r 2 n i). lia.
Qed.

Lemma get_code_range : 0 <= get_code g off n < 2 ^ n.
Proof.
  assert (get_code g off n = get_code g off n mod 2 ^ n) as ->; [|apply Z.mod_pos_bound; lia].
  apply Z.bits_inj'. intros i Hi. destruct (Z.ltb_spec i n).
  - by rewrite Z.mod_pow2_bits_low.
  - rewrite Z.mod_pow2_bits_high by lia. rewrite get_code_bit by done. destruct (Z.ltb_spec i n); [lia|done].
Qed.

End Get.
