(* ===== verification/CompressStream.v ===== *)
(** * compress: the stream of codes

    The writer packs up to eight codes of the same width into a group, and ends a group early
    when the width changes.  [emit] is the octets that a list of codes becomes; [output]
    writes them, and the reader's [getcode] takes the codes out again when it changes the
    width where the writer did. *)

From Stdlib Require Import ZArith Lia List Bool.
From stdpp Require Import base tactics list numbers functions.
From S2P Require Import Prelude Compress CompressBits.

Local Open Scope Z_scope.

(** A code, and the width of what follows when it ends its group. *)
Abbreviation event := (Z * option Z)%type.

(** What is written from now on, the octets of the group [b] with its [off] bits included. *)
Fixpoint emit (evs : list event) (b : list Z) (off n : Z) : list Z :=
  match evs with
  | [] => if 0 <? off then take (Z.to_nat ((off + 7) / 8)) b else []
  | (c, after) :: evs =>
      let b := put_code b off n c in
      match after with
      | Some n' => take (Z.to_nat n) b ++ emit evs b 0 n'
      | None =>
          if off + n =? 8 * n then take (Z.to_nat n) b ++ emit evs b 0 n
          else emit evs b (off + n) n
      end
  end.

Definition width (n : Z) : Prop := 9 <= n <= 16.

Fixpoint codes_fit (evs : list event) (n : Z) : Prop :=
  width n /\
  match evs with
  | [] => True
  | (c, after) :: evs => 0 <= c < 2 ^ n /\ codes_fit evs (default n after)
  end.

Lemma codes_fit_width evs n : codes_fit evs n -> width n.
Proof. destruct evs as [|[]]; by intros []. Qed.

(** A group under construction. *)
Definition group (b : list Z) (off n : Z) : Prop :=
  length b = 16%nat /\ Forall octet b /\ width n /\ exists k, 0 <= k < 8 /\ off = k * n.

Lemma group_put b off n c : group b off n -> off + n <> 8 * n -> group (put_code b off n c) (off + n) n.
Proof.
  intros (Hl & Hb & Hn & k & Hk & ->) Hne. unfold width in Hn.
  split; [apply put_code_length; try done; nia|]. split; [apply put_code_octets; try done; nia|].
  split; [done|]. exists (k + 1). split; [|lia]. assert (k + 1 <> 8) by (intros E; apply Hne; nia). lia.
Qed.

Lemma group_new b off n c n' : group b off n -> width n' -> group (put_code b off n c) 0 n'.
Proof.
  intros (Hl & Hb & Hn & k & Hk & ->) Hn'. unfold width in Hn.
  split; [apply put_code_length; try done; nia|]. split; [apply put_code_octets; try done; nia|].
  split; [done|]. exists 0. lia.
Qed.

Lemma group_bounds b off n : group b off n -> 0 <= off /\ off + n <= 8 * n /\ off + n <= 128 /\ width n.
Proof. intros (_ & _ & Hn & k & Hk & ->). unfold width in *. split_and!; nia. Qed.

Lemma byte_at_app_l a l i : (i < length a)%nat -> byte_at (a ++ l) i = byte_at a i.
Proof. intros Hi. unfold byte_at. by rewrite lookup_app_l. Qed.

Lemma byte_at_take n l i : (i < n)%nat -> byte_at (take n l) i = byte_at l i.
Proof. intros Hi. unfold byte_at. by rewrite lookup_take_lt. Qed.

Lemma bit_at_take n l j : 0 <= j < 8 * Z.of_nat n -> bit_at (take n l) j = bit_at l j.
Proof. intros Hj. unfold bit_at. rewrite byte_at_take; [done|]. pose proof (Z.div_lt_upper_bound j 8 (Z.of_nat n)). lia. Qed.

Lemma bit_at_app_l a l j : 0 <= j < 8 * Z.of_nat (length a) -> bit_at (a ++ l) j = bit_at a j.
Proof.
  intros Hj. unfold bit_at. rewrite byte_at_app_l; [done|].
  pose proof (Z.div_lt_upper_bound j 8 (Z.of_nat (length a))). lia.
Qed.

Lemma bit_at_group n b l j :
  length b = 16%nat -> 0 <= j < 8 * n -> n <= 16 -> bit_at (take (Z.to_nat n) b ++ l) j = bit_at b j.
Proof.
  intros Hl Hj Hn. rewrite bit_at_app_l by (rewrite length_take; lia). by rewrite bit_at_take by lia.
Qed.

Lemma ceil8 off : 0 <= off -> off <= 8 * ((off + 7) / 8) <= off + 7.
Proof. intros. pose proof (Z.div_mod (off + 7) 8). pose proof (Z.mod_pos_bound (off + 7) 8). lia. Qed.

(** The bits of the group so far come out as they are. *)
Lemma emit_before evs : forall b off n,
  group b off n -> codes_fit evs n ->
  off <= 8 * Z.of_nat (length (emit evs b off n)) /\
  forall j, 0 <= j < off -> bit_at (emit evs b off n) j = bit_at b j.
Proof.
  induction evs as [|[c after] evs IH]; intros b off n G F.
  - pose proof (group_bounds _ _ _ G) as (Ho & Hf & H8 & Hw). destruct G as (Hl & _). simpl.
    pose proof (ceil8 off Ho). destruct (Z.ltb_spec 0 off); [|split; [simpl; lia|intros j Hj; lia]].
    rewrite length_take. unfold width in Hw. split; [lia|]. intros j Hj. apply bit_at_take. lia.
  - pose proof (group_bounds _ _ _ G) as (Ho & Hf & H8 & Hw). unfold width in Hw. destruct F as (_ & _ & F).
    pose proof G as (Hl & Hb & _). simpl. set (b' := put_code b off n c).
    assert (length b' = 16%nat) as Hl' by by apply put_code_length.
    assert (forall l, off <= 8 * Z.of_nat (length (take (Z.to_nat n) b' ++ l)) /\
      forall j, 0 <= j < off -> bit_at (take (Z.to_nat n) b' ++ l) j = bit_at b j) as Hfull.
    { intros l. split; [rewrite length_app, length_take; lia|]. intros j Hj. rewrite bit_at_group by lia.
      by apply put_code_before. }
    destruct after as [n'|]; [apply Hfull|]. destruct (Z.eqb_spec (off + n) (8 * n)); [apply Hfull|].
    destruct (IH b' (off + n) n (group_put _ _ _ _ G ltac:(lia)) F) as [L E]. split; [lia|].
    intros j Hj. rewrite E by lia. by apply put_code_before.
Qed.

Lemma emit_code c after evs b off n :
  group b off n -> codes_fit ((c, after) :: evs) n ->
  off + n <= 8 * Z.of_nat (length (emit ((c, after) :: evs) b off n)) /\
  forall i, 0 <= i < n -> bit_at (emit ((c, after) :: evs) b off n) (off + i) = Z.testbit c i.
Proof.
  intros G F. pose proof (group_bounds _ _ _ G) as (Ho & Hf & H8 & Hw). unfold width in Hw.
  destruct F as (_ & _ & F). pose proof G as (Hl & Hb & _). simpl. set (b' := put_code b off n c).
  assert (length b' = 16%nat) as Hl' by by apply put_code_length.
  assert (forall i, 0 <= i < n -> bit_at b' (off + i) = Z.testbit c i) as Hc by (intros; by apply put_code_here).
  assert (forall l, off + n <= 8 * Z.of_nat (length (take (Z.to_nat n) b' ++ l)) /\
    forall i, 0 <= i < n -> bit_at (take (Z.to_nat n) b' ++ l) (off + i) = Z.testbit c i) as Hfull.
  { intros l. split; [rewrite length_app, length_take; lia|]. intros j Hj. rewrite bit_at_group by lia. by apply Hc. }
  destruct after as [n'|]; [apply Hfull|]. destruct (Z.eqb_spec (off + n) (8 * n)); [apply Hfull|].
  destruct (emit_before evs b' (off + n) n (group_put _ _ _ _ G ltac:(lia)) F) as [L E]. split; [lia|].
  intros i Hi. rewrite E by lia. by apply Hc.
Qed.

Lemma emit_octets evs : forall b off n, group b off n -> codes_fit evs n -> Forall octet (emit evs b off n).
Proof.
  induction evs as [|[c after] evs IH]; intros b off n G F.
  - destruct G as (_ & Hb & _). simpl. destruct (0 <? off); [by apply Forall_take|done].
  - pose proof (group_bounds _ _ _ G) as (Ho & Hf & H8 & Hw). unfold width in Hw. destruct F as (_ & _ & F).
    pose proof G as (Hl & Hb & _). simpl.
    assert (Forall octet (take (Z.to_nat n) (put_code b off n c))) as Hp by (by apply Forall_take, put_code_octets).
    destruct after as [n'|]; simpl in F; [|destruct (Z.eqb_spec (off + n) (8 * n))].
    + apply Forall_app_2; [done|]. apply IH; [|done]. eapply group_new; [done|by eapply codes_fit_width].
    + apply Forall_app_2; [done|]. apply IH; [|done]. by eapply group_new.
    + apply IH; [|done]. by apply group_put.
Qed.

(** ** The writer *)

Definition no_reset (s : Writer.zs) : Prop := Writer.clear_flg s = 0 \/ Writer.clear_flg s = 1.

(** The width after a code. *)
Definition after_code (s : Writer.zs) : option Z :=
  if 0 <? Writer.clear_flg s then Some INIT_BITS
  else if Writer.maxcode s <? Writer.free_ent s then Some (Writer.n_bits s + 1) else None.

(** The file at the end when the codes [evs] follow. *)
Definition final (evs : list event) (s : Writer.zs) : list Z :=
  Writer.fp s ++ emit evs (Writer.buf s) (Writer.offset s) (Writer.n_bits s).

Definition wgroup (s : Writer.zs) : Prop := group (Writer.buf s) (Writer.offset s) (Writer.n_bits s).

(** What [output] leaves alone. *)
Definition same_table (s s' : Writer.zs) : Prop :=
  Writer.state s' = Writer.state s /\ Writer.maxbits s' = Writer.maxbits s /\
  Writer.maxmaxcode s' = Writer.maxmaxcode s /\ Writer.htab s' = Writer.htab s /\
  Writer.codetab s' = Writer.codetab s /\ Writer.hsize s' = Writer.hsize s /\
  Writer.free_ent s' = Writer.free_ent s /\ Writer.block_compress s' = Writer.block_compress s /\
  Writer.fcode s' = Writer.fcode s /\ Writer.ent s' = Writer.ent s /\
  Writer.hsize_reg s' = Writer.hsize_reg s /\ Writer.hshift s' = Writer.hshift s /\
  Writer.in_count s' = Writer.in_count s /\ Writer.checkpoint s' = Writer.checkpoint s.

Definition next_maxcode (s : Writer.zs) : Z :=
  if 0 <? Writer.clear_flg s then MAXCODE INIT_BITS
  else if Writer.maxcode s <? Writer.free_ent s then
    if Writer.n_bits s + 1 =? Writer.maxbits s then Writer.maxmaxcode s else MAXCODE (Writer.n_bits s + 1)
  else Writer.maxcode s.

Lemma output_code_spec c s :
  0 <= c -> wgroup s -> no_reset s ->
  match after_code s with Some n => width n | None => True end ->
  let s' := Writer.output c s in
  same_table s s' /\ Writer.clear_flg s' = 0 /\ Writer.maxcode s' = next_maxcode s /\
  Writer.n_bits s' = default (Writer.n_bits s) (after_code s) /\ wgroup s' /\
  forall evs, final evs s' = final ((c, after_code s) :: evs) s.
Proof.
  intros Hc G Hr Hafter s'. unfold s', Writer.output. destruct (Z.leb_spec 0 c); [clear s'|lia].
  destruct s as [fp st n mb mc mm ht ct hs fe bc cf ra ck off ic bo oc b fc en hr sh].
  unfold wgroup, no_reset, final, after_code, next_maxcode, same_table, Writer.output_code, Writer.fwrite_buf in *.
  simpl in *. rewrite Z.shiftl_mul_pow2 by lia. change (2 ^ 3) with 8. rewrite (Z.mul_comm n 8).
  pose proof (group_put _ _ _ c G) as Gp. pose proof (fun n' => group_new _ _ _ c n' G) as Gn.
  pose proof (group_bounds _ _ _ G) as (Ho & Hf & H8 & Hw). pose proof G as (Hl & Hb & _).
  unfold width in Hw.
  assert ((0 <? off + n) = true) as Hpos by (apply Z.ltb_lt; lia).
  destruct Hr as [-> | ->]; change (0 <? 0) with false in *; change (0 <? 1) with true in *; simpl;
    rewrite ?orb_false_r, ?orb_true_r.
  - destruct (Z.eqb_spec (off + n) (8 * n)) as [Hfull|Hfull]; simpl; destruct (Z.ltb_spec mc fe); simpl in *;
      rewrite ?Hpos; simpl; split_and!; try done; try (by apply Gn); try (by apply Gp);
      intros evs; by rewrite <- ?app_assoc.
  - destruct (Z.eqb_spec (off + n) (8 * n)) as [Hfull|Hfull]; simpl in *; change (0 <? 1) with true in *;
      rewrite ?orb_true_r, ?Hpos; simpl;
      split_and!; try done; try (by apply Gn); try (intros evs; by rewrite <- ?app_assoc).
Qed.

Lemma output_rest_spec s : wgroup s -> Writer.fp (Writer.output (-1) s) = final [] s.
Proof.
  intros G. unfold Writer.output, Writer.output_rest, final, Writer.fwrite_buf. simpl.
  destruct (Z.ltb_spec 0 (Writer.offset s)); simpl; [done|]. by rewrite app_nil_r.
Qed.

(** ** The reader *)

Definition change (s : Reader.zs) : bool :=
  (0 <? Reader.clear_flg s) || (Reader.maxcode s <? Reader.free_ent s).

(** [evs] are the codes that are left, the first of width [n]; with [ch] the reader takes a new
    group for it. *)
Definition pending (evs : list event) (n : Z) (ch : bool) (fp gbuf : list Z) (roffset size : Z) : Prop :=
  codes_fit evs n /\ length gbuf = 16%nat /\ Forall octet gbuf /\
  exists b off, group b off n /\
    let out := emit evs b off n in
    (off = 0 /\ fp = out /\ (ch = true \/ size <= roffset)) \/
    (0 < off /\ ch = false /\ roffset = off /\
     exists g, g = Nat.min (Z.to_nat n) (length out) /\ fp = drop g out /\ take g gbuf = take g out /\
       size = 8 * Z.of_nat g - (n - 1)).

Definition set_io f g r z (s : Reader.zs) : Reader.zs :=
  Reader.set_size z (Reader.set_roffset r (Reader.set_gbuf g (Reader.set_fp f s))).

Lemma widen_same s : change s = false -> Reader.widen s = s.
Proof.
  unfold change, Reader.widen. intros [H1 H2]%orb_false_iff. by rewrite H2, H1.
Qed.

Lemma widen_io s : Reader.fp (Reader.widen s) = Reader.fp s /\ Reader.gbuf (Reader.widen s) = Reader.gbuf s /\
  Reader.roffset (Reader.widen s) = Reader.roffset s.
Proof. unfold Reader.widen. repeat case_match; done. Qed.

Lemma refill_cond s :
  ((0 <? Reader.clear_flg s) || (Reader.size s <=? Reader.roffset s) || (Reader.maxcode s <? Reader.free_ent s)) =
  change s || (Reader.size s <=? Reader.roffset s).
Proof. unfold change. by destruct (0 <? _), (_ <=? _), (_ <? _). Qed.

(** [getcode] on the fields it works on. *)
Lemma getcode_run s :
  Reader.getcode s =
  let s1 := Reader.widen s in
  let n := Reader.n_bits s1 in
  if change s || (Reader.size s <=? Reader.roffset s) then
    let l := take (Z.to_nat n) (Reader.fp s) in
    let g := l ++ drop (length l) (Reader.gbuf s) in
    let f := drop (Z.to_nat n) (Reader.fp s) in
    match l with
    | [] => (Ok (-1), set_io f g (Reader.roffset s) 0 s1)
    | _ => (Ok (get_code g 0 n), set_io f g n (8 * Z.of_nat (length l) - (n - 1)) s1)
    end
  else (Ok (get_code (Reader.gbuf s) (Reader.roffset s) (Reader.n_bits s)),
        set_io (Reader.fp s) (Reader.gbuf s) (Reader.roffset s + Reader.n_bits s) (Reader.size s) s).
Proof.
  unfold Reader.getcode. rewrite run_bind_get. cbv [mbind M_bind]. rewrite refill_cond. cbv zeta.
  destruct (widen_io s) as (Ef & Eg & Er). destruct (change s || (Reader.size s <=? Reader.roffset s)).
  - unfold modify, gets, Reader.fread. cbv [mbind M_bind]. unfold modify, gets. rewrite Ef. simpl.
    rewrite Eg. destruct (take _ _) as [|x l] eqn:El; simpl.
    + f_equal. unfold set_io. rewrite <- Er. by destruct (Reader.widen s).
    + done.
  - done.
Qed.

Lemma take_same_bit g a b j :
  take g a = take g b -> 0 <= j < 8 * Z.of_nat g -> bit_at a j = bit_at b j.
Proof. intros E Hj. rewrite <- (bit_at_take g a), <- (bit_at_take g b), E by done. done. Qed.

(** A code of the group that the reader has. *)
Lemma get_pending c after evs b off n gbuf g :
  group b off n -> codes_fit ((c, after) :: evs) n -> Forall octet gbuf ->
  let out := emit ((c, after) :: evs) b off n in
  g = Nat.min (Z.to_nat n) (length out) -> take g gbuf = take g out ->
  off < 8 * Z.of_nat g - (n - 1) /\ get_code gbuf off n = c.
Proof.
  intros G F Hg out Eg Et. pose proof (group_bounds _ _ _ G) as (Ho & Hf & H8 & Hw). unfold width in Hw.
  destruct (emit_code _ _ _ _ _ _ G F) as [L B]. fold out in L, B. destruct F as (_ & Hc & _).
  assert (off + n <= 8 * Z.of_nat g) by lia. split; [lia|]. apply get_code_is; try done.
  intros i Hi. rewrite (take_same_bit g gbuf out) by (done || lia). by apply B.
Qed.

(** What is left when it has been taken. *)
Lemma pending_next c after evs b off n gbuf g :
  group b off n -> codes_fit ((c, after) :: evs) n -> length gbuf = 16%nat -> Forall octet gbuf ->
  let out := emit ((c, after) :: evs) b off n in
  g = Nat.min (Z.to_nat n) (length out) -> take g gbuf = take g out ->
  pending evs (default n after) (bool_decide (is_Some after)) (drop g out) gbuf (off + n) (8 * Z.of_nat g - (n - 1)).
Proof.
  intros G F Hl Hg out Eg Et. pose proof (group_bounds _ _ _ G) as (Ho & Hf & H8 & Hw). unfold width in Hw.
  pose proof F as (_ & _ & F'). set (b' := put_code b off n c).
  assert (length b' = 16%nat) as Hl' by (pose proof G as (? & ? & _); by apply put_code_length).
  split; [done|]. split; [done|]. split; [done|].
  assert (forall n' l, out = take (Z.to_nat n) b' ++ l -> width n' -> l = emit evs b' 0 n' -> after = Some n' \/ off + n = 8 * n ->
    n' = default n after ->
    exists b1 off1, group b1 off1 n' /\ let out1 := emit evs b1 off1 n' in
      (off1 = 0 /\ drop g out = out1 /\ (bool_decide (is_Some after) = true \/ 8 * Z.of_nat g - (n - 1) <= off + n)) \/
      (0 < off1 /\ bool_decide (is_Some after) = false /\ off + n = off1 /\
       exists g1, g1 = Nat.min (Z.to_nat n') (length out1) /\ drop g out = drop g1 out1 /\
         take g1 gbuf = take g1 out1 /\ 8 * Z.of_nat g - (n - 1) = 8 * Z.of_nat g1 - (n' - 1))) as Hnew.
  { intros n' l Eo Hn' -> Hcase _. exists b', 0. split; [by eapply group_new|]. left. split; [done|].
    assert (g = Z.to_nat n) as ->.
    { rewrite Eg, Eo, length_app, length_take. lia. }
    split; [rewrite Eo, drop_app_length'; [done|rewrite length_take; lia]|].
    destruct Hcase as [->|Hc]; [left; by apply bool_decide_eq_true_2|right; lia]. }
  unfold out in *. simpl in Eg, Et, Hnew |- *. fold b' in Eg, Et, Hnew |- *.
  destruct after as [n'|]; [|destruct (Z.eqb_spec (off + n) (8 * n)) as [Hfull|Hfull]].
  - eapply (Hnew n'); try done; [by eapply codes_fit_width|by left].
  - eapply (Hnew n); try done. by right.
  - exists b', (off + n). split; [by apply group_put|]. right. split; [lia|]. split; [done|]. split; [done|].
    by exists g.
Qed.

(** [getcode] takes the next code. *)
Lemma getcode_next c after evs s :
  let n := Reader.n_bits (Reader.widen s) in
  pending ((c, after) :: evs) n (change s) (Reader.fp s) (Reader.gbuf s) (Reader.roffset s) (Reader.size s) ->
  exists f g r z, Reader.getcode s = (Ok c, set_io f g r z (Reader.widen s)) /\
    pending evs (default n after) (bool_decide (is_Some after)) f g r z.
Proof.
  intros n (F & Hl & Hg & b & off & G & Hio). rewrite getcode_run. cbv zeta. fold n.
  pose proof (group_bounds _ _ _ G) as (Ho & Hf & H8 & Hw). unfold width in Hw.
  destruct Hio as [(-> & Efp & Hre)|(Hpos & Hch & Er & g & Eg & Efp & Et & Ez)].
  - assert (change s || (Reader.size s <=? Reader.roffset s) = true) as ->.
    { destruct Hre as [->|Hz]; [done|]. apply Z.leb_le in Hz as ->. by rewrite orb_true_r. }
    rewrite Efp. set (out := emit _ _ _ _). set (g := Nat.min (Z.to_nat n) (length out)).
    assert (take (Z.to_nat n) out = take g out) as Etk.
    { unfold g. destruct (decide (Z.to_nat n <= length out)%nat); [f_equal; lia|].
      rewrite !take_ge by lia. done. }
    assert (drop (Z.to_nat n) out = drop g out) as Edr.
    { unfold g. destruct (decide (Z.to_nat n <= length out)%nat); [f_equal; lia|].
      rewrite !drop_ge by lia. done. }
    rewrite Etk, Edr. assert (length (take g out) = g) as Lg by (rewrite length_take; lia). rewrite Lg.
    set (gb := take g out ++ drop g (Reader.gbuf s)).
    assert (length gb = 16%nat) as Hlgb by (unfold gb; rewrite length_app, Lg, length_drop; lia).
    assert (Forall octet gb) as Hgb.
    { apply Forall_app_2; [apply Forall_take|by apply Forall_drop].
      destruct F as [Hn F]. by apply emit_octets. }
    assert (take g gb = take g out) as Et by (unfold gb; by rewrite take_app_length').
    destruct (get_pending _ _ _ _ _ _ _ _ G F Hgb eq_refl Et) as [Hroom Hget]. fold out g in Hroom, Hget.
    pose proof (pending_next _ _ _ _ _ _ _ _ G F Hlgb Hgb eq_refl Et) as Hnext. fold out g in Hnext.
    destruct (take g out) as [|x l] eqn:Ex; [simpl in Lg; lia|].
    eexists _, _, _, _. split; [by rewrite Hget|]. exact Hnext.
  - rewrite Hch. assert ((Reader.size s <=? Reader.roffset s) = false) as ->.
    { destruct (get_pending _ _ _ _ _ _ _ _ G F Hg Eg Et) as [Hroom _]. apply Z.leb_gt. lia. }
    cbn [orb]. assert (Reader.widen s = s) as Ew by by apply widen_same.
    assert (n = Reader.n_bits s) as En by (unfold n; by rewrite Ew). rewrite Ew. clearbody n. subst n.
    destruct (get_pending _ _ _ _ _ _ _ _ G F Hg Eg Et) as [Hroom Hget].
    eexists _, _, _, _. split; [rewrite Er, Hget; done|]. rewrite Efp, Ez.
    by apply (pending_next _ _ _ b).
Qed.

(** ... or says that there is none. *)
Lemma getcode_end s :
  let n := Reader.n_bits (Reader.widen s) in
  pending [] n (change s) (Reader.fp s) (Reader.gbuf s) (Reader.roffset s) (Reader.size s) ->
  exists f g r z, Reader.getcode s = (Ok (-1), set_io f g r z (Reader.widen s)).
Proof.
  intros n (F & Hl & Hg & b & off & G & Hio). rewrite getcode_run. cbv zeta. fold n.
  pose proof (group_bounds _ _ _ G) as (Ho & Hf & H8 & Hw). unfold width in Hw.
  pose proof G as (Hlb & _). pose proof (ceil8 off Ho) as Hceil.
  assert (Reader.fp s = [] /\ change s || (Reader.size s <=? Reader.roffset s) = true) as [Efp ->].
  { destruct Hio as [(-> & Efp & Hre)|(Hpos & Hch & Er & g & Eg & Efp & Et & Ez)]; simpl in *.
    - split; [done|]. destruct Hre as [->|Hz]; [done|]. apply Z.leb_le in Hz as ->. by rewrite orb_true_r.
    - destruct (Z.ltb_spec 0 off); [|lia]. rewrite length_take in Eg.
      assert (g = Z.to_nat ((off + 7) / 8)) as -> by lia. split; [rewrite Efp; apply drop_ge; rewrite length_take; lia|].
      assert ((Reader.size s <=? Reader.roffset s) = true) as -> by (apply Z.leb_le; lia). apply orb_true_r. }
  rewrite Efp, take_nil. by eexists _, _, _, _.
Qed.
