(* ===== verification/CompressTable.v ===== *)
(** * compress: the hash table

    [zwrite] looks up a prefix code and the octet behind it by open addressing with double
    hashing.  The table holds a list of such pairs, the position in the list being the code
    less [FIRST]: [find_slot] finds the slot of a pair that it holds and an empty slot for any
    other, since the size of the table is a prime and the table is never full. *)

From Stdlib Require Import ZArith Znumtheory Lia List Bool.
From stdpp Require Import base tactics list numbers functions.
From S2P Require Import Prelude Compress CompressBits.
Import Writer.

Local Open Scope Z_scope.

(** ** The size is a prime *)

Definition has_divisor (p : Z) : bool :=
  existsb (fun d => p mod (Z.of_nat d + 2) =? 0) (seq 0 300).

Lemma prime_by_trial p : 1 < p -> p < 300 * 300 -> has_divisor p = false -> prime p.
Proof.
  intros Hp Hb Hd. destruct (prime_dec p) as [|Hn]; [done|exfalso].
  destruct (not_prime_divide p Hp Hn) as (n & Hn1 & m & ->).
  assert (forall d, 1 < d < 302 -> ~ (d | m * n)) as Hnot.
  { intros d Hd1 Hd2. unfold has_divisor in Hd.
    rewrite <- not_true_iff_false in Hd. apply Hd, existsb_exists. exists (Z.to_nat (d - 2)).
    split; [apply in_seq; lia|]. apply Z.eqb_eq. replace (Z.of_nat (Z.to_nat (d - 2)) + 2) with d by lia.
    by apply Z.mod_divide; [lia|]. }
  destruct (decide (n < 302)); [apply (Hnot n); [lia|by exists m]|].
  apply (Hnot m); [nia|exists n; lia].
Qed.

Lemma HSIZE_prime : prime HSIZE.
Proof. apply prime_by_trial; reflexivity. Qed.

Lemma least (P : nat -> bool) n :
  P n = true -> exists k, (k <= n)%nat /\ P k = true /\ forall j, (j < k)%nat -> P j = false.
Proof.
  induction (Nat.lt_wf_0 n) as [n _ IH]. intros Hn.
  destruct (existsb P (seq 0 n)) eqn:E.
  - apply existsb_exists in E as (m & Hm%in_seq & Pm). destruct (IH m ltac:(lia) Pm) as (k & Hk & Pk & Hmin).
    exists k. split; [lia|done].
  - exists n. split_and!; [done|done|]. intros j Hj. apply not_true_iff_false. intros Pj.
    apply not_true_iff_false in E. apply E, existsb_exists. exists j. split; [apply in_seq; lia|done].
Qed.

Lemma insert_eq (f : Z -> Z) i v : (<[i := v]> f) i = v.
Proof. apply fn_lookup_insert. Qed.

Lemma insert_ne (f : Z -> Z) i j v : i <> j -> (<[i := v]> f) j = f j.
Proof. apply fn_lookup_insert_ne. Qed.

(** ** The empty table *)

Lemma clear_down_spec n : forall p h j,
  clear_down n p h j = if (p - Z.of_nat n <=? j) && (j <? p) then -1 else h j.
Proof.
  induction n as [|n IH]; intros p h j; cbn [clear_down].
  { destruct (Z.leb_spec (p - Z.of_nat 0) j), (Z.ltb_spec j p); simpl; try done; lia. }
  rewrite IH. destruct (decide (p - 1 = j)) as [<-|Hj].
  - rewrite insert_eq. destruct (Z.leb_spec (p - Z.of_nat (S n)) (p - 1)), (Z.ltb_spec (p - 1) p); try lia.
    cbn [andb]. by case_match.
  - rewrite insert_ne by done.
    destruct (Z.leb_spec (p - 1 - Z.of_nat n) j), (Z.ltb_spec j (p - 1)), (Z.leb_spec (p - Z.of_nat (S n)) j),
      (Z.ltb_spec j p); simpl; try done; lia.
Qed.

Lemma cl_hash_loop_spec fuel : forall p h,
  16 <= p < 16 * Z.of_nat fuel ->
  exists h', cl_hash_loop fuel p (p - 16) h = Some h' /\
    forall j, h' j = if (0 <=? j) && (j <? p) then -1 else h j.
Proof.
  induction fuel as [|fuel IH]; intros p h Hp; [lia|]. cbn [cl_hash_loop].
  set (h1 := clear_down 16 p h).
  assert (forall j, h1 j = if (p - 16 <=? j) && (j <? p) then -1 else h j) as E1.
  { intros j. unfold h1. by rewrite clear_down_spec. }
  clearbody h1. destruct (Z.leb_spec 0 (p - 16 - 16)).
  - destruct (IH (p - 16) h1 ltac:(lia)) as (h' & -> & E). exists h'. split; [done|]. intros j. rewrite E, E1.
    destruct (Z.leb_spec 0 j), (Z.ltb_spec j (p - 16)), (Z.leb_spec (p - 16) j), (Z.ltb_spec j p); simpl; try done; lia.
  - eexists. split; [done|]. intros j. rewrite clear_down_spec, E1, Z2Nat.id by lia.
    destruct (Z.leb_spec (p - 16 - (p - 16 - 16 + 16)) j), (Z.ltb_spec j (p - 16)), (Z.leb_spec (p - 16) j),
      (Z.ltb_spec j p), (Z.leb_spec 0 j); simpl; try done; lia.
Qed.

Lemma cl_hash_spec s :
  exists h, cl_hash HSIZE s = (Ok (), set_htab h s) /\ forall j, 0 <= j < HSIZE -> h j = -1.
Proof.
  unfold cl_hash. rewrite run_bind_gets.
  destruct (cl_hash_loop_spec (Z.to_nat HSIZE) HSIZE (htab s)) as (h & -> & E); [unfold HSIZE; lia|].
  exists h. split; [done|]. intros j Hj. rewrite E.
  destruct (Z.leb_spec 0 j), (Z.ltb_spec j HSIZE); simpl; try done; lia.
Qed.

(** ** Probing *)

Section Table.
Context (mb : Z).
Hypothesis (Hmb : 9 <= mb <= 16).

(** A prefix code and the octet behind it. *)
Definition key (e : Z * Z) : Z := Z.shiftl (snd e) mb + fst e.
Definition home (e : Z * Z) : Z := Z.lxor (Z.shiftl (snd e) 8) (fst e).
Definition entry (e : Z * Z) : Prop := 0 <= fst e < 2 ^ mb /\ octet (snd e).

Definition disp (i : Z) : Z := if i =? 0 then 1 else HSIZE - i.
Definition pos (i : Z) (k : nat) : Z := (i - Z.of_nat k * disp i) mod HSIZE.

Lemma pos_range i k : 0 <= pos i k < HSIZE.
Proof. apply Z.mod_pos_bound. unfold HSIZE. lia. Qed.

Lemma key_inj e e' : entry e -> entry e' -> key e = key e' -> e = e'.
Proof.
  destruct e as [a c], e' as [a' c']. unfold entry, key. cbn [fst snd]. intros [Ha _] [Ha' _].
  rewrite !Z.shiftl_mul_pow2 by lia. intros E.
  assert (c = c') as <-; [|f_equal; lia].
  apply (f_equal (fun x => x / 2 ^ mb)) in E. rewrite !Z.div_add_l, !Z.div_small in E by lia. lia.
Qed.

Lemma key_nonneg e : entry e -> 0 <= key e.
Proof. intros [Ha Hc]. unfold key, octet in *. apply Z.add_nonneg_nonneg; [apply Z.shiftl_nonneg; lia|lia]. Qed.

Lemma home_range e : entry e -> 0 <= home e < HSIZE.
Proof.
  intros [Ha Hc]. unfold octet in Hc. destruct e as [a c]. unfold home. cbn [fst snd] in *.
  assert (2 ^ mb <= 2 ^ 16) by (apply Z.pow_le_mono_r; lia).
  assert (0 <= Z.lxor (Z.shiftl c 8) a) as Hp.
  { apply Z.lxor_nonneg. split; intros _; [lia|]. apply Z.shiftl_nonneg. lia. }
  split; [done|]. destruct (decide (Z.lxor (Z.shiftl c 8) a = 0)) as [->|]; [unfold HSIZE; lia|].
  assert (Z.log2 (Z.lxor (Z.shiftl c 8) a) < 16) as L.
  { eapply Z.le_lt_trans; [apply Z.log2_lxor; [apply Z.shiftl_nonneg; lia|lia]|].
    apply Z.max_lub_lt.
    - rewrite Z.shiftl_mul_pow2 by lia. destruct (decide (c = 0)) as [->|]; [simpl; lia|].
      apply Z.log2_lt_pow2; [nia|]. change (2 ^ 16) with (256 * 2 ^ 8). nia.
    - destruct (decide (a = 0)) as [->|]; [simpl; lia|]. apply Z.log2_lt_pow2; lia. }
  apply Z.log2_lt_pow2 in L; [|lia]. unfold HSIZE. lia.
Qed.

Lemma disp_range i : 0 <= i < HSIZE -> 0 < disp i < HSIZE.
Proof. intros Hi. unfold disp. destruct (Z.eqb_spec i 0); unfold HSIZE in *; lia. Qed.

Lemma pos_0 i : 0 <= i < HSIZE -> pos i 0 = i.
Proof. intros Hi. unfold pos. simpl. rewrite Z.sub_0_r. by apply Z.mod_small. Qed.

(** The probes meet every slot once. *)
Lemma pos_inj i j k : 0 <= i < HSIZE -> Z.of_nat j < HSIZE -> Z.of_nat k < HSIZE -> pos i j = pos i k -> j = k.
Proof.
  intros Hi Hj Hk E. unfold pos in E.
  assert (HSIZE | (Z.of_nat j - Z.of_nat k) * disp i) as Hd.
  { apply Z.mod_divide; [unfold HSIZE; lia|].
    replace ((Z.of_nat j - Z.of_nat k) * disp i) with ((i - Z.of_nat k * disp i) - (i - Z.of_nat j * disp i)) by lia.
    rewrite Zminus_mod, E, Z.sub_diag. done. }
  pose proof (disp_range i Hi) as Hr. destruct (prime_mult HSIZE HSIZE_prime _ _ Hd) as [D|D].
  - destruct (decide (Z.of_nat j = Z.of_nat k)) as [|Hne]; [lia|].
    apply Z.divide_abs_r in D. apply Z.divide_pos_le in D; lia.
  - apply Z.divide_pos_le in D; lia.
Qed.

Definition stop (h : Z -> Z) (f i : Z) : bool := (h i =? f) || (h i <? 0).

Lemma probe_spec h f i0 fuel : forall k j,
  0 <= i0 < HSIZE -> (k - j <= fuel)%nat -> (j < k)%nat -> stop h f (pos i0 k) = true ->
  (forall m, (j < m < k)%nat -> stop h f (pos i0 m) = false) ->
  probe fuel h f HSIZE (disp i0) (pos i0 j) = Some (pos i0 k).
Proof.
  induction fuel as [|fuel IH]; intros k j Hi Hf Hj Hs Hmin; [lia|]. cbn [probe].
  assert ((if pos i0 j - disp i0 <? 0 then pos i0 j - disp i0 + HSIZE else pos i0 j - disp i0) = pos i0 (S j)) as ->.
  { pose proof (pos_range i0 j). pose proof (disp_range i0 Hi).
    replace (pos i0 (S j)) with ((pos i0 j - disp i0) mod HSIZE).
    - destruct (Z.ltb_spec (pos i0 j - disp i0) 0).
      + rewrite <- (Z.mod_small (pos i0 j - disp i0 + HSIZE) HSIZE) by lia.
        replace (pos i0 j - disp i0 + HSIZE) with (pos i0 j - disp i0 + 1 * HSIZE) by lia.
        apply Z.mod_add. unfold HSIZE. lia.
      + by rewrite Z.mod_small by lia.
    - unfold pos at 1. rewrite Zminus_mod_idemp_l. unfold pos. f_equal. lia. }
  destruct (decide (S j = k)) as [->|Hne].
  - unfold stop in Hs. apply orb_true_iff in Hs as [Hs|Hs]; [by rewrite Hs|]. apply Z.ltb_lt in Hs.
    destruct (_ =? f); [done|]. destruct (Z.leb_spec 0 (h (pos i0 k))); [lia|done].
  - pose proof (Hmin (S j) ltac:(lia)) as Hns. unfold stop in Hns. apply orb_false_iff in Hns as [-> Hn].
    apply Z.ltb_ge in Hn. destruct (Z.leb_spec 0 (h (pos i0 (S j)))); [|lia].
    apply IH; try done; try lia. intros m Hm. apply Hmin. lia.
Qed.

Lemma find_slot_spec h f i0 k :
  0 <= i0 < HSIZE -> Z.of_nat k < HSIZE -> stop h f (pos i0 k) = true ->
  (forall m, (m < k)%nat -> stop h f (pos i0 m) = false) ->
  find_slot h f HSIZE i0 = Some (pos i0 k).
Proof.
  intros Hi Hk Hs Hmin. unfold find_slot. destruct k as [|k].
  - rewrite pos_0 in * by done. unfold stop in Hs. apply orb_true_iff in Hs as [-> | ->]; [done|by case_match].
  - pose proof (Hmin 0%nat ltac:(lia)) as H0. rewrite pos_0 in H0 by done.
    unfold stop in H0. apply orb_false_iff in H0 as [-> ->].
    pose proof (probe_spec h f i0 (Z.to_nat HSIZE) (S k) 0 Hi) as P. rewrite (pos_0 i0) in P by done.
    apply P; try done; try lia. intros m Hm. apply Hmin. lia.
Qed.

(** ** What the table holds *)

(** [slots] are the slots of the pairs of [T]. *)
Definition holds (T : list (Z * Z)) (h ct : Z -> Z) : Prop :=
  exists slots, length slots = length T /\
    (forall j e, T !! j = Some e -> exists k,
       slots !! j = Some (pos (home e) k) /\ Z.of_nat k < HSIZE /\
       h (pos (home e) k) = key e /\ ct (pos (home e) k) = FIRST + Z.of_nat j /\
       forall m, (m < k)%nat -> stop h (key e) (pos (home e) m) = false) /\
    forall i, 0 <= i < HSIZE -> 0 <= h i -> i ∈ slots.

Lemma holds_nil h ct : (forall j, 0 <= j < HSIZE -> h j = -1) -> holds [] h ct.
Proof.
  intros Hh. exists []. split_and!; [done|intros j e; by rewrite lookup_nil|].
  intros i Hi Hp. rewrite Hh in Hp by done. lia.
Qed.

Lemma find_known T h ct j e :
  Forall entry T -> holds T h ct -> T !! j = Some e ->
  exists i, find_slot h (key e) HSIZE (home e) = Some i /\ h i = key e /\ ct i = FIRST + Z.of_nat j.
Proof.
  intros Hok (slots & _ & HT & _) Hj. destruct (HT _ _ Hj) as (k & _ & Hk & Hh & Hc & Hmin).
  exists (pos (home e) k). split; [|done]. apply find_slot_spec; try done.
  - apply home_range. by eapply Forall_lookup_1.
  - unfold stop. by rewrite Hh, Z.eqb_refl.
Qed.

(** Not all slots are taken. *)
Lemma empty_slot T h ct i0 :
  holds T h ct -> 0 <= i0 < HSIZE -> Z.of_nat (length T) < HSIZE ->
  exists k, Z.of_nat k < HSIZE /\ h (pos i0 k) < 0.
Proof.
  intros (slots & Hl & _ & Hall) Hi Hlen.
  destruct (existsb (fun k => h (pos i0 k) <? 0) (seq 0 (Z.to_nat HSIZE))) eqn:E.
  - apply existsb_exists in E as (k & Hk%in_seq & Hn%Z.ltb_lt). exists k. split; [lia|done].
  - exfalso. set (l := map (pos i0) (seq 0 (Z.to_nat HSIZE))).
    assert (NoDup l) as Hnd.
    { apply NoDup_ListNoDup. apply List.NoDup_map_NoDup_ForallPairs; [|apply List.seq_NoDup].
      intros x y Hx%in_seq Hy%in_seq Exy. eapply pos_inj; try exact Exy; try done; lia. }
    assert (l ⊆ slots) as Hsub.
    { intros x Hx. apply list_elem_of_fmap in Hx as (k & -> & Hk). apply Hall; [apply pos_range|].
      apply not_true_iff_false in E. destruct (Z.ltb_spec (h (pos i0 k)) 0) as [Hneg|]; [|done].
      exfalso. apply E, existsb_exists. exists k. split; [by apply list_elem_of_In|by apply Z.ltb_lt]. }
    pose proof (List.NoDup_incl_length (proj1 (NoDup_ListNoDup _) Hnd) (l' := slots)) as Hle.
    unfold l in Hle. rewrite length_map, length_seq in Hle.
    assert (Z.to_nat HSIZE <= length slots)%nat; [|lia].
    apply Hle. intros x Hx. apply list_elem_of_In, Hsub, list_elem_of_In. exact Hx.
Qed.

Lemma find_new T h ct e :
  Forall entry T -> holds T h ct -> entry e -> e ∉ T -> Z.of_nat (length T) < HSIZE ->
  exists i, find_slot h (key e) HSIZE (home e) = Some i /\ h i < 0 /\
    holds (T ++ [e]) (<[i := key e]> h) (<[i := FIRST + Z.of_nat (length T)]> ct).
Proof.
  intros Hok HT He Hnew Hlen. pose proof (home_range e He) as Hi.
  destruct (empty_slot T h ct (home e) HT Hi Hlen) as (k0 & Hk0 & Hneg).
  destruct (least (fun k => stop h (key e) (pos (home e) k)) k0) as (k & Hk & Hs & Hmin).
  { unfold stop. apply orb_true_iff. right. by apply Z.ltb_lt. }
  exists (pos (home e) k). set (i := pos (home e) k) in *.
  assert (Z.of_nat k < HSIZE) as Hkb by lia.
  destruct HT as (slots & Hl & HT & Hall).
  assert (h i < 0) as Hempty.
  { unfold stop in Hs. apply orb_true_iff in Hs as [Hs%Z.eqb_eq|Hs%Z.ltb_lt]; [exfalso|done].
    assert (i ∈ slots) as Hin by (apply Hall; [apply pos_range|rewrite Hs; by apply key_nonneg]).
    apply list_elem_of_lookup in Hin as [j Hj].
    destruct (T !! j) as [e'|] eqn:Ej; [|apply lookup_ge_None in Ej; apply lookup_lt_Some in Hj; lia].
    destruct (HT _ _ Ej) as (k' & Hj' & _ & Hh & _). rewrite Hj in Hj'. injection Hj' as Hj'.
    assert (e = e') as ->; [|apply Hnew; by eapply list_elem_of_lookup_2].
    apply key_inj; [done|by eapply Forall_lookup_1|congruence]. }
  split; [by apply find_slot_spec|]. split; [done|].
  assert (forall f x, stop h f x = false -> stop (<[i := key e]> h) f x = false) as Hkeep.
  { intros f x Hx. unfold stop in *. rewrite insert_ne; [done|]. intros <-. apply orb_false_iff in Hx as [_ Hx].
    apply Z.ltb_ge in Hx. lia. }
  exists (slots ++ [i]). split; [rewrite !length_app; simpl; lia|]. split.
  - intros j e' Hj. apply lookup_app_Some in Hj as [Hj|[Hge Hj]].
    + destruct (HT _ _ Hj) as (k' & Hs' & Hk' & Hh & Hc & Hm). exists k'.
      assert (i <> pos (home e') k') as Hne.
      { intros Heq. rewrite <- Heq in Hh.
        assert (0 <= key e') by (apply key_nonneg; by eapply Forall_lookup_1). lia. }
      rewrite !insert_ne by done. split_and!; try done; [by apply lookup_app_l_Some|].
      intros m Hm'. by apply Hkeep, Hm.
    + apply list_lookup_singleton_Some in Hj as [Hj <-]. exists k.
      assert (j = length T) as -> by lia. rewrite !insert_eq. split_and!; try done.
      * rewrite lookup_app_r by lia. by replace (length T - length slots)%nat with 0%nat by lia.
      * intros m Hm. by apply Hkeep, Hmin.
  - intros x Hx Hp. destruct (decide (i = x)) as [<-|Hne]; [apply elem_of_app; right; apply list_elem_of_here|].
    rewrite insert_ne in Hp by done. apply elem_of_app. left. by apply Hall.
Qed.

End Table.
