(* ===== verification/CompressSpec.v ===== *)
(** * compress: the Lempel-Ziv-Welch code

    An independent description of the code: [encodes] relates octets to the codes that stand for
    them, whatever table the coder keeps them in and whenever it chooses to clear it; [means]
    gives the string of a code.  [CompressWriter] shows that the program writes such codes,
    [CompressReader] that it reads them back. *)

From Stdlib Require Import ZArith Lia List Bool.
From stdpp Require Import base tactics list numbers.
From S2P Require Import Prelude Compress CompressBits CompressStream.

Local Open Scope Z_scope.

(** The strings so far: entry [j] is the string of a code with an octet behind it; its own code is
    [FIRST + j]. *)
Abbreviation table := (list (Z * Z)%type).

Definition size_of (T : table) : Z := FIRST + Z.of_nat (length T).

Inductive means (T : table) : Z -> list Z -> Prop :=
  | means_octet c : octet c -> means T c [c]
  | means_entry j p x s : T !! j = Some (p, x) -> means T p s -> means T (FIRST + Z.of_nat j) (s ++ [x]).

Definition code_ok (T : table) (e : Z) : Prop := octet e \/ FIRST <= e < size_of T.

Definition table_ok (T : table) : Prop :=
  forall j p x, T !! j = Some (p, x) -> octet x /\ (octet p \/ FIRST <= p < FIRST + Z.of_nat j).

Section Spec.
Context (mb : Z).
Hypothesis (Hmb : 10 <= mb <= 16).

(** The width of the codes and the code with which it ends. *)
Definition after (n mc : Z) (T : table) : option Z := if mc <? size_of T then Some (n + 1) else None.
Definition next_mc (n mc : Z) (T : table) : Z :=
  if mc <? size_of T then if n + 1 =? mb then 2 ^ mb else MAXCODE (n + 1) else mc.

Definition full (T : table) : Prop := 2 ^ mb <= size_of T.

Inductive encodes : table -> Z -> Z -> Z -> list Z -> list event -> Prop :=
  | encodes_end T e n mc : encodes T e n mc [] [(e, after n mc T)]
  | encodes_known T e n mc j c l evs :
      T !! j = Some (e, c) -> encodes T (FIRST + Z.of_nat j) n mc l evs -> encodes T e n mc (c :: l) evs
  | encodes_new T e n mc c l evs :
      (e, c) ∉ T -> ~ full T ->
      encodes (T ++ [(e, c)]) c (default n (after n mc T)) (next_mc n mc T) l evs ->
      encodes T e n mc (c :: l) ((e, after n mc T) :: evs)
  | encodes_full T e n mc c l evs :
      (e, c) ∉ T -> full T ->
      encodes T c (default n (after n mc T)) (next_mc n mc T) l evs ->
      encodes T e n mc (c :: l) ((e, after n mc T) :: evs)
  | encodes_clear T e n mc c l evs :
      (e, c) ∉ T -> full T ->
      encodes [] c INIT_BITS (MAXCODE INIT_BITS) l evs ->
      encodes T e n mc (c :: l) ((e, after n mc T) :: (CLEAR, Some INIT_BITS) :: evs).

(** ** Strings *)

Lemma means_app T T' e s : means T e s -> means (T ++ T') e s.
Proof.
  induction 1 as [c Hc|j p x s Hj _ IH]; [by constructor|]. eapply means_entry; [|exact IH].
  by apply lookup_app_l_Some.
Qed.

Lemma means_nonempty T e s : means T e s -> s <> [].
Proof. intros [|]; [done|]. by destruct s0. Qed.

Lemma table_ok_nil : table_ok [].
Proof. intros j p x. by rewrite lookup_nil. Qed.

Lemma table_ok_snoc T e c : table_ok T -> code_ok T e -> octet c -> table_ok (T ++ [(e, c)]).
Proof.
  intros HT He Hc j p x Hj. apply lookup_app_Some in Hj as [Hj|[Hge Hj]]; [by apply HT|].
  apply list_lookup_singleton_Some in Hj as [Hj [= <- <-]]. split; [done|].
  destruct He as [He|He]; [by left|right]. unfold size_of in He. lia.
Qed.

Lemma means_exists T e : table_ok T -> code_ok T e -> exists s, means T e s.
Proof.
  intros HT. revert e. assert (forall n e, e < Z.of_nat n -> code_ok T e -> exists s, means T e s) as Hall.
  { induction n as [|n IH]; intros e Hn He.
    - destruct He as [He|He]; unfold octet, FIRST in He; lia.
    - destruct He as [He|He]; [by eexists; constructor|].
      destruct (T !! Z.to_nat (e - FIRST)) as [[p x]|] eqn:Ej.
      2:{ apply lookup_ge_None in Ej. unfold size_of in He. lia. }
      destruct (HT _ _ _ Ej) as [Hx Hp]. destruct (IH p) as [s Hs].
      + destruct Hp as [Hp|Hp]; unfold octet, FIRST in *; lia.
      + destruct Hp as [Hp|Hp]; [by left|right]. lia.
      + exists (s ++ [x]). replace e with (FIRST + Z.of_nat (Z.to_nat (e - FIRST))) by lia.
        by eapply means_entry. }
  intros e He. apply (Hall (Z.to_nat (e + 1))); [|done].
  destruct He as [He|He]; unfold octet, FIRST in He; lia.
Qed.

Lemma code_ok_snoc T e x : code_ok T e -> code_ok (T ++ [x]) e.
Proof. intros [He|He]; [by left|right]. unfold size_of in *. rewrite length_app. simpl. lia. Qed.

Lemma code_ok_entry T j e : T !! j = Some e -> code_ok T (FIRST + Z.of_nat j).
Proof. intros Hj%lookup_lt_Some. right. unfold size_of. lia. Qed.

Lemma means_ok T e s : means T e s -> code_ok T e.
Proof. intros [c Hc|j p x s' Hj _]; [by left|by eapply code_ok_entry]. Qed.

(** A code of the table without its last entry. *)
Lemma means_shorter T a e s :
  table_ok (T ++ [a]) -> means (T ++ [a]) e s -> e < size_of T -> means T e s.
Proof.
  intros HT. induction 1 as [c Hc|j p x s Hj Hs IH]; intros He; [by constructor|].
  assert (j < length T)%nat by (unfold size_of in He; lia).
  destruct (HT _ _ _ Hj) as [_ Hp]. rewrite lookup_app_l in Hj by done.
  eapply means_entry; [done|]. apply IH. unfold size_of in *.
  destruct Hp as [Hp|Hp]; unfold octet, FIRST in *; lia.
Qed.

(** The string of the last entry. *)
Lemma means_last T p x s :
  table_ok (T ++ [(p, x)]) -> means (T ++ [(p, x)]) (size_of T) s -> exists s0, means T p s0 /\ s = s0 ++ [x].
Proof.
  intros HT Hs. inversion Hs as [c Hc|j p' x' s' Hj Hs' Ej]; subst.
  - exfalso. unfold size_of, octet, FIRST in Hc. lia.
  - assert (j = length T) as -> by (unfold size_of in Ej; lia).
    rewrite list_lookup_middle in Hj by done. injection Hj as -> ->. exists s'. split; [|done].
    eapply means_shorter; [done|done|]. destruct (HT (length T) p' x' ltac:(by rewrite list_lookup_middle)) as [_ Hp].
    unfold size_of. destruct Hp as [Hp|Hp]; unfold octet, FIRST in *; lia.
Qed.

Lemma means_length T e s : table_ok T -> means T e s -> Z.of_nat (length s) <= Z.max 1 (e - 255).
Proof.
  intros HT. induction 1 as [c Hc|j p x s Hj Hs IH]; [simpl; lia|].
  rewrite length_app. simpl. destruct (HT _ _ _ Hj) as [_ [Hp|Hp]]; unfold octet, FIRST in *; lia.
Qed.

Lemma means_octets T e s : table_ok T -> means T e s -> Forall octet s.
Proof.
  intros HT. induction 1 as [c Hc|j p x s Hj _ IH]; [by constructor|]. apply Forall_app_2; [done|].
  constructor; [|done]. by eapply HT.
Qed.

Lemma means_inj T e s s' : table_ok T -> means T e s -> means T e s' -> s = s'.
Proof.
  intros HT Hs. revert s'. induction Hs as [c Hc|j p x s Hj Hs IH]; intros s' Hs'; inversion Hs'; subst; try done.
  - unfold octet, FIRST in *. lia.
  - unfold octet, FIRST in *. lia.
  - match goal with H : FIRST + Z.of_nat ?k = FIRST + Z.of_nat j |- _ => assert (k = j) as -> by lia end.
    match goal with H : T !! j = Some (?p', ?x') |- _ => rewrite Hj in H; injection H as <- <- end.
    f_equal. by apply IH.
Qed.

(** ** The next code *)

(** What follows a code [e] with the table [T]. *)
Inductive follows (T : table) (e : Z) : Z -> Z -> list Z -> list event -> Prop :=
  | follows_end n mc : follows T e n mc [] []
  | follows_new n mc c l evs :
      (e, c) ∉ T -> ~ full T -> encodes (T ++ [(e, c)]) c n mc l evs -> follows T e n mc (c :: l) evs
  | follows_full n mc c l evs :
      full T -> encodes T c n mc l evs -> follows T e n mc (c :: l) evs
  | follows_clear n mc c l evs :
      full T -> encodes [] c INIT_BITS (MAXCODE INIT_BITS) l evs ->
      follows T e n mc (c :: l) ((CLEAR, Some INIT_BITS) :: evs).

Lemma next_code T e n mc l evs s :
  encodes T e n mc l evs -> means T e s ->
  exists e' s' l' evs', evs = (e', after n mc T) :: evs' /\ means T e' s' /\ head s' = head s /\
    s ++ l = s' ++ l' /\ follows T e' (default n (after n mc T)) (next_mc n mc T) l' evs'.
Proof.
  intros He. revert s.
  induction He as [T e n mc|T e n mc j c l evs Hj He IH|T e n mc c l evs Hn Hf He _
    |T e n mc c l evs Hn Hf He _|T e n mc c l evs Hn Hf He _]; intros s Hs.
  - exists e, s, [], []. split_and!; try done. constructor.
  - destruct (IH (s ++ [c]) (means_entry _ _ _ _ _ Hj Hs)) as (e' & s' & l' & evs' & -> & Hs' & Hh & El & Hfo).
    exists e', s', l', evs'. split_and!; try done.
    + rewrite Hh. apply means_nonempty in Hs. by destruct s.
    + by rewrite <- El, <- app_assoc.
  - exists e, s, (c :: l), evs. split_and!; try done. by constructor.
  - exists e, s, (c :: l), evs. split_and!; try done. by apply follows_full.
  - exists e, s, (c :: l), ((CLEAR, Some INIT_BITS) :: evs). split_and!; try done. by apply follows_clear.
Qed.

(** ** The codes fit their width *)

Definition width_ok (n mc : Z) : Prop := 9 <= n <= mb /\ mc = if n =? mb then 2 ^ mb else 2 ^ n - 1.

Lemma MAXCODE_pow n : 0 <= n -> MAXCODE n = 2 ^ n - 1.
Proof. intros. unfold MAXCODE. by rewrite Z.shiftl_1_l. Qed.

Lemma width_ok_init : width_ok INIT_BITS (MAXCODE INIT_BITS).
Proof. split; [unfold INIT_BITS; lia|]. destruct (Z.eqb_spec INIT_BITS mb); [unfold INIT_BITS in *; lia|done]. Qed.

Definition room (T : table) (mc : Z) : Prop := size_of T <= mc + 1 /\ size_of T <= 2 ^ mb.

Lemma room_nil : room [] (MAXCODE INIT_BITS).
Proof.
  assert (2 ^ 10 <= 2 ^ mb) by (apply Z.pow_le_mono_r; lia).
  unfold room, size_of, FIRST. change (MAXCODE INIT_BITS) with 511. simpl length. lia.
Qed.

Lemma width_ok_next n mc T :
  width_ok n mc -> room T mc ->
  width_ok (default n (after n mc T)) (next_mc n mc T) /\
  size_of T <= next_mc n mc T /\ (forall n', after n mc T = Some n' -> width n').
Proof.
  intros [Hn Hmc] [Hr Hf]. unfold after, next_mc, width_ok, width.
  destruct (Z.ltb_spec mc (size_of T)); simpl; [|by split_and!; try lia].
  assert (n <> mb) as Hne.
  { intros ->. rewrite Z.eqb_refl in Hmc. lia. }
  destruct (Z.eqb_spec n mb); [done|]. split; [split; [lia|]|split].
  - destruct (Z.eqb_spec (n + 1) mb) as [E|]; [done|]. apply MAXCODE_pow. lia.
  - destruct (Z.eqb_spec (n + 1) mb); [done|]. rewrite MAXCODE_pow, Z.pow_add_r by lia. lia.
  - intros n' [= <-]. lia.
Qed.

Lemma code_fits T e n mc : width_ok n mc -> room T mc -> code_ok T e -> 0 <= e < 2 ^ n.
Proof.
  intros [Hn Hmc] [Hr Hf] He.
  assert (2 ^ 9 <= 2 ^ n) by (apply Z.pow_le_mono_r; lia).
  destruct He as [He|He]; unfold octet, FIRST in He; [lia|]. split; [lia|].
  destruct (Z.eqb_spec n mb) as [->|]; lia.
Qed.

Lemma width_of n mc : width_ok n mc -> width n.
Proof. intros [Hn _]. unfold width. lia. Qed.

Lemma encodes_fit T e n mc l evs :
  encodes T e n mc l evs -> width_ok n mc -> room T mc -> code_ok T e -> Forall octet l -> codes_fit evs n.
Proof.
  induction 1 as [T e n mc|T e n mc j c l evs Hj He IH|T e n mc c l evs Hnew Hf He IH
    |T e n mc c l evs Hnew Hf He IH|T e n mc c l evs Hnew Hf He IH]; intros Hw Hr Hok Hl;
    pose proof (width_ok_next _ _ _ Hw Hr) as (Hw' & Hs & _);
    pose proof (code_fits _ _ _ _ Hw Hr Hok) as Hfit; pose proof (width_of _ _ Hw) as Hwn.
  - split; [done|]. split; [done|]. split; [by eapply width_of|done].
  - inversion Hl; subst. apply IH; try done. by eapply code_ok_entry.
  - inversion Hl; subst. split; [done|]. split; [done|]. apply IH; try done; [|by left].
    unfold full, room, size_of in *. rewrite length_app. simpl. lia.
  - inversion Hl; subst. split; [done|]. split; [done|]. apply IH; try done; [|by left].
    destruct Hr. split; [lia|done].
  - inversion Hl; subst. split; [done|]. split; [done|]. cbn [codes_fit]. split; [by eapply width_of|].
    split; [destruct (width_of _ _ Hw') as [? _];
      assert (2 ^ 9 <= 2 ^ default n (after n mc T)) by (apply Z.pow_le_mono_r; lia); unfold CLEAR; lia|].
    apply IH; try done; [apply width_ok_init| |by left].
    by apply room_nil.
Qed.

End Spec.
