(* ===== verification/CompressWriter.v ===== *)
(** * compress: what is written is a Lempel-Ziv-Welch code

    [zwrite] keeps the table of [CompressSpec] in its hash table, and what it writes, with what
    [zclose] adds, is the header and the octets of codes that stand for what was
    given to it. *)

From Stdlib Require Import ZArith Lia List Bool.
From stdpp Require Import base tactics list numbers functions.
From S2P Require Import Prelude Compress CompressBits CompressStream CompressTable CompressSpec.
Import Writer.

Local Open Scope Z_scope.

(** The fields of a stream that a run of assignments leaves. *)
Ltac settle := cbv beta iota delta [
    set_fp fp set_state state set_n_bits n_bits set_maxbits maxbits set_maxcode maxcode
    set_maxmaxcode maxmaxcode set_htab htab set_codetab codetab set_hsize hsize set_free_ent
    free_ent set_block_compress block_compress set_clear_flg clear_flg set_ratio ratio
    set_checkpoint checkpoint set_offset offset set_in_count in_count set_bytes_out bytes_out
    set_out_count out_count set_buf buf set_fcode fcode set_ent ent set_hsize_reg hsize_reg
    set_hshift hshift].

Section Writing.
Context (mb : Z).
Hypothesis (Hmb : 10 <= mb <= 16).

(** The stream after its first octet. *)
Definition settled (s : zs) : Prop :=
  maxbits s = mb /\ maxmaxcode s = 2 ^ mb /\ hsize s = HSIZE /\ hsize_reg s = HSIZE /\ hshift s = 8 /\
  block_compress s = BLOCK_MASK /\ state s = S_MIDDLE.

Definition writes (T : table) (s : zs) : Prop :=
  settled s /\ clear_flg s = 0 /\ free_ent s = size_of T /\ holds mb T (htab s) (codetab s) /\
  Forall (entry mb) T /\ table_ok T /\ code_ok T (ent s) /\ width_ok mb (n_bits s) (maxcode s) /\
  room mb T (maxcode s) /\ wgroup s.

Lemma entry_ok T e c : code_ok T e -> size_of T <= 2 ^ mb -> octet c -> entry mb (e, c).
Proof.
  intros He Hs Hc. split; [|done]. cbn [fst].
  assert (2 ^ 10 <= 2 ^ mb) by (apply Z.pow_le_mono_r; lia).
  destruct He as [He|He]; unfold octet, FIRST in He; lia.
Qed.

Lemma settled_output s s' : settled s -> same_table s s' -> settled s'.
Proof.
  intros (? & ? & ? & ? & ? & ? & ?) (E1 & E2 & E3 & _ & _ & E6 & _ & E8 & _ & _ & E11 & E12 & _).
  unfold settled. split_and!; congruence.
Qed.

Lemma after_code_spec T s :
  writes T s -> after_code s = after (n_bits s) (maxcode s) T /\
  CompressStream.next_maxcode s = next_mc mb (n_bits s) (maxcode s) T.
Proof.
  intros ((Hm & Hmm & _) & Hc & Hf & _). unfold after_code, CompressStream.next_maxcode, after, next_mc.
  rewrite Hc, Hf, Hm, Hmm. done.
Qed.

(** A code goes out. *)
Lemma output_ent T s :
  writes T s ->
  let s' := output (ent s) s in
  same_table s s' /\ clear_flg s' = 0 /\ width_ok mb (n_bits s') (maxcode s') /\
  size_of T <= maxcode s' /\ wgroup s' /\
  n_bits s' = default (n_bits s) (after (n_bits s) (maxcode s) T) /\
  maxcode s' = next_mc mb (n_bits s) (maxcode s) T /\
  forall evs, final evs s' = final ((ent s, after (n_bits s) (maxcode s) T) :: evs) s.
Proof.
  intros Hs s'. destruct (after_code_spec T s Hs) as [Ea Em].
  destruct Hs as (_ & Hc & _ & _ & _ & _ & He & Hw & Hr & Hg).
  destruct (code_fits mb Hmb _ _ _ _ Hw Hr He) as [He0 _].
  destruct (width_ok_next mb Hmb _ _ _ Hw Hr) as (Hw' & Hsz & Haf).
  destruct (output_code_spec (ent s) s He0 Hg (or_introl Hc)) as (S & Hc' & Hm' & Hn' & Hg' & Hfin).
  { rewrite Ea. destruct (after _ _ _) eqn:E; [by apply Haf|done]. }
  fold s' in S, Hc', Hm', Hn', Hg', Hfin. clearbody s'. rewrite Ea in Hn', Hfin. rewrite Em in Hm'.
  rewrite Hn', Hm'. split_and!; try done; apply Hw'.
Qed.

(** The table is cleared. *)
Lemma clear_spec T c s :
  settled s -> clear_flg s = 0 -> width_ok mb (n_bits s) (maxcode s) -> size_of T <= maxcode s -> wgroup s ->
  free_ent s = size_of T -> holds mb T (htab s) (codetab s) -> Forall (entry mb) T -> table_ok T ->
  size_of T <= 2 ^ mb -> ent s = c -> octet c ->
  exists s', cl_block s = (Ok (), s') /\
    ((writes T s' /\ ent s' = c /\ n_bits s' = n_bits s /\ maxcode s' = maxcode s /\
      forall evs, final evs s' = final evs s) \/
     (writes [] s' /\ ent s' = c /\ n_bits s' = INIT_BITS /\ maxcode s' = MAXCODE INIT_BITS /\
      forall evs, final evs s' = final ((CLEAR, Some INIT_BITS) :: evs) s)).
Proof.
  intros Hset Hcf Hw Hsz Hg Hfe Hh Hen Hok Hfull <- Hc. unfold cl_block. rewrite run_bind_modify, !run_bind_gets.
  set (s0 := set_checkpoint _ s). destruct (ratio s0 <? cl_rat s0).
  - eexists. split; [reflexivity|]. left. split; [|by split_and!]. unfold writes. split_and!; try done; try apply Hw; try (by left).
    split; [|done]. change (size_of T <= maxcode s + 1). lia.
  - rewrite !run_bind_modify, run_bind_gets. change (hsize (set_ratio 0 s0)) with (hsize s).
    destruct Hset as (Hm & Hmm & Hhs & Hhr & Hsh & Hbc & Hst). rewrite Hhs.
    destruct (cl_hash_spec (set_ratio 0 s0)) as (h & E & Hempty). rewrite (run_bind_ok _ _ _ _ _ E).
    rewrite !run_bind_modify. set (s1 := set_clear_flg 1 _). eexists. split; [reflexivity|]. right.
    destruct (output_code_spec CLEAR s1 ltac:(done) Hg (or_intror eq_refl)) as (S & Hc' & Hm' & Hn' & Hg' & Hfin).
    { cbn. unfold width, INIT_BITS. lia. }
    change (after_code s1) with (Some INIT_BITS) in Hn', Hfin.
    change (CompressStream.next_maxcode s1) with (MAXCODE INIT_BITS) in Hm'. cbn [default] in Hn'.
    set (s' := output CLEAR s1) in *. clearbody s'.
    pose proof S as (_ & _ & _ & Eh & Ect & _ & Efe & _ & _ & Een & _).
    split; [|split_and!; try done].
    unfold writes. rewrite Hm', Hn', Eh, Ect, Efe, Een.
    split; [by eapply (settled_output s1); [split_and!|]|]. split; [exact Hc'|]. split; [reflexivity|].
    split; [by apply holds_nil|]. split; [constructor|]. split; [apply table_ok_nil|]. split; [by left|].
    split; [by apply width_ok_init|]. split; [by apply room_nil|exact Hg'].
Qed.

(** An octet. *)
Lemma zwrite_octet_spec T c s :
  writes T s -> octet c ->
  exists s' T', zwrite_octet c s = (Ok (), s') /\ writes T' s' /\
    forall l evs, encodes mb T' (ent s') (n_bits s') (maxcode s') l evs ->
      exists evs0, encodes mb T (ent s) (n_bits s) (maxcode s) (c :: l) evs0 /\ final evs0 s = final evs s'.
Proof.
  intros Hs Hc. pose proof Hs as (Hset & Hcf & Hfe & Hh & Hen & Hok & He & Hw & Hr & Hg).
  pose proof Hset as (Hm & Hmm & Hhs & Hhr & Hsh & Hbc & Hst).
  assert (9 <= mb <= 16) as Hmb9 by lia. pose proof Hr as [_ Hfull].
  pose proof (entry_ok T (ent s) c He Hfull Hc) as Hent.
  unfold zwrite_octet. rewrite !run_bind_modify, run_bind_get.
  set (s0 := set_fcode _ (set_in_count _ s)).
  change (htab s0) with (htab s). change (hsize_reg s0) with (hsize_reg s). change (hshift s0) with (hshift s).
  assert (fcode s0 = key mb (ent s, c)) as Efc by (unfold s0, key; simpl; by rewrite Hm).
  rewrite Efc, Hhr, Hsh. change (Z.lxor (Z.shiftl c 8) (ent s0)) with (home (ent s, c)).
  assert (writes T s0) as Hs0 by done.
  destruct (decide ((ent s, c) ∈ T)) as [Hin|Hnew].
  - apply list_elem_of_lookup in Hin as [j Hj].
    destruct (find_known mb Hmb9 T _ _ j _ Hen Hh Hj) as (i & -> & Eh & Ec). rewrite Eh, Z.eqb_refl.
    change (codetab s0 i) with (codetab s i). rewrite Ec. eexists _, T. split; [reflexivity|]. split.
    + unfold writes. cbn [ent set_ent]. split_and!; try done; try apply Hw; try apply Hr. by eapply code_ok_entry.
    + intros l evs Hevs. exists evs. split; [|done]. by eapply encodes_known.
  - assert (Z.of_nat (length T) < HSIZE) as Hlen.
    { assert (2 ^ mb <= 2 ^ 16) by (apply Z.pow_le_mono_r; lia). unfold size_of, FIRST, HSIZE in *. lia. }
    destruct (find_new mb Hmb9 T _ _ _ Hen Hh Hent Hnew Hlen) as (i & -> & Hneg & Hh').
    destruct (Z.eqb_spec (htab s i) (key mb (ent s, c))) as [E|_].
    { pose proof (key_nonneg mb _ Hent). lia. }
    rewrite !run_bind_modify. change (ent s0) with (ent s).
    destruct (output_ent T s0 Hs0) as (S & Hc1 & Hw1 & Hsz & Hg1 & En & Em & Hfin).
    change (ent s0) with (ent s) in *. set (s1 := output (ent s) s0) in *.
    change (n_bits s0) with (n_bits s) in *. change (maxcode s0) with (maxcode s) in *.
    clearbody s1. pose proof (settled_output s0 s1 Hset S) as Hset1.
    pose proof S as (_ & _ & _ & Eh & Ect & _ & Efe & _ & Ef & _).
    rewrite run_bind_get. set (s2 := set_ent c (set_out_count _ s1)).
    assert (settled s2) as Hset2 by exact Hset1. assert (ent s2 = c) as Een2 by done.
    assert (clear_flg s2 = 0) as Hc2 by exact Hc1. assert (free_ent s2 = size_of T) as Hfe2 by (by rewrite <- Hfe).
    assert (htab s2 = htab s) as Eh2 by exact Eh. assert (codetab s2 = codetab s) as Ect2 by exact Ect.
    assert (fcode s2 = key mb (ent s, c)) as Ef2 by (by rewrite <- Efc).
    assert (width_ok mb (n_bits s2) (maxcode s2)) as Hw2 by exact Hw1.
    assert (size_of T <= maxcode s2) as Hsz2 by exact Hsz. assert (wgroup s2) as Hg2 by exact Hg1.
    assert (n_bits s2 = n_bits s1) as En2 by done. assert (maxcode s2 = maxcode s1) as Em2 by done.
    assert (forall evs, final evs s2 = final ((ent s, after (n_bits s) (maxcode s) T) :: evs) s) as Hfin2 by exact Hfin.
    clearbody s2. rewrite <- En2 in En. rewrite <- Em2 in Em.
    clear - Hs Hmb Hc Hok Hen Hh Hh' He Hfull Hent Hnew Hlen Hset2 Een2 Hc2 Hfe2 Eh2 Ect2 Ef2 Hw2 Hsz2 Hg2 En Em Hfin2.
    pose proof Hset2 as (_ & Hmm2 & _ & _ & _ & Hbc2 & _).
    rewrite Hmm2, Hfe2. destruct (Z.ltb_spec (size_of T) (2 ^ mb)) as [Hroom|Hno].
    + rewrite !run_bind_modify. eexists _, (T ++ [(ent s, c)]). split; [reflexivity|].
      assert (size_of (T ++ [(ent s, c)]) = size_of T + 1) as Esz.
      { unfold size_of. rewrite length_app. simpl. lia. }
      assert (u16 (size_of T) = FIRST + Z.of_nat (length T)) as Eu.
      { rewrite uwrap_small; [done|]. assert (2 ^ mb <= 2 ^ 16) by (apply Z.pow_le_mono_r; lia).
        unfold size_of, FIRST in *. lia. }
      split.
      * unfold writes. cbn. rewrite Eu, Ef2, Eh2, Ect2, Esz, Een2.
        split; [exact Hset2|]. split; [exact Hc2|]. split; [reflexivity|]. split; [exact Hh'|].
        split; [by apply Forall_app_2; [|constructor]|]. split; [by apply table_ok_snoc|]. split; [by left|].
        split; [exact Hw2|]. split; [split; lia|exact Hg2].
      * intros l evs Hevs. cbn [ent n_bits maxcode set_htab set_free_ent set_codetab] in Hevs.
        rewrite Een2, En, Em in Hevs. exists ((ent s, after (n_bits s) (maxcode s) T) :: evs).
        split; [|symmetry; exact (Hfin2 evs)]. apply encodes_new; [done|unfold full; lia|exact Hevs].
    + assert (size_of T = 2 ^ mb) as Esz by lia. rewrite Hbc2.
      assert (writes T s2) as Hs2.
      { unfold writes. rewrite Hfe2, Eh2, Ect2, Een2. split; [exact Hset2|]. split; [exact Hc2|].
        split; [reflexivity|]. split; [exact Hh|]. split; [exact Hen|]. split; [exact Hok|]. split; [by left|].
        split; [exact Hw2|]. split; [split; lia|exact Hg2]. }
      destruct ((checkpoint s2 <=? in_count s2) && negb (BLOCK_MASK =? 0)); cbn [mwhen].
      2:{ exists s2, T. split; [reflexivity|]. split; [done|]. intros l evs Hevs. rewrite Een2, En, Em in Hevs.
          exists ((ent s, after (n_bits s) (maxcode s) T) :: evs). split; [|by rewrite Hfin2].
          apply encodes_full; [done|unfold full; lia|done]. }
      destruct (clear_spec T c s2) as (s' & -> & [(Hs' & Ec' & En' & Em' & Hf')|(Hs' & Ec' & En' & Em' & Hf')]);
        try assumption; try (by rewrite ?Eh2, ?Ect2).
      * exists s', T. split; [done|]. split; [done|]. intros l evs Hevs. rewrite Ec', En', Em', En, Em in Hevs.
        exists ((ent s, after (n_bits s) (maxcode s) T) :: evs). split; [|by rewrite Hf', Hfin2].
        apply encodes_full; [done|unfold full; lia|done].
      * exists s', []. split; [done|]. split; [done|]. intros l evs Hevs. rewrite Ec', En', Em' in Hevs.
        exists ((ent s, after (n_bits s) (maxcode s) T) :: (CLEAR, Some INIT_BITS) :: evs).
        split; [|by rewrite Hf', Hfin2]. apply encodes_clear; [done|unfold full; lia|done].
Qed.

Lemma zwrite_octets_spec l : forall T s,
  writes T s -> Forall octet l ->
  exists s' T', zwrite_octets l s = (Ok (), s') /\ writes T' s' /\
    forall l' evs, encodes mb T' (ent s') (n_bits s') (maxcode s') l' evs ->
      exists evs0, encodes mb T (ent s) (n_bits s) (maxcode s) (l ++ l') evs0 /\ final evs0 s = final evs s'.
Proof.
  induction l as [|c l IH]; intros T s Hs Hl.
  - exists s, T. split; [done|]. split; [done|]. intros l' evs Hevs. by exists evs.
  - inversion Hl; subst. destruct (zwrite_octet_spec T c s Hs) as (s1 & T1 & E & Hs1 & Hback); [done|].
    destruct (IH T1 s1 Hs1) as (s' & T' & E' & Hs' & Hback'); [done|]. exists s', T'. split.
    { cbn [zwrite_octets]. by rewrite (run_bind_ok _ _ _ _ _ E). }
    split; [done|]. intros l' evs Hevs. destruct (Hback' l' evs Hevs) as (evs1 & Henc1 & E1).
    destruct (Hback _ _ Henc1) as (evs0 & Henc0 & E0). exists evs0. split; [done|]. by rewrite E0, E1.
Qed.

(** The first octet. *)
Definition header : list Z := magic_header ++ [Z.lor mb BLOCK_MASK].

Definition fresh (s : zs) : Prop :=
  state s = S_START /\ maxbits s = mb /\ hsize s = HSIZE /\ block_compress s = BLOCK_MASK /\ fp s = [] /\
  length (buf s) = 16%nat /\ Forall octet (buf s).

Lemma zwrite_first_spec c s :
  fresh s -> octet c ->
  exists s', zwrite_first c s = (Ok (), s') /\ writes [] s' /\ ent s' = c /\ n_bits s' = INIT_BITS /\
    maxcode s' = MAXCODE INIT_BITS /\ fp s' = header /\ offset s' = 0 /\ buf s' = buf s.
Proof.
  destruct s. intros (Hst & Hm & Hhs & Hbc & Hfp & Hl & Hb) Hc. cbn in Hst, Hm, Hhs, Hbc, Hfp, Hl, Hb. subst.
  unfold zwrite_first. rewrite !run_bind_modify, run_bind_gets.
  settle. replace (shift_loop 17 HSIZE 0) with (Some (HSIZE, 0)) by reflexivity. cbv iota beta.
  rewrite !run_bind_modify. settle.
  match goal with |- context [cl_hash HSIZE ?s] => destruct (cl_hash_spec s) as (h & E & Hempty) end.
  rewrite E. clear E. eexists. split; [reflexivity|]. settle.
  split; [|split; [done|split; [done|split; [done|split; [|done]]]]].
  - unfold writes, settled, wgroup, group.
    settle.
    split; [split_and!; try done; by rewrite Z.shiftl_1_l|]. split; [done|]. split; [done|].
    split; [by apply holds_nil|]. split; [constructor|]. split; [apply table_ok_nil|]. split; [by left|].
    split; [by apply width_ok_init|]. split; [by apply room_nil|].
    split; [done|]. split; [done|]. split; [unfold width, INIT_BITS; lia|]. exists 0. lia.
  - unfold header.
    assert (mb = 10 \/ mb = 11 \/ mb = 12 \/ mb = 13 \/ mb = 14 \/ mb = 15 \/ mb = 16) as Hcases by lia.
    destruct Hcases as [E|[E|[E|[E|[E|[E|E]]]]]]; rewrite E; reflexivity.
Qed.

(** [zclose] writes the last code. *)
Lemma zclose_spec T s :
  writes T s -> exists s', zclose s = (Ok (), s') /\
    fp s' = final [(ent s, after (n_bits s) (maxcode s) T)] s.
Proof.
  intros Hs. unfold zclose. rewrite run_bind_gets, !run_bind_modify. eexists. split; [reflexivity|].
  destruct (output_ent T s Hs) as (_ & _ & _ & _ & Hg & _ & _ & Hfin). rewrite <- Hfin.
  exact (output_rest_spec (set_out_count _ (output (ent s) s)) Hg).
Qed.

(** The program writes pieces of any size. *)
Fixpoint zwrites (ls : list (list Z)) : W unit :=
  match ls with [] => mret () | l :: ls => _ ← zwrite l; zwrites ls end.

Lemma zwrite_empty s : zwrite [] s = (Ok 0, s).
Proof. done. Qed.

Lemma zwrite_middle l s : state s = S_MIDDLE -> zwrite l s = (_ ← zwrite_octets l; mret (Z.of_nat (length l))) s.
Proof. intros Hs. unfold zwrite. rewrite run_bind_gets, Hs. by destruct l. Qed.

Lemma zwrite_start c l s :
  state s = S_START -> zwrite (c :: l) s = (_ ← zwrite_first c; _ ← zwrite_octets l; mret (Z.of_nat (length (c :: l)))) s.
Proof. intros Hs. unfold zwrite. by rewrite run_bind_gets, Hs. Qed.

Lemma zwrites_middle ls : forall T s,
  writes T s -> Forall octet (concat ls) ->
  exists s' T', zwrites ls s = (Ok (), s') /\ writes T' s' /\
    forall l' evs, encodes mb T' (ent s') (n_bits s') (maxcode s') l' evs ->
      exists evs0, encodes mb T (ent s) (n_bits s) (maxcode s) (concat ls ++ l') evs0 /\
        final evs0 s = final evs s'.
Proof.
  induction ls as [|l ls IH]; intros T s Hs Hl.
  - exists s, T. split; [done|]. split; [done|]. intros l' evs Hevs. by exists evs.
  - cbn [concat] in Hl. apply Forall_app in Hl as [Hl Hls].
    destruct (zwrite_octets_spec l T s Hs Hl) as (s1 & T1 & E & Hs1 & Hback).
    destruct (IH T1 s1 Hs1 Hls) as (s' & T' & E' & Hs' & Hback'). exists s', T'. split.
    { cbn [zwrites]. pose proof Hs as ((_ & _ & _ & _ & _ & _ & Hst) & _).
      rewrite (run_bind_ok _ _ _ (Z.of_nat (length l)) s1); [done|].
      rewrite (zwrite_middle l s Hst), (run_bind_ok _ _ _ _ _ E). done. }
    split; [done|]. intros l' evs Hevs. destruct (Hback' l' evs Hevs) as (evs1 & Henc1 & E1).
    destruct (Hback _ _ Henc1) as (evs0 & Henc0 & E0). exists evs0. cbn [concat]. rewrite <- app_assoc.
    split; [done|]. by rewrite E0, E1.
Qed.

Lemma zwrites_fresh ls : forall s c rest,
  fresh s -> Forall octet (concat ls) -> concat ls = c :: rest ->
  exists s' evs, (_ ← zwrites ls; zclose) s = (Ok (), s') /\ encodes mb [] c INIT_BITS (MAXCODE INIT_BITS) rest evs /\
    fp s' = header ++ emit evs (buf s) 0 INIT_BITS.
Proof.
  induction ls as [|l ls IH]; intros s c rest Hs Hl Hc; [done|]. destruct l as [|c' l].
  - destruct (IH s c rest Hs Hl Hc) as (s' & evs & E & H). by exists s', evs.
  - injection Hc as -> Hrest. inversion Hl as [|? ? Hc Hl']; subst. apply Forall_app in Hl' as [Hl1 Hl2].
    destruct (zwrite_first_spec c s Hs Hc) as (s1 & E1 & Hs1 & Ee & En & Em & Ef & Eo & Eb).
    destruct (zwrite_octets_spec l [] s1 Hs1 Hl1) as (s2 & T2 & E2 & Hs2 & Hback2).
    destruct (zwrites_middle ls T2 s2 Hs2 Hl2) as (s3 & T3 & E3 & Hs3 & Hback3).
    destruct (zclose_spec T3 s3 Hs3) as (s' & E' & Ef').
    destruct (Hback3 [] _ (encodes_end mb T3 (ent s3) (n_bits s3) (maxcode s3))) as (evs2 & Henc2 & F2).
    destruct (Hback2 _ _ Henc2) as (evs & Henc & F1). rewrite app_nil_r, Ee, En, Em in Henc.
    exists s', evs. split; [|split; [done|]].
    + rewrite (run_bind_ok _ _ _ () s3); [done|].
      cbn [zwrites]. rewrite (run_bind_ok _ _ _ (Z.of_nat (length (c :: l))) s2); [done|].
      rewrite zwrite_start by apply Hs. by rewrite (run_bind_ok _ _ _ _ _ E1), (run_bind_ok _ _ _ _ _ E2).
    + rewrite Ef', <- F2, <- F1. unfold final. by rewrite Ef, Eo, Eb, En.
Qed.

End Writing.

(** ** Writing a file *)

Definition compressed (bits : Z) (ls : list (list Z)) : option (list Z) :=
  s ← zopen bits;
  match (_ ← zwrites ls; zclose) s with (Ok _, s') => Some (fp s') | _ => None end.

(** What [zopen] and then writing in pieces leave in the file. *)
Lemma compressed_spec bits ls c rest :
  bits = 0 \/ 10 <= bits <= 16 -> Forall octet (concat ls) -> concat ls = c :: rest ->
  exists evs, compressed bits ls = Some (header (bits_of bits) ++ emit evs (replicate 16 0) 0 INIT_BITS) /\
    encodes (bits_of bits) [] c INIT_BITS (MAXCODE INIT_BITS) rest evs.
Proof.
  intros Hbits Hl Hc. unfold compressed, zopen.
  assert (bits_ok bits = true) as -> by (unfold bits_ok, BITS; lia). cbn [mbind option_bind].
  match goal with |- context [(_ ← zwrites ls; zclose) ?s] => set (s0 := s) end.
  assert (10 <= bits_of bits <= 16) as Hmb.
  { unfold bits_of, BITS. destruct (Z.eqb_spec bits 0); lia. }
  destruct (zwrites_fresh (bits_of bits) Hmb ls s0 c rest) as (s' & evs & -> & Henc & ->); [|done|done|by exists evs].
  unfold fresh. split_and!; try done. by apply Forall_replicate.
Qed.
