(* ===== verification/CompressReader.v ===== *)
(** * compress: the reader decodes Lempel-Ziv-Welch codes

    Between two reads the stream holds the octets of the last code that are not put out yet, in
    [stack], and what is needed for the next code: the table so far, less the entry
    that only the next code settles, the code before it and its first octet. [at_top] is
    the state at the top of the loop of [zread], [ahead] the state between two calls. *)

From Stdlib Require Import ZArith Lia List Bool.
From stdpp Require Import base tactics list numbers functions.
From S2P Require Import Prelude Compress CompressBits CompressStream CompressTable CompressSpec.
Import Reader.

Local Open Scope Z_scope.

(** What reads of the sizes [ns] return when [d] is left. *)
Fixpoint slices (ns : list Z) (d : list Z) : list (Z * list Z) :=
  match ns with
  | [] => []
  | n :: ns =>
      let l := take (Z.to_nat n) d in
      (Z.of_nat (length l), l) :: slices ns (drop (Z.to_nat n) d)
  end.

Lemma emit_length evs : forall b off n,
  group b off n -> codes_fit evs n ->
  off + 9 * Z.of_nat (length evs) <= 8 * Z.of_nat (length (emit evs b off n)).
Proof.
  induction evs as [|[c after] evs IH]; intros b off n G F.
  - destruct (emit_before [] b off n G F) as [H _]. change (Z.of_nat (length (@nil event))) with 0. lia.
  - pose proof (group_bounds _ _ _ G) as (Ho & Hf & H8 & Hw). unfold width in Hw. destruct F as (_ & _ & F).
    pose proof G as (Hl & Hb & _). simpl. set (b' := put_code b off n c).
    assert (length b' = 16%nat) as Hl' by by apply put_code_length.
    destruct after as [n'|]; simpl in F; [|destruct (Z.eqb_spec (off + n) (8 * n))].
    + rewrite length_app, length_take. specialize (IH b' 0 n' (group_new _ _ _ _ _ G (codes_fit_width _ _ F)) F). lia.
    + rewrite length_app, length_take. specialize (IH b' 0 n (group_new _ _ _ _ _ G (codes_fit_width _ _ F)) F). lia.
    + specialize (IH b' (off + n) n (group_put _ _ _ _ G ltac:(lia)) F). lia.
Qed.

Lemma pending_length evs n ch f g r z :
  pending evs n ch f g r z -> 9 * Z.of_nat (length evs) <= 8 * Z.of_nat (length f) + 128.
Proof.
  intros (F & Hl & _ & b & off & G & Hio). pose proof (emit_length _ _ _ _ G F) as H.
  pose proof (group_bounds _ _ _ G) as (_ & _ & _ & Hw). unfold width in Hw.
  destruct Hio as [(-> & -> & _)|(Ho & _ & _ & g' & Eg & -> & _)]; [lia|]. rewrite length_drop. lia.
Qed.

(** ** Popping the stack *)

Lemma pop_spec p : forall count out,
  0 <= count -> p <> [] ->
  pop p count out =
    Some (if count <? Z.of_nat (length p) then Full (drop (Z.to_nat count) p) (out ++ take (Z.to_nat count) p)
          else Empty (count - Z.of_nat (length p)) (out ++ p)).
Proof.
  induction p as [|c p IH]; intros count out Hc Hp; [done|]. cbn [pop].
  destruct (Z.eqb_spec count 0) as [->|Hne].
  - cbn [length]. destruct (Z.ltb_spec 0 (Z.of_nat (S (length p)))); [|lia]. cbn. by rewrite app_nil_r.
  - destruct (Z.to_nat count) as [|k] eqn:Ek; [lia|]. assert (Z.to_nat (count - 1) = k) as Ek' by lia.
    destruct p as [|c' p].
    + cbn [length]. destruct (Z.ltb_spec count (Z.of_nat 1)); [lia|]. done.
    + rewrite IH by (done || lia). rewrite Ek'. cbn [length take drop] in *. rewrite <- !app_assoc.
      destruct (Z.ltb_spec (count - 1) (Z.of_nat (S (length p)))), (Z.ltb_spec count (Z.of_nat (S (S (length p)))));
        try lia; [done|]. f_equal. f_equal. lia.
Qed.

(** ** The strings of the codes *)

Lemma stack_size : DE_STACK_SIZE = 486472.
Proof. done. Qed.

Definition rtab (T : table) (r : zs) : Prop :=
  free_ent r = size_of T /\ (forall c, octet c -> tab_suffix r c = c) /\
  forall j p x, T !! j = Some (p, x) -> tab_prefix r (FIRST + Z.of_nat j) = p /\ tab_suffix r (FIRST + Z.of_nat j) = x.

Lemma push_spec c r :
  octet c -> Z.of_nat (length (stack r)) < DE_STACK_SIZE -> push c r = (Ok (), set_stack (c :: stack r) r).
Proof.
  intros Hc Hl. unfold push. rewrite run_bind_gets. destruct (Z.leb_spec DE_STACK_SIZE (Z.of_nat (length (stack r)))); [lia|].
  unfold modify. by rewrite uwrap_small.
Qed.

Lemma unwind_spec T e s : means T e s -> table_ok T -> forall r fuel,
  rtab T r -> code r = e -> Z.of_nat (length s + length (stack r)) <= DE_STACK_SIZE -> (length s <= S fuel)%nat ->
  unwind fuel r = (Ok (), set_stack (tail s ++ stack r) (set_code (hd 0 s) r)).
Proof.
  induction 1 as [c Hc|j p x s Hj Hs IH]; intros HT r fuel Hr Ec Hl Hfuel.
  - assert (unwind fuel r = (Ok (), r)) as ->.
    { destruct fuel; cbn [unwind]; rewrite run_bind_get, Ec; (destruct (Z.ltb_spec c 256); [done|unfold octet in *; lia]). }
    subst c. by destruct r.
  - pose proof (means_nonempty _ _ _ Hs) as Hne. destruct fuel as [|fuel].
    { exfalso. rewrite length_app in Hfuel. destruct s; [done|]. simpl in Hfuel. lia. }
    rewrite length_app in Hl, Hfuel. cbn [length] in Hl, Hfuel. destruct Hr as (Hf & Hs0 & Hr).
    destruct (Hr _ _ _ Hj) as [Hp Hx]. destruct (HT _ _ _ Hj) as [Hox _].
    cbn [unwind]. rewrite run_bind_get, Ec. destruct (Z.ltb_spec (FIRST + Z.of_nat j) 256); [unfold FIRST in *; lia|].
    rewrite Hx, (run_bind_ok _ _ _ _ _ (push_spec x r Hox ltac:(lia))), run_bind_modify, Hp.
    rewrite IH; try done; [|simpl; lia|lia]. destruct s as [|y s]; [done|]. cbn. by rewrite <- app_assoc.
Qed.

(** What [decode] does with a code that is not the next new one. *)
Definition expand : R bool :=
  _ ← unwind (S (Z.to_nat DE_STACK_SIZE));
  _ ← modify (fun s => set_finchar (tab_suffix s (code s)) s);
  f ← gets finchar;
  _ ← push f;
  mret true.

Lemma expand_spec T s r :
  rtab T r -> table_ok T -> means T (code r) s -> size_of T <= 2 ^ 16 -> (length (stack r) <= 1)%nat ->
  expand r = (Ok true, set_stack (s ++ stack r) (set_finchar (hd 0 s) (set_code (hd 0 s) r))).
Proof.
  intros Hr HT Hs Hsz Hst. pose proof (means_nonempty _ _ _ Hs) as Hne.
  assert (Z.of_nat (length s) <= 65536) as Hlen.
  { pose proof (means_length _ _ _ HT Hs). change (2 ^ 16) with 65536 in Hsz.
    destruct (means_ok _ _ _ Hs) as [Hok|Hok]; unfold octet in Hok; lia. }
  pose proof (means_octets _ _ _ HT Hs) as Hoct. pose proof stack_size as Hstk.
  assert (Z.of_nat (length s + length (stack r)) <= DE_STACK_SIZE) as Hroom by lia.
  assert (length s <= S (S (Z.to_nat DE_STACK_SIZE)))%nat as Hfuel by lia.
  unfold expand. rewrite (run_bind_ok _ _ _ _ _ (unwind_spec T _ s Hs HT r _ Hr eq_refl Hroom Hfuel)).
  destruct s as [|c s]; [done|]. inversion Hoct as [|? ? Hc _]; subst. rewrite run_bind_modify, run_bind_gets.
  cbn [hd tail]. match goal with |- context [finchar ?t] => set (r1 := t) end.
  assert (finchar r1 = c) as -> by (by apply Hr). rewrite (run_bind_ok _ _ r1 () (set_stack (c :: stack r1) r1)).
  - unfold r1. cbn [code tab_suffix set_stack set_code]. destruct Hr as (_ & Hs0 & _). by rewrite (Hs0 c Hc).
  - apply push_spec; [done|]. unfold r1. cbn [stack set_stack set_finchar]. rewrite length_app.
    cbn [length] in Hroom. lia.
Qed.

Lemma decode_known T s r :
  rtab T r -> table_ok T -> means T (code r) s -> stack r = [] -> size_of T <= 2 ^ 16 ->
  decode r = (Ok true, set_stack s (set_finchar (hd 0 s) (set_code (hd 0 s) (set_incode (code r) r)))).
Proof.
  intros Hr HT Hs Hst Hsz. pose proof Hr as (Hf & _). pose proof (means_ok _ _ _ Hs) as Hok.
  unfold decode. rewrite run_bind_modify, run_bind_get. cbn [free_ent code set_incode].
  destruct (Z.leb_spec (free_ent r) (code r)).
  { exfalso. rewrite Hf in *. destruct Hok as [Hok|Hok]; unfold octet, size_of, FIRST in *; lia. }
  rewrite run_bind_ret. cbn [negb]. transitivity (expand (set_incode (code r) r)); [done|].
  rewrite (expand_spec T s); try done; cbn [stack set_incode]; rewrite Hst; [by rewrite app_nil_r|simpl; lia].
Qed.

(** The string of a code that is not in the table yet is the last one with its first octet behind. *)
Lemma decode_next T s r :
  rtab T r -> table_ok T -> code r = free_ent r -> means T (oldcode r) s -> head s = Some (finchar r) ->
  stack r = [] -> size_of T <= 2 ^ 16 ->
  decode r = (Ok true, set_stack (s ++ [finchar r])
    (set_finchar (finchar r) (set_code (finchar r) (set_incode (free_ent r) r)))).
Proof.
  intros Hr HT Hc Hs Hh Hst Hsz. pose proof (means_ok _ _ _ Hs) as Hok.
  pose proof (means_octets _ _ _ HT Hs) as Hoct. destruct s as [|f s]; [done|]. injection Hh as Hf.
  inversion Hoct as [|? ? Hof _]; subst.
  unfold decode. rewrite run_bind_modify, run_bind_get. cbn [free_ent code set_incode oldcode].
  rewrite Hc, Z.leb_refl. assert (oldcode r <> -1) as Hold.
  { destruct Hok as [Hok|Hok]; unfold octet, FIRST in Hok; lia. }
  destruct (Z.ltb_spec (free_ent r) (free_ent r)); [lia|]. destruct (Z.eqb_spec (oldcode r) (-1)); [done|].
  cbn [orb]. cbv [mbind M_bind]. cbn [finchar set_incode].
  pose proof (push_spec (finchar r) (set_incode (free_ent r) r) Hof) as Hpush. cbn [stack set_incode] in Hpush.
  rewrite Hst in Hpush. rewrite Hpush by done. unfold modify. cbn [mret M_ret negb].
  match goal with |- context [unwind _ ?t] => set (r1 := t) end.
  change (expand r1 = (Ok true, set_stack ((finchar r :: s) ++ [finchar r])
    (set_finchar (finchar r) (set_code (finchar r) (set_incode (free_ent r) r))))).
  rewrite (expand_spec T (finchar r :: s) r1); try done.
Qed.

(** ** A turn of the loop *)

Lemma new_entry_run r :
  new_entry r = (Ok (),
    set_oldcode (incode r)
      (if (free_ent r <? maxmaxcode r) && negb (oldcode r =? -1) then
         set_free_ent (free_ent r + 1)
           (set_tab_suffix (<[free_ent r := u8 (finchar r)]> (tab_suffix r))
             (set_tab_prefix (<[free_ent r := u16 (oldcode r)]> (tab_prefix r)) (set_code (free_ent r) r)))
       else set_code (free_ent r) r)).
Proof.
  unfold new_entry. rewrite run_bind_modify, run_bind_get. cbn [code set_code maxmaxcode oldcode].
  by destruct ((free_ent r <? maxmaxcode r) && negb (oldcode r =? -1)).
Qed.

Section Reading.
Context (mb : Z).
Hypothesis (Hmb : 10 <= mb <= 16).

Definition constant (r : zs) : Prop :=
  maxbits r = mb /\ maxmaxcode r = 2 ^ mb /\ block_compress r = BLOCK_MASK /\ state r = S_MIDDLE.

(** What the reader knows of the code before, when [L] is left. *)
Inductive expects (T : table) (r : zs) (n mc : Z) (L : list Z) (evs : list event) : Prop :=
  | expects_next s :
      clear_flg r = 0 -> means T (oldcode r) s -> head s = Some (finchar r) ->
      follows mb T (oldcode r) n mc L evs -> expects T r n mc L evs
  | expects_first c l :
      T = [] -> clear_flg r = 1 -> oldcode r = -1 -> L = c :: l -> encodes mb [] c n mc l evs -> expects T r n mc L evs.

Definition at_top (k : nat) (r : zs) (L : list Z) : Prop :=
  constant r /\ stack r = [] /\ Forall octet L /\
  exists T evs, length evs = k /\ rtab T r /\ table_ok T /\ size_of T <= 2 ^ mb /\
    let n := n_bits (widen r) in
    pending evs n (change r) (fp r) (gbuf r) (roffset r) (size r) /\
    expects T r n (maxcode (widen r)) L evs.

(** The string of a code is on the stack. *)
Definition at_middle (k : nat) (r : zs) (L : list Z) : Prop :=
  constant r /\ stack r <> [] /\ exists L', L = stack r ++ L' /\ at_top k (snd (new_entry (set_stack [] r))) L'.

Lemma mb_16 : 2 ^ mb <= 2 ^ 16.
Proof. apply Z.pow_le_mono_r; lia. Qed.

(** The width of the next code. *)
Lemma widen_next T r :
  maxbits r = mb -> maxmaxcode r = 2 ^ mb -> clear_flg r = 0 -> free_ent r = size_of T ->
  n_bits (widen r) = default (n_bits r) (after (n_bits r) (maxcode r) T) /\
  maxcode (widen r) = next_mc mb (n_bits r) (maxcode r) T /\
  change r = bool_decide (is_Some (after (n_bits r) (maxcode r) T)).
Proof.
  destruct r as [fp er st n mb' mc mm tp ts fe bc c sk fi co ol ic ro sz gb].
  cbn [maxbits maxmaxcode clear_flg free_ent n_bits maxcode]. intros -> -> -> ->. unfold widen, change, after, next_mc.
  cbn [maxcode free_ent clear_flg n_bits]. by destruct (mc <? size_of T).
Qed.

Lemma widen_keeps r :
  maxbits (widen r) = maxbits r /\ maxmaxcode (widen r) = maxmaxcode r /\ tab_prefix (widen r) = tab_prefix r /\
  tab_suffix (widen r) = tab_suffix r /\ free_ent (widen r) = free_ent r /\ state (widen r) = state r /\
  block_compress (widen r) = block_compress r /\ stack (widen r) = stack r /\ finchar (widen r) = finchar r /\
  oldcode (widen r) = oldcode r.
Proof. unfold widen. by repeat case_match. Qed.

Lemma widen_clears r : clear_flg r = 0 \/ clear_flg r = 1 -> clear_flg (widen r) = 0.
Proof.
  intros Hr. destruct r as [fp er st n mb' mc mm tp ts fe bc c sk fi co ol ic ro sz gb]. cbn [clear_flg] in Hr. unfold widen.
  cbn [maxcode free_ent]. by destruct Hr as [-> | ->], (mc <? fe).
Qed.

Lemma rtab_snoc T p x r :
  rtab T r -> code_ok T p -> octet x -> size_of T < 2 ^ mb ->
  let r' := set_free_ent (free_ent r + 1) (set_tab_suffix (<[free_ent r := u8 x]> (tab_suffix r))
    (set_tab_prefix (<[free_ent r := u16 p]> (tab_prefix r)) r)) in
  rtab (T ++ [(p, x)]) r'.
Proof.
  intros (Hf & Hs & Ht) Hp Hx Hsz r'. pose proof mb_16 as H16. change (2 ^ 16) with 65536 in H16.
  unfold rtab, r'. cbn [free_ent tab_suffix tab_prefix set_free_ent set_tab_suffix set_tab_prefix].
  rewrite Hf. split; [unfold size_of; rewrite length_app; simpl length; lia|]. split.
  - intros c Hc. rewrite insert_ne; [by apply Hs|]. unfold size_of, FIRST, octet in *. lia.
  - intros j q y Hj. apply lookup_app_Some in Hj as [Hj|[Hge Hj]].
    + pose proof (lookup_lt_Some _ _ _ Hj). rewrite !insert_ne by (unfold size_of; lia). by apply Ht.
    + apply list_lookup_singleton_Some in Hj as [Hj [= <- <-]].
      replace (FIRST + Z.of_nat j) with (size_of T) by (unfold size_of; lia). rewrite !insert_eq.
      split; apply uwrap_small; [|done]. unfold size_of, FIRST in *. destruct Hp as [Hp|Hp]; unfold octet, size_of, FIRST in Hp; lia.
Qed.

(** The table after the code [e] that has the string [s]. *)
Definition grown (T : table) (r : zs) (s : list Z) (T' : table) : Prop :=
  (T' = T ++ [(oldcode r, hd 0 s)] /\ size_of T < 2 ^ mb /\ code_ok T (oldcode r)) \/
  (T' = T /\ (2 ^ mb <= size_of T \/ oldcode r = -1)).

Lemma middle_next T T' r s e x L evs :
  let n := n_bits r in let mc := maxcode r in
  constant r -> clear_flg r = 0 -> rtab T r -> grown T r s T' -> table_ok T' -> size_of T' <= 2 ^ mb -> means T' e s ->
  pending evs (default n (after n mc T')) (bool_decide (is_Some (after n mc T'))) (fp r) (gbuf r) (roffset r) (size r) ->
  follows mb T' e (default n (after n mc T')) (next_mc mb n mc T') L evs -> Forall octet (s ++ L) ->
  at_middle (length evs) (set_stack s (set_finchar (hd 0 s) (set_code x (set_incode e r)))) (s ++ L).
Proof.
  intros n mc Hk Hc Hr Hg HT Hsz Hs Hp Hfo Ho. pose proof (means_nonempty _ _ _ Hs) as Hne.
  split; [done|]. split; [done|]. exists L. split; [done|]. rewrite new_entry_run. cbn [snd].
  apply Forall_app in Ho as [Hos HoL]. pose proof Hk as (Hm & Hmm & Hbc & Hst).
  cbn [free_ent maxmaxcode oldcode finchar tab_suffix tab_prefix incode set_stack set_finchar set_code set_incode].
  match goal with |- at_top _ ?t _ => set (r' := t) end.
  assert (constant r' /\ stack r' = [] /\ clear_flg r' = 0 /\ rtab T' r' /\ oldcode r' = e /\ finchar r' = hd 0 s /\
    n_bits r' = n /\ maxcode r' = mc /\ fp r' = fp r /\ gbuf r' = gbuf r /\ roffset r' = roffset r /\ size r' = size r)
    as (Hk' & Hst' & Hc' & Hr' & Eo & Ef & En & Em & Efp & Eg & Ero & Esz).
  { unfold r'. pose proof Hr as (Hf & _). rewrite Hf, Hmm. destruct Hg as [(-> & Hlt & Hok)|[-> Hfull]].
    - assert ((size_of T <? 2 ^ mb) && negb (oldcode r =? -1) = true) as ->.
      { apply andb_true_iff. split; [by apply Z.ltb_lt|]. apply negb_true_iff, Z.eqb_neq.
        destruct Hok as [Hok|Hok]; unfold octet, FIRST in Hok; lia. }
      split_and!; try done. pose proof (rtab_snoc T (oldcode r) (hd 0 s) r Hr Hok) as Hsn.
      rewrite Hf in Hsn. apply Hsn; [|done]. destruct s as [|y s]; [done|]. by inversion Hos.
    - assert ((size_of T <? 2 ^ mb) && negb (oldcode r =? -1) = false) as ->.
      { apply andb_false_iff. destruct Hfull as [Hfull| ->]; [left; by apply Z.ltb_ge|by right]. }
      split_and!; done. }
  clearbody r'. pose proof Hk' as (Hm' & Hmm' & _). pose proof Hr' as (Hf' & _).
  destruct (widen_next T' r' Hm' Hmm' Hc' Hf') as (Wn & Wm & Wc).
  split; [done|]. split; [done|]. split; [done|]. exists T', evs. cbv zeta.
  rewrite Wn, Wm, Wc, En, Em, Efp, Eg, Ero, Esz. do 4 (split; [done|]). split; [done|].
  apply (expects_next _ _ _ _ _ _ s); rewrite ?Eo, ?Ef; try done. by destruct s.
Qed.

(** The state in which a code has been taken. *)
Lemma taken f g o z r :
  constant r -> stack r = [] -> (clear_flg r = 0 \/ clear_flg r = 1) ->
  let r1 := set_io f g o z (widen r) in
  constant r1 /\ stack r1 = [] /\ clear_flg r1 = 0 /\ oldcode r1 = oldcode r /\ finchar r1 = finchar r /\
  n_bits r1 = n_bits (widen r) /\ maxcode r1 = maxcode (widen r) /\ (forall T, rtab T r -> rtab T r1).
Proof.
  intros (Hm & Hmm & Hbc & Hs) Hst Hc r1. destruct (widen_keeps r) as (E1 & E2 & E3 & E4 & E5 & E6 & E7 & E8 & E9 & E10).
  pose proof (widen_clears r Hc) as Hc'. unfold constant, rtab, r1, set_io.
  cbn [maxbits maxmaxcode block_compress state stack clear_flg oldcode finchar n_bits maxcode free_ent tab_suffix tab_prefix
    set_size set_roffset set_gbuf set_fp].
  rewrite E1, E2, E3, E4, E5, E6, E7, E8, E9, E10. by split_and!.
Qed.

(** [CLEAR] has been taken. *)
Definition cleared (r : zs) : zs :=
  set_oldcode (-1) (set_free_ent FIRST (set_clear_flg 1 (set_code (-1)
    (set_tab_prefix (first_codes 256 (fun _ => 0) (tab_prefix r)) r)))).

Lemma at_cleared T r c l evs :
  constant r -> stack r = [] -> rtab T r -> Forall octet (c :: l) ->
  pending evs INIT_BITS true (fp r) (gbuf r) (roffset r) (size r) ->
  encodes mb [] c INIT_BITS (MAXCODE INIT_BITS) l evs -> at_top (length evs) (cleared r) (c :: l).
Proof.
  intros Hk Hst (_ & Hs & _) Hl Hp He. split; [done|]. split; [done|]. split; [done|]. exists [], evs.
  assert (widen (cleared r) = set_clear_flg 0 (set_maxcode (MAXCODE INIT_BITS) (set_n_bits INIT_BITS (widen (set_clear_flg 0 (cleared r)))))) as Hw.
  { unfold widen. cbn [maxcode free_ent cleared set_oldcode set_free_ent set_clear_flg set_code set_tab_prefix].
    by destruct (maxcode r <? FIRST). }
  assert (n_bits (widen (cleared r)) = INIT_BITS /\ maxcode (widen (cleared r)) = MAXCODE INIT_BITS) as [-> ->]
    by (by rewrite Hw).
  split; [done|]. split.
  { split; [done|]. split; [done|]. intros j p x. by rewrite lookup_nil. }
  split; [apply table_ok_nil|]. split.
  { assert (2 ^ 10 <= 2 ^ mb) by (apply Z.pow_le_mono_r; lia). change (size_of []) with 257. lia. }
  split; [done|]. by apply (expects_first _ _ _ _ _ _ c l).
Qed.

Lemma at_cleared_code T r c l evs :
  constant r -> stack r = [] -> rtab T r -> Forall octet (c :: l) ->
  pending evs INIT_BITS true (fp r) (gbuf r) (roffset r) (size r) ->
  encodes mb [] c INIT_BITS (MAXCODE INIT_BITS) l evs -> at_top (length evs) (cleared (set_code CLEAR r)) (c :: l).
Proof. intros Hk Hst Hr Hl Hp He. exact (at_cleared T (set_code CLEAR r) c l evs Hk Hst Hr Hl Hp He). Qed.

Lemma turn_clear T r c l evs :
  constant r -> stack r = [] -> (clear_flg r = 0 \/ clear_flg r = 1) -> rtab T r -> Forall octet (c :: l) ->
  pending ((CLEAR, Some INIT_BITS) :: evs) (n_bits (widen r)) (change r) (fp r) (gbuf r) (roffset r) (size r) ->
  encodes mb [] c INIT_BITS (MAXCODE INIT_BITS) l evs ->
  exists r1, getcode r = (Ok CLEAR, r1) /\ constant r1 /\ at_top (length evs) (cleared (set_code CLEAR r1)) (c :: l).
Proof.
  intros Hk Hst Hcf Hr Hl Hp He. destruct (getcode_next _ _ evs r Hp) as (f & g & o & z & Eg & Hp').
  destruct (taken f g o z r Hk Hst Hcf) as (Hk1 & Hst1 & _ & _ & _ & _ & _ & Hr1).
  specialize (Hr1 T Hr). rewrite Eg. clear Eg Hr.
  assert (pending evs INIT_BITS true (fp (set_io f g o z (widen r)))
    (gbuf (set_io f g o z (widen r))) (roffset (set_io f g o z (widen r))) (size (set_io f g o z (widen r)))) as Hp1 by exact Hp'.
  clear Hp'. exists (set_io f g o z (widen r)). split; [done|]. split; [done|].
  set (r1 := set_io f g o z (widen r)) in *. clearbody r1.
  by apply (at_cleared_code T).
Qed.

Lemma encodes_more T e n mc l evs : encodes mb T e n mc l evs -> evs <> [].
Proof. by induction 1. Qed.

Lemma at_top_end r L : at_top 0 r L -> L = [] /\ exists f g o z, getcode r = (Ok (-1), set_io f g o z (widen r)).
Proof.
  intros (_ & _ & _ & T & evs & He & _ & _ & _ & Hp & Hx). destruct evs; [|done]. split; [|by apply getcode_end].
  destruct Hx as [s _ _ _ Hfo|c l _ _ _ _ Henc]; [|by apply encodes_more in Henc].
  inversion Hfo as [|? ? ? ? ? _ _ Henc|? ? ? ? ? _ Henc|]; subst; [done| |]; by apply encodes_more in Henc.
Qed.

Lemma code_of_string T e : code_ok T e -> 0 <= e /\ e <> CLEAR.
Proof. intros [He|He]; unfold octet, FIRST, CLEAR in *; lia. Qed.

(** The table of the writer is the reader's, or has one more entry. *)
Definition behind (T : table) (r : zs) (c : Z) (T' : table) : Prop :=
  T' = T \/ exists s, T' = T ++ [(oldcode r, c)] /\ means T (oldcode r) s /\ head s = Some (finchar r).

Lemma turn_decode T T' r e s c l l' evs :
  let n := n_bits r in let mc := maxcode r in
  constant r -> stack r = [] -> clear_flg r = 0 -> Forall octet (c :: l) -> rtab T r ->
  table_ok T -> table_ok T' -> size_of T' <= 2 ^ mb ->
  pending evs (default n (after n mc T')) (bool_decide (is_Some (after n mc T'))) (fp r) (gbuf r) (roffset r) (size r) ->
  means T' e s -> head s = Some c -> c :: l = s ++ l' ->
  follows mb T' e (default n (after n mc T')) (next_mc mb n mc T') l' evs ->
  grown T r s T' -> behind T r c T' ->
  exists r', decode (set_code e r) = (Ok true, r') /\ at_middle (length evs) r' (c :: l).
Proof.
  intros n mc Hk Hst Hcf Hl Hr HT HT' Hsz Hp Hs Hh El Hfo Hg Hlast. pose proof mb_16 as H16.
  assert (forall x, at_middle (length evs) (set_stack s (set_finchar (hd 0 s) (set_code x (set_incode e (set_code e r))))) (c :: l)) as Hmid.
  { intros x. rewrite El in Hl |- *. by apply (middle_next T T' (set_code e r)). }
  destruct Hlast as [->|(s0 & -> & Hs0 & Hh0)].
  - eexists. split; [|apply (Hmid (hd 0 s))]. by apply (decode_known T s (set_code e r)); try lia.
  - assert (size_of T <= 2 ^ 16) as Hsz16.
    { unfold size_of in *. rewrite length_app in Hsz. lia. }
    destruct (decide (e < size_of T)) as [Hlt|Hge].
    + eexists. split; [|apply (Hmid (hd 0 s))]. apply (decode_known T s (set_code e r)); try done. by eapply means_shorter.
    + assert (e = size_of T) as ->.
      { pose proof (means_ok _ _ _ Hs) as Hok. unfold code_ok, size_of in *. rewrite length_app in Hok. simpl length in Hok.
        destruct Hok as [Hok|Hok]; unfold octet, FIRST in *; lia. }
      destruct (means_last _ _ _ _ HT' Hs) as (s1 & Hs1 & ->). pose proof (means_inj _ _ _ _ HT Hs0 Hs1) as <-.
      destruct s0 as [|y s0]; [by apply means_nonempty in Hs0|]. injection Hh0 as Hfin. injection Hh as <-.
      eexists. split; [|apply (Hmid y)]. pose proof Hr as (Hf1 & _).
      rewrite (decode_next T (y :: s0) (set_code (size_of T) r)); try done; cbn [finchar free_ent code set_code].
      * by rewrite <- Hfin, Hf1.
      * by rewrite Hfin.
Qed.

(** A turn of the loop, in a state where the stream has [evs], the codes for [l] from the code of [c] on. *)
Lemma turn T T' r c l evs :
  let n := n_bits (widen r) in let mc := maxcode (widen r) in
  constant r -> stack r = [] -> (clear_flg r = 0 \/ clear_flg r = 1) -> Forall octet (c :: l) -> rtab T r ->
  table_ok T -> table_ok T' -> size_of T' <= 2 ^ mb -> pending evs n (change r) (fp r) (gbuf r) (roffset r) (size r) ->
  encodes mb T' c n mc l evs -> (forall s, head s = Some c -> grown T r s T') -> behind T r c T' ->
  exists e r1 r', getcode r = (Ok e, r1) /\ 0 <= e /\ e <> CLEAR /\ constant r1 /\
    decode (set_code e r1) = (Ok true, r') /\ at_middle (pred (length evs)) r' (c :: l).
Proof.
  intros n mc Hk Hst Hcf Hl Hr HT HT' Hsz Hp Henc Hg Hlast. inversion Hl as [|? ? Hc Hl']; subst.
  destruct (next_code mb T' c n mc l evs [c] Henc (means_octet _ _ Hc)) as (e & s & l' & evs' & -> & Hs & Hh & El & Hfo).
  destruct (getcode_next e _ evs' r Hp) as (f & g & o & z & Eg & Hp'). fold n in Hp'.
  destruct (taken f g o z r Hk Hst Hcf) as (Hk1 & Hst1 & Hcf1 & Eo1 & Ef1 & En1 & Em1 & Hr1). fold n in En1. fold mc in Em1.
  specialize (Hr1 T Hr). destruct (code_of_string _ _ (means_ok _ _ _ Hs)) as [He0 HeC].
  exists e, (set_io f g o z (widen r)). cbn [length pred].
  assert (pending evs' (default n (after n mc T')) (bool_decide (is_Some (after n mc T'))) (fp (set_io f g o z (widen r)))
    (gbuf (set_io f g o z (widen r))) (roffset (set_io f g o z (widen r))) (size (set_io f g o z (widen r)))) as Hp1 by exact Hp'.
  clear Hp'. rewrite Eg. clear Eg. set (r1 := set_io f g o z (widen r)) in *. clearbody r1.
  destruct (turn_decode T T' r1 e s c l l' evs') as (r' & Ed & Hmid); rewrite ?En1, ?Em1; try done.
  - specialize (Hg s Hh). unfold grown in *. by rewrite Eo1.
  - unfold behind in *. by rewrite Eo1, Ef1.
  - by exists r'.
Qed.

Lemma at_top_more k r L :
  at_top (S k) r L ->
  exists e r1, getcode r = (Ok e, r1) /\ constant r1 /\ 0 <= e /\
    ((e = CLEAR /\ at_top k (cleared (set_code e r1)) L) \/
     (e <> CLEAR /\ exists r', decode (set_code e r1) = (Ok true, r') /\ at_middle k r' L)).
Proof.
  intros (Hk & Hst & Hl & T & evs & Hlen & Hr & HT & Hsz & Hp & Hx). cbv zeta in Hp, Hx.
  destruct Hx as [s Hcf Hs Hh Hfo|c l -> Hcf Hold -> Henc].
  - inversion Hfo as [n mc|n mc c l evs' Hnew Hroom Henc|n mc c l evs' Hfull Henc|n mc c l evs' Hfull Henc]; subst; [done|..].
    + inversion Hl as [|? ? Hc _]; subst. unfold full in Hroom.
      destruct (turn T (T ++ [(oldcode r, c)]) r c l evs) as (e & r1 & r' & Eg & He & HeC & Hk1 & Ed & Hmid);
        try done; [by left| | | | |].
      * apply table_ok_snoc; [done| |done]. by eapply means_ok.
      * unfold size_of in *. rewrite length_app. simpl length. lia.
      * intros s' Hs'. left. destruct s' as [|y s']; [done|]. injection Hs' as ->.
        split; [done|]. split; [lia|]. by eapply means_ok.
      * right. by exists s.
      * rewrite Hlen in Hmid. exists e, r1. split; [done|]. split; [done|]. split; [done|]. right. split; [done|]. by exists r'.
    + destruct (turn T T r c l evs) as (e & r1 & r' & Eg & He & HeC & Hk1 & Ed & Hmid); try done;
        [by left|intros s' _; right; split; [done|by left]|by left|].
      rewrite Hlen in Hmid. exists e, r1. split; [done|]. split; [done|]. split; [done|]. right. split; [done|]. by exists r'.
    + destruct (turn_clear T r c l evs') as (r1 & Eg & Hk1 & Htop); try done; [by left|].
      injection Hlen as <-. exists CLEAR, r1. split; [done|]. split; [done|]. split; [done|]. by left.
  - destruct (turn [] [] r c l evs) as (e & r1 & r' & Eg & He & HeC & Hk1 & Ed & Hmid); try done;
      [by right|intros s' _; right; split; [done|by right]|by left|].
    rewrite Hlen in Hmid. exists e, r1. split; [done|]. split; [done|]. split; [done|]. right. split; [done|]. by exists r'.
Qed.

(** ** Reading *)

(** What is left between two reads. *)
Definition left_over (r : zs) (L : list Z) : Prop :=
  (state r = S_EOF /\ L = []) \/ exists k, at_middle k r L.

Lemma at_top_turns k r L : at_top k r L -> (k < turns r)%nat.
Proof.
  intros (_ & _ & _ & T & evs & <- & _ & _ & _ & Hp & _). apply pending_length in Hp. unfold turns, BITS. lia.
Qed.

Lemma at_middle_turns k r L : at_middle k r L -> (k < turns r)%nat.
Proof.
  intros (_ & _ & L' & _ & Htop). apply at_top_turns in Htop. rewrite new_entry_run in Htop. cbn [snd] in Htop.
  unfold turns in *. by destruct (_ && _).
Qed.

(** What a read of [count] octets returns, after [out] of them. *)
Definition reads (num count : Z) (out : list Z) (m : R (Z * list Z)) (r : zs) (L : list Z) : Prop :=
  exists r', m r = (Ok (num - (count - Z.min count (Z.of_nat (length L))), out ++ take (Z.to_nat count) L), r') /\
    left_over r' (drop (Z.to_nat count) L).

Lemma middle_reads again num count out k r L :
  (forall r L count out, at_top k r L -> 0 <= count -> reads num count out (again count out) r L) ->
  at_middle k r L -> 0 <= count -> reads num count out (middle again num count out) r L.
Proof.
  intros Hagain Hmid Hc. pose proof Hmid as (Hk & Hne & L' & -> & Htop). unfold reads, middle. rewrite run_bind_gets.
  rewrite pop_spec by done. destruct (Z.ltb_spec count (Z.of_nat (length (stack r)))) as [Hlt|Hge]; cbv iota.
  - rewrite run_bind_modify. eexists. split.
    + rewrite length_app, take_app_le by lia.
      replace (num - _) with num by lia. reflexivity.
    + right. exists k. rewrite drop_app_le by lia. split; [done|]. cbn [stack set_stack]. split.
      { intros E. apply (f_equal length) in E. rewrite length_drop in E. cbn [length] in E. lia. }
      by exists L'.
  - rewrite run_bind_modify. rewrite new_entry_run in Htop. cbn [snd] in Htop.
    rewrite (run_bind_ok _ _ _ _ _ (new_entry_run _)).
    destruct (Hagain _ L' (count - Z.of_nat (length (stack r))) (out ++ stack r) Htop ltac:(lia)) as (r' & -> & Hleft).
    exists r'. split.
    + rewrite length_app, take_app_ge by lia. rewrite <- app_assoc. do 3 f_equal; [lia|]. do 3 f_equal. lia.
    + rewrite drop_app_ge by lia. by replace (Z.to_nat count - length (stack r))%nat with (Z.to_nat (count - Z.of_nat (length (stack r)))) by lia.
Qed.

Lemma loop_reads num fuel : forall k r L count out,
  (k < fuel)%nat -> at_top k r L -> 0 <= count -> reads num count out (zread_loop fuel num count out) r L.
Proof.
  induction fuel as [|fuel IH]; intros k r L count out Hfuel Htop Hc; [lia|]. cbn [zread_loop]. destruct k as [|k].
  - destruct (at_top_end r L Htop) as (-> & f & g & o & z & Eg). unfold reads.
    rewrite (run_bind_ok _ _ _ _ _ Eg), run_bind_modify, run_bind_gets.
    change (-1 <=? -1) with true. cbv iota. rewrite run_bind_modify. eexists. split.
    + rewrite take_nil, app_nil_r. cbn [length]. rewrite Z.min_r by lia. rewrite Z.sub_0_r. reflexivity.
    + left. by rewrite drop_nil.
  - destruct (at_top_more k r L Htop) as (e & r1 & Eg & Hk1 & He & Hcase). pose proof Hk1 as (_ & _ & Hbc & _).
    unfold reads. rewrite (run_bind_ok _ _ _ _ _ Eg), run_bind_modify, run_bind_gets.
    change (block_compress (set_code e r1)) with (block_compress r1). rewrite Hbc.
    destruct (Z.leb_spec e (-1)); [lia|]. change (negb (BLOCK_MASK =? 0)) with true. rewrite andb_true_r.
    destruct Hcase as [[-> Htop']|(HeC & r' & Ed & Hmid)].
    + rewrite Z.eqb_refl. unfold clear_prefix. rewrite !run_bind_modify. apply (IH k); [lia|exact Htop'|done].
    + destruct (Z.eqb_spec e CLEAR); [done|]. rewrite (run_bind_ok _ _ _ _ _ Ed). cbn [negb].
      apply (middle_reads _ _ _ _ k); [|done|done]. intros. apply (IH k); [lia|done|done].
Qed.

Lemma zread_left r L num :
  left_over r L -> 0 <= num ->
  exists r', zread num r = (Ok (Z.of_nat (length (take (Z.to_nat num) L)), take (Z.to_nat num) L), r') /\
    left_over r' (drop (Z.to_nat num) L).
Proof.
  intros Hl Hn. unfold zread. destruct (Z.eqb_spec num 0) as [->|Hne]; [by exists r|]. rewrite run_bind_gets.
  destruct Hl as [(Hst & ->)|(k & Hmid)].
  - exists r. rewrite Hst, take_nil, drop_nil. split; [done|by left].
  - pose proof Hmid as ((_ & _ & _ & Hst) & _). rewrite Hst, run_bind_gets.
    destruct (middle_reads (zread_loop (turns r) num) num num [] k r L) as (r' & -> & Hleft); [|done|done|].
    { intros. apply (loop_reads _ _ k); [by eapply at_middle_turns|done|done]. }
    exists r'. split; [|done]. rewrite length_take. do 3 f_equal. lia.
Qed.

End Reading.

(** ** The first read *)

Lemma first_codes_spec n v t i :
  0 <= i < Z.of_nat n -> first_codes n v t i = v i.
Proof.
  revert t. induction n as [|n IH]; intros t Hi; [lia|]. cbn [first_codes].
  destruct (decide (i = Z.of_nat n)) as [->|Hne]; [|apply IH; lia].
  clear IH Hi. assert (forall m t, (m <= n)%nat -> first_codes m v t (Z.of_nat n) = t (Z.of_nat n)) as Hrest.
  { induction m as [|m IH]; intros u Hm; [done|]. cbn [first_codes]. rewrite IH by lia. apply insert_ne. lia. }
  rewrite Hrest by lia. apply insert_eq.
Qed.

Lemma first_codes_above n v t i : Z.of_nat n <= i -> first_codes n v t i = t i.
Proof.
  revert t. induction n as [|n IH]; intros t Hi; [done|]. cbn [first_codes]. rewrite IH by lia. apply insert_ne. lia.
Qed.

Lemma zopen_some file bits :
  bits_ok bits = true ->
  exists s, zopen file bits = Some s /\ fp s = file /\ state s = S_START /\ clear_flg s = 0 /\ roffset s = 0 /\
    size s = 0 /\ gbuf s = replicate 16 0 /\ tab_prefix s = (fun _ => 0).
Proof. intros Hb. unfold zopen. rewrite Hb. eexists. by split_and!. Qed.

Lemma zread_start num r : state r = S_START -> num <> 0 -> zread num r = zread_first num r.
Proof. intros Hs Hn. unfold zread. destruct (Z.eqb_spec num 0); [done|]. by rewrite run_bind_gets, Hs. Qed.

(** The header of a file that is read. *)
Definition header_ok (file : list Z) : bool :=
  match file with
  | m0 :: m1 :: b :: _ =>
      bool_decide ([m0; m1] = magic_header) && negb ((BITS <? Z.land b BIT_MASK) || (Z.land b BIT_MASK <? 12))
  | _ => false
  end.

(** The stream with the header behind it. *)
Definition opened (b : Z) (body : list Z) (r : zs) : zs :=
  let r := set_fp body (set_state S_MIDDLE r) in
  let r := set_maxbits (Z.land b BIT_MASK) (set_block_compress (Z.land b BLOCK_MASK) r) in
  let r := set_maxmaxcode (Z.shiftl 1 (Z.land b BIT_MASK)) r in
  let r := set_maxcode (MAXCODE INIT_BITS) (set_n_bits INIT_BITS r) in
  let r := set_tab_prefix (first_codes 256 (fun _ => 0) (tab_prefix r)) r in
  let r := set_tab_suffix (first_codes 256 (fun c => c) (tab_suffix r)) r in
  let r := set_code (-1) r in
  set_free_ent (if negb (block_compress r =? 0) then FIRST else 256) r.

Lemma zread_first_run num m0 m1 b body r :
  fp r = m0 :: m1 :: b :: body -> header_ok (fp r) = true ->
  zread_first num r =
    (c ← getcode;
     _ ← modify (set_oldcode c);
     _ ← modify (set_finchar c);
     if c =? -1 then mret (0, [])
     else
       _ ← modify (set_stack []);
       n ← gets turns;
       zread_loop n num (num - 1) [u8 c]) (opened b body r).
Proof.
  intros Hfp Hok. rewrite Hfp in Hok. cbn [header_ok] in Hok. apply andb_true_iff in Hok as [Hmagic Hmb%negb_true_iff].
  unfold zread_first, fread. rewrite run_bind_modify, run_bind_assoc, run_bind_gets, run_bind_assoc, run_bind_modify, run_bind_ret.
  cbn [fp set_state]. rewrite Hfp. change (Z.to_nat 3) with 3%nat. cbn [take drop]. rewrite drop_0, take_0. cbv iota beta.
  rewrite Hmagic. cbn [negb]. rewrite !run_bind_modify, run_bind_gets. cbn [maxbits set_maxmaxcode set_maxbits].
  rewrite Hmb. rewrite !run_bind_modify. unfold clear_prefix, init_suffix. rewrite !run_bind_modify.
  reflexivity.
Qed.

Lemma zread_first_refuses num r :
  header_ok (fp r) = false -> exists r', zread_first num r = (Ok (-1, []), r') /\ errno r' = Some EFTYPE.
Proof.
  intros Hok. unfold zread_first, fread.
  rewrite run_bind_modify, run_bind_assoc, run_bind_gets, run_bind_assoc, run_bind_modify, run_bind_ret.
  cbn [fp set_state]. change (Z.to_nat 3) with 3%nat.
  destruct (fp r) as [|m0 [|m1 [|b body]]]; cbn [take drop]; try (by eexists). rewrite drop_0, take_0. cbv iota beta.
  cbn [header_ok] in Hok. destruct (bool_decide ([m0; m1] = magic_header)); cbn [negb andb] in *; [|by eexists].
  apply negb_false_iff in Hok.
  rewrite !run_bind_modify, run_bind_gets. cbn [maxbits set_maxmaxcode set_maxbits]. rewrite Hok. by eexists.
Qed.
