(* ===== verification/CompressFacts.v ===== *)
(** * compress: what is compressed is uncompressed again

    The two halves together: a file that [zopen], any number of [zwrite]s and [zclose] leave is
    read back by [zread]s of any sizes. *)

From Stdlib Require Import ZArith Lia List Bool.
From stdpp Require Import base tactics list numbers functions.
From S2P Require Import Prelude Compress CompressBits CompressStream CompressTable CompressSpec CompressWriter CompressReader.
Import Reader.

Local Open Scope Z_scope.

(** A file that is read in pieces of the sizes [ns]: what the reads return. *)
Fixpoint zreads (ns : list Z) : R (list (Z * list Z)) :=
  match ns with
  | [] => mret []
  | n :: ns => r ← zread n; rs ← zreads ns; mret (r :: rs)
  end.

Definition uncompressed (bits : Z) (file : list Z) (ns : list Z) : option (list (Z * list Z)) :=
  s ← zopen file bits;
  match zreads ns s with (Ok rs, _) => Some rs | _ => None end.

Section Reading.
Context (mb : Z).
Hypothesis (Hmb : 12 <= mb <= 16).

Lemma bits_10 : 10 <= mb <= 16.
Proof. lia. Qed.

(** The stream before the first read. *)
Definition unread (r : zs) (L : list Z) : Prop :=
  state r = S_START /\ clear_flg r = 0 /\ roffset r = 0 /\ size r = 0 /\ length (gbuf r) = 16%nat /\
  Forall octet (gbuf r) /\ Forall octet L /\
  exists c rest evs, L = c :: rest /\ fp r = header mb ++ emit evs (replicate 16 0) 0 INIT_BITS /\
    encodes mb [] c INIT_BITS (MAXCODE INIT_BITS) rest evs.

Lemma header_bits : Z.land (Z.lor mb BLOCK_MASK) BLOCK_MASK = BLOCK_MASK /\ Z.land (Z.lor mb BLOCK_MASK) BIT_MASK = mb.
Proof.
  assert (mb = 12 \/ mb = 13 \/ mb = 14 \/ mb = 15 \/ mb = 16) as Hcases by lia.
  by destruct Hcases as [E|[E|[E|[E|E]]]]; rewrite E.
Qed.

Lemma opened_spec body r :
  clear_flg r = 0 -> roffset r = 0 -> size r = 0 ->
  let r1 := opened (Z.lor mb BLOCK_MASK) body r in
  fp r1 = body /\ gbuf r1 = gbuf r /\ roffset r1 = 0 /\ size r1 = 0 /\ clear_flg r1 = 0 /\ free_ent r1 = FIRST /\
  maxcode r1 = 511 /\ n_bits r1 = INIT_BITS /\ constant mb r1 /\ rtab [] r1.
Proof.
  destruct r. cbn [clear_flg roffset size]. intros -> -> ->. unfold opened. destruct header_bits as [-> ->]. cbv zeta.
  split; [done|]. split; [done|]. split; [done|]. split; [done|]. split; [done|]. split; [done|]. split; [done|].
  split; [done|]. split.
  - split; [done|]. split; [exact (Z.shiftl_1_l mb)|done].
  - split; [done|]. split; [|intros j p x; by rewrite lookup_nil]. intros x Hx.
    apply (first_codes_spec 256 (fun c => c)). unfold octet in Hx. lia.
Qed.

(** The first code is an octet. *)
Lemma first_top f g o z r c evs rest :
  constant mb r -> rtab [] r -> clear_flg r = 0 -> maxcode r = 511 -> n_bits r = INIT_BITS ->
  octet c -> Forall octet rest -> pending evs INIT_BITS false f g o z ->
  follows mb [] c INIT_BITS (MAXCODE INIT_BITS) rest evs ->
  at_top mb (length evs) (set_stack [] (set_finchar c (set_oldcode c (set_io f g o z r)))) rest.
Proof.
  destruct r as [fp er st n mb' mc mm tp ts fe bc cf sk fi co ol ic ro sz gb]. unfold constant, rtab.
  cbn [maxbits maxmaxcode block_compress state clear_flg free_ent maxcode n_bits tab_suffix tab_prefix].
  intros (-> & -> & -> & ->) (-> & Hts & _) -> -> -> Hc Hrest Hp Hfo. unfold set_io.
  cbv beta iota delta [set_stack set_finchar set_oldcode set_size set_roffset set_gbuf set_fp
    Reader.fp errno state n_bits maxbits maxcode maxmaxcode tab_prefix tab_suffix free_ent
    block_compress clear_flg stack finchar code oldcode incode roffset size gbuf].
  match goal with |- at_top _ _ ?t _ => assert (widen t = t) as Hw by done end.
  split; [done|]. split; [done|]. split; [done|]. exists [], evs. split; [done|].
  split; [split; [done|]; split; [exact Hts|intros j p x; by rewrite lookup_nil]|].
  split; [apply table_ok_nil|]. split; [apply (room_nil mb bits_10)|]. cbv zeta. rewrite Hw. split; [exact Hp|].
  apply (expects_next _ _ _ _ _ _ _ [c]); [done|by constructor|done|exact Hfo].
Qed.

Lemma zread_first_spec num r L :
  unread r L -> 0 < num ->
  exists r', zread_first num r = (Ok (Z.of_nat (length (take (Z.to_nat num) L)), take (Z.to_nat num) L), r') /\
    left_over mb r' (drop (Z.to_nat num) L).
Proof.
  intros (Hst & Hcf & Hro & Hsz & Hgl & Hgo & HL & c & rest & evs & -> & Hfp & Henc) Hnum.
  inversion HL as [|? ? Hc Hrest]; subst. set (body := emit evs _ _ _) in Hfp.
  rewrite (zread_first_run num 31 157 (Z.lor mb BLOCK_MASK) body r Hfp).
  2:{ rewrite Hfp. cbn [header magic_header app header_ok]. destruct header_bits as [_ ->].
      rewrite bool_decide_eq_true_2 by done. unfold BITS. cbn [andb]. apply negb_true_iff. lia. }
  destruct (opened_spec body r Hcf Hro Hsz) as (Ef & Eg & Ero & Esz & Ecf & Efe & Emc & En & Hk & Hr).
  set (r1 := opened (Z.lor mb BLOCK_MASK) body r) in *. clearbody r1. clear Hst Hcf Hro Hsz Hfp.
  assert (change r1 = false) as Hch by (unfold change; by rewrite Ecf, Efe, Emc).
  pose proof (widen_same r1 Hch) as Hw.
  destruct (next_code mb [] c _ _ _ _ [c] Henc (means_octet _ _ Hc)) as (e & s & l' & evs' & -> & Hs & Hh & El & Hfo).
  inversion Hs as [e' He|j p x s' Hj]; subst; [|by rewrite lookup_nil in Hj]. injection Hh as ->. injection El as <-.
  assert (pending ((c, after INIT_BITS (MAXCODE INIT_BITS) []) :: evs') (n_bits (widen r1)) (change r1) (fp r1) (gbuf r1)
    (roffset r1) (size r1)) as Hp.
  { rewrite Hw, Hch, Ef, Eg, Ero, Esz, En. split.
    - eapply (encodes_fit mb bits_10); [exact Henc|apply (width_ok_init mb bits_10)|apply (room_nil mb bits_10)|by left|done].
    - split; [done|]. split; [done|]. exists (replicate 16 0), 0. split.
      + split; [done|]. split; [by apply Forall_replicate|]. split; [unfold width, INIT_BITS; lia|]. exists 0. lia.
      + left. split; [done|]. split; [done|]. by right. }
  destruct (getcode_next _ _ _ r1 Hp) as (f & g & o & z & Egc & Hp'). rewrite (run_bind_ok _ _ _ _ _ Egc).
  rewrite Hw in Egc, Hp' |- *. rewrite En in Hp'. rewrite !run_bind_modify.
  destruct (Z.eqb_spec c (-1)); [unfold octet in Hc; lia|]. rewrite run_bind_modify, run_bind_gets.
  pose proof (first_top f g o z r1 c evs' rest Hk Hr Ecf Emc En Hc Hrest Hp' Hfo) as Htop.
  match type of Htop with at_top _ _ ?t _ => set (r2 := t) in * end.
  clearbody r2. rewrite (uwrap_small 8 c) by done.
  destruct (loop_reads mb bits_10 num (turns r2) (length evs') r2 rest (num - 1) [c]) as (r' & -> & Hleft);
    [by eapply at_top_turns|done|lia|].
  exists r'. destruct (Z.to_nat num) as [|k] eqn:Ek; [lia|]. assert (Z.to_nat (num - 1) = k) as Ek' by lia.
  rewrite Ek' in *. cbn [take drop app length]. split; [|done]. do 3 f_equal. rewrite length_take. lia.
Qed.

Lemma zreads_left ns : forall r L,
  left_over mb r L -> Forall (fun n => 0 <= n) ns -> exists r', zreads ns r = (Ok (slices ns L), r').
Proof.
  induction ns as [|n ns IH]; intros r L Hl Hns; [by exists r|]. inversion Hns; subst. cbn [zreads slices].
  destruct (zread_left mb bits_10 r L n Hl) as (r1 & E1 & Hl1); [done|]. rewrite (run_bind_ok _ _ _ _ _ E1).
  destruct (IH _ _ Hl1) as (r2 & E2); [done|]. rewrite (run_bind_ok _ _ _ _ _ E2). by exists r2.
Qed.

Lemma zreads_unread ns : forall r L,
  unread r L -> Forall (fun n => 0 <= n) ns -> exists r', zreads ns r = (Ok (slices ns L), r').
Proof.
  induction ns as [|n ns IH]; intros r L Hl Hns; [by exists r|]. inversion Hns; subst. cbn [zreads slices].
  destruct (decide (n = 0)) as [->|Hn].
  - destruct (IH r L Hl) as (r' & E); [done|]. exists r'. rewrite (run_bind_ok (zread 0) _ r (0, []) r) by done.
    by rewrite (run_bind_ok _ _ _ _ _ E).
  - destruct (zread_first_spec n r L Hl) as (r1 & E1 & Hl1); [lia|].
    rewrite <- (zread_start n r) in E1 by (done || apply Hl).
    rewrite (run_bind_ok _ _ _ _ _ E1).
    destruct (zreads_left ns _ _ Hl1) as (r2 & E2); [done|]. rewrite (run_bind_ok _ _ _ _ _ E2). by exists r2.
Qed.

End Reading.

(** C13. What is written to a compressed stream in pieces of any sizes comes back when the file is read in pieces
    of any sizes: every read returns as many octets as there are left, and these octets.
    This holds for the default number of bits and for every number that the reader takes, over every change of
    the codes' width and every time the table was cleared; and neither side runs out of fuel. *)
Theorem uncompress_compress bits bits' ls ns :
  bits = 0 \/ 12 <= bits <= 16 -> bits_ok bits' = true -> Forall octet (concat ls) -> concat ls <> [] ->
  Forall (fun n => 0 <= n) ns ->
  exists file, compressed bits ls = Some file /\ uncompressed bits' file ns = Some (slices ns (concat ls)).
Proof.
  intros Hbits Hbits' Hl Hne Hns. destruct (concat ls) as [|c rest] eqn:Ec; [done|].
  destruct (compressed_spec bits ls c rest) as (evs & -> & Henc); [lia|by rewrite Ec|done|].
  eexists. split; [done|]. set (file := _ ++ _). unfold uncompressed.
  assert (12 <= bits_of bits <= 16) as Hmb.
  { unfold bits_of, BITS. destruct (Z.eqb_spec bits 0); lia. }
  destruct (zopen_some file bits' Hbits') as (s & -> & Ef & Est & Ec' & Er & Ez & Eg & _). cbn [mbind option_bind].
  destruct (zreads_unread _ Hmb ns s (c :: rest)) as (r' & ->); [|done|done].
  unfold unread. rewrite Eg. split_and!; try done; [by apply Forall_replicate|]. by exists c, rest, evs.
Qed.

Theorem uncompress_compress_witness :
  exists file, compressed 12 [[97; 98]; []; [97; 98; 97; 98; 97]] = Some file /\
    uncompressed 0 file [1; 0; 3; 9; 9] = Some (slices [1; 0; 3; 9; 9] [97; 98; 97; 98; 97; 98; 97]).
Proof.
  apply (uncompress_compress 12 0 [[97; 98]; []; [97; 98; 97; 98; 97]] [1; 0; 3; 9; 9]); [lia|done| |done|].
  - repeat (constructor; [unfold octet; lia|]); constructor.
  - repeat (constructor; [lia|]); constructor.
Defined.

(** ** The files that are refused *)

Lemma few_bits_header bits : 10 <= bits <= 11 -> Z.land (Z.lor bits BLOCK_MASK) BIT_MASK = bits.
Proof. intros H. assert (bits = 10 \/ bits = 11) as [-> | ->] by lia; done. Qed.

Lemma zwrites_empty ls s : concat ls = [] -> zwrites ls s = (Ok (), s).
Proof.
  induction ls as [|l ls IH]; intros Hc; [done|]. apply app_eq_nil in Hc as [-> Hc]. cbn [zwrites].
  rewrite (run_bind_ok _ _ _ _ _ (zwrite_empty s)). by apply IH.
Qed.

Lemma compressed_empty bits ls : bits_ok bits = true -> concat ls = [] -> compressed bits ls = Some [].
Proof.
  intros Hb Hc. unfold compressed, Writer.zopen. rewrite Hb. cbn [mbind option_bind].
  by rewrite (run_bind_ok _ _ _ _ _ (zwrites_empty ls _ Hc)).
Qed.

(** What [compress] writes and [uncompress] does not take back: a file that was compressed with 10 or 11 bits,
    which [zopen] and the manual allow, and the file that an empty one becomes, which has no header.  The first read
    refuses the header as that of another kind of file, and returns nothing. *)
Theorem compressed_but_refused bits bits' ls num :
  10 <= bits <= 11 \/ (bits_ok bits = true /\ concat ls = []) -> bits_ok bits' = true -> Forall octet (concat ls) ->
  0 < num ->
  exists file s s', compressed bits ls = Some file /\ zopen file bits' = Some s /\
    zread num s = (Ok (-1, []), s') /\ errno s' = Some EFTYPE.
Proof.
  intros Hbits Hbits' Hl Hnum.
  assert (exists file, compressed bits ls = Some file /\ header_ok file = false) as (file & -> & Hok).
  { destruct (concat ls) as [|c rest] eqn:Ec.
    - exists []. split; [|done]. apply compressed_empty; [|done]. destruct Hbits as [Hbits|[Hbits _]]; [|done].
      unfold bits_ok, BITS. lia.
    - destruct Hbits as [Hbits|[_ Hbits]]; [|done].
      destruct (compressed_spec bits ls c rest) as (evs & -> & _); [lia|by rewrite Ec|done|].
      assert (bits_of bits = bits) as -> by (unfold bits_of; destruct (Z.eqb_spec bits 0); lia).
      eexists. split; [done|]. cbn [header magic_header app header_ok]. rewrite few_bits_header by done.
      rewrite bool_decide_eq_true_2 by done. unfold BITS. cbn [andb]. apply negb_false_iff. lia. }
  destruct (zopen_some file bits' Hbits') as (s & Es & Ef & Est & _).
  destruct (zread_first_refuses num s) as (s' & E & Herr); [by rewrite Ef|].
  exists file, s, s'. split; [done|]. split; [done|]. split; [|done]. rewrite zread_start by (done || lia). done.
Qed.

Theorem compressed_but_refused_witness :
  exists file s s', compressed 10 [[97; 98]] = Some file /\ zopen file 0 = Some s /\
    zread 2 s = (Ok (-1, []), s') /\ errno s' = Some EFTYPE.
Proof.
  apply (compressed_but_refused 10 0 [[97; 98]] 2); [left; lia|done| |lia].
  repeat (constructor; [unfold octet; lia|]); constructor.
Defined.
