(* ===== verification/CompressSafety.v ===== *)
(** * compress: reading a file that need not have been compressed

    [zread] on any octets.  When the first code is an octet, as the program takes for granted, every read comes
    back with what it read or with an error: each string is shorter than the number of its code, so that the stack
    holds it. When the first code is not, the table can have a cycle, and the stack overflows. *)

From Stdlib Require Import ZArith Lia List Bool.
From stdpp Require Import base tactics list numbers functions.
From S2P Require Import Prelude Compress CompressBits CompressStream CompressTable CompressSpec CompressReader.
Import Reader.

Local Open Scope Z_scope.

Section Safety.
Context (mb : Z).
Hypothesis (Hmb : 10 <= mb <= 16).

(** The input side: the width of the codes, and the bits that the buffer has. *)
Definition sane_input (r : zs) : Prop :=
  maxbits r = mb /\ maxmaxcode r = 2 ^ mb /\ state r = S_MIDDLE /\ width_ok mb (n_bits r) (maxcode r) /\
  (clear_flg r = 0 \/ clear_flg r = 1 /\ free_ent r = FIRST) /\ 256 <= free_ent r <= maxcode r + 1 /\ free_ent r <= 2 ^ mb /\
  Forall octet (fp r) /\ Forall octet (gbuf r) /\ 0 <= roffset r /\ size r <= 7 * n_bits r + 1 /\
  (block_compress r = 0 \/ FIRST <= free_ent r).

(** The table: the string of a code ends with that of a smaller one. *)
Definition sane_table (r : zs) : Prop :=
  (forall i, 256 <= i < free_ent r -> 0 <= tab_prefix r i < i) /\ (oldcode r = -1 \/ 0 <= oldcode r < free_ent r).

(** What is left of the input, in bits. *)
Definition bits_left (r : zs) : Z := 8 * Z.of_nat (length (fp r)) + Z.max 0 (size r - roffset r).

Lemma bits_left_turns r : sane_input r -> bits_left r < Z.of_nat (turns r).
Proof.
  intros (_ & _ & _ & (Hn & _) & _ & _ & _ & _ & _ & Hro & Hsz & Hbk). unfold bits_left, turns, BITS. lia.
Qed.

Lemma sane_widen r :
  sane_input r ->
  let r1 := widen r in
  width_ok mb (n_bits r1) (maxcode r1) /\ clear_flg r1 = 0 /\ free_ent r <= maxcode r1.
Proof.
  intros (Hm & Hmm & _ & [Hn Hmc] & Hcf & Hf & Hfull & _).
  destruct r as [fp' er st n mb' mc mm tp ts fe bc cf sk fi co ol ic ro sz gb].
  cbn [maxbits maxmaxcode n_bits maxcode clear_flg free_ent] in *. subst mb' mm. unfold widen. cbn [maxcode free_ent].
  assert (2 ^ 10 <= 2 ^ mb) as H10 by (apply Z.pow_le_mono_r; lia). assert (2 ^ 9 <= 2 ^ n) as H9 by (apply Z.pow_le_mono_r; lia).
  pose proof (width_ok_init mb Hmb) as Hinit.
  destruct Hcf as [-> | [-> ->]].
  - destruct (Z.ltb_spec mc fe) as [Hw|Hw].
    + cbn [n_bits maxcode clear_flg set_n_bits set_maxcode maxbits maxmaxcode].
      change (0 <? 0) with false. cbn [n_bits maxcode clear_flg set_n_bits set_maxcode]. unfold width_ok.
      destruct (Z.eqb_spec n mb) as [->|Hne]; [lia|].
      assert (2 ^ (n + 1) = 2 * 2 ^ n) as Hp by (rewrite Z.pow_add_r by lia; lia).
      destruct (Z.eqb_spec (n + 1) mb) as [E|E].
      * rewrite E in *. split; [split; lia|]. split; [done|lia].
      * rewrite MAXCODE_pow by lia. split; [split; [lia|done]|]. split; [done|lia].
    + cbn. by split.
  - unfold FIRST in *. destruct (mc <? 257); cbn; (split; [exact Hinit|split; [done|]]); by compute.
Qed.

(** [getcode] on a sane state. *)
Lemma getcode_sane r :
  sane_input r ->
  exists c f g o z, getcode r = (Ok c, set_io f g o z (widen r)) /\
    let r1 := set_io f g o z (widen r) in
    sane_input r1 /\ clear_flg r1 = 0 /\ free_ent r1 <= maxcode r1 /\
    (c = -1 \/ 0 <= c < 2 ^ mb /\ bits_left r1 < bits_left r).
Proof.
  intros Hs. pose proof (sane_widen r Hs) as (Hw & Hcf & Hf). rewrite getcode_run. cbv zeta.
  destruct Hs as (Hm & Hmm & Hst & Hw0 & Hcf0 & Hfe & Hfull & Hfp & Hg & Hro & Hsz & Hbk).
  destruct (widen_keeps r) as (E1 & E2 & E3 & E4 & E5 & E6 & E7 & E8 & E9 & E10).
  pose proof Hw as [Hn _]. set (n := n_bits (widen r)) in *.
  assert (forall f g o z, Forall octet f -> Forall octet g -> 0 <= o -> z <= 7 * n + 1 ->
    sane_input (set_io f g o z (widen r)) /\ clear_flg (set_io f g o z (widen r)) = 0 /\
    free_ent (set_io f g o z (widen r)) <= maxcode (set_io f g o z (widen r))) as Hsane.
  { intros f g o z H1 H2 H3 H4. unfold sane_input, set_io.
    cbn [maxbits maxmaxcode state n_bits maxcode clear_flg free_ent fp gbuf roffset size block_compress set_size set_roffset set_gbuf set_fp].
    rewrite E1, E2, E5, E6, E7, Hcf. fold n. split_and!; done || lia. }
  assert (forall g o, Forall octet g -> 0 <= o -> 0 <= get_code g o n < 2 ^ mb) as Hrange.
  { intros g o H1 H2. assert (0 <= get_code g o n < 2 ^ n) by (apply get_code_range; [done|done|lia]).
    assert (2 ^ n <= 2 ^ mb) by (apply Z.pow_le_mono_r; lia). lia. }
  destruct (change r || (size r <=? roffset r)) eqn:Ere.
  - destruct (take (Z.to_nat n) (fp r)) as [|x l] eqn:El.
    + eexists _, _, _, _, _. split; [done|]. destruct (Hsane (drop (Z.to_nat n) (fp r)) (gbuf r) (roffset r) 0) as (H1 & H2 & H3);
        [by apply Forall_drop|done|done|lia|]. cbn [app length]. rewrite drop_0. split; [done|]. split; [done|]. split; [done|]. by left.
    + assert (Forall octet (x :: l)) as Hxl by (rewrite <- El; by apply Forall_take).
      assert (length (x :: l) <= Z.to_nat n)%nat as Hlen by (rewrite <- El, length_take; lia).
      assert (length (x :: l) + length (drop (Z.to_nat n) (fp r)) = length (fp r))%nat as Hsum.
      { rewrite <- El, <- length_app, take_drop. done. }
      set (gb := (x :: l) ++ drop (length (x :: l)) (gbuf r)).
      assert (Forall octet gb) as Hgb by (apply Forall_app_2; [done|by apply Forall_drop]).
      destruct (Hsane (drop (Z.to_nat n) (fp r)) gb n (8 * Z.of_nat (length (x :: l)) - (n - 1))) as (H1 & H2 & H3);
        [by apply Forall_drop|done|lia|lia|].
      eexists _, _, _, _, _. split; [done|]. split; [exact H1|]. split; [exact H2|]. split; [exact H3|]. right.
      split; [apply Hrange; [done|lia]|]. unfold bits_left, set_io. cbn [fp size roffset set_size set_roffset set_gbuf set_fp].
      cbn [length] in *. lia.
  - apply orb_false_iff in Ere as [Ech Ero]. apply Z.leb_gt in Ero. pose proof (widen_same r Ech) as Ew.
    assert (n = n_bits r) as En by (unfold n; by rewrite Ew).
    destruct (Hsane (fp r) (gbuf r) (roffset r + n_bits r) (size r)) as (H1 & H2 & H3); [done|done|lia|lia|].
    rewrite Ew in H1, H2, H3 |- *. eexists _, _, _, _, _. split; [done|]. split; [exact H1|]. split; [exact H2|]. split; [exact H3|].
    right. split; [rewrite <- En; by apply Hrange|]. unfold bits_left, set_io.
    cbn [fp size roffset set_size set_roffset set_gbuf set_fp]. lia.
Qed.

(** Every step from a code to its prefix makes it smaller. *)
Lemma unwind_sane fuel : forall r,
  (forall i, 256 <= i < free_ent r -> 0 <= tab_prefix r i < i) -> 0 <= code r < free_ent r ->
  Z.of_nat (length (stack r)) + code r <= DE_STACK_SIZE -> code r < Z.of_nat fuel ->
  exists st c, unwind fuel r = (Ok (), set_stack st (set_code c r)) /\ 0 <= c < 256 /\
    Z.of_nat (length st) <= Z.of_nat (length (stack r)) + code r.
Proof.
  induction fuel as [|fuel IH]; intros r Ht Hc Hst Hfuel; [lia|]. cbn [unwind]. rewrite run_bind_get.
  destruct (Z.ltb_spec (code r) 256) as [Hlt|Hge].
  - exists (stack r), (code r). split; [by destruct r|]. lia.
  - destruct (Ht (code r) ltac:(lia)) as [Hp0 Hp1].
    rewrite (run_bind_ok _ _ r () (set_stack (u8 (tab_suffix r (code r)) :: stack r) r)).
    2:{ unfold push. rewrite run_bind_gets. destruct (Z.leb_spec DE_STACK_SIZE (Z.of_nat (length (stack r)))); [lia|done]. }
    rewrite run_bind_modify. set (r1 := set_code _ _).
    assert (code r1 = tab_prefix r (code r)) as Ec by done.
    assert (stack r1 = u8 (tab_suffix r (code r)) :: stack r) as Es by done.
    destruct (IH r1 Ht) as (st & c & -> & Hc' & Hst'); [rewrite Ec; change (free_ent r1) with (free_ent r); lia| |lia|].
    { rewrite Es, Ec. cbn [length]. lia. }
    exists st, c. split; [by destruct r|]. split; [done|]. rewrite Es, Ec in Hst'. cbn [length] in Hst'. lia.
Qed.

Definition sane_top (r : zs) : Prop := sane_input r /\ sane_table r /\ stack r = [].

Definition sane_middle (r : zs) : Prop :=
  state r = S_MIDDLE /\ stack r <> [] /\ sane_top (snd (new_entry (set_stack [] r))).

Lemma bits_left_entry r : bits_left (snd (new_entry (set_stack [] r))) = bits_left r.
Proof. rewrite new_entry_run. cbn [snd]. unfold bits_left. by destruct (_ && _). Qed.

(** The state after the string of [e] has been put on the stack. *)
Lemma sane_decoded r e st fc x :
  sane_input r -> sane_table r -> clear_flg r = 0 -> free_ent r <= maxcode r ->
  0 <= e < 2 ^ mb -> e <= free_ent r -> (e = free_ent r -> oldcode r <> -1) -> st <> [] ->
  sane_middle (set_stack st (set_finchar fc (set_code x (set_incode e r)))).
Proof.
  intros (Hm & Hmm & Hst & Hw & _ & Hfe & Hfull & Hfp & Hg & Hro & Hsz & Hbk) [Ht Ho] Hcf Hmc He Hef Hold Hne.
  split; [done|]. split; [done|]. rewrite new_entry_run.
  cbn [snd free_ent maxmaxcode oldcode incode finchar tab_prefix tab_suffix set_stack set_finchar set_code set_incode].
  rewrite Hmm. assert (2 ^ mb <= 65536) as H16 by (apply (Z.pow_le_mono_r 2 mb 16); lia).
  destruct ((free_ent r <? 2 ^ mb) && negb (oldcode r =? -1)) eqn:Enew.
  - apply andb_true_iff in Enew as [Hlt%Z.ltb_lt Hno%negb_true_iff%Z.eqb_neq].
    split; [|split; [split|done]].
    + unfold sane_input.
      cbn [maxbits maxmaxcode state n_bits maxcode clear_flg free_ent fp gbuf roffset size block_compress set_oldcode set_free_ent
        set_tab_suffix set_tab_prefix set_code set_stack set_finchar set_incode].
      split_and!; done || lia.
    + cbn [free_ent tab_prefix set_oldcode set_free_ent set_tab_suffix set_tab_prefix set_code]. intros i Hi.
      destruct (decide (i = free_ent r)) as [->|Hi'].
      * rewrite insert_eq, uwrap_small by (unfold two_p in *; lia). lia.
      * rewrite insert_ne by done. apply Ht. lia.
    + cbn [oldcode free_ent set_oldcode set_free_ent]. lia.
  - assert (e <> free_ent r) as Hne'.
    { intros E. apply andb_false_iff in Enew as [Hge%Z.ltb_ge|Hno%negb_false_iff%Z.eqb_eq]; [lia|by apply Hold]. }
    split; [|split; [split|done]].
    + unfold sane_input.
      cbn [maxbits maxmaxcode state n_bits maxcode clear_flg free_ent fp gbuf roffset size block_compress set_oldcode set_code set_stack
        set_finchar set_incode].
      split_and!; done || lia.
    + exact Ht.
    + cbn [oldcode free_ent set_oldcode set_code set_stack set_finchar set_incode]. lia.
Qed.

Lemma decode_sane r :
  sane_input r -> sane_table r -> stack r = [] -> clear_flg r = 0 -> free_ent r <= maxcode r -> 0 <= code r < 2 ^ mb ->
  (exists r', decode r = (Ok false, r')) \/
  exists r', decode r = (Ok true, r') /\ sane_middle r' /\ bits_left r' = bits_left r.
Proof.
  intros Hs Htab Hst Hcf Hmc Hc. pose proof stack_size as Hsize. pose proof Htab as [Ht Ho].
  pose proof Hs as (_ & _ & _ & _ & _ & Hfe & Hfull & _).
  assert (2 ^ mb <= 65536) as H16 by (apply (Z.pow_le_mono_r 2 mb 16); lia).
  assert (forall st c0, 0 <= c0 < free_ent r -> (length st <= 1)%nat -> code r <= free_ent r ->
    (code r = free_ent r -> oldcode r <> -1) ->
    exists r', expand (set_code c0 (set_stack st (set_incode (code r) r))) = (Ok true, r') /\
      sane_middle r' /\ bits_left r' = bits_left r) as Hexp.
  { intros st c0 Hc0 Hst1 Hle Hold. unfold expand. set (r1 := set_code c0 _).
    destruct (unwind_sane (S (Z.to_nat DE_STACK_SIZE)) r1 Ht) as (st' & c' & E & Hc' & Hst');
      [exact Hc0|unfold r1; cbn [stack code set_stack set_code]; lia|unfold r1; cbn [code set_code]; lia|].
    rewrite (run_bind_ok _ _ _ _ _ E). unfold r1 in *. cbn [stack code set_stack set_code] in Hst'.
    rewrite run_bind_modify, run_bind_gets. unfold push. rewrite run_bind_assoc, run_bind_gets.
    cbn [stack set_finchar set_stack].
    destruct (Z.leb_spec DE_STACK_SIZE (Z.of_nat (length st'))); [lia|]. rewrite run_bind_modify.
    eexists. split; [reflexivity|]. split; [|done].
    match goal with |- context [set_finchar ?f _] => set (fc := f) end.
    match goal with |- context [u8 ?f :: st'] => set (x := u8 f) end. clearbody fc x.
    change (sane_middle (set_stack (x :: st') (set_finchar fc (set_code c' (set_incode (code r) r))))).
    by apply sane_decoded. }
  unfold decode. rewrite run_bind_modify, run_bind_get. cbn [free_ent code oldcode finchar set_incode].
  destruct (Z.leb_spec (free_ent r) (code r)) as [Hge|Hlt].
  - destruct ((free_ent r <? code r) || (oldcode r =? -1)) eqn:Ebad.
    + left. eexists. reflexivity.
    + apply orb_false_iff in Ebad as [Hle%Z.ltb_ge Hold%Z.eqb_neq]. right.
      rewrite run_bind_assoc, (run_bind_ok _ _ _ () (set_stack [u8 (finchar r)] (set_incode (code r) r))).
      2:{ unfold push. rewrite run_bind_gets. change (stack (set_incode (code r) r)) with (stack r). by rewrite Hst. }
      rewrite run_bind_assoc, run_bind_modify, run_bind_ret. cbn [negb].
      apply (Hexp [u8 (finchar r)] (oldcode r)); try done; lia.
  - right. rewrite run_bind_ret. cbn [negb].
    destruct (Hexp [] (code r)) as (r' & E & H); [lia|simpl; lia|lia|lia|]. exists r'. split; [|done]. rewrite <- E.
    assert (set_code (code r) (set_stack [] (set_incode (code r) r)) = set_incode (code r) r) as ->.
    { destruct r. cbn in Hst. by rewrite Hst. }
    done.
Qed.

(** A read comes back: with as many octets as it says, or with -1. *)
Definition sane_left (r : zs) : Prop := state r = S_EOF \/ sane_middle r.

Definition returns (num : Z) (m : R (Z * list Z)) (r : zs) : Prop :=
  exists v out r', m r = (Ok (v, out), r') /\
    (v = -1 \/ 0 <= v <= num /\ v = Z.of_nat (length out) /\ (0 < v -> sane_left r')).

Lemma middle_returns (again : Z -> list Z -> R (Z * list Z)) num count out r b :
  (forall r count out, sane_top r -> bits_left r <= b -> 0 <= count -> Z.of_nat (length out) = num - count -> 0 <= num - count ->
    returns num (again count out) r) ->
  sane_middle r -> bits_left r <= b -> 0 <= count -> Z.of_nat (length out) = num - count ->
  returns num (middle again num count out) r.
Proof.
  intros Hagain Hmid Hb Hc Ho. pose proof Hmid as (Hst & Hne & Htop). unfold returns, middle. rewrite run_bind_gets.
  rewrite pop_spec by done. destruct (Z.ltb_spec count (Z.of_nat (length (stack r)))) as [Hlt|Hge]; cbv iota.
  - rewrite run_bind_modify. eexists _, _, _. split; [reflexivity|]. right. rewrite length_app, length_take.
    split; [lia|]. split; [lia|]. intros _. right. split; [done|]. cbn [stack set_stack]. split; [|exact Htop].
    intros E. apply (f_equal length) in E. rewrite length_drop in E. cbn [length] in E. lia.
  - rewrite run_bind_modify, (run_bind_ok _ _ _ _ _ (new_entry_run _)). pose proof (bits_left_entry r) as Hbl.
    rewrite new_entry_run in Htop, Hbl. cbn [snd] in Htop, Hbl.
    apply Hagain; [exact Htop|lia|lia| |]; rewrite ?length_app; lia.
Qed.

Lemma sane_cleared r :
  sane_input r -> sane_table r -> stack r = [] -> block_compress r <> 0 ->
  sane_top (cleared r) /\ bits_left (cleared r) = bits_left r.
Proof.
  intros (Hm & Hmm & Hst & Hw & _ & Hfe & Hfull & Hfp & Hg & Hro & Hsz & Hbk) [Ht _] Hstk Hne.
  destruct Hbk as [Hbk|Hbk]; [done|]. split; [|done]. split; [|split; [split|done]].
  - unfold sane_input, cleared.
    cbn [maxbits maxmaxcode state n_bits maxcode clear_flg free_ent fp gbuf roffset size block_compress set_oldcode set_free_ent
      set_clear_flg set_code set_tab_prefix].
    assert (2 ^ 10 <= 2 ^ mb) as H10 by (apply Z.pow_le_mono_r; lia).
    assert (257 <= maxcode r + 1).
    { destruct Hw as [Hn ->]. assert (2 ^ 9 <= 2 ^ n_bits r) by (apply Z.pow_le_mono_r; lia).
      destruct (n_bits r =? mb); lia. }
    unfold FIRST. split_and!; done || lia.
  - unfold cleared. cbn [free_ent tab_prefix set_oldcode set_free_ent set_clear_flg set_code set_tab_prefix]. intros i Hi.
    assert (i = 256) as -> by (unfold FIRST in Hi; lia).
    rewrite first_codes_above by done. apply Ht.
    unfold FIRST in *. lia.
  - by left.
Qed.

Lemma sane_cleared_code c r :
  sane_input r -> sane_table r -> stack r = [] -> block_compress r <> 0 ->
  sane_top (cleared (set_code c r)) /\ bits_left (cleared (set_code c r)) = bits_left r.
Proof. intros Hs Ht Hstk Hne. exact (sane_cleared (set_code c r) Hs Ht Hstk Hne). Qed.

Lemma getcode_top r :
  sane_top r ->
  exists c r1, getcode r = (Ok c, r1) /\ sane_input r1 /\ sane_table r1 /\ stack r1 = [] /\ clear_flg r1 = 0 /\
    free_ent r1 <= maxcode r1 /\ (c = -1 \/ 0 <= c < 2 ^ mb /\ bits_left r1 < bits_left r).
Proof.
  intros (Hs & Htab & Hstk). destruct (getcode_sane r Hs) as (c & f & g & o & z & Eg & Hs1 & Hcf1 & Hmc1 & Hcase).
  exists c, (set_io f g o z (widen r)). split; [done|]. split; [done|]. split; [|split; [|by split_and!]].
  - destruct (widen_keeps r) as (_ & _ & E3 & _ & E5 & _ & _ & _ & _ & E10). unfold sane_table, set_io.
    cbn [tab_prefix free_ent oldcode set_size set_roffset set_gbuf set_fp]. by rewrite E3, E5, E10.
  - destruct (widen_keeps r) as (_ & _ & _ & _ & _ & _ & _ & E8 & _). unfold set_io.
    cbn [stack set_size set_roffset set_gbuf set_fp]. by rewrite E8.
Qed.

Lemma cleared_run fuel num count out r :
  (_ ← clear_prefix; _ ← modify (set_code (-1)); _ ← modify (set_clear_flg 1); _ ← modify (set_free_ent FIRST);
   _ ← modify (set_oldcode (-1)); zread_loop fuel num count out) r = zread_loop fuel num count out (cleared r).
Proof. done. Qed.

Lemma loop_returns num fuel : forall r count out,
  sane_top r -> bits_left r < Z.of_nat fuel -> 0 <= count -> Z.of_nat (length out) = num - count ->
  returns num (zread_loop fuel num count out) r.
Proof.
  induction fuel as [|fuel IH]; intros r count out Htop Hfuel Hc Ho.
  { unfold bits_left in Hfuel. lia. }
  destruct (getcode_top r Htop) as (c & r1 & Eg & Hs1 & Htab1 & Hstk1 & Hcf1 & Hmc1 & Hcase).
  unfold returns. cbn [zread_loop]. rewrite (run_bind_ok _ _ _ _ _ Eg), run_bind_modify, run_bind_gets. clear Eg.
  destruct Hcase as [->|[Hcr Hbits]].
  - change (-1 <=? -1) with true. cbv iota. rewrite run_bind_modify. eexists _, _, _. split; [reflexivity|].
    right. split; [lia|]. split; [lia|]. intros _. by left.
  - destruct (Z.leb_spec c (-1)); [lia|]. destruct ((c =? CLEAR) && negb (block_compress (set_code c r1) =? 0)) eqn:Eclear.
    + apply andb_true_iff in Eclear as [_ Eclear%negb_true_iff%Z.eqb_neq].
      destruct (sane_cleared_code c r1 Hs1 Htab1 Hstk1 Eclear) as [Htop1 Hbl].
      rewrite cleared_run. apply (IH (cleared (set_code c r1))); [done|lia|done|done].
    + destruct (decode_sane (set_code c r1)) as [(r' & E)|(r' & E & Hmid & Hbl)]; try done.
      * rewrite (run_bind_ok _ _ _ _ _ E). cbn [negb]. eexists _, _, _. split; [reflexivity|by left].
      * rewrite (run_bind_ok _ _ _ _ _ E). cbn [negb]. change (bits_left (set_code c r1)) with (bits_left r1) in Hbl.
        apply (middle_returns _ _ _ _ _ (bits_left r')); [|done|done|done|done].
        intros r2 count2 out2 Htop2 Hb2 Hc2 Ho2 _. apply IH; [done|lia|done|done].
Qed.

Lemma zread_returns num r : sane_left r -> 0 < num -> returns num (zread num) r.
Proof.
  intros Hl Hn. unfold returns, zread. destruct (Z.eqb_spec num 0); [lia|]. rewrite run_bind_gets.
  destruct Hl as [Hst|Hmid].
  - rewrite Hst. exists 0, [], r. split; [done|]. right. split; [lia|]. by split.
  - pose proof Hmid as (Hst & _ & Htop). rewrite Hst, run_bind_gets.
    apply (middle_returns _ _ _ _ _ (bits_left r)); [|done|lia|lia|simpl; lia].
    intros r2 count2 out2 Htop2 Hb2 Hc2 Ho2 _. apply loop_returns; try done.
    destruct Htop as [Htop _]. pose proof (bits_left_turns _ Htop) as Ht. rewrite bits_left_entry in Ht.
    assert (turns (snd (new_entry (set_stack [] r))) = turns r) as <-; [|lia].
    rewrite new_entry_run. unfold turns. by destruct (_ && _).
Qed.

End Safety.

(** ** From the first read on *)

Lemma opened_sane b body r :
  let mb := Z.land b BIT_MASK in
  12 <= mb <= 16 -> Forall octet body -> clear_flg r = 0 -> roffset r = 0 -> size r = 0 -> Forall octet (gbuf r) ->
  tab_prefix r = (fun _ => 0) ->
  let r1 := opened b body r in
  sane_input mb r1 /\ (forall i, 256 <= i < free_ent r1 -> 0 <= tab_prefix r1 i < i) /\ 256 <= free_ent r1 /\
  fp r1 = body /\ gbuf r1 = gbuf r /\ change r1 = false /\ size r1 <= roffset r1 /\ n_bits r1 = INIT_BITS.
Proof.
  intros mb Hmb Hbody Hc Hr Hs Hg Ht r1.
  assert (free_ent r1 = 256 \/ free_ent r1 = 257) as Hfe.
  { unfold r1, opened. cbn [free_ent set_free_ent]. destruct (negb _); [by right|by left]. }
  assert (block_compress r1 = 0 \/ FIRST <= free_ent r1) as Hbk.
  { unfold r1, opened. cbn [free_ent set_free_ent block_compress set_code set_tab_suffix set_tab_prefix set_maxcode
      set_n_bits set_maxmaxcode set_maxbits set_block_compress]. by destruct (Z.eqb_spec (Z.land b BLOCK_MASK) 0); [left|right]. }
  assert (maxmaxcode r1 = 2 ^ mb) as Hmm by exact (Z.shiftl_1_l mb).
  assert (clear_flg r1 = 0) as Hc1 by exact Hc. assert (roffset r1 = 0) as Hr1 by exact Hr.
  assert (size r1 = 0) as Hs1 by exact Hs. assert (maxcode r1 = 511) as Hmc by done. assert (n_bits r1 = 9) as Hn by done.
  assert (tab_prefix r1 = first_codes 256 (fun _ => 0) (tab_prefix r)) as Ht1 by done. rewrite Ht in Ht1.
  assert (maxbits r1 = mb /\ state r1 = S_MIDDLE /\ fp r1 = body /\ gbuf r1 = gbuf r) as (Hm & Hst & Hfp & Hgb)
    by (split; [exact eq_refl|split; [exact eq_refl|split; exact eq_refl]]).
  clearbody r1. assert (2 ^ 12 <= 2 ^ mb) by (apply Z.pow_le_mono_r; lia).
  split.
  { unfold sane_input. rewrite Hn, Hmc, Hc1, Hr1, Hs1, Hfp, Hgb.
    assert (width_ok mb 9 511) by (apply (width_ok_init mb); lia). split_and!; try done; try lia. }
  split; [|split; [lia|]].
  - intros i Hi. rewrite Ht1, first_codes_above by lia. lia.
  - split; [done|]. split; [done|]. split; [|split; [lia|done]]. unfold change. rewrite Hc1, Hmc.
    by destruct Hfe as [-> | ->].
Qed.

Lemma code_is_octet g : Forall octet g -> Z.even (byte_at g 1) = true -> octet (get_code g 0 9).
Proof.
  intros Hg He. destruct (get_code_range g 0 9 Hg ltac:(lia) ltac:(lia)) as [H0 H1]. split; [done|].
  assert (Z.testbit (get_code g 0 9) 8 = false) as Hbit.
  { rewrite get_code_bit by (done || lia). unfold bit_at. change (Z.to_nat ((0 + 8) / 8)) with 1%nat.
    change ((0 + 8) mod 8) with 0. rewrite Z.bit0_odd, <- Z.negb_even, He. done. }
  destruct (Z.lt_ge_cases (get_code g 0 9) 256) as [|Hge]; [done|]. exfalso. change (2 ^ 9) with 512 in H1.
  pose proof (Z.testbit_spec' (get_code g 0 9) 8 ltac:(lia)) as Hspec. rewrite Hbit in Hspec. change (2 ^ 8) with 256 in Hspec.
  assert (get_code g 0 9 / 256 = 1) as E by (symmetry; apply (Z.div_unique _ _ _ (get_code g 0 9 - 256)); lia).
  rewrite E in Hspec. done.
Qed.

(** The first code, of a file whose fifth octet is even. *)
Lemma first_code r :
  change r = false -> size r <= roffset r -> n_bits r = INIT_BITS -> Forall octet (fp r) -> gbuf r = replicate 16 0 ->
  Z.even (byte_at (fp r) 1) = true ->
  exists c r1, getcode r = (Ok c, r1) /\ (c = -1 \/ octet c).
Proof.
  intros Hch Hsz Hn Hfp Hg He. rewrite getcode_run. cbv zeta. rewrite (widen_same r Hch), Hn, Hg.
  assert (change r || (size r <=? roffset r) = true) as -> by (rewrite Hch; by apply Z.leb_le).
  change (Z.to_nat INIT_BITS) with 9%nat. destruct (take 9 (fp r)) as [|x l] eqn:El; [eexists _, _; split; [done|by left]|].
  eexists _, _. split; [done|]. right. change INIT_BITS with 9.
  assert (Forall octet (x :: l)) as Hl by (rewrite <- El; by apply Forall_take).
  apply code_is_octet; [apply Forall_app_2; [done|by apply Forall_drop, Forall_replicate]|].
  destruct l as [|y l]; [done|]. rewrite <- (byte_at_take 9 (fp r) 1), El in He by lia. exact He.
Qed.

Lemma first_top_sane mb r c :
  sane_input mb r -> (forall i, 256 <= i < free_ent r -> 0 <= tab_prefix r i < i) -> 256 <= free_ent r -> octet c ->
  sane_top mb (set_stack [] (set_finchar c (set_oldcode c r))).
Proof.
  intros Hs Ht Hf Hc. split; [exact Hs|]. split; [|done]. split; [exact Ht|]. right.
  cbn [oldcode free_ent set_stack set_finchar set_oldcode]. unfold octet in Hc. lia.
Qed.

Lemma first_turns mb c r :
  10 <= mb <= 16 -> sane_input mb r -> bits_left (set_stack [] (set_finchar c (set_oldcode c r))) < Z.of_nat (turns (set_stack [] (set_finchar c (set_oldcode c r)))).
Proof. intros Hmb. exact (bits_left_turns mb Hmb r). Qed.

Lemma zread_first_returns num s file :
  fp s = file -> state s = S_START -> clear_flg s = 0 -> roffset s = 0 -> size s = 0 -> gbuf s = replicate 16 0 ->
  tab_prefix s = (fun _ => 0) -> Forall octet file -> Z.even (byte_at file 4) = true -> 0 < num ->
  exists mb, 10 <= mb <= 16 /\ returns mb num (zread num) s.
Proof.
  intros Hfp Hst Hc Hr Hs Hg Ht Hfile He Hn. unfold returns. rewrite zread_start by (done || lia).
  destruct (header_ok (fp s)) eqn:Hok.
  2:{ exists 16. split; [lia|]. destruct (zread_first_refuses num s Hok) as (s' & E & _). exists (-1), [], s'. split; [done|by left]. }
  rewrite Hfp in Hok. destruct file as [|m0 [|m1 [|b body]]]; try done.
  rewrite (zread_first_run num _ _ b body s Hfp) by (by rewrite Hfp). cbn [header_ok] in Hok.
  apply andb_true_iff in Hok as [_ Hmb%negb_true_iff%orb_false_iff]. destruct Hmb as [Hmb1%Z.ltb_ge Hmb2%Z.ltb_ge].
  unfold BITS in Hmb1. set (mb := Z.land b BIT_MASK) in *. assert (12 <= mb <= 16) as Hmb by lia. exists mb. split; [lia|].
  assert (Forall octet body) as Hbody by (by inversion Hfile as [|? ? _ H1]; inversion H1 as [|? ? _ H2]; inversion H2).
  destruct (opened_sane b body s Hmb Hbody Hc Hr Hs) as (Hsane & Htab & Hfe & Efp & Eg & Hch & Hro & En);
    [rewrite Hg; by apply Forall_replicate|done|].
  set (r1 := opened b body s) in *. clearbody r1.
  destruct (first_code r1 Hch Hro En) as (c & r2 & E & Hoct); [by rewrite Efp|by rewrite Eg|by rewrite Efp|].
  assert (10 <= mb <= 16) as Hmb' by lia.
  destruct (getcode_sane mb Hmb' r1 Hsane) as (c' & f & g & o & z & E' & Hs2 & Hc2 & Hf2 & _).
  rewrite E in E'. injection E' as <- ->. rewrite (run_bind_ok _ _ _ _ _ E), !run_bind_modify.
  destruct (Z.eqb_spec c (-1)) as [->|Hc1].
  - eexists 0, [], _. split; [reflexivity|]. right. split; [lia|]. split; [done|lia].
  - destruct Hoct as [|Hoct]; [done|]. rewrite run_bind_modify, run_bind_gets.
    assert ((forall i, 256 <= i < free_ent (set_io f g o z (widen r1)) -> 0 <= tab_prefix (set_io f g o z (widen r1)) i < i) /\
      256 <= free_ent (set_io f g o z (widen r1))) as [Ht2 Hf2'].
    { destruct (widen_keeps r1) as (_ & _ & E3 & _ & E5 & _). unfold set_io.
      cbn [tab_prefix free_ent set_size set_roffset set_gbuf set_fp]. by rewrite E3, E5. }
    set (r2 := set_io f g o z (widen r1)) in *. clearbody r2.
    apply (loop_returns mb Hmb'); [by apply first_top_sane|by apply (first_turns mb)|lia|simpl; lia].
Qed.

(** Reading a file to its end, as the program does: up to a read that returns nothing or an error. *)
Fixpoint read_on (ns : list Z) : R (list (Z * list Z)) :=
  match ns with
  | [] => mret []
  | n :: ns => r ← zread n; if fst r <=? 0 then mret [r] else rs ← read_on ns; mret (r :: rs)
  end.

(** What a read returns. *)
Definition answer (r : Z * list Z) : Prop := fst r = -1 \/ fst r = Z.of_nat (length (snd r)).

Lemma read_on_returns ns : forall mb r,
  10 <= mb <= 16 -> Forall (fun n => 0 < n) ns ->
  match ns with [] => True | n :: _ => returns mb n (zread n) r end ->
  exists rs r', read_on ns r = (Ok rs, r') /\ Forall answer rs.
Proof.
  induction ns as [|n ns IH]; intros mb r Hmb Hns Hr; [by exists [], r|]. inversion Hns as [|? ? Hn Hns']; subst.
  cbn [read_on]. destruct Hr as (v & out & r1 & E & Hv). rewrite (run_bind_ok _ _ _ _ _ E). cbn [fst].
  assert (answer (v, out)) as Ha by (unfold answer; cbn [fst snd]; lia).
  destruct (Z.leb_spec v 0); [by exists [(v, out)], r1; split; [|constructor]|].
  destruct Hv as [->|(_ & _ & Hleft)]; [lia|].
  destruct (IH mb r1 Hmb Hns') as (rs & r' & E' & Hrs).
  { destruct ns as [|n' ns]; [done|]. inversion Hns'; subst. apply zread_returns; [done|by apply Hleft|done]. }
  exists ((v, out) :: rs), r'. rewrite (run_bind_ok _ _ _ _ _ E'). split; [done|by constructor].
Qed.

(** C14. Whatever file is read, if the low bit of its fifth octet is 0, which makes the first code an octet: each read
    up to and with the first that gives nothing or an error comes back, with -1 or with as many octets as it says; none
    runs for ever, overruns the stack, or leaves its table. *)
Theorem zread_safe bits file ns :
  bits_ok bits = true -> Forall octet file -> Z.even (byte_at file 4) = true -> Forall (fun n => 0 < n) ns ->
  exists s rs s', zopen file bits = Some s /\ read_on ns s = (Ok rs, s') /\ Forall answer rs.
Proof.
  intros Hb Hfile He Hns. destruct (zopen_some file bits Hb) as (s & Es & Hfp & Hst & Hc & Hr & Hs & Hg & Ht).
  assert (exists mb, 10 <= mb <= 16 /\ match ns with [] => True | n :: _ => returns mb n (zread n) s end) as (mb & Hmb & Hret).
  { destruct ns as [|n ns]; [by exists 16|]. inversion Hns; subst. by eapply zread_first_returns. }
  destruct (read_on_returns ns mb s Hmb Hns Hret) as (rs & s' & E & Hrs). by exists s, rs, s'.
Qed.

Theorem zread_safe_witness :
  exists s rs s', zopen [31; 157; 144; 3; 130; 4; 12; 50; 16; 7] 16 = Some s /\
    read_on [5; 2; 100] s = (Ok rs, s') /\ Forall answer rs.
Proof.
  apply (zread_safe 16 [31; 157; 144; 3; 130; 4; 12; 50; 16; 7] [5; 2; 100]); [done| |done|].
  - repeat (constructor; [unfold octet; lia|]); constructor.
  - repeat (constructor; [lia|]); constructor.
Defined.

(** *** Reading on after an error *)

(** A read that goes on with a string when there is none takes an octet in front of the stack. *)
Lemma zread_no_string n r :
  state r = S_MIDDLE -> stack r = [] -> 0 < n -> (zread n r).1 = Ex Crash.
Proof.
  intros Hs Hk Hn. unfold zread. destruct (Z.eqb_spec n 0); [lia|]. rewrite run_bind_gets, Hs, run_bind_gets.
  unfold middle. rewrite run_bind_gets, Hk. cbn [pop]. by destruct (Z.eqb_spec n 0); [lia|].
Qed.

(** An error does so: it leaves the stream in [S_MIDDLE] with its stack empty. *)
Lemma read_after_error :
  exists s s1, zopen [31; 157; 144; 65; 254; 3] 16 = Some s /\ zread 100 s = (Ok (-1, [65]), s1) /\
    state s1 = S_MIDDLE /\ stack s1 = [] /\ (zread 100 s1).1 = Ex Crash.
Proof.
  do 2 eexists. split; [reflexivity|]. split; [vm_compute; reflexivity|]. split; [reflexivity|]. split; [reflexivity|].
  by apply zread_no_string.
Qed.

(** ** A first code that is not an octet *)

(** The entries that a code's string goes through come back to it. *)
Definition cycle (tp : Z -> Z) (a b : Z) : Prop := 256 <= a /\ 256 <= b /\ tp a = b /\ tp b = a.

Lemma cycle_swap tp a b : cycle tp a b -> cycle tp b a.
Proof. intros (? & ? & ? & ?). by split_and!. Qed.

Lemma unwind_cycle fuel : forall r b,
  cycle (tab_prefix r) (code r) b -> Z.of_nat (length (stack r)) <= DE_STACK_SIZE ->
  DE_STACK_SIZE - Z.of_nat (length (stack r)) < Z.of_nat fuel ->
  exists r', unwind fuel r = (Ex Crash, r').
Proof.
  induction fuel as [|fuel IH]; intros r b Hcyc Hl Hfuel; [lia|]. pose proof Hcyc as (Hc & Hb & Ea & Eb).
  cbn [unwind]. rewrite run_bind_get. destruct (Z.ltb_spec (code r) 256); [lia|].
  unfold push. rewrite run_bind_assoc, run_bind_gets.
  destruct (Z.leb_spec DE_STACK_SIZE (Z.of_nat (length (stack r)))) as [Hfull|Hroom]; [by eexists|].
  rewrite !run_bind_modify. apply (IH _ (code r)).
  - cbn [tab_prefix code set_code set_stack]. rewrite Ea. by apply cycle_swap.
  - cbn [stack set_code set_stack length]. lia.
  - cbn [stack set_code set_stack length]. lia.
Qed.

Definition crafted : list Z := [31; 157; 144; 3; 131; 4; 12; 50; 16].

(** The stream when [crafted] is read, at the top of the loop. *)
Definition crafted_at (tp ts : Z -> Z) (fe fin co old inc ro : Z) : zs :=
  mkZs [] None S_MIDDLE 9 16 511 65536 tp ts fe 128 0 [] fin co old inc ro 40
    [3; 131; 4; 12; 50; 16; 0; 0; 0; 0; 0; 0; 0; 0; 0; 0].

Definition prefixes : Z -> Z := first_codes 256 (fun _ => 0) (fun _ => 0).
Definition suffixes : Z -> Z := first_codes 256 (fun c => c) (fun _ => 0).

(** The codes are 259, 65, 257, 65 and 259: entry 257 has the prefix 259, and entry 259 the prefix 257. *)
Definition prefixes1 := <[257 := 259]> prefixes.
Definition suffixes1 := <[257 := 65]> suffixes.
Definition prefixes2 := <[258 := 65]> prefixes1.
Definition suffixes2 := <[258 := 0]> suffixes1.
Definition prefixes3 := <[259 := 257]> prefixes2.
Definition suffixes3 := <[259 := 65]> suffixes2.

Lemma crafted_turn1 f num out :
  zread_loop (S f) num 99 out (crafted_at prefixes suffixes 257 259 (-1) 259 0 9) =
  zread_loop f num 98 (out ++ [65]) (crafted_at prefixes1 suffixes1 258 65 257 65 65 18).
Proof. reflexivity. Qed.

Lemma crafted_turn2 f num out :
  zread_loop (S f) num 98 out (crafted_at prefixes1 suffixes1 258 65 257 65 65 18) =
  zread_loop f num 95 (((out ++ [0]) ++ [0]) ++ [65]) (crafted_at prefixes2 suffixes2 259 0 258 257 257 27).
Proof. reflexivity. Qed.

Lemma crafted_turn3 f num out :
  zread_loop (S f) num 95 out (crafted_at prefixes2 suffixes2 259 0 258 257 257 27) =
  zread_loop f num 94 (out ++ [65]) (crafted_at prefixes3 suffixes3 260 65 259 65 65 36).
Proof. reflexivity. Qed.

Lemma crafted_turn4 f num out :
  exists r', zread_loop (S f) num 94 out (crafted_at prefixes3 suffixes3 260 65 259 65 65 36) = (Ex Crash, r').
Proof.
  cbn [zread_loop]. rewrite (run_bind_ok getcode _ _ 259 (crafted_at prefixes3 suffixes3 260 65 259 65 65 45)) by done.
  rewrite run_bind_modify, run_bind_gets. change (259 <=? -1) with false. change (259 =? CLEAR) with false. cbn [andb].
  cbv iota. unfold decode. rewrite run_bind_assoc, run_bind_modify, run_bind_assoc, run_bind_get.
  cbn [code free_ent set_code set_incode crafted_at]. change (260 <=? 259) with false. cbv iota.
  rewrite run_bind_assoc, run_bind_ret. cbn [negb]. rewrite run_bind_assoc.
  match goal with |- context [set_incode 259 ?t] => set (r := set_incode 259 t) end.
  destruct (unwind_cycle (S (Z.to_nat DE_STACK_SIZE)) r 257) as (r' & E).
  - by split_and!.
  - done.
  - cbn [length stack r crafted_at set_incode set_code]. pose proof stack_size. lia.
  - exists r'. by apply run_bind_ex.
Qed.

(** C33. A file of nine octets, with a first code that is not an octet, makes the reader write behind the end of its
    stack: the table that it builds has a cycle, in which the octets of a string have no end. *)
Theorem first_code_unchecked :
  exists s s', zopen crafted 16 = Some s /\ zread 100 s = (Ex Crash, s').
Proof.
  eexists. destruct (crafted_turn4 125 100 [3; 65; 0; 0; 65; 65]) as (s' & E).
  exists s'. split; [reflexivity|]. rewrite <- E.
  exact (eq_trans (crafted_turn1 128 100 [3]) (eq_trans (crafted_turn2 127 100 [3; 65]) (crafted_turn3 126 100 [3; 65; 0; 0; 65]))).
Qed.
