(* ===== verification/Locate.v ===== *)
(** * locate: the compressed list of paths and the search in it
    ([src/shell_cmds/locate])

    [Module Code] is the program locate.code, which writes a database: the table of bigrams, then for
    each path how many octets it has in common with the path before, as a difference, and the octets behind them.
    [Module Find] is what [locate] does with a database: [patprep] and [fastfind] (util.c, fastfind.c, which is
    compiled four times: [mm] is FF_MMAP, [icase] is FF_ICASE), and the list of databases ([colon]).

    A path is a list of octets without NUL; the buffer [path] of [fastfind] is a list of [MAXPATHLEN] octets, with
    [junk] in it at the start, since the program does not initialise it.  The search can
    read in front of the buffer; [under] is what is there.  A write behind the buffer is a
    [Crash].  The character tables and [fnmatch] are parameters.  [__APPLE__] is defined; a word of a database has the
    host's order, the least octet first. *)

From Stdlib Require Import ZArith Lia List Bool.
From stdpp Require Import base tactics list numbers functions.
From S2P Require Import Prelude.

Local Open Scope Z_scope.

Definition NBG : Z := 128.
Definition OFFSET : Z := 14.
Definition PARITY : Z := 128.
Definition SWITCH : Z := 30.
Definition UMLAUT : Z := 31.
Definition ASCII_MIN : Z := 32.
Definition ASCII_MAX : Z := 127.
Definition MAXPATHLEN : Z := 1024.
Definition NL : Z := 10.
Definition SLASH : Z := 47.

(** LOCATE_REG: [*?[]\ ]. *)
Definition LOCATE_REG : list Z := [42; 63; 91; 93; 92].

(** An array that C reads as a string. *)
Fixpoint cstr (l : list Z) : list Z :=
  match l with [] => [] | c :: l => if c =? 0 then [] else c :: cstr l end.

Definition octet_at (l : list Z) (i : Z) : Z := default 0 (l !! Z.to_nat i).

(** [putw] and [getw]. *)
Definition word_octets (w : Z) : list Z :=
  [u8 w; u8 (Z.shiftr w 8); u8 (Z.shiftr w 16); u8 (Z.shiftr w 24)].
Definition octets_word (a b c d : Z) : Z := s32 (a + 256 * b + 65536 * c + 16777216 * d).

Module Code.

(** [fgets(s, n, fp)] of what is left to read. *)
Fixpoint line_take (n : nat) (l : list Z) : list Z * list Z :=
  match n, l with
  | O, _ => ([], l)
  | _, [] => ([], [])
  | S n, c :: l => if c =? NL then ([NL], l) else let '(a, b) := line_take n l in (c :: a, b)
  end.
Definition fgets (n : Z) (l : list Z) : option (list Z) * list Z :=
  match l with
  | [] => (None, [])
  | _ => let '(a, b) := line_take (Z.to_nat (n - 1)) l in (Some (cstr a), b)
  end.

Definition BGBUFSIZE : Z := NBG * 2.

(** The array [bigrams], of BGBUFSIZE octets and one. *)
Definition bigrams_of (text : list Z) : list Z :=
  text ++ replicate (Z.to_nat (BGBUFSIZE + 1) - length text) 0.

(** [big]: the place of a bigram, or -1. *)
Fixpoint big_loop (l : list Z) (i : Z) (big : Z -> Z -> Z) : Z -> Z -> Z :=
  match l with
  | a :: b :: l => if a =? 0 then big else big_loop l (i + 2) (<[a := <[b := i]> (big a)]> big)
  | _ => big
  end.
Definition big_init (bigrams : list Z) : Z -> Z -> Z := big_loop bigrams 0 (fun _ _ => -1).

(** The loop that removes the newline. *)
Definition chop (l : list Z) : list Z :=
  cstr (map (fun c => if c =? SWITCH then 63 else if c =? NL then 0 else c) l).

(** How many octets [path] and [oldpath] have in common. *)
Fixpoint common (path oldpath : list Z) : nat :=
  match path, oldpath with
  | c :: path, d :: oldpath => if c =? d then S (common path oldpath) else O
  | _, _ => O
  end.

Definition put_char (c : Z) : list Z :=
  if (c <? ASCII_MIN) || (ASCII_MAX <? c) then [UMLAUT; c] else [c].

(** The octets behind the common ones; [None]: a bigram ends with the NUL, and the loop goes on behind it. *)
Fixpoint put_rest (big : Z -> Z -> Z) (cp : list Z) : option (list Z) :=
  match cp with
  | [] => Some []
  | [a] => if big a 0 =? -1 then Some (put_char a) else None
  | a :: b :: cp =>
      l ← put_rest big cp;
      Some (if big a b =? -1 then put_char a ++ put_char b ++ l
            else Z.lor (big a b / 2) PARITY :: l)
  end.

Definition put_count (diffcount : Z) : list Z :=
  if (diffcount <? 0) || (2 * OFFSET <? diffcount) then SWITCH :: word_octets diffcount else [diffcount].

(** A line: the path before, and what it had in common with the one before it. *)
Definition put_path (big : Z -> Z -> Z) (oldpath : list Z) (oldcount : Z) (path : list Z) : option (Z * list Z) :=
  let count := Z.of_nat (common path oldpath) in
  l ← put_rest big (drop (common path oldpath) path);
  Some (count, put_count (count - oldcount + OFFSET) ++ l).

Fixpoint code_loop (fuel : nat) (big : Z -> Z -> Z) (stdin oldpath : list Z) (oldcount : Z) (out : list Z) :
    res halt (list Z) :=
  match fuel with
  | O => Ex NoFuel
  | S fuel =>
      match fgets MAXPATHLEN stdin with
      | (None, _) => Ok out
      | (Some line, stdin) =>
          if octet_at line 0 =? NL then code_loop fuel big stdin oldpath oldcount out
          else
            let path := chop line in
            match put_path big oldpath oldcount path with
            | None => Ex Crash
            | Some (count, l) => code_loop fuel big stdin path count (out ++ l)
            end
      end
  end.

(** locate.code: the file with the bigrams, and the list of paths. *)
Definition main (bigram_file stdin : list Z) : res halt (list Z) :=
  let bigrams := bigrams_of (default [] (fst (fgets (BGBUFSIZE + 1) bigram_file))) in
  code_loop (S (length stdin)) (big_init bigrams) stdin [32] 0 (take (Z.to_nat BGBUFSIZE) bigrams).

End Code.

Module Find.

(** [check_bigram_char]. *)
Definition check_bigram_char (ch : Z) : bool := (ch =? 0) || ((ASCII_MIN <=? ch) && (ch <=? ASCII_MAX)).

Definition is_reg (c : Z) : bool := bool_decide (c ∈ LOCATE_REG).
Definition is_bracket (c : Z) : bool := (c =? 91) || (c =? 93).

(** The last of the first [n] octets of [name] that [f] holds of, or -1. *)
Fixpoint back (f : Z -> bool) (name : list Z) (n : nat) : Z :=
  match n with
  | O => -1
  | S n => if f (octet_at name (Z.of_nat n)) then Z.of_nat n else back f name n
  end.

(** The first octet of [name] that [f] holds of. *)
Fixpoint forth (f : Z -> bool) (name : list Z) : nat :=
  match name with [] => O | c :: name => if f c then O else S (forth f name) end.

Definition GLOBFREE : Z := 100.

(** The octets behind the NUL of [globfree]; [None]: the NUL at the end is written behind the array. *)
Definition patprep (name : list Z) : option (list Z) :=
  let p := back (fun c => negb (is_reg c)) name (length name) in
  let p :=
    if (0 <=? p) && existsb is_bracket (drop (Z.to_nat p) name) then
      let p := Z.of_nat (forth is_bracket name) - 1 in
      if (0 <=? p) && is_reg (octet_at name p) then -1 else p
    else p in
  if p <? 0 then Some [SLASH]
  else
    let start := back is_reg name (Z.to_nat (p + 1)) + 1 in
    let piece := take (Z.to_nat (p - start + 1)) (drop (Z.to_nat start) name) in
    if GLOBFREE <=? 1 + Z.of_nat (length piece) then None else Some piece.

(** [colon]: the databases of a list with colons, behind those of [dbv]; an empty one is [dot]. *)
Fixpoint colon_loop (path word dot : list Z) : list (list Z) :=
  let p := match word with [] => dot | _ => word end in
  match path with
  | [] => [p]
  | ch :: path => if ch =? 58 then p :: colon_loop path [] dot else colon_loop path (word ++ [ch]) dot
  end.
Definition colon (dbv : list (list Z)) (path dot : list Z) : list (list Z) :=
  match path with
  | [] => dbv
  | _ => if bool_decide (path = [58]) then dbv ++ [dot] else dbv ++ colon_loop path [] dot
  end.

(** ** The search *)

(** The options. *)
Record search_opts := mkOpts { mm : bool; icase : bool; f_silent : bool; f_limit : Z; separator : Z }.

(** What has been printed, and [counter]. *)
Record rst := mkRst { printed : list Z; counter : Z }.

Abbreviation L := (M halt rst).

Section Fastfind.
Context (o : search_opts) (tolower toupper : Z -> Z) (fnmatch : bool -> list Z -> list Z -> bool).
Context (under : Z -> Z).

(** Print or count a path. *)
Definition print_path (path : list Z) : L unit :=
  modify (fun s => mkRst (printed s ++ path ++ [separator o]) (counter s)).
Definition count_path : L unit := modify (fun s => mkRst (printed s) (u32 (counter s + 1))).
Definition report (path : list Z) : L unit :=
  if f_silent o then count_path
  else if negb (f_limit o =? 0) then
    _ ← count_path;
    n ← gets counter;
    if n <=? u32 (f_limit o) then print_path path else leave (Exit 0)
  else print_path path.

(** The octet [c] of a path is the octet [x] of the pattern. *)
Definition same (c x : Z) : bool := (c =? x) || (icase o && (tolower c =? x)).
(** [c == cc], or [table[c]]. *)
Definition hit (cc c : Z) : bool :=
  if icase o then (c =? tolower cc) || (c =? toupper cc) else c =? cc.

(** [path[i]], and [*p++ = c]. *)
Definition path_at (path : list Z) (i : Z) : Z := if i <? 0 then under i else octet_at path i.
Definition store (path : list Z) (p c : Z) : option (list Z) :=
  if p <? MAXPATHLEN then Some (<[Z.to_nat p := c]> path) else None.

(** The word behind SWITCH; [None]: it ends behind the database. *)
Definition get_word (l : list Z) : option (Z * list Z) :=
  match l with
  | a :: b :: c :: d :: l => Some (octets_word a b c d, l)
  | _ => if mm o then None else Some (-1, [])
  end.
Definition in_range (w : Z) : bool := (- MAXPATHLEN <=? w) && (w <=? MAXPATHLEN).
Definition ntohl (w : Z) : Z :=
  s32 (16777216 * u8 w + 65536 * u8 (Z.shiftr w 8) + 256 * u8 (Z.shiftr w 16) + u8 (Z.shiftr w 24)).
Definition getw (l : list Z) : L (Z * list Z) :=
  match get_word l with
  | None => leave Crash
  | Some (w, l) =>
      if in_range w then mret (w, l)
      else if in_range (ntohl w) then mret (ntohl w, l) else leave (Exit 1)
  end.

(** The octets of a path, up to a code that is not one of them. *)
Record scanned := mkScanned { s_c : Z; s_in : list Z; s_path : list Z; s_p : Z; s_found : Z }.
Fixpoint scan (bigram1 bigram2 : list Z) (cc : Z) (l : list Z) (c : Z) (path : list Z) (p foundchar : Z) : option scanned :=
  match l with
  | [] => Some (mkScanned (if mm o then c else -1) [] path p foundchar)
  | c :: l =>
      if c <? PARITY then
        if c <=? UMLAUT then
          if c =? UMLAUT then
            match l with
            | [] =>
                if mm o || icase o then None
                else path ← store path p 255; Some (mkScanned (-1) [] path (p + 1) foundchar)
            | c :: l =>
                path ← store path p c;
                scan bigram1 bigram2 cc l c path (p + 1) (if hit cc c then p else foundchar)
            end
          else Some (mkScanned c l path p foundchar)
        else
          path ← store path p c;
          scan bigram1 bigram2 cc l c path (p + 1) (if hit cc c then p else foundchar)
      else
        let c := Z.land c 127 in
        let a := octet_at bigram1 c in
        let b := octet_at bigram2 c in
        path ← store path p a;
        path ← store path (p + 1) b;
        scan bigram1 bigram2 cc l c path (p + 2) (if hit cc a || hit cc b then p + 1 else foundchar)
  end.

(** The rest of the pattern, backwards from [q]. *)
Fixpoint match_back (rest path : list Z) (q : Z) : bool :=
  match rest with
  | [] => true
  | x :: rest => same (path_at path q) x && match_back rest path (q - 1)
  end.

(** The loop over [s], which takes [n] turns at most. *)
Fixpoint search (cc : Z) (rest path : list Z) (n : nat) (s : Z) : bool :=
  match n with
  | O => false
  | S n =>
      if same (path_at path s) cc && match_back rest path (s - 1) then true
      else search cc rest path n (s - 1)
  end.

(** The main loop; [back_pat] is the pattern of [patprep] from its end. *)
Fixpoint find_loop (fuel : nat) (bigram1 bigram2 pathpart back_pat : list Z) (globflag : bool)
    (c : Z) (l : list Z) (count : Z) (found : bool) (path : list Z) : L unit :=
  match fuel with
  | O => leave NoFuel
  | S fuel =>
      let cc := hd 0 back_pat in
      if (if mm o then bool_decide (l = []) else c =? -1) then mret ()
      else
        '(step, l) ← (if c =? SWITCH then getw l else mret (c, l));
        let count := count + (step - OFFSET) in
        if count <? 0 then leave (Exit 1)
        else
          match scan bigram1 bigram2 cc l c path count (count - 1) with
          | None => leave Crash
          | Some (mkScanned c l path p foundchar) =>
              if found || (count <=? foundchar) then
                match store path p 0 with
                | None => leave Crash
                | Some path =>
                    let cutoff := if found then 0 else count in
                    let foundchar := if found then p - 1 else foundchar in
                    let found := search cc (tail back_pat) path (Z.to_nat (foundchar - cutoff + 1)) foundchar in
                    _ ← mwhen (found && (negb globflag || fnmatch (icase o) pathpart (cstr path))) (report (cstr path));
                    find_loop fuel bigram1 bigram2 pathpart back_pat globflag c l count found path
                end
              else find_loop fuel bigram1 bigram2 pathpart back_pat globflag c l count found path
          end
  end.

(** The tables at the start of a database. *)
Fixpoint even_octets (l : list Z) : list Z := match l with a :: _ :: l => a :: even_octets l | _ => [] end.
Fixpoint odd_octets (l : list Z) : list Z := match l with _ :: b :: l => b :: odd_octets l | _ => [] end.

(** [fastfind] and its variants, with [junk] in [path] at the start. *)
Definition fastfind (junk pathpart database : list Z) : L unit :=
  let pathpart := if icase o then map tolower pathpart else pathpart in
  let header := take (Z.to_nat (NBG * 2)) database in
  let l := drop (Z.to_nat (NBG * 2)) database in
  if negb (bool_decide (length header = Z.to_nat (NBG * 2))) || negb (forallb check_bigram_char header) then leave (Exit 1)
  else
    match patprep pathpart with
    | None => leave Crash
    | Some pat =>
        let c := match l with [] => if mm o then 0 else -1 | c :: _ => c end in
        find_loop (S (length database)) (even_octets header) (odd_octets header) pathpart (rev pat)
          (existsb is_reg pathpart) c (tail l) 0 false junk
    end.

End Fastfind.

End Find.
