(* ===== verification/LocateFacts.v ===== *)
(** * locate: searching the compressed list is searching the list

    [occurs] says what it is for a pattern to be in a path, and [records] what locate.code puts behind the bigrams.
    The decoder of [fastfind] leaves each path in its buffer ([scan_rest]); its search, which looks at the octets
    that are new and at all of them only when the path before had the pattern, finds what is there ([found_new]). *)

From Stdlib Require Import ZArith Lia List Bool.
From stdpp Require Import base tactics list numbers functions.
From S2P Require Import Prelude Locate.

Local Open Scope Z_scope.

(** ** Lists *)

Lemma octet_at_app_l a b i : 0 <= i < Z.of_nat (length a) -> octet_at (a ++ b) i = octet_at a i.
Proof. intros Hi. unfold octet_at. by rewrite lookup_app_l by lia. Qed.

Lemma octet_at_take n l i : 0 <= i < Z.of_nat n -> octet_at (take n l) i = octet_at l i.
Proof. intros Hi. unfold octet_at. by rewrite lookup_take_lt by lia. Qed.

Lemma octet_at_middle a c b : octet_at (a ++ c :: b) (Z.of_nat (length a)) = c.
Proof. unfold octet_at. by rewrite Nat2Z.id, list_lookup_middle. Qed.

Lemma cstr_app a b : Forall (fun c => c <> 0) a -> cstr (a ++ 0 :: b) = a.
Proof.
  induction 1 as [|c a Hc _ IH]; [done|]. cbn [app cstr]. destruct (Z.eqb_spec c 0); [done|]. by rewrite IH.
Qed.

Lemma cstr_whole a : Forall (fun c => c <> 0) a -> cstr a = a.
Proof. induction 1 as [|c a Hc _ IH]; [done|]. cbn [cstr]. destruct (Z.eqb_spec c 0); [done|]. by rewrite IH. Qed.

Lemma common_le a b : (Code.common a b <= length a)%nat /\ (Code.common a b <= length b)%nat.
Proof.
  revert b. induction a as [|c a IH]; intros [|d b]; cbn; try lia. destruct (c =? d); cbn; [|lia].
  destruct (IH b). lia.
Qed.

Lemma common_take a b : take (Code.common a b) a = take (Code.common a b) b.
Proof.
  revert b. induction a as [|c a IH]; intros [|d b]; try done. cbn. destruct (Z.eqb_spec c d) as [->|]; [|done].
  cbn. by rewrite IH.
Qed.

(** A buffer that begins with [q]. *)
Definition begins (path q : list Z) : Prop := length path = Z.to_nat MAXPATHLEN /\ exists z, path = q ++ z.

Lemma begins_store path q c :
  begins path q -> Z.of_nat (length q) < MAXPATHLEN ->
  exists path', Find.store path (Z.of_nat (length q)) c = Some path' /\ begins path' (q ++ [c]).
Proof.
  intros [Hl (z & ->)] Hq. unfold Find.store. destruct (Z.ltb_spec (Z.of_nat (length q)) MAXPATHLEN); [|lia].
  eexists. split; [done|]. rewrite Nat2Z.id. destruct z as [|y z].
  { rewrite length_app in Hl. simpl in Hl. lia. }
  rewrite insert_app_r_alt, Nat.sub_diag by lia. cbn. split.
  - rewrite !length_app in *. simpl in *. lia.
  - exists z. by rewrite <- app_assoc.
Qed.

Lemma begins_app path a b : begins path (a ++ b) -> begins path a.
Proof. intros [Hl (z & ->)]. split; [done|]. exists (b ++ z). by rewrite app_assoc. Qed.

Lemma begins_take path q n : begins path q -> begins path (take n q).
Proof. intros H. apply (begins_app _ _ (drop n q)). by rewrite take_drop. Qed.

(** ** A pattern in a path *)

Section Match.
Context (o : Find.search_opts) (tolower toupper : Z -> Z) (fnmatch : bool -> list Z -> list Z -> bool) (under : Z -> Z).

Abbreviation same := (Find.same o tolower).

Fixpoint prefix_same (lit path : list Z) : bool :=
  match lit, path with
  | [], _ => true
  | x :: lit, c :: path => same c x && prefix_same lit path
  | _, [] => false
  end.
Fixpoint occurs (lit path : list Z) : bool :=
  prefix_same lit path || match path with [] => false | _ :: path => occurs lit path end.

Definition alike (lit m : list Z) : Prop := Forall2 (fun x c => same c x = true) lit m.

(** The pattern ends [n] octets into the path. *)
Definition ends_at (lit path : list Z) (n : nat) : Prop :=
  exists a m b, path = a ++ m ++ b /\ length (a ++ m) = n /\ alike lit m.

Lemma prefix_same_spec lit path : prefix_same lit path = true <-> exists m b, path = m ++ b /\ alike lit m.
Proof.
  revert path. induction lit as [|x lit IH]; intros path; cbn.
  - split; [|done]. intros _. exists [], path. split; [done|constructor].
  - destruct path as [|c path].
    + split; [done|]. intros (m & b & E & H). inversion H; subst. done.
    + rewrite andb_true_iff, IH. split.
      * intros [Hc (m & b & -> & Hm)]. exists (c :: m), b. split; [done|by constructor].
      * intros (m & b & E & H). inversion H as [|? d ? m' Hd Hm]; subst. injection E as -> ->. split; [done|by exists m', b].
Qed.

Lemma occurs_spec lit path : occurs lit path = true <-> exists n, ends_at lit path n.
Proof.
  induction path as [|c path IH].
  - cbn [occurs]. rewrite orb_false_r, prefix_same_spec. split.
    + intros (m & b & E & H). eexists _, [], m, b. split_and!; done.
    + intros (n & a & m & b & E & _ & H). symmetry in E. apply app_eq_nil in E as [-> E]. by exists m, b.
  - cbn [occurs]. rewrite orb_true_iff, prefix_same_spec, IH. split.
    + intros [(m & b & E & H)|(n & a & m & b & -> & _ & H)].
      * eexists _, [], m, b. split_and!; done.
      * eexists _, (c :: a), m, b. split_and!; done.
    + intros (n & a & m & b & E & Hn & H). destruct a as [|d a].
      * left. by exists m, b.
      * injection E as -> ->. right. eexists _, a, m, b. split_and!; done.
Qed.

Lemma ends_at_bounds lit path n : ends_at lit path n -> (length lit <= n <= length path)%nat.
Proof.
  intros (a & m & b & -> & <- & H). apply Forall2_length in H. rewrite !length_app. lia.
Qed.

(** What ends in the first [n] octets is in them. *)
Lemma ends_at_take lit path n k : ends_at lit path n -> (n <= k)%nat -> ends_at lit (take k path) n.
Proof.
  intros (a & m & b & -> & <- & H) Hk. exists a, m, (take (k - length (a ++ m)) b). split; [|by split].
  rewrite !app_assoc. rewrite (take_app_ge (a ++ m)) by lia. done.
Qed.

Lemma ends_at_app lit path z n : ends_at lit path n -> ends_at lit (path ++ z) n.
Proof. intros (a & m & b & -> & <- & H). exists a, m, (b ++ z). split; [|by split]. by rewrite <- !app_assoc. Qed.

Lemma ends_at_snoc l x path n :
  (n < length path)%nat ->
  ends_at (l ++ [x]) path (S n) <-> same (octet_at path (Z.of_nat n)) x = true /\ ends_at l path n.
Proof.
  intros Hn. split.
  - intros (a & m & b & -> & Hlen & H). apply Forall2_app_inv_l in H as (m1 & m2 & H1 & H2 & ->).
    inversion H2 as [|? c ? ? Hc H3]; subst. inversion H3; subst. rewrite !length_app in Hlen. simpl in Hlen.
    assert (length (a ++ m1) = n) as En by (rewrite length_app; lia). split.
    + rewrite <- En. replace (a ++ (m1 ++ [c]) ++ b) with ((a ++ m1) ++ c :: b) by (by rewrite <- !app_assoc).
      by rewrite octet_at_middle.
    + exists a, m1, (c :: b). split_and!; [|done|done]. by rewrite <- !app_assoc.
  - intros [Hc (a & m & b & -> & <- & H)]. destruct b as [|c b].
    { rewrite app_nil_r in Hn. lia. }
    rewrite app_assoc in Hc. rewrite octet_at_middle in Hc. exists a, (m ++ [c]), b.
    split; [by rewrite <- !app_assoc|]. split; [rewrite !length_app; simpl; lia|].
    apply Forall2_app; [done|]. by repeat constructor.
Qed.

(** ** The search *)

(** What is in front of the buffer is no part of the pattern. *)
Definition quiet (lit : list Z) : Prop := forall i x, x ∈ lit -> same (under i) x = false.

Lemma path_at_begins path P i :
  begins path P -> 0 <= i < Z.of_nat (length P) -> Find.path_at under path i = octet_at P i.
Proof.
  intros [_ (z & ->)] Hi. unfold Find.path_at. destruct (Z.ltb_spec i 0); [lia|]. by apply octet_at_app_l.
Qed.

Lemma match_back_spec path P l : begins path P -> quiet l -> forall n, (n <= length P)%nat ->
  Find.match_back o tolower under (rev l) path (Z.of_nat n - 1) = true <-> ends_at l P n.
Proof.
  intros HP. induction l as [|x l IH] using rev_ind; intros Hq n Hn.
  - cbn. split; [|done]. intros _. exists (take n P), [], (drop n P). split; [by rewrite app_nil_l, take_drop|].
    split; [rewrite app_nil_r, length_take; lia|constructor].
  - rewrite rev_app_distr. cbn [rev app Find.match_back]. destruct n as [|n].
    + split.
      * rewrite andb_true_iff. intros [H _]. exfalso. change (Z.of_nat 0 - 1) with (-1) in H. unfold Find.path_at in H.
        change (-1 <? 0) with true in H. cbv iota in H.
        rewrite (Hq (-1) x) in H; [done|]. apply elem_of_app. right. by left.
      * intros H%ends_at_bounds. rewrite length_app in H. simpl in H. lia.
    + replace (Z.of_nat (S n) - 1) with (Z.of_nat n) by lia.
      rewrite andb_true_iff, (path_at_begins path P) by (done || lia). rewrite ends_at_snoc by lia.
      rewrite IH; [done| |lia]. intros i y Hy. apply Hq. apply elem_of_app. by left.
Qed.

Lemma search_spec path P cc l : begins path P -> quiet (l ++ [cc]) -> forall n s,
  s < Z.of_nat (length P) ->
  Find.search o tolower under cc (rev l) path n s = true <->
  exists k, (k < length P)%nat /\ s - Z.of_nat n < Z.of_nat k <= s /\ ends_at (l ++ [cc]) P (S k).
Proof.
  intros HP Hq. assert (quiet l) as Hql by (intros i y Hy; apply Hq, elem_of_app; by left).
  induction n as [|n IH]; intros s Hs; cbn [Find.search].
  - split; [done|]. intros (k & _ & Hk & _). lia.
  - destruct (Z.ltb_spec s 0) as [Hneg|Hpos].
    + assert (same (Find.path_at under path s) cc = false) as ->.
      { unfold Find.path_at. destruct (Z.ltb_spec s 0); [|lia]. apply Hq, elem_of_app. right. by left. }
      cbn [andb]. rewrite IH by lia. split; intros (k & H1 & H2 & H3); lia.
    + assert (same (Find.path_at under path s) cc && Find.match_back o tolower under (rev l) path (s - 1) = true <->
        ends_at (l ++ [cc]) P (S (Z.to_nat s))) as Hhere.
      { rewrite andb_true_iff, (path_at_begins path P) by (done || lia). rewrite ends_at_snoc by lia.
        rewrite Z2Nat.id by done. rewrite <- (match_back_spec path P l HP Hql (Z.to_nat s)) by lia.
        by rewrite Z2Nat.id by done. }
      destruct (same _ cc && _) eqn:E.
      * split; [|done]. intros _. exists (Z.to_nat s). split; [lia|]. split; [lia|]. by apply Hhere.
      * rewrite IH by lia. split.
        -- intros (k & H1 & H2 & H3). exists k. split; [done|]. split; [lia|done].
        -- intros (k & H1 & H2 & H3). exists k. split; [done|]. split; [|done].
           assert (k <> Z.to_nat s) as Hne by (intros ->; by apply Hhere in H3). lia.
Qed.

End Match.

(** ** The table of bigrams *)

Lemma big_loop_spec n : forall l i big a b,
  (length l <= n)%nat ->
  Code.big_loop l i big a b = big a b \/
  exists k, Code.big_loop l i big a b = i + 2 * Z.of_nat k /\ l !! (2 * k)%nat = Some a /\ l !! (2 * k + 1)%nat = Some b /\
    (forall j, (j <= k)%nat -> l !! (2 * j)%nat <> Some 0).
Proof.
  induction n as [|n IH]; intros l i big a b Hl; destruct l as [|x [|y l]]; cbn in Hl; try lia; try (by left).
  cbn [Code.big_loop]. destruct (Z.eqb_spec x 0) as [->|Hx]; [by left|].
  destruct (IH l (i + 2) (<[x:=<[y:=i]> (big x)]> big) a b) as [E|(k & E & Ha & Hb & Hz)]; [lia| |].
  - rewrite E. unfold insert, fn_insert. destruct (decide (x = a)) as [->|]; [|by left].
    destruct (decide (y = b)) as [->|]; [|by left]. right. exists 0%nat. split; [lia|]. split; [done|]. split; [done|].
    intros j Hj. replace j with 0%nat by lia. cbn. congruence.
  - right. exists (S k). split; [rewrite E; lia|]. replace (2 * S k)%nat with (S (S (2 * k))) by lia.
    split; [exact Ha|]. split; [exact Hb|]. intros [|j] Hj; [cbn; congruence|].
    replace (2 * S j)%nat with (S (S (2 * j))) by lia. apply Hz. lia.
Qed.

Lemma pair_octets_lookup n : forall l k, (length l <= n)%nat -> (2 * k + 1 < length l)%nat ->
  Find.even_octets l !! k = l !! (2 * k)%nat /\ Find.odd_octets l !! k = l !! (2 * k + 1)%nat.
Proof.
  induction n as [|n IH]; intros [|a [|b l]] k Hl Hk; cbn [length] in *; try lia. destruct k as [|k]; [done|].
  replace (2 * S k)%nat with (S (S (2 * k))) by lia. replace (S (S (2 * k)) + 1)%nat with (S (S (2 * k + 1))) by lia.
  cbn [Find.even_octets Find.odd_octets lookup list_lookup]. apply IH; lia.
Qed.

(** The bigrams that locate.code takes. *)
Definition bigram_text (text : list Z) : Prop :=
  Forall (fun c => ASCII_MIN <= c <= ASCII_MAX) text /\ (length text <= 256)%nat /\ Nat.even (length text) = true.

Definition tables (text : list Z) : list Z := take 256 (Code.bigrams_of text).

Lemma bigrams_of_length text : (length text <= 256)%nat -> length (Code.bigrams_of text) = 257%nat.
Proof.
  intros H. unfold Code.bigrams_of. rewrite length_app, length_replicate. change (Z.to_nat (Code.BGBUFSIZE + 1)) with 257%nat. lia.
Qed.

Lemma bigrams_of_lookup text i :
  (i <= 256)%nat -> (length text <= 256)%nat -> Code.bigrams_of text !! i = Some (octet_at text (Z.of_nat i)).
Proof.
  intros Hi Ht. unfold Code.bigrams_of, octet_at. rewrite Nat2Z.id. change (Z.to_nat (Code.BGBUFSIZE + 1)) with 257%nat.
  destruct (decide (i < length text)%nat) as [Hlt|Hge].
  - rewrite lookup_app_l by done. apply lookup_lt_is_Some in Hlt as [x Hx]. by rewrite Hx.
  - rewrite lookup_app_r by lia. rewrite lookup_replicate_2 by lia. by rewrite lookup_ge_None_2 by lia.
Qed.

(** A bigram that is found stands in the tables, and ends before the NUL. *)
Lemma big_found text a b :
  bigram_text text -> Code.big_init (Code.bigrams_of text) a b <> -1 ->
  exists k, (k < 128)%nat /\ Code.big_init (Code.bigrams_of text) a b = 2 * Z.of_nat k /\ b <> 0 /\
    octet_at (Find.even_octets (tables text)) (Z.of_nat k) = a /\ octet_at (Find.odd_octets (tables text)) (Z.of_nat k) = b.
Proof.
  intros (Hasc & Hlen & Heven) Hne. pose proof (bigrams_of_length text Hlen) as H257. unfold Code.big_init in *.
  destruct (big_loop_spec 257 (Code.bigrams_of text) 0 (fun _ _ => -1) a b) as [E|(k & E & Ha & Hb & Hz)]; [lia|done|].
  pose proof (lookup_lt_Some _ _ _ Hb) as Hlt. rewrite H257 in Hlt. exists k. split; [lia|]. split; [lia|].
  rewrite bigrams_of_lookup in Ha, Hb by lia. apply (inj Some) in Ha. apply (inj Some) in Hb.
  assert (2 * k < length text)%nat as Hk.
  { destruct (decide (2 * k < length text)%nat) as [|Hge]; [done|]. exfalso. apply (Hz k); [done|].
    rewrite bigrams_of_lookup by lia. unfold octet_at. by rewrite Nat2Z.id, lookup_ge_None_2 by lia. }
  split.
  { apply Nat.even_spec in Heven as [m Hm]. assert (2 * k + 1 < length text)%nat as Hk1 by lia.
    apply lookup_lt_is_Some in Hk1 as [x Hx]. unfold octet_at in Hb. rewrite Nat2Z.id, Hx in Hb. cbn in Hb. subst x.
    rewrite Forall_lookup in Hasc. specialize (Hasc _ _ Hx). cbn in Hasc. unfold ASCII_MIN in Hasc. lia. }
  destruct (pair_octets_lookup 256 (tables text) k) as [E1 E2]; unfold tables in *; rewrite ?length_take; try lia.
  unfold octet_at in *. rewrite !Nat2Z.id in *. rewrite E1, E2, !lookup_take_lt by lia.
  rewrite !bigrams_of_lookup by lia. unfold octet_at. rewrite !Nat2Z.id. done.
Qed.

Lemma tables_ok text : bigram_text text ->
  length (tables text) = 256%nat /\ forallb Find.check_bigram_char (tables text) = true.
Proof.
  intros (Hasc & Hlen & _). split; [unfold tables; rewrite length_take, bigrams_of_length; lia|].
  apply forallb_forall. intros x Hx. apply list_elem_of_In, list_elem_of_lookup in Hx as [i Hi].
  pose proof (lookup_lt_Some _ _ _ Hi) as Hlt. unfold tables in *. rewrite length_take in Hlt. rewrite lookup_take_lt in Hi by lia.
  rewrite bigrams_of_lookup in Hi by lia. injection Hi as <-. unfold octet_at. rewrite Nat2Z.id.
  destruct (text !! i) as [x|] eqn:E; cbn; [|done]. rewrite Forall_lookup in Hasc. specialize (Hasc _ _ E).
  unfold Find.check_bigram_char. cbn in Hasc. lia.
Qed.

(** ** Numbers *)

Lemma u8_bits w : u8 w = Z.land w 255.
Proof. unfold uwrap. change 255 with (Z.ones 8). by rewrite Z.land_ones. Qed.

Lemma word_roundtrip w : - 2 ^ 31 <= w < 2 ^ 31 ->
  octets_word (u8 w) (u8 (Z.shiftr w 8)) (u8 (Z.shiftr w 16)) (u8 (Z.shiftr w 24)) = w.
Proof.
  intros Hw. unfold octets_word, uwrap. rewrite !Z.shiftr_div_pow2 by lia.
  change (2 ^ 8) with 256. change (2 ^ 16) with 65536. change (2 ^ 24) with 16777216. change (2 ^ 31) with 2147483648 in Hw.
  assert (w mod 256 + 256 * (w / 256 mod 256) + 65536 * (w / 65536 mod 256) + 16777216 * (w / 16777216 mod 256) = w mod 4294967296) as ->.
  { replace (w / 65536) with (w / 256 / 256) by (rewrite Z.div_div by lia; done).
    replace (w / 16777216) with (w / 256 / 256 / 256) by (rewrite !Z.div_div by lia; done).
    pose proof (Z.div_mod w 256). pose proof (Z.div_mod (w / 256) 256). pose proof (Z.div_mod (w / 256 / 256) 256).
    pose proof (Z.div_mod (w / 256 / 256 / 256) 256).
    pose proof (Z.mod_pos_bound w 256). pose proof (Z.mod_pos_bound (w / 256) 256). pose proof (Z.mod_pos_bound (w / 256 / 256) 256).
    pose proof (Z.mod_pos_bound (w / 256 / 256 / 256) 256).
    apply (Z.mod_unique w 4294967296 (w / 256 / 256 / 256 / 256)); lia. }
  unfold swrap. change (2 ^ (32 - 1)) with 2147483648. change (2 ^ 32) with 4294967296.
  rewrite <- Z.add_mod_idemp_l by lia. rewrite Z.mod_mod by lia. rewrite Z.add_mod_idemp_l by lia. rewrite Z.mod_small; lia.
Qed.

(** ** A path is decoded *)

Definition path_octet (c : Z) : Prop := 0 < c < 256 /\ c <> NL.

Section Decode.
Context (o : Find.search_opts) (tolower toupper : Z -> Z) (cc : Z) (text : list Z).
Hypothesis (Htext : bigram_text text).

Abbreviation hit := (Find.hit o tolower toupper cc).
Abbreviation scan := (Find.scan o tolower toupper (Find.even_octets (tables text)) (Find.odd_octets (tables text)) cc).

(** Behind [found] no octet of [r], which follows [q], is a hit. *)
Definition marks (q r : list Z) (found found' : Z) : Prop :=
  (found' = found \/ Z.of_nat (length q) <= found' < Z.of_nat (length (q ++ r))) /\
  forall k, Z.of_nat (length q) <= k < Z.of_nat (length (q ++ r)) -> found' < k -> hit (octet_at (q ++ r) k) = false.

Lemma marks_nil q f : marks q [] f f.
Proof. split; [by left|]. intros k Hk. rewrite app_nil_r in Hk. lia. Qed.

Lemma marks_app q r1 r2 f f1 f2 : marks q r1 f f1 -> marks (q ++ r1) r2 f1 f2 -> marks q (r1 ++ r2) f f2.
Proof.
  intros [H1 N1] [H2 N2]. rewrite <- app_assoc in H2, N2. unfold marks. rewrite !length_app in *. split; [lia|].
  intros k Hk Hf. destruct (Z.lt_ge_cases k (Z.of_nat (length q + length r1))) as [Hlt|Hge].
  - rewrite app_assoc, octet_at_app_l by (rewrite length_app; lia). apply N1; [lia|].
    destruct H2 as [->|H2]; [done|]. lia.
  - apply N2; lia.
Qed.

Lemma octet_at_last q c : octet_at (q ++ [c]) (Z.of_nat (length q)) = c.
Proof. by rewrite octet_at_middle. Qed.

Lemma marks_char q c f : marks q [c] f (if hit c then Z.of_nat (length q) else f).
Proof.
  unfold marks. rewrite length_app. cbn [length]. destruct (hit c) eqn:Hc; (split; [lia|]); intros k Hk Hf; [lia|].
  replace k with (Z.of_nat (length q)) by lia. by rewrite octet_at_last.
Qed.

Lemma marks_pair q a b f : marks q [a; b] f (if hit a || hit b then Z.of_nat (length q) + 1 else f).
Proof.
  unfold marks. rewrite length_app. cbn [length]. destruct (hit a || hit b) eqn:Hc; (split; [lia|]); intros k Hk Hf; [lia|].
  apply orb_false_iff in Hc as [Ha Hb]. destruct (Z.eq_dec k (Z.of_nat (length q))) as [->|].
  - by rewrite octet_at_middle.
  - replace k with (Z.of_nat (length (q ++ [a]))) by (rewrite length_app; simpl; lia).
    replace (q ++ [a; b]) with ((q ++ [a]) ++ [b]) by (by rewrite <- app_assoc). by rewrite octet_at_last.
Qed.

Lemma scan_char a t c0 path q f :
  0 < a < 256 -> begins path q -> Z.of_nat (length q) < MAXPATHLEN ->
  exists c path', scan (Code.put_char a ++ t) c0 path (Z.of_nat (length q)) f =
      scan t c path' (Z.of_nat (length (q ++ [a]))) (if hit a then Z.of_nat (length q) else f) /\
    begins path' (q ++ [a]).
Proof.
  intros Ha Hq Hlen. destruct (begins_store path q a Hq Hlen) as (path' & Es & Hq'). exists a, path'. split; [|done].
  rewrite length_app. cbn [length]. replace (Z.of_nat (length q + 1)) with (Z.of_nat (length q) + 1) by lia.
  unfold Code.put_char, ASCII_MIN, ASCII_MAX. destruct ((a <? 32) || (127 <? a)) eqn:Eu; cbn [app Find.scan].
  - change (UMLAUT <? PARITY) with true. cbv iota. rewrite Z.leb_refl, Z.eqb_refl, Es. done.
  - apply orb_false_iff in Eu as [E1%Z.ltb_ge E2%Z.ltb_ge]. unfold PARITY, UMLAUT.
    destruct (Z.ltb_spec a 128); [|lia]. destruct (Z.leb_spec a 31); [lia|]. rewrite Es. done.
Qed.

Lemma parity_code k : 0 <= k < 128 -> Z.lor k PARITY = k + 128 /\ Z.land (Z.lor k PARITY) 127 = k.
Proof.
  intros Hk. assert (Z.land k 128 = 0) as Hd.
  { apply Z.bits_inj'. intros i Hi. rewrite Z.land_spec, Z.bits_0. change 128 with (2 ^ 7).
    destruct (Z.eq_dec i 7) as [->|].
    - replace (Z.testbit k 7) with false; [done|]. symmetry. destruct (Z.eq_dec k 0) as [->|]; [done|].
      apply Z.bits_above_log2; [lia|]. apply Z.log2_lt_pow2; lia.
    - rewrite Z.pow2_bits_false by done. apply andb_false_r. }
  assert (Z.lor k PARITY = k + 128) as E by (unfold PARITY; rewrite <- Z.lxor_lor, <- Z.add_nocarry_lxor; done).
  split; [done|]. rewrite E. change 127 with (Z.ones 7). rewrite Z.land_ones by lia. change (2 ^ 7) with 128.
  symmetry. apply (Z.mod_unique _ _ 1); lia.
Qed.

Lemma scan_rest n : forall r e t c0 path q f,
  (length r <= n)%nat -> Code.put_rest (Code.big_init (Code.bigrams_of text)) r = Some e -> Forall path_octet r ->
  begins path q -> Z.of_nat (length q + length r) <= MAXPATHLEN ->
  exists c path' f', scan (e ++ t) c0 path (Z.of_nat (length q)) f = scan t c path' (Z.of_nat (length (q ++ r))) f' /\
    begins path' (q ++ r) /\ marks q r f f'.
Proof.
  induction n as [|n IH]; intros r e t c0 path q f Hn He Hr Hq Hlen; destruct r as [|a [|b r]]; cbn [length] in *; try lia.
  - injection He as <-. exists c0, path, f. rewrite app_nil_r. split; [done|]. split; [done|apply marks_nil].
  - injection He as <-. exists c0, path, f. rewrite app_nil_r. split; [done|]. split; [done|apply marks_nil].
  - cbn in He. destruct (_ =? -1); [|done]. injection He as <-. inversion Hr as [|? ? [Ha _] _]; subst.
    destruct (scan_char a t c0 path q f Ha Hq) as (c & path' & E & Hq'); [lia|].
    eexists c, path', _. split; [exact E|]. split; [done|apply marks_char].
  - cbn [Code.put_rest] in He. destruct (Code.put_rest _ r) as [e'|] eqn:Ee; [|done]. injection He as <-.
    inversion Hr as [|? ? [Ha _] Hr']; subst. inversion Hr' as [|? ? [Hb _] Hr2]; subst.
    destruct (Z.eqb_spec (Code.big_init (Code.bigrams_of text) a b) (-1)) as [_|Hne].
    + rewrite <- !app_assoc.
      destruct (scan_char a (Code.put_char b ++ e' ++ t) c0 path q f Ha Hq) as (c1 & path1 & E1 & Hq1); [lia|].
      destruct (scan_char b (e' ++ t) c1 path1 (q ++ [a]) (if hit a then Z.of_nat (length q) else f) Hb Hq1) as (c2 & path2 & E2 & Hq2);
        [rewrite length_app; simpl; lia|].
      destruct (IH r e' t c2 path2 ((q ++ [a]) ++ [b]) (if hit b then Z.of_nat (length (q ++ [a])) else if hit a then Z.of_nat (length q) else f))
        as (c & path' & f' & E & Hq' & Hm); [lia|done|done|done|rewrite !length_app; simpl; lia|].
      exists c, path', f'. rewrite E1, E2, E. replace (q ++ a :: b :: r) with (((q ++ [a]) ++ [b]) ++ r) by (by rewrite <- !app_assoc).
      split; [done|]. split; [done|]. change (a :: b :: r) with ([a] ++ [b] ++ r).
      eapply marks_app; [apply marks_char|]. eapply marks_app; [apply marks_char|]. exact Hm.
    + destruct (big_found text a b Htext Hne) as (k & Hk & Eb & _ & Ea & Eb'). rewrite Eb.
      replace (2 * Z.of_nat k / 2) with (Z.of_nat k) by (rewrite Z.mul_comm, Z.div_mul; lia).
      destruct (parity_code (Z.of_nat k)) as [Ep El]; [lia|]. cbn [app Find.scan].
      destruct (Z.ltb_spec (Z.lor (Z.of_nat k) PARITY) PARITY); [unfold PARITY in *; lia|]. rewrite El, Ea, Eb'.
      destruct (begins_store path q a Hq) as (path1 & Es1 & Hq1); [lia|]. rewrite Es1. cbn [mbind option_bind].
      destruct (begins_store path1 (q ++ [a]) b Hq1) as (path2 & Es2 & Hq2); [rewrite length_app; simpl; lia|].
      rewrite length_app in Es2. cbn [length] in Es2. replace (Z.of_nat (length q + 1)) with (Z.of_nat (length q) + 1) in Es2 by lia.
      rewrite Es2. cbn [mbind option_bind].
      destruct (IH r e' t (Z.of_nat k) path2 ((q ++ [a]) ++ [b]) (if hit a || hit b then Z.of_nat (length q) + 1 else f))
        as (c & path' & f' & E & Hq' & Hm); [lia|done|done|done|rewrite !length_app; simpl; lia|].
      exists c, path', f'. replace (q ++ a :: b :: r) with (((q ++ [a]) ++ [b]) ++ r) by (by rewrite <- !app_assoc).
      replace (Z.of_nat (length q) + 2) with (Z.of_nat (length ((q ++ [a]) ++ [b]))) by (rewrite !length_app; simpl; lia).
      split; [exact E|]. split; [done|]. change (a :: b :: r) with ([a; b] ++ r).
      eapply marks_app; [apply marks_pair|]. replace (q ++ [a; b]) with ((q ++ [a]) ++ [b]) by (by rewrite <- app_assoc). exact Hm.
Qed.

End Decode.

(** ** locate.code *)

Fixpoint records (big : Z -> Z -> Z) (old : list Z) (oldcount : Z) (ps : list (list Z)) : option (list Z) :=
  match ps with
  | [] => Some []
  | p :: ps =>
      '(count, l) ← Code.put_path big old oldcount p;
      l' ← records big p count ps;
      Some (l ++ l')
  end.

(** How a line is stored: the code of SWITCH cannot be, and empty lines are left out. *)
Definition stored (line : list Z) : list Z := map (fun c => if c =? SWITCH then 63 else c) line.
Definition paths_of (lines : list (list Z)) : list (list Z) :=
  map stored (List.filter (fun l => negb (bool_decide (l = []))) lines).
Definition text_of (lines : list (list Z)) : list Z := concat (map (fun l => l ++ [NL]) lines).

Definition line_ok (l : list Z) : Prop := Forall path_octet l /\ (length l <= 1010)%nat.

Lemma line_take_spec l rest n :
  Forall path_octet l -> (length l < n)%nat -> Code.line_take n (l ++ NL :: rest) = (l ++ [NL], rest).
Proof.
  intros Hl. revert n. induction Hl as [|c l [Hc Hn] _ IH]; intros [|n] Hlen; cbn [length] in Hlen; try lia; cbn [app Code.line_take].
  - done.
  - destruct (Z.eqb_spec c NL); [done|]. by rewrite IH by lia.
Qed.

Lemma fgets_path_line l rest : line_ok l -> Code.fgets MAXPATHLEN (l ++ NL :: rest) = (Some (l ++ [NL]), rest).
Proof.
  intros [Hl Hlen]. unfold Code.fgets. destruct (l ++ NL :: rest) eqn:E; [by destruct l|]. rewrite <- E.
  change (Z.to_nat (MAXPATHLEN - 1)) with 1023%nat. rewrite line_take_spec by (done || lia). f_equal. f_equal.
  apply cstr_whole. apply Forall_app. split; [|by repeat constructor]. eapply Forall_impl; [|exact Hl].
  intros c [Hc _]. lia.
Qed.

Lemma chop_line l : Forall path_octet l -> Code.chop (l ++ [NL]) = stored l.
Proof.
  intros Hl. unfold Code.chop. rewrite map_app. cbn [map]. change (NL =? SWITCH) with false. rewrite Z.eqb_refl. cbv iota.
  assert (map (fun c => if c =? SWITCH then 63 else if c =? NL then 0 else c) l = stored l) as ->.
  { apply map_ext_in. intros c Hc. rewrite Forall_forall in Hl. destruct (Hl c Hc) as [_ Hn].
    destruct (c =? SWITCH); [done|]. by destruct (Z.eqb_spec c NL). }
  apply cstr_app. induction Hl as [|c l [Hc _] _ IH]; [constructor|]. constructor; [|done].
  destruct (c =? SWITCH); lia.
Qed.

Lemma code_loop_spec big lines : forall fuel old oldcount out S,
  Forall line_ok lines -> records big old oldcount (paths_of lines) = Some S -> (length (text_of lines) < fuel)%nat ->
  Code.code_loop fuel big (text_of lines) old oldcount out = Ok (out ++ S).
Proof.
  induction lines as [|l lines IH]; intros fuel old oldcount out S Hl HS Hfuel; (destruct fuel as [|fuel]; [lia|]).
  - injection HS as <-. cbn. by rewrite app_nil_r.
  - inversion Hl as [|? ? Hl1 Hl2]; subst. unfold text_of in *. cbn [map concat] in *. rewrite length_app in Hfuel.
    rewrite length_app in Hfuel. cbn [length] in Hfuel.
    cbn [Code.code_loop]. rewrite <- app_assoc. cbn [app]. rewrite fgets_path_line by done. pose proof Hl1 as [Hp _].
    destruct l as [|c l].
    + cbn [app octet_at]. change (octet_at [NL] 0) with NL. rewrite Z.eqb_refl. apply IH; [done|exact HS|lia].
    + assert (octet_at ((c :: l) ++ [NL]) 0 = c) as -> by done.
      inversion Hp as [|? ? [_ Hne] _]; subst. destruct (Z.eqb_spec c NL); [done|]. rewrite chop_line by done.
      change (paths_of ((c :: l) :: lines)) with (stored (c :: l) :: paths_of lines) in HS. cbn [records] in HS.
      destruct (Code.put_path _ _ _ _) as [[count e]|]; [|done]. cbn [mbind option_bind] in HS.
      destruct (records big (stored (c :: l)) count (paths_of lines)) as [S'|] eqn:ES; [|done]. injection HS as <-.
      rewrite app_assoc. apply IH; [done|exact ES|lia].
Qed.

Lemma put_rest_total text n : forall r, bigram_text text -> (length r <= n)%nat ->
  exists e, Code.put_rest (Code.big_init (Code.bigrams_of text)) r = Some e /\ (r <> [] -> e <> []).
Proof.
  induction n as [|n IH]; intros [|a [|b r]] Ht Hn; cbn [length] in *; try lia; try (by eexists).
  - cbn [Code.put_rest]. destruct (Z.eqb_spec (Code.big_init (Code.bigrams_of text) a 0) (-1)) as [_|Hne].
    + eexists. split; [done|]. intros _. unfold Code.put_char. by destruct (_ || _).
    + destruct (big_found text a 0 Ht Hne) as (k & _ & _ & Hz & _). done.
  - cbn [Code.put_rest]. destruct (IH r Ht) as (e & -> & _); [lia|]. eexists. split; [done|]. intros _.
    unfold Code.put_char. by repeat case_match.
Qed.

Lemma records_total text ps : forall old oldcount, bigram_text text ->
  exists S, records (Code.big_init (Code.bigrams_of text)) old oldcount ps = Some S.
Proof.
  induction ps as [|p ps IH]; intros old oldcount Ht; [by eexists|]. cbn [records]. unfold Code.put_path.
  destruct (put_rest_total text _ (drop (Code.common p old) p) Ht (le_n _)) as (e & -> & _). cbn [mbind option_bind].
  destruct (IH p (Z.of_nat (Code.common p old)) Ht) as (S & ->). by eexists.
Qed.

Lemma code_main text lines :
  bigram_text text -> Forall line_ok lines ->
  exists S, records (Code.big_init (Code.bigrams_of text)) [32] 0 (paths_of lines) = Some S /\
    Code.main text (text_of lines) = Ok (tables text ++ S).
Proof.
  intros Ht Hl. destruct (records_total text (paths_of lines) [32] 0 Ht) as (S & HS). exists S. split; [done|].
  unfold Code.main. assert (default [] (fst (Code.fgets (Code.BGBUFSIZE + 1) text)) = text) as ->.
  { destruct Ht as (Hasc & Hlen & _). unfold Code.fgets. destruct text as [|c text]; [done|].
    change (Z.to_nat (Code.BGBUFSIZE + 1 - 1)) with 256%nat.
    assert (forall n l, Forall (fun c => ASCII_MIN <= c <= ASCII_MAX) l -> (length l <= n)%nat -> Code.line_take n l = (l, [])) as Hline.
    { induction n as [|n IHn]; intros [|d l] H1 H2; cbn [length] in *; try lia; [done|done|]. inversion H1; subst. cbn [Code.line_take].
      destruct (Z.eqb_spec d NL); [unfold ASCII_MIN, NL in *; lia|]. by rewrite IHn by (done || lia). }
    rewrite Hline by done. cbn [fst default]. apply cstr_whole. eapply Forall_impl; [|exact Hasc]. unfold ASCII_MIN. cbn. lia. }
  apply code_loop_spec; [done|done|lia].
Qed.

(** ** The search of a database *)

(** The last path has octets that the one before it has not. *)
Fixpoint last_new (old : list Z) (ps : list (list Z)) : Prop :=
  match ps with
  | [] => True
  | [p] => (Code.common p old < length p)%nat
  | p :: ps => last_new p ps
  end.

(** A path is stored as one octet: it has none that the path before has not, and the difference is small. *)
Definition one_octet (old : list Z) (oldcount : Z) (p : list Z) : bool :=
  (Code.common p old =? length p)%nat && (Z.abs (Z.of_nat (Code.common p old) - oldcount) <=? OFFSET).

(** [fastfind_mmap] stops in front of a last octet: the paths that it looks at. *)
Fixpoint seen (old : list Z) (oldcount : Z) (ps : list (list Z)) : list (list Z) :=
  match ps with
  | [] => []
  | [p] => if one_octet old oldcount p then [] else [p]
  | p :: ps => p :: seen p (Z.of_nat (Code.common p old)) ps
  end.

Lemma seen_all ps : forall old oldcount, last_new old ps -> seen old oldcount ps = ps.
Proof.
  induction ps as [|p ps IH]; intros old oldcount H; [done|]. cbn [seen last_new] in *. destruct ps as [|p' ps].
  - unfold one_octet. by destruct (Nat.eqb_spec (Code.common p old) (length p)); [lia|].
  - by rewrite IH.
Qed.

(** What a path is printed for: it has the octets of [patprep], and with metacharacters it matches the pattern. *)
Definition wanted (o : Find.search_opts) (tolower : Z -> Z) (fnmatch : bool -> list Z -> list Z -> bool) (pathpart lit : list Z)
    (globflag : bool) (p : list Z) : bool :=
  occurs o tolower lit p && (negb globflag || fnmatch (Find.icase o) pathpart p).

(** What searching the paths one by one prints. *)
Fixpoint reports (o : Find.search_opts) (tolower : Z -> Z) (fnmatch : bool -> list Z -> list Z -> bool) (pathpart lit : list Z)
    (globflag : bool) (ps : list (list Z)) : M halt Find.rst unit :=
  match ps with
  | [] => mret ()
  | p :: ps =>
      _ ← mwhen (wanted o tolower fnmatch pathpart lit globflag p) (Find.report o p);
      reports o tolower fnmatch pathpart lit globflag ps
  end.

Section Fastfind.
Context (o : Find.search_opts) (tolower toupper : Z -> Z) (fnmatch : bool -> list Z -> list Z -> bool) (under : Z -> Z).
Context (text pathpart lit' : list Z) (cc : Z) (globflag : bool).
Hypothesis (Htext : bigram_text text).

Definition lit := lit' ++ [cc].
Hypothesis (Hquiet : quiet o tolower under lit).
Hypothesis (Hhit : forall c, Find.same o tolower c cc = true -> Find.hit o tolower toupper cc c = true).

Abbreviation hasit := (occurs o tolower lit).

Abbreviation want := (wanted o tolower fnmatch pathpart lit globflag).
Abbreviation report_all := (reports o tolower fnmatch pathpart lit globflag).

Lemma has_nonempty p : hasit p = true <-> exists k, (k < length p)%nat /\ ends_at o tolower lit p (S k).
Proof.
  rewrite occurs_spec. split.
  - intros (n & Hn). pose proof (ends_at_bounds _ _ _ _ _ Hn) as Hb. unfold lit in Hb. rewrite length_app in Hb. simpl in Hb.
    destruct n as [|k]; [lia|]. exists k. split; [lia|done].
  - intros (k & _ & H). by exists (S k).
Qed.

(** What is found behind the common octets is found at all, if the path before had no match. *)
Lemma found_new P old n path found :
  (n <= length P)%nat -> take n P = take n old -> hasit old = false -> begins path P ->
  marks o tolower toupper cc (take n P) (drop n P) (Z.of_nat n - 1) found ->
  hasit P = if Z.of_nat n <=? found
          then Find.search o tolower under cc (rev lit') path (Z.to_nat (found - Z.of_nat n + 1)) found else false.
Proof.
  intros Hn Hcom Hold HP [Hf Hm]. rewrite take_drop in Hf, Hm. rewrite length_take, Nat.min_l in Hf, Hm by done.
  assert (forall k, (k < length P)%nat -> ends_at o tolower lit P (S k) -> (n <= k)%nat /\ Z.of_nat k <= found) as Hnew.
  { intros k Hk He. assert (n <= k)%nat as Hge.
    { destruct (decide (n <= k)%nat) as [|Hlt]; [done|]. exfalso.
      pose proof (ends_at_take _ _ _ _ _ n He ltac:(lia)) as Ht. rewrite Hcom in Ht.
      apply (ends_at_app _ _ _ _ (drop n old)) in Ht. rewrite take_drop in Ht.
      assert (hasit old = true) by (apply occurs_spec; by eexists). congruence. }
    split; [done|]. destruct (Z.le_gt_cases (Z.of_nat k) found) as [|Hgt]; [done|]. exfalso.
    specialize (Hm (Z.of_nat k) ltac:(lia) ltac:(lia)). unfold lit in He. apply ends_at_snoc in He as [Hc _]; [|done].
    rewrite (Hhit _ Hc) in Hm. done. }
  apply eq_true_iff_eq. rewrite has_nonempty. destruct (Z.leb_spec (Z.of_nat n) found) as [Hle|Hgt].
  - rewrite (search_spec o tolower under path P cc lit') by (done || lia). split.
    + intros (k & Hk & He). destruct (Hnew k Hk He). exists k. split; [done|]. split; [lia|done].
    + intros (k & Hk & _ & He). by exists k.
  - split; [|done]. intros (k & Hk & He). destruct (Hnew k Hk He). lia.
Qed.

Lemma found_again P path :
  begins path P ->
  hasit P = Find.search o tolower under cc (rev lit') path (Z.to_nat (Z.of_nat (length P) - 1 - 0 + 1)) (Z.of_nat (length P) - 1).
Proof.
  intros HP. apply eq_true_iff_eq. rewrite has_nonempty, (search_spec o tolower under path P cc lit') by (done || lia).
  split; intros (k & Hk & H).
  - exists k. split; [done|]. split; [lia|done].
  - exists k. split; [done|apply H].
Qed.

(** The next byte and what is behind it. *)
Definition at_byte (c : Z) (l S : list Z) : Prop :=
  (S = [] /\ l = [] /\ (Find.mm o = false -> c = -1)) \/
  (S = c :: l /\ 0 <= c <= SWITCH).

Lemma records_byte big old oldcount p ps S :
  records big old oldcount (p :: ps) = Some S ->
  exists c l, S = c :: l /\ 0 <= c <= SWITCH.
Proof.
  cbn [records]. intros HS. destruct (Code.put_path big old oldcount p) as [[count e]|] eqn:E; [|done]. cbn [mbind option_bind] in HS.
  destruct (records _ _ _ _) as [S'|]; [|done]. injection HS as <-. unfold Code.put_path in E.
  destruct (Code.put_rest _ _) as [r|]; [|done]. injection E as <- <-. unfold Code.put_count.
  destruct (_ || _) eqn:Ed; cbn [app]; [by eexists _, _|]. eexists _, _. split; [done|].
  apply orb_false_iff in Ed as [H1%Z.ltb_ge H2%Z.ltb_ge]. unfold SWITCH, OFFSET in *. lia.
Qed.

Lemma put_rest_nil big r : Code.put_rest big r = Some [] -> r = [].
Proof.
  destruct r as [|a [|b r]]; [done| |]; cbn [Code.put_rest]; unfold Code.put_char; repeat case_match; try done.
  all: destruct (Code.put_rest big r); cbn [mbind option_bind]; try done; by destruct (_ || _).
Qed.

(** An octet with nothing behind it is a path of its own, which [seen] leaves out; otherwise [seen] begins with the path. *)
Lemma seen_more old oldcount ps c l :
  records (Code.big_init (Code.bigrams_of text)) old oldcount ps = Some (c :: l) ->
  (l = [] -> seen old oldcount ps = []) /\
  (l <> [] -> exists p ps', ps = p :: ps' /\ seen old oldcount ps = p :: seen p (Z.of_nat (Code.common p old)) ps').
Proof.
  destruct ps as [|p ps]; [done|]. cbn [records]. intros HS. unfold Code.put_path in HS.
  destruct (Code.put_rest _ (drop (Code.common p old) p)) as [e|] eqn:Ee; [|done]. cbn [mbind option_bind] in HS.
  destruct (records _ p _ ps) as [S'|] eqn:ES; [|done]. injection HS as HS.
  destruct (common_le p old) as [Hn _]. set (n := Code.common p old) in *.
  assert (one_octet old oldcount p = true <-> e = [] /\ exists d, Code.put_count (Z.of_nat n - oldcount + OFFSET) = [d]) as Hone.
  { unfold one_octet. fold n. rewrite andb_true_iff, Nat.eqb_eq, Z.leb_le. unfold Code.put_count.
    destruct (_ || _) eqn:Eb; [apply orb_true_iff in Eb; rewrite !Z.ltb_lt in Eb|apply orb_false_iff in Eb; rewrite !Z.ltb_ge in Eb];
      unfold OFFSET in *; (split; [intros [En Ha]|intros [-> (d & Ed)]]); try (lia || done).
    - split; [|by eexists]. rewrite En, drop_all in Ee. cbn in Ee. congruence.
    - apply put_rest_nil, (f_equal length) in Ee. rewrite length_drop in Ee. cbn in Ee. lia. }
  split.
  - intros ->. assert (e = [] /\ ps = []) as [-> ->].
    { unfold Code.put_count in HS. destruct (_ || _); cbn in HS; [by destruct e, S'|]. injection HS as _ HS.
      apply app_eq_nil in HS as [-> ->]. split; [done|]. destruct ps as [|p' ps]; [done|].
      by destruct (records_byte _ _ _ _ _ _ ES) as (? & ? & ? & _). }
    cbn [seen]. cbn in ES. injection ES as <-. rewrite !app_nil_r in HS. rewrite (proj2 Hone); [done|]. split; [done|by eexists].
  - intros Hl. exists p, ps. split; [done|]. cbn [seen]. destruct ps as [|p' ps]; [|done]. cbn [seen].
    destruct (one_octet old oldcount p); [|done]. destruct (proj1 Hone eq_refl) as [-> (d & Ed)]. cbn in ES. injection ES as <-.
    rewrite Ed in HS. by injection HS as _ <-.
Qed.

Lemma at_byte_records old oldcount ps S :
  records (Code.big_init (Code.bigrams_of text)) old oldcount ps = Some S ->
  forall c0, exists c l, at_byte c l S /\ l = tail S /\ c = hd (if Find.mm o then c0 else -1) S.
Proof.
  intros HS c0. destruct ps as [|p ps].
  - injection HS as <-. eexists _, []. split; [left|done]. split; [done|]. split; [done|]. by intros ->.
  - destruct (records_byte _ _ _ _ _ _ HS) as (c & l & -> & Hc). exists c, l. split; [by right|done].
Qed.

Lemma step_spec d r c l s :
  Code.put_count d ++ r = c :: l -> - MAXPATHLEN <= d <= MAXPATHLEN ->
  (if c =? SWITCH then Find.getw o l else mret (c, l)) s = (Ok (d, r), s).
Proof.
  intros E Hd. unfold Code.put_count in E. destruct (_ || _) eqn:Eb.
  - cbn [app word_octets] in E. injection E as <- <-. rewrite Z.eqb_refl. unfold Find.getw, Find.get_word.
    rewrite word_roundtrip by (unfold MAXPATHLEN in Hd; lia). unfold Find.in_range.
    destruct (Z.leb_spec (- MAXPATHLEN) d), (Z.leb_spec d MAXPATHLEN); try lia. done.
  - cbn [app] in E. injection E as <- <-. apply orb_false_iff in Eb as [H1%Z.ltb_ge H2%Z.ltb_ge].
    unfold OFFSET, SWITCH in *. destruct (Z.eqb_spec d 30); [lia|done].
Qed.

(** The octets of a path go over those of the path before. *)
Lemma scan_path p old e t c0 path :
  Code.put_rest (Code.big_init (Code.bigrams_of text)) (drop (Code.common p old) p) = Some e ->
  line_ok p -> begins path old ->
  (forall c, exists c1 l1, at_byte c1 l1 t /\ l1 = tail t /\ c1 = hd (if Find.mm o then c else -1) t) ->
  exists c1 l1 path' f,
    Find.scan o tolower toupper (Find.even_octets (tables text)) (Find.odd_octets (tables text)) cc (e ++ t) c0 path
      (Z.of_nat (Code.common p old)) (Z.of_nat (Code.common p old) - 1) =
      Some (Find.mkScanned c1 l1 path' (Z.of_nat (length p)) f) /\
    at_byte c1 l1 t /\ begins path' p /\
    marks o tolower toupper cc (take (Code.common p old) p) (drop (Code.common p old) p) (Z.of_nat (Code.common p old) - 1) f.
Proof.
  intros He [Hp Hlen] Hold Ht. destruct (common_le p old) as [Hn _]. set (n := Code.common p old) in *.
  assert (length (take n p) = n) as Ln by (rewrite length_take; lia).
  assert (begins path (take n p)) as Hq.
  { unfold n. rewrite common_take. by apply begins_take. }
  destruct (scan_rest o tolower toupper cc text Htext (length (drop n p)) (drop n p) e t c0 path (take n p) (Z.of_nat n - 1))
    as (c & path' & f & E & Hb & Hm); [done|done|by apply Forall_drop|done|rewrite Ln, length_drop; unfold MAXPATHLEN; lia|].
  rewrite Ln, take_drop in E. rewrite take_drop in Hb. destruct (Ht c) as (c1 & l1 & Hat & El & Ec).
  exists c1, l1, path', f. split; [|by split]. rewrite E. destruct Hat as [(-> & -> & _)|(-> & Hc1)].
  - cbn [Find.scan]. by rewrite Ec.
  - cbn [Find.scan]. unfold SWITCH in Hc1. destruct (Z.ltb_spec c1 PARITY); [|unfold PARITY in *; lia].
    destruct (Z.leb_spec c1 UMLAUT); [|unfold UMLAUT in *; lia]. destruct (Z.eqb_spec c1 UMLAUT); [unfold UMLAUT in *; lia|done].
Qed.

(** The search in a path, and what is printed. *)
Lemma find_path p old path f s (k : bool -> list Z -> M halt Find.rst unit) :
  line_ok p -> begins path p ->
  marks o tolower toupper cc (take (Code.common p old) p) (drop (Code.common p old) p) (Z.of_nat (Code.common p old) - 1) f ->
  (forall path' s, begins path' p -> k (hasit p) path' s = k (hasit p) path s) ->
  (if hasit old || (Z.of_nat (Code.common p old) <=? f) then
     match Find.store path (Z.of_nat (length p)) 0 with
     | None => leave Crash
     | Some path =>
         let cutoff := if hasit old then 0 else Z.of_nat (Code.common p old) in
         let f := if hasit old then Z.of_nat (length p) - 1 else f in
         let found := Find.search o tolower under cc (rev lit') path (Z.to_nat (f - cutoff + 1)) f in
         _ ← mwhen (found && (negb globflag || fnmatch (Find.icase o) pathpart (cstr path))) (Find.report o (cstr path));
         k found path
     end
   else k (hasit old) path) s = (_ ← mwhen (want p) (Find.report o p); k (hasit p) path) s.
Proof.
  intros [Hp Hlen] Hb Hm Hk. destruct (common_le p old) as [Hn _].
  destruct (begins_store path p 0 Hb) as (path' & Es & Hb'); [unfold MAXPATHLEN; lia|].
  assert (cstr path' = p) as Ec.
  { destruct Hb' as [_ (z & ->)]. rewrite <- app_assoc. apply cstr_app. eapply Forall_impl; [|exact Hp]. intros c [Hc _]. lia. }
  apply begins_app in Hb'.
  assert (forall (m : M halt Find.rst unit), (_ ← m; k (hasit p) path') s = (_ ← m; k (hasit p) path) s) as Hk'.
  { intros m. cbv [mbind M_bind]. destruct (m s) as [[[]|] s']; [by apply Hk|done]. }
  destruct (hasit old) eqn:Eold.
  - cbn [orb]. rewrite Es. cbv zeta. rewrite <- (found_again p path' Hb'), Ec. apply Hk'.
  - cbn [orb]. pose proof (found_new p old (Code.common p old) path' f ltac:(lia) (common_take p old) Eold Hb' Hm) as Hf.
    destruct (Z.of_nat (Code.common p old) <=? f).
    + rewrite Es. cbv zeta. rewrite <- Hf, Ec. apply Hk'.
    + unfold wanted. rewrite Hf. cbn [andb mwhen]. done.
Qed.

Lemma find_loop_spec ps : forall fuel c l S old oldcount path s,
  records (Code.big_init (Code.bigrams_of text)) old oldcount ps = Some S -> at_byte c l S ->
  Forall line_ok ps -> 0 <= oldcount <= 1010 -> begins path old -> (length S < fuel)%nat ->
  Find.find_loop o tolower toupper fnmatch under fuel (Find.even_octets (tables text)) (Find.odd_octets (tables text))
    pathpart (rev lit) globflag c l oldcount (hasit old) path s =
  report_all (if Find.mm o then seen old oldcount ps else ps) s.
Proof.
  induction ps as [|p ps IH]; intros fuel c l S old oldcount path s HS Hat Hps Hoc Hb Hfuel; (destruct fuel as [|fuel]; [lia|]);
    cbn [Find.find_loop].
  - injection HS as <-. destruct Hat as [(_ & -> & Hc)|(E & _)]; [|done].
    destruct (Find.mm o); [by rewrite bool_decide_eq_true_2|]. by rewrite Hc.
  - assert ((Find.mm o = true /\ l = [] /\ seen old oldcount (p :: ps) = []) \/
      ((if Find.mm o then bool_decide (l = []) else c =? -1) = false /\
       (if Find.mm o then seen old oldcount (p :: ps) else p :: ps) = p :: (if Find.mm o then seen p (Z.of_nat (Code.common p old)) ps else ps)))
      as [(-> & -> & ->)|[-> ->]]; [|by rewrite bool_decide_eq_true_2|].
    { destruct (records_byte _ _ _ _ _ _ HS) as (c' & l' & -> & Hc'). destruct Hat as [(E & _)|(E & _)]; [done|]. injection E as -> ->.
      destruct (seen_more _ _ _ _ _ HS) as [H1 H2]. destruct (Find.mm o); [|right; split; [apply Z.eqb_neq; lia|done]].
      destruct (decide (l = [])) as [El|El]; [left; by split_and!; auto|right].
      destruct (H2 El) as (? & ? & [= <- <-] & ->). split; [by apply bool_decide_eq_false_2|done]. }
    cbn [records] in HS. unfold Code.put_path in HS. inversion Hps as [|? ? Hp Hps']; subst. pose proof Hp as [_ Hplen].
    destruct (common_le p old) as [Hn _]. set (n := Code.common p old) in *.
    destruct (Code.put_rest _ (drop n p)) as [e|] eqn:Ee; [|done]. cbn [mbind option_bind] in HS.
    destruct (records _ p (Z.of_nat n) ps) as [S'|] eqn:ES; [|done]. injection HS as <-.
    rewrite <- app_assoc in Hat. set (d := Z.of_nat n - oldcount + OFFSET) in *.
    destruct Hat as [(E & _)|(E & Hc)].
    { exfalso. unfold Code.put_count in E. by destruct (_ || _). }
    cbv zeta. rewrite (run_bind_ok _ _ _ _ _ (step_spec d (e ++ S') c l s E ltac:(unfold d, OFFSET, MAXPATHLEN; lia))).
    cbv iota beta. replace (oldcount + (d - OFFSET)) with (Z.of_nat n) by (unfold d; lia).
    destruct (Z.ltb_spec (Z.of_nat n) 0); [lia|].
    assert (hd 0 (rev lit) = cc /\ tail (rev lit) = rev lit') as [-> ->] by (unfold lit; by rewrite rev_app_distr).
    destruct (scan_path p old e S' c path Ee Hp Hb (at_byte_records p (Z.of_nat n) ps S' ES))
      as (c1 & l1 & path' & f & Escan & Hat' & Hb' & Hm). fold n in Escan, Hm. rewrite Escan. cbv iota beta.
    assert (length S' < fuel)%nat as Hfuel'.
    { rewrite !length_app in Hfuel. assert (0 < length (Code.put_count d))%nat; [|lia].
      unfold Code.put_count. by destruct (_ || _); cbn; lia. }
    assert (forall path2 s2, begins path2 p ->
      Find.find_loop o tolower toupper fnmatch under fuel (Find.even_octets (tables text)) (Find.odd_octets (tables text))
        pathpart (rev lit) globflag c1 l1 (Z.of_nat n) (hasit p) path2 s2 =
      report_all (if Find.mm o then seen p (Z.of_nat n) ps else ps) s2) as Hrest.
    { intros path2 s2 Hb2. apply (IH fuel c1 l1 S'); try done. lia. }
    pose proof (find_path p old path' f s (fun fd pa => Find.find_loop o tolower toupper fnmatch under fuel
      (Find.even_octets (tables text)) (Find.odd_octets (tables text)) pathpart (rev lit) globflag c1 l1 (Z.of_nat n) fd pa) Hp Hb' Hm) as Hfind.
    cbv beta zeta in Hfind. fold n in Hfind.
    etransitivity; [apply Hfind|].
    + intros path2 s2 Hb2. by rewrite !Hrest.
    + cbn [reports]. cbv [mbind M_bind]. destruct (mwhen (want p) (Find.report o p) s) as [[[]|] s']; [by apply Hrest|done].
Qed.

End Fastfind.
