(* ===== verification/LocateSpec.v ===== *)
(** * locate: what a search prints

    Every run of locate.code and of the search ends; what [patprep] makes of a pattern; the theorem about locate.code and
    [fastfind] together; and what its conditions are for. *)

From Stdlib Require Import ZArith Lia List Bool.
From stdpp Require Import base tactics list numbers functions.
From S2P Require Import Prelude Locate LocateFacts.

Local Open Scope Z_scope.

(** ** Every run ends *)

Lemma line_take_shorter n l a b : Code.line_take (S n) l = (a, b) -> l <> [] -> (length b < length l)%nat.
Proof.
  revert l a b. induction n as [|n IH]; intros [|c l] a b H Hl; try done; cbn [Code.line_take] in H.
  - destruct (c =? NL); injection H as _ <-; cbn; lia.
  - destruct (c =? NL); [injection H as _ <-; cbn; lia|].
    fold (Code.line_take (S n) l) in H.
    destruct (Code.line_take (S n) l) as [a' b'] eqn:E. cbn [Code.line_take] in E. cbn [Code.line_take] in H. rewrite E in H. injection H as _ <-.
    destruct l as [|d l]; [injection E as _ <-; cbn; lia|]. specialize (IH (d :: l) a' b' E). cbn [length] in *. 
    assert (d :: l <> []) as Hd by done. specialize (IH Hd). lia.
Qed.

Lemma fgets_shorter n l line l' : 1 < n -> Code.fgets n l = (Some line, l') -> (length l' < length l)%nat.
Proof.
  intros Hn H. unfold Code.fgets in H. destruct l as [|c l]; [done|].
  destruct (Code.line_take _ _) as [a b] eqn:E. injection H as _ <-.
  replace (Z.to_nat (n - 1)) with (S (Z.to_nat (n - 2))) in E by lia. by eapply line_take_shorter.
Qed.

Lemma code_loop_ends big fuel : forall stdin old oldcount out,
  (length stdin < fuel)%nat -> Code.code_loop fuel big stdin old oldcount out <> Ex NoFuel.
Proof.
  induction fuel as [|fuel IH]; intros stdin old oldcount out Hf; [lia|]. cbn [Code.code_loop].
  destruct (Code.fgets MAXPATHLEN stdin) as [[line|] stdin'] eqn:E; [|done].
  apply fgets_shorter in E; [|unfold MAXPATHLEN; lia]. destruct (_ =? NL); [apply IH; lia|].
  destruct (Code.put_path _ _ _ _) as [[count l]|]; [|done]. apply IH. lia.
Qed.

Section Ends.
Context (o : Find.search_opts) (tolower toupper : Z -> Z) (fnmatch : bool -> list Z -> list Z -> bool) (under : Z -> Z).

Lemma scan_shorter b1 b2 cc n : forall l c path p f r,
  (length l <= n)%nat -> Find.scan o tolower toupper b1 b2 cc l c path p f = Some r ->
  (length (Find.s_in r) < length l)%nat \/ (Find.s_in r = [] /\ (Find.mm o = false -> Find.s_c r = -1)).
Proof.
  induction n as [|n IH]; intros [|c l] c0 path p f r Hn H; cbn [length] in *; try lia; cbn [Find.scan] in H.
  - injection H as <-. right. cbn. split; [done|]. by intros ->.
  - injection H as <-. right. cbn. split; [done|]. by intros ->.
  - assert (forall l2 c path p f, (length l2 <= length l)%nat -> Find.scan o tolower toupper b1 b2 cc l2 c path p f = Some r ->
      (length (Find.s_in r) < S (length l))%nat \/ (Find.s_in r = [] /\ (Find.mm o = false -> Find.s_c r = -1))) as Hgo.
    { intros l2 c2 path2 p2 f2 Hl2 H2. apply IH in H2; [|lia]. destruct H2 as [H2|H2]; [left; lia|by right]. }
    destruct (c <? PARITY).
    + destruct (c <=? UMLAUT).
      * destruct (c =? UMLAUT).
        -- destruct l as [|d l].
           ++ destruct (_ || _); [done|]. destruct (Find.store path p 255); [|done]. injection H as <-. by right.
           ++ destruct (Find.store path p d); [|done]. cbn [mbind option_bind] in H. eapply Hgo; [|exact H]. cbn. lia.
        -- injection H as <-. left. cbn. lia.
      * destruct (Find.store path p c); [|done]. cbn [mbind option_bind] in H. eapply Hgo; [|exact H]. lia.
    + destruct (Find.store path p _) as [path1|]; [|done]. cbn [mbind option_bind] in H.
      destruct (Find.store path1 _ _) as [path2|]; [|done]. cbn [mbind option_bind] in H. eapply Hgo; [|exact H]. lia.
Qed.

(** The turns that are left. *)
Definition turns (c : Z) (l : list Z) : nat :=
  length l + (if if Find.mm o then bool_decide (l = []) else c =? -1 then 0 else 1).

Lemma report_ends p s : fst (Find.report o p s) <> Ex NoFuel.
Proof.
  unfold Find.report. destruct (Find.f_silent o); [done|]. destruct (negb _); [|done].
  cbv [mbind M_bind Find.count_path gets modify]. cbn. by destruct (_ <=? _).
Qed.

Lemma find_loop_ends b1 b2 pathpart bp gf fuel : forall c l count found path s,
  (turns c l < fuel)%nat ->
  fst (Find.find_loop o tolower toupper fnmatch under fuel b1 b2 pathpart bp gf c l count found path s) <> Ex NoFuel.
Proof.
  induction fuel as [|fuel IH]; intros c l count found path s Hf; [lia|]. cbn [Find.find_loop]. unfold turns in Hf.
  destruct (if Find.mm o then bool_decide (l = []) else c =? -1) eqn:Eend; [done|]. cbv zeta.
  assert (exists r, (if c =? SWITCH then Find.getw o l else mret (c, l)) s = (r, s) /\
    match r with Ok (_, l') => (length l' <= length l)%nat | Ex e => e <> NoFuel end) as (r & Er & Hr).
  { destruct (c =? SWITCH); [|eexists; split; [done|cbn; lia]]. unfold Find.getw, Find.get_word.
    destruct l as [|x1 [|x2 [|x3 [|x4 l]]]]; try (destruct (Find.mm o); (eexists; split; [done|cbn; (done || lia)])).
    destruct (Find.in_range _); [eexists; split; [done|cbn; lia]|]. destruct (Find.in_range _); eexists; (split; [done|cbn; (done || lia)]). }
  cbv [mbind M_bind]. rewrite Er. destruct r as [[step l']|e]; [|cbn; congruence]. cbn in Hr.
  destruct (count + (step - OFFSET) <? 0); [done|].
  destruct (Find.scan _ _ _ _ _ _ _ _ _ _ _) as [[c1 l1 path1 p1 f1]|] eqn:Es; [|done].
  assert (turns c1 l1 < fuel)%nat as Hturns.
  { apply (scan_shorter _ _ _ _ _ _ _ _ _ _ (le_n _)) in Es. cbn in Es. unfold turns. destruct Es as [Es|[-> Es]].
    - destruct (Find.mm o), (bool_decide (l1 = [])), (c1 =? -1); lia.
    - destruct (Find.mm o); cbn; [lia|]. rewrite Es by done. cbn. lia. }
  destruct (_ || _); [|by apply IH]. destruct (Find.store path1 p1 0) as [path2|]; [|done].
  match goal with |- context [mwhen ?b (Find.report o ?p)] => assert (fst (mwhen b (Find.report o p) s) <> Ex NoFuel) as Hrep end.
  { destruct (_ && _); cbn [mwhen]; [apply report_ends|done]. }
  destruct (mwhen _ _ s) as [[[]|e] s']; [by apply IH|exact Hrep].
Qed.

End Ends.

(** Every run of locate.code and of the search ends, for any table of bigrams, any text, any pattern and any
    database: the turns the model gives the loops are enough. *)
Theorem locate_terminates :
  (forall bigram_file stdin, Code.main bigram_file stdin <> Ex NoFuel) /\
  (forall o tolower toupper fnmatch under junk pathpart database s,
     fst (Find.fastfind o tolower toupper fnmatch under junk pathpart database s) <> Ex NoFuel).
Proof.
  split.
  - intros b stdin. apply code_loop_ends. lia.
  - intros o tolower toupper fnmatch under junk pathpart database s. unfold Find.fastfind. cbv zeta.
    destruct (_ || _); [done|]. destruct (Find.patprep _) as [pat|]; [|done]. apply find_loop_ends. unfold turns.
    set (l := drop _ database). assert (length l <= length database)%nat as Hl by (unfold l; rewrite length_drop; lia).
    destruct l as [|c l]; cbn [tail length] in *; [|destruct (Find.mm o), (bool_decide (l = [])), (c =? -1); cbn; lia].
    destruct (Find.mm o); cbn; lia.
Qed.

(** ** The pattern *)

Lemma back_spec f name n :
  -1 <= Find.back f name n < Z.of_nat n /\
  (0 <= Find.back f name n -> f (octet_at name (Find.back f name n)) = true) /\
  forall k, Find.back f name n < k < Z.of_nat n -> f (octet_at name k) = false.
Proof.
  induction n as [|n (H1 & H2 & H3)]; cbn [Find.back].
  - split; [lia|]. split; [lia|]. intros k Hk. lia.
  - destruct (f (octet_at name (Z.of_nat n))) eqn:E.
    + split; [lia|]. split; [done|]. intros k Hk. lia.
    + split; [lia|]. split; [done|]. intros k Hk. destruct (Z.eq_dec k (Z.of_nat n)) as [->|]; [done|]. apply H3. lia.
Qed.

Lemma forth_le f name : (Find.forth f name <= length name)%nat.
Proof. induction name as [|c name IH]; cbn; [lia|]. destruct (f c); cbn; lia. Qed.

Lemma octet_at_reg name i : 0 <= i < Z.of_nat (length name) -> octet_at name i ∈ name.
Proof.
  intros Hi. unfold octet_at. destruct (lookup_lt_is_Some_2 name (Z.to_nat i)) as [x Hx]; [lia|]. rewrite Hx.
  by eapply list_elem_of_lookup_2.
Qed.

(** The octets of a pattern from place [s] on. *)
Lemma piece_octet name s n x :
  x ∈ take n (drop s name) -> exists i, Z.of_nat s <= i < Z.of_nat (s + n) /\ i < Z.of_nat (length name) /\ octet_at name i = x.
Proof.
  intros [i Hi]%list_elem_of_lookup. pose proof (lookup_lt_Some _ _ _ Hi) as Hlt. rewrite length_take, length_drop in Hlt.
  rewrite lookup_take_lt, lookup_drop in Hi by lia. exists (Z.of_nat (s + i)). split; [lia|]. split; [lia|].
  unfold octet_at. by rewrite Nat2Z.id, Hi.
Qed.

Lemma patprep_cases name :
  Find.patprep name = Some [SLASH] \/
  exists a b c, name = a ++ b ++ c /\ b <> [] /\ Forall (fun x => Find.is_reg x = false) b /\
    Find.patprep name = if Find.GLOBFREE <=? 1 + Z.of_nat (length b) then None else Some b.
Proof.
  unfold Find.patprep. cbv zeta.
  set (p0 := Find.back (fun c => negb (Find.is_reg c)) name (length name)).
  set (p := if (0 <=? p0) && existsb Find.is_bracket (drop (Z.to_nat p0) name) then _ else p0).
  assert (-1 <= p < Z.of_nat (length name) /\ (0 <= p -> Find.is_reg (octet_at name p) = false)) as [Hp Hreg].
  { destruct (back_spec (fun c => negb (Find.is_reg c)) name (length name)) as (H1 & H2 & _). fold p0 in H1, H2. unfold p.
    destruct (_ && _) eqn:E; [|split; [done|]; intros H; by apply negb_true_iff, H2].
    destruct ((0 <=? Z.of_nat (Find.forth Find.is_bracket name) - 1) && _) eqn:E2; [lia|].
    pose proof (forth_le Find.is_bracket name) as Hle. split; [lia|]. intros H.
    apply andb_false_iff in E2 as [E2|E2]; [lia|done]. }
  clearbody p. clear p0. destruct (Z.ltb_spec p 0) as [Hneg|Hpos]; [by left|]. right.
  destruct (back_spec Find.is_reg name (Z.to_nat (p + 1))) as (H1 & _ & H3). set (st := Find.back _ name _ + 1) in *.
  assert (st <= p) as Hst.
  { destruct (Z.le_gt_cases st p) as [|Hgt]; [done|]. exfalso.
    destruct (back_spec Find.is_reg name (Z.to_nat (p + 1))) as (_ & H2 & _).
    assert (Find.back Find.is_reg name (Z.to_nat (p + 1)) = p) as E by (unfold st in *; lia). rewrite E in H2.
    rewrite Hreg in H2 by done. by discriminate H2. }
  set (piece := take _ (drop _ name)).
  assert (length piece = Z.to_nat (p - st + 1)) as Hlen by (unfold piece; rewrite length_take, length_drop; unfold st in *; lia).
  exists (take (Z.to_nat st) name), piece, (drop (Z.to_nat (p - st + 1)) (drop (Z.to_nat st) name)).
  split; [unfold piece; by rewrite !take_drop|]. split; [intros E; rewrite E in Hlen; simpl in Hlen; lia|]. split; [|done].
  apply Forall_forall. intros x Hx. apply list_elem_of_In in Hx || idtac. apply piece_octet in Hx as (i & Hi & Hin & <-). apply H3. unfold st in *. lia.
Qed.

Lemma plain_back f name n : (forall x, x ∈ name -> f x = false) -> (n <= length name)%nat -> Find.back f name n = -1.
Proof.
  intros Hf Hn. destruct (back_spec f name n) as (H1 & H2 & _). destruct (Z.eq_dec (Find.back f name n) (-1)) as [|Hne]; [done|].
  exfalso. rewrite Hf in H2; [by discriminate H2; lia|apply octet_at_reg; lia].
Qed.

Lemma plain_forth (f : Z -> bool) (name : list Z) : (forall x, x ∈ name -> f x = false) -> existsb f name = false.
Proof.
  intros Hf. apply not_true_iff_false. intros (x & Hx & E)%existsb_exists. rewrite Hf in E; [done|by apply list_elem_of_In].
Qed.

(** C37. The piece of a pattern that [patprep] searches for first: the empty pattern and those it gives up on give a
    slash, every other one a piece of it, not empty and without metacharacters, which a pattern without
    metacharacters is as a whole.  The array holds 98 octets and the two NULs; the NUL that ends a piece of 99 octets or more is
    written behind it ([None]), although the loop that copies the octets looks at the size. *)
Theorem patprep_spec (name : list Z) :
  (Find.patprep name = Some [SLASH] \/
   exists a b c, name = a ++ b ++ c /\ b <> [] /\ Forall (fun x => Find.is_reg x = false) b /\
     Find.patprep name = if 99 <=? Z.of_nat (length b) then None else Some b) /\
  (forallb (fun x => negb (Find.is_reg x)) name = true ->
   Find.patprep name = match name with [] => Some [SLASH] | _ => if 99 <=? Z.of_nat (length name) then None else Some name end).
Proof.
  assert (forall n, (Find.GLOBFREE <=? 1 + n) = (99 <=? n)) as Hsize by (intros n; unfold Find.GLOBFREE; lia).
  split.
  - destruct (patprep_cases name) as [H|(a & b & c & E & Hb & Hreg & H)]; [by left|]. right. exists a, b, c.
    rewrite Hsize in H. by split_and!.
  - intros H. rewrite forallb_forall in H.
    assert (forall x, x ∈ name -> Find.is_reg x = false) as Hreg.
    { intros x Hx. by apply negb_true_iff, H, list_elem_of_In. }
    destruct name as [|x l] eqn:En; [done|]. rewrite <- En in *. assert (0 < Z.of_nat (length name)) by (rewrite En; cbn; lia).
    unfold Find.patprep. cbv zeta.
    assert (Find.back (fun c => negb (Find.is_reg c)) name (length name) = Z.of_nat (length name) - 1) as ->.
    { replace (length name) with (S (length name - 1)) at 1 by lia. cbn [Find.back]. rewrite Hreg by (apply octet_at_reg; lia).
      cbn. lia. }
    rewrite (plain_forth Find.is_bracket), andb_false_r.
    2: { intros y Hy. assert (y ∈ name) as Hin by (rewrite <- (take_drop (Z.to_nat (Z.of_nat (length name) - 1)) name); apply elem_of_app; by right).
         apply Hreg in Hin. unfold Find.is_reg, LOCATE_REG, Find.is_bracket in *. apply bool_decide_eq_false in Hin.
         apply orb_false_iff. split; apply Z.eqb_neq; intros ->; apply Hin; repeat constructor. }
    rewrite plain_back by (done || lia). destruct (Z.ltb_spec (Z.of_nat (length name) - 1) 0); [lia|].
    change (Z.to_nat (-1 + 1)) with 0%nat. rewrite drop_0, take_ge by lia.
    by rewrite Hsize.
Qed.

(** ** The lines *)

Lemma stored_head l : head (stored l) = Some 32 -> head l = Some 32.
Proof. destruct l as [|c l]; [done|]. cbn. destruct (c =? SWITCH); [done|auto]. Qed.

Lemma paths_of_head lines p ps : paths_of lines = p :: ps -> head p = Some 32 -> head (concat lines) = Some 32.
Proof.
  induction lines as [|l lines IH]; [done|]. unfold paths_of in *. cbn [List.filter]. destruct l as [|c l].
  - by rewrite bool_decide_eq_true_2.
  - rewrite bool_decide_eq_false_2 by done. cbn [negb map]. intros [= <- _] H. by apply (stored_head (c :: l)) in H.
Qed.

Lemma paths_of_ok lines : Forall line_ok lines -> Forall line_ok (paths_of lines).
Proof.
  unfold paths_of. induction 1 as [|l lines [Hl Hlen] _ IH]; [constructor|]. cbn [List.filter].
  destruct (negb _); [|done]. cbn [map]. constructor; [|done]. split; [|unfold stored; by rewrite length_map].
  unfold stored. apply Forall_map. eapply Forall_impl; [|exact Hl]. intros c Hc. cbn. by destruct (c =? SWITCH).
Qed.

(** The blank that [buf1] holds at the start is no octet of a path. *)
Lemma records_start big ps :
  (forall p ps', ps = p :: ps' -> head p <> Some 32) -> records big [32] 0 ps = records big [] 0 ps.
Proof.
  destruct ps as [|p ps]; [done|]. intros H. cbn [records]. unfold Code.put_path.
  assert (Code.common p [32] = 0%nat) as ->; [|by destruct p].
  destruct p as [|c p]; [done|]. cbn. destruct (Z.eqb_spec c 32) as [->|]; [|done]. by destruct (H _ _ eq_refl).
Qed.

(** ** The character tables *)

(** [tolower] and [toupper] as the library gives them. *)
Record case_tables (tolower toupper : Z -> Z) : Prop := {
  tolower_idem : forall c, tolower (tolower c) = tolower c;
  tolower_slash : tolower SLASH = SLASH;
  toupper_of : forall c x, tolower c = tolower x -> c = tolower x \/ c = toupper (tolower x)
}.

Lemma case_hit o tolower toupper cc :
  (Find.icase o = true -> case_tables tolower toupper /\ tolower cc = cc) ->
  forall c, Find.same o tolower c cc = true -> Find.hit o tolower toupper cc c = true.
Proof.
  intros H c. unfold Find.same, Find.hit. destruct (Find.icase o).
  - destruct (H eq_refl) as [T Hcc]. cbn [andb]. rewrite !orb_true_iff, !Z.eqb_eq, Hcc. intros [->|Hc]; [by left|].
    destruct (toupper_of _ _ T c cc) as [E|E]; rewrite ?Hcc in *; [done|by left|by right].
  - cbn [andb]. by rewrite orb_false_r.
Qed.

(** The last octet of the piece, when the pattern is in lower case, is in lower case. *)
Lemma patprep_lower tolower toupper name lit :
  case_tables tolower toupper -> Find.patprep (map tolower name) = Some lit -> forall x, x ∈ lit -> tolower x = x.
Proof.
  intros T Hp x Hx. destruct (patprep_cases (map tolower name)) as [E|(a & b & c & E & _ & _ & E2)].
  - rewrite E in Hp. injection Hp as <-. apply list_elem_of_singleton in Hx as ->. apply (tolower_slash _ _ T).
  - rewrite E2 in Hp. destruct (_ <=? _); [done|]. injection Hp as <-.
    assert (x ∈ map tolower name) as Hin by (rewrite E; apply elem_of_app; right; apply elem_of_app; by left). apply list_elem_of_fmap in Hin as (y & -> & _).
    apply (tolower_idem _ _ T).
Qed.

Lemma patprep_nonempty name lit : Find.patprep name = Some lit -> lit <> [].
Proof.
  destruct (patprep_cases name) as [->|(a & b & c & _ & Hb & _ & ->)]; [by intros [= <-]|].
  destruct (_ <=? _); [done|]. by intros [= <-].
Qed.

(** What a search of the database of locate.code gives, with what [fastfind_mmap] does not look at. *)
Lemma search_seen (o : Find.search_opts) (tolower toupper : Z -> Z) (fnmatch : bool -> list Z -> list Z -> bool) (under : Z -> Z)
    (bigrams pat lit junk : list Z) (lines : list (list Z)) (s : Find.rst)
    (Hbigrams : bigram_text bigrams) (Hlines : Forall line_ok lines) (Hblank : head (concat lines) <> Some 32)
    (Htables : Find.icase o = true -> case_tables tolower toupper) (Hjunk : length junk = Z.to_nat MAXPATHLEN)
    (Hpat : Find.patprep (if Find.icase o then map tolower pat else pat) = Some lit)
    (Hunder : quiet o tolower under lit) :
  exists db, Code.main bigrams (text_of lines) = Ok db /\
    Find.fastfind o tolower toupper fnmatch under junk pat db s =
      reports o tolower fnmatch (if Find.icase o then map tolower pat else pat) lit
        (existsb Find.is_reg (if Find.icase o then map tolower pat else pat))
        (if Find.mm o then seen [] 0 (paths_of lines) else paths_of lines) s.
Proof.
  destruct (code_main bigrams lines Hbigrams Hlines) as (db & HS & ->). eexists. split; [done|].
  destruct (tables_ok bigrams Hbigrams) as [Hlen Hok]. unfold Find.fastfind. cbv zeta.
  change (Z.to_nat (NBG * 2)) with 256%nat. rewrite take_app_length', drop_app_length' by done.
  rewrite bool_decide_eq_true_2, Hok by done. cbn [negb orb]. rewrite Hpat.
  assert (exists lit' cc, lit = lit' ++ [cc]) as (lit' & cc & ->).
  { pose proof (patprep_nonempty _ _ Hpat) as Hne. destruct lit as [|x l] using rev_ind; [done|by eexists _, _]. }
  rewrite records_start in HS.
  2: { intros p ps' E Hp. by apply Hblank, (paths_of_head _ _ _ E). }
  destruct (at_byte_records o bigrams [] 0 _ db HS 0) as (c & l & Hbyte & El & Ec).
  assert ((match db with [] => if Find.mm o then 0 else -1 | c :: _ => c end) = c) as -> by (rewrite Ec; by destruct db).
  assert (Find.icase o = true -> tolower cc = cc) as Hcc.
  { intros Hi. rewrite Hi in Hpat. eapply patprep_lower; [by apply Htables|exact Hpat|apply elem_of_app; right; by left]. }
  rewrite <- El.
  pose proof (find_loop_spec o tolower toupper fnmatch under bigrams (if Find.icase o then map tolower pat else pat) lit' cc
    (existsb Find.is_reg (if Find.icase o then map tolower pat else pat)) Hbigrams Hunder) as Hloop.
  unfold lit in Hloop. rewrite <- (Hloop (case_hit _ _ _ _ (fun Hi => conj (Htables Hi) (Hcc Hi))) (paths_of lines)
    (S (length (tables bigrams ++ db))) c l db [] 0 junk s); try done.
  - by destruct lit'.
  - by apply paths_of_ok.
  - split; [done|by exists junk].
  - rewrite length_app. lia.
Qed.

(** C15. locate.code and the search belong together: for a table of bigrams and lines without NUL or newline in them,
    of at most 1010 octets, the first of which does not start with a blank, searching the database that locate.code writes prints (or
    counts, up to the limit) what searching the list line by line prints - in each of the four variants of
    [fastfind], with any contents of the uninitialised [path], with bigrams or without, whatever was in common
    between the paths, and in the list's order.  The conditions on the search: what is in front of [path] is no octet of the
    pattern, and the mmap variants need a last path that is not all in common with the one before it. *)
Theorem locate_finds (o : Find.search_opts) (tolower toupper : Z -> Z) (fnmatch : bool -> list Z -> list Z -> bool) (under : Z -> Z)
    (bigrams pat lit junk : list Z) (lines : list (list Z)) (s : Find.rst)
    (Hbigrams : bigram_text bigrams) (Hlines : Forall line_ok lines) (Hblank : head (concat lines) <> Some 32)
    (Htables : Find.icase o = true -> case_tables tolower toupper) (Hjunk : length junk = Z.to_nat MAXPATHLEN)
    (Hpat : Find.patprep (if Find.icase o then map tolower pat else pat) = Some lit)
    (Hunder : quiet o tolower under lit) (Hlast : Find.mm o = true -> last_new [] (paths_of lines)) :
  exists db, Code.main bigrams (text_of lines) = Ok db /\
    Find.fastfind o tolower toupper fnmatch under junk pat db s =
      reports o tolower fnmatch (if Find.icase o then map tolower pat else pat) lit
        (existsb Find.is_reg (if Find.icase o then map tolower pat else pat)) (paths_of lines) s.
Proof.
  destruct (search_seen o tolower toupper fnmatch under bigrams pat lit junk lines s)
    as (db & E & E2); [done..|].
  exists db. split; [exact E|]. rewrite E2. destruct (Find.mm o); [|done]. by rewrite seen_all by by apply Hlast.
Qed.

(** ** Witnesses and limits *)

Definition ascii_lower (c : Z) : Z := if (65 <=? c) && (c <=? 90) then c + 32 else c.
Definition ascii_upper (c : Z) : Z := if (97 <=? c) && (c <=? 122) then c - 32 else c.

Lemma ascii_tables : case_tables ascii_lower ascii_upper.
Proof.
  split; [|done|].
  - intros c. unfold ascii_lower. destruct ((65 <=? c) && (c <=? 90)) eqn:E; [|by rewrite E].
    destruct ((65 <=? c + 32) && (c + 32 <=? 90)) eqn:E2; lia.
  - intros c x. unfold ascii_lower, ascii_upper. destruct ((65 <=? c) && (c <=? 90)) eqn:E1, ((65 <=? x) && (x <=? 90)) eqn:E2;
      intros H; repeat match goal with |- context [if ?b then _ else _] => destruct b eqn:? end; lia.
Qed.

Definition opts_of (mm icase : bool) : Find.search_opts := Find.mkOpts mm icase false 0 10.
Definition buffer : list Z := replicate 1024 0.

(** "/usr", "/usr/SRC" and "/usr/src" with the bigrams "/u" and "sr", searched for "Sr*" without regard to case in mmap. *)
Lemma locate_finds_witness :
  let lines := [[47; 117; 115; 114]; []; [47; 117; 115; 114; 47; 83; 82; 67]; [47; 117; 115; 114; 47; 115; 114; 99]] in
  exists db, Code.main [47; 117; 115; 114] (text_of lines) = Ok db /\
    Find.fastfind (opts_of true true) ascii_lower ascii_upper (fun _ _ p => (Z.of_nat (length p) <? 5)) (fun _ => 0) buffer [83; 114; 42] db
      (Find.mkRst [] 0) =
    reports (opts_of true true) ascii_lower (fun _ _ p => (Z.of_nat (length p) <? 5)) [115; 114; 42] [115; 114] true (paths_of lines)
      (Find.mkRst [] 0).
Proof.
  intros lines.
  apply (locate_finds (opts_of true true) ascii_lower ascii_upper (fun _ _ p => (Z.of_nat (length p) <? 5)) (fun _ => 0)
    [47; 117; 115; 114] [83; 114; 42] [115; 114] buffer lines).
  - split; [repeat constructor; unfold ASCII_MIN, ASCII_MAX; lia|]. split; [cbn; lia|done].
  - unfold lines. repeat constructor; unfold path_octet, NL; cbn; lia.
  - done.
  - intros _. apply ascii_tables.
  - done.
  - reflexivity.
  - intros i x Hx. cbn. repeat (apply elem_of_cons in Hx as [->|Hx]; [done|]). by apply not_elem_of_nil in Hx.
  - intros _. cbn. lia.
Defined.

Lemma patprep_spec_witness :
  Find.patprep [102; 111; 111; 46; 91; 99; 104; 93] = Some [102; 111; 111; 46] /\ Find.patprep [97; 98] = Some [97; 98].
Proof.
  split; [reflexivity|].
  destruct (patprep_spec [97; 98]) as [_ H]. rewrite H; reflexivity.
Defined.

(** The octets in front of [path] count.  With "x" there, the pattern "x/a" and the list "/a", the backward comparison
    runs off the buffer and a path is printed in which the pattern is not. *)
Lemma front_of_path :
  exists db, Code.main [] (text_of [[47; 97]]) = Ok db /\
    occurs (opts_of false false) ascii_lower [120; 47; 97] [47; 97] = false /\
    forall fnmatch under, under (-1) = 120 ->
      Find.fastfind (opts_of false false) ascii_lower ascii_upper fnmatch under buffer [120; 47; 97] db (Find.mkRst [] 0) =
        (Ok tt, Find.mkRst [47; 97; 10] 0).
Proof.
  eexists. split; [vm_compute; reflexivity|]. split; [reflexivity|]. intros fnmatch under Hu.
  vm_compute. by rewrite Hu.
Qed.

Lemma common_prefix p old : p `prefix_of` old -> Code.common p old = length p.
Proof.
  intros [k ->]. induction p as [|c p IHp]; [done|]. cbn [app Code.common length]. by rewrite Z.eqb_refl, IHp.
Qed.

Lemma seen_last p old ps : forall old0 oldcount0,
  p `prefix_of` old -> Z.abs (Z.of_nat (length p) - Z.of_nat (Code.common old (List.last ps old0))) <= OFFSET ->
  seen old0 oldcount0 (ps ++ [old; p]) = ps ++ [old].
Proof.
  induction ps as [|q ps IH]; intros old0 oldcount0 Hp Hd.
  - cbn [app seen List.last] in *. unfold one_octet. rewrite common_prefix, Nat.eqb_refl by done.
    destruct (Z.leb_spec (Z.abs (Z.of_nat (length p) - Z.of_nat (Code.common old old0))) OFFSET); [done|lia].
  - cbn [app seen]. assert (exists a b, ps ++ [old; p] = a :: b) as (a & b & E) by (destruct ps; by eexists _, _).
    rewrite E, <- E. rewrite IH; [done|done|].
    assert (List.last ps q = List.last (q :: ps) old0) as ->; [|exact Hd]. destruct ps as [|r ps]; [done|].
    change (List.last (q :: r :: ps) old0) with (List.last (r :: ps) old0). clear. revert r.
    induction ps as [|r' ps IH]; intros r; [done|]. apply (IH r').
Qed.

(** C34. [fastfind_mmap] misses a last path that the one before it begins with.  Under the conditions of the search, when
    the list ends with two paths the second of which is a prefix of the first, and has at most 14
    octets more or less than the first has in common with the one before it, the mmap variants print what searching the list
    without its last path prints; reading through stdio prints what the whole list gives. *)
Theorem mmap_misses_last (o : Find.search_opts) (tolower toupper : Z -> Z) (fnmatch : bool -> list Z -> list Z -> bool) (under : Z -> Z)
    (bigrams pat lit junk : list Z) (lines ps : list (list Z)) (old p : list Z) (s : Find.rst)
    (Hbigrams : bigram_text bigrams) (Hlines : Forall line_ok lines) (Hblank : head (concat lines) <> Some 32)
    (Htables : Find.icase o = true -> case_tables tolower toupper) (Hjunk : length junk = Z.to_nat MAXPATHLEN)
    (Hpat : Find.patprep (if Find.icase o then map tolower pat else pat) = Some lit) (Hunder : quiet o tolower under lit)
    (Hlast : paths_of lines = ps ++ [old; p]) (Hprefix : p `prefix_of` old)
    (Hnear : Z.abs (Z.of_nat (length p) - Z.of_nat (Code.common old (List.last ps []))) <= 14) :
  exists db, Code.main bigrams (text_of lines) = Ok db /\
    Find.fastfind o tolower toupper fnmatch under junk pat db s =
      reports o tolower fnmatch (if Find.icase o then map tolower pat else pat) lit
        (existsb Find.is_reg (if Find.icase o then map tolower pat else pat))
        (if Find.mm o then ps ++ [old] else ps ++ [old; p]) s.
Proof.
  destruct (search_seen o tolower toupper fnmatch under bigrams pat lit junk lines s)
    as (db & E & E2); [done..|].
  exists db. split; [exact E|]. rewrite E2. by rewrite Hlast, seen_last.
Qed.

(** "/usr/src" and "/usr": the search for "usr" in mmap prints the first only. *)
Lemma mmap_misses_last_witness :
  exists db, Code.main [] (text_of [[47; 117; 115; 114; 47; 115; 114; 99]; [47; 117; 115; 114]]) = Ok db /\
    Find.fastfind (opts_of true false) ascii_lower ascii_upper (fun _ _ _ => false) (fun _ => 0) buffer [117; 115; 114] db (Find.mkRst [] 0) =
      (Ok tt, Find.mkRst [47; 117; 115; 114; 47; 115; 114; 99; 10] 0).
Proof.
  destruct (mmap_misses_last (opts_of true false) ascii_lower ascii_upper (fun _ _ _ => false) (fun _ => 0)
    [] [117; 115; 114] [117; 115; 114] buffer [[47; 117; 115; 114; 47; 115; 114; 99]; [47; 117; 115; 114]]
    [] [47; 117; 115; 114; 47; 115; 114; 99] [47; 117; 115; 114] (Find.mkRst [] 0)) as (db & E & H).
  - split; [constructor|]. split; [cbn; lia|done].
  - repeat constructor; unfold path_octet, NL; cbn; lia.
  - done.
  - done.
  - done.
  - reflexivity.
  - intros i x Hx. cbn. repeat (apply elem_of_cons in Hx as [->|Hx]; [done|]). by apply not_elem_of_nil in Hx.
  - reflexivity.
  - by eexists.
  - cbn. lia.
  - exists db. split; [exact E|]. rewrite H. vm_compute. reflexivity.
Defined.
