(* ===== verification/Tsort.v ===== *)
(** * tsort: pairs of words in an order that agrees with all of them
    ([src/misc_cmds/tsort/tsort.c])

    The nodes are a heap, a list that [get_node] appends to; a pointer to a node is its place in the heap.  The nodes
    still in the graph are linked in both directions, [n_next] and [n_prevp], which points to the [n_next] of another node or
    to [graph] ([None]).  [n_arcs] is the array of arcs up to [n_narcs]; [n_arcsize] is its size, and a
    write behind it is a [Crash], as is one behind [cycle_buf].  The elements of an array that [malloc] returned are [None]
    until they are written.  What is printed is a list of events. *)

From Stdlib Require Import ZArith Lia List Bool.
From stdpp Require Import base tactics list numbers gmap.
From S2P Require Import Prelude.

Local Open Scope Z_scope.

Definition NF_MARK : Z := 1.
Definition NF_ACYCLIC : Z := 2.
Definition NF_NODEST : Z := 4.

Record node := mkNode {
  n_prevp : option nat;
  n_next : option nat;
  n_arcs : list nat;
  n_arcsize : Z;
  n_refcnt : Z;
  n_flags : Z;
  n_name : list Z
}.

Definition set_prevp (p : option nat) (x : node) : node :=
  mkNode p (n_next x) (n_arcs x) (n_arcsize x) (n_refcnt x) (n_flags x) (n_name x).
Definition set_next (p : option nat) (x : node) : node :=
  mkNode (n_prevp x) p (n_arcs x) (n_arcsize x) (n_refcnt x) (n_flags x) (n_name x).
Definition set_arcs (l : list nat) (x : node) : node :=
  mkNode (n_prevp x) (n_next x) l (n_arcsize x) (n_refcnt x) (n_flags x) (n_name x).
Definition set_arcsize (z : Z) (x : node) : node :=
  mkNode (n_prevp x) (n_next x) (n_arcs x) z (n_refcnt x) (n_flags x) (n_name x).
Definition set_refcnt (z : Z) (x : node) : node :=
  mkNode (n_prevp x) (n_next x) (n_arcs x) (n_arcsize x) z (n_flags x) (n_name x).
Definition set_flags (z : Z) (x : node) : node :=
  mkNode (n_prevp x) (n_next x) (n_arcs x) (n_arcsize x) (n_refcnt x) z (n_name x).

(** What is printed: the name of a node, "cycle in data", the name of a node of a cycle, a line of [debug]. *)
Inductive event :=
  | Line (name : list Z)
  | CycleInData
  | InCycle (name : list Z)
  | Debug (depth : Z) (from to : list Z) (len : Z).

Record tsort_opts := mkOptions { debug : bool; longest : bool; quiet : bool }.

(** The globals; an array that is not allocated yet is [None]. *)
Record tsort_state := mkT {
  nodes : list node;
  db : gmap (list Z) nat;
  graph : option nat;
  cycle_buf : option (list (option nat));
  longest_cycle : option (list (option nat));
  printed : list event
}.

Definition init : tsort_state := mkT [] ∅ None None None [].

Definition set_nodes (l : list node) (s : tsort_state) : tsort_state :=
  mkT l (db s) (graph s) (cycle_buf s) (longest_cycle s) (printed s).
Definition set_graph (g : option nat) (s : tsort_state) : tsort_state :=
  mkT (nodes s) (db s) g (cycle_buf s) (longest_cycle s) (printed s).
Definition set_bufs (b l : option (list (option nat))) (s : tsort_state) : tsort_state :=
  mkT (nodes s) (db s) (graph s) b l (printed s).
Definition emit (e : event) (s : tsort_state) : tsort_state :=
  mkT (nodes s) (db s) (graph s) (cycle_buf s) (longest_cycle s) (printed s ++ [e]).

Abbreviation T := (M halt tsort_state).

(** [*n], and an assignment to members of [*n]. *)
Definition node_at (n : nat) : T node :=
  s ← get; match nodes s !! n with Some x => mret x | None => leave Crash end.
Definition upd (n : nat) (f : node -> node) : T unit :=
  x ← node_at n; modify (fun s => set_nodes (<[n := f x]> (nodes s)) s).

(** ** The graph *)

Definition get_node (name : list Z) : T nat :=
  s ← get;
  match db s !! name with
  | Some n => mret n
  | None =>
      let n := length (nodes s) in
      _ ← modify (fun s => set_nodes (nodes s ++ [mkNode None (graph s) [] 0 0 0 name]) s);
      _ ← match graph s with Some g => upd g (set_prevp (Some n)) | None => mret tt end;
      _ ← modify (set_graph (Some n));
      _ ← modify (fun s => mkT (nodes s) (<[name := n]> (db s)) (graph s) (cycle_buf s) (longest_cycle s) (printed s));
      mret n
  end.

(** The size of a pointer. *)
Definition PTRSIZE : Z := 8.

(** The array grows when it is full. *)
Definition grow (n1 : nat) : T unit :=
  x ← node_at n1;
  mwhen (Z.of_nat (length (n_arcs x)) =? n_arcsize x)
    (let size := if n_arcsize x =? 0 then 10 else n_arcsize x in
     let bsize := size * PTRSIZE * 2 in
     upd n1 (set_arcsize (bsize / PTRSIZE))).

Definition add_arc (s1 s2 : list Z) : T unit :=
  n1 ← get_node s1;
  if bool_decide (s1 = s2) then mret tt
  else
    n2 ← get_node s2;
    x ← node_at n1;
    if bool_decide (n2 ∈ n_arcs x) then mret tt
    else
      _ ← grow n1;
      x ← node_at n1;
      if Z.of_nat (length (n_arcs x)) <? n_arcsize x then
        _ ← upd n1 (set_arcs (n_arcs x ++ [n2]));
        y ← node_at n2;
        upd n2 (set_refcnt (n_refcnt y + 1))
      else leave Crash.

(** The arcs of a node that is removed count no more. *)
Fixpoint release (arcs : list nat) : T unit :=
  match arcs with
  | [] => mret tt
  | n :: arcs => y ← node_at n; _ ← upd n (set_refcnt (n_refcnt y - 1)); release arcs
  end.

Definition remove_node (n : nat) : T unit :=
  x ← node_at n;
  _ ← modify (emit (Line (n_name x)));
  _ ← release (n_arcs x);
  _ ← upd n (set_arcs []);
  x ← node_at n;
  _ ← match n_prevp x with
      | None => modify (set_graph (n_next x))
      | Some p => upd p (set_next (n_next x))
      end;
  match n_next x with
  | Some m => upd m (set_prevp (n_prevp x))
  | None => mret tt
  end.

(** ** Cycles *)

Section Sort.
Context (o : tsort_opts).

Definition flagged (x : node) (bits : Z) : bool := negb (Z.land (n_flags x) bits =? 0).
Definition set_flag (n : nat) (bit : Z) : T unit :=
  x ← node_at n; upd n (set_flags (Z.lor (n_flags x) bit)).
Definition clear_flag (n : nat) (bit : Z) : T unit :=
  x ← node_at n; upd n (set_flags (Z.land (n_flags x) (Z.lnot bit))).

(** [for (n = graph; n != NULL; n = n->n_next)], with the flag NF_NODEST cleared. *)
Fixpoint clear_loop (fuel : nat) (n : option nat) : T unit :=
  match n with
  | None => mret tt
  | Some n =>
      match fuel with
      | O => leave NoFuel
      | S fuel =>
          _ ← clear_flag n NF_NODEST;
          x ← node_at n;
          clear_loop fuel (n_next x)
      end
  end.
Definition clear_cycle : T unit :=
  s ← get; clear_loop (length (nodes s)) (graph s).

(** [cycle_buf[depth] = n], and the copy of the first [len] elements. *)
Definition put_cycle (depth : Z) (n : nat) : T unit :=
  s ← get;
  match cycle_buf s with
  | Some b =>
      if depth <? Z.of_nat (length b)
      then modify (set_bufs (Some (<[Z.to_nat depth := Some n]> b)) (longest_cycle s)) else leave Crash
  | None => leave Crash
  end.
Definition copy_cycle (len : Z) : T unit :=
  s ← get;
  match cycle_buf s, longest_cycle s with
  | Some b, Some l =>
      if (len <=? Z.of_nat (length b)) && (len <=? Z.of_nat (length l))
      then modify (set_bufs (Some b) (Some (take (Z.to_nat len) b ++ drop (Z.to_nat len) l))) else leave Crash
  | _, _ => leave Crash
  end.

(** The arcs of [from]; [rec] is the recursive call. *)
Fixpoint arcs_loop (rec : nat -> Z -> T Z) (from to : nat) (depth : Z) (arcs : list nat) (longest_len : Z) : T Z :=
  match arcs with
  | [] => mret longest_len
  | np :: arcs =>
      _ ← put_cycle depth np;
      if bool_decide (np = to) then
        if longest_len <? depth + 1 then
          _ ← copy_cycle (depth + 1);
          arcs_loop rec from to depth arcs (depth + 1)
        else arcs_loop rec from to depth arcs longest_len
      else
        x ← node_at np;
        if flagged x (Z.lor NF_MARK (Z.lor NF_ACYCLIC NF_NODEST)) then arcs_loop rec from to depth arcs longest_len
        else
          len ← rec np longest_len;
          f ← node_at from;
          t ← node_at to;
          _ ← mwhen (debug o) (modify (emit (Debug depth (n_name f) (n_name t) len)));
          _ ← mwhen (len =? 0) (set_flag np NF_NODEST);
          let longest_len := if longest_len <? len then len else longest_len in
          if (0 <? len) && negb (longest o) then mret longest_len
          else arcs_loop rec from to depth arcs longest_len
  end.

Fixpoint find_cycle (fuel : nat) (from to : nat) (longest_len depth : Z) : T Z :=
  match fuel with
  | O => leave NoFuel
  | S fuel =>
      x ← node_at from;
      if flagged x (Z.lor NF_NODEST (Z.lor NF_MARK NF_ACYCLIC)) then mret 0
      else
        _ ← set_flag from NF_MARK;
        longest_len ← arcs_loop (fun np longest_len => find_cycle fuel np to longest_len (depth + 1)) from to depth (n_arcs x) longest_len;
        _ ← clear_flag from NF_MARK;
        mret longest_len
  end.

(** ** The sort *)

(** The nodes that nothing points to are removed. *)
Fixpoint free_pass (fuel : nat) (n : option nat) (cnt : Z) : T Z :=
  match n with
  | None => mret cnt
  | Some n =>
      match fuel with
      | O => leave NoFuel
      | S fuel =>
          x ← node_at n;
          if n_refcnt x =? 0 then
            _ ← remove_node n;
            free_pass fuel (n_next x) (cnt + 1)
          else free_pass fuel (n_next x) cnt
      end
  end.
Fixpoint free_passes (fuel : nat) : T unit :=
  match fuel with
  | O => leave NoFuel
  | S fuel =>
      s ← get;
      cnt ← free_pass (length (nodes s)) (graph s) 0;
      g ← gets graph;
      if bool_decide (g <> None) && negb (cnt =? 0) then free_passes fuel else mret tt
  end.

Fixpoint count_nodes (fuel : nat) (n : option nat) (cnt : Z) : T Z :=
  match n with
  | None => mret cnt
  | Some n =>
      match fuel with
      | O => leave NoFuel
      | S fuel => x ← node_at n; count_nodes fuel (n_next x) (cnt + 1)
      end
  end.
Definition alloc_cycles : T unit :=
  s ← get;
  match cycle_buf s with
  | Some _ => mret tt
  | None =>
      cnt ← count_nodes (length (nodes s)) (graph s) 0;
      modify (set_bufs (Some (replicate (Z.to_nat cnt) None)) (Some (replicate (Z.to_nat cnt) None)))
  end.

(** The names of [longest_cycle] from [i] on. *)
Fixpoint warn_cycle (cycle : list (option nat)) : T unit :=
  match cycle with
  | [] => mret tt
  | Some n :: cycle => x ← node_at n; _ ← modify (emit (InCycle (n_name x))); warn_cycle cycle
  | None :: _ => leave Crash
  end.

Definition warn (cnt : Z) : T unit :=
  mwhen (negb (quiet o))
    (_ ← modify (emit CycleInData);
     s ← get;
     warn_cycle (take (Z.to_nat cnt) (default [] (longest_cycle s)))).

(** The loop that looks for a cycle and removes a node of it; [false]: [n == NULL] behind it. *)
Fixpoint cycle_pass (fuel : nat) (n : option nat) : T bool :=
  match n with
  | None => mret false
  | Some n =>
      match fuel with
      | O => leave NoFuel
      | S fuel =>
          x ← node_at n;
          if flagged x NF_ACYCLIC then cycle_pass fuel (n_next x)
          else
            s ← get;
            cnt ← find_cycle (S (length (nodes s))) n n 0 0;
            if cnt =? 0 then
              _ ← set_flag n NF_ACYCLIC;
              _ ← clear_cycle;
              x ← node_at n;
              cycle_pass fuel (n_next x)
            else
              _ ← warn cnt;
              _ ← remove_node n;
              _ ← clear_cycle;
              mret true
      end
  end.

Fixpoint tsort_loop (fuel : nat) : T unit :=
  g ← gets graph;
  match g with
  | None => mret tt
  | Some _ =>
      match fuel with
      | O => leave NoFuel
      | S fuel =>
          s ← get;
          _ ← free_passes (S (length (nodes s)));
          g ← gets graph;
          match g with
          | None => mret tt
          | Some _ =>
              _ ← alloc_cycles;
              cycle_pass (length (nodes s)) g ≫= fun found : bool =>
                if found then tsort_loop fuel else leave (Exit 1)
          end
      end
  end.
Definition tsort : T unit :=
  s ← get; tsort_loop (length (nodes s)).

(** ** The words *)

Definition isspace (c : Z) : bool := ((9 <=? c) && (c <=? 13)) || (c =? 32).
Fixpoint skip_space (l : list Z) : list Z :=
  match l with [] => [] | c :: l' => if isspace c then skip_space l' else l end.
Fixpoint take_word (l : list Z) : list Z * list Z :=
  match l with
  | [] => ([], [])
  | c :: l' => if isspace c then ([], l) else let '(w, rest) := take_word l' in (c :: w, rest)
  end.
(** The buffer as the string that [add_arc] sees. *)
Fixpoint cstr (l : list Z) : list Z := match l with [] => [] | c :: l => if c =? 0 then [] else c :: cstr l end.

(** [n] says that [bufs[0]] is full. *)
Fixpoint word_loop (fuel : nat) (n : bool) (buf0 : list Z) (fp : list Z) : T bool :=
  match fuel with
  | O => leave NoFuel
  | S fuel =>
      match skip_space fp with
      | [] => mret n
      | c :: l =>
          let '(w, fp) := take_word (c :: l) in
          if n then _ ← add_arc (cstr buf0) (cstr w); word_loop fuel false buf0 fp
          else word_loop fuel true w fp
      end
  end.

Definition main (fp : list Z) : T unit :=
  word_loop (S (length fp)) false [] fp ≫= fun n : bool =>
    if n then leave (Exit 1) else tsort.

End Sort.
