(* ===== verification/TsortFacts.v ===== *)
(** * tsort: the graph in its heap

    [chain] says which nodes are linked, in both directions; the other members of a node are read through
    functions that are total ([arcs_of] and the like), so that an operation is a few equations.  [Graph] is the
    invariant of the sort: the linked nodes have the arcs the input gave them, the others none, and each node
    counts the arcs that point to it. *)

From Stdlib Require Import ZArith Lia List Bool.
From stdpp Require Import base tactics list numbers gmap.
From S2P Require Import Prelude Tsort.

Local Open Scope Z_scope.

(** ** Reading a node *)

Definition arcs_of (s : tsort_state) (n : nat) : list nat := from_option n_arcs [] (nodes s !! n).
Definition ref_of (s : tsort_state) (n : nat) : Z := from_option n_refcnt 0 (nodes s !! n).
Definition flags_of (s : tsort_state) (n : nat) : Z := from_option n_flags 0 (nodes s !! n).
Definition name_of (s : tsort_state) (n : nat) : list Z := from_option n_name [] (nodes s !! n).
Definition size_of (s : tsort_state) (n : nat) : Z := from_option n_arcsize 0 (nodes s !! n).
Definition marked (s : tsort_state) (n : nat) : bool := Z.testbit (flags_of s n) 0.
Definition acyclic (s : tsort_state) (n : nat) : bool := Z.testbit (flags_of s n) 1.
Definition nodest (s : tsort_state) (n : nat) : bool := Z.testbit (flags_of s n) 2.

Lemma run_node_at n s x : nodes s !! n = Some x -> node_at n s = (Ok x, s).
Proof. intros H. unfold node_at. cbv [mbind M_bind get]. by rewrite H. Qed.

Lemma run_upd n f s x :
  nodes s !! n = Some x -> upd n f s = (Ok tt, set_nodes (<[n := f x]> (nodes s)) s).
Proof. intros H. unfold upd. by rewrite (run_bind_ok _ _ _ _ _ (run_node_at n s x H)). Qed.

Lemma node_lookup s n : (n < length (nodes s))%nat -> exists x, nodes s !! n = Some x.
Proof. intros H. by apply lookup_lt_is_Some. Qed.

(** The members that [upd] changes. *)
Lemma view_upd {A} (v : node -> A) (d : A) n f s x m :
  nodes s !! n = Some x ->
  from_option v d (<[n := f x]> (nodes s) !! m) = if decide (m = n) then v (f x) else from_option v d (nodes s !! m).
Proof.
  intros H. destruct (decide (m = n)) as [->|Hne].
  - rewrite list_lookup_insert_eq; [done|]. by eapply lookup_lt_Some.
  - by rewrite list_lookup_insert_ne by done.
Qed.

Lemma view_at {A} (v : node -> A) (d : A) s n x : nodes s !! n = Some x -> from_option v d (nodes s !! n) = v x.
Proof. by intros ->. Qed.

(** ** The links *)

Fixpoint chain (ns : list node) (prev g : option nat) (l : list nat) : Prop :=
  match l with
  | [] => g = None
  | n :: l => g = Some n /\ exists x, ns !! n = Some x /\ n_prevp x = prev /\ chain ns (Some n) (n_next x) l
  end.

(** The first of a list of links, or what follows. *)
Definition first (l : list nat) (after : option nat) : option nat := match l with [] => after | n :: _ => Some n end.
Definition final (l : list nat) (before : option nat) : option nat := from_option Some before (last l).

Lemma chain_links ns ns' prev g l :
  (forall n x, n ∈ l -> ns !! n = Some x ->
     exists x', ns' !! n = Some x' /\ n_prevp x' = n_prevp x /\ n_next x' = n_next x) ->
  chain ns prev g l -> chain ns' prev g l.
Proof.
  revert prev g. induction l as [|n l IH]; intros prev g H; [done|]. cbn. intros (-> & x & Hx & Hp & Hc). split; [done|].
  destruct (H n x) as (x' & Hx' & Hp' & Hn'); [by left|done|]. exists x'. split; [done|]. split; [congruence|].
  rewrite Hn'. apply IH; [|done]. intros m y Hm. apply H. by right.
Qed.

Lemma chain_in ns prev g l n : chain ns prev g l -> n ∈ l -> (n < length ns)%nat.
Proof.
  revert prev g. induction l as [|m l IH]; intros prev g Hc Hn; [by apply not_elem_of_nil in Hn|].
  destruct Hc as (_ & x & Hx & _ & Hc). apply elem_of_cons in Hn as [->|Hn]; [by eapply lookup_lt_Some|by eapply IH].
Qed.

Lemma chain_bound ns prev g l : chain ns prev g l -> NoDup l -> (length l <= length ns)%nat.
Proof.
  intros Hc Hnd. rewrite <- (length_seq (length ns) 0). apply NoDup_incl_length; [by apply NoDup_ListNoDup|].
  intros n Hn. apply in_seq. apply list_elem_of_In in Hn. pose proof (chain_in _ _ _ _ _ Hc Hn). lia.
Qed.

(** What stands behind a node in the chain. *)
Lemma chain_split ns prev g l1 n l2 :
  chain ns prev g (l1 ++ n :: l2) ->
  exists x, ns !! n = Some x /\ n_prevp x = final l1 prev /\ n_next x = first l2 None /\ g = first (l1 ++ [n]) None /\
    chain ns (Some n) (n_next x) l2.
Proof.
  revert prev g. induction l1 as [|m l1 IH]; intros prev g; cbn [app chain].
  - intros (-> & x & Hx & Hp & Hc). exists x. split_and!; try done. by destruct l2; [|destruct Hc as (-> & _)].
  - intros (-> & y & Hy & Hp & Hc). destruct (IH _ _ Hc) as (x & Hx & Hpx & Hnx & _ & Hc2). exists x. split_and!; try done.
    rewrite Hpx. unfold final. destruct l1; [done|]. cbn [last]. by destruct (last (n0 :: l1)) eqn:E; [|apply last_None in E].
Qed.

(** A node is unlinked: the one before it points to the one behind it, and the other way round. *)
Lemma chain_unlink ns ns' prev g l1 n l2 :
  NoDup (l1 ++ n :: l2) -> chain ns prev g (l1 ++ n :: l2) ->
  (forall m x, m ∈ l1 ++ l2 -> ns !! m = Some x -> exists x', ns' !! m = Some x' /\
     n_next x' = (if decide (final l1 None = Some m) then first l2 None else n_next x) /\
     n_prevp x' = (if decide (first l2 None = Some m) then final l1 prev else n_prevp x)) ->
  chain ns' prev (first (l1 ++ l2) None) (l1 ++ l2).
Proof.
  revert prev g. induction l1 as [|m l1 IH]; intros prev g Hnd Hc H; cbn [app] in *.
  - destruct Hc as (-> & x & Hx & Hp & Hc). destruct l2 as [|k l2]; [done|]. cbn [chain first] in *.
    destruct Hc as (_ & y & Hy & Hpy & Hc). split; [done|]. destruct (H k y) as (y' & Hy' & Hn' & Hp'); [by left|done|].
    exists y'. split; [done|]. rewrite decide_True in Hp' by done. split; [done|]. rewrite Hn'. cbn.
    eapply chain_links; [|exact Hc]. intros j z Hj Hz. destruct (H j z) as (z' & Hz' & Hnz & Hpz); [by right|done|].
    exists z'. split; [done|]. cbn in Hnz. split; [|done]. rewrite decide_False in Hpz; [done|].
    intros [= ->]. apply NoDup_cons in Hnd as [_ Hnd]. by apply NoDup_cons in Hnd as [Hnd _].
  - destruct Hc as (-> & x & Hx & Hp & Hc). apply NoDup_cons in Hnd as [Hm Hnd]. cbn [chain first]. split; [done|].
    destruct (H m x) as (x' & Hx' & Hn' & Hp'); [by left|done|]. exists x'. split; [done|].
    assert (forall k, first l2 None = Some k -> k ∈ l2) as Hfirst by (intros k; destruct l2; [done|]; intros [= ->]; by left).
    rewrite decide_False in Hp'.
    2: { intros E. apply Hm. apply elem_of_app. right. right. by apply Hfirst. }
    split; [congruence|].
    assert (n_next x' = first (l1 ++ l2) None) as ->.
    { rewrite Hn'. destruct l1 as [|k l1]; [by rewrite decide_True|]. rewrite decide_False.
      - destruct Hc as (-> & _). done.
      - unfold final. intros E. apply Hm. apply elem_of_app. left. cbn [last] in E.
        destruct (last (k :: l1)) as [j|] eqn:El; cbn in E; [|done].
        assert (j = m) as -> by (destruct l1; cbn in *; congruence). apply last_Some in El as (l' & ->). apply elem_of_app. right. by left. }
    eapply IH; [done|exact Hc|]. intros j z Hj Hz. destruct (H j z) as (z' & Hz' & Hnz & Hpz); [by right|done|].
    exists z'. split; [done|]. assert (final (m :: l1) None = final l1 (Some m)) as E.
    { unfold final. destruct l1 as [|k l1]; [done|]. cbn [last]. by destruct (last (k :: l1)) eqn:El; [|apply last_None in El]. }
    assert (final (m :: l1) prev = final l1 (Some m)) as E'.
    { unfold final. destruct l1 as [|k l1]; [done|]. cbn [last]. by destruct (last (k :: l1)) eqn:El; [|apply last_None in El]. }
    rewrite E in Hnz. rewrite E' in Hpz. split; [|done]. rewrite Hnz.
    destruct l1 as [|k l1]; cbn [final last from_option]; [|].
    + unfold final. cbn. rewrite decide_False; [|intros [= ->]; apply Hm; cbn in *; by right].
      done.
    + unfold final. destruct (last (k :: l1)) eqn:El; [done|by apply last_None in El].
Qed.

(** ** Removing a node *)

(** Changes of all nodes, each on its own. *)
Definition changed (ns ns' : list node) (f : nat -> node -> node) : Prop := forall m, ns' !! m = f m <$> ns !! m.

Lemma changed_upd n f s x : nodes s !! n = Some x -> changed (nodes s) (<[n := f x]> (nodes s)) (fun m => if decide (m = n) then f else id).
Proof.
  intros H m. destruct (decide (m = n)) as [->|Hne].
  - rewrite list_lookup_insert_eq by (by eapply lookup_lt_Some). by rewrite H.
  - rewrite list_lookup_insert_ne by done. by rewrite option_fmap_id.
Qed.

Lemma changed_trans ns1 ns2 ns3 f g : changed ns1 ns2 f -> changed ns2 ns3 g -> changed ns1 ns3 (fun m x => g m (f m x)).
Proof. intros H1 H2 m. rewrite H2, H1. by destruct (ns1 !! m). Qed.

Lemma changed_length ns ns' f : changed ns ns' f -> length ns' = length ns.
Proof.
  intros H. destruct (Nat.lt_trichotomy (length ns') (length ns)) as [Hl|[Hl|Hl]]; [|done|]; exfalso.
  - pose proof (H (length ns')) as E. rewrite lookup_ge_None_2 in E by lia. apply lookup_lt_is_Some in Hl as [x Hx]. by rewrite Hx in E.
  - pose proof (H (length ns)) as E. rewrite (lookup_ge_None_2 ns) in E by lia. apply lookup_lt_is_Some in Hl as [x Hx]. by rewrite Hx in E.
Qed.

Lemma changed_view {A} (v : node -> A) d ns ns' f m :
  changed ns ns' f -> (forall x, v (f m x) = v x) -> from_option v d (ns' !! m) = from_option v d (ns !! m).
Proof. intros H Hv. rewrite H. destruct (ns !! m); [apply Hv|done]. Qed.

Lemma release_spec arcs s :
  NoDup arcs -> (forall n, n ∈ arcs -> (n < length (nodes s))%nat) ->
  exists ns', release arcs s = (Ok tt, set_nodes ns' s) /\
    changed (nodes s) ns' (fun m x => if decide (m ∈ arcs) then set_refcnt (n_refcnt x - 1) x else x).
Proof.
  revert s. induction arcs as [|n arcs IH]; intros s Hnd Hin.
  - exists (nodes s). split; [by destruct s|]. intros m. destruct (decide (m ∈ [])) as [Hm|]; [by apply not_elem_of_nil in Hm|].
    by destruct (nodes s !! m).
  - apply NoDup_cons in Hnd as [Hn Hnd]. destruct (node_lookup s n) as (x & Hx); [apply Hin; by left|]. cbn [release].
    rewrite (run_bind_ok _ _ _ _ _ (run_node_at n s x Hx)). rewrite (run_bind_ok _ _ _ _ _ (run_upd n _ s x Hx)).
    pose proof (changed_upd n (set_refcnt (n_refcnt x - 1)) s x Hx) as Hch.
    destruct (IH (set_nodes (<[n:=set_refcnt (n_refcnt x - 1) x]> (nodes s)) s)) as (ns' & E & Hch'); [done| |].
    { intros m Hm. cbn. rewrite length_insert. apply Hin. by right. }
    exists ns'. split; [exact E|]. pose proof (changed_trans _ _ _ _ _ Hch Hch') as H. intros m. rewrite (H m).
    destruct (nodes s !! m) as [y|] eqn:Ey; [|done]. cbn. f_equal. destruct (decide (m = n)) as [->|Hne].
    + rewrite Hx in Ey. injection Ey as ->. rewrite decide_False by done. rewrite decide_True by (by left). done.
    + destruct (decide (m ∈ arcs)) as [Hm|Hm]; [rewrite decide_True by (by right); done|].
      rewrite decide_False; [done|]. intros [->|Hm']%elem_of_cons; done.
Qed.

(** The state behind [remove_node]. *)
Lemma remove_node_spec s l1 n l2 :
  NoDup (l1 ++ n :: l2) -> chain (nodes s) None (graph s) (l1 ++ n :: l2) ->
  NoDup (arcs_of s n) -> (forall v, v ∈ arcs_of s n -> (v < length (nodes s))%nat) ->
  exists ns', remove_node n s = (Ok tt, mkT ns' (db s) (first (l1 ++ l2) None) (cycle_buf s) (longest_cycle s) (printed s ++ [Line (name_of s n)])) /\
    chain ns' None (first (l1 ++ l2) None) (l1 ++ l2) /\ length ns' = length (nodes s) /\
    forall m x, nodes s !! m = Some x -> exists p q,
      ns' !! m = Some (mkNode p q (if decide (m = n) then [] else n_arcs x) (n_arcsize x)
        (n_refcnt x - if decide (m ∈ arcs_of s n) then 1 else 0) (n_flags x) (n_name x)).
Proof.
  intros Hnd Hc Harcs Hin. destruct (chain_split _ _ _ _ _ _ Hc) as (x & Hx & Hp & Hn & Hg & Hc2).
  assert (arcs_of s n = n_arcs x) as Ea by (unfold arcs_of; by rewrite Hx). unfold remove_node.
  rewrite (run_bind_ok _ _ _ _ _ (run_node_at n s x Hx)), run_bind_modify. rewrite Ea in *.
  assert (name_of s n = n_name x) as -> by (unfold name_of; by rewrite Hx).
  destruct (release_spec (n_arcs x) (emit (Line (n_name x)) s) Harcs Hin) as (ns1 & E1 & Hch1).
  rewrite (run_bind_ok _ _ _ _ _ E1). clear E1. set (s1 := set_nodes ns1 _).
  pose proof (Hch1 n) as Hx1. cbn in Hx1. rewrite Hx in Hx1. cbn in Hx1.
  set (x1 := if decide _ then _ else _) in Hx1. assert (n_prevp x1 = n_prevp x /\ n_next x1 = n_next x) as [Ep1 En1].
  { unfold x1. by destruct (decide _). }
  rewrite (run_bind_ok _ _ _ _ _ (run_upd n (set_arcs []) s1 x1 Hx1)).
  pose proof (changed_upd n (set_arcs []) s1 x1 Hx1) as Hch2.
  set (ns2 := <[n := set_arcs [] x1]> (nodes s1)) in *. clearbody ns2. set (s2 := set_nodes ns2 s1).
  assert (nodes s2 !! n = Some (set_arcs [] x1)) as Hx2 by (pose proof (Hch2 n) as H; change (nodes s1 !! n) with (ns1 !! n) in H; rewrite Hx1, decide_True in H by done; exact H).
  rewrite (run_bind_ok _ _ _ _ _ (run_node_at n s2 _ Hx2)).
  pose proof (changed_trans _ _ _ _ _ Hch1 Hch2) as Hch. cbn [nodes emit] in Hch. cbn [n_prevp set_arcs n_next]. rewrite Ep1, En1.
  (* the link in front *)
  assert (exists ns3, (match n_prevp x with None => modify (set_graph (n_next x)) | Some p => upd p (set_next (n_next x)) end) s2 =
      (Ok tt, mkT ns3 (db s) (first (l1 ++ l2) None) (cycle_buf s) (longest_cycle s) (printed s ++ [Line (n_name x)])) /\
    changed ns2 ns3 (fun m => if decide (final l1 None = Some m) then set_next (n_next x) else id)) as (ns3 & E3 & Hch3).
  { rewrite Hp. destruct (final l1 None) as [p|] eqn:Ef.
    - assert (p ∈ l1) as Hpl.
      { unfold final in Ef. destruct (last l1) as [q|] eqn:El; [|done]. cbn in Ef. injection Ef as ->.
        apply last_Some in El as (l' & ->). apply elem_of_app. right. by left. }
      assert (p < length (nodes s2))%nat as Hlt.
      { change (nodes s2) with ns2. rewrite (changed_length _ _ _ Hch). eapply chain_in; [exact Hc|]. apply elem_of_app. by left. }
      apply node_lookup in Hlt as (y & Hy). rewrite (run_upd p _ s2 y Hy). eexists. split.
      + f_equal. unfold set_nodes. cbn. f_equal. rewrite Hg. by destruct l1.
      + intros m. rewrite (changed_upd p _ s2 y Hy m). destruct (decide (m = p)) as [->|Hne].
        * by rewrite decide_True.
        * rewrite decide_False by congruence. done.
    - assert (l1 = []) as ->.
      { unfold final in Ef. destruct (last l1) eqn:El; [done|]. by apply last_None in El. }
      exists (nodes s2). split; [unfold modify, set_graph; cbn; by rewrite Hn|].
      intros m. rewrite decide_False by done. by rewrite option_fmap_id. }
  rewrite (run_bind_ok _ _ _ _ _ E3). set (s3 := mkT ns3 _ _ _ _ _).
  pose proof (changed_trans _ _ _ _ _ Hch Hch3) as Hch'. clear E3.
  (* the link behind *)
  assert (exists ns4, (match n_next x with Some m => upd m (set_prevp (n_prevp x)) | None => mret tt end) s3 =
      (Ok tt, set_nodes ns4 s3) /\
    changed ns3 ns4 (fun m => if decide (first l2 None = Some m) then set_prevp (final l1 None) else id)) as (ns4 & E4 & Hch4).
  { rewrite Hn, Hp. destruct l2 as [|k l2]; cbn [first].
    - exists ns3. split; [done|]. intros m. rewrite decide_False by done. by rewrite option_fmap_id.
    - assert (k < length (nodes s3))%nat as Hlt.
      { cbn. rewrite (changed_length _ _ _ Hch'). eapply chain_in; [exact Hc|]. apply elem_of_app. right. right. by left. }
      apply node_lookup in Hlt as (y & Hy). rewrite (run_upd k _ s3 y Hy). eexists. split; [done|].
      intros m. pose proof (changed_upd k (set_prevp (final l1 None)) s3 y Hy m) as H. etransitivity; [exact H|]. change (nodes s3) with ns3. cbv beta.
      destruct (decide (m = k)) as [->|Hne]; [by rewrite decide_True|]. rewrite decide_False by congruence. done. }
  pose proof (changed_trans _ _ _ _ _ Hch' Hch4) as Hall. cbv beta in Hall.
  exists ns4. rewrite E4. split; [done|]. split; [|split; [by rewrite (changed_length _ _ _ Hall)|]].
  - eapply chain_unlink; [exact Hnd|exact Hc|]. intros m y Hm Hy. pose proof (Hall m) as Hm'. rewrite Hy in Hm'. cbn in Hm'.
    eexists. split; [exact Hm'|]. rewrite Hn.
    assert (m <> n) as Hne.
    { intros ->. apply NoDup_app in Hnd as (_ & Hd & Hnd2). apply NoDup_cons in Hnd2 as [Hnd2 _].
      apply elem_of_app in Hm as [Hm|Hm]; [apply (Hd n Hm); by left|done]. }
    rewrite !(decide_False (P := m = n)) by done.
    destruct (decide (first l2 None = Some m)), (decide (final l1 None = Some m)), (decide (m ∈ n_arcs x)); done.
  - intros m y Hy. pose proof (Hall m) as Hm'. rewrite Hy in Hm'. cbn in Hm'.
    exists (if decide (first l2 None = Some m) then final l1 None else n_prevp y),
      (if decide (final l1 None = Some m) then n_next x else n_next y). rewrite Hm'. f_equal. destruct y as [y1 y2 y3 y4 y5 y6 y7].
    destruct (decide (first l2 None = Some m)), (decide (final l1 None = Some m)), (decide (m ∈ n_arcs x)), (decide (m = n));
      cbn; unfold set_arcs, set_next, set_prevp, set_refcnt; cbn; by rewrite ?Z.sub_0_r.
Qed.
