(* ===== verification/TsortCycle.v ===== *)
(** * tsort: the search for a cycle

    [find_cycle] goes down the arcs; the nodes on its way are marked, and a node from which it did not come to [to] is
    flagged NF_NODEST, also when a marked node was in the way.  [reach] says what that flag means: there is no way to
    [to] that avoids the nodes marked at the moment ([dfs_dest]).  When the mark of a node is taken away this stays true
    as long as nothing was found ([reach_split]); so a result of zero is the absence of a cycle. *)

From Stdlib Require Import ZArith Lia List Bool.
From stdpp Require Import base tactics list numbers gmap.
From S2P Require Import Prelude Tsort TsortFacts.

Local Open Scope Z_scope.

(** ** Flags *)

Definition strip (x : node) : node := set_flags 0 x.

(** Two states that differ in flags, arrays and what is printed. *)
Record same_graph (s s' : tsort_state) : Prop := {
  sg_nodes : strip <$> nodes s' = strip <$> nodes s;
  sg_db : db s' = db s;
  sg_graph : graph s' = graph s
}.

#[export] Instance same_graph_preorder : PreOrder same_graph.
Proof.
  split; [by split|]. intros s1 s2 s3 [H1 D1 G1] [H2 D2 G2]. split; congruence.
Qed.

Lemma sg_lookup s s' n : same_graph s s' -> strip <$> nodes s' !! n = strip <$> nodes s !! n.
Proof. intros [H _ _]. rewrite <- !list_lookup_fmap. by rewrite H. Qed.

Lemma sg_length s s' : same_graph s s' -> length (nodes s') = length (nodes s).
Proof. intros [H _ _]. apply (f_equal length) in H. by rewrite !length_fmap in H. Qed.

Lemma sg_view {A} (v : node -> A) d s s' n :
  (forall x, v (strip x) = v x) -> same_graph s s' -> from_option v d (nodes s' !! n) = from_option v d (nodes s !! n).
Proof.
  intros Hv H%(sg_lookup s s' n). destruct (nodes s' !! n) as [x|], (nodes s !! n) as [y|]; try done. cbn in *.
  apply (inj Some) in H. by rewrite <- (Hv x), <- (Hv y), H.
Qed.

Lemma sg_arcs s s' n : same_graph s s' -> arcs_of s' n = arcs_of s n.
Proof. by apply sg_view. Qed.
Lemma sg_ref s s' n : same_graph s s' -> ref_of s' n = ref_of s n.
Proof. by apply sg_view. Qed.
Lemma sg_name s s' n : same_graph s s' -> name_of s' n = name_of s n.
Proof. by apply sg_view. Qed.

Lemma sg_chain s s' prev g l : same_graph s s' -> chain (nodes s) prev g l -> chain (nodes s') prev g l.
Proof.
  intros H. apply chain_links. intros n x _ Hx. pose proof (sg_lookup _ _ n H) as E. rewrite Hx in E.
  destruct (nodes s' !! n) as [y|]; [|done]. cbn in E. injection E as E1 E2 _ _ _ _. exists y. by split.
Qed.

(** The parts of the state that no flag is in. *)
Definition same_rest (s s' : tsort_state) : Prop :=
  cycle_buf s' = cycle_buf s /\ longest_cycle s' = longest_cycle s /\ printed s' = printed s.

Lemma flags_change s n f x :
  nodes s !! n = Some x ->
  same_graph s (set_nodes (<[n := set_flags f x]> (nodes s)) s) /\
  forall m, flags_of (set_nodes (<[n := set_flags f x]> (nodes s)) s) m = if decide (m = n) then f else flags_of s m.
Proof.
  intros Hx. split.
  - split; [|done|done]. cbn. apply list_eq. intros m. rewrite !list_lookup_fmap.
    destruct (decide (m = n)) as [->|Hne].
    + rewrite list_lookup_insert_eq by (by eapply lookup_lt_Some). by rewrite Hx.
    + by rewrite list_lookup_insert_ne by done.
  - intros m. unfold flags_of. cbn. by rewrite (view_upd n_flags 0 n (set_flags f) s x m Hx).
Qed.

Lemma set_flag_spec n k s :
  (n < length (nodes s))%nat -> 0 <= k ->
  exists s', set_flag n (2 ^ k) s = (Ok tt, s') /\ same_graph s s' /\ same_rest s s' /\
    forall m j, 0 <= j -> Z.testbit (flags_of s' m) j = Z.testbit (flags_of s m) j || (bool_decide (m = n) && (j =? k)).
Proof.
  intros Hn Hk. apply node_lookup in Hn as (x & Hx). unfold set_flag. rewrite (run_bind_ok _ _ _ _ _ (run_node_at n s x Hx)).
  rewrite (run_upd n _ s x Hx). destruct (flags_change s n (Z.lor (n_flags x) (2 ^ k)) x Hx) as [Hsg Hfl].
  eexists. split; [done|]. split; [done|]. split; [done|]. intros m j Hj. rewrite Hfl.
  destruct (decide (m = n)) as [->|Hne]; [|by rewrite (bool_decide_eq_false_2 (m = n)), orb_false_r].
  rewrite bool_decide_eq_true_2 by done. rewrite Z.lor_spec, Z.pow2_bits_eqb by done. unfold flags_of. rewrite Hx. cbn.
  by rewrite Z.eqb_sym.
Qed.

Lemma clear_flag_spec n k s :
  (n < length (nodes s))%nat -> 0 <= k ->
  exists s', clear_flag n (2 ^ k) s = (Ok tt, s') /\ same_graph s s' /\ same_rest s s' /\
    forall m j, 0 <= j -> Z.testbit (flags_of s' m) j = Z.testbit (flags_of s m) j && negb (bool_decide (m = n) && (j =? k)).
Proof.
  intros Hn Hk. apply node_lookup in Hn as (x & Hx). unfold clear_flag. rewrite (run_bind_ok _ _ _ _ _ (run_node_at n s x Hx)).
  rewrite (run_upd n _ s x Hx). destruct (flags_change s n (Z.land (n_flags x) (Z.lnot (2 ^ k))) x Hx) as [Hsg Hfl].
  eexists. split; [done|]. split; [done|]. split; [done|]. intros m j Hj. rewrite Hfl.
  destruct (decide (m = n)) as [->|Hne]; [|by rewrite (bool_decide_eq_false_2 (m = n)), andb_true_r].
  rewrite bool_decide_eq_true_2 by done. rewrite Z.land_spec, Z.lnot_spec, Z.pow2_bits_eqb by done. unfold flags_of. rewrite Hx. cbn.
  by rewrite Z.eqb_sym.
Qed.

(** A test of several bits. *)
Lemma land_seven f : (Z.land f 7 =? 0) = negb (Z.testbit f 0 || Z.testbit f 1 || Z.testbit f 2).
Proof.
  destruct (Z.eqb_spec (Z.land f 7) 0) as [E|E].
  - symmetry. apply negb_true_iff. rewrite !orb_false_iff.
    assert (forall j, Z.testbit 7 j = true -> Z.testbit f j = false) as H.
    { intros j Hj. pose proof (Z.land_spec f 7 j) as Hs. rewrite E, Z.bits_0, Hj, andb_true_r in Hs. done. }
    split_and!; by apply H.
  - symmetry. apply negb_false_iff. apply not_false_iff_true. rewrite !orb_false_iff. intros [[H0 H1] H2]. apply E.
    apply Z.bits_inj'. intros j Hj. rewrite Z.land_spec, Z.bits_0. change 7 with (Z.ones 3).
    destruct (Z.lt_ge_cases j 3) as [Hlt|Hge].
    + assert (j = 0 \/ j = 1 \/ j = 2) as [->|[->| ->]] by lia; by rewrite ?H0, ?H1, ?H2.
    + rewrite Z.ones_spec_high by lia. apply andb_false_r.
Qed.

Lemma land_two f : (Z.land f 2 =? 0) = negb (Z.testbit f 1).
Proof.
  destruct (Z.eqb_spec (Z.land f 2) 0) as [E|E].
  - pose proof (Z.land_spec f 2 1) as Hs. rewrite E, Z.bits_0 in Hs. change (Z.testbit 2 1) with true in Hs.
    rewrite andb_true_r in Hs. by rewrite <- Hs.
  - destruct (Z.testbit f 1) eqn:H1; [done|]. destruct E. apply Z.bits_inj'. intros j Hj. rewrite Z.land_spec, Z.bits_0.
    change 2 with (2 ^ 1). rewrite Z.pow2_bits_eqb by lia. destruct (Z.eqb_spec 1 j) as [<-|]; [by rewrite H1|apply andb_false_r].
Qed.

Lemma flagged_any s n x :
  nodes s !! n = Some x ->
  flagged x (Z.lor NF_MARK (Z.lor NF_ACYCLIC NF_NODEST)) = marked s n || acyclic s n || nodest s n /\
  flagged x (Z.lor NF_NODEST (Z.lor NF_MARK NF_ACYCLIC)) = marked s n || acyclic s n || nodest s n /\
  flagged x NF_ACYCLIC = acyclic s n.
Proof.
  intros Hx. unfold flagged, marked, acyclic, nodest, flags_of. rewrite Hx. cbn [from_option].
  change (Z.lor NF_MARK (Z.lor NF_ACYCLIC NF_NODEST)) with 7. change (Z.lor NF_NODEST (Z.lor NF_MARK NF_ACYCLIC)) with 7.
  change NF_ACYCLIC with 2. by rewrite land_seven, land_two, !negb_involutive.
Qed.

(** ** Ways through the graph *)

(** Successive nodes from [u] on, up to [v]. *)
Fixpoint walk (a : nat -> list nat) (u : nat) (c : list nat) (v : nat) : Prop :=
  match c with [] => u = v | w :: c => w ∈ a u /\ walk a w c v end.

Lemma walk_app a u c1 w c2 v : walk a u c1 w -> walk a w c2 v -> walk a u (c1 ++ c2) v.
Proof. revert u. induction c1 as [|x c1 IH]; intros u; cbn; [by intros ->|]. intros [Hx H1] H2. eauto. Qed.

(** A cycle, as it is shown: the last node is where it starts. *)
Definition cycle (a : nat -> list nat) (n : nat) (c : list nat) : Prop := c <> [] /\ NoDup c /\ walk a n c n.

(** What is not for the user. *)
Definition visible (e : event) : bool := match e with Debug _ _ _ _ => false | _ => true end.
Definition shown (s : tsort_state) : list event := List.filter visible (printed s).

Section Search.
Context (o : tsort_opts) (a : nat -> list nat) (to : nat) (ac : nat -> bool).

(** A way from [v] to [to] that avoids [X]. *)
Inductive reach (X : nat -> Prop) : nat -> Prop :=
  | reach_to v : ~ X v -> to ∈ a v -> reach X v
  | reach_on v w : ~ X v -> w ∈ a v -> reach X w -> reach X v.

Lemma reach_mono (X X' : nat -> Prop) v : (forall u, X u -> X' u) -> reach X' v -> reach X v.
Proof. intros H. induction 1; [eapply reach_to|eapply reach_on]; eauto. Qed.

Lemma reach_free X v : reach X v -> ~ X v.
Proof. by destruct 1. Qed.

(** A way avoids [u], or goes on from [u] without coming back to it. *)
Lemma reach_split (X : nat -> Prop) u v :
  reach X v -> reach (fun w => X w \/ w = u) v \/ exists w, w ∈ a u /\ (w = to \/ reach (fun w => X w \/ w = u) w).
Proof.
  induction 1 as [v Hv Hto|v w Hv Hw _ [IH|IH]]; [| |by right].
  - destruct (decide (v = u)) as [->|Hne]; [right; exists to; by split; [|left]|]. left. apply reach_to; [|done]. by intros [|].
  - destruct (decide (v = u)) as [->|Hne]; [right; exists w; split; [done|by right]|]. left. eapply reach_on; [|done|done]. by intros [|].
Qed.

(** The nodes on the way and those known to be on no cycle. *)
Definition avoid (p : list nat) (v : nat) : Prop := v ∈ p \/ ac v = true.

Lemma avoid_snoc p u v : avoid (p ++ [u]) v <-> avoid p v \/ v = u.
Proof. unfold avoid. rewrite elem_of_app, list_elem_of_singleton. tauto. Qed.

(** ** The state of the search *)

Context (R : list nat) (N : nat).
Hypothesis (HRlen : (length R <= N)%nat) (Hclosed : forall u v, u ∈ R -> v ∈ a u -> v ∈ R).

(** [longest_cycle] holds a cycle of [len] nodes. *)
Definition found (lc : list (option nat)) (len : Z) : Prop :=
  0 < len -> exists c, cycle a to c /\ Z.of_nat (length c) = len /\ take (length c) lc = map Some c.

(** [p] are the marked nodes, [q] is what [cycle_buf] holds, [ll] is [longest_len]. *)
Record dfs (s : tsort_state) (p q : list nat) (ll : Z) : Prop := {
  dfs_arcs : forall n, arcs_of s n = a n;
  dfs_in : forall n, n ∈ R -> (n < length (nodes s))%nat;
  dfs_marks : forall n, marked s n = true <-> n ∈ p;
  dfs_acyclic : forall n, acyclic s n = ac n;
  dfs_len : 0 <= ll;
  dfs_bufs : exists b lc, cycle_buf s = Some b /\ longest_cycle s = Some lc /\ length b = N /\ length lc = N /\
    take (length q) b = map Some q /\ found lc ll;
  dfs_dest : ll = 0 -> forall n, nodest s n = true -> ~ reach (avoid p) n
}.

(** What a part of the search leaves behind. *)
Record step_to (s s' : tsort_state) (ll : Z) (p q : list nat) (r : Z) : Prop := {
  st_graph : same_graph s s';
  st_shown : shown s' = shown s;
  st_dfs : dfs s' p q r;
  st_len : ll <= r
}.

Lemma put_cycle_spec s p q ll n :
  dfs s p q ll -> (length q < N)%nat ->
  exists s', put_cycle (Z.of_nat (length q)) n s = (Ok tt, s') /\ same_graph s s' /\ shown s' = shown s /\ dfs s' p (q ++ [n]) ll /\
    forall m, flags_of s' m = flags_of s m.
Proof.
  intros [H1 H2 H3 H4 H5 (b & lc & Eb & El & Lb & Ll & Hq & Hf) H7] Hlt. unfold put_cycle. cbv [mbind M_bind get]. rewrite Eb.
  destruct (Z.ltb_spec (Z.of_nat (length q)) (Z.of_nat (length b))); [|lia]. eexists. split; [done|]. split; [done|]. split; [done|].
  split; [|done]. split; try done. exists (<[Z.to_nat (Z.of_nat (length q)) := Some n]> b), lc. split; [done|]. split; [done|].
  split; [by rewrite length_insert|]. split; [done|]. split; [|done].
  rewrite Nat2Z.id, length_app, map_app. cbn [length map]. rewrite Nat.add_1_r.
  rewrite (take_S_r _ _ (Some n)) by (apply list_lookup_insert_eq; lia). rewrite take_insert_ge by lia. by rewrite Hq.
Qed.

Lemma copy_cycle_spec s p q ll :
  dfs s p q ll -> (length q <= N)%nat -> ll < Z.of_nat (length q) -> cycle a to q ->
  exists s', copy_cycle (Z.of_nat (length q)) s = (Ok tt, s') /\ same_graph s s' /\ shown s' = shown s /\ dfs s' p q (Z.of_nat (length q)) /\
    forall m, flags_of s' m = flags_of s m.
Proof.
  intros [H1 H2 H3 H4 H5 (b & lc & Eb & El & Lb & Ll & Hq & Hf) H7] Hle Hlt Hc. unfold copy_cycle. cbv [mbind M_bind get]. rewrite Eb, El.
  destruct (Z.leb_spec (Z.of_nat (length q)) (Z.of_nat (length b))); [|lia].
  destruct (Z.leb_spec (Z.of_nat (length q)) (Z.of_nat (length lc))); [|lia]. eexists. split; [done|]. split; [done|]. split; [done|].
  split; [|done]. split; try done; [lia| |intros E; lia].
  rewrite Nat2Z.id, Hq. eexists b, _. split; [done|]. split; [done|]. split; [done|].
  split; [rewrite length_app, length_map, length_drop; lia|]. split; [done|].
  intros _. exists q. split; [done|]. split; [done|]. rewrite take_app_length'; [done|]. by rewrite length_map.
Qed.

(** A shorter part of the buffer. *)
Lemma dfs_shorter s p q r ll : dfs s p (q ++ r) ll -> dfs s p q ll.
Proof.
  intros [H1 H2 H3 H4 H5 (b & lc & Eb & El & Lb & Ll & Hq & Hf) H7]. split; try done. exists b, lc. split_and!; try done.
  apply (f_equal (take (length q))) in Hq. rewrite take_take, length_app, Nat.min_l in Hq by lia. rewrite Hq, map_app.
  rewrite take_app_length'; [done|]. by rewrite length_map.
Qed.

(** Longer is not shown. *)
Lemma dfs_debug s p q ll d f t len :
  dfs s p q ll -> exists s', (mwhen (debug o) (modify (emit (Debug d f t len))) : T unit) s = (Ok tt, s') /\ same_graph s s' /\
    shown s' = shown s /\ dfs s' p q ll /\ forall m, flags_of s' m = flags_of s m.
Proof.
  intros [H1 H2 H3 H4 H5 H6 H7]. destruct (debug o); cbn [mwhen].
  - eexists. split; [done|]. split; [done|]. split; [|split; done]. unfold shown. cbn. rewrite List.filter_app. cbn. by rewrite app_nil_r.
  - exists s. done.
Qed.

(** Flags change and the rest stays. *)
Lemma dfs_flags s s' p p' q ll :
  dfs s p q ll -> same_graph s s' -> same_rest s s' -> (forall n, marked s' n = true <-> n ∈ p') -> (forall n, acyclic s' n = acyclic s n) ->
  (ll = 0 -> forall n, nodest s' n = true -> ~ reach (avoid p') n) -> dfs s' p' q ll.
Proof.
  intros [H1 H2 H3 H4 H5 (b & lc & Eb & El & H6) H7] Hsg (Rb & Rl & _) Hm Ha Hd. split; try done.
  - intros n. by rewrite (sg_arcs s s').
  - intros n Hn. rewrite (sg_length s s') by done. by apply H2.
  - intros n. by rewrite Ha.
  - exists b, lc. rewrite Rb, Rl. split_and!; try done; apply H6.
Qed.

Lemma same_shown s s' : same_rest s s' -> shown s' = shown s.
Proof. intros (_ & _ & E). unfold shown. by rewrite E. Qed.

(** [find_cycle], called with [p] marked and [q] in the buffer. *)
Definition finds (p q : list nat) (from : nat) (ll : Z) (m : T Z) (s : tsort_state) : Prop :=
  exists r s', m s = (Ok r, s') /\ step_to s s' ll p q r /\ (r = 0 -> ~ reach (avoid p) from).

Lemma step_refl s p q ll : dfs s p q ll -> step_to s s ll p q ll.
Proof. intros H. by split. Qed.

Lemma step_trans s1 s2 s3 ll r p' q' r' :
  same_graph s1 s2 -> shown s2 = shown s1 -> ll <= r -> step_to s2 s3 r p' q' r' -> step_to s1 s3 ll p' q' r'.
Proof. intros Hg Hs Hl [G S D L]. split; [by etransitivity|congruence|done|lia]. Qed.

Lemma arcs_loop_spec (rec : nat -> Z -> T Z) from q : forall arcs s ll,
  (forall np ll s, np ∈ a from -> np ∈ R -> np ∉ to :: q -> ac np = false -> nodest s np = false -> dfs s (to :: q) (q ++ [np]) ll ->
     finds (to :: q) (q ++ [np]) np ll (rec np ll) s) ->
  dfs s (to :: q) q ll -> (length q < N)%nat -> NoDup (to :: q) -> walk a to q from -> from ∈ R -> to ∈ R ->
  (forall v, v ∈ arcs -> v ∈ a from) ->
  exists r s', arcs_loop o rec from to (Z.of_nat (length q)) arcs ll s = (Ok r, s') /\ step_to s s' ll (to :: q) q r /\
    (r = 0 -> forall np, np ∈ arcs -> np <> to /\ ~ reach (avoid (to :: q)) np).
Proof.
  induction arcs as [|np arcs IH]; intros s ll Hrec Hd Hq Hnd Hw Hfr Hto Harcs; cbn [arcs_loop].
  { exists ll, s. split; [done|]. split; [by apply step_refl|]. intros _ np Hnp. by apply not_elem_of_nil in Hnp. }
  assert (np ∈ a from) as Hnp by (apply Harcs; by left). pose proof (Hclosed _ _ Hfr Hnp) as HnpR.
  destruct (put_cycle_spec s _ q ll np Hd Hq) as (s1 & E1 & G1 & S1 & D1 & F1). rewrite (run_bind_ok _ _ _ _ _ E1). clear E1.
  (* the rest of the arcs, once the state is s2 and the longest cycle has r nodes *)
  assert (forall s2 r, same_graph s s2 -> shown s2 = shown s -> ll <= r -> dfs s2 (to :: q) (q ++ [np]) r ->
    (r = 0 -> np <> to /\ ~ reach (avoid (to :: q)) np) ->
    exists r' s', arcs_loop o rec from to (Z.of_nat (length q)) arcs r s2 = (Ok r', s') /\ step_to s s' ll (to :: q) q r' /\
      (r' = 0 -> forall x, x ∈ np :: arcs -> x <> to /\ ~ reach (avoid (to :: q)) x)) as Hgo.
  { intros s2 r G2 S2 L2 D2 H2. apply dfs_shorter in D2.
    destruct (IH s2 r Hrec D2 Hq Hnd Hw Hfr Hto) as (r' & s' & E & Hst & Hr'); [intros v Hv; apply Harcs; by right|].
    exists r', s'. split; [done|]. split; [by eapply step_trans|]. intros Hz x [->|Hx]%elem_of_cons; [|by apply Hr'].
    apply H2. pose proof (st_len _ _ _ _ _ _ Hst). pose proof (dfs_len _ _ _ _ D2). lia. }
  destruct (bool_decide (np = to)) eqn:Eto.
  { apply bool_decide_eq_true in Eto as ->. destruct (Z.ltb_spec ll (Z.of_nat (length q) + 1)) as [Hlt|Hge].
    - replace (Z.of_nat (length q) + 1) with (Z.of_nat (length (q ++ [to]))) by (rewrite length_app; cbn; lia).
      assert (cycle a to (q ++ [to])) as Hc.
      { split; [by destruct q|]. split.
        - apply NoDup_cons in Hnd as [Hto' Hnd]. apply NoDup_app. split; [done|]. split; [|apply NoDup_singleton].
          intros x Hx Hx'. apply list_elem_of_singleton in Hx' as ->. done.
        - eapply walk_app; [done|]. by split. }
      destruct (copy_cycle_spec s1 _ (q ++ [to]) ll D1) as (s2 & E2 & G2 & S2 & D2 & _);
        [rewrite length_app; cbn; lia|rewrite length_app; cbn; lia|done|]. rewrite (run_bind_ok _ _ _ _ _ E2).
      apply Hgo; [by etransitivity|congruence|rewrite length_app; cbn; lia|done|rewrite length_app; cbn; lia].
    - apply Hgo; [done|done|lia|done|]. intros Hz. lia. }
  apply bool_decide_eq_false in Eto.
  destruct (node_lookup s1 np) as (x & Hx); [by apply (dfs_in _ _ _ _ D1)|]. rewrite (run_bind_ok _ _ _ _ _ (run_node_at np s1 x Hx)).
  destruct (flagged_any s1 np x Hx) as (-> & _ & _). destruct (marked s1 np || acyclic s1 np || nodest s1 np) eqn:Efl.
  { apply Hgo; [done|done|lia|done|]. intros Hz. split; [done|]. intros Hr.
    apply orb_true_iff in Efl as [Efl|Efl]; [apply orb_true_iff in Efl as [Efl|Efl]|].
    - apply (dfs_marks _ _ _ _ D1) in Efl. apply reach_free in Hr. apply Hr. by left.
    - rewrite (dfs_acyclic _ _ _ _ D1) in Efl. apply reach_free in Hr. apply Hr. by right.
    - by apply (dfs_dest _ _ _ _ D1 Hz np Efl). }
  apply orb_false_iff in Efl as [Efl En]. apply orb_false_iff in Efl as [Em Ea].
  destruct (Hrec np ll s1 Hnp HnpR) as (r & s2 & E2 & [G2 S2 D2 L2] & Hr);
    [intros Hin; apply (dfs_marks _ _ _ _ D1) in Hin; congruence|by rewrite <- (dfs_acyclic _ _ _ _ D1)|done|done|].
  rewrite (run_bind_ok _ _ _ _ _ E2).
  destruct (node_lookup s2 from) as (f & Hf); [by apply (dfs_in _ _ _ _ D2)|]. rewrite (run_bind_ok _ _ _ _ _ (run_node_at from s2 f Hf)).
  destruct (node_lookup s2 to) as (t & Ht); [by apply (dfs_in _ _ _ _ D2)|]. rewrite (run_bind_ok _ _ _ _ _ (run_node_at to s2 t Ht)).
  destruct (dfs_debug s2 _ _ _ (Z.of_nat (length q)) (n_name f) (n_name t) r D2) as (s3 & E3 & G3 & S3 & D3 & _).
  rewrite (run_bind_ok _ _ _ _ _ E3).
  assert (exists s4, mwhen (r =? 0) (set_flag np NF_NODEST) s3 = (Ok tt, s4) /\ same_graph s3 s4 /\ shown s4 = shown s3 /\
    dfs s4 (to :: q) (q ++ [np]) r) as (s4 & E4 & G4 & S4 & D4).
  { destruct (Z.eqb_spec r 0) as [Hz|Hz]; cbn [mwhen]; [|exists s3; split_and!; done].
    destruct (set_flag_spec np 2 s3) as (s4 & E4 & G4 & R4 & B4); [by apply (dfs_in _ _ _ _ D3)|lia|].
    exists s4. split; [exact E4|]. split; [done|]. split; [by apply same_shown|].
    eapply dfs_flags; [exact D3|done|done| | |].
    - intros n. unfold marked. rewrite B4, andb_false_r, orb_false_r by lia. apply (dfs_marks _ _ _ _ D3).
    - intros n. unfold acyclic. by rewrite B4, andb_false_r, orb_false_r by lia.
    - intros _ n. unfold nodest. rewrite B4 by lia. cbn. rewrite andb_true_r, orb_true_iff, bool_decide_eq_true.
      intros [H| ->]; [by apply (dfs_dest _ _ _ _ D3 Hz n H)|by apply Hr]. }
  rewrite (run_bind_ok _ _ _ _ _ E4). cbv zeta. assert ((if ll <? r then r else ll) = r) as -> by (destruct (Z.ltb_spec ll r); lia).
  assert (same_graph s s4) as G by (by repeat (etransitivity; [eassumption|])). assert (shown s4 = shown s) as S by congruence.
  destruct ((0 <? r) && negb (longest o)) eqn:Eb; [|apply Hgo; [done|done|lia|done|]; intros Hz; split; [done|by apply Hr]].
  exists r, s4. split; [done|]. split; [split; [done|done|by eapply dfs_shorter|lia]|].
  intros ->. by rewrite andb_comm, andb_false_r in Eb.
Qed.

Lemma find_cycle_spec fuel : forall p q from ll s,
  p ++ [from] = to :: q -> NoDup (to :: q) -> (forall v, v ∈ to :: q -> v ∈ R) -> walk a to q from ->
  ac from = false -> nodest s from = false -> dfs s p q ll -> (length R < fuel + length p)%nat ->
  finds p q from ll (find_cycle o fuel from to ll (Z.of_nat (length q))) s.
Proof.
  induction fuel as [|fuel IH]; intros p q from ll s Hp Hnd HR Hw Hac Hnf Hd Hfuel.
  - exfalso. assert (length (to :: q) <= length R)%nat as Hle.
    { apply NoDup_incl_length; [by apply NoDup_ListNoDup|]. intros v Hv. apply list_elem_of_In, HR, list_elem_of_In, Hv. }
    rewrite <- Hp, length_app in Hle. cbn in Hle. lia.
  - assert (length (to :: q) <= length R)%nat as Hle.
    { apply NoDup_incl_length; [by apply NoDup_ListNoDup|]. intros v Hv. apply list_elem_of_In, HR, list_elem_of_In, Hv. }
    assert (from ∈ to :: q) as Hfr by (rewrite <- Hp; apply elem_of_app; right; by left).
    assert (from ∉ p) as Hnp.
    { intros H. rewrite <- Hp in Hnd. apply NoDup_app in Hnd as (_ & Hdis & _). apply (Hdis from H). by left. }
    unfold finds. cbn [find_cycle]. destruct (node_lookup s from) as (x & Hx); [by apply (dfs_in _ _ _ _ Hd), HR|].
    rewrite (run_bind_ok _ _ _ _ _ (run_node_at from s x Hx)). destruct (flagged_any s from x Hx) as (_ & -> & _).
    rewrite (dfs_acyclic _ _ _ _ Hd), Hac, Hnf. destruct (marked s from) eqn:Em; [by apply (dfs_marks _ _ _ _ Hd) in Em|]. cbn [orb].
    destruct (set_flag_spec from 0 s) as (s1 & E1 & G1 & R1 & B1); [by apply (dfs_in _ _ _ _ Hd), HR|lia|].
    rewrite (run_bind_ok _ _ _ _ _ (E1 : set_flag from NF_MARK s = _)). clear E1.
    assert (dfs s1 (to :: q) q ll) as D1.
    { eapply dfs_flags; [exact Hd|done|done| | |].
      - intros n. unfold marked. rewrite B1, andb_true_r, orb_true_iff, bool_decide_eq_true by lia. fold (marked s n).
        rewrite (dfs_marks _ _ _ _ Hd), <- Hp, elem_of_app, list_elem_of_singleton. done.
      - intros n. unfold acyclic. by rewrite B1, andb_false_r, orb_false_r by lia.
      - intros Hz n. unfold nodest. rewrite B1, andb_false_r, orb_false_r by lia. intros Hn Hr.
        apply (dfs_dest _ _ _ _ Hd Hz n Hn). eapply reach_mono; [|exact Hr]. intros u Hu. rewrite <- Hp. apply avoid_snoc. by left. }
    assert (n_arcs x = a from) as Earcs.
    { rewrite <- (dfs_arcs _ _ _ _ Hd from). unfold arcs_of. by rewrite Hx. }
    rewrite Earcs.
    destruct (arcs_loop_spec (fun np l => find_cycle o fuel np to l (Z.of_nat (length q) + 1)) from q (a from) s1 ll)
      as (r & s2 & E2 & [G2 S2 D2 L2] & Hr); [|done|cbn in Hle; lia|done|done|by apply HR|apply HR; by left|done|].
    { intros np l s' Hna HnpR Hnq Hacn Hnn Hd'. replace (Z.of_nat (length q) + 1) with (Z.of_nat (length (q ++ [np]))) by (rewrite length_app; cbn; lia).
      apply IH; try done.
      - change (NoDup ((to :: q) ++ [np])). apply NoDup_app. split; [done|]. split; [|apply NoDup_singleton].
        intros y Hy Hy'. apply list_elem_of_singleton in Hy' as ->. done.
      - intros v Hv. change (v ∈ (to :: q) ++ [np]) in Hv. apply elem_of_app in Hv as [Hv|Hv]; [by apply HR|].
        apply list_elem_of_singleton in Hv as ->. done.
      - eapply walk_app; [done|]. by split.
      - rewrite <- Hp, length_app. cbn. lia. }
    rewrite (run_bind_ok _ _ _ _ _ E2).
    destruct (clear_flag_spec from 0 s2) as (s3 & E3 & G3 & R3 & B3); [by apply (dfs_in _ _ _ _ D2), HR|lia|].
    rewrite (run_bind_ok _ _ _ _ _ (E3 : clear_flag from NF_MARK s2 = _)). exists r, s3. split; [done|].
    assert (r = 0 -> forall v, (v = from \/ ~ reach (avoid (to :: q)) v) -> ~ reach (avoid p) v) as Hback.
    { intros Hz v Hv Hreach.
      assert (forall w, reach (fun w => avoid p w \/ w = from) w -> reach (avoid (to :: q)) w) as Hmono.
      { intros w. apply reach_mono. intros u. rewrite <- Hp. apply avoid_snoc. }
      destruct (reach_split _ from v Hreach) as [H|(w & Hw' & H)].
      - destruct Hv as [->|Hv]; [apply reach_free in H; apply H; by right|by apply Hv, Hmono].
      - destruct (Hr Hz w Hw') as [H1 H2]. destruct H as [->|H]; [done|by apply H2, Hmono]. }
    split; [|intros Hz; apply Hback; [done|by left]]. split; [by repeat (etransitivity; [eassumption|])| | |done].
    { rewrite (same_shown _ _ R3), S2. by apply same_shown. }
    eapply dfs_flags; [exact D2|done|done| | |].
    + intros n. unfold marked. rewrite B3 by lia. rewrite andb_true_r, andb_true_iff, negb_true_iff, bool_decide_eq_false. fold (marked s2 n).
      rewrite (dfs_marks _ _ _ _ D2), <- Hp, elem_of_app, list_elem_of_singleton. split; [tauto|].
      intros Hn. split; [by left|]. by intros ->.
    + intros n. unfold acyclic. by rewrite B3, andb_false_r, andb_true_r by lia.
    + intros Hz n. unfold nodest. rewrite B3, andb_false_r, andb_true_r by lia. intros Hn. apply Hback; [done|]. right.
      by apply (dfs_dest _ _ _ _ D2 Hz).
Qed.

End Search.
