(* ===== verification/TsortSort.v ===== *)
(** * tsort: what is printed

    [takes] is the abstract sort, on the nodes that are left: a node that no other one points to is printed and taken away, and
    when there is none a node of a cycle, with a warning.  [Graph] is the invariant, and the theorems
    say that the program makes such steps until no node is left. *)

From Stdlib Require Import ZArith Lia List Bool.
From stdpp Require Import base tactics list numbers gmap.
From S2P Require Import Prelude Tsort TsortFacts TsortCycle.

Local Open Scope Z_scope.

Lemma elem_middle (l1 l2 : list nat) n m : m ∈ l1 ++ n :: l2 <-> m = n \/ m ∈ l1 ++ l2.
Proof. rewrite !elem_of_app, elem_of_cons. tauto. Qed.

Lemma nodup_middle (l1 l2 : list nat) n : NoDup (l1 ++ n :: l2) -> n ∉ l1 ++ l2 /\ NoDup (l1 ++ l2).
Proof.
  intros H. rewrite (Permutation_app_comm l1 (n :: l2)) in H. cbn in H. apply NoDup_cons in H as [H1 H2].
  rewrite (Permutation_app_comm l1 l2). split; done.
Qed.

Section Sorting.
Context (o : tsort_opts) (A : nat -> list nat) (Nm : nat -> list Z) (K : nat).
Hypothesis (HA : forall n, NoDup (A n)) (HK : forall n v, v ∈ A n -> (v < K)%nat).

(** The arcs that are left. *)
Definition left_arcs (l : list nat) (n : nat) : list nat := if decide (n ∈ l) then A n else [].
Definition on_cycle (l : list nat) (n : nat) : Prop := exists c, c <> [] /\ walk (left_arcs l) n c n.
(** How many nodes point to [n]. *)
Definition indegree (f : nat -> list nat) (l : list nat) (n : nat) : nat := length (List.filter (fun u => bool_decide (n ∈ f u)) l).

(** The abstract sort. *)
Inductive takes : list nat -> list event -> list nat -> Prop :=
  | takes_free l1 n l2 :
      (forall u, u ∈ l1 ++ n :: l2 -> n ∉ A u) ->
      takes (l1 ++ n :: l2) [Line (Nm n)] (l1 ++ l2)
  | takes_broken l1 n l2 c :
      (forall m, m ∈ l1 ++ n :: l2 -> exists u, u ∈ l1 ++ n :: l2 /\ m ∈ A u) ->
      cycle (left_arcs (l1 ++ n :: l2)) n c ->
      takes (l1 ++ n :: l2) ((if quiet o then [] else CycleInData :: map (fun m => InCycle (Nm m)) c) ++ [Line (Nm n)]) (l1 ++ l2).
Inductive take_all : list nat -> list event -> list nat -> Prop :=
  | take_none l : take_all l [] l
  | take_more l evs l' evs' l'' : takes l evs l' -> take_all l' evs' l'' -> take_all l (evs ++ evs') l''.

Lemma take_all_trans l evs l' evs' l'' : take_all l evs l' -> take_all l' evs' l'' -> take_all l (evs ++ evs') l''.
Proof. induction 1; [done|]. intros H2. rewrite <- app_assoc. econstructor; eauto. Qed.

(** ** Cycles *)

Lemma left_arcs_mono l l' n v : (forall m, m ∈ l -> m ∈ l') -> v ∈ left_arcs l n -> v ∈ left_arcs l' n.
Proof.
  intros H. unfold left_arcs. destruct (decide (n ∈ l)) as [Hn|]; [|intros Hv; by apply not_elem_of_nil in Hv].
  by rewrite decide_True by auto.
Qed.

Lemma walk_mono a b u c v : (forall x y, y ∈ a x -> y ∈ b x) -> walk a u c v -> walk b u c v.
Proof. intros H. revert u. induction c as [|w c IH]; intros u; cbn; [done|]. intros [H1 H2]. eauto. Qed.

Lemma on_cycle_mono l l' n : (forall m, m ∈ l -> m ∈ l') -> on_cycle l n -> on_cycle l' n.
Proof.
  intros H (c & Hc & Hw). exists c. split; [done|]. eapply walk_mono; [|exact Hw]. intros x y. by apply left_arcs_mono.
Qed.

Lemma walk_split a u c v w : walk a u c v -> w ∈ c -> exists c1 c2, c = c1 ++ c2 /\ c1 <> [] /\ walk a u c1 w /\ walk a w c2 v.
Proof.
  revert u. induction c as [|x c IH]; intros u Hw Hin; [by apply not_elem_of_nil in Hin|]. destruct Hw as [Hx Hw].
  apply elem_of_cons in Hin as [->|Hin].
  - exists [x], c. split_and!; done.
  - destruct (IH x Hw Hin) as (c1 & c2 & -> & _ & H1 & H2). exists (x :: c1), c2. split_and!; done.
Qed.

(** What is on a closed walk is on a cycle. *)
Lemma on_cycle_all l n c v : c <> [] -> walk (left_arcs l) n c n -> v ∈ c -> on_cycle l v.
Proof.
  intros Hc Hw Hv. destruct (walk_split _ _ _ _ _ Hw Hv) as (c1 & c2 & _ & Hne & H1 & H2). exists (c2 ++ c1).
  split; [|by eapply walk_app]. destruct c2; [|done]. by destruct c1.
Qed.

Lemma walk_reach a to ac u c :
  walk a u c to -> c <> [] -> ac u = false -> (forall v, v ∈ c -> ac v = false) -> reach a to (avoid ac []) u.
Proof.
  assert (forall x, ac x = false -> ~ avoid ac [] x) as Hav.
  { intros x Hx [H|H]; [by apply not_elem_of_nil in H|congruence]. }
  revert u. induction c as [|w c IH]; intros u Hw Hne Hu Hc; [done|]. destruct Hw as [Hw1 Hw2]. destruct c as [|x c].
  - cbn in Hw2. subst w. apply reach_to; [by apply Hav|done].
  - eapply reach_on; [by apply Hav|exact Hw1|]. apply IH; [done|done|apply Hc; by left|]. intros v Hv. apply Hc. by right.
Qed.

(** If every node has a predecessor there is a cycle. *)
Lemma back_walk l : (forall m, m ∈ l -> exists u, u ∈ l /\ m ∈ A u) -> l <> [] ->
  forall k, exists u c v, u ∈ l /\ (forall w, w ∈ c -> w ∈ l) /\ length c = k /\ walk (left_arcs l) u c v.
Proof.
  intros H Hl. induction k as [|k (u & c & v & Hu & Hc & Hk & Hw)].
  - destruct l as [|m l]; [done|]. exists m, [], m. split; [by left|]. split; [|done]. intros w Hw. by apply not_elem_of_nil in Hw.
  - destruct (H u Hu) as (u' & Hu' & Hin). exists u', (u :: c), v. split; [done|].
    split; [intros w [->|Hw']%elem_of_cons; [done|by apply Hc]|]. split; [cbn; lia|]. split; [|done].
    unfold left_arcs. by rewrite decide_True.
Qed.

Lemma walk_cut a u c1 v c2 w : walk a u (c1 ++ v :: c2) w -> walk a v c2 w.
Proof. revert u. induction c1 as [|x c1 IH]; intros u; cbn; [by intros [_ H]|]. intros [_ H]. eauto. Qed.

Lemma walk_last a u c1 v c2 w : walk a u (c1 ++ v :: c2) w -> walk a u (c1 ++ [v]) v.
Proof. revert u. induction c1 as [|x c1 IH]; intros u; cbn; intros [H1 H2]; [done|]. eauto. Qed.

Lemma cycle_exists l : (forall m, m ∈ l -> exists u, u ∈ l /\ m ∈ A u) -> l <> [] -> exists n, n ∈ l /\ on_cycle l n.
Proof.
  intros H Hl. destruct (back_walk l H Hl (S (length l))) as (u & c & v & Hu & Hc & Hk & Hw).
  destruct (decide (NoDup c)) as [Hnd|Hnd].
  - exfalso. assert (length c <= length l)%nat; [|lia]. apply NoDup_incl_length; [by apply NoDup_ListNoDup|].
    intros x Hx. apply list_elem_of_In, Hc, list_elem_of_In, Hx.
  - assert (exists x c1 c2 c3, c = c1 ++ x :: c2 ++ x :: c3) as (x & c1 & c2 & c3 & ->).
    { clear Hc Hk Hw. induction c as [|y c IH]; [destruct Hnd; constructor|]. destruct (decide (y ∈ c)) as [Hy|Hy].
      - apply list_elem_of_split in Hy as (c2 & c3 & ->). by exists y, [], c2, c3.
      - destruct IH as (x & c1 & c2 & c3 & ->); [intros Hc; apply Hnd; by constructor|]. by exists x, (y :: c1), c2, c3. }
    exists x. split; [apply Hc; apply elem_of_app; right; by left|]. exists (c2 ++ [x]). split; [by destruct c2|].
    apply walk_cut in Hw. by apply walk_last in Hw.
Qed.

(** ** The invariant *)

(** The arrays for cycles are as long as there are nodes that can be in one. *)
Definition room (s : tsort_state) (l : list nat) : Prop :=
  (cycle_buf s = None /\ forall u v, u ∈ l -> v ∈ A u -> v ∈ l) \/
  exists b lc R, cycle_buf s = Some b /\ longest_cycle s = Some lc /\ length lc = length b /\ (length R <= length b)%nat /\
    NoDup R /\ (forall n, n ∈ l -> n ∈ R) /\ (forall u v, u ∈ R -> v ∈ A u -> v ∈ R) /\ (forall n, n ∈ R -> (n < K)%nat).

Record Graph (s : tsort_state) (l : list nat) : Prop := {
  g_chain : chain (nodes s) None (graph s) l;
  g_nodup : NoDup l;
  g_len : length (nodes s) = K;
  g_arcs : forall n, arcs_of s n = left_arcs l n;
  g_ref : forall n, (n < K)%nat -> ref_of s n = Z.of_nat (indegree A l n);
  g_name : forall n, (n < K)%nat -> name_of s n = Nm n;
  g_marks : forall n, marked s n = false;
  g_acyclic : forall n, acyclic s n = true -> ~ on_cycle l n;
  g_room : room s l
}.
(** No node that is left has NF_NODEST. *)
Definition clear (s : tsort_state) (l : list nat) : Prop := forall n, n ∈ l -> nodest s n = false.

Lemma g_in s l n : Graph s l -> n ∈ l -> (n < K)%nat.
Proof. intros G Hn. rewrite <- (g_len _ _ G). by eapply chain_in; [apply (g_chain _ _ G)|]. Qed.

Lemma g_small s l : Graph s l -> (length l <= K)%nat.
Proof. intros G. rewrite <- (g_len _ _ G). eapply chain_bound; [apply (g_chain _ _ G)|apply (g_nodup _ _ G)]. Qed.

Lemma g_first s l : Graph s l -> graph s = first l None.
Proof. intros G. pose proof (g_chain _ _ G) as H. by destruct l; [|destruct H as (-> & _)]. Qed.

Lemma indegree_zero l n : indegree A l n = 0%nat <-> forall u, u ∈ l -> n ∉ A u.
Proof.
  unfold indegree. induction l as [|v l IH]; cbn.
  - split; [|done]. intros _ u Hu. by apply not_elem_of_nil in Hu.
  - destruct (bool_decide (n ∈ A v)) eqn:E; cbn.
    + split; [done|]. intros H. apply bool_decide_eq_true in E. by destruct (H v); [by left|].
    + apply bool_decide_eq_false in E. rewrite IH. split; [|auto using list_elem_of_further].
      intros H u [->|Hu]%elem_of_cons; [done|by apply H].
Qed.

Lemma ref_zero s l n : Graph s l -> n ∈ l -> (ref_of s n = 0 <-> forall u, u ∈ l -> n ∉ A u).
Proof. intros G Hn. rewrite (g_ref _ _ G) by (by eapply g_in). rewrite <- indegree_zero. lia. Qed.

Lemma ref_pos s l n : Graph s l -> n ∈ l -> ref_of s n <> 0 -> exists u, u ∈ l /\ n ∈ A u.
Proof.
  intros G Hn Hr. rewrite (g_ref _ _ G) in Hr by (by eapply g_in).
  assert (indegree A l n <> 0%nat) as Hi by lia. clear Hr. unfold indegree in Hi.
  destruct (List.filter _ l) as [|u f] eqn:E; [done|]. exists u.
  assert (In u (List.filter (fun u => bool_decide (n ∈ A u)) l)) as H by (rewrite E; by left).
  apply filter_In in H as [H1 H2]. split; [by apply list_elem_of_In|by apply bool_decide_eq_true in H2].
Qed.

(** A node is taken away. *)
Lemma remove_graph s l1 n l2 :
  Graph s (l1 ++ n :: l2) -> (cycle_buf s = None -> ref_of s n = 0) ->
  exists s', remove_node n s = (Ok tt, s') /\ Graph s' (l1 ++ l2) /\ shown s' = shown s ++ [Line (Nm n)] /\
    cycle_buf s' = cycle_buf s /\ forall m, flags_of s' m = flags_of s m.
Proof.
  intros G Hfree. assert (n ∈ l1 ++ n :: l2) as Hn by (apply elem_middle; by left). pose proof (g_in _ _ _ G Hn) as HnK.
  destruct (nodup_middle _ _ _ (g_nodup _ _ G)) as [Hnot Hnd].
  assert (arcs_of s n = A n) as Ha by (rewrite (g_arcs _ _ G); unfold left_arcs; by rewrite decide_True).
  destruct (remove_node_spec s l1 n l2 (g_nodup _ _ G) (g_chain _ _ G)) as (ns' & E & Hc & Hlen & Hns).
  { by rewrite Ha. }
  { intros v Hv. rewrite (g_len _ _ G). apply (HK n). by rewrite Ha in Hv. }
  eexists. split; [exact E|]. rewrite (g_name _ _ G n HnK).
  assert (forall m, (m < K)%nat -> exists x, nodes s !! m = Some x) as Hlk.
  { intros m Hm. apply node_lookup. by rewrite (g_len _ _ G). }
  assert (forall m, (K <= m)%nat -> nodes s !! m = None /\ ns' !! m = None) as Hout.
  { intros m Hm. split; apply lookup_ge_None_2; [rewrite (g_len _ _ G)|rewrite Hlen, (g_len _ _ G)]; lia. }
  set (s' := mkT ns' _ _ _ _ _).
  assert (forall m, flags_of s' m = flags_of s m) as Hfl.
  { intros m. unfold flags_of. cbn. destruct (Nat.lt_ge_cases m K) as [Hm|Hm].
    - destruct (Hlk m Hm) as (x & Hx). destruct (Hns m x Hx) as (p & q & ->). by rewrite Hx.
    - destruct (Hout m Hm) as [-> ->]. done. }
  split; [|split; [unfold shown; cbn; by rewrite List.filter_app|by split]].
  assert (forall m, m ∈ l1 ++ l2 -> m ∈ l1 ++ n :: l2) as Hsub by (intros m Hm; apply elem_middle; by right).
  split; try done.
  - rewrite <- (g_len _ _ G). exact Hlen.
  - intros m. unfold arcs_of. cbn. destruct (Nat.lt_ge_cases m K) as [Hm|Hm].
    + destruct (Hlk m Hm) as (x & Hx). destruct (Hns m x Hx) as (p & q & ->). cbn.
      pose proof (g_arcs _ _ G m) as Hg. unfold arcs_of in Hg. rewrite Hx in Hg. cbn in Hg. rewrite Hg. unfold left_arcs.
      destruct (decide (m = n)) as [->|Hne]; [by rewrite decide_False|].
      destruct (decide (m ∈ l1 ++ l2)) as [Hin|Hin]; [by rewrite decide_True by auto|].
      rewrite decide_False; [done|]. rewrite elem_middle. by intros [|].
    + destruct (Hout m Hm) as [_ ->]. cbn. unfold left_arcs. rewrite decide_False; [done|].
      intros Hin. apply Hsub in Hin. apply (g_in _ _ _ G) in Hin. lia.
  - intros m Hm. destruct (Hlk m Hm) as (x & Hx). unfold ref_of. cbn. destruct (Hns m x Hx) as (p & q & ->). cbn.
    pose proof (g_ref _ _ G m Hm) as Hg. unfold ref_of in Hg. rewrite Hx in Hg. cbn in Hg. rewrite Hg, Ha. unfold indegree.
    rewrite !List.filter_app. cbn [List.filter]. rewrite !length_app.
    destruct (decide (m ∈ A n)); [rewrite bool_decide_eq_true_2 by done|rewrite bool_decide_eq_false_2 by done]; cbn [length]; lia.
  - intros m Hm. destruct (Hlk m Hm) as (x & Hx). pose proof (g_name _ _ G m Hm) as Hg. unfold name_of in *. cbn.
    destruct (Hns m x Hx) as (p & q & ->). by rewrite Hx in Hg.
  - intros m. unfold marked. rewrite Hfl. apply (g_marks _ _ G).
  - intros m. unfold acyclic. rewrite Hfl. intros Hac Hcy. apply (g_acyclic _ _ G m Hac). by eapply on_cycle_mono.
  - destruct (g_room _ _ G) as [[Hb Hcl]|(b & lc & R & H1 & H2 & H3 & H4 & H5 & H6 & H7 & H8)].
    + left. split; [done|]. intros u v Hu Hv. pose proof (Hcl u v (Hsub u Hu) Hv) as Hin. apply elem_middle in Hin as [->|Hin]; [|done].
      exfalso. by apply (proj1 (ref_zero _ _ _ G Hn) (Hfree Hb) u (Hsub u Hu)).
    + right. exists b, lc, R. split_and!; try done. intros m Hm. by apply H6, Hsub.
Qed.

(** ** The passes *)

(** The node at a place of the chain, and the one behind it. *)
Lemma g_node s l1 n l2 :
  Graph s (l1 ++ n :: l2) -> exists x, nodes s !! n = Some x /\ n_next x = first l2 None /\ n_refcnt x = ref_of s n.
Proof.
  intros G. destruct (chain_split _ _ _ _ _ _ (g_chain _ _ G)) as (x & Hx & _ & Hn & _). exists x. split; [done|]. split; [done|].
  unfold ref_of. by rewrite Hx.
Qed.

Lemma free_pass_spec fuel : forall l1 l2 s cnt,
  Graph s (l1 ++ l2) -> clear s (l1 ++ l2) -> (length l2 <= fuel)%nat ->
  exists s' l2' evs, free_pass fuel (first l2 None) cnt s = (Ok (cnt + Z.of_nat (length l2) - Z.of_nat (length l2')), s') /\
    Graph s' (l1 ++ l2') /\ clear s' (l1 ++ l2') /\ shown s' = shown s ++ evs /\ take_all (l1 ++ l2) evs (l1 ++ l2') /\
    (length l2' <= length l2)%nat /\
    (length l2' = length l2 -> s' = s /\ l2' = l2 /\ forall n, n ∈ l2 -> ref_of s n <> 0).
Proof.
  induction fuel as [|fuel IH]; intros l1 [|n l2] s cnt G Hcl Hf; cbn [length first free_pass] in *; [|lia| |].
  1, 2: exists s, [], []; rewrite Z.add_0_r, Z.sub_0_r, !app_nil_r in *; do 4 (split; [done|]); split; [apply take_none|]; split; [done|];
    intros _; split; [done|]; split; [done|]; intros n Hn; by apply not_elem_of_nil in Hn.
  assert (n ∈ l1 ++ n :: l2) as Hn by (apply elem_middle; by left).
  destruct (g_node _ _ _ _ G) as (x & Hx & Hnext & Href). rewrite (run_bind_ok _ _ _ _ _ (run_node_at n s x Hx)), Href, Hnext.
  destruct (Z.eqb_spec (ref_of s n) 0) as [Hz|Hz].
  - destruct (remove_graph s l1 n l2 G (fun _ => Hz)) as (s1 & E1 & G1 & S1 & _ & F1). rewrite (run_bind_ok _ _ _ _ _ E1).
    destruct (IH l1 l2 s1 (cnt + 1) G1) as (s2 & l2' & evs & E2 & G2 & C2 & S2 & T2 & L2 & _); [|lia|].
    { intros m Hm. unfold nodest. rewrite F1. apply Hcl. apply elem_middle. by right. }
    exists s2, l2', (Line (Nm n) :: evs). rewrite E2.
    split; [do 2 f_equal; lia|]. split; [done|]. split; [done|]. split; [rewrite S2, S1, <- app_assoc; done|].
    split; [|split; [lia|lia]]. change (Line (Nm n) :: evs) with ([Line (Nm n)] ++ evs). econstructor; [|exact T2].
    constructor. by apply (ref_zero _ _ _ G Hn).
  - replace (l1 ++ n :: l2) with ((l1 ++ [n]) ++ l2) in * by (by rewrite <- app_assoc).
    destruct (IH (l1 ++ [n]) l2 s cnt G Hcl) as (s2 & l2' & evs & E2 & G2 & C2 & S2 & T2 & L2 & Hsame); [lia|].
    exists s2, (n :: l2'), evs. cbn [length]. rewrite E2. replace (l1 ++ n :: l2') with ((l1 ++ [n]) ++ l2') by (by rewrite <- app_assoc).
    split; [do 2 f_equal; lia|]. split; [done|]. split; [done|]. split; [done|]. split; [done|]. split; [lia|].
    intros Heq. destruct Hsame as (-> & -> & Hr); [lia|]. split; [done|]. split; [done|]. by intros m [->|Hm]%elem_of_cons; [|apply Hr].
Qed.

Definition stuck (s : tsort_state) (l : list nat) : Prop := forall n, n ∈ l -> ref_of s n <> 0.

Lemma free_passes_spec fuel : forall l s,
  Graph s l -> clear s l -> (length l < fuel)%nat ->
  exists s' l' evs, free_passes fuel s = (Ok tt, s') /\ Graph s' l' /\ clear s' l' /\ shown s' = shown s ++ evs /\ take_all l evs l' /\
    (length l' <= length l)%nat /\ stuck s' l'.
Proof.
  induction fuel as [|fuel IH]; intros l s G Hcl Hf; [lia|]. cbn [free_passes]. rewrite run_bind_get.
  rewrite (g_first _ _ G), (g_len _ _ G). pose proof (g_small _ _ G) as Hs.
  destruct (free_pass_spec K [] l s 0 G Hcl Hs) as (s1 & l1 & evs & E & G1 & C1 & S1 & T1 & L1 & Hsame). cbn [app] in *.
  rewrite (run_bind_ok _ _ _ _ _ E), run_bind_gets, (g_first _ _ G1).
  destruct (decide (length l1 = length l)) as [Heq|Hne].
  - destruct (Hsame Heq) as (-> & -> & Hr). replace (0 + Z.of_nat (length l) - Z.of_nat (length l) =? 0) with true by lia.
    rewrite andb_false_r. exists s, l, evs. split_and!; try done.
  - replace (0 + Z.of_nat (length l) - Z.of_nat (length l1) =? 0) with false by lia. rewrite andb_true_r.
    destruct (bool_decide (first l1 None <> None)) eqn:Ed.
    + destruct (IH l1 s1 G1 C1) as (s2 & l2 & evs2 & E2 & G2 & C2 & S2 & T2 & L2 & Hst); [lia|].
      exists s2, l2, (evs ++ evs2). split; [done|]. split; [done|]. split; [done|]. split; [by rewrite S2, S1, app_assoc|].
      split; [by eapply take_all_trans|]. split; [lia|done].
    + apply bool_decide_eq_false in Ed. exists s1, l1, evs. split_and!; try done.
      intros n Hn. destruct l1; [by apply not_elem_of_nil in Hn|]. by destruct Ed.
Qed.

Lemma count_nodes_spec fuel s : forall l1 l2 cnt,
  Graph s (l1 ++ l2) -> (length l2 <= fuel)%nat -> count_nodes fuel (first l2 None) cnt s = (Ok (cnt + Z.of_nat (length l2)), s).
Proof.
  induction fuel as [|fuel IH]; intros l1 [|n l2] cnt G Hf; cbn [length first count_nodes] in *; [by rewrite Z.add_0_r|lia|by rewrite Z.add_0_r|].
  destruct (g_node _ _ _ _ G) as (x & Hx & Hnext & _). rewrite (run_bind_ok _ _ _ _ _ (run_node_at n s x Hx)), Hnext.
  rewrite (IH (l1 ++ [n])); [do 2 f_equal; lia|by rewrite <- app_assoc|lia].
Qed.

Lemma alloc_spec s l :
  Graph s l -> clear s l -> exists s', alloc_cycles s = (Ok tt, s') /\ Graph s' l /\ clear s' l /\ shown s' = shown s /\ cycle_buf s' <> None /\
    (stuck s l -> stuck s' l).
Proof.
  intros G Hcl. unfold alloc_cycles. rewrite run_bind_get. destruct (cycle_buf s) as [b|] eqn:Eb.
  - exists s. split_and!; try done. by rewrite Eb.
  - rewrite (g_first _ _ G), (g_len _ _ G). rewrite (run_bind_ok _ _ _ _ _ (count_nodes_spec K s [] l 0 G (g_small _ _ G))).
    eexists. split; [done|]. split; [|done]. destruct G as [G1 G2 G3 G4 G5 G6 G7 G8 G9]. split; try done.
    right. destruct G9 as [[_ Hc]|(b & lc & R & H1 & _)]; [|congruence]. eexists _, _, l. split; [done|]. split; [done|].
    rewrite !length_replicate. split; [done|]. split; [lia|]. split_and!; try done.
    intros n Hn. rewrite <- G3. by eapply chain_in.
Qed.

(** The flag NF_NODEST and the others. *)
Lemma graph_flags s s' l :
  Graph s l -> same_graph s s' -> cycle_buf s' = cycle_buf s -> longest_cycle s' = longest_cycle s ->
  (forall n, marked s' n = false) -> (forall n, acyclic s' n = true -> ~ on_cycle l n) -> Graph s' l.
Proof.
  intros [G1 G2 G3 G4 G5 G6 G7 G8 G9] Hsg Hb Hl Hm Ha. split; try done.
  - rewrite (sg_graph _ _ Hsg). by eapply sg_chain.
  - by rewrite (sg_length _ _ Hsg).
  - intros n. by rewrite (sg_arcs _ _ n Hsg).
  - intros n Hn. rewrite (sg_ref _ _ n Hsg). by apply G5.
  - intros n Hn. rewrite (sg_name _ _ n Hsg). by apply G6.
  - unfold room. by rewrite Hb, Hl.
Qed.

Lemma clear_loop_spec fuel : forall l1 l2 s,
  Graph s (l1 ++ l2) -> clear s l1 -> (length l2 <= fuel)%nat ->
  exists s', clear_loop fuel (first l2 None) s = (Ok tt, s') /\ Graph s' (l1 ++ l2) /\ clear s' (l1 ++ l2) /\ shown s' = shown s /\
    same_graph s s' /\ cycle_buf s' = cycle_buf s /\ forall n, acyclic s' n = acyclic s n.
Proof.
  induction fuel as [|fuel IH]; intros l1 [|n l2] s G Hcl Hf; cbn [length first clear_loop] in *; [|lia| |].
  1, 2: exists s; rewrite app_nil_r in *; by split_and!.
  assert (n < length (nodes s))%nat as HnK by (rewrite (g_len _ _ G); apply (g_in _ _ _ G); apply elem_middle; by left).
  destruct (clear_flag_spec n 2 s HnK) as (s1 & E1 & G1 & R1 & B1); [lia|]. rewrite (run_bind_ok _ _ _ _ _ (E1 : clear_flag n NF_NODEST s = _)).
  assert (forall m, acyclic s1 m = acyclic s m) as Hac by (intros m; unfold acyclic; by rewrite B1, andb_false_r, andb_true_r by lia).
  assert (Graph s1 (l1 ++ n :: l2)) as G'.
  { apply (graph_flags s); [done|done|apply R1|apply R1| |].
    - intros m. unfold marked. rewrite B1, andb_false_r, andb_true_r by lia. apply (g_marks _ _ G).
    - intros m. rewrite Hac. apply (g_acyclic _ _ G). }
  destruct (g_node _ _ _ _ G') as (x & Hx & Hnext & _). rewrite (run_bind_ok _ _ _ _ _ (run_node_at n s1 x Hx)), Hnext.
  destruct (IH (l1 ++ [n]) l2 s1) as (s2 & E2 & G2 & C2 & S2 & SG2 & B2 & A2); [by rewrite <- app_assoc| |lia|].
  { intros m [Hm|Hm]%elem_of_app; unfold nodest; rewrite B1 by lia.
    - fold (nodest s m). by rewrite Hcl.
    - apply list_elem_of_singleton in Hm as ->. rewrite bool_decide_eq_true_2 by done. apply andb_false_r. }
  rewrite <- app_assoc in *. exists s2. split; [done|]. split; [done|]. split; [done|].
  split; [rewrite S2; by apply same_shown|]. split; [by etransitivity|]. split; [by rewrite B2; apply R1|]. intros m. by rewrite A2, Hac.
Qed.

Lemma clear_cycle_spec s l :
  Graph s l -> exists s', clear_cycle s = (Ok tt, s') /\ Graph s' l /\ clear s' l /\ shown s' = shown s /\
    same_graph s s' /\ cycle_buf s' = cycle_buf s /\ forall n, acyclic s' n = acyclic s n.
Proof.
  intros G. unfold clear_cycle. rewrite run_bind_get, (g_first _ _ G), (g_len _ _ G).
  destruct (clear_loop_spec K [] l s G) as (s' & H); [intros n Hn; by apply not_elem_of_nil in Hn|by apply (g_small _ _ G)|]. by exists s'.
Qed.

(** ** Cycles *)

Lemma find_spec s l n :
  Graph s l -> clear s l -> n ∈ l -> acyclic s n = false -> cycle_buf s <> None ->
  exists r s', find_cycle o (S K) n n 0 0 s = (Ok r, s') /\ Graph s' l /\ shown s' = shown s /\ same_graph s s' /\ cycle_buf s' <> None /\
    (forall m, acyclic s' m = acyclic s m) /\ (r = 0 -> ~ on_cycle l n) /\
    (r <> 0 -> exists c lc, cycle (left_arcs l) n c /\ Z.of_nat (length c) = r /\ longest_cycle s' = Some lc /\ take (length c) lc = map Some c).
Proof.
  intros G Hcl Hn Hac Hb. destruct (g_room _ _ G) as [[H _]|(b & lc & R & H1 & H2 & H3 & H4 & H5 & H6 & H7 & H8)]; [done|].
  assert (forall u v, u ∈ R -> v ∈ left_arcs l u -> v ∈ R) as Hclosed.
  { intros u v Hu. unfold left_arcs. destruct (decide (u ∈ l)); [by apply H7|]. intros Hv. by apply not_elem_of_nil in Hv. }
  assert (dfs (left_arcs l) n (acyclic s) R (length b) s [] [] 0) as Hd.
  { split; [apply (g_arcs _ _ G)|intros m Hm; rewrite (g_len _ _ G); by apply H8| |done|done| |].
    - intros m. rewrite (g_marks _ _ G). split; [done|]. intros Hm. by apply not_elem_of_nil in Hm.
    - exists b, lc. by split_and!.
    - intros _ m Hm Hr. destruct (decide (m ∈ l)) as [Hin|Hout]; [by rewrite Hcl in Hm|].
      destruct Hr as [m _ Hr|m w _ Hr _]; unfold left_arcs in Hr; rewrite decide_False in Hr by done; by apply not_elem_of_nil in Hr. }
  assert (length R <= K)%nat as HR.
  { rewrite <- (length_seq K 0). apply NoDup_incl_length; [by apply NoDup_ListNoDup|]. intros m Hm. apply in_seq.
    apply list_elem_of_In, H8 in Hm. lia. }
  destruct (find_cycle_spec o (left_arcs l) n (acyclic s) R (length b) H4 Hclosed (S K) [] [] n 0 s) as (r & s' & E & [Hsg Hsh Hd' _] & Hr);
    [done|apply NoDup_singleton| |done|done|by apply Hcl|done|cbn; lia|].
  { intros v Hv. apply list_elem_of_singleton in Hv as ->. by apply H6. }
  assert (forall m, acyclic s' m = acyclic s m) as Hac' by apply (dfs_acyclic _ _ _ _ _ _ _ _ _ Hd').
  destruct (dfs_bufs _ _ _ _ _ _ _ _ _ Hd') as (b' & lc' & B1 & B2 & B3 & B4 & _ & Hfound).
  exists r, s'. split; [exact E|]. split.
  { pose proof G as [G1 G2 G3 G4 G5 G6 G7 G8 G9]. split; try done.
    - rewrite (sg_graph _ _ Hsg). by eapply sg_chain.
    - by rewrite (sg_length _ _ Hsg).
    - intros m. by rewrite (sg_arcs _ _ m Hsg).
    - intros m Hm. rewrite (sg_ref _ _ m Hsg). by apply G5.
    - intros m Hm. rewrite (sg_name _ _ m Hsg). by apply G6.
    - intros m. apply not_true_iff_false. rewrite (dfs_marks _ _ _ _ _ _ _ _ _ Hd'). apply not_elem_of_nil.
    - intros m. rewrite Hac'. apply G8.
    - right. exists b', lc', R. split_and!; try done; [by rewrite B3|by rewrite B3]. }
  split; [done|]. split; [done|]. split; [by rewrite B1|]. split; [done|]. split.
  - intros Hz (c & Hc & Hw). apply (Hr Hz). apply (walk_reach _ _ _ _ c); try done.
    intros v Hv. apply not_true_iff_false. intros Hv'. apply (g_acyclic _ _ G v Hv'). by eapply on_cycle_all.
  - intros Hz. pose proof (dfs_len _ _ _ _ _ _ _ _ _ Hd') as Hlen. destruct (Hfound ltac:(lia)) as (c & Hc & Hcl' & Htake).
    by exists c, lc'.
Qed.

Definition add_printed (evs : list event) (s : tsort_state) : tsort_state :=
  mkT (nodes s) (db s) (graph s) (cycle_buf s) (longest_cycle s) (printed s ++ evs).

Lemma warn_cycle_spec c : forall s,
  (forall n, n ∈ c -> (n < length (nodes s))%nat) ->
  warn_cycle (map Some c) s = (Ok tt, add_printed (map (fun m => InCycle (name_of s m)) c) s).
Proof.
  induction c as [|n c IH]; intros s Hc; cbn [map warn_cycle].
  - unfold add_printed. rewrite app_nil_r. by destruct s.
  - destruct (node_lookup s n) as (x & Hx); [apply Hc; by left|]. rewrite (run_bind_ok _ _ _ _ _ (run_node_at n s x Hx)), run_bind_modify.
    rewrite IH by (intros m Hm; apply Hc; by right). unfold add_printed, emit. cbn. rewrite <- app_assoc. cbn.
    assert (name_of s n = n_name x) as -> by (unfold name_of; by rewrite Hx). done.
Qed.

(** What is shown of a cycle. *)
Definition cycle_events (c : list nat) : list event :=
  if quiet o then [] else CycleInData :: map (fun m => InCycle (Nm m)) c.

Lemma warn_spec s l c lc :
  Graph s l -> (forall n, n ∈ c -> (n < K)%nat) -> longest_cycle s = Some lc -> take (length c) lc = map Some c ->
  warn o (Z.of_nat (length c)) s = (Ok tt, add_printed (cycle_events c) s).
Proof.
  intros G Hc El Ht. unfold warn, cycle_events. destruct (quiet o); cbn [negb mwhen].
  - unfold add_printed. rewrite app_nil_r. by destruct s.
  - rewrite run_bind_modify, run_bind_get. cbn [longest_cycle emit]. rewrite El. cbn [default from_option id]. rewrite Nat2Z.id, Ht.
    rewrite warn_cycle_spec by (cbn; rewrite (g_len _ _ G); done). unfold add_printed, emit. cbn. rewrite <- app_assoc. cbn. do 4 f_equal. apply map_ext_in. intros m Hm. apply list_elem_of_In, Hc in Hm. f_equal. apply (g_name _ _ G m Hm).
Qed.

Lemma graph_printed evs s l : Graph s l -> Graph (add_printed evs s) l.
Proof. intros [G1 G2 G3 G4 G5 G6 G7 G8 G9]. by split. Qed.

Lemma walk_in l u c v : (forall n, n ∈ l -> (n < K)%nat) -> walk (left_arcs l) u c v -> forall n, n ∈ c -> (n < K)%nat.
Proof.
  intros Hl. revert u. induction c as [|w c IH]; intros u Hw n Hn; [by apply not_elem_of_nil in Hn|]. destruct Hw as [H1 H2].
  apply elem_of_cons in Hn as [->|Hn]; [|by eapply IH]. unfold left_arcs in H1. destruct (decide (u ∈ l)); [by eapply HK|].
  by apply not_elem_of_nil in H1.
Qed.

Lemma shown_printed evs s : List.filter visible evs = evs -> shown (add_printed evs s) = shown s ++ evs.
Proof. intros H. unfold shown, add_printed. cbn. by rewrite List.filter_app, H. Qed.

Lemma cycle_events_visible c : List.filter visible (cycle_events c) = cycle_events c.
Proof. unfold cycle_events. destruct (quiet o); [done|]. cbn. f_equal. induction c; cbn; [done|]. by f_equal. Qed.

Lemma cycle_pass_spec fuel : forall l1 l2 s,
  Graph s (l1 ++ l2) -> clear s (l1 ++ l2) -> stuck s (l1 ++ l2) -> cycle_buf s <> None -> (length l2 <= fuel)%nat ->
  (forall n, n ∈ l1 -> ~ on_cycle (l1 ++ l2) n) ->
  (exists n, n ∈ l1 ++ l2 /\ on_cycle (l1 ++ l2) n) ->
  exists s' l' evs, cycle_pass o fuel (first l2 None) s = (Ok true, s') /\ Graph s' l' /\ clear s' l' /\ shown s' = shown s ++ evs /\
    takes (l1 ++ l2) evs l' /\ (length l' < length (l1 ++ l2))%nat /\ cycle_buf s' <> None.
Proof.
  assert (forall s l1 l2, (exists n, n ∈ l1 ++ l2 /\ on_cycle (l1 ++ l2) n) -> (forall n, n ∈ l1 -> ~ on_cycle (l1 ++ l2) n) -> l2 = [] -> Graph s (l1 ++ l2) -> False) as Hnone.
  { intros s l1 l2 (n & Hn & Hc) H -> _. rewrite app_nil_r in *. by apply (H n). }
  induction fuel as [|fuel IH]; intros l1 [|n l2] s G Hcl Hst Hb Hf Hl1 Hex; cbn [length] in Hf; try lia;
    try (by exfalso; eapply Hnone). cbn [first cycle_pass].
  assert (n ∈ l1 ++ n :: l2) as Hn by (apply elem_middle; by left).
  destruct (g_node _ _ _ _ G) as (x & Hx & Hnext & _). rewrite (run_bind_ok _ _ _ _ _ (run_node_at n s x Hx)).
  destruct (flagged_any s n x Hx) as (_ & _ & ->).
  (* the next node *)
  assert (forall s1, Graph s1 (l1 ++ n :: l2) -> clear s1 (l1 ++ n :: l2) -> stuck s1 (l1 ++ n :: l2) -> cycle_buf s1 <> None -> shown s1 = shown s ->
    ~ on_cycle (l1 ++ n :: l2) n ->
    exists s' l' evs, cycle_pass o fuel (first l2 None) s1 = (Ok true, s') /\ Graph s' l' /\ clear s' l' /\ shown s' = shown s ++ evs /\
      takes (l1 ++ n :: l2) evs l' /\ (length l' < length (l1 ++ n :: l2))%nat /\ cycle_buf s' <> None) as Hgo.
  { intros s1 G1 C1 St1 B1 S1 Hnc. replace (l1 ++ n :: l2) with ((l1 ++ [n]) ++ l2) in * by (by rewrite <- app_assoc). rewrite <- S1.
    apply IH; try done; [lia|]. intros m [Hm|Hm]%elem_of_app; [by apply Hl1|]. by apply list_elem_of_singleton in Hm as ->. }
  destruct (acyclic s n) eqn:Eac; [rewrite Hnext; apply Hgo; try done; by apply (g_acyclic _ _ G)|].
  rewrite run_bind_get, (g_len _ _ G).
  destruct (find_spec s _ n G Hcl Hn Eac Hb) as (r & s1 & E1 & G1 & S1 & SG1 & B1 & A1 & Hz & Hnz). rewrite (run_bind_ok _ _ _ _ _ E1).
  destruct (Z.eqb_spec r 0) as [Hr|Hr].
  - specialize (Hz Hr).
    destruct (set_flag_spec n 1 s1) as (s2 & E2 & SG2 & R2 & F2); [rewrite (g_len _ _ G1); by apply (g_in _ _ _ G)|lia|].
    rewrite (run_bind_ok _ _ _ _ _ (E2 : set_flag n NF_ACYCLIC s1 = _)).
    assert (Graph s2 (l1 ++ n :: l2)) as G2.
    { apply (graph_flags s1); [done|done|apply R2|apply R2| |].
      - intros m. unfold marked. rewrite F2, andb_false_r, orb_false_r by lia. apply (g_marks _ _ G1).
      - intros m. unfold acyclic. rewrite F2, andb_true_r, orb_true_iff by lia. fold (acyclic s1 m). rewrite bool_decide_eq_true.
        intros [H| ->]; [by apply (g_acyclic _ _ G1)|done]. }
    destruct (clear_cycle_spec s2 _ G2) as (s3 & E3 & G3 & C3 & S3 & SG3 & B3 & A3). rewrite (run_bind_ok _ _ _ _ _ E3).
    destruct (g_node _ _ _ _ G3) as (y & Hy & Hnexty & _). rewrite (run_bind_ok _ _ _ _ _ (run_node_at n s3 y Hy)), Hnexty.
    apply Hgo; try done.
    + intros m Hm. rewrite (sg_ref _ _ _ SG3), (sg_ref _ _ _ SG2), (sg_ref _ _ _ SG1). by apply Hst.
    + rewrite B3. destruct R2 as (-> & _). done.
    + rewrite S3, (same_shown _ _ R2). done.
  - destruct (Hnz Hr) as (c & lc & Hc & <- & Hlc & Ht).
    assert (forall m, m ∈ c -> (m < K)%nat) as HcK.
    { eapply walk_in; [|apply Hc]. intros m Hm. by eapply g_in. }
    rewrite (run_bind_ok _ _ _ _ _ (warn_spec s1 _ c lc G1 HcK Hlc Ht)).
    destruct (remove_graph _ l1 n l2 (graph_printed (cycle_events c) _ _ G1)) as (s2 & E2 & G2 & S2 & B2 & _); [by intros H|].
    rewrite (run_bind_ok _ _ _ _ _ E2).
    destruct (clear_cycle_spec s2 _ G2) as (s3 & E3 & G3 & C3 & S3 & SG3 & B3 & A3). rewrite (run_bind_ok _ _ _ _ _ E3).
    exists s3, (l1 ++ l2), (cycle_events c ++ [Line (Nm n)]). split; [done|]. split; [done|]. split; [done|].
    split; [rewrite S3, S2, shown_printed, S1, <- app_assoc by apply cycle_events_visible; done|].
    split; [|split; [rewrite !length_app; cbn; lia|by rewrite B3, B2]]. apply takes_broken; [|done].
    intros m Hm. apply (ref_pos s); [done|done|by apply Hst].
Qed.

Lemma tsort_loop_spec fuel : forall l s,
  Graph s l -> clear s l -> (length l <= fuel)%nat ->
  exists s' evs, tsort_loop o fuel s = (Ok tt, s') /\ shown s' = shown s ++ evs /\ take_all l evs [].
Proof.
  induction fuel as [|fuel IH]; intros l s G Hcl Hf; cbn [tsort_loop]; rewrite run_bind_gets, (g_first _ _ G).
  1: { destruct l; [|cbn in Hf; lia]. exists s, []. rewrite app_nil_r. split_and!; try done. apply take_none. }
  destruct l as [|m l]; [exists s, []; rewrite app_nil_r; split_and!; try done; apply take_none|]. cbn [first].
  rewrite run_bind_get, (g_len _ _ G). pose proof (g_small _ _ G) as Hs.
  destruct (free_passes_spec (S K) _ s G Hcl) as (s1 & l1 & evs1 & E1 & G1 & C1 & S1 & T1 & L1 & St1); [lia|].
  rewrite (run_bind_ok _ _ _ _ _ E1), run_bind_gets, (g_first _ _ G1).
  destruct l1 as [|n l1]; [by exists s1, evs1|]. cbn [first].
  destruct (alloc_spec s1 _ G1 C1) as (s2 & E2 & G2 & C2 & S2 & B2 & St2). rewrite (run_bind_ok _ _ _ _ _ E2).
  destruct (cycle_pass_spec K [] (n :: l1) s2 G2 C2 (St2 St1) B2) as (s3 & l3 & evs3 & E3 & G3 & C3 & S3 & T3 & L3 & _).
  { by apply (g_small _ _ G1). }
  { intros k Hk. by apply not_elem_of_nil in Hk. }
  { apply cycle_exists; [|done]. intros k Hk. apply (ref_pos s1); [done|done|by apply St1]. }
  change (Some n) with (first (n :: l1) None). rewrite (run_bind_ok _ _ _ _ _ E3). cbv iota.
  destruct (IH l3 s3 G3 C3) as (s4 & evs4 & E4 & S4 & T4); [cbn in *; lia|].
  exists s4, (evs1 ++ evs3 ++ evs4). split; [done|]. split; [by rewrite S4, S3, S2, S1, <- !app_assoc|].
  eapply take_all_trans; [exact T1|]. by eapply take_more.
Qed.

Lemma tsort_spec s l : Graph s l -> clear s l -> exists s' evs, tsort o s = (Ok tt, s') /\ shown s' = shown s ++ evs /\ take_all l evs [].
Proof. intros G Hcl. unfold tsort. rewrite run_bind_get, (g_len _ _ G). apply tsort_loop_spec; [done|done|by apply (g_small _ _ G)]. Qed.

End Sorting.
