(* ===== verification/TsortRead.v ===== *)
(** * tsort: from the words to the order

    [Reading] is the invariant of the graph while pairs are read: there is one node for each word, it has an arc for each
    different word that follows it, and each node counts its arcs.  At the end this is the invariant [Graph] of the sort
    ([reading_graph]).  The theorems follow: what the program prints is a run of an abstract sort of the words. *)

From Stdlib Require Import ZArith Lia List Bool.
From stdpp Require Import base tactics list numbers gmap.
From S2P Require Import Prelude Tsort TsortFacts TsortCycle TsortSort.

Local Open Scope Z_scope.

Abbreviation word := (list Z).

(** A pair of words that says something. *)
Definition before (ps : list (word * word)) (a b : word) : Prop := (a, b) ∈ ps /\ a <> b.

Definition all_nodes (s : tsort_state) : list nat := rev (seq 0 (length (nodes s))).

Lemma in_all s n : n ∈ all_nodes s <-> (n < length (nodes s))%nat.
Proof. unfold all_nodes. rewrite list_elem_of_In, <- in_rev, in_seq. lia. Qed.

Lemma all_nodup s : NoDup (all_nodes s).
Proof. unfold all_nodes. apply NoDup_ListNoDup, NoDup_rev, seq_NoDup. Qed.

Record Reading (s : tsort_state) (ws : list word) (ps : list (word * word)) : Prop := {
  r_chain : chain (nodes s) None (graph s) (all_nodes s);
  r_db : forall w n, db s !! w = Some n <-> (n < length (nodes s))%nat /\ name_of s n = w;
  r_words : forall w, (exists n, (n < length (nodes s))%nat /\ name_of s n = w) <-> w ∈ ws;
  r_pairs : forall a b, before ps a b -> a ∈ ws /\ b ∈ ws;
  r_arcs : forall u v, v ∈ arcs_of s u <-> (u < length (nodes s))%nat /\ (v < length (nodes s))%nat /\ before ps (name_of s u) (name_of s v);
  r_nodup : forall u, NoDup (arcs_of s u);
  r_ref : forall n, (n < length (nodes s))%nat -> ref_of s n = Z.of_nat (indegree (arcs_of s) (all_nodes s) n);
  r_flags : forall n, flags_of s n = 0;
  r_size : forall n, Z.of_nat (length (arcs_of s n)) <= size_of s n;
  r_bufs : cycle_buf s = None;
  r_printed : printed s = []
}.

Lemma r_inj s ws ps m n :
  Reading s ws ps -> (m < length (nodes s))%nat -> (n < length (nodes s))%nat -> name_of s m = name_of s n -> m = n.
Proof.
  intros R Hm Hn E. pose proof (proj2 (r_db _ _ _ R (name_of s m) m) (conj Hm eq_refl)) as H1.
  pose proof (proj2 (r_db _ _ _ R (name_of s m) n) (conj Hn (eq_sym E))) as H2. congruence.
Qed.

Lemma reading_init : Reading init [] [].
Proof.
  split; cbn; try done.
  - intros w n. split; [done|]. intros [H _]. lia.
  - intros w. split; [intros (n & H & _); lia|]. intros H. by apply not_elem_of_nil in H.
  - intros a b [H _]. by apply not_elem_of_nil in H.
  - intros u v. unfold arcs_of. cbn. split; [intros H; by apply not_elem_of_nil in H|]. intros [H _]. lia.
  - intros u. by apply NoDup_nil.
Qed.

(** ** A node for each word *)

Lemma get_node_new s w :
  db s !! w = None -> (forall g, graph s = Some g -> (g < length (nodes s))%nat) ->
  exists ns', get_node w s = (Ok (length (nodes s)),
      mkT ns' (<[w := length (nodes s)]> (db s)) (Some (length (nodes s))) (cycle_buf s) (longest_cycle s) (printed s)) /\
    changed (nodes s ++ [mkNode None (graph s) [] 0 0 0 w]) ns'
      (fun m x => if decide (graph s = Some m) then set_prevp (Some (length (nodes s))) x else x).
Proof.
  intros Hdb Hg. unfold get_node. rewrite run_bind_get, Hdb, run_bind_modify. set (s1 := set_nodes _ s).
  destruct (graph s) as [g|] eqn:Eg.
  - destruct (node_lookup s1 g) as (x & Hx); [cbn; rewrite length_app; pose proof (Hg g eq_refl); lia|].
    rewrite (run_bind_ok _ _ _ _ _ (run_upd g (set_prevp (Some (length (nodes s)))) s1 x Hx)), !run_bind_modify.
    eexists. split; [done|]. intros m. pose proof (changed_upd g (set_prevp (Some (length (nodes s)))) s1 x Hx m) as H.
    etransitivity; [exact H|]. cbv beta. change (nodes s1) with (nodes s ++ [mkNode None (Some g) [] 0 0 0 w]).
    destruct (decide (m = g)) as [->|Hne].
    + apply option_fmap_ext. intros y. by rewrite decide_True.
    + apply option_fmap_ext. intros y. by rewrite decide_False by congruence.
  - rewrite run_bind_ret, !run_bind_modify. eexists. split; [done|]. intros m. cbn. by destruct (_ !! m).
Qed.

Lemma get_node_spec s ws ps w :
  Reading s ws ps ->
  exists n s', get_node w s = (Ok n, s') /\ Reading s' (w :: ws) ps /\ (n < length (nodes s'))%nat /\ name_of s' n = w /\
    (length (nodes s) <= length (nodes s'))%nat /\ forall m, (m < length (nodes s))%nat -> name_of s' m = name_of s m.
Proof.
  intros R. destruct (db s !! w) as [n|] eqn:Ed.
  { apply (r_db _ _ _ R) in Ed as Hn. destruct Hn as [Hn Hname]. exists n, s. unfold get_node. rewrite run_bind_get, Ed. split; [done|].
    split; [|split_and!; done]. destruct R as [R1 R2 R3 R4 R5 R6 R7 R8 R9 R10 R11]. split; try done.
    - intros v. rewrite elem_of_cons, <- R3. split; [by right|]. intros [->|H]; [by exists n|done].
    - intros a b [H1 H2]%R4. split; by right. }
  set (K := length (nodes s)).
  assert (forall g, graph s = Some g -> (g < K)%nat) as Hg.
  { intros g Eg. pose proof (r_chain _ _ _ R) as Hc. destruct (all_nodes s) as [|n l] eqn:El; [cbn in Hc; congruence|].
    destruct Hc as [E _]. rewrite Eg in E. injection E as ->. apply in_all. rewrite El. by left. }
  destruct (get_node_new s w Ed Hg) as (ns' & E & Hch). fold K in E, Hch.
  set (new := mkNode None (graph s) [] 0 0 0 w) in *. exists K. eexists. split; [exact E|]. set (s' := mkT ns' _ _ _ _ _).
  assert (length ns' = S K) as Hlen by (rewrite (changed_length _ _ _ Hch), length_app; cbn; unfold K; lia).
  assert (forall {B} (v : node -> B) d m, (forall p x, v (set_prevp p x) = v x) ->
    from_option v d (ns' !! m) = if decide (m = K) then v new else from_option v d (nodes s !! m)) as Hview.
  { intros B v d m Hv. rewrite Hch. destruct (decide (m = K)) as [->|Hne].
    - rewrite list_lookup_middle by done. cbn. by destruct (decide _).
    - destruct (Nat.lt_ge_cases m K) as [Hm|Hm].
      + rewrite lookup_app_l by done. destruct (nodes s !! m); [|done]. cbn. by destruct (decide _).
      + rewrite !lookup_ge_None_2; [done|unfold K in *; lia|rewrite length_app; cbn; unfold K in *; lia]. }
  assert (w ∉ ws) as Hfresh.
  { intros Hw. apply (r_words _ _ _ R) in Hw as (n & Hn & Hnm).
    assert (db s !! w = Some n) by (by apply (r_db _ _ _ R)). congruence. }
  assert (forall m, name_of s' m = if decide (m = K) then w else name_of s m) as Hname by (intros m; by apply Hview).
  assert (forall m, arcs_of s' m = if decide (m = K) then [] else arcs_of s m) as Harcs by (intros m; by apply Hview).
  assert (arcs_of s K = []) as HaK by (unfold arcs_of, K; by rewrite lookup_ge_None_2).
  assert (all_nodes s' = K :: all_nodes s) as Hall.
  { unfold all_nodes. cbn [nodes s']. rewrite Hlen, seq_S, rev_app_distr. done. }
  split; [|split; [cbn; lia|split; [by rewrite Hname, decide_True|split; [cbn; fold K; lia|]]]].
  2: { intros m Hm. rewrite Hname, decide_False; [done|]. fold K in Hm. lia. }
  split; try done; try (apply (r_bufs _ _ _ R)); try (apply (r_printed _ _ _ R)).
  - rewrite Hall. cbn [chain graph s']. split; [done|]. exists new. split.
    { rewrite Hch. rewrite list_lookup_middle by done. cbn. rewrite decide_False; [done|]. intros Hgk. apply Hg in Hgk. lia. }
    split; [done|]. cbn [n_next new nodes s'].
    assert (NoDup (all_nodes s)) as Hnd by apply all_nodup. pose proof (r_chain _ _ _ R) as Hc.
    assert (forall m, m ∈ all_nodes s -> (m < K)%nat) as Hin by (intros m; apply in_all).
    destruct (all_nodes s) as [|n l]; [done|]. destruct Hc as (Eg & x & Hx & Hp & Hc). split; [done|].
    exists (set_prevp (Some K) x). split.
    { rewrite Hch, lookup_app_l by (apply Hin; by left). rewrite Hx. cbn. by rewrite decide_True. }
    split; [done|]. cbn. eapply chain_links; [|exact Hc]. intros m y Hm Hy. exists y. split; [|done].
    rewrite Hch, lookup_app_l by (apply Hin; by right). rewrite Hy. cbn. rewrite decide_False; [done|].
    rewrite Eg. intros [= ->]. by apply NoDup_cons in Hnd as [Hnd _].
  - intros v n. cbn [db s' nodes]. rewrite Hlen. destruct (decide (v = w)) as [->|Hne].
    + rewrite lookup_insert_eq. rewrite Hname. split.
      * intros [= <-]. rewrite decide_True by done. split; [lia|done].
      * intros [Hn Hnm]. destruct (decide (n = K)) as [->|Hne]; [done|].
        assert (db s !! w = Some n) by (apply (r_db _ _ _ R); fold K; split; [lia|done]). congruence.
    + rewrite lookup_insert_ne by done. rewrite (r_db _ _ _ R). fold K. rewrite Hname.
      destruct (decide (n = K)) as [->|Hnk]; [split; [lia|]; by intros [_ ->]|]. split; intros [H1 H2]; (split; [lia|done]).
  - intros v. cbn [nodes s']. rewrite Hlen, elem_of_cons, <- (r_words _ _ _ R). fold K. split.
    + intros (n & Hn & Hv). rewrite Hname in Hv. destruct (decide (n = K)); [by left|]. right. exists n. split; [lia|done].
    + intros [->|(n & Hn & Hv)]; [exists K; split; [lia|by rewrite Hname, decide_True]|]. exists n. split; [lia|].
      rewrite Hname, decide_False by lia. done.
  - intros a b [H1 H2]%(r_pairs _ _ _ R). split; by right.
  - intros u v. cbn [nodes s']. rewrite Hlen, Harcs, !Hname. destruct (decide (u = K)) as [->|Hu].
    + split; [intros H; by apply not_elem_of_nil in H|]. intros (_ & _ & Hb). apply (r_pairs _ _ _ R) in Hb as [Hb _]. done.
    + rewrite (r_arcs _ _ _ R). fold K. destruct (decide (v = K)) as [->|Hv]; [|split; intros (H1 & H2 & H3); (split; [lia|]); (split; [lia|done])].
      split; [lia|]. intros (_ & _ & Hb). by apply (r_pairs _ _ _ R) in Hb as [_ Hb].
  - intros u. rewrite Harcs. destruct (decide (u = K)); [by apply NoDup_nil|apply (r_nodup _ _ _ R)].
  - intros n Hn. cbn [nodes s'] in Hn. rewrite Hlen in Hn. rewrite Hall.
    assert (indegree (arcs_of s') (K :: all_nodes s) n = indegree (arcs_of s) (all_nodes s) n) as ->.
    { unfold indegree. cbn [List.filter]. rewrite Harcs, decide_True by done. cbn. f_equal. apply filter_ext_in.
      intros m Hm. apply list_elem_of_In, in_all in Hm. rewrite Harcs, decide_False; [done|]. fold K in Hm. lia. }
    unfold ref_of. cbn [nodes s']. rewrite Hview by done. destruct (decide (n = K)) as [->|Hne]; [|apply (r_ref _ _ _ R); fold K; lia].
    cbn. symmetry. replace (indegree (arcs_of s) (all_nodes s) K) with 0%nat; [done|]. symmetry. apply indegree_zero.
    intros u _ Hu. apply (r_arcs _ _ _ R) in Hu as (_ & Hu & _). fold K in Hu. lia.
  - intros n. unfold flags_of. cbn [nodes s']. rewrite Hview by done. destruct (decide (n = K)); [done|apply (r_flags _ _ _ R)].
  - intros n. rewrite Harcs. unfold size_of. cbn [nodes s']. rewrite Hview by done.
    destruct (decide (n = K)); [done|apply (r_size _ _ _ R)].
Qed.

(** ** An arc for each pair *)

Lemma reading_pairs s ws ps ws' ps' :
  (forall w, w ∈ ws' <-> w ∈ ws) -> (forall a b, before ps' a b <-> before ps a b) -> Reading s ws ps -> Reading s ws' ps'.
Proof.
  intros Hw Hp [R1 R2 R3 R4 R5 R6 R7 R8 R9 R10 R11]. split; try done.
  - intros w. by rewrite Hw.
  - intros a b. rewrite Hp, !Hw. apply R4.
  - intros u v. rewrite Hp. apply R5.
Qed.

Lemma before_cons ps s1 s2 a b : before ((s1, s2) :: ps) a b <-> (s1 <> s2 /\ a = s1 /\ b = s2) \/ before ps a b.
Proof.
  unfold before. rewrite elem_of_cons. split.
  - intros [[[= -> ->]|H] Hne]; [by left|by right].
  - intros [(Hne & -> & ->)|[H Hne]]; (split; [|done]); [by left|by right].
Qed.

(** An arc to [n2] is added to [f n1]. *)
Lemma indegree_add (f f' : nat -> list nat) n1 n2 l m :
  NoDup l -> n1 ∈ l -> n2 ∉ f n1 -> (forall u, f' u = if decide (u = n1) then f n1 ++ [n2] else f u) ->
  indegree f' l m = (indegree f l m + if decide (m = n2) then 1 else 0)%nat.
Proof.
  intros Hnd Hn1 Hn2 Hf. unfold indegree.
  assert (forall l, n1 ∉ l -> List.filter (fun u => bool_decide (m ∈ f' u)) l = List.filter (fun u => bool_decide (m ∈ f u)) l) as Hout.
  { intros l' Hl'. apply filter_ext_in. intros u Hu. rewrite Hf, decide_False; [done|]. intros ->. by apply list_elem_of_In in Hu. }
  apply list_elem_of_split in Hn1 as (l1 & l2 & ->). destruct (nodup_middle _ _ _ Hnd) as [Hnot _].
  rewrite not_elem_of_app in Hnot. destruct Hnot as [Hnot1 Hnot2].
  rewrite !List.filter_app, !length_app. cbn [List.filter]. rewrite !Hout by done. rewrite Hf, decide_True by done.
  destruct (decide (m = n2)) as [->|Hne].
  - rewrite bool_decide_eq_true_2 by (apply elem_of_app; right; by left). rewrite bool_decide_eq_false_2 by done. cbn. lia.
  - rewrite (bool_decide_ext (m ∈ f n1 ++ [n2]) (m ∈ f n1)).
    + destruct (bool_decide _); cbn; lia.
    + rewrite elem_of_app, list_elem_of_singleton. tauto.
Qed.

(** A change that leaves links, flags and names alone. *)
Record keeps (s : tsort_state) (ns' : list node) : Prop := {
  k_length : length ns' = length (nodes s);
  k_chain : forall l g, chain (nodes s) None g l -> chain ns' None g l;
  k_flags : forall m, flags_of (set_nodes ns' s) m = flags_of s m;
  k_names : forall m, name_of (set_nodes ns' s) m = name_of s m
}.

Lemma upd_run s n f :
  (n < length (nodes s))%nat -> (forall x, n_prevp (f x) = n_prevp x /\ n_next (f x) = n_next x /\ n_flags (f x) = n_flags x /\ n_name (f x) = n_name x) ->
  exists ns' x, nodes s !! n = Some x /\ upd n f s = (Ok tt, set_nodes ns' s) /\ keeps s ns' /\
    forall B (v : node -> B) d m, from_option v d (ns' !! m) = if decide (m = n) then v (f x) else from_option v d (nodes s !! m).
Proof.
  intros Hn Hf. apply node_lookup in Hn as (x & Hx). rewrite (run_upd n f s x Hx). eexists _, x. split; [done|]. split; [done|].
  destruct (Hf x) as (H1 & H2 & H3 & H4). split; [|intros B v d m; by apply view_upd]. split.
  - by rewrite length_insert.
  - intros l g. apply chain_links. intros m y _ Hy. destruct (decide (m = n)) as [->|Hne].
    + rewrite Hx in Hy. injection Hy as <-. exists (f x). split; [|done]. apply list_lookup_insert_eq. by eapply lookup_lt_Some.
    + exists y. split; [by rewrite list_lookup_insert_ne|done].
  - intros m. unfold flags_of. cbn. rewrite (view_upd n_flags 0 n f s x m Hx). destruct (decide (m = n)) as [->|]; [by rewrite Hx, H3|done].
  - intros m. unfold name_of. cbn. rewrite (view_upd n_name [] n f s x m Hx). destruct (decide (m = n)) as [->|]; [by rewrite Hx, H4|done].
Qed.

Lemma keeps_trans s ns1 ns2 : keeps s ns1 -> keeps (set_nodes ns1 s) ns2 -> keeps s ns2.
Proof.
  intros [L1 C1 F1 N1] [L2 C2 F2 N2]. split; cbn in *.
  - congruence.
  - eauto.
  - intros m. rewrite <- F1. apply F2.
  - intros m. rewrite <- N1. apply N2.
Qed.

Lemma reading_change s ws ps ps' ns' :
  Reading s ws ps -> keeps s ns' -> (forall a b, before ps' a b -> a ∈ ws /\ b ∈ ws) ->
  (forall u v, v ∈ arcs_of (set_nodes ns' s) u <->
     (u < length (nodes s))%nat /\ (v < length (nodes s))%nat /\ before ps' (name_of s u) (name_of s v)) ->
  (forall u, NoDup (arcs_of (set_nodes ns' s) u)) ->
  (forall n, (n < length (nodes s))%nat -> ref_of (set_nodes ns' s) n = Z.of_nat (indegree (arcs_of (set_nodes ns' s)) (all_nodes s) n)) ->
  (forall n, Z.of_nat (length (arcs_of (set_nodes ns' s) n)) <= size_of (set_nodes ns' s) n) ->
  Reading (set_nodes ns' s) ws ps'.
Proof.
  intros [R1 R2 R3 R4 R5 R6 R7 R8 R9 R10 R11] [L C F N] Hp Ha Hnd Hr Hs.
  assert (all_nodes (set_nodes ns' s) = all_nodes s) as Hall by (unfold all_nodes; cbn; by rewrite L).
  split; rewrite ?Hall; cbn [nodes set_nodes db graph cycle_buf printed]; rewrite ?L; try done.
  - by apply C.
  - intros w n. by rewrite N.
  - intros w. rewrite <- R3. split; intros (n & Hn); exists n; by rewrite ?N in *.
  - intros u v. by rewrite !N.
  - intros n. by rewrite F.
Qed.

(** The views behind [upd], written out. *)
Lemma grow_spec s ws ps n1 :
  Reading s ws ps -> (n1 < length (nodes s))%nat ->
  exists ns', grow n1 s = (Ok tt, set_nodes ns' s) /\ Reading (set_nodes ns' s) ws ps /\ keeps s ns' /\
    Z.of_nat (length (arcs_of (set_nodes ns' s) n1)) < size_of (set_nodes ns' s) n1.
Proof.
  intros R Hn. destruct (node_lookup s n1 Hn) as (x & Hx). unfold grow. rewrite (run_bind_ok _ _ _ _ _ (run_node_at n1 s x Hx)).
  assert (arcs_of s n1 = n_arcs x /\ size_of s n1 = n_arcsize x) as [Ea Es] by (unfold arcs_of, size_of; by rewrite Hx).
  pose proof (r_size _ _ _ R n1) as Hsz. rewrite Ea, Es in Hsz.
  destruct (Z.eqb_spec (Z.of_nat (length (n_arcs x))) (n_arcsize x)) as [Hfull|Hfull]; cbn [mwhen].
  2: { exists (nodes s). assert (set_nodes (nodes s) s = s) as Eq by (by destruct s). rewrite Eq. split; [done|]. split; [done|].
    split; [by split; rewrite ?Eq|]. rewrite Ea, Es. lia. }
  set (z := (if n_arcsize x =? 0 then 10 else n_arcsize x) * PTRSIZE * 2 / PTRSIZE).
  assert (n_arcsize x < z) as Hz.
  { unfold z, PTRSIZE. rewrite <- Z.mul_assoc, (Z.mul_comm 8 2), Z.mul_assoc, Z.div_mul by done. destruct (Z.eqb_spec (n_arcsize x) 0); lia. }
  destruct (upd_run s n1 (set_arcsize z) Hn) as (ns' & x' & Hx' & E & Hk & Hv); [done|].
  rewrite Hx in Hx'. injection Hx' as <-. exists ns'. split; [exact E|].
  assert (forall m, arcs_of (set_nodes ns' s) m = arcs_of s m) as Harcs.
  { intros m. unfold arcs_of. cbn. rewrite Hv. destruct (decide (m = n1)) as [->|]; [by rewrite Hx|done]. }
  assert (forall m, ref_of (set_nodes ns' s) m = ref_of s m) as Href.
  { intros m. unfold ref_of. cbn. rewrite Hv. destruct (decide (m = n1)) as [->|]; [by rewrite Hx|done]. }
  assert (forall m, size_of (set_nodes ns' s) m = if decide (m = n1) then z else size_of s m) as Hsize by (intros m; unfold size_of; cbn; by rewrite Hv).
  split; [|split; [done|rewrite Harcs, Ea, Hsize, decide_True by done; lia]].
  apply (reading_change s ws ps); try done.
  - apply (r_pairs _ _ _ R).
  - intros u v. rewrite Harcs. apply (r_arcs _ _ _ R).
  - intros u. rewrite Harcs. apply (r_nodup _ _ _ R).
  - intros n Hn'. rewrite Href, (r_ref _ _ _ R n Hn'). unfold indegree. do 2 f_equal. apply filter_ext. intros u. by rewrite Harcs.
  - intros n. rewrite Harcs, Hsize. destruct (decide (n = n1)) as [->|]; [rewrite Ea; lia|apply (r_size _ _ _ R)].
Qed.

Lemma add_arc_spec s ws ps s1 s2 :
  Reading s ws ps -> exists s', add_arc s1 s2 s = (Ok tt, s') /\ Reading s' (s2 :: s1 :: ws) ((s1, s2) :: ps).
Proof.
  intros R. unfold add_arc. destruct (get_node_spec s ws ps s1 R) as (n1 & sa & E1 & R1 & Hn1 & Hname1 & Hlen1 & Hkeep1).
  rewrite (run_bind_ok _ _ _ _ _ E1). destruct (bool_decide (s1 = s2)) eqn:Eq.
  { apply bool_decide_eq_true in Eq as <-. exists sa. split; [done|]. eapply reading_pairs; [| |exact R1].
    - intros w. rewrite !elem_of_cons. tauto.
    - intros a b. rewrite before_cons. tauto. }
  apply bool_decide_eq_false in Eq.
  destruct (get_node_spec sa _ ps s2 R1) as (n2 & sb & E2 & R2 & Hn2 & Hname2 & Hlen2 & Hkeep2). rewrite (run_bind_ok _ _ _ _ _ E2).
  assert (n1 < length (nodes sb))%nat as Hn1b by lia. assert (name_of sb n1 = s1) as Hname1b by (by rewrite Hkeep2).
  destruct (node_lookup sb n1 Hn1b) as (x & Hx). rewrite (run_bind_ok _ _ _ _ _ (run_node_at n1 sb x Hx)).
  assert (n_arcs x = arcs_of sb n1) as Ex by (unfold arcs_of; by rewrite Hx). rewrite Ex.
  destruct (bool_decide (n2 ∈ arcs_of sb n1)) eqn:Ein.
  { apply bool_decide_eq_true in Ein. exists sb. split; [done|]. eapply reading_pairs; [| |exact R2]; [done|].
    intros a b. rewrite before_cons. split; [|by right]. intros [(_ & -> & ->)|H]; [|done].
    apply (r_arcs _ _ _ R2) in Ein as (_ & _ & H). by rewrite Hname1b, Hname2 in H. }
  apply bool_decide_eq_false in Ein. clear x Hx Ex.
  destruct (grow_spec sb _ ps n1 R2 Hn1b) as (ns3 & E3 & R3 & K3 & Hroom). rewrite (run_bind_ok _ _ _ _ _ E3). set (sc := set_nodes ns3 sb) in *.
  assert (length (nodes sc) = length (nodes sb)) as Lc by apply (k_length _ _ K3).
  assert (name_of sc n1 = s1 /\ name_of sc n2 = s2) as [N1 N2] by (split; [rewrite (k_names _ _ K3)|rewrite (k_names _ _ K3)]; done).
  assert (n2 ∉ arcs_of sc n1) as Hnin.
  { intros H. apply Ein. apply (r_arcs _ _ _ R3) in H as (H1 & H2 & H3). apply (r_arcs _ _ _ R2).
    rewrite N1, N2 in H3. rewrite Hname1b, Hname2. by split_and!. }
  assert (n1 < length (nodes sc))%nat as Hn1c by lia. assert (n2 < length (nodes sc))%nat as Hn2c by lia. clearbody sc.
  destruct (upd_run sc n1 (set_arcs (arcs_of sc n1 ++ [n2])) Hn1c) as (ns4 & x & Hx & E4 & K4 & V4); [done|].
  rewrite (run_bind_ok _ _ _ _ _ (run_node_at n1 sc x Hx)).
  assert (n_arcs x = arcs_of sc n1 /\ n_arcsize x = size_of sc n1) as [-> ->] by (unfold arcs_of, size_of; by rewrite Hx).
  destruct (Z.ltb_spec (Z.of_nat (length (arcs_of sc n1))) (size_of sc n1)); [|lia]. rewrite (run_bind_ok _ _ _ _ _ E4).
  set (sd := set_nodes ns4 sc) in *. assert (n2 < length (nodes sd))%nat as Hn2d by (cbn; rewrite (k_length _ _ K4); done).
  destruct (node_lookup sd n2 Hn2d) as (y & Hy). rewrite (run_bind_ok _ _ _ _ _ (run_node_at n2 sd y Hy)).
  destruct (upd_run sd n2 (set_refcnt (n_refcnt y + 1)) Hn2d) as (ns5 & y' & Hy' & E5 & K5 & V5); [done|].
  rewrite Hy in Hy'. injection Hy' as <-. rewrite E5. exists (set_nodes ns5 sc). split; [done|].
  assert (forall m, arcs_of (set_nodes ns5 sc) m = if decide (m = n1) then arcs_of sc n1 ++ [n2] else arcs_of sc m) as Harcs.
  { intros m. unfold arcs_of at 1. cbn. rewrite V5. destruct (decide (m = n2)) as [->|Hne].
    - transitivity (n_arcs y); [done|]. transitivity (from_option n_arcs [] (nodes sd !! n2)); [by rewrite Hy|]. cbn. by rewrite V4.
    - cbn. by rewrite V4. }
  assert (forall m, ref_of (set_nodes ns5 sc) m = if decide (m = n2) then ref_of sc n2 + 1 else ref_of sc m) as Href.
  { assert (forall m, from_option n_refcnt 0 (nodes sd !! m) = ref_of sc m) as H4.
    { intros m. cbn. rewrite V4. unfold ref_of. destruct (decide (m = n1)) as [->|]; [by rewrite Hx|done]. }
    intros m. unfold ref_of at 1. cbn. rewrite V5. destruct (decide (m = n2)) as [->|Hne]; [|apply H4]. cbn. rewrite <- H4, Hy. done. }
  assert (forall m, size_of (set_nodes ns5 sc) m = size_of sc m) as Hsize.
  { assert (forall m, from_option n_arcsize 0 (nodes sd !! m) = size_of sc m) as H4.
    { intros m. cbn. rewrite V4. unfold size_of. destruct (decide (m = n1)) as [->|]; [by rewrite Hx|done]. }
    intros m. unfold size_of at 1. cbn. rewrite V5. destruct (decide (m = n2)) as [->|Hne]; [|apply H4]. cbn. rewrite <- H4, Hy. done. }
  apply (reading_change sc _ ps); try done.
  - by eapply keeps_trans.
  - intros a b [(_ & -> & ->)|Hb]%before_cons; [split; [right; by left|by left]|]. by apply (r_pairs _ _ _ R3).
  - intros u v. rewrite Harcs, before_cons. destruct (decide (u = n1)) as [->|Hu].
    + rewrite elem_of_app, list_elem_of_singleton, (r_arcs _ _ _ R3), N1. split.
      * intros [(H1 & H2 & H3)| ->]; [split_and!; [done|done|by right]|]. split_and!; [done|done|left; by split_and!].
      * intros (H1 & H2 & [(_ & _ & H3)|H3]); [|left; by split_and!]. right. eapply (r_inj _ _ _ _ _ R3); [done|done|congruence].
    + rewrite (r_arcs _ _ _ R3). split; intros (H1 & H2 & H3); (split; [done|]); (split; [done|]); [by right|].
      destruct H3 as [(_ & H3 & _)|H3]; [|done]. destruct Hu. eapply (r_inj _ _ _ _ _ R3); [done|done|congruence].
  - intros u. rewrite Harcs. destruct (decide (u = n1)) as [->|]; [|apply (r_nodup _ _ _ R3)].
    apply NoDup_app. split; [apply (r_nodup _ _ _ R3)|]. split; [|apply NoDup_singleton].
    intros z Hz Hz'. apply list_elem_of_singleton in Hz' as ->. done.
  - intros n Hn. rewrite (indegree_add (arcs_of sc) _ n1 n2 _ n); [|apply all_nodup|by apply in_all|done|apply Harcs].
    rewrite Href. pose proof (r_ref _ _ _ R3 n Hn) as Hr. destruct (decide (n = n2)) as [->|]; [rewrite Hr; lia|rewrite Hr; lia].
  - intros n. rewrite Harcs, Hsize. destruct (decide (n = n1)) as [->|]; [rewrite length_app; cbn; lia|apply (r_size _ _ _ R3)].
Qed.

(** ** The words of the input *)

(** How a text is divided into words. *)
Inductive spells : list Z -> list word -> Prop :=
  | spells_end sp : forallb isspace sp = true -> spells sp []
  | spells_word sp w rest ws :
      forallb isspace sp = true -> w <> [] -> existsb isspace w = false ->
      match rest with [] => True | c :: _ => isspace c = true end ->
      spells rest ws -> spells (sp ++ w ++ rest) (w :: ws).

Fixpoint pairs_of (ws : list word) : list (word * word) :=
  match ws with a :: b :: ws => (cstr a, cstr b) :: pairs_of ws | _ => [] end.
Definition words_of (ps : list (word * word)) : list word := flat_map (fun '(a, b) => [a; b]) ps.

Lemma skip_space_app sp l : forallb isspace sp = true -> skip_space (sp ++ l) = skip_space l.
Proof. induction sp as [|c sp IH]; [done|]. cbn. intros [H1 H2]%andb_true_iff. by rewrite H1, IH. Qed.

Lemma skip_space_all sp : forallb isspace sp = true -> skip_space sp = [].
Proof. intros H. rewrite <- (app_nil_r sp), skip_space_app by done. done. Qed.

Lemma take_word_app w rest :
  existsb isspace w = false -> match rest with [] => True | c :: _ => isspace c = true end -> take_word (w ++ rest) = (w, rest).
Proof.
  induction w as [|c w IH]; cbn.
  - intros _. destruct rest as [|c rest]; [done|]. cbn. by intros ->.
  - intros [H1 H2]%orb_false_iff Hr. by rewrite H1, IH.
Qed.

Lemma spells_total fp : exists ws, spells fp ws.
Proof.
  induction fp as [|c fp (ws & Hs)]; [exists []; by constructor|]. destruct (isspace c) eqn:E.
  - exists ws. inversion Hs; subst; [constructor; cbn; by rewrite E|]. change (c :: sp ++ w ++ rest) with ((c :: sp) ++ w ++ rest).
    constructor; try done. cbn. by rewrite E.
  - assert (existsb isspace [c] = false) as Hc by (cbn; by rewrite E).
    assert (match fp with [] => True | d :: _ => isspace d = true end -> exists ws, spells (c :: fp) ws) as Halone.
    { intros Hd. exists ([c] :: ws). by apply (spells_word [] [c] fp ws). }
    destruct fp as [|d fp]; [by apply Halone|]. inversion Hs as [sp Hsp Esp|sp w rest ws0 Hsp Hw Hnw Hr Hrest Esp]; subst.
    + apply Halone. cbn in Hsp. by apply andb_true_iff in Hsp as [Hsp _].
    + rewrite Esp. destruct sp as [|b sp]; [|injection Esp as -> _; apply Halone; cbn in Hsp; by apply andb_true_iff in Hsp as [Hsp _]].
      cbn in Esp. rewrite <- Esp. exists ((c :: w) :: ws0). apply (spells_word [] (c :: w) rest ws0); try done.
      cbn. by rewrite E, Hnw.
Qed.

Lemma word_loop_spec fp ws : spells fp ws -> forall fuel n buf0 ps s,
  Reading s (words_of ps) ps -> (length fp < fuel)%nat ->
  exists s' b, word_loop fuel n buf0 fp s = (Ok b, s') /\ b = Nat.odd (length (if n : bool then buf0 :: ws else ws)) /\
    Reading s' (words_of (rev (pairs_of (if n then buf0 :: ws else ws)) ++ ps)) (rev (pairs_of (if n then buf0 :: ws else ws)) ++ ps).
Proof.
  induction 1 as [sp Hsp|sp w rest ws Hsp Hw Hnw Hr _ IH]; intros [|fuel] n buf0 ps s R Hf; try lia; cbn [word_loop].
  - rewrite skip_space_all by done. exists s, n. destruct n; by split_and!.
  - rewrite !length_app in Hf. assert (0 < length w)%nat as Hlw by (destruct w; [done|cbn; lia]).
    assert (skip_space (sp ++ w ++ rest) = w ++ rest) as ->.
    { rewrite skip_space_app by done. destruct w as [|c w]; [done|]. cbn in *. by apply orb_false_iff in Hnw as [-> _]. }
    pose proof (take_word_app w rest Hnw Hr) as Ht. destruct (w ++ rest) as [|c l] eqn:E; [by destruct w|]. rewrite Ht.
    destruct n; [|by apply (IH fuel true w ps s R); lia].
    destruct (add_arc_spec s _ ps (cstr buf0) (cstr w) R) as (s1 & E1 & R1). rewrite (run_bind_ok _ _ _ _ _ E1).
    assert (Reading s1 (words_of ((cstr buf0, cstr w) :: ps)) ((cstr buf0, cstr w) :: ps)) as R2.
    { eapply reading_pairs; [| |exact R1]; [|done]. intros v. cbn. rewrite !elem_of_cons. tauto. }
    destruct (IH fuel false buf0 _ s1 R2) as (s' & b & E2 & Hb & R3); [lia|]. exists s', b. split; [done|]. split.
    + rewrite Hb. cbn [length]. rewrite !Nat.odd_succ, Nat.even_succ. done.
    + cbn [pairs_of rev]. by rewrite <- app_assoc.
Qed.

Lemma before_rev ps a b : before (rev ps ++ []) a b <-> before ps a b.
Proof. unfold before. rewrite app_nil_r. by rewrite !list_elem_of_In, <- in_rev. Qed.

Lemma words_of_in ps w : w ∈ words_of ps <-> exists a b, (a, b) ∈ ps /\ (w = a \/ w = b).
Proof.
  unfold words_of. rewrite list_elem_of_In, in_flat_map. split.
  - intros ([a b] & H1 & H2). exists a, b. split; [by apply list_elem_of_In|]. cbn in H2. destruct H2 as [->|[->|[]]]; auto.
  - intros (a & b & H1 & H2). exists (a, b). split; [by apply list_elem_of_In|]. cbn. destruct H2 as [->| ->]; auto.
Qed.

Lemma words_of_rev ps w : w ∈ words_of (rev ps ++ []) <-> w ∈ words_of ps.
Proof. rewrite !words_of_in, app_nil_r. by setoid_rewrite list_elem_of_In; setoid_rewrite <- in_rev. Qed.

(** ** From the graph to the sort *)

Lemma reading_graph s ws ps :
  Reading s ws ps -> Graph (arcs_of s) (name_of s) (length (nodes s)) s (all_nodes s) /\ clear s (all_nodes s).
Proof.
  intros R. split; [|intros n _; unfold nodest; by rewrite (r_flags _ _ _ R)]. split; try done.
  - apply (r_chain _ _ _ R).
  - apply all_nodup.
  - intros n. unfold left_arcs. destruct (decide (n ∈ all_nodes s)) as [Hn|Hn]; [done|]. rewrite in_all in Hn. unfold arcs_of.
    rewrite lookup_ge_None_2; [done|lia].
  - apply (r_ref _ _ _ R).
  - intros n. unfold marked. by rewrite (r_flags _ _ _ R).
  - intros n. unfold acyclic. by rewrite (r_flags _ _ _ R).
  - left. split; [apply (r_bufs _ _ _ R)|]. intros u v _ Hv. apply (r_arcs _ _ _ R) in Hv as (_ & Hv & _). by apply in_all.
Qed.
