(* ===== verification/TsortSpec.v ===== *)
(** * tsort: the order of the words

    [sort_run] is the abstract sort of the words of the input; [tsort_refines] says that the program does it, and
    [tsort_orders] what that means: the words come out in an order that agrees with all pairs, unless there is a cycle,
    which is then reported. *)

From Stdlib Require Import ZArith Lia List Bool.
From stdpp Require Import base tactics list numbers gmap relations.
From S2P Require Import Prelude Tsort TsortFacts TsortCycle TsortSort TsortRead.

Local Open Scope Z_scope.

(** [c] leads from [u] to [v], through words that are left. *)
Fixpoint follows (ps : list (word * word)) (l : list word) (u : word) (c : list word) (v : word) : Prop :=
  match c with [] => u = v | w :: c => u ∈ l /\ before ps u w /\ follows ps l w c v end.

(** The abstract sort: [ps] are the pairs, the lists are the words left; [q] is the option -q. *)
Inductive sort_step (q : bool) (ps : list (word * word)) : list word -> list event -> list word -> Prop :=
  | sort_free l1 w l2 :
      (forall u, u ∈ l1 ++ w :: l2 -> ~ before ps u w) ->
      sort_step q ps (l1 ++ w :: l2) [Line w] (l1 ++ l2)
  | sort_broken l1 w l2 c :
      (forall v, v ∈ l1 ++ w :: l2 -> exists u, u ∈ l1 ++ w :: l2 /\ before ps u v) ->
      c <> [] -> NoDup c -> follows ps (l1 ++ w :: l2) w c w ->
      sort_step q ps (l1 ++ w :: l2) ((if q then [] else CycleInData :: map InCycle c) ++ [Line w]) (l1 ++ l2).
Inductive sort_run (q : bool) (ps : list (word * word)) : list word -> list event -> list word -> Prop :=
  | run_none l : sort_run q ps l [] l
  | run_step l evs l' evs' l'' : sort_step q ps l evs l' -> sort_run q ps l' evs' l'' -> sort_run q ps l (evs ++ evs') l''.

(** ** Nodes and words *)

Section Names.
Context (o : tsort_opts) (s : tsort_state) (ws : list word) (ps : list (word * word)).
Hypothesis (R : Reading s ws ps).

Abbreviation K := (length (nodes s)).
Abbreviation Nm := (name_of s).

Lemma elem_names l w : w ∈ map Nm l <-> exists n, n ∈ l /\ w = Nm n.
Proof. rewrite list_elem_of_In, in_map_iff. setoid_rewrite list_elem_of_In. split; intros (n & H1 & H2); exists n; auto. Qed.

Lemma arc_names u v : (u < K)%nat -> (v < K)%nat -> v ∈ arcs_of s u <-> before ps (Nm u) (Nm v).
Proof. intros Hu Hv. rewrite (r_arcs _ _ _ R). split; [by intros (_ & _ & H)|]. intros H. by split_and!. Qed.

Lemma walk_names l u c v :
  (forall n, n ∈ l -> (n < K)%nat) -> (u < K)%nat -> walk (left_arcs (arcs_of s) l) u c v -> follows ps (map Nm l) (Nm u) (map Nm c) (Nm v).
Proof.
  intros Hl. revert u. induction c as [|w c IH]; intros u Hu; cbn; [by intros ->|]. intros [H1 H2]. unfold left_arcs in H1.
  destruct (decide (u ∈ l)) as [Hul|]; [|by apply not_elem_of_nil in H1].
  assert (w < K)%nat as Hw by (by apply (r_arcs _ _ _ R) in H1 as (_ & H1 & _)).
  split; [apply elem_names; by exists u|]. split; [by apply arc_names|by apply IH].
Qed.

Lemma names_nodup l : (forall n, n ∈ l -> (n < K)%nat) -> NoDup l -> NoDup (map Nm l).
Proof.
  intros Hl Hnd. induction Hnd as [|n l Hn Hnd IH]; cbn; [by apply NoDup_nil|]. apply NoDup_cons. split.
  - intros (m & Hm & E)%elem_names. apply Hn. assert (n = m) as ->; [|done]. eapply (r_inj _ _ _ _ _ R); [apply Hl; by left|apply Hl; by right|done].
  - apply IH. intros m Hm. apply Hl. by right.
Qed.

Lemma takes_step l evs l' :
  (forall n, n ∈ l -> (n < K)%nat) -> takes o (arcs_of s) Nm l evs l' -> sort_step (quiet o) ps (map Nm l) evs (map Nm l') /\
    (forall n, n ∈ l' -> (n < K)%nat).
Proof.
  intros Hl H. destruct H as [l1 n l2 Hfree|l1 n l2 c Hpred (Hne & Hnd & Hw)].
  - split; [|intros m Hm; apply Hl; apply elem_middle; by right]. rewrite !map_app. cbn [map]. apply sort_free.
    intros u Hu. change (map Nm l1 ++ Nm n :: map Nm l2) with (map Nm l1 ++ map Nm (n :: l2)) in Hu. rewrite <- map_app in Hu.
    apply elem_names in Hu as (m & Hm & ->). rewrite <- arc_names; [by apply Hfree|by apply Hl|apply Hl; apply elem_middle; by left].
  - split; [|intros m Hm; apply Hl; apply elem_middle; by right].
    assert (n < K)%nat as HnK by (apply Hl; apply elem_middle; by left).
    assert (forall m, m ∈ c -> (m < K)%nat) as HcK.
    { eapply (walk_in (arcs_of s) K); [|exact Hl|exact Hw]. intros u v Hv. by apply (r_arcs _ _ _ R) in Hv as (_ & Hv & _). }
    assert (map (fun m => InCycle (Nm m)) c = map InCycle (map Nm c)) as -> by (by rewrite map_map).
    apply (walk_names _ _ _ _ Hl HnK) in Hw. rewrite map_app in Hw. cbn [map] in Hw. rewrite !map_app. cbn [map].
    apply sort_broken; [|by destruct c|by apply names_nodup|done].
    intros v Hv. change (map Nm l1 ++ Nm n :: map Nm l2) with (map Nm l1 ++ map Nm (n :: l2)) in *. rewrite <- map_app in *.
    apply elem_names in Hv as (m & Hm & ->). destruct (Hpred m Hm) as (u & Hu & Hin). exists (Nm u).
    split; [apply elem_names; by exists u|]. by apply arc_names; [apply Hl|apply Hl|].
Qed.

Lemma take_all_run l evs l' :
  take_all o (arcs_of s) Nm l evs l' -> (forall n, n ∈ l -> (n < K)%nat) -> sort_run (quiet o) ps (map Nm l) evs (map Nm l').
Proof.
  induction 1 as [l|l evs l1 evs' l2 H _ IH]; intros Hl; [apply run_none|]. destruct (takes_step _ _ _ Hl H) as [Hs Hl1].
  eapply run_step; [exact Hs|by apply IH].
Qed.

End Names.

Lemma follows_pairs ps ps' l u c v : (forall a b, before ps a b <-> before ps' a b) -> follows ps l u c v -> follows ps' l u c v.
Proof. intros H. revert u. induction c as [|w c IH]; intros u; cbn; [done|]. rewrite <- H. intros (H1 & H2 & H3). auto. Qed.

Lemma step_pairs q ps ps' l evs l' : (forall a b, before ps a b <-> before ps' a b) -> sort_step q ps l evs l' -> sort_step q ps' l evs l'.
Proof.
  intros H [l1 w l2 Hf|l1 w l2 c Hp Hne Hnd Hfo].
  - apply sort_free. intros u Hu. rewrite <- H. by apply Hf.
  - apply sort_broken; try done.
    + intros v Hv. destruct (Hp v Hv) as (u & Hu & Hb). exists u. by rewrite <- H.
    + by eapply follows_pairs.
Qed.

Lemma run_pairs q ps ps' l evs l' : (forall a b, before ps a b <-> before ps' a b) -> sort_run q ps l evs l' -> sort_run q ps' l evs l'.
Proof. intros H. induction 1; [apply run_none|]. eapply run_step; [by eapply step_pairs|done]. Qed.

Lemma main_odd o fp ws :
  spells fp ws -> Nat.odd (length ws) = true -> exists s', main o fp init = (Ex (Exit 1), s') /\ printed s' = [].
Proof.
  intros Hs Ho. destruct (word_loop_spec fp ws Hs (S (length fp)) false [] [] init reading_init ltac:(lia)) as (s1 & b & E & -> & R).
  unfold main. rewrite (run_bind_ok _ _ _ _ _ E), Ho. exists s1. split; [done|apply (r_printed _ _ _ R)].
Qed.

Lemma main_even o fp ws :
  spells fp ws -> Nat.odd (length ws) = false -> exists s' l, main o fp init = (Ok tt, s') /\ NoDup l /\
    (forall w, w ∈ l <-> w ∈ words_of (pairs_of ws)) /\ sort_run (quiet o) (pairs_of ws) l (shown s') [].
Proof.
  intros Hs Ho. destruct (word_loop_spec fp ws Hs (S (length fp)) false [] [] init reading_init ltac:(lia)) as (s1 & b & E & -> & R).
  unfold main. rewrite (run_bind_ok _ _ _ _ _ E), Ho. destruct (reading_graph _ _ _ R) as [G Hcl].
  destruct (tsort_spec o _ _ _ (r_nodup _ _ _ R) (fun n v Hv => proj1 (proj2 (proj1 (r_arcs _ _ _ R n v) Hv))) s1 _ G Hcl) as (s2 & evs & E2 & S2 & T2).
  exists s2, (map (name_of s1) (all_nodes s1)). split; [exact E2|]. split; [|split].
  - eapply names_nodup; [exact R| |apply all_nodup]. intros n. by apply in_all.
  - intros w. rewrite <- words_of_rev, <- (r_words _ _ _ R), elem_names. setoid_rewrite in_all. split; intros (n & H1 & H2); exists n; auto.
  - assert (shown s1 = []) as Hp by (unfold shown; by rewrite (r_printed _ _ _ R)). rewrite Hp in S2. cbn in S2. rewrite S2.
    eapply run_pairs; [|eapply (take_all_run o s1 _ _ R _ _ [] T2)]; [apply before_rev|]. intros n. by apply in_all.
Qed.

(** ** What a run of the sort is *)

(** [a] stands in front of [b]. *)
Definition precedes (out : list word) (a b : word) : Prop := exists i j, out !! i = Some a /\ out !! j = Some b /\ (i < j)%nat.

(** A word that comes before itself. *)
Definition cyclic (ps : list (word * word)) : Prop := exists w, tc (before ps) w w.

Lemma follows_tc ps l u c v : follows ps l u c v -> c <> [] -> tc (before ps) u v.
Proof.
  revert u. induction c as [|w c IH]; intros u H Hne; [done|]. destruct H as (_ & Hb & H). destruct c as [|x c].
  - cbn in H. subst. by apply tc_once.
  - eapply tc_l; [exact Hb|]. by apply IH.
Qed.

Lemma precedes_cons w out a b : precedes out a b -> precedes (w :: out) a b.
Proof. intros (i & j & H1 & H2 & H3). exists (S i), (S j). split; [done|]. split; [done|lia]. Qed.

(** Every run takes all words; it reports a cycle, or it puts them in order. *)
Lemma run_order q ps l evs l' :
  sort_run q ps l evs l' -> l' = [] -> NoDup l ->
  (cyclic ps /\ (q = false -> CycleInData ∈ evs)) \/
  (exists out, evs = map Line out /\ l ≡ₚ out /\ forall a b, before ps a b -> a ∈ l -> b ∈ l -> precedes out a b).
Proof.
  induction 1 as [l|l evs l1 evs' l2 Hs _ IH]; intros El Hnd.
  - subst l. right. exists []. split; [done|]. split; [done|]. intros a b _ Ha. by apply not_elem_of_nil in Ha.
  - destruct Hs as [la w lb Hfree|la w lb c _ Hne _ Hfo].
    + assert (NoDup (w :: la ++ lb)) as Hnd' by (rewrite Permutation_middle; done). apply NoDup_cons in Hnd' as [Hw Hnd'].
      assert (forall v, v ∈ la ++ w :: lb <-> v = w \/ v ∈ la ++ lb) as Hmid by (intros v; rewrite <- Permutation_middle; apply elem_of_cons).
      destruct (IH El Hnd') as [[Hc Hin]|(out & -> & Hp & Hord)].
      * left. split; [done|]. intros Hq. apply elem_of_app. right. by apply Hin.
      * right. exists (w :: out). split; [done|]. split; [by rewrite <- Permutation_middle, Hp|]. intros a b Hb Ha Hbl.
        apply Hmid in Hbl as [->|Hbl]; [by destruct (Hfree a Ha)|]. apply Hmid in Ha as [->|Ha].
        -- rewrite Hp in Hbl. apply list_elem_of_lookup in Hbl as [j Hj]. exists 0%nat, (S j). split; [done|]. split; [done|lia].
        -- by apply precedes_cons, Hord.
    + left. split; [exists w; by eapply follows_tc|]. intros ->. apply elem_of_app. left. apply elem_of_app. left. by left.
Qed.

(** An order excludes cycles. *)
Lemma ordered_acyclic ps out :
  NoDup out -> (forall a b, before ps a b -> precedes out a b) -> ~ cyclic ps.
Proof.
  intros Hnd Hord (w & Hw). assert (forall a b, tc (before ps) a b -> precedes out a b) as H.
  { induction 1 as [a b Hb|a b c Hb _ IH]; [by apply Hord|]. destruct (Hord _ _ Hb) as (i & j & H1 & H2 & H3).
    destruct IH as (j' & k & H4 & H5 & H6). assert (j = j') as -> by (by eapply NoDup_lookup). exists i, k. split; [done|]. split; [done|lia]. }
  destruct (H w w Hw) as (i & j & H1 & H2 & H3). assert (i = j) by (by eapply NoDup_lookup). lia.
Qed.

(** C28. What the order is.  For an even number of words: when no word comes before itself, through any number of pairs, the program prints
    every different word of the input once, nothing else, and the first word of each pair in front of the second
    (a pair of equal words only names the word).  And without -q "cycle in data" is reported exactly when some word comes before itself. *)
Theorem tsort_orders (o : tsort_opts) (fp : list Z) (ws : list word)
    (Hspells : spells fp ws) (Heven : Nat.odd (length ws) = false) :
  exists s', main o fp init = (Ok tt, s') /\
    (~ cyclic (pairs_of ws) -> exists out, shown s' = map Line out /\ NoDup out /\ (forall w, w ∈ out <-> w ∈ words_of (pairs_of ws)) /\
       forall a b, (a, b) ∈ pairs_of ws -> a <> b -> precedes out a b) /\
    (quiet o = false -> CycleInData ∈ shown s' <-> cyclic (pairs_of ws)).
Proof.
  destruct (main_even o fp ws Hspells Heven) as (s' & l & E & Hnd & Hl & Hrun). exists s'. split; [done|].
  assert (forall a b, before (pairs_of ws) a b -> a ∈ l /\ b ∈ l) as Hin.
  { intros a b [H _]. split; apply Hl, words_of_in; exists a, b; auto. }
  destruct (run_order _ _ _ _ _ Hrun eq_refl Hnd) as [[Hc Hrep]|(out & Eout & Hp & Hord)].
  - split; [done|]. intros Hq. split; [done|]. intros _. by apply Hrep.
  - assert (~ cyclic (pairs_of ws)) as Hac.
    { apply (ordered_acyclic _ out); [by rewrite <- Hp|]. intros a b Hb. destruct (Hin a b Hb). by apply Hord. }
    split.
    + intros _. exists out. split; [done|]. split; [by rewrite <- Hp|]. split; [intros w; by rewrite <- Hp|].
      intros a b Hab Hne. destruct (Hin a b (conj Hab Hne)). by apply Hord.
    + intros _. split; [|done]. rewrite Eout. intros H. exfalso. apply list_elem_of_fmap in H as (w & Hw & _). done.
Qed.

(** C16. tsort is the abstract sort of the words of its input.  For every text, with the words [ws]: an odd number of words is
    refused with status 1 before anything is printed.  Otherwise the program exits with 0 - "internal error" is never
    reached, no array is overrun and no loop is endless - and what it prints, debugging aside, is a run of
    the abstract sort from the different words of the input to the empty list: a word that no word left comes
    before is printed and taken away; only when there is none, a word of a cycle, of different words that are left and follow each other
    in the pairs, which is reported (without -q). *)
Theorem tsort_refines (o : tsort_opts) (fp : list Z) (ws : list word) :
  spells fp ws ->
  exists s', 
    (Nat.odd (length ws) = true -> main o fp init = (Ex (Exit 1), s') /\ printed s' = []) /\
    (Nat.odd (length ws) = false -> main o fp init = (Ok tt, s') /\
       exists l, NoDup l /\ (forall w, w ∈ l <-> w ∈ words_of (pairs_of ws)) /\
         sort_run (quiet o) (pairs_of ws) l (shown s') []).
Proof.
  intros Hs. destruct (Nat.odd (length ws)) eqn:Ho.
  - destruct (main_odd o fp ws Hs Ho) as (s' & E & Hp). exists s'. done.
  - destruct (main_even o fp ws Hs Ho) as (s' & l & E & Hnd & Hl & Hrun). exists s'. split; [done|]. intros _. split; [done|]. by exists l.
Qed.

(** ** Witnesses *)

(** "a b b c" and, with a cycle, "a b b a"; letters are 97 to 99. *)
Lemma spells_letters (cs : list Z) : forallb (fun c => negb (isspace c)) cs = true -> spells (flat_map (fun c => [c; 32]) cs) (map (fun c => [c]) cs).
Proof.
  induction cs as [|c cs IH]; cbn; [by constructor|]. intros [H1%negb_true_iff H2]%andb_true_iff.
  apply (spells_word [] [c] (32 :: flat_map (fun c => [c; 32]) cs)); [done|done|cbn; by rewrite H1|done|].
  specialize (IH H2). inversion IH as [sp Hsp E1 E2|sp w rest ws Hsp Hw Hnw Hr Hrest E1 E2]; subst.
  - constructor. cbn. done.
  - change (32 :: sp ++ w ++ rest) with ((32 :: sp) ++ w ++ rest). by constructor.
Qed.

Lemma tsort_refines_witness :
  exists s',
    (Nat.odd 3 = true -> main (mkOptions false false false) [97; 32; 98; 32; 99; 32] init = (Ex (Exit 1), s') /\ printed s' = []) /\
    (Nat.odd 3 = false -> main (mkOptions false false false) [97; 32; 98; 32; 99; 32] init = (Ok tt, s') /\
       exists l, NoDup l /\ (forall w, w ∈ l <-> w ∈ words_of (pairs_of [[97]; [98]; [99]])) /\
         sort_run false (pairs_of [[97]; [98]; [99]]) l (shown s') []).
Proof. apply (tsort_refines (mkOptions false false false) [97; 32; 98; 32; 99; 32] [[97]; [98]; [99]] (spells_letters [97; 98; 99] eq_refl)). Defined.

Lemma tsort_orders_witness :
  exists s', main (mkOptions false false false) [97; 32; 98; 32; 98; 32; 97; 32] init = (Ok tt, s') /\
    (~ cyclic (pairs_of [[97]; [98]; [98]; [97]]) -> exists out, shown s' = map Line out /\ NoDup out /\
       (forall w, w ∈ out <-> w ∈ words_of (pairs_of [[97]; [98]; [98]; [97]])) /\
       forall a b, (a, b) ∈ pairs_of [[97]; [98]; [98]; [97]] -> a <> b -> precedes out a b) /\
    (false = false -> CycleInData ∈ shown s' <-> cyclic (pairs_of [[97]; [98]; [98]; [97]])).
Proof. apply (tsort_orders (mkOptions false false false) [97; 32; 98; 32; 98; 32; 97; 32] [[97]; [98]; [98]; [97]] (spells_letters [97; 98; 98; 97] eq_refl) eq_refl). Defined.

(** The option -l does not find the longest cycle.  For the pairs "b c", "c b", "b a", "a b", "a c" there is the cycle a, c,
    b, of three words; with -l the program reports a, b, of two, as it does without: when it comes to c by way of b, b is
    marked, so that nothing is found and c is flagged for the rest of the search. *)
Theorem longest_missed :
  let ps := [([98], [99]); ([99], [98]); ([98], [97]); ([97], [98]); ([97], [99])] in
  follows ps (words_of ps) [97] [[99]; [98]; [97]] [97] /\
  forall q, exists s' rest,
    main (mkOptions false true q) [98; 32; 99; 32; 99; 32; 98; 32; 98; 32; 97; 32; 97; 32; 98; 32; 97; 32; 99; 10] init = (Ok tt, s') /\
    (q = false -> shown s' = [CycleInData; InCycle [98]; InCycle [97]; Line [97]] ++ rest).
Proof.
  intros ps. split.
  - cbn. unfold before. repeat split; try done; repeat (left || right); by left.
  - intros [|]; [eexists _, []|eexists _, _]; (split; [vm_compute; reflexivity|]); [done|]. intros _. vm_compute. reflexivity.
Qed.
