(* ===== verification/FindExpr.v ===== *)
(** * find: the expression
    ([src/shell_cmds/find/find.c], [operator.c], [option.c] and the operators of [function.c])

    [find_formplan] makes a list of nodes, one for each argument that is a primary or an operator, and rearranges it in three passes,
    for parentheses, negations and alternatives; [find_execute] calls the functions of the list for each file.  A node
    is in one list only, so that the linked lists are lists here; [p_data] is the pair of lists that an operator holds.
    The primaries are a parameter: how one is made from its arguments, and what it does. *)

From Stdlib Require Import ZArith Lia List Bool String.
From stdpp Require Import base tactics list numbers strings.
From S2P Require Import Prelude.

Local Open Scope Z_scope.
Local Open Scope list_scope.

(** ** The table of options *)

Inductive creat := c_simple | c_and | c_print | c_other.
Inductive operator := o_open | o_close | o_not | o_or | o_none.

(** [options]: the name, [create], and [execute] as far as it is an operator. *)
Definition options_table : list (string * (creat * operator)) :=
  [("!", (c_simple, o_not)); ("(", (c_simple, o_open)); (")", (c_simple, o_close));
   ("-Bmin", (c_other, o_none)); ("-Bnewer", (c_other, o_none)); ("-Btime", (c_other, o_none));
   ("-a", (c_and, o_none)); ("-acl", (c_other, o_none)); ("-amin", (c_other, o_none)); ("-and", (c_and, o_none));
   ("-anewer", (c_other, o_none)); ("-atime", (c_other, o_none)); ("-cmin", (c_other, o_none)); ("-cnewer", (c_other, o_none));
   ("-ctime", (c_other, o_none)); ("-d", (c_other, o_none)); ("-delete", (c_other, o_none)); ("-depth", (c_other, o_none));
   ("-empty", (c_other, o_none)); ("-exec", (c_other, o_none)); ("-execdir", (c_other, o_none)); ("-false", (c_simple, o_none));
   ("-flags", (c_other, o_none)); ("-follow", (c_other, o_none)); ("-fstype", (c_other, o_none)); ("-gid", (c_other, o_none));
   ("-group", (c_other, o_none)); ("-ignore_readdir_race", (c_simple, o_none)); ("-ilname", (c_other, o_none));
   ("-iname", (c_other, o_none)); ("-inum", (c_other, o_none)); ("-ipath", (c_other, o_none)); ("-iregex", (c_other, o_none));
   ("-iwholename", (c_other, o_none)); ("-links", (c_other, o_none)); ("-lname", (c_other, o_none)); ("-ls", (c_other, o_none));
   ("-maxdepth", (c_other, o_none)); ("-mindepth", (c_other, o_none)); ("-mmin", (c_other, o_none)); ("-mnewer", (c_other, o_none));
   ("-mount", (c_other, o_none)); ("-mtime", (c_other, o_none)); ("-name", (c_other, o_none)); ("-newer", (c_other, o_none));
   ("-newerBB", (c_other, o_none)); ("-newerBa", (c_other, o_none)); ("-newerBc", (c_other, o_none)); ("-newerBm", (c_other, o_none));
   ("-newerBt", (c_other, o_none)); ("-neweraB", (c_other, o_none)); ("-neweraa", (c_other, o_none)); ("-newerac", (c_other, o_none));
   ("-neweram", (c_other, o_none)); ("-newerat", (c_other, o_none)); ("-newercB", (c_other, o_none)); ("-newerca", (c_other, o_none));
   ("-newercc", (c_other, o_none)); ("-newercm", (c_other, o_none)); ("-newerct", (c_other, o_none)); ("-newermB", (c_other, o_none));
   ("-newerma", (c_other, o_none)); ("-newermc", (c_other, o_none)); ("-newermm", (c_other, o_none)); ("-newermt", (c_other, o_none));
   ("-nogroup", (c_other, o_none)); ("-noignore_readdir_race", (c_simple, o_none)); ("-noleaf", (c_simple, o_none));
   ("-not", (c_simple, o_not)); ("-nouser", (c_other, o_none)); ("-o", (c_simple, o_or)); ("-ok", (c_other, o_none));
   ("-okdir", (c_other, o_none)); ("-or", (c_simple, o_or)); ("-path", (c_other, o_none)); ("-perm", (c_other, o_none));
   ("-print", (c_print, o_none)); ("-print0", (c_print, o_none)); ("-prune", (c_simple, o_none)); ("-quit", (c_simple, o_none));
   ("-regex", (c_other, o_none)); ("-samefile", (c_other, o_none)); ("-size", (c_other, o_none)); ("-true", (c_simple, o_none));
   ("-type", (c_other, o_none)); ("-uid", (c_other, o_none)); ("-user", (c_other, o_none)); ("-wholename", (c_other, o_none));
   ("-xattr", (c_simple, o_none)); ("-xattrname", (c_other, o_none)); ("-xdev", (c_other, o_none))]%string.

(** [strcmp], and [bsearch] between two places of the table. *)
Fixpoint strcmp (a b : string) : comparison :=
  match a, b with
  | EmptyString, EmptyString => Eq
  | EmptyString, String _ _ => Lt
  | String _ _, EmptyString => Gt
  | String c a, String d b => match Ascii.compare c d with Eq => strcmp a b | x => x end
  end.
Fixpoint bsearch (fuel : nat) (name : string) (lo hi : nat) : option (creat * operator) :=
  match fuel with
  | O => None
  | S fuel =>
      if (lo <? hi)%nat then
        let mid := Nat.div2 (lo + hi) in
        match options_table !! mid with
        | None => None
        | Some (n, r) =>
            match strcmp name n with
            | Eq => Some r
            | Lt => bsearch fuel name lo mid
            | Gt => bsearch fuel name (S mid) hi
            end
        end
      else None
  end.
Definition lookup_option (name : string) : option (creat * operator) :=
  bsearch (S (length options_table)) name 0 (length options_table).

(** ** Plans *)

Section Plans.
Context {P W : Type}.

Inductive exec := f_openparen | f_closeparen | f_not | f_or | f_expr | f_prim (p : P).
Inductive pnode := Node (execute : exec) (p_data0 p_data1 : list pnode).

Definition execute (n : pnode) : exec := let '(Node e _ _) := n in e.
Definition is_not (n : pnode) : bool := match execute n with f_not => true | _ => false end.
Definition is_or (n : pnode) : bool := match execute n with f_or => true | _ => false end.
Definition is_expr (n : pnode) : bool := match execute n with f_expr => true | _ => false end.
Definition set_data0 (l : list pnode) (n : pnode) : pnode := let '(Node e _ d1) := n in Node e l d1.
Definition data0 (n : pnode) : list pnode := let '(Node _ d0 _) := n in d0.

(** The ways in which [errx] is called. *)
Inductive plan_error :=
  | MissingClose | EmptyInner | NoBeginning | NothingAfterNot | NothingBetween | NothingBefore | NothingAfter | UnknownPrimary
  | BadPrimary | OutOfFuel.
Abbreviation R := (res plan_error).

Definition rbind {A B} (m : R A) (k : A -> R B) : R B := match m with Ok a => k a | Ex e => Ex e end.

(** [yankexpr]; [collect] is its loop. *)
Fixpoint yankexpr (fuel : nat) (plan : list pnode) : R (option pnode * list pnode) :=
  match fuel with
  | O => Ex OutOfFuel
  | S fuel =>
      match plan with
      | [] => Ok (None, [])
      | node :: plan =>
          match execute node with
          | f_openparen => rbind (collect fuel [] plan) (fun '(subplan, plan) => Ok (Some (Node f_expr subplan []), plan))
          | _ => Ok (Some node, plan)
          end
      end
  end
with collect (fuel : nat) (subplan plan : list pnode) : R (list pnode * list pnode) :=
  match fuel with
  | O => Ex OutOfFuel
  | S fuel =>
      rbind (yankexpr fuel plan) (fun '(next, plan) =>
        match next with
        | None => Ex MissingClose
        | Some next =>
            match execute next with
            | f_closeparen => match subplan with [] => Ex EmptyInner | _ => Ok (subplan, plan) end
            | _ => collect fuel (subplan ++ [next]) plan
            end
        end)
  end.

Fixpoint paren_loop (fuel : nat) (result plan : list pnode) : R (list pnode) :=
  match fuel with
  | O => Ex OutOfFuel
  | S fuel =>
      rbind (yankexpr fuel plan) (fun '(expr, plan) =>
        match expr with
        | None => Ok result
        | Some expr =>
            match execute expr with
            | f_closeparen => Ex NoBeginning
            | _ => paren_loop fuel (result ++ [expr]) plan
            end
        end)
  end.
Definition paren_squish (plan : list pnode) : R (list pnode) := paren_loop (2 * length plan + 2) [] plan.

(** The nodes of a plan, subplans included. *)
Fixpoint node_size (n : pnode) : nat := let '(Node _ d0 d1) := n in S (list_sum (map node_size d0) + list_sum (map node_size d1)).
Definition plan_size (l : list pnode) : nat := list_sum (map node_size l).

(** The nots in a row. *)
Fixpoint skip_nots (notlevel : nat) (plan : list pnode) : nat * list pnode :=
  match plan with
  | node :: plan' => if is_not node then skip_nots (S notlevel) plan' else (notlevel, plan)
  | [] => (notlevel, [])
  end.

(** A pass over the subplan of a node, if [b]. *)
Definition inside (b : bool) (squish : list pnode -> R (list pnode)) (n : pnode) : R pnode :=
  if b then rbind (squish (data0 n)) (fun l => Ok (set_data0 l n)) else Ok n.

Fixpoint not_loop (fuel : nat) (plan : list pnode) : R (list pnode) :=
  match fuel with
  | O => Ex OutOfFuel
  | S fuel =>
      match plan with
      | [] => Ok []
      | next :: plan =>
          rbind (inside (is_expr next) (not_loop fuel) next) (fun next =>
            if is_not next then
              let '(notlevel, plan) := skip_nots 1 plan in
              match plan with
              | [] => Ex NothingAfterNot
              | node :: plan =>
                  if is_or node then Ex NothingBetween
                  else
                    rbind (inside (is_expr node) (not_loop fuel) node) (fun node =>
                      let next := if Nat.even notlevel then node else set_data0 [node] next in
                      rbind (not_loop fuel plan) (fun rest => Ok (next :: rest)))
              end
            else rbind (not_loop fuel plan) (fun rest => Ok (next :: rest)))
      end
  end.
Definition not_squish (plan : list pnode) : R (list pnode) := not_loop (S (plan_size plan)) plan.

Fixpoint or_loop (fuel : nat) (result plan : list pnode) : R (list pnode) :=
  match fuel with
  | O => Ex OutOfFuel
  | S fuel =>
      match plan with
      | [] => Ok result
      | next :: plan =>
          rbind (inside (is_expr next || is_not next) (or_loop fuel []) next)
            (fun next =>
              if is_or next then
                match result with
                | [] => Ex NothingBefore
                | _ =>
                    rbind (or_loop fuel [] plan) (fun second =>
                      match second with [] => Ex NothingAfter | _ => Ok [Node f_or result second] end)
                end
              else or_loop fuel (result ++ [next]) plan)
      end
  end.
Definition or_squish (plan : list pnode) : R (list pnode) := or_loop (S (plan_size plan)) [] plan.

(** ** Making the plan *)

(** [create] makes the other primaries: from the name, and the arguments behind it, what is executed and the arguments left;
    [simple] are those that [c_simple] and [c_print] make. *)
Context (create : string -> list string -> option (P * list string)) (simple : string -> P).

Definition leaf (e : exec) : pnode := Node e [] [].

(** [find_create]: no node for -a. *)
Definition find_create (name : string) (argv : list string) : R (option exec * list string) :=
  match lookup_option name with
  | None => Ex UnknownPrimary
  | Some (c_and, _) => Ok (None, argv)
  | Some (_, o_open) => Ok (Some f_openparen, argv)
  | Some (_, o_close) => Ok (Some f_closeparen, argv)
  | Some (_, o_not) => Ok (Some f_not, argv)
  | Some (_, o_or) => Ok (Some f_or, argv)
  | Some (c_other, _) => match create name argv with Some (p, argv) => Ok (Some (f_prim p), argv) | None => Ex BadPrimary end
  | Some (_, _) => Ok (Some (f_prim (simple name)), argv)
  end.

(** The primaries whose [create] sets [isoutput]. *)
Definition sets_isoutput (name : string) : bool :=
  bool_decide (name ∈ ["-print"; "-print0"; "-ls"; "-delete"; "-exec"; "-execdir"; "-ok"; "-okdir"]%string).

(** The loop over the arguments, with [isoutput]. *)
Fixpoint form_loop (fuel : nat) (argv : list string) (plan : list exec) (isoutput : bool) : R (list exec * bool) :=
  match fuel with
  | O => Ex OutOfFuel
  | S fuel =>
      match argv with
      | [] => Ok (plan, isoutput)
      | name :: argv =>
          rbind (find_create name argv) (fun '(new, argv) =>
            form_loop fuel argv (match new with Some e => plan ++ [e] | None => plan end) (isoutput || sets_isoutput name))
      end
  end.

(** The plan before it is rearranged. *)
Definition with_print (plan : list exec) (isoutput : bool) : list exec :=
  if isoutput then plan
  else match plan with
       | [] => [f_prim (simple "-print")]
       | _ => [f_openparen] ++ plan ++ [f_closeparen; f_prim (simple "-print")]
       end.
Definition squish (plan : list exec) : R (list pnode) :=
  rbind (paren_squish (map leaf plan)) (fun plan => rbind (not_squish plan) or_squish).
Definition find_formplan (argv : list string) : R (list pnode) :=
  rbind (form_loop (S (length argv)) argv [] false) (fun '(plan, isoutput) => squish (with_print plan isoutput)).

(** ** Executing it *)

Context (run : P -> M halt W Z).

(** [for (p = ...; p && (state = (p->execute)(p, entry)); p = p->next);] *)
Definition exec_loop (f : pnode -> M halt W Z) : Z -> list pnode -> M halt W Z :=
  fix go (state : Z) (l : list pnode) {struct l} : M halt W Z :=
    match l with
    | [] => mret state
    | p :: l => state ← f p; if state =? 0 then mret 0 else go state l
    end.
Fixpoint exec_node (n : pnode) : M halt W Z :=
  let '(Node e d0 d1) := n in
  match e with
  | f_openparen | f_closeparen => leave Crash
  | f_prim p => run p
  | f_expr => exec_loop exec_node 0 d0
  | f_not => state ← exec_loop exec_node 0 d0; mret (b2z (state =? 0))
  | f_or =>
      state ← exec_loop exec_node 0 d0;
      if negb (state =? 0) then mret 1 else exec_loop exec_node 0 d1
  end.

(** What [find_execute] does for a file. *)
Definition find_execute_entry (plan : list pnode) : M halt W unit := _ ← exec_loop exec_node 0 plan; mret ().

End Plans.
Arguments exec : clear implicits.
Arguments pnode : clear implicits.
