(* ===== verification/FindGrammar.v ===== *)
(** * find: expressions, and what the passes make of them

    [g_or] is the grammar of expressions over the arguments of the command, [eval] their meaning, with the primaries' effects and
    without those that need not be evaluated.  Between them and the plan stand two more grammars, one for each of the
    forms that a list of nodes has between the passes: [i_or] for what [paren_squish] leaves, [j_or] for
    what [not_squish] leaves. *)

From Stdlib Require Import ZArith Lia List Bool String.
From stdpp Require Import base tactics list numbers strings.
From S2P Require Import Prelude FindExpr.

Local Open Scope Z_scope.
Local Open Scope list_scope.

Section Grammar.
Context {P W : Type} (run : P -> M halt W Z).

Inductive expr := EPrim (p : P) | ENot (e : expr) | EAnd (e1 e2 : expr) | EOr (e1 e2 : expr).

Fixpoint eval (e : expr) : M halt W bool :=
  match e with
  | EPrim p => z ← run p; mret (negb (z =? 0))
  | ENot e => b ← eval e; mret (negb b)
  | EAnd e1 e2 => eval e1 ≫= fun b : bool => if b then eval e2 else mret false
  | EOr e1 e2 => eval e1 ≫= fun b : bool => if b then mret true else eval e2
  end.

(** Expressions of arguments: or, and (which is not written), not, parentheses. *)
Inductive g_or : list (exec P) -> expr -> Prop :=
  | g_or_one t e : g_and t e -> g_or t e
  | g_or_more t1 t2 e1 e2 : g_and t1 e1 -> g_or t2 e2 -> g_or (t1 ++ f_or :: t2) (EOr e1 e2)
with g_and : list (exec P) -> expr -> Prop :=
  | g_and_one t e : g_not t e -> g_and t e
  | g_and_more t1 t2 e1 e2 : g_not t1 e1 -> g_and t2 e2 -> g_and (t1 ++ t2) (EAnd e1 e2)
with g_not : list (exec P) -> expr -> Prop :=
  | g_prim p : g_not [f_prim p] (EPrim p)
  | g_neg t e : g_not t e -> g_not (f_not :: t) (ENot e)
  | g_paren t e : g_or t e -> g_not (f_openparen :: t ++ [f_closeparen]) e.
Scheme g_or_mut := Induction for g_or Sort Prop
  with g_and_mut := Induction for g_and Sort Prop
  with g_not_mut := Induction for g_not Sort Prop.
Combined Scheme g_ind from g_or_mut, g_and_mut, g_not_mut.

Abbreviation pnode := (pnode P).

(** Behind [paren_squish]. *)
Inductive i_or : list pnode -> expr -> Prop :=
  | i_or_one l e : i_and l e -> i_or l e
  | i_or_more l1 l2 e1 e2 : i_and l1 e1 -> i_or l2 e2 -> i_or (l1 ++ leaf f_or :: l2) (EOr e1 e2)
with i_and : list pnode -> expr -> Prop :=
  | i_and_one l e : i_not l e -> i_and l e
  | i_and_more l1 l2 e1 e2 : i_not l1 e1 -> i_and l2 e2 -> i_and (l1 ++ l2) (EAnd e1 e2)
with i_not : list pnode -> expr -> Prop :=
  | i_prim p : i_not [leaf (f_prim p)] (EPrim p)
  | i_neg l e : i_not l e -> i_not (leaf f_not :: l) (ENot e)
  | i_paren l e : i_or l e -> i_not [Node f_expr l []] e.
Scheme i_or_mut := Induction for i_or Sort Prop
  with i_and_mut := Induction for i_and Sort Prop
  with i_not_mut := Induction for i_not Sort Prop.
Combined Scheme i_ind from i_or_mut, i_and_mut, i_not_mut.

(** Behind [not_squish]. *)
Inductive j_or : list pnode -> expr -> Prop :=
  | j_or_one l e : j_and l e -> j_or l e
  | j_or_more l1 l2 e1 e2 : j_and l1 e1 -> j_or l2 e2 -> j_or (l1 ++ leaf f_or :: l2) (EOr e1 e2)
with j_and : list pnode -> expr -> Prop :=
  | j_and_one n e : j_unit n e -> j_and [n] e
  | j_and_more n l e1 e2 : j_unit n e1 -> j_and l e2 -> j_and (n :: l) (EAnd e1 e2)
with j_unit : pnode -> expr -> Prop :=
  | j_prim p : j_unit (leaf (f_prim p)) (EPrim p)
  | j_neg n e : j_unit n e -> j_unit (Node f_not [n] []) (ENot e)
  | j_paren l e : j_or l e -> j_unit (Node f_expr l []) e.
Scheme j_or_mut := Induction for j_or Sort Prop
  with j_and_mut := Induction for j_and Sort Prop
  with j_unit_mut := Induction for j_unit Sort Prop.
Combined Scheme j_ind from j_or_mut, j_and_mut, j_unit_mut.

(** ** Parentheses *)

Fixpoint flat_node (n : pnode) : list (exec P) :=
  let '(Node e d0 _) := n in
  match e with
  | f_expr => f_openparen :: flat_map flat_node d0 ++ [f_closeparen]
  | _ => [e]
  end.
Definition flat (l : list pnode) : list (exec P) := flat_map flat_node l.

(** A node as [paren_squish] leaves it. *)
Inductive whole : pnode -> Prop :=
  | whole_leaf e : match e with f_openparen | f_closeparen | f_expr => False | _ => True end -> whole (leaf e)
  | whole_expr l : l <> [] -> (forall n, In n l -> whole n) -> whole (Node f_expr l []).

Definition plain (e : exec P) : Prop := match e with f_expr => False | _ => True end.

Lemma flat_app l1 l2 : flat (l1 ++ l2) = flat l1 ++ flat l2.
Proof. apply flat_map_app. Qed.

Lemma yank_flat k : forall n rest fuel,
  whole n -> (length (flat_node n) <= k)%nat -> (2 * length (flat_node n) <= fuel)%nat ->
  yankexpr fuel (map leaf (flat_node n) ++ rest) = Ok (Some n, rest).
Proof.
  induction k as [|k IH]; intros n rest fuel Hn Hk Hf; destruct Hn as [e He|l Hl Hall].
  1, 3: destruct fuel; [cbn in Hf; destruct e; cbn in *; lia|]; destruct e; cbn; try done; cbn in *; lia.
  1: cbn in Hk; lia.
  cbn in Hk, Hf. rewrite length_app in Hk, Hf. cbn in Hk, Hf. fold (flat l) in *.
  assert (forall l sub fuel, (forall n, In n l -> whole n) -> sub ++ l <> [] -> (length (flat l) < k)%nat -> (2 * length (flat l) + 2 <= fuel)%nat ->
    collect fuel sub (map leaf (flat l ++ [f_closeparen]) ++ rest) = Ok (sub ++ l, rest)) as Hcollect.
  { clear l Hl Hall Hk Hf fuel. induction l as [|n l IHl]; intros sub fuel Hall Hne Hk Hf.
    - destruct fuel as [|[|fuel]]; [cbn in Hf; lia..|]. cbn. rewrite app_nil_r in *. by destruct sub.
    - cbn in Hk, Hf. rewrite length_app in Hk, Hf. fold (flat l) in *. cbn [flat flat_map]. fold (flat l).
      destruct fuel as [|fuel]; [lia|]. cbn [collect]. rewrite <- app_assoc, map_app, <- app_assoc.
      assert (whole n) as Hn by (apply Hall; by left). rewrite (IH n _ fuel Hn) by lia. cbn [rbind].
      assert (0 < length (flat_node n))%nat as Hpos by (destruct Hn as [e He|]; [destruct e; cbn; lia|cbn; lia]).
      assert (match execute n with f_closeparen => False | _ => True end) as Hex by (destruct Hn as [e He|]; [by destruct e|done]).
      replace (sub ++ n :: l) with ((sub ++ [n]) ++ l) by (by rewrite <- app_assoc).
      rewrite <- (IHl (sub ++ [n]) fuel); [by destruct (execute n)|intros m Hm; apply Hall; by right|by destruct sub|lia|lia]. }
  destruct fuel as [|fuel]; [lia|]. cbn [flat_node map app yankexpr execute leaf]. fold (flat l).
  rewrite (Hcollect l [] fuel Hall) by (done || lia). done.
Qed.

Lemma paren_flat l : forall fuel res, (forall n, In n l -> whole n) -> (2 * length (flat l) + 2 <= fuel)%nat ->
  paren_loop fuel res (map leaf (flat l)) = Ok (res ++ l).
Proof.
  induction l as [|n l IH]; intros fuel res Hall Hf.
  - destruct fuel as [|[|fuel]]; [cbn in Hf; lia..|]. cbn. by rewrite app_nil_r.
  - cbn in Hf. rewrite length_app in Hf. fold (flat l) in Hf. cbn [flat flat_map]. fold (flat l).
    destruct fuel as [|fuel]; [lia|]. cbn [paren_loop]. rewrite map_app.
    assert (whole n) as Hn by (apply Hall; by left). rewrite (yank_flat _ n _ fuel Hn (le_n _)) by lia. cbn [rbind].
    assert (0 < length (flat_node n))%nat as Hpos by (destruct Hn as [e He|]; [destruct e; cbn; lia|cbn; lia]).
    assert (match execute n with f_closeparen => False | _ => True end) as Hex by (destruct Hn as [e He|]; [by destruct e|done]).
    replace (res ++ n :: l) with ((res ++ [n]) ++ l) by (by rewrite <- app_assoc).
    rewrite <- (IH fuel (res ++ [n])); [by destruct (execute n)|intros m Hm; apply Hall; by right|lia].
Qed.

(** What [yankexpr] takes. *)
Lemma yank_taken fuel : forall toks,
  Forall plain toks ->
  (forall n rest, yankexpr fuel (map leaf toks) = Ok (Some n, rest) ->
     exists t t', toks = t ++ t' /\ rest = map leaf t' /\ t <> [] /\ (n = leaf f_closeparen /\ t = [f_closeparen] \/ whole n /\ t = flat_node n)) /\
  (forall sub l rest, collect fuel sub (map leaf toks) = Ok (l, rest) -> (forall n, In n sub -> whole n) ->
     exists l' t', l = sub ++ l' /\ l <> [] /\ toks = flat l' ++ f_closeparen :: t' /\ rest = map leaf t' /\ forall n, In n l' -> whole n).
Proof.
  induction fuel as [|fuel IH]; intros toks Ht; [by split|]. split.
  - intros n rest H. destruct toks as [|e toks]; [done|]. apply Forall_cons in Ht as [He Ht]. cbn [map yankexpr leaf execute] in H. destruct e; try done.
    + destruct (collect fuel [] (map leaf toks)) as [[sub rest']|] eqn:E; [|done]. cbn in H. injection H as <- <-.
      destruct (proj2 (IH toks Ht) _ _ _ E) as (l' & t' & -> & Hne & -> & -> & Hw); [done|]. cbn [app] in *.
      exists (f_openparen :: flat l' ++ [f_closeparen]), t'. split; [cbn; by rewrite <- app_assoc|]. split; [done|]. split; [done|]. right.
      split; [by constructor|done].
    + injection H as <- <-. exists [f_closeparen], toks. split_and!; try done. by left.
    + injection H as <- <-. exists [f_not], toks. split_and!; try done. right. by split; [constructor|].
    + injection H as <- <-. exists [f_or], toks. split_and!; try done. right. by split; [constructor|].
    + injection H as <- <-. exists [f_prim p], toks. split_and!; try done. right. by split; [constructor|].
  - intros sub l rest H Hsub. cbn [collect] in H. destruct (yankexpr fuel (map leaf toks)) as [[[next|] rest1]|] eqn:E; try done. cbn [rbind] in H.
    destruct (proj1 (IH toks Ht) _ _ E) as (t & t' & -> & -> & _ & [[-> ->]|[Hw ->]]).
    + cbn in H. destruct sub as [|x sub]; [done|]. injection H as <- <-. exists [], t'. rewrite app_nil_r. by split_and!.
    + assert (collect fuel (sub ++ [next]) (map leaf t') = Ok (l, rest)) as H' by (destruct Hw as [e He|]; [by destruct e|done]).
      apply Forall_app in Ht as [_ Ht].
      destruct (proj2 (IH t' Ht) _ _ _ H') as (l' & t2 & -> & Hne & -> & -> & Hall).
      { intros n [Hn|[->|[]]]%in_app_iff; [by apply Hsub|done]. }
      exists (next :: l'), t2. split; [by rewrite <- app_assoc|]. split; [done|]. split; [cbn; by rewrite <- app_assoc|]. split; [done|].
      intros n [->|Hn]; [done|by apply Hall].
Qed.

Lemma paren_taken fuel : forall toks res l, Forall plain toks -> paren_loop fuel res (map leaf toks) = Ok l ->
  exists l', l = res ++ l' /\ toks = flat l' /\ forall n, In n l' -> whole n.
Proof.
  induction fuel as [|fuel IH]; intros toks res l Ht H; [done|]. cbn [paren_loop] in H.
  destruct (yankexpr fuel (map leaf toks)) as [[[next|] rest1]|] eqn:E; try done; cbn [rbind] in H.
  - destruct (proj1 (yank_taken fuel toks Ht) _ _ E) as (t & t' & -> & -> & _ & [[-> ->]|[Hw ->]]); [done|].
    assert (paren_loop fuel (res ++ [next]) (map leaf t') = Ok l) as H' by (destruct Hw as [e He|]; [by destruct e|done]).
    apply Forall_app in Ht as [_ Ht]. destruct (IH t' _ _ Ht H') as (l' & -> & -> & Hall). exists (next :: l').
    split; [by rewrite <- app_assoc|]. split; [done|]. intros n [->|Hn]; [done|by apply Hall].
  - injection H as <-. exists []. rewrite app_nil_r. split_and!; try done.
    destruct fuel; [done|]. cbn in E. destruct toks as [|e toks]; [done|]. exfalso. cbn in E. destruct e; try done.
    by destruct (collect fuel [] (map leaf toks)) as [[]|].
Qed.

End Grammar.
