(* ===== verification/FindSquish.v ===== *)
(** * find: the three passes

    Each pass is a relation between lists of nodes ([nrel], [orel]) that the functions compute; fuel is
    out of the way then ([not_loop_ends], [or_loop_ends]).  What a list means goes from one grammar to
    the next, and at the end executing the plan is evaluating the expression. *)

From Stdlib Require Import ZArith Lia List Bool String.
From stdpp Require Import base tactics list numbers strings.
From S2P Require Import Prelude FindExpr FindGrammar.

Local Open Scope Z_scope.
Local Open Scope list_scope.

Section Passes.
Context {P W : Type} (run : P -> M halt W Z).

Abbreviation pnode := (pnode P).
Abbreviation eval := (eval run).

Definition same (e1 e2 : expr) : Prop := forall s, eval e1 s = eval e2 s.

Lemma same_not e1 e2 : same e1 e2 -> same (ENot e1) (ENot e2).
Proof. intros H s. cbn. cbv [mbind M_bind]. by rewrite H. Qed.
Lemma same_and a b c d : same a b -> same c d -> same (EAnd a c) (EAnd b d).
Proof. intros H1 H2 s. cbn. cbv [mbind M_bind]. rewrite H1. destruct (eval b s) as [[[]|] s']; [apply H2|done|done]. Qed.
Lemma same_or a b c d : same a b -> same c d -> same (EOr a c) (EOr b d).
Proof. intros H1 H2 s. cbn. cbv [mbind M_bind]. rewrite H1. destruct (eval b s) as [[[]|] s']; [done|apply H2|done]. Qed.
Lemma same_double e : same (ENot (ENot e)) e.
Proof. intros s. cbn. cbv [mbind M_bind mret M_ret]. destruct (eval e s) as [[[]|] s']; done. Qed.

(** ** From the arguments to the nodes *)

Lemma g_to_i :
  (forall t e, g_or t e -> exists l : list pnode, i_or l e /\ flat l = t /\ l <> [] /\ forall n, In n l -> whole n) /\
  (forall t e, g_and t e -> exists l : list pnode, i_and l e /\ flat l = t /\ l <> [] /\ forall n, In n l -> whole n) /\
  (forall t e, g_not t e -> exists l : list pnode, i_not l e /\ flat l = t /\ l <> [] /\ forall n, In n l -> whole n).
Proof.
  apply g_ind.
  - intros t e _ (l & H & Hl). exists l. split; [by constructor|done].
  - intros t1 t2 e1 e2 _ (l1 & H1 & <- & Hn1 & Ha1) _ (l2 & H2 & <- & Hn2 & Ha2). exists (l1 ++ leaf f_or :: l2).
    split; [by constructor|]. split; [by rewrite flat_app|]. split; [by destruct l1|].
    intros n [Hn|[<-|Hn]]%in_app_iff; [by apply Ha1|by constructor|by apply Ha2].
  - intros t e _ (l & H & Hl). exists l. split; [by constructor|done].
  - intros t1 t2 e1 e2 _ (l1 & H1 & <- & Hn1 & Ha1) _ (l2 & H2 & <- & Hn2 & Ha2). exists (l1 ++ l2).
    split; [by constructor|]. split; [by rewrite flat_app|]. split; [by destruct l1|].
    intros n [Hn|Hn]%in_app_iff; [by apply Ha1|by apply Ha2].
  - intros p. exists [leaf (f_prim p)]. split; [constructor|]. split; [done|]. split; [done|]. intros n [<-|[]]. by constructor.
  - intros t e _ (l & H & <- & Hn & Ha). exists (leaf f_not :: l). split; [by constructor|]. split; [done|]. split; [done|].
    intros n [<-|H']; [by constructor|by apply Ha].
  - intros t e _ (l & H & <- & Hn & Ha). exists [Node f_expr l []]. split; [by constructor|]. split; [cbn; by rewrite app_nil_r|]. split; [done|].
    intros n [<-|[]]. by constructor.
Qed.

Lemma i_to_g :
  (forall (l : list pnode) e, i_or l e -> g_or (flat l) e) /\ (forall (l : list pnode) e, i_and l e -> g_and (flat l) e) /\
  (forall (l : list pnode) e, i_not l e -> g_not (flat l) e).
Proof.
  apply i_ind; intros; rewrite ?flat_app; try (by constructor).
  cbn. rewrite app_nil_r. by constructor.
Qed.

(** ** Negations *)

Definition wrap (k : nat) (b : pnode) : pnode := if Nat.even k then b else Node f_not [b] [].

Inductive nrel : list pnode -> list pnode -> Prop :=
  | n_nil : nrel [] []
  | n_or l l' : nrel l l' -> nrel (leaf f_or :: l) (leaf f_or :: l')
  | n_unit k b b' l l' : nbase b b' -> nrel l l' -> nrel (replicate k (leaf f_not) ++ b :: l) (wrap k b' :: l')
with nbase : pnode -> pnode -> Prop :=
  | n_prim p : nbase (leaf (f_prim p)) (leaf (f_prim p))
  | n_expr l l' : nrel l l' -> nbase (Node f_expr l []) (Node f_expr l' []).
Scheme nrel_mut := Induction for nrel Sort Prop with nbase_mut := Induction for nbase Sort Prop.
Combined Scheme n_ind from nrel_mut, nbase_mut.

Lemma skip_nots_spec k (l : list pnode) : (forall n, In n l -> whole n) ->
  exists j l2, skip_nots k l = ((k + j)%nat, l2) /\ l = replicate j (leaf f_not) ++ l2 /\ match l2 with [] => True | n :: _ => is_not n = false end.
Proof.
  revert k. induction l as [|n l IH]; intros k Hall.
  - exists 0%nat, []. cbn. split_and!; try done. by rewrite Nat.add_0_r.
  - cbn. destruct (is_not n) eqn:E.
    + destruct (IH (S k)) as (j & l2 & E2 & -> & H2); [intros m Hm; apply Hall; by right|]. exists (S j), l2.
      split; [rewrite E2; f_equal; lia|]. split; [|done]. cbn. f_equal.
      destruct (Hall n (or_introl eq_refl)) as [e He|]; [by destruct e|done].
    + exists 0%nat, (n :: l). split; [by rewrite Nat.add_0_r|]. by split.
Qed.

Lemma skip_nots_replicate j k b (l : list pnode) : is_not b = false -> skip_nots k (replicate j (leaf f_not) ++ b :: l) = ((k + j)%nat, b :: l).
Proof.
  intros Hb. revert k. induction j as [|j IH]; intros k; cbn; [by rewrite Hb, Nat.add_0_r|]. rewrite IH. f_equal. lia.
Qed.

Lemma inside_mono b (g g' : list pnode -> res plan_error (list pnode)) (n : pnode) :
  (g (data0 n) <> Ex OutOfFuel -> g' (data0 n) = g (data0 n)) -> inside b g n <> Ex OutOfFuel -> inside b g' n = inside b g n.
Proof. intros H Hne. unfold inside in *. destruct b; [|done]. rewrite H; [done|]. intros E. by rewrite E in Hne. Qed.

Lemma inside_ends b (g : list pnode -> res plan_error (list pnode)) (n : pnode) : g (data0 n) <> Ex OutOfFuel -> inside b g n <> Ex OutOfFuel.
Proof. intros H. unfold inside. destruct b; [|done]. destruct (g (data0 n)); cbn; [done|]. by intros [= ->]. Qed.

Lemma rbind_mono {A B} (m m' : res plan_error A) (k k' : A -> res plan_error B) :
  (m <> Ex OutOfFuel -> m' = m) -> (forall a, m = Ok a -> k a <> Ex OutOfFuel -> k' a = k a) -> rbind m k <> Ex OutOfFuel -> rbind m' k' = rbind m k.
Proof.
  intros Hm Hk Hne. assert (m <> Ex OutOfFuel) as H by (intros ->; done). rewrite Hm by done. destruct m as [a|e]; [|done]. by apply Hk.
Qed.

Lemma not_loop_mono (f : nat) : forall (l : list pnode) f', (f <= f')%nat -> not_loop f l <> Ex OutOfFuel -> not_loop f' l = not_loop f l.
Proof.
  induction f as [|f IH]; intros l f' Hle Hne; [done|]. destruct f' as [|f']; [lia|]. cbn [not_loop] in *.
  assert (forall l, not_loop f l <> Ex OutOfFuel -> not_loop f' l = not_loop f l) as Hm by (intros l2; apply IH; lia).
  destruct l as [|next l]; [done|]. apply rbind_mono; [apply inside_mono, Hm|intros next' _|done]. destruct (is_not next').
  - destruct (skip_nots 1 l) as [k [|node l2]]; [done|]. destruct (is_or node); [done|].
    apply rbind_mono; [apply inside_mono, Hm|]. intros node' _. apply rbind_mono; [apply Hm|done].
  - apply rbind_mono; [apply Hm|done].
Qed.

Lemma node_size_pos (n : pnode) : (1 <= node_size n)%nat /\ (plan_size (data0 n) < node_size n)%nat.
Proof. destruct n as [e d0 d1]. unfold plan_size. cbn [data0 node_size]. fold (@node_size P). lia. Qed.

Lemma not_loop_ends (f : nat) : forall l : list pnode, (plan_size l < f)%nat -> not_loop f l <> Ex OutOfFuel.
Proof.
  assert (forall {A B} (m : res plan_error A) (k : A -> res plan_error B), m <> Ex OutOfFuel -> (forall a, k a <> Ex OutOfFuel) -> rbind m k <> Ex OutOfFuel) as Hb.
  { intros A B m k H Hk. destruct m; cbn; [apply Hk|]. by intros [= ->]. }
  induction f as [|f IH]; intros l Hf; [lia|]. destruct l as [|next l]; [done|]. cbn [not_loop].
  assert (plan_size (next :: l) = node_size next + plan_size l)%nat as E by done. rewrite E in Hf. pose proof (node_size_pos next) as Hp.
  apply Hb; [apply inside_ends, IH; lia|]. intros next'. destruct (is_not next').
  - destruct (skip_nots 1 l) as [k l2] eqn:Ek.
    assert (plan_size l2 <= plan_size l)%nat as Hl2.
    { clear -Ek. revert Ek. generalize 1%nat. induction l as [|n l IH]; intros j Ek; cbn in Ek; [by injection Ek as _ <-|].
      destruct (is_not n); [|by injection Ek as _ <-]. apply IH in Ek. assert (plan_size (n :: l) = node_size n + plan_size l)%nat by done. lia. }
    destruct l2 as [|node l2]; [done|]. destruct (is_or node); [done|].
    assert (plan_size (node :: l2) = node_size node + plan_size l2)%nat as E2 by done. pose proof (node_size_pos node) as Hp2.
    apply Hb; [apply inside_ends, IH; lia|]. intros node'. apply Hb; [apply IH; lia|done].
  - apply Hb; [apply IH; lia|done].
Qed.

Lemma not_loop_sound f : forall l l' : list pnode, not_loop f l = Ok l' -> (forall n, In n l -> whole n) -> nrel l l'.
Proof.
  induction f as [|f IH]; intros l l' H Hall; [done|]. cbn [not_loop] in H. destruct l as [|next l]; [injection H as <-; constructor|].
  assert (forall n n', whole n -> is_or n = false -> is_not n = false ->
    inside (is_expr n) (not_loop f) n = Ok n' -> nbase n n') as Hbase.
  { intros n n' Hn Ho Hnn E. destruct Hn as [e He|sub Hne Hsub].
    - cbn in E. destruct e; try done. injection E as <-. constructor.
    - cbn in E. destruct (not_loop f sub) as [sub'|] eqn:Es; [|done]. injection E as <-. constructor. by apply IH. }
  assert (forall n, In n l -> whole n) as Hl by (intros n Hn; apply Hall; by right).
  pose proof (Hall next (or_introl eq_refl)) as Hw.
  destruct (is_or next) eqn:Eor.
  { destruct Hw as [e He|]; [|done]. destruct e; try done. cbn in H. destruct (not_loop f l) as [rest|] eqn:Er; [|done]. injection H as <-.
    constructor. by apply IH. }
  destruct (is_not next) eqn:Enot.
  - destruct Hw as [e He|]; [|done]. destruct e; try done. cbn [is_expr execute leaf rbind is_not] in H.
    destruct (skip_nots_spec 1 l Hl) as (j & l2 & Es & -> & Hl2). rewrite Es in H. destruct l2 as [|node l2]; [done|].
    destruct (is_or node) eqn:Eo2; [done|]. destruct (inside (is_expr node) _ node) as [node'|] eqn:E2; [|done]. cbn [rbind] in H.
    destruct (not_loop f l2) as [rest|] eqn:Er; [|done]. injection H as <-.
    assert (In node (replicate j (leaf f_not) ++ node :: l2)) as Hin by (apply in_app_iff; right; by left).
    apply (n_unit (S j) node node' l2 rest); [by apply Hbase; [apply Hl|..]|].
    apply IH; [done|]. intros n Hn. apply Hl, in_app_iff. right. by right.
  - destruct (inside (is_expr next) _ next) as [next'|] eqn:E1; [|done]. cbn [rbind] in H. pose proof (Hbase _ _ Hw Eor Enot E1) as Hb.
    assert (is_not next' = false) as Hn' by (by destruct Hb). rewrite Hn' in H. destruct (not_loop f l) as [rest|] eqn:Er; [|done]. injection H as <-.
    apply (n_unit 0 next next' l rest); [done|by apply IH].
Qed.

Lemma not_loop_complete :
  (forall l l' : list pnode, nrel l l' -> exists f, not_loop f l = Ok l') /\
  (forall b b' : pnode, nbase b b' -> is_not b = false /\ is_or b = false /\ is_not b' = false /\
     exists f, inside (is_expr b) (not_loop f) b = Ok b').
Proof.
  assert (forall f f' (l l' : list pnode), not_loop f l = Ok l' -> (f <= f')%nat -> not_loop f' l = Ok l') as Hup.
  { intros f f' l l' E Hle. rewrite (not_loop_mono f l f' Hle); [done|by rewrite E]. }
  apply n_ind.
  - by exists 1%nat.
  - intros l l' _ (f & E). exists (S f). cbn. by rewrite E.
  - intros k b b' l l' _ (Hn & Ho & Hn' & f1 & E1) _ (f2 & E2). exists (S (f1 + f2)). set (f := (f1 + f2)%nat).
    assert (inside (is_expr b) (not_loop f) b = Ok b') as E1'.
    { rewrite (inside_mono _ (not_loop f1) (not_loop f) b); [done| |by rewrite E1]. apply not_loop_mono. unfold f. lia. }
    pose proof (Hup f2 f _ _ E2 ltac:(unfold f; lia)) as E2'. destruct k as [|k]; cbn [replicate app not_loop]; fold f.
    + rewrite E1'. cbn [rbind]. by rewrite Hn', E2'.
    + cbn [inside is_expr execute leaf rbind is_not]. rewrite skip_nots_replicate by done. rewrite Ho, E1'. cbn [rbind]. by rewrite E2'.
  - intros p. split; [done|]. split; [done|]. split; [done|]. by exists 0%nat.
  - intros l l' _ (f & E). split; [done|]. split; [done|]. split; [done|]. exists f. cbn. by rewrite E.
Qed.

(** What is said before the pass, and behind it. *)
Fixpoint nots (k : nat) (e : expr) : @expr P := match k with O => e | S k => ENot (nots k e) end.

Lemma i_nots k l e : i_not l e -> i_not (replicate k (leaf f_not) ++ l) (nots k e).
Proof. induction k as [|k IH]; cbn; [done|]. intros H. by constructor; apply IH. Qed.

Lemma nots_even k e : same (if Nat.even k then e else ENot e) (nots k e).
Proof.
  induction k as [|k IH]; [done|]. rewrite Nat.even_succ, <- Nat.negb_even. cbn [nots]. destruct (Nat.even k); cbn [negb].
  - by apply same_not.
  - intros s. rewrite <- (same_not _ _ IH s). symmetry. apply same_double.
Qed.

Lemma wrap_unit k b e : j_unit b e -> j_unit (wrap k b) (if Nat.even k then e else ENot e).
Proof. intros H. unfold wrap. destruct (Nat.even k); [done|by constructor]. Qed.

Lemma i_to_j :
  (forall (l : list pnode) e, i_or l e -> exists l' e', nrel l l' /\ j_or l' e' /\ same e' e) /\
  (forall (l : list pnode) e, i_and l e -> exists l' e', j_and l' e' /\ same e' e /\ forall r r', nrel r r' -> nrel (l ++ r) (l' ++ r')) /\
  (forall (l : list pnode) e, i_not l e -> exists k b b' e', l = replicate k (leaf f_not) ++ [b] /\ nbase b b' /\ j_unit b' e' /\ same (nots k e') e).
Proof.
  assert (forall k b b' e' e, nbase b b' -> j_unit b' e' -> same (nots k e') e ->
    j_unit (wrap k b') (if Nat.even k then e' else ENot e') /\ same (if Nat.even k then e' else ENot e') e) as Hunit.
  { intros k b b' e' e _ Hu Hs. split; [by apply wrap_unit|]. intros s. rewrite (nots_even k e' s). apply Hs. }
  apply i_ind.
  - intros l e _ (l' & e' & Hj & Hs & Hr). exists l', e'. split; [|by split; [constructor|]]. rewrite <- (app_nil_r l), <- (app_nil_r l'). apply Hr. constructor.
  - intros l1 l2 e1 e2 _ (l1' & e1' & Hj1 & Hs1 & Hr1) _ (l2' & e2' & Hr2 & Hj2 & Hs2). exists (l1' ++ leaf f_or :: l2'), (EOr e1' e2').
    split; [by apply Hr1; constructor|]. split; [by constructor|by apply same_or].
  - intros l e _ (k & b & b' & e' & -> & Hb & Hu & Hs). destruct (Hunit k b b' e' e Hb Hu Hs) as [Hu' Hs'].
    eexists [_], _. split; [by constructor|]. split; [done|]. intros r r' Hr. rewrite <- app_assoc. cbn. by constructor.
  - intros l1 l2 e1 e2 _ (k & b & b' & e1' & -> & Hb & Hu & Hs) _ (l2' & e2' & Hj2 & Hs2 & Hr2).
    destruct (Hunit k b b' e1' e1 Hb Hu Hs) as [Hu' Hs']. eexists (_ :: l2'), _. split; [by constructor|]. split; [by apply same_and|].
    intros r r' Hr. rewrite <- !app_assoc. cbn. constructor; [done|by apply Hr2].
  - intros p. exists 0%nat, (leaf (f_prim p)), (leaf (f_prim p)), (EPrim p). split_and!; [done|constructor|constructor|done].
  - intros l e _ (k & b & b' & e' & -> & Hb & Hu & Hs). exists (S k), b, b', e'. split_and!; [done|done|done|]. cbn. by apply same_not.
  - intros l e _ (l' & e' & Hr & Hj & Hs). exists 0%nat, (Node f_expr l []), (Node f_expr l' []), e'. split_and!; [done|by constructor|by constructor|done].
Qed.

Lemma nrel_split a : forall l c : list pnode, nrel l (a ++ c) -> exists la lc, l = la ++ lc /\ nrel la a /\ nrel lc c.
Proof.
  induction a as [|n a IH]; intros l c H; cbn in H; [exists [], l; split_and!; [done|constructor|done]|].
  inversion H as [|l0 l' Hr|k b b' l0 l' Hb Hr]; subst.
  - destruct (IH _ _ Hr) as (la & lc & -> & H1 & H2). exists (leaf f_or :: la), lc. split_and!; [done|by constructor|done].
  - destruct (IH _ _ Hr) as (la & lc & -> & H1 & H2). exists (replicate k (leaf f_not) ++ b :: la), lc.
    split_and!; [by rewrite <- app_assoc|by constructor|done].
Qed.

Lemma j_to_i :
  (forall (l' : list pnode) e', j_or l' e' -> forall l, nrel l l' -> exists e, i_or l e) /\
  (forall (l' : list pnode) e', j_and l' e' -> forall l, nrel l l' -> exists e, i_and l e) /\
  (forall (n : pnode) e', j_unit n e' -> forall k b b', n = wrap k b' -> nbase b b' -> exists e, i_not (replicate k (leaf f_not) ++ [b]) e).
Proof.
  assert (forall (n : pnode) e', j_unit n e' -> is_or n = false) as Hor by (intros n e' []; done).
  apply j_ind.
  - intros l' e' _ IH l H. destruct (IH l H) as (e & He). exists e. by constructor.
  - intros l1 l2 e1 e2 _ IH1 _ IH2 l H. destruct (nrel_split _ _ _ H) as (la & lc & -> & H1 & H2).
    inversion H2 as [|l0 l' Hr|k b b' l0 l' Hb Hr Eq]; subst.
    + destruct (IH1 _ H1) as (ea & Ha), (IH2 _ Hr) as (ec & Hc). exists (EOr ea ec). by constructor.
    + exfalso. unfold wrap in *. destruct (Nat.even k); [|done]. subst. inversion Hb.
  - intros n e Hu IH l H. inversion H as [|l0 l' Hr|k b b' l0 l' Hb Hr]; subst; [by apply Hor in Hu|]. inversion Hr; subst.
    destruct (IH k b b' eq_refl Hb) as (e0 & He). exists e0. by constructor.
  - intros n l' e1 e2 Hu IH1 Hj IH2 l H. inversion H as [|l0 l0' Hr|k b b' l0 l0' Hb Hr]; subst; [by apply Hor in Hu|].
    destruct (IH1 k b b' eq_refl Hb) as (ea & Ha), (IH2 _ Hr) as (ec & Hc). exists (EAnd ea ec).
    change (replicate k (leaf f_not) ++ b :: l0) with (replicate k (leaf f_not) ++ [b] ++ l0). rewrite app_assoc. by constructor.
  - intros p k b b' E Hb. unfold wrap in E. destruct (Nat.even k); [|done]. subst. inversion Hb; subst. eexists. apply i_nots. constructor.
  - intros n e _ IH k b b' E Hb. unfold wrap in E. destruct (Nat.even k); [subst; inversion Hb|]. injection E as ->.
    destruct (IH 0%nat b b' eq_refl Hb) as (e0 & He). cbn in He. eexists. by apply i_nots.
  - intros l e _ IH k b b' E Hb. unfold wrap in E. destruct (Nat.even k); [|done]. subst. inversion Hb as [|l0 l0' Hr]; subst.
    destruct (IH _ Hr) as (e0 & He). eexists. apply i_nots. by constructor.
Qed.

(** ** Alternatives *)

Inductive orel : list pnode -> list pnode -> list pnode -> Prop :=
  | o_nil acc : orel acc [] acc
  | o_unit acc n n' l p : is_or n = false -> oin n n' -> is_or n' = false -> orel (acc ++ [n']) l p -> orel acc (n :: l) p
  | o_or acc l p : acc <> [] -> orel [] l p -> p <> [] -> orel acc (leaf f_or :: l) [Node f_or acc p]
with oin : pnode -> pnode -> Prop :=
  | o_plain n : is_expr n || is_not n = false -> oin n n
  | o_sub n p : is_expr n || is_not n = true -> orel [] (data0 n) p -> oin n (set_data0 p n).
Scheme orel_mut := Induction for orel Sort Prop with oin_mut := Induction for oin Sort Prop.
Combined Scheme o_ind from orel_mut, oin_mut.

Lemma or_loop_mono (f : nat) : forall (acc l : list pnode) f', (f <= f')%nat -> or_loop f acc l <> Ex OutOfFuel -> or_loop f' acc l = or_loop f acc l.
Proof.
  induction f as [|f IH]; intros acc l f' Hle Hne; [done|]. destruct f' as [|f']; [lia|]. cbn [or_loop] in *.
  assert (forall acc l, or_loop f acc l <> Ex OutOfFuel -> or_loop f' acc l = or_loop f acc l) as Hm by (intros acc2 l2; apply IH; lia).
  destruct l as [|next l]; [done|]. apply rbind_mono; [apply inside_mono, Hm|intros next' _|done]. destruct (is_or next'); [|apply Hm].
  destruct acc; [done|]. apply rbind_mono; [apply Hm|done].
Qed.

Lemma or_loop_ends (f : nat) : forall acc l : list pnode, (plan_size l < f)%nat -> or_loop f acc l <> Ex OutOfFuel.
Proof.
  induction f as [|f IH]; intros acc l Hf; [lia|]. destruct l as [|next l]; [done|]. cbn [or_loop].
  assert (plan_size (next :: l) = node_size next + plan_size l)%nat as E by done. rewrite E in Hf. pose proof (node_size_pos next) as Hp.
  pose proof (inside_ends (is_expr next || is_not next) (or_loop f []) next (IH [] (data0 next) ltac:(lia))) as H1.
  destruct (inside _ _ next) as [next'|er]; cbn [rbind]; [|by intros [= ->]]. destruct (is_or next'); [|apply IH; lia].
  destruct acc; [done|]. pose proof (IH [] l ltac:(lia)) as H2. destruct (or_loop f [] l) as [[]|]; cbn; [done|done|]. by intros [= ->].
Qed.

(** The nodes that [not_squish] leaves. *)
Inductive tidy : pnode -> Prop :=
  | tidy_prim p : tidy (leaf (f_prim p))
  | tidy_or : tidy (leaf f_or)
  | tidy_not n : tidy n -> is_or n = false -> tidy (Node f_not [n] [])
  | tidy_expr l : l <> [] -> (forall n, In n l -> tidy n) -> tidy (Node f_expr l []).

Lemma inside_or b (g : list pnode -> res plan_error (list pnode)) (n n' : pnode) : inside b g n = Ok n' -> is_or n' = is_or n.
Proof. unfold inside. destruct b; [|by intros [= ->]]. destruct (g (data0 n)); [|done]. intros [= <-]. by destruct n. Qed.

Lemma or_loop_sound f : forall acc l p : list pnode, or_loop f acc l = Ok p -> (forall n, In n l -> tidy n) -> orel acc l p.
Proof.
  induction f as [|f IH]; intros acc l p H Hall; [done|]. cbn [or_loop] in H. destruct l as [|next l]; [injection H as <-; constructor|].
  assert (forall n, In n l -> tidy n) as Hl by (intros n Hn; apply Hall; by right). pose proof (Hall next (or_introl eq_refl)) as Hw.
  destruct (inside _ _ next) as [next'|] eqn:E; [|done]. cbn [rbind] in H. pose proof (inside_or _ _ _ _ E) as Ho.
  destruct (is_or next') eqn:Eo.
  - destruct Hw; try done. destruct acc as [|x acc]; [done|]. destruct (or_loop f [] l) as [second|] eqn:E2; [|done]. cbn in H.
    destruct second as [|y second]; [done|]. injection H as <-. constructor; [done|by apply IH|done].
  - apply (o_unit _ _ next'); [done| |done|by apply IH].
    unfold inside in E. destruct (is_expr next || is_not next) eqn:Eb; [|injection E as <-; by constructor].
    destruct (or_loop f [] (data0 next)) as [d|] eqn:Ed; [|done]. injection E as <-. constructor; [done|]. apply IH; [done|].
    intros n Hn. destruct Hw; try done; cbn in Hn; [destruct Hn as [<-|[]]; done|auto].
Qed.

Lemma or_loop_complete :
  (forall acc l p : list pnode, orel acc l p -> exists f, or_loop f acc l = Ok p) /\
  (forall n n' : pnode, oin n n' -> exists f, inside (is_expr n || is_not n) (or_loop f []) n = Ok n').
Proof.
  assert (forall f f' (acc l p : list pnode), or_loop f acc l = Ok p -> (f <= f')%nat -> or_loop f' acc l = Ok p) as Hup.
  { intros f f' acc l p E Hle. rewrite (or_loop_mono f acc l f' Hle); [done|by rewrite E]. }
  apply o_ind.
  - intros acc. by exists 1%nat.
  - intros acc n n' l p Ho _ (f1 & E1) Ho' _ (f2 & E2). exists (S (f1 + f2)). cbn [or_loop].
    assert (inside (is_expr n || is_not n) (or_loop (f1 + f2) []) n = Ok n') as ->.
    { rewrite (inside_mono _ (or_loop f1 []) _ n); [done| |by rewrite E1]. apply or_loop_mono. lia. }
    cbn [rbind]. rewrite Ho'. apply (Hup f2); [done|lia].
  - intros acc l p Hne _ (f & E) Hp. exists (S f). cbn. destruct acc; [done|]. rewrite E. cbn. by destruct p.
  - intros n Hb. exists 0%nat. by rewrite Hb.
  - intros n p Hb _ (f & E). exists f. rewrite Hb. cbn. by rewrite E.
Qed.

(** ** Executing *)

Definition as_bool (m : M halt W Z) : M halt W bool := z ← m; mret (negb (z =? 0)).

Abbreviation exec_node := (exec_node run).
Abbreviation exec_plan := (exec_loop exec_node).

(** A node, or a list that is not empty, does what an expression says. *)
Definition node_means (n : pnode) (e : expr) : Prop := forall s, as_bool (exec_node n) s = eval e s.
Definition plan_means (l : list pnode) (e : expr) : Prop := l <> [] /\ forall st s, as_bool (exec_plan st l) s = eval e s.

Lemma means_one n e : node_means n e -> plan_means [n] e.
Proof.
  intros H. split; [done|]. intros st s. rewrite <- H. unfold as_bool. cbn [exec_loop]. cbv [mbind M_bind mret M_ret].
  destruct (exec_node n s) as [[z|] s']; cbn; [|done]. destruct (Z.eqb_spec z 0) as [->|Hz]; [done|]. cbn. by apply Z.eqb_neq in Hz as ->.
Qed.

Lemma means_cons n l e1 e2 : node_means n e1 -> plan_means l e2 -> plan_means (n :: l) (EAnd e1 e2).
Proof.
  intros H1 [_ H2]. split; [done|]. intros st s. cbn [FindGrammar.eval]. cbv [mbind M_bind]. rewrite <- H1.
  unfold as_bool at 2. unfold as_bool at 1. cbn [exec_loop]. cbv [mbind M_bind mret M_ret].
  destruct (exec_node n s) as [[z|] s']; cbn; [|done]. destruct (Z.eqb_spec z 0) as [->|]; cbn; [done|]. rewrite <- (H2 z s').
  unfold as_bool. cbv [mbind M_bind mret M_ret]. done.
Qed.

Lemma means_not n l e d : plan_means l e -> n = Node f_not l d -> node_means n (ENot e).
Proof.
  intros [_ H] -> s. cbn [FindGrammar.eval]. cbv [mbind M_bind]. rewrite <- (H 0 s). unfold as_bool at 1. unfold as_bool. cbn [FindExpr.exec_node].
  cbv [mbind M_bind mret M_ret]. destruct (exec_plan 0 l s) as [[z|] s']; cbn; [|done]. by destruct (z =? 0).
Qed.

Lemma means_expr l e d : plan_means l e -> node_means (Node f_expr l d) e.
Proof. intros [_ H] s. apply (H 0 s). Qed.

Lemma means_or l1 l2 e1 e2 : plan_means l1 e1 -> plan_means l2 e2 -> plan_means [Node f_or l1 l2] (EOr e1 e2).
Proof.
  intros [_ H1] [_ H2]. apply means_one. intros s. cbn [FindGrammar.eval]. cbv [mbind M_bind]. rewrite <- (H1 0 s). unfold as_bool at 1. unfold as_bool at 1.
  cbn [FindExpr.exec_node]. cbv [mbind M_bind mret M_ret]. destruct (exec_plan 0 l1 s) as [[z|] s']; cbn; [|done].
  destruct (z =? 0); cbn; [|done]. rewrite <- (H2 0 s'). unfold as_bool. cbv [mbind M_bind mret M_ret]. done.
Qed.

(** An expression behind [not_squish] is found by [or_squish], which gives a plan for it. *)
Lemma j_to_plan :
  (forall (l : list pnode) e, j_or l e -> exists p, orel [] l p /\ plan_means p e) /\
  (forall (l : list pnode) e, j_and l e -> exists l', plan_means l' e /\ forall acc rest p, orel (acc ++ l') rest p -> orel acc (l ++ rest) p) /\
  (forall (n : pnode) e, j_unit n e -> is_or n = false /\ exists n', oin n n' /\ is_or n' = false /\ node_means n' e).
Proof.
  apply j_ind.
  - intros l e _ (l' & Hm & Ho). exists l'. split; [|done]. rewrite <- (app_nil_r l). apply Ho. constructor.
  - intros l1 l2 e1 e2 _ (l1' & Hm1 & Ho1) _ (p2 & Ho2 & Hm2). exists [Node f_or l1' p2]. split; [|by apply means_or].
    apply Ho1. cbn. constructor; [apply Hm1|done|apply Hm2].
  - intros n e _ (Ho & n' & Hi & Ho' & Hm). exists [n']. split; [by apply means_one|]. intros acc rest p H. cbn. by apply (o_unit _ _ n').
  - intros n l e1 e2 _ (Ho & n' & Hi & Ho' & Hm) _ (l' & Hm2 & H2). exists (n' :: l'). split; [by apply means_cons|].
    intros acc rest p H. cbn. apply (o_unit _ _ n'); try done. apply H2. by rewrite <- app_assoc.
  - intros p. split; [done|]. exists (leaf (f_prim p)). split; [by constructor|]. split; [done|]. by intros s.
  - intros n e _ (Ho & n' & Hi & Ho' & Hm). split; [done|]. exists (Node f_not [n'] []). split; [|split; [done|]].
    + apply (o_sub (Node f_not [n] [])); [done|]. apply (o_unit _ _ n'); try done. cbn. constructor.
    + eapply means_not; [by apply means_one|done].
  - intros l e _ (p & Ho & Hm). split; [done|]. exists (Node f_expr p []). split; [|split; [done|by apply means_expr]].
    by apply (o_sub (Node f_expr l [])).
Qed.

Lemma j_and_list (l : list pnode) : l <> [] -> (forall n, In n l -> exists e, j_unit n e) -> exists e, j_and l e.
Proof.
  induction l as [|n l IH]; [done|]. intros _ H. destruct (H n (or_introl eq_refl)) as (e & He). destruct l as [|m l].
  - exists e. by constructor.
  - destruct IH as (e2 & He2); [done|intros k Hk; apply H; by right|]. exists (EAnd e e2). by constructor.
Qed.

Lemma j_or_nonempty (l : list pnode) e : j_or l e -> l <> [].
Proof.
  assert (forall (l : list pnode) e, j_and l e -> l <> []) as H by (by intros l0 e0 []).
  intros [l0 e0 Ha|l1 l2 e1 e2 Ha _]; [by eapply H|]. by destruct l1.
Qed.

Lemma j_or_single (n : pnode) e : j_or [n] e -> j_unit n e.
Proof.
  intros H. inversion H as [l0 e0 Ha|l1 l2 e1 e2 Ha Hb E]; subst.
  - inversion Ha as [|n0 l0 e1 e2 Hn Hl]; subst; [done|]. inversion Hl.
  - exfalso. destruct l1 as [|x l1]; [inversion Ha|]. injection E as -> E. by destruct l1.
Qed.

Lemma plan_to_j :
  (forall acc l p : list pnode, orel acc l p -> (forall n, In n l -> tidy n) -> forall l0, (forall n, In n l0 -> exists e, j_unit n e) ->
     (acc <> [] -> l0 <> []) -> l0 ++ l <> [] -> exists e, j_or (l0 ++ l) e) /\
  (forall n n' : pnode, oin n n' -> tidy n -> is_or n = false -> exists e, j_unit n e).
Proof.
  apply o_ind.
  - intros acc _ l0 Hl0 _ Hne. rewrite app_nil_r in *. destruct (j_and_list l0 Hne Hl0) as (e & He). exists e. by constructor.
  - intros acc n n' l p Ho _ IHn Ho' _ IH Hall l0 Hl0 Hacc Hne.
    destruct (IHn (Hall n (or_introl eq_refl)) Ho) as (e & He).
    destruct (IH (fun m Hm => Hall m (or_intror Hm)) (l0 ++ [n])) as (e2 & He2).
    + intros m [Hm|[<-|[]]]%in_app_iff; [by apply Hl0|by exists e].
    + intros _. by destruct l0.
    + by destruct l0.
    + exists e2. by rewrite <- app_assoc in He2.
  - intros acc l p Hacc Ho IH Hp Hall l0 Hl0 Hl0' _. destruct (j_and_list l0 (Hl0' Hacc) Hl0) as (e1 & He1).
    destruct (IH (fun m Hm => Hall m (or_intror Hm)) []) as (e2 & He2); [by intros m []|done|by inversion Ho; subst|].
    exists (EOr e1 e2). by constructor.
  - intros n Hb Ht Ho. destruct Ht; try done. eexists. constructor.
  - intros n p Hb _ IH Ht Ho. destruct Ht as [q| |m Hm Hmo|l Hne Hl]; try done; cbn in IH.
    + destruct (IH (fun k Hk => match Hk with or_introl E => eq_rect m _ Hm k E | or_intror F => match F with end end) []) as (e & He);
        [by intros k []|done|done|]. exists (ENot e). constructor. by apply j_or_single.
    + destruct (IH Hl []) as (e & He); [by intros k []|done|done|]. exists e. by constructor.
Qed.

Lemma nrel_tidy :
  (forall l l' : list pnode, nrel l l' -> (forall n, In n l -> whole n) -> (forall n, In n l' -> tidy n) /\ (l <> [] -> l' <> [])) /\
  (forall b b' : pnode, nbase b b' -> whole b -> tidy b' /\ is_or b' = false).
Proof.
  apply n_ind.
  - intros _. split; [by intros n []|done].
  - intros l l' _ IH Hall. split; [|done]. intros n [<-|Hn]; [constructor|]. by apply IH; [intros m Hm; apply Hall; right|].
  - intros k b b' l l' _ IHb _ IH Hall.
    assert (In b (replicate k (leaf f_not) ++ b :: l)) as Hin by (apply in_app_iff; right; by left).
    destruct (IHb (Hall b Hin)) as [Ht Ho]. split; [|done]. intros n [<-|Hn].
    + unfold wrap. destruct (Nat.even k); [done|by constructor].
    + apply IH; [|done]. intros m Hm. apply Hall, in_app_iff. right. by right.
  - intros p _. split; [constructor|done].
  - intros l l' _ IH Hw. split; [|done]. inversion Hw as [e He E|l0 Hne Hl]; subst; [done|]. destruct (IH Hl) as [H1 H2].
    constructor; [by apply H2|done].
Qed.

(** ** All passes *)

Lemma squish_accepts (toks : list (exec P)) e :
  g_or toks e -> exists plan, squish toks = Ok plan /\ plan_means plan e.
Proof.
  intros Hg. destruct (proj1 g_to_i toks e Hg) as (l & Hi & <- & Hne & Hw).
  destruct (proj1 i_to_j l e Hi) as (l' & e' & Hr & Hj & Hs). destruct (proj1 j_to_plan l' e' Hj) as (p & Ho & Hp & Hm).
  destruct (proj1 not_loop_complete l l' Hr) as (f1 & E1). destruct (proj1 or_loop_complete [] l' p Ho) as (f2 & E2).
  exists p. split; [|split; [done|]; intros st s; rewrite Hm; apply Hs]. unfold squish, paren_squish.
  rewrite length_map, paren_flat by (done || lia). cbn [rbind app]. unfold not_squish.
  assert (not_loop (S (plan_size l)) l = Ok l') as ->.
  { destruct (Nat.le_ge_cases f1 (S (plan_size l))) as [Hle|Hle].
    - rewrite (not_loop_mono f1 l _ Hle); [done|by rewrite E1].
    - rewrite <- E1. symmetry. apply not_loop_mono; [done|]. apply not_loop_ends. lia. }
  cbn [rbind]. unfold or_squish. destruct (Nat.le_ge_cases f2 (S (plan_size l'))) as [Hle|Hle].
  - rewrite (or_loop_mono f2 [] l' _ Hle); [done|by rewrite E2].
  - rewrite <- E2. symmetry. apply or_loop_mono; [done|]. apply or_loop_ends. lia.
Qed.

Lemma squish_only (toks : list (exec P)) plan : toks <> [] -> Forall plain toks -> squish toks = Ok plan -> exists e, g_or toks e.
Proof.
  intros Hne Hp H. unfold squish in H. destruct (paren_squish (map leaf toks)) as [l|] eqn:E1; [|done]. cbn [rbind] in H.
  destruct (not_squish l) as [l'|] eqn:E2; [|done]. cbn [rbind] in H.
  destruct (paren_taken _ _ _ _ Hp E1) as (l0 & -> & -> & Hw). cbn [app] in *.
  pose proof (not_loop_sound _ _ _ E2 Hw) as Hr. destruct (proj1 nrel_tidy _ _ Hr Hw) as [Ht Hne'].
  pose proof (or_loop_sound _ _ _ _ H Ht) as Ho.
  assert (l0 <> []) as Hl0 by (by intros ->).
  destruct (proj1 plan_to_j _ _ _ Ho Ht []) as (e' & Hj); [by intros n []|done|by apply Hne'|]. cbn in Hj.
  destruct (proj1 j_to_i _ _ Hj _ Hr) as (e & Hi). exists e. by apply i_to_g.
Qed.

Lemma paren_ends fuel : forall (l : list pnode) res, (2 * length l + 2 <= fuel)%nat -> paren_loop fuel res l <> Ex OutOfFuel.
Proof.
  assert (forall fuel (l : list pnode),
    ((2 * length l + 1 <= fuel)%nat -> yankexpr fuel l <> Ex OutOfFuel) /\
    (forall n rest, yankexpr fuel l = Ok (Some n, rest) -> (length rest < length l)%nat) /\
    ((2 * length l + 2 <= fuel)%nat -> forall sub, collect fuel sub l <> Ex OutOfFuel) /\
    (forall sub r rest, collect fuel sub l = Ok (r, rest) -> (length rest < length l)%nat)) as H.
  { clear fuel. induction fuel as [|fuel IH]; intros l; [split_and!; (done || (intros; lia))|].
    assert (forall sub r rest, collect (S fuel) sub l = Ok (r, rest) -> (length rest < length l)%nat) as Hc.
    { intros sub r rest E. cbn [collect] in E. destruct (yankexpr fuel l) as [[[n|] rest1]|] eqn:E1; try done. cbn [rbind] in E.
      apply (proj1 (proj2 (IH l))) in E1. destruct (execute n); try (apply (proj2 (proj2 (proj2 (IH rest1)))) in E; lia).
      destruct sub; [done|]. by injection E as _ <-. }
    split_and!; [| | |exact Hc].
    - intros Hf. destruct l as [|n l]; [done|]. cbn [yankexpr]. destruct (execute n); try done.
      pose proof (proj1 (proj2 (proj2 (IH l))) ltac:(cbn in Hf; lia) []) as H. destruct (collect fuel [] l) as [[]|]; cbn; [done|]. by intros [= ->].
    - intros n rest E. destruct l as [|m l]; [done|]. cbn [yankexpr] in E. destruct (execute m); try (injection E as <- <-; cbn; lia).
      destruct (collect fuel [] l) as [[sub rest']|] eqn:E1; [|done]. cbn in E. injection E as <- <-.
      apply (proj2 (proj2 (proj2 (IH l)))) in E1. cbn. lia.
    - intros Hf sub. cbn [collect]. pose proof (proj1 (IH l) ltac:(lia)) as H1.
      destruct (yankexpr fuel l) as [[[n|] rest]|] eqn:E1; cbn [rbind]; [|done|by intros [= ->]].
      apply (proj1 (proj2 (IH l))) in E1. destruct (execute n); try (apply (proj1 (proj2 (proj2 (IH rest)))); lia). by destruct sub. }
  induction fuel as [|fuel IH]; intros l res Hf; [lia|]. cbn [paren_loop]. pose proof (proj1 (H fuel l) ltac:(lia)) as H1.
  destruct (yankexpr fuel l) as [[[n|] rest]|] eqn:E1; cbn [rbind]; [|done|by intros [= ->]].
  apply (proj1 (proj2 (H fuel l))) in E1. destruct (execute n); try (apply IH; lia). done.
Qed.

Lemma squish_ends toks : @squish P toks <> Ex OutOfFuel.
Proof.
  assert (forall {A B} (m : res plan_error A) (k : A -> res plan_error B), m <> Ex OutOfFuel -> (forall a, k a <> Ex OutOfFuel) -> rbind m k <> Ex OutOfFuel) as Hb.
  { intros A B m k H Hk. destruct m; cbn; [apply Hk|]. by intros [= ->]. }
  unfold squish. apply Hb; [apply paren_ends; lia|]. intros l. apply Hb; [apply not_loop_ends; lia|]. intros l'. apply or_loop_ends. lia.
Qed.

End Passes.
