(* ===== verification/FindSpec.v ===== *)
(** * find: the command line

    The theorems about [find_formplan]: it takes the expressions of the grammar, with the -print that is
    added, and executing the plan is evaluating the expression; what else it takes; and the table of options. *)

From Stdlib Require Import ZArith Lia List Bool String.
From stdpp Require Import base tactics list numbers strings.
From S2P Require Import Prelude FindExpr FindGrammar FindSquish.

Local Open Scope Z_scope.
Local Open Scope list_scope.

(** ** The table *)

Lemma ascii_compare_eq c d : Ascii.compare c d = Eq -> c = d.
Proof.
  unfold Ascii.compare. intros H%N.compare_eq. rewrite <- (Ascii.ascii_N_embedding c), <- (Ascii.ascii_N_embedding d). by f_equal.
Qed.

Lemma strcmp_eq a b : strcmp a b = Eq -> a = b.
Proof.
  revert b. induction a as [|c a IH]; intros [|d b]; cbn; try done. destruct (Ascii.compare c d) eqn:E; try done.
  intros H. apply ascii_compare_eq in E. apply IH in H. by subst.
Qed.

Lemma bsearch_in fuel name : forall lo hi r, bsearch fuel name lo hi = Some r -> (name, r) ∈ options_table.
Proof.
  induction fuel as [|fuel IH]; intros lo hi r H; [done|]. cbn [bsearch] in H. destruct (lo <? hi)%nat; [|done].
  destruct (options_table !! Nat.div2 (lo + hi)) as [[n r']|] eqn:E; [|done]. destruct (strcmp name n) eqn:Ec.
  - injection H as <-. apply strcmp_eq in Ec as ->. by eapply list_elem_of_lookup_2.
  - by eapply IH.
  - by eapply IH.
Qed.

(** The search finds every option of the table, which it would not if the table were out of order, and nothing else. *)
Lemma lookup_option_spec name r : lookup_option name = Some r <-> (name, r) ∈ options_table.
Proof.
  split; [apply bsearch_in|]. intros H. assert (Forall (fun '(n, r) => lookup_option n = Some r) options_table) as Hall.
  { repeat (constructor; [vm_compute; reflexivity|]). constructor. }
  rewrite Forall_forall in Hall. by apply Hall in H.
Qed.

Lemma and_options name o : (name, (c_and, o)) ∈ options_table -> name = "-a"%string \/ name = "-and"%string.
Proof. intros H%list_elem_of_In. cbn in H. repeat (destruct H as [H|H]; [try discriminate; injection H as <- <-; auto|]). done. Qed.

(** ** The arguments *)

Section Command.
Context {P W : Type} (create : string -> list string -> option (P * list string)) (simple : string -> P) (run : P -> M halt W Z).
(** A primary does not make arguments. *)
Hypothesis (Hcreate : forall name argv p rest, create name argv = Some (p, rest) -> (length rest <= length argv)%nat).

Abbreviation form_loop := (form_loop create simple).

Lemma find_create_spec name argv : 
  match find_create create simple name argv with
  | Ok (new, rest) => (length rest <= length argv)%nat /\ match new with Some f_expr => False | None => sets_isoutput name = false | _ => True end
  | Ex e => e <> OutOfFuel
  end.
Proof.
  unfold find_create. destruct (lookup_option name) as [[c o]|] eqn:E; [|done].
  assert (c = c_and -> sets_isoutput name = false) as Hand.
  { intros ->. apply lookup_option_spec in E. by apply and_options in E as [->| ->]. }
  destruct c, o; try done; try (split; [lia|done]); try (split; [lia|by apply Hand]).
  all: destruct (create name argv) as [[p rest]|] eqn:Ec; [|done]; split; [by eapply Hcreate|done].
Qed.

Lemma form_loop_ends fuel : forall argv plan iso, (length argv < fuel)%nat -> form_loop fuel argv plan iso <> Ex OutOfFuel.
Proof.
  induction fuel as [|fuel IH]; intros [|name argv] plan iso Hf; cbn [form_loop]; (done || cbn in Hf; try lia).
  pose proof (find_create_spec name argv) as H. destruct (find_create create simple name argv) as [[new rest]|e]; cbn [rbind].
  - apply IH. lia.
  - by intros [= ->].
Qed.

Lemma form_loop_plain fuel : forall argv plan iso toks iso', Forall plain plan -> (iso = true -> plan <> []) ->
  form_loop fuel argv plan iso = Ok (toks, iso') -> Forall plain toks /\ (iso' = true -> toks <> []).
Proof.
  induction fuel as [|fuel IH]; intros [|name argv] plan iso toks iso' Hp Hi H; cbn [form_loop] in H; try done.
  - by injection H as <- <-.
  - pose proof (find_create_spec name argv) as Hc. destruct (find_create create simple name argv) as [[new rest]|e]; cbn [rbind] in H; [|done].
    apply IH in H; [done| |]; destruct new as [e|]; try done.
    + apply Forall_app. split; [done|]. constructor; [|done]. by destruct Hc, e.
    + intros _. by destruct plan.
    + destruct Hc as [_ ->]. by rewrite orb_false_r.
Qed.

Lemma with_print_squishes toks iso : Forall plain toks -> (iso = true -> toks <> []) -> Forall plain (with_print simple toks iso) /\ with_print simple toks iso <> [].
Proof.
  intros Hp Hi. destruct iso; [by split; [|apply Hi]|]. destruct toks as [|t toks]; cbn; (split; [|done]).
  - by repeat constructor.
  - constructor; [done|]. change (Forall plain ((t :: toks) ++ [f_closeparen; f_prim (simple "-print")])).
    apply Forall_app. split; [done|]. by repeat constructor.
Qed.

Lemma g_or_nonempty (toks : list (exec P)) e : g_or toks e -> toks <> [].
Proof. intros (l & _ & <- & Hl & _)%(proj1 g_to_i). destruct l as [|[[] ? ?] l]; done. Qed.

Lemma with_print_means toks e : g_or toks e -> g_or (with_print simple toks false) (EAnd e (EPrim (simple "-print"))).
Proof.
  intros Hg. pose proof (g_or_nonempty _ _ Hg). destruct toks as [|t toks]; [done|].
  change (with_print simple (t :: toks) false) with ((f_openparen :: (t :: toks)) ++ [f_closeparen] ++ [f_prim (simple "-print")]).
  rewrite app_assoc. do 2 constructor; [by constructor|]. do 2 constructor.
Qed.

Lemma plan_runs (plan : list (pnode P)) e s : plan_means run plan e -> find_execute_entry run plan s = (_ ← eval run e; mret ()) s.
Proof.
  intros [_ H]. unfold find_execute_entry. cbv [mbind M_bind]. rewrite <- (H 0 s). unfold as_bool. cbv [mbind M_bind mret M_ret].
  by destruct (exec_loop (exec_node run) 0 plan s) as [[z|] s'].
Qed.

(** A ")" that closes nothing. *)
Lemma paren_flat_then (l : list (pnode P)) : forall fuel res rest, (forall n, In n l -> whole n) -> (2 * length (flat l) + 2 <= fuel)%nat ->
  exists fuel', (2 <= fuel')%nat /\ paren_loop fuel res (map leaf (flat l) ++ rest) = paren_loop fuel' (res ++ l) rest.
Proof.
  induction l as [|n l IH]; intros fuel res rest Hall Hf.
  - exists fuel. rewrite app_nil_r. split; [cbn in Hf; lia|done].
  - cbn in Hf. rewrite length_app in Hf. fold (flat l) in Hf. cbn [flat flat_map]. fold (flat l).
    destruct fuel as [|fuel]; [lia|]. cbn [paren_loop]. rewrite map_app, <- app_assoc.
    assert (whole n) as Hn by (apply Hall; by left). rewrite (yank_flat _ n _ fuel Hn (le_n _)) by lia. cbn [rbind].
    assert (0 < length (flat_node n))%nat as Hpos by (destruct Hn as [e He|]; [destruct e; cbn; lia|cbn; lia]).
    assert (match execute n with f_closeparen => False | _ => True end) as Hex by (destruct Hn as [e He|]; [by destruct e|done]).
    destruct (IH fuel (res ++ [n]) rest) as (f' & Hf' & E); [intros m Hm; apply Hall; by right|lia|].
    exists f'. split; [done|]. rewrite <- app_assoc in E. cbn in E. rewrite <- E. by destruct (execute n).
Qed.

Lemma squish_no_beginning (toks : list (exec P)) e rest : g_or toks e -> squish (toks ++ f_closeparen :: rest) = Ex NoBeginning.
Proof.
  intros (l & _ & <- & Hl & Hw)%(proj1 g_to_i). unfold squish, paren_squish. rewrite map_app, length_app, !length_map.
  destruct (paren_flat_then l (2 * (length (flat l) + length (map leaf (f_closeparen :: rest))) + 2) [] (map leaf (f_closeparen :: rest)) Hw) as (f & Hf & E); [lia|].
  rewrite length_map in E. rewrite E. destruct f as [|[|f]]; [lia..|]. done.
Qed.

End Command.

(** ** The theorems *)

(** A small instance: the primaries are their words, -name takes one argument, and -print prints. *)
Definition word_create (name : string) (argv : list string) : option (string * list string) :=
  match argv with w :: argv => Some ((name ++ " " ++ w)%string, argv) | [] => None end.
Definition word_run (p : string) : M halt (list string) Z :=
  fun out => if (p =? "-print")%string then (Ok 1, out ++ [p]) else if ((p =? "-name foo") || (p =? "-false"))%string then (Ok 0, out) else (Ok 1, out).

(** C17. The arguments of find as a language: [find_formplan] always ends; it makes a plan from the arguments exactly when they are,
    behind the -print that it adds, an expression of the grammar of alternatives, juxtapositions,
    negations and parentheses; executing the plan for a file then is evaluating that expression from left to
    right, without the primaries that need not be evaluated, and with the same effects; and to an expression without an output primary it adds "and -print". *)
Theorem find_follows_grammar {P W} (create : string -> list string -> option (P * list string)) (simple : string -> P) (run : P -> M halt W Z) argv
  (Hcreate : forall name argv p rest, create name argv = Some (p, rest) -> (length rest <= length argv)%nat) :
  find_formplan create simple argv <> Ex OutOfFuel /\
  forall toks iso, form_loop create simple (S (length argv)) argv [] false = Ok (toks, iso) ->
    (forall plan, find_formplan create simple argv = Ok plan -> exists e, g_or (with_print simple toks iso) e) /\
    (forall e, g_or (with_print simple toks iso) e -> exists plan, find_formplan create simple argv = Ok plan /\
       forall s, find_execute_entry run plan s = (_ ← eval run e; mret ()) s) /\
    (forall e, g_or toks e -> iso = false -> g_or (with_print simple toks iso) (EAnd e (EPrim (simple "-print")))).
Proof.
  unfold find_formplan. split.
  - pose proof (form_loop_ends create simple Hcreate (S (length argv)) argv [] false ltac:(lia)) as H.
    destruct (FindExpr.form_loop create simple (S (length argv)) argv [] false) as [[toks iso]|]; cbn [rbind]; [apply squish_ends|by intros [= ->]].
  - intros toks iso E. rewrite E. cbn [rbind]. apply form_loop_plain in E as [Hp Hi]; [|done..].
    destruct (with_print_squishes simple toks iso Hp Hi) as [Hp' Hne]. split_and!.
    + intros plan. by apply squish_only.
    + intros e Hg. destruct (squish_accepts run _ _ Hg) as (plan & E & Hm). exists plan. split; [done|]. intros s. by apply plan_runs.
    + intros e Hg ->. by apply with_print_means.
Qed.

Definition words : list string := ["!"; "("; "-name"; "foo"; ")"; "-a"; "-true"; "-o"; "-false"]%string.
Lemma find_follows_grammar_witness :
  find_formplan word_create id words <> Ex OutOfFuel /\
  exists plan, find_formplan word_create id words = Ok plan /\ find_execute_entry word_run plan [] = (Ok (), ["-print"%string]).
Proof.
  destruct (find_follows_grammar word_create id word_run words) as [H1 H2].
  { intros name [|w argv] p rest H; [done|]. injection H as _ <-. cbn. lia. }
  split; [exact H1|]. destruct (H2 _ _ eq_refl) as (_ & H3 & H4).
  destruct (H3 _ (H4 (EOr (EAnd (ENot (EPrim "-name foo"%string)) (EPrim "-true"%string)) (EPrim "-false"%string))
    (g_or_more [f_not; f_openparen; f_prim "-name foo"%string; f_closeparen; f_prim "-true"%string] [f_prim "-false"%string] _ _
      (g_and_more [f_not; f_openparen; f_prim "-name foo"%string; f_closeparen] [f_prim "-true"%string] _ _
        (g_neg _ _ (g_paren [f_prim "-name foo"%string] _ (g_or_one _ _ (g_and_one _ _ (g_prim _)))))
        (g_and_one _ _ (g_prim _)))
      (g_or_one _ _ (g_and_one _ _ (g_prim _)))) eq_refl)) as (plan & E & Hr).
  exists plan. split; [exact E|]. rewrite Hr. vm_compute. reflexivity.
Defined.

(** C39. Arguments that are no expression are accepted when nothing in them prints: with a ")" too many behind one expression and a "(" too many
    before another, [paren_squish] finds no beginning for the first; but the pair of parentheses that
    [find_formplan] puts around such arguments closes the one and opens the other, and what is printed are the files
    for which the first expression does not hold and the second does. *)
Theorem unbalanced_accepted {P W} (simple : string -> P) (run : P -> M halt W Z) toks1 toks2 e1 e2
  (H1 : g_or toks1 e1) (H2 : g_or toks2 e2) :
  let toks := toks1 ++ [f_closeparen; f_or; f_openparen] ++ toks2 in
  squish toks = Ex NoBeginning /\
  exists plan, squish (with_print simple toks false) = Ok plan /\
    forall s, find_execute_entry run plan s = (_ ← eval run (EOr e1 (EAnd e2 (EPrim (simple "-print")))); mret ()) s.
Proof.
  intros toks. split; [by eapply squish_no_beginning|].
  assert (g_or (with_print simple toks false) (EOr e1 (EAnd e2 (EPrim (simple "-print"))))) as Hg.
  { assert (with_print simple toks false = (f_openparen :: toks1 ++ [f_closeparen]) ++ f_or :: (f_openparen :: toks2 ++ [f_closeparen]) ++ [f_prim (simple "-print")]) as ->.
    { pose proof (g_or_nonempty _ _ H1) as Hne. unfold toks. destruct toks1; [done|]. cbn. by repeat (rewrite <- app_assoc; cbn). }
    constructor; [by do 2 constructor|]. do 2 constructor; [by constructor|]. do 2 constructor. }
  destruct (squish_accepts run _ _ Hg) as (plan & E & Hm). exists plan. split; [done|]. intros s. by apply plan_runs.
Qed.

Lemma unbalanced_accepted_witness :
  find_formplan word_create id ["-false"; ")"; "-o"; "("; "-true"; "-print"]%string = Ex NoBeginning /\
  exists plan, find_formplan word_create id ["-name"; "foo"; ")"; "-o"; "("; "-true"]%string = Ok plan /\
    find_execute_entry word_run plan [] = (Ok (), ["-print"%string]).
Proof.
  split; [vm_compute; reflexivity|].
  destruct (unbalanced_accepted id word_run [f_prim "-name foo"%string] [f_prim "-true"%string] _ _
    (g_or_one _ _ (g_and_one _ _ (g_prim _))) (g_or_one _ _ (g_and_one _ _ (g_prim _)))) as (_ & plan & E & Hr).
  exists plan. split; [exact E|]. rewrite Hr. vm_compute. reflexivity.
Defined.
