(* ===== verification/TrSet.v ===== *)
(** * tr: sets and maps of characters
    ([src/text_cmds/tr/cset.c], [cmap.c] and their headers)

    Both are splay trees behind a table for the first characters, [cset] with extents of characters in its nodes and
    [cmap] with pairs; the two functions that splay differ in how a node is compared only, and are [splay] at two
    comparisons.  Looking something up splays too, so that every operation gives the structure back. *)

From Stdlib Require Import ZArith Lia List Bool.
From stdpp Require Import base tactics list numbers.
From S2P Require Import Prelude.

Local Open Scope Z_scope.
Local Open Scope list_scope.

(** ** Splay trees *)

Section Splay.
Context {V : Type} (cmp : V -> Z -> Z).

Inductive tree := Leaf | Node (lt : tree) (v : V) (rt : tree).

(** The trees under construction hang on [N]: [l] is the right spine of [N.right], the last node first, each
    without its right subtree, and [r] the left spine of [N.left]. *)
Fixpoint hang_right (l : list (tree * V)) (t : tree) : tree :=
  match l with [] => t | (lt, v) :: l => hang_right l (Node lt v t) end.
Fixpoint hang_left (r : list (V * tree)) (t : tree) : tree :=
  match r with [] => t | (v, rt) :: r => hang_left r (Node t v rt) end.

(** The four lines behind the loop. *)
Definition put_together (l : list (tree * V)) (lt : tree) (v : V) (rt : tree) (r : list (V * tree)) : tree :=
  Node (hang_right l lt) v (hang_left r rt).

Fixpoint splay_loop (ch : Z) (t : tree) (l : list (tree * V)) (r : list (V * tree)) {struct t} : tree :=
  match t with
  | Leaf => Leaf
  | Node tl v tr =>
      if cmp v ch <? 0 then
        match tl with
        | Leaf => put_together l Leaf v tr r
        | Node yl yv yr =>
            if cmp yv ch <? 0 then
              match yl with
              | Leaf => put_together l Leaf yv (Node yr v tr) r
              | _ => splay_loop ch yl l ((yv, Node yr v tr) :: r)
              end
            else splay_loop ch tl l ((v, tr) :: r)
        end
      else if 0 <? cmp v ch then
        match tr with
        | Leaf => put_together l tl v Leaf r
        | Node yl yv yr =>
            if 0 <? cmp yv ch then
              match yr with
              | Leaf => put_together l (Node tl v yl) yv Leaf r
              | _ => splay_loop ch yr ((Node tl v yl, yv) :: l) r
              end
            else splay_loop ch tr ((tl, v) :: l) r
        end
      else put_together l tl v tr r
  end.
Definition splay (t : tree) (ch : Z) : tree := splay_loop ch t [] [].

End Splay.
Arguments tree : clear implicits.

(** ** cset.c *)

Module Cset.

(** The locale's [iswctype]. *)
Section Ctype.
Context (iswctype : Z -> Z -> bool).

Record csnode := { csn_min : Z; csn_max : Z }.
Record csclass := { csc_type : Z; csc_invert : bool }.

Definition CS_CACHE_SIZE : Z := 256.
Record cset := {
  cs_cache : list bool;
  cs_havecache : bool;
  cs_classes : list csclass;
  cs_root : tree csnode;
  cs_invert : bool }.

Definition set_cache (c : list bool) (cs : cset) : cset :=
  {| cs_cache := c; cs_havecache := true; cs_classes := cs_classes cs; cs_root := cs_root cs; cs_invert := cs_invert cs |}.
Definition no_cache (cs : cset) : cset :=
  {| cs_cache := cs_cache cs; cs_havecache := false; cs_classes := cs_classes cs; cs_root := cs_root cs; cs_invert := cs_invert cs |}.
Definition set_root (t : tree csnode) (cs : cset) : cset :=
  {| cs_cache := cs_cache cs; cs_havecache := cs_havecache cs; cs_classes := cs_classes cs; cs_root := t; cs_invert := cs_invert cs |}.

Definition cset_rangecmp (t : csnode) (ch : Z) : Z :=
  if ch <? csn_min t then -1 else if csn_max t <? ch then 1 else 0.
Definition cset_splay : tree csnode -> Z -> tree csnode := splay cset_rangecmp.

Definition cset_alloc : cset :=
  {| cs_cache := replicate (Z.to_nat CS_CACHE_SIZE) false; cs_havecache := false; cs_classes := []; cs_root := Leaf; cs_invert := false |}.

(** [x->csn_right = t->csn_right], for a tree that is there. *)
Definition set_right (x : tree csnode) (rt : tree csnode) : tree csnode :=
  match x with Leaf => Leaf | Node l v _ => Node l v rt end.

(** [None] for an [assert] that does not hold. *)
Definition cset_delete (t : tree csnode) (ch : Z) : option (tree csnode) :=
  match cset_splay t ch with
  | Leaf => None
  | Node lt v rt =>
      if cset_rangecmp v ch =? 0 then
        Some (match lt with Leaf => rt | _ => set_right (cset_splay lt ch) rt end)
      else None
  end.

(** Coalescing with a neighbour: the tree without it, and the end of the new extent. *)
Definition coalesce_left (lt : tree csnode) (mn : Z) : option (tree csnode * Z) :=
  match lt with
  | Leaf => Some (Leaf, mn)
  | _ =>
      match cset_splay lt (s32 (mn - 1)) with
      | Leaf => None
      | Node _ v _ as lt =>
          if csn_max v =? s32 (mn - 1) then
            lt ← cset_delete lt (csn_min v); Some (lt, csn_min v)
          else Some (lt, mn)
      end
  end.
Definition coalesce_right (rt : tree csnode) (mx : Z) : option (tree csnode * Z) :=
  match rt with
  | Leaf => Some (Leaf, mx)
  | _ =>
      match cset_splay rt (s32 (mx + 1)) with
      | Leaf => None
      | Node _ v _ as rt =>
          if csn_min v =? s32 (mx + 1) then
            rt ← cset_delete rt (csn_min v); Some (rt, csn_max v)
          else Some (rt, mx)
      end
  end.

Definition cset_add (cs : cset) (ch : Z) : option cset :=
  let cs := no_cache cs in
  match cs_root cs with
  | Leaf => Some (set_root (Node Leaf {| csn_min := ch; csn_max := ch |} Leaf) cs)
  | root =>
      match cset_splay root ch with
      | Leaf => None
      | Node csl v csr as csn =>
          if cset_rangecmp v ch =? 0 then Some (set_root csn cs)
          else
            let '(lt, rt) := if cset_rangecmp v ch <? 0 then (csl, Node Leaf v csr) else (Node csl v Leaf, csr) in
            '(lt, mn) ← coalesce_left lt ch;
            '(rt, mx) ← coalesce_right rt ch;
            Some (set_root (Node lt {| csn_min := mn; csn_max := mx |} rt) cs)
      end
  end.

Definition cset_in_hard (cs : cset) (ch : Z) : option (bool * cset) :=
  if existsb (fun csc => xorb (csc_invert csc) (iswctype ch (csc_type csc))) (cs_classes cs) then Some (xorb (cs_invert cs) true, cs)
  else
    match cs_root cs with
    | Leaf => Some (xorb (cs_invert cs) false, cs)
    | root =>
        match cset_splay root ch with
        | Leaf => None
        | Node _ v _ as root => Some (xorb (cs_invert cs) (cset_rangecmp v ch =? 0), set_root root cs)
        end
    end.

(** The loop of [cset_cache], from [i]; the entries are written as they come, but nothing reads them before the loop ends. *)
Fixpoint cache_loop (n : nat) (i : Z) (cs : cset) : option (list bool * cset) :=
  match n with
  | O => Some ([], cs)
  | S n => '(b, cs) ← cset_in_hard cs i; '(l, cs) ← cache_loop n (i + 1) cs; Some (b :: l, cs)
  end.
Definition cset_cache (cs : cset) : option cset :=
  '(l, cs) ← cache_loop (Z.to_nat CS_CACHE_SIZE) 0 cs; Some (set_cache l cs).

Definition cset_invert (cs : cset) : cset :=
  {| cs_cache := cs_cache cs; cs_havecache := false; cs_classes := cs_classes cs; cs_root := cs_root cs; cs_invert := negb (cs_invert cs) |}.
Definition cset_addclass (cs : cset) (type : Z) (invert : bool) : cset :=
  {| cs_cache := cs_cache cs; cs_havecache := false; cs_classes := {| csc_type := type; csc_invert := invert |} :: cs_classes cs;
     cs_root := cs_root cs; cs_invert := cs_invert cs |}.

(** [cset_in]; [None] also for a read in front of the cache. *)
Definition cset_in (cs : cset) (ch : Z) : option (bool * cset) :=
  if (ch <? CS_CACHE_SIZE) && cs_havecache cs then
    if ch <? 0 then None else b ← cs_cache cs !! Z.to_nat ch; Some (b, cs)
  else cset_in_hard cs ch.

End Ctype.
End Cset.

(** ** cmap.c *)

Module Cmap.

Record cmapnode := { cmn_from : Z; cmn_to : Z }.

Definition CM_CACHE_SIZE : Z := 128.
Definition CM_DEF_SELF : Z := -2.
Record cmap := {
  cm_cache : list Z;
  cm_havecache : bool;
  cm_root : tree cmapnode;
  cm_def : Z;
  cm_min : Z;
  cm_max : Z }.

Definition set_root (t : tree cmapnode) (cm : cmap) : cmap :=
  {| cm_cache := cm_cache cm; cm_havecache := cm_havecache cm; cm_root := t; cm_def := cm_def cm; cm_min := cm_min cm; cm_max := cm_max cm |}.
Definition set_min_max (mn mx : Z) (cm : cmap) : cmap :=
  {| cm_cache := cm_cache cm; cm_havecache := cm_havecache cm; cm_root := cm_root cm; cm_def := cm_def cm; cm_min := mn; cm_max := mx |}.
Definition set_cache (c : list Z) (cm : cmap) : cmap :=
  {| cm_cache := c; cm_havecache := true; cm_root := cm_root cm; cm_def := cm_def cm; cm_min := cm_min cm; cm_max := cm_max cm |}.
Definition no_cache (cm : cmap) : cmap :=
  {| cm_cache := cm_cache cm; cm_havecache := false; cm_root := cm_root cm; cm_def := cm_def cm; cm_min := cm_min cm; cm_max := cm_max cm |}.

Definition from_cmp (t : cmapnode) (ch : Z) : Z :=
  if ch <? cmn_from t then -1 else if cmn_from t <? ch then 1 else 0.
Definition cmap_splay : tree cmapnode -> Z -> tree cmapnode := splay from_cmp.

Definition cmap_alloc : cmap :=
  {| cm_cache := replicate (Z.to_nat CM_CACHE_SIZE) 0; cm_havecache := false; cm_root := Leaf; cm_def := CM_DEF_SELF; cm_min := 0; cm_max := 0 |}.

Definition cmap_add (cm : cmap) (from to : Z) : option cmap :=
  let cm := no_cache cm in
  let new := {| cmn_from := from; cmn_to := to |} in
  match cm_root cm with
  | Leaf => Some (set_min_max from from (set_root (Node Leaf new Leaf) cm))
  | root =>
      match cmap_splay root from with
      | Leaf => None
      | Node l v r =>
          if cmn_from v =? from then Some (set_root (Node l {| cmn_from := cmn_from v; cmn_to := to |} r) cm)
          else
            let ncmn := if from <? cmn_from v then Node l new (Node Leaf v r) else Node (Node l v Leaf) new r in
            Some (set_root ncmn (set_min_max (if from <? cm_min cm then from else cm_min cm) (if cm_max cm <? from then from else cm_max cm) cm))
      end
  end.

Definition default_of (cm : cmap) (ch : Z) : Z := if cm_def cm =? CM_DEF_SELF then ch else cm_def cm.
Definition cmap_lookup_hard (cm : cmap) (ch : Z) : option (Z * cmap) :=
  match cm_root cm with
  | Leaf => Some (default_of cm ch, cm)
  | root =>
      match cmap_splay root ch with
      | Leaf => None
      | Node _ v _ as root =>
          let cm := set_root root cm in
          Some (if cmn_from v =? ch then cmn_to v else default_of cm ch, cm)
      end
  end.

Fixpoint cache_loop (n : nat) (ch : Z) (cm : cmap) : option (list Z * cmap) :=
  match n with
  | O => Some ([], cm)
  | S n => '(x, cm) ← cmap_lookup_hard cm ch; '(l, cm) ← cache_loop n (ch + 1) cm; Some (x :: l, cm)
  end.
Definition cmap_cache (cm : cmap) : option cmap :=
  '(l, cm) ← cache_loop (Z.to_nat CM_CACHE_SIZE) 0 cm; Some (set_cache l cm).

Definition cmap_default (cm : cmap) (def : Z) : Z * cmap :=
  (cm_def cm, {| cm_cache := cm_cache cm; cm_havecache := false; cm_root := cm_root cm; cm_def := def; cm_min := cm_min cm; cm_max := cm_max cm |}).

(** [cmap_lookup]; [None] also for a read in front of the cache. *)
Definition cmap_lookup (cm : cmap) (from : Z) : option (Z * cmap) :=
  if (from <? CM_CACHE_SIZE) && cm_havecache cm then
    if from <? 0 then None else x ← cm_cache cm !! Z.to_nat from; Some (x, cm)
  else cmap_lookup_hard cm from.

End Cmap.
