(* ===== verification/TrSetFacts.v ===== *)
(** * tr: the trees are sets and maps

    A tree stands for the list of its nodes in order.  Splaying changes the tree and not the list, and brings to the root the node that was looked for, or
    one next to its place. *)

From Stdlib Require Import ZArith Lia List Bool Sorting.Sorted.
From stdpp Require Import base tactics list numbers gmap.
From S2P Require Import Prelude TrSet.

Local Open Scope Z_scope.
Local Open Scope list_scope.

(** ** Splaying *)

Section SplayFacts.
Context {V : Type} (cmp : V -> Z -> Z).
Implicit Types t : tree V.

Fixpoint inorder t : list V := match t with Leaf => [] | Node l v r => inorder l ++ v :: inorder r end.
Fixpoint tree_size t : nat := match t with Leaf => 0 | Node l _ r => S (tree_size l + tree_size r) end.

Fixpoint lefts (l : list (tree V * V)) : list V := match l with [] => [] | (t, v) :: l => lefts l ++ inorder t ++ [v] end.
Fixpoint rights (r : list (V * tree V)) : list V := match r with [] => [] | (v, t) :: r => v :: inorder t ++ rights r end.

Lemma hang_right_inorder l : forall t, inorder (hang_right l t) = lefts l ++ inorder t.
Proof. induction l as [|[t' v] l IH]; intros t; cbn; [done|]. rewrite IH. cbn. by rewrite <- !app_assoc. Qed.
Lemma hang_left_inorder r : forall t, inorder (hang_left r t) = inorder t ++ rights r.
Proof. induction r as [|[v t'] r IH]; intros t; cbn; [by rewrite app_nil_r|]. rewrite IH. cbn. by rewrite <- app_assoc. Qed.

(** The nodes are in order with respect to [ch]. *)
Definition above (ch : Z) (v : V) : Prop := cmp v ch < 0.
Definition below (ch : Z) (v : V) : Prop := 0 < cmp v ch.
Definition ordered (ch : Z) (l : list V) : Prop := StronglySorted (fun x y => ~ below ch x -> above ch y) l.

Lemma ordered_app ch l1 l2 : ordered ch (l1 ++ l2) <->
  (forall x y, In x l1 -> In y l2 -> ~ below ch x -> above ch y) /\ ordered ch l1 /\ ordered ch l2.
Proof.
  unfold ordered. induction l1 as [|a l1 IH]; cbn; [split; [intros H; split_and!; [done|constructor|done]|by intros (_ & _ & H)]|]. split.
  - intros [H Ha]%StronglySorted_inv. apply IH in H as (H & H1 & H2). rewrite List.Forall_forall in Ha. split; [|split; [|done]].
    + intros x y [<-|Hx] Hy; [apply Ha, in_app_iff; by right|by apply H].
    + constructor; [done|]. apply List.Forall_forall. intros x Hx. apply Ha, in_app_iff. by left.
  - intros (H & [H1 Ha]%StronglySorted_inv & H2). rewrite List.Forall_forall in Ha. constructor.
    + apply IH. split; [|done]. intros x y Hx. apply H. by right.
    + apply List.Forall_forall. intros x [Hx|Hx]%in_app_iff; [by apply Ha|]. apply H; [by left|done].
Qed.

Lemma ordered_at ch l1 v l2 : ordered ch (l1 ++ v :: l2) ->
  (0 <= cmp v ch -> forall x, In x l1 -> below ch x) /\ (cmp v ch <= 0 -> forall y, In y l2 -> above ch y).
Proof.
  intros (H & _ & H2)%ordered_app. apply StronglySorted_inv in H2 as [_ H2]. rewrite List.Forall_forall in H2. split.
  - intros Hv x Hx. unfold below. destruct (Z.lt_ge_cases 0 (cmp x ch)) as [|Hc]; [done|]. exfalso.
    pose proof (H x v Hx (or_introl eq_refl)) as Hv'. unfold below, above in Hv'. lia.
  - intros Hv y Hy. apply H2; [done|]. unfold below. lia.
Qed.

(** A tree whose root has the nodes below [ch] to its left and those above to its right. *)
Definition cut (ch : Z) (l : list V) t : Prop :=
  exists lt v rt, t = Node lt v rt /\ inorder t = l /\ (forall x, In x (inorder lt) -> below ch x) /\ (forall y, In y (inorder rt) -> above ch y).

Lemma put_together_cut ch l lt v rt r : ordered ch (inorder lt ++ v :: inorder rt) ->
  (forall x, In x (lefts l) -> below ch x) -> (forall y, In y (rights r) -> above ch y) ->
  (cmp v ch = 0 \/ cmp v ch < 0 /\ lt = Leaf \/ 0 < cmp v ch /\ rt = Leaf) ->
  cut ch (lefts l ++ (inorder lt ++ v :: inorder rt) ++ rights r) (put_together l lt v rt r).
Proof.
  intros [H1 H2]%ordered_at Hl Hr Hv. do 3 eexists. split; [reflexivity|]. cbn. rewrite hang_right_inorder, hang_left_inorder.
  split; [by rewrite <- !app_assoc|]. split.
  - intros x [Hx|Hx]%in_app_iff; [by apply Hl|]. destruct Hv as [Hv|[[Hv ->]|[Hv ->]]]; [|done|]; (apply H1; [lia|done]).
  - intros y [Hy|Hy]%in_app_iff; [|by apply Hr]. destruct Hv as [Hv|[[Hv ->]|[Hv ->]]]; [| |done]; (apply H2; [lia|done]).
Qed.

Lemma cut_list ch l l' t : l = l' -> cut ch l t -> cut ch l' t.
Proof. by intros ->. Qed.
Ltac listy := cbn; repeat (rewrite <- app_assoc; cbn); reflexivity.

Lemma ordered_left ch l1 v l2 : ordered ch (l1 ++ v :: l2) -> ordered ch l1.
Proof. by intros (_ & H & _)%ordered_app. Qed.
Lemma ordered_right ch l1 v l2 : ordered ch (l1 ++ v :: l2) -> ordered ch l2.
Proof. by intros (_ & _ & [H _]%StronglySorted_inv)%ordered_app. Qed.

Lemma splay_loop_cut n : forall ch t l r, (tree_size t <= n)%nat -> t <> Leaf -> ordered ch (inorder t) ->
  (forall x, In x (lefts l) -> below ch x) -> (forall y, In y (rights r) -> above ch y) ->
  cut ch (lefts l ++ inorder t ++ rights r) (splay_loop cmp ch t l r).
Proof.
  induction n as [|n IH]; intros ch t l r Hn Ht Ho Hl Hr; (destruct t as [|tl v tr]; [done|]); [cbn in Hn; lia|]. cbn [splay_loop inorder tree_size] in *.
  pose proof (ordered_at _ _ _ _ Ho) as [Hb Ha]. pose proof (ordered_left _ _ _ _ Ho) as Hol. pose proof (ordered_right _ _ _ _ Ho) as Hor.
  destruct (Z.ltb_spec (cmp v ch) 0) as [Hv|Hv]; [|destruct (Z.ltb_spec 0 (cmp v ch)) as [Hv'|Hv']].
  - assert (forall y, In y (rights ((v, tr) :: r)) -> above ch y) as Hr'.
    { intros y [<-|[Hy|Hy]%in_app_iff]; [done|apply Ha; [lia|done]|by apply Hr]. }
    destruct tl as [|yl yv yr]; [apply put_together_cut; auto|]. cbn [inorder tree_size] in *.
    destruct (Z.ltb_spec (cmp yv ch) 0) as [Hy|Hy].
    + pose proof (ordered_at _ _ _ _ Hol) as [_ Ha']. destruct yl as [|zl zv zr].
      * eapply cut_list; [|apply (put_together_cut ch l Leaf yv (Node yr v tr) r); auto]; listy.
      * eapply cut_list; [|apply (IH ch _ l ((yv, Node yr v tr) :: r)); [cbn in *; lia|done|by eapply ordered_left|done|]]; [listy|].
        intros y [<-|[[Hy'|Hy']%in_app_iff|Hy']%in_app_iff]; [done|apply Ha'; [lia|done]| |by apply Hr].
        apply Hr'. destruct Hy' as [<-|Hy']; [by left|right; apply in_app_iff; by left].
    + eapply cut_list; [|apply (IH ch (Node yl yv yr) l ((v, tr) :: r)); [cbn in *; lia|done..]]. listy.
  - assert (forall x, In x (lefts ((tl, v) :: l)) -> below ch x) as Hl'.
    { intros x [Hx|[Hx|[<-|[]]]%in_app_iff]%in_app_iff; [by apply Hl|apply Hb; [lia|done]|done]. }
    destruct tr as [|yl yv yr]; [apply put_together_cut; auto|]. cbn [inorder tree_size] in *.
    destruct (Z.ltb_spec 0 (cmp yv ch)) as [Hy|Hy].
    + pose proof (ordered_at _ _ _ _ Hor) as [Hb' _]. destruct yr as [|zl zv zr].
      * eapply cut_list; [|apply (put_together_cut ch l (Node tl v yl) yv Leaf r); auto]; [listy|]. cbn in Ho |- *. by rewrite <- app_assoc.
      * eapply cut_list; [|apply (IH ch _ ((Node tl v yl, yv) :: l) r); [cbn in *; lia|done|by eapply ordered_right| |done]]; [listy|].
        intros x [Hx|[[Hx|[<-|Hx]]%in_app_iff|[<-|[]]]%in_app_iff]%in_app_iff; [by apply Hl| | | |done].
        -- apply Hl'. apply in_app_iff. right. apply in_app_iff. by left.
        -- done.
        -- apply Hb'; [lia|done].
    + eapply cut_list; [|apply (IH ch (Node yl yv yr) ((tl, v) :: l) r); [cbn in *; lia|done..]]. listy.
  - apply put_together_cut; auto. left. lia.
Qed.

Lemma splay_cut ch t : t <> Leaf -> ordered ch (inorder t) -> cut ch (inorder t) (splay cmp t ch).
Proof.
  intros Ht Ho. unfold splay. eapply cut_list; [|apply (splay_loop_cut (tree_size t) ch t [] []); auto; by intros ? []].
  cbn. by rewrite app_nil_r.
Qed.

End SplayFacts.

(** ** Sets *)

Module CsetFacts.
Import Cset.

Definition WCHAR_MAX : Z := 2 ^ 31 - 1.

Abbreviation below := (below cset_rangecmp).
Abbreviation above := (above cset_rangecmp).

(** The extents in order, with a gap between any two. *)
Definition extent (x : csnode) : Prop := 0 <= csn_min x <= csn_max x /\ csn_max x < WCHAR_MAX.
Definition apart (x y : csnode) : Prop := csn_max x + 1 < csn_min y.
Definition extents (l : list csnode) : Prop := StronglySorted apart l /\ forall x, In x l -> extent x.
Definition covers (l : list csnode) (c : Z) : Prop := exists x, In x l /\ csn_min x <= c <= csn_max x.

Lemma rangecmp_spec x ch : extent x ->
  (below ch x <-> csn_max x < ch) /\ (above ch x <-> ch < csn_min x) /\ (cset_rangecmp x ch = 0 <-> csn_min x <= ch <= csn_max x).
Proof.
  unfold TrSetFacts.below, TrSetFacts.above, cset_rangecmp, extent. intros H.
  destruct (Z.ltb_spec ch (csn_min x)), (Z.ltb_spec (csn_max x) ch); lia.
Qed.

Lemma extents_ordered ch l : extents l -> ordered cset_rangecmp ch l.
Proof.
  intros [Hs He]. induction Hs as [|x l Hs IH Hx]; [constructor|]. constructor.
  - apply IH. intros y Hy. apply He. by right.
  - rewrite List.Forall_forall in *. intros y Hy Hb. specialize (Hx y Hy). unfold apart in Hx.
    destruct (rangecmp_spec x ch) as (H1 & _ & _); [apply He; by left|]. destruct (rangecmp_spec y ch) as (_ & H2 & _); [apply He; by right|].
    apply H2. rewrite H1 in Hb. lia.
Qed.

Lemma extents_app l1 l2 : extents (l1 ++ l2) <-> extents l1 /\ extents l2 /\ forall x y, In x l1 -> In y l2 -> apart x y.
Proof.
  unfold extents. assert (forall l1 l2, StronglySorted apart (l1 ++ l2) <-> StronglySorted apart l1 /\ StronglySorted apart l2 /\ forall x y, In x l1 -> In y l2 -> apart x y) as H.
  { clear. intros l1 l2. induction l1 as [|a l1 IH]; cbn; [split; [intros H; split_and!; [constructor|done|done]|by intros (_ & H & _)]|]. split.
    - intros [H Ha]%StronglySorted_inv. apply IH in H as (H1 & H2 & H). rewrite List.Forall_forall in Ha. split_and!; [|done|].
      + constructor; [done|]. apply List.Forall_forall. intros x Hx. apply Ha, in_app_iff. by left.
      + intros x y [<-|Hx] Hy; [apply Ha, in_app_iff; by right|by apply H].
    - intros ([H1 Ha]%StronglySorted_inv & H2 & H). rewrite List.Forall_forall in Ha. constructor.
      + apply IH. split_and!; [done|done|]. intros x y Hx. apply H. by right.
      + apply List.Forall_forall. intros x [Hx|Hx]%in_app_iff; [by apply Ha|]. apply H; [by left|done]. }
  rewrite H. split.
  - intros [(H1 & H2 & H12) He]. split_and!; try done; (intros x Hx; apply He, in_app_iff; auto).
  - intros ([H1 He1] & [H2 He2] & H12). split; [done|]. intros x [Hx|Hx]%in_app_iff; auto.
Qed.

Lemma has_app l1 l2 c : covers (l1 ++ l2) c <-> covers l1 c \/ covers l2 c.
Proof. unfold covers. split; [intros (x & [Hx|Hx]%in_app_iff & H); eauto|intros [(x & Hx & H)|(x & Hx & H)]; exists x; rewrite in_app_iff; auto]. Qed.
Lemma has_cons x l c : covers (x :: l) c <-> csn_min x <= c <= csn_max x \/ covers l c.
Proof. unfold covers. split; [intros (y & [->|Hy] & H); eauto|intros [H|(y & Hy & H)]; [exists x|exists y]; cbn; auto]. Qed.

(** What a splayed tree says. *)
Lemma cset_splay_cut ch t : t <> Leaf -> extents (inorder t) ->
  exists lt v rt, cset_splay t ch = Node lt v rt /\ inorder lt ++ v :: inorder rt = inorder t /\
    (forall x, In x (inorder lt) -> csn_max x < ch) /\ (forall y, In y (inorder rt) -> ch < csn_min y).
Proof.
  intros Ht He. destruct (splay_cut cset_rangecmp ch t Ht (extents_ordered ch _ He)) as (lt & v & rt & E & El & Hl & Hr).
  exists lt, v, rt. split; [done|]. rewrite E in El. cbn in El. split; [done|]. rewrite <- El in He. destruct He as [_ He]. split.
  - intros x Hx. apply rangecmp_spec; [apply He, in_app_iff; by left|by apply Hl].
  - intros y Hy. apply rangecmp_spec; [apply He, in_app_iff; by right; right|by apply Hr].
Qed.

Lemma found_at_root l1 v l2 ch : extents (l1 ++ v :: l2) -> (forall x, In x l1 -> csn_max x < ch) -> (forall y, In y l2 -> ch < csn_min y) ->
  covers (l1 ++ v :: l2) ch <-> cset_rangecmp v ch = 0.
Proof.
  intros He Hl Hr. destruct (rangecmp_spec v ch) as (_ & _ & ->); [apply He, in_app_iff; right; by left|]. rewrite has_app, has_cons. split; [|auto].
  intros [(x & Hx & H)|[H|(x & Hx & H)]]; [|done|]; exfalso; [apply Hl in Hx|apply Hr in Hx]; lia.
Qed.

(** The node of [ch] in two decompositions of a list. *)
Lemma same_cut ch l1 v l2 m1 w m2 : extents (l1 ++ v :: l2) -> (forall x, In x l1 -> csn_max x < ch) -> (forall y, In y l2 -> ch < csn_min y) ->
  l1 ++ v :: l2 = m1 ++ w :: m2 -> csn_min w <= ch <= csn_max w -> l1 = m1 /\ v = w /\ l2 = m2.
Proof.
  intros _. revert m1. induction l1 as [|x l1 IH]; intros [|y m1] Hl Hr E Hw; cbn in E; injection E as E1 E2; subst.
  - done.
  - exfalso. assert (ch < csn_min w) by (apply Hr, in_app_iff; right; by left). lia.
  - exfalso. assert (csn_max w < ch) by (apply Hl; by left). lia.
  - destruct (IH m1) as (-> & -> & ->); try done. intros x Hx. apply Hl. by right.
Qed.

Lemma cset_delete_spec ch t l1 v l2 : extents (inorder t) -> inorder t = l1 ++ v :: l2 -> csn_min v <= ch <= csn_max v ->
  exists t', cset_delete t ch = Some t' /\ inorder t' = l1 ++ l2.
Proof.
  intros He E Hv. assert (t <> Leaf) as Ht by (intros ->; by destruct l1). unfold cset_delete.
  destruct (cset_splay_cut ch t Ht He) as (lt & w & rt & -> & El & Hl & Hr). rewrite <- El in He, E.
  destruct (same_cut _ _ _ _ _ _ _ He Hl Hr E Hv) as (<- & -> & <-).
  destruct (rangecmp_spec v ch) as (_ & _ & H); [apply He, in_app_iff; right; by left|]. apply H in Hv. rewrite Hv. cbn [Z.eqb].
  apply extents_app in He as (He & _ & _). destruct lt as [|ll lv lr]; [by eexists|]. set (lt := Node ll lv lr) in *.
  destruct (cset_splay_cut ch lt ltac:(done) He) as (a & u & b & E2 & Ei & Ha & Hb). rewrite E2.
  eexists. split; [reflexivity|]. cbn [inorder set_right]. rewrite <- Ei.
  assert (inorder b = []) as ->; [|by rewrite <- app_assoc].
  destruct (inorder b) as [|z b'] eqn:Eb; [done|]. exfalso. assert (In z (inorder lt)) as Hz by (rewrite <- Ei; apply in_app_iff; right; right; by left).
  pose proof (Hl z Hz). pose proof (Hb z (or_introl eq_refl)). destruct He as [_ He]. specialize (He z Hz). unfold extent in He. lia.
Qed.

(** The neighbours of a new extent. *)
Lemma coalesce_left_spec lt mn : extents (inorder lt) -> (forall x, In x (inorder lt) -> csn_max x < mn) -> 0 <= mn < WCHAR_MAX ->
  exists lt' mn', coalesce_left lt mn = Some (lt', mn') /\ extents (inorder lt') /\ 0 <= mn' <= mn /\
    (forall x, In x (inorder lt') -> csn_max x + 1 < mn') /\ forall c, covers (inorder lt) c <-> covers (inorder lt') c \/ mn' <= c < mn.
Proof.
  intros He Hl Hm. destruct lt as [|ll lv lr].
  { exists Leaf, mn. split_and!; try done; try lia. intros c. split; [auto|]. intros [H|H]; [done|lia]. }
  unfold coalesce_left. set (lt := Node ll lv lr) in *. rewrite swrap_small by (unfold WCHAR_MAX in *; lia).
  destruct (cset_splay_cut (mn - 1) lt ltac:(done) He) as (a & v & b & E & Ei & Ha & Hb). rewrite E.
  assert (inorder b = []) as Eb.
  { destruct (inorder b) as [|z b'] eqn:Eb; [done|]. exfalso. assert (In z (inorder lt)) as Hz by (rewrite <- Ei; apply in_app_iff; right; right; by left).
    pose proof (Hl z Hz). pose proof (Hb z (or_introl eq_refl)). destruct He as [_ He]. specialize (He z Hz). unfold extent in He. lia. }
  rewrite Eb in Ei. assert (In v (inorder lt)) as Hv by (rewrite <- Ei; apply in_app_iff; right; by left). pose proof (proj2 He v Hv) as Hev. unfold extent in Hev.
  rewrite <- Ei in He, Hl |- *. destruct (Z.eqb_spec (csn_max v) (mn - 1)) as [Hc|Hc].
  - destruct (cset_delete_spec (csn_min v) (Node a v b) (inorder a) v []) as (t' & Ed & Ed'); [cbn; by rewrite Eb|cbn; by rewrite Eb|lia|].
    rewrite Ed. cbn. exists t', (csn_min v). rewrite app_nil_r in Ed'. rewrite Ed'. apply extents_app in He as (He & _ & Hap).
    split_and!; try done; try lia.
    + intros x Hx. apply (Hap x v Hx). by left.
    + intros c. rewrite has_app, has_cons. assert (~ covers [] c) by (by intros (? & [] & _)). intuition lia.
  - exists (Node a v b), mn. cbn [inorder]. rewrite Eb. split_and!; try done; try lia.
    + intros x [Hx|[<-|[]]]%in_app_iff; [specialize (Ha x Hx); lia|]. specialize (Hl v ltac:(apply in_app_iff; right; by left)). lia.
    + intros c. intuition lia.
Qed.

Lemma coalesce_right_spec rt mx : extents (inorder rt) -> (forall y, In y (inorder rt) -> mx < csn_min y) -> 0 <= mx < WCHAR_MAX ->
  exists rt' mx', coalesce_right rt mx = Some (rt', mx') /\ extents (inorder rt') /\ mx <= mx' < WCHAR_MAX /\
    (forall y, In y (inorder rt') -> mx' + 1 < csn_min y) /\ forall c, covers (inorder rt) c <-> covers (inorder rt') c \/ mx < c <= mx'.
Proof.
  intros He Hr Hm. destruct rt as [|rl rv rr].
  { exists Leaf, mx. split_and!; try done; try lia. intros c. split; [auto|]. intros [H|H]; [done|lia]. }
  unfold coalesce_right. set (rt := Node rl rv rr) in *. rewrite swrap_small by (unfold WCHAR_MAX in *; lia).
  destruct (cset_splay_cut (mx + 1) rt ltac:(done) He) as (a & v & b & E & Ei & Ha & Hb). rewrite E.
  assert (inorder a = []) as Ea.
  { destruct (inorder a) as [|z a'] eqn:Ea; [done|]. exfalso. assert (In z (inorder rt)) as Hz by (rewrite <- Ei; by left).
    pose proof (Hr z Hz). pose proof (Ha z (or_introl eq_refl)). destruct He as [_ He]. specialize (He z Hz). unfold extent in He. lia. }
  rewrite Ea in Ei. cbn [app] in Ei. assert (In v (inorder rt)) as Hv by (rewrite <- Ei; by left). pose proof (proj2 He v Hv) as Hev. unfold extent in Hev.
  rewrite <- Ei in He, Hr |- *. destruct (Z.eqb_spec (csn_min v) (mx + 1)) as [Hc|Hc].
  - destruct (cset_delete_spec (csn_min v) (Node a v b) [] v (inorder b)) as (t' & Ed & Ed'); [cbn; by rewrite Ea|cbn; by rewrite Ea|lia|].
    rewrite Ed. cbn. exists t', (csn_max v). cbn [app] in Ed'. rewrite Ed'. apply (extents_app [v]) in He as (_ & He & Hap).
    split_and!; try done; try lia.
    + intros x Hx. apply (Hap v x); [by left|done].
    + intros c. rewrite has_cons. intuition lia.
  - exists (Node a v b), mx. cbn [inorder]. rewrite Ea. cbn [app]. split_and!; try done; try lia.
    + intros x [<-|Hx]; [|specialize (Hb x Hx); lia]. specialize (Hr v ltac:(by left)). lia.
    + intros c. intuition lia.
Qed.

Lemma extents_around l1 v l2 : extents l1 -> extents l2 -> extent v ->
  (forall x, In x l1 -> csn_max x + 1 < csn_min v) -> (forall y, In y l2 -> csn_max v + 1 < csn_min y) -> extents (l1 ++ v :: l2).
Proof.
  intros H1 H2 Hv Hl Hr. apply extents_app. split; [done|]. split.
  - change (v :: l2) with ([v] ++ l2). apply extents_app. split_and!; [|done|intros x y [<-|[]]; apply Hr].
    split; [repeat constructor|]. by intros x [<-|[]].
  - intros x y Hx [<-|Hy]; [by apply Hl|]. unfold apart. specialize (Hl x Hx). specialize (Hr y Hy). unfold extent in Hv. lia.
Qed.

Lemma cset_add_spec cs ch : extents (inorder (cs_root cs)) -> 0 <= ch < WCHAR_MAX ->
  exists t, cset_add cs ch = Some (set_root t (no_cache cs)) /\ extents (inorder t) /\ forall c, covers (inorder t) c <-> c = ch \/ covers (inorder (cs_root cs)) c.
Proof.
  intros He Hch. unfold cset_add. cbn [no_cache cs_root]. destruct (cs_root cs) as [|tl tv tr].
  { eexists. split; [reflexivity|]. split.
    - split; [repeat constructor|]. intros x [<-|[]]. unfold extent. cbn. lia.
    - intros c. cbn. rewrite has_cons. cbn. intuition lia. }
  set (t := Node tl tv tr) in *. destruct (cset_splay_cut ch t ltac:(done) He) as (a & v & b & -> & Ei & Ha & Hb). rewrite <- Ei in He |- *.
  pose proof (proj2 He v ltac:(apply in_app_iff; right; by left)) as Hv. destruct (rangecmp_spec v ch Hv) as (Hbe & Hab & Heq). unfold extent in Hv.
  destruct (Z.eqb_spec (cset_rangecmp v ch) 0) as [Hc|Hc].
  { eexists. split; [reflexivity|]. split; [done|]. intros c. split; [auto|]. intros [->|H]; [|done]. by apply (found_at_root _ _ _ _ He Ha Hb). }
  pose proof He as (Hea & Hevb & Hap)%extents_app. pose proof Hevb as (_ & Heb & Hvb)%(extents_app [v]).
  assert (exists lt rt, (if cset_rangecmp v ch <? 0 then (a, Node Leaf v b) else (Node a v Leaf, b)) = (lt, rt) /\
    extents (inorder lt) /\ extents (inorder rt) /\ (forall x, In x (inorder lt) -> csn_max x < ch) /\ (forall y, In y (inorder rt) -> ch < csn_min y) /\
    inorder lt ++ inorder rt = inorder a ++ v :: inorder b) as (lt & rt & -> & Hel & Her & Hll & Hrr & Ell).
  { destruct (Z.ltb_spec (cset_rangecmp v ch) 0) as [Hs|Hs].
    - exists a, (Node Leaf v b). split_and!; try done. intros y [<-|Hy]; [by apply Hab|by apply Hb].
    - exists (Node a v Leaf), b. cbn [inorder]. split_and!; try done; [apply extents_app; split_and!| |by rewrite <- app_assoc].
      + done.
      + by apply (extents_app [v]) in Hevb as (H & _ & _).
      + intros x y Hx [<-|[]]. apply Hap; [done|by left].
      + intros x [Hx|[<-|[]]]%in_app_iff; [by apply Ha|]. apply Hbe. unfold TrSetFacts.below. lia. }
  destruct (coalesce_left_spec lt ch Hel Hll Hch) as (lt' & mn & -> & Hel' & Hmn & Hl' & Hhl). cbn [mbind option_bind].
  destruct (coalesce_right_spec rt ch Her Hrr Hch) as (rt' & mx & -> & Her' & Hmx & Hr' & Hhr). cbn [mbind option_bind].
  eexists. split; [reflexivity|]. cbn [inorder]. split.
  - apply extents_around; try done. unfold extent. cbn. lia.
  - intros c. rewrite <- Ell, !has_app, has_cons, Hhl, Hhr. cbn. intuition lia.
Qed.

(** ** What a set stands for *)

Section Sets.
Context (iswctype : Z -> Z -> bool).

(** The characters that were added, the classes and whether the set is complemented. *)
Record aset := { chars : gset Z; classes : list csclass; inverted : bool }.

Definition member (X : aset) (c : Z) : bool :=
  xorb (inverted X) (existsb (fun k => xorb (csc_invert k) (iswctype c (csc_type k))) (classes X) || bool_decide (c ∈ chars X)).

Record is_set (cs : cset) (X : aset) : Prop := {
  set_extents : extents (inorder (cs_root cs));
  set_has c : covers (inorder (cs_root cs)) c <-> c ∈ chars X;
  set_classes : cs_classes cs = classes X;
  set_invert : cs_invert cs = inverted X;
  set_cached : cs_havecache cs = true -> forall c, 0 <= c < CS_CACHE_SIZE -> cs_cache cs !! Z.to_nat c = Some (member X c) }.

Lemma cset_alloc_set : is_set cset_alloc {| chars := ∅; classes := []; inverted := false |}.
Proof.
  split; try done.
  - split; [constructor|by intros x []].
  - intros c. cbn. split; [by intros (x & [] & _)|set_solver].
Qed.

Lemma cset_add_set cs X ch : is_set cs X -> 0 <= ch < WCHAR_MAX ->
  exists cs', cset_add cs ch = Some cs' /\ is_set cs' {| chars := {[ch]} ∪ chars X; classes := classes X; inverted := inverted X |}.
Proof.
  intros HX Hch. destruct (cset_add_spec cs ch (set_extents _ _ HX) Hch) as (t & -> & He & Hh).
  eexists. split; [reflexivity|]. split; cbn; try apply HX; try done. intros c. rewrite Hh, (set_has _ _ HX). by rewrite elem_of_union, elem_of_singleton.
Qed.

Lemma cset_addclass_set cs X ty inv : is_set cs X ->
  is_set (cset_addclass cs ty inv) {| chars := chars X; classes := {| csc_type := ty; csc_invert := inv |} :: classes X; inverted := inverted X |}.
Proof. intros HX. split; cbn; try apply HX; try done. by rewrite (set_classes _ _ HX). Qed.

Lemma cset_invert_set cs X : is_set cs X -> is_set (cset_invert cs) {| chars := chars X; classes := classes X; inverted := negb (inverted X) |}.
Proof. intros HX. split; cbn; try apply HX; try done. by rewrite (set_invert _ _ HX). Qed.

Lemma cset_in_hard_set cs X c : is_set cs X ->
  exists cs', cset_in_hard iswctype cs c = Some (member X c, cs') /\ is_set cs' X /\ cs_havecache cs' = cs_havecache cs /\ cs_cache cs' = cs_cache cs.
Proof.
  intros HX. unfold cset_in_hard, member. rewrite (set_classes _ _ HX), (set_invert _ _ HX).
  destruct (existsb _ (classes X)); [exists cs; cbn; by rewrite xorb_true_r|]. cbn [orb].
  pose proof (set_extents _ _ HX) as He. pose proof (set_has _ _ HX) as Hh. destruct (cs_root cs) as [|tl tv tr] eqn:Er.
  { exists cs. rewrite bool_decide_false; [done|]. rewrite <- Hh. by intros (x & [] & _). }
  rewrite <- Er in *. assert (cs_root cs <> Leaf) as Hne by (by rewrite Er). destruct (cset_splay_cut c _ Hne He) as (a & v & b & -> & Ei & Ha & Hb). assert ((cset_rangecmp v c =? 0) = bool_decide (c ∈ chars X)) as ->.
  { rewrite <- Ei in He, Hh. pose proof (found_at_root _ _ _ _ He Ha Hb) as Hf. rewrite Hh in Hf.
    destruct (Z.eqb_spec (cset_rangecmp v c) 0) as [Hc|Hc]; symmetry; [apply bool_decide_true|apply bool_decide_false]; by rewrite Hf. }
  eexists. split; [reflexivity|]. split; [|done].
  split; cbn; try rewrite Ei; try apply HX; done.
Qed.

Lemma cache_loop_set n : forall i cs X, is_set cs X ->
  exists cs', cache_loop iswctype n i cs = Some (map (member X) (seqZ i (Z.of_nat n)), cs') /\ is_set cs' X.
Proof.
  induction n as [|n IH]; intros i cs X HX; cbn [cache_loop]; [by exists cs|].
  destruct (cset_in_hard_set cs X i HX) as (cs1 & -> & H1 & _). cbn [mbind option_bind]. destruct (IH (i + 1) cs1 X H1) as (cs2 & -> & H2). cbn.
  exists cs2. split; [|done]. rewrite (seqZ_cons i) by lia. cbn. by replace (Z.pred (Z.of_nat (S n))) with (Z.of_nat n) by lia.
Qed.

Lemma cset_cache_set cs X : is_set cs X -> exists cs', cset_cache iswctype cs = Some cs' /\ is_set cs' X.
Proof.
  intros HX. unfold cset_cache. destruct (cache_loop_set (Z.to_nat CS_CACHE_SIZE) 0 cs X HX) as (cs' & -> & H'). cbn [mbind option_bind].
  eexists. split; [reflexivity|]. split; cbn [cs_root set_cache cs_classes cs_invert cs_havecache cs_cache]; try apply H'. intros _ c Hc.
  rewrite list_lookup_fmap, lookup_seqZ_lt by (unfold CS_CACHE_SIZE in *; lia). cbn. do 2 f_equal. lia.
Qed.

Lemma cset_in_set cs X c : is_set cs X -> 0 <= c -> exists cs', cset_in iswctype cs c = Some (member X c, cs') /\ is_set cs' X.
Proof.
  intros HX Hc. unfold cset_in. destruct (Z.ltb_spec c CS_CACHE_SIZE) as [Hs|Hs]; cbn [andb].
  - destruct (cs_havecache cs) eqn:E.
    + destruct (Z.ltb_spec c 0); [lia|]. rewrite (set_cached _ _ HX E) by lia. cbn. by exists cs.
    + destruct (cset_in_hard_set cs X c HX) as (cs' & -> & H & _). by exists cs'.
  - destruct (cset_in_hard_set cs X c HX) as (cs' & -> & H & _). by exists cs'.
Qed.

End Sets.
End CsetFacts.

(** ** Maps *)

Module CmapFacts.
Import Cmap.

Abbreviation keys l := (map cmn_from l).

(** The pairs in order of their first characters. *)
Definition pairs (l : list cmapnode) : Prop := StronglySorted Z.lt (keys l).

Lemma pairs_app l1 v l2 : pairs (l1 ++ v :: l2) <->
  pairs l1 /\ pairs l2 /\ (forall x, In x l1 -> cmn_from x < cmn_from v) /\ forall y, In y l2 -> cmn_from v < cmn_from y.
Proof.
  unfold pairs. rewrite map_app. induction l1 as [|a l1 IH]; cbn.
  - split.
    + intros [H Ha]%StronglySorted_inv. rewrite List.Forall_map, List.Forall_forall in Ha. split_and!; [constructor|done|done|done].
    + intros (_ & H & _ & Ha). constructor; [done|]. by rewrite List.Forall_map, List.Forall_forall.
  - split.
    + intros [H Ha]%StronglySorted_inv. apply IH in H as (H1 & H2 & H3 & H4). rewrite List.Forall_app, !List.Forall_map in Ha. cbn in Ha.
      rewrite List.Forall_cons_iff, !List.Forall_forall in Ha. cbn in Ha. destruct Ha as (Ha1 & Ha2 & Ha3).
      split_and!; [|done| |done]. 
      * constructor; [done|]. by rewrite List.Forall_map, List.Forall_forall.
      * intros x [<-|Hx]; [done|by apply H3].
    + intros ([H Ha]%StronglySorted_inv & H2 & H3 & H4). rewrite List.Forall_map, List.Forall_forall in Ha. constructor.
      * apply IH. split_and!; try done. intros x Hx. apply H3. by right.
      * rewrite List.Forall_app, !List.Forall_map. cbn. rewrite List.Forall_cons_iff, List.Forall_map, !List.Forall_forall. assert (cmn_from a < cmn_from v) by (apply H3; by left).
        split_and!; try done. intros y Hy. specialize (H4 y Hy). lia.
Qed.

Lemma pairs_ordered ch l : pairs l -> ordered from_cmp ch l.
Proof.
  unfold pairs. intros H. remember (keys l) as ks eqn:E. revert l E. induction H as [|k ks H IH Hk]; intros [|x l] E; try done; [constructor|]. injection E as -> ->.
  constructor; [by apply IH|]. rewrite List.Forall_map, List.Forall_forall in Hk. apply List.Forall_forall. intros y Hy Hb. specialize (Hk y Hy).
  unfold below, above, from_cmp in *. destruct (Z.ltb_spec ch (cmn_from x)), (Z.ltb_spec (cmn_from x) ch), (Z.ltb_spec ch (cmn_from y)); lia.
Qed.

Definition to_map (l : list cmapnode) : gmap Z Z := list_to_map (map (fun x => (cmn_from x, cmn_to x)) l).

Lemma to_map_at l1 v l2 : pairs (l1 ++ v :: l2) -> to_map (l1 ++ v :: l2) = <[cmn_from v := cmn_to v]> (to_map (l1 ++ l2)).
Proof.
  induction l1 as [|x l1 IH]; intros H; [done|]. apply (pairs_app [] x (l1 ++ v :: l2)) in H as (_ & H & _ & Hx).
  unfold to_map in *. cbn. rewrite IH by done. assert (cmn_from x < cmn_from v) by (apply Hx, in_app_iff; right; by left).
  by rewrite insert_insert_ne by lia.
Qed.

Lemma to_map_none l c : (forall x, In x l -> cmn_from x <> c) -> to_map l !! c = None.
Proof.
  intros H. unfold to_map. apply not_elem_of_list_to_map_1. rewrite list_elem_of_fmap. intros ([k z] & -> & Hx).
  apply list_elem_of_In, in_map_iff in Hx as (x & [= <- <-] & Hx). by apply (H x Hx).
Qed.

Lemma cmap_splay_cut ch t : t <> Leaf -> pairs (inorder t) ->
  exists lt v rt, cmap_splay t ch = Node lt v rt /\ inorder lt ++ v :: inorder rt = inorder t /\
    (forall x, In x (inorder lt) -> cmn_from x < ch) /\ (forall y, In y (inorder rt) -> ch < cmn_from y).
Proof.
  intros Ht Hp. destruct (splay_cut from_cmp ch t Ht (pairs_ordered ch _ Hp)) as (lt & v & rt & E & El & Hl & Hr).
  exists lt, v, rt. split; [done|]. rewrite E in El. split; [done|]. split.
  - intros x Hx. specialize (Hl x Hx). unfold below, from_cmp in Hl. destruct (Z.ltb_spec ch (cmn_from x)), (Z.ltb_spec (cmn_from x) ch); lia.
  - intros x Hx. specialize (Hr x Hx). unfold above, from_cmp in Hr. destruct (Z.ltb_spec ch (cmn_from x)), (Z.ltb_spec (cmn_from x) ch); lia.
Qed.

(** What a map stands for: the characters that were added, and the default. *)
Record amap := { mapped : gmap Z Z; default : Z }.
Definition lookup_abs (X : amap) (c : Z) : Z :=
  match mapped X !! c with Some x => x | None => if default X =? CM_DEF_SELF then c else default X end.

(** [cm_max] is a largest key. *)
Record is_map (cm : cmap) (X : amap) : Prop := {
  map_pairs : pairs (inorder (cm_root cm));
  map_to : to_map (inorder (cm_root cm)) = mapped X;
  map_def : cm_def cm = default X;
  map_leaf : cm_root cm = Leaf -> cm_max cm = 0;
  map_max : cm_root cm <> Leaf -> is_Some (mapped X !! cm_max cm) /\ forall c, is_Some (mapped X !! c) -> c <= cm_max cm;
  map_min : cm_root cm <> Leaf -> is_Some (mapped X !! cm_min cm) /\ forall c, is_Some (mapped X !! c) -> cm_min cm <= c;
  map_cached : cm_havecache cm = true -> forall c, 0 <= c < CM_CACHE_SIZE -> cm_cache cm !! Z.to_nat c = Some (lookup_abs X c) }.

Lemma cmap_alloc_map : is_map cmap_alloc {| mapped := ∅; default := CM_DEF_SELF |}.
Proof. split; try done. constructor. Qed.

Lemma cmap_default_map cm X d : is_map cm X -> (cmap_default cm d).1 = default X /\ is_map (cmap_default cm d).2 {| mapped := mapped X; default := d |}.
Proof. intros HX. split; [apply HX|]. split; cbn; try apply HX; done. Qed.

(** Looking a key up in a tree that was splayed to it. *)
Lemma found_pair lt v rt c : pairs (inorder lt ++ v :: inorder rt) -> (forall x, In x (inorder lt) -> cmn_from x < c) -> (forall y, In y (inorder rt) -> c < cmn_from y) ->
  to_map (inorder lt ++ v :: inorder rt) !! c = if cmn_from v =? c then Some (cmn_to v) else None.
Proof.
  intros Hp Hl Hr. rewrite to_map_at by done. destruct (Z.eqb_spec (cmn_from v) c) as [<-|Hc]; [by rewrite lookup_insert_eq|].
  rewrite lookup_insert_ne by done. apply to_map_none. intros x [Hx|Hx]%in_app_iff; [specialize (Hl x Hx)|specialize (Hr x Hx)]; lia.
Qed.

Lemma cmap_add_map cm X from to : is_map cm X -> exists cm', cmap_add cm from to = Some cm' /\ is_map cm' {| mapped := <[from := to]> (mapped X); default := default X |}.
Proof.
  intros HX. pose proof (map_pairs _ _ HX) as Hp. pose proof (map_to _ _ HX) as Ht. pose proof (map_max _ _ HX) as Hmx. pose proof (map_min _ _ HX) as Hmn.
  unfold cmap_add. cbn [no_cache cm_root]. destruct (cm_root cm) as [|tl tv tr] eqn:Er.
  { eexists. split; [reflexivity|]. assert (mapped X = ∅) as E by (by rewrite <- Ht). split; cbn; try rewrite E; try done.
    - repeat constructor.
    - apply HX.
    - intros _. rewrite lookup_insert_eq. split; [done|]. intros c. rewrite lookup_insert_is_Some, lookup_empty. intros [<-|[_ [? ?]]]; [lia|done].
    - intros _. rewrite lookup_insert_eq. split; [done|]. intros c. rewrite lookup_insert_is_Some, lookup_empty. intros [<-|[_ [? ?]]]; [lia|done]. }
  rewrite <- Er in *. assert (cm_root cm <> Leaf) as Hne by (by rewrite Er). clear Er. specialize (Hmx Hne) as [Hmx1 Hmx]. specialize (Hmn Hne) as [Hmn1 Hmn].
  destruct (cmap_splay_cut from _ Hne Hp) as (a & v & b & -> & Ei & Ha & Hb). rewrite <- Ei in Hp, Ht.
  assert (forall c, is_Some ((<[from := to]> (mapped X)) !! c) <-> c = from \/ is_Some (mapped X !! c)) as Hin.
  { intros c. rewrite lookup_insert_is_Some. split; [intros [->|[_ H]]; auto|]. intros [->|H]; [auto|]. destruct (decide (from = c)); auto. }
  destruct (Z.eqb_spec (cmn_from v) from) as [Hv|Hv].
  - eexists. split; [reflexivity|]. assert (is_Some (mapped X !! from)) as Hf.
    { rewrite <- Ht, to_map_at, Hv, lookup_insert_eq by done. done. }
    split; cbn [set_root no_cache cm_root cm_def cm_max cm_min cm_havecache cm_cache inorder]; try done.
    + apply pairs_app in Hp. by apply pairs_app.
    + rewrite <- Ht, !to_map_at by (done || (apply pairs_app in Hp; by apply pairs_app)). cbn. by rewrite Hv, insert_insert_eq.
    + apply HX.
    + intros _. rewrite Hin. split; [auto|]. intros c [->|Hc]%Hin; [by apply Hmx|by apply Hmx].
    + intros _. rewrite Hin. split; [auto|]. intros c [->|Hc]%Hin; [by apply Hmn|by apply Hmn].
  - set (new := {| cmn_from := from; cmn_to := to |}).
    assert (exists lt rt, (if from <? cmn_from v then Node a new (Node Leaf v b) else Node (Node a v Leaf) new b) = Node lt new rt /\
      inorder lt ++ inorder rt = inorder a ++ v :: inorder b /\ pairs (inorder lt ++ new :: inorder rt)) as (lt & rt & -> & Ell & Hp').
    { apply pairs_app in Hp as (H1 & H2 & H3 & H4). destruct (Z.ltb_spec from (cmn_from v)) as [Hs|Hs].
      - exists a, (Node Leaf v b). split; [done|]. split; [done|]. apply pairs_app. split_and!; [done|apply (pairs_app [] v); split_and!; try done; constructor|done|].
        intros y [<-|Hy]; [done|by apply Hb].
      - exists (Node a v Leaf), b. split; [done|]. split; [cbn; by rewrite <- app_assoc|]. apply pairs_app. split_and!; [apply pairs_app; split_and!; try done; constructor|done| |done].
        intros x [Hx|[<-|[]]]%in_app_iff; [by apply Ha|cbn; lia]. }
    eexists. split; [reflexivity|]. split; cbn [set_root set_min_max no_cache cm_root cm_def cm_max cm_min cm_havecache cm_cache inorder mapped default]; try done.
    + rewrite to_map_at, Ell, Ht by done. done.
    + apply HX.
    + intros _. destruct (Z.ltb_spec (cm_max cm) from) as [Hc|Hc]; rewrite Hin.
      * split; [auto|]. intros c [->|H%Hmx]%Hin; lia.
      * split; [auto|]. intros c [->|H%Hmx]%Hin; lia.
    + intros _. destruct (Z.ltb_spec from (cm_min cm)) as [Hc|Hc]; rewrite Hin.
      * split; [auto|]. intros c [->|H%Hmn]%Hin; lia.
      * split; [auto|]. intros c [->|H%Hmn]%Hin; lia.
Qed.

Lemma cmap_lookup_hard_map cm X c : is_map cm X -> exists cm', cmap_lookup_hard cm c = Some (lookup_abs X c, cm') /\ is_map cm' X /\
  cm_max cm' = cm_max cm /\ cm_havecache cm' = cm_havecache cm.
Proof.
  intros HX. unfold cmap_lookup_hard, lookup_abs, default_of. pose proof (map_pairs _ _ HX) as Hp. pose proof (map_to _ _ HX) as Ht.
  destruct (cm_root cm) as [|tl tv tr] eqn:Er.
  { exists cm. rewrite <- Ht. cbn. by rewrite (map_def _ _ HX). }
  rewrite <- Er in *. assert (cm_root cm <> Leaf) as Hne by (by rewrite Er). destruct (cmap_splay_cut c _ Hne Hp) as (a & v & b & -> & Ei & Ha & Hb). exists (set_root (Node a v b) cm).
  split; [|split; [|done]].
  - rewrite <- Ei in Hp, Ht. rewrite <- Ht, found_pair by done. cbn. rewrite (map_def _ _ HX). by destruct (cmn_from v =? c).
  - split; cbn [set_root cm_root cm_def cm_max cm_min cm_havecache cm_cache inorder]; try rewrite Ei; try done.
    + apply HX.
    + intros _. by apply (map_max _ _ HX).
    + intros _. by apply (map_min _ _ HX).
    + apply HX.
Qed.

Lemma cache_loop_map n : forall i cm X, is_map cm X ->
  exists cm', cache_loop n i cm = Some (map (lookup_abs X) (seqZ i (Z.of_nat n)), cm') /\ is_map cm' X.
Proof.
  induction n as [|n IH]; intros i cm X HX; cbn [cache_loop]; [by exists cm|].
  destruct (cmap_lookup_hard_map cm X i HX) as (cm1 & -> & H1 & _). cbn [mbind option_bind]. destruct (IH (i + 1) cm1 X H1) as (cm2 & -> & H2). cbn.
  exists cm2. split; [|done]. rewrite (seqZ_cons i) by lia. cbn. by replace (Z.pred (Z.of_nat (S n))) with (Z.of_nat n) by lia.
Qed.

Lemma cmap_cache_map cm X : is_map cm X -> exists cm', cmap_cache cm = Some cm' /\ is_map cm' X.
Proof.
  intros HX. unfold cmap_cache. destruct (cache_loop_map (Z.to_nat CM_CACHE_SIZE) 0 cm X HX) as (cm' & -> & H'). cbn [mbind option_bind].
  eexists. split; [reflexivity|]. split; cbn [cm_root set_cache cm_def cm_max cm_min cm_havecache cm_cache]; try apply H'. intros _ c Hc.
  rewrite list_lookup_fmap, lookup_seqZ_lt by (unfold CM_CACHE_SIZE in *; lia). cbn. do 2 f_equal. lia.
Qed.

Lemma cmap_lookup_map cm X c : is_map cm X -> 0 <= c -> exists cm', cmap_lookup cm c = Some (lookup_abs X c, cm') /\ is_map cm' X /\
  cm_max cm' = cm_max cm /\ cm_havecache cm' = cm_havecache cm.
Proof.
  intros HX Hc. unfold cmap_lookup. destruct (Z.ltb_spec c CM_CACHE_SIZE) as [Hs|Hs]; cbn [andb]; [|by apply cmap_lookup_hard_map].
  destruct (cm_havecache cm) eqn:E; [|rewrite <- E; by apply cmap_lookup_hard_map].
  destruct (Z.ltb_spec c 0); [lia|]. rewrite (map_cached _ _ HX E) by lia. cbn. by exists cm.
Qed.
End CmapFacts.
