(* ===== verification/Tr.v ===== *)
(** * tr: strings of characters, and what is done with them
    ([src/text_cmds/tr/str.c], [tr.c])

    [next] gives the characters of an operand one after the other; [main] makes of them the set to delete, the set to squeeze
    or the map, and filters the input.  Texts are lists of octets up to their NUL, characters are numbers.  What the locale says is a parameter.  The
    code is the one compiled when __APPLE__ is defined. *)

From Stdlib Require Import ZArith Lia List Bool.
From stdpp Require Import base tactics list numbers.
From S2P Require Import Prelude TrSet.

Local Open Scope Z_scope.
Local Open Scope list_scope.

(** What the C library knows of the locale: [mbrtowc] is [None] for an illegal or incomplete character, and otherwise the character with its length;
    [strcoll] compares texts of one octet; [weight] is the primary weight that [__collate_lookup_l] finds. *)
Record locale := {
  MB_CUR_MAX : Z;
  mbrtowc : list Z -> option (Z * nat);
  wctype : list Z -> Z;
  iswctype : Z -> Z -> bool;
  nextwctype : Z -> Z -> Z;
  towupper : Z -> Z;
  towlower : Z -> Z;
  iswupper : Z -> bool;
  iswlower : Z -> bool;
  iswrune : Z -> bool;
  strcoll : Z -> Z -> Z;
  weight : list Z -> Z }.

(** The calls of [errx] and [errc]; an access out of bounds or an assertion that fails; a loop that was not given enough turns. *)
Inductive tr_error :=
  | UnknownClass | MisplacedEquals | IllegalSequence | MisplacedAsterisk | IllegalCount | EmptyString2 | Usage | BadAccess | OutOfFuel.

#[export] Instance tr_ret : MRet (res tr_error) := fun A => Ok.
#[export] Instance tr_bind : MBind (res tr_error) := fun A B k m => match m with Ok a => k a | Ex e => Ex e end.
Definition checked {A} (m : option A) : res tr_error A := match m with Some a => Ok a | None => Ex BadAccess end.

Section Tr.
Context (loc : locale).
Abbreviation R := (res tr_error).

(** ** str.c *)

Definition NCHARS_SB : nat := 256.
Definition OOBCH : Z := -1.

Inductive str_state := EOS | INFINITE | NORMAL | RANGE | SEQUENCE | CCLASS | CCLASS_UPPER | CCLASS_LOWER | SET.
#[export] Instance str_state_eq_dec : EqDecision str_state.
Proof. solve_decision. Defined.

(** [behind] is the text behind the NUL of [str]. *)
Record STR := {
  state : str_state;
  cnt : Z;
  lastch : Z;
  cclass : Z;
  equiv : list Z;
  set : list Z;
  str : list Z;
  behind : list Z }.

Definition set_str (x : list Z) (s : STR) : STR :=
  {| state := state s; cnt := cnt s; lastch := lastch s; cclass := cclass s; equiv := equiv s; set := set s; str := x; behind := behind s |}.
Definition set_state (x : str_state) (s : STR) : STR :=
  {| state := x; cnt := cnt s; lastch := lastch s; cclass := cclass s; equiv := equiv s; set := set s; str := str s; behind := behind s |}.
Definition set_cnt (x : Z) (s : STR) : STR :=
  {| state := state s; cnt := x; lastch := lastch s; cclass := cclass s; equiv := equiv s; set := set s; str := str s; behind := behind s |}.
Definition set_lastch (x : Z) (s : STR) : STR :=
  {| state := state s; cnt := cnt s; lastch := x; cclass := cclass s; equiv := equiv s; set := set s; str := str s; behind := behind s |}.
Definition set_cclass (x : Z) (s : STR) : STR :=
  {| state := state s; cnt := cnt s; lastch := lastch s; cclass := x; equiv := equiv s; set := set s; str := str s; behind := behind s |}.
Definition set_equiv (x : list Z) (s : STR) : STR :=
  {| state := state s; cnt := cnt s; lastch := lastch s; cclass := cclass s; equiv := x; set := set s; str := str s; behind := behind s |}.
Definition set_set (x : list Z) (s : STR) : STR :=
  {| state := state s; cnt := cnt s; lastch := lastch s; cclass := cclass s; equiv := equiv s; set := x; str := str s; behind := behind s |}.

(** [s1] and [s2] with their text. *)
Definition start_str (text after : list Z) : STR :=
  {| state := NORMAL; cnt := 0; lastch := OOBCH; cclass := 0; equiv := 0 :: OOBCH :: replicate (NCHARS_SB - 2) 0; set := []; str := text; behind := after |}.

(** Octets. *)
Definition first (l : list Z) : Z := match l with c :: _ => c | [] => 0 end.
Definition isdigit (c : Z) : bool := (48 <=? c) && (c <=? 57).

Fixpoint octal_loop (n : nat) (val : Z) (l : list Z) : Z * nat * list Z :=
  match n, l with
  | S n, c :: l' =>
      if isdigit c && (c <=? 55) then let '(v, k, l'') := octal_loop n (val * 8 + c - 48) l' in (v, S k, l'') else (val, O, l)
  | _, _ => (val, O, l)
  end.

(** The characters with a letter: \a \b \f \n \r \t \v. *)
Definition escape (ch : Z) : Z :=
  if ch =? 97 then 7 else if ch =? 98 then 8 else if ch =? 102 then 12 else if ch =? 110 then 10
  else if ch =? 114 then 13 else if ch =? 116 then 9 else if ch =? 118 then 11 else ch.

(** [backslash]: the character, [is_octal] and the string. *)
Definition backslash (s : STR) : Z * bool * STR :=
  match octal_loop 3 0 (tail (str s)) with
  | (val, S _, rest) => (val, true, set_str rest s)
  | (_, O, []) => (92, false, set_state EOS (set_str [] s))
  | (_, O, ch :: rest) => (escape ch, false, set_str rest s)
  end.

(** [charcoll] looks at one octet of each character. *)
Definition charcoll (a b : Z) : Z := strcoll loc (u8 a) (u8 b).

(** [mergesort] by [charcoll], which is stable. *)
Fixpoint insert_coll (c : Z) (l : list Z) : list Z :=
  match l with [] => [c] | d :: l => if charcoll c d <=? 0 then c :: d :: l else d :: insert_coll c l end.
Definition mergesort (l : list Z) : list Z := foldr insert_coll [] l.

(** The characters between two by collation, in its order. *)
Definition range_set (from to : Z) : list Z :=
  let l := List.filter (fun c => (0 <=? charcoll c from) && (charcoll c to <=? 0)) (seqZ 0 (Z.of_nat NCHARS_SB)) in
  if (1 <? length l)%nat then mergesort l else l.

(** [genrange], and its part behind [stopval]. *)
Definition genrange_to (savestart : list Z) (was_octal : bool) (stopval : Z) (octal : bool) (s : STR) : bool * STR :=
  if octal || was_octal || (1 <? MB_CUR_MAX loc) then
    if stopval <? lastch s then (false, set_str savestart s)
    else (true, set_lastch (lastch s - 1) (set_state RANGE (set_cnt (stopval - lastch s + 1) s)))
  else if charcoll stopval (lastch s) <? 0 then (false, set_str savestart s)
  else (true, set_state SET (set_cnt 0 (set_set (range_set (lastch s) stopval ++ [OOBCH]) s))).
Definition genrange (s : STR) (was_octal : bool) : R (bool * STR) :=
  let savestart := str s in
  let s := set_str (tail (str s)) s in
  if first (str s) =? 92 then
    let '(stopval, octal, s) := backslash s in Ok (genrange_to savestart was_octal stopval octal s)
  else match mbrtowc loc (str s) with
       | None => Ex IllegalSequence
       | Some (wc, clen) => Ok (genrange_to savestart was_octal wc false (set_str (drop clen (str s)) s))
       end.

Fixpoint eq_text (a b : list Z) : bool :=
  match a, b with [], [] => true | x :: a, y :: b => (x =? y) && eq_text a b | _, _ => false end.

(** "upper" and "lower". *)
Definition upper_text : list Z := [117; 112; 112; 101; 114].
Definition lower_text : list Z := [108; 111; 119; 101; 114].
Definition genclass (name : list Z) (s : STR) : R STR :=
  let c := wctype loc name in
  if c =? 0 then Ex UnknownClass
  else
    let s := set_lastch (-1) (set_cnt 0 (set_cclass c s)) in
    Ok (set_state (if eq_text name upper_text then CCLASS_UPPER else if eq_text name lower_text then CCLASS_LOWER else CCLASS) s).

(** [genequiv]; the cache of weights holds what the lookup gives.  Storing [OOBCH] behind the end of [equiv] is [BadAccess]. *)
Definition genequiv (s : STR) : R STR :=
  '(c, s) ←
    (if first (str s) =? 92 then
       let '(c, _, s) := backslash s in
       if first (str s) =? 61 then Ok (c, set_str (drop 2 (str s)) s) else Ex MisplacedEquals
     else match mbrtowc loc (str s) with
          | None | Some (_, O) => Ex IllegalSequence
          | Some (wc, clen) =>
              if first (drop clen (str s)) =? 61 then Ok (wc, set_str (drop (clen + 2) (str s)) s) else Ex MisplacedEquals
          end);
  let eq := c :: tail (equiv s) in
  let tprim := weight loc eq in
  let same := List.filter (fun i => (negb (weight loc [i] =? -1)) && (weight loc [i] =? tprim)) (seqZ 1 (Z.of_nat NCHARS_SB - 1)) in
  eq ← (if tprim =? -1 then Ok eq
        else if (S (length same) <? NCHARS_SB)%nat then Ok (c :: same ++ OOBCH :: drop (S (S (length same))) eq) else Ex BadAccess);
  Ok (set_set eq (set_state SET (set_cnt 0 (set_equiv eq s)))).

(** [strtol] with base 0, of a text that starts with a digit: [s->cnt] is an int. *)
Definition LONG_MAX : Z := 2 ^ 63 - 1.
Definition digit_val (c : Z) : Z :=
  if (48 <=? c) && (c <=? 57) then c - 48 else if (97 <=? c) && (c <=? 102) then c - 87 else if (65 <=? c) && (c <=? 70) then c - 55 else 99.
Fixpoint digits (base val : Z) (l : list Z) : Z * list Z :=
  match l with
  | c :: l' => if digit_val c <? base then digits base (val * base + digit_val c) l' else (val, l)
  | [] => (val, [])
  end.
Definition strtol0 (l : list Z) : Z * list Z :=
  let '(v, l) :=
    match l with
    | 48 :: x :: h :: l' =>
        if ((x =? 120) || (x =? 88)) && (digit_val h <? 16) then digits 16 0 (h :: l') else digits 8 0 l
    | 48 :: _ => digits 8 0 l
    | _ => digits 10 0 l
    end in
  (Z.min v LONG_MAX, l).

Definition genseq (s : STR) : R STR :=
  s ← (if first (str s) =? 92 then let '(c, _, s) := backslash s in Ok (set_lastch c s)
       else match mbrtowc loc (str s) with
            | None => Ex IllegalSequence
            | Some (wc, clen) => Ok (set_str (drop clen (str s)) (set_lastch wc s))
            end);
  if negb (first (str s) =? 42) then Ex MisplacedAsterisk
  else
    let s := set_str (tail (str s)) s in
    s ← (if first (str s) =? 92 then let '(c, _, s) := backslash s in Ok (set_cnt c s)
         else if first (str s) =? 93 then Ok (set_cnt 0 (set_str (tail (str s)) s))
         else if isdigit (first (str s)) then
           let '(v, ep) := strtol0 (str s) in
           if first ep =? 93 then Ok (set_str (tail ep) (set_cnt (s32 v) s)) else Ex IllegalCount
         else Ex IllegalCount);
    Ok (set_state (if cnt s =? 0 then INFINITE else SEQUENCE) s).

(** [strchr] and [strpbrk]: the place. *)
Fixpoint strchr (l : list Z) (c : Z) : option nat :=
  match l with [] => None | d :: l => if d =? c then Some O else S <$> strchr l c end.
Fixpoint strpbrk (l cs : list Z) : option nat :=
  match l with [] => None | d :: l => if existsb (Z.eqb d) cs then Some O else S <$> strpbrk l cs end.

(** The case [repeat]: the text two octets on, which is behind the NUL if the bracket stands last. *)
Definition bracket_repeat (s : STR) : R (bool * STR) :=
  let text := match str s with [_] => behind s | l => drop 2 l end in
  match strpbrk text [42; 93] with
  | None => Ok (false, s)
  | Some p =>
      if negb (first (drop p text) =? 42) || bool_decide (strchr (drop p text) 93 = None) then Ok (false, s)
      else s ← genseq (set_str (tail (str s)) s); Ok (true, s)
  end.

Definition bracket (s : STR) : R (bool * STR) :=
  let c := first (tail (str s)) in
  let rest := drop 2 (str s) in
  if (c =? 58) || (c =? 61) then
    match strchr rest 93 with
    | None => Ok (false, s)
    | Some i =>
        if negb (first (drop i (tail (str s))) =? c) || (i + 2 <? 4)%nat then bracket_repeat s
        else if c =? 58 then s ← genclass (take (i - 1) rest) s; Ok (true, set_str (drop (S i) rest) s)
        else s ← genequiv (set_str rest s); Ok (true, s)
    end
  else bracket_repeat s.

(** [next]; [next_rec] bounds the calls of itself. *)
Definition next_body (next : STR -> R (bool * STR)) (s : STR) : R (bool * STR) :=
  let one (is_octal : bool) (s : STR) : R (bool * STR) :=
    if first (str s) =? 45 then
      '(b, s) ← genrange s is_octal; if (b : bool) then next s else Ok (true, s)
    else Ok (true, s) in
  let default (s : STR) : R (bool * STR) :=
    match mbrtowc loc (str s) with
    | None | Some (_, O) => Ex IllegalSequence
    | Some (wch, clen) => one false (set_str (drop clen (str s)) (set_lastch wch s))
    end in
  match state s with
  | EOS => Ok (false, s)
  | INFINITE => Ok (true, match str s with [] => set_state NORMAL s | _ => s end)
  | NORMAL =>
      match str s with
      | [] => Ok (false, set_state EOS s)
      | c :: _ =>
          if c =? 92 then let '(ch, is_octal, s) := backslash s in one is_octal (set_lastch ch s)
          else if c =? 91 then
            '(b, s) ← bracket s; if (b : bool) then next s else default s
          else default s
      end
  | RANGE =>
      let c := cnt s in
      let s := set_cnt (s32 (c - 1)) s in
      if c =? 0 then next (set_state NORMAL s) else Ok (true, set_lastch (lastch s + 1) s)
  | SEQUENCE =>
      let c := cnt s in
      let s := set_cnt (s32 (c - 1)) s in
      if c =? 0 then next (set_state NORMAL s) else Ok (true, s)
  | CCLASS | CCLASS_UPPER | CCLASS_LOWER =>
      let s := set_cnt (s32 (cnt s + 1)) s in
      let ch := nextwctype loc (lastch s) (cclass s) in
      if ch =? -1 then next (set_state NORMAL s) else Ok (true, set_lastch ch s)
  | SET =>
      ch ← checked (set s !! Z.to_nat (cnt s));
      let s := set_cnt (cnt s + 1) s in
      if ch =? OOBCH then next (set_state NORMAL s) else Ok (true, set_lastch ch s)
  end.
Fixpoint next_rec (n : nat) (s : STR) : R (bool * STR) :=
  match n with O => Ex OutOfFuel | S n => next_body (next_rec n) s end.
Definition next (s : STR) : R (bool * STR) := next_rec (2 * length (str s) + 3) s.

(** ** tr.c *)

Import Cset Cmap.

Abbreviation iswctype := (iswctype loc).

(** The options, and the operands with what stands behind each: when it is read first, and when string2 is read again. *)
Record tr_args := {
  Cflag : bool;
  cflag : bool;
  dflag : bool;
  sflag : bool;
  string1 : list Z;
  string2 : option (list Z);
  behind1 : list Z;
  behind2 : list Z;
  behind2' : list Z }.

(** The options that [getopt] gives: the letters C, c, d, s and u. *)
Definition option_step (a : tr_args) (ch : Z) : R tr_args :=
  let mk C c d s := {| Cflag := C; cflag := c; dflag := d; sflag := s; string1 := string1 a; string2 := string2 a;
                       behind1 := behind1 a; behind2 := behind2 a; behind2' := behind2' a |} in
  if ch =? 67 then Ok (mk true false (dflag a) (sflag a))
  else if ch =? 99 then Ok (mk false true (dflag a) (sflag a))
  else if ch =? 100 then Ok (mk (Cflag a) (cflag a) true (sflag a))
  else if ch =? 115 then Ok (mk (Cflag a) (cflag a) (dflag a) true)
  else if ch =? 117 then Ok a
  else Ex Usage.
Fixpoint get_options (a : tr_args) (l : list Z) : R tr_args :=
  match l with [] => Ok a | ch :: l => a ← option_step a ch; get_options a l end.

(** [setup]; [fuel] is for the loop. *)
Fixpoint setup_loop (fuel : nat) (cs : cset) (s : STR) : R cset :=
  match fuel with
  | O => Ex OutOfFuel
  | S fuel =>
      '(b, s) ← next s;
      if (b : bool) then cs ← checked (cset_add cs (lastch s)); setup_loop fuel cs s else Ok cs
  end.
Definition rune_text : list Z := [114; 117; 110; 101].
Definition setup (fuel : nat) (arg after : list Z) (c C : bool) : R cset :=
  cs ← setup_loop fuel cset_alloc (start_str arg after);
  let cs := if C then cset_addclass cs (wctype loc rune_text) true else cs in
  let cs := if c || C then cset_invert cs else cs in
  checked (cset_cache iswctype cs).

(** The three loops that delete and squeeze; [lastch] starts as [OOBCH]. *)
Fixpoint delete_squeeze (delete squeeze : cset) (last : Z) (input : list Z) : R (list Z) :=
  match input with
  | [] => Ok []
  | ch :: input =>
      '(d, delete) ← checked (cset_in iswctype delete ch);
      if (d : bool) then delete_squeeze delete squeeze last input
      else
        '(sq, squeeze) ← (if negb (last =? ch) then Ok (false, squeeze) else checked (cset_in iswctype squeeze ch));
        if (sq : bool) then delete_squeeze delete squeeze last input
        else out ← delete_squeeze delete squeeze ch input; Ok (ch :: out)
  end.
Fixpoint delete_only (delete : cset) (input : list Z) : R (list Z) :=
  match input with
  | [] => Ok []
  | ch :: input =>
      '(d, delete) ← checked (cset_in iswctype delete ch);
      out ← delete_only delete input;
      Ok (if (d : bool) then out else ch :: out)
  end.
Fixpoint squeeze_only (squeeze : cset) (last : Z) (input : list Z) : R (list Z) :=
  match input with
  | [] => Ok []
  | ch :: input =>
      '(sq, squeeze) ← (if negb (last =? ch) then Ok (false, squeeze) else checked (cset_in iswctype squeeze ch));
      if (sq : bool) then squeeze_only squeeze last input
      else out ← squeeze_only squeeze ch input; Ok (ch :: out)
  end.

(** A pair of the map, and with -s its second in the set to squeeze. *)
Definition add_pair (sq : bool) (from to : Z) (map : cmap) (squeeze : cset) : R (cmap * cset) :=
  map ← checked (cmap_add map from to);
  squeeze ← (if sq then checked (cset_add squeeze to) else Ok squeeze);
  Ok (map, squeeze).

Abbreviation is_state x s := (bool_decide (state s = x)).

(** The loop over a class of letters of string1; [None] is [goto endloop]. *)
Fixpoint case_loop (fuel : nat) (sq : bool) (cls : str_state) (s1 : STR) (map : cmap) (squeeze : cset) : R (option STR * cmap * cset) :=
  match fuel with
  | O => Ex OutOfFuel
  | S fuel =>
      let ch := if bool_decide (cls = CCLASS_LOWER) then towupper loc (lastch s1) else towlower loc (lastch s1) in
      let wanted := if bool_decide (cls = CCLASS_LOWER) then iswupper loc ch else iswlower loc ch in
      map ← checked (cmap_add map (lastch s1) ch);
      squeeze ← (if sq && wanted then checked (cset_add squeeze ch) else Ok squeeze);
      '(b, s1) ← next s1;
      if negb b then Ok (None, map, squeeze)
      else if is_state cls s1 && (1 <? cnt s1) then case_loop fuel sq cls s1 map squeeze
      else Ok (Some s1, map, squeeze)
  end.

(** Skipping the class in string2. *)
Fixpoint skip_class (fuel : nat) (cls : str_state) (s2 : STR) : R STR :=
  match fuel with
  | O => Ex OutOfFuel
  | S fuel =>
      '(b, s2) ← next s2;
      if (b : bool) && is_state cls s2 && (1 <? cnt s2) then skip_class fuel cls s2 else Ok s2
  end.

(** From [again:] on; then the loop goes on, or it ends. *)
Fixpoint pair_loop (fuel : nat) (sq : bool) (s1 s2 : STR) (map : cmap) (squeeze : cset) : R (STR * cmap * cset) :=
  match fuel with
  | O => Ex OutOfFuel
  | S fuel =>
      if ((is_state CCLASS_LOWER s1 && is_state CCLASS_UPPER s2) || (is_state CCLASS_UPPER s1 && is_state CCLASS_LOWER s2))
         && (cnt s1 =? 1) && (cnt s2 =? 1) then
        '(s1, map, squeeze) ← case_loop fuel sq (state s1) s1 map squeeze;
        match s1 with
        | None => Ok (s2, map, squeeze)
        | Some s1 => s2 ← skip_class fuel (state s2) s2; pair_loop fuel sq s1 s2 map squeeze
        end
      else
        '(map, squeeze) ← add_pair sq (lastch s1) (lastch s2) map squeeze;
        '(_, s2) ← next s2;
        '(b, s1) ← next s1;
        if (b : bool) then pair_loop fuel sq s1 s2 map squeeze else Ok (s2, map, squeeze)
  end.

(** The loop for the complement. *)
Definition WCHAR_MAX : Z := 2 ^ 31 - 1.
Fixpoint complement_loop (fuel : nat) (C sq : bool) (c : Z) (s2 : STR) (map : cmap) (squeeze : cset) : R (STR * cmap * cset) :=
  match fuel with
  | O => Ex OutOfFuel
  | S fuel =>
      if negb (c <? WCHAR_MAX) then Ok (s2, map, squeeze)
      else if C && negb (iswrune loc c) then complement_loop fuel C sq (c + 1) s2 map squeeze
      else
        '(x, map) ← checked (cmap_lookup map c);
        '(s2, map, squeeze) ←
          (if x =? OOBCH then
             '(b, s2) ← next s2;
             map ← (if (b : bool) then checked (cmap_add map c (lastch s2)) else Ok map);
             squeeze ← (if sq then checked (cset_add squeeze (lastch s2)) else Ok squeeze);
             Ok (s2, map, squeeze)
           else map ← checked (cmap_add map c c); Ok (s2, map, squeeze));
        if (is_state EOS s2 || is_state INFINITE s2) && (cm_max map <=? c) then Ok (s2, map, squeeze)
        else complement_loop fuel C sq (c + 1) s2 map squeeze
  end.

(** -C with one-octet characters: the characters that are not in string1, sorted. *)
Fixpoint carray_loop (n : nat) (c : Z) (map : cmap) : R (list Z * cmap) :=
  match n with
  | O => Ok ([], map)
  | S n =>
      '(x, map) ← checked (cmap_lookup map c);
      if (x =? OOBCH) && iswrune loc c then '(l, map) ← carray_loop n (c + 1) map; Ok (c :: l, map)
      else map ← checked (cmap_add map c c); carray_loop n (c + 1) map
  end.
Fixpoint map_carray (sq : bool) (carray : list Z) (s2 : STR) (map : cmap) (squeeze : cset) : R (cmap * cset) :=
  match carray with
  | [] => Ok (map, squeeze)
  | c :: carray =>
      '(_, s2) ← next s2;
      '(map, squeeze) ← add_pair sq c (lastch s2) map squeeze;
      map_carray sq carray s2 map squeeze
  end.

(** The two loops that translate. *)
Definition translate_char (C : bool) (ch : Z) (map : cmap) : R (Z * cmap) :=
  if negb C || iswrune loc ch then checked (cmap_lookup map ch) else Ok (ch, map).
Fixpoint translate (C : bool) (map : cmap) (input : list Z) : R (list Z) :=
  match input with
  | [] => Ok []
  | ch :: input => '(ch, map) ← translate_char C ch map; out ← translate C map input; Ok (ch :: out)
  end.
Fixpoint translate_squeeze (C : bool) (map : cmap) (squeeze : cset) (last : Z) (input : list Z) : R (list Z) :=
  match input with
  | [] => Ok []
  | ch :: input =>
      '(ch, map) ← translate_char C ch map;
      '(sq, squeeze) ← (if negb (last =? ch) then Ok (false, squeeze) else checked (cset_in iswctype squeeze ch));
      if (sq : bool) then translate_squeeze C map squeeze last input
      else out ← translate_squeeze C map squeeze ch input; Ok (ch :: out)
  end.

(** The part of [main] that makes the map and the set to squeeze. *)
Definition make_map (fuel : nat) (a : tr_args) (string2 : list Z) : R (cmap * cset) :=
  let map := if Cflag a || cflag a then snd (cmap_default cmap_alloc OOBCH) else cmap_alloc in
  '(b, s2) ← next (start_str string2 (behind2 a));
  if negb b then Ex EmptyString2
  else
    '(b, s1) ← next (start_str (string1 a) (behind1 a));
    '(s2, map, squeeze) ← (if (b : bool) then pair_loop fuel (sflag a) s1 s2 map cset_alloc else Ok (s2, map, cset_alloc));
    let s2 := {| state := NORMAL; cnt := cnt s2; lastch := lastch s2; cclass := cclass s2; equiv := equiv s2; set := set s2;
                 str := string2; behind := behind2' a |} in
    '(map, squeeze) ←
      (if cflag a || (Cflag a && (1 <? MB_CUR_MAX loc)) then
         '(s2, map, squeeze) ← complement_loop fuel (Cflag a) (sflag a) 0 s2 map squeeze;
         Ok (snd (cmap_default map (lastch s2)), squeeze)
       else if Cflag a then
         '(carray, map) ← carray_loop NCHARS_SB 0 map;
         map_carray (sflag a) (if (1 <? length carray)%nat then mergesort carray else carray) s2 map squeeze
       else Ok (map, squeeze));
    squeeze ← checked (cset_cache iswctype squeeze);
    map ← checked (cmap_cache map);
    Ok (map, squeeze).

(** [main], behind the options: what is written, with status 0, or the error. *)
Definition main (fuel : nat) (a : tr_args) (input : list Z) : R (list Z) :=
  if dflag a && sflag a then
    match string2 a with
    | None => Ex Usage
    | Some s2 =>
        delete ← setup fuel (string1 a) (behind1 a) (cflag a) (Cflag a);
        squeeze ← setup fuel s2 (behind2 a) false false;
        delete_squeeze delete squeeze OOBCH input
    end
  else if dflag a then
    match string2 a with
    | Some _ => Ex Usage
    | None => delete ← setup fuel (string1 a) (behind1 a) (cflag a) (Cflag a); delete_only delete input
    end
  else
    match string2 a with
    | None =>
        if sflag a then squeeze ← setup fuel (string1 a) (behind1 a) (cflag a) (Cflag a); squeeze_only squeeze OOBCH input
        else Ex Usage
    | Some s2 =>
        '(map, squeeze) ← make_map fuel a s2;
        if sflag a then translate_squeeze (Cflag a) map squeeze OOBCH input else translate (Cflag a) map input
    end.

End Tr.
