(* ===== verification/TrStr.v ===== *)
(** * tr: the characters of an operand

    [next] ends, and the characters that it gives are those that the conventions of the manual say. *)

From Stdlib Require Import ZArith Lia List Bool.
From stdpp Require Import base tactics list numbers.
From S2P Require Import Prelude TrSet Tr.

Local Open Scope Z_scope.
Local Open Scope list_scope.

Section TrStr.
Context (loc : locale).
Implicit Types s : STR.

Abbreviation next := (next loc).
Abbreviation next_body := (next_body loc).
Abbreviation next_rec := (next_rec loc).
Abbreviation len s := (length (str s)).

(** ** Every call takes something *)

Lemma octal_loop_len n : forall v l v' k l', octal_loop n v l = (v', k, l') -> (length l' <= length l)%nat.
Proof.
  induction n as [|n IH]; intros v [|c l] v' k l' H; cbn in H; try (injection H as <- <- <-; done).
  destruct (isdigit c && (c <=? 55)); [|injection H as <- <- <-; done].
  destruct (octal_loop n _ l) as [[v1 k1] l1] eqn:E. injection H as <- <- <-. apply IH in E. cbn. lia.
Qed.

Lemma backslash_len s c o s' : backslash s = (c, o, s') -> (len s' <= length (tail (str s)))%nat.
Proof.
  unfold backslash. destruct (octal_loop 3 0 (tail (str s))) as [[v k] l] eqn:E. apply octal_loop_len in E.
  destruct k; [|intros [= <- <- <-]; cbn; lia]. destruct l as [|ch l]; intros [= <- <- <-]; cbn in *; lia.
Qed.

Lemma tail_len {A} (l : list A) : (length (tail l) <= length l)%nat.
Proof. destruct l; cbn; lia. Qed.

Lemma genrange_to_len (text : list Z) o st oc s b s' : (len s < length text)%nat -> genrange_to loc text o st oc s = (b, s') ->
  if b then (len s' < length text)%nat /\ (state s' = RANGE \/ state s' = SET) else str s' = text.
Proof. unfold genrange_to. intros Hl. destruct (oc || o || _); [destruct (_ <? _)|destruct (_ <? _)]; intros [= <- <-]; cbn; auto. Qed.

Lemma genrange_len s o b s' : str s <> [] -> genrange loc s o = Ok (b, s') ->
  if b then (len s' < len s)%nat /\ (state s' = RANGE \/ state s' = SET) else str s' = str s.
Proof.
  intros Hs. unfold genrange. cbn [str set_str].
  assert (length (tail (str s)) < len s)%nat as H0 by (by destruct (str s); [|cbn; lia]).
  destruct (first _ =? 92).
  - destruct (backslash _) as [[c oc] s1] eqn:E. intros [= E2]. apply backslash_len in E. cbn in E. pose proof (tail_len (tail (str s))).
    eapply genrange_to_len; [|exact E2]. lia.
  - destruct (mbrtowc loc _) as [[wc k]|]; [|done]. intros [= E2]. eapply genrange_to_len; [|exact E2]. cbn. rewrite length_drop. lia.
Qed.

Lemma genequiv_len s s' : genequiv loc s = Ok s' -> (len s' <= len s)%nat /\ state s' = SET.
Proof.
  unfold genequiv. intros H.
  assert (forall c s1, (len s1 <= len s)%nat ->
    (let eq := c :: tail (equiv s1) in
     let tprim := weight loc eq in
     let same := List.filter (fun i => (negb (weight loc [i] =? -1)) && (weight loc [i] =? tprim)) (seqZ 1 (Z.of_nat NCHARS_SB - 1)) in
     eq ← (if tprim =? -1 then Ok eq
        else if (S (length same) <? NCHARS_SB)%nat then Ok (c :: same ++ OOBCH :: drop (S (S (length same))) eq) else Ex BadAccess);
     Ok (set_set eq (set_state SET (set_cnt 0 (set_equiv eq s1))))) = Ok s' -> (len s' <= len s)%nat /\ state s' = SET) as Hk.
  { intros c s1 Hl. cbv zeta. destruct (if weight loc _ =? -1 then _ else _) as [eq|e]; [|done]. by intros [= <-]. }
  destruct (first (str s) =? 92).
  - destruct (backslash s) as [[c oc] s1] eqn:E. apply backslash_len in E. pose proof (tail_len (str s)).
    destruct (first (str s1) =? 61); [|done]. revert H. apply Hk. cbn. rewrite length_drop. lia.
  - destruct (mbrtowc loc (str s)) as [[wc [|k]]|]; [done| |done]. destruct (first _ =? 61); [|done]. revert H. apply Hk. cbn [str set_str]. rewrite length_drop. lia.
Qed.

Lemma digits_len base l : forall v v' l', digits base v l = (v', l') -> (length l' <= length l)%nat.
Proof.
  induction l as [|c l IH]; intros v v' l' H; cbn in H; [by injection H as <- <-|].
  destruct (digit_val c <? base); [|by injection H as <- <-]. apply IH in H. cbn. lia.
Qed.

Lemma strtol0_len l v l' : strtol0 l = (v, l') -> (length l' <= length l)%nat.
Proof.
  unfold strtol0. intros H.
  assert (forall base l1, (length l1 <= length l)%nat -> (let '(v, l) := digits base 0 l1 in (Z.min v LONG_MAX, l)) = (v, l') -> (length l' <= length l)%nat) as Hk.
  { intros base l1 Hl E. destruct (digits base 0 l1) as [v1 l2] eqn:Ed. apply digits_len in Ed. injection E as _ <-. lia. }
  destruct l as [|c [|x [|h l]]]; [by apply (Hk 10 _ ltac:(done) H)|..];
    (destruct (Z.eqb_spec c 48) as [->|Hc]; [|by (eapply (Hk 10); [done|]; destruct c as [|p|p]; try done; repeat (destruct p as [p|p|]; try done; try lia))]).
  - by apply (Hk 8 _ ltac:(done) H).
  - by apply (Hk 8 _ ltac:(done) H).
  - destruct (_ && _); [|by apply (Hk 8 _ ltac:(done) H)]. by apply (Hk 16 (h :: l) ltac:(cbn; lia) H).
Qed.

(** The two parts of [genseq]. *)
Lemma genseq_len s s' : genseq loc s = Ok s' -> (len s' <= len s)%nat /\ (state s' = INFINITE \/ state s' = SEQUENCE).
Proof.
  unfold genseq. set (m1 := if first (str s) =? 92 then _ else _). intros H. destruct m1 as [s1|] eqn:E1; [|done]. cbn [mbind tr_bind] in H.
  assert (len s1 <= len s)%nat as H1.
  { unfold m1 in E1. destruct (first (str s) =? 92).
    - destruct (backslash s) as [[c oc] s2] eqn:E. apply backslash_len in E. injection E1 as <-. pose proof (tail_len (str s)). cbn. lia.
    - destruct (mbrtowc loc (str s)) as [[wc k]|]; [|done]. injection E1 as <-. cbn. rewrite length_drop. lia. }
  destruct (negb (first (str s1) =? 42)); [done|]. cbv zeta in H. remember (set_str (tail (str s1)) s1) as s2 eqn:Es2.
  assert (len s2 <= len s)%nat as H2 by (subst s2; pose proof (tail_len (str s1)); cbn; lia).
  set (m2 := if first (str s2) =? 92 then _ else _) in H. destruct m2 as [s3|] eqn:E2; [|done]. cbn [mbind tr_bind] in H.
  assert (len s3 <= len s)%nat as H3.
  { unfold m2 in E2. pose proof (tail_len (str s2)). destruct (first (str s2) =? 92).
    - destruct (backslash s2) as [[c oc] s4] eqn:E. apply backslash_len in E. injection E2 as <-. cbn. lia.
    - destruct (first (str s2) =? 93); [injection E2 as <-; cbn; lia|]. destruct (isdigit _); [|done].
      destruct (strtol0 (str s2)) as [v ep] eqn:E. apply strtol0_len in E. destruct (first ep =? 93); [|done]. injection E2 as <-. pose proof (tail_len ep). cbn. lia. }
  injection H as <-. split; [done|]. cbn. destruct (cnt s3 =? 0); auto.
Qed.

Lemma bracket_repeat_len s b s' : str s <> [] -> bracket_repeat loc s = Ok (b, s') -> if b then (len s' < len s)%nat else s' = s.
Proof.
  intros Hs. unfold bracket_repeat. destruct (strpbrk _ _) as [p|]; [|by intros [= <- <-]]. destruct (_ || _); [by intros [= <- <-]|].
  destruct (genseq loc _) as [s1|] eqn:E; [|done]. intros [= <- <-]. apply genseq_len in E as [E _]. cbn in E. destruct (str s); [done|]. cbn in *. lia.
Qed.

Lemma bracket_len s b s' : str s <> [] -> bracket loc s = Ok (b, s') -> if b then (len s' < len s)%nat else s' = s.
Proof.
  intros Hs. unfold bracket. assert (length (drop 2 (str s)) < len s)%nat as Hd by (rewrite length_drop; destruct (str s); [done|cbn; lia]).
  destruct (_ || _); [|by apply bracket_repeat_len]. destruct (strchr _ 93) as [i|]; [|by intros [= <- <-]].
  destruct (_ || _); [by apply bracket_repeat_len|]. destruct (_ =? 58).
  - destruct (genclass loc _ s) as [s1|]; [|done]. intros [= <- <-]. cbn. rewrite length_drop. lia.
  - destruct (genequiv loc _) as [s1|] eqn:E; [|done]. intros [= <- <-]. apply genequiv_len in E as [E _]. cbn in E. lia.
Qed.

(** ** [next] ends *)

Definition need s : nat := 2 * len s + match state s with EOS | NORMAL | INFINITE => 1 | _ => 2 end.

Lemma need_state s : (need s <= 2 * len s + 2)%nat.
Proof. unfold need. destruct (state s); lia. Qed.

Lemma next_body_calls f g s : (forall s', (need s' < need s)%nat -> f s' = g s') -> next_body f s = next_body g s.
Proof.
  intros H. assert (forall o s0, (len s0 < len s)%nat -> state s = NORMAL ->
    (if first (str s0) =? 45 then mbind (M := res tr_error) (fun '(b, s1) => if (b : bool) then f s1 else Ok (true, s1)) (genrange loc s0 o) else Ok (true, s0)) =
    (if first (str s0) =? 45 then mbind (M := res tr_error) (fun '(b, s1) => if (b : bool) then g s1 else Ok (true, s1)) (genrange loc s0 o) else Ok (true, s0))) as Hone.
  { intros o s0 Hl Hs. destruct (Z.eqb_spec (first (str s0)) 45) as [E|]; [|done].
    destruct (genrange loc s0 o) as [[b s1]|] eqn:Eg; [|done]. cbn. apply genrange_len in Eg; [|by intros E'; rewrite E' in E].
    destruct b; [|done]. destruct Eg as [Eg _]. apply H. pose proof (need_state s1). unfold need at 2. rewrite Hs. lia. }
  assert (forall s1, (len s1 <= len s)%nat -> (2 * len s + 2 <= need s)%nat -> f (set_state NORMAL s1) = g (set_state NORMAL s1)) as Hnorm.
  { intros s1 Hl Hn. apply H. assert (need (set_state NORMAL s1) = 2 * len s1 + 1)%nat as -> by reflexivity. lia. }
  unfold Tr.next_body. destruct (state s) eqn:Es; try done.
  2: destruct (cnt s =? 0); [|done].
  3: destruct (cnt s =? 0); [|done].
  4, 5, 6: destruct (nextwctype loc _ _ =? -1); [|done].
  7: destruct (checked _) as [ch|]; [|done]; cbn [mbind tr_bind]; destruct (ch =? OOBCH); [|done].
  2-7: apply Hnorm; [done|]; unfold need; rewrite Es; lia.
  assert (forall s0, str s0 = str s -> str s <> [] ->
    match mbrtowc loc (str s0) with
    | None | Some (_, O) => Ex IllegalSequence
    | Some (wch, clen) => let s1 := set_str (drop clen (str s0)) (set_lastch wch s0) in
        if first (str s1) =? 45 then mbind (M := res tr_error) (fun '(b, s1) => if (b : bool) then f s1 else Ok (true, s1)) (genrange loc s1 false) else Ok (true, s1)
    end = match mbrtowc loc (str s0) with
    | None | Some (_, O) => Ex IllegalSequence
    | Some (wch, clen) => let s1 := set_str (drop clen (str s0)) (set_lastch wch s0) in
        if first (str s1) =? 45 then mbind (M := res tr_error) (fun '(b, s1) => if (b : bool) then g s1 else Ok (true, s1)) (genrange loc s1 false) else Ok (true, s1)
    end) as Hdef.
  { intros s0 E Hne. destruct (mbrtowc loc (str s0)) as [[wch [|k]]|]; try done. cbv zeta. apply Hone; [|done]. cbn [str set_str]. rewrite length_drop, E. destruct (str s); [done|cbn; lia]. }
  destruct (str s) as [|c l] eqn:El; [done|]. destruct (c =? 92).
  - destruct (backslash s) as [[ch o] s1] eqn:E. apply Hone; [|done]. apply backslash_len in E. rewrite El in E. cbn in *. lia.
  - destruct (c =? 91); [|rewrite <- El; by apply Hdef].
    assert (str s <> []) as Hne by (by rewrite El). rewrite <- El in *. clear El. destruct (bracket loc s) as [[b s1]|] eqn:E; [|done]. cbn [mbind tr_bind]. apply bracket_len in E; [|done].
    destruct b; [|subst; by apply Hdef]. apply H. pose proof (need_state s1). unfold need at 2. rewrite Es. lia.
Qed.

Lemma next_rec_enough n : forall m s, (need s <= n)%nat -> (need s <= m)%nat -> next_rec n s = next_rec m s.
Proof.
  induction n as [|n IH]; intros m s Hn Hm; [unfold need in Hn; destruct (state s); lia|].
  destruct m as [|m]; [unfold need in Hm; destruct (state s); lia|]. cbn [Tr.next_rec]. apply next_body_calls. intros s' Hs. apply IH; lia.
Qed.

(** The recursion of the source, without its bound. *)
Lemma next_eq s : next s = next_body next s.
Proof.
  unfold Tr.next at 1. replace (2 * len s + 3)%nat with (S (2 * len s + 2)) by lia. cbn [Tr.next_rec]. apply next_body_calls. intros s' Hs.
  pose proof (need_state s). pose proof (need_state s'). unfold Tr.next. apply next_rec_enough; lia.
Qed.

(** ** The conventions *)

(** What the documentation of the library says: a character is a number of [wchar_t], and [nextwctype] goes up or ends with -1. *)
Record locale_ok : Prop := {
  ok_mbrtowc text c k : mbrtowc loc text = Some (c, k) -> 0 <= c < WCHAR_MAX;
  ok_nextwctype c cls : nextwctype loc c cls = -1 \/ c < nextwctype loc c cls < WCHAR_MAX /\ 0 <= nextwctype loc c cls }.

Definition octal_digit (c : Z) : Prop := 48 <= c <= 55.
Definition octal_value (ds : list Z) : Z := fold_left (fun v d => v * 8 + (d - 48)) ds 0.
Definition decimal_value (ds : list Z) : Z := fold_left (fun v d => v * 10 + (d - 48)) ds 0.

(** Backslash conventions: the character, whether it is octal, and the rest. *)
Inductive backslashed : list Z -> Z -> bool -> list Z -> Prop :=
  | bs_octal ds rest : Forall octal_digit ds -> (length ds = 3 \/ (1 <= length ds < 3 /\ ~ octal_digit (first rest)))%nat ->
      backslashed (ds ++ rest) (octal_value ds) true rest
  | bs_alert rest : backslashed (97 :: rest) 7 false rest
  | bs_backspace rest : backslashed (98 :: rest) 8 false rest
  | bs_form_feed rest : backslashed (102 :: rest) 12 false rest
  | bs_newline rest : backslashed (110 :: rest) 10 false rest
  | bs_return rest : backslashed (114 :: rest) 13 false rest
  | bs_tab rest : backslashed (116 :: rest) 9 false rest
  | bs_vertical_tab rest : backslashed (118 :: rest) 11 false rest
  | bs_other c rest : 0 < c < 256 -> ~ octal_digit c -> ~ In c [97; 98; 102; 110; 114; 116; 118] -> backslashed (c :: rest) c false rest.

(** A character inside brackets or at the end of a range. *)
Inductive inner_char : list Z -> Z -> bool -> list Z -> Prop :=
  | inner_plain b text c k : b <> 92 -> mbrtowc loc (b :: text) = Some (c, S k) -> inner_char (b :: text) c false (drop k text)
  | inner_backslash text c o rest : backslashed text c o rest -> inner_char (92 :: text) c o rest.

(** A bracket that stands for itself: no class, and no count. *)
Definition lone_bracket (text : list Z) : Prop :=
  exists c t, text = c :: t /\ (c = 58 \/ c = 61 -> ~ In 93 t) /\
    (c <> 58 -> c <> 61 -> forall a b, t = a ++ 42 :: b -> ~ In 42 a -> ~ In 93 a -> ~ In 93 b).

Inductive one_char : list Z -> Z -> bool -> list Z -> Prop :=
  | one_inner b text c o rest : b <> 91 -> inner_char (b :: text) c o rest -> one_char (b :: text) c o rest
  | one_bracket text c o rest : lone_bracket text -> inner_char (91 :: text) c o rest -> one_char (91 :: text) c o rest.

(** The members of a class, the first behind [c]. *)
Inductive class_chars (cls : Z) : Z -> list Z -> Prop :=
  | class_end c : nextwctype loc c cls = -1 -> class_chars cls c []
  | class_more c l : nextwctype loc c cls <> -1 -> class_chars cls (nextwctype loc c cls) l -> class_chars cls c (nextwctype loc c cls :: l).

(** The number of a repetition. *)
Inductive count : list Z -> Z -> Prop :=
  | count_none : count [] 0
  | count_octal ds : Forall octal_digit ds -> octal_value ds < 2 ^ 31 -> count (48 :: ds) (octal_value ds)
  | count_decimal d ds : 49 <= d <= 57 -> Forall (fun c => 48 <= c <= 57) ds -> decimal_value (d :: ds) < 2 ^ 31 -> count (d :: ds) (decimal_value (d :: ds)).

(** The members of a range; [None] for a range that goes backwards. *)
Definition range_chars (coded : bool) (a b : Z) : option (list Z) :=
  if coded then if b <? a then None else Some (seqZ a (b - a + 1))
  else if charcoll loc b a <? 0 then None else Some (range_set loc a b).

(** [letters] says whether the classes upper and lower occur. *)
Inductive denotes (letters : bool) : list Z -> list Z -> Prop :=
  | d_nil : denotes letters [] []
  | d_char text c o rest l : one_char text c o rest -> first rest <> 45 -> denotes letters rest l -> denotes letters text (c :: l)
  | d_range text a o t b o' rest cs l : one_char text a o (45 :: t) -> inner_char t b o' rest ->
      range_chars (o || o' || (1 <? MB_CUR_MAX loc)) a b = Some cs -> cs <> [] -> denotes letters rest l -> denotes letters text (cs ++ l)
  | d_hyphen text a o t b o' rest l : one_char text a o (45 :: t) -> inner_char t b o' rest ->
      range_chars (o || o' || (1 <? MB_CUR_MAX loc)) a b = None -> denotes letters (45 :: t) l -> denotes letters text (a :: l)
  | d_class name rest cs l : name <> [] -> ~ In 93 name -> wctype loc name <> 0 -> class_chars (wctype loc name) (-1) cs -> cs <> [] ->
      (letters = false -> name <> upper_text /\ name <> lower_text) -> denotes letters rest l ->
      denotes letters (91 :: 58 :: name ++ 58 :: 93 :: rest) (cs ++ l)
  | d_equiv w c o rest x l : w <> [] -> ~ In 93 w -> inner_char (w ++ 61 :: 93 :: rest) c o (61 :: 93 :: rest) ->
      (forall eq, weight loc (c :: eq) = x) -> x <> -1 -> (length (List.filter (fun i => weight loc [i] =? x)%Z (seqZ 1 255)) < 255)%nat ->
      denotes letters rest l ->
      denotes letters (91 :: 61 :: w ++ 61 :: 93 :: rest) (c :: List.filter (fun i => weight loc [i] =? x) (seqZ 1 255) ++ l)
  | d_repeat b w c o num n rest l : b <> 58 -> b <> 61 -> ~ In 42 w -> ~ In 93 w ->
      inner_char (b :: w ++ 42 :: num ++ 93 :: rest) c o (42 :: num ++ 93 :: rest) -> count num n -> n <> 0 -> denotes letters rest l ->
      denotes letters (91 :: b :: w ++ 42 :: num ++ 93 :: rest) (replicate (Z.to_nat n) c ++ l)
  | d_fill b w c o num : b <> 58 -> b <> 61 -> ~ In 42 w -> ~ In 93 w ->
      inner_char (b :: w ++ 42 :: num ++ [93]) c o (42 :: num ++ [93]) -> count num 0 ->
      denotes letters (91 :: b :: w ++ 42 :: num ++ [93]) [c].

(** ** What [next] gives *)

Inductive gives : STR -> list STR -> Prop :=
  | gives_end s s' : next s = Ok (false, s') -> lastch s' = lastch s -> state s' = EOS -> gives s []
  | gives_more s s' l : next s = Ok (true, s') -> gives s' l -> gives s (s' :: l).

Definition case_class (s : STR) : Prop := state s = CCLASS_UPPER \/ state s = CCLASS_LOWER.
(** Behind a character the operand is neither at its end nor in a fill. *)
Definition going (letters : bool) (s : STR) : Prop := state s <> EOS /\ state s <> INFINITE /\ (letters = false -> ~ case_class s).
Definition says (letters : bool) s (l : list Z) : Prop := exists ss, gives s ss /\ map lastch ss = l /\ Forall (going letters) ss.

Lemma going_state letters s x : state s = x -> x = NORMAL \/ x = RANGE \/ x = SEQUENCE \/ x = SET \/ x = CCLASS -> going letters s.
Proof. intros E H. unfold going, case_class. rewrite E. intuition congruence. Qed.

Lemma says_next letters s s' l : next s = next s' -> lastch s = lastch s' -> says letters s' l -> says letters s l.
Proof. intros E El (ss & Hg & Hl). exists ss. split; [|done]. destruct Hg as [s' s1 H H0 H1|s' s1 l0 H H0]; [apply (gives_end s s1)|apply (gives_more s s1)]; congruence. Qed.
Lemma says_more letters s s' l : next s = Ok (true, s') -> going letters s' -> says letters s' l -> says letters s (lastch s' :: l).
Proof.
  intros E Hc (ss & Hg & <- & Hf). exists (s' :: ss). split; [by econstructor|]. split; [done|]. by constructor.
Qed.


(** *** The classes of characters and repetitions, once they are begun *)

Context (Hloc : locale_ok).

Lemma s32_small z : - 2 ^ 31 <= z < 2 ^ 31 -> s32 z = z.
Proof. intros H. apply swrap_small; lia. Qed.

Lemma range_says letters l n : forall s, state s = RANGE -> cnt s = Z.of_nat n -> Z.of_nat n < 2 ^ 31 -> lastch s + Z.of_nat n < 2 ^ 31 ->
  (forall s', state s' = NORMAL -> str s' = str s -> says letters s' l) -> says letters s (seqZ (lastch s + 1) (Z.of_nat n) ++ l).
Proof.
  induction n as [|n IH]; intros s Hs Hc Hn Hb Hk.
  - eapply (says_next _ s (set_state NORMAL (set_cnt (s32 (cnt s - 1)) s))); [rewrite next_eq; unfold Tr.next_body; rewrite Hs, Hc; done|done|]. by apply Hk.
  - set (s1 := set_lastch (lastch s + 1) (set_cnt (Z.of_nat n) s)).
    assert (next s = Ok (true, s1)) as E.
    { rewrite next_eq. unfold Tr.next_body. rewrite Hs, Hc. destruct (Z.eqb_spec (Z.of_nat (S n)) 0); [lia|]. rewrite s32_small by lia.
      unfold s1. do 4 f_equal. lia. }
    rewrite seqZ_cons by lia. replace (Z.pred (Z.of_nat (S n))) with (Z.of_nat n) by lia.
    apply (says_more letters s s1 _ E); [eapply going_state; [reflexivity|auto 6]|]. apply IH; try done; try lia. unfold s1. cbn. lia.
Qed.

Lemma sequence_says letters l n : forall s, state s = SEQUENCE -> cnt s = Z.of_nat n -> Z.of_nat n < 2 ^ 31 ->
  (forall s', state s' = NORMAL -> str s' = str s -> says letters s' l) -> says letters s (replicate n (lastch s) ++ l).
Proof.
  induction n as [|n IH]; intros s Hs Hc Hn Hk.
  - eapply (says_next _ s (set_state NORMAL (set_cnt (s32 (cnt s - 1)) s))); [rewrite next_eq; unfold Tr.next_body; rewrite Hs, Hc; done|done|]. by apply Hk.
  - set (s1 := set_cnt (Z.of_nat n) s).
    assert (next s = Ok (true, s1)) as E.
    { rewrite next_eq. unfold Tr.next_body. rewrite Hs, Hc. destruct (Z.eqb_spec (Z.of_nat (S n)) 0); [lia|]. rewrite s32_small by lia.
      unfold s1. do 3 f_equal. lia. }
    cbn [replicate app]. apply (says_more letters s s1 _ E); [eapply going_state; [reflexivity|auto 6]|]. apply (IH s1); try done; lia.
Qed.

Lemma set_says letters l cs : forall s pre, state s = SET -> set s = pre ++ cs ++ [OOBCH] \/ (exists old, set s = pre ++ cs ++ OOBCH :: old) -> cnt s = Z.of_nat (length pre) -> Forall (fun c => c <> OOBCH) cs ->
  (forall s', state s' = NORMAL -> str s' = str s -> says letters s' l) -> says letters s (cs ++ l).
Proof.
  induction cs as [|c cs IH]; intros s pre Hs Hset Hc Hf Hk.
  - assert (set s !! Z.to_nat (cnt s) = Some OOBCH) as El.
    { rewrite Hc, Nat2Z.id. destruct Hset as [->|[old ->]]; rewrite lookup_app_r by lia; by rewrite Nat.sub_diag. }
    eapply (says_next _ s (set_state NORMAL (set_cnt (cnt s + 1) s))); [rewrite next_eq; unfold Tr.next_body; rewrite Hs, El; done|done|]. by apply Hk.
  - rewrite List.Forall_cons_iff in Hf. destruct Hf as [Hf1 Hf]. set (s1 := set_lastch c (set_cnt (cnt s + 1) s)).
    assert (set s !! Z.to_nat (cnt s) = Some c) as El.
    { rewrite Hc, Nat2Z.id. destruct Hset as [->|[old ->]]; rewrite lookup_app_r by lia; by rewrite Nat.sub_diag. }
    assert (next s = Ok (true, s1)) as E.
    { rewrite next_eq. unfold Tr.next_body. rewrite Hs, El. cbn [checked mbind tr_bind]. by apply Z.eqb_neq in Hf1 as ->. }
    cbn [app]. apply (says_more letters s s1 _ E); [eapply going_state; [reflexivity|auto 6]|].
    apply (IH s1 (pre ++ [c])); try done; [|unfold s1; cbn; rewrite length_app; cbn; lia].
    destruct Hset as [E2|[old E2]]; [left|right; exists old]; unfold s1; cbn; rewrite E2; by rewrite <- app_assoc.
Qed.

Lemma class_says letters l cs : forall s, state s = CCLASS \/ letters = true /\ case_class s -> class_chars (cclass s) (lastch s) cs ->
  (forall s', state s' = NORMAL -> str s' = str s -> says letters s' l) -> says letters s (cs ++ l).
Proof.
  induction cs as [|c cs IH]; intros s Hs Hcs Hk.
  - inversion Hcs as [c E|]; subst. set (s1 := set_state NORMAL (set_cnt (s32 (cnt s + 1)) s)).
    eapply (says_next _ s s1); [|done|by apply Hk]. rewrite next_eq. unfold Tr.next_body.
    destruct Hs as [Hs|[_ [Hs|Hs]]]; rewrite Hs; cbn [lastch cclass set_cnt]; by rewrite E.
  - inversion Hcs as [|c' l' E Hcs' E1 E2]; subst. set (c := nextwctype loc (lastch s) (cclass s)) in *. set (s1 := set_lastch c (set_cnt (s32 (cnt s + 1)) s)).
    assert (next s = Ok (true, s1)) as En.
    { rewrite next_eq. unfold Tr.next_body. destruct Hs as [Hs|[_ [Hs|Hs]]]; rewrite Hs; cbn [lastch cclass set_cnt]; fold c; apply Z.eqb_neq in E as ->; done. }
    cbn [app]. apply (says_more letters s s1 _ En).
    + unfold going. change (case_class s1) with (case_class s). change (state s1) with (state s). unfold case_class in *.
      destruct Hs as [Hs|[-> [Hs|Hs]]]; rewrite Hs; intuition congruence.
    + apply (IH s1); auto.
Qed.


(** *** Reading the text *)

Lemma octal_digit_dec c : (isdigit c && (c <=? 55)) = true <-> octal_digit c.
Proof. unfold isdigit, octal_digit. destruct (Z.leb_spec 48 c), (Z.leb_spec c 57), (Z.leb_spec c 55); cbn; split; (done || lia). Qed.

Lemma octal_loop_spec ds : forall n v rest, Forall octal_digit ds -> (length ds = n \/ (length ds < n /\ ~ octal_digit (first rest)))%nat ->
  octal_loop n v (ds ++ rest) = (fold_left (fun v d => v * 8 + (d - 48)) ds v, length ds, rest).
Proof.
  induction ds as [|d ds IH]; intros n v rest Hd Hn; cbn.
  - destruct n as [|n]; [done|]. destruct rest as [|c rest]; [done|]. cbn. destruct (isdigit c && (c <=? 55)) eqn:E; [|done].
    apply octal_digit_dec in E. destruct Hn as [Hn|[_ Hn]]; [done|by cbn in Hn].
  - rewrite List.Forall_cons_iff in Hd. destruct Hd as [Hd Hds]. destruct n as [|n]; [cbn in Hn; lia|]. cbn. apply octal_digit_dec in Hd as ->.
    rewrite IH; [|done|cbn in Hn; destruct Hn as [Hn|[Hn Hf]]; [left|right; split; [|done]]; lia]. by replace (v * 8 + d - 48) with (v * 8 + (d - 48)) by lia.
Qed.

Lemma backslash_spec t c o rest s : backslashed t c o rest -> tail (str s) = t -> backslash s = (c, o, set_str rest s).
Proof.
  intros Hb E. unfold backslash. rewrite E. destruct Hb as [ds rest Hds Hl|rest|rest|rest|rest|rest|rest|rest|c rest Hb Hc Hin]; try done.
  - rewrite octal_loop_spec; [|done|destruct Hl as [Hl|[[_ Hl] Hf]]; auto]. by destruct ds; [cbn in Hl; lia|].
  - cbn [octal_loop]. destruct (isdigit c && (c <=? 55)) eqn:Ed; [by apply octal_digit_dec in Ed|]. cbn in Hin. unfold escape.
    repeat (match goal with |- context [c =? ?x] => destruct (Z.eqb_spec c x) as [->|]; [exfalso; apply Hin; auto 10|] end). done.
Qed.

Lemma strchr_none l c : ~ In c l -> strchr l c = None.
Proof. induction l as [|d l IH]; intros H; cbn; [done|]. destruct (Z.eqb_spec d c) as [->|]; [exfalso; apply H; by left|]. rewrite IH; [done|]. intros Hc. apply H. by right. Qed.
Lemma strchr_app a b c : ~ In c a -> strchr (a ++ c :: b) c = Some (length a).
Proof.
  induction a as [|d a IH]; intros H; cbn; [by rewrite Z.eqb_refl|]. destruct (Z.eqb_spec d c) as [->|]; [exfalso; apply H; by left|].
  rewrite IH; [done|]. intros Hc. apply H. by right.
Qed.
Lemma existsb_eq d cs : existsb (Z.eqb d) cs = true <-> In d cs.
Proof. rewrite existsb_exists. split; [by intros (x & Hx & ->%Z.eqb_eq)|]. intros H. exists d. split; [done|apply Z.eqb_refl]. Qed.
Lemma strpbrk_app a d b cs : (forall x, In x a -> ~ In x cs) -> In d cs -> strpbrk (a ++ d :: b) cs = Some (length a).
Proof.
  induction a as [|x a IH]; intros H Hd; cbn.
  - by apply existsb_eq in Hd as ->.
  - destruct (existsb (Z.eqb x) cs) eqn:E; [apply existsb_eq in E; exfalso; apply (H x); [by left|done]|]. rewrite IH; [done| |done]. intros y Hy. apply H. by right.
Qed.
Lemma strpbrk_some l cs p : strpbrk l cs = Some p -> exists a d b, l = a ++ d :: b /\ length a = p /\ In d cs /\ forall x, In x a -> ~ In x cs.
Proof.
  revert p. induction l as [|x l IH]; intros p H; cbn in H; [done|]. destruct (existsb (Z.eqb x) cs) eqn:E.
  - injection H as <-. exists [], x, l. apply existsb_eq in E. split_and!; try done.
  - destruct (strpbrk l cs) as [q|]; [|done]. injection H as <-. destruct (IH q eq_refl) as (a & d & b & -> & <- & Hd & Ha). exists (x :: a), d, b.
    split_and!; try done. intros y [<-|Hy]; [|by apply Ha]. intros Hin%existsb_eq. congruence.
Qed.

Lemma lone_bracket_spec s t : str s = 91 :: t -> lone_bracket t -> bracket loc s = Ok (false, s).
Proof.
  intros Es (c & t' & -> & H1 & H2). unfold bracket. rewrite Es. cbn [tail first drop].
  assert (c <> 58 -> c <> 61 -> bracket_repeat loc s = Ok (false, s)) as Hr.
  { intros N1 N2. unfold bracket_repeat. assert ((match str s with [_] => behind s | l => drop 2 l end) = t') as -> by (by rewrite Es). cbv zeta. destruct (strpbrk t' [42; 93]) as [p|] eqn:E; [|done].
    apply strpbrk_some in E as (a & d & b & -> & <- & Hd & Ha). rewrite drop_app_length. cbn [first]. destruct Hd as [<-|[<-|[]]]; [|done].
    cbn [Z.eqb negb orb]. rewrite bool_decide_true; [done|]. apply strchr_none. intros [Hx|Hx]; [lia|]. revert Hx. apply (H2 N1 N2 a); [done|intros Hx; apply (Ha _ Hx); cbn; auto|intros Hx; apply (Ha _ Hx); cbn; auto]. }
  destruct (Z.eqb_spec c 58) as [->|N1]; cbn [orb]; [by rewrite strchr_none by auto|].
  destruct (Z.eqb_spec c 61) as [->|N2]; cbn [orb]; [by rewrite strchr_none by auto|]. by apply Hr.
Qed.

(** What comes behind a character. *)
Definition after_char (o : bool) (s : STR) : res tr_error (bool * STR) :=
  if first (str s) =? 45 then mbind (M := res tr_error) (fun '(b, s) => if (b : bool) then next s else Ok (true, s)) (genrange loc s o) else Ok (true, s).

Lemma next_char text c o rest s : one_char text c o rest -> state s = NORMAL -> str s = text -> next s = after_char o (set_str rest (set_lastch c s)).
Proof.
  intros Hc Hs Et. rewrite next_eq. unfold Tr.next_body. rewrite Hs.
  assert (forall b t c rest, b <> 92 -> str s = b :: t -> inner_char (b :: t) c o rest -> o = false /\ exists k, mbrtowc loc (b :: t) = Some (c, S k) /\ rest = drop k t) as Hplain.
  { intros b t c' rest' Hb _ Hi. inversion Hi; subst; [|done]. eauto. }
  destruct Hc as [b t c o rest Hb Hi|t c o rest Hl Hi]; rewrite Et.
  - destruct (Z.eqb_spec b 92) as [->|H92].
    + inversion Hi as [|t' c' o' rest' Hbs]; subst; [done|]. rewrite (backslash_spec t c o rest s Hbs) by (by rewrite Et). done.
    + apply Z.eqb_neq in Hb as ->. destruct (Hplain b t c rest H92 Et Hi) as (-> & k & Ek & ->). by rewrite ?Et, Ek.
  - destruct (Hplain 91 t c rest ltac:(done) Et Hi) as (-> & k & Ek & ->). cbn [Z.eqb]. rewrite (lone_bracket_spec s t Et Hl). cbn [mbind tr_bind]. by rewrite ?Et, Ek.
Qed.

Lemma genrange_spec t c o o' rest s : inner_char t c o' rest -> str s = 45 :: t ->
  genrange loc s o = Ok (genrange_to loc (45 :: t) o c o' (set_str rest s)).
Proof.
  intros Hi Es. unfold genrange. rewrite Es. cbn [tail str set_str]. inversion Hi as [b t' c' k Hb Hm|t' c' o2 rest' Hbs]; subst; cbn [first].
  - apply Z.eqb_neq in Hb as ->. rewrite Hm. by cbn [drop].
  - cbn [Z.eqb]. rewrite (backslash_spec t' c o' rest _ Hbs) by done. done.
Qed.


Lemma next_bracket s s' t : state s = NORMAL -> str s = 91 :: t -> bracket loc s = Ok (true, s') -> next s = next s'.
Proof. intros Hs Es Hb. rewrite next_eq. unfold Tr.next_body. rewrite Hs, Es. cbn [Z.eqb Pos.eqb]. by rewrite Hb. Qed.

Lemma says_next_some letters s s' l : next s = next s' -> l <> [] -> says letters s' l -> says letters s l.
Proof. intros E Hl (ss & Hg & Hm & Hc). exists ss. split; [|done]. destruct Hg as [s' s1 H H0 H1|s' s1 l0 H H0]; [by subst|apply (gives_more s s1); congruence]. Qed.

Lemma octal_value_bound ds : Forall octal_digit ds -> (length ds <= 3)%nat -> 0 <= octal_value ds < 512.
Proof.
  unfold octal_digit, octal_value. rewrite List.Forall_forall. intros H Hl.
  destruct ds as [|a [|b [|c [|]]]]; cbn in *; try lia; pose proof (H a (or_introl eq_refl)); try lia; pose proof (H b (or_intror (or_introl eq_refl))); try lia.
  pose proof (H c (or_intror (or_intror (or_introl eq_refl)))). lia.
Qed.

Lemma inner_char_bound text c o rest : inner_char text c o rest -> 0 <= c < WCHAR_MAX.
Proof.
  unfold WCHAR_MAX. intros [b t c' k _ H|t c' o' r H]; [by apply (ok_mbrtowc Hloc) in H|]. clear rest.
  destruct H as [ds rest Hds Hl|rest|rest|rest|rest|rest|rest|rest|c' rest Hb Hc Hin]; try lia. pose proof (octal_value_bound ds Hds ltac:(lia)). lia.
Qed.

Lemma one_char_bound text c o rest : one_char text c o rest -> 0 <= c < WCHAR_MAX.
Proof. intros [b t c' o' r _ H|t c' o' r _ H]; by apply inner_char_bound in H. Qed.

Lemma mergesort_in x l : In x (mergesort loc l) <-> In x l.
Proof.
  induction l as [|y l IH]; [done|]. cbn [mergesort foldr]. fold (mergesort loc l).
  assert (forall z l, In x (insert_coll loc z l) <-> x = z \/ In x l) as H.
  { clear. intros z l. induction l as [|w l IH]; cbn; [intuition congruence|]. destruct (charcoll loc z w <=? 0); cbn; [intuition congruence|]. rewrite IH. intuition congruence. }
  rewrite H, IH. cbn. intuition congruence.
Qed.

Lemma range_set_in x a b : In x (range_set loc a b) -> 0 <= x < 256.
Proof.
  unfold range_set. intros H. assert (In x (seqZ 0 (Z.of_nat NCHARS_SB))) as Hx.
  { destruct (1 <? length _)%nat; [apply (proj1 (mergesort_in _ _)) in H|]; by apply filter_In in H as [H _]. }
  apply list_elem_of_In, elem_of_seqZ in Hx. unfold NCHARS_SB in Hx. lia.
Qed.

(** What [next] makes of a range. *)
Definition range_str (coded : bool) (a b : Z) (s : STR) : STR :=
  if coded then set_lastch (a - 1) (set_state RANGE (set_cnt (b - a + 1) s))
  else set_state SET (set_cnt 0 (set_set (range_set loc a b ++ [OOBCH]) s)).
Definition backwards (coded : bool) (a b : Z) : bool := if coded then b <? a else charcoll loc b a <? 0.

Lemma genrange_to_eq text o b o' s : genrange_to loc text o b o' s =
  let coded := o || o' || (1 <? MB_CUR_MAX loc) in
  if backwards coded (lastch s) b then (false, set_str text s) else (true, range_str coded (lastch s) b s).
Proof. unfold genrange_to, backwards, range_str. destruct o, o'; cbn [orb]; try done; by destruct (1 <? MB_CUR_MAX loc). Qed.

Lemma next_range text a o t b o' rest s : one_char text a o (45 :: t) -> inner_char t b o' rest -> state s = NORMAL -> str s = text ->
  let coded := o || o' || (1 <? MB_CUR_MAX loc) in
  let s1 := set_str rest (set_str (45 :: t) (set_lastch a s)) in
  next s = if backwards coded a b then Ok (true, set_str (45 :: t) s1) else next (range_str coded a b s1).
Proof.
  intros Hc Hi Hs Es coded s1. rewrite (next_char text a o _ s Hc Hs Es). unfold after_char. cbn [str set_str first Z.eqb Pos.eqb].
  rewrite (genrange_spec t b o o' rest _ Hi) by done. rewrite genrange_to_eq. fold coded s1. change (lastch s1) with a. cbv zeta.
  destruct (backwards coded a b); done.
Qed.

Lemma range_denoted letters text a o t b o' rest cs l s : one_char text a o (45 :: t) -> inner_char t b o' rest ->
  range_chars (o || o' || (1 <? MB_CUR_MAX loc)) a b = Some cs -> cs <> [] ->
  (forall s, state s = NORMAL -> str s = rest -> says letters s l) -> state s = NORMAL -> str s = text -> says letters s (cs ++ l).
Proof.
  intros Hc Hi Hr Hne Hk Hs Es. pose proof (next_range text a o t b o' rest s Hc Hi Hs Es) as E. cbv zeta in E.
  pose proof (one_char_bound _ _ _ _ Hc) as Ha. pose proof (inner_char_bound _ _ _ _ Hi) as Hb. unfold WCHAR_MAX in *.
  remember (set_str rest (set_str (45 :: t) (set_lastch a s))) as s1 eqn:E1. assert (str s1 = rest) as Es1 by (by subst s1). clear E1.
  unfold range_chars, backwards, range_str in *. destruct (o || o' || _).
  - destruct (Z.ltb_spec b a) as [|Hab]; [done|]. injection Hr as <-. eapply says_next_some; [exact E|by destruct (seqZ _ _)|].
    match goal with |- says _ ?s1 _ => pose proof (range_says letters l (Z.to_nat (b - a + 1)) s1) as H end. cbn [lastch set_lastch set_state set_cnt state cnt str] in H.
    rewrite Z2Nat.id in H by lia. replace (a - 1 + 1) with a in H by lia. apply H; try done; try lia. intros s' H1 H2. apply Hk; [done|by rewrite H2].
  - destruct (charcoll loc b a <? 0); [done|]. injection Hr as Ecs.
    assert (Forall (fun c => c <> OOBCH) cs) as Hoob.
    { apply List.Forall_forall. intros x Hx. subst cs. apply range_set_in in Hx. unfold OOBCH. lia. }
    rewrite Ecs in E. clear Ecs. eapply says_next_some; [exact E|by destruct cs|].
    apply (set_says letters l cs _ []); [reflexivity|left; reflexivity|reflexivity|done|]. intros s' H1 H2. apply Hk; [done|by rewrite H2].
Qed.

Lemma hyphen_denoted letters text a o t b o' rest l s : one_char text a o (45 :: t) -> inner_char t b o' rest ->
  range_chars (o || o' || (1 <? MB_CUR_MAX loc)) a b = None ->
  (forall s, state s = NORMAL -> str s = 45 :: t -> says letters s l) -> state s = NORMAL -> str s = text -> says letters s (a :: l).
Proof.
  intros Hc Hi Hr Hk Hs Es. pose proof (next_range text a o t b o' rest s Hc Hi Hs Es) as E. cbv zeta in E.
  assert (backwards (o || o' || (1 <? MB_CUR_MAX loc)) a b = true) as Eb.
  { unfold range_chars in Hr. unfold backwards. destruct (o || o' || _); [destruct (b <? a)|destruct (charcoll loc b a <? 0)]; done. }
  rewrite Eb in E. apply (says_more letters s _ _ E); [eapply going_state; [reflexivity|auto 6]|]. apply Hk; done.
Qed.

(** *** Brackets *)

Lemma not_in_app {A} (x : A) l1 l2 : ~ In x (l1 ++ l2) <-> ~ In x l1 /\ ~ In x l2.
Proof. rewrite in_app_iff. tauto. Qed.

(** [strchr] in the text of a class or an equivalence. *)
Lemma bracket_end w d rest : d <> 93 -> ~ In 93 w -> strchr (w ++ d :: 93 :: rest) 93 = Some (S (length w)).
Proof.
  intros Hd Hw. replace (w ++ d :: 93 :: rest) with ((w ++ [d]) ++ 93 :: rest) by (by rewrite <- app_assoc).
  rewrite strchr_app by (rewrite not_in_app; split; [done|by intros [?|[]]]). rewrite length_app. cbn. f_equal. lia.
Qed.

Lemma bracket_text s d w rest : d = 58 \/ d = 61 -> str s = 91 :: d :: w ++ d :: 93 :: rest -> w <> [] -> ~ In 93 w ->
  bracket loc s = if d =? 58 then mbind (M := res tr_error) (fun s => Ok (true, set_str rest s)) (genclass loc w s)
                  else mbind (M := res tr_error) (fun s => Ok (true, s)) (genequiv loc (set_str (w ++ d :: 93 :: rest) s)).
Proof.
  intros Hd Es Hne Hw. unfold bracket. rewrite Es. cbn [tail first drop]. rewrite drop_0. rewrite bracket_end by (done || lia).
  assert ((d =? 58) || (d =? 61) = true) as -> by (by destruct Hd as [->| ->]). cbv zeta.
  cbn [drop]. rewrite drop_app_length. cbn [first]. rewrite Z.eqb_refl. cbn [negb orb].
  destruct (Nat.ltb_spec (S (length w) + 2) 4) as [Hl|Hl]; [destruct w; [done|cbn in Hl; lia]|].
  replace (S (length w) - 1)%nat with (length w) by lia. rewrite take_app_length.
  replace (S (S (length w))) with (length w + 2)%nat by lia. rewrite <- drop_drop, drop_app_length. done.
Qed.

Lemma eq_text_spec a b : eq_text a b = true <-> a = b.
Proof.
  revert b. induction a as [|x a IH]; intros [|y b]; cbn; try done. rewrite andb_true_iff, IH, Z.eqb_eq. split; [by intros [-> ->]|by intros [= -> ->]].
Qed.

Lemma class_denoted letters name rest cs l s : name <> [] -> ~ In 93 name -> wctype loc name <> 0 -> class_chars (wctype loc name) (-1) cs -> cs <> [] ->
  (letters = false -> name <> upper_text /\ name <> lower_text) -> (forall s, state s = NORMAL -> str s = rest -> says letters s l) ->
  state s = NORMAL -> str s = 91 :: 58 :: name ++ 58 :: 93 :: rest -> says letters s (cs ++ l).
Proof.
  intros Hne H93 Hw Hcs Hcne Hl Hk Hs Es. pose proof (bracket_text s 58 name rest (or_introl eq_refl) Es Hne H93) as Eb. cbn [Z.eqb Pos.eqb] in Eb.
  unfold genclass in Eb. apply Z.eqb_neq in Hw as Hw'. rewrite Hw' in Eb. cbn [mbind tr_bind] in Eb.
  eapply says_next_some; [by eapply next_bracket|by destruct cs|].
  apply class_says; [|done|].
  - unfold case_class. cbn. destruct (eq_text name upper_text) eqn:E1; [|destruct (eq_text name lower_text) eqn:E2; [|by left]].
    + right. destruct letters; [by auto|]. exfalso. by apply (proj1 (Hl eq_refl)), eq_text_spec.
    + right. destruct letters; [by auto|]. exfalso. by apply (proj2 (Hl eq_refl)), eq_text_spec.
  - intros s' H1 H2. by apply Hk.
Qed.

Lemma equiv_denoted letters w c o rest x l s : w <> [] -> ~ In 93 w -> inner_char (w ++ 61 :: 93 :: rest) c o (61 :: 93 :: rest) ->
  (forall eq, weight loc (c :: eq) = x) -> x <> -1 -> (length (List.filter (fun i => weight loc [i] =? x)%Z (seqZ 1 255)) < 255)%nat ->
  (forall s, state s = NORMAL -> str s = rest -> says letters s l) ->
  state s = NORMAL -> str s = 91 :: 61 :: w ++ 61 :: 93 :: rest ->
  says letters s (c :: List.filter (fun i => weight loc [i] =? x) (seqZ 1 255) ++ l).
Proof.
  intros Hne H93 Hi Hx Hx1 Hlen Hk Hs Es. pose proof (bracket_text s 61 w rest (or_intror eq_refl) Es Hne H93) as Eb. cbn [Z.eqb Pos.eqb] in Eb.
  set (same := List.filter (fun i => weight loc [i] =? x) (seqZ 1 255)) in *.
  assert (exists s1 old, genequiv loc (set_str (w ++ 61 :: 93 :: rest) s) = Ok s1 /\ state s1 = SET /\ set s1 = (c :: same) ++ OOBCH :: old /\ cnt s1 = 0 /\ str s1 = rest) as (s1 & old & Eg & Hs1 & Hset & Hc1 & Es1).
  { unfold genequiv. cbn [str set_str].
    assert (forall s2, str s2 = rest -> exists s1 old,
      (let eq := c :: tail (equiv s2) in
       let tprim := weight loc eq in
       let same := List.filter (fun i => (negb (weight loc [i] =? -1)) && (weight loc [i] =? tprim)) (seqZ 1 (Z.of_nat NCHARS_SB - 1)) in
       eq ← (if tprim =? -1 then Ok eq
          else if (S (length same) <? NCHARS_SB)%nat then Ok (c :: same ++ OOBCH :: drop (S (S (length same))) eq) else Ex BadAccess);
       Ok (set_set eq (set_state SET (set_cnt 0 (set_equiv eq s2))))) = Ok s1 /\ state s1 = SET /\ set s1 = (c :: same) ++ OOBCH :: old /\ cnt s1 = 0 /\ str s1 = rest) as Hgen.
    { intros s2 E3. cbv zeta. rewrite Hx.
      assert (List.filter (fun i => negb (weight loc [i] =? -1) && (weight loc [i] =? x)) (seqZ 1 (Z.of_nat NCHARS_SB - 1)) = same) as ->.
      { apply List.filter_ext. intros i. destruct (Z.eqb_spec (weight loc [i]) x) as [E|]; [|by rewrite andb_false_r].
        destruct (Z.eqb_spec (weight loc [i]) (-1)); [congruence|done]. }
      apply Z.eqb_neq in Hx1 as ->. destruct (Nat.ltb_spec (S (length same)) NCHARS_SB) as [|Hge]; [|unfold NCHARS_SB in Hge; lia]. cbn [mbind tr_bind].
      do 2 eexists. split; [reflexivity|]. by split_and!. }
    inversion Hi as [b t c' k Hb Hm E1 E2|t c' o' rest' Hbs E1 E2]; subst. all: cbn [first].
    - apply Z.eqb_neq in Hb as ->. rewrite Hm. cbn [drop]. match goal with H : drop k t = _ |- _ => rename H into Ed end. rewrite Ed. cbn [first Z.eqb Pos.eqb].
      cbn [mbind tr_bind]. apply Hgen. cbn [str set_str drop]. change (drop (k + 2) t = rest). by rewrite <- drop_drop, Ed.
    - cbn [Z.eqb Pos.eqb]. rewrite (backslash_spec t c o _ _ Hbs) by done. cbn [str set_str first Z.eqb Pos.eqb drop].
      cbn [mbind tr_bind]. by apply Hgen. }
  rewrite Eg in Eb. cbn [mbind tr_bind] in Eb. eapply says_next_some; [by eapply next_bracket|done|].
  change (c :: same ++ l) with ((c :: same) ++ l). apply (set_says letters l (c :: same) s1 []); [done|right; by exists old|done| |].
  - apply List.Forall_forall. intros y [<-|Hy]; unfold OOBCH.
    + apply inner_char_bound in Hi. lia.
    + apply filter_In in Hy as [Hy _]. apply list_elem_of_In, elem_of_seqZ in Hy. lia.
  - intros s' H1 H2. apply Hk; [done|congruence].
Qed.

Lemma digits_octal ds : forall v rest, Forall octal_digit ds -> digits 8 v (ds ++ 93 :: rest) = (fold_left (fun v d => v * 8 + (d - 48)) ds v, 93 :: rest).
Proof.
  induction ds as [|d ds IH]; intros v rest Hd; [done|]. rewrite List.Forall_cons_iff in Hd. destruct Hd as [Hd Hds]. cbn [app digits fold_left].
  unfold octal_digit in Hd. assert (digit_val d = d - 48) as Ed by (unfold digit_val; by destruct (Z.leb_spec 48 d), (Z.leb_spec d 57); try lia).
  rewrite Ed. destruct (Z.ltb_spec (d - 48) 8); [|lia]. by apply IH.
Qed.

Lemma digits_decimal ds : forall v rest, Forall (fun c => 48 <= c <= 57) ds -> digits 10 v (ds ++ 93 :: rest) = (fold_left (fun v d => v * 10 + (d - 48)) ds v, 93 :: rest).
Proof.
  induction ds as [|d ds IH]; intros v rest Hd; [done|]. rewrite List.Forall_cons_iff in Hd. destruct Hd as [Hd Hds]. cbn [app digits fold_left].
  assert (digit_val d = d - 48) as Ed by (unfold digit_val; by destruct (Z.leb_spec 48 d), (Z.leb_spec d 57); try lia).
  rewrite Ed. destruct (Z.ltb_spec (d - 48) 10); [|lia]. by apply IH.
Qed.

Lemma fold_digits_pos base ds : 0 <= base -> forall v, 0 <= v -> Forall (fun c => 48 <= c <= 57) ds -> 0 <= fold_left (fun v d => v * base + (d - 48)) ds v.
Proof.
  intros Hb. induction ds as [|d ds IH]; intros v Hv Hd; [done|]. rewrite List.Forall_cons_iff in Hd. destruct Hd as [Hd Hds]. cbn. apply IH; [nia|done].
Qed.

Lemma count_bound num n : count num n -> 0 <= n < 2 ^ 31.
Proof.
  intros [|ds Hds Hv|d ds Hd Hds Hv]; [lia|split; [|done]..].
  - apply fold_digits_pos; [lia|lia|]. eapply List.Forall_impl; [|exact Hds]. unfold octal_digit. lia.
  - apply fold_digits_pos; [lia|lia|]. constructor; [lia|done].
Qed.

Lemma strtol0_count num n rest : count num n -> num <> [] -> strtol0 (num ++ 93 :: rest) = (n, 93 :: rest) /\ isdigit (first (num ++ 93 :: rest)) = true.
Proof.
  intros Hc Hne. pose proof (count_bound _ _ Hc) as Hn. assert (Z.min n LONG_MAX = n) as Hm by (unfold LONG_MAX; lia).
  destruct Hc as [|ds Hds Hv|d ds Hd Hds Hv]; [done| |].
  - split; [|done]. unfold strtol0. cbn [app].
    assert (digits 8 0 (48 :: ds ++ 93 :: rest) = (octal_value ds, 93 :: rest)) as E by (by apply (digits_octal (48 :: ds)); constructor; [unfold octal_digit; lia|]).
    destruct ds as [|x ds].
    + by destruct rest.
    + rewrite List.Forall_cons_iff in Hds. destruct Hds as [Hx Hds]. unfold octal_digit in Hx. cbn [app] in *.
      assert ((x =? 120) || (x =? 88) = false) as Ex by (destruct (Z.eqb_spec x 120), (Z.eqb_spec x 88); (done || lia)).
      destruct (ds ++ 93 :: rest) as [|h l]; [by rewrite E, Hm|]. rewrite Ex. cbn [andb]. by rewrite E, Hm.
  - split; [|cbn; unfold isdigit; destruct (Z.leb_spec 48 d), (Z.leb_spec d 57); (done || lia)].
    assert (strtol0 ((d :: ds) ++ 93 :: rest) = let '(v, l) := digits 10 0 ((d :: ds) ++ 93 :: rest) in (Z.min v LONG_MAX, l)) as ->.
    { unfold strtol0. cbn [app]. destruct (Z.eqb_spec d 48) as [->|Hd48]; [lia|].
      destruct d as [|p|p]; try lia. repeat (destruct p as [p|p|]; try done; try lia). }
    rewrite digits_decimal by (constructor; [lia|done]). unfold decimal_value in *. by rewrite Hm.
Qed.

Lemma genseq_spec t c o num n rest s : inner_char t c o (42 :: num ++ 93 :: rest) -> count num n -> str s = t ->
  exists s', genseq loc s = Ok s' /\ state s' = (if n =? 0 then INFINITE else SEQUENCE) /\ cnt s' = n /\ lastch s' = c /\ str s' = rest.
Proof.
  intros Hi Hc Es. unfold genseq.
  assert (forall s1, lastch s1 = c -> str s1 = 42 :: num ++ 93 :: rest ->
    exists s', (if negb (first (str s1) =? 42) then Ex MisplacedAsterisk else
      let s := set_str (tail (str s1)) s1 in
      s ← (if first (str s) =? 92 then let '(c, _, s) := backslash s in Ok (set_cnt c s)
           else if first (str s) =? 93 then Ok (set_cnt 0 (set_str (tail (str s)) s))
           else if isdigit (first (str s)) then
             let '(v, ep) := strtol0 (str s) in
             if first ep =? 93 then Ok (set_str (tail ep) (set_cnt (s32 v) s)) else Ex IllegalCount
           else Ex IllegalCount);
      Ok (set_state (if cnt s =? 0 then INFINITE else SEQUENCE) s)) = Ok s' /\
      state s' = (if n =? 0 then INFINITE else SEQUENCE) /\ cnt s' = n /\ lastch s' = c /\ str s' = rest) as Hgen.
  { intros s1 Hl E1. rewrite E1. cbn [first Z.eqb Pos.eqb negb tail str set_str]. destruct (decide (num = [])) as [->|Hne].
    - inversion Hc; subst. cbn. eexists. split; [reflexivity|]. by split_and!.
    - destruct (strtol0_count num n rest Hc Hne) as [E2 Hd]. pose proof (count_bound _ _ Hc).
      assert ((first (num ++ 93 :: rest) =? 92) = false) as -> by (apply Z.eqb_neq; intros E; by rewrite E in Hd).
      assert ((first (num ++ 93 :: rest) =? 93) = false) as -> by (apply Z.eqb_neq; intros E; by rewrite E in Hd).
      rewrite Hd, E2. cbn [first Z.eqb Pos.eqb tail mbind tr_bind]. rewrite s32_small by lia. eexists. split; [reflexivity|]. by split_and!. }
  inversion Hi as [b t' c' k Hb Hm E1 E2|t' c' o' rest' Hbs E1 E2]; subst; rewrite <- ?E1; rewrite <- ?E2; cbn [first].
  - apply Z.eqb_neq in Hb as ->. rewrite Hm. cbn [mbind tr_bind]. by apply Hgen.
  - cbn [Z.eqb Pos.eqb]. rewrite (backslash_spec t' c o _ s Hbs) by (by rewrite <- ?E1, <- ?E2). cbn [mbind tr_bind]. by apply Hgen.
Qed.

Lemma sequence_bracket b w c o num n rest s : b <> 58 -> b <> 61 -> ~ In 42 w -> ~ In 93 w ->
  inner_char (b :: w ++ 42 :: num ++ 93 :: rest) c o (42 :: num ++ 93 :: rest) -> count num n -> state s = NORMAL ->
  str s = 91 :: b :: w ++ 42 :: num ++ 93 :: rest ->
  exists s', next s = next s' /\ state s' = (if n =? 0 then INFINITE else SEQUENCE) /\ cnt s' = n /\ lastch s' = c /\ str s' = rest.
Proof.
  intros N1 N2 H42 H93 Hi Hc Hs Es.
  destruct (genseq_spec _ _ _ _ _ _ (set_str (b :: w ++ 42 :: num ++ 93 :: rest) s) Hi Hc eq_refl) as (s' & E & Hs'). exists s'. split; [|done].
  eapply next_bracket; [done|exact Es|]. unfold bracket. rewrite Es. cbn [first tail]. apply Z.eqb_neq in N1 as ->. apply Z.eqb_neq in N2 as ->. cbn [orb].
  unfold bracket_repeat. assert ((match str s with [_] => behind s | l => drop 2 l end) = w ++ 42 :: num ++ 93 :: rest) as -> by (by rewrite Es). cbv zeta.
  rewrite strpbrk_app; [|intros x Hx [<-|[<-|[]]]; by auto|by left]. rewrite drop_app_length. cbn [first Z.eqb Pos.eqb negb orb].
  rewrite bool_decide_false.
  - rewrite Es. cbn [tail]. by rewrite E.
  - assert (exists a b, 42 :: num ++ 93 :: rest = a ++ 93 :: b /\ ~ In 93 a) as (a & b' & -> & Ha); [|by rewrite strchr_app].
    clear. assert (forall l, In 93 l -> exists a b, l = a ++ 93 :: b /\ ~ In 93 a) as H.
    { intros l. induction l as [|x l IH]; [done|]. intros Hin. destruct (Z.eq_dec x 93) as [->|Hx]; [exists [], l; split; [done|by intros []]|].
      destruct IH as (a & b & -> & Ha); [by destruct Hin|]. exists (x :: a), b. split; [done|]. by intros [?|?]. }
    apply H. right. apply in_app_iff. right. by left.
Qed.

(** The operand's characters are what it denotes. *)
Lemma denotes_says letters text l : denotes letters text l -> forall s, state s = NORMAL -> str s = text -> says letters s l.
Proof.
  intros Hd. induction Hd as [|text c o rest l Hc Hf _ IH|text a o t b o' rest cs l Hc Hi Hr Hne _ IH|text a o t b o' rest l Hc Hi Hr _ IH
    |name rest cs l Hne H93 Hw Hcs Hcne Hl _ IH|w c o rest x l Hne H93 Hi Hx Hx1 Hlen _ IH|b w c o num n rest l N1 N2 H42 H93 Hi Hc Hn _ IH|b w c o num N1 N2 H42 H93 Hi Hc];
    intros s Hs Es.
  - exists []. split; [|done]. apply (gives_end s (set_state EOS s)); [|done..]. rewrite next_eq. unfold Tr.next_body. by rewrite Hs, Es.
  - pose proof (next_char _ _ _ _ s Hc Hs Es) as E. unfold after_char in E. cbn [str set_str] in E. apply Z.eqb_neq in Hf. rewrite Hf in E.
    apply (says_more letters s _ _ E); [eapply going_state; [reflexivity|auto 6]|]. by apply IH.
  - by apply (range_denoted letters text a o t b o' rest cs l s).
  - by apply (hyphen_denoted letters text a o t b o' rest l s).
  - by apply (class_denoted letters name rest cs l s).
  - by apply (equiv_denoted letters w c o rest x l s).
  - destruct (sequence_bracket _ _ _ _ _ _ _ s N1 N2 H42 H93 Hi Hc Hs Es) as (s' & E & Hs' & Hc' & Hl' & Es'). apply Z.eqb_neq in Hn as Hn'. rewrite Hn' in Hs'.
    pose proof (count_bound _ _ Hc). eapply says_next_some; [exact E|destruct (Z.to_nat n) eqn:En; [lia|done]|]. rewrite <- Hl'.
    apply sequence_says; [done|by rewrite Z2Nat.id by lia|lia|]. intros s'' H1 H2. apply IH; [done|congruence].
  - destruct (sequence_bracket _ _ _ _ _ _ _ s N1 N2 H42 H93 Hi Hc Hs Es) as (s' & E & Hs' & Hc' & Hl' & Es'). cbn [Z.eqb] in Hs'.
    eapply says_next_some; [exact E|done|]. set (s1 := set_state NORMAL s').
    assert (next s' = Ok (true, s1)) as E1 by (rewrite next_eq; unfold Tr.next_body; by rewrite Hs', Es').
    rewrite <- Hl'. apply (says_more letters s' s1 _ E1); [eapply going_state; [reflexivity|auto 6]|].
    exists []. split; [|done]. apply (gives_end s1 (set_state EOS s1)); [|done..]. rewrite next_eq. unfold Tr.next_body. unfold s1. cbn. by rewrite Es'.
Qed.

End TrStr.
