(* ===== verification/TrFacts.v ===== *)
(** * tr: the loops of main

    The sets, the map and the filters in terms of the characters that the operands denote. *)

From Stdlib Require Import ZArith Lia List Bool.
From stdpp Require Import base tactics list numbers gmap.
From S2P Require Import Prelude TrSet TrSetFacts Tr TrStr.
Import Cset Cmap CsetFacts CmapFacts.

Local Open Scope Z_scope.
Local Open Scope list_scope.

(** ** What the filters do *)

(** Of equal characters in a row, one is left if the set has them. *)
Fixpoint squeeze (S : Z -> bool) (l : list Z) : list Z :=
  match l with
  | [] => []
  | c :: l => match squeeze S l with
              | d :: r => if (c =? d) && S c then d :: r else c :: d :: r
              | [] => [c]
              end
  end.

(** The pairs of two operands: [d] and then [l2] for the characters of [l1], the last one repeated. *)
Fixpoint pair_up (l1 : list Z) (d : Z) (l2 : list Z) : list (Z * Z) :=
  match l1 with
  | [] => []
  | c :: l1 => (c, d) :: match l2 with [] => pair_up l1 d [] | e :: l2 => pair_up l1 e l2 end
  end.
(** The last pair of a character counts. *)
Fixpoint image (ps : list (Z * Z)) (c : Z) : option Z :=
  match ps with
  | [] => None
  | (a, b) :: ps => match image ps c with Some x => Some x | None => if a =? c then Some b else None end
  end.

(** How many characters in front of [c] are not in [l]. *)
Definition mem (l : list Z) (c : Z) : bool := existsb (Z.eqb c) l.
Definition rank (l : list Z) (c : Z) : nat := length (List.filter (fun x => negb (mem l x)) (seqZ 0 c)).

Section TrFacts.
Context (loc : locale) (Hloc : locale_ok loc).
Implicit Types s : STR.

Abbreviation next := (next loc).
Abbreviation iswctype := (Tr.iswctype loc).
Abbreviation member := (member iswctype).
Abbreviation is_set := (is_set iswctype).
Abbreviation char c := (0 <= c < Tr.WCHAR_MAX).

Lemma mem_in l c : mem l c = true <-> In c l.
Proof. unfold mem. apply existsb_eq. Qed.

(** *** Operands *)

Lemma class_chars_bound cls c l : class_chars loc cls c l -> Forall (fun c => char c) l.
Proof.
  induction 1 as [|c l Hn _ IH]; constructor; [|done]. destruct (ok_nextwctype loc Hloc c cls) as [|[H1 H2]]; [done|lia].
Qed.

Lemma denotes_bound letters text l : denotes loc letters text l -> Forall (fun c => char c) l.
Proof.
  induction 1 as [|text c o rest l Hc Hf _ IH|text a o t b o' rest cs l Hc Hi Hr Hne _ IH|text a o t b o' rest l Hc Hi Hr _ IH
    |name rest cs l Hne H93 Hw Hcs Hcne Hl _ IH|w c o rest x l Hne H93 Hi Hx Hx1 Hlen _ IH|b w c o num n rest l N1 N2 H42 H93 Hi Hc Hn _ IH|b w c o num N1 N2 H42 H93 Hi Hc].
  - done.
  - constructor; [by eapply one_char_bound|done].
  - apply List.Forall_app. split; [|done]. pose proof (one_char_bound _ Hloc _ _ _ _ Hc). pose proof (inner_char_bound _ Hloc _ _ _ _ Hi). unfold range_chars in Hr.
    apply List.Forall_forall. intros x Hx. destruct (o || o' || _); [destruct (b <? a); [done|]|destruct (charcoll loc b a <? 0); [done|]]; injection Hr as <-.
    + apply list_elem_of_In, elem_of_seqZ in Hx. lia.
    + apply range_set_in in Hx. unfold Tr.WCHAR_MAX. lia.
  - constructor; [by eapply one_char_bound|done].
  - apply List.Forall_app. split; [by eapply class_chars_bound|done].
  - constructor; [by eapply inner_char_bound|]. apply List.Forall_app. split; [|done]. apply List.Forall_forall. intros y [Hy _]%filter_In.
    apply list_elem_of_In, elem_of_seqZ in Hy. unfold Tr.WCHAR_MAX. lia.
  - apply List.Forall_app. split; [|done]. apply List.Forall_forall. intros y Hy%list_elem_of_In. apply elem_of_replicate in Hy as [-> _]. by eapply inner_char_bound.
  - constructor; [by eapply inner_char_bound|done].
Qed.

(** Behind the end nothing comes. *)
Lemma next_EOS s : state s = EOS -> next s = Ok (false, s).
Proof. intros Hs. rewrite next_eq. unfold Tr.next_body. by rewrite Hs. Qed.
Lemma gives_EOS s : state s = EOS -> gives loc s [].
Proof. intros Hs. by apply (gives_end loc s s); [apply next_EOS|..]. Qed.

Lemma start_says letters text after l : denotes loc letters text l -> says loc letters (start_str text after) l.
Proof. intros H. by eapply denotes_says. Qed.

(** *** Sets *)

Lemma union_swap (A B C : gset Z) : A ∪ (B ∪ C) = B ∪ A ∪ C.
Proof. by rewrite (assoc_L (∪)), (comm_L (∪) A B). Qed.

Lemma is_set_chars cs A B k i : A = B -> is_set cs {| chars := A; classes := k; inverted := i |} -> is_set cs {| chars := B; classes := k; inverted := i |}.
Proof. by intros ->. Qed.

Lemma setup_loop_set ss : forall s cs X fuel, gives loc s ss -> Forall (fun c => char c) (map lastch ss) -> is_set cs X -> (length ss < fuel)%nat ->
  exists cs', setup_loop loc fuel cs s = Ok cs' /\ is_set cs' {| chars := list_to_set (map lastch ss) ∪ chars X; classes := classes X; inverted := inverted X |}.
Proof.
  induction ss as [|s' ss IH]; intros s cs X fuel Hg Hb HX Hf; (destruct fuel as [|fuel]; [cbn in Hf; lia|]); cbn [setup_loop].
  - inversion Hg as [s0 s1 E|]; subst. rewrite E. cbn. exists cs. split; [done|]. rewrite (left_id_L ∅ (∪)). by destruct X.
  - inversion Hg as [|s0 s1 l E Hg']; subst. rewrite E. cbn [mbind tr_bind]. cbn in Hb. rewrite List.Forall_cons_iff in Hb. destruct Hb as [Hb Hbs].
    destruct (cset_add_set iswctype cs X (lastch s') HX Hb) as (cs1 & -> & H1). cbn [checked mbind tr_bind].
    destruct (IH s' cs1 _ fuel Hg' Hbs H1 ltac:(cbn in Hf; lia)) as (cs' & E' & H'). exists cs'. split; [done|].
    eapply is_set_chars; [|exact H']. cbn. apply union_swap.
Qed.

(** The set of an operand, with the complements. *)
Definition in_operand (c C : bool) (l : list Z) (ch : Z) : bool :=
  if C then iswctype ch (wctype loc rune_text) && negb (mem l ch) else if c then negb (mem l ch) else mem l ch.

Lemma member_list l (A : gset Z) ch : A = list_to_set l -> bool_decide (ch ∈ A) = mem l ch.
Proof.
  intros ->. apply eq_true_iff_eq. rewrite bool_decide_eq_true, mem_in, elem_of_list_to_set. by rewrite list_elem_of_In.
Qed.

(** A set that answers as [S] does. *)
Definition answers (cs : cset) (S : Z -> bool) : Prop := exists X, is_set cs X /\ forall ch, member X ch = S ch.

Lemma answers_in cs S ch : answers cs S -> 0 <= ch -> exists cs', cset_in iswctype cs ch = Some (S ch, cs') /\ answers cs' S.
Proof.
  intros (X & HX & HS) Hch. destruct (cset_in_set iswctype cs X ch HX Hch) as (cs' & E & H'). exists cs'. rewrite <- HS. split; [done|by exists X].
Qed.

Lemma setup_answers letters fuel arg after c C l : denotes loc letters arg l -> (length l < fuel)%nat ->
  exists cs, setup loc fuel arg after c C = Ok cs /\ answers cs (in_operand c C l).
Proof.
  intros Hd Hf. destruct (start_says _ _ after _ Hd) as (ss & Hg & Hl & _). unfold setup.
  destruct (setup_loop_set ss (start_str arg after) cset_alloc {| chars := ∅; classes := []; inverted := false |} fuel Hg) as (cs & -> & HX); [rewrite Hl; by eapply denotes_bound|apply cset_alloc_set|by rewrite <- Hl, length_map in Hf|].
  cbn [mbind tr_bind chars classes inverted] in *. rewrite Hl, (right_id_L ∅ (∪)) in HX.
  assert (exists X, is_set (if c || C then cset_invert (if C then cset_addclass cs (wctype loc rune_text) true else cs) else
      if C then cset_addclass cs (wctype loc rune_text) true else cs) X /\ forall ch, member X ch = in_operand c C l ch) as (X & H1 & H2).
  { destruct C.
    - rewrite orb_true_r. eexists. split; [by apply cset_invert_set, cset_addclass_set|]. intros ch. unfold CsetFacts.member, in_operand. cbn [chars classes inverted existsb].
      rewrite (member_list l) by done. cbn. rewrite orb_false_r. by destruct (Tr.iswctype loc ch _), (mem l ch).
    - rewrite orb_false_r. destruct c.
      + eexists. split; [by apply cset_invert_set|]. intros ch. unfold CsetFacts.member, in_operand. cbn [chars classes inverted existsb]. by rewrite (member_list l) by done.
      + eexists. split; [done|]. intros ch. unfold CsetFacts.member, in_operand. cbn [chars classes inverted existsb]. rewrite (member_list l) by done. by destruct (mem l ch). }
  destruct (cset_cache_set iswctype _ X H1) as (cs' & -> & H'). exists cs'. split; [done|by exists X].
Qed.

(** *** Filters *)

Lemma delete_only_spec S input : forall cs, answers cs S -> Forall (fun c => 0 <= c) input -> delete_only loc cs input = Ok (List.filter (fun c => negb (S c)) input).
Proof.
  induction input as [|ch input IH]; intros cs HS Hi; [done|]. rewrite List.Forall_cons_iff in Hi. destruct Hi as [Hc Hi]. cbn [delete_only List.filter].
  destruct (answers_in cs S ch HS Hc) as (cs' & -> & H'). cbn [checked mbind tr_bind]. rewrite (IH cs' H' Hi). cbn. by destruct (S ch).
Qed.

(** Squeezing behind a character that was written. *)
Definition squeeze_after (S : Z -> bool) (last : Z) (l : list Z) : list Z :=
  match squeeze S l with d :: r => if (last =? d) && S d then r else d :: r | [] => [] end.

Lemma squeeze_head S c l : exists r, squeeze S (c :: l) = c :: r.
Proof. cbn. destruct (squeeze S l) as [|d r]; [by eexists|]. destruct (Z.eqb_spec c d) as [->|]; cbn; [|by eexists]. destruct (S d); by eexists. Qed.

Lemma squeeze_cons S c l : squeeze S (c :: l) = c :: squeeze_after S c l.
Proof. unfold squeeze_after. cbn. destruct (squeeze S l) as [|d r]; [done|]. destruct (Z.eqb_spec c d) as [->|]; cbn; [|done]. by destruct (S d). Qed.

Lemma squeeze_after_cons S last c l : squeeze_after S last (c :: l) = if (last =? c) && S c then squeeze_after S c l else c :: squeeze_after S c l.
Proof. unfold squeeze_after at 1. rewrite squeeze_cons. destruct ((last =? c) && S c); done. Qed.

Lemma squeeze_after_none S l : Forall (fun c => 0 <= c) l -> squeeze_after S OOBCH l = squeeze S l.
Proof.
  destruct l as [|c l]; [done|]. intros Hl. rewrite List.Forall_cons_iff in Hl. destruct Hl as [Hc _]. rewrite squeeze_after_cons, squeeze_cons.
  destruct (Z.eqb_spec OOBCH c) as [<-|]; [unfold OOBCH in Hc; lia|done].
Qed.

(** The question that the three loops put to the set. *)
Lemma repeated_spec cs S last ch : answers cs S -> 0 <= ch ->
  exists cs', (if negb (last =? ch) then Ok (false, cs) else checked (cset_in iswctype cs ch)) = (Ok ((last =? ch) && S ch, cs') : res tr_error _) /\ answers cs' S.
Proof.
  intros HS Hc. destruct (last =? ch); cbn [negb andb]; [|by exists cs]. destruct (answers_in cs S ch HS Hc) as (cs' & -> & H'). by exists cs'.
Qed.

Lemma squeeze_only_spec S input : forall cs last, answers cs S -> Forall (fun c => 0 <= c) input -> squeeze_only loc cs last input = Ok (squeeze_after S last input).
Proof.
  induction input as [|ch input IH]; intros cs last HS Hi; [done|]. rewrite List.Forall_cons_iff in Hi. destruct Hi as [Hc Hi]. cbn [squeeze_only]. rewrite squeeze_after_cons.
  destruct (repeated_spec cs S last ch HS Hc) as (cs' & -> & H'). cbn [mbind tr_bind]. destruct ((last =? ch) && S ch) eqn:E.
  - apply andb_true_iff in E as [->%Z.eqb_eq _]. by apply IH.
  - by rewrite (IH cs' ch H' Hi).
Qed.

Lemma delete_squeeze_spec D S input : forall de cs last, answers de D -> answers cs S -> Forall (fun c => 0 <= c) input ->
  delete_squeeze loc de cs last input = Ok (squeeze_after S last (List.filter (fun c => negb (D c)) input)).
Proof.
  induction input as [|ch input IH]; intros de cs last HD HS Hi; [done|]. rewrite List.Forall_cons_iff in Hi. destruct Hi as [Hc Hi]. cbn [delete_squeeze List.filter].
  destruct (answers_in de D ch HD Hc) as (de' & -> & HD'). cbn [checked mbind tr_bind]. destruct (D ch); cbn [negb]; [by apply IH|]. rewrite squeeze_after_cons.
  destruct (repeated_spec cs S last ch HS Hc) as (cs' & -> & H'). cbn [mbind tr_bind]. destruct ((last =? ch) && S ch) eqn:E.
  - apply andb_true_iff in E as [->%Z.eqb_eq _]. by apply IH.
  - by rewrite (IH de' cs' ch HD' H' Hi).
Qed.

(** *** Pairs *)

Definition insert_all (ps : list (Z * Z)) (m : gmap Z Z) : gmap Z Z := fold_left (fun m p => <[p.1 := p.2]> m) ps m.

Lemma insert_all_lookup ps : forall m c, insert_all ps m !! c = match image ps c with Some x => Some x | None => m !! c end.
Proof.
  induction ps as [|[a b] ps IH]; intros m c; [done|]. cbn. fold (insert_all ps (<[a := b]> m)). rewrite IH. destruct (image ps c); [done|].
  destruct (Z.eqb_spec a c) as [->|]; [by rewrite lookup_insert_eq|by rewrite lookup_insert_ne].
Qed.

Lemma pair_up_fst l1 : forall d l2, map fst (pair_up l1 d l2) = l1.
Proof. induction l1 as [|c l1 IH]; intros d l2; [done|]. cbn. destruct l2; cbn; by rewrite IH. Qed.

Lemma image_in ps c : (is_Some (image ps c) <-> In c (map fst ps)) /\ forall x, image ps c = Some x -> In x (map snd ps).
Proof.
  induction ps as [|[a b] ps [IH1 IH2]]; [split; [split; [by intros [? ?]|done]|done]|]. cbn. destruct (image ps c) as [y|].
  - split; [|intros x [= <-]; right; by apply IH2]. split; [intros _; right; by apply IH1|done].
  - destruct (Z.eqb_spec a c) as [->|Hac].
    + split; [|intros x [= <-]; by left]. split; [by left|done].
    + split; [|done]. split; [by intros [? ?]|]. intros [->|H]; [done|]. by apply IH1 in H.
Qed.

Lemma pair_up_snd l1 : forall d l2 x, In x (map snd (pair_up l1 d l2)) -> x = d \/ In x l2.
Proof.
  induction l1 as [|c l1 IH]; intros d l2 x H; [done|]. cbn in H. destruct H as [<-|H]; [by left|]. destruct l2 as [|e l2]; [by apply IH|].
  apply IH in H as [->|H]; right; [by left|by right].
Qed.

Lemma is_map_mapped cm m m' d : m = m' -> is_map cm {| mapped := m; default := d |} -> is_map cm {| mapped := m'; default := d |}.
Proof. by intros ->. Qed.

(** An operand without classes of letters, at a character with [l] behind it; at the end it stays there. *)
Definition plain_at s (l : list Z) : Prop := says loc false s l /\ ~ case_class s /\ char (lastch s) /\ Forall (fun c => char c) l.

Lemma plain_next s l : plain_at s l -> exists b s', next s = Ok (b, s') /\
  plain_at s' (tail l) /\ lastch s' = match l with [] => lastch s | e :: _ => e end.
Proof.
  intros ((ss & Hg & Hl & Hq) & Hc & Hd & Hb). destruct Hg as [s s' E El Ee|s s' ss E Hg]; subst l.
  - exists false, s'. split; [done|]. split; [|done]. split; [exists []; split; [by apply gives_EOS|done]|]. split; [|by rewrite El].
    unfold case_class. rewrite Ee. by intros [?|?].
  - cbn in *. rewrite List.Forall_cons_iff in Hb, Hq. destruct Hb as [Hb Hbs], Hq as [(_ & _ & Hq) Hqs].
    exists true, s'. split; [done|]. split; [|done]. split; [by exists ss|]. split; [by apply Hq|done].
Qed.

Lemma add_pair_spec sq from to map0 sq0 X Y : is_map map0 X -> is_set sq0 Y -> char to ->
  exists map1 sq1, add_pair sq from to map0 sq0 = Ok (map1, sq1) /\
    is_map map1 {| mapped := <[from := to]> (mapped X); default := default X |} /\
    is_set sq1 {| chars := if sq then {[to]} ∪ chars Y else chars Y; classes := classes Y; inverted := inverted Y |}.
Proof.
  intros HX HY Hd. unfold add_pair. destruct (cmap_add_map map0 X from to HX) as (map1 & -> & HX1). cbn [checked mbind tr_bind]. destruct sq.
  - destruct (cset_add_set iswctype sq0 Y to HY Hd) as (sq1 & -> & HY1). by exists map1, sq1.
  - exists map1, sq0. split; [done|]. split; [done|]. by destruct Y.
Qed.

Lemma plain_branch s1 s2 l : plain_at s2 l ->
  ((bool_decide (state s1 = CCLASS_LOWER) && bool_decide (state s2 = CCLASS_UPPER)) || (bool_decide (state s1 = CCLASS_UPPER) && bool_decide (state s2 = CCLASS_LOWER)))
    && (cnt s1 =? 1) && (cnt s2 =? 1) = false.
Proof.
  intros (_ & Hc & _). rewrite (bool_decide_false (state s2 = CCLASS_UPPER)), (bool_decide_false (state s2 = CCLASS_LOWER)), !andb_false_r; [done|..];
    intros H; apply Hc; [by right|by left].
Qed.

Lemma pair_loop_plain ss1 : forall s1 s2 l2 map0 sq0 X Y fuel sq, gives loc s1 ss1 -> plain_at s2 l2 -> is_map map0 X -> is_set sq0 Y -> (length ss1 < fuel)%nat ->
  let ps := pair_up (lastch s1 :: map lastch ss1) (lastch s2) l2 in
  exists s2' map' sq', pair_loop loc fuel sq s1 s2 map0 sq0 = Ok (s2', map', sq') /\
    is_map map' {| mapped := insert_all ps (mapped X); default := default X |} /\
    is_set sq' {| chars := if sq then list_to_set (map snd ps) ∪ chars Y else chars Y; classes := classes Y; inverted := inverted Y |}.
Proof.
  induction ss1 as [|t1 ss1 IH]; intros s1 s2 l2 map0 sq0 X Y fuel sq Hg1 H2 HX HY Hf; (destruct fuel as [|fuel]; [cbn in Hf; lia|]); cbn [pair_loop]; cbv zeta.
  all: rewrite (plain_branch s1 s2 l2 H2).
  all: destruct (add_pair_spec sq (lastch s1) (lastch s2) map0 sq0 X Y HX HY) as (map1 & sq1 & -> & HX1 & HY1); [apply H2|].
  all: destruct (plain_next s2 l2 H2) as (b & s2' & E2 & H2' & El2); cbn [mbind tr_bind]; rewrite E2; cbn [mbind tr_bind].
  - inversion Hg1 as [s s1' E El Ee|]; subst. rewrite E. cbn [mbind tr_bind]. exists s2', map1, sq1. split; [done|].
    assert (pair_up (lastch s1 :: map lastch []) (lastch s2) l2 = [(lastch s1, lastch s2)]) as -> by (by destruct l2). split; [done|].
    eapply is_set_chars; [|exact HY1]. destruct sq; [|done]. cbn. by rewrite (right_id_L ∅ (∪)).
  - inversion Hg1 as [|s s1' ss E Hg1']; subst. rewrite E. cbn [mbind tr_bind].
    destruct (IH t1 s2' (tail l2) map1 sq1 _ _ fuel sq Hg1' H2' HX1 HY1 ltac:(cbn in Hf; lia)) as (s2'' & map' & sq' & Ep & HX' & HY').
    exists s2'', map', sq'. split; [done|].
    assert (pair_up (lastch s1 :: map lastch (t1 :: ss1)) (lastch s2) l2 = (lastch s1, lastch s2) :: pair_up (lastch t1 :: map lastch ss1) (lastch s2') (tail l2)) as ->
      by (rewrite El2; by destruct l2).
    split; [exact HX'|]. eapply is_set_chars; [|exact HY']. destruct sq; [|done]. cbn. apply union_swap.
Qed.

(** *** Translating *)

(** A map that takes the characters where [f] does. *)
Definition takes (cm : cmap) (f : Z -> Z) : Prop := exists X, is_map cm X /\ forall ch, char ch -> lookup_abs X ch = f ch.

Lemma takes_lookup cm f ch : takes cm f -> char ch -> exists cm', cmap_lookup cm ch = Some (f ch, cm') /\ takes cm' f.
Proof.
  intros (X & HX & Hf) Hch. destruct (cmap_lookup_map cm X ch HX ltac:(lia)) as (cm' & E & H' & _). exists cm'. rewrite <- Hf by done. split; [done|by exists X].
Qed.

Lemma translate_spec f input : forall cm, takes cm f -> Forall (fun c => char c) input -> translate loc false cm input = Ok (map f input).
Proof.
  induction input as [|ch input IH]; intros cm Hm Hi; [done|]. rewrite List.Forall_cons_iff in Hi. destruct Hi as [Hc Hi]. cbn [translate].
  unfold translate_char. cbn [negb orb]. destruct (takes_lookup cm f ch Hm Hc) as (cm' & -> & H'). cbn [checked mbind tr_bind]. by rewrite (IH cm' H' Hi).
Qed.

Lemma translate_squeeze_spec f S input : forall cm cs last, takes cm f -> answers cs S -> Forall (fun c => char c) input -> (forall c, char c -> 0 <= f c) ->
  translate_squeeze loc false cm cs last input = Ok (squeeze_after S last (map f input)).
Proof.
  induction input as [|ch input IH]; intros cm cs last Hm HS Hi Hf; [done|]. rewrite List.Forall_cons_iff in Hi. destruct Hi as [Hc Hi]. cbn [translate_squeeze map].
  unfold translate_char. cbn [negb orb]. destruct (takes_lookup cm f ch Hm Hc) as (cm' & -> & Hm'). cbn [checked mbind tr_bind]. rewrite squeeze_after_cons.
  destruct (repeated_spec cs S last (f ch) HS (Hf ch Hc)) as (cs' & -> & HS'). cbn [mbind tr_bind]. destruct ((last =? f ch) && S (f ch)) eqn:E.
  - apply andb_true_iff in E as [->%Z.eqb_eq _]. by apply IH.
  - by rewrite (IH cm' cs' (f ch) Hm' HS' Hi Hf).
Qed.

(** *** The complement *)

Lemma rank_succ l c : 0 <= c -> rank l (c + 1) = (rank l c + if mem l c then 0 else 1)%nat.
Proof.
  intros Hc. unfold rank. rewrite seqZ_app by lia. rewrite List.filter_app, length_app, Z.add_0_l. f_equal.
  replace (seqZ c 1) with [c] by (by rewrite seqZ_cons by lia). cbn [List.filter]. by destruct (mem l c).
Qed.

Lemma rank_mono l c d : 0 <= c <= d -> (rank l c <= rank l d)%nat.
Proof.
  intros H. unfold rank. replace d with (c + (d - c)) by lia. rewrite seqZ_app by lia. rewrite List.filter_app, length_app. lia.
Qed.

Lemma rank_least l c : 0 <= c -> c <= Z.of_nat (rank l c) + Z.of_nat (length l).
Proof.
  intros Hc. unfold rank.
  assert (length (List.filter (mem l) (seqZ 0 c)) <= length l)%nat as Hle.
  { apply NoDup_incl_length; [apply List.NoDup_filter, NoDup_ListNoDup, NoDup_seqZ|]. intros x [_ Hx]%filter_In. by apply mem_in. }
  assert (length (seqZ 0 c) = (length (List.filter (mem l) (seqZ 0 c)) + length (List.filter (fun x => negb (mem l x)) (seqZ 0 c)))%nat) as E by (symmetry; apply filter_length).
  rewrite length_seqZ in E. lia.
Qed.

Lemma leaf_or_not {V} (t : tree V) : t = Leaf \/ t <> Leaf.
Proof. destruct t; [by left|by right]. Qed.

Section Complement.
Context (l1 l2 : list Z) (ps : list (Z * Z)) (sq : bool).
Hypothesis (Hl2 : l2 <> []) (H1 : Forall (fun c => char c) l1) (H2 : Forall (fun c => char c) l2).
Hypothesis (Hps : map fst ps = l1) (Hpv : forall x, In x (map snd ps) -> In x l2).

Abbreviation final := (List.last l2 0).

(** What the map says when the characters below [c] are done. *)
Definition done_below (c x : Z) : option Z :=
  if mem l1 x then (if x <? c then Some x else image ps x)
  else if (0 <=? x) && (x <? c) then l2 !! rank l1 x else None.

Record below_done (c : Z) (s2 : STR) (map0 : cmap) (sq0 : cset) : Prop := {
  done_map : exists m, is_map map0 {| mapped := m; default := OOBCH |} /\ forall x, m !! x = done_below c x;
  done_says : says loc false s2 (drop (rank l1 c) l2);
  done_last : (0 < rank l1 c)%nat -> lastch s2 = List.last (take (rank l1 c) l2) 0;
  done_state : state s2 <> INFINITE /\ (state s2 = EOS <-> (length l2 < rank l1 c)%nat);
  done_set : exists Y, is_set sq0 Y /\ classes Y = [] /\ inverted Y = false /\ (forall x, x ∈ chars Y -> In x l2) /\
    (sq = true -> forall x, In x (take (rank l1 c) l2) -> x ∈ chars Y) }.

Lemma image_l1 x : is_Some (image ps x) <-> mem l1 x = true.
Proof. rewrite mem_in, <- Hps. apply image_in. Qed.

Lemma done_below_step c x : 0 <= c -> done_below (c + 1) x = if x =? c then (if mem l1 c then Some c else l2 !! rank l1 c) else done_below c x.
Proof.
  intros Hc. unfold done_below. destruct (Z.eqb_spec x c) as [->|Hx].
  - destruct (Z.ltb_spec c (c + 1)); [|lia]. destruct (Z.leb_spec 0 c); [|lia]. by destruct (mem l1 c).
  - assert ((x <? c + 1) = (x <? c)) as -> by (destruct (Z.ltb_spec x (c + 1)), (Z.ltb_spec x c); lia). done.
Qed.

Lemma done_below_at c : 0 <= c -> match done_below c c with Some v => mem l1 c = true /\ char v | None => mem l1 c = false end.
Proof.
  intros Hc. unfold done_below. rewrite Z.ltb_irrefl, andb_false_r. destruct (mem l1 c) eqn:E; [|done].
  apply image_l1 in E as [v Ev]. rewrite Ev. split; [done|]. apply image_in, Hpv in Ev. rewrite List.Forall_forall in H2. by apply H2.
Qed.

Lemma last_drop_take n : (n < length l2)%nat -> List.last (take (S n) l2) 0 = List.nth n l2 0 /\ drop n l2 = List.nth n l2 0 :: drop (S n) l2.
Proof.
  clear. revert n. induction l2 as [|a l IH]; intros n Hn; [cbn in Hn; lia|]. destruct n as [|n]; [done|]. cbn in Hn. destruct (IH n ltac:(lia)) as [E1 E2].
  split; [|exact E2]. cbn [take nth]. rewrite <- E1. destruct l; [cbn in Hn; lia|done].
Qed.

Lemma step_known c s2 map0 sq0 map1 : below_done c s2 map0 sq0 -> 0 <= c -> mem l1 c = true -> cmap_add map0 c c = Some map1 -> below_done (c + 1) s2 map1 sq0.
Proof.
  intros [(m & Hm & Hv) Hs Hl Hst Hset] Hc Hin E. pose proof (rank_succ l1 c Hc) as Er. rewrite Hin, Nat.add_0_r in Er.
  split; rewrite ?Er; try done. destruct (cmap_add_map map0 _ c c Hm) as (map1' & E' & Hm'). rewrite E in E'. injection E' as <-.
  eexists. split; [exact Hm'|]. intros x. cbn [mapped]. rewrite done_below_step, Hin by done. destruct (Z.eqb_spec x c) as [->|]; [by rewrite lookup_insert_eq|by rewrite lookup_insert_ne].
Qed.

Lemma set_step (Y : aset) x n sq0 : is_set sq0 Y -> classes Y = [] -> inverted Y = false -> (forall y, y ∈ chars Y -> In y l2) -> In x l2 ->
  (sq = true -> forall y, In y (take n l2) -> y = x \/ y ∈ chars Y) ->
  exists sq1, (if sq then checked (cset_add sq0 x) else Ok sq0) = (Ok sq1 : res tr_error _) /\
    exists Y, is_set sq1 Y /\ classes Y = [] /\ inverted Y = false /\ (forall y, y ∈ chars Y -> In y l2) /\ (sq = true -> forall y, In y (take n l2) -> y ∈ chars Y).
Proof.
  intros HY Hc Hi Hin Hx Ht. destruct sq.
  - rewrite List.Forall_forall in H2. destruct (cset_add_set iswctype sq0 Y x HY (H2 x Hx)) as (sq1 & -> & HY1). exists sq1. split; [done|].
    eexists. split; [exact HY1|]. cbn [chars classes inverted]. split_and!; try done.
    + intros y. rewrite elem_of_union, elem_of_singleton. intros [->|Hy]; [done|by apply Hin].
    + intros _ y Hy. rewrite elem_of_union, elem_of_singleton. by apply Ht.
  - exists sq0. split; [done|]. exists Y. by split_and!.
Qed.

Definition other_step (c : Z) (s2 : STR) (map0 : cmap) (sq0 : cset) : res tr_error (STR * cmap * cset) :=
  '(b, s2) ← next s2;
  map ← (if (b : bool) then checked (cmap_add map0 c (lastch s2)) else Ok map0);
  squeeze ← (if sq then checked (cset_add sq0 (lastch s2)) else Ok sq0);
  Ok (s2, map, squeeze).

Lemma nth_some (l : list Z) i : (i < length l)%nat -> l !! i = Some (List.nth i l 0).
Proof. revert i. induction l as [|a l IH]; intros [|i] H; cbn in H |- *; try lia; [done|]. apply IH. lia. Qed.

Lemma last_in (l : list Z) : l <> [] -> In (List.last l 0) l.
Proof. induction l as [|a [|b l] IH]; intros H; [done|by left|]. right. by apply IH. Qed.

Lemma step_unknown c s2 map0 sq0 : below_done c s2 map0 sq0 -> 0 <= c -> mem l1 c = false ->
  exists s2' map1 sq1, other_step c s2 map0 sq0 = Ok (s2', map1, sq1) /\ below_done (c + 1) s2' map1 sq1.
Proof.
  intros [(m & Hm & Hv) Hs Hl [Hst1 Hst2] (Y & HY & HYc & HYi & HYin & HYt)] Hc Hin. pose proof (rank_succ l1 c Hc) as Er. rewrite Hin in Er.
  unfold other_step. destruct Hs as (ss & Hg & Hss & Hq). destruct (Nat.lt_ge_cases (rank l1 c) (length l2)) as [Hr|Hr].
  - destruct (last_drop_take _ Hr) as [Et Ed]. set (x := List.nth (rank l1 c) l2 0) in *. rewrite Ed in Hss.
    assert (In x l2) as Hx by (by apply nth_In). destruct Hg as [|s2 s2' ss En Hg]; [done|]. injection Hss as El Hss. rewrite List.Forall_cons_iff in Hq. destruct Hq as [Hq Hqs].
    rewrite En. cbn [mbind tr_bind]. rewrite El. destruct (cmap_add_map map0 _ c x Hm) as (map1 & -> & Hm1). cbn [checked mbind tr_bind].
    destruct (set_step Y x (S (rank l1 c)) sq0 HY HYc HYi HYin Hx) as (sq1 & -> & HY1).
    { intros Hsq y Hy. assert (take (S (rank l1 c)) l2 = take (rank l1 c) l2 ++ [x]) as E.
      { rewrite (take_S_r _ _ x); [done|]. by apply nth_some. }
      rewrite E in Hy. apply in_app_iff in Hy as [Hy|[<-|[]]]; [right; by apply HYt|by left]. }
    cbn [mbind tr_bind]. exists s2', map1, sq1. split; [done|]. destruct Hq as (Hq1 & Hq2 & _).
    split; rewrite ?Er, ?Nat.add_1_r; try done.
    + eexists. split; [exact Hm1|]. intros y. cbn [mapped]. rewrite done_below_step, Hin by done. destruct (Z.eqb_spec y c) as [->|]; [|by rewrite lookup_insert_ne].
      rewrite lookup_insert_eq. symmetry. by apply nth_some.
    + exists ss. by rewrite Hss.
    + intros _. by rewrite El, Et.
    + split; [done|]. split; [done|lia].
  - assert (drop (rank l1 c) l2 = []) as Ed by (by apply drop_ge). rewrite Ed in Hss. destruct Hg as [s2 s2' En El Ee|]; [|done].
    assert (0 < rank l1 c)%nat as Hpos by (destruct l2; [done|cbn in Hr; lia]). specialize (Hl Hpos). rewrite take_ge in Hl by done.
    rewrite En. cbn [mbind tr_bind]. rewrite El, Hl.
    destruct (set_step Y final (rank l1 c + 1) sq0 HY HYc HYi HYin (last_in l2 Hl2)) as (sq1 & -> & HY1).
    { intros Hsq y Hy. right. apply HYt; [done|]. rewrite take_ge in Hy |- * by lia. done. }
    cbn [mbind tr_bind]. exists s2', map0, sq1. split; [done|].
    split; rewrite ?Er; try done.
    + exists m. split; [done|]. intros y. rewrite done_below_step, Hin, Hv by done. destruct (Z.eqb_spec y c) as [->|]; [|done].
      unfold done_below. rewrite Hin, Z.ltb_irrefl, andb_false_r. symmetry. by apply lookup_ge_None.
    + rewrite drop_ge by lia. exists []. split; [by apply gives_EOS|done].
    + intros _. by rewrite El, take_ge by lia.
    + rewrite Ee. split; [done|]. split; [lia|done].
Qed.

Lemma complement_loop_spec n : forall fuel c s2 map0 sq0 B, below_done c s2 map0 sq0 -> 0 <= c < B -> (Z.to_nat (B - c) <= n)%nat -> (n <= fuel)%nat ->
  B <= Tr.WCHAR_MAX -> (forall x, In x l1 -> x < B) -> Z.of_nat (length l1 + length l2) + 1 <= B ->
  exists c' s2' map' sq', complement_loop loc fuel false sq c s2 map0 sq0 = Ok (s2', map', sq') /\ 0 <= c' /\
    below_done (c' + 1) s2' map' sq' /\ (length l2 < rank l1 (c' + 1))%nat /\ forall x, In x l1 -> x <= c'.
Proof.
  induction n as [|n IH]; intros fuel c s2 map0 sq0 B Hd Hc Hn Hf HB Hl1 Hlen; [lia|]. destruct fuel as [|fuel]; [lia|]. cbn [complement_loop].
  destruct (Z.ltb_spec c Tr.WCHAR_MAX) as [_|]; [|lia]. cbn [negb andb].
  assert (exists x map1, cmap_lookup map0 c = Some (x, map1) /\ below_done c s2 map1 sq0 /\ (x =? OOBCH) = negb (mem l1 c)) as (x & map1 & -> & Hd1 & Hx).
  { destruct Hd as [(m & Hm & Hv) Hs Hl Hst Hset]. destruct (cmap_lookup_map map0 _ c Hm ltac:(lia)) as (map1 & E & Hm1 & _). eexists _, map1. split; [exact E|].
    split; [split; try done; by exists m|]. unfold lookup_abs. cbn [mapped default]. rewrite Hv. pose proof (done_below_at c ltac:(lia)) as Ha.
    destruct (done_below c c) as [v|]; [destruct Ha as [-> Ha]|by rewrite Ha]. cbn. apply Z.eqb_neq. unfold OOBCH. lia. }
  cbn [checked mbind tr_bind]. rewrite Hx.
  assert (exists s2' map2 sq2,
    (if negb (mem l1 c) then other_step c s2 map1 sq0 else mbind (M := res tr_error) (fun map => Ok (s2, map, sq0)) (checked (cmap_add map1 c c))) = Ok (s2', map2, sq2) /\
    below_done (c + 1) s2' map2 sq2) as (s2' & map2 & sq2 & E & Hd2).
  { destruct (mem l1 c) eqn:Em; cbn [negb].
    - destruct Hd1 as [(m & Hm & Hv) Hs Hl Hst Hset]. destruct (cmap_add_map map1 _ c c Hm) as (map2 & E & _). rewrite E. exists s2, map2, sq0. split; [done|].
      apply (step_known c s2 map1 sq0 map2); try done; [|lia]. split; try done. by exists m.
    - apply step_unknown; [done|lia|done]. }
  unfold other_step in E. rewrite E. cbn [mbind tr_bind]. clear E Hd Hd1 Hx.
  pose proof Hd2 as [(m & Hm & Hv) _ _ [Hst1 Hst2] _].
  assert (forall k, is_Some (m !! k) -> mem l1 k = true \/ 0 <= k <= c) as Hkeys.
  { intros k. rewrite Hv. unfold done_below. destruct (mem l1 k); [by left|]. destruct (Z.leb_spec 0 k), (Z.ltb_spec k (c + 1)); cbn; [|by intros [? ?]..]. right. lia. }
  assert (forall k, In k l1 -> is_Some (m !! k)) as Hl1m.
  { intros k Hk. rewrite Hv. unfold done_below. apply mem_in in Hk. rewrite Hk. destruct (k <? c + 1); [by eexists|]. by apply image_l1. }
  rewrite (bool_decide_false (state s2' = INFINITE)) by done. rewrite orb_false_r.
  destruct (bool_decide (state s2' = EOS) && (cm_max map2 <=? c)) eqn:Eb.
  - apply andb_true_iff in Eb as [He%bool_decide_eq_true Hmax%Z.leb_le]. exists c, s2', map2, sq2. split; [done|]. split; [lia|]. split; [done|]. split; [by apply Hst2|].
    intros k Hk. apply Hl1m in Hk. destruct (leaf_or_not (cm_root map2)) as [Hleaf|Hne].
    + pose proof (map_to _ _ Hm) as Ht. rewrite Hleaf in Ht. cbn in Ht. rewrite <- Ht in Hk. by destruct Hk.
    + destruct (map_max _ _ Hm Hne) as [_ Hb]. specialize (Hb k Hk). lia.
  - destruct (Z.eq_dec (c + 1) B) as [EB|NB].
    + exfalso. assert (length l2 < rank l1 (c + 1))%nat as Hr by (pose proof (rank_least l1 (c + 1) ltac:(lia)); lia). apply Hst2 in Hr.
      rewrite (bool_decide_true (state s2' = EOS)) in Eb by done. cbn in Eb. apply Z.leb_gt in Eb.
      destruct (leaf_or_not (cm_root map2)) as [Hleaf|Hne]; [rewrite (map_leaf _ _ Hm Hleaf) in Eb; lia|].
      destruct (map_max _ _ Hm Hne) as [[Hk%mem_in|Hk]%Hkeys _]; [|lia]. apply Hl1 in Hk. lia.
    + destruct (IH fuel (c + 1) s2' map2 sq2 B Hd2 ltac:(lia) ltac:(lia) ltac:(lia) HB Hl1 Hlen) as (c' & s3 & map3 & sq3 & E & Hr). by exists c', s3, map3, sq3.
Qed.

End Complement.
(** *** The map of two operands *)

Definition pairs_of (l1 l2 : list Z) : list (Z * Z) := pair_up l1 (List.hd 0 l2) (tail l2).

(** Where a character goes. *)
Definition tr_image (c : bool) (l1 l2 : list Z) (ch : Z) : Z :=
  if c then
    if mem l1 ch then ch else match l2 !! rank l1 ch with Some x => x | None => List.last l2 0 end
  else match image (pairs_of l1 l2) ch with Some x => x | None => ch end.
(** What -s squeezes. *)
Definition tr_squeezed (c : bool) (l1 l2 : list Z) : list Z := if c then l2 else map snd (pairs_of l1 l2).

Lemma pairs_of_in l1 l2 x : l2 <> [] -> In x (map snd (pairs_of l1 l2)) -> In x l2.
Proof. intros Hne [->|H]%pair_up_snd; [destruct l2; [done|by left]|]. destruct l2; [done|by right]. Qed.

(** Every character of the second operand has a partner when there are enough. *)
Lemma pair_up_cover l1 : forall d l2 x, (length l2 < length l1)%nat -> In x (d :: l2) -> In x (map snd (pair_up l1 d l2)).
Proof.
  induction l1 as [|c l1 IH]; intros d l2 x Hl H; [cbn in Hl; lia|]. cbn. destruct H as [<-|H]; [by left|].
  destruct l2 as [|e l2]; [done|]. right. apply IH; [cbn in Hl; lia|exact H].
Qed.
Lemma squeezed_all c l1 l2 : l2 <> [] -> c = true \/ (length l2 <= length l1)%nat -> forall x, mem (tr_squeezed c l1 l2) x = mem l2 x.
Proof.
  intros Hne Hl x. destruct c; [done|]. destruct Hl as [|Hl]; [done|]. cbn [tr_squeezed]. apply eq_true_iff_eq. rewrite !mem_in. split; [by apply pairs_of_in|].
  destruct l2 as [|d l2]; [done|]. apply pair_up_cover. cbn in Hl |- *. lia.
Qed.
Lemma squeeze_ext f g l : (forall x, f x = g x) -> squeeze f l = squeeze g l.
Proof. intros H. induction l as [|c l IH]; [done|]. cbn. by rewrite H, IH. Qed.

Lemma start_plain t2 after l2 : denotes loc false t2 l2 -> l2 <> [] ->
  exists s2, next (start_str t2 after) = Ok (true, s2) /\ plain_at s2 (tail l2) /\ lastch s2 = List.hd 0 l2.
Proof.
  intros Hd Hne. destruct (start_says _ _ after _ Hd) as (ss & Hg & Hl & Hq). pose proof (denotes_bound _ _ _ Hd) as Hb.
  destruct Hg as [|s s2 ss E Hg]; [by subst|]. subst l2. cbn in *. rewrite List.Forall_cons_iff in Hb, Hq. destruct Hb as [Hb Hbs], Hq as [(_ & _ & Hq) Hqs].
  exists s2. split; [done|]. split; [|done]. split; [by exists ss|]. split; [by apply Hq|done].
Qed.

Lemma map_pairs_set fuel sq letters t1 after1 l1 s2 l2 map0 X sq0 : denotes loc letters t1 l1 -> l2 <> [] -> plain_at s2 (tail l2) -> lastch s2 = List.hd 0 l2 ->
  (length l1 < fuel)%nat -> is_map map0 X -> mapped X = ∅ -> is_set sq0 {| chars := ∅; classes := []; inverted := false |} ->
  exists s2' map1 sq1 m, (mbind (M := res tr_error) (fun '(b, s1) => if (b : bool) then pair_loop loc fuel sq s1 s2 map0 sq0 else Ok (s2, map0, sq0)) (next (start_str t1 after1))) = Ok (s2', map1, sq1) /\
    is_map map1 {| mapped := m; default := default X |} /\ (forall x, m !! x = image (pairs_of l1 l2) x) /\
    is_set sq1 {| chars := if sq then list_to_set (map snd (pairs_of l1 l2)) else ∅; classes := []; inverted := false |}.
Proof.
  intros Hd Hne H2 El2 Hf HX HXe HY. destruct (start_says _ _ after1 _ Hd) as (ss & Hg & Hl & _). destruct Hg as [s s' E El Ee|s s' ss E Hg]; subst l1; rewrite E; cbn [mbind tr_bind].
  - exists s2, map0, sq0, ∅. split; [done|]. split; [rewrite <- HXe; by destruct X|]. split; [done|]. eapply is_set_chars; [|exact HY]. by destruct sq.
  - destruct (pair_loop_plain ss s' s2 (tail l2) map0 sq0 X _ fuel sq Hg H2 HX HY ltac:(cbn in Hf; rewrite length_map in Hf; lia)) as (s2' & map1 & sq1 & -> & Hm & Hs).
    exists s2', map1, sq1. eexists. split; [done|]. split; [exact Hm|]. rewrite El2 in *. split.
    + intros x. rewrite insert_all_lookup, HXe, lookup_empty. unfold pairs_of. cbn [map]. by destruct (image _ x).
    + eapply is_set_chars; [|exact Hs]. destruct sq; [|done]. cbn [chars]. by rewrite (right_id_L ∅ (∪)).
Qed.

Lemma takes_cache cm f : takes cm f -> exists cm', cmap_cache cm = Some cm' /\ takes cm' f.
Proof. intros (X & HX & Hf). destruct (cmap_cache_map cm X HX) as (cm' & E & H'). exists cm'. split; [done|by exists X]. Qed.
Lemma answers_cache cs X S : is_set cs X -> (forall ch, member X ch = S ch) -> exists cs', cset_cache iswctype cs = Some cs' /\ answers cs' S.
Proof. intros HX HS. destruct (cset_cache_set iswctype cs X HX) as (cs' & E & H'). exists cs'. split; [done|by exists X]. Qed.

Lemma member_plain X S ch : classes X = [] -> inverted X = false -> bool_decide (ch ∈ chars X) = S -> member X ch = S.
Proof. intros Hc Hi <-. unfold CsetFacts.member. rewrite Hc, Hi. cbn. by destruct (bool_decide _). Qed.

Lemma make_map_plain fuel a t2 letters l1 l2 : Cflag a = false -> cflag a = false -> denotes loc letters (string1 a) l1 -> denotes loc false t2 l2 -> l2 <> [] ->
  (length l1 < fuel)%nat ->
  exists cm cs, make_map loc fuel a t2 = Ok (cm, cs) /\ takes cm (tr_image false l1 l2) /\ (sflag a = true -> answers cs (mem (tr_squeezed false l1 l2))).
Proof.
  intros HC Hc Hd1 Hd2 Hne Hf. unfold make_map. rewrite HC, Hc. cbn [orb andb].
  destruct (start_plain t2 (behind2 a) l2 Hd2 Hne) as (s2 & -> & H2 & El2). cbn [mbind tr_bind negb].
  destruct (map_pairs_set fuel (sflag a) letters (string1 a) (behind1 a) l1 s2 l2 cmap_alloc _ cset_alloc Hd1 Hne H2 El2 Hf cmap_alloc_map eq_refl (cset_alloc_set iswctype))
    as (s2' & map1 & sq1 & m & E & Hm & Hv & Hs).
  unfold mbind in E |- *. unfold tr_bind in E |- *. destruct (next (start_str (string1 a) (behind1 a))) as [[b s1]|]; [|done]. rewrite E. clear E.
  destruct (takes_cache map1 (tr_image false l1 l2)) as (map2 & Em & Ht2).
  { eexists. split; [exact Hm|]. intros ch Hch. unfold lookup_abs, tr_image. cbn [mapped default]. rewrite Hv. by destruct (image _ ch). }
  destruct (answers_cache sq1 _ (fun ch => member {| chars := if sflag a then list_to_set (map snd (pairs_of l1 l2)) else ∅; classes := []; inverted := false |} ch) Hs) as (sq2 & Es & Ha); [done|].
  rewrite Es. cbn [checked]. rewrite Em. cbn [checked]. exists map2, sq2. split; [done|]. split; [done|]. intros Hsf. rewrite Hsf in Ha. destruct Ha as (X & HX & HS). exists X. split; [done|].
  intros ch. rewrite HS. apply member_plain; [done|done|]. cbn [chars]. by apply member_list.
Qed.

Lemma rank_0 l : rank l 0 = 0%nat.
Proof. done. Qed.

Lemma make_map_complement fuel a t2 letters l1 l2 : Cflag a = false -> cflag a = true -> denotes loc letters (string1 a) l1 -> denotes loc false t2 l2 -> l2 <> [] ->
  (forall x, In x l1 -> x < Z.of_nat fuel) -> (length l1 + length l2 < fuel)%nat -> Z.of_nat (length l1 + length l2) < Tr.WCHAR_MAX ->
  exists cm cs, make_map loc fuel a t2 = Ok (cm, cs) /\ takes cm (tr_image true l1 l2) /\ (sflag a = true -> answers cs (mem (tr_squeezed true l1 l2))).
Proof.
  intros HC Hc Hd1 Hd2 Hne Hx Hlen Hw. unfold make_map. rewrite HC, Hc. cbn [orb andb].
  pose proof (denotes_bound _ _ _ Hd1) as Hb1. pose proof (denotes_bound _ _ _ Hd2) as Hb2.
  destruct (start_plain t2 (behind2 a) l2 Hd2 Hne) as (s2 & -> & H2 & El2). cbn [mbind tr_bind negb].
  destruct (cmap_default_map cmap_alloc _ OOBCH cmap_alloc_map) as [_ Hm0].
  destruct (map_pairs_set fuel (sflag a) letters (string1 a) (behind1 a) l1 s2 l2 _ _ cset_alloc Hd1 Hne H2 El2 ltac:(lia) Hm0 eq_refl (cset_alloc_set iswctype))
    as (s2' & map1 & sq1 & m & E & Hm & Hv & Hs). cbn [default] in Hm.
  unfold mbind in E |- *. unfold tr_bind in E |- *. destruct (next (start_str (string1 a) (behind1 a))) as [[b s1]|]; [|done]. rewrite E. clear E.
  assert (Tr.WCHAR_MAX = 2147483647) as HW by reflexivity.
  set (s3 := {| state := NORMAL; cnt := cnt s2'; lastch := lastch s2'; cclass := cclass s2'; equiv := equiv s2'; set := set s2'; str := t2; behind := behind2' a |}).
  assert (map fst (pairs_of l1 l2) = l1) as Hfst by apply pair_up_fst.
  assert (forall x, In x (map snd (pairs_of l1 l2)) -> In x l2) as Hsnd by (intros x Hin; by eapply pairs_of_in).
  assert (below_done l1 l2 (pairs_of l1 l2) (sflag a) 0 s3 map1 sq1) as H0.
  { split.
    - exists m. split; [done|]. intros x. rewrite Hv. unfold done_below. destruct (mem l1 x) eqn:Em.
      + apply mem_in in Em. rewrite List.Forall_forall in Hb1. pose proof (Hb1 x Em). by destruct (Z.ltb_spec x 0); [lia|].
      + assert (((0 <=? x) && (x <? 0)) = false) as -> by (destruct (Z.leb_spec 0 x), (Z.ltb_spec x 0); (done || lia)).
        destruct (image (pairs_of l1 l2) x) eqn:Ei; [|done]. assert (mem l1 x = true) by (apply (image_l1 l1 (pairs_of l1 l2) Hfst); by rewrite Ei). congruence.
    - rewrite rank_0. cbn [drop]. by eapply denotes_says.
    - rewrite rank_0. lia.
    - rewrite rank_0. cbn. split; [done|]. split; [done|lia].
    - eexists. split; [exact Hs|]. cbn [classes inverted chars]. split_and!; try done.
      intros x. destruct (sflag a); [rewrite elem_of_list_to_set, list_elem_of_In; apply Hsnd|by intros H%elem_of_empty]. }
  destruct (complement_loop_spec l1 l2 (pairs_of l1 l2) (sflag a) Hne Hb2 Hfst Hsnd (Z.to_nat (Z.min (Z.of_nat fuel) Tr.WCHAR_MAX)) fuel 0 s3 map1 sq1 (Z.min (Z.of_nat fuel) Tr.WCHAR_MAX) H0)
    as (c & s4 & map2 & sq2 & -> & Hc0 & [(m2 & Hm2 & Hv2) _ Hlast _ (Y & HY & HYc & HYi & HYin & HYt)] & Hr & Hl1); try lia.
  { intros x Hin. rewrite List.Forall_forall in Hb1. pose proof (Hb1 x Hin). pose proof (Hx x Hin). lia. }
  specialize (Hlast ltac:(lia)). rewrite take_ge in Hlast by lia. rewrite take_ge in HYt by lia.
  destruct (cmap_default_map map2 _ (lastch s4) Hm2) as [_ Hm3]. cbn [mapped] in Hm3.
  destruct (takes_cache (snd (cmap_default map2 (lastch s4))) (tr_image true l1 l2)) as (map3 & Em & Ht3).
  { eexists. split; [exact Hm3|]. intros ch Hch. unfold lookup_abs, tr_image. cbn [mapped default]. rewrite Hv2, Hlast.
    assert (0 <= List.last l2 0) as Hpos by (rewrite List.Forall_forall in Hb2; pose proof (Hb2 _ (last_in l2 Hne)); lia).
    destruct (Z.eqb_spec (List.last l2 0) CM_DEF_SELF) as [Eq|_]; [unfold CM_DEF_SELF in Eq; lia|].
    unfold done_below. destruct (mem l1 ch) eqn:Em1.
    - apply mem_in, Hl1 in Em1. by destruct (Z.ltb_spec ch (c + 1)); [|lia].
    - destruct (Z.leb_spec 0 ch); [|lia]. destruct (Z.ltb_spec ch (c + 1)); cbn [andb]; [done|].
      assert (l2 !! rank l1 ch = None) as ->; [|done]. apply lookup_ge_None. pose proof (rank_mono l1 (c + 1) ch ltac:(lia)). lia. }
  destruct (answers_cache sq2 _ (fun ch => member Y ch) HY) as (sq3 & Es & Ha); [done|].
  rewrite Es. cbn [checked]. rewrite Em. cbn [checked]. exists map3, sq3. split; [done|]. split; [done|]. intros Hsf. destruct Ha as (X & HX & HS). exists X. split; [done|].
  intros ch. rewrite HS. apply member_plain; [done|done|]. apply eq_true_iff_eq. rewrite bool_decide_eq_true, mem_in. cbn [tr_squeezed]. split; [apply HYin|by apply HYt].
Qed.

(** *** The classes of letters *)

(** From one case to the other: [cls] is the class in string1. *)
Definition conv (cls : str_state) (c : Z) : Z := if bool_decide (cls = CCLASS_LOWER) then towupper loc c else towlower loc c.
Definition wanted (cls : str_state) (c : Z) : bool := if bool_decide (cls = CCLASS_LOWER) then iswupper loc c else iswlower loc c.
Definition class_name (cls : str_state) : list Z := if bool_decide (cls = CCLASS_LOWER) then lower_text else upper_text.
Definition other_case (cls : str_state) : str_state := if bool_decide (cls = CCLASS_LOWER) then CCLASS_UPPER else CCLASS_LOWER.
Definition class_text (name : list Z) : list Z := 91 :: 58 :: name ++ [58; 93].

Lemma next_in_class cls s : cls = CCLASS_LOWER \/ cls = CCLASS_UPPER -> state s = cls -> str s = [] -> 0 <= cnt s -> cnt s + 1 < 2 ^ 31 ->
  if nextwctype loc (lastch s) (cclass s) =? -1 then exists s', next s = Ok (false, s')
  else exists s', next s = Ok (true, s') /\ state s' = cls /\ str s' = [] /\ cnt s' = cnt s + 1 /\ cclass s' = cclass s /\ lastch s' = nextwctype loc (lastch s) (cclass s).
Proof.
  intros Hcls Hs Es H0 H1. rewrite next_eq. unfold Tr.next_body. rewrite Hs.
  destruct (nextwctype loc (lastch s) (cclass s) =? -1) eqn:E; destruct Hcls as [-> | ->]; cbn [lastch cclass set_cnt]; rewrite E.
  1, 2: eexists; rewrite next_eq; unfold Tr.next_body; cbn [state set_state str set_cnt]; rewrite Es; reflexivity.
  all: eexists; split; [reflexivity|]; cbn; split_and!; (done || by apply s32_small; lia).
Qed.

Lemma start_class cls after l : cls = CCLASS_LOWER \/ cls = CCLASS_UPPER -> wctype loc (class_name cls) <> 0 -> class_chars loc (wctype loc (class_name cls)) (-1) l -> l <> [] ->
  exists s, next (start_str (class_text (class_name cls)) after) = Ok (true, s) /\ state s = cls /\ str s = [] /\ cnt s = 1 /\ cclass s = wctype loc (class_name cls) /\
    lastch s = List.hd 0 l /\ class_chars loc (cclass s) (lastch s) (tail l).
Proof.
  intros Hcls Hw Hc Hne. set (s0 := start_str (class_text (class_name cls)) after).
  set (s1 := set_str [] (set_state cls (set_lastch (-1) (set_cnt 0 (set_cclass (wctype loc (class_name cls)) s0))))).
  assert (next s0 = next s1) as E.
  { assert (bracket loc s0 = Ok (true, s1)) as Eb.
    { rewrite (bracket_text loc s0 58 (class_name cls) []); [|by left|done|destruct Hcls as [-> | ->]; vm_compute; discriminate|destruct Hcls as [-> | ->]; vm_compute; lia].
      cbn [Z.eqb Pos.eqb]. unfold genclass. apply Z.eqb_neq in Hw. rewrite Hw. cbn [mbind tr_bind]. by destruct Hcls as [-> | ->]. }
    exact (next_bracket loc s0 s1 _ eq_refl eq_refl Eb). }
  pose proof (next_in_class cls s1 Hcls eq_refl eq_refl ltac:(cbn; lia) ltac:(cbn; lia)) as Hnext.
  change (lastch s1) with (-1) in Hnext. change (cclass s1) with (wctype loc (class_name cls)) in Hnext. rewrite <- E in Hnext.
  inversion Hc as [c Hn|c l' Hn Hc' E1 E2]; subst; [done|]. apply Z.eqb_neq in Hn. rewrite Hn in Hnext. destruct Hnext as (s & Es & Hs & Ht & Hk & Hcc & Hl).
  exists s. split; [done|]. split; [done|]. split; [done|]. split; [done|]. split; [done|]. cbn [List.hd tail]. split; [done|]. by rewrite Hcc, Hl.
Qed.

Lemma case_loop_spec cls : cls = CCLASS_LOWER \/ cls = CCLASS_UPPER -> forall cs s1 map0 sq0 X Y fuel sq,
  state s1 = cls -> str s1 = [] -> 1 <= cnt s1 -> cnt s1 + Z.of_nat (length cs) + 1 < 2 ^ 31 -> class_chars loc (cclass s1) (lastch s1) cs -> (length cs < fuel)%nat ->
  Forall (fun c => char (conv cls c)) (lastch s1 :: cs) -> is_map map0 X -> is_set sq0 Y ->
  exists map1 sq1, case_loop loc fuel sq cls s1 map0 sq0 = Ok (None, map1, sq1) /\
    is_map map1 {| mapped := insert_all (map (fun c => (c, conv cls c)) (lastch s1 :: cs)) (mapped X); default := default X |} /\
    is_set sq1 {| chars := if sq then list_to_set (List.filter (wanted cls) (map (conv cls) (lastch s1 :: cs))) ∪ chars Y else chars Y; classes := classes Y; inverted := inverted Y |}.
Proof.
  intros Hcls. induction cs as [|c cs IH]; intros s1 map0 sq0 X Y fuel sq Hs Es Hk Hk2 Hc Hf Hb HX HY; (destruct fuel as [|fuel]; [cbn in Hf; lia|]); cbn [case_loop].
  all: fold (conv cls (lastch s1)) (wanted cls (conv cls (lastch s1))).
  all: destruct (cmap_add_map map0 X (lastch s1) (conv cls (lastch s1)) HX) as (map1 & -> & HX1); cbn [checked mbind tr_bind].
  all: assert (exists sq1, (if sq && wanted cls (conv cls (lastch s1)) then checked (cset_add sq0 (conv cls (lastch s1))) else Ok sq0) = (Ok sq1 : res tr_error _) /\
    is_set sq1 {| chars := if sq then list_to_set (List.filter (wanted cls) [conv cls (lastch s1)]) ∪ chars Y else chars Y; classes := classes Y; inverted := inverted Y |}) as (sq1 & Esq & HY1).
  1, 3: rewrite List.Forall_cons_iff in Hb; destruct Hb as [Hb1 _]; cbn [List.filter]; destruct sq; [|exists sq0; by destruct Y]; cbn [andb]; destruct (wanted cls (conv cls (lastch s1)));
    [destruct (cset_add_set iswctype sq0 Y _ HY Hb1) as (sq1 & -> & H); exists sq1; split; [done|]; eapply is_set_chars; [|exact H]; cbn; by rewrite (right_id_L ∅ (∪))
    |exists sq0; split; [done|]; cbn; rewrite (left_id_L ∅ (∪)); by destruct Y].
  all: rewrite Esq; cbn [mbind tr_bind]; pose proof (next_in_class cls s1 Hcls Hs Es ltac:(lia) ltac:(cbn in *; lia)) as Hn.
  - inversion Hc as [d Ed|]; subst d. rewrite Ed in Hn. rewrite Z.eqb_refl in Hn. destruct Hn as (s' & ->). cbn [mbind tr_bind negb].
    exists map1, sq1. done.
  - assert (nextwctype loc (lastch s1) (cclass s1) = c /\ c <> -1 /\ class_chars loc (cclass s1) c cs) as (E1 & Ed & Hc') by (inversion Hc; subst; auto).
    apply Z.eqb_neq in Ed. rewrite E1, Ed in Hn. destruct Hn as (s' & -> & Hs' & Es' & Hk' & Hcc & Hl). cbn [mbind tr_bind negb].
    rewrite (bool_decide_true (state s' = cls)) by done. destruct (Z.ltb_spec 1 (cnt s')); [|lia]. cbn [andb].
    destruct (IH s' map1 sq1 _ _ fuel sq Hs' Es' ltac:(lia) ltac:(cbn in Hk2; lia) ltac:(by rewrite Hcc, Hl) ltac:(cbn in Hf; lia)
      ltac:(rewrite Hl; by rewrite List.Forall_cons_iff in Hb; apply Hb) HX1 HY1) as (map2 & sq2 & E & Hm & Hsq).
    exists map2, sq2. split; [done|]. rewrite Hl in Hm, Hsq. split; [exact Hm|]. eapply is_set_chars; [|exact Hsq]. destruct sq; [|done]. cbn [chars map].
    rewrite !(assoc_L (∪)). f_equal. rewrite (comm_L (∪)), <- list_to_set_app_L, <- List.filter_app. done.
Qed.

Lemma image_map (f : Z -> Z) l c : image (map (fun c => (c, f c)) l) c = if mem l c then Some (f c) else None.
Proof.
  induction l as [|a l IH]; [done|]. cbn [map image mem existsb]. fold (mem l c). rewrite IH. rewrite Z.eqb_sym. destruct (mem l c); [by rewrite orb_true_r|].
  rewrite orb_false_r. by destruct (Z.eqb_spec c a) as [->|].
Qed.

Lemma make_map_case fuel a cls t2 l u : Cflag a = false -> cflag a = false -> cls = CCLASS_LOWER \/ cls = CCLASS_UPPER ->
  string1 a = class_text (class_name cls) -> t2 = class_text (class_name (other_case cls)) ->
  wctype loc (class_name cls) <> 0 -> wctype loc (class_name (other_case cls)) <> 0 ->
  class_chars loc (wctype loc (class_name cls)) (-1) l -> class_chars loc (wctype loc (class_name (other_case cls))) (-1) u -> l <> [] -> u <> [] ->
  Forall (fun c => char (conv cls c)) l -> Z.of_nat (length l) + 1 < 2 ^ 31 -> (length l < fuel)%nat ->
  exists cm cs, make_map loc fuel a t2 = Ok (cm, cs) /\ takes cm (fun c => if mem l c then conv cls c else c) /\
    (sflag a = true -> answers cs (mem (List.filter (wanted cls) (map (conv cls) l)))).
Proof.
  intros HC Hc Hcls E1 -> Hw1 Hw2 Hl Hu Nl Nu Hb Hlen Hf. unfold make_map. rewrite HC, Hc, E1. cbn [orb andb].
  assert (other_case cls = CCLASS_LOWER \/ other_case cls = CCLASS_UPPER) as Hcls2 by (destruct Hcls as [-> | ->]; auto).
  destruct (start_class (other_case cls) (behind2 a) u Hcls2 Hw2 Hu Nu) as (s2 & -> & Hs2 & _ & Hk2 & _). cbn [mbind tr_bind negb].
  destruct (start_class cls (behind1 a) l Hcls Hw1 Hl Nl) as (s1 & -> & Hs1 & Es1 & Hk1 & _ & Hl1 & Hc1). cbn [mbind tr_bind].
  destruct fuel as [|fuel]; [lia|]. cbn [pair_loop]. rewrite Hs1, Hs2, Hk1, Hk2.
  assert ((bool_decide (cls = CCLASS_LOWER) && bool_decide (other_case cls = CCLASS_UPPER)) || (bool_decide (cls = CCLASS_UPPER) && bool_decide (other_case cls = CCLASS_LOWER)) = true) as ->
    by (by destruct Hcls as [-> | ->]). rewrite Z.eqb_refl. cbn [andb].
  assert (lastch s1 :: tail l = l) as El by (rewrite Hl1; by destruct l).
  assert (length (tail l) < length l)%nat as Htl by (rewrite <- El at 2; cbn; lia).
  destruct (case_loop_spec cls Hcls (tail l) s1 cmap_alloc cset_alloc _ _ fuel (sflag a) Hs1 Es1 ltac:(lia) ltac:(lia) Hc1 ltac:(lia) ltac:(by rewrite El) cmap_alloc_map (cset_alloc_set iswctype))
    as (map1 & sq1 & -> & Hm & Hs). rewrite El in Hm, Hs. cbn [mbind tr_bind mapped chars classes inverted default] in *.
  destruct (takes_cache map1 (fun c => if mem l c then conv cls c else c)) as (map2 & Em & Ht2).
  { eexists. split; [exact Hm|]. intros ch Hch. unfold lookup_abs. cbn [mapped default]. rewrite insert_all_lookup, image_map, lookup_empty. by destruct (mem l ch). }
  match type of Hs with is_set _ ?X => destruct (answers_cache sq1 X (member X) Hs) as (sq2 & Es & Ha); [done|] end.
  rewrite Es. cbn [checked mbind tr_bind]. rewrite Em. cbn [checked mbind tr_bind]. exists map2, sq2. split; [done|]. split; [done|]. intros Hsf. rewrite Hsf in Ha. destruct Ha as (X & HX & HS).
  exists X. split; [done|]. intros ch. rewrite HS. apply member_plain; [done|done|]. cbn [chars]. rewrite (right_id_L ∅ (∪)). by apply member_list.
Qed.

(** *** What goes wrong *)

(** A fill with something behind it. *)
Lemma fill_stays s : state s = INFINITE -> str s <> [] -> next s = Ok (true, s).
Proof. intros Hs Hne. rewrite next_eq. unfold Tr.next_body. rewrite Hs. by destruct (str s). Qed.

Lemma setup_loop_hangs s fuel : forall cs X, state s = INFINITE -> str s <> [] -> char (lastch s) -> is_set cs X -> setup_loop loc fuel cs s = Ex OutOfFuel.
Proof.
  induction fuel as [|fuel IH]; intros cs X Hs Hne Hc HX; [done|]. cbn [setup_loop]. rewrite fill_stays by done. cbn [mbind tr_bind].
  destruct (cset_add_set iswctype cs X (lastch s) HX Hc) as (cs' & -> & H'). cbn [checked mbind tr_bind]. by eapply IH.
Qed.

End TrFacts.
