(* ===== verification/TrSpec.v ===== *)
(** * tr: the program

    The two structures as sets and maps; what tr writes, in terms of the characters that its operands denote; and two operands
    that are not read as the manual says. *)

From Stdlib Require Import ZArith Lia List Bool.
From stdpp Require Import base tactics list numbers gmap.
From S2P Require Import Prelude TrSet TrSetFacts Tr TrStr TrFacts.
Import Cset Cmap CsetFacts CmapFacts.

Local Open Scope Z_scope.
Local Open Scope list_scope.

(** ** Histories of a set and of a map *)

Inductive set_op := so_add (ch : Z) | so_addclass (type : Z) (invert : bool) | so_invert | so_cache | so_in (ch : Z).
Definition set_op_ok (o : set_op) : Prop := match o with so_add ch => 0 <= ch < WCHAR_MAX | so_in ch => 0 <= ch | _ => True end.

Section Histories.
Context (iswctype : Z -> Z -> bool).

(** The answers of [cset_in]. *)
Fixpoint run_set (cs : cset) (ops : list set_op) : option (list bool) :=
  match ops with
  | [] => Some []
  | so_add ch :: ops => cs ← cset_add cs ch; run_set cs ops
  | so_addclass t i :: ops => run_set (cset_addclass cs t i) ops
  | so_invert :: ops => run_set (cset_invert cs) ops
  | so_cache :: ops => cs ← cset_cache iswctype cs; run_set cs ops
  | so_in ch :: ops => '(b, cs) ← cset_in iswctype cs ch; l ← run_set cs ops; Some (b :: l)
  end.
(** The same with a finite set, a list of classes and a complement. *)
Fixpoint run_aset (X : aset) (ops : list set_op) : list bool :=
  match ops with
  | [] => []
  | so_add ch :: ops => run_aset {| chars := {[ch]} ∪ chars X; classes := classes X; inverted := inverted X |} ops
  | so_addclass t i :: ops => run_aset {| chars := chars X; classes := {| csc_type := t; csc_invert := i |} :: classes X; inverted := inverted X |} ops
  | so_invert :: ops => run_aset {| chars := chars X; classes := classes X; inverted := negb (inverted X) |} ops
  | so_cache :: ops => run_aset X ops
  | so_in ch :: ops => member iswctype X ch :: run_aset X ops
  end.

Lemma run_set_spec ops : forall cs X, is_set iswctype cs X -> Forall set_op_ok ops -> run_set cs ops = Some (run_aset X ops).
Proof.
  induction ops as [|o ops IH]; intros cs X HX Hok; [done|]. rewrite List.Forall_cons_iff in Hok. destruct Hok as [Ho Hok]. destruct o as [ch|t i| | |ch]; cbn.
  - destruct (cset_add_set iswctype cs X ch HX Ho) as (cs' & -> & H). by apply IH.
  - by apply IH; [apply cset_addclass_set|].
  - by apply IH; [apply cset_invert_set|].
  - destruct (cset_cache_set iswctype cs X HX) as (cs' & -> & H). by apply IH.
  - destruct (cset_in_set iswctype cs X ch HX Ho) as (cs' & -> & H). cbn. by rewrite (IH cs' X H Hok).
Qed.

End Histories.

Inductive map_op := mo_add (from to : Z) | mo_default (def : Z) | mo_cache | mo_lookup (ch : Z).
Definition map_op_ok (o : map_op) : Prop := match o with mo_lookup ch => 0 <= ch | _ => True end.

(** The answers of [cmap_lookup] and [cmap_default]. *)
Fixpoint run_map (cm : cmap) (ops : list map_op) : option (list Z) :=
  match ops with
  | [] => Some []
  | mo_add from to :: ops => cm ← cmap_add cm from to; run_map cm ops
  | mo_default def :: ops => l ← run_map (cmap_default cm def).2 ops; Some ((cmap_default cm def).1 :: l)
  | mo_cache :: ops => cm ← cmap_cache cm; run_map cm ops
  | mo_lookup ch :: ops => '(x, cm) ← cmap_lookup cm ch; l ← run_map cm ops; Some (x :: l)
  end.
(** The same with a finite map and a default. *)
Fixpoint run_amap (X : amap) (ops : list map_op) : list Z :=
  match ops with
  | [] => []
  | mo_add from to :: ops => run_amap {| mapped := <[from := to]> (mapped X); default := default X |} ops
  | mo_default def :: ops => default X :: run_amap {| mapped := mapped X; default := def |} ops
  | mo_cache :: ops => run_amap X ops
  | mo_lookup ch :: ops => lookup_abs X ch :: run_amap X ops
  end.

Lemma run_map_spec ops : forall cm X, is_map cm X -> Forall map_op_ok ops -> run_map cm ops = Some (run_amap X ops).
Proof.
  induction ops as [|o ops IH]; intros cm X HX Hok; [done|]. rewrite List.Forall_cons_iff in Hok. destruct Hok as [Ho Hok]. destruct o as [from to|def| |ch]; cbn [run_map run_amap].
  - destruct (cmap_add_map cm X from to HX) as (cm' & -> & H). by apply IH.
  - destruct (cmap_default_map cm X def HX) as [-> H]. by rewrite (IH _ _ H Hok).
  - destruct (cmap_cache_map cm X HX) as (cm' & -> & H). by apply IH.
  - destruct (cmap_lookup_map cm X ch HX Ho) as (cm' & -> & H & _). cbn [mbind option_bind]. by rewrite (IH _ _ H Hok).
Qed.

(** C19. tr's sets and maps of characters, splay trees behind a table, are sets and maps: whatever is added, looked up, inverted, given a
    default and cached in whatever order, every answer is that of a finite set with classes and a complement, and that
    of a finite map with a default; no assertion fails and nothing is read outside of a table. *)
Theorem tables_refine (iswctype : Z -> Z -> bool) set_ops map_ops (Hs : Forall set_op_ok set_ops) (Hm : Forall map_op_ok map_ops) :
  run_set iswctype cset_alloc set_ops = Some (run_aset iswctype {| chars := ∅; classes := []; inverted := false |} set_ops) /\
  run_map cmap_alloc map_ops = Some (run_amap {| mapped := ∅; default := CM_DEF_SELF |} map_ops).
Proof. split; [apply run_set_spec; [apply cset_alloc_set|done]|apply run_map_spec; [apply cmap_alloc_map|done]]. Qed.

Lemma tables_refine_witness :
  run_set (fun _ _ => false) cset_alloc [so_add 5; so_add 3; so_add 4; so_in 4; so_cache; so_in 6; so_invert; so_in 6; so_in 300] = Some [true; false; true; true] /\
  run_map cmap_alloc [mo_add 5 7; mo_add 2 9; mo_lookup 5; mo_default (-1); mo_cache; mo_lookup 2; mo_lookup 200] = Some [7; -2; 9; -1].
Proof.
  destruct (tables_refine (fun _ _ => false)
    [so_add 5; so_add 3; so_add 4; so_in 4; so_cache; so_in 6; so_invert; so_in 6; so_in 300]
    [mo_add 5 7; mo_add 2 9; mo_lookup 5; mo_default (-1); mo_cache; mo_lookup 2; mo_lookup 200]) as [E1 E2].
  1, 2: repeat constructor; cbn; unfold WCHAR_MAX; lia.
  split; [rewrite E1|rewrite E2]; vm_compute; reflexivity.
Defined.

(** ** A locale for examples *)

(** One-octet characters in the order of their codes, and three classes. *)
Definition C_class (c lo hi : Z) : Z := if c <? lo then lo else if c <? hi then c + 1 else -1.
Definition C_locale : locale := {|
  MB_CUR_MAX := 1;
  mbrtowc l := match l with [] => Some (0, O) | c :: _ => Some (u8 c, 1%nat) end;
  wctype name := if eq_text name lower_text then 1 else if eq_text name upper_text then 2 else if eq_text name rune_text then 3 else 0;
  iswctype c t := if t =? 1 then (97 <=? c) && (c <=? 122) else if t =? 2 then (65 <=? c) && (c <=? 90) else (0 <=? c) && (c <=? 127);
  nextwctype c t := if t =? 1 then C_class c 97 122 else if t =? 2 then C_class c 65 90 else C_class c 0 127;
  towupper c := if (97 <=? c) && (c <=? 122) then c - 32 else c;
  towlower c := if (65 <=? c) && (c <=? 90) then c + 32 else c;
  iswupper c := (65 <=? c) && (c <=? 90);
  iswlower c := (97 <=? c) && (c <=? 122);
  iswrune c := (0 <=? c) && (c <=? 127);
  strcoll a b := a - b;
  weight l := first l |}.

Lemma C_locale_ok : locale_ok C_locale.
Proof.
  split.
  - intros [|c l] c' k [= <- <-]; unfold Tr.WCHAR_MAX; [lia|]. pose proof (uwrap_range 8 c ltac:(lia)). lia.
  - intros c cls. cbn. unfold Tr.WCHAR_MAX. destruct (cls =? 1); [|destruct (cls =? 2)]; unfold C_class;
      match goal with |- context [c <? ?lo] => destruct (Z.ltb_spec c lo); [right; lia|] end;
      match goal with |- context [c <? ?hi] => destruct (Z.ltb_spec c hi); [right; lia|by left] end.
Qed.

Definition plain_args (C c d s : bool) (s1 : list Z) (s2 : option (list Z)) : tr_args :=
  {| Cflag := C; cflag := c; dflag := d; sflag := s; string1 := s1; string2 := s2;
     behind1 := match s2 with Some s2 => s2 | None => [] end; behind2 := []; behind2' := [] |}.

Lemma C_char c o t l : 32 < c < 256 -> c <> 91 -> c <> 92 -> first t <> 45 -> denotes C_locale o t l -> denotes C_locale o (c :: t) (c :: l).
Proof.
  intros Hc H1 H2 Ht Hd. apply (d_char C_locale o (c :: t) c false t l); [|done|done]. constructor; [done|].
  apply (inner_plain C_locale c t c 0); [done|]. cbn. unfold uwrap. by rewrite Z.mod_small by lia.
Qed.

Lemma C_range : denotes C_locale true [97; 45; 99] [97; 98; 99].
Proof.
  apply (d_range C_locale true [97; 45; 99] 97 false [99] 99 false [] [97; 98; 99] []).
  - constructor; [done|]. by apply (inner_plain C_locale 97 [45; 99] 97 0).
  - by apply (inner_plain C_locale 99 [] 99 0).
  - vm_compute. reflexivity.
  - done.
  - constructor.
Qed.

(** ** What tr writes *)

Section Writes.
Context (loc : locale) (Hloc : locale_ok loc).

(** C29. With -d tr writes the characters that are not of the first operand, with -s and one operand the input with each run of a character of the operand
    reduced to one, and with both the first and then the second for the characters of the other operand; with -c the operand's
    complement counts, with -C its complement among the locale's characters; for all operands in the conventions of the manual and any input. *)
Theorem tr_filters letters a l1 fuel input (Hd : denotes loc letters (string1 a) l1) (Hf : (length l1 < fuel)%nat) (Hi : Forall (fun c => 0 <= c) input) :
  let D := in_operand loc (cflag a) (Cflag a) l1 in
  let kept := List.filter (fun c => negb (D c)) input in
  (dflag a = true -> sflag a = false -> string2 a = None -> main loc fuel a input = Ok kept) /\
  (dflag a = false -> sflag a = true -> string2 a = None -> main loc fuel a input = Ok (squeeze D input)) /\
  (forall t2 letters2 l2, dflag a = true -> sflag a = true -> string2 a = Some t2 -> denotes loc letters2 t2 l2 -> (length l2 < fuel)%nat ->
     main loc fuel a input = Ok (squeeze (mem l2) kept)).
Proof.
  intros D kept. destruct (setup_answers loc Hloc letters fuel (string1 a) (behind1 a) (cflag a) (Cflag a) l1 Hd Hf) as (de & E & Ha). fold D in Ha.
  unfold main. split_and!.
  - intros -> -> ->. cbn [andb]. rewrite E. by apply delete_only_spec.
  - intros -> -> ->. cbn [andb]. rewrite E. cbn [mbind tr_bind]. rewrite (squeeze_only_spec loc D input de OOBCH Ha Hi). by rewrite squeeze_after_none.
  - intros t2 letters2 l2 -> -> -> Hd2 Hf2. cbn [andb]. rewrite E. cbn [mbind tr_bind].
    destruct (setup_answers loc Hloc letters2 fuel t2 (behind2 a) false false l2 Hd2 Hf2) as (sq & -> & Hsq). cbn [mbind tr_bind].
    rewrite (delete_squeeze_spec loc D (mem l2) input de sq OOBCH Ha Hsq Hi). rewrite squeeze_after_none; [done|].
    rewrite List.Forall_forall in Hi |- *. by intros x [Hx _]%filter_In; apply Hi.
Qed.

(** C18. tr with two operands writes for each character of the input the one that stands in its place: without -c the one in the second operand
    at the place that the character has in the first, the last one of the second repeated and
    the last place counting; with -c the characters of the first stay, and the others, in the order of their
    codes, get the characters of the second, the last one repeated; with -s then runs of one character are
    reduced to one, for the characters of the second operand that stand in the place of one, which are all of them when there are no more
    than the first operand has.  For operands in the conventions of [denotes], of which the second has no class of letters; [denotes]
    gives an equivalence class as the code does, its character first and then the members in order, and a range by the
    codes when the locale has characters of several octets. *)
Theorem tr_translates letters a t2 l1 l2 fuel input (Hd1 : denotes loc letters (string1 a) l1) (Hs2 : string2 a = Some t2) (Hd2 : denotes loc false t2 l2)
  (Hne : l2 <> []) (HC : Cflag a = false) (Hdf : dflag a = false) (Hi : Forall (fun c => 0 <= c < Tr.WCHAR_MAX) input)
  (Hf : forall x, In x l1 -> x < Z.of_nat fuel) (Hlen : (length l1 + length l2 < fuel)%nat) (Hw : Z.of_nat (length l1 + length l2) < Tr.WCHAR_MAX) :
  let out := map (tr_image (cflag a) l1 l2) input in
  main loc fuel a input = Ok (if sflag a then squeeze (mem (tr_squeezed (cflag a) l1 l2)) out else out) /\
  (sflag a = true -> cflag a = true \/ (length l2 <= length l1)%nat -> main loc fuel a input = Ok (squeeze (mem l2) out)).
Proof.
  intros out.
  assert (forall r : res tr_error (list Z), r = Ok (if sflag a then squeeze (mem (tr_squeezed (cflag a) l1 l2)) out else out) ->
    r = Ok (if sflag a then squeeze (mem (tr_squeezed (cflag a) l1 l2)) out else out) /\
    (sflag a = true -> cflag a = true \/ (length l2 <= length l1)%nat -> r = Ok (squeeze (mem l2) out))) as both.
  { intros r E. split; [exact E|]. intros Es Hl. rewrite E, Es. f_equal. by apply squeeze_ext, squeezed_all. }
  apply both. clear both.
  assert (exists cm cs, make_map loc fuel a t2 = Ok (cm, cs) /\ takes cm (tr_image (cflag a) l1 l2) /\ (sflag a = true -> answers loc cs (mem (tr_squeezed (cflag a) l1 l2))))
    as (cm & cs & E & Hm & Hs).
  { destruct (cflag a) eqn:Ec; [by eapply make_map_complement|]. eapply make_map_plain; try done. lia. }
  unfold main. rewrite Hdf, Hs2, E. cbn [andb mbind tr_bind]. rewrite HC. destruct (sflag a); [|by apply translate_spec].
  assert (forall c, 0 <= c < Tr.WCHAR_MAX -> 0 <= tr_image (cflag a) l1 l2 c) as Hpos.
  { intros c Hc. pose proof (denotes_bound loc Hloc _ _ _ Hd2) as Hb. rewrite List.Forall_forall in Hb. unfold tr_image. destruct (cflag a).
    - destruct (mem l1 c); [lia|]. destruct (l2 !! rank l1 c) eqn:El; [|by apply Hb, last_in]. apply list_elem_of_lookup_2, list_elem_of_In in El. by apply Hb.
    - destruct (image (pairs_of l1 l2) c) as [x|] eqn:El; [|lia]. apply image_in in El. by apply Hb, (pairs_of_in l1). }
  rewrite (translate_squeeze_spec loc (tr_image (cflag a) l1 l2) (mem (tr_squeezed (cflag a) l1 l2)) input cm cs OOBCH Hm (Hs eq_refl) Hi Hpos).
  rewrite squeeze_after_none; [done|]. apply List.Forall_forall. intros x Hx. apply in_map_iff in Hx as (c & <- & Hc). rewrite List.Forall_forall in Hi. by apply Hpos, Hi.
Qed.

(** C30. From one class of letters to the other: with [:lower:] and [:upper:] for operands, or the reverse, each letter of the first class is
    written in the other case, as the locale has it, and every other character as it is; with -s runs of those that got a letter of the wanted case are
    reduced to one.  The second class is skipped, whatever its members and their number are. *)
Theorem case_conversion a cls t2 l u fuel input (Hcls : cls = CCLASS_LOWER \/ cls = CCLASS_UPPER)
  (H1 : string1 a = class_text (class_name cls)) (H2 : string2 a = Some t2) (Ht2 : t2 = class_text (class_name (other_case cls)))
  (Hw1 : wctype loc (class_name cls) <> 0) (Hw2 : wctype loc (class_name (other_case cls)) <> 0)
  (Hl : class_chars loc (wctype loc (class_name cls)) (-1) l) (Hu : class_chars loc (wctype loc (class_name (other_case cls))) (-1) u)
  (Nl : l <> []) (Nu : u <> []) (Hb : Forall (fun c => 0 <= conv loc cls c < Tr.WCHAR_MAX) l) (Hlen : Z.of_nat (length l) + 1 < 2 ^ 31) (Hf : (length l < fuel)%nat)
  (HC : Cflag a = false) (Hc : cflag a = false) (Hd : dflag a = false) (Hi : Forall (fun c => 0 <= c < Tr.WCHAR_MAX) input) :
  let out := map (fun c => if mem l c then conv loc cls c else c) input in
  main loc fuel a input = Ok (if sflag a then squeeze (mem (List.filter (wanted loc cls) (map (conv loc cls) l))) out else out).
Proof.
  intros out. destruct (make_map_case loc fuel a cls t2 l u HC Hc Hcls H1 Ht2 Hw1 Hw2 Hl Hu Nl Nu Hb Hlen Hf) as (cm & cs & E & Hm & Hs).
  unfold main. rewrite Hd, H2, E. cbn [andb mbind tr_bind]. rewrite HC. destruct (sflag a); [|by apply translate_spec].
  assert (forall c, 0 <= c < Tr.WCHAR_MAX -> 0 <= if mem l c then conv loc cls c else c) as Hpos.
  { intros c Hc'. rewrite List.Forall_forall in Hb. destruct (mem l c) eqn:Em; [|lia]. by apply Hb, mem_in. }
  rewrite (translate_squeeze_spec loc _ _ input cm cs OOBCH Hm (Hs eq_refl) Hi Hpos).
  rewrite squeeze_after_none; [done|]. apply List.Forall_forall. intros x Hx. apply in_map_iff in Hx as (c & <- & Hc'). rewrite List.Forall_forall in Hi. by apply Hpos, Hi.
Qed.

(** C40. An operand with a fill in front of its end makes tr -d and tr -s loop: [next] gives the character of the fill for ever, and [setup] puts it into the set for ever. *)
Theorem fill_hangs a b w c o num rest fuel input (N1 : b <> 58) (N2 : b <> 61) (H42 : ~ In 42 w) (H93 : ~ In 93 w)
  (Hc : inner_char loc (b :: w ++ 42 :: num ++ 93 :: rest) c o (42 :: num ++ 93 :: rest)) (Hn : count num 0) (Hr : rest <> [])
  (H1 : string1 a = 91 :: b :: w ++ 42 :: num ++ 93 :: rest) (H2 : string2 a = None) (Hone : xorb (dflag a) (sflag a) = true) :
  main loc fuel a input = Ex OutOfFuel.
Proof.
  assert (setup loc fuel (string1 a) (behind1 a) (cflag a) (Cflag a) = Ex OutOfFuel) as E.
  { unfold setup. destruct (sequence_bracket loc b w c o num 0 rest (start_str (string1 a) (behind1 a)) N1 N2 H42 H93 Hc Hn eq_refl H1) as (s' & En & Hs & _ & Hl & Es).
    destruct fuel as [|fuel]; [done|]. cbn [setup_loop]. rewrite En. cbn [Z.eqb] in Hs. rewrite fill_stays by (done || by rewrite Es). cbn [mbind tr_bind].
    pose proof (inner_char_bound loc Hloc _ _ _ _ Hc) as Hb.
    destruct (cset_add_set (Tr.iswctype loc) cset_alloc _ (lastch s') (cset_alloc_set _) ltac:(rewrite Hl; exact Hb)) as (cs & -> & HX). cbn [checked mbind tr_bind].
    rewrite (setup_loop_hangs loc s' fuel cs _ Hs) by (rewrite ?Es, ?Hl; done). done. }
  unfold main. rewrite H2, E. by destruct (dflag a), (sflag a).
Qed.

(** Whether an operand that ends in a bracket is accepted depends on what stands behind it in memory: [bracket] looks for an asterisk and a
    closing bracket from the second octet on, which is behind the NUL; when it finds them there, tr
    ends with "misplaced sequence asterisk", and when there is no asterisk the bracket stands for itself. *)
Theorem last_bracket_reads_on after (Hnul : mbrtowc loc [] = Some (0, O)) (Hbr : mbrtowc loc [91] = Some (91, 1%nat)) :
  (forall x y, after = x ++ 42 :: y -> ~ In 42 x -> ~ In 93 x -> In 93 y -> next loc (start_str [91] after) = Ex MisplacedAsterisk) /\
  (~ In 42 after -> exists s, next loc (start_str [91] after) = Ok (true, s) /\ lastch s = 91 /\ state s = NORMAL /\ str s = []).
Proof.
  split.
  - intros x y -> H42 H93 Hy. rewrite next_eq. unfold next_body. cbn [start_str state str]. cbn [Z.eqb Pos.eqb]. unfold bracket. cbn [str start_str tail first drop Z.eqb orb].
    unfold bracket_repeat. cbn [str start_str behind]. rewrite strpbrk_app; [|by intros z Hz [<-|[<-|[]]]|by left]. rewrite drop_app_length. cbn [first Z.eqb Pos.eqb negb orb].
    rewrite bool_decide_false.
    + unfold genseq. cbn [set_str str tail first Z.eqb]. rewrite Hnul. done.
    + intros E. assert (forall l, In 93 l -> strchr l 93 <> None) as Hin.
      { clear. induction l as [|z l IH]; [done|]. intros [->|H]; cbn; [done|]. destruct (z =? 93); [done|]. specialize (IH H). by destruct (strchr l 93). }
      apply (Hin (42 :: y)); [by right|done].
  - intros H42. exists (set_str [] (set_lastch 91 (start_str [91] after))). split; [|by split_and!].
    { rewrite next_eq. unfold next_body. cbn [start_str state str]. cbn [Z.eqb Pos.eqb]. unfold bracket. cbn [str start_str tail first drop Z.eqb orb].
      unfold bracket_repeat. cbn [str start_str behind]. destruct (strpbrk after [42; 93]) as [p|] eqn:Ep.
      * apply strpbrk_some in Ep as (x & d & y & -> & <- & Hd & _). rewrite drop_app_length. cbn [first]. destruct Hd as [<-|[<-|[]]].
        -- exfalso. apply H42, in_app_iff. right. by left.
        -- cbn [Z.eqb Pos.eqb negb orb mbind tr_bind str start_str]. rewrite Hbr. reflexivity.
      * cbn [mbind tr_bind str start_str]. rewrite Hbr. reflexivity. }
Qed.

End Writes.

(** ** Runs *)

Lemma tr_filters_witness :
  main C_locale 10 (plain_args false false true false [97; 45; 99] None) [97; 120; 98; 99; 100] = Ok [120; 100] /\
  main C_locale 10 (plain_args false true true true [97; 45; 99] (Some [98])) [97; 98; 98; 120; 98; 99] = Ok [97; 98; 99].
Proof.
  split.
  - destruct (tr_filters C_locale C_locale_ok true (plain_args false false true false [97; 45; 99] None) [97; 98; 99] 10 [97; 120; 98; 99; 100] C_range) as (H & _).
    1: cbn; lia.
    1: repeat constructor; lia.
    rewrite (H eq_refl eq_refl eq_refl). vm_compute. reflexivity.
  - destruct (tr_filters C_locale C_locale_ok true (plain_args false true true true [97; 45; 99] (Some [98])) [97; 98; 99] 10 [97; 98; 98; 120; 98; 99] C_range) as (_ & _ & H).
    1: cbn; lia.
    1: repeat constructor; lia.
    rewrite (H [98] true [98] eq_refl eq_refl eq_refl); [vm_compute; reflexivity| |cbn; lia]. apply C_char; try lia; [done|constructor].
Defined.

Lemma tr_translates_witness :
  main C_locale 200 (plain_args false false false false [97; 45; 99] (Some [120; 121])) [97; 98; 99; 100] = Ok [120; 121; 121; 100] /\
  main C_locale 200 (plain_args false true false true [97; 45; 99] (Some [120; 121])) [97; 0; 1; 1; 100; 98] = Ok [97; 120; 121; 98].
Proof.
  assert (denotes C_locale false [120; 121] [120; 121]) as Hd by (apply C_char; try done; apply C_char; try done; constructor). split.
  - refine (eq_trans (proj1 (tr_translates C_locale C_locale_ok true (plain_args false false false false [97; 45; 99] (Some [120; 121])) [120; 121] [97; 98; 99] [120; 121] 200 [97; 98; 99; 100] C_range eq_refl Hd _ _ _ _ _ _ _)) _).
    8: vm_compute; reflexivity.
    all: try done; try (cbn; lia).
    all: repeat constructor; unfold Tr.WCHAR_MAX; lia.
  - refine (eq_trans (proj2 (tr_translates C_locale C_locale_ok true (plain_args false true false true [97; 45; 99] (Some [120; 121])) [120; 121] [97; 98; 99] [120; 121] 200 [97; 0; 1; 1; 100; 98] C_range eq_refl Hd _ _ _ _ _ _ _) eq_refl (or_introl eq_refl)) _).
    8: vm_compute; reflexivity.
    all: try done; try (cbn; lia).
    all: repeat constructor; unfold Tr.WCHAR_MAX; lia.
Defined.

Fixpoint class_list (n : nat) (cls c : Z) : option (list Z) :=
  match n with
  | O => None
  | S n => if nextwctype C_locale c cls =? -1 then Some [] else l ← class_list n cls (nextwctype C_locale c cls); Some (nextwctype C_locale c cls :: l)
  end.
Lemma class_list_chars n cls : forall c l, class_list n cls c = Some l -> class_chars C_locale cls c l.
Proof.
  induction n as [|n IH]; intros c l H; [done|]. cbn [class_list] in H. destruct (Z.eqb_spec (nextwctype C_locale c cls) (-1)) as [E|E].
  - injection H as <-. by apply class_end.
  - destruct (class_list n cls _) as [l'|] eqn:El; [|done]. injection H as <-. apply class_more; [done|by apply IH].
Qed.

Lemma case_conversion_witness :
  main C_locale 1000 (plain_args false false false true (class_text lower_text) (Some (class_text upper_text))) [97; 66; 122; 122; 48; 48] = Ok [65; 66; 90; 48; 48].
Proof.
  rewrite (case_conversion C_locale (plain_args false false false true (class_text lower_text) (Some (class_text upper_text))) CCLASS_LOWER (class_text upper_text) (seqZ 97 26) (seqZ 65 26) 1000 [97; 66; 122; 122; 48; 48] (or_introl eq_refl)
    eq_refl eq_refl eq_refl).
  1: vm_compute; reflexivity.
  1, 2: done.
  1, 2: apply (class_list_chars 30); vm_compute; reflexivity.
  1, 2: discriminate.
  1: apply List.Forall_forall; intros x Hx; apply list_elem_of_In, elem_of_seqZ in Hx; change (conv C_locale CCLASS_LOWER x) with (if (97 <=? x) && (x <=? 122) then x - 32 else x); change Tr.WCHAR_MAX with 2147483647; destruct ((97 <=? x) && (x <=? 122)); lia.
  1, 2: rewrite length_seqZ; lia.
  1, 2, 3: done.
  repeat constructor; unfold Tr.WCHAR_MAX; lia.
Defined.

Lemma fill_hangs_witness : main C_locale 1000 (plain_args false false true false [91; 97; 42; 93; 98] None) [97] = Ex OutOfFuel.
Proof.
  apply (fill_hangs C_locale C_locale_ok _ 97 [] 97 false [] [98]); try done; try lia; try (by intros []).
  - by apply (inner_plain C_locale 97 [42; 93; 98] 97 0).
  - constructor.
Defined.

Lemma last_bracket_reads_on_witness :
  next C_locale (start_str [91] [40; 42; 93]) = Ex MisplacedAsterisk /\
  main C_locale 1000 (plain_args false false false false [91] (Some [40; 42; 93])) [91] = Ex MisplacedAsterisk /\
  main C_locale 1000 (plain_args false false false false [91] (Some [40; 42])) [91] = Ok [40].
Proof.
  destruct (last_bracket_reads_on C_locale [40; 42; 93] eq_refl eq_refl) as [H _].
  split; [apply (H [40] [93]); cbn; auto; lia|]. split; vm_compute; reflexivity.
Defined.

(** The letters z are not squeezed although z is in the second operand: only the characters that have a partner are. *)
Example partners_squeezed : main C_locale 1000 (plain_args false false false true [97] (Some [120; 122])) [122; 122; 120; 97] = Ok [122; 122; 120].
Proof. vm_compute. reflexivity. Qed.
(** An equivalence class begins with its character and then has it again: [=a=]b to xyz takes a to y and b to z. *)
Example equivalent_twice : main C_locale 1000 (plain_args false false false false [91; 61; 97; 61; 93; 98] (Some [120; 121; 122])) [97; 98] = Ok [121; 122].
Proof. vm_compute. reflexivity. Qed.
