(* ===== verification/TelnetNeg.v ===== *)
(** * telnet and telnetd: the option negotiation of one option

    Both programs of remote_cmds run the same machine for each option and each direction
    ([options], [do_dont_resp] and [will_wont_resp] of src/remote_cmds/telnetd.tproj/state.c and
    src/remote_cmds/telnet.tproj/telnet.c): what was negotiated last, what is wanted, and how
    many requests are unanswered.  This file has that machine ([initiate], [receive]), the one of state.c's comment ([comment_receive]), the
    system of two of them joined by two queues, and the proof that it settles: the number
    of messages is bounded, and when no message is under way both ends agree.
    [TelnetPair] shows that the two programs are such a system. *)

From Stdlib Require Import ZArith Lia List Bool.
From stdpp Require Import base tactics list numbers.
From S2P Require Import Prelude.

Local Open Scope Z_scope.

Lemma eqb_is_true b : eqb b true = b.
Proof. by destruct b. Qed.

Lemma eqb_is_false b : eqb b false = negb b.
Proof. by destruct b. Qed.

(** Both sides of an equation branch on the same condition. *)
Ltac bool_eqb :=
  rewrite ?eqb_is_true, ?eqb_is_false;
  match goal with |- context [if ?c then _ else _] => destruct c end.

(** ** One end *)

(** [st]: the last state negotiated; [want]: the state asked for; [resp]: requests without
    an answer, a [char]. *)
Record side := mkSide { st : bool; want : bool; resp : Z }.

Definition side0 : side := mkSide false false 0.

(** [send_do], [send_dont], [send_will], [send_wont] with [init] set: the new state asked for
    and what is sent. *)
Definition initiate (n : bool) (s : side) : side * list bool :=
  if ((resp s =? 0) && eqb (st s) n) || eqb (want s) n then (s, [])
  else (mkSide (st s) n (swrap 8 (resp s + 1)), [n]).

(** The answers counted when a message arrives. *)
Definition answered (n : bool) (s : side) : Z :=
  if resp s =? 0 then 0
  else
    let r := swrap 8 (resp s - 1) in
    if negb (r =? 0) && eqb (st s) n then swrap 8 (r - 1) else r.

(** [willoption] and [dooption] ([n = true]), [wontoption] and [dontoption]: [ok] says that the
    option may be switched on. *)
Definition receive (ok n : bool) (s : side) : side * list bool :=
  let r := answered n s in
  if (r =? 0) && negb (eqb (want s) n) then
    if n then
      if ok then (mkSide true true r, [true])
      else (mkSide true false (swrap 8 (r + 1)), [false])
    else (mkSide false false r, if st s then [false] else [])
  else (mkSide n (want s) r, []).

(** The machine that the comment of state.c describes: it sends [want_state] whenever it has
    looked at it; [ok]: it may switch to the new state. *)
Definition comment_receive (ok n : bool) (s : side) : side * list bool :=
  let r := answered n s in
  if (r =? 0) && negb (eqb n (want s)) then
    let '(w, r) := if ok then (n, r) else (want s, swrap 8 (r + 1)) in
    (mkSide n w r, [w])
  else (mkSide n (want s) r, []).

(** Off is always allowed.  The two differ only when a refusal or a switch-off arrives for an
    option that is not on: the comment's machine answers it. *)
Lemma receive_comment ok n s :
  receive ok n s =
  let '(x, os) := comment_receive (negb n || ok) n s in (x, if n || st s then os else []).
Proof.
  unfold receive, comment_receive. cbv zeta. generalize (answered n s) as r. intros r.
  by destruct (r =? 0), n, ok, (want s), (st s).
Qed.

(** ** Two ends

    [histA] is all that A has sent, oldest first, of which B has read the first [readB];
    the rest is under way. *)
Record net := mkNet {
  sideA : side; sideB : side;
  histA : list bool; histB : list bool;
  readA : nat; readB : nat }.

Definition net0 : net := mkNet side0 side0 [] [] 0 0.

Inductive event := InitA (n : bool) | InitB (n : bool) | RecvA | RecvB.

(** An end asks for an option only when it would accept it itself. *)
Definition net_step (okA okB : bool) (e : event) (s : net) : option net :=
  match e with
  | InitA n =>
      if n && negb okA then None
      else let '(a, o) := initiate n (sideA s) in
           Some (mkNet a (sideB s) (histA s ++ o) (histB s) (readA s) (readB s))
  | InitB n =>
      if n && negb okB then None
      else let '(b, o) := initiate n (sideB s) in
           Some (mkNet (sideA s) b (histA s) (histB s ++ o) (readA s) (readB s))
  | RecvA =>
      n ← histB s !! readA s;
      let '(a, o) := receive okA n (sideA s) in
      Some (mkNet a (sideB s) (histA s ++ o) (histB s) (S (readA s)) (readB s))
  | RecvB =>
      n ← histA s !! readB s;
      let '(b, o) := receive okB n (sideB s) in
      Some (mkNet (sideA s) b (histA s) (histB s ++ o) (readA s) (S (readB s)))
  end.

Fixpoint net_run (okA okB : bool) (es : list event) (s : net) : option net :=
  match es with
  | [] => Some s
  | e :: es' => s' ← net_step okA okB e s; net_run okA okB es' s'
  end.

(** Nothing is under way. *)
Definition quiet (s : net) : Prop :=
  readA s = length (histB s) /\ readB s = length (histA s).

(** The counters are [char]s: a side that has sent fewer than 128 messages is inside them. *)
Definition in_range (s : net) : Prop :=
  (length (histA s) < 128)%nat /\ (length (histB s) < 128)%nat.

(** ** Counting *)

Definition is_init (e : event) : bool :=
  match e with InitA _ | InitB _ => true | RecvA | RecvB => false end.

Definition inits (es : list event) : nat := length (List.filter is_init es).
Definition receives (es : list event) : nat :=
  length (List.filter (fun e => negb (is_init e)) es).

Lemma inits_cons e es :
  inits (e :: es) = ((if is_init e then 1 else 0) + inits es)%nat.
Proof. by destruct e. Qed.

Lemma receives_cons e es :
  receives (e :: es) = ((if is_init e then 0 else 1) + receives es)%nat.
Proof. by destruct e. Qed.

Lemma s8_small z : 0 <= z < 128 -> swrap 8 z = z.
Proof. intros. apply swrap_small; simpl; lia. Qed.

(** The two ends of the system are alike. *)
Definition swap (s : net) : net :=
  mkNet (sideB s) (sideA s) (histB s) (histA s) (readB s) (readA s).

Definition swap_event (e : event) : event :=
  match e with InitA n => InitB n | InitB n => InitA n | RecvA => RecvB | RecvB => RecvA end.

Lemma swap_init e : is_init (swap_event e) = is_init e.
Proof. by destruct e. Qed.

Lemma swap_step okA okB e s :
  net_step okB okA (swap_event e) (swap s) = swap <$> net_step okA okB e s.
Proof.
  destruct e as [n|n| |]; simpl.
  - destruct (n && negb okA); [done|]. by destruct (initiate n (sideA s)).
  - destruct (n && negb okB); [done|]. by destruct (initiate n (sideB s)).
  - destruct (histB s !! readA s); simpl; [|done]. by destruct (receive okA b (sideA s)).
  - destruct (histA s !! readB s); simpl; [|done]. by destruct (receive okB b (sideB s)).
Qed.

Lemma initiate_length n x x' o : initiate n x = (x', o) -> (length o <= 1)%nat.
Proof. unfold initiate. intros E. case_match; injection E as <- <-; simpl; lia. Qed.

Lemma receive_length ok n x x' o : receive ok n x = (x', o) -> (length o <= 1)%nat.
Proof.
  unfold receive. intros E. repeat case_match; injection E as <- <-; simpl; lia.
Qed.

(** ** Both ends accept: the messages of an end alternate *)

Definition alternates (h : list bool) : Prop :=
  forall i n, h !! i = Some n -> n = Nat.even i.

Record end_ok (x : side) (h : list bool) (rd : nat) : Prop := {
  eo_want : want x = Nat.odd (length h);
  eo_st : st x = Nat.odd rd;
  eo_read : (rd <= length h)%nat;
  eo_resp : resp x = Z.of_nat (length h) - Z.of_nat rd;
  eo_alt : alternates h }.

Lemma alternates_snoc h : alternates h -> alternates (h ++ [Nat.even (length h)]).
Proof.
  intros H i n Hi. apply lookup_app_Some in Hi as [Hi|[Hl Hi]]; [by apply H|].
  apply list_lookup_singleton_Some in Hi as [Hn <-]. f_equal. lia.
Qed.

Lemma even_negb n : Nat.even n = negb (Nat.odd n).
Proof. by rewrite <- Nat.negb_odd. Qed.

Lemma initiate_ok n x h rd x' o :
  end_ok x h rd -> initiate n x = (x', o) -> (length (h ++ o) < 128)%nat ->
  end_ok x' (h ++ o) rd.
Proof.
  intros [Hw Hs Hr Hp Ha] E Hl. unfold initiate in E.
  destruct ((resp x =? 0) && eqb (st x) n || eqb (want x) n) eqn:C;
    injection E as <- <-; [by rewrite app_nil_r|].
  apply orb_false_iff in C as [_ C]. apply eqb_false_iff in C.
  rewrite length_app in Hl. simpl in Hl.
  assert (n = Nat.even (length h)) as ->
    by (rewrite even_negb, <- Hw; by destruct n, (want x)).
  split; cbn [want st resp].
  - by rewrite length_app, Nat.add_1_r, Nat.odd_succ.
  - done.
  - rewrite length_app. lia.
  - rewrite length_app, s8_small; simpl; lia.
  - by apply alternates_snoc.
Qed.

Lemma receive_ok n x h rd x' o :
  end_ok x h rd -> n = Nat.even rd -> receive true n x = (x', o) ->
  (length (h ++ o) < 128)%nat ->
  end_ok x' (h ++ o) (S rd) /\ (o = [] \/ length h = rd).
Proof.
  intros [Hw Hs Hr Hp Ha] -> E Hl. unfold receive in E.
  assert (answered (Nat.even rd) x = Z.of_nat (length h - S rd)) as An.
  { unfold answered. rewrite Hs. rewrite length_app in Hl. destruct (Z.eqb_spec (resp x) 0); [lia|].
    assert (eqb (Nat.odd rd) (Nat.even rd) = false) as ->
      by (rewrite even_negb; by destruct (Nat.odd rd)).
    rewrite andb_false_r, s8_small; lia. }
  rewrite An in E. destruct (decide (length h = rd)) as [<-|Hne].
  - rewrite Hw, even_negb in E.
    replace (length h - S (length h))%nat with 0%nat in E by lia. split; [|by right].
    destruct (Nat.odd (length h)) eqn:Ho; simpl in E; rewrite ?Hs in E;
      injection E as <- <-; rewrite length_app in Hl.
    all: split; cbn [want st resp]; rewrite ?length_app; simpl;
      rewrite ?Nat.add_1_r, ?Nat.odd_succ, ?even_negb, ?Ho; try done; try lia.
    all: pose proof (alternates_snoc h Ha) as Hs'; by rewrite even_negb, Ho in Hs'.
  - assert ((Z.of_nat (length h - S rd) =? 0) && negb (eqb (want x) (Nat.even rd)) = false) as C.
    { destruct (Z.eqb_spec (Z.of_nat (length h - S rd)) 0); [|done].
      rewrite Hw. replace (length h) with (S rd) by lia. rewrite Nat.odd_succ.
      by rewrite eqb_reflx. }
    rewrite C in E. injection E as <- <-. rewrite app_nil_r in *.
    split; [|by left]. split; cbn [want st resp]; try done; [by rewrite Nat.odd_succ|lia|lia].
Qed.

(** ** One end refuses

    The end that refuses answers each request to switch on with a refusal and nothing else;
    the other end takes a refusal for the answer to its request and to a request to switch
    off that followed it. *)

Definition trues (h : list bool) : nat := length (List.filter (fun n : bool => n) h).

Lemma trues_app h1 h2 : trues (h1 ++ h2) = (trues h1 + trues h2)%nat.
Proof. unfold trues. by rewrite List.filter_app, length_app. Qed.

Lemma trues_single (n : bool) : trues [n] = (if n then 1 else 0)%nat.
Proof. by destruct n. Qed.

Lemma trues_take_S (h : list bool) i (n : bool) :
  h !! i = Some n -> trues (take (S i) h) = (trues (take i h) + (if n then 1 else 0))%nat.
Proof. intros H. rewrite (take_S_r _ _ _ H), trues_app. by destruct n. Qed.

Lemma trues_take h i : (trues (take i h) <= trues h)%nat.
Proof. rewrite <- (take_drop i h) at 2. rewrite trues_app. lia. Qed.

Lemma trues_length h : (trues h <= length h)%nat.
Proof. unfold trues. apply List.filter_length_le. Qed.

Lemma trues_0 h i n : trues h = 0%nat -> h !! i = Some n -> n = false.
Proof.
  intros H Hi. pose proof (trues_take_S _ _ _ Hi). pose proof (trues_take h (S i)).
  destruct n; [lia|done].
Qed.

Record refuser_ok (x : side) (h : list bool) (rd : nat) (peer : list bool) : Prop := {
  ro_want : want x = false;
  ro_resp : resp x = b2z (st x);
  ro_none : trues h = 0%nat;
  ro_answers : length h = trues (take rd peer) }.

Record asker_ok (y : side) (h : list bool) (rd : nat) : Prop := {
  ao_st : st y = false;
  ao_read : (rd <= trues h)%nat;
  ao_open : want y = true -> (rd < trues h)%nat;
  ao_resp : resp y = 2 * (Z.of_nat (trues h) - Z.of_nat rd) - b2z (want y);
  ao_range : resp y <= Z.of_nat (length h) }.

Lemma asker_initiate_ok n y h rd y' o :
  asker_ok y h rd -> initiate n y = (y', o) -> (length (h ++ o) < 128)%nat ->
  asker_ok y' (h ++ o) rd.
Proof.
  intros [Hs Hr Hop Hp Hra] E Hl. unfold initiate in E. rewrite Hs in E.
  destruct ((resp y =? 0) && eqb false n || eqb (want y) n) eqn:C;
    injection E as <- <-; [by rewrite app_nil_r|].
  apply orb_false_iff in C as [_ C]. apply eqb_false_iff in C.
  rewrite length_app in Hl. simpl in Hl.
  assert (0 <= resp y).
  { rewrite Hp. destruct (want y); simpl; [specialize (Hop eq_refl)|]; lia. }
  rewrite s8_small by lia.
  split; cbn [want st resp]; rewrite ?trues_app, ?length_app; try done;
    rewrite ?trues_single;
    destruct n, (want y); simpl in *; try done; try specialize (Hop eq_refl); lia.
Qed.

Lemma asker_answered y h rd :
  asker_ok y h rd -> (S rd <= trues h)%nat -> (length h < 128)%nat ->
  answered false y = (if decide (trues h = S rd) then 0
    else 2 * (Z.of_nat (trues h) - Z.of_nat (S rd)) - b2z (want y)).
Proof.
  intros [Hs Hr Hop Hp Hra] Hk Hl. unfold answered. rewrite Hs. simpl eqb. rewrite andb_true_r.
  destruct (want y); simpl in *;
    (destruct (Z.eqb_spec (resp y) 0); [lia|]); rewrite s8_small by lia;
    destruct (Z.eqb_spec (resp y - 1) 0); simpl; rewrite ?s8_small by lia;
    destruct (decide (trues h = S rd)); lia.
Qed.

Lemma asker_receive_ok ok y h rd y' o :
  asker_ok y h rd -> (S rd <= trues h)%nat -> (length h < 128)%nat ->
  receive ok false y = (y', o) -> o = [] /\ asker_ok y' h (S rd).
Proof.
  intros H Hk Hl E. unfold receive in E. rewrite (asker_answered _ _ _ H Hk Hl) in E.
  destruct H as [Hs Hr Hop Hp Hra]. rewrite Hs in E.
  destruct (decide (trues h = S rd)) as [E1|E1]; simpl in E.
  - destruct (want y); simpl in E; injection E as <- <-; split; try done;
      split; cbn [want st resp b2z]; try done; lia.
  - assert ((2 * (Z.of_nat (trues h) - Z.of_nat (S rd)) - b2z (want y) =? 0) = false) as Z0
      by (apply Z.eqb_neq; destruct (want y); simpl; lia).
    rewrite Z0 in E. injection E as <- <-. split; [done|].
    split; cbn [want st resp]; try done; try lia.
Qed.

Lemma refuser_initiate n x h rd peer :
  refuser_ok x h rd peer -> n = false -> initiate n x = (x, []).
Proof.
  intros [Hw _ _ _] ->. unfold initiate. rewrite Hw. simpl. by rewrite orb_true_r.
Qed.

Lemma refuser_receive_ok n x h rd peer x' o :
  refuser_ok x h rd peer -> peer !! rd = Some n -> receive false n x = (x', o) ->
  refuser_ok x' (h ++ o) (S rd) peer /\ length o = (if n then 1 else 0)%nat.
Proof.
  intros [Hw Hp Hn Ha] Hl E. unfold receive, answered in E. rewrite Hw, Hp in E.
  destruct n, (st x); simpl in E; injection E as <- <-.
  all: split; [|done]; split; cbn [want st resp]; try done;
    rewrite ?app_nil_r, ?trues_app, ?trues_single, ?length_app, ?(trues_take_S _ _ _ Hl);
    simpl; lia.
Qed.

(** ** The invariant of the system

    [k] is the number of requests started so far. *)

Definition both_ok (k : nat) (s : net) : Prop :=
  end_ok (sideA s) (histA s) (readA s) /\ end_ok (sideB s) (histB s) (readB s) /\
  (readA s <= length (histB s) <= k)%nat /\ (readB s <= length (histA s) <= k)%nat.

(** A refuses, B asks. *)
Definition refuse_ok (k : nat) (s : net) : Prop :=
  refuser_ok (sideA s) (histA s) (readA s) (histB s) /\
  asker_ok (sideB s) (histB s) (readB s) /\
  (readA s <= length (histB s) <= k)%nat /\ (readB s <= length (histA s))%nat.

Definition neg_inv (okA okB : bool) (k : nat) (s : net) : Prop :=
  match okA, okB with
  | true, true => both_ok k s
  | false, true => refuse_ok k s
  | true, false => refuse_ok k (swap s)
  | false, false => s = net0
  end.

Lemma end_ok0 : end_ok side0 [] 0.
Proof. by split. Qed.

Lemma neg_inv0 okA okB : neg_inv okA okB 0 net0.
Proof.
  destruct okA, okB; simpl; [| | |done]; unfold both_ok, refuse_ok; split_and!; try done.
  all: split; simpl; try done; lia.
Qed.

Lemma both_swap k s : both_ok k s -> both_ok k (swap s).
Proof. intros (HA & HB & LA & LB). exact (conj HB (conj HA (conj LB LA))). Qed.

(** A step of A; a step of B is one of A in the system seen from the other end. *)
Lemma both_stepA e k s s' :
  both_ok k s -> match e with InitA _ | RecvA => True | _ => False end ->
  net_step true true e s = Some s' -> in_range s' ->
  both_ok (k + if is_init e then 1 else 0) s'.
Proof.
  intros (HA & HB & [Hr1 Hk1] & [Hr2 Hk2]) He E [L1 L2]. destruct e as [n|n| |]; simpl in E; try done.
  - rewrite andb_false_r in E. destruct (initiate n (sideA s)) as [a o] eqn:I.
    injection E as <-. simpl in *. pose proof (initiate_ok _ _ _ _ _ _ HA I L1).
    pose proof (initiate_length _ _ _ _ I). rewrite length_app in *.
    split_and!; simpl; try done; rewrite ?length_app; lia.
  - destruct (histB s !! readA s) as [n|] eqn:Hn; [|done]. simpl in E.
    destruct (receive true n (sideA s)) as [a o] eqn:R. injection E as <-. simpl in *.
    pose proof (lookup_lt_Some _ _ _ Hn).
    destruct (receive_ok _ _ _ _ _ _ HA (eo_alt _ _ _ HB _ _ Hn) R L1) as [HA' Ho].
    pose proof (receive_length _ _ _ _ _ R). rewrite length_app in *.
    split_and!; simpl; try done; rewrite ?length_app; destruct Ho as [->|]; simpl in *; lia.
Qed.

Lemma both_step e k s s' :
  both_ok k s -> net_step true true e s = Some s' -> in_range s' ->
  both_ok (k + if is_init e then 1 else 0) s'.
Proof.
  intros H E [L1 L2].
  assert (net_step true true (swap_event e) (swap s) = Some (swap s')) as E'
    by (by rewrite swap_step, E).
  destruct e as [n|n| |]; try by eapply both_stepA.
  all: eapply both_stepA, both_swap in E'; [|by apply both_swap|done|by split].
  all: destruct s'; exact E'.
Qed.

Lemma refuse_step e k s s' :
  refuse_ok k s -> net_step false true e s = Some s' -> in_range s' ->
  refuse_ok (k + if is_init e then 1 else 0) s'.
Proof.
  intros (HA & HB & [Hr1 Hk1] & Hr2) E [L1 L2]. destruct e as [n|n| |]; simpl in E.
  - destruct n; [done|]. simpl in E. rewrite (refuser_initiate _ _ _ _ _ HA eq_refl) in E.
    injection E as <-. simpl in *. rewrite app_nil_r in *. split_and!; simpl; try done; try lia.
  - rewrite andb_false_r in E. destruct (initiate n (sideB s)) as [b o] eqn:I.
    injection E as <-. simpl in *. pose proof (asker_initiate_ok _ _ _ _ _ _ HB I L2).
    pose proof (initiate_length _ _ _ _ I). rewrite length_app in *.
    split_and!; simpl; try done; rewrite ?length_app; try lia.
    destruct HA as [? ? ? Ha]. split; try done. rewrite take_app_le by lia. done.
  - destruct (histB s !! readA s) as [n|] eqn:Hn; [|done]. simpl in E.
    destruct (receive false n (sideA s)) as [a o] eqn:R. injection E as <-. simpl in *.
    pose proof (lookup_lt_Some _ _ _ Hn).
    destruct (refuser_receive_ok _ _ _ _ _ _ _ HA Hn R) as [HA' Ho].
    split_and!; simpl; try done; rewrite ?length_app; lia.
  - destruct (histA s !! readB s) as [n|] eqn:Hn; [|done]. simpl in E.
    destruct (receive true n (sideB s)) as [b o] eqn:R. injection E as <-. simpl in *.
    pose proof (lookup_lt_Some _ _ _ Hn).
    assert (n = false) as -> by (apply (trues_0 _ _ _ (ro_none _ _ _ _ HA) Hn)).
    assert (length (histA s) <= trues (histB s))%nat
      by (rewrite (ro_answers _ _ _ _ HA); apply trues_take).
    rewrite length_app in L2.
    destruct (asker_receive_ok true _ _ _ _ _ HB ltac:(lia) ltac:(lia) R) as [-> HB'].
    rewrite app_nil_r in *. split_and!; simpl; try done; try lia.
Qed.

Lemma neg_step_inv okA okB e k s s' :
  neg_inv okA okB k s -> net_step okA okB e s = Some s' -> in_range s' ->
  neg_inv okA okB (k + if is_init e then 1 else 0) s'.
Proof.
  intros H E L. destruct okA, okB; simpl in *.
  - by eapply both_step.
  - rewrite <- (swap_init e). eapply refuse_step; [done| |by destruct L].
    by rewrite swap_step, E.
  - by eapply refuse_step.
  - subst s. by destruct e as [[]|[]| |]; simplify_eq/=.
Qed.

Lemma net_step_grows okA okB e s s' :
  net_step okA okB e s = Some s' ->
  (length (histA s) <= length (histA s'))%nat /\ (length (histB s) <= length (histB s'))%nat /\
  (readA s' + readB s' = readA s + readB s + if is_init e then 0 else 1)%nat.
Proof.
  intros E. destruct e as [n|n| |]; simpl in E.
  all: repeat (case_match; try done); simplify_option_eq; repeat case_match; simplify_eq;
    simpl; rewrite ?length_app; lia.
Qed.

Lemma net_run_grows okA okB es s s' :
  net_run okA okB es s = Some s' ->
  (length (histA s) <= length (histA s'))%nat /\ (length (histB s) <= length (histB s'))%nat /\
  (readA s' + readB s' = readA s + readB s + receives es)%nat.
Proof.
  revert s. induction es as [|e es IH]; intros s E; simpl in E.
  - injection E as ->. unfold receives. simpl. lia.
  - destruct (net_step okA okB e s) as [s1|] eqn:E1; [|done]. simpl in E.
    destruct (net_step_grows _ _ _ _ _ E1) as (? & ? & ?), (IH _ E) as (? & ? & ?).
    rewrite receives_cons. destruct (is_init e); lia.
Qed.

Lemma net_run_inv okA okB es k s s' :
  neg_inv okA okB k s -> net_run okA okB es s = Some s' -> in_range s' ->
  neg_inv okA okB (k + inits es) s'.
Proof.
  revert k s. induction es as [|e es IH]; intros k s H E L; simpl in E.
  - injection E as ->. by rewrite Nat.add_0_r.
  - destruct (net_step okA okB e s) as [s1|] eqn:E1; [|done]. simpl in E.
    destruct (net_run_grows _ _ _ _ _ E) as (? & ? & _).
    rewrite inits_cons, Nat.add_assoc. apply (IH _ s1); [|done|done].
    eapply neg_step_inv; [done|done|]. destruct L. split; lia.
Qed.

(** The invariant bounds what was sent by what was started. *)
Lemma neg_inv_bound okA okB k s :
  neg_inv okA okB k s ->
  (length (histA s) <= k /\ length (histB s) <= k /\
   readA s <= length (histB s) /\ readB s <= length (histA s))%nat.
Proof.
  destruct okA, okB; simpl.
  - intros (_ & _ & ? & ?). lia.
  - intros (H & _ & ? & ?). simpl in *.
    pose proof (ro_answers _ _ _ _ H). pose proof (trues_take (histA s) (readB s)).
    pose proof (trues_length (histA s)). lia.
  - intros (H & _ & ? & ?).
    pose proof (ro_answers _ _ _ _ H). pose proof (trues_take (histB s) (readA s)).
    pose proof (trues_length (histB s)). lia.
  - intros ->. simpl. lia.
Qed.

Lemma net_step_length okA okB e s s' :
  net_step okA okB e s = Some s' ->
  (length (histA s') <= S (length (histA s)))%nat /\
  (length (histB s') <= S (length (histB s)))%nat.
Proof.
  intros E. destruct e as [n|n| |]; simpl in E.
  1,2: destruct (n && _); [done|]; destruct (initiate n _) eqn:I; injection E as <-;
    apply initiate_length in I.
  3: destruct (histB s !! readA s); simpl in E; [|done].
  4: destruct (histA s !! readB s); simpl in E; [|done].
  3,4: destruct (receive _ _ _) eqn:R; injection E as <-; apply receive_length in R.
  all: simpl; rewrite ?length_app; lia.
Qed.

(** Started from a state whose messages are as many as the requests, a run with few enough
    requests stays in range. *)
Lemma net_run_in_range okA okB es k s s' :
  neg_inv okA okB k s -> net_run okA okB es s = Some s' -> (k + inits es < 127)%nat ->
  in_range s'.
Proof.
  revert k s. induction es as [|e es IH]; intros k s H E L; simpl in E.
  - injection E as ->. destruct (neg_inv_bound _ _ _ _ H) as (? & ? & _). split; lia.
  - destruct (net_step okA okB e s) as [s1|] eqn:E1; [|done]. simpl in E.
    rewrite inits_cons in L.
    destruct (neg_inv_bound _ _ _ _ H) as (? & ? & _), (net_step_length _ _ _ _ _ E1).
    apply (IH (k + if is_init e then 1 else 0)%nat s1); [|done|lia].
    eapply neg_step_inv; [done|done|]. split; lia.
Qed.

(** ** The system settles *)

Lemma neg_inv_agree okA okB k s :
  neg_inv okA okB k s -> quiet s ->
  want (sideA s) = want (sideB s) /\
  (want (sideA s) = true -> okA = true /\ okB = true) /\
  (okA = true -> resp (sideA s) = 0 /\ st (sideA s) = want (sideA s)) /\
  (okB = true -> resp (sideB s) = 0 /\ st (sideB s) = want (sideB s)).
Proof.
  assert (forall s, refuse_ok k s -> quiet s ->
    want (sideA s) = want (sideB s) /\ want (sideB s) = false /\
    resp (sideB s) = 0 /\ st (sideB s) = false) as Href.
  { intros s0 (HA & HB & _ & _) [Q1 Q2].
    assert (readB s0 = trues (histB s0)) as Hk
      by (rewrite Q2, (ro_answers _ _ _ _ HA), Q1; by rewrite firstn_all).
    destruct HB as [Bs Br Bo Bp _]. rewrite Hk in Bo, Bp.
    destruct (want (sideB s0)) eqn:W; [specialize (Bo eq_refl); lia|].
    rewrite (ro_want _ _ _ _ HA). simpl in Bp. split_and!; [done|done|lia|done]. }
  intros Hinv Q. destruct okA, okB; simpl in Hinv.
  - destruct Hinv as (HA & HB & _ & _), Q as [Q1 Q2].
    pose proof (eo_read _ _ _ HA). pose proof (eo_read _ _ _ HB).
    assert (length (histA s) = length (histB s)) as L by lia.
    destruct HA as [Aw As _ Ap _], HB as [Bw Bs _ Bp _].
    rewrite Aw, As, Ap, Bw, Bs, Bp, Q1, Q2, L. split_and!; try done; intros; split; lia || done.
  - destruct (Href _ Hinv) as (W1 & W2 & R1 & S1); [by destruct Q|]. simpl in *.
    rewrite W1, W2, R1, S1. by split_and!.
  - destruct (Href _ Hinv Q) as (W1 & W2 & R1 & S1). rewrite W1, W2, R1, S1. by split_and!.
  - rewrite Hinv. by split_and!.
Qed.

Lemma net_run_agree okA okB es s :
  net_run okA okB es net0 = Some s -> in_range s -> quiet s ->
  want (sideA s) = want (sideB s) /\
  (want (sideA s) = true -> okA = true /\ okB = true) /\
  (okA = true -> resp (sideA s) = 0 /\ st (sideA s) = want (sideA s)) /\
  (okB = true -> resp (sideB s) = 0 /\ st (sideB s) = want (sideB s)).
Proof.
  intros E L. apply (neg_inv_agree okA okB (0 + inits es)).
  by apply (net_run_inv _ _ _ _ _ _ (neg_inv0 okA okB) E).
Qed.

(** A run with few requests has at most twice as many deliveries, and while a message is
    under way one can be delivered. *)
Lemma net_run_bounded okA okB es s :
  net_run okA okB es net0 = Some s -> (inits es < 127)%nat ->
  (length (histA s) <= inits es)%nat /\ (length (histB s) <= inits es)%nat /\
  (receives es <= 2 * inits es)%nat.
Proof.
  intros E L. pose proof (net_run_in_range _ _ _ _ _ _ (neg_inv0 okA okB) E L) as R.
  pose proof (net_run_inv _ _ _ _ _ _ (neg_inv0 okA okB) E R) as Hi.
  destruct (neg_inv_bound _ _ _ _ Hi) as (? & ? & ? & ?).
  destruct (net_run_grows _ _ _ _ _ E) as (_ & _ & ?). simpl in *. lia.
Qed.

Lemma net_run_app okA okB es1 es2 s :
  net_run okA okB (es1 ++ es2) s = net_run okA okB es1 s ≫= net_run okA okB es2.
Proof.
  revert s. induction es1 as [|e es1 IH]; intros s; [done|]. simpl.
  destruct (net_step okA okB e s); [apply IH|done].
Qed.
