(* ===== verification/TelnetOpts.v ===== *)
(** * telnet and telnetd: the protocol's numbers and the option words

    The commands and options are those of <arpa/telnet.h> (RFC 854 and the RFCs of the
    options).  [options] has a word of four bits for each option; the macros that test and
    set them are the same in src/remote_cmds/telnetd.tproj/defs.h and
    src/remote_cmds/telnet.tproj/externs.h and are written once here. *)

From Stdlib Require Import ZArith Lia List Bool.
From stdpp Require Import base tactics list numbers functions.
From S2P Require Import Prelude TelnetNeg.

Local Open Scope Z_scope.

(** ** <arpa/telnet.h> *)

Definition IAC := 255.
Definition DONT := 254.
Definition DO := 253.
Definition WONT := 252.
Definition WILL := 251.
Definition SB := 250.
Definition EL := 248.
Definition EC := 247.
Definition AYT := 246.
Definition AO := 245.
Definition IP := 244.
Definition BREAK := 243.
Definition DM := 242.
Definition SE := 240.
Definition EOR := 239.
Definition ABORT := 238.
Definition SUSP := 237.
Definition xEOF := 236.

Definition TELOPT_BINARY := 0.
Definition TELOPT_ECHO := 1.
Definition TELOPT_SGA := 3.
Definition TELOPT_STATUS := 5.
Definition TELOPT_TM := 6.
Definition TELOPT_LOGOUT := 18.
Definition TELOPT_TTYPE := 24.
Definition TELOPT_EOR := 25.
Definition TELOPT_NAWS := 31.
Definition TELOPT_TSPEED := 32.
Definition TELOPT_LFLOW := 33.
Definition TELOPT_LINEMODE := 34.
Definition TELOPT_XDISPLOC := 35.
Definition TELOPT_OLD_ENVIRON := 36.
Definition TELOPT_AUTHENTICATION := 37.
Definition TELOPT_NEW_ENVIRON := 39.
Definition NTELOPTS := 40.

Definition TELQUAL_IS := 0.
Definition TELQUAL_SEND := 1.
Definition TELQUAL_INFO := 2.
Definition TELQUAL_REPLY := 2.
Definition TELQUAL_NAME := 3.
Definition NEW_ENV_VAR := 0.
Definition NEW_ENV_VALUE := 1.
Definition OLD_ENV_VAR := 1.
Definition OLD_ENV_VALUE := 0.
Definition ENV_ESC := 2.
Definition ENV_USERVAR := 3.

Definition LFLOW_OFF := 0.
Definition LFLOW_ON := 1.
Definition LFLOW_RESTART_ANY := 2.
Definition LFLOW_RESTART_XON := 3.

Definition LM_MODE := 1.
Definition LM_FORWARDMASK := 2.
Definition LM_SLC := 3.
Definition MODE_EDIT := 1.
Definition MODE_TRAPSIG := 2.
Definition MODE_ACK := 4.
Definition MODE_SOFT_TAB := 8.
Definition MODE_LIT_ECHO := 16.
Definition MODE_MASK := 31.

(** ** The option words *)

Definition MY_STATE_WILL := 1.
Definition MY_WANT_STATE_WILL := 2.
Definition MY_STATE_DO := 4.
Definition MY_WANT_STATE_DO := 8.

Abbreviation opt_words := (Z -> Z).

Definition tst (f : opt_words) (o mask : Z) : bool := negb (Z.land (f o) mask =? 0).
Definition my_state_is_do f o := tst f o MY_STATE_DO.
Definition my_state_is_will f o := tst f o MY_STATE_WILL.
Definition my_want_state_is_do f o := tst f o MY_WANT_STATE_DO.
Definition my_want_state_is_will f o := tst f o MY_WANT_STATE_WILL.

Definition bit_on (mask o : Z) (f : opt_words) : opt_words := <[o := Z.lor (f o) mask]> f.
Definition bit_off (mask o : Z) (f : opt_words) : opt_words :=
  <[o := Z.land (f o) (Z.lnot mask)]> f.
Definition set_my_state_do := bit_on MY_STATE_DO.
Definition set_my_state_will := bit_on MY_STATE_WILL.
Definition set_my_want_state_do := bit_on MY_WANT_STATE_DO.
Definition set_my_want_state_will := bit_on MY_WANT_STATE_WILL.
Definition set_my_state_dont := bit_off MY_STATE_DO.
Definition set_my_state_wont := bit_off MY_STATE_WILL.
Definition set_my_want_state_dont := bit_off MY_WANT_STATE_DO.
Definition set_my_want_state_wont := bit_off MY_WANT_STATE_WILL.

(** The "tricky code": one bit is added to the word to compare two adjacent bits. *)
Definition my_will_wont_is_changing (f : opt_words) (o : Z) : bool :=
  negb (Z.land (f o + MY_STATE_WILL) MY_WANT_STATE_WILL =? 0).
Definition my_do_dont_is_changing (f : opt_words) (o : Z) : bool :=
  negb (Z.land (f o + MY_STATE_DO) MY_WANT_STATE_DO =? 0).

(** "Make everything symetrical". *)
Definition his_state_is_will := my_state_is_do.
Definition his_want_state_is_will := my_want_state_is_do.
Definition set_his_state_will := set_my_state_do.
Definition set_his_want_state_will := set_my_want_state_do.
Definition set_his_state_wont := set_my_state_dont.
Definition set_his_want_state_wont := set_my_want_state_dont.
Definition his_will_wont_is_changing := my_do_dont_is_changing.
Definition his_do_dont_is_changing := my_will_wont_is_changing.

(** ** Facts *)

Lemma tst_testbit f o k : 0 <= k -> tst f o (2 ^ k) = Z.testbit (f o) k.
Proof.
  intros Hk. unfold tst. destruct (Z.testbit (f o) k) eqn:T.
  - assert (Z.land (f o) (2 ^ k) <> 0) as H; [|by apply Z.eqb_neq in H as ->].
    intros H. assert (Z.testbit (Z.land (f o) (2 ^ k)) k = false) as F by (by rewrite H, Z.bits_0).
    by rewrite Z.land_spec, T, Z.pow2_bits_true in F by done.
  - assert (Z.land (f o) (2 ^ k) = 0) as ->; [|done].
    apply Z.bits_inj'. intros n Hn. rewrite Z.land_spec, Z.bits_0, Z.pow2_bits_eqb by done.
    destruct (Z.eqb_spec k n) as [<-|]; by rewrite ?T, ?andb_false_r.
Qed.

Lemma tst_on f o o' j k : 0 <= j -> 0 <= k ->
  tst (bit_on (2 ^ k) o' f) o (2 ^ j) = tst f o (2 ^ j) || ((o =? o') && (j =? k)).
Proof.
  intros Hj Hk. rewrite !tst_testbit by done. unfold bit_on.
  destruct (Z.eqb_spec o o') as [->|].
  - rewrite fn_lookup_insert, Z.lor_spec, Z.pow2_bits_eqb by done. simpl. by rewrite Z.eqb_sym.
  - rewrite fn_lookup_insert_ne by done. by rewrite orb_false_r.
Qed.

Lemma tst_off f o o' j k : 0 <= j -> 0 <= k ->
  tst (bit_off (2 ^ k) o' f) o (2 ^ j) = tst f o (2 ^ j) && negb ((o =? o') && (j =? k)).
Proof.
  intros Hj Hk. rewrite !tst_testbit by done. unfold bit_off.
  destruct (Z.eqb_spec o o') as [->|].
  - rewrite fn_lookup_insert, Z.land_spec, Z.lnot_spec, Z.pow2_bits_eqb by done.
    simpl. by rewrite Z.eqb_sym.
  - rewrite fn_lookup_insert_ne by done. by rewrite andb_true_r.
Qed.

Lemma add_pow2_carry x k : 0 <= k ->
  Z.testbit (x + 2 ^ k) (k + 1) = xorb (Z.testbit x (k + 1)) (Z.testbit x k).
Proof.
  intros Hk. rewrite (Z.add_comm k 1).
  rewrite <- (Z.div_pow2_bits (x + 2 ^ k) k 1), <- (Z.div_pow2_bits x k 1) by lia.
  replace (Z.testbit x k) with (Z.testbit (x / 2 ^ k) 0)
    by (rewrite Z.div_pow2_bits by lia; f_equal; lia).
  pose proof (Z.pow_pos_nonneg 2 k ltac:(lia) Hk).
  replace (x + 2 ^ k) with (x + 1 * 2 ^ k) by lia. rewrite Z.div_add by lia.
  generalize (x / 2 ^ k) as n. intros n.
  assert (forall m b, 0 <= b < 2 -> Z.testbit m b = Z.testbit (m mod 4) b) as M
    by (intros m b Hb; change 4 with (2 ^ 2); by rewrite Z.mod_pow2_bits_low by lia).
  rewrite (M n 0), (M n 1), (M (n + 1) 1) by lia.
  rewrite <- (Zplus_mod_idemp_l n 1 4).
  pose proof (Z.mod_pos_bound n 4 ltac:(lia)).
  assert (n mod 4 = 0 \/ n mod 4 = 1 \/ n mod 4 = 2 \/ n mod 4 = 3) as [-> | [-> | [-> | ->]]] by lia;
    reflexivity.
Qed.

Lemma changing_xorb f o :
  my_will_wont_is_changing f o = xorb (my_state_is_will f o) (my_want_state_is_will f o) /\
  my_do_dont_is_changing f o = xorb (my_state_is_do f o) (my_want_state_is_do f o).
Proof.
  split.
  - change (tst (fun o => f o + 2 ^ 0) o (2 ^ 1) =
      xorb (tst f o (2 ^ 0)) (tst f o (2 ^ 1))).
    rewrite !tst_testbit, (add_pow2_carry _ 0) by lia. apply xorb_comm.
  - change (tst (fun o => f o + 2 ^ 2) o (2 ^ 3) =
      xorb (tst f o (2 ^ 2)) (tst f o (2 ^ 3))).
    rewrite !tst_testbit, (add_pow2_carry _ 2) by lia. apply xorb_comm.
Qed.
