(* ===== verification/Telnetd.v ===== *)
(** * telnetd: state, terminal, special characters, sending
    ([src/remote_cmds/telnetd.tproj])

    The globals of the program are the fields of [tnd], in groups: the option negotiation
    [negs], the modes [modes], the pseudo-terminal [ttys], the special characters [slcs],
    and the receiving side [rcvs].  Here are the terminal settings (sys_term.c), the
    output buffer and the sending of requests (state.c), and the special characters
    (slc.c).  Built as its Makefile builds it, with LINEMODE and KLUDGELINEMODE and without
    AUTHENTICATION and ENCRYPTION; the diagnostics are off.

    The numbers of <termios.h> and what the system does with a terminal are the class
    [Termios_h].  The pseudo-terminal's settings are [pty]: [tcgetattr] reads them and
    [tcsetattr] replaces them; a process on the other side may change them at any time. *)

From Stdlib Require Import ZArith Lia List Bool.
From stdpp Require Import base tactics list numbers functions.
From S2P Require Import Prelude TelnetNeg TelnetOpts.

Local Open Scope Z_scope.

(** ** Terminals *)

Record termios := mkTermios {
  c_iflag : Z; c_oflag : Z; c_cflag : Z; c_lflag : Z; c_cc : list Z;
  c_ispeed : Z; c_ospeed : Z }.

#[export] Instance termios_eq_dec : EqDecision termios.
Proof. solve_decision. Defined.

Class Termios_h := {
  ISTRIP : Z; ICRNL : Z; IXON : Z; IXANY : Z;
  OPOST : Z; OXTABS : Z; TABDLY : Z; TAB3 : Z; TAB0 : Z;
  CSIZE : Z; CS7 : Z; CS8 : Z; PARENB : Z;
  ECHO : Z; ICANON : Z; ISIG : Z; EXTPROC : Z; ECHOCTL : Z;
  VEOF : nat; VEOL : nat; VEOL2 : nat; VERASE : nat; VWERASE : nat; VKILL : nat;
  VREPRINT : nat; VINTR : nat; VQUIT : nat; VSUSP : nat; VSTART : nat; VSTOP : nat;
  VLNEXT : nat; VDISCARD : nat; VSTATUS : nat;
  POSIX_VDISABLE : Z;
  NSLC : nat;                                (* <arpa/telnet.h> *)
  SIGINT : Z; SIGQUIT : Z; SIGTSTP : Z; SIGINFO : Z;
  ioctl_TIOCEXT : Z -> termios -> termios;   (* the settings after the call *)
  cfsetispeed : Z -> termios -> termios;
  cfsetospeed : Z -> termios -> termios }.

(** ** Special characters *)

Definition SLC_SYNCH := 1.
Definition SLC_BRK := 2.
Definition SLC_IP := 3.
Definition SLC_AO := 4.
Definition SLC_AYT := 5.
Definition SLC_EOR := 6.
Definition SLC_ABORT := 7.
Definition SLC_EOF := 8.
Definition SLC_SUSP := 9.
Definition SLC_EC := 10.
Definition SLC_EL := 11.
Definition SLC_EW := 12.
Definition SLC_RP := 13.
Definition SLC_LNEXT := 14.
Definition SLC_XON := 15.
Definition SLC_XOFF := 16.
Definition SLC_FORW1 := 17.
Definition SLC_FORW2 := 18.
Definition SLC_NOSUPPORT := 0.
Definition SLC_CANTCHANGE := 1.
Definition SLC_VARIABLE := 2.
Definition SLC_DEFAULT := 3.
Definition SLC_LEVELBITS := 3.
Definition SLC_ACK := 128.
Definition SLC_FLUSHIN := 64.
Definition SLC_FLUSHOUT := 32.

(** [slcfun]: [sptr] points into [termbuf.c_cc]. *)
Record slcfun := mkSlcfun {
  def_flag : Z; def_val : Z; cur_flag : Z; cur_val : Z; sptr : option nat }.

Definition slcfun0 : slcfun := mkSlcfun 0 0 0 0 None.

(** ** The state *)

Definition REAL_LINEMODE := 4.
Definition KLUDGE_OK := 3.
Definition NO_AUTOKLUDGE := 2.
Definition KLUDGE_LINEMODE := 1.
Definition NO_LINEMODE := 0.

Inductive clock :=
  | clk_system | clk_ttypesubopt | clk_tspeedsubopt | clk_environsubopt
  | clk_oenvironsubopt | clk_xdisplocsubopt | clk_baseline | clk_gotDM.

#[export] Instance clock_eq_dec : EqDecision clock.
Proof. solve_decision. Defined.

(** State of the receiving machine. *)
Inductive ts :=
  TS_DATA | TS_IAC | TS_CR | TS_SB | TS_SE | TS_WILL | TS_WONT | TS_DO | TS_DONT.

#[export] Instance ts_eq_dec : EqDecision ts.
Proof. solve_decision. Defined.

(** What a [write] to the pseudo-terminal does. *)
Inductive ptywrite := Wrote (n : nat) | WouldBlock | WriteError.

Inductive envcall := Setenv (name val : list Z) | Unsetenv (name : list Z).

(** [netobuf]: the messages that wait in the output buffer; [netsent]: those written to the
    network, both oldest first.  [slcbuf]: what stands after its first four octets.
    [def_tspeed] and the window size wait for the terminal to be set up ([terminit]).
    [netip]: the octets read from the network and not yet handled; [subbuffer] from 0 to
    [subend] is the suboption; [ptyobuf] holds what [pfrontp] has passed, of which
    [pbackp] octets are written to the terminal; [ptywrites]: what the next writes do;
    [ptysent], [ptysig], [environ]: octets, signals and environment calls made;
    [urgent]: what the next [stilloob] say. *)
Record negs := mkNegs { options : Z -> Z; do_dont_resp : Z -> Z; will_wont_resp : Z -> Z; netobuf
  : list (list Z); netsent : list (list Z) }.
Record modes := mkModes { not42 : Z; lmodetype : Z; linemode : Z; uselinemode : Z; editmode : Z;
  useeditmode : Z; alwayslinemode : Z; flowmode : Z; restartany : Z }.
Record ttys := mkTtys { pty : termios; termbuf : termios; termbuf2 : termios; winsize : option (Z
  * Z); def_tspeed : Z; def_rspeed : Z; def_col : Z; def_row : Z; terminit : bool }.
Record slcs := mkSlcs { slctab : list slcfun; slcchange : bool; slcbuf : list Z; def_slcbuf :
  option (list Z) }.
Record rcvs := mkRcvs { netip : list Z; rstate : ts; subbuffer : list Z; subpointer : nat; subend
  : nat; ptyobuf : list Z; pbackp : nat; ptywrites : list ptywrite; ptysent : list Z; ptysig :
  list Z; SYNCHing : bool; urgent : list bool; terminaltype : option (list Z); env_ovar : Z;
  env_ovalue : Z; environ : list envcall }.
Record tnd := mkTnd { ng : negs; md : modes; ty : ttys; sl : slcs; rc : rcvs; clocks : clock -> Z
  }.

(** Assignments to one global. *)

Definition in_ng (f : negs -> negs) (s : tnd) : tnd := mkTnd (f (ng s)) (md s) (ty s) (sl s) (rc
  s) (clocks s).
Definition in_md (f : modes -> modes) (s : tnd) : tnd := mkTnd (ng s) (f (md s)) (ty s) (sl s) (rc
  s) (clocks s).
Definition in_ty (f : ttys -> ttys) (s : tnd) : tnd := mkTnd (ng s) (md s) (f (ty s)) (sl s) (rc
  s) (clocks s).
Definition in_sl (f : slcs -> slcs) (s : tnd) : tnd := mkTnd (ng s) (md s) (ty s) (f (sl s)) (rc
  s) (clocks s).
Definition in_rc (f : rcvs -> rcvs) (s : tnd) : tnd := mkTnd (ng s) (md s) (ty s) (sl s) (f (rc
  s)) (clocks s).
Definition set_clocks v (s : tnd) : tnd := mkTnd (ng s) (md s) (ty s) (sl s) (rc s) v.

Definition set_options v := in_ng (fun s => mkNegs v (do_dont_resp s) (will_wont_resp s) (netobuf
  s) (netsent s)).
Definition set_do_dont_resp v := in_ng (fun s => mkNegs (options s) v (will_wont_resp s) (netobuf
  s) (netsent s)).
Definition set_will_wont_resp v := in_ng (fun s => mkNegs (options s) (do_dont_resp s) v (netobuf
  s) (netsent s)).
Definition set_netobuf v := in_ng (fun s => mkNegs (options s) (do_dont_resp s) (will_wont_resp s)
  v (netsent s)).
Definition set_netsent v := in_ng (fun s => mkNegs (options s) (do_dont_resp s) (will_wont_resp s)
  (netobuf s) v).

Definition set_not42 v := in_md (fun s => mkModes v (lmodetype s) (linemode s) (uselinemode s)
  (editmode s) (useeditmode s) (alwayslinemode s) (flowmode s) (restartany s)).
Definition set_lmodetype v := in_md (fun s => mkModes (not42 s) v (linemode s) (uselinemode s)
  (editmode s) (useeditmode s) (alwayslinemode s) (flowmode s) (restartany s)).
Definition set_linemode v := in_md (fun s => mkModes (not42 s) (lmodetype s) v (uselinemode s)
  (editmode s) (useeditmode s) (alwayslinemode s) (flowmode s) (restartany s)).
Definition set_uselinemode v := in_md (fun s => mkModes (not42 s) (lmodetype s) (linemode s) v
  (editmode s) (useeditmode s) (alwayslinemode s) (flowmode s) (restartany s)).
Definition set_editmode v := in_md (fun s => mkModes (not42 s) (lmodetype s) (linemode s)
  (uselinemode s) v (useeditmode s) (alwayslinemode s) (flowmode s) (restartany s)).
Definition set_useeditmode v := in_md (fun s => mkModes (not42 s) (lmodetype s) (linemode s)
  (uselinemode s) (editmode s) v (alwayslinemode s) (flowmode s) (restartany s)).
Definition set_alwayslinemode v := in_md (fun s => mkModes (not42 s) (lmodetype s) (linemode s)
  (uselinemode s) (editmode s) (useeditmode s) v (flowmode s) (restartany s)).
Definition set_flowmode v := in_md (fun s => mkModes (not42 s) (lmodetype s) (linemode s)
  (uselinemode s) (editmode s) (useeditmode s) (alwayslinemode s) v (restartany s)).
Definition set_restartany v := in_md (fun s => mkModes (not42 s) (lmodetype s) (linemode s)
  (uselinemode s) (editmode s) (useeditmode s) (alwayslinemode s) (flowmode s) v).

Definition set_pty v := in_ty (fun s => mkTtys v (termbuf s) (termbuf2 s) (winsize s) (def_tspeed
  s) (def_rspeed s) (def_col s) (def_row s) (terminit s)).
Definition set_termbuf v := in_ty (fun s => mkTtys (pty s) v (termbuf2 s) (winsize s) (def_tspeed
  s) (def_rspeed s) (def_col s) (def_row s) (terminit s)).
Definition set_termbuf2 v := in_ty (fun s => mkTtys (pty s) (termbuf s) v (winsize s) (def_tspeed
  s) (def_rspeed s) (def_col s) (def_row s) (terminit s)).
Definition set_winsize v := in_ty (fun s => mkTtys (pty s) (termbuf s) (termbuf2 s) v (def_tspeed
  s) (def_rspeed s) (def_col s) (def_row s) (terminit s)).
Definition set_def_tspeed v := in_ty (fun s => mkTtys (pty s) (termbuf s) (termbuf2 s) (winsize s)
  v (def_rspeed s) (def_col s) (def_row s) (terminit s)).
Definition set_def_rspeed v := in_ty (fun s => mkTtys (pty s) (termbuf s) (termbuf2 s) (winsize s)
  (def_tspeed s) v (def_col s) (def_row s) (terminit s)).
Definition set_def_col v := in_ty (fun s => mkTtys (pty s) (termbuf s) (termbuf2 s) (winsize s)
  (def_tspeed s) (def_rspeed s) v (def_row s) (terminit s)).
Definition set_def_row v := in_ty (fun s => mkTtys (pty s) (termbuf s) (termbuf2 s) (winsize s)
  (def_tspeed s) (def_rspeed s) (def_col s) v (terminit s)).
Definition set_terminit v := in_ty (fun s => mkTtys (pty s) (termbuf s) (termbuf2 s) (winsize s)
  (def_tspeed s) (def_rspeed s) (def_col s) (def_row s) v).

Definition set_slctab v := in_sl (fun s => mkSlcs v (slcchange s) (slcbuf s) (def_slcbuf s)).
Definition set_slcchange v := in_sl (fun s => mkSlcs (slctab s) v (slcbuf s) (def_slcbuf s)).
Definition set_slcbuf v := in_sl (fun s => mkSlcs (slctab s) (slcchange s) v (def_slcbuf s)).
Definition set_def_slcbuf v := in_sl (fun s => mkSlcs (slctab s) (slcchange s) (slcbuf s) v).

Definition set_netip v := in_rc (fun s => mkRcvs v (rstate s) (subbuffer s) (subpointer s) (subend
  s) (ptyobuf s) (pbackp s) (ptywrites s) (ptysent s) (ptysig s) (SYNCHing s) (urgent s)
  (terminaltype s) (env_ovar s) (env_ovalue s) (environ s)).
Definition set_rstate v := in_rc (fun s => mkRcvs (netip s) v (subbuffer s) (subpointer s) (subend
  s) (ptyobuf s) (pbackp s) (ptywrites s) (ptysent s) (ptysig s) (SYNCHing s) (urgent s)
  (terminaltype s) (env_ovar s) (env_ovalue s) (environ s)).
Definition set_subbuffer v := in_rc (fun s => mkRcvs (netip s) (rstate s) v (subpointer s) (subend
  s) (ptyobuf s) (pbackp s) (ptywrites s) (ptysent s) (ptysig s) (SYNCHing s) (urgent s)
  (terminaltype s) (env_ovar s) (env_ovalue s) (environ s)).
Definition set_subpointer v := in_rc (fun s => mkRcvs (netip s) (rstate s) (subbuffer s) v (subend
  s) (ptyobuf s) (pbackp s) (ptywrites s) (ptysent s) (ptysig s) (SYNCHing s) (urgent s)
  (terminaltype s) (env_ovar s) (env_ovalue s) (environ s)).
Definition set_subend v := in_rc (fun s => mkRcvs (netip s) (rstate s) (subbuffer s) (subpointer
  s) v (ptyobuf s) (pbackp s) (ptywrites s) (ptysent s) (ptysig s) (SYNCHing s) (urgent s)
  (terminaltype s) (env_ovar s) (env_ovalue s) (environ s)).
Definition set_ptyobuf v := in_rc (fun s => mkRcvs (netip s) (rstate s) (subbuffer s) (subpointer
  s) (subend s) v (pbackp s) (ptywrites s) (ptysent s) (ptysig s) (SYNCHing s) (urgent s)
  (terminaltype s) (env_ovar s) (env_ovalue s) (environ s)).
Definition set_pbackp v := in_rc (fun s => mkRcvs (netip s) (rstate s) (subbuffer s) (subpointer
  s) (subend s) (ptyobuf s) v (ptywrites s) (ptysent s) (ptysig s) (SYNCHing s) (urgent s)
  (terminaltype s) (env_ovar s) (env_ovalue s) (environ s)).
Definition set_ptywrites v := in_rc (fun s => mkRcvs (netip s) (rstate s) (subbuffer s)
  (subpointer s) (subend s) (ptyobuf s) (pbackp s) v (ptysent s) (ptysig s) (SYNCHing s) (urgent
  s) (terminaltype s) (env_ovar s) (env_ovalue s) (environ s)).
Definition set_ptysent v := in_rc (fun s => mkRcvs (netip s) (rstate s) (subbuffer s) (subpointer
  s) (subend s) (ptyobuf s) (pbackp s) (ptywrites s) v (ptysig s) (SYNCHing s) (urgent s)
  (terminaltype s) (env_ovar s) (env_ovalue s) (environ s)).
Definition set_ptysig v := in_rc (fun s => mkRcvs (netip s) (rstate s) (subbuffer s) (subpointer
  s) (subend s) (ptyobuf s) (pbackp s) (ptywrites s) (ptysent s) v (SYNCHing s) (urgent s)
  (terminaltype s) (env_ovar s) (env_ovalue s) (environ s)).
Definition set_SYNCHing v := in_rc (fun s => mkRcvs (netip s) (rstate s) (subbuffer s) (subpointer
  s) (subend s) (ptyobuf s) (pbackp s) (ptywrites s) (ptysent s) (ptysig s) v (urgent s)
  (terminaltype s) (env_ovar s) (env_ovalue s) (environ s)).
Definition set_urgent v := in_rc (fun s => mkRcvs (netip s) (rstate s) (subbuffer s) (subpointer
  s) (subend s) (ptyobuf s) (pbackp s) (ptywrites s) (ptysent s) (ptysig s) (SYNCHing s) v
  (terminaltype s) (env_ovar s) (env_ovalue s) (environ s)).
Definition set_terminaltype v := in_rc (fun s => mkRcvs (netip s) (rstate s) (subbuffer s)
  (subpointer s) (subend s) (ptyobuf s) (pbackp s) (ptywrites s) (ptysent s) (ptysig s) (SYNCHing
  s) (urgent s) v (env_ovar s) (env_ovalue s) (environ s)).
Definition set_env_ovar v := in_rc (fun s => mkRcvs (netip s) (rstate s) (subbuffer s) (subpointer
  s) (subend s) (ptyobuf s) (pbackp s) (ptywrites s) (ptysent s) (ptysig s) (SYNCHing s) (urgent
  s) (terminaltype s) v (env_ovalue s) (environ s)).
Definition set_env_ovalue v := in_rc (fun s => mkRcvs (netip s) (rstate s) (subbuffer s)
  (subpointer s) (subend s) (ptyobuf s) (pbackp s) (ptywrites s) (ptysent s) (ptysig s) (SYNCHing
  s) (urgent s) (terminaltype s) (env_ovar s) v (environ s)).
Definition set_environ v := in_rc (fun s => mkRcvs (netip s) (rstate s) (subbuffer s) (subpointer
  s) (subend s) (ptyobuf s) (pbackp s) (ptywrites s) (ptysent s) (ptysig s) (SYNCHing s) (urgent
  s) (terminaltype s) (env_ovar s) (env_ovalue s) v).

(** ** The monad *)

Abbreviation T := (M halt tnd).

Definition of_ng {A} (f : negs -> A) : T A := gets (fun s => f (ng s)).
Definition of_md {A} (f : modes -> A) : T A := gets (fun s => f (md s)).
Definition of_ty {A} (f : ttys -> A) : T A := gets (fun s => f (ty s)).
Definition of_sl {A} (f : slcs -> A) : T A := gets (fun s => f (sl s)).
Definition of_rc {A} (f : rcvs -> A) : T A := gets (fun s => f (rc s)).

(** [settimer(x)]: [clocks.x = ++clocks.system]. *)
Definition settimer (x : clock) : T unit :=
  modify (fun s => let t := clocks s clk_system + 1 in
                   set_clocks (<[x := t]> (<[clk_system := t]> (clocks s))) s).

Definition sequenceIs (x y : clock) (s : tnd) : bool := clocks s x <? clocks s y.

(** ** Output (state.c, utility.c) *)

Definition BUFSIZ : nat := 1024.

(** [netflush]: all that waits is written. *)
Definition netflush : T unit :=
  modify (in_ng (fun g => mkNegs (options g) (do_dont_resp g) (will_wont_resp g) []
                                 (netsent g ++ netobuf g))).

Definition room (s : tnd) : nat := (BUFSIZ - length (concat (netobuf (ng s))))%nat.

Definition put_item (m : list Z) : T unit :=
  modify (fun s => set_netobuf (netobuf (ng s) ++ [m]) s).

(** [output_datalen]: the buffer is written out first when the message does not fit.  A
    message stays in one piece here; one longer than the buffer would go through it in pieces,
    but the program sends none. *)
Definition output_datalen (buf : list Z) : T unit :=
  match buf with
  | [] => mret ()
  | _ =>
      remaining ← gets room;
      _ ← mwhen (remaining <? Nat.min (length buf) BUFSIZ)%nat netflush;
      put_item buf
  end.

(** [output_data] with the octets that its format gives. *)
Definition output_data (buf : list Z) : T unit := output_datalen buf.

(** ** Requests (state.c) *)

Definition incr8 (o : Z) (f : Z -> Z) : Z -> Z := <[o := swrap 8 (f o + 1)]> f.
Definition decr8 (o : Z) (f : Z -> Z) : Z -> Z := <[o := swrap 8 (f o - 1)]> f.

Definition upd_options (f : (Z -> Z) -> Z -> Z) : T unit :=
  modify (fun s => set_options (f (options (ng s))) s).
Definition upd_do_dont (f : (Z -> Z) -> Z -> Z) : T unit :=
  modify (fun s => set_do_dont_resp (f (do_dont_resp (ng s))) s).
Definition upd_will_wont (f : (Z -> Z) -> Z -> Z) : T unit :=
  modify (fun s => set_will_wont_resp (f (will_wont_resp (ng s))) s).

Definition his_will (o : Z) : T bool := of_ng (fun g => his_state_is_will (options g) o).
Definition his_want_will (o : Z) : T bool :=
  of_ng (fun g => his_want_state_is_will (options g) o).
Definition my_will (o : Z) : T bool := of_ng (fun g => my_state_is_will (options g) o).
Definition my_want_will (o : Z) : T bool :=
  of_ng (fun g => my_want_state_is_will (options g) o).

Definition send_do (option : Z) (init : bool) : T unit :=
  g ← of_ng id;
  if init && (((do_dont_resp g option =? 0) && his_state_is_will (options g) option)
              || his_want_state_is_will (options g) option)
  then mret ()
  else
    _ ← mwhen init
      (_ ← (if option =? TELOPT_TM
            then upd_options (set_his_want_state_wont option)
            else upd_options (set_his_want_state_will option));
       upd_do_dont (incr8 option));
    output_data [IAC; DO; option].

Definition send_dont (option : Z) (init : bool) : T unit :=
  g ← of_ng id;
  if init && (((do_dont_resp g option =? 0) && negb (his_state_is_will (options g) option))
              || negb (his_want_state_is_will (options g) option))
  then mret ()
  else
    _ ← mwhen init
      (_ ← upd_options (set_his_want_state_wont option);
       upd_do_dont (incr8 option));
    output_data [IAC; DONT; option].

Definition send_will (option : Z) (init : bool) : T unit :=
  g ← of_ng id;
  if init && (((will_wont_resp g option =? 0) && my_state_is_will (options g) option)
              || my_want_state_is_will (options g) option)
  then mret ()
  else
    _ ← mwhen init
      (_ ← upd_options (set_my_want_state_will option);
       upd_will_wont (incr8 option));
    output_data [IAC; WILL; option].

Definition send_wont (option : Z) (init : bool) : T unit :=
  g ← of_ng id;
  if init && (((will_wont_resp g option =? 0) && negb (my_state_is_will (options g) option))
              || negb (my_want_state_is_will (options g) option))
  then mret ()
  else
    _ ← mwhen init
      (_ ← upd_options (set_my_want_state_wont option);
       upd_will_wont (incr8 option));
    output_data [IAC; WONT; option].

(** ** The terminal (sys_term.c) *)

Section Terminal.
Context `{Termios_h}.

Definition upd_termbuf (f : termios -> termios) : T unit :=
  modify (fun s => set_termbuf (f (termbuf (ty s))) s).

Definition init_termbuf : T unit :=
  modify (fun s => set_termbuf2 (pty (ty s)) (set_termbuf (pty (ty s)) s)).

(** What the packet from the terminal holds. *)
Definition copy_termbuf (t : termios) : T unit :=
  modify (fun s => set_termbuf2 t (set_termbuf t s)).

Definition set_termbuf_ : T unit :=
  modify (fun s =>
    if decide (termbuf (ty s) = termbuf2 (ty s)) then s else set_pty (termbuf (ty s)) s).

Definition upd_iflag (f : Z -> Z) (t : termios) : termios :=
  mkTermios (f (c_iflag t)) (c_oflag t) (c_cflag t) (c_lflag t) (c_cc t) (c_ispeed t) (c_ospeed t).
Definition upd_oflag (f : Z -> Z) (t : termios) : termios :=
  mkTermios (c_iflag t) (f (c_oflag t)) (c_cflag t) (c_lflag t) (c_cc t) (c_ispeed t) (c_ospeed t).
Definition upd_cflag (f : Z -> Z) (t : termios) : termios :=
  mkTermios (c_iflag t) (c_oflag t) (f (c_cflag t)) (c_lflag t) (c_cc t) (c_ispeed t) (c_ospeed t).
Definition upd_lflag (f : Z -> Z) (t : termios) : termios :=
  mkTermios (c_iflag t) (c_oflag t) (c_cflag t) (f (c_lflag t)) (c_cc t) (c_ispeed t) (c_ospeed t).
Definition upd_cc (f : list Z -> list Z) (t : termios) : termios :=
  mkTermios (c_iflag t) (c_oflag t) (c_cflag t) (c_lflag t) (f (c_cc t)) (c_ispeed t) (c_ospeed t).

(** [flag |= m] and [flag &= ~m]. *)
Definition orf (m x : Z) : Z := Z.lor x m.
Definition clrf (m x : Z) : Z := Z.land x (Z.lnot m).
Definition putf (m : Z) (on : bool) (x : Z) : Z := if on then orf m x else clrf m x.

Definition tty_linemode (t : termios) : Z := Z.land (c_lflag t) EXTPROC.
Definition tty_isecho (t : termios) : Z := Z.land (c_lflag t) ECHO.
Definition tty_flowmode (t : termios) : Z :=
  if Z.land (c_iflag t) IXON =? 0 then 0 else 1.
Definition tty_restartany (t : termios) : Z :=
  if Z.land (c_iflag t) IXANY =? 0 then 0 else 1.
Definition tty_isbinaryin (t : termios) : bool := Z.land (c_iflag t) ISTRIP =? 0.
Definition tty_isbinaryout (t : termios) : bool := Z.land (c_oflag t) OPOST =? 0.
Definition tty_isediting (t : termios) : Z := Z.land (c_lflag t) ICANON.
Definition tty_istrapsig (t : termios) : Z := Z.land (c_lflag t) ISIG.
Definition tty_issofttab (t : termios) : Z := Z.land (c_oflag t) OXTABS.
Definition tty_islitecho (t : termios) : bool := Z.land (c_lflag t) ECHOCTL =? 0.
Definition tty_iscrnl (t : termios) : Z := Z.land (c_iflag t) ICRNL.

Definition tty_setlinemode (on : Z) : T unit :=
  _ ← set_termbuf_;
  _ ← modify (fun s => set_pty (ioctl_TIOCEXT on (pty (ty s))) s);
  init_termbuf.

Definition tty_setecho (on : bool) : T unit := upd_termbuf (upd_lflag (putf ECHO on)).
Definition tty_binaryin (on : bool) : T unit :=
  upd_termbuf (upd_iflag (putf ISTRIP (negb on))).
Definition tty_binaryout (on : bool) : T unit :=
  upd_termbuf (fun t =>
    if on then
      upd_oflag (clrf OPOST)
        (upd_cflag (fun x => orf CS8 (clrf (Z.lor CSIZE PARENB) x)) t)
    else
      upd_oflag (orf OPOST)
        (upd_cflag (fun x => orf (Z.lor CS7 PARENB) (clrf CSIZE x)) t)).
Definition tty_setedit (on : bool) : T unit := upd_termbuf (upd_lflag (putf ICANON on)).
Definition tty_setsig (on : bool) : T unit := upd_termbuf (upd_lflag (putf ISIG on)).
Definition tty_setsofttab (on : bool) : T unit :=
  upd_termbuf (upd_oflag (fun x =>
    if on then orf TAB3 (clrf TABDLY (orf OXTABS x))
    else orf TAB0 (clrf TABDLY (clrf OXTABS x)))).
Definition tty_setlitecho (on : bool) : T unit :=
  upd_termbuf (upd_lflag (putf ECHOCTL (negb on))).

(** The speeds of the system are numbers, not codes. *)
Definition tty_tspeed (val : Z) : T unit := upd_termbuf (cfsetospeed val).
Definition tty_rspeed (val : Z) : T unit := upd_termbuf (cfsetispeed val).

(** ** Special characters (sys_term.c, slc.c) *)

(** [spcset]: level, value and place of the character of [func]. *)
Definition spcset (t : termios) (func : Z) : Z * Z * option nat :=
  let setval a b := (b, default 0 (c_cc t !! a), Some a) in
  if func =? SLC_EOF then setval VEOF SLC_VARIABLE
  else if func =? SLC_EC then setval VERASE SLC_VARIABLE
  else if func =? SLC_EL then setval VKILL SLC_VARIABLE
  else if func =? SLC_IP then
    setval VINTR (Z.lor SLC_VARIABLE (Z.lor SLC_FLUSHIN SLC_FLUSHOUT))
  else if func =? SLC_ABORT then
    setval VQUIT (Z.lor SLC_VARIABLE (Z.lor SLC_FLUSHIN SLC_FLUSHOUT))
  else if func =? SLC_XON then setval VSTART SLC_VARIABLE
  else if func =? SLC_XOFF then setval VSTOP SLC_VARIABLE
  else if func =? SLC_EW then setval VWERASE SLC_VARIABLE
  else if func =? SLC_RP then setval VREPRINT SLC_VARIABLE
  else if func =? SLC_LNEXT then setval VLNEXT SLC_VARIABLE
  else if func =? SLC_AO then setval VDISCARD (Z.lor SLC_VARIABLE SLC_FLUSHOUT)
  else if func =? SLC_SUSP then setval VSUSP (Z.lor SLC_VARIABLE SLC_FLUSHIN)
  else if func =? SLC_FORW1 then setval VEOL SLC_VARIABLE
  else if func =? SLC_FORW2 then setval VEOL2 SLC_VARIABLE
  else if func =? SLC_AYT then setval VSTATUS SLC_VARIABLE
  else if (func =? SLC_BRK) || (func =? SLC_SYNCH) || (func =? SLC_EOR) then (SLC_DEFAULT, 0, None)
  else (SLC_NOSUPPORT, 0, None).

Definition slc_at (i : nat) (s : tnd) : slcfun := default slcfun0 (slctab (sl s) !! i).

(** The character in [termbuf] that an entry points to. *)
Definition slc_char (i : nat) (s : tnd) : option Z :=
  p ← sptr (slc_at i s); Some (default 0 (c_cc (termbuf (ty s)) !! p)).

Definition upd_slc (i : nat) (f : slcfun -> slcfun) : T unit :=
  modify (fun s => set_slctab (alter f i (slctab (sl s))) s).

Definition put_cc (p : nat) (v : Z) : T unit := upd_termbuf (upd_cc (fun cc => <[p := v]> cc)).

Definition set_current (flag val : Z) (e : slcfun) : slcfun :=
  mkSlcfun (def_flag e) (def_val e) flag val (sptr e).

(** The numbers 1 to [NSLC]. *)
Definition slc_funcs : list nat := seq 1 NSLC.

Definition for_slc (body : nat -> T unit) : T unit :=
  foldr (fun i k => _ ← body i; k) (mret ()) slc_funcs.

Definition level (flag : Z) : Z := Z.land flag SLC_LEVELBITS.

(** [unsigned char slcbuf[NSLC*6]]; its first four octets are the header. *)
Definition SLCBUF_SIZE : nat := (NSLC * 6)%nat.

(** [n] octets more than there are in [slcbuf] are past its end. *)
Definition slc_past (n : nat) (s : tnd) : bool := (SLCBUF_SIZE <? 4 + length (slcbuf (sl s)) + n)%nat.

(** [add_slc]: an octet 255 is doubled.  Nothing looks where the buffer ends: the write behind it is [Crash]. *)
Definition add_slc (func flag val : Z) : T unit :=
  let put c := if u8 c =? 255 then [255; 255] else [u8 c] in
  _ ← modify (fun s => set_slcbuf (slcbuf (sl s) ++ put func ++ put flag ++ put val) s);
  past ← gets (slc_past 0);
  if (past : bool) then leave Crash else mret ().

Definition send_slc : T unit :=
  for_slc (fun i =>
    e ← gets (slc_at i);
    mwhen (negb (level (def_flag e) =? SLC_NOSUPPORT))
          (add_slc (Z.of_nat i) (cur_flag e) (cur_val e))).

Definition default_slc : T unit :=
  _ ← for_slc (fun i =>
        e ← gets (slc_at i);
        _ ← upd_slc i (set_current
              (if def_val e =? POSIX_VDISABLE then SLC_NOSUPPORT else def_flag e) (def_val e));
        match sptr e with Some p => put_cc p (def_val e) | None => mret () end);
  modify (set_slcchange true).

Definition get_slc_defaults : T unit :=
  _ ← init_termbuf;
  for_slc (fun i =>
    t ← of_ty termbuf;
    let '(flag, val, p) := spcset t (Z.of_nat i) in
    upd_slc i (fun _ => mkSlcfun flag val SLC_NOSUPPORT 0 p)).

Definition start_slc (getit : bool) : T unit :=
  _ ← modify (set_slcchange false);
  _ ← mwhen getit init_termbuf;
  modify (set_slcbuf []).

(** [end_slc(0)]: the [sprintf] of IAC SE writes a NUL behind them. *)
Definition end_slc0 : T unit :=
  c ← of_sl slcchange;
  _ ← mwhen c set_termbuf_;
  d ← of_sl def_slcbuf; t ← of_ty terminit;
  if bool_decide (is_Some d) && negb t then mret ()
  else
    buf ← of_sl slcbuf;
    match buf with
    | [] => mret ()
    | _ =>
        past ← gets (slc_past 3);
        if (past : bool) then leave Crash
        else
          _ ← output_datalen ([IAC; SB; TELOPT_LINEMODE; LM_SLC] ++ buf ++ [IAC; SE]);
          netflush
    end.

(** [end_slc(&cp)]: the octets collected. *)
Definition end_slc_get : T (list Z) :=
  c ← of_sl slcchange;
  _ ← mwhen c set_termbuf_;
  d ← of_sl def_slcbuf; t ← of_ty terminit;
  if bool_decide (is_Some d) && negb t then mret [] else of_sl slcbuf.

Definition change_slc (func : nat) (flag val : Z) : T unit :=
  let hislevel := level flag in
  e ← gets (slc_at func);
  let mylevel := level (def_flag e) in
  if hislevel =? SLC_NOSUPPORT then
    _ ← upd_slc func (set_current flag POSIX_VDISABLE);
    add_slc (Z.of_nat func) (Z.lor flag SLC_ACK) val
  else if hislevel =? SLC_DEFAULT then
    let f := if mylevel =? SLC_DEFAULT then SLC_NOSUPPORT else def_flag e in
    _ ← upd_slc func (set_current f (def_val e));
    add_slc (Z.of_nat func) f (def_val e)
  else
    match sptr e with
    | Some p =>
        _ ← put_cc p val;
        _ ← upd_slc func (set_current flag val);
        _ ← modify (set_slcchange true);
        add_slc (Z.of_nat func) (Z.lor flag SLC_ACK) val
    | None =>
        if mylevel =? SLC_DEFAULT then
          _ ← upd_slc func (set_current flag val);
          add_slc (Z.of_nat func) (Z.lor flag SLC_ACK) val
        else if (hislevel =? SLC_CANTCHANGE) && (mylevel =? SLC_CANTCHANGE) then
          let f := Z.lor (clrf SLC_LEVELBITS flag) SLC_NOSUPPORT in
          _ ← upd_slc func (fun e => set_current f (cur_val e) e);
          add_slc (Z.of_nat func) f val
        else
          let f := Z.lor (clrf SLC_LEVELBITS flag) mylevel in
          let v := if mylevel =? SLC_CANTCHANGE then def_val e else val in
          _ ← upd_slc func (fun e =>
                set_current f (if mylevel =? SLC_CANTCHANGE then def_val e else cur_val e) e);
          add_slc (Z.of_nat func) f v
    end.

Definition process_slc (func flag val : Z) : T unit :=
  if Z.of_nat NSLC <? func then add_slc func SLC_NOSUPPORT 0
  else if func =? 0 then
    if level flag =? SLC_DEFAULT then _ ← default_slc; send_slc
    else if level flag =? SLC_VARIABLE then send_slc
    else mret ()
  else
    e ← gets (slc_at (Z.to_nat func));
    let ack := negb (Z.land flag SLC_ACK =? 0) in
    if (level flag =? level (cur_flag e)) && ((val =? cur_val e) || ack) then mret ()
    else if ack then mret ()
    else change_slc (Z.to_nat func) flag val.

Definition check_slc : T unit :=
  for_slc (fun i =>
    e ← gets (slc_at i);
    c ← gets (slc_char i);
    match c with
    | Some v =>
        mwhen (negb (v =? cur_val e))
          (let f := if v =? POSIX_VDISABLE then SLC_NOSUPPORT else def_flag e in
           _ ← upd_slc i (set_current f v);
           add_slc (Z.of_nat i) f v)
    | None => mret ()
    end).

(** The triplets of [do_opt_slc]; an incomplete one at the end is dropped. *)
Fixpoint slc_triplets (buf : list Z) : T unit :=
  match buf with
  | func :: flag :: val :: buf' => _ ← process_slc func flag val; slc_triplets buf'
  | _ => mret ()
  end.

Definition do_opt_slc (buf : list Z) : T unit :=
  t ← of_ty terminit;
  if (t : bool) then slc_triplets buf
  else
    d ← of_sl def_slcbuf;
    match d with
    | None => modify (set_def_slcbuf (Some buf))
    | Some _ => mret ()
    end.

Definition deferslc : T unit :=
  d ← of_sl def_slcbuf;
  match d with
  | None => mret ()
  | Some buf =>
      _ ← start_slc true;
      _ ← do_opt_slc buf;
      _ ← end_slc0;
      modify (set_def_slcbuf None)
  end.

End Terminal.
