(* ===== verification/TelnetdStat.v ===== *)
(** * telnetd: modes and option handlers
    ([src/remote_cmds/telnetd.tproj/termstat.c], the handlers of state.c)

    [localstat] compares the terminal with what was negotiated, [clientstat] does what the
    client asks, [willoption], [wontoption], [dooption] and [dontoption] handle an option
    command.  [clientstat] and [localstat] call each other: [clientstat] is given by its
    cases, since [localstat] calls only the one of the terminal speed, which does not
    come back. *)

From Stdlib Require Import ZArith Lia List Bool.
From stdpp Require Import base tactics list numbers functions.
From S2P Require Import Prelude TelnetNeg TelnetOpts Telnetd.

Local Open Scope Z_scope.

Section Stat.
Context `{Termios_h}.

(** ** termstat.c *)

Definition edit_mode (t : termios) : Z :=
  Z.lor (Z.lor (if tty_isediting t =? 0 then 0 else MODE_EDIT)
               (if tty_istrapsig t =? 0 then 0 else MODE_TRAPSIG))
        (Z.lor (if tty_issofttab t =? 0 then 0 else MODE_SOFT_TAB)
               (if tty_islitecho t then MODE_LIT_ECHO else 0)).

Definition send_mode (mode : Z) : T unit :=
  output_data [IAC; SB; TELOPT_LINEMODE; LM_MODE; u8 mode; IAC; SE].

Definition flowstat : T unit :=
  w ← his_will TELOPT_LFLOW;
  mwhen w
    (t ← of_ty termbuf; f ← of_md flowmode;
     _ ← mwhen (negb (tty_flowmode t =? f))
       (_ ← modify (set_flowmode (tty_flowmode t));
        output_data [IAC; SB; TELOPT_LFLOW;
          if tty_flowmode t =? 0 then LFLOW_OFF else LFLOW_ON; IAC; SE]);
     t ← of_ty termbuf; r ← of_md restartany;
     mwhen (negb (tty_restartany t =? r))
       (_ ← modify (set_restartany (tty_restartany t));
        output_data [IAC; SB; TELOPT_LFLOW;
          if tty_restartany t =? 0 then LFLOW_RESTART_XON else LFLOW_RESTART_ANY; IAC; SE])).

(** [clientstat(TELOPT_TSPEED, ..)]. *)
Definition clientstat_tspeed (parm1 parm2 : Z) : T unit :=
  _ ← init_termbuf;
  _ ← modify (set_def_tspeed parm1);
  _ ← modify (set_def_rspeed parm2);
  t ← of_ty terminit;
  mwhen t
    (_ ← tty_rspeed parm2;
     _ ← tty_tspeed parm1;
     _ ← set_termbuf_;
     netflush).

(** [clientstat(TELOPT_NAWS, ..)]; a [winsize] has unsigned shorts. *)
Definition clientstat_naws (parm1 parm2 : Z) : T unit :=
  _ ← init_termbuf;
  _ ← modify (set_def_col parm1);
  _ ← modify (set_def_row parm2);
  t ← of_ty terminit;
  mwhen t
    (_ ← modify (set_winsize (Some (u16 parm1, u16 parm2)));
     netflush).

Definition defer_terminit : T unit :=
  y ← of_ty id;
  _ ← mwhen (negb (def_tspeed y =? -1))
    (_ ← clientstat_tspeed (def_tspeed y) (def_rspeed y);
     _ ← modify (set_def_tspeed 0);
     modify (set_def_rspeed 0));
  y ← of_ty id;
  _ ← mwhen (negb (def_col y =? 0) || negb (def_row y =? 0))
    (modify (set_winsize (Some (u16 (def_col y), u16 (def_row y)))));
  deferslc.

(** [localstat] from the linemode commands to the label [done]. *)
Definition localstat_modes : T unit :=
  m ← of_md id;
  if (uselinemode m =? 0) && negb (linemode m =? 0) then
    _ ← (if lmodetype m =? REAL_LINEMODE then send_dont TELOPT_LINEMODE true
         else if lmodetype m =? KLUDGE_LINEMODE then send_will TELOPT_SGA true
         else mret ());
    _ ← send_will TELOPT_ECHO true;
    modify (set_linemode (uselinemode m))
  else
    t ← of_ty termbuf;
    _ ← (if lmodetype m =? REAL_LINEMODE then modify (set_useeditmode (edit_mode t))
         else if lmodetype m =? KLUDGE_LINEMODE then
           if negb (tty_isediting t =? 0) && negb (uselinemode m =? 0)
           then send_wont TELOPT_SGA true
           else send_will TELOPT_SGA true
         else mret ());
    if negb (uselinemode m =? 0) && (linemode m =? 0) then
      _ ← (if lmodetype m =? KLUDGE_LINEMODE then send_wont TELOPT_SGA true
           else if lmodetype m =? REAL_LINEMODE then
             _ ← send_do TELOPT_LINEMODE true;
             e ← of_md useeditmode;
             _ ← send_mode e;
             modify (set_editmode e)
           else mret ());
      modify (set_linemode (uselinemode m))
    else if lmodetype m <? REAL_LINEMODE then mret ()
    else
      w ← his_will TELOPT_LINEMODE;
      mwhen (negb (linemode m =? 0) && w)
        (m ← of_md id;
         _ ← mwhen (negb (useeditmode m =? editmode m))
           (_ ← send_mode (useeditmode m); modify (set_editmode (useeditmode m)));
         _ ← start_slc false;
         _ ← check_slc;
         end_slc0).

Definition localstat : T unit :=
  _ ← flowstat;
  t ← of_ty termbuf;
  _ ← modify (set_uselinemode (tty_linemode t));
  m ← of_md id;
  _ ← mwhen (negb (alwayslinemode m =? 0) && negb (linemode m =? 0) && (uselinemode m =? 0))
    (_ ← modify (set_uselinemode 1); tty_setlinemode 1);
  m ← of_md id; t ← of_ty termbuf;
  _ ← mwhen (negb (uselinemode m =? 0))
    (w ← his_want_will TELOPT_BINARY;
     _ ← (if tty_isbinaryin t then mwhen (negb w) (send_do TELOPT_BINARY true)
          else mwhen w (send_dont TELOPT_BINARY true));
     w ← my_want_will TELOPT_BINARY;
     if tty_isbinaryout t then mwhen (negb w) (send_will TELOPT_BINARY true)
     else mwhen w (send_wont TELOPT_BINARY true));
  let need_will_echo := negb (uselinemode m =? 0) && (tty_isecho t =? 0) in
  _ ← mwhen (negb (uselinemode m =? 0))
    (_ ← mwhen (negb (tty_isecho t =? 0)) (send_wont TELOPT_ECHO true);
     mwhen (lmodetype m =? KLUDGE_OK) (modify (set_lmodetype KLUDGE_LINEMODE)));
  _ ← localstat_modes;
  _ ← mwhen need_will_echo (send_will TELOPT_ECHO true);
  i ← of_ty terminit;
  _ ← mwhen (negb i) (_ ← modify (set_terminit true); defer_terminit);
  _ ← netflush;
  set_termbuf_.

(** [clientstat(TELOPT_LINEMODE, parm1, ..)]. *)
Definition clientstat_linemode (parm1 : Z) : T unit :=
  _ ← init_termbuf;
  _ ← modify (set_uselinemode (b2z (parm1 =? WILL)));
  m ← of_md id;
  if uselinemode m =? linemode m then netflush
  else
    t ← of_ty termbuf;
    _ ← mwhen ((lmodetype m =? KLUDGE_LINEMODE) && negb (alwayslinemode m =? 0)
               && negb (tty_isediting t =? 0)) (modify (set_uselinemode 1));
    m ← of_md id;
    if uselinemode m =? linemode m then mret ()
    else
      _ ← mwhen ((lmodetype m =? REAL_LINEMODE) && negb (uselinemode m =? 0))
        (_ ← modify (set_useeditmode (edit_mode t));
         _ ← send_mode (edit_mode t);
         modify (set_editmode (edit_mode t)));
      _ ← tty_setlinemode (uselinemode m);
      _ ← modify (set_linemode (uselinemode m));
      _ ← mwhen (uselinemode m =? 0) (send_will TELOPT_ECHO true);
      netflush.

(** [clientstat(LM_MODE, 0, 0)]. *)
Definition clientstat_lm_mode : T unit :=
  _ ← init_termbuf;
  m ← of_md id;
  let masked := Z.land (useeditmode m) MODE_MASK in
  let ack := negb (Z.land masked MODE_ACK =? 0) in
  _ ← modify (set_useeditmode (clrf MODE_ACK masked));
  m ← of_md id;
  let changed := Z.lxor (useeditmode m) (editmode m) in
  let has bit := negb (Z.land changed bit =? 0) in
  _ ← mwhen (negb (changed =? 0))
    (_ ← mwhen ack localstat;
     m ← of_md id;
     let wants bit := negb (Z.land (useeditmode m) bit =? 0) in
     _ ← mwhen (has MODE_EDIT) (tty_setedit (wants MODE_EDIT));
     _ ← mwhen (has MODE_TRAPSIG) (tty_setsig (wants MODE_TRAPSIG));
     _ ← mwhen (has MODE_SOFT_TAB) (tty_setsofttab (wants MODE_SOFT_TAB));
     _ ← mwhen (has MODE_LIT_ECHO) (tty_setlitecho (wants MODE_LIT_ECHO));
     _ ← set_termbuf_;
     _ ← mwhen (negb ack) (send_mode (Z.lor (useeditmode m) MODE_ACK));
     modify (set_editmode (useeditmode m)));
  netflush.

Definition clientstat (code parm1 parm2 : Z) : T unit :=
  if code =? TELOPT_LINEMODE then clientstat_linemode parm1
  else if code =? LM_MODE then clientstat_lm_mode
  else if code =? TELOPT_NAWS then clientstat_naws parm1 parm2
  else if code =? TELOPT_TSPEED then clientstat_tspeed parm1 parm2
  else _ ← init_termbuf; netflush.

Definition doclientstat : T unit := clientstat TELOPT_LINEMODE WILL 0.

(** ** The handlers (state.c) *)

(** The start of each handler: a message is an answer when one is expected. *)
Definition answer_do_dont (option : Z) (new : bool) : T unit :=
  r ← of_ng (fun g => do_dont_resp g option);
  mwhen (negb (r =? 0))
    (_ ← upd_do_dont (decr8 option);
     r ← of_ng (fun g => do_dont_resp g option);
     w ← his_will option;
     mwhen (negb (r =? 0) && eqb w new) (upd_do_dont (decr8 option))).

Definition answer_will_wont (option : Z) (new : bool) : T unit :=
  r ← of_ng (fun g => will_wont_resp g option);
  mwhen (negb (r =? 0))
    (_ ← upd_will_wont (decr8 option);
     r ← of_ng (fun g => will_wont_resp g option);
     w ← my_will option;
     mwhen (negb (r =? 0) && eqb w new) (upd_will_wont (decr8 option))).

Definition with_termbuf (m : T unit) : T unit := _ ← init_termbuf; _ ← m; set_termbuf_.

(** [slctab[SLC_XON].defset.flag] and that of [SLC_XOFF]. *)
Definition flow_level (l : Z) : T unit :=
  let f e := mkSlcfun (Z.lor (clrf SLC_LEVELBITS (def_flag e)) l) (def_val e)
                      (cur_flag e) (cur_val e) (sptr e) in
  _ ← upd_slc (Z.to_nat SLC_XON) f;
  upd_slc (Z.to_nat SLC_XOFF) f.

(** What a handler does with an option: accept or refuse it, call a function at its end,
    or return at once. *)
Inductive verdict := Accept | Refuse | Return.

Definition will_accepts (option : Z) : bool :=
  bool_decide (option ∈ [TELOPT_BINARY; TELOPT_LFLOW; TELOPT_TTYPE; TELOPT_SGA; TELOPT_NAWS;
    TELOPT_TSPEED; TELOPT_XDISPLOC; TELOPT_NEW_ENVIRON; TELOPT_OLD_ENVIRON; TELOPT_LINEMODE]).

(** The [switch] of [willoption] for an option that was off. *)
Definition will_switch (option : Z) : T verdict :=
  _ ← (if option =? TELOPT_BINARY then with_termbuf (tty_binaryin true)
       else if option =? TELOPT_ECHO then modify (set_not42 0)
       else if option =? TELOPT_TM then
         m ← of_md id;
         if lmodetype m <? KLUDGE_LINEMODE then
           _ ← modify (set_lmodetype KLUDGE_LINEMODE);
           _ ← clientstat TELOPT_LINEMODE WILL 0;
           send_wont TELOPT_SGA true
         else if lmodetype m =? NO_AUTOKLUDGE then modify (set_lmodetype KLUDGE_OK)
         else mret ()
       else if option =? TELOPT_LFLOW then flow_level SLC_DEFAULT
       else if option =? TELOPT_LINEMODE then modify (set_lmodetype REAL_LINEMODE)
       else mret ());
  mret (if option =? TELOPT_TM then Return
        else if will_accepts option then Accept else Refuse).

Definition willoption (option : Z) : T unit :=
  _ ← answer_do_dont option true;
  r ← of_ng (fun g => do_dont_resp g option);
  w ← his_want_will option;
  let finish (func : T unit) : T unit :=
    _ ← upd_options (set_his_state_will option); func in
  if negb (r =? 0) then finish (mret ())
  else if negb w then
    v ← will_switch option;
    match v with
    | Return => mret ()
    | Accept =>
        _ ← upd_options (set_his_want_state_will option);
        _ ← send_do option false;
        finish (if option =? TELOPT_LINEMODE then doclientstat else mret ())
    | Refuse =>
        _ ← upd_do_dont (incr8 option);
        _ ← send_dont option false;
        finish (mret ())
    end
  else if option =? TELOPT_ECHO then
    _ ← modify (set_not42 0);
    _ ← send_dont option true;
    finish (mret ())
  else if option =? TELOPT_LINEMODE then
    _ ← modify (set_lmodetype REAL_LINEMODE);
    finish doclientstat
  else if option =? TELOPT_LFLOW then finish flowstat
  else finish (mret ()).

(** The [switch] of [wontoption] for an option that was on. *)
Definition wont_switch (option : Z) : T unit :=
  if option =? TELOPT_ECHO then modify (set_not42 1)
  else if option =? TELOPT_BINARY then with_termbuf (tty_binaryin false)
  else if option =? TELOPT_LINEMODE then
    l ← of_md lmodetype;
    mwhen (l =? REAL_LINEMODE)
      (_ ← modify (set_lmodetype KLUDGE_LINEMODE);
       clientstat TELOPT_LINEMODE WONT 0)
  else if option =? TELOPT_LFLOW then flow_level SLC_CANTCHANGE
  else if option =? TELOPT_TTYPE then settimer clk_ttypesubopt
  else if option =? TELOPT_TSPEED then settimer clk_tspeedsubopt
  else if option =? TELOPT_XDISPLOC then settimer clk_xdisplocsubopt
  else if option =? TELOPT_OLD_ENVIRON then settimer clk_oenvironsubopt
  else if option =? TELOPT_NEW_ENVIRON then settimer clk_environsubopt
  else mret ().

Definition wontoption (option : Z) : T unit :=
  _ ← answer_do_dont option false;
  r ← of_ng (fun g => do_dont_resp g option);
  w ← his_want_will option;
  if (r =? 0) && w then
    if option =? TELOPT_TM then upd_options (set_his_want_state_wont TELOPT_TM)
    else
      _ ← wont_switch option;
      _ ← upd_options (set_his_want_state_wont option);
      h ← his_will option;
      _ ← mwhen h (send_dont option false);
      upd_options (set_his_state_wont option)
  else
    l ← of_md lmodetype;
    _ ← mwhen ((r =? 0) && (option =? TELOPT_TM) && (l <? NO_AUTOKLUDGE))
      (_ ← modify (set_lmodetype NO_LINEMODE);
       _ ← clientstat TELOPT_LINEMODE WONT 0;
       _ ← send_will TELOPT_SGA true;
       send_will TELOPT_ECHO true);
    upd_options (set_his_state_wont option).

(** The [switch] of [dooption]: whether the option is switched on. *)
Definition do_switch (option : Z) : T verdict :=
  if option =? TELOPT_ECHO then
    l ← of_md lmodetype;
    _ ← mwhen (l =? NO_LINEMODE) (with_termbuf (tty_setecho true));
    mret Accept
  else if option =? TELOPT_BINARY then
    _ ← with_termbuf (tty_binaryout true);
    mret Accept
  else if option =? TELOPT_SGA then
    l ← of_md lmodetype;
    if l =? KLUDGE_LINEMODE then
      _ ← clientstat TELOPT_LINEMODE WONT 0;
      on ← of_md linemode;
      mret (if on =? 0 then Accept else Refuse)
    else mret Accept
  else if option =? TELOPT_STATUS then mret Accept
  else if option =? TELOPT_TM then
    _ ← send_will option false;
    _ ← upd_options (set_my_want_state_wont option);
    _ ← upd_options (set_my_state_wont option);
    mret Return
  else if option =? TELOPT_LOGOUT then
    _ ← upd_options (set_my_want_state_will TELOPT_LOGOUT);
    _ ← send_will TELOPT_LOGOUT false;
    _ ← upd_options (set_my_state_will TELOPT_LOGOUT);
    _ ← netflush;
    leave (Exit 1)
  else mret Refuse.

Definition dooption (option : Z) : T unit :=
  _ ← answer_will_wont option true;
  r ← of_ng (fun g => will_wont_resp g option);
  w ← my_want_will option;
  if (r =? 0) && negb w then
    v ← do_switch option;
    match v with
    | Return => mret ()
    | Accept =>
        _ ← upd_options (set_my_want_state_will option);
        _ ← send_will option false;
        upd_options (set_my_state_will option)
    | Refuse =>
        _ ← upd_will_wont (incr8 option);
        _ ← send_wont option false;
        upd_options (set_my_state_will option)
    end
  else upd_options (set_my_state_will option).

(** The [switch] of [dontoption]. *)
Definition dont_switch (option : Z) : T unit :=
  if option =? TELOPT_BINARY then with_termbuf (tty_binaryout false)
  else if option =? TELOPT_ECHO then
    l ← of_md lmodetype;
    mwhen (negb (l =? REAL_LINEMODE) && negb (l =? KLUDGE_LINEMODE))
      (with_termbuf (tty_setecho false))
  else if option =? TELOPT_SGA then
    l ← of_md lmodetype;
    mwhen ((l =? KLUDGE_LINEMODE) || (l =? KLUDGE_OK))
      (_ ← modify (set_lmodetype KLUDGE_LINEMODE);
       clientstat TELOPT_LINEMODE WILL 0)
  else mret ().

Definition dontoption (option : Z) : T unit :=
  _ ← answer_will_wont option false;
  r ← of_ng (fun g => will_wont_resp g option);
  w ← my_want_will option;
  if (r =? 0) && w then
    _ ← dont_switch option;
    _ ← upd_options (set_my_want_state_wont option);
    s ← my_will option;
    _ ← mwhen s (send_wont option false);
    upd_options (set_my_state_wont option)
  else upd_options (set_my_state_wont option).

(** ** The requests of telnetd.c *)

(** [getterminaltype], before it waits. *)
Definition getterminaltype_requests : T unit :=
  _ ← settimer clk_baseline;
  _ ← send_do TELOPT_TTYPE true;
  _ ← send_do TELOPT_TSPEED true;
  _ ← send_do TELOPT_XDISPLOC true;
  _ ← send_do TELOPT_NEW_ENVIRON true;
  send_do TELOPT_OLD_ENVIRON true.

(** [telnet], before it waits for the answer about NAWS. *)
Definition telnet_requests : T unit :=
  _ ← get_slc_defaults;
  w ← my_will TELOPT_SGA;
  _ ← mwhen (negb w) (send_will TELOPT_SGA true);
  _ ← send_do TELOPT_ECHO true;
  w ← his_will TELOPT_LINEMODE;
  _ ← mwhen (negb w)
    (_ ← modify (set_linemode 0);
     _ ← modify (set_editmode 0);
     send_do TELOPT_LINEMODE true);
  _ ← send_do TELOPT_NAWS true;
  _ ← send_will TELOPT_STATUS true;
  _ ← modify (set_flowmode 1);
  _ ← modify (set_restartany (-1));
  send_do TELOPT_LFLOW true.

(** [telnet], after it has waited: ECHO is settled without the client's answer. *)
Definition telnet_requests_after : T unit :=
  w ← his_want_will TELOPT_ECHO;
  _ ← mwhen w (willoption TELOPT_ECHO);
  w ← my_will TELOPT_ECHO;
  _ ← mwhen (negb w) (send_will TELOPT_ECHO true);
  l ← of_md lmodetype;
  mwhen (l <? REAL_LINEMODE) (send_do TELOPT_TM true).

End Stat.
