(* ===== verification/TelnetdRecv.v ===== *)
(** * telnetd: the receiving machine and suboptions
    ([src/remote_cmds/telnetd.tproj/state.c, utility.c, telnetd.c])

    [telrcv] takes the octets that the client has sent apart into data for the
    pseudo-terminal, commands and suboptions.  [subbuffer] is memory: [SB_GET] reads where
    [subpointer] is, what lies behind [subend] too, and the environment suboption is decoded
    in place.  [Crash] is what the program does when it follows a null pointer, reads or
    writes outside an array, and the theorems say when that happens.  What [write] does with
    the pseudo-terminal and what [stilloob] says are the lists [ptywrites] and [urgent]; when
    they end, writes take everything and nothing is urgent.  The urgent pointer of the output
    is not modelled. *)

From Stdlib Require Import ZArith Lia List Bool.
From stdpp Require Import base tactics list numbers functions.
From S2P Require Import Prelude TelnetNeg TelnetOpts Telnetd TelnetdStat.

Local Open Scope Z_scope.

(** ** The suboption buffer *)

Definition SUBBUFSIZE : nat := 512.

Definition SB_CLEAR : T unit := modify (set_subpointer 0).
Definition SB_TERM : T unit :=
  p ← of_rc subpointer;
  _ ← modify (set_subend p);
  SB_CLEAR.
Definition SB_ACCUM (c : Z) : T unit :=
  p ← of_rc subpointer;
  mwhen (p <? SUBBUFSIZE)%nat
    (_ ← modify (fun s => set_subbuffer (<[p := c]> (subbuffer (rc s))) s);
     modify (set_subpointer (S p))).

Definition SB_GET : T Z :=
  r ← of_rc id;
  _ ← modify (set_subpointer (S (subpointer r)));
  match subbuffer r !! subpointer r with
  | Some c => mret c
  | None => leave Crash
  end.
Definition SB_EOF : T bool := of_rc (fun r => (subend r <=? subpointer r)%nat).

(** [subbuffer[i] = c]. *)
Definition sb_put (i : nat) (c : Z) : T unit :=
  if (i <? SUBBUFSIZE)%nat
  then modify (fun s => set_subbuffer (<[i := c]> (subbuffer (rc s))) s)
  else leave Crash.

(** [!SB_EOF() && SB_GET() == q]. *)
Definition sb_is (q : Z) : T bool :=
  e ← SB_EOF;
  if (e : bool) then mret false else c ← SB_GET; mret (c =? q).

(** The string in memory from index [i] on. *)
Fixpoint cstring (l : list Z) : list Z :=
  match l with
  | [] => []
  | c :: l' => if c =? 0 then [] else c :: cstring l'
  end.
Definition sb_string (i : nat) (s : tnd) : list Z := cstring (drop i (subbuffer (rc s))).

(** ** [atoi] of the memory that is left: [None] when it does not end there. *)

Definition is_space (c : Z) : bool := (c =? 32) || ((9 <=? c) && (c <=? 13)).
Definition is_digit (c : Z) : bool := (48 <=? c) && (c <=? 57).

Fixpoint atoi_digits (acc : Z) (l : list Z) : option Z :=
  match l with
  | [] => None
  | c :: l' => if is_digit c then atoi_digits (acc * 10 + (c - 48)) l' else Some acc
  end.

(** [(int)strtol(s, 0, 10)] with 64 bits. *)
Definition long_to_int (z : Z) : Z := swrap 32 (Z.max (- 2 ^ 63) (Z.min (2 ^ 63 - 1) z)).

Fixpoint atoi (l : list Z) : option Z :=
  match l with
  | [] => None
  | c :: l' =>
      if is_space c then atoi l'
      else if c =? 45 then n ← atoi_digits 0 l'; Some (long_to_int (- n))
      else if c =? 43 then n ← atoi_digits 0 l'; Some (long_to_int n)
      else n ← atoi_digits 0 l; Some (long_to_int n)
  end.

Definition sb_atoi : T Z :=
  r ← of_rc id;
  match atoi (drop (subpointer r) (subbuffer r)) with
  | Some n => mret n
  | None => leave Crash
  end.

(** [while (SB_GET() != ',' && !SB_EOF());] *)
Fixpoint sb_past_comma (fuel : nat) : T unit :=
  match fuel with
  | O => leave NoFuel
  | S fuel =>
      c ← SB_GET;
      if c =? 44 then mret ()
      else e ← SB_EOF; if (e : bool) then mret () else sb_past_comma fuel
  end.

(** ** The pseudo-terminal (utility.c) *)

Definition PTYOBUF_SIZE : nat := (BUFSIZ + 64)%nat.

(** [*pfrontp++ = c]. *)
Definition put_pty (c : Z) : T unit :=
  b ← of_rc ptyobuf;
  if (length b <? PTYOBUF_SIZE)%nat then modify (set_ptyobuf (b ++ [c])) else leave Crash.

Definition pty_written (k : nat) : T unit :=
  r ← of_rc id;
  let p := (pbackp r + k)%nat in
  if (p =? length (ptyobuf r))%nat
  then _ ← modify (set_ptyobuf []); modify (set_pbackp 0)
  else modify (set_pbackp p).

Definition ptyflush : T unit :=
  r ← of_rc id;
  let rest := drop (pbackp r) (ptyobuf r) in
  match rest with
  | [] => pty_written 0
  | _ =>
      let w := default (Wrote (length rest)) (head (ptywrites r)) in
      _ ← modify (set_ptywrites (tail (ptywrites r)));
      match w with
      | Wrote n =>
          let n := Nat.min n (length rest) in
          _ ← modify (set_ptysent (ptysent r ++ take n rest));
          pty_written n
      | WouldBlock => mret ()
      | WriteError => leave (Exit 1)
      end
  end.

Definition stilloob : T bool :=
  u ← of_rc urgent;
  _ ← modify (set_urgent (tail u));
  mret (default false (head u)).

(** ** [netclear]: only commands stay in the output buffer *)

(** The octets up to the next IAC SE. *)
Fixpoint to_se (l : list Z) : nat :=
  match l with
  | a :: (b :: l') as l1 =>
      if a =? IAC then if b =? SE then 2%nat else (2 + to_se l')%nat else S (to_se l1)
  | [_] => 1%nat
  | [] => 0%nat
  end.

(** How long the first item is; one that is not complete goes to the end. *)
Definition nextitem (l : list Z) : nat :=
  match l with
  | [] => 0%nat
  | c :: l' =>
      if negb (c =? IAC) then 1%nat
      else match l' with
           | [] => 1%nat
           | d :: l'' =>
               if bool_decide (d ∈ [DO; DONT; WILL; WONT]) then Nat.min 3 (length l)
               else if d =? SB then (2 + to_se l'')%nat
               else 2%nat
           end
  end.

Definition wewant (l : list Z) : bool :=
  match l with
  | c :: d :: _ => (c =? IAC) && negb (d =? EC) && negb (d =? EL)
  | _ => false
  end.

Fixpoint good_items (fuel : nat) (l : list Z) : list (list Z) :=
  match fuel with
  | O => []
  | S fuel =>
      match l with
      | [] => []
      | _ =>
          let n := nextitem l in
          if wewant l then take n l :: good_items fuel (drop n l) else good_items fuel (drop n l)
      end
  end.

Definition netclear : T unit :=
  modify (fun s =>
    let l := concat (netobuf (ng s)) in set_netobuf (good_items (length l) l) s).

Section Recv.
Context `{Termios_h}.

(** ** Commands (telnetd.c) *)

Definition send_sig (sig : Z) : T unit :=
  modify (fun s => set_ptysig (ptysig (rc s) ++ [sig]) s).

Definition interrupt : T unit := _ ← ptyflush; send_sig SIGINT.
Definition sendbrk : T unit := _ ← ptyflush; send_sig SIGQUIT.
Definition sendsusp : T unit := _ ← ptyflush; send_sig SIGTSTP.

Definition recv_ayt : T unit :=
  c ← gets (slc_char (Z.to_nat SLC_AYT));
  if default POSIX_VDISABLE c =? POSIX_VDISABLE
  then output_data [13; 10; 91; 89; 101; 115; 93; 13; 10]       (* "\r\n[Yes]\r\n" *)
  else send_sig SIGINFO.

Definition doeof : T unit :=
  _ ← init_termbuf;
  c ← gets (slc_char (Z.to_nat SLC_EOF));
  put_pty (default 4 c).

Definition recv_ao : T unit :=
  _ ← ptyflush;
  _ ← init_termbuf;
  c ← gets (slc_char (Z.to_nat SLC_AO));
  _ ← mwhen (negb (default POSIX_VDISABLE c =? POSIX_VDISABLE))
        (put_pty (default POSIX_VDISABLE c));
  _ ← netclear;
  output_data [IAC; DM].

(** EC and EL: here [sptr] is not tested. *)
Definition recv_erase (func : Z) : T unit :=
  _ ← ptyflush;
  _ ← init_termbuf;
  c ← gets (slc_char (Z.to_nat func));
  match c with
  | None => leave Crash
  | Some ch => mwhen (negb (ch =? POSIX_VDISABLE)) (put_pty ch)
  end.

(** ** Suboptions (state.c) *)

Definition suboption_tspeed : T unit :=
  on ← his_will TELOPT_TSPEED;
  mwhen on
    (_ ← settimer clk_tspeedsubopt;
     yes ← sb_is TELQUAL_IS;
     mwhen yes
       (xspeed ← sb_atoi;
        _ ← sb_past_comma SUBBUFSIZE;
        e ← SB_EOF;
        mwhen (negb e)
          (rspeed ← sb_atoi;
           clientstat TELOPT_TSPEED xspeed rspeed))).

Definition tolower (c : Z) : Z := if (65 <=? c) && (c <=? 90) then c + 32 else c.

(** At most [room] characters of a terminal's name. *)
Fixpoint sb_name (room : nat) (name : list Z) : T (list Z) :=
  match room with
  | O => mret name
  | S room =>
      e ← SB_EOF;
      if (e : bool) then mret name else c ← SB_GET; sb_name room (name ++ [tolower c])
  end.

Definition suboption_ttype : T unit :=
  on ← his_will TELOPT_TTYPE;
  mwhen on
    (_ ← settimer clk_ttypesubopt;
     yes ← sb_is TELQUAL_IS;
     mwhen yes
       (name ← sb_name 40 [];
        modify (set_terminaltype (Some (cstring name))))).

(** An octet, or [None] at the end. *)
Definition sb_next : T (option Z) :=
  e ← SB_EOF;
  if (e : bool) then mret None else c ← SB_GET; mret (Some c).

Definition suboption_naws : T unit :=
  on ← his_will TELOPT_NAWS;
  mwhen on
    (a ← sb_next;
     match a with None => mret () | Some a =>
     b ← sb_next;
     match b with None => mret () | Some b =>
     c ← sb_next;
     match c with None => mret () | Some c =>
     e ← SB_EOF;
     if (e : bool) then mret ()
     else
       d ← SB_GET;
       clientstat TELOPT_NAWS (Z.lor (Z.shiftl a 8) b) (Z.lor (Z.shiftl c 8) d)
     end end end).

Definition suboption_linemode : T unit :=
  on ← his_will TELOPT_LINEMODE;
  mwhen on
    (request ← sb_next;
     match request with
     | None => mret ()
     | Some request =>
         e ← SB_EOF;
         if (e : bool) then mret ()
         else if request =? LM_SLC then
           _ ← start_slc true;
           r ← of_rc id;
           _ ← do_opt_slc (take (subend r - subpointer r) (drop (subpointer r) (subbuffer r)));
           end_slc0
         else if request =? LM_MODE then
           v ← SB_GET;
           _ ← modify (set_useeditmode v);
           clientstat LM_MODE 0 0
         else
           _ ← SB_GET;
           mret ()
     end).

(** [send_status]: the octets go into [statusbuf]. *)
Definition STATUSBUF_SIZE : nat := 256.
Definition add_data (c : Z) : list Z :=
  if (c =? SE) || (c =? IAC) then [u8 c; u8 c] else [u8 c].

Definition status_option (opts : Z -> Z) (i : Z) : list Z :=
  (if my_want_state_is_will opts i then WILL :: add_data i else []) ++
  (if his_want_state_is_will opts i then DO :: add_data i else []).

Definition status_options (opts : Z -> Z) : list Z :=
  concat (map (fun i => status_option opts (Z.of_nat i)) (seq 0 (Z.to_nat NTELOPTS))).

Definition status_flow (flowmode restartany : Z) : list Z :=
  [SB; TELOPT_LFLOW; (if flowmode =? 0 then LFLOW_OFF else LFLOW_ON); SE] ++
  (if restartany <? 0 then []
   else [SB; TELOPT_LFLOW; (if restartany =? 0 then LFLOW_RESTART_XON else LFLOW_RESTART_ANY); SE]).

(** What stands in [statusbuf]; [buf]: the octets of the special characters. *)
Definition status_reply (opts : Z -> Z) (m : modes) (buf : list Z) : list Z :=
  [IAC; SB; TELOPT_STATUS; TELQUAL_IS] ++ status_options opts ++
  (if his_want_state_is_will opts TELOPT_LFLOW
   then status_flow (flowmode m) (restartany m) else []) ++
  (if his_want_state_is_will opts TELOPT_LINEMODE
   then [SB; TELOPT_LINEMODE; LM_MODE] ++ add_data (editmode m) ++ [SE] ++
        [SB; TELOPT_LINEMODE; LM_SLC] ++ concat (map add_data buf) ++ [SE]
   else []) ++
  [IAC; SE].

Definition send_status : T unit :=
  _ ← netflush;
  line ← his_want_will TELOPT_LINEMODE;
  buf ← (if (line : bool) then _ ← start_slc false; _ ← send_slc; end_slc_get else mret []);
  opts ← of_ng options;
  m ← of_md id;
  if (length (status_reply opts m buf) <=? STATUSBUF_SIZE)%nat then
    _ ← output_datalen (status_reply opts m buf);
    netflush
  else leave Crash.

Definition suboption_status : T unit :=
  mode ← sb_next;
  match mode with
  | Some mode =>
      on ← my_will TELOPT_STATUS;
      mwhen ((mode =? TELQUAL_SEND) && on) send_status
  | None => mret ()
  end.

Definition environ_call (c : envcall) : T unit :=
  modify (fun s => set_environ (environ (rc s) ++ [c]) s).

Definition suboption_xdisploc : T unit :=
  yes ← sb_is TELQUAL_IS;
  mwhen yes
    (_ ← settimer clk_xdisplocsubopt;
     r ← of_rc id;
     _ ← sb_put (subend r) 0;
     v ← gets (sb_string (subpointer r));
     environ_call (Setenv [68; 73; 83; 80; 76; 65; 89] v)).       (* "DISPLAY" *)

(** *** The environment *)

Inductive env_guess := Env_ok | Env_wrong | Env_unknown.

(** What the counts say at the end of the suboption. *)
Definition env_counts (last : Z) (empty : bool) (got_var got_value got_uservar : nat) : env_guess :=
  if empty && (last =? OLD_ENV_VALUE) then Env_ok
  else if empty && (last =? OLD_ENV_VAR) then Env_wrong
  else if (got_uservar + got_var =? got_value)%nat then Env_ok
  else if (got_uservar + got_value =? got_var)%nat then Env_wrong
  else Env_unknown.

Fixpoint env_scan (fuel : nat) (last : Z) (empty : bool) (got_var got_value got_uservar : nat)
  : T env_guess :=
  match fuel with
  | O => leave NoFuel
  | S fuel =>
      e ← SB_EOF;
      if (e : bool) then mret (env_counts last empty got_var got_value got_uservar)
      else
        c ← SB_GET;
        if c =? OLD_ENV_VAR then
          if (last <? 0) || (last =? OLD_ENV_VAR) || (empty && (last =? OLD_ENV_VALUE))
          then mret Env_ok
          else env_scan fuel OLD_ENV_VAR true (S got_var) got_value got_uservar
        else if c =? OLD_ENV_VALUE then
          if (last <? 0) || (last =? OLD_ENV_VALUE) || (empty && (last =? OLD_ENV_VAR))
          then mret Env_wrong
          else env_scan fuel OLD_ENV_VALUE true got_var (S got_value) got_uservar
        else if c =? ENV_USERVAR then
          let got := if last =? ENV_USERVAR then got_uservar else S got_uservar in
          if empty && (last =? OLD_ENV_VALUE) then mret Env_ok
          else if empty && (last =? OLD_ENV_VAR) then mret Env_wrong
          else env_scan fuel ENV_USERVAR true got_var got_value got
        else
          _ ← (if c =? ENV_ESC
               then e ← SB_EOF; if (e : bool) then mret () else _ ← SB_GET; mret ()
               else mret ());
          env_scan fuel last false got_var got_value got_uservar
  end.

(** The codes of VAR and VALUE that the client uses, decided once. *)
Definition env_decide : T unit :=
  o ← of_rc env_ovar;
  mwhen (o <? 0)
    (p ← of_rc subpointer;
     g ← env_scan (S SUBBUFSIZE) (-1) false 0 0 0;
     _ ← match g with
         | Env_ok => _ ← modify (set_env_ovar OLD_ENV_VAR); modify (set_env_ovalue OLD_ENV_VALUE)
         | Env_wrong => _ ← modify (set_env_ovar OLD_ENV_VALUE); modify (set_env_ovalue OLD_ENV_VAR)
         | Env_unknown => mret ()
         end;
     modify (set_subpointer p)).

(** Up to the first variable. *)
Fixpoint env_skip (fuel : nat) (var : Z) : T unit :=
  match fuel with
  | O => leave NoFuel
  | S fuel =>
      e ← SB_EOF;
      if (e : bool) then mret ()
      else
        c ← SB_GET;
        if (c =? var) || (c =? ENV_USERVAR) then mret () else env_skip fuel var
  end.

Definition env_set (varp : nat) (valp : option nat) : T unit :=
  var ← gets (sb_string varp);
  match valp with
  | Some v => value ← gets (sb_string v); environ_call (Setenv var value)
  | None => environ_call (Unsetenv var)
  end.

(** The codes of OLD_ENVIRON as those of NEW_ENVIRON. *)
Definition env_code (old : bool) (ovar ovalue c : Z) : Z :=
  if old then if c =? ovar then NEW_ENV_VAR else if c =? ovalue then NEW_ENV_VALUE else c else c.

(** The variables, decoded in place: [cp] is where the next character goes. *)
Fixpoint env_vars (fuel : nat) (old : bool) (cp varp : nat) (valp : option nat) : T unit :=
  match fuel with
  | O => leave NoFuel
  | S fuel =>
      e ← SB_EOF;
      if (e : bool) then _ ← sb_put cp 0; env_set varp valp
      else
        c ← SB_GET;
        r ← of_rc id;
        let c := env_code old (env_ovar r) (env_ovalue r) c in
        if c =? NEW_ENV_VALUE then
          _ ← sb_put cp 0;
          env_vars fuel old (subpointer r) varp (Some (subpointer r))
        else if (c =? NEW_ENV_VAR) || (c =? ENV_USERVAR) then
          _ ← sb_put cp 0;
          _ ← env_set varp valp;
          env_vars fuel old (subpointer r) (subpointer r) None
        else if c =? ENV_ESC then
          e ← SB_EOF;
          if (e : bool) then env_vars fuel old cp varp valp
          else c ← SB_GET; _ ← sb_put cp c; env_vars fuel old (S cp) varp valp
        else _ ← sb_put cp c; env_vars fuel old (S cp) varp valp
  end.

Definition suboption_environ (subchar : Z) : T unit :=
  let old := negb (subchar =? TELOPT_NEW_ENVIRON) in
  q ← sb_next;
  match q with
  | None => mret ()
  | Some q =>
      if negb (q =? TELQUAL_IS) && negb (q =? TELQUAL_INFO) then mret ()
      else
        _ ← mwhen (q =? TELQUAL_IS) (settimer (if old then clk_oenvironsubopt else clk_environsubopt));
        _ ← (if old then
               _ ← env_decide;
               v ← of_rc env_ovar;
               env_skip (S SUBBUFSIZE) v
             else env_skip (S SUBBUFSIZE) NEW_ENV_VAR);
        e ← SB_EOF;
        if (e : bool) then mret ()
        else p ← of_rc subpointer; env_vars (S SUBBUFSIZE) old p p None
  end.

Definition suboption : T unit :=
  subchar ← SB_GET;
  if subchar =? TELOPT_TSPEED then suboption_tspeed
  else if subchar =? TELOPT_TTYPE then suboption_ttype
  else if subchar =? TELOPT_NAWS then suboption_naws
  else if subchar =? TELOPT_LINEMODE then suboption_linemode
  else if subchar =? TELOPT_STATUS then suboption_status
  else if subchar =? TELOPT_XDISPLOC then suboption_xdisploc
  else if (subchar =? TELOPT_NEW_ENVIRON) || (subchar =? TELOPT_OLD_ENVIRON)
  then suboption_environ subchar
  else mret ().

(** ** The machine *)

Definition go (t : ts) : T unit := modify (set_rstate t).

(** The octet after IAC. *)
Definition recv_iac (c : Z) : T unit :=
  if c =? SB then _ ← go TS_SB; SB_CLEAR
  else if c =? WILL then go TS_WILL
  else if c =? WONT then go TS_WONT
  else if c =? DO then go TS_DO
  else if c =? DONT then go TS_DONT
  else
    _ ← (if c =? IP then interrupt
         else if c =? BREAK then sendbrk
         else if c =? AYT then recv_ayt
         else if c =? AO then recv_ao
         else if c =? EC then recv_erase SLC_EC
         else if c =? EL then recv_erase SLC_EL
         else if c =? DM then
           u ← stilloob;
           _ ← modify (set_SYNCHing u);
           settimer clk_gotDM
         else if c =? EOR then
           on ← his_will TELOPT_EOR;
           mwhen on doeof
         else if c =? xEOF then doeof
         else if c =? SUSP then sendsusp
         else if c =? ABORT then sendbrk
         else if c =? IAC then put_pty IAC
         else mret ());
    go TS_DATA.

(** A data octet; the next one may go with it. *)
Definition recv_data (c : Z) : T unit :=
  if c =? IAC then go TS_IAC
  else
    b ← his_will TELOPT_BINARY;
    if (c =? 13) && negb b then
      m ← of_md linemode;
      rest ← of_rc netip;
      t ← of_ty termbuf;
      match rest with
      | nc :: rest' =>
          if negb (m =? 0) && ((nc =? 10) || ((nc =? 0) && negb (tty_iscrnl t =? 0))) then
            _ ← modify (set_netip rest');
            put_pty 10
          else _ ← go TS_CR; put_pty c
      | [] => _ ← go TS_CR; put_pty c
      end
    else put_pty c.

(** The end of a suboption: [IAC c] is written behind it. *)
Definition sb_end (c : Z) : T unit :=
  _ ← SB_ACCUM IAC;
  _ ← SB_ACCUM c;
  _ ← modify (fun s => set_subpointer (subpointer (rc s) - 2) s);
  _ ← SB_TERM;
  suboption.

Definition recv_octet (c : Z) : T unit :=
  st ← of_rc rstate;
  match st with
  | TS_CR =>
      _ ← go TS_DATA;
      if (c =? 0) || (c =? 10) then mret () else recv_data c
  | TS_DATA => recv_data c
  | TS_IAC => recv_iac c
  | TS_SB => if c =? IAC then go TS_SE else SB_ACCUM c
  | TS_SE =>
      if c =? SE then _ ← sb_end SE; go TS_DATA
      else if c =? IAC then _ ← SB_ACCUM c; go TS_SB
      else _ ← sb_end c; _ ← go TS_IAC; recv_iac c
  | TS_WILL => _ ← willoption c; go TS_DATA
  | TS_WONT => _ ← wontoption c; go TS_DATA
  | TS_DO => _ ← dooption c; go TS_DATA
  | TS_DONT => _ ← dontoption c; go TS_DATA
  end.

Fixpoint telrcv_loop (fuel : nat) : T unit :=
  r ← of_rc id;
  match netip r with
  | [] => mret ()
  | c :: rest =>
      if (BUFSIZ <? length (ptyobuf r) + 2)%nat then mret ()
      else match fuel with
           | O => leave NoFuel
           | S fuel =>
               _ ← modify (set_netip rest);
               _ ← recv_octet c;
               telrcv_loop fuel
           end
  end.

Definition telrcv : T unit := n ← of_rc (fun r => length (netip r)); telrcv_loop n.

(** [ttloop] with what [read] gives; data that does not fit is dropped. *)
Definition ttloop (input : list Z) : T unit :=
  _ ← netflush;
  match input with
  | [] => leave (Exit 1)
  | _ =>
      _ ← modify (set_netip input);
      _ ← telrcv;
      r ← of_rc id;
      match netip r with
      | [] => mret ()
      | _ =>
          _ ← modify (set_ptyobuf []);
          _ ← modify (set_pbackp 0);
          telrcv
      end
  end.

(** The loop of [telnet] from the terminal to the network: what is left for the next time. *)
Fixpoint pty_to_net (buf : list Z) : T (list Z) :=
  n ← gets room;
  if (n <? 2)%nat then mret buf
  else
    match buf with
    | [] => mret []
    | c :: buf' =>
        _ ← mwhen (c =? IAC) (output_data [c]);
        _ ← output_data [c];
        b ← my_will TELOPT_BINARY;
        if (c =? 13) && negb b then
          match buf' with
          | d :: buf'' =>
              if d =? 10 then _ ← output_data [d]; pty_to_net buf''
              else _ ← output_data [0]; pty_to_net buf'
          | [] => _ ← output_data [0]; pty_to_net buf'
          end
        else pty_to_net buf'
    end.

End Recv.
