(* ===== verification/Telnet.v ===== *)
(** * telnet: option negotiation of the client
    ([src/remote_cmds/telnet.tproj/telnet.c, commands.c])

    The requests and handlers of the client, the requests it makes when a connection opens
    and those of its commands.  Built as its Makefile builds it: with KLUDGELINEMODE and
    AUTHENTICATION, without ENCRYPTION and OLD_ENVIRON.  The output ring is a list without
    bound.  [setconnmode] and [slc_init] set the local terminal and send suboptions; they
    leave the negotiation alone and are entries of a log, as are the calls of libtelnet's
    authentication.  Whether DISPLAY is set in the
    environment is the field [display]. *)

From Stdlib Require Import ZArith Lia List Bool.
From stdpp Require Import base tactics list numbers functions.
From S2P Require Import Prelude TelnetNeg TelnetOpts.

Local Open Scope Z_scope.

Module Client.

Inductive call := Setconnmode (force : bool) | Slc_init | Setcommandmode | Auth (op : Z) (data : list Z).

Record tn := mkTn {
  options : Z -> Z; do_dont_resp : Z -> Z; will_wont_resp : Z -> Z;
  netoring : list (list Z);
  telnetport : Z; kludgelinemode : bool; linemode : Z; flushout : bool; autologin : bool;
  display : bool; modenegotiated : Z; system : Z; calls : list call }.

Definition set_options v s := mkTn v (do_dont_resp s) (will_wont_resp s) (netoring s)
  (telnetport s) (kludgelinemode s) (linemode s) (flushout s) (autologin s) (display s)
  (modenegotiated s) (system s) (calls s).
Definition set_do_dont_resp v s := mkTn (options s) v (will_wont_resp s) (netoring s)
  (telnetport s) (kludgelinemode s) (linemode s) (flushout s) (autologin s) (display s)
  (modenegotiated s) (system s) (calls s).
Definition set_will_wont_resp v s := mkTn (options s) (do_dont_resp s) v (netoring s)
  (telnetport s) (kludgelinemode s) (linemode s) (flushout s) (autologin s) (display s)
  (modenegotiated s) (system s) (calls s).
Definition set_netoring v s := mkTn (options s) (do_dont_resp s) (will_wont_resp s) v
  (telnetport s) (kludgelinemode s) (linemode s) (flushout s) (autologin s) (display s)
  (modenegotiated s) (system s) (calls s).
Definition set_kludgelinemode v s := mkTn (options s) (do_dont_resp s) (will_wont_resp s)
  (netoring s) (telnetport s) v (linemode s) (flushout s) (autologin s) (display s)
  (modenegotiated s) (system s) (calls s).
Definition set_linemode v s := mkTn (options s) (do_dont_resp s) (will_wont_resp s)
  (netoring s) (telnetport s) (kludgelinemode s) v (flushout s) (autologin s) (display s)
  (modenegotiated s) (system s) (calls s).
Definition set_flushout v s := mkTn (options s) (do_dont_resp s) (will_wont_resp s)
  (netoring s) (telnetport s) (kludgelinemode s) (linemode s) v (autologin s) (display s)
  (modenegotiated s) (system s) (calls s).
Definition set_clocks m t s := mkTn (options s) (do_dont_resp s) (will_wont_resp s)
  (netoring s) (telnetport s) (kludgelinemode s) (linemode s) (flushout s) (autologin s)
  (display s) m t (calls s).
Definition set_calls v s := mkTn (options s) (do_dont_resp s) (will_wont_resp s)
  (netoring s) (telnetport s) (kludgelinemode s) (linemode s) (flushout s) (autologin s)
  (display s) (modenegotiated s) (system s) v.

Abbreviation C := (M halt tn).

(** [settimer(modenegotiated)]: [clocks.modenegotiated = clocks.system++]. *)
Definition settimer_modenegotiated : C unit :=
  modify (fun s => set_clocks (system s) (system s + 1) s).
Definition log_call (c : call) : C unit := modify (fun s => set_calls (calls s ++ [c]) s).
Definition setconnmode (force : bool) : C unit := log_call (Setconnmode force).
Definition slc_init : C unit := log_call Slc_init.
Definition setcommandmode : C unit := log_call Setcommandmode.

Definition upd_options (f : (Z -> Z) -> Z -> Z) : C unit :=
  modify (fun s => set_options (f (options s)) s).
Definition upd_do_dont (f : (Z -> Z) -> Z -> Z) : C unit :=
  modify (fun s => set_do_dont_resp (f (do_dont_resp s)) s).
Definition upd_will_wont (f : (Z -> Z) -> Z -> Z) : C unit :=
  modify (fun s => set_will_wont_resp (f (will_wont_resp s)) s).

Definition incr8 (o : Z) (f : Z -> Z) : Z -> Z := <[o := swrap 8 (f o + 1)]> f.
Definition decr8 (o : Z) (f : Z -> Z) : Z -> Z := <[o := swrap 8 (f o - 1)]> f.

(** ** Requests *)

Definition net_add (m : list Z) : C unit :=
  modify (fun s => if telnetport s <? 0 then s else set_netoring (netoring s ++ [m]) s).

Definition send_do (c : Z) (init : bool) : C unit :=
  s ← get;
  if init && (((do_dont_resp s c =? 0) && my_state_is_do (options s) c)
              || my_want_state_is_do (options s) c)
  then mret ()
  else
    _ ← mwhen init (_ ← upd_options (set_my_want_state_do c); upd_do_dont (incr8 c));
    net_add [IAC; DO; c].

Definition send_dont (c : Z) (init : bool) : C unit :=
  s ← get;
  if init && (((do_dont_resp s c =? 0) && negb (my_state_is_do (options s) c))
              || negb (my_want_state_is_do (options s) c))
  then mret ()
  else
    _ ← mwhen init (_ ← upd_options (set_my_want_state_dont c); upd_do_dont (incr8 c));
    net_add [IAC; DONT; c].

Definition send_will (c : Z) (init : bool) : C unit :=
  s ← get;
  if init && (((will_wont_resp s c =? 0) && my_state_is_will (options s) c)
              || my_want_state_is_will (options s) c)
  then mret ()
  else
    _ ← mwhen init (_ ← upd_options (set_my_want_state_will c); upd_will_wont (incr8 c));
    net_add [IAC; WILL; c].

Definition send_wont (c : Z) (init : bool) : C unit :=
  s ← get;
  if init && (((will_wont_resp s c =? 0) && negb (my_state_is_will (options s) c))
              || negb (my_want_state_is_will (options s) c))
  then mret ()
  else
    _ ← mwhen init (_ ← upd_options (set_my_want_state_wont c); upd_will_wont (incr8 c));
    net_add [IAC; WONT; c].

(** ** Handlers *)

Definition answer_do_dont (option : Z) (new : bool) : C unit :=
  s ← get;
  mwhen (negb (do_dont_resp s option =? 0))
    (_ ← upd_do_dont (decr8 option);
     s ← get;
     mwhen (negb (do_dont_resp s option =? 0) && eqb (my_state_is_do (options s) option) new)
       (upd_do_dont (decr8 option))).

Definition answer_will_wont (option : Z) (new : bool) : C unit :=
  s ← get;
  mwhen (negb (will_wont_resp s option =? 0))
    (_ ← upd_will_wont (decr8 option);
     s ← get;
     mwhen (negb (will_wont_resp s option =? 0) && eqb (my_state_is_will (options s) option) new)
       (upd_will_wont (decr8 option))).

Definition will_new_state_ok (option : Z) : bool :=
  bool_decide (option ∈ [TELOPT_ECHO; TELOPT_BINARY; TELOPT_SGA; TELOPT_STATUS;
                         TELOPT_AUTHENTICATION]).

Definition willoption (option : Z) : C unit :=
  _ ← answer_do_dont option true;
  s ← get;
  if (do_dont_resp s option =? 0) && negb (my_want_state_is_do (options s) option) then
    _ ← mwhen (bool_decide (option ∈ [TELOPT_ECHO; TELOPT_BINARY; TELOPT_SGA]))
              settimer_modenegotiated;
    if option =? TELOPT_TM then
      _ ← modify (set_flushout false);
      _ ← upd_options (set_my_want_state_dont option);
      upd_options (set_my_state_dont option)
    else
      _ ← (if will_new_state_ok option then
             _ ← upd_options (set_my_want_state_do option);
             _ ← send_do option false;
             setconnmode false
           else
             _ ← upd_do_dont (incr8 option);
             send_dont option false);
      upd_options (set_my_state_do option)
  else upd_options (set_my_state_do option).

Definition wontoption (option : Z) : C unit :=
  _ ← answer_do_dont option false;
  s ← get;
  if (do_dont_resp s option =? 0) && my_want_state_is_do (options s) option then
    _ ← mwhen (((option =? TELOPT_SGA) && kludgelinemode s) || (option =? TELOPT_ECHO))
              settimer_modenegotiated;
    if option =? TELOPT_TM then
      _ ← modify (set_flushout false);
      _ ← upd_options (set_my_want_state_dont option);
      upd_options (set_my_state_dont option)
    else
      _ ← upd_options (set_my_want_state_dont option);
      s ← get;
      _ ← mwhen (my_state_is_do (options s) option) (send_dont option false);
      _ ← setconnmode false;
      upd_options (set_my_state_dont option)
  else
    _ ← mwhen (option =? TELOPT_TM)
      (_ ← modify (set_flushout false);
       upd_options (set_my_want_state_dont option));
    upd_options (set_my_state_dont option).

Definition do_new_state_ok (s : tn) (option : Z) : bool :=
  bool_decide (option ∈ [TELOPT_BINARY; TELOPT_NAWS; TELOPT_TSPEED; TELOPT_LFLOW; TELOPT_TTYPE;
                         TELOPT_SGA; TELOPT_NEW_ENVIRON])
  || ((option =? TELOPT_AUTHENTICATION) && autologin s)
  || ((option =? TELOPT_XDISPLOC) && display s).

Definition dooption (option : Z) : C unit :=
  _ ← answer_will_wont option true;
  s ← get;
  if will_wont_resp s option =? 0 then
    if negb (my_want_state_is_will (options s) option) then
      if option =? TELOPT_TM then
        _ ← send_will option false;
        _ ← upd_options (set_my_want_state_wont TELOPT_TM);
        upd_options (set_my_state_wont TELOPT_TM)
      else if option =? TELOPT_LINEMODE then
        _ ← modify (set_kludgelinemode false);
        _ ← send_do TELOPT_SGA true;
        _ ← upd_options (set_my_want_state_will TELOPT_LINEMODE);
        _ ← send_will option false;
        _ ← upd_options (set_my_state_will TELOPT_LINEMODE);
        slc_init
      else
        _ ← (if do_new_state_ok s option then
               _ ← upd_options (set_my_want_state_will option);
               _ ← send_will option false;
               setconnmode false
             else
               _ ← upd_will_wont (incr8 option);
               send_wont option false);
        upd_options (set_my_state_will option)
    else if option =? TELOPT_LINEMODE then
      _ ← modify (set_kludgelinemode false);
      _ ← send_do TELOPT_SGA true;
      _ ← upd_options (set_my_state_will option);
      _ ← slc_init;
      send_do TELOPT_SGA false
    else upd_options (set_my_state_will option)
  else upd_options (set_my_state_will option).

Definition dontoption (option : Z) : C unit :=
  _ ← answer_will_wont option false;
  s ← get;
  if (will_wont_resp s option =? 0) && my_want_state_is_will (options s) option then
    _ ← mwhen (option =? TELOPT_LINEMODE) (modify (set_linemode 0));
    _ ← upd_options (set_my_want_state_wont option);
    s ← get;
    _ ← mwhen (my_state_is_will (options s) option) (send_wont option false);
    _ ← setconnmode false;
    upd_options (set_my_state_wont option)
  else upd_options (set_my_state_wont option).

(** ** Requests of the program *)

Definition tel_enter_binary (rw : Z) : C unit :=
  _ ← mwhen (negb (Z.land rw 1 =? 0)) (send_do TELOPT_BINARY true);
  mwhen (negb (Z.land rw 2 =? 0)) (send_will TELOPT_BINARY true).

Definition tel_leave_binary (rw : Z) : C unit :=
  _ ← mwhen (negb (Z.land rw 1 =? 0)) (send_dont TELOPT_BINARY true);
  mwhen (negb (Z.land rw 2 =? 0)) (send_wont TELOPT_BINARY true).

(** What [telnet] asks for when the connection opens. *)
Definition telnet_requests (eight : Z) : C unit :=
  s ← get;
  mwhen (0 <? telnetport s)
    (_ ← mwhen (autologin s) (send_will TELOPT_AUTHENTICATION true);
     _ ← send_do TELOPT_SGA true;
     _ ← send_will TELOPT_TTYPE true;
     _ ← send_will TELOPT_NAWS true;
     _ ← send_will TELOPT_TSPEED true;
     _ ← send_will TELOPT_LFLOW true;
     _ ← send_will TELOPT_LINEMODE true;
     _ ← send_will TELOPT_NEW_ENVIRON true;
     _ ← send_do TELOPT_STATUS true;
     _ ← mwhen (display s) (send_will TELOPT_XDISPLOC true);
     mwhen (negb (eight =? 0)) (tel_enter_binary eight)).

(** The commands "mode" and "set binary" and "logout". *)
Definition dokludgemode : C unit :=
  _ ← modify (set_kludgelinemode true);
  _ ← send_wont TELOPT_LINEMODE true;
  _ ← send_dont TELOPT_SGA true;
  send_dont TELOPT_ECHO true.

Definition dolinemode : C unit :=
  s ← get;
  _ ← mwhen (kludgelinemode s) (send_dont TELOPT_SGA true);
  _ ← send_will TELOPT_LINEMODE true;
  send_dont TELOPT_ECHO true.

Definition docharmode : C unit :=
  s ← get;
  _ ← (if kludgelinemode s then send_do TELOPT_SGA true else send_wont TELOPT_LINEMODE true);
  send_do TELOPT_ECHO true.

Definition togrbinary (val : Z) : C unit :=
  s ← get;
  let on := my_want_state_is_do (options s) TELOPT_BINARY in
  let val := if val =? -1 then (if on then 0 else 1) else val in
  if val =? 1 then mwhen (negb on) (tel_enter_binary 1) else mwhen on (tel_leave_binary 1).

Definition togxbinary (val : Z) : C unit :=
  s ← get;
  let on := my_want_state_is_will (options s) TELOPT_BINARY in
  let val := if val =? -1 then (if on then 0 else 1) else val in
  if val =? 1 then mwhen (negb on) (tel_enter_binary 2) else mwhen on (tel_leave_binary 2).

Definition logout : C unit := send_do TELOPT_LOGOUT true.

End Client.
