(* ===== verification/TelnetIO.v ===== *)
(** * telnet: from the keyboard to the network and back
    ([src/remote_cmds/telnet.tproj/telnet.c, sys_bsd.c])

    [telsnd] takes what the user types, [telrcv] what the server sends.  The input rings are
    lists of runs: a run is what stands in a ring without a gap, as [ring_full_consecutive]
    gives it.  [ttyoring] is the output ring to the terminal, of [2 * BUFSIZ] octets.  The
    command interpreter ([command]) and [suboption] are parameters: what they do is not
    modelled here.  Whether urgent data waits ([stilloob]) is the list [oob]. *)

From Stdlib Require Import ZArith Lia List Bool.
From stdpp Require Import base tactics list numbers functions.
From S2P Require Import Prelude TelnetNeg TelnetOpts Telnetd Telnet.

Local Open Scope Z_scope.

Module ClientIO.

Inductive ts :=
  TS_DATA | TS_IAC | TS_WILL | TS_WONT | TS_DO | TS_DONT | TS_CR | TS_SB | TS_SE.

(** What the user has set. *)
Record settings := mkSettings {
  rlogin : Z; escape : Z; echoc : Z;
  crmod : bool; crlf : bool; autoflush : bool; autosynch : bool }.

(** A special character of line mode ([struct spc]): [valp] is an index into [new_tc.c_cc]. *)
Record spc := mkSpc { val : Z; valp : option nat; flags : Z; mylevel : Z }.
Inductive slc_modes := SLC_IMPORT | SLC_EXPORT | SLC_RVALUE.

(** A variable of telnet's environment list ([struct env_lst]). *)
Record env_lst := mkEnv { var : list Z; value : list Z; export : bool; welldefined : bool }.

(** What the suboptions are about: the special characters, the local terminal's characters
    and its speeds before telnet, the environment, the names of the terminal. *)
Record subs := mkSubs {
  spc_data : list spc; slc_mode : slc_modes; new_cc : list Z; old_cc : list Z;
  old_ispeed : Z; old_ospeed : Z; restartany : bool; envlist : list env_lst;
  resettermname : bool; names : list (list Z); next : nat }.

Definition set_spc_data v (b : subs) := mkSubs v (slc_mode b) (new_cc b) (old_cc b)
  (old_ispeed b) (old_ospeed b) (restartany b) (envlist b) (resettermname b) (names b) (next b).
Definition set_slc_mode v (b : subs) := mkSubs (spc_data b) v (new_cc b) (old_cc b)
  (old_ispeed b) (old_ospeed b) (restartany b) (envlist b) (resettermname b) (names b) (next b).
Definition set_new_cc v (b : subs) := mkSubs (spc_data b) (slc_mode b) v (old_cc b)
  (old_ispeed b) (old_ospeed b) (restartany b) (envlist b) (resettermname b) (names b) (next b).
Definition set_restartany v (b : subs) := mkSubs (spc_data b) (slc_mode b) (new_cc b)
  (old_cc b) (old_ispeed b) (old_ospeed b) v (envlist b) (resettermname b) (names b) (next b).
Definition set_envlist v (b : subs) := mkSubs (spc_data b) (slc_mode b) (new_cc b) (old_cc b)
  (old_ispeed b) (old_ospeed b) (restartany b) v (resettermname b) (names b) (next b).
Definition set_names v n (b : subs) := mkSubs (spc_data b) (slc_mode b) (new_cc b) (old_cc b)
  (old_ispeed b) (old_ospeed b) (restartany b) (envlist b) false v n.

Record io := mkIo {
  tn : Client.tn;
  netiring : list (list Z); ttyiring : list (list Z); ttyoring : list Z;
  telrcv_state : ts; subbuffer : list Z; subpointer : nat; subend : nat;
  SYNCHing : bool; localflow : bool; globalmode : Z; flushline : bool; dontlecho : bool;
  bol : bool; local : bool; winsize : option (Z * Z); oob : list bool; sb : subs }.

Abbreviation IO := (M halt io).

Definition set_tn v (s : io) := mkIo v (netiring s) (ttyiring s) (ttyoring s) (telrcv_state s)
  (subbuffer s) (subpointer s) (subend s) (SYNCHing s) (localflow s) (globalmode s)
  (flushline s) (dontlecho s) (bol s) (local s) (winsize s) (oob s) (sb s).
Definition set_netiring v (s : io) := mkIo (tn s) v (ttyiring s) (ttyoring s) (telrcv_state s)
  (subbuffer s) (subpointer s) (subend s) (SYNCHing s) (localflow s) (globalmode s)
  (flushline s) (dontlecho s) (bol s) (local s) (winsize s) (oob s) (sb s).
Definition set_ttyiring v (s : io) := mkIo (tn s) (netiring s) v (ttyoring s) (telrcv_state s)
  (subbuffer s) (subpointer s) (subend s) (SYNCHing s) (localflow s) (globalmode s)
  (flushline s) (dontlecho s) (bol s) (local s) (winsize s) (oob s) (sb s).
Definition set_ttyoring v (s : io) := mkIo (tn s) (netiring s) (ttyiring s) v (telrcv_state s)
  (subbuffer s) (subpointer s) (subend s) (SYNCHing s) (localflow s) (globalmode s)
  (flushline s) (dontlecho s) (bol s) (local s) (winsize s) (oob s) (sb s).
Definition set_telrcv_state v (s : io) := mkIo (tn s) (netiring s) (ttyiring s) (ttyoring s) v
  (subbuffer s) (subpointer s) (subend s) (SYNCHing s) (localflow s) (globalmode s)
  (flushline s) (dontlecho s) (bol s) (local s) (winsize s) (oob s) (sb s).
Definition set_SYNCHing v (s : io) := mkIo (tn s) (netiring s) (ttyiring s) (ttyoring s)
  (telrcv_state s) (subbuffer s) (subpointer s) (subend s) v (localflow s) (globalmode s)
  (flushline s) (dontlecho s) (bol s) (local s) (winsize s) (oob s) (sb s).
Definition set_localflow v (s : io) := mkIo (tn s) (netiring s) (ttyiring s) (ttyoring s)
  (telrcv_state s) (subbuffer s) (subpointer s) (subend s) (SYNCHing s) v (globalmode s)
  (flushline s) (dontlecho s) (bol s) (local s) (winsize s) (oob s) (sb s).
Definition set_flushline v (s : io) := mkIo (tn s) (netiring s) (ttyiring s) (ttyoring s)
  (telrcv_state s) (subbuffer s) (subpointer s) (subend s) (SYNCHing s) (localflow s)
  (globalmode s) v (dontlecho s) (bol s) (local s) (winsize s) (oob s) (sb s).
Definition set_dontlecho v (s : io) := mkIo (tn s) (netiring s) (ttyiring s) (ttyoring s)
  (telrcv_state s) (subbuffer s) (subpointer s) (subend s) (SYNCHing s) (localflow s)
  (globalmode s) (flushline s) v (bol s) (local s) (winsize s) (oob s) (sb s).
Definition set_bol v (s : io) := mkIo (tn s) (netiring s) (ttyiring s) (ttyoring s)
  (telrcv_state s) (subbuffer s) (subpointer s) (subend s) (SYNCHing s) (localflow s)
  (globalmode s) (flushline s) (dontlecho s) v (local s) (winsize s) (oob s) (sb s).
Definition set_local v (s : io) := mkIo (tn s) (netiring s) (ttyiring s) (ttyoring s)
  (telrcv_state s) (subbuffer s) (subpointer s) (subend s) (SYNCHing s) (localflow s)
  (globalmode s) (flushline s) (dontlecho s) (bol s) v (winsize s) (oob s) (sb s).
Definition set_oob v (s : io) := mkIo (tn s) (netiring s) (ttyiring s) (ttyoring s)
  (telrcv_state s) (subbuffer s) (subpointer s) (subend s) (SYNCHing s) (localflow s)
  (globalmode s) (flushline s) (dontlecho s) (bol s) (local s) (winsize s) v (sb s).
Definition set_sb v (s : io) := mkIo (tn s) (netiring s) (ttyiring s) (ttyoring s)
  (telrcv_state s) (subbuffer s) (subpointer s) (subend s) (SYNCHing s) (localflow s)
  (globalmode s) (flushline s) (dontlecho s) (bol s) (local s) (winsize s) (oob s) v.
Definition set_sub b p e (s : io) := mkIo (tn s) (netiring s) (ttyiring s) (ttyoring s)
  (telrcv_state s) b p e (SYNCHing s) (localflow s) (globalmode s) (flushline s) (dontlecho s)
  (bol s) (local s) (winsize s) (oob s) (sb s).

(** A computation on the negotiation's state. *)
Definition neg {A} (m : M halt Client.tn A) : IO A := fun s =>
  let '(r, t) := m (tn s) in (r, set_tn t s).

Definition get_neg {A} (f : Client.tn -> A) : IO A := gets (fun s => f (tn s)).

Definition BUFSIZ : nat := 1024.

(** ** The rings *)

(** [NETADD] and [NET2ADD]: the ring to the network is a list without bound, where the code writes over what waits
    in a full ring of [2 * BUFSIZ] octets; the theorems about what arrives ask for room, by [NETROOM] or as a length. *)
Definition NETADDS (m : list Z) : IO unit :=
  neg (modify (fun t => Client.set_netoring (Client.netoring t ++ [m]) t)).
Definition NETADD (c : Z) : IO unit := NETADDS [c].
Definition NET2ADD (c1 c2 : Z) : IO unit := NETADDS [c1; c2].
Definition NETROOM (s : io) : nat := (2 * BUFSIZ - length (concat (Client.netoring (tn s))))%nat.
Definition TTYROOM (s : io) : nat := (2 * BUFSIZ - length (ttyoring s))%nat.

Definition TTYADD (c : Z) : IO unit :=
  f ← get_neg Client.flushout;
  y ← gets SYNCHing;
  mwhen (negb (y || f)) (modify (fun s => set_ttyoring (ttyoring s ++ [c]) s)).

(** [ttyflush(1)]: the output is dropped. *)
Definition ttyflush_drop : IO unit := modify (set_ttyoring []).

Definition stilloob : IO bool :=
  u ← gets oob;
  _ ← modify (set_oob (tail u));
  mret (default false (head u)).

(** [settimer] of a clock that is not looked at. *)
Definition settimer : IO unit :=
  neg (modify (fun t => Client.set_clocks (Client.modenegotiated t) (Client.system t + 1) t)).

(** ** The terminal's special characters: [new_tc.c_cc] *)

Definition cc_at (l : list Z) (i : nat) : Z := default 0 (l !! i).

Section Client.
Context `{Termios_h} (K : settings) (command : list Z -> IO unit) (suboption : IO unit).

Definition term_char (i : nat) (s : io) : Z := cc_at (new_cc (sb s)) i.
Definition termIntChar := term_char VINTR.
Definition termQuitChar := term_char VQUIT.
Definition termEofChar := term_char VEOF.
Definition termSuspChar := term_char VSUSP.
Definition termFlushChar := term_char VDISCARD.
Definition termKillChar := term_char VKILL.
Definition termEraseChar := term_char VERASE.

(** ** Commands to the server *)

Definition doflush : IO unit :=
  _ ← NETADDS [IAC; DO; TELOPT_TM];
  _ ← modify (set_flushline true);
  _ ← neg (modify (Client.set_flushout true));
  ttyflush_drop.

Definition dosynch : IO unit := _ ← NETADD IAC; NETADD DM.

Definition xmitAO : IO unit := _ ← NET2ADD IAC AO; mwhen (autoflush K) doflush.
Definition xmitEL : IO unit := NET2ADD IAC EL.
Definition xmitEC : IO unit := NET2ADD IAC EC.

(** [intp], [sendbrk], [sendabort] and [sendsusp] differ in the command only. *)
Definition send_flush (c : Z) : IO unit :=
  _ ← NET2ADD IAC c;
  _ ← modify (set_flushline true);
  _ ← mwhen (autoflush K) doflush;
  mwhen (autosynch K) dosynch.
Definition intp : IO unit := send_flush IP.
Definition sendbrk : IO unit := send_flush BREAK.
Definition sendabort : IO unit := send_flush ABORT.
Definition sendsusp : IO unit := send_flush SUSP.
Definition sendeof : IO unit := NET2ADD IAC xEOF.
Definition sendayt : IO unit := NET2ADD IAC AYT.

(** [PUTSHORT]: two octets, an octet 255 twice. *)
Definition putshort (x : Z) : list Z :=
  let octet c := if c =? IAC then [IAC; IAC] else [c] in
  octet (Z.land (Z.shiftr x 8) 255) ++ octet (Z.land x 255).

Definition sendnaws : IO unit :=
  on ← get_neg (fun t => my_state_is_will (Client.options t) TELOPT_NAWS);
  w ← gets winsize;
  match w with
  | Some (rows, cols) =>
      let m := [IAC; SB; TELOPT_NAWS] ++ putshort cols ++ putshort rows ++ [IAC; SE] in
      room ← gets NETROOM;
      mwhen (on && (length m <=? room)%nat) (NETADDS m)
  | None => mret ()
  end.

(** ** What the user types *)

Definition MODE_LOCAL_CHARS (m : Z) : bool :=
  negb (Z.land m (Z.lor MODE_EDIT MODE_TRAPSIG) =? 0).

(** False: the character is not to be sent. *)
Definition TerminalSpecialChars (c : Z) : IO bool :=
  s ← get;
  if c =? termIntChar s then _ ← intp; mret false
  else if c =? termQuitChar s then
    _ ← (if Client.kludgelinemode (tn s) then sendbrk else sendabort);
    mret false
  else if c =? termEofChar s then
    if my_want_state_is_will (Client.options (tn s)) TELOPT_LINEMODE
    then _ ← sendeof; mret false else mret true
  else if c =? termSuspChar s then _ ← sendsusp; mret false
  else if c =? termFlushChar s then _ ← xmitAO; mret false
  else if MODE_LOCAL_CHARS (globalmode s) then mret true
  else if c =? termKillChar s then _ ← xmitEL; mret false
  else if c =? termEraseChar s then _ ← xmitEC; mret false
  else mret true.

Definition binary_out (s : io) : bool :=
  my_want_state_is_will (Client.options (tn s)) TELOPT_BINARY.
Definition strip (s : io) (c : Z) : Z := if binary_out s then c else Z.land c 127.

(** What becomes of a character: the loop goes on, it ends, or the character is sent, [sc]
    being the character without its high bit; [rest] is what is left of the run. *)
Inductive fate :=
  | Skip (rest : list Z)
  | Stop (rest : list Z)
  | Send (c sc : Z) (rest : list Z).

Definition escapes (c : Z) (rest : list Z) : IO fate :=
  s ← get;
  let sc := strip s c in
  let newline sc := mwhen ((sc =? 10) || (sc =? 13)) (modify (set_bol true)) in
  let to_command :=
    _ ← command rest;
    _ ← modify (set_bol true);
    _ ← modify (set_flushline true);
    mret (Stop []) in
  if negb (rlogin K =? POSIX_VDISABLE) then
    if bol s then
      _ ← modify (set_bol false);
      if sc =? rlogin K then _ ← modify (set_local true); mret (Skip rest)
      else _ ← newline sc; mret (Send c sc rest)
    else if local s then
      _ ← modify (set_local false);
      if (sc =? 46) || (c =? termEofChar s) then
        _ ← modify (set_bol true);
        _ ← command [99; 108; 111; 115; 101; 10];                   (* "close\n" *)
        mret (Skip rest)
      else if sc =? termSuspChar s then
        _ ← modify (set_bol true);
        _ ← command [122; 10];                                      (* "z\n" *)
        mret (Skip rest)
      else if sc =? escape K then to_command
      else if negb (sc =? rlogin K) then
        _ ← newline (rlogin K);
        mret (Send (rlogin K) (rlogin K) (c :: rest))
      else _ ← newline sc; mret (Send c sc rest)
    else _ ← newline sc; mret (Send c sc rest)
  else if negb (escape K =? POSIX_VDISABLE) && (sc =? escape K) then
    match rest with
    | d :: rest' =>
        if strip s d =? escape K then _ ← modify (set_bol false); mret (Send c sc rest')
        else to_command
    | [] => to_command
    end
  else _ ← modify (set_bol false); mret (Send c sc rest).

(** The character that switches the local echo (kludge linemode), then those that the
    local terminal would treat. *)
Definition local_chars (c sc : Z) (rest : list Z) : IO fate :=
  s ← get;
  let special rest : IO fate :=
    if MODE_LOCAL_CHARS (globalmode s) then
      yes ← TerminalSpecialChars sc;
      if (yes : bool) then mret (Send c sc rest) else _ ← modify (set_bol true); mret (Stop rest)
    else mret (Send c sc rest) in
  let toggle : IO fate :=
    _ ← modify (set_dontlecho (negb (dontlecho s)));
    _ ← settimer;
    _ ← neg (Client.setconnmode false);
    _ ← modify (set_flushline true);
    mret (Stop rest) in
  if Client.kludgelinemode (tn s) && negb (Z.land (globalmode s) MODE_EDIT =? 0) && (sc =? echoc K)
  then match rest with
       | d :: rest' => if strip s d =? echoc K then special rest' else toggle
       | [] => toggle
       end
  else special rest.

(** The character as it goes to the network. *)
Definition snd_octet (c : Z) : IO unit :=
  s ← get;
  let newline := _ ← modify (set_flushline true); modify (set_bol true) in
  if negb (binary_out s) && (c =? 10) then
    _ ← mwhen (MODE_LOCAL_CHARS (globalmode s)) (NETADD 13);
    _ ← NETADD 10;
    newline
  else if negb (binary_out s) && (c =? 13) then
    _ ← NET2ADD 13 (if crlf K then 10 else 0);
    newline
  else if c =? IAC then NET2ADD IAC IAC
  else NETADD c.

(** Put the rest of the run back. *)
Definition put_back (rest : list Z) (runs : list (list Z)) : IO unit :=
  modify (set_ttyiring (rest :: runs)).

Fixpoint telsnd_loop (fuel : nat) : IO unit :=
  s ← get;
  if (NETROOM s <=? 2)%nat then mret ()
  else
    match ttyiring s, fuel with
    | [], _ => mret ()
    | _, O => leave NoFuel
    | [] :: runs, S fuel => _ ← modify (set_ttyiring runs); telsnd_loop fuel
    | (c :: rest) :: runs, S fuel =>
        f ← escapes c rest;
        match f with
        | Skip rest => _ ← put_back rest runs; telsnd_loop fuel
        | Stop rest => put_back rest runs
        | Send c sc rest =>
            f ← local_chars c sc rest;
            match f with
            | Send c _ rest => _ ← snd_octet c; _ ← put_back rest runs; telsnd_loop fuel
            | Skip rest | Stop rest => put_back rest runs
            end
        end
    end.

(** ** What the server sends *)

Definition SUBBUFSIZE : nat := 256.
Definition SB_CLEAR : IO unit := modify (fun s => set_sub (subbuffer s) 0 (subend s) s).
Definition SB_ACCUM (c : Z) : IO unit :=
  modify (fun s => if (subpointer s <? SUBBUFSIZE)%nat
    then set_sub (<[subpointer s := c]> (subbuffer s)) (S (subpointer s)) (subend s) s else s).
Definition SB_TERM : IO unit := modify (fun s => set_sub (subbuffer s) 0 (subpointer s) s).

Definition go (t : ts) : IO unit := modify (set_telrcv_state t).

Definition recv_iac (c : Z) : IO unit :=
  if c =? WILL then go TS_WILL
  else if c =? WONT then go TS_WONT
  else if c =? DO then go TS_DO
  else if c =? DONT then go TS_DONT
  else if c =? SB then _ ← SB_CLEAR; go TS_SB
  else
    _ ← (if c =? DM then
           _ ← modify (set_SYNCHing true);
           _ ← ttyflush_drop;
           u ← stilloob;
           _ ← modify (set_SYNCHing u);
           settimer
         else if c =? IAC then TTYADD IAC
         else mret ());
    go TS_DATA.

Definition dont_echo (s : io) : bool :=
  negb (my_want_state_is_do (Client.options (tn s)) TELOPT_ECHO).
Definition dont_binary (s : io) : bool :=
  negb (my_want_state_is_do (Client.options (tn s)) TELOPT_BINARY).

(** A CR, and a LF behind it when the user has set [crmod]. *)
Definition add_cr : IO unit := _ ← TTYADD 13; mwhen (crmod K) (TTYADD 10).

(** A data octet; what follows in the same run may go with it. *)
Definition recv_data (c : Z) : IO unit :=
  s ← get;
  if (c =? IAC) && (0 <=? Client.telnetport (tn s)) then go TS_IAC
  else if (c =? 13) && dont_binary s then
    match netiring s with
    | (d :: rest) :: runs =>
        if d =? 0 then _ ← modify (set_netiring (rest :: runs)); TTYADD 13
        else if dont_echo s && (d =? 10) then _ ← modify (set_netiring (rest :: runs)); TTYADD 10
        else add_cr
    | _ => _ ← go TS_CR; add_cr
    end
  else TTYADD c.

Definition sb_end (c : Z) : IO unit :=
  _ ← SB_ACCUM IAC;
  _ ← SB_ACCUM c;
  _ ← modify (fun s => set_sub (subbuffer s) (subpointer s - 2) (subend s) s);
  _ ← SB_TERM;
  suboption.

Definition recv_octet (c : Z) : IO unit :=
  s ← get;
  match telrcv_state s with
  | TS_CR =>
      _ ← go TS_DATA;
      if c =? 0 then mret ()
      else if (c =? 10) && dont_echo s && negb (crmod K) then TTYADD c
      else recv_data c
  | TS_DATA => recv_data c
  | TS_IAC => recv_iac c
  | TS_WILL => _ ← neg (Client.willoption c); go TS_DATA
  | TS_WONT => _ ← neg (Client.wontoption c); go TS_DATA
  | TS_DO =>
      _ ← neg (Client.dooption c);
      _ ← (if c =? TELOPT_NAWS then sendnaws
           else if c =? TELOPT_LFLOW then
             _ ← modify (set_localflow true);
             _ ← neg Client.setcommandmode;
             neg (Client.setconnmode false)
           else mret ());
      go TS_DATA
  | TS_DONT =>
      _ ← neg (Client.dontoption c);
      _ ← modify (set_flushline true);
      _ ← neg (Client.setconnmode false);
      go TS_DATA
  | TS_SB => if c =? IAC then go TS_SE else SB_ACCUM c
  | TS_SE =>
      if c =? SE then _ ← sb_end SE; go TS_DATA
      else if c =? IAC then _ ← SB_ACCUM c; go TS_SB
      else _ ← sb_end c; _ ← go TS_IAC; recv_iac c
  end.

Fixpoint telrcv_loop (fuel : nat) : IO unit :=
  s ← get;
  if (TTYROOM s <=? 2)%nat then mret ()
  else
    match netiring s, fuel with
    | [], _ => mret ()
    | _, O => leave NoFuel
    | [] :: runs, S fuel => _ ← modify (set_netiring runs); telrcv_loop fuel
    | (c :: rest) :: runs, S fuel =>
        _ ← modify (set_netiring (rest :: runs));
        _ ← recv_octet c;
        telrcv_loop fuel
    end.

(** Enough turns: each takes an octet or the end of a run; a character put back is taken
    twice. *)
Definition turns (runs : list (list Z)) : nat :=
  (2 * length (concat runs) + length runs)%nat.
Definition telsnd : IO unit := n ← gets (fun s => S (turns (ttyiring s))); telsnd_loop n.
Definition telrcv : IO unit := n ← gets (fun s => turns (netiring s)); telrcv_loop n.

End Client.

End ClientIO.
