(* ===== verification/TelnetSub.v ===== *)
(** * telnet: suboptions of the client
    ([src/remote_cmds/telnet.tproj/telnet.c, commands.c, sys_bsd.c])

    What the client answers to the server's suboptions: the terminal's name and speed, flow
    control, line mode with its special characters, the environment, the display and
    authentication.
    Strings are lists of octets without NUL.  A reply is built as a list; the tests of its
    bound are those of the code.  [getenv], [gethostname] and curses' [setupterm] (the Makefile
    defines TERMCAP) are parameters, and so is libtelnet's authentication: a program that
    calls [net_write] and [telnet_getenv].  [malloc] does not fail.  A terminal's name is a value here, while the program keeps
    pointers into the variable TERM, which dangle when the user defines TERM again. *)

From Stdlib Require Import ZArith Lia List Bool String Ascii.
From stdpp Require Import base tactics list numbers functions strings pretty.
From S2P Require Import Prelude CLib TelnetNeg TelnetOpts Telnetd TelnetdRecv Telnet TelnetIO.

Local Open Scope Z_scope.

Module ClientSub.
Import ClientIO.

Definition octets (s : string) : list Z := map code (list_ascii_of_string s).
Definition same (a b : list Z) : bool := bool_decide (a = b).

Definition islower (c : Z) : bool := (97 <=? c) && (c <=? 122).
Definition toupper (c : Z) : Z := if islower c then c - 32 else c.
Definition upcase (s : list Z) : list Z := map toupper s.

(** ** The environment (commands.c) *)

Definition opt_welldefined (ep : list Z) : bool :=
  existsb (same ep) (map octets ["USER"; "DISPLAY"; "PRINTER"; "SYSTEMTYPE"; "JOB"; "ACCT"]%string).

Fixpoint env_find (v : list Z) (l : list env_lst) : option env_lst :=
  match l with
  | [] => None
  | e :: l => if same (var e) v then Some e else env_find v l
  end.

Definition env_getvalue (v : list Z) (l : list env_lst) : option (list Z) := value <$> env_find v l.

(** Change the entry that [env_find] finds. *)
Fixpoint env_update (f : env_lst -> env_lst) (v : list Z) (l : list env_lst) : list env_lst :=
  match l with
  | [] => []
  | e :: l => if same (var e) v then f e :: l else e :: env_update f v l
  end.

Definition set_export x (e : env_lst) := mkEnv (var e) (value e) x (welldefined e).
Definition set_value x (e : env_lst) := mkEnv (var e) x (export e) (welldefined e).
Definition env_export : list Z -> list env_lst -> list env_lst := env_update (set_export true).
Definition env_unexport : list Z -> list env_lst -> list env_lst := env_update (set_export false).

Fixpoint env_undefine (v : list Z) (l : list env_lst) : list env_lst :=
  match l with
  | [] => []
  | e :: l => if same (var e) v then l else e :: env_undefine v l
  end.

(** What [env_default(1, w)] and then [env_default(0, w)] over and over give. *)
Definition env_default (w : bool) (l : list env_lst) : list (list Z) :=
  map var (filter (fun e => is_true (export e && eqb (welldefined e) w)) l).

Section Environ.
Context (getenv : list Z -> option (list Z)) (gethostname : list Z).

Definition env_define (v : list Z) (val : option (list Z)) (l : list env_lst) : list env_lst :=
  let x := match val with Some x => x | None => default [] (getenv v) end in
  let e := mkEnv v x true (opt_welldefined v) in
  match env_find v l with
  | Some _ => env_update (fun _ => e) v l
  | None => e :: l
  end.

Definition safe_vars : list (list Z) :=
  map octets ["USER"; "PRINTER"; "DISPLAY"; "TERM"; "COLUMNS"; "LINES"]%string.

(** The value from the first colon on. *)
Fixpoint from_colon (s : list Z) : list Z :=
  match s with
  | [] => []
  | c :: s' => if c =? 58 then s else from_colon s'
  end.

Definition env_init : list env_lst :=
  let l := fold_left (fun l v =>
    match getenv v with
    | Some x => env_update (set_export false) v (env_define v (Some x) l)
    | None => l
    end) safe_vars [] in
  let d := octets "DISPLAY" in
  let l := match env_find d l with
    | Some e =>
        if same (take 1 (value e)) (octets ":") || same (take 5 (value e)) (octets "unix:")
        then env_update (set_value (take 256 gethostname ++ from_colon (value e))) d l else l
    | None => l
    end in
  let l := match env_find (octets "USER") l, env_find (octets "LOGNAME") l with
    | None, Some e => env_unexport (octets "USER") (env_define (octets "USER") (Some (value e)) l)
    | _, _ => l
    end in
  env_export (octets "PRINTER") (env_export d l).

End Environ.

(** ** The environment option (telnet.c)

    A reply under construction is what stands in front of [opt_replyp] and how much there
    is room for ([opt_replyend - opt_reply]). *)

Definition OPT_REPLY_SIZE : Z := 2 * Z.of_nat SUBBUFSIZE.
Definition len (l : list Z) : Z := Z.of_nat (length l).

Abbreviation opt_reply := (list Z * Z)%type.

Definition env_opt_start : opt_reply := ([IAC; SB; TELOPT_NEW_ENVIRON; TELQUAL_IS], OPT_REPLY_SIZE).
Definition env_opt_start_info : opt_reply := ([IAC; SB; TELOPT_NEW_ENVIRON; TELQUAL_INFO], OPT_REPLY_SIZE).

Definition env_octet (c : Z) : list Z :=
  if c =? IAC then [IAC; c]
  else if (c =? NEW_ENV_VAR) || (c =? NEW_ENV_VALUE) || (c =? ENV_ESC) || (c =? ENV_USERVAR)
  then [ENV_ESC; c] else [c].

(** The inner loop; false: it has returned from the function. *)
Fixpoint env_put (s : list Z) (r : opt_reply) : opt_reply * bool :=
  match s with
  | [] => (r, true)
  | c :: s =>
      let '(b, end_) := r in
      if end_ <? len b + (2 + 2) then (r, false) else env_put s (b ++ env_octet c, end_)
  end.

(** [env_opt_add] of a variable with a name. *)
Definition env_opt_add1 (l : list env_lst) (ep : list Z) (r : opt_reply) : opt_reply :=
  let vp := env_getvalue ep l in
  let vl := match vp with Some v => len v | None => 0 end in
  let '(b, end_) := r in
  let end_ := if end_ <? len b + 2 * vl + 2 * len ep + 6
              then end_ + OPT_REPLY_SIZE + 2 * len ep + 2 * vl else end_ in
  let b := b ++ [if opt_welldefined ep then NEW_ENV_VAR else ENV_USERVAR] in
  let '((b, end_), ok) := env_put ep (b, end_) in
  match vp with
  | Some v =>
      if negb ok || (end_ <? len b + (1 + 2 + 2)) then (b, end_)
      else (env_put v (b ++ [NEW_ENV_VALUE], end_)).1
  | None => (b, end_)
  end.

(** [env_opt_add]; a null pointer or an empty name asks for all variables.  [None]: it calls
    itself for ever. *)
Fixpoint env_opt_add (fuel : nat) (l : list env_lst) (ep : list Z) (r : opt_reply) : option opt_reply :=
  match ep, fuel with
  | _ :: _, _ => Some (env_opt_add1 l ep r)
  | [], O => None
  | [], S fuel =>
      fold_left (fun r ep => r ← r; env_opt_add fuel l ep r)
        (env_default false l ++ env_default true l) (Some r)
  end.

(** The names that the server asks for; the octet behind the suboption is read when its last
    one is ESC. *)
Fixpoint env_requests (behind : Z) (l : list Z) (ep : option (list Z)) : list (list Z) :=
  let put c := match ep with Some s => Some (s ++ [c]) | None => None end in
  match l with
  | [] => match ep with Some s => [cstring s] | None => [] end
  | c :: l =>
      if (c =? NEW_ENV_VAR) || (c =? ENV_USERVAR) then
        match ep with
        | Some s => cstring s :: env_requests behind l (Some [])
        | None => env_requests behind l (Some [])
        end
      else if c =? ENV_ESC then
        match l with
        | d :: l => env_requests behind l (put d)
        | [] => match put behind with Some s => [cstring s] | None => [] end
        end
      else env_requests behind l (put c)
  end.

Definition env_opt_adds (fuel : nat) (l : list env_lst) (eps : list (list Z)) (r : opt_reply)
  : option opt_reply :=
  fold_left (fun r ep => r ← r; env_opt_add fuel l ep r) eps (Some r).

(** [ring_supply_data(&netoring, m)] when [len] octets of room are more than enough. *)
Definition supply (m : list Z) : IO unit :=
  room ← gets NETROOM;
  mwhen (len m <? Z.of_nat room) (NETADDS m).

Definition env_opt_end (emptyok : bool) (r : opt_reply) : IO unit :=
  let '(b, end_) := r in
  if end_ <? len b + 2 then mret ()
  else mwhen (emptyok || (6 <? len b + 2)) (supply (b ++ [IAC; SE])).

(** [env_opt_add] calls itself once, or there is no end. *)
Definition env_reply (eps : list (list Z)) (emptyok : bool) (r : opt_reply) : IO unit :=
  l ← gets (fun s => envlist (sb s));
  match env_opt_adds 1 l eps r with
  | Some r => env_opt_end emptyok r
  | None => leave NoFuel
  end.

Definition env_opt (behind : Z) (buf : list Z) : IO unit :=
  match buf with
  | q :: l =>
      if q =? TELQUAL_SEND
      then env_reply (match l with [] => [[]] | _ => env_requests behind l None end) true env_opt_start
      else mret ()
  | [] => mret ()
  end.

(** The command "environ send". *)
Definition env_send (v : list Z) : IO unit :=
  on ← get_neg (fun t => my_state_is_will (Client.options t) TELOPT_NEW_ENVIRON);
  l ← gets (fun s => envlist (sb s));
  match env_find v l with
  | Some e => mwhen on (env_reply [var e] false env_opt_start_info)
  | None => mret ()
  end.

(** ** Names of the terminal (telnet.c) *)

Definition eqcase (a b : list Z) : bool := same (upcase a) (upcase b).
Definition is_unique (name : list Z) (names : list (list Z)) : bool := negb (existsb (eqcase name) names).
Definition name_unknown : list Z := octets "UNKNOWN".
Definition isascii (c : Z) : bool := c <? 128.

Fixpoint skip_bars (l : list Z) : list Z :=
  match l with
  | c :: l' => if c =? 124 then skip_bars l' else l
  | [] => []
  end.

(** The names in the entry: what is not '|' or ':' is gathered in [cp2]; [bad]: it has a space
    or an octet that is not ASCII; [first]: it stands at the start of the buffer.  [own] is the
    name of the environment when the entry has it, [args] are the others with whether they
    were first.  [None]: the end of the buffer is passed. *)
Fixpoint mklist_scan (fuel : nat) (name : option (list Z)) (buf cp2 : list Z) (bad first : bool)
  (own : option (list Z)) (args : list (list Z * bool)) : option (option (list Z) * list (list Z * bool)) :=
  let mark c := bad || (c =? 32) || negb (isascii c) in
  let up c := if (c =? 32) || negb (isascii c) then c else toupper c in
  match fuel, buf with
  | O, _ | _, [] => None
  | S fuel, c :: buf =>
      if c =? 0 then Some (own, args)
      else if (c =? 124) || (c =? 58) then
        let s := cstring cp2 in
        let '(own, args) :=
          if bad || (40 <? len cp2) then (own, args)
          else if match name with Some n => eqcase n s | None => false end then (Some s, args)
          else if is_unique s (map fst args) then (own, args ++ [(s, first)])
          else (own, args) in
        if c =? 58 then Some (own, args)
        else
          match skip_bars buf with
          | [] => None
          | d :: buf =>
              mklist_scan fuel name buf [if (d =? 32) || negb (isascii d) then d else toupper d]
                ((d =? 32) || negb (isascii d)) false own args
          end
      else mklist_scan fuel name buf (cp2 ++ [up c]) (mark c) first own args
  end.

(** A first name of two characters goes to the end. *)
Definition mklist_v6 (args : list (list Z * bool)) : list (list Z) :=
  match args with
  | (s, true) :: rest => if (len s =? 2) then map fst rest ++ [s] else map fst args
  | _ => map fst args
  end.

(** The array up to its null pointer; [unknown] when that is first. *)
Definition mklist_array (name own : option (list Z)) (args : list (list Z)) : list (list Z) :=
  match own, last args with
  | Some s, Some z => s :: args ++ [z]
  | Some s, None => [s; s]
  | None, Some z => match name with Some n => n :: args ++ [z] | None => args ++ [z; z] end
  | None, None => match name with Some n => [n] | None => [name_unknown] end
  end.

Definition mklist (buf : list Z) (name : list Z) : option (list (list Z)) :=
  let name := if 40 <? len name then None else Some (upcase name) in
  '(own, args) ← mklist_scan (S (length buf)) name buf [] false true None [];
  Some (mklist_array name own (mklist_v6 args)).

Section Names.
(** The names of a terminal that [setupterm] finds, in [ttytype] up to its NUL and beyond. *)
Context (setupterm : list Z -> option (list Z)).

Definition get_sb {A} (f : subs -> A) : IO A := gets (fun s => f (sb s)).
Definition upd_sb (f : subs -> subs) : IO unit := modify (fun s => set_sb (f (sb s)) s).

Definition TERM : list Z := octets "TERM".

(** The names when they are asked for first; TERM itself is put into upper case. *)
Definition terminal_names : IO (list (list Z)) :=
  l ← get_sb envlist;
  match env_getvalue TERM l with
  | None => mret [name_unknown]
  | Some tname =>
      _ ← mwhen (negb (40 <? len tname)) (upd_sb (set_envlist (env_update (set_value (upcase tname)) TERM l)));
      match setupterm tname with
      | Some ttytype =>
          match mklist ttytype tname with
          | Some n => mret n
          | None => leave Crash
          end
      | None => mret [if 40 <? len tname then name_unknown else upcase tname]
      end
  end.

Definition gettermname : IO (list Z) :=
  r ← get_sb resettermname;
  _ ← mwhen r (n ← terminal_names; upd_sb (set_names n 0));
  n ← get_sb names;
  i ← get_sb next;
  let i := if (i <? length n)%nat then i else 0%nat in
  _ ← upd_sb (set_names n (S i));
  match n !! i with Some s => mret s | None => leave Crash end.

End Names.

(** ** Line mode (telnet.c) *)

(** [if (NETROOM() > sizeof(m))]: send it. *)
Definition lm_answer (verb : Z) (cmd : list Z) : IO unit :=
  match cmd with
  | c :: _ => supply [IAC; SB; TELOPT_LINEMODE; verb; c; IAC; SE]
  | [] => mret ()
  end.
Definition lm_will : list Z -> IO unit := lm_answer DONT.
Definition lm_wont (cmd : list Z) : IO unit := mret ().
Definition lm_do : list Z -> IO unit := lm_answer WONT.
Definition lm_dont (cmd : list Z) : IO unit := mret ().

Definition linemode (s : io) : Z := Client.linemode (tn s).

Definition lm_mode (cmd : list Z) (init : bool) : IO unit :=
  match cmd with
  | [c] =>
      m ← gets linemode;
      if Z.land (Z.land m MODE_MASK) (Z.lnot MODE_ACK) =? c then mret ()
      else if negb (Z.land c MODE_ACK =? 0) then mret ()
      else
        let m := Z.land c (Z.land MODE_MASK (Z.lnot MODE_ACK)) in
        _ ← neg (modify (Client.set_linemode m));
        _ ← supply [IAC; SB; TELOPT_LINEMODE; LM_MODE; (if init then m else Z.lor m MODE_ACK); IAC; SE];
        neg (Client.setconnmode false)
  | _ => mret ()
  end.

(** ** Special characters (telnet.c, sys_bsd.c) *)

Section Slc.
Context `{Termios_h}.

Definition tcval (func : Z) : option nat :=
  if func =? SLC_IP then Some VINTR
  else if func =? SLC_ABORT then Some VQUIT
  else if func =? SLC_EOF then Some VEOF
  else if func =? SLC_EC then Some VERASE
  else if func =? SLC_EL then Some VKILL
  else if func =? SLC_XON then Some VSTART
  else if func =? SLC_XOFF then Some VSTOP
  else if func =? SLC_FORW1 then Some VEOL
  else if func =? SLC_FORW2 then Some VEOL
  else if func =? SLC_AO then Some VDISCARD
  else if func =? SLC_SUSP then Some VSUSP
  else if func =? SLC_EW then Some VWERASE
  else if func =? SLC_RP then Some VREPRINT
  else if func =? SLC_LNEXT then Some VLNEXT
  else if func =? SLC_AYT then Some VSTATUS
  else None.

Definition TerminalDefaultChars : IO unit := upd_sb (fun b => set_new_cc (old_cc b) b).

(** *** The reply: [slc_reply] of 128 octets up to [slc_replyp] *)

Definition SLC_REPLY_SIZE : Z := 128.
Definition slc_start_reply : list Z := [IAC; SB; TELOPT_LINEMODE; LM_SLC].

Definition slc_octet (c : Z) : list Z := if c =? IAC then [c; IAC] else [c].
Definition slc_add_reply (func flags value : Z) (r : list Z) : list Z :=
  if SLC_REPLY_SIZE <? len r + (6 + 2) then r
  else r ++ slc_octet func ++ slc_octet flags ++ slc_octet value.

Definition slc_end_reply (r : list Z) : IO unit :=
  if SLC_REPLY_SIZE <? len r + 2 then mret ()
  else mwhen (6 <? len r + 2) (supply (r ++ [IAC; SE])).

(** *** The table *)

Definition level (f : Z) : Z := Z.land f SLC_LEVELBITS.

Fixpoint slc_update_loop (d : list spc) (cc : list Z) : list spc * list Z * bool :=
  match d with
  | [] => ([], cc, false)
  | p :: d =>
      if Z.land (flags p) SLC_ACK =? 0 then
        let '(d, cc, u) := slc_update_loop d cc in (p :: d, cc, u)
      else
        let p := mkSpc (val p) (valp p) (Z.land (flags p) (Z.lnot SLC_ACK)) (mylevel p) in
        let changes := match valp p with Some i => negb (cc_at cc i =? val p) | None => false end in
        let cc := match valp p with
                  | Some i => if changes then <[i := val p]> cc else cc | None => cc end in
        let '(d, cc, u) := slc_update_loop d cc in (p :: d, cc, changes || u)
  end.

(** The loops leave out entry 0. *)
Definition slc_update : IO bool :=
  b ← get_sb id;
  match spc_data b with
  | p0 :: d =>
      let '(d, cc, u) := slc_update_loop d (new_cc b) in
      _ ← upd_sb (set_spc_data (p0 :: d));
      _ ← upd_sb (set_new_cc cc);
      mret u
  | [] => mret false
  end.

Fixpoint slc_export_loop (cc : list Z) (func : Z) (d : list spc) (r : list Z) : list spc * list Z :=
  match d with
  | [] => ([], r)
  | p :: d =>
      let '(p, r) :=
        if mylevel p =? SLC_NOSUPPORT then (p, r)
        else
          let f := if val p =? POSIX_VDISABLE then SLC_NOSUPPORT else mylevel p in
          let v := match valp p with Some i => cc_at cc i | None => val p end in
          (mkSpc v (valp p) f (mylevel p), slc_add_reply func f v r) in
      let '(d, r) := slc_export_loop cc (func + 1) d r in (p :: d, r)
  end.

Definition slc_export : IO unit :=
  _ ← TerminalDefaultChars;
  b ← get_sb id;
  _ ← match spc_data b with
      | p0 :: d =>
          let '(d, r) := slc_export_loop (new_cc b) 1 d slc_start_reply in
          _ ← upd_sb (set_spc_data (p0 :: d));
          slc_end_reply r
      | [] => mret ()
      end;
  _ ← slc_update;
  neg (Client.setconnmode true).

Definition slc_import (def : bool) : IO unit :=
  supply [IAC; SB; TELOPT_LINEMODE; LM_SLC; 0; (if def then SLC_DEFAULT else SLC_VARIABLE); 0; IAC; SE].

Definition line_will : IO bool := get_neg (fun t => my_state_is_will (Client.options t) TELOPT_LINEMODE).

Definition slc_mode_export : IO unit :=
  _ ← upd_sb (set_slc_mode SLC_EXPORT);
  on ← line_will;
  mwhen on slc_export.

Definition slc_mode_import (def : bool) : IO unit :=
  _ ← upd_sb (set_slc_mode (if def then SLC_IMPORT else SLC_RVALUE));
  on ← line_will;
  mwhen on (slc_import def).

Definition initfunc (cc : list Z) (d : list spc) (ff : Z * Z) : list spc :=
  let '(func, fl) := ff in
  alter (fun p => match tcval func with
    | Some i => mkSpc (cc_at cc i) (Some i) (flags p) (Z.lor SLC_VARIABLE fl)
    | None => mkSpc 0 None (flags p) SLC_DEFAULT
    end) (Z.to_nat func) d.

Definition slc_init : IO unit :=
  cc ← get_sb new_cc;
  let both := Z.lor SLC_FLUSHIN SLC_FLUSHOUT in
  _ ← upd_sb (set_spc_data (fold_left (initfunc cc)
        [(SLC_SYNCH, 0); (SLC_AO, 0); (SLC_AYT, 0); (SLC_ABORT, both); (SLC_EOF, 0);
         (SLC_SUSP, SLC_FLUSHIN); (SLC_EC, 0); (SLC_EL, 0); (SLC_EW, 0); (SLC_RP, 0);
         (SLC_LNEXT, 0); (SLC_XON, 0); (SLC_XOFF, 0); (SLC_FORW1, 0); (SLC_FORW2, 0); (SLC_IP, both)]
        (replicate (S NSLC) (mkSpc 0 None SLC_NOSUPPORT SLC_NOSUPPORT))));
  m ← get_sb slc_mode;
  match m with SLC_EXPORT => slc_export | _ => slc_import true end.

(** A triplet of the server about a function that the client has. *)
Definition slc_entry (func fl v : Z) (p : spc) : spc * bool :=
  let lev := Z.land fl (Z.lor SLC_LEVELBITS SLC_ACK) in
  if (v =? val p) && (level lev =? level (flags p)) then (p, false)
  else
    let fl := if lev =? Z.lor SLC_DEFAULT SLC_ACK then Z.land fl (Z.lnot SLC_ACK) else fl in
    if lev =? Z.lor (level (flags p)) SLC_ACK then (mkSpc v (valp p) fl (mylevel p), false)
    else
      let lev := Z.land lev (Z.lnot SLC_ACK) in
      let p := if lev <=? level (mylevel p)
               then mkSpc v (valp p) (Z.lor fl SLC_ACK) (mylevel p) else p in
      let p := if lev =? SLC_DEFAULT
               then mkSpc (val p) (valp p)
                      (if negb (level (mylevel p) =? SLC_DEFAULT) then mylevel p else SLC_NOSUPPORT)
                      (mylevel p)
               else p in
      (p, true).

Fixpoint slc_loop (l : list Z) (d : list spc) (r : list Z) : list spc * list Z :=
  match l with
  | func :: fl :: v :: l =>
      if func =? 0 then slc_loop l d r
      else if Z.of_nat NSLC <? func then
        slc_loop l d (if negb (level fl =? SLC_NOSUPPORT) then slc_add_reply func SLC_NOSUPPORT 0 r else r)
      else
        match d !! Z.to_nat func with
        | Some p =>
            let '(p, answer) := slc_entry func fl v p in
            slc_loop l (<[Z.to_nat func := p]> d)
              (if (answer : bool) then slc_add_reply func (flags p) (val p) r else r)
        | None => slc_loop l d r
        end
  | _ => (d, r)
  end.

Definition slc (cp : list Z) : IO unit :=
  d ← get_sb spc_data;
  let '(d, r) := slc_loop cp d slc_start_reply in
  _ ← upd_sb (set_spc_data d);
  _ ← slc_end_reply r;
  u ← slc_update;
  mwhen u (neg (Client.setconnmode true)).

Fixpoint slc_check_loop (cc : list Z) (func : Z) (d : list spc) (r : list Z) : list spc * list Z :=
  match d with
  | [] => ([], r)
  | p :: d =>
      let '(p, r) :=
        match valp p with
        | Some i =>
            if cc_at cc i =? val p then (p, r)
            else
              let v := cc_at cc i in
              let f := if v =? POSIX_VDISABLE then SLC_NOSUPPORT else mylevel p in
              (mkSpc v (valp p) f (mylevel p), slc_add_reply func f v r)
        | None => (p, r)
        end in
      let '(d, r) := slc_check_loop cc (func + 1) d r in (p :: d, r)
  end.

Definition slc_check : IO unit :=
  b ← get_sb id;
  _ ← match spc_data b with
      | p0 :: d =>
          let '(d, r) := slc_check_loop (new_cc b) 1 d slc_start_reply in
          _ ← upd_sb (set_spc_data (p0 :: d));
          slc_end_reply r
      | [] => mret ()
      end;
  neg (Client.setconnmode true).

(** ** Suboptions *)

Definition SB_GET : IO Z :=
  s ← get;
  _ ← modify (set_sub (subbuffer s) (S (subpointer s)) (subend s));
  match subbuffer s !! subpointer s with
  | Some c => mret c
  | None => leave Crash
  end.
Definition SB_EOF : IO bool := gets (fun s => (subend s <=? subpointer s)%nat).

(** An octet, or [None] at the end. *)
Definition sb_next : IO (option Z) :=
  e ← SB_EOF;
  if (e : bool) then mret None else c ← SB_GET; mret (Some c).

(** What is left: [SB_LEN()] octets from [subpointer] on. *)
Definition sb_rest (s : io) : list Z := take (subend s - subpointer s) (drop (subpointer s) (subbuffer s)).

Definition want_will (o : Z) : IO bool := get_neg (fun t => my_want_state_is_will (Client.options t) o).
Definition want_do (o : Z) : IO bool := get_neg (fun t => my_want_state_is_do (Client.options t) o).

Definition TEMP_SIZE : Z := 50.

(** [sprintf] into [temp]. *)
Definition temp_reply (option : Z) (s : list Z) : IO (list Z) :=
  let m := [IAC; SB; option; TELQUAL_IS] ++ s ++ [IAC; SE] in
  if TEMP_SIZE <? len m + 1 then leave Crash else mret m.

Definition suboption_ttype (setupterm : list Z -> option (list Z)) : IO unit :=
  q ← sb_next;
  mwhen (bool_decide (q = Some TELQUAL_SEND))
    (name ← gettermname setupterm;
     room ← gets NETROOM;
     if len name + 4 + 2 <? Z.of_nat room
     then m ← temp_reply TELOPT_TTYPE name; NETADDS m
     else leave (Exit 1)).

Definition TerminalSpeeds (b : subs) : Z * Z :=
  let out := old_ospeed b in
  let in_ := if old_ispeed b =? 0 then out else old_ispeed b in (in_, out).

Definition suboption_tspeed : IO unit :=
  q ← sb_next;
  mwhen (bool_decide (q = Some TELQUAL_SEND))
    ('(ispeed, ospeed) ← get_sb TerminalSpeeds;
     m ← temp_reply TELOPT_TSPEED (octets (pretty ospeed) ++ [44] ++ octets (pretty ispeed));
     supply m).

Definition suboption_lflow : IO unit :=
  q ← sb_next;
  match q with
  | None => mret ()
  | Some c =>
      if (c <? 0) || (3 <? c) then mret ()
      else
        _ ← (if c =? LFLOW_RESTART_ANY then upd_sb (set_restartany true)
             else if c =? LFLOW_RESTART_XON then upd_sb (set_restartany false)
             else if c =? LFLOW_ON then modify (set_localflow true)
             else modify (set_localflow false));
        _ ← neg Client.setcommandmode;
        neg (Client.setconnmode false)
  end.

Definition suboption_linemode : IO unit :=
  q ← sb_next;
  match q with
  | None => mret ()
  | Some c =>
      l ← gets sb_rest;
      if c =? WILL then lm_will l
      else if c =? WONT then lm_wont l
      else if c =? DO then lm_do l
      else if c =? DONT then lm_dont l
      else if c =? LM_SLC then slc l
      else if c =? LM_MODE then lm_mode l false
      else mret ()
  end.

Definition suboption_environ : IO unit :=
  s ← get;
  match sb_rest s with
  | [] => mret ()
  | q :: _ =>
      will ← want_will TELOPT_NEW_ENVIRON;
      do_ ← want_do TELOPT_NEW_ENVIRON;
      mwhen (if (q =? TELQUAL_IS) || (q =? TELQUAL_INFO) then do_
             else if q =? TELQUAL_SEND then will else false)
        (env_opt (default 0 (subbuffer s !! subend s)) (sb_rest s))
  end.

Definition suboption_xdisploc : IO unit :=
  q ← sb_next;
  mwhen (bool_decide (q = Some TELQUAL_SEND))
    (l ← get_sb envlist;
     match env_getvalue (octets "DISPLAY") l with
     | Some dp =>
         if TEMP_SIZE - 7 <? len dp then neg (Client.send_wont TELOPT_XDISPLOC true)
         else m ← temp_reply TELOPT_XDISPLOC dp; supply m
     | None => neg (Client.send_wont TELOPT_XDISPLOC true)
     end).

(** *** Authentication (authenc.c) *)

(** What a function of libtelnet does until it returns: the calls it makes back, each with what
    it goes on with.  ([telnet_gets], by which it asks the user, changes nothing here: the answer is
    part of what the function does.) *)
Inductive libprog :=
| Lib_return
| Net_write (m : list Z) (k : Z -> libprog)
| Telnet_getenv (v : list Z) (k : option (list Z) -> libprog).

Definition net_write (m : list Z) : IO Z :=
  room ← gets NETROOM;
  if len m <? Z.of_nat room then _ ← NETADDS m; mret (len m) else mret 0.

Definition telnet_getenv (v : list Z) : IO (option (list Z)) :=
  l ← get_sb envlist;
  mret (env_getvalue v l).

Fixpoint lib_run (p : libprog) : IO unit :=
  match p with
  | Lib_return => mret ()
  | Net_write m k => n ← net_write m; lib_run (k n)
  | Telnet_getenv v k => x ← telnet_getenv v; lib_run (k x)
  end.

(** [auth_is], [auth_send], [auth_reply] and [auth_name], told apart by [q]; what they do may
    depend on every call before. *)
Definition suboption_authentication (libtelnet : list Client.call -> Z -> list Z -> libprog) : IO unit :=
  a ← get_neg Client.autologin;
  mwhen a
    (q ← sb_next;
     match q with
     | None => mret ()
     | Some q =>
         will ← want_will TELOPT_AUTHENTICATION;
         do_ ← want_do TELOPT_AUTHENTICATION;
         mwhen (if (q =? TELQUAL_IS) || (q =? TELQUAL_NAME) then do_
                else if (q =? TELQUAL_SEND) || (q =? TELQUAL_REPLY) then will else false)
           (l ← gets sb_rest;
            before ← get_neg Client.calls;
            _ ← neg (Client.log_call (Client.Auth q l));
            lib_run (libtelnet before q l))
     end).

Definition suboption (setupterm : list Z -> option (list Z))
    (libtelnet : list Client.call -> Z -> list Z -> libprog) : IO unit :=
  subchar ← SB_GET;
  on ← want_will subchar;
  if subchar =? TELOPT_TTYPE then mwhen on (suboption_ttype setupterm)
  else if subchar =? TELOPT_TSPEED then mwhen on suboption_tspeed
  else if subchar =? TELOPT_LFLOW then mwhen on suboption_lflow
  else if subchar =? TELOPT_LINEMODE then mwhen on suboption_linemode
  else if subchar =? TELOPT_NEW_ENVIRON then suboption_environ
  else if subchar =? TELOPT_XDISPLOC then mwhen on suboption_xdisploc
  else if subchar =? TELOPT_AUTHENTICATION then suboption_authentication libtelnet
  else mret ().

End Slc.

End ClientSub.
