(* ===== verification/TelnetRing.v ===== *)
(** * telnet: ring buffers
    ([src/remote_cmds/telnet.tproj/ring.c, network.c, terminal.c])

    A ring's pointers are offsets from the start of its buffer [mem], so that [bottom] is 0
    and [top] is [size]; a null [mark] is [None].  [ring_clock], which all rings share, is an
    argument and a result of what advances it; its 64 bits are taken not to run out.
    [netflush] and [ttyflush] are given what the system calls return. *)

From Stdlib Require Import ZArith Lia List Bool.
From stdpp Require Import base tactics list numbers.
From S2P Require Import Prelude.

Local Open Scope Z_scope.

Module Ring.

Record ring := mkRing {
  mem : list Z; consume : Z; supply : Z; mark : option Z; size : Z;
  consumetime : Z; supplytime : Z }.

Definition set_mem v d :=
  mkRing v (consume d) (supply d) (mark d) (size d) (consumetime d) (supplytime d).
Definition set_consume v d :=
  mkRing (mem d) v (supply d) (mark d) (size d) (consumetime d) (supplytime d).
Definition set_supply v d :=
  mkRing (mem d) (consume d) v (mark d) (size d) (consumetime d) (supplytime d).
Definition set_mark v d :=
  mkRing (mem d) (consume d) (supply d) v (size d) (consumetime d) (supplytime d).
Definition set_consumetime v d :=
  mkRing (mem d) (consume d) (supply d) (mark d) (size d) v (supplytime d).
Definition set_supplytime v d :=
  mkRing (mem d) (consume d) (supply d) (mark d) (size d) (consumetime d) v.

Definition ring_subtract (d : ring) (a b : Z) : Z :=
  if 0 <=? a - b then a - b else a - b + size d.
Definition ring_increment (d : ring) (a c : Z) : Z :=
  if a + c <? size d then a + c else a + c - size d.
Definition ring_decrement (d : ring) (a c : Z) : Z :=
  if 0 <=? a - c then a - c else a - c + size d.

Definition ring_empty (d : ring) : bool :=
  (consume d =? supply d) && (supplytime d <=? consumetime d).
Definition ring_full (d : ring) : bool :=
  (supply d =? consume d) && (consumetime d <? supplytime d).

Definition ring_init (buffer : list Z) : ring :=
  mkRing buffer 0 0 None (Z.of_nat (length buffer)) 0 0.

(** ** Changes *)

Definition ring_mark (d : ring) : ring := set_mark (Some (ring_decrement d (supply d) 1)) d.
Definition ring_at_mark (d : ring) : bool :=
  match mark d with Some m => m =? consume d | None => false end.
Definition ring_clear_mark (d : ring) : ring := set_mark None d.

Definition ring_supplied (clock : Z) (d : ring) (count : Z) : Z * ring :=
  let clock := clock + 1 in
  (clock, set_supplytime clock (set_supply (ring_increment d (supply d) count) d)).

Definition ring_consumed (clock : Z) (d : ring) (count : Z) : Z * ring :=
  if count =? 0 then (clock, d)
  else
    let d := match mark d with
             | Some m => if ring_subtract d m (consume d) <? count then set_mark None d else d
             | None => d
             end in
    let clock := clock + 1 in
    let d := set_consumetime clock (set_consume (ring_increment d (consume d) count) d) in
    (clock, if ring_empty d then set_consume 0 (set_supply 0 d) else d).

(** ** Questions *)

Definition ring_empty_count (d : ring) : Z :=
  if ring_empty d then size d else ring_subtract d (consume d) (supply d).

Definition ring_empty_consecutive (d : ring) : Z :=
  if (consume d <? supply d) || ring_empty d then ring_subtract d (size d) (supply d)
  else ring_subtract d (consume d) (supply d).

(** No mark, or one that has been reached. *)
Definition no_mark (d : ring) : bool :=
  match mark d with Some m => m =? consume d | None => true end.

Definition ring_full_count (d : ring) : Z :=
  if no_mark d then
    if ring_full d then size d else ring_subtract d (supply d) (consume d)
  else ring_subtract d (default 0 (mark d)) (consume d).

Definition ring_full_consecutive (d : ring) : Z :=
  if no_mark d then
    if (supply d <? consume d) || ring_full d then ring_subtract d (size d) (consume d)
    else ring_subtract d (supply d) (consume d)
  else if default 0 (mark d) <? consume d then ring_subtract d (size d) (consume d)
  else ring_subtract d (default 0 (mark d)) (consume d).

(** ** Data *)

(** [memcpy] into the buffer at offset [at_]. *)
Definition write (at_ : Z) (l : list Z) (m : list Z) : list Z :=
  take (Z.to_nat at_) m ++ l ++ drop (Z.to_nat at_ + length l) m.

(** [ring_supply_data]; [None]: the loop does not end. *)
Fixpoint ring_supply_data (fuel : nat) (clock : Z) (d : ring) (buffer : list Z) : option (Z * ring) :=
  match buffer, fuel with
  | [], _ => Some (clock, d)
  | _, O => None
  | _, S fuel =>
      let i := Z.min (Z.of_nat (length buffer)) (ring_empty_consecutive d) in
      let d := set_mem (write (supply d) (take (Z.to_nat i) buffer) (mem d)) d in
      let '(clock, d) := ring_supplied clock d i in
      ring_supply_data fuel clock d (drop (Z.to_nat i) buffer)
  end.

(** What stands from [consume] on without a gap. *)
Definition peek (d : ring) (n : Z) : list Z := take (Z.to_nat n) (drop (Z.to_nat (consume d)) (mem d)).

(** [netflush]: what is sent, each time with whether it is urgent; [sends] is how much each
    [send] takes, none when the system has no room. *)
Fixpoint netflush (sends : list Z) (clock : Z) (d : ring) : Z * ring * list (list Z * bool) :=
  let n1 := ring_full_consecutive d in
  match sends with
  | r :: sends =>
      if 0 <? n1 then
        let urgent := ring_at_mark d in
        let n := Z.min r (if urgent then 1 else n1) in
        if n =? 0 then (clock, d, [])
        else
          let sent := (peek d n, urgent) in
          let '(clock, d) := ring_consumed clock d n in
          if (n1 =? n) && (0 <? ring_full_consecutive d)
          then let '(clock, d, more) := netflush sends clock d in (clock, d, sent :: more)
          else (clock, d, [sent])
      else (clock, d, [])
  | [] => (clock, d, [])
  end.

(** [ttyflush(0)]: what the two writes take, the result, and what is written. *)
Definition ttyflush (w1 w2 : Z) (clock : Z) (d : ring) : Z * Z * ring * list Z :=
  let n0 := ring_full_count d in
  let n1 := ring_full_consecutive d in
  let n := if 0 <? n1 then Z.min w1 n1 else n1 in
  let n' := if (0 <? n) && (n1 =? n) && (n <? n0) then Z.max 0 (Z.min w2 (n0 - n)) else 0 in
  let written := peek d n ++ take (Z.to_nat n') (mem d) in
  let '(clock, d) := if 0 <? n then ring_consumed clock d (n + n') else (clock, d) in
  let n := n + n' in
  let result := if n <? 0 then -1 else if n =? n0 then if n0 =? 0 then 0 else -1 else n0 - n + 1 in
  (result, clock, d, written).

End Ring.
