(* ===== verification/TelnetFocus.v ===== *)
(** * telnet and telnetd: one option seen in the state of a program

    [side_of] reads the machine of one option and one direction from the option words and the
    counters; [negs_of] reads its messages from what a program has sent.  A computation
    [Keeps] an option when all it does to it is to start requests; it [Takes] a message when it
    does what [receive] does. *)

From Stdlib Require Import ZArith Lia List Bool.
From stdpp Require Import base tactics list numbers functions.
From S2P Require Import Prelude TelnetNeg TelnetOpts.

Local Open Scope Z_scope.

(** The side of "will" and "wont" when [mine], of "do" and "dont" when not. *)
Definition side_of (mine : bool) (o : Z) (opts dd ww : Z -> Z) : side :=
  if mine then mkSide (my_state_is_will opts o) (my_want_state_is_will opts o) (ww o)
  else mkSide (my_state_is_do opts o) (my_want_state_is_do opts o) (dd o).

Definition on_cmd (mine : bool) : Z := if mine then WILL else DO.
Definition off_cmd (mine : bool) : Z := if mine then WONT else DONT.
Definition cmd_of (mine n : bool) : Z := if n then on_cmd mine else off_cmd mine.

(** A negotiation message: its command and option. *)
Definition neg_msg (m : list Z) : option (Z * Z) :=
  match m with
  | [i; c; o] =>
      if (i =? IAC) && bool_decide (c ∈ [WILL; WONT; DO; DONT]) then Some (c, o) else None
  | _ => None
  end.

Definition neg_on (mine : bool) (o : Z) (m : Z * Z) : option bool :=
  if m.2 =? o then
    if m.1 =? on_cmd mine then Some true
    else if m.1 =? off_cmd mine then Some false else None
  else None.

Definition negs_of (mine : bool) (o : Z) (msgs : list (Z * Z)) : list bool :=
  omap (neg_on mine o) msgs.

Lemma negs_of_app mine o l1 l2 : negs_of mine o (l1 ++ l2) = negs_of mine o l1 ++ negs_of mine o l2.
Proof. apply omap_app. Qed.

Create HintDb keeps.

(** What is read from the state of a program; [v_cfg] never changes. *)
Record view := mkView {
  v_opts : Z -> Z; v_dd : Z -> Z; v_ww : Z -> Z; v_log : list (list Z); v_cfg : Z * bool }.

Definition v_msgs (v : view) : list (Z * Z) := omap neg_msg (v_log v).

(** Option [o] and direction [mine] are not those of [o'] and [d]. *)
Definition elsewhere (mine : bool) (o : Z) (d : bool) (o' : Z) : Prop := mine <> d \/ o <> o'.

(** Some requests started in a row, each one that [G] allows. *)
Inductive moves (G : bool -> Prop) : side -> list bool -> side -> Prop :=
  | moves_nil x : moves G x [] x
  | moves_cons n x x1 x2 o os :
      G n -> initiate n x = (x1, o) -> moves G x1 os x2 -> moves G x (o ++ os) x2.

Lemma moves_trans G x1 o1 x2 o2 x3 :
  moves G x1 o1 x2 -> moves G x2 o2 x3 -> moves G x1 (o1 ++ o2) x3.
Proof.
  induction 1 as [|n x y z o os Hn Hi Hm IH]; [done|]. intros H3. rewrite <- app_assoc.
  eapply moves_cons; [done|done|auto].
Qed.

Section Focus.
Context {S : Type} (view_of : S -> view) (mine : bool) (o : Z) (G : bool -> Prop)
  (P : Z * bool -> Prop).

Definition vside (s : S) : side :=
  side_of mine o (v_opts (view_of s)) (v_dd (view_of s)) (v_ww (view_of s)).
Definition vnegs (s : S) : list bool := negs_of mine o (v_msgs (view_of s)).
Definition vcfg (s : S) : Z * bool := v_cfg (view_of s).

(** [s'] comes from [s] by starting requests. *)
Definition started (s s' : S) : Prop :=
  vcfg s' = vcfg s /\
  exists os, moves G (vside s) os (vside s') /\ vnegs s' = vnegs s ++ os.

(** From the configurations in [P]. *)
Definition Keeps {A} (m : M halt S A) : Prop := forall s, P (vcfg s) -> started s (m s).2.

(** Nothing of the option has changed. *)
Definition same (s s' : S) : Prop :=
  vcfg s' = vcfg s /\ vside s' = vside s /\ vnegs s' = vnegs s.

Lemma started_same s s' : same s s' -> started s s'.
Proof.
  intros (Hc & Hs & Hn). split; [done|]. exists []. rewrite Hs, Hn, app_nil_r.
  split; [constructor|done].
Qed.

Lemma started_trans s1 s2 s3 : started s1 s2 -> started s2 s3 -> started s1 s3.
Proof.
  intros [C1 (o1 & M1 & N1)] [C2 (o2 & M2 & N2)]. split; [by rewrite C2|].
  exists (o1 ++ o2). split; [by eapply moves_trans|]. by rewrite N2, N1, app_assoc.
Qed.

Lemma started_refl s : started s s.
Proof. by apply started_same. Qed.

Lemma run_keeps_ret {A} (a : A) : Keeps (mret a).
Proof. intros s _. apply started_refl. Qed.

Lemma run_keeps_gets {A} (f : S -> A) : Keeps (gets f).
Proof. intros s _. apply started_refl. Qed.

Lemma run_keeps_get : Keeps get.
Proof. intros s _. apply started_refl. Qed.

Lemma keeps_leave {A} e : Keeps (leave e : M halt S A).
Proof. intros s _. apply started_refl. Qed.

Lemma run_keeps_bind {A B} (m : M halt S A) (k : A -> M halt S B) :
  Keeps m -> (forall a, Keeps (k a)) -> Keeps (m ≫= k).
Proof.
  intros Hm Hk s HP. specialize (Hm s HP). cbv [mbind M_bind].
  destruct (m s) as [[a|e] s1]; [|done]. simpl in Hm. eapply started_trans; [done|].
  apply Hk. destruct Hm as [-> _]. done.
Qed.

Lemma keeps_get_bind {B} (k : S -> M halt S B) :
  (forall s, P (vcfg s) -> Keeps (k s)) -> Keeps (get ≫= k).
Proof. intros Hk s HP. by apply (Hk s). Qed.

Lemma run_keeps_when (b : bool) (m : M halt S unit) : Keeps m -> Keeps (mwhen b m).
Proof. intros H. destruct b; [done|apply run_keeps_ret]. Qed.

Lemma run_keeps_modify (f : S -> S) : (forall s, same s (f s)) -> Keeps (modify f).
Proof. intros H s _. apply started_same, H. Qed.

(** With no request allowed, nothing changes. *)
Lemma started_none s s' : (forall n, ~ G n) -> started s s' -> same s s'.
Proof.
  intros HG [Hc (os & Hm & Hn)]. inversion Hm as [x E1 E2 E3|n x x1 x2 l1 l2 Hg]; subst.
  - split; [done|]. split; [congruence|]. by rewrite Hn, app_nil_r.
  - by destruct (HG n).
Qed.

(** [m] ends well, with the side [x], and has sent the messages [os]. *)
Definition Gives {A} (m : M halt S A) (a : A) (s : S) (x : side) (os : list bool) : Prop :=
  exists s', m s = (Ok a, s') /\ vcfg s' = vcfg s /\ vside s' = x /\ vnegs s' = vnegs s ++ os.

Lemma gives_bind {A B} (m : M halt S A) (k : A -> M halt S B) a b s x os x' os' :
  Gives m a s x os ->
  (forall s', vside s' = x -> vcfg s' = vcfg s -> Gives (k a) b s' x' os') ->
  Gives (m ≫= k) b s x' (os ++ os').
Proof.
  intros (s1 & E1 & C1 & X1 & N1) Hk. destruct (Hk s1 X1 C1) as (s2 & E2 & C2 & X2 & N2).
  exists s2. rewrite (run_bind_ok _ _ _ _ _ E1). split; [done|]. split; [by rewrite C2|].
  split; [done|]. by rewrite N2, N1, app_assoc.
Qed.

(** A first step that sends nothing, and one that sends all. *)
Lemma gives_then {A B} (m : M halt S A) (k : A -> M halt S B) a b s x x' os :
  Gives m a s x [] -> (forall s', vside s' = x -> vcfg s' = vcfg s -> Gives (k a) b s' x' os) ->
  Gives (m ≫= k) b s x' os.
Proof. intros Hm Hk. exact (gives_bind m k a b s x [] x' os Hm Hk). Qed.

Lemma gives_last {A B} (m : M halt S A) (k : A -> M halt S B) a b s x x' os :
  Gives m a s x os -> (forall s', vside s' = x -> vcfg s' = vcfg s -> Gives (k a) b s' x' []) ->
  Gives (m ≫= k) b s x' os.
Proof. intros Hm Hk. rewrite <- (app_nil_r os). exact (gives_bind m k a b s x os x' [] Hm Hk). Qed.

Lemma gives_ret {A} (a : A) s x : vside s = x -> Gives (mret a) a s x [].
Proof. intros <-. exists s. by rewrite app_nil_r. Qed.

Lemma gives_read {A B} (f : S -> A) (k : A -> M halt S B) b s x os :
  Gives (k (f s)) b s x os -> Gives (gets f ≫= k) b s x os.
Proof. done. Qed.

Lemma gives_get {B} (k : S -> M halt S B) b s x os :
  Gives (k s) b s x os -> Gives (get ≫= k) b s x os.
Proof. done. Qed.

(** What does not touch the negotiation. *)
Lemma gives_same {A} (m : M halt S A) a s x :
  vside s = x -> (exists s', m s = (Ok a, s') /\ same s s') -> Gives m a s x [].
Proof.
  intros <- (s' & E & C & X & N). exists s'. by rewrite app_nil_r.
Qed.

End Focus.

(** ** The words *)

Lemma side_on_elsewhere mine o d o' k opts dd ww :
  elsewhere mine o d o' -> (k = if d then 0 else 2) \/ (k = if d then 1 else 3) ->
  side_of mine o (bit_on (2 ^ k) o' opts) dd ww = side_of mine o opts dd ww.
Proof.
  intros H Hk. unfold side_of.
  assert (0 <= k) by (destruct d; lia).
  destruct mine; cbv [my_state_is_will my_want_state_is_will my_state_is_do my_want_state_is_do];
    change MY_STATE_WILL with (2 ^ 0); change MY_WANT_STATE_WILL with (2 ^ 1);
    change MY_STATE_DO with (2 ^ 2); change MY_WANT_STATE_DO with (2 ^ 3).
  all: rewrite !tst_on by lia.
  all: destruct H as [H|H]; [destruct d; [done || idtac|done || idtac]|
    apply Z.eqb_neq in H as ->; by rewrite !orb_false_r].
  all: try done.
  all: destruct Hk as [-> | ->]; simpl; by rewrite !andb_false_r, !orb_false_r.
Qed.

Lemma side_off_elsewhere mine o d o' k opts dd ww :
  elsewhere mine o d o' -> (k = if d then 0 else 2) \/ (k = if d then 1 else 3) ->
  side_of mine o (bit_off (2 ^ k) o' opts) dd ww = side_of mine o opts dd ww.
Proof.
  intros H Hk. unfold side_of.
  assert (0 <= k) by (destruct d; lia).
  destruct mine; cbv [my_state_is_will my_want_state_is_will my_state_is_do my_want_state_is_do];
    change MY_STATE_WILL with (2 ^ 0); change MY_WANT_STATE_WILL with (2 ^ 1);
    change MY_STATE_DO with (2 ^ 2); change MY_WANT_STATE_DO with (2 ^ 3).
  all: rewrite !tst_off by lia.
  all: destruct H as [H|H]; [destruct d; try done|
    apply Z.eqb_neq in H as ->; by rewrite !andb_true_r].
  all: destruct Hk as [-> | ->]; simpl; by rewrite !andb_false_r, !andb_true_r.
Qed.

(** The words of the option itself: [st_bit] and [want_bit] of a direction. *)
Definition st_bit (d : bool) : Z := if d then MY_STATE_WILL else MY_STATE_DO.
Definition want_bit (d : bool) : Z := if d then MY_WANT_STATE_WILL else MY_WANT_STATE_DO.
Definition set_bit (v : bool) (mask o : Z) (f : opt_words) : opt_words :=
  if v then bit_on mask o f else bit_off mask o f.

Lemma side_set_st mine o v opts dd ww :
  side_of mine o (set_bit v (st_bit mine) o opts) dd ww =
  mkSide v (want (side_of mine o opts dd ww)) (resp (side_of mine o opts dd ww)).
Proof.
  destruct mine, v; unfold side_of, set_bit, st_bit; simpl;
    cbv [my_state_is_will my_want_state_is_will my_state_is_do my_want_state_is_do];
    change MY_STATE_WILL with (2 ^ 0); change MY_WANT_STATE_WILL with (2 ^ 1);
    change MY_STATE_DO with (2 ^ 2); change MY_WANT_STATE_DO with (2 ^ 3).
  all: rewrite ?tst_on, ?tst_off by lia; rewrite Z.eqb_refl; simpl;
    by rewrite ?orb_true_r, ?orb_false_r, ?andb_false_r, ?andb_true_r.
Qed.

Lemma side_set_want mine o v opts dd ww :
  side_of mine o (set_bit v (want_bit mine) o opts) dd ww =
  mkSide (st (side_of mine o opts dd ww)) v (resp (side_of mine o opts dd ww)).
Proof.
  destruct mine, v; unfold side_of, set_bit, want_bit; simpl;
    cbv [my_state_is_will my_want_state_is_will my_state_is_do my_want_state_is_do];
    change MY_STATE_WILL with (2 ^ 0); change MY_WANT_STATE_WILL with (2 ^ 1);
    change MY_STATE_DO with (2 ^ 2); change MY_WANT_STATE_DO with (2 ^ 3).
  all: rewrite ?tst_on, ?tst_off by lia; rewrite Z.eqb_refl; simpl;
    by rewrite ?orb_true_r, ?orb_false_r, ?andb_false_r, ?andb_true_r.
Qed.
