(* ===== verification/TelnetdFacts.v ===== *)
(** * telnetd: the handlers as the machine of [TelnetNeg]

    For each option that the server negotiates by the common rules, the handler of a message
    about it does what [receive] does, and everything else the server does only starts
    requests. *)

From Stdlib Require Import ZArith Lia List Bool.
From stdpp Require Import base tactics list numbers functions.
From S2P Require Import Prelude TelnetNeg TelnetOpts Telnetd TelnetdStat TelnetFocus.

Local Open Scope Z_scope.

Definition out_log (s : tnd) : list (list Z) := netsent (ng s) ++ netobuf (ng s).

Definition tview (s : tnd) : view :=
  mkView (options (ng s)) (do_dont_resp (ng s)) (will_wont_resp (ng s)) (out_log s) (0, false).

(** ** Output *)

Lemma output_data_spec m s :
  m <> [] ->
  exists b n, n ++ b = out_log s ++ [m] /\
    output_data m s =
      (Ok (), in_ng (fun g => mkNegs (options g) (do_dont_resp g) (will_wont_resp g) b n) s).
Proof.
  intros Hm. unfold output_data, output_datalen. destruct m as [|c m]; [done|].
  cbv [mbind M_bind gets]. destruct (_ <? _)%nat; cbn [mwhen].
  - by exists [c :: m], (netsent (ng s) ++ netobuf (ng s)).
  - exists (netobuf (ng s) ++ [c :: m]), (netsent (ng s)). split; [|done].
    unfold out_log. by rewrite app_assoc.
Qed.

(** Option word and counter of a request. *)
Lemma side_request (mine : bool) (o : Z) n opts dd ww :
  let c : Z -> Z := if mine then ww else dd in
  side_of mine o (set_bit n (want_bit mine) o opts)
    (if mine then dd else <[o := swrap 8 (c o + 1)]> dd)
    (if mine then <[o := swrap 8 (c o + 1)]> ww else ww) =
  let x := side_of mine o opts dd ww in mkSide (st x) n (swrap 8 (resp x + 1)).
Proof.
  simpl. rewrite side_set_want.
  destruct mine; simpl; by rewrite fn_lookup_insert.
Qed.

Section Facts.
Context `{Termios_h} (mine : bool) (o : Z) (G : bool -> Prop).

Abbreviation keeps := (Keeps tview mine o G (fun _ => True)).
Abbreviation same_ := (same tview mine o).

Definition quiet_msg (m : list Z) : Prop :=
  m <> [] /\
  match neg_msg m with Some (c, o') => neg_on mine o (c, o') = None | None => True end.

Lemma output_same m s : quiet_msg m -> same_ s (output_data m s).2.
Proof.
  intros [Hl Hq]. destruct (output_data_spec m s Hl) as (b & n & E & ->).
  split; [done|]. split; [done|]. unfold vnegs, v_msgs, tview, out_log; simpl.
  rewrite E. unfold out_log. rewrite omap_app, negs_of_app. simpl.
  destruct (neg_msg m) as [[c o']|]; simpl; [|by rewrite app_nil_r].
  rewrite Hq. by rewrite app_nil_r.
Qed.

Lemma keeps_output m : quiet_msg m -> keeps (output_data m).
Proof. intros Hq s _. by apply started_same, output_same. Qed.

(** ** The words and the counters *)

Lemma same_options d mask o' v s :
  elsewhere mine o d o' -> mask = st_bit d \/ mask = want_bit d ->
  same_ s (set_options (set_bit v mask o' (options (ng s))) s).
Proof.
  intros He Hm. split; [done|]. split; [|done]. unfold vside, tview. simpl.
  assert (exists k, mask = 2 ^ k /\
    ((k = if d then 0 else 2) \/ (k = if d then 1 else 3))) as (k & -> & Hk).
  { destruct d, Hm as [-> | ->]; [exists 0|exists 1|exists 2|exists 3]; auto. }
  destruct v; simpl; [by eapply side_on_elsewhere|by eapply side_off_elsewhere].
Qed.

Lemma keeps_options d mask o' v :
  elsewhere mine o d o' -> mask = st_bit d \/ mask = want_bit d ->
  keeps (upd_options (set_bit v mask o')).
Proof. intros. apply run_keeps_modify. intros s. by eapply same_options. Qed.

Lemma same_counter d o' v s :
  elsewhere mine o d o' ->
  same_ s (if d then set_will_wont_resp (<[o' := v]> (will_wont_resp (ng s))) s
           else set_do_dont_resp (<[o' := v]> (do_dont_resp (ng s))) s).
Proof.
  intros He. destruct d; (split; [done|]; split; [|done]); unfold vside, tview, side_of; simpl;
    destruct mine; try done; destruct He as [He|He]; try done; by rewrite fn_lookup_insert_ne.
Qed.

Definition upd_counter (d : bool) (f : (Z -> Z) -> Z -> Z) : T unit :=
  if d then upd_will_wont f else upd_do_dont f.

Lemma keeps_counter d o' (f : Z -> Z) :
  elsewhere mine o d o' -> keeps (upd_counter d (fun g => <[o' := f (g o')]> g)).
Proof.
  intros He. destruct d; apply run_keeps_modify; intros s.
  - exact (same_counter true o' _ s He).
  - exact (same_counter false o' _ s He).
Qed.

(** ** Requests *)

Definition send_fn (d n : bool) : Z -> bool -> T unit :=
  match d, n with
  | true, true => send_will | true, false => send_wont
  | false, true => send_do | false, false => send_dont
  end.

Lemma quiet_neg d n o' : elsewhere mine o d o' -> quiet_msg [IAC; cmd_of d n; o'].
Proof.
  intros He. split; [done|].
  destruct d, n; simpl; unfold neg_on; simpl; destruct (Z.eqb_spec o' o) as [->|]; try done;
    destruct mine; try done; by destruct He.
Qed.

Lemma keeps_send_elsewhere d n o' init : elsewhere mine o d o' -> keeps (send_fn d n o' init).
Proof.
  intros He. pose proof (quiet_neg d n o' He) as Hq.
  destruct d, n; simpl in *; apply run_keeps_bind; try apply run_keeps_gets; intros g; case_match;
    try apply run_keeps_ret; apply run_keeps_bind; try (intros _; by apply keeps_output);
    apply run_keeps_when, run_keeps_bind.
  - exact (keeps_options true MY_WANT_STATE_WILL o' true He (or_intror eq_refl)).
  - intros _. exact (keeps_counter true o' (fun z => swrap 8 (z + 1)) He).
  - exact (keeps_options true MY_WANT_STATE_WILL o' false He (or_intror eq_refl)).
  - intros _. exact (keeps_counter true o' (fun z => swrap 8 (z + 1)) He).
  - case_match.
    + exact (keeps_options false MY_WANT_STATE_DO o' false He (or_intror eq_refl)).
    + exact (keeps_options false MY_WANT_STATE_DO o' true He (or_intror eq_refl)).
  - intros _. exact (keeps_counter false o' (fun z => swrap 8 (z + 1)) He).
  - exact (keeps_options false MY_WANT_STATE_DO o' false He (or_intror eq_refl)).
  - intros _. exact (keeps_counter false o' (fun z => swrap 8 (z + 1)) He).
Qed.

(** A message about the option itself. *)
Lemma output_own n s :
  exists s', output_data [IAC; cmd_of mine n; o] s = (Ok (), s') /\ md s' = md s /\
    vside tview mine o s' = vside tview mine o s /\
    vnegs tview mine o s' = vnegs tview mine o s ++ [n].
Proof.
  destruct (output_data_spec [IAC; cmd_of mine n; o] s) as (b & l & E & ->); [done|].
  eexists. split; [done|]. split; [done|]. split; [done|].
  unfold vnegs, v_msgs, tview, out_log; simpl. rewrite E.
  unfold out_log. rewrite omap_app, negs_of_app. f_equal.
  destruct mine, n; simpl; unfold neg_on; simpl; by rewrite Z.eqb_refl.
Qed.

Lemma send_own_spec n s x' os :
  (mine = true \/ o <> TELOPT_TM) -> initiate n (vside tview mine o s) = (x', os) ->
  exists s', send_fn mine n o true s = (Ok (), s') /\ vside tview mine o s' = x' /\
    vnegs tview mine o s' = vnegs tview mine o s ++ os.
Proof.
  intros Htm I.
  assert (exists s1, vside tview mine o s1 =
      mkSide (st (vside tview mine o s)) n (swrap 8 (resp (vside tview mine o s) + 1)) /\
      vnegs tview mine o s1 = vnegs tview mine o s /\
      send_fn mine n o true s =
        if ((resp (vside tview mine o s) =? 0) && eqb (st (vside tview mine o s)) n
            || eqb (want (vside tview mine o s)) n)
        then (Ok (), s) else output_data [IAC; cmd_of mine n; o] s1) as (s1 & E1 & E2 & ->).
  { unfold vside, tview; simpl.
    destruct mine, n; simpl;
      unfold send_will, send_wont, send_do, send_dont, his_state_is_will,
        his_want_state_is_will, of_ng, gets, mbind, M_bind; simpl.
    - exists (set_will_wont_resp (incr8 o (will_wont_resp (ng s)))
        (set_options (set_my_want_state_will o (options (ng s))) s)).
      split; [exact (side_request true o true (options (ng s)) (do_dont_resp (ng s))
        (will_wont_resp (ng s)))|]. split; [done|]. by bool_eqb.
    - exists (set_will_wont_resp (incr8 o (will_wont_resp (ng s)))
        (set_options (set_my_want_state_wont o (options (ng s))) s)).
      split; [exact (side_request true o false (options (ng s)) (do_dont_resp (ng s))
        (will_wont_resp (ng s)))|]. split; [done|]. by bool_eqb.
    - destruct Htm as [?|Htm]; [done|]. apply Z.eqb_neq in Htm.
      exists (set_do_dont_resp (incr8 o (do_dont_resp (ng s)))
        (set_options (set_his_want_state_will o (options (ng s))) s)).
      split; [exact (side_request false o true (options (ng s)) (do_dont_resp (ng s))
        (will_wont_resp (ng s)))|]. split; [done|].
      rewrite Htm. by bool_eqb.
    - exists (set_do_dont_resp (incr8 o (do_dont_resp (ng s)))
        (set_options (set_his_want_state_wont o (options (ng s))) s)).
      split; [exact (side_request false o false (options (ng s)) (do_dont_resp (ng s))
        (will_wont_resp (ng s)))|]. split; [done|]. by bool_eqb. }
  unfold initiate in I. destruct (_ || _); injection I as <- <-.
  - exists s. by rewrite app_nil_r.
  - destruct (output_own n s1) as (s' & -> & _ & Ho1 & Ho2). exists s'.
    rewrite Ho1, Ho2, E1, E2. done.
Qed.

Lemma keeps_send_own n :
  G n -> (mine = true \/ o <> TELOPT_TM) -> keeps (send_fn mine n o true).
Proof.
  intros Hg Htm s _. destruct (initiate n (vside tview mine o s)) as [x' os] eqn:I.
  destruct (send_own_spec n s x' os Htm I) as (s' & -> & Ex & En).
  split; [done|]. exists (os ++ []). cbn [snd]. rewrite app_nil_r at 2. split; [|done].
  rewrite Ex. eapply (moves_cons _ n); [exact Hg|exact I|constructor].
Qed.

(** ** Everything else the server does *)

Lemma keeps_frame (f : tnd -> tnd) : (forall s, ng (f s) = ng s) -> keeps (modify f).
Proof.
  intros Hf. apply run_keeps_modify. intros s. unfold same, vcfg, vside, vnegs, v_msgs, tview, out_log.
  by rewrite Hf.
Qed.

Lemma keeps_netflush : keeps netflush.
Proof.
  apply run_keeps_modify. intros s. unfold same, vcfg, vside, vnegs, v_msgs, tview, out_log. simpl.
  by rewrite app_nil_r.
Qed.

Lemma keeps_for_slc body : (forall i, keeps (body i)) -> keeps (for_slc body).
Proof.
  intros Hb. unfold for_slc. induction slc_funcs as [|i l IH]; simpl; [apply run_keeps_ret|].
  apply run_keeps_bind; [apply Hb|intros _; exact IH].
Qed.

(** A suboption is not a negotiation message. *)
Lemma quiet_sub m : (3 < length m)%nat -> quiet_msg m.
Proof. intros Hl. destruct m as [|? [|? [|? [|? ?]]]]; simpl in *; [lia..|done]. Qed.

Local Ltac frame :=
  apply keeps_frame; intros ?;
  repeat match goal with |- context [decide ?P] => destruct (decide P) end; reflexivity.

Local Ltac keeps_tac :=
  repeat first
    [ progress intros
    | lazymatch goal with
      | |- Keeps _ _ _ _ _ (mret _) => apply run_keeps_ret
      | |- Keeps _ _ _ _ _ (mbind _ _) => apply run_keeps_bind
      | |- Keeps _ _ _ _ _ (mwhen _ _) => apply run_keeps_when
      | |- Keeps _ _ _ _ _ (gets _) => apply run_keeps_gets
      | |- Keeps _ _ _ _ _ (of_ng _) => apply run_keeps_gets
      | |- Keeps _ _ _ _ _ (of_md _) => apply run_keeps_gets
      | |- Keeps _ _ _ _ _ (of_ty _) => apply run_keeps_gets
      | |- Keeps _ _ _ _ _ (of_sl _) => apply run_keeps_gets
      | |- Keeps _ _ _ _ _ (of_rc _) => apply run_keeps_gets
      | |- Keeps _ _ _ _ _ (his_will _) => apply run_keeps_gets
      | |- Keeps _ _ _ _ _ (his_want_will _) => apply run_keeps_gets
      | |- Keeps _ _ _ _ _ (my_will _) => apply run_keeps_gets
      | |- Keeps _ _ _ _ _ (my_want_will _) => apply run_keeps_gets
      | |- Keeps _ _ _ _ _ (for_slc _) => apply keeps_for_slc
      | |- Keeps _ _ _ _ _ (modify _) => frame
      | |- Keeps _ _ _ _ _ netflush => apply keeps_netflush
      | |- Keeps _ _ _ _ _ (match ?x with _ => _ end) => destruct x
      end
    | solve [auto with keeps] ].

Lemma keeps_init_termbuf : keeps init_termbuf.
Proof. unfold init_termbuf. keeps_tac. Qed.
Lemma keeps_copy_termbuf t : keeps (copy_termbuf t).
Proof. unfold copy_termbuf. keeps_tac. Qed.
Lemma keeps_set_termbuf : keeps set_termbuf_.
Proof. unfold set_termbuf_. keeps_tac. Qed.
Lemma keeps_upd_termbuf f : keeps (upd_termbuf f).
Proof. unfold upd_termbuf. keeps_tac. Qed.
Lemma keeps_upd_slc i f : keeps (upd_slc i f).
Proof. unfold upd_slc. keeps_tac. Qed.
Lemma keeps_settimer x : keeps (settimer x).
Proof. unfold settimer. keeps_tac. Qed.
Lemma keeps_add_slc f g v : keeps (add_slc f g v).
Proof. unfold add_slc. cbv zeta. keeps_tac. apply keeps_leave. Qed.
#[local] Hint Resolve keeps_init_termbuf keeps_copy_termbuf keeps_set_termbuf keeps_upd_termbuf
  keeps_upd_slc keeps_settimer keeps_add_slc : keeps.

Lemma keeps_tty_setlinemode on : keeps (tty_setlinemode on).
Proof. unfold tty_setlinemode. keeps_tac. Qed.
Lemma keeps_put_cc p v : keeps (put_cc p v).
Proof. apply keeps_upd_termbuf. Qed.
Lemma keeps_send_mode e : keeps (send_mode e).
Proof. apply keeps_output, quiet_sub. simpl. lia. Qed.
#[local] Hint Resolve keeps_tty_setlinemode keeps_put_cc keeps_send_mode : keeps.

Lemma keeps_flowstat : keeps flowstat.
Proof.
  unfold flowstat. keeps_tac; apply keeps_output, quiet_sub; simpl; lia.
Qed.
#[local] Hint Resolve keeps_flowstat : keeps.

(** Where any request of the option may be started. *)
Context (Htm : mine = true \/ o <> TELOPT_TM) (Hall : forall n, G n).

Lemma keeps_send d n o' : keeps (send_fn d n o' true).
Proof.
  destruct (decide (mine = d /\ o = o')) as [[<- <-]|Hn]; [apply keeps_send_own; [apply Hall|exact Htm]|].
  apply keeps_send_elsewhere. unfold elsewhere.
  destruct (decide (mine = d)), (decide (o = o')); tauto.
Qed.

Lemma keeps_send_do o' : keeps (send_do o' true).
Proof. apply (keeps_send false true). Qed.
Lemma keeps_send_dont o' : keeps (send_dont o' true).
Proof. apply (keeps_send false false). Qed.
Lemma keeps_send_will o' : keeps (send_will o' true).
Proof. apply (keeps_send true true). Qed.
Lemma keeps_send_wont o' : keeps (send_wont o' true).
Proof. apply (keeps_send true false). Qed.
#[local] Hint Resolve keeps_send_do keeps_send_dont keeps_send_will keeps_send_wont : keeps.

(** slc.c *)

Lemma keeps_send_slc : keeps send_slc.
Proof. unfold send_slc. keeps_tac. Qed.
Lemma keeps_default_slc : keeps default_slc.
Proof. unfold default_slc. keeps_tac. Qed.
Lemma keeps_get_slc_defaults : keeps get_slc_defaults.
Proof. unfold get_slc_defaults. keeps_tac. Qed.
Lemma keeps_start_slc b : keeps (start_slc b).
Proof. unfold start_slc. keeps_tac. Qed.
Lemma keeps_end_slc0 : keeps end_slc0.
Proof.
  unfold end_slc0. keeps_tac; first [apply keeps_leave | apply keeps_output, quiet_sub; simpl; rewrite length_app; simpl; lia].
Qed.
Lemma keeps_change_slc f g v : keeps (change_slc f g v).
Proof. unfold change_slc. keeps_tac. Qed.
#[local] Hint Resolve keeps_send_slc keeps_default_slc keeps_get_slc_defaults keeps_start_slc
  keeps_end_slc0 keeps_change_slc : keeps.

Lemma keeps_process_slc f g v : keeps (process_slc f g v).
Proof. unfold process_slc. keeps_tac. Qed.
Lemma keeps_check_slc : keeps check_slc.
Proof. unfold check_slc. keeps_tac. Qed.
#[local] Hint Resolve keeps_process_slc keeps_check_slc : keeps.

Lemma keeps_slc_triplets buf : keeps (slc_triplets buf).
Proof.
  revert buf. fix IH 1. intros [|f [|g [|v buf]]]; cbn [slc_triplets]; try apply run_keeps_ret.
  apply run_keeps_bind; [apply keeps_process_slc|intros _; apply IH].
Qed.
#[local] Hint Resolve keeps_slc_triplets : keeps.

Lemma keeps_do_opt_slc buf : keeps (do_opt_slc buf).
Proof. unfold do_opt_slc. keeps_tac. Qed.
#[local] Hint Resolve keeps_do_opt_slc : keeps.

Lemma keeps_deferslc : keeps deferslc.
Proof. unfold deferslc. keeps_tac. Qed.
#[local] Hint Resolve keeps_deferslc : keeps.

(** termstat.c *)

Lemma keeps_clientstat_tspeed p1 p2 : keeps (clientstat_tspeed p1 p2).
Proof. unfold clientstat_tspeed, tty_rspeed, tty_tspeed. keeps_tac. Qed.
Lemma keeps_clientstat_naws p1 p2 : keeps (clientstat_naws p1 p2).
Proof. unfold clientstat_naws. keeps_tac. Qed.
Lemma keeps_clientstat_linemode p1 : keeps (clientstat_linemode p1).
Proof. unfold clientstat_linemode. keeps_tac. Qed.
#[local] Hint Resolve keeps_clientstat_tspeed keeps_clientstat_naws
  keeps_clientstat_linemode : keeps.

Lemma keeps_defer_terminit : keeps defer_terminit.
Proof. unfold defer_terminit. keeps_tac. Qed.
Lemma keeps_localstat_modes : keeps localstat_modes.
Proof. unfold localstat_modes. keeps_tac. Qed.
#[local] Hint Resolve keeps_defer_terminit keeps_localstat_modes : keeps.

Lemma keeps_localstat : keeps localstat.
Proof. unfold localstat. keeps_tac. Qed.
#[local] Hint Resolve keeps_localstat : keeps.

Lemma keeps_clientstat_lm_mode : keeps clientstat_lm_mode.
Proof.
  unfold clientstat_lm_mode, tty_setedit, tty_setsig, tty_setsofttab, tty_setlitecho. keeps_tac.
Qed.
#[local] Hint Resolve keeps_clientstat_lm_mode : keeps.

Lemma keeps_clientstat code p1 p2 : keeps (clientstat code p1 p2).
Proof. unfold clientstat. keeps_tac. Qed.
#[local] Hint Resolve keeps_clientstat : keeps.

Lemma keeps_with_termbuf m : keeps m -> keeps (with_termbuf m).
Proof. intros. unfold with_termbuf. keeps_tac. Qed.

(** ** A message about another option or direction *)

Local Ltac word He :=
  first [ exact (keeps_options _ MY_STATE_WILL _ true He (or_introl eq_refl))
        | exact (keeps_options _ MY_STATE_WILL _ false He (or_introl eq_refl))
        | exact (keeps_options _ MY_WANT_STATE_WILL _ true He (or_intror eq_refl))
        | exact (keeps_options _ MY_WANT_STATE_WILL _ false He (or_intror eq_refl))
        | exact (keeps_options _ MY_STATE_DO _ true He (or_introl eq_refl))
        | exact (keeps_options _ MY_STATE_DO _ false He (or_introl eq_refl))
        | exact (keeps_options _ MY_WANT_STATE_DO _ true He (or_intror eq_refl))
        | exact (keeps_options _ MY_WANT_STATE_DO _ false He (or_intror eq_refl))
        | exact (keeps_counter _ _ (fun z => swrap 8 (z + 1)) He)
        | exact (keeps_counter _ _ (fun z => swrap 8 (z - 1)) He)
        | exact (keeps_send_elsewhere true true _ false He)
        | exact (keeps_send_elsewhere true false _ false He)
        | exact (keeps_send_elsewhere false true _ false He)
        | exact (keeps_send_elsewhere false false _ false He) ].

Local Ltac handler_tac He := repeat first [ progress keeps_tac | word He ].

Lemma keeps_will_switch o' : keeps (will_switch o').
Proof.
  unfold will_switch, with_termbuf, tty_binaryin, flow_level. keeps_tac.
Qed.

Lemma keeps_wont_switch o' : keeps (wont_switch o').
Proof. unfold wont_switch, with_termbuf, tty_binaryin, flow_level. keeps_tac. Qed.

Lemma keeps_dont_switch o' : keeps (dont_switch o').
Proof. unfold dont_switch, with_termbuf, tty_binaryout, tty_setecho. keeps_tac. Qed.
#[local] Hint Resolve keeps_will_switch keeps_wont_switch keeps_dont_switch : keeps.

Lemma keeps_do_switch o' : elsewhere mine o true o' -> keeps (do_switch o').
Proof.
  intros He. unfold do_switch, with_termbuf, tty_binaryout, tty_setecho.
  destruct (Z.eqb_spec o' TELOPT_LOGOUT) as [->|]; handler_tac He; apply keeps_leave.
Qed.

Lemma keeps_willoption o' : elsewhere mine o false o' -> keeps (willoption o').
Proof.
  intros He. unfold willoption, answer_do_dont, doclientstat. handler_tac He.
Qed.

Lemma keeps_wontoption o' : elsewhere mine o false o' -> keeps (wontoption o').
Proof.
  intros He. unfold wontoption, answer_do_dont.
  destruct (Z.eqb_spec o' TELOPT_TM) as [->|]; handler_tac He.
Qed.

(** The requests of the program; ECHO of the client is another matter. *)
Lemma keeps_getterminaltype : keeps getterminaltype_requests.
Proof. unfold getterminaltype_requests. keeps_tac. Qed.

Lemma keeps_telnet_requests : keeps telnet_requests.
Proof. unfold telnet_requests. keeps_tac. Qed.

Lemma keeps_telnet_requests_after :
  elsewhere mine o false TELOPT_ECHO -> keeps telnet_requests_after.
Proof.
  intros He. pose proof (keeps_willoption _ He). unfold telnet_requests_after. keeps_tac.
Qed.

Lemma keeps_dooption o' : elsewhere mine o true o' -> keeps (dooption o').
Proof.
  intros He. pose proof (keeps_do_switch o' He). unfold dooption, answer_will_wont. handler_tac He.
Qed.

Lemma keeps_dontoption o' : elsewhere mine o true o' -> keeps (dontoption o').
Proof. intros He. unfold dontoption, answer_will_wont. handler_tac He. Qed.

End Facts.

(** ** A message about the option itself *)

Section Own.
Context `{Termios_h} (mine : bool) (o : Z).

Abbreviation side_ := (vside tview mine o).
Abbreviation negs_ := (vnegs tview mine o).

Abbreviation Gives_ := (Gives tview mine o).

Lemma gives_st v s x :
  side_ s = x ->
  Gives_ (upd_options (set_bit v (st_bit mine) o)) () s (mkSide v (want x) (resp x)) [].
Proof.
  intros <-. eexists. split; [done|]. split; [done|]. split; [|by rewrite app_nil_r]. exact (side_set_st _ _ _ _ _ _).
Qed.

Lemma gives_want v s x :
  side_ s = x ->
  Gives_ (upd_options (set_bit v (want_bit mine) o)) () s (mkSide (st x) v (resp x)) [].
Proof.
  intros <-. eexists. split; [done|]. split; [done|]. split; [|by rewrite app_nil_r].
  exact (side_set_want _ _ _ _ _ _).
Qed.

Lemma gives_counter (f : Z -> Z) s x :
  side_ s = x ->
  Gives_ (upd_counter mine (fun g => <[o := f (g o)]> g)) () s (mkSide (st x) (want x) (f (resp x))) [].
Proof.
  intros <-. unfold Gives, vside, vnegs, v_msgs, tview, out_log, upd_counter.
  destruct mine; (eexists; split; [done|]; split; [done|]; split; [|by rewrite app_nil_r]);
    unfold side_of; simpl; by rewrite fn_lookup_insert.
Qed.

Lemma gives_send n s x : side_ s = x -> Gives_ (send_fn mine n o false) () s x [n].
Proof.
  intros <-. destruct (output_own mine o n s) as (s' & E & _ & X & N).
  exists s'. split; [|split_and!; [done..|]]; [|done]. unfold cmd_of, on_cmd, off_cmd in E. by destruct mine, n.
Qed.

Lemma gives_frame {A} (m : T A) a s x :
  side_ s = x -> (exists s', m s = (Ok a, s') /\ ng s' = ng s) -> Gives_ m a s x [].
Proof.
  intros Hx (s' & E & Hn). apply gives_same; [done|]. exists s'. split; [done|].
  unfold same, vcfg, vside, vnegs, v_msgs, tview, out_log. by rewrite Hn.
Qed.

End Own.

Lemma gives_answer_do o n s x :
  vside tview false o s = x ->
  Gives tview false o (answer_do_dont o n) () s (mkSide (st x) (want x) (answered n x)) [].
Proof.
  intros <-. set (x := vside tview false o s). unfold answer_do_dont, answered, his_will.
  apply gives_read. change (do_dont_resp (ng s) o) with (resp x).
  destruct (resp x =? 0) eqn:R; cbn [negb mwhen].
  { apply Z.eqb_eq in R. rewrite <- R. by apply gives_ret. }
  eapply gives_then; [by apply (gives_counter false o (fun z => swrap 8 (z - 1)))|].
  intros s1 E1 _. cbv zeta. apply gives_read, gives_read.
  assert (do_dont_resp (ng s1) o = swrap 8 (resp x - 1)) as -> by exact (f_equal resp E1).
  assert (his_state_is_will (options (ng s1)) o = st x) as -> by exact (f_equal st E1).
  destruct (negb _ && eqb (st x) n); cbn [mwhen].
  - exact (gives_counter false o (fun z => swrap 8 (z - 1)) _ _ E1).
  - by apply gives_ret.
Qed.

Lemma gives_answer_will o n s x :
  vside tview true o s = x ->
  Gives tview true o (answer_will_wont o n) () s (mkSide (st x) (want x) (answered n x)) [].
Proof.
  intros <-. set (x := vside tview true o s). unfold answer_will_wont, answered, my_will.
  apply gives_read. change (will_wont_resp (ng s) o) with (resp x).
  destruct (resp x =? 0) eqn:R; cbn [negb mwhen].
  { apply Z.eqb_eq in R. rewrite <- R. by apply gives_ret. }
  eapply gives_then; [by apply (gives_counter true o (fun z => swrap 8 (z - 1)))|].
  intros s1 E1 _. cbv zeta. apply gives_read, gives_read.
  assert (will_wont_resp (ng s1) o = swrap 8 (resp x - 1)) as -> by exact (f_equal resp E1).
  assert (my_state_is_will (options (ng s1)) o = st x) as -> by exact (f_equal st E1).
  destruct (negb _ && eqb (st x) n); cbn [mwhen].
  - exact (gives_counter true o (fun z => swrap 8 (z - 1)) _ _ E1).
  - by apply gives_ret.
Qed.

(** ** Options that are not treated in their own way *)

Section Handlers.
Context `{Termios_h}.

Definition Total (m : T unit) : Prop := forall s, exists s', m s = (Ok (), s').

Lemma total_bind {A} (m : T A) (k : A -> T unit) :
  (forall s, exists a s', m s = (Ok a, s')) -> (forall a, Total (k a)) -> Total (m ≫= k).
Proof.
  intros Hm Hk s. destruct (Hm s) as (a & s1 & E). rewrite (run_bind_ok _ _ _ _ _ E). apply Hk.
Qed.

Lemma total_seq (m k : T unit) : Total m -> Total k -> Total (m ≫= fun _ => k).
Proof.
  intros Hm Hk. apply total_bind; [|done]. intros s. destruct (Hm s) as [s' E]. by exists (), s'.
Qed.

Lemma total_when b (m : T unit) : Total m -> Total (mwhen b m).
Proof. intros Hm. destruct b; [done|]. intros s. by eexists. Qed.

Lemma total_output m : Total (output_data m).
Proof.
  intros s. destruct m as [|c m]; [by eexists|].
  destruct (output_data_spec (c :: m) s) as (b & n & _ & E); [done|by eexists].
Qed.

Lemma with_termbuf_frame (f : termios -> termios) s :
  exists s', with_termbuf (upd_termbuf f) s = (Ok (), s') /\ ng s' = ng s.
Proof.
  eexists. split; [reflexivity|]. simpl.
  match goal with |- context [decide ?P] => by destruct (decide P) end.
Qed.

Lemma will_switch_frame o s :
  o <> TELOPT_TM ->
  exists s', will_switch o s = (Ok (if will_accepts o then Accept else Refuse), s') /\
    ng s' = ng s.
Proof.
  intros Ho. apply Z.eqb_neq in Ho. unfold will_switch. rewrite Ho.
  assert (forall (m : T unit), (exists s', m s = (Ok (), s') /\ ng s' = ng s) ->
    exists s', (m ≫= fun _ => mret (if will_accepts o then Accept else Refuse)) s =
      (Ok (if will_accepts o then Accept else Refuse), s') /\ ng s' = ng s) as Hm.
  { intros m (s' & E & Hn). exists s'. by rewrite (run_bind_ok _ _ _ _ _ E). }
  apply Hm. repeat case_match; try (by eexists).
  all: apply with_termbuf_frame.
Qed.

(** [flowstat] comes to an end and sends only suboptions. *)
Lemma flowstat_stays o s :
  exists s', flowstat s = (Ok (), s') /\ same tview false o s s'.
Proof.
  pose proof (started_none _ _ _ _ _ _ (fun _ f => f)
    (keeps_flowstat false o (fun _ => False) s I)) as Hs.
  assert (exists s', flowstat s = (Ok (), s')) as (s' & E); [|rewrite E in Hs; by exists s'].
  clear Hs. unfold flowstat. revert s. apply (total_bind (his_will TELOPT_LFLOW)); [by intros ?; eexists _, _|].
  intros w. apply total_when.
  repeat (apply total_bind; [by intros ?; eexists _, _|intros ?]).
  apply total_seq.
  { apply total_when, total_bind; [by intros ?; eexists _, _|intros _; apply total_output]. }
  repeat (apply total_bind; [by intros ?; eexists _, _|intros ?]).
  apply total_when, total_bind; [by intros ?; eexists _, _|intros _; apply total_output].
Qed.

Lemma gives_flowstat o s x :
  vside tview false o s = x -> Gives tview false o flowstat () s x [].
Proof.
  intros Hx. by apply gives_same, flowstat_stays.
Qed.

(** [willoption] is [receive], but for ECHO, TM and LINEMODE. *)
Lemma willoption_receives o s x' os :
  o <> TELOPT_ECHO -> o <> TELOPT_TM -> o <> TELOPT_LINEMODE ->
  receive (will_accepts o) true (vside tview false o s) = (x', os) ->
  Gives tview false o (willoption o) () s x' os.
Proof.
  intros H1 H2 H3 R. unfold willoption.
  eapply gives_then; [by apply gives_answer_do|]. intros s1 E1 _. cbv zeta.
  unfold his_want_will. apply gives_read, gives_read.
  apply Z.eqb_neq in H1, H3. rewrite H1, H3.
  assert (do_dont_resp (ng s1) o = answered true (vside tview false o s)) as ->
    by exact (f_equal resp E1).
  assert (his_want_state_is_will (options (ng s1)) o = want (vside tview false o s)) as ->
    by exact (f_equal want E1).
  unfold receive in R. set (x := vside tview false o s) in *. set (r := answered true x) in *.
  clearbody r. clearbody x.
  destruct (r =? 0) eqn:Er; cbn [negb andb] in *.
  2: { injection R as <- <-. eapply gives_then; [by apply (gives_st false o true)|].
       intros s2 E2 _. by apply gives_ret. }
  destruct (want x) eqn:W; cbn [negb eqb] in *.
  { injection R as <- <-. destruct (o =? TELOPT_LFLOW).
    all: eapply gives_then; [by apply (gives_st false o true)|]; intros s2 E2 _.
    - by apply gives_flowstat.
    - by apply gives_ret. }
  eapply gives_then.
  { eapply gives_frame; [exact E1|]. exact (will_switch_frame o s1 H2). }
  intros s2 E2 _. cbv beta. destruct (will_accepts o) eqn:Ha.
  - injection R as <- <-. eapply gives_then; [by apply (gives_want false o true)|]. intros s3 E3 _.
    eapply gives_last; [by apply (gives_send false o true)|].
    intros s4 E4 _. eapply gives_then; [by apply (gives_st false o true)|].
    intros s5 E5 _. by apply gives_ret.
  - injection R as <- <-. eapply gives_then; [by apply (gives_counter false o (fun z => swrap 8 (z + 1)))|].
    intros s3 E3 _.
    eapply gives_last; [by apply (gives_send false o false)|].
    intros s4 E4 _. eapply gives_then; [by apply (gives_st false o true)|].
    intros s5 E5 _. by apply gives_ret.
Qed.

Lemma wont_switch_frame o s :
  o <> TELOPT_LINEMODE -> exists s', wont_switch o s = (Ok (), s') /\ ng s' = ng s.
Proof.
  intros Ho. apply Z.eqb_neq in Ho. unfold wont_switch. rewrite Ho.
  repeat case_match; try (by eexists). apply with_termbuf_frame.
Qed.

(** [wontoption] is [receive], but for TM and LINEMODE. *)
Lemma wontoption_receives ok o s x' os :
  o <> TELOPT_TM -> o <> TELOPT_LINEMODE ->
  receive ok false (vside tview false o s) = (x', os) ->
  Gives tview false o (wontoption o) () s x' os.
Proof.
  intros H2 H3 R. unfold wontoption.
  eapply gives_then; [by apply gives_answer_do|]. intros s1 E1 _. cbv zeta.
  unfold his_want_will, his_will. apply gives_read, gives_read.
  assert (do_dont_resp (ng s1) o = answered false (vside tview false o s)) as ->
    by exact (f_equal resp E1).
  assert (his_want_state_is_will (options (ng s1)) o = want (vside tview false o s)) as ->
    by exact (f_equal want E1).
  unfold receive in R. set (x := vside tview false o s) in *. set (r := answered false x) in *.
  clearbody r. clearbody x.
  rewrite eqb_is_false, negb_involutive in R. destruct ((r =? 0) && want x) eqn:C.
  - apply Z.eqb_neq in H2. rewrite H2.
    eapply gives_then; [eapply gives_frame; [exact E1|exact (wont_switch_frame o s1 H3)]|].
    intros s2 E2 _. eapply gives_then; [by apply (gives_want false o false)|]. intros s3 E3 _.
    apply gives_read. assert (his_state_is_will (options (ng s3)) o = st x) as ->
      by exact (f_equal st E3).
    injection R as <- <-. destruct (st x); cbn [mwhen].
    + eapply gives_last; [by apply (gives_send false o false)|].
      intros s4 E4 _. exact (gives_st false o false _ _ E4).
    + eapply gives_then; [by apply gives_ret|]. intros s4 E4 _. exact (gives_st false o false _ _ E4).
  - injection R as <- <-. unfold of_md. apply gives_read. apply Z.eqb_neq in H2.
    rewrite H2, andb_false_r. eapply gives_then; [by apply gives_ret|].
    intros s4 E4 _. exact (gives_st false o false _ _ E4).
Qed.

(** The options that [dooption] accepts, whatever the mode. *)
Definition do_accepts (o : Z) : bool :=
  bool_decide (o ∈ [TELOPT_ECHO; TELOPT_BINARY; TELOPT_STATUS]).

Lemma do_switch_frame o s :
  o <> TELOPT_SGA -> o <> TELOPT_TM -> o <> TELOPT_LOGOUT ->
  exists s', do_switch o s = (Ok (if do_accepts o then Accept else Refuse), s') /\ ng s' = ng s.
Proof.
  intros H1 H2 H3. apply Z.eqb_neq in H1, H2, H3. unfold do_switch. rewrite H1, H2, H3.
  destruct (Z.eqb_spec o TELOPT_ECHO) as [->|N1].
  { unfold of_md. destruct (lmodetype (md s) =? NO_LINEMODE) eqn:L.
    - destruct (with_termbuf_frame (upd_lflag (putf ECHO true)) s) as (s' & E & Hn).
      exists s'. split; [|done]. cbv [mbind M_bind gets]. rewrite L. cbn [mwhen].
      unfold tty_setecho. by rewrite E.
    - exists s. split; [|done]. cbv [mbind M_bind gets]. by rewrite L. }
  destruct (Z.eqb_spec o TELOPT_BINARY) as [->|N2].
  { match goal with |- context [tty_binaryout true] => unfold tty_binaryout end.
    match goal with |- context [upd_termbuf ?f] => destruct (with_termbuf_frame f s) as (s' & E & Hn) end.
    exists s'. by rewrite (run_bind_ok _ _ _ _ _ E). }
  destruct (Z.eqb_spec o TELOPT_STATUS) as [->|N3]; [by exists s|].
  exists s. split; [|done]. unfold do_accepts.
  rewrite bool_decide_false; [done|]. intros Hin.
  repeat (apply elem_of_cons in Hin as [?|Hin]; [done|]). by apply elem_of_nil in Hin.
Qed.

(** [dooption] is [receive], but for SGA, TM and LOGOUT. *)
Lemma dooption_receives o s x' os :
  o <> TELOPT_SGA -> o <> TELOPT_TM -> o <> TELOPT_LOGOUT ->
  receive (do_accepts o) true (vside tview true o s) = (x', os) ->
  Gives tview true o (dooption o) () s x' os.
Proof.
  intros H1 H2 H3 R. unfold dooption.
  eapply gives_then; [by apply gives_answer_will|]. intros s1 E1 _. cbv zeta.
  unfold my_want_will. apply gives_read, gives_read.
  assert (will_wont_resp (ng s1) o = answered true (vside tview true o s)) as ->
    by exact (f_equal resp E1).
  assert (my_want_state_is_will (options (ng s1)) o = want (vside tview true o s)) as ->
    by exact (f_equal want E1).
  unfold receive in R. set (x := vside tview true o s) in *. set (r := answered true x) in *.
  clearbody r. clearbody x.
  rewrite eqb_is_true in R. destruct ((r =? 0) && negb (want x)) eqn:C.
  2: { injection R as <- <-. exact (gives_st true o true _ _ E1). }
  eapply gives_then; [eapply gives_frame; [exact E1|exact (do_switch_frame o s1 H1 H2 H3)]|].
  intros s2 E2 _. destruct (do_accepts o); injection R as <- <-; cbn [st resp] in *.
  - eapply gives_then; [by apply (gives_want true o true)|]. intros s3 E3 _.
    eapply gives_last; [by apply (gives_send true o true)|].
    intros s4 E4 _. exact (gives_st true o true _ _ E4).
  - eapply gives_then; [by apply (gives_counter true o (fun z => swrap 8 (z + 1)))|]. intros s3 E3 _.
    eapply gives_last; [by apply (gives_send true o false)|].
    intros s4 E4 _. apply andb_true_iff in C as [_ C]. apply negb_true_iff in C.
    replace (mkSide true false (swrap 8 (r + 1))) with
      (mkSide true (want x) (swrap 8 (r + 1))) by by rewrite C.
    exact (gives_st true o true _ _ E4).
Qed.

Lemma dont_switch_frame o s :
  o <> TELOPT_SGA -> exists s', dont_switch o s = (Ok (), s') /\ ng s' = ng s.
Proof.
  intros Ho. apply Z.eqb_neq in Ho. unfold dont_switch. rewrite Ho.
  destruct (o =? TELOPT_BINARY); [apply with_termbuf_frame|].
  destruct (o =? TELOPT_ECHO); [|by eexists].
  unfold of_md, gets, mbind, M_bind. cbn beta iota.
  destruct (_ && _); cbn [mwhen]; [apply with_termbuf_frame|by eexists].
Qed.

(** [dontoption] is [receive], but for SGA. *)
Lemma dontoption_receives ok o s x' os :
  o <> TELOPT_SGA -> receive ok false (vside tview true o s) = (x', os) ->
  Gives tview true o (dontoption o) () s x' os.
Proof.
  intros H1 R. unfold dontoption.
  eapply gives_then; [by apply gives_answer_will|]. intros s1 E1 _. cbv zeta.
  unfold my_want_will, my_will. apply gives_read, gives_read.
  assert (will_wont_resp (ng s1) o = answered false (vside tview true o s)) as ->
    by exact (f_equal resp E1).
  assert (my_want_state_is_will (options (ng s1)) o = want (vside tview true o s)) as ->
    by exact (f_equal want E1).
  unfold receive in R. set (x := vside tview true o s) in *. set (r := answered false x) in *.
  clearbody r. clearbody x.
  rewrite eqb_is_false, negb_involutive in R. destruct ((r =? 0) && want x) eqn:C.
  2: { injection R as <- <-. exact (gives_st true o false _ _ E1). }
  eapply gives_then; [eapply gives_frame; [exact E1|exact (dont_switch_frame o s1 H1)]|].
  intros s2 E2 _. eapply gives_then; [by apply (gives_want true o false)|]. intros s3 E3 _.
  apply gives_read. assert (my_state_is_will (options (ng s3)) o = st x) as ->
    by exact (f_equal st E3).
  injection R as <- <-. destruct (st x); cbn [mwhen].
  - eapply gives_last; [by apply (gives_send true o false)|].
    intros s4 E4 _. exact (gives_st true o false _ _ E4).
  - eapply gives_then; [by apply gives_ret|]. intros s4 E4 _. exact (gives_st true o false _ _ E4).
Qed.

End Handlers.
