(* ===== verification/TelnetdSlc.v ===== *)
(** * telnetd: special characters and line mode

    What the server does with a client's requests about special characters and line mode:
    the replies overrun their buffer, and line mode is switched on again when it is on. *)

From Stdlib Require Import ZArith Lia List Bool.
From stdpp Require Import base tactics list numbers functions.
From S2P Require Import Prelude TelnetNeg TelnetOpts Telnetd TelnetdStat TelnetFocus TelnetdFacts.

Local Open Scope Z_scope.

Section Slc.
Context `{Termios_h}.

Lemma u8_small z : 0 <= z < 255 -> u8 z = z /\ (u8 z =? 255) = false.
Proof. intros Hz. rewrite uwrap_small by (simpl; lia). split; [done|]. apply Z.eqb_neq. lia. Qed.

(** One triplet about an unknown function: three octets more, or past the end. *)
Lemma process_unknown func s :
  Z.of_nat NSLC < func < 255 ->
  let s' := set_slcbuf (slcbuf (sl s) ++ [func; 0; 0]) s in
  process_slc func 0 0 s = (if slc_past 0 s' then Ex Crash else Ok (), s').
Proof.
  intros Hf. unfold process_slc. assert ((Z.of_nat NSLC <? func) = true) as -> by (apply Z.ltb_lt; lia).
  unfold add_slc. destruct (u8_small func ltac:(lia)) as [-> ->]. cbv zeta.
  rewrite run_bind_modify, run_bind_gets. by destruct (slc_past 0 _).
Qed.

Lemma length_triplets (func : Z) n : length (concat (replicate n [func; 0; 0])) = (3 * n)%nat.
Proof. induction n as [|n IH]; [done|]. cbn [replicate concat app length]. rewrite IH. lia. Qed.

(** More of them than there is room for. *)
Lemma triplets_overrun func n s :
  Z.of_nat NSLC < func < 255 -> (4 + length (slcbuf (sl s)) <= SLCBUF_SIZE < 4 + length (slcbuf (sl s)) + 3 * n)%nat ->
  exists s', slc_triplets (concat (replicate n [func; 0; 0])) s = (Ex Crash, s') /\
    (SLCBUF_SIZE < 4 + length (slcbuf (sl s')))%nat.
Proof.
  intros Hf. revert s. induction n as [|n IH]; intros s Hl; [lia|].
  cbn [replicate concat app slc_triplets]. pose proof (process_unknown func s Hf) as E. cbv zeta in E.
  set (s1 := set_slcbuf (slcbuf (sl s) ++ [func; 0; 0]) s) in *.
  assert (length (slcbuf (sl s1)) = length (slcbuf (sl s)) + 3)%nat as L by (simpl; by rewrite length_app).
  destruct (slc_past 0 s1) eqn:Hp.
  - exists s1. split; [by rewrite (run_bind_ex _ _ _ _ _ E)|]. apply Nat.ltb_lt in Hp. lia.
  - rewrite (run_bind_ok _ _ _ _ _ E). apply Nat.ltb_ge in Hp. apply IH. lia.
Qed.

(** C31. The client's suboption SLC with [2 * NSLC] triplets about a function that the server
    does not know makes it write past the end of [slcbuf]: the reply and its four octets of
    header take more than its [NSLC * 6] octets, though the request itself is not
    longer than [6 * NSLC] octets. *)
Theorem slc_replies_overrun (func : Z) (s : tnd) :
  (0 < NSLC)%nat -> Z.of_nat NSLC < func < 255 -> terminit (ty s) = true ->
  let request := concat (replicate (2 * NSLC) [func; 0; 0]) in
  length request = (6 * NSLC)%nat /\
  exists s', (_ ← start_slc true; do_opt_slc request) s = (Ex Crash, s') /\
    (SLCBUF_SIZE < 4 + length (slcbuf (sl s')))%nat.
Proof.
  intros H0 Hf Ht request. unfold request. rewrite length_triplets. split; [lia|].
  set (s1 := (start_slc true s).2). assert (start_slc true s = (Ok (), s1)) as E1 by done.
  assert (slcbuf (sl s1) = []) as Es by done.
  destruct (triplets_overrun func (2 * NSLC) s1 Hf) as (s' & E & Hb); [rewrite Es; unfold SLCBUF_SIZE; simpl; lia|].
  exists s'. split; [|done].
  rewrite (run_bind_ok _ _ _ _ _ E1). unfold do_opt_slc, of_ty. rewrite run_bind_gets.
  assert (terminit (ty s1) = true) as -> by exact Ht. exact E.
Qed.

(** The handling of a triplet that the client has acknowledged, or that says what the server
    has already. *)
Lemma process_slc_ignored func flag val s :
  0 < func <= Z.of_nat NSLC ->
  level flag = level (cur_flag (slc_at (Z.to_nat func) s)) /\
    val = cur_val (slc_at (Z.to_nat func) s) \/ Z.land flag SLC_ACK <> 0 ->
  process_slc func flag val s = (Ok (), s).
Proof.
  intros Hf Hc. unfold process_slc.
  assert ((Z.of_nat NSLC <? func) = false) as -> by (apply Z.ltb_ge; lia).
  assert ((func =? 0) = false) as -> by (apply Z.eqb_neq; lia).
  rewrite run_bind_gets. cbv zeta. destruct Hc as [[-> ->]|Ha].
  - by rewrite !Z.eqb_refl.
  - apply Z.eqb_neq in Ha. rewrite Ha. simpl. rewrite orb_true_r, andb_true_r. by case_match.
Qed.

(** ** Line mode *)

(** "Don't do anything unless client is asking us to change modes": [clientstat] does
    nothing about a WILL LINEMODE when [linemode] is 1, but [localstat] stores in it the bit
    EXTPROC of the terminal's flags, and then the client is sent the edit mode again and
    [linemode] is set anew. *)
Theorem linemode_asked_again (s : tnd) :
  lmodetype (md s) = REAL_LINEMODE -> 1 < EXTPROC ->
  (linemode (md s) = 1 -> out_log (clientstat TELOPT_LINEMODE WILL 0 s).2 = out_log s) /\
  (linemode (md s) = EXTPROC ->
   linemode (md (clientstat TELOPT_LINEMODE WILL 0 s).2) = 1 /\
   out_log (clientstat TELOPT_LINEMODE WILL 0 s).2 =
     out_log s ++ [[IAC; SB; TELOPT_LINEMODE; LM_MODE; u8 (edit_mode (pty (ty s))); IAC; SE]]).
Proof.
  intros Hl He. change (clientstat TELOPT_LINEMODE WILL 0) with (clientstat_linemode WILL).
  unfold clientstat_linemode, init_termbuf. rewrite !run_bind_modify.
  set (s1 := set_uselinemode _ _). assert (uselinemode (md s1) = 1) as U by done.
  assert (linemode (md s1) = linemode (md s)) as L by done.
  assert (lmodetype (md s1) = REAL_LINEMODE) as Lt by (rewrite <- Hl; done).
  assert (termbuf (ty s1) = pty (ty s)) as Ht by done.
  assert (out_log s1 = out_log s) as Ho by done. clearbody s1.
  unfold of_md. rewrite run_bind_gets. cbv zeta. change (id (md s1)) with (md s1).
  split; intros Hm; rewrite Hm in L; rewrite U, L; [by unfold out_log in *; simpl; rewrite app_nil_r|].
  assert ((1 =? EXTPROC) = false) as E1 by (apply Z.eqb_neq; lia). rewrite E1.
  unfold of_ty. rewrite run_bind_gets, Ht. unfold id. rewrite Lt.
  change (REAL_LINEMODE =? KLUDGE_LINEMODE) with false. cbn [andb mwhen].
  rewrite run_bind_ret, run_bind_gets. cbv zeta. rewrite U, L, Lt, E1.
  change (REAL_LINEMODE =? REAL_LINEMODE) with true. change (1 =? 0) with false.
  cbn [andb negb mwhen].
  match goal with |- context [send_mode ?m] => set (e := m) end.
  destruct (output_data_spec [IAC; SB; TELOPT_LINEMODE; LM_MODE; u8 e; IAC; SE]
              (set_useeditmode e s1)) as (b & n & E & Eo); [done|].
  unfold send_mode. rewrite !run_bind_assoc, run_bind_modify, !run_bind_assoc.
  rewrite (run_bind_ok _ _ _ _ _ Eo), !run_bind_modify.
  change (out_log (set_useeditmode e s1)) with (out_log s1) in E. rewrite Ho in E.
  unfold tty_setlinemode, set_termbuf_, init_termbuf.
  rewrite !run_bind_assoc, !run_bind_modify, !run_bind_assoc, !run_bind_modify.
  rewrite <- E. unfold netflush, out_log, modify.
  case_decide; cbn; split; rewrite ?app_nil_r; done.
Qed.

End Slc.
