(* ===== verification/TelnetFacts.v ===== *)
(** * telnet: the handlers as the machine of [TelnetNeg]

    As [TelnetdFacts] does for the server: the client's handler of a message about an option
    that it negotiates by the common rules does what [receive] does, and everything else it
    does only starts requests. *)

From Stdlib Require Import ZArith Lia List Bool.
From stdpp Require Import base tactics list numbers functions.
From S2P Require Import Prelude TelnetNeg TelnetOpts Telnet TelnetFocus.

Import Client.
Local Open Scope Z_scope.

Definition cview (s : tn) : view :=
  mkView (options s) (do_dont_resp s) (will_wont_resp s) (netoring s) (telnetport s, display s).

(** A connection to a telnet port, with or without a display. *)
Definition connected (disp : bool) (c : Z * bool) : Prop := 0 <= c.1 /\ c.2 = disp.

Definition upd_counter (d : bool) (f : (Z -> Z) -> Z -> Z) : C unit :=
  if d then upd_will_wont f else upd_do_dont f.

Definition send_fn (d n : bool) : Z -> bool -> C unit :=
  match d, n with
  | true, true => send_will | true, false => send_wont
  | false, true => send_do | false, false => send_dont
  end.

(** ** About the option itself *)

Section Own.
Context (mine : bool) (o : Z).

Abbreviation side_ := (vside cview mine o).
Abbreviation Gives_ := (Gives cview mine o).

Lemma c_gives_st v s x :
  side_ s = x ->
  Gives_ (upd_options (set_bit v (st_bit mine) o)) () s (mkSide v (want x) (resp x)) [].
Proof.
  intros <-. eexists. split; [done|]. split; [done|]. split; [|by rewrite app_nil_r].
  exact (side_set_st _ _ _ _ _ _).
Qed.

Lemma c_gives_want v s x :
  side_ s = x ->
  Gives_ (upd_options (set_bit v (want_bit mine) o)) () s (mkSide (st x) v (resp x)) [].
Proof.
  intros <-. eexists. split; [done|]. split; [done|]. split; [|by rewrite app_nil_r].
  exact (side_set_want _ _ _ _ _ _).
Qed.

Lemma c_gives_counter (f : Z -> Z) s x :
  side_ s = x ->
  Gives_ (upd_counter mine (fun g => <[o := f (g o)]> g)) () s
         (mkSide (st x) (want x) (f (resp x))) [].
Proof.
  intros <-. unfold Gives, vside, vnegs, v_msgs, cview, vcfg, upd_counter.
  destruct mine; (eexists; split; [done|]; split; [done|]; split; [|by rewrite app_nil_r]);
    unfold side_of; simpl; by rewrite fn_lookup_insert.
Qed.

Lemma gives_net_add n s x :
  0 <= (vcfg cview s).1 -> side_ s = x -> Gives_ (net_add [IAC; cmd_of mine n; o]) () s x [n].
Proof.
  intros Hp <-. unfold net_add. exists (set_netoring (netoring s ++ [[IAC; cmd_of mine n; o]]) s).
  simpl in Hp. apply Z.ltb_ge in Hp. split; [unfold modify; by rewrite Hp|].
  split; [done|]. split; [done|]. unfold vnegs, v_msgs, cview. simpl.
  rewrite omap_app, negs_of_app. f_equal.
  destruct mine, n; simpl; unfold neg_on; simpl; by rewrite Z.eqb_refl.
Qed.

(** What leaves the option alone. *)
Lemma gives_quiet (f : tn -> tn) s x :
  side_ s = x -> (forall s, same cview mine o s (f s)) -> Gives_ (modify f) () s x [].
Proof. intros Hx Hf. apply gives_same; [done|]. exists (f s). by split. Qed.

End Own.

Lemma c_gives_send mine o n s x :
  0 <= (vcfg cview s).1 -> vside cview mine o s = x ->
  Gives cview mine o (send_fn mine n o false) () s x [n].
Proof.
  intros Hp Hx. pose proof (gives_net_add mine o n s x Hp Hx) as Hg. by destruct mine, n.
Qed.

Lemma c_gives_answer_do o n s x :
  vside cview false o s = x ->
  Gives cview false o (answer_do_dont o n) () s (mkSide (st x) (want x) (answered n x)) [].
Proof.
  intros <-. set (x := vside cview false o s). unfold answer_do_dont, answered.
  apply gives_get. change (do_dont_resp s o) with (resp x).
  destruct (resp x =? 0) eqn:R; cbn [negb mwhen].
  { apply Z.eqb_eq in R. rewrite <- R. by apply gives_ret. }
  eapply gives_then; [by apply (c_gives_counter false o (fun z => swrap 8 (z - 1)))|].
  intros s1 E1 _. apply gives_get.
  assert (do_dont_resp s1 o = swrap 8 (resp x - 1)) as -> by exact (f_equal resp E1).
  assert (my_state_is_do (options s1) o = st x) as -> by exact (f_equal st E1).
  cbv zeta. destruct (negb _ && eqb (st x) n); cbn [mwhen].
  - exact (c_gives_counter false o (fun z => swrap 8 (z - 1)) _ _ E1).
  - by apply gives_ret.
Qed.

Lemma c_gives_answer_will o n s x :
  vside cview true o s = x ->
  Gives cview true o (answer_will_wont o n) () s (mkSide (st x) (want x) (answered n x)) [].
Proof.
  intros <-. set (x := vside cview true o s). unfold answer_will_wont, answered.
  apply gives_get. change (will_wont_resp s o) with (resp x).
  destruct (resp x =? 0) eqn:R; cbn [negb mwhen].
  { apply Z.eqb_eq in R. rewrite <- R. by apply gives_ret. }
  eapply gives_then; [by apply (c_gives_counter true o (fun z => swrap 8 (z - 1)))|].
  intros s1 E1 _. apply gives_get.
  assert (will_wont_resp s1 o = swrap 8 (resp x - 1)) as -> by exact (f_equal resp E1).
  assert (my_state_is_will (options s1) o = st x) as -> by exact (f_equal st E1).
  cbv zeta. destruct (negb _ && eqb (st x) n); cbn [mwhen].
  - exact (c_gives_counter true o (fun z => swrap 8 (z - 1)) _ _ E1).
  - by apply gives_ret.
Qed.

Lemma gives_when_quiet mine o b (f : tn -> tn) s x :
  vside cview mine o s = x -> (forall s, same cview mine o s (f s)) ->
  Gives cview mine o (mwhen b (modify f)) () s x [].
Proof. intros Hx Hf. destruct b; [by apply gives_quiet|by apply gives_ret]. Qed.

(** [willoption] is [receive], but for TM. *)
Lemma c_willoption_receives o s x' os :
  0 <= telnetport s -> o <> TELOPT_TM ->
  receive (will_new_state_ok o) true (vside cview false o s) = (x', os) ->
  Gives cview false o (willoption o) () s x' os.
Proof.
  intros Hp H1 R. apply Z.eqb_neq in H1. unfold willoption.
  eapply gives_then; [by apply c_gives_answer_do|]. intros s1 E1 C1. apply gives_get.
  rewrite H1.
  assert (do_dont_resp s1 o = answered true (vside cview false o s)) as ->
    by exact (f_equal resp E1).
  assert (my_want_state_is_do (options s1) o = want (vside cview false o s)) as ->
    by exact (f_equal want E1).
  unfold receive in R. set (x := vside cview false o s) in *. set (r := answered true x) in *.
  clearbody r. clearbody x.
  rewrite eqb_is_true in R. destruct ((r =? 0) && negb (want x)) eqn:C.
  2: { injection R as <- <-. exact (c_gives_st false o true _ _ E1). }
  eapply gives_then; [by apply gives_when_quiet|]. intros s2 E2 C2.
  assert (0 <= (vcfg cview s2).1) as P2 by (rewrite C2, C1; exact Hp).
  destruct (will_new_state_ok o); injection R as <- <-.
  - eapply gives_last.
    { eapply gives_then; [by apply (c_gives_want false o true)|]. intros s3 E3 C3.
      eapply gives_last; [apply (c_gives_send false o true); [rewrite C3; exact P2|done]|].
      intros s4 E4 _. by apply gives_quiet. }
    intros s5 E5 _. exact (c_gives_st false o true _ _ E5).
  - apply andb_true_iff in C as [_ C]. apply negb_true_iff in C. eapply gives_last.
    { eapply gives_then; [by apply (c_gives_counter false o (fun z => swrap 8 (z + 1)))|].
      intros s3 E3 C3. apply (c_gives_send false o false); [rewrite C3; exact P2|done]. }
    intros s5 E5 _. cbn [want] in E5. rewrite C in E5. exact (c_gives_st false o true _ _ E5).
Qed.

(** [wontoption] is [receive], but for TM. *)
Lemma c_wontoption_receives ok o s x' os :
  0 <= telnetport s -> o <> TELOPT_TM ->
  receive ok false (vside cview false o s) = (x', os) ->
  Gives cview false o (wontoption o) () s x' os.
Proof.
  intros Hp H1 R. apply Z.eqb_neq in H1. unfold wontoption.
  eapply gives_then; [by apply c_gives_answer_do|]. intros s1 E1 C1. apply gives_get.
  rewrite H1.
  assert (do_dont_resp s1 o = answered false (vside cview false o s)) as ->
    by exact (f_equal resp E1).
  assert (my_want_state_is_do (options s1) o = want (vside cview false o s)) as ->
    by exact (f_equal want E1).
  unfold receive in R. set (x := vside cview false o s) in *. set (r := answered false x) in *.
  clearbody r. clearbody x.
  rewrite eqb_is_false, negb_involutive in R. destruct ((r =? 0) && want x) eqn:C.
  2: { injection R as <- <-. eapply gives_then; [by apply gives_ret|].
       intros s2 E2 _. exact (c_gives_st false o false _ _ E2). }
  eapply gives_then; [by apply gives_when_quiet|]. intros s2 E2 C2.
  eapply gives_then; [by apply (c_gives_want false o false)|]. intros s3 E3 C3.
  assert (0 <= (vcfg cview s3).1) as P3 by (rewrite C3, C2, C1; exact Hp).
  apply gives_get. assert (my_state_is_do (options s3) o = st x) as -> by exact (f_equal st E3).
  injection R as <- <-. eapply (gives_last _ _ _) with (x := vside cview false o s3).
  { destruct (st x); cbn [mwhen]; [by apply (c_gives_send false o false)|by apply gives_ret]. }
  rewrite E3. intros s4 E4 _. eapply gives_then; [by apply gives_quiet|].
  intros s5 E5 _. exact (c_gives_st false o false _ _ E5).
Qed.

(** The options that [dooption] accepts, given that DISPLAY is set or not. *)
Definition do_ok (disp : bool) (o : Z) : bool :=
  bool_decide (o ∈ [TELOPT_BINARY; TELOPT_NAWS; TELOPT_TSPEED; TELOPT_LFLOW; TELOPT_TTYPE;
                    TELOPT_SGA; TELOPT_NEW_ENVIRON])
  || ((o =? TELOPT_XDISPLOC) && disp).

(** [dooption] is [receive], but for TM, LINEMODE and AUTHENTICATION. *)
Lemma c_dooption_receives o s x' os :
  0 <= telnetport s -> o <> TELOPT_TM -> o <> TELOPT_LINEMODE -> o <> TELOPT_AUTHENTICATION ->
  receive (do_ok (display s) o) true (vside cview true o s) = (x', os) ->
  Gives cview true o (dooption o) () s x' os.
Proof.
  intros Hp H1 H2 H3 R. apply Z.eqb_neq in H1, H2, H3. unfold dooption.
  eapply gives_then; [by apply c_gives_answer_will|]. intros s1 E1 C1. apply gives_get.
  rewrite H1, H2.
  assert (will_wont_resp s1 o = answered true (vside cview true o s)) as ->
    by exact (f_equal resp E1).
  assert (my_want_state_is_will (options s1) o = want (vside cview true o s)) as ->
    by exact (f_equal want E1).
  assert (do_new_state_ok s1 o = do_ok (display s) o) as ->.
  { unfold do_new_state_ok, do_ok. rewrite H3, orb_false_r. by injection C1 as _ ->. }
  assert (0 <= (vcfg cview s1).1) as P1 by (rewrite C1; exact Hp).
  unfold receive in R. set (x := vside cview true o s) in *. set (r := answered true x) in *.
  clearbody r. clearbody x.
  rewrite eqb_is_true in R. destruct (r =? 0).
  2: { injection R as <- <-. exact (c_gives_st true o true _ _ E1). }
  destruct (want x) eqn:W; cbn [andb negb] in *.
  { injection R as <- <-. exact (c_gives_st true o true _ _ E1). }
  destruct (do_ok (display s) o); injection R as <- <-; eapply gives_last.
  - eapply gives_then; [by apply (c_gives_want true o true)|]. intros s3 E3 C3.
    eapply gives_last; [apply (c_gives_send true o true); [rewrite C3; exact P1|done]|].
    intros s4 E4 _. by apply gives_quiet.
  - intros s5 E5 _. exact (c_gives_st true o true _ _ E5).
  - eapply gives_then; [by apply (c_gives_counter true o (fun z => swrap 8 (z + 1)))|].
    intros s3 E3 C3. apply (c_gives_send true o false); [rewrite C3; exact P1|done].
  - intros s5 E5 _. exact (c_gives_st true o true _ _ E5).
Qed.

(** [dontoption] is [receive]. *)
Lemma c_dontoption_receives ok o s x' os :
  0 <= telnetport s -> receive ok false (vside cview true o s) = (x', os) ->
  Gives cview true o (dontoption o) () s x' os.
Proof.
  intros Hp R. unfold dontoption.
  eapply gives_then; [by apply c_gives_answer_will|]. intros s1 E1 C1. apply gives_get.
  assert (will_wont_resp s1 o = answered false (vside cview true o s)) as ->
    by exact (f_equal resp E1).
  assert (my_want_state_is_will (options s1) o = want (vside cview true o s)) as ->
    by exact (f_equal want E1).
  unfold receive in R. set (x := vside cview true o s) in *. set (r := answered false x) in *.
  clearbody r. clearbody x.
  rewrite eqb_is_false, negb_involutive in R. destruct ((r =? 0) && want x) eqn:C.
  2: { injection R as <- <-. exact (c_gives_st true o false _ _ E1). }
  eapply gives_then; [by apply gives_when_quiet|]. intros s2 E2 C2.
  eapply gives_then; [by apply (c_gives_want true o false)|]. intros s3 E3 C3.
  assert (0 <= (vcfg cview s3).1) as P3 by (rewrite C3, C2, C1; exact Hp).
  apply gives_get. assert (my_state_is_will (options s3) o = st x) as -> by exact (f_equal st E3).
  injection R as <- <-. eapply (gives_last _ _ _) with (x := vside cview true o s3).
  { destruct (st x); cbn [mwhen]; [by apply (c_gives_send true o false)|by apply gives_ret]. }
  rewrite E3. intros s4 E4 _. eapply gives_then; [by apply gives_quiet|].
  intros s5 E5 _. exact (c_gives_st true o false _ _ E5).
Qed.

(** ** About anything else *)

Section Others.
Context (mine : bool) (o : Z) (G : bool -> Prop) (disp : bool).

Abbreviation keeps := (Keeps cview mine o G (connected disp)).
Abbreviation same_ := (same cview mine o).

Lemma c_keeps_options d mask o' v :
  elsewhere mine o d o' -> mask = st_bit d \/ mask = want_bit d ->
  keeps (upd_options (set_bit v mask o')).
Proof.
  intros He Hm. apply run_keeps_modify. intros s. split; [done|]. split; [|done].
  unfold vside, cview. simpl.
  assert (exists k, mask = 2 ^ k /\
    ((k = if d then 0 else 2) \/ (k = if d then 1 else 3))) as (k & -> & Hk).
  { destruct d, Hm as [-> | ->]; [exists 0|exists 1|exists 2|exists 3]; auto. }
  destruct v; simpl; [by eapply side_on_elsewhere|by eapply side_off_elsewhere].
Qed.

Lemma c_keeps_counter d o' (f : Z -> Z) :
  elsewhere mine o d o' -> keeps (upd_counter d (fun g => <[o' := f (g o')]> g)).
Proof.
  intros He. destruct d; apply run_keeps_modify; intros s;
    (split; [done|]; split; [|done]); unfold vside, cview, side_of; simpl;
    destruct mine; try done; destruct He as [He|He]; try done; by rewrite fn_lookup_insert_ne.
Qed.

Lemma keeps_net_add d n o' : elsewhere mine o d o' -> keeps (net_add [IAC; cmd_of d n; o']).
Proof.
  intros He. apply run_keeps_modify. intros s. destruct (telnetport s <? 0); [done|].
  split; [done|]. split; [done|]. unfold vnegs, v_msgs, cview. simpl.
  rewrite omap_app, negs_of_app.
  assert (neg_on mine o (cmd_of d n, o') = None) as Hn.
  { destruct d, n; unfold neg_on; simpl; destruct (Z.eqb_spec o' o) as [->|]; try done;
      destruct mine; try done; by destruct He. }
  destruct d, n; simpl in *; by rewrite Hn, app_nil_r.
Qed.

Lemma c_keeps_send_elsewhere d n o' init : elsewhere mine o d o' -> keeps (send_fn d n o' init).
Proof.
  intros He. pose proof (keeps_net_add d n o' He) as Hq.
  destruct d, n; simpl in *; apply run_keeps_bind; try apply run_keeps_get; intros g; case_match;
    try apply run_keeps_ret; apply run_keeps_bind; try (intros _; exact Hq); apply run_keeps_when, run_keeps_bind.
  - exact (c_keeps_options true MY_WANT_STATE_WILL o' true He (or_intror eq_refl)).
  - intros _. exact (c_keeps_counter true o' (fun z => swrap 8 (z + 1)) He).
  - exact (c_keeps_options true MY_WANT_STATE_WILL o' false He (or_intror eq_refl)).
  - intros _. exact (c_keeps_counter true o' (fun z => swrap 8 (z + 1)) He).
  - exact (c_keeps_options false MY_WANT_STATE_DO o' true He (or_intror eq_refl)).
  - intros _. exact (c_keeps_counter false o' (fun z => swrap 8 (z + 1)) He).
  - exact (c_keeps_options false MY_WANT_STATE_DO o' false He (or_intror eq_refl)).
  - intros _. exact (c_keeps_counter false o' (fun z => swrap 8 (z + 1)) He).
Qed.

End Others.

(** A request about the option itself is [initiate]. *)
Lemma send_initiates mine o n s x' os :
  0 <= telnetport s -> initiate n (vside cview mine o s) = (x', os) ->
  Gives cview mine o (send_fn mine n o true) () s x' os.
Proof.
  intros Hp I. set (x := vside cview mine o s) in *.
  assert (Gives cview mine o (send_fn mine n o true) () s x' os <->
    Gives cview mine o
      (if ((resp x =? 0) && eqb (st x) n || eqb (want x) n) then mret ()
       else _ ← (_ ← upd_options (set_bit n (want_bit mine) o);
                 upd_counter mine (fun g => <[o := swrap 8 (g o + 1)]> g));
            net_add [IAC; cmd_of mine n; o]) () s x' os) as ->.
  { unfold x, vside, cview; simpl.
    destruct mine, n; simpl; unfold send_will, send_wont, send_do, send_dont, get, Gives;
      cbv [mbind M_bind]; simpl; by bool_eqb. }
  unfold initiate in I. destruct (_ || _); injection I as <- <-; [by apply gives_ret|].
  eapply gives_then.
  { eapply gives_then; [by apply c_gives_want|]. intros s1 E1 C1.
    by apply (c_gives_counter mine o (fun z => swrap 8 (z + 1))). }
  intros s2 E2 C2. apply gives_net_add; [rewrite C2; exact Hp|done].
Qed.

(** ** All that the client does *)

(** Whether the client accepts an option. *)
Definition accepts (disp mine : bool) (o : Z) : bool :=
  if mine then do_ok disp o else will_new_state_ok o.

Section All.
Context (mine : bool) (o : Z) (disp : bool).

(** A request to switch on needs an option that the client accepts. *)
Definition cli_allowed (n : bool) : Prop := n = true -> accepts disp mine o = true.

Abbreviation keeps := (Keeps cview mine o cli_allowed (connected disp)).

Lemma c_keeps_send d n o' :
  (n = true -> elsewhere mine o d o' \/ accepts disp d o' = true) -> keeps (send_fn d n o' true).
Proof.
  intros Hn. destruct (decide (mine = d /\ o = o')) as [[<- <-]|He].
  - intros s [Hp _]. destruct (initiate n (vside cview mine o s)) as [x' os] eqn:I.
    destruct (send_initiates mine o n s x' os Hp I) as (s' & E & C & X & N).
    rewrite E. split; [done|]. exists (os ++ []). cbn [snd]. rewrite app_nil_r at 2.
    split; [|done]. rewrite X. eapply (moves_cons _ n); [|exact I|constructor].
    intros ->. destruct (Hn eq_refl) as [[?|?]|?]; done.
  - apply c_keeps_send_elsewhere. unfold elsewhere.
    destruct (decide (mine = d)), (decide (o = o')); tauto.
Qed.

(** The options of which this is not the place to speak: what the client does about them is
    its own. *)
Context (Hmine : mine = true -> o <> TELOPT_TM /\ o <> TELOPT_LINEMODE /\ o <> TELOPT_AUTHENTICATION).
Context (Hhis : mine = false -> o <> TELOPT_TM /\ o <> TELOPT_SGA /\ o <> TELOPT_LOGOUT).

Lemma else_mine o' :
  o' = TELOPT_TM \/ o' = TELOPT_LINEMODE \/ o' = TELOPT_AUTHENTICATION -> elsewhere mine o true o'.
Proof. intros Ho. unfold elsewhere. destruct mine; [right|by left].
  by destruct (Hmine eq_refl) as (?&?&?), Ho as [->|[->| ->]].
Qed.

Lemma else_his o' :
  o' = TELOPT_TM \/ o' = TELOPT_SGA \/ o' = TELOPT_LOGOUT -> elsewhere mine o false o'.
Proof. intros Ho. unfold elsewhere. destruct mine; [by left|right].
  by destruct (Hhis eq_refl) as (?&?&?), Ho as [->|[->| ->]].
Qed.

Lemma c_keeps_send_do o' : will_new_state_ok o' = true -> keeps (send_do o' true).
Proof. intros. apply (c_keeps_send false true). by right. Qed.
Lemma c_keeps_send_dont o' : keeps (send_dont o' true).
Proof. by apply (c_keeps_send false false). Qed.
Lemma c_keeps_send_will o' : do_ok disp o' = true -> keeps (send_will o' true).
Proof. intros. apply (c_keeps_send true true). by right. Qed.
Lemma c_keeps_send_wont o' : keeps (send_wont o' true).
Proof. by apply (c_keeps_send true false). Qed.

Lemma do_ok_display o' : do_ok false o' = true -> do_ok disp o' = true.
Proof. unfold do_ok. rewrite andb_false_r, orb_false_r. by intros ->. Qed.

Local Ltac word He :=
  first [ exact (c_keeps_options _ _ _ _ _ MY_STATE_WILL _ true He (or_introl eq_refl))
        | exact (c_keeps_options _ _ _ _ _ MY_STATE_WILL _ false He (or_introl eq_refl))
        | exact (c_keeps_options _ _ _ _ _ MY_WANT_STATE_WILL _ true He (or_intror eq_refl))
        | exact (c_keeps_options _ _ _ _ _ MY_WANT_STATE_WILL _ false He (or_intror eq_refl))
        | exact (c_keeps_options _ _ _ _ _ MY_STATE_DO _ true He (or_introl eq_refl))
        | exact (c_keeps_options _ _ _ _ _ MY_STATE_DO _ false He (or_introl eq_refl))
        | exact (c_keeps_options _ _ _ _ _ MY_WANT_STATE_DO _ true He (or_intror eq_refl))
        | exact (c_keeps_options _ _ _ _ _ MY_WANT_STATE_DO _ false He (or_intror eq_refl))
        | exact (c_keeps_counter _ _ _ _ _ _ (fun z => swrap 8 (z + 1)) He)
        | exact (c_keeps_counter _ _ _ _ _ _ (fun z => swrap 8 (z - 1)) He)
        | exact (c_keeps_send_elsewhere _ _ _ _ true true _ false He)
        | exact (c_keeps_send_elsewhere _ _ _ _ true false _ false He)
        | exact (c_keeps_send_elsewhere _ _ _ _ false true _ false He)
        | exact (c_keeps_send_elsewhere _ _ _ _ false false _ false He) ].

Local Ltac client_tac He :=
  repeat first
    [ progress intros
    | lazymatch goal with
      | |- Keeps _ _ _ _ _ (mret _) => apply run_keeps_ret
      | |- Keeps _ _ _ _ _ (mbind _ get) => apply keeps_get_bind
      | |- Keeps _ _ _ _ _ (mbind _ _) => apply run_keeps_bind
      | |- Keeps _ _ _ _ _ (mwhen _ _) => apply run_keeps_when
      | |- Keeps _ _ _ _ _ get => apply run_keeps_get
      | |- Keeps _ _ _ _ _ (modify _) => by apply run_keeps_modify
      | |- Keeps _ _ _ _ _ (setconnmode _) => by apply run_keeps_modify
      | |- Keeps _ _ _ _ _ slc_init => by apply run_keeps_modify
      | |- Keeps _ _ _ _ _ settimer_modenegotiated => by apply run_keeps_modify
      | |- Keeps _ _ _ _ _ (send_do _ true) => by apply c_keeps_send_do
      | |- Keeps _ _ _ _ _ (send_dont _ true) => apply c_keeps_send_dont
      | |- Keeps _ _ _ _ _ (send_will _ true) => by apply c_keeps_send_will, do_ok_display
      | |- Keeps _ _ _ _ _ (send_wont _ true) => apply c_keeps_send_wont
      | |- Keeps _ _ _ _ _ (if ?x then _ else _) => destruct x eqn:?
      end
    | word He ].

Lemma c_keeps_willoption o' : elsewhere mine o false o' -> keeps (willoption o').
Proof. intros He. unfold willoption, answer_do_dont. client_tac He. Qed.

Lemma c_keeps_wontoption o' : elsewhere mine o false o' -> keeps (wontoption o').
Proof. intros He. unfold wontoption, answer_do_dont. client_tac He. Qed.

Lemma c_keeps_dontoption o' : elsewhere mine o true o' -> keeps (dontoption o').
Proof. intros He. unfold dontoption, answer_will_wont. client_tac He. Qed.

Lemma c_keeps_dooption o' : elsewhere mine o true o' -> keeps (dooption o').
Proof.
  intros He. pose proof (else_mine TELOPT_TM ltac:(by left)) as Htm.
  pose proof (else_mine TELOPT_LINEMODE ltac:(by right; left)) as Hlm.
  pose proof (else_his TELOPT_SGA ltac:(by right; left)) as Hsga.
  unfold dooption, answer_will_wont.
  repeat first [progress client_tac He | word Htm | word Hlm | word Hsga].
Qed.

(** The requests of the program. *)

Lemma keeps_tel_enter_binary rw : keeps (tel_enter_binary rw).
Proof. unfold tel_enter_binary. client_tac I. Qed.
Lemma keeps_tel_leave_binary rw : keeps (tel_leave_binary rw).
Proof. unfold tel_leave_binary. client_tac I. Qed.

Lemma c_keeps_telnet_requests eight : keeps (telnet_requests eight).
Proof.
  unfold telnet_requests. apply keeps_get_bind. intros s [_ Hd]. simpl in Hd. apply run_keeps_when.
  pose proof (else_mine TELOPT_LINEMODE ltac:(by right; left)) as Hlm.
  pose proof (else_mine TELOPT_AUTHENTICATION ltac:(by right; right)) as Hau.
  apply run_keeps_bind; [apply run_keeps_when, (c_keeps_send true true); by left|intros _].
  apply run_keeps_bind; [by apply c_keeps_send_do|intros _].
  repeat (apply run_keeps_bind; [by apply c_keeps_send_will, do_ok_display|intros _]).
  apply run_keeps_bind; [apply (c_keeps_send true true); by left|intros _].
  apply run_keeps_bind; [by apply c_keeps_send_will, do_ok_display|intros _].
  apply run_keeps_bind; [by apply c_keeps_send_do|intros _].
  apply run_keeps_bind; [|intros _; apply run_keeps_when, keeps_tel_enter_binary].
  destruct (display s) eqn:D; [|apply run_keeps_ret]. apply c_keeps_send_will. by rewrite <- Hd.
Qed.

Lemma keeps_dokludgemode : keeps dokludgemode.
Proof. unfold dokludgemode. client_tac I. Qed.

Lemma keeps_dolinemode : keeps dolinemode.
Proof.
  unfold dolinemode. pose proof (else_mine TELOPT_LINEMODE ltac:(by right; left)) as Hlm.
  repeat first [progress client_tac I | apply (c_keeps_send true true); by left].
Qed.

Lemma keeps_docharmode : keeps docharmode.
Proof. unfold docharmode. client_tac I. Qed.

Lemma keeps_togrbinary val : keeps (togrbinary val).
Proof.
  unfold togrbinary. apply keeps_get_bind. intros s _.
  repeat case_match; apply run_keeps_when; apply keeps_tel_enter_binary || apply keeps_tel_leave_binary.
Qed.
Lemma keeps_togxbinary val : keeps (togxbinary val).
Proof.
  unfold togxbinary. apply keeps_get_bind. intros s _.
  repeat case_match; apply run_keeps_when; apply keeps_tel_enter_binary || apply keeps_tel_leave_binary.
Qed.

Lemma keeps_logout : keeps logout.
Proof. apply (c_keeps_send false true). left. apply else_his. by right; right. Qed.

End All.
