(* ===== verification/TelnetPair.v ===== *)
(** * A telnet and a telnetd that talk to each other

    Each end works on its own, in any order: it takes the next negotiation message that the
    other has sent, or it does something of its own accord.  For each option that both treat
    by the common rules, seen in one direction, the pair is a system of [TelnetNeg]; so the two
    ends agree on it whenever no message about it is under way. *)

From Stdlib Require Import ZArith Lia List Bool.
From stdpp Require Import base tactics list numbers functions relations sets.
From S2P Require Import Prelude TelnetNeg TelnetOpts Telnetd TelnetdStat Telnet TelnetFocus.
From S2P Require Import TelnetdFacts TelnetFacts.

Local Open Scope Z_scope.

(** ** The pair *)

(** [srv_got], [cli_got]: the negotiation messages that an end has taken. *)
Record pair := mkPair {
  srv : tnd; cli : Client.tn; srv_got : list (Z * Z); cli_got : list (Z * Z) }.

(** The negotiation messages that an end has sent. *)
Definition srv_msgs (p : pair) : list (Z * Z) := v_msgs (tview (srv p)).
Definition cli_msgs (p : pair) : list (Z * Z) := v_msgs (cview (cli p)).

Section Pair.
Context `{Termios_h}.

(** The states TS_WILL, TS_WONT, TS_DO and TS_DONT of the two [telrcv]. *)
Definition srv_handle (c o : Z) : T unit :=
  if c =? WILL then willoption o else if c =? WONT then wontoption o
  else if c =? DO then dooption o else dontoption o.

Definition cli_handle (c o : Z) : Client.C unit :=
  if c =? WILL then Client.willoption o else if c =? WONT then Client.wontoption o
  else if c =? DO then Client.dooption o else Client.dontoption o.

(** What the server does of its own accord: requests when it starts, the terminal or its
    settings changed by a process, a suboption of the client. *)
Inductive srv_does : T unit -> Prop :=
  | does_getterminaltype : srv_does getterminaltype_requests
  | does_telnet : srv_does telnet_requests
  | does_telnet_after : srv_does telnet_requests_after
  | does_process t : srv_does (modify (set_pty t))
  | does_localstat : srv_does (_ ← init_termbuf; localstat)
  | does_packet t : srv_does (_ ← copy_termbuf t; localstat)
  | does_clientstat code p1 p2 : srv_does (clientstat code p1 p2)
  | does_lm_mode v : srv_does (_ ← modify (set_useeditmode v); clientstat LM_MODE 0 0)
  | does_slc buf : srv_does (_ ← start_slc true; _ ← do_opt_slc buf; end_slc0).

(** What the client does: requests when it starts, commands of the user. *)
Inductive cli_does : Client.C unit -> Prop :=
  | does_requests eight : cli_does (Client.telnet_requests eight)
  | does_kludge : cli_does Client.dokludgemode
  | does_line : cli_does Client.dolinemode
  | does_char : cli_does Client.docharmode
  | does_rbinary v : cli_does (Client.togrbinary v)
  | does_xbinary v : cli_does (Client.togxbinary v)
  | does_logout : cli_does Client.logout.

Inductive pair_step : pair -> pair -> Prop :=
  | srv_takes p c o s' :
      srv_got p ++ [(c, o)] `prefix_of` cli_msgs p -> srv_handle c o (srv p) = (Ok (), s') ->
      pair_step p (mkPair s' (cli p) (srv_got p ++ [(c, o)]) (cli_got p))
  | cli_takes p c o s' :
      cli_got p ++ [(c, o)] `prefix_of` srv_msgs p -> cli_handle c o (cli p) = (Ok (), s') ->
      pair_step p (mkPair (srv p) s' (srv_got p) (cli_got p ++ [(c, o)]))
  | srv_acts p m s' :
      srv_does m -> m (srv p) = (Ok (), s') ->
      pair_step p (mkPair s' (cli p) (srv_got p) (cli_got p))
  | cli_acts p m s' :
      cli_does m -> m (cli p) = (Ok (), s') ->
      pair_step p (mkPair (srv p) s' (srv_got p) (cli_got p)).

(** Both programs start with all options off and nothing sent. *)
Definition fresh (disp : bool) (p : pair) : Prop :=
  (forall o, options (ng (srv p)) o = 0 /\ do_dont_resp (ng (srv p)) o = 0 /\
             will_wont_resp (ng (srv p)) o = 0) /\
  (forall o, Client.options (cli p) o = 0 /\ Client.do_dont_resp (cli p) o = 0 /\
             Client.will_wont_resp (cli p) o = 0) /\
  out_log (srv p) = [] /\ Client.netoring (cli p) = [] /\ srv_got p = [] /\ cli_got p = [] /\
  connected disp (vcfg cview (cli p)).

(** ** One option of the pair *)

(** An option in the direction where the server says "will" ([sw]) or the client does. *)
Definition regular (sw : bool) (o : Z) : bool :=
  if sw then bool_decide (o ∈ [TELOPT_ECHO; TELOPT_BINARY; TELOPT_STATUS])
  else bool_decide (o ∈ [TELOPT_BINARY; TELOPT_NAWS; TELOPT_TSPEED; TELOPT_LFLOW; TELOPT_TTYPE;
    TELOPT_SGA; TELOPT_NEW_ENVIRON; TELOPT_XDISPLOC; TELOPT_OLD_ENVIRON]).

Definition srv_side (sw : bool) (o : Z) (p : pair) : side := vside tview sw o (srv p).
Definition cli_side (sw : bool) (o : Z) (p : pair) : side := vside cview (negb sw) o (cli p).
Definition srv_sent (sw : bool) (o : Z) (p : pair) : list bool := negs_of sw o (srv_msgs p).
Definition cli_sent (sw : bool) (o : Z) (p : pair) : list bool :=
  negs_of (negb sw) o (cli_msgs p).
Definition srv_taken (sw : bool) (o : Z) (p : pair) : list bool :=
  negs_of (negb sw) o (srv_got p).
Definition cli_taken (sw : bool) (o : Z) (p : pair) : list bool := negs_of sw o (cli_got p).

Definition abs (sw : bool) (o : Z) (p : pair) : net :=
  mkNet (srv_side sw o p) (cli_side sw o p) (srv_sent sw o p) (cli_sent sw o p)
        (length (srv_taken sw o p)) (length (cli_taken sw o p)).

(** No message about the option is under way. *)
Definition settled (sw : bool) (o : Z) (p : pair) : Prop :=
  srv_taken sw o p = cli_sent sw o p /\ cli_taken sw o p = srv_sent sw o p.

(** ** Facts about regular options *)

Lemma regular_spec sw o :
  regular sw o = true ->
  (if sw then o <> TELOPT_SGA /\ o <> TELOPT_TM /\ o <> TELOPT_LOGOUT /\ do_accepts o = true /\
     Client.will_new_state_ok o = true
   else o <> TELOPT_ECHO /\ o <> TELOPT_TM /\ o <> TELOPT_LINEMODE /\
     o <> TELOPT_AUTHENTICATION /\ will_accepts o = true).
Proof.
  intros Ho. destruct sw; apply bool_decide_eq_true in Ho.
  all: repeat (apply elem_of_cons in Ho as [->|Ho]; [by split_and!|]); by apply elem_of_nil in Ho.
Qed.

(** ** Requests of an end are steps of the system *)

Lemma moves_runA okA okB (G : bool -> Prop) x os x' s :
  (forall n, G n -> n = true -> okA = true) -> moves G x os x' -> sideA s = x ->
  exists es, net_run okA okB es s =
    Some (mkNet x' (sideB s) (histA s ++ os) (histB s) (readA s) (readB s)).
Proof.
  intros HG Hm. revert s. induction Hm as [x|n x x1 x2 o os Hn Hi Hm IH]; intros s <-.
  - exists []. simpl. rewrite app_nil_r. by destruct s.
  - destruct (IH (mkNet x1 (sideB s) (histA s ++ o) (histB s) (readA s) (readB s)) eq_refl)
      as (es & E).
    exists (InitA n :: es). simpl. destruct (n && negb okA) eqn:C.
    { apply andb_true_iff in C as [-> C]. by rewrite (HG true Hn eq_refl) in C. }
    rewrite Hi. simpl. rewrite E. simpl. by rewrite app_assoc.
Qed.

Lemma moves_runB okA okB (G : bool -> Prop) x os x' s :
  (forall n, G n -> n = true -> okB = true) -> moves G x os x' -> sideB s = x ->
  exists es, net_run okA okB es s =
    Some (mkNet (sideA s) x' (histA s) (histB s ++ os) (readA s) (readB s)).
Proof.
  intros HG Hm. revert s. induction Hm as [x|n x x1 x2 o os Hn Hi Hm IH]; intros s <-.
  - exists []. simpl. rewrite app_nil_r. by destruct s.
  - destruct (IH (mkNet (sideA s) x1 (histA s) (histB s ++ o) (readA s) (readB s)) eq_refl)
      as (es & E).
    exists (InitB n :: es). simpl. destruct (n && negb okB) eqn:C.
    { apply andb_true_iff in C as [-> C]. by rewrite (HG true Hn eq_refl) in C. }
    rewrite Hi. simpl. rewrite E. simpl. by rewrite app_assoc.
Qed.

Definition neg_cmd (c : Z) : Prop := c ∈ [WILL; WONT; DO; DONT].

Lemma neg_on_else o d c o' mine :
  neg_on mine o (c, o') = None -> (c = cmd_of mine true \/ c = cmd_of mine false) ->
  d = negb mine -> elsewhere (negb mine) o d o'.
Proof.
  unfold neg_on. cbn [fst snd]. intros Hn Hc ->. right. intros ->. rewrite Z.eqb_refl in Hn.
  by destruct mine, Hc as [-> | ->].
Qed.

(** ** What an end does is a run of the system *)

Section Simulation.
Context (sw : bool) (o : Z) (disp : bool) (Hreg : regular sw o = true).

Abbreviation okB := (accepts disp (negb sw) o).
Abbreviation runs p p' := (exists es, net_run true okB es (abs sw o p) = Some (abs sw o p')).

Lemma srv_started p s' :
  started tview sw o (fun _ => True) (srv p) s' ->
  runs p (mkPair s' (cli p) (srv_got p) (cli_got p)).
Proof.
  intros [_ (os & Hm & Hn)].
  destruct (moves_runA true okB (fun _ => True) _ _ _ (abs sw o p) (fun _ _ _ => eq_refl) Hm eq_refl)
    as (es & E).
  exists es. rewrite E. unfold vnegs in Hn. unfold abs, srv_sent, srv_msgs.
  cbn [srv cli histA]. by rewrite Hn.
Qed.

Lemma cli_started p s' :
  started cview (negb sw) o (cli_allowed (negb sw) o disp) (cli p) s' ->
  runs p (mkPair (srv p) s' (srv_got p) (cli_got p)).
Proof.
  intros [_ (os & Hm & Hn)].
  destruct (moves_runB true okB (cli_allowed (negb sw) o disp) _ _ _ (abs sw o p)
    (fun _ Hg => Hg) Hm eq_refl) as (es & E).
  exists es. rewrite E. unfold vnegs in Hn. unfold abs, cli_sent, cli_msgs.
  cbn [srv cli histB]. by rewrite Hn.
Qed.

Lemma regular_tm : sw = true \/ o <> TELOPT_TM.
Proof. pose proof (regular_spec sw o Hreg) as H1. destruct sw; [by left|right; tauto]. Qed.

Lemma keeps_srv_does m : srv_does m -> Keeps tview sw o (fun _ => True) (fun _ => True) m.
Proof.
  pose proof regular_tm as Htm. pose proof (fun _ : bool => I) as Hall.
  assert (elsewhere sw o false TELOPT_ECHO) as He.
  { pose proof (regular_spec sw o Hreg). unfold elsewhere. destruct sw; [by left|right; tauto]. }
  destruct 1.
  - by apply TelnetdFacts.keeps_getterminaltype.
  - by apply TelnetdFacts.keeps_telnet_requests.
  - by apply TelnetdFacts.keeps_telnet_requests_after.
  - by apply TelnetdFacts.keeps_frame.
  - apply run_keeps_bind; [apply TelnetdFacts.keeps_init_termbuf|intros _; by apply TelnetdFacts.keeps_localstat].
  - apply run_keeps_bind; [apply TelnetdFacts.keeps_copy_termbuf|intros _; by apply TelnetdFacts.keeps_localstat].
  - by apply TelnetdFacts.keeps_clientstat.
  - apply run_keeps_bind; [by apply TelnetdFacts.keeps_frame|intros _; by apply TelnetdFacts.keeps_clientstat].
  - apply run_keeps_bind; [apply TelnetdFacts.keeps_start_slc|intros _].
    apply run_keeps_bind; [apply TelnetdFacts.keeps_do_opt_slc|intros _; apply TelnetdFacts.keeps_end_slc0].
Qed.

Lemma cli_conditions :
  (negb sw = true -> o <> TELOPT_TM /\ o <> TELOPT_LINEMODE /\ o <> TELOPT_AUTHENTICATION) /\
  (negb sw = false -> o <> TELOPT_TM /\ o <> TELOPT_SGA /\ o <> TELOPT_LOGOUT).
Proof. pose proof (regular_spec sw o Hreg) as H1. destruct sw; split; try done; tauto. Qed.

Lemma keeps_cli_does m :
  cli_does m -> Keeps cview (negb sw) o (cli_allowed (negb sw) o disp) (connected disp) m.
Proof.
  destruct cli_conditions as [H1 H2]. destruct 1.
  - by apply c_keeps_telnet_requests.
  - by apply keeps_dokludgemode.
  - by apply keeps_dolinemode.
  - by apply keeps_docharmode.
  - by apply keeps_togrbinary.
  - by apply keeps_togxbinary.
  - by apply keeps_logout.
Qed.

(** A message about the option. *)
Lemma srv_handle_receives c o' n s x' os :
  neg_on (negb sw) o (c, o') = Some n -> receive true n (vside tview sw o s) = (x', os) ->
  Gives tview sw o (srv_handle c o') () s x' os.
Proof.
  pose proof (regular_spec sw o Hreg) as Hr. unfold neg_on, srv_handle. cbn [fst snd].
  destruct (Z.eqb_spec o' o) as [->|]; [|done].
  destruct (Z.eqb_spec c (on_cmd (negb sw))) as [->|].
  - intros [= <-]. destruct sw; simpl.
    + destruct Hr as (? & ? & ? & Ha & _). intros R.
      apply TelnetdFacts.dooption_receives; try done. by rewrite Ha.
    + destruct Hr as (? & ? & ? & _ & Ha). intros R.
      apply TelnetdFacts.willoption_receives; try done. by rewrite Ha.
  - destruct (Z.eqb_spec c (off_cmd (negb sw))) as [->|]; [|done].
    intros [= <-]. destruct sw; simpl.
    + destruct Hr as (? & ? & ? & Ha & _). by apply TelnetdFacts.dontoption_receives.
    + destruct Hr as (? & ? & ? & _ & Ha). by apply TelnetdFacts.wontoption_receives.
Qed.

Lemma cli_handle_receives c o' n s x' os :
  connected disp (vcfg cview s) ->
  neg_on sw o (c, o') = Some n -> receive okB n (vside cview (negb sw) o s) = (x', os) ->
  Gives cview (negb sw) o (cli_handle c o') () s x' os.
Proof.
  intros [Hp Hd]. pose proof (regular_spec sw o Hreg) as Hr.
  unfold neg_on, cli_handle. cbn [fst snd].
  destruct (Z.eqb_spec o' o) as [->|]; [|done].
  destruct (Z.eqb_spec c (on_cmd sw)) as [->|].
  - intros [= <-]. destruct sw; simpl.
    + destruct Hr as (? & ? & ? & _). by apply c_willoption_receives.
    + destruct Hr as (? & ? & ? & ? & _). intros R. apply c_dooption_receives; try done.
      simpl in Hd. by rewrite Hd.
  - destruct (Z.eqb_spec c (off_cmd sw)) as [->|]; [|done].
    intros [= <-]. destruct sw; simpl.
    + destruct Hr as (? & ? & ? & _). by apply c_wontoption_receives.
    + by apply c_dontoption_receives.
Qed.

(** A message about anything else. *)
Lemma srv_handle_keeps c o' :
  neg_cmd c -> neg_on (negb sw) o (c, o') = None ->
  Keeps tview sw o (fun _ => True) (fun _ => True) (srv_handle c o').
Proof.
  intros Hc Hn. pose proof regular_tm as Htm. pose proof (fun _ : bool => I) as Hall.
  assert (forall d, c = cmd_of (negb d) true \/ c = cmd_of (negb d) false -> elsewhere sw o d o')
    as He.
  { intros d Hd. destruct (decide (sw = d)) as [->|]; [|by left].
    rewrite <- (negb_involutive d). apply (neg_on_else _ _ c); [done|done|by rewrite negb_involutive]. }
  unfold neg_cmd in Hc.
  repeat (apply elem_of_cons in Hc as [->|Hc]); [..|by apply elem_of_nil in Hc];
    unfold srv_handle; simpl.
  - apply TelnetdFacts.keeps_willoption; [done|done|apply He; by left].
  - apply TelnetdFacts.keeps_wontoption; [done|done|apply He; by right].
  - apply TelnetdFacts.keeps_dooption; [done|done|apply He; by left].
  - apply TelnetdFacts.keeps_dontoption; [done|done|apply He; by right].
Qed.

Lemma cli_handle_keeps c o' :
  neg_cmd c -> neg_on sw o (c, o') = None ->
  Keeps cview (negb sw) o (cli_allowed (negb sw) o disp) (connected disp) (cli_handle c o').
Proof.
  intros Hc Hn. destruct cli_conditions as [H1 H2].
  assert (forall d, c = cmd_of (negb d) true \/ c = cmd_of (negb d) false ->
    elsewhere (negb sw) o d o') as He.
  { intros d Hd. destruct (decide (negb sw = d)) as [<-|]; [|by left].
    rewrite negb_involutive in Hd. by apply (neg_on_else _ _ c). }
  unfold neg_cmd in Hc.
  repeat (apply elem_of_cons in Hc as [->|Hc]); [..|by apply elem_of_nil in Hc];
    unfold cli_handle; simpl.
  - apply c_keeps_willoption; try done. apply He. by left.
  - apply c_keeps_wontoption; try done. apply He. by right.
  - apply c_keeps_dooption; try done. apply He. by left.
  - apply c_keeps_dontoption; try done. apply He. by right.
Qed.

Lemma msgs_cmd v c o' l : l ++ [(c, o')] `prefix_of` v_msgs v -> neg_cmd c.
Proof.
  intros [k Hk]. assert ((c, o') ∈ v_msgs v) as Hin
    by (rewrite Hk; apply elem_of_app; left; apply elem_of_app; right; by apply list_elem_of_singleton).
  apply list_elem_of_omap in Hin as (m & _ & Hm). unfold neg_msg in Hm.
  destruct m as [|i [|c' [|o'' [|? ?]]]]; try done.
  destruct (i =? IAC); [|done]. simpl in Hm. by case_bool_decide; simplify_eq.
Qed.

(** The next message about the option is where the reader is. *)
Lemma next_neg mine l m n msgs :
  l ++ [m] `prefix_of` msgs -> neg_on mine o m = Some n ->
  negs_of mine o msgs !! length (negs_of mine o l) = Some n.
Proof.
  intros [k ->] Hn. rewrite !negs_of_app. simpl. rewrite Hn. simpl.
  rewrite <- app_assoc. simpl. by rewrite list_lookup_middle.
Qed.

Lemma step_runs p p' :
  connected disp (vcfg cview (cli p)) -> pair_step p p' ->
  connected disp (vcfg cview (cli p')) /\ runs p p'.
Proof.
  intros Hc Hst. revert Hc.
  destruct Hst as [p1 c o' s' Hp E|p1 c o' s' Hp E|p1 m s' Hm E|p1 m s' Hm E]; intros Hc.
  - split; [exact Hc|]. destruct (neg_on (negb sw) o (c, o')) as [n|] eqn:Hn.
    + destruct (receive true n (srv_side sw o p1)) as [x os] eqn:R.
      destruct (srv_handle_receives _ _ _ _ _ _ Hn R) as (s2 & E2 & _ & X & N).
      rewrite E in E2. injection E2 as ->. exists [RecvA]. simpl.
      unfold cli_sent, srv_taken. rewrite (next_neg _ _ _ _ _ Hp Hn). simpl. rewrite R. simpl.
      unfold abs, srv_side, cli_side, srv_sent, srv_taken, cli_sent, cli_taken, srv_msgs, cli_msgs.
      cbn [srv cli srv_got cli_got]. rewrite X, negs_of_app. simpl. rewrite Hn, length_app.
      unfold vnegs in N. rewrite N. simpl. by rewrite Nat.add_1_r.
    + pose proof (srv_handle_keeps c o' (msgs_cmd _ _ _ _ Hp) Hn (srv p1) I) as Hs.
      rewrite E in Hs. destruct (srv_started p1 s' Hs) as [es Es]. exists es. rewrite Es.
      f_equal. unfold abs, srv_taken. simpl. rewrite negs_of_app. simpl.
      by rewrite Hn, app_nil_r.
  - destruct (neg_on sw o (c, o')) as [n|] eqn:Hn.
    + destruct (receive okB n (cli_side sw o p1)) as [x os] eqn:R.
      destruct (cli_handle_receives _ _ _ _ _ _ Hc Hn R) as (s2 & E2 & C & X & N).
      rewrite E in E2. injection E2 as ->. split; [simpl; by rewrite C|]. exists [RecvB]. simpl.
      unfold srv_sent, cli_taken. rewrite (next_neg _ _ _ _ _ Hp Hn). simpl. rewrite R. simpl.
      unfold abs, srv_side, cli_side, srv_sent, srv_taken, cli_sent, cli_taken, srv_msgs, cli_msgs.
      cbn [srv cli srv_got cli_got]. rewrite X, negs_of_app. simpl. rewrite Hn, length_app.
      unfold vnegs in N. rewrite N. simpl. by rewrite Nat.add_1_r.
    + pose proof (cli_handle_keeps c o' (msgs_cmd _ _ _ _ Hp) Hn (cli p1) Hc) as Hs.
      rewrite E in Hs. split; [destruct Hs as [Cs _]; simpl in *; by rewrite Cs|].
      destruct (cli_started p1 s' Hs) as [es Es]. exists es. rewrite Es.
      f_equal. unfold abs, cli_taken. simpl. rewrite negs_of_app. simpl.
      by rewrite Hn, app_nil_r.
  - split; [exact Hc|]. pose proof (keeps_srv_does m Hm (srv p1) I) as Hs. rewrite E in Hs.
    exact (srv_started p1 s' Hs).
  - pose proof (keeps_cli_does m Hm (cli p1) Hc) as Hs. rewrite E in Hs.
    split; [destruct Hs as [Cs _]; simpl in *; by rewrite Cs|]. exact (cli_started p1 s' Hs).
Qed.

Lemma steps_run p p' :
  connected disp (vcfg cview (cli p)) -> rtc pair_step p p' -> runs p p'.
Proof.
  intros Hc Hr. induction Hr as [p|p p1 p' H1 Hr IH]; [by exists []|].
  destruct (step_runs p p1 Hc H1) as [Hc1 [es1 E1]], (IH ltac:(done)) as [es2 E2].
  exists (es1 ++ es2). by rewrite net_run_app, E1.
Qed.

Lemma fresh_abs p : fresh disp p -> abs sw o p = net0.
Proof.
  intros (Hs & Hcl & Ls & Lc & G1 & G2 & _).
  destruct (Hs o) as (S1 & S2 & S3), (Hcl o) as (C1 & C2 & C3).
  unfold abs, net0, srv_side, cli_side, srv_sent, cli_sent, srv_taken, cli_taken, srv_msgs,
    cli_msgs, v_msgs, vside, tview, cview. simpl. rewrite Ls, Lc, G1, G2. simpl.
  assert (forall mine opts dd ww, opts o = 0 -> dd o = 0 -> ww o = 0 ->
    side_of mine o opts dd ww = side0) as H0.
  { intros mine opts dd ww E1 E2 E3. unfold side_of, side0.
    cbv [my_state_is_will my_want_state_is_will my_state_is_do my_want_state_is_do tst].
    by destruct mine; rewrite ?E1, ?E2, ?E3. }
  by rewrite !H0.
Qed.

End Simulation.

(** ** The handlers *)

(** The messages that the server treats by the common rules: all but a few options. *)
Definition srv_common (d n : bool) (o : Z) : bool :=
  negb (bool_decide (o ∈
    match d, n with
    | false, true => [TELOPT_ECHO; TELOPT_TM; TELOPT_LINEMODE]
    | false, false => [TELOPT_TM; TELOPT_LINEMODE]
    | true, true => [TELOPT_SGA; TELOPT_TM; TELOPT_LOGOUT]
    | true, false => [TELOPT_SGA]
    end)).

Definition srv_accepts (d : bool) (o : Z) : bool := if d then do_accepts o else will_accepts o.

Definition cli_common (d n : bool) (o : Z) : bool :=
  negb (bool_decide (o ∈
    match d, n with
    | false, _ => [TELOPT_TM]
    | true, true => [TELOPT_TM; TELOPT_LINEMODE; TELOPT_AUTHENTICATION]
    | true, false => []
    end)).

Lemma common_not (l : list Z) (o o' : Z) : negb (bool_decide (o ∈ l)) = true -> o' ∈ l -> o <> o'.
Proof. intros Hl Hin ->. apply negb_true_iff, bool_decide_eq_false in Hl. done. Qed.

(** C8. An option message that telnetd treats by the common rules is handled as the comment
    of state.c says, but for one answer: [willoption], [wontoption], [dooption] and
    [dontoption] end well, the option's state, what is wanted and the count of unanswered
    requests become those of the comment's machine, and what is sent about the option is
    its answer, except that WONT and DONT get none when the option's state was off.  (ECHO, TM
    and LINEMODE are treated apart in WILL, TM and LINEMODE in WONT, SGA, TM and LOGOUT in DO,
    SGA in DONT.) *)
Theorem telnetd_handlers_receive (d n : bool) (o : Z) (s : tnd) :
  srv_common d n o = true ->
  let '(x, os) := comment_receive (negb n || srv_accepts d o) n (vside tview d o s) in
  exists s', srv_handle (cmd_of (negb d) n) o s = (Ok (), s') /\
    vside tview d o s' = x /\
    vnegs tview d o s' = vnegs tview d o s ++ (if n || st (vside tview d o s) then os else []).
Proof.
  intros Hc. pose proof (receive_comment (srv_accepts d o) n (vside tview d o s)) as R.
  destruct (comment_receive _ _ _) as [x os'].
  set (os := if n || _ then _ else _) in *.
  assert (Gives tview d o (srv_handle (cmd_of (negb d) n) o) () s x os) as (s' & E & _ & X & N);
    [|by exists s'].
  unfold srv_common in Hc.
  destruct d, n; unfold srv_handle; simpl in *.
  - apply TelnetdFacts.dooption_receives; [eapply common_not; [exact Hc|set_solver]..|done].
  - eapply TelnetdFacts.dontoption_receives; [eapply common_not; [exact Hc|set_solver]|exact R].
  - apply TelnetdFacts.willoption_receives; [eapply common_not; [exact Hc|set_solver]..|done].
  - eapply TelnetdFacts.wontoption_receives; [eapply common_not; [exact Hc|set_solver]..|exact R].
Qed.

(** C22. The same of telnet's handlers, on a connection to a telnet port.  (TM is treated apart in
    WILL, WONT and DO, LINEMODE and AUTHENTICATION in DO.) *)
Theorem telnet_handlers_receive (d n : bool) (o : Z) (s : Client.tn) :
  0 <= Client.telnetport s -> cli_common d n o = true ->
  let '(x, os) := comment_receive (negb n || accepts (Client.display s) d o) n (vside cview d o s) in
  exists s', cli_handle (cmd_of (negb d) n) o s = (Ok (), s') /\
    vside cview d o s' = x /\
    vnegs cview d o s' = vnegs cview d o s ++ (if n || st (vside cview d o s) then os else []).
Proof.
  intros Hp Hc. pose proof (receive_comment (accepts (Client.display s) d o) n (vside cview d o s)) as R.
  destruct (comment_receive _ _ _) as [x os'].
  set (os := if n || _ then _ else _) in *.
  assert (Gives cview d o (cli_handle (cmd_of (negb d) n) o) () s x os) as (s' & E & _ & X & N);
    [|by exists s'].
  unfold cli_common in Hc.
  destruct d, n; unfold cli_handle; simpl in *.
  - apply c_dooption_receives; [done|eapply common_not; [exact Hc|set_solver]..|done].
  - eapply c_dontoption_receives; [done|exact R].
  - apply c_willoption_receives; [done|eapply common_not; [exact Hc|set_solver]|done].
  - eapply c_wontoption_receives; [done|eapply common_not; [exact Hc|set_solver]|exact R].
Qed.


(** ** Runs *)

(** A pair that plays a list of moves. *)
Inductive move :=
  | Srv_takes | Cli_takes
  | Srv_acts (m : T unit) (Hm : srv_does m)
  | Cli_acts (m : Client.C unit) (Hm : cli_does m).

Definition finished {S} (r : res halt unit * S) : option S :=
  match r with (Ok (), s) => Some s | _ => None end.

Definition play1 (mv : move) (p : pair) : option pair :=
  match mv with
  | Srv_takes =>
      m ← cli_msgs p !! length (srv_got p);
      if decide (srv_got p ++ [m] `prefix_of` cli_msgs p) then
        s' ← finished (srv_handle m.1 m.2 (srv p));
        Some (mkPair s' (cli p) (srv_got p ++ [m]) (cli_got p))
      else None
  | Cli_takes =>
      m ← srv_msgs p !! length (cli_got p);
      if decide (cli_got p ++ [m] `prefix_of` srv_msgs p) then
        s' ← finished (cli_handle m.1 m.2 (cli p));
        Some (mkPair (srv p) s' (srv_got p) (cli_got p ++ [m]))
      else None
  | Srv_acts m _ =>
      s' ← finished (m (srv p)); Some (mkPair s' (cli p) (srv_got p) (cli_got p))
  | Cli_acts m _ =>
      s' ← finished (m (cli p)); Some (mkPair (srv p) s' (srv_got p) (cli_got p))
  end.

Fixpoint play (mvs : list move) (p : pair) : option pair :=
  match mvs with
  | [] => Some p
  | mv :: mvs' => p' ← play1 mv p; play mvs' p'
  end.

Lemma finished_Ok {S} (r : res halt unit * S) s : finished r = Some s -> r = (Ok (), s).
Proof. destruct r as [[[]|e] s']; by intros [= ->]. Qed.

Lemma play1_step mv p p' : play1 mv p = Some p' -> pair_step p p'.
Proof.
  destruct mv as [| |m Hm|m Hm]; simpl; intros E.
  - destruct (_ !! _) as [[c o]|] eqn:L; [|done]. simpl in E. case_decide; [|done].
    destruct (finished _) as [s'|] eqn:F; [|done]. injection E as <-.
    apply finished_Ok in F. by apply (srv_takes p c o).
  - destruct (_ !! _) as [[c o]|] eqn:L; [|done]. simpl in E. case_decide; [|done].
    destruct (finished _) as [s'|] eqn:F; [|done]. injection E as <-.
    apply finished_Ok in F. by apply (cli_takes p c o).
  - destruct (finished _) as [s'|] eqn:F; [|done]. injection E as <-.
    apply finished_Ok in F. by apply (srv_acts p m).
  - destruct (finished _) as [s'|] eqn:F; [|done]. injection E as <-.
    apply finished_Ok in F. by apply (cli_acts p m).
Qed.

Lemma play_steps mvs p p' : play mvs p = Some p' -> rtc pair_step p p'.
Proof.
  revert p. induction mvs as [|mv mvs IH]; intros p E; simpl in E; [by injection E as ->|].
  destruct (play1 mv p) as [p1|] eqn:E1; [|done]. eapply rtc_l; [by apply (play1_step mv)|auto].
Qed.

End Pair.
