(* ===== verification/TelnetdRecvFacts.v ===== *)
(** * telnetd: the receiving machine is safe

    Whatever the client sends, [telrcv] ends, stays within its buffers, and leaves the program
    only as [cleanup] does, but for the three cases the theorem names: a terminal speed whose
    digits fill the suboption buffer, a status reply longer than its buffer, and replies about
    special characters longer than theirs.  Before
    [telnet] has set up the special characters the client can make the server follow a null
    pointer. *)

From Stdlib Require Import ZArith Lia List Bool.
From stdpp Require Import base tactics list numbers functions.
From S2P Require Import Prelude TelnetNeg TelnetOpts Telnetd TelnetdStat TelnetdRecv.

Local Open Scope Z_scope.

Section RecvFacts.
Context `{Termios_h}.

(** ** What the handlers leave alone *)

Definition sptrs (s : tnd) : list (option nat) := map sptr (slctab (sl s)).

(** The replies about special characters, closed by IAC SE, are longer than [slcbuf]. *)
Definition slc_overrun (s : tnd) : Prop := slc_past 3 s = true.

Definition framed {A} (s : tnd) (r : res halt A * tnd) : Prop :=
  rc r.2 = rc s /\ sptrs r.2 = sptrs s /\
  (match r.1 with Ok _ => True | Ex e => e = Exit 1 \/ e = Crash /\ slc_overrun r.2 end).

(** The receiving side and the places of the special characters stay as they are. *)
Definition Frame {A} (m : T A) : Prop := forall s, framed s (m s).

Lemma frame_ret {A} (a : A) : Frame (mret a).
Proof. by intros s. Qed.

Lemma frame_gets {A} (f : tnd -> A) : Frame (gets f).
Proof. by intros s. Qed.

Lemma frame_of_rc {A} (f : rcvs -> A) : Frame (of_rc f).
Proof. by intros s. Qed.

Lemma frame_exit {A} : Frame (leave (Exit 1) : T A).
Proof. intros s. split_and!; [done..|by left]. Qed.

Lemma frame_modify f : (forall s, rc (f s) = rc s /\ sptrs (f s) = sptrs s) -> Frame (modify f).
Proof. intros Hf s. by destruct (Hf s). Qed.

Lemma frame_bind {A B} (m : T A) (k : A -> T B) :
  Frame m -> (forall a, Frame (k a)) -> Frame (m ≫= k).
Proof.
  intros Hm Hk s. specialize (Hm s). unfold framed in *. cbv [mbind M_bind].
  destruct (m s) as [[a|e] s1]; [|done]. destruct Hm as (E1 & E2 & _).
  destruct (Hk a s1) as (F1 & F2 & F3). simpl in *. by rewrite F1, F2, E1, E2.
Qed.

Lemma frame_when (b : bool) (m : T unit) : Frame m -> Frame (mwhen b m).
Proof. destruct b; [done|intros _; apply frame_ret]. Qed.

Lemma frame_upd_slc i f : (forall e, sptr (f e) = sptr e) -> Frame (upd_slc i f).
Proof.
  intros Hf. apply frame_modify. intros s. split; [done|]. unfold sptrs; simpl.
  generalize (slctab (sl s)) as l. intros l. revert i. induction l as [|e l IH]; intros [|i]; simpl;
    [done..|by rewrite Hf|f_equal; apply IH].
Qed.

Create HintDb frame discriminated.
#[local] Hint Extern 0 (Frame (mret _)) => apply frame_ret : frame.
#[local] Hint Extern 0 (Frame (of_rc _)) => apply frame_of_rc : frame.
#[local] Hint Extern 0 (Frame (of_ng _)) => apply frame_gets : frame.
#[local] Hint Extern 0 (Frame (of_md _)) => apply frame_gets : frame.
#[local] Hint Extern 0 (Frame (of_ty _)) => apply frame_gets : frame.
#[local] Hint Extern 0 (Frame (of_sl _)) => apply frame_gets : frame.
#[local] Hint Extern 0 (Frame (gets _)) => apply frame_gets : frame.
#[local] Hint Extern 0 (Frame (leave (Exit 1))) => apply frame_exit : frame.

(** [frame] goes through a computation; [unfold] its callees first or give their lemmas as
    hints. *)
Ltac frame :=
  repeat first
    [ solve [auto 1 with frame nocore]
    | apply frame_bind; [|intros ?]
    | apply frame_when
    | apply frame_upd_slc; by intros []
    | apply frame_modify; intros ?; by split
    | match goal with
      | |- Frame (if ?b then _ else _) => destruct b
      | |- Frame (match ?x with _ => _ end) => destruct x
      | |- Frame (let x := _ in _) => cbv zeta
      end ].

Lemma frame_output m : Frame (output_data m).
Proof. unfold output_data, output_datalen, netflush, put_item. frame. Qed.
#[local] Hint Resolve frame_output : frame.

Lemma frame_netflush : Frame netflush.
Proof. unfold netflush. frame. Qed.
#[local] Hint Resolve frame_netflush : frame.

Lemma frame_upd f : Frame (upd_options f) /\ Frame (upd_do_dont f) /\ Frame (upd_will_wont f).
Proof. unfold upd_options, upd_do_dont, upd_will_wont. split_and!; frame. Qed.

#[local] Hint Extern 0 (Frame (upd_options ?f)) => apply (frame_upd f) : frame.
#[local] Hint Extern 0 (Frame (upd_do_dont ?f)) => apply (frame_upd f) : frame.
#[local] Hint Extern 0 (Frame (upd_will_wont ?f)) => apply (frame_upd f) : frame.

Lemma frame_sends o i :
  Frame (send_do o i) /\ Frame (send_dont o i) /\ Frame (send_will o i) /\ Frame (send_wont o i).
Proof. unfold send_do, send_dont, send_will, send_wont. split_and!; destruct i; frame. Qed.
#[local] Hint Extern 0 (Frame (send_do ?o ?i)) => apply (frame_sends o i) : frame.
#[local] Hint Extern 0 (Frame (send_dont ?o ?i)) => apply (frame_sends o i) : frame.
#[local] Hint Extern 0 (Frame (send_will ?o ?i)) => apply (frame_sends o i) : frame.
#[local] Hint Extern 0 (Frame (send_wont ?o ?i)) => apply (frame_sends o i) : frame.

Lemma frame_set_termbuf_ : Frame set_termbuf_.
Proof. apply frame_modify. intros s. by destruct (decide _). Qed.
#[local] Hint Resolve frame_set_termbuf_ : frame.

Lemma frame_init_termbuf : Frame init_termbuf.
Proof. unfold init_termbuf. frame. Qed.
#[local] Hint Resolve frame_init_termbuf : frame.

Lemma frame_upd_termbuf f : Frame (upd_termbuf f).
Proof. unfold upd_termbuf. frame. Qed.
#[local] Hint Resolve frame_upd_termbuf : frame.

Lemma frame_put_cc p v : Frame (put_cc p v).
Proof. apply frame_upd_termbuf. Qed.
#[local] Hint Resolve frame_put_cc : frame.

Lemma frame_with_termbuf m : Frame m -> Frame (with_termbuf m).
Proof. intros Hm. unfold with_termbuf. frame. Qed.

Lemma frame_tty_setlinemode on : Frame (tty_setlinemode on).
Proof. unfold tty_setlinemode. frame. Qed.
#[local] Hint Resolve frame_tty_setlinemode : frame.

Lemma frame_settimer x : Frame (settimer x).
Proof. unfold settimer. frame. Qed.
#[local] Hint Resolve frame_settimer : frame.

(** *** slc.c *)

(** A test of [slcbuf] that fails is the third overrun. *)
Lemma frame_past {A} n (m : T A) :
  (n <= 3)%nat -> Frame m -> Frame (past ← gets (slc_past n); if past : bool then leave Crash else m).
Proof.
  intros Hn Hm s. cbv [mbind M_bind gets]. destruct (slc_past n s) eqn:E; [|apply Hm].
  split_and!; [done..|right]. split; [done|]. unfold slc_overrun, slc_past in *. simpl.
  apply Nat.ltb_lt. apply Nat.ltb_lt in E. lia.
Qed.

Lemma frame_add_slc f g v : Frame (add_slc f g v).
Proof. unfold add_slc. apply frame_bind; [frame|intros _]. apply frame_past; [lia|frame]. Qed.
#[local] Hint Resolve frame_add_slc : frame.

Lemma frame_for_slc body : (forall i, Frame (body i)) -> Frame (for_slc body).
Proof.
  intros Hb. unfold for_slc. induction slc_funcs as [|i l IH]; simpl; frame.
Qed.

Lemma frame_send_slc : Frame send_slc.
Proof. apply frame_for_slc. intros i. frame. Qed.
#[local] Hint Resolve frame_send_slc : frame.

Lemma frame_default_slc : Frame default_slc.
Proof. unfold default_slc. apply frame_bind; [apply frame_for_slc; intros i|intros _]; frame. Qed.
#[local] Hint Resolve frame_default_slc : frame.

Lemma frame_start_slc b : Frame (start_slc b).
Proof. unfold start_slc. frame. Qed.
#[local] Hint Resolve frame_start_slc : frame.

Lemma frame_end_slc0 : Frame end_slc0.
Proof.
  unfold end_slc0. do 4 (apply frame_bind; [frame|intros ?]). case_match; [frame|].
  apply frame_bind; [frame|intros [|o buf]]; [frame|]. apply frame_past; [lia|frame].
Qed.
#[local] Hint Resolve frame_end_slc0 : frame.

Lemma frame_change_slc f g v : Frame (change_slc f g v).
Proof. unfold change_slc. frame. Qed.
#[local] Hint Resolve frame_change_slc : frame.

Lemma frame_process_slc f g v : Frame (process_slc f g v).
Proof. unfold process_slc. frame. Qed.
#[local] Hint Resolve frame_process_slc : frame.

Lemma frame_check_slc : Frame check_slc.
Proof. apply frame_for_slc. intros i. frame. Qed.
#[local] Hint Resolve frame_check_slc : frame.

Lemma frame_slc_triplets : forall buf, Frame (slc_triplets buf).
Proof.
  fix IH 1. intros [|a [|b [|c buf]]]; simpl; frame.
Qed.
#[local] Hint Resolve frame_slc_triplets : frame.

Lemma frame_do_opt_slc buf : Frame (do_opt_slc buf).
Proof. unfold do_opt_slc. frame. Qed.
#[local] Hint Resolve frame_do_opt_slc : frame.

Lemma frame_deferslc : Frame deferslc.
Proof. unfold deferslc. frame. Qed.
#[local] Hint Resolve frame_deferslc : frame.

(** *** termstat.c and the handlers *)

Lemma frame_send_mode m : Frame (send_mode m).
Proof. apply frame_output. Qed.
#[local] Hint Resolve frame_send_mode : frame.

Lemma frame_flowstat : Frame flowstat.
Proof. unfold flowstat. frame. Qed.
#[local] Hint Resolve frame_flowstat : frame.

Lemma frame_localstat : Frame localstat.
Proof.
  unfold localstat, localstat_modes, defer_terminit, clientstat_tspeed, tty_rspeed, tty_tspeed.
  frame.
Qed.
#[local] Hint Resolve frame_localstat : frame.

Lemma frame_clientstat c p q : Frame (clientstat c p q).
Proof.
  unfold clientstat, clientstat_linemode, clientstat_lm_mode, clientstat_naws, clientstat_tspeed,
    tty_rspeed, tty_tspeed, tty_setedit, tty_setsig, tty_setsofttab, tty_setlitecho. frame.
Qed.
#[local] Hint Resolve frame_clientstat : frame.

Lemma frame_answers o n : Frame (answer_do_dont o n) /\ Frame (answer_will_wont o n).
Proof. unfold answer_do_dont, answer_will_wont. split; frame. Qed.
#[local] Hint Extern 0 (Frame (answer_do_dont ?o ?n)) => apply (frame_answers o n) : frame.
#[local] Hint Extern 0 (Frame (answer_will_wont ?o ?n)) => apply (frame_answers o n) : frame.

Ltac frame_switch :=
  unfold flow_level, doclientstat, tty_setecho;
  repeat (frame; try (apply frame_with_termbuf)).

Lemma frame_willoption o : Frame (willoption o).
Proof. unfold willoption, will_switch. frame_switch. Qed.

Lemma frame_wontoption o : Frame (wontoption o).
Proof. unfold wontoption, wont_switch. frame_switch. Qed.

Lemma frame_dooption o : Frame (dooption o).
Proof. unfold dooption, do_switch. frame_switch. Qed.

Lemma frame_dontoption o : Frame (dontoption o).
Proof. unfold dontoption, dont_switch. frame_switch. Qed.

(** ** Safety *)

(** The memory from [subpointer] on ends in what [atoi] goes on with. *)
Definition atoi_goes_on (c : Z) : bool :=
  is_space c || is_digit c || (c =? 43) || (c =? 45).

(** The last octet of [subbuffer] belongs to a number. *)
Definition number_overrun (s : tnd) : Prop :=
  exists c, subbuffer (rc s) !! (SUBBUFSIZE - 1)%nat = Some c /\ atoi_goes_on c = true.

(** The status reply, with the special characters [send_slc] has collected or without, is longer
    than [statusbuf]. *)
Definition status_overrun (s : tnd) : Prop :=
  exists buf, (buf = [] \/ buf = slcbuf (sl s)) /\ (STATUSBUF_SIZE < length (status_reply (options (ng s)) (md s) buf))%nat.

(** How a computation may end when it does not return. *)
Definition stops (e : halt) (s : tnd) : Prop :=
  e = Exit 1 \/ e = Crash /\ (number_overrun s \/ status_overrun s \/ slc_overrun s).

Section Bounded.
(** At most [N] octets wait for the terminal, and at most [K] are read and not handled. *)
Variables N K : nat.

Definition buffers (r : rcvs) : Prop :=
  length (subbuffer r) = SUBBUFSIZE /\ (subpointer r <= SUBBUFSIZE)%nat /\
  (subend r + 2 <= SUBBUFSIZE)%nat /\ (length (ptyobuf r) <= N)%nat /\ (length (netip r) <= K)%nat.

(** The characters for EC and EL are where [get_slc_defaults] has put them. *)
Definition erase_set (s : tnd) : Prop :=
  forall f, f = SLC_EC \/ f = SLC_EL -> exists p, sptrs s !! Z.to_nat f = Some (Some p).

Definition wf (s : tnd) : Prop := buffers (rc s) /\ erase_set s.

Definition ok {A} (Q : A -> tnd -> Prop) (r : res halt A * tnd) : Prop :=
  match r with
  | (Ok a, s) => Q a s
  | (Ex e, s) => stops e s
  end.

Lemma ok_bind {A B} (Q : B -> tnd -> Prop) (m : T A) (k : A -> T B) s :
  ok (fun a s' => ok Q (k a s')) (m s) -> ok Q ((m ≫= k) s).
Proof. unfold ok. cbv [mbind M_bind]. by destruct (m s) as [[a|e] s']. Qed.

Lemma ok_weaken {A} (Q Q' : A -> tnd -> Prop) r :
  ok Q r -> (forall a s, Q a s -> Q' a s) -> ok Q' r.
Proof. intros Hr HQ. destruct r as [[a|e] s]; [by apply HQ|done]. Qed.

Lemma ok_gets {A} (Q : A -> tnd -> Prop) f s : Q (f s) s -> ok Q (gets f s).
Proof. done. Qed.

Lemma ok_of_rc {A} (Q : A -> tnd -> Prop) f s : Q (f (rc s)) s -> ok Q (of_rc f s).
Proof. done. Qed.

Lemma ok_ret {A} (Q : A -> tnd -> Prop) a s : Q a s -> ok Q ((mret a : T A) s).
Proof. done. Qed.

Lemma ok_modify (Q : unit -> tnd -> Prop) f s : Q () (f s) -> ok Q (modify f s).
Proof. done. Qed.

Lemma ok_when (Q : unit -> tnd -> Prop) (b : bool) m s :
  (b = true -> ok Q (m s)) -> (b = false -> Q () s) -> ok Q (mwhen b m s).
Proof. destruct b; [by intros Ht _; apply Ht|by intros _ Hf; apply Hf]. Qed.

Lemma ok_frame {A} (Q : A -> tnd -> Prop) (m : T A) s :
  Frame m -> (forall a s', rc s' = rc s -> sptrs s' = sptrs s -> Q a s') -> ok Q (m s).
Proof.
  intros Hm HQ. destruct (Hm s) as (E1 & E2 & E3). unfold ok.
  destruct (m s) as [[a|e] s']; simpl in *; [by apply HQ|].
  destruct E3 as [->|[-> ?]]; [by left|by right; split; [|do 2 right]].
Qed.

(** A computation of the receiving side that keeps the places of the characters. *)
Lemma wf_of r s s' : wf s -> rc s' = r -> sptrs s' = sptrs s -> buffers r -> wf s'.
Proof. intros [_ He] Er Es Hb. split; [by rewrite Er|]. unfold erase_set. by rewrite Es. Qed.

Lemma wf_frame s s' : wf s -> rc s' = rc s -> sptrs s' = sptrs s -> wf s'.
Proof. intros Hw Er Es. eapply wf_of; [exact Hw|exact Er|exact Es|apply Hw]. Qed.

Lemma ok_wf_frame {A} (m : T A) s : Frame m -> wf s -> ok (fun _ => wf) (m s).
Proof. intros Hm Hw. apply ok_frame; [done|]. intros _ s' Er Es. by eapply wf_frame. Qed.

Lemma ok_wf_bind {A B} (Q : B -> tnd -> Prop) (m : T A) (k : A -> T B) s :
  ok (fun _ => wf) (m s) -> (forall a s', wf s' -> ok Q (k a s')) -> ok Q ((m ≫= k) s).
Proof. intros Hm Hk. apply ok_bind. by eapply ok_weaken. Qed.

Lemma ok_frame_bind {A B} (Q : B -> tnd -> Prop) (m : T A) (k : A -> T B) s :
  Frame m -> wf s -> (forall a s', wf s' -> ok Q (k a s')) -> ok Q ((m ≫= k) s).
Proof. intros Hm Hw. by apply ok_wf_bind, ok_wf_frame. Qed.

(** *** Reading a suboption *)

(** [s'] is [s] with [subpointer] at [p]. *)
Lemma wf_pointer s p : wf s -> (p <= SUBBUFSIZE)%nat -> wf (set_subpointer p s).
Proof. intros Hw Hp. eapply wf_of; [exact Hw|done|done|]. destruct Hw as [(?&?&?&?&?) _]. by split_and!. Qed.

Lemma ok_SB_GET (Q : Z -> tnd -> Prop) s :
  wf s -> (subpointer (rc s) < SUBBUFSIZE)%nat ->
  (forall c, wf (set_subpointer (S (subpointer (rc s))) s) ->
     Q c (set_subpointer (S (subpointer (rc s))) s)) ->
  ok Q (SB_GET s).
Proof.
  intros Hw Hp HQ. unfold SB_GET. apply ok_bind, ok_of_rc, ok_bind, ok_modify. unfold id.
  destruct Hw as [(Hl & Hr) He] eqn:E. destruct (lookup_lt_is_Some_2 (subbuffer (rc s)) (subpointer (rc s)))
    as [c Hc]; [by rewrite Hl|]. rewrite Hc. apply ok_ret, HQ, wf_pointer; [done|lia].
Qed.

Lemma atoi_digits_None acc l :
  atoi_digits acc l = None -> l <> [] ->
  exists c, l !! (length l - 1)%nat = Some c /\ atoi_goes_on c = true.
Proof.
  revert acc. induction l as [|c l IH]; intros acc E Hl; [done|]. simpl in E.
  destruct (is_digit c) eqn:D; [|done]. destruct l as [|d l].
  - exists c. split; [done|]. unfold atoi_goes_on. rewrite D. by rewrite orb_true_r.
  - destruct (IH _ E ltac:(done)) as (x & Hx & Hg). exists x. split; [|done].
    rewrite <- Hx. simpl. by rewrite Nat.sub_0_r.
Qed.

Lemma atoi_None l :
  atoi l = None -> l <> [] ->
  exists c, l !! (length l - 1)%nat = Some c /\ atoi_goes_on c = true.
Proof.
  assert (forall (c : Z) l, atoi_goes_on c = true ->
    (l <> [] -> exists x, l !! (length l - 1)%nat = Some x /\ atoi_goes_on x = true) ->
    exists x, (c :: l) !! (length (c :: l) - 1)%nat = Some x /\ atoi_goes_on x = true) as step.
  { intros c [|d m] Hc Hm; [by exists c|]. destruct (Hm ltac:(done)) as (x & Hx & Hg).
    exists x. split; [|done]. rewrite <- Hx. simpl. by rewrite Nat.sub_0_r. }
  induction l as [|c l IH]; intros E Hl; [done|]. cbn [atoi] in E.
  destruct (is_space c) eqn:Sp; [apply step; [unfold atoi_goes_on; by rewrite Sp|by apply IH]|].
  destruct (c =? 45) eqn:M; [|destruct (c =? 43) eqn:Pl].
  - destruct (atoi_digits 0 l) eqn:D; [done|]. apply step.
    + unfold atoi_goes_on. rewrite M. by rewrite !orb_true_r.
    + by apply (atoi_digits_None 0).
  - destruct (atoi_digits 0 l) eqn:D; [done|]. apply step.
    + unfold atoi_goes_on. rewrite Pl. by rewrite !orb_true_r.
    + by apply (atoi_digits_None 0).
  - destruct (atoi_digits 0 (c :: l)) eqn:D; [done|]. by apply (atoi_digits_None 0).
Qed.

Lemma ok_sb_atoi (Q : Z -> tnd -> Prop) s :
  wf s -> (subpointer (rc s) < SUBBUFSIZE)%nat -> (forall n, Q n s) -> ok Q (sb_atoi s).
Proof.
  intros [(Hl & _) _] Hp HQ. unfold sb_atoi. apply ok_bind, ok_of_rc. unfold id.
  destruct (atoi _) as [n|] eqn:E; [apply HQ|]. right. split; [done|]. left.
  apply atoi_None in E as (c & Hc & Hg).
  - exists c. split; [|done]. rewrite <- Hc, lookup_drop, length_drop, Hl. f_equal. lia.
  - intros E0. apply (f_equal length) in E0. rewrite length_drop, Hl in E0. simpl in E0. lia.
Qed.

Lemma ok_sb_put (Q : unit -> tnd -> Prop) i c s :
  wf s -> (i < SUBBUFSIZE)%nat ->
  (forall s', wf s' -> subpointer (rc s') = subpointer (rc s) -> subend (rc s') = subend (rc s) ->
     Q () s') ->
  ok Q (sb_put i c s).
Proof.
  intros Hw Hi HQ. unfold sb_put. assert ((i <? SUBBUFSIZE)%nat = true) as -> by by apply Nat.ltb_lt.
  apply ok_modify, HQ; [|done..]. eapply wf_of; [done..|]. destruct Hw as [(? & ? & ? & ? & ?) _].
  split_and!; [|done..]. simpl. by rewrite length_insert.
Qed.

(** One octet where the end has been tested. *)
Lemma ok_get_next {A} (Q : A -> tnd -> Prop) (f : Z -> T A) s :
  wf s -> (subpointer (rc s) < subend (rc s))%nat ->
  (forall c s', wf s' -> subpointer (rc s') = S (subpointer (rc s)) ->
     subend (rc s') = subend (rc s) -> ok Q (f c s')) ->
  ok Q ((SB_GET ≫= f) s).
Proof.
  intros Hw Hp HQ. apply ok_bind, ok_SB_GET; [done| |].
  - destruct Hw as [(? & ? & ? & ? & ?) _]. lia.
  - intros c Hw'. by apply HQ.
Qed.

Lemma ok_eof {A} (Q : A -> tnd -> Prop) (f g : T A) s :
  ((subend (rc s) <= subpointer (rc s))%nat -> ok Q (f s)) ->
  ((subpointer (rc s) < subend (rc s))%nat -> ok Q (g s)) ->
  ok Q ((e ← SB_EOF; if (e : bool) then f else g) s).
Proof.
  intros Hf Hg. apply ok_bind, ok_of_rc. destruct (_ <=? _)%nat eqn:E.
  - apply Nat.leb_le in E. auto.
  - apply Nat.leb_gt in E. auto.
Qed.

Lemma ok_sb_is (Q : bool -> tnd -> Prop) q s :
  wf s ->
  Q false s ->
  (forall b s', wf s' -> (subpointer (rc s') <= subend (rc s'))%nat -> Q b s') ->
  ok Q (sb_is q s).
Proof.
  intros Hw Hf HQ. apply ok_eof; [by intros _|]. intros Hp. apply ok_get_next; [done|done|].
  intros c s' Hw' E1 E2. apply ok_ret, HQ; [done|]. lia.
Qed.

Lemma ok_sb_next (Q : option Z -> tnd -> Prop) s :
  wf s ->
  Q None s ->
  (forall c s', wf s' -> (subpointer (rc s') <= subend (rc s'))%nat -> Q (Some c) s') ->
  ok Q (sb_next s).
Proof.
  intros Hw Hf HQ. apply ok_eof; [by intros _|]. intros Hp. apply ok_get_next; [done|done|].
  intros c s' Hw' E1 E2. apply ok_ret, HQ; [done|]. lia.
Qed.

Lemma ok_past_comma fuel s :
  wf s -> (subpointer (rc s) <= subend (rc s))%nat ->
  (subend (rc s) < fuel + subpointer (rc s))%nat ->
  ok (fun _ s' => wf s') (sb_past_comma fuel s).
Proof.
  revert s. induction fuel as [|fuel IH]; intros s Hw Hp Hf; [lia|]. cbn [sb_past_comma].
  apply ok_bind, ok_SB_GET; [done|destruct Hw as [(?&?&?&?&?) _]; lia|]. intros c Hw'.
  case_match; [done|]. apply ok_eof; [by intros _|]. simpl. intros Hlt. apply IH; [done|..]; simpl; lia.
Qed.

Lemma wf_end s : wf s -> (subend (rc s) + 2 <= SUBBUFSIZE)%nat.
Proof. by intros [(? & ? & ? & ? & ?) _]. Qed.

Lemma ok_tspeed s : wf s -> ok (fun _ => wf) (suboption_tspeed s).
Proof.
  intros Hw. unfold suboption_tspeed. apply ok_bind, ok_gets, ok_when; [intros _|by intros _].
  apply ok_frame_bind; [apply frame_settimer|done|].
  intros _ s1 Hw1. apply ok_bind, ok_sb_is; [done|done|]. intros b s2 Hw2 Hp2.
  pose proof (wf_end _ Hw2). apply ok_when; [intros _|by intros _].
  apply ok_bind, ok_sb_atoi; [done|lia|]. intros x.
  apply ok_wf_bind; [apply ok_past_comma; [done|lia|lia]|].
  intros _ s3 Hw3. pose proof (wf_end _ Hw3). apply ok_bind, ok_of_rc, ok_when; [|by intros _].
  intros E. apply negb_true_iff, Nat.leb_gt in E. apply ok_bind, ok_sb_atoi; [done|lia|].
  intros y. by apply ok_wf_frame; [apply frame_clientstat|].
Qed.

Lemma ok_sb_name n name s : wf s -> ok (fun _ => wf) (sb_name n name s).
Proof.
  revert name s. induction n as [|n IH]; intros name s Hw; [done|]. cbn [sb_name].
  apply ok_eof; [by intros _|]. intros Hp. apply ok_get_next; [done|done|].
  intros c s' Hw' _ _. by apply IH.
Qed.

Lemma ok_ttype s : wf s -> ok (fun _ => wf) (suboption_ttype s).
Proof.
  intros Hw. unfold suboption_ttype. apply ok_bind, ok_gets, ok_when; [intros _|by intros _].
  apply ok_frame_bind; [apply frame_settimer|done|].
  intros _ s1 Hw1. apply ok_bind, ok_sb_is; [done|done|]. intros b s2 Hw2 Hp2.
  apply ok_when; [intros _|by intros _]. apply ok_wf_bind; [by apply ok_sb_name|].
  intros name s3 Hw3. apply ok_modify. eapply wf_of; [done..|apply Hw3].
Qed.

Lemma ok_naws s : wf s -> ok (fun _ => wf) (suboption_naws s).
Proof.
  intros Hw. unfold suboption_naws. apply ok_bind, ok_gets, ok_when; [intros _|by intros _].
  apply ok_bind, ok_sb_next; [done|done|]. intros a s1 Hw1 _.
  apply ok_bind, ok_sb_next; [done|done|]. intros b s2 Hw2 _.
  apply ok_bind, ok_sb_next; [done|done|]. intros c s3 Hw3 _.
  apply ok_eof; [by intros _|]. intros Hp. apply ok_get_next; [done|done|].
  intros d s' Hw' _ _. by apply ok_wf_frame, Hw'; apply frame_clientstat.
Qed.

Lemma ok_linemode s : wf s -> ok (fun _ => wf) (suboption_linemode s).
Proof.
  intros Hw. unfold suboption_linemode. apply ok_bind, ok_gets, ok_when; [intros _|by intros _].
  apply ok_bind, ok_sb_next; [done|done|]. intros request s1 Hw1 _.
  apply ok_eof; [by intros _|]. intros Hp. case_match; [|case_match].
  - apply ok_frame_bind; [apply frame_start_slc|done|].
    intros _ s2 Hw2. apply ok_bind, ok_of_rc, ok_frame_bind; [apply frame_do_opt_slc|done|].
    intros _ s3 Hw3. by apply ok_wf_frame; [apply frame_end_slc0|].
  - apply ok_get_next; [done|done|]. intros v s2 Hw2 _ _. apply ok_bind, ok_modify.
    apply ok_wf_frame; [apply frame_clientstat|]. by eapply wf_frame.
  - apply ok_get_next; [done|done|]. by intros v s2 Hw2 _ _.
Qed.

Lemma ok_slc_get s :
  wf s -> ok (fun buf s' => wf s' /\ (buf = [] \/ buf = slcbuf (sl s'))) (end_slc_get s).
Proof.
  intros Hw. unfold end_slc_get. apply ok_bind, ok_gets, ok_frame_bind; [frame|done|].
  intros _ s1 Hw1. apply ok_bind, ok_gets, ok_bind, ok_gets.
  case_match; [apply ok_ret|apply ok_gets]; (split; [done|]); [by left|by right].
Qed.

Lemma ok_status s : wf s -> ok (fun _ => wf) (suboption_status s).
Proof.
  intros Hw. unfold suboption_status. apply ok_bind, ok_sb_next; [done|done|].
  intros mode s1 Hw1 _. apply ok_bind, ok_gets, ok_when; [intros _|by intros _].
  unfold send_status. apply ok_frame_bind; [apply frame_netflush|done|]. intros _ s2 Hw2.
  apply ok_bind, ok_gets, ok_bind.
  eapply ok_weaken with (Q := fun buf s3 => wf s3 /\ (buf = [] \/ buf = slcbuf (sl s3))).
  - case_match; [|by split; [|left]].
    apply ok_frame_bind; [apply frame_start_slc|done|].
    intros _ s3 Hw3. apply ok_frame_bind; [apply frame_send_slc|done|].
    intros _ s4 Hw4. by apply ok_slc_get.
  - intros buf s3 [Hw3 Hbuf]. apply ok_bind, ok_gets, ok_bind, ok_gets. unfold id.
    destruct (_ <=? _)%nat eqn:E.
    + apply ok_wf_frame; [|done]. apply frame_bind; [apply frame_output|]. intros _.
      apply frame_netflush.
    + right. split; [done|]. right. left. exists buf. split; [done|]. by apply Nat.leb_gt.
Qed.

Lemma ok_environ_call c s : wf s -> ok (fun _ => wf) (environ_call c s).
Proof. intros Hw. apply ok_modify. eapply wf_of; [done..|apply Hw]. Qed.

Lemma ok_xdisploc s : wf s -> ok (fun _ => wf) (suboption_xdisploc s).
Proof.
  intros Hw. unfold suboption_xdisploc. apply ok_bind, ok_sb_is; [done|done|].
  intros b s1 Hw1 _. apply ok_when; [intros _|by intros _].
  apply ok_frame_bind; [apply frame_settimer|done|].
  intros _ s2 Hw2. apply ok_bind, ok_of_rc, ok_bind. pose proof (wf_end _ Hw2). unfold id.
  apply ok_sb_put; [done|lia|]. intros s3 Hw3 _ _. apply ok_bind, ok_gets. by apply ok_environ_call.
Qed.

Lemma ok_env_scan fuel last empty a b c s :
  wf s -> (0 < fuel)%nat -> (subend (rc s) < fuel + subpointer (rc s))%nat ->
  ok (fun _ => wf) (env_scan fuel last empty a b c s).
Proof.
  revert last empty a b c s. induction fuel as [|fuel IH]; intros last empty a b c s Hw H0 Hf; [lia|].
  cbn [env_scan]. apply ok_eof; [by intros _|]. intros Hp. apply ok_get_next; [done|done|].
  intros x s1 Hw1 Ep Ee.
  assert (forall l e n1 n2 n3, ok (fun _ => wf) (env_scan fuel l e n1 n2 n3 s1)) as go_on.
  { intros. apply IH; [done|lia|lia]. }
  destruct (x =? OLD_ENV_VAR); [by case_match|].
  destruct (x =? OLD_ENV_VALUE); [by case_match|].
  destruct (x =? ENV_USERVAR); [case_match; [done|]; by case_match|].
  case_match; [|by apply ok_bind, ok_ret].
  apply ok_bind, ok_eof; [intros _; apply ok_ret, IH; [done|lia|lia]|]. intros Hp1.
  apply ok_get_next; [done|done|]. intros y s2 Hw2 Ep2 Ee2. apply ok_ret, IH; [done|lia|lia].
Qed.

Lemma ok_env_decide s :
  wf s -> ok (fun _ => wf) (env_decide s).
Proof.
  intros Hw. unfold env_decide. apply ok_bind, ok_of_rc, ok_when; [intros _|by intros _].
  apply ok_bind, ok_of_rc. pose proof (wf_end _ Hw).
  assert (subpointer (rc s) <= SUBBUFSIZE)%nat as Hp by apply Hw.
  apply ok_wf_bind; [apply ok_env_scan; [done|lia|]; unfold SUBBUFSIZE in *; lia|].
  intros g s1 Hw1. apply ok_wf_bind.
  - destruct g; [apply ok_bind, ok_modify, ok_modify..|done]; (eapply wf_of; [done..|apply Hw1]).
  - intros _ s2 Hw2. by apply ok_modify, wf_pointer.
Qed.

Lemma ok_env_skip fuel v s :
  wf s -> (0 < fuel)%nat -> (subend (rc s) < fuel + subpointer (rc s))%nat ->
  ok (fun _ => wf) (env_skip fuel v s).
Proof.
  revert s. induction fuel as [|fuel IH]; intros s Hw H0 Hf; [lia|]. cbn [env_skip].
  apply ok_eof; [by intros _|]. intros Hp. apply ok_get_next; [done|done|].
  intros c s1 Hw1 Ep Ee. case_match; [done|]. apply IH; [done|lia|lia].
Qed.

Lemma ok_env_set varp valp s : wf s -> ok (fun _ s' => wf s' /\
  subpointer (rc s') = subpointer (rc s) /\ subend (rc s') = subend (rc s)) (env_set varp valp s).
Proof.
  intros Hw. unfold env_set. apply ok_bind, ok_gets.
  destruct valp; [apply ok_bind, ok_gets|]; (apply ok_modify; split; [|done]; eapply wf_of; [done..|apply Hw]).
Qed.

Lemma ok_env_vars fuel old cp varp valp s :
  wf s -> (cp <= subpointer (rc s))%nat -> (subpointer (rc s) <= subend (rc s))%nat ->
  (subend (rc s) < fuel + subpointer (rc s))%nat ->
  ok (fun _ => wf) (env_vars fuel old cp varp valp s).
Proof.
  revert cp varp valp s. induction fuel as [|fuel IH]; intros cp varp valp s Hw Hc Hp Hf; [lia|].
  cbn [env_vars]. pose proof (wf_end _ Hw). apply ok_eof.
  - intros _. apply ok_bind, ok_sb_put; [done|lia|]. intros s1 Hw1 _ _.
    eapply ok_weaken; [by apply ok_env_set|]. by intros _ s2 [? _].
  - intros Hlt. apply ok_get_next; [done|done|]. intros c s1 Hw1 Ep Ee.
    apply ok_bind, ok_of_rc. cbv zeta. unfold id. case_match; [|case_match; [|case_match]].
    + apply ok_bind, ok_sb_put; [done|lia|]. intros s2 Hw2 Ep2 Ee2. apply IH; [done|lia..].
    + apply ok_bind, ok_sb_put; [done|lia|]. intros s2 Hw2 Ep2 Ee2. apply ok_bind.
      eapply ok_weaken; [by apply ok_env_set|]. intros _ s3 (Hw3 & Ep3 & Ee3).
      apply IH; [done|lia..].
    + apply ok_eof; [intros _; apply IH; [done|lia..]|]. intros Hlt1.
      apply ok_get_next; [done|done|]. intros d s2 Hw2 Ep2 Ee2.
      apply ok_bind, ok_sb_put; [done|lia|]. intros s3 Hw3 Ep3 Ee3. apply IH; [done|lia..].
    + apply ok_bind, ok_sb_put; [done|lia|]. intros s2 Hw2 Ep2 Ee2. apply IH; [done|lia..].
Qed.

Lemma ok_environ sub s : wf s -> ok (fun _ => wf) (suboption_environ sub s).
Proof.
  intros Hw. unfold suboption_environ. apply ok_bind, ok_sb_next; [done|done|].
  intros q s1 Hw1 _. case_match; [done|]. apply ok_wf_bind.
  { apply ok_when; [intros _|by intros _]. by apply ok_wf_frame; [apply frame_settimer|]. }
  intros _ s2 Hw2. apply ok_wf_bind.
  { assert (forall v s, wf s -> ok (fun _ => wf) (env_skip (S SUBBUFSIZE) v s)) as skip.
    { intros v s' Hw'. pose proof (wf_end _ Hw'). unfold SUBBUFSIZE in *. apply ok_env_skip; [done|lia..]. }
    case_match; [|by apply skip]. apply ok_wf_bind; [by apply ok_env_decide|].
    intros _ s3 Hw3. by apply ok_bind, ok_of_rc, skip. }
  intros _ s3 Hw3. apply ok_eof; [by intros _|]. intros Hp. apply ok_bind, ok_of_rc.
  pose proof (wf_end _ Hw3). unfold SUBBUFSIZE in *. apply ok_env_vars; [done|lia..].
Qed.

Lemma ok_suboption s :
  wf s -> (subpointer (rc s) < SUBBUFSIZE)%nat -> ok (fun _ => wf) (suboption s).
Proof.
  intros Hw Hp. unfold suboption. apply ok_bind, ok_SB_GET; [done|done|]. intros c Hw1.
  repeat (case_match; [by first [apply ok_tspeed|apply ok_ttype|apply ok_naws|apply ok_linemode
    |apply ok_status|apply ok_xdisploc|apply ok_environ]|]). done.
Qed.

Lemma ok_sb_end c s : wf s -> ok (fun _ => wf) (sb_end c s).
Proof.
  assert (forall c s, wf s -> ok (fun _ s' => wf s' /\
    (SUBBUFSIZE <= subpointer (rc s') \/ S (subpointer (rc s)) = subpointer (rc s'))%nat)
    (SB_ACCUM c s)) as accum.
  { clear c s. intros c s Hw. unfold SB_ACCUM. apply ok_bind, ok_of_rc, ok_when.
    - intros Hlt. apply Nat.ltb_lt in Hlt. apply ok_bind, ok_modify, ok_modify. split; [|by right].
      destruct Hw as [(? & ? & ? & ? & ?) He]. split; [|exact He]. split_and!; simpl; [|done..].
      by rewrite length_insert.
    - intros Hge. apply Nat.ltb_ge in Hge. split; [done|by left]. }
  intros Hw. unfold sb_end. apply ok_bind. eapply ok_weaken; [by apply accum|].
  intros u1 s1 [Hw1 H1]. apply ok_bind. eapply ok_weaken; [by apply accum|].
  intros u2 s2 [Hw2 H2]. apply ok_bind, ok_modify, ok_bind. unfold SB_TERM.
  apply ok_bind, ok_of_rc, ok_bind, ok_modify, ok_modify. apply ok_suboption.
  - destruct Hw2 as [(? & ? & ? & ? & ?) He]. split; [|exact He]. unfold SUBBUFSIZE in *.
    split_and!; simpl; [done|unfold SUBBUFSIZE; lia|unfold SUBBUFSIZE; lia|done|done].
  - unfold SUBBUFSIZE. simpl. lia.
Qed.

End Bounded.

Lemma wf_more n m k s : (n <= m)%nat -> wf n k s -> wf m k s.
Proof. intros Hn [(? & ? & ? & ? & ?) He]. split; [|done]. split_and!; try done. lia. Qed.

(** *** Data and commands *)

Lemma ok_put_pty n k c s : wf n k s -> (n < BUFSIZ)%nat -> ok (fun _ => wf (S n) k) (put_pty c s).
Proof.
  intros Hw Hn. unfold put_pty. apply ok_bind, ok_of_rc. destruct Hw as [(? & ? & ? & ? & ?) He].
  assert ((length (ptyobuf (rc s)) <? PTYOBUF_SIZE)%nat = true) as ->.
  { apply Nat.ltb_lt. unfold PTYOBUF_SIZE. lia. }
  apply ok_modify. split; [|done]. split_and!; try done. simpl. rewrite length_app. simpl. lia.
Qed.

Lemma ok_ptyflush n k s : wf n k s -> ok (fun _ => wf n k) (ptyflush s).
Proof.
  assert (forall i s, wf n k s -> ok (fun _ => wf n k) (pty_written i s)) as written.
  { clear s. intros i s [(? & ? & ? & ? & ?) He]. unfold pty_written. apply ok_bind, ok_of_rc.
    case_match; [apply ok_bind, ok_modify|]; apply ok_modify; (split; [|done]); split_and!;
      try done. simpl. lia. }
  intros Hw. unfold ptyflush. apply ok_bind, ok_of_rc. unfold id.
  destruct (drop _ _) as [|a l]; [by apply written|]. cbv zeta. apply ok_bind, ok_modify.
  destruct (default _ _).
  - apply ok_bind, ok_modify, written. eapply wf_of; [done..|apply Hw].
  - apply ok_ret. eapply wf_of; [done..|apply Hw].
  - by left.
Qed.

Lemma ok_sig n k x s : wf n k s -> ok (fun _ => wf n k) (send_sig x s).
Proof. intros Hw. apply ok_modify. eapply wf_of; [done..|apply Hw]. Qed.

Lemma slc_char_set n k f s : wf n k s -> f = SLC_EC \/ f = SLC_EL -> slc_char (Z.to_nat f) s <> None.
Proof.
  intros [_ He] Hf. destruct (He f Hf) as [p Hp]. unfold sptrs in Hp.
  rewrite list_lookup_fmap in Hp. unfold slc_char, slc_at.
  destruct (slctab (sl s) !! Z.to_nat f) as [e|]; simpl in *; [|done].
  injection Hp as ->. done.
Qed.

Lemma ok_erase n k f s :
  wf n k s -> (n < BUFSIZ)%nat -> f = SLC_EC \/ f = SLC_EL -> ok (fun _ => wf (S n) k) (recv_erase f s).
Proof.
  intros Hw Hn Hf. unfold recv_erase. eapply ok_wf_bind; [by apply ok_ptyflush|].
  intros _ s1 Hw1. eapply ok_frame_bind; [apply frame_init_termbuf|done|]. intros _ s2 Hw2.
  apply ok_bind, ok_gets. pose proof (slc_char_set _ _ _ _ Hw2 Hf) as Hc.
  destruct (slc_char _ s2) as [ch|]; [|done]. apply ok_when; [intros _; by apply ok_put_pty|].
  intros _. eapply wf_more; [|done]. lia.
Qed.

Lemma ok_doeof n k s : wf n k s -> (n < BUFSIZ)%nat -> ok (fun _ => wf (S n) k) (doeof s).
Proof.
  intros Hw Hn. unfold doeof. eapply ok_frame_bind; [apply frame_init_termbuf|done|].
  intros _ s1 Hw1. apply ok_bind, ok_gets. by apply ok_put_pty.
Qed.

Lemma ok_ao n k s : wf n k s -> (n < BUFSIZ)%nat -> ok (fun _ => wf (S n) k) (recv_ao s).
Proof.
  intros Hw Hn. unfold recv_ao. eapply ok_wf_bind; [by apply ok_ptyflush|]. intros _ s1 Hw1.
  eapply ok_frame_bind; [apply frame_init_termbuf|done|]. intros _ s2 Hw2.
  apply ok_bind, ok_gets. apply (ok_wf_bind (S n) k).
  { apply ok_when; [intros _; by apply ok_put_pty|]. intros _. eapply wf_more; [|done]. lia. }
  intros _ s3 Hw3. eapply ok_frame_bind; [by apply frame_modify|done|]. intros _ s4 Hw4.
  by eapply ok_wf_frame; [apply frame_output|].
Qed.

Lemma ok_go n k t s : wf n k s -> ok (fun _ => wf n k) (go t s).
Proof. intros Hw. apply ok_modify. eapply wf_of; [done..|apply Hw]. Qed.

Lemma ok_recv_iac n k c s : wf n k s -> (n < BUFSIZ)%nat -> ok (fun _ => wf (S n) k) (recv_iac c s).
Proof.
  intros Hw Hn. assert (wf (S n) k s) as Hw' by (eapply wf_more; [|done]; lia).
  unfold recv_iac. case_match.
  { apply (ok_wf_bind (S n) k); [by apply ok_go|]. intros _ s1 Hw1. apply ok_modify.
    by apply wf_pointer; [|lia]. }
  do 4 (case_match; [by apply ok_go|]).
  apply (ok_wf_bind (S n) k); [|intros _ s1 Hw1; by apply ok_go].
  case_match; [unfold interrupt; eapply ok_wf_bind; [by apply ok_ptyflush|intros; by apply ok_sig]|].
  case_match; [unfold sendbrk; eapply ok_wf_bind; [by apply ok_ptyflush|intros; by apply ok_sig]|].
  case_match.
  { unfold recv_ayt. apply ok_bind, ok_gets.
    case_match; [by eapply ok_wf_frame; [apply frame_output|]|by apply ok_sig]. }
  case_match; [by apply ok_ao|]. case_match; [apply ok_erase; auto|].
  case_match; [apply ok_erase; auto|]. case_match.
  { apply (ok_wf_bind (S n) k).
    - unfold stilloob. apply ok_bind, ok_of_rc, ok_bind, ok_modify, ok_ret.
      eapply wf_of; [done..|apply Hw'].
    - intros u s1 Hw1. apply ok_bind, ok_modify. eapply ok_wf_frame; [apply frame_settimer|].
      eapply wf_of; [done..|apply Hw1]. }
  case_match.
  { apply ok_bind, ok_gets, ok_when; [intros _; by apply ok_doeof|by intros _]. }
  case_match; [by apply ok_doeof|].
  case_match; [unfold sendsusp; eapply ok_wf_bind; [by apply ok_ptyflush|intros; by apply ok_sig]|].
  case_match; [unfold sendbrk; eapply ok_wf_bind; [by apply ok_ptyflush|intros; by apply ok_sig]|].
  case_match; [by apply ok_put_pty|done].
Qed.

Lemma ok_recv_data n k c s : wf n k s -> (n < BUFSIZ)%nat -> ok (fun _ => wf (S n) k) (recv_data c s).
Proof.
  intros Hw Hn. assert (wf (S n) k s) as Hw' by (eapply wf_more; [|done]; lia).
  unfold recv_data. case_match; [by apply ok_go|]. apply ok_bind, ok_gets.
  assert (ok (fun _ => wf (S n) k) ((_ ← go TS_CR; put_pty c) s)) as cr.
  { apply (ok_wf_bind n k); [by apply ok_go|]. intros _ s1 Hw1. by apply ok_put_pty. }
  case_match; [|by apply ok_put_pty].
  apply ok_bind, ok_gets, ok_bind, ok_of_rc, ok_bind, ok_gets.
  destruct (netip (rc s)) as [|nc rest] eqn:En; [exact cr|]. case_match; [|exact cr].
  apply ok_bind, ok_modify. apply ok_put_pty; [|done]. eapply wf_of; [done..|].
  destruct Hw as [(? & ? & ? & ? & Hk) _]. rewrite En in Hk. simpl in Hk.
  split_and!; try done. simpl. lia.
Qed.

Lemma ok_recv_octet n k c s : wf n k s -> (n < BUFSIZ)%nat -> ok (fun _ => wf (S n) k) (recv_octet c s).
Proof.
  intros Hw Hn. assert (wf (S n) k s) as Hw' by (eapply wf_more; [|done]; lia).
  assert (forall m : T unit, Frame m -> ok (fun _ => wf (S n) k) ((_ ← m; go TS_DATA) s)) as handler.
  { intros m Hm. eapply ok_frame_bind; [done|done|]. intros _ s1 Hw1. by apply ok_go. }
  unfold recv_octet. apply ok_bind, ok_of_rc. destruct (rstate (rc s)).
  - by apply ok_recv_data.
  - by apply ok_recv_iac.
  - apply (ok_wf_bind n k); [by apply ok_go|]. intros _ s1 Hw1.
    case_match; [|by apply ok_recv_data]. apply ok_ret. eapply wf_more; [|done]. lia.
  - case_match; [by apply ok_go|]. unfold SB_ACCUM. apply ok_bind, ok_of_rc, ok_when; [|by intros _].
    intros Hlt. apply Nat.ltb_lt in Hlt. apply ok_bind, ok_modify, ok_modify.
    eapply wf_of; [done..|]. destruct Hw' as [(? & ? & ? & ? & ?) _]. split_and!; simpl; [|done..].
    by rewrite length_insert.
  - case_match; [|case_match].
    + apply (ok_wf_bind (S n) k); [by apply ok_sb_end|]. intros _ s1 Hw1. by apply ok_go.
    + unfold SB_ACCUM. apply (ok_wf_bind (S n) k); [|intros _ s1 Hw1; by apply ok_go].
      apply ok_bind, ok_of_rc, ok_when; [|by intros _].
      intros Hlt. apply Nat.ltb_lt in Hlt. apply ok_bind, ok_modify, ok_modify.
      eapply wf_of; [done..|]. destruct Hw' as [(? & ? & ? & ? & ?) _]. split_and!; simpl; [|done..].
      by rewrite length_insert.
    + apply (ok_wf_bind n k); [by apply ok_sb_end|]. intros _ s1 Hw1.
      apply (ok_wf_bind n k); [by apply ok_go|]. intros _ s2 Hw2. by apply ok_recv_iac.
  - apply handler, frame_willoption.
  - apply handler, frame_wontoption.
  - apply handler, frame_dooption.
  - apply handler, frame_dontoption.
Qed.

(** What [telrcv] keeps between two calls. *)
Definition recv_ok (s : tnd) : Prop :=
  length (subbuffer (rc s)) = SUBBUFSIZE /\ (subpointer (rc s) <= SUBBUFSIZE)%nat /\
  (subend (rc s) + 2 <= SUBBUFSIZE)%nat /\ (length (ptyobuf (rc s)) <= BUFSIZ)%nat /\ erase_set s.

Lemma recv_ok_wf s : recv_ok s <-> wf BUFSIZ (length (netip (rc s))) s.
Proof.
  split.
  - intros (? & ? & ? & ? & ?). split; [by split_and!|done].
  - intros [(? & ? & ? & ? & ?) ?]. by split_and!.
Qed.

Lemma ok_telrcv_loop fuel s :
  wf BUFSIZ fuel s ->
  ok (fun _ s' => wf BUFSIZ fuel s' /\
        (netip (rc s') = [] \/ (BUFSIZ < length (ptyobuf (rc s')) + 2)%nat)) (telrcv_loop fuel s).
Proof.
  revert s. induction fuel as [|fuel IH]; intros s Hw; cbn [telrcv_loop]; apply ok_bind, ok_of_rc;
    unfold id; destruct (netip (rc s)) as [|c rest] eqn:En; try (split; [done|by left]).
  { destruct Hw as [(? & ? & ? & ? & Hk) _]. rewrite En in Hk. simpl in Hk. lia. }
  destruct (_ <? _)%nat eqn:Hb; [apply Nat.ltb_lt in Hb; split; [done|by right]|].
  apply Nat.ltb_ge in Hb. apply ok_bind, ok_modify.
  assert (wf (length (ptyobuf (rc s))) fuel (set_netip rest s)) as Hw1.
  { destruct Hw as [(? & ? & ? & ? & Hk) He]. split; [|exact He]. rewrite En in Hk. simpl in Hk.
    split_and!; try done. simpl. lia. }
  unfold BUFSIZ in *. eapply ok_wf_bind; [apply ok_recv_octet; [exact Hw1|unfold BUFSIZ; lia]|].
  intros _ s1 Hw2. eapply ok_weaken; [apply IH; eapply wf_more; [|exact Hw2]; lia|].
  intros _ s2 [[(? & ? & ? & ? & ?) He] Hn]. split; [|done]. split; [|done]. split_and!; try done. lia.
Qed.


(** *** One octet at a time *)

Lemma telrcv_loop_cons fuel c l s :
  netip (rc s) = c :: l -> (length (ptyobuf (rc s)) + 2 <= BUFSIZ)%nat ->
  telrcv_loop (S fuel) s = (_ ← recv_octet c; telrcv_loop fuel) (set_netip l s).
Proof.
  intros En Hb. cbn [telrcv_loop]. unfold of_rc. rewrite run_bind_gets. unfold id. rewrite En.
  apply Nat.ltb_ge in Hb. rewrite Hb. by rewrite run_bind_modify.
Qed.

Lemma telrcv_loop_nil fuel s : netip (rc s) = [] -> telrcv_loop fuel s = (Ok (), s).
Proof. intros En. destruct fuel; cbn [telrcv_loop]; unfold of_rc; rewrite run_bind_gets; unfold id; by rewrite En. Qed.

Lemma telrcv_fuel s : telrcv s = telrcv_loop (length (netip (rc s))) s.
Proof. done. Qed.

(** Before [telnet] has called [get_slc_defaults], while the server waits for the
    terminal's type, IAC EC and IAC EL make it follow a null pointer. *)
Theorem erase_before_slc_defaults (c : Z) (s : tnd) :
  c = EC \/ c = EL -> slctab (sl s) = replicate (S NSLC) slcfun0 ->
  rstate (rc s) = TS_DATA -> ptyobuf (rc s) = [] -> netip (rc s) = [IAC; c] ->
  (telrcv s).1 = Ex Crash.
Proof.
  intros Hc Hs Hr Hp Hn. rewrite telrcv_fuel, Hn. cbn [length].
  rewrite (telrcv_loop_cons _ _ _ _ Hn) by (rewrite Hp; unfold BUFSIZ; simpl; lia).
  set (s1 := set_netip [c] s).
  assert (recv_octet IAC s1 = (Ok (), set_rstate TS_IAC s1)) as E1.
  { unfold recv_octet, of_rc. rewrite run_bind_gets. change (rstate (rc s1)) with (rstate (rc s)).
    by rewrite Hr. }
  rewrite (run_bind_ok _ _ _ _ _ E1).
  rewrite (telrcv_loop_cons _ c []) by (done || (simpl; rewrite Hp; unfold BUFSIZ; simpl; lia)).
  set (s2 := set_netip [] _).
  assert (recv_octet c s2 = recv_iac c s2) as E2 by done.
  cbv [mbind M_bind]. rewrite E2. clear E2.
  assert (forall f, exists t, (recv_erase f) s2 = (Ex Crash, t)) as Hcrash.
  { intros f. unfold recv_erase. assert (exists t, ptyflush s2 = (Ok (), t) /\ sl t = sl s) as (t & Et & El).
    { unfold ptyflush, of_rc. rewrite run_bind_gets. unfold id.
      change (ptyobuf (rc s2)) with (ptyobuf (rc s)). rewrite Hp, drop_nil. unfold pty_written, of_rc.
      rewrite run_bind_gets. case_match; [rewrite run_bind_modify|]; by eexists. }
    rewrite (run_bind_ok _ _ _ _ _ Et). unfold init_termbuf. rewrite run_bind_modify, run_bind_gets.
    unfold slc_char, slc_at. simpl. rewrite El, Hs.
    destruct (replicate (S NSLC) slcfun0 !! Z.to_nat f) as [e|] eqn:L; [|by eexists].
    apply lookup_replicate in L as [-> _]. by eexists. }
  destruct (Hcrash SLC_EC) as [t1 T1], (Hcrash SLC_EL) as [t2 T2].
  destruct Hc as [-> | ->]; unfold recv_iac; cbn [Z.eqb Pos.eqb IAC EC EL]; cbv [mbind M_bind].
  - simpl. by rewrite T1.
  - simpl. by rewrite T2.
Qed.

End RecvFacts.
