(* ===== verification/TelnetFrame.v ===== *)
(** * telnet and telnetd: suboptions on the way

    [frame body] is how a suboption goes over the network: IAC SB, the octets of [body] with
    IAC doubled, IAC SE.  telnetd's [telrcv] takes the frame apart and calls [suboption]
    with [body] in [subbuffer]. *)

From Stdlib Require Import ZArith Lia List Bool.
From stdpp Require Import base tactics list numbers functions.
From S2P Require Import Prelude TelnetNeg TelnetOpts Telnetd TelnetdStat TelnetdRecv TelnetdRecvFacts.

Local Open Scope Z_scope.

Definition double (c : Z) : list Z := if c =? IAC then [IAC; IAC] else [c].
Definition doubled (body : list Z) : list Z := concat (map double body).
Definition frame (body : list Z) : list Z := [IAC; SB] ++ doubled body ++ [IAC; SE].

Lemma doubled_app a b : doubled (a ++ b) = doubled a ++ doubled b.
Proof. unfold doubled. by rewrite map_app, concat_app. Qed.

Lemma doubled_cons c b : doubled (c :: b) = double c ++ doubled b.
Proof. done. Qed.

Lemma double_same c : c <> IAC -> double c = [c].
Proof. intros Hc%Z.eqb_neq. unfold double. by rewrite Hc. Qed.

Lemma doubled_length_le b : (length b <= length (doubled b))%nat.
Proof.
  induction b as [|c b IH]; [done|]. rewrite doubled_cons, length_app. unfold double.
  case_match; simpl; lia.
Qed.

Section Frame.
Context `{Termios_h}.

(** [subbuffer] when [body] has been gathered. *)
Definition gathered (body : list Z) (s : tnd) : list Z := body ++ drop (length body) (subbuffer (rc s)).

Definition gathering (st : ts) (body : list Z) (s : tnd) : tnd :=
  set_rstate st (set_subpointer (length body) (set_subbuffer (gathered body s) s)).

(** The state in which [suboption] is called. *)
Definition in_suboption (body : list Z) (s : tnd) : tnd :=
  set_netip [] (set_rstate TS_SE (set_subend (length body)
    (set_subpointer 0 (set_subbuffer (gathered (body ++ [IAC; SE]) s) s)))).

Lemma insert_gathered body c s :
  (length body < length (subbuffer (rc s)))%nat ->
  <[length body := c]> (gathered body s) = gathered (body ++ [c]) s.
Proof.
  intros Hl. unfold gathered. rewrite insert_app_r_alt, Nat.sub_diag by lia.
  destruct (drop (length body) (subbuffer (rc s))) as [|x l] eqn:E.
  { apply (f_equal length) in E. rewrite length_drop in E. simpl in E. lia. }
  rewrite length_app. simpl. rewrite <- app_assoc. simpl. do 2 f_equal.
  by rewrite <- drop_drop, E.
Qed.

Lemma accum_gathering st body c s :
  (length body < SUBBUFSIZE)%nat -> length (subbuffer (rc s)) = SUBBUFSIZE ->
  SB_ACCUM c (gathering st body s) = (Ok (), gathering st (body ++ [c]) s).
Proof.
  intros Hb Hl. unfold SB_ACCUM, of_rc. rewrite run_bind_gets.
  change (subpointer (rc (gathering st body s))) with (length body).
  apply Nat.ltb_lt in Hb as Hb'. rewrite Hb'. cbn [mwhen]. rewrite run_bind_modify.
  unfold modify. f_equal. symmetry. unfold gathering at 1. rewrite <- insert_gathered by lia.
  replace (length (body ++ [c])) with (S (length body)) by (rewrite length_app; simpl; lia). done.
Qed.

Definition takes (s : tnd) : Prop := (length (ptyobuf (rc s)) + 2 <= BUFSIZ)%nat.

Lemma loop_octet k c l s t :
  takes s -> recv_octet c (set_netip l s) = (Ok (), t) ->
  telrcv_loop (S k) (set_netip (c :: l) s) = telrcv_loop k t.
Proof.
  intros Hs E. rewrite (telrcv_loop_cons k c l) by done.
  change (set_netip l (set_netip (c :: l) s)) with (set_netip l s). by rewrite (run_bind_ok _ _ _ _ _ E).
Qed.

Lemma loop_double k c l body s :
  takes s -> (length body < SUBBUFSIZE)%nat -> length (subbuffer (rc s)) = SUBBUFSIZE ->
  telrcv_loop (length (double c) + k) (set_netip (double c ++ l) (gathering TS_SB body s)) =
  telrcv_loop k (set_netip l (gathering TS_SB (body ++ [c]) s)).
Proof.
  intros Hs Hb Hl. unfold double. destruct (Z.eqb_spec c IAC) as [->|Hc].
  - simpl length. simpl app. cbn [Nat.add].
    rewrite (loop_octet _ IAC (IAC :: l) _ (set_netip (IAC :: l) (gathering TS_SE body s))) by done.
    apply (loop_octet _ IAC l (gathering TS_SE body s)); [done|].
    unfold recv_octet, of_rc. rewrite run_bind_gets.
    change (rstate _) with TS_SE. cbv iota. change (IAC =? SE) with false. change (IAC =? IAC) with true. cbv iota.
    pose proof (accum_gathering TS_SE body IAC (set_netip l s) Hb Hl) as E.
    exact (run_bind_ok _ _ _ _ _ E).
  - simpl length. simpl app. cbn [Nat.add].
    apply (loop_octet k c l (gathering TS_SB body s)); [done|].
    unfold recv_octet, of_rc. rewrite run_bind_gets. change (rstate _) with TS_SB. cbv iota.
    apply Z.eqb_neq in Hc. rewrite Hc. exact (accum_gathering TS_SB body c (set_netip l s) Hb Hl).
Qed.

Lemma loop_doubled k l more : forall body s,
  takes s -> (length body + length more <= SUBBUFSIZE)%nat -> length (subbuffer (rc s)) = SUBBUFSIZE ->
  telrcv_loop (length (doubled more) + k) (set_netip (doubled more ++ l) (gathering TS_SB body s)) =
  telrcv_loop k (set_netip l (gathering TS_SB (body ++ more) s)).
Proof.
  induction more as [|c more IH]; intros body s Hs Hb Hl.
  { by rewrite app_nil_r. }
  simpl in Hb. rewrite doubled_cons, length_app, <- Nat.add_assoc, <- app_assoc.
  rewrite loop_double by (done || lia). rewrite IH; [by rewrite <- app_assoc|done| |done].
  rewrite length_app. simpl. lia.
Qed.

Lemma recv_se body s :
  (length body + 2 <= SUBBUFSIZE)%nat -> length (subbuffer (rc s)) = SUBBUFSIZE ->
  recv_octet SE (set_netip [] (gathering TS_SE body s)) =
  (_ ← suboption; go TS_DATA) (in_suboption body s).
Proof.
  intros Hb Hl. unfold recv_octet, of_rc. rewrite run_bind_gets. change (rstate _) with TS_SE. cbv iota.
  change (SE =? SE) with true. cbv iota. unfold sb_end. set (s1 := set_netip [] s).
  change (set_netip [] (gathering TS_SE body s)) with (gathering TS_SE body s1).
  rewrite (run_bind_assoc _ _ _). rewrite (run_bind_ok _ _ _ _ _ (accum_gathering TS_SE body IAC s1 ltac:(lia) Hl)).
  rewrite (run_bind_assoc _ _ _).
  rewrite (run_bind_ok _ _ _ _ _ (accum_gathering TS_SE (body ++ [IAC]) SE s1 ltac:(rewrite length_app; simpl; lia) Hl)).
  rewrite <- app_assoc. rewrite (run_bind_assoc _ _ _), run_bind_modify. rewrite (run_bind_assoc _ _ _).
  set (s2 := set_subpointer _ _).
  assert (SB_TERM s2 = (Ok (), in_suboption body s)) as E; [|exact (run_bind_ok _ _ _ _ _ E)].
  unfold SB_TERM, of_rc, SB_CLEAR. rewrite run_bind_gets, run_bind_modify. unfold modify. f_equal.
  assert (subpointer (rc s2) = length body) as ->.
  { unfold s2. simpl. rewrite length_app. simpl. lia. }
  done.
Qed.

(** A whole frame, when the server is at data and has room. *)
Lemma telrcv_frame body s :
  rstate (rc s) = TS_DATA -> takes s -> length (subbuffer (rc s)) = SUBBUFSIZE ->
  (length body + 2 <= SUBBUFSIZE)%nat ->
  telrcv (set_netip (frame body) s) = (_ ← suboption; _ ← go TS_DATA; telrcv_loop 0) (in_suboption body s).
Proof.
  intros Hst Hs Hl Hb. rewrite telrcv_fuel. change (netip (rc (set_netip (frame body) s))) with (frame body).
  assert (length (frame body) = S (S (length (doubled body) + 2))) as ->.
  { unfold frame. rewrite !length_app. simpl. lia. }
  unfold frame. cbn [app].
  rewrite (loop_octet _ IAC _ s (set_netip (SB :: doubled body ++ [IAC; SE]) (set_rstate TS_IAC s))); [|done|].
  2:{ unfold recv_octet, of_rc. rewrite run_bind_gets. change (rstate _) with (rstate (rc s)). by rewrite Hst. }
  rewrite (loop_octet _ SB _ (set_rstate TS_IAC s) (set_netip (doubled body ++ [IAC; SE]) (gathering TS_SB [] s))); [|done|].
  2:{ unfold gathering, gathered. rewrite drop_0. by destruct s as [? ? ? ? [] ?]. }
  rewrite loop_doubled by (done || (simpl; lia)). cbn [app].
  rewrite (loop_octet _ IAC _ (gathering TS_SB body s) (set_netip [SE] (gathering TS_SE body s))) by done.
  rewrite (telrcv_loop_cons 0 SE []) by done.
  change (set_netip [] (set_netip [SE] (gathering TS_SE body s))) with (set_netip [] (gathering TS_SE body s)).
  pose proof (recv_se body s Hb Hl) as E. cbv [mbind M_bind] in *. rewrite E.
  destruct (suboption _) as [[]]; [|done]. by destruct (go TS_DATA _) as [[]].
Qed.

(** ... after which the server is at data again. *)
Lemma telrcv_frame_done body s t :
  rstate (rc s) = TS_DATA -> takes s -> length (subbuffer (rc s)) = SUBBUFSIZE ->
  (length body + 2 <= SUBBUFSIZE)%nat ->
  suboption (in_suboption body s) = (Ok (), t) -> netip (rc t) = [] ->
  telrcv (set_netip (frame body) s) = (Ok (), set_rstate TS_DATA t).
Proof.
  intros Hst Hs Hl Hb E Hn. rewrite (telrcv_frame body s Hst Hs Hl Hb).
  rewrite (run_bind_ok _ _ _ _ _ E). unfold go. rewrite run_bind_modify. by apply telrcv_loop_nil.
Qed.

End Frame.
