(* ===== verification/TelnetEnviron.v ===== *)
(** * telnetd: what a suboption tells the server

    telnetd decodes the variables in place, in the buffer it reads them from ([env_vars]);
    that is the same as decoding a list ([env_decode]), whatever the client has sent.  Then
    what the suboptions about the window, the terminal's name and its speeds leave in
    the state. *)

From Stdlib Require Import ZArith Lia List Bool.
From stdpp Require Import base tactics list numbers functions.
From S2P Require Import Prelude TelnetNeg TelnetOpts Telnetd TelnetdStat TelnetdRecv TelnetdRecvFacts.
From S2P Require Import TelnetFrame.

Local Open Scope Z_scope.

(** ** Decoding a list *)

(** [cur]: the string so far; [name]: the variable whose value it is, when it is one. *)
Definition env_finish (cur : list Z) (name : option (list Z)) : envcall :=
  match name with
  | Some n => Setenv (cstring n) (cstring cur)
  | None => Unsetenv (cstring cur)
  end.

Fixpoint env_decode (rest cur : list Z) (name : option (list Z)) : list envcall :=
  match rest with
  | [] => [env_finish cur name]
  | c :: rest =>
      if c =? NEW_ENV_VALUE then env_decode rest [] (Some (default cur name))
      else if (c =? NEW_ENV_VAR) || (c =? ENV_USERVAR) then env_finish cur name :: env_decode rest [] None
      else if c =? ENV_ESC then
        match rest with
        | d :: rest => env_decode rest (cur ++ [d]) name
        | [] => [env_finish cur name]
        end
      else env_decode rest (cur ++ [c]) name
  end.

(** ** Decoding in place *)

Section Server.
Context `{Termios_h}.

Lemma cstring_app_nul a l : cstring (a ++ 0 :: l) = cstring a.
Proof. induction a as [|c a IH]; [done|]. simpl. by rewrite IH. Qed.

(** The octets of [m] from [i] to [j]. *)
Definition span (m : list Z) (i j : nat) : list Z := take (j - i) (drop i m).

Lemma span_nil m i : span m i i = [].
Proof. unfold span. by rewrite Nat.sub_diag. Qed.

Lemma span_insert_out m i j k c : (k < i \/ j <= k)%nat -> span (<[k := c]> m) i j = span m i j.
Proof.
  intros Hk. unfold span. apply list_eq. intros n.
  destruct (decide (n < j - i)%nat); [|by rewrite !lookup_take_ge by lia].
  rewrite !lookup_take_lt, !lookup_drop by done. apply list_lookup_insert_ne. lia.
Qed.

Lemma span_snoc m i j c : (i <= j)%nat -> m !! j = Some c -> span m i (S j) = span m i j ++ [c].
Proof.
  intros Hij Hc. unfold span. rewrite Nat.sub_succ_l by done.
  apply take_S_r. rewrite lookup_drop. by replace (i + (j - i))%nat with j by lia.
Qed.

Lemma span_cons m i j c : (i < j)%nat -> m !! i = Some c -> span m i j = c :: span m (S i) j.
Proof.
  intros Hij Hc. unfold span. rewrite (drop_S m c i Hc).
  replace (j - i)%nat with (S (j - S i)) by lia. done.
Qed.

Lemma span_empty m i j : (j <= i)%nat -> span m i j = [].
Proof. intros Hij. unfold span. by replace (j - i)%nat with O by lia. Qed.

(** The string at [i] when a NUL stands at [j]. *)
Lemma string_at m i j : (i <= j)%nat -> m !! j = Some 0 -> cstring (drop i m) = cstring (span m i j).
Proof.
  intros Hij Hj. assert (drop i m = span m i j ++ 0 :: drop (S j) m) as ->; [|apply cstring_app_nul].
  unfold span. rewrite <- (take_drop (j - i) (drop i m)) at 1. f_equal.
  rewrite drop_drop. replace (i + (j - i))%nat with j by lia. by apply drop_S.
Qed.

(** What [env_vars] has in memory. *)
Record decoding (m : list Z) (p e cp varp : nat) (valp : option nat) (rest cur : list Z)
    (name : option (list Z)) : Prop := {
  dc_len : length m = SUBBUFSIZE;
  dc_end : (p <= e < SUBBUFSIZE)%nat;
  dc_rest : span m p e = rest;
  dc_cp : (default varp valp <= cp <= p)%nat;
  dc_cur : span m (default varp valp) cp = cur;
  dc_name : match valp, name with
            | None, None => True
            | Some v, Some n => exists z, (varp <= z < v)%nat /\ m !! z = Some 0 /\
                                          cstring (span m varp z) = cstring n
            | _, _ => False
            end }.

Lemma decoding_end m p e cp varp valp rest cur name :
  decoding m p e cp varp valp rest cur name ->
  let m' := <[cp := 0]> m in
  length m' = SUBBUFSIZE /\
  cstring (drop (default varp valp) m') = cstring cur /\
  match valp, name with
  | Some v, Some n => cstring (drop varp m') = cstring n
  | None, None => True
  | _, _ => False
  end.
Proof.
  intros [Hl He Hr Hc Hcur Hn] m'. unfold m'. rewrite length_insert. split; [done|].
  assert (<[cp := 0]> m !! cp = Some 0) as H0 by (apply list_lookup_insert_eq; lia).
  split.
  - rewrite (string_at _ _ cp) by (done || lia). rewrite span_insert_out by lia. by rewrite Hcur.
  - destruct valp as [v|], name as [n|]; try done. destruct Hn as (z & Hz & Ez & En). simpl in Hc.
    rewrite (string_at _ _ z) by (rewrite ?list_lookup_insert_ne by lia; done || lia).
    by rewrite span_insert_out by lia.
Qed.

(** An octet is decoded. *)
Lemma decoding_put m p e cp varp valp c rest cur name k :
  decoding m p e cp varp valp rest cur name -> (0 < k)%nat -> (p + k <= e)%nat ->
  decoding (<[cp := c]> m) (p + k) e (S cp) varp valp (drop k rest) (cur ++ [c]) name.
Proof.
  intros [Hl He Hr Hc Hcur Hn] Hk Hpk. split.
  - by rewrite length_insert.
  - lia.
  - rewrite span_insert_out by lia. subst rest. unfold span. rewrite <- drop_drop, skipn_firstn_comm.
    f_equal. lia.
  - lia.
  - rewrite (span_snoc _ _ cp c) by (lia || (apply list_lookup_insert_eq; lia)).
    by rewrite span_insert_out, Hcur by lia.
  - destruct valp as [v|], name as [n|]; try done. destruct Hn as (z & Hz & Ez & En). simpl in Hc.
    exists z. rewrite list_lookup_insert_ne, span_insert_out by lia. done.
Qed.

Lemma decoding_next m p e cp varp valp c rest cur name :
  decoding m p e cp varp valp (c :: rest) cur name ->
  (p < e)%nat /\ m !! p = Some c /\ span m (S p) e = rest.
Proof.
  intros [Hl He Hr _ _ _]. assert (p < e)%nat as Hp.
  { destruct (decide (p < e)%nat); [done|]. rewrite span_empty in Hr by lia. done. }
  destruct (lookup_lt_is_Some_2 m p) as [x Ex]; [lia|].
  rewrite (span_cons _ _ _ x Hp Ex) in Hr. by injection Hr as -> ->.
Qed.

Lemma decoding_done m p e cp varp valp cur name :
  decoding m p e cp varp valp [] cur name -> p = e.
Proof.
  intros [Hl He Hr _ _ _]. destruct (decide (p < e)%nat) as [Hp|]; [|lia].
  destruct (lookup_lt_is_Some_2 m p) as [x Ex]; [lia|]. by rewrite (span_cons _ _ _ x Hp Ex) in Hr.
Qed.

(** The state while the variables are decoded. *)
Definition at_ (m : list Z) (p : nat) (l : list envcall) (s : tnd) : tnd :=
  set_environ l (set_subpointer p (set_subbuffer m s)).

Lemma at_get m p l s c :
  m !! p = Some c -> SB_GET (at_ m p l s) = (Ok c, at_ m (S p) l s).
Proof.
  intros E. unfold SB_GET, of_rc. rewrite run_bind_gets, run_bind_modify.
  change (subbuffer (id (rc (at_ m p l s)))) with m. change (subpointer (id (rc (at_ m p l s)))) with p.
  by rewrite E.
Qed.

Lemma at_put m p l s i c : (i < SUBBUFSIZE)%nat -> sb_put i c (at_ m p l s) = (Ok (), at_ (<[i := c]> m) p l s).
Proof. intros Hi. unfold sb_put. by apply Nat.ltb_lt in Hi as ->. Qed.

Lemma at_set m p l s varp valp cur name :
  cstring (drop (default varp valp) m) = cstring cur ->
  match valp, name with
  | Some v, Some n => cstring (drop varp m) = cstring n
  | None, None => True
  | _, _ => False
  end ->
  env_set varp valp (at_ m p l s) = (Ok (), at_ m p (l ++ [env_finish cur name]) s).
Proof.
  intros Hc Hn. unfold env_set. rewrite run_bind_gets.
  change (sb_string varp (at_ m p l s)) with (cstring (drop varp m)).
  destruct valp as [v|], name as [n|]; try done; simpl in Hc.
  - rewrite run_bind_gets. change (sb_string v (at_ m p l s)) with (cstring (drop v m)).
    rewrite Hc, Hn. done.
  - rewrite Hc. done.
Qed.

Lemma env_vars_spec fuel s : forall m p l cp varp valp rest cur name,
  decoding m p (subend (rc s)) cp varp valp rest cur name -> (length rest < fuel)%nat ->
  exists m', length m' = SUBBUFSIZE /\
    env_vars fuel false cp varp valp (at_ m p l s) =
    (Ok (), at_ m' (subend (rc s)) (l ++ env_decode rest cur name) s).
Proof.
  induction fuel as [|fuel IH]; intros m p l cp varp valp rest cur name Hd Hf; [lia|].
  cbn [env_vars]. unfold SB_EOF, of_rc. rewrite run_bind_gets.
  change (subend (rc (at_ m p l s))) with (subend (rc s)). change (subpointer (rc (at_ m p l s))) with p.
  pose proof (decoding_end _ _ _ _ _ _ _ _ _ Hd) as (Hl' & Hc' & Hn').
  assert (cp < SUBBUFSIZE)%nat as Hcp by (destruct Hd; lia).
  destruct rest as [|c rest].
  { rewrite <- (decoding_done _ _ _ _ _ _ _ _ Hd). rewrite Nat.leb_refl.
    rewrite (run_bind_ok _ _ _ _ _ (at_put _ _ _ _ _ _ Hcp)).
    exists (<[cp := 0]> m). split; [done|]. by apply at_set. }
  destruct (decoding_next _ _ _ _ _ _ _ _ _ _ Hd) as (Hp & Ep & Er).
  destruct (Nat.leb_spec (subend (rc s)) p); [lia|].
  rewrite (run_bind_ok _ _ _ _ _ (at_get _ _ l s _ Ep)). rewrite run_bind_gets. cbv zeta.
  change (subpointer (id (rc (at_ m (S p) l s)))) with (S p). cbn [env_code env_decode].
  simpl in Hf.
  destruct (c =? NEW_ENV_VALUE).
  { rewrite (run_bind_ok _ _ _ _ _ (at_put _ _ _ _ _ _ Hcp)).
    apply IH; [|lia]. destruct Hd as [Hl He Hr Hc Hcur Hn]. split; try done; try lia.
    - by rewrite span_insert_out by lia.
    - apply span_nil.
    - destruct valp as [v|], name as [n|]; try done; simpl in *.
      + destruct Hn as (z & Hz & Ez & En). exists z.
        rewrite list_lookup_insert_ne, span_insert_out by lia. split_and!; done || lia.
      + exists cp. split; [lia|]. split; [apply list_lookup_insert_eq; lia|].
        by rewrite span_insert_out, Hcur by lia. }
  destruct ((c =? NEW_ENV_VAR) || (c =? ENV_USERVAR)).
  { rewrite (run_bind_ok _ _ _ _ _ (at_put _ _ _ _ _ _ Hcp)).
    rewrite (run_bind_ok _ _ _ _ _ (at_set _ _ l s _ _ _ _ Hc' Hn')).
    destruct (IH (<[cp := 0]> m) (S p) (l ++ [env_finish cur name]) (S p) (S p) None rest [] None) as (m' & Hm & ->).
    - destruct Hd as [Hl He Hr Hc Hcur Hn]. split; try done; try lia.
      + by rewrite span_insert_out by lia.
      + apply span_nil.
    - lia.
    - exists m'. split; [done|]. by rewrite <- app_assoc. }
  destruct (c =? ENV_ESC).
  - unfold SB_EOF, of_rc. rewrite run_bind_gets.
    change (subend (rc (at_ m (S p) l s))) with (subend (rc s)). change (subpointer (rc (at_ m (S p) l s))) with (S p).
    destruct rest as [|d rest].
    + assert (S p = subend (rc s)) as Ee.
      { destruct Hd. destruct (decide (S p < subend (rc s))%nat) as [Hlt|]; [|lia].
        destruct (lookup_lt_is_Some_2 m (S p)) as [x Ex]; [lia|]. by rewrite (span_cons _ _ _ x Hlt Ex) in Er. }
      destruct (Nat.leb_spec (subend (rc s)) (S p)); [|lia].
      apply (IH m (S p) l cp varp valp [] cur name); [|simpl in *; lia].
      destruct Hd as [Hl He Hr Hc Hcur Hn]. split; done || lia.
    + assert (S p < subend (rc s))%nat as Hp2.
      { destruct (decide (S p < subend (rc s))%nat); [done|]. rewrite span_empty in Er by lia. done. }
      destruct (lookup_lt_is_Some_2 m (S p)) as [x Ex]; [destruct Hd; lia|].
      pose proof Er as Er'. rewrite (span_cons _ _ _ x Hp2 Ex) in Er'. injection Er' as -> _.
      destruct (Nat.leb_spec (subend (rc s)) (S p)); [lia|].
      rewrite (run_bind_ok _ _ _ _ _ (at_get _ _ l s _ Ex)).
      rewrite (run_bind_ok _ _ _ _ _ (at_put _ _ _ _ _ _ Hcp)).
      apply IH; [|simpl in *; lia].
      pose proof (decoding_put _ _ _ _ _ _ d _ _ _ 2 Hd) as Hd'. rewrite Nat.add_comm in Hd'. apply Hd'; lia.
  - rewrite (run_bind_ok _ _ _ _ _ (at_put _ _ _ _ _ _ Hcp)).
    apply IH; [|lia].
    pose proof (decoding_put _ _ _ _ _ _ c _ _ _ 1 Hd) as Hd'. rewrite Nat.add_comm in Hd'. apply Hd'; lia.
Qed.

(** ** The body of a suboption in the buffer *)

Lemma at_self s : at_ (subbuffer (rc s)) (subpointer (rc s)) (environ (rc s)) s = s.
Proof. by destruct s as [? ? ? ? [] ?]. Qed.

Definition body_at (body : list Z) (m : list Z) : Prop :=
  length m = SUBBUFSIZE /\ (length body < SUBBUFSIZE)%nat /\ take (length body) m = body.

Lemma body_at_lookup body m i c : body_at body m -> body !! i = Some c -> m !! i = Some c.
Proof.
  intros (_ & _ & E) Hi. rewrite <- E in Hi. pose proof (lookup_lt_Some _ _ _ Hi) as Hl.
  rewrite length_take in Hl. by rewrite lookup_take_lt in Hi by lia.
Qed.

Lemma gathered_body body s :
  (length body + 2 <= SUBBUFSIZE)%nat -> length (subbuffer (rc s)) = SUBBUFSIZE ->
  body_at body (gathered (body ++ [IAC; SE]) s).
Proof.
  intros Hb Hl. unfold gathered. split_and!.
  - rewrite !length_app, length_drop, ?length_app. simpl. lia.
  - lia.
  - by rewrite <- app_assoc, take_app_length.
Qed.

Lemma next_octet body m p l s c :
  body_at body m -> subend (rc s) = length body -> body !! p = Some c ->
  sb_next (at_ m p l s) = (Ok (Some c), at_ m (S p) l s).
Proof.
  intros Hm He Hc. unfold sb_next, SB_EOF, of_rc. rewrite run_bind_gets.
  change (subend (rc (at_ m p l s))) with (subend (rc s)). change (subpointer (rc (at_ m p l s))) with p.
  pose proof (lookup_lt_Some _ _ _ Hc). destruct (Nat.leb_spec (subend (rc s)) p); [lia|].
  by rewrite (run_bind_ok _ _ _ _ _ (at_get m p l s c (body_at_lookup _ _ _ _ Hm Hc))).
Qed.

Lemma not_eof (body m : list Z) p l s :
  subend (rc s) = length body -> (p < length body)%nat -> SB_EOF (at_ m p l s) = (Ok false, at_ m p l s).
Proof.
  intros He Hp. unfold SB_EOF, of_rc, gets.
  change (subend (rc (at_ m p l s))) with (subend (rc s)). change (subpointer (rc (at_ m p l s))) with p.
  by destruct (Nat.leb_spec (subend (rc s)) p); [lia|].
Qed.

(** [setenv] is called for the variables of the body. *)
Lemma environ_taken k x rest m l s :
  k = NEW_ENV_VAR \/ k = ENV_USERVAR ->
  body_at (TELOPT_NEW_ENVIRON :: TELQUAL_IS :: k :: x :: rest) m ->
  subend (rc s) = length (TELOPT_NEW_ENVIRON :: TELQUAL_IS :: k :: x :: rest) ->
  exists m' t, suboption (at_ m 0 l s) = (Ok (), at_ m' (subend (rc s)) (l ++ env_decode (x :: rest) [] None) t) /\
    rc t = rc s /\ length m' = SUBBUFSIZE.
Proof.
  intros Hk Hm He. remember (env_decode (x :: rest) [] None) as calls eqn:Hcalls.
  set (body := _ :: _) in *. unfold suboption.
  rewrite (run_bind_ok _ _ _ _ _ (at_get m 0 l s TELOPT_NEW_ENVIRON (body_at_lookup _ _ 0 _ Hm eq_refl))).
  cbn -[suboption_environ]. unfold suboption_environ. cbv zeta.
  change (negb (TELOPT_NEW_ENVIRON =? TELOPT_NEW_ENVIRON)) with false.
  rewrite (run_bind_ok _ _ _ _ _ (next_octet body m 1 l s TELQUAL_IS Hm He eq_refl)).
  change (negb (TELQUAL_IS =? TELQUAL_IS) && negb (TELQUAL_IS =? TELQUAL_INFO)) with false.
  change (TELQUAL_IS =? TELQUAL_IS) with true. cbv iota. cbn [mwhen].
  set (t := set_clocks (<[clk_environsubopt := clocks s clk_system + 1]>
              (<[clk_system := clocks s clk_system + 1]> (clocks s))) s).
  assert (settimer clk_environsubopt (at_ m 2 l s) = (Ok (), at_ m 2 l t)) as E by done.
  rewrite (run_bind_ok _ _ _ _ _ E). clear E.
  assert (env_skip (S SUBBUFSIZE) NEW_ENV_VAR (at_ m 2 l t) = (Ok (), at_ m 3 l t)) as E.
  { cbn [env_skip]. rewrite (run_bind_ok _ _ _ _ _ (not_eof body m 2 l t He ltac:(simpl; lia))).
    rewrite (run_bind_ok _ _ _ _ _ (at_get m 2 l t k (body_at_lookup _ _ 2 _ Hm eq_refl))).
    destruct Hk as [-> | ->]; done. }
  rewrite (run_bind_ok _ _ _ _ _ E). clear E.
  rewrite (run_bind_ok _ _ _ _ _ (not_eof body m 3 l t He ltac:(simpl; lia))).
  unfold of_rc. rewrite run_bind_gets. change (subpointer (rc (at_ m 3 l t))) with 3%nat.
  destruct (env_vars_spec (S SUBBUFSIZE) t m 3 l 3 3 None (x :: rest) [] None) as (m' & Hm' & E).
  - destruct Hm as (Hl & Hb & Ht). change (subend (rc t)) with (subend (rc s)). rewrite He.
    split; try done; try (simpl in *; lia).
    unfold span. rewrite <- skipn_firstn_comm, Ht. done.
  - destruct Hm as (_ & Hb & _). simpl in *. lia.
  - exists m', t. split; [|done]. rewrite Hcalls. exact E.
Qed.

(** Nothing happens for a body without variables. *)
Lemma environ_taken_none m l s :
  body_at [TELOPT_NEW_ENVIRON; TELQUAL_IS] m -> subend (rc s) = 2%nat ->
  exists t, suboption (at_ m 0 l s) = (Ok (), at_ m 2 l t) /\ rc t = rc s.
Proof.
  intros Hm He. unfold suboption.
  rewrite (run_bind_ok _ _ _ _ _ (at_get m 0 l s TELOPT_NEW_ENVIRON (body_at_lookup _ _ 0 _ Hm eq_refl))).
  cbn -[suboption_environ]. unfold suboption_environ. cbv zeta.
  change (negb (TELOPT_NEW_ENVIRON =? TELOPT_NEW_ENVIRON)) with false.
  rewrite (run_bind_ok _ _ _ _ _ (next_octet _ m 1 l s TELQUAL_IS Hm He eq_refl)).
  change (negb (TELQUAL_IS =? TELQUAL_IS) && negb (TELQUAL_IS =? TELQUAL_INFO)) with false.
  change (TELQUAL_IS =? TELQUAL_IS) with true. cbv iota. cbn [mwhen].
  set (t := set_clocks (<[clk_environsubopt := clocks s clk_system + 1]>
              (<[clk_system := clocks s clk_system + 1]> (clocks s))) s).
  assert (settimer clk_environsubopt (at_ m 2 l s) = (Ok (), at_ m 2 l t)) as E by done.
  rewrite (run_bind_ok _ _ _ _ _ E). clear E.
  assert (SB_EOF (at_ m 2 l t) = (Ok true, at_ m 2 l t)) as E.
  { unfold SB_EOF, of_rc, gets. change (subend (rc (at_ m 2 l t))) with (subend (rc s)). by rewrite He. }
  exists t. split; [|done].
  assert (env_skip (S SUBBUFSIZE) NEW_ENV_VAR (at_ m 2 l t) = (Ok (), at_ m 2 l t)) as E2.
  { cbn [env_skip]. by rewrite (run_bind_ok _ _ _ _ _ E). }
  rewrite (run_bind_ok _ _ _ _ _ E2). by rewrite (run_bind_ok _ _ _ _ _ E).
Qed.

(** ** The terminal's size, name and speed *)

Lemma his_will_at o m p l s :
  his_state_is_will (options (ng s)) o = true -> his_will o (at_ m p l s) = (Ok true, at_ m p l s).
Proof. intros Ho. unfold his_will, of_ng, gets. by rewrite <- Ho. Qed.

Lemma naws_taken a b c d m l s :
  his_state_is_will (options (ng s)) TELOPT_NAWS = true ->
  body_at [TELOPT_NAWS; a; b; c; d] m -> subend (rc s) = 5%nat ->
  exists t, suboption (at_ m 0 l s) = (Ok (), t) /\ rc t = rc (at_ m 5 l s) /\
    def_col (ty t) = Z.lor (Z.shiftl a 8) b /\ def_row (ty t) = Z.lor (Z.shiftl c 8) d /\
    (terminit (ty s) = true -> winsize (ty t) = Some (u16 (def_col (ty t)), u16 (def_row (ty t)))).
Proof.
  intros Ho Hm He. unfold suboption.
  rewrite (run_bind_ok _ _ _ _ _ (at_get m 0 l s TELOPT_NAWS (body_at_lookup _ _ 0 _ Hm eq_refl))).
  cbn -[suboption_naws]. unfold suboption_naws.
  rewrite (run_bind_ok _ _ _ _ _ (his_will_at TELOPT_NAWS m 1 l s Ho)). cbn [mwhen].
  rewrite (run_bind_ok _ _ _ _ _ (next_octet _ m 1 l s a Hm He eq_refl)).
  rewrite (run_bind_ok _ _ _ _ _ (next_octet _ m 2 l s b Hm He eq_refl)).
  rewrite (run_bind_ok _ _ _ _ _ (next_octet _ m 3 l s c Hm He eq_refl)).
  rewrite (run_bind_ok _ _ _ _ _ (not_eof [TELOPT_NAWS; a; b; c; d] m 4 l s He ltac:(simpl; lia))).
  rewrite (run_bind_ok _ _ _ _ _ (at_get m 4 l s d (body_at_lookup _ _ 4 _ Hm eq_refl))).
  change (clientstat TELOPT_NAWS) with clientstat_naws. unfold clientstat_naws, init_termbuf.
  rewrite !run_bind_modify. unfold of_ty. rewrite run_bind_gets.
  destruct (terminit (ty s)) eqn:T; simpl; rewrite T; cbn [mwhen]; rewrite ?run_bind_modify; eexists;
    (split; [reflexivity|]); by split_and!.
Qed.

Lemma sb_name_spec name : forall room pre m l s acc body,
  body_at body m -> subend (rc s) = length body -> body = pre ++ name -> (length name <= room)%nat ->
  sb_name room acc (at_ m (length pre) l s) =
  (Ok (acc ++ map tolower name), at_ m (length body) l s).
Proof.
  induction name as [|c name IH]; intros room pre m l s acc body Hm He Hb Hr.
  - rewrite app_nil_r in Hb. subst body. rewrite app_nil_r. destruct room; [done|]. cbn [sb_name].
    unfold SB_EOF, of_rc. rewrite run_bind_gets.
    change (subend (rc (at_ m (length pre) l s))) with (subend (rc s)).
    change (subpointer (rc (at_ m (length pre) l s))) with (length pre). by rewrite He, Nat.leb_refl.
  - simpl in Hr. destruct room as [|room]; [lia|]. cbn [sb_name].
    assert (body !! length pre = Some c) as Hc by (subst body; apply list_lookup_middle; done).
    rewrite (run_bind_ok _ _ _ _ _ (not_eof body m (length pre) l s He (lookup_lt_Some _ _ _ Hc))).
    rewrite (run_bind_ok _ _ _ _ _ (at_get m _ l s c (body_at_lookup _ _ _ _ Hm Hc))).
    pose proof (IH room (pre ++ [c]) m l s (acc ++ [tolower c]) body Hm He) as E.
    rewrite length_app in E. simpl in E. rewrite Nat.add_comm in E. simpl in E.
    rewrite E; [|by rewrite <- app_assoc|lia]. by rewrite <- app_assoc.
Qed.

Lemma ttype_taken name m l s :
  his_state_is_will (options (ng s)) TELOPT_TTYPE = true ->
  body_at (TELOPT_TTYPE :: TELQUAL_IS :: name) m -> subend (rc s) = (2 + length name)%nat ->
  (length name <= 40)%nat ->
  exists t, suboption (at_ m 0 l s) = (Ok (), set_terminaltype (Some (cstring (map tolower name))) t) /\
    rc t = rc (at_ m (2 + length name) l s).
Proof.
  intros Ho Hm He Hn. unfold suboption.
  rewrite (run_bind_ok _ _ _ _ _ (at_get m 0 l s TELOPT_TTYPE (body_at_lookup _ _ 0 _ Hm eq_refl))).
  cbn -[suboption_ttype]. unfold suboption_ttype.
  rewrite (run_bind_ok _ _ _ _ _ (his_will_at TELOPT_TTYPE m 1 l s Ho)). cbn [mwhen].
  set (t := set_clocks (<[clk_ttypesubopt := clocks s clk_system + 1]>
              (<[clk_system := clocks s clk_system + 1]> (clocks s))) s).
  assert (settimer clk_ttypesubopt (at_ m 1 l s) = (Ok (), at_ m 1 l t)) as E by done.
  rewrite (run_bind_ok _ _ _ _ _ E). clear E.
  assert (sb_is TELQUAL_IS (at_ m 1 l t) = (Ok true, at_ m 2 l t)) as E.
  { unfold sb_is. rewrite (run_bind_ok _ _ _ _ _ (not_eof (TELOPT_TTYPE :: TELQUAL_IS :: name) m 1 l t He ltac:(simpl; lia))).
    by rewrite (run_bind_ok _ _ _ _ _ (at_get m 1 l t _ (body_at_lookup _ _ 1 _ Hm eq_refl))). }
  rewrite (run_bind_ok _ _ _ _ _ E). clear E.
  pose proof (sb_name_spec name 40 [TELOPT_TTYPE; TELQUAL_IS] m l t [] _ Hm He eq_refl Hn) as E. simpl in E.
  cbn [mwhen]. rewrite (run_bind_ok _ _ _ _ _ E). by eexists.
Qed.

Lemma body_at_drop body m i :
  body_at body m -> (i <= length body)%nat -> drop i m = drop i body ++ drop (length body) m.
Proof.
  intros (_ & _ & E) Hi. rewrite <- (take_drop (length body) m) at 1. rewrite E.
  by rewrite drop_app_le.
Qed.

Lemma past_comma_spec fuel A B : forall pre body m l s,
  body_at body m -> subend (rc s) = length body -> body = pre ++ A ++ 44 :: B -> 44 ∉ A ->
  (length A < fuel)%nat ->
  sb_past_comma fuel (at_ m (length pre) l s) = (Ok (), at_ m (length pre + length A + 1) l s).
Proof.
  revert A. induction fuel as [|fuel IH]; intros A pre body m l s Hm He Hb HA Hf; [lia|].
  cbn [sb_past_comma]. destruct A as [|c A]; simpl in Hb, Hf.
  - assert (body !! length pre = Some 44) as Hc by (subst body; apply list_lookup_middle; done).
    rewrite (run_bind_ok _ _ _ _ _ (at_get m _ l s 44 (body_at_lookup _ _ _ _ Hm Hc))).
    simpl. rewrite Nat.add_0_r, Nat.add_comm. done.
  - apply not_elem_of_cons in HA as [Hc44 HA].
    assert (body !! length pre = Some c) as Hc by (subst body; apply list_lookup_middle; done).
    rewrite (run_bind_ok _ _ _ _ _ (at_get m _ l s c (body_at_lookup _ _ _ _ Hm Hc))).
    destruct (Z.eqb_spec c 44); [congruence|].
    rewrite (run_bind_ok _ _ _ _ _ (not_eof body m (S (length pre)) l s He
      ltac:(subst body; rewrite !length_app; simpl; rewrite length_app; simpl; lia))).
    pose proof (IH A (pre ++ [c]) body m l s Hm He) as E. rewrite length_app in E. simpl in E.
    rewrite Nat.add_comm in E. simpl in E. rewrite E; [|by rewrite <- app_assoc|done|lia].
    do 2 f_equal. simpl. lia.
Qed.

Lemma atoi_at body m p l s n :
  body_at body m -> (p <= length body)%nat -> atoi (drop p body ++ drop (length body) m) = Some n ->
  sb_atoi (at_ m p l s) = (Ok n, at_ m p l s).
Proof.
  intros Hm Hp E. unfold sb_atoi, of_rc. rewrite run_bind_gets.
  change (drop (subpointer (id (rc (at_ m p l s)))) (subbuffer (id (rc (at_ m p l s))))) with (drop p m).
  by rewrite (body_at_drop body m p Hm Hp), E.
Qed.

Lemma tspeed_taken A B x y m l s :
  let body := TELOPT_TSPEED :: TELQUAL_IS :: A ++ 44 :: B in
  his_state_is_will (options (ng s)) TELOPT_TSPEED = true ->
  body_at body m -> subend (rc s) = length body -> 44 ∉ A -> B <> [] ->
  (forall r, atoi (A ++ 44 :: r) = Some x) -> atoi (B ++ drop (length body) m) = Some y ->
  exists t, suboption (at_ m 0 l s) = (Ok (), t) /\
    rc t = rc (at_ m (2 + length A + 1) l s) /\ def_tspeed (ty t) = x /\ def_rspeed (ty t) = y.
Proof.
  intros body Ho Hm He HA HB Hx Hy. unfold suboption.
  rewrite (run_bind_ok _ _ _ _ _ (at_get m 0 l s TELOPT_TSPEED (body_at_lookup _ _ 0 _ Hm eq_refl))).
  change (TELOPT_TSPEED =? TELOPT_TSPEED) with true. cbv iota. unfold suboption_tspeed.
  rewrite (run_bind_ok _ _ _ _ _ (his_will_at TELOPT_TSPEED m 1 l s Ho)). cbn [mwhen].
  set (t := set_clocks (<[clk_tspeedsubopt := clocks s clk_system + 1]>
              (<[clk_system := clocks s clk_system + 1]> (clocks s))) s).
  assert (settimer clk_tspeedsubopt (at_ m 1 l s) = (Ok (), at_ m 1 l t)) as E by done.
  rewrite (run_bind_ok _ _ _ _ _ E). clear E.
  assert (length body = 2 + length A + 1 + length B)%nat as Hlen.
  { unfold body. simpl. rewrite length_app. simpl. lia. }
  assert (0 < length B)%nat by (destruct B; [done|simpl; lia]).
  assert (sb_is TELQUAL_IS (at_ m 1 l t) = (Ok true, at_ m 2 l t)) as E.
  { unfold sb_is. rewrite (run_bind_ok _ _ _ _ _ (not_eof body m 1 l t He ltac:(lia))).
    by rewrite (run_bind_ok _ _ _ _ _ (at_get m 1 l t _ (body_at_lookup _ _ 1 _ Hm eq_refl))). }
  rewrite (run_bind_ok _ _ _ _ _ E). clear E. cbn [mwhen].
  rewrite (run_bind_ok _ _ _ _ _ (atoi_at body m 2 l t x Hm ltac:(lia)
    ltac:(change (drop 2 body) with (A ++ 44 :: B); rewrite <- app_assoc; apply Hx))).
  assert (sb_past_comma SUBBUFSIZE (at_ m 2 l t) = (Ok (), at_ m (2 + length A + 1) l t)) as E.
  { apply (past_comma_spec SUBBUFSIZE A B [TELOPT_TSPEED; TELQUAL_IS] body); try done.
    destruct Hm as (_ & Hb & _). lia. }
  rewrite (run_bind_ok _ _ _ _ _ E). clear E.
  rewrite (run_bind_ok _ _ _ _ _ (not_eof body m (2 + length A + 1) l t He ltac:(lia))). cbn [negb mwhen].
  assert (drop (2 + length A + 1) body = B) as Hdrop.
  { unfold body. replace (2 + length A + 1)%nat with (S (S (length A + 1))) by lia. cbn [drop].
    rewrite (cons_middle 44 A B), app_assoc. apply drop_app_length'. by rewrite length_app. }
  rewrite (run_bind_ok _ _ _ _ _ (atoi_at body m (2 + length A + 1) l t y Hm ltac:(lia) ltac:(by rewrite Hdrop))).
  change (clientstat TELOPT_TSPEED) with clientstat_tspeed. unfold clientstat_tspeed, init_termbuf.
  rewrite !run_bind_modify. unfold of_ty. rewrite run_bind_gets.
  destruct (terminit _); cbn [mwhen].
  - unfold tty_rspeed, tty_tspeed, upd_termbuf, set_termbuf_, netflush. rewrite !run_bind_modify.
    unfold modify. case_decide; eexists; (split; [reflexivity|]); by split_and!.
  - eexists; (split; [reflexivity|]); by split_and!.
Qed.

End Server.
