(* ===== verification/TelnetdData.v ===== *)
(** * telnetd: data goes through unchanged

    [nvt] is how the network virtual terminal of RFC 854 writes data: an octet 255 twice, and,
    without binary mode, a NUL behind a carriage return.  [telrcv] undoes it, and nothing
    else happens; how the octets were cut into reads does not matter. *)

From Stdlib Require Import ZArith Lia List Bool.
From stdpp Require Import base tactics list numbers functions.
From S2P Require Import Prelude TelnetNeg TelnetOpts Telnetd TelnetdStat TelnetdRecv.
From S2P Require Import TelnetFocus TelnetdFacts TelnetdRecvFacts.

Local Open Scope Z_scope.

Definition nvt_octet (binary : bool) (c : Z) : list Z :=
  if c =? IAC then [IAC; IAC] else if (c =? 13) && negb binary then [13; 0] else [c].
Definition nvt (binary : bool) (data : list Z) : list Z := concat (map (nvt_octet binary) data).

Section Data.
Context `{Termios_h}.

Lemma tnd_eta (s : tnd) :
  s = mkTnd (ng s) (md s) (ty s) (sl s)
        (mkRcvs (netip (rc s)) (rstate (rc s)) (subbuffer (rc s)) (subpointer (rc s))
           (subend (rc s)) (ptyobuf (rc s)) (pbackp (rc s)) (ptywrites (rc s)) (ptysent (rc s))
           (ptysig (rc s)) (SYNCHing (rc s)) (urgent (rc s)) (terminaltype (rc s))
           (env_ovar (rc s)) (env_ovalue (rc s)) (environ (rc s))) (clocks s).
Proof. by destruct s as [? ? ? ? [] ?]. Qed.

(** [s] with [rest] still to be read and [more] behind what waits for the terminal. *)
Definition received (rest more : list Z) (s : tnd) : tnd :=
  set_netip rest (set_ptyobuf (ptyobuf (rc s) ++ more) s).

(** The server is at data, and CR does not join with the next octet into a new line. *)
Definition plain (binary : bool) (s : tnd) : Prop :=
  rstate (rc s) = TS_DATA /\ his_state_is_will (options (ng s)) TELOPT_BINARY = binary /\
  (binary = true \/ linemode (md s) = 0).

Lemma plain_received binary rest more s : plain binary s -> plain binary (received rest more s).
Proof. done. Qed.

Lemma put_pty_spec c s :
  (length (ptyobuf (rc s)) < PTYOBUF_SIZE)%nat ->
  put_pty c s = (Ok (), set_ptyobuf (ptyobuf (rc s) ++ [c]) s).
Proof.
  intros Hl. apply Nat.ltb_lt in Hl. unfold put_pty, of_rc. rewrite run_bind_gets. by rewrite Hl.
Qed.

(** One octet of data, with the octets that carry it. *)
Lemma telrcv_octet binary fuel c rest s :
  plain binary s -> netip (rc s) = nvt_octet binary c ++ rest ->
  (length (ptyobuf (rc s)) + 3 <= BUFSIZ)%nat ->
  telrcv_loop (length (nvt_octet binary c) + fuel) s = telrcv_loop fuel (received rest [c] s).
Proof.
  intros (Hr & Hb & Hm) En Hroom. unfold nvt_octet in *. unfold BUFSIZ in Hroom.
  assert (forall s' : tnd, ptyobuf (rc s') = ptyobuf (rc s) ->
            (length (ptyobuf (rc s')) < PTYOBUF_SIZE)%nat) as Hput.
  { intros s' ->. unfold PTYOBUF_SIZE, BUFSIZ. lia. }
  destruct (c =? IAC) eqn:Ei; [|destruct ((c =? 13) && negb binary) eqn:Ec].
  - apply Z.eqb_eq in Ei as ->. cbn [length Nat.add app] in *.
    rewrite (telrcv_loop_cons _ _ _ _ En) by (unfold BUFSIZ; lia).
    unfold recv_octet at 1, of_rc at 1. rewrite run_bind_assoc, run_bind_gets.
    change (rstate (rc (set_netip (IAC :: rest) s))) with (rstate (rc s)). rewrite Hr.
    unfold recv_data. change (IAC =? IAC) with true. cbv iota. unfold go. rewrite run_bind_modify.
    rewrite (telrcv_loop_cons _ IAC rest) by (done || (simpl; unfold BUFSIZ; lia)).
    unfold recv_octet, of_rc. rewrite run_bind_assoc, run_bind_gets. simpl (rstate _).
    unfold recv_iac. simpl (IAC =? _). cbv iota. rewrite run_bind_assoc.
    erewrite run_bind_ok by (apply put_pty_spec; by apply Hput).
    unfold go. rewrite run_bind_modify. f_equal. rewrite (tnd_eta (received _ _ _)).
    rewrite (tnd_eta (set_rstate _ _)). simpl. by rewrite Hr.
  - apply andb_true_iff in Ec as [Ec Ebin]. apply Z.eqb_eq in Ec as ->.
    apply negb_true_iff in Ebin. rewrite Ebin in Hb, Hm. destruct Hm as [Hm|Hm]; [done|].
    cbn [length Nat.add app] in *.
    rewrite (telrcv_loop_cons _ _ _ _ En) by (unfold BUFSIZ; lia).
    unfold recv_octet at 1, of_rc at 1. rewrite run_bind_assoc, run_bind_gets.
    change (rstate (rc (set_netip (0 :: rest) s))) with (rstate (rc s)). rewrite Hr.
    unfold recv_data, his_will, of_ng, of_md, of_rc, of_ty. change (13 =? IAC) with false.
    cbv iota. rewrite run_bind_assoc, run_bind_gets.
    change (options (ng (set_netip (0 :: rest) s))) with (options (ng s)). rewrite Hb.
    change ((13 =? 13) && negb false) with true. cbv iota.
    rewrite !run_bind_assoc, !run_bind_gets, !run_bind_assoc, !run_bind_gets.
    rewrite !run_bind_assoc, !run_bind_gets.
    change (linemode (md (set_netip (0 :: rest) s))) with (linemode (md s)). rewrite Hm.
    simpl (netip _). change (negb (0 =? 0) && _) with false. cbv iota. unfold go.
    rewrite run_bind_assoc, run_bind_modify.
    erewrite run_bind_ok by (apply put_pty_spec; by apply Hput).
    rewrite (telrcv_loop_cons _ 0 rest)
      by (done || (simpl; rewrite length_app; unfold BUFSIZ; simpl; lia)).
    unfold recv_octet, of_rc. rewrite run_bind_assoc, run_bind_gets. simpl (rstate _). cbv iota.
    unfold go. rewrite run_bind_assoc, run_bind_modify. change ((0 =? 0) || _) with true. cbv iota.
    rewrite run_bind_ret. f_equal. rewrite (tnd_eta (received _ _ _)).
    rewrite (tnd_eta (set_rstate _ _)). simpl. by rewrite Hr.
  - cbn [length Nat.add app] in *.
    rewrite (telrcv_loop_cons _ _ _ _ En) by (unfold BUFSIZ; lia).
    unfold recv_octet, of_rc. rewrite run_bind_assoc, run_bind_gets.
    change (rstate (rc (set_netip rest s))) with (rstate (rc s)). rewrite Hr.
    unfold recv_data, his_will, of_ng. rewrite Ei. rewrite run_bind_assoc, run_bind_gets.
    change (options (ng (set_netip rest s))) with (options (ng s)). rewrite Hb, Ec.
    erewrite run_bind_ok by (apply put_pty_spec; by apply Hput). done.
Qed.

(** Data that the client sends by the rules of the network virtual terminal arrives as
    it is at the terminal, and nothing else changes. *)
Lemma telrcv_data (binary : bool) (data : list Z) (s : tnd) :
  plain binary s -> netip (rc s) = nvt binary data ->
  (length (ptyobuf (rc s)) + length data + 2 <= BUFSIZ)%nat ->
  telrcv s = (Ok (), received [] data s).
Proof.
  intros Hp En Hl. rewrite telrcv_fuel, En. revert s Hp En Hl.
  induction data as [|c data IH]; intros s Hp En Hl.
  - rewrite telrcv_loop_nil by done. f_equal. unfold received. rewrite app_nil_r.
    rewrite (tnd_eta s) at 1. rewrite (tnd_eta (set_netip _ _)). simpl. by rewrite En.
  - unfold nvt in *. cbn [map concat] in *. cbn [length] in Hl. rewrite length_app.
    rewrite (telrcv_octet binary _ c _ _ Hp En) by lia.
    rewrite IH; [|by apply plain_received|done|simpl; rewrite length_app; simpl; lia].
    f_equal. unfold received. simpl. by rewrite <- app_assoc.
Qed.

(** ** The other way *)

(** A carriage return before a line feed is sent as it is. *)
Fixpoint nvt_out (binary : bool) (data : list Z) : list Z :=
  match data with
  | [] => []
  | c :: data' =>
      (if c =? IAC then [IAC; IAC] else [c]) ++
      if (c =? 13) && negb binary then
        match data' with
        | d :: data'' => if d =? 10 then d :: nvt_out binary data'' else 0 :: nvt_out binary data'
        | [] => [0]
        end
      else nvt_out binary data'
  end.

(** [s'] is [s] after [l] has been put out. *)
Definition put_out (l : list Z) (s s' : tnd) : Prop :=
  concat (out_log s') = concat (out_log s) ++ l /\
  (length (concat (netobuf (ng s'))) <= length (concat (netobuf (ng s))) + length l)%nat /\
  exists b n, s' = in_ng (fun g => mkNegs (options g) (do_dont_resp g) (will_wont_resp g) b n) s.

Lemma put_out_trans l1 l2 s1 s2 s3 :
  put_out l1 s1 s2 -> put_out l2 s2 s3 -> put_out (l1 ++ l2) s1 s3.
Proof.
  intros (E1 & F1 & b1 & n1 & ->) (E2 & F2 & b2 & n2 & ->). split_and!.
  - by rewrite E2, E1, app_assoc.
  - rewrite length_app. lia.
  - by eexists b2, n2.
Qed.

Lemma put_out_nil s : put_out [] s s.
Proof.
  split_and!; [by rewrite app_nil_r|lia|]. exists (netobuf (ng s)), (netsent (ng s)).
  by destruct s as [[] ? ? ? ? ?].
Qed.

Lemma output_put_out m s :
  m <> [] -> exists s', output_data m s = (Ok (), s') /\ put_out m s s'.
Proof.
  intros Hm. unfold output_data, output_datalen. destruct m as [|c m]; [done|].
  rewrite run_bind_gets. destruct (_ <? _)%nat; cbn [mwhen].
  - unfold netflush. rewrite run_bind_modify. eexists. split; [done|].
    split_and!; [|simpl; rewrite app_nil_r; lia|by eexists _, _].
    unfold out_log. simpl. rewrite !concat_app. simpl. by rewrite !app_nil_r.
  - rewrite run_bind_ret. eexists. split; [done|].
    split_and!; [|simpl; rewrite concat_app, length_app; simpl; rewrite app_nil_r; simpl; lia|by eexists _, _].
    unfold out_log. simpl. rewrite !concat_app. simpl. by rewrite app_nil_r, app_assoc.
Qed.

Lemma put_out_options l s s' : put_out l s s' -> options (ng s') = options (ng s).
Proof. by intros (_ & _ & b & n & ->). Qed.

Lemma length_nvt_out binary data : (length (nvt_out binary data) <= 2 * length data)%nat.
Proof.
  revert data. fix IH 1. intros [|c data]; [done|]. cbn [nvt_out]. rewrite length_app.
  assert (c = IAC -> (c =? 13) = false) as Hi by by intros ->.
  pose proof (IH data).
  destruct (c =? IAC) eqn:E.
  - apply Z.eqb_eq in E. rewrite (Hi E). simpl in *. lia.
  - destruct ((c =? 13) && negb binary); [|simpl in *; lia].
    destruct data as [|d data]; [simpl; lia|]. pose proof (IH data).
    destruct (d =? 10); simpl in *; lia.
Qed.

(** The octets of one character, in the order in which they are put out. *)
Lemma put_out_char c s :
  exists s', (_ ← mwhen (c =? IAC) (output_data [c]); output_data [c]) s = (Ok (), s') /\
    put_out (if c =? IAC then [IAC; IAC] else [c]) s s'.
Proof.
  destruct (c =? IAC) eqn:E; cbn [mwhen].
  - apply Z.eqb_eq in E as ->.
    destruct (output_put_out [IAC] s) as (s1 & E1 & P1); [done|].
    destruct (output_put_out [IAC] s1) as (s2 & E2 & P2); [done|].
    exists s2. rewrite (run_bind_ok _ _ _ _ _ E1). split; [done|]. by apply (put_out_trans [IAC] [IAC] s s1).
  - rewrite run_bind_ret. by apply output_put_out.
Qed.

(** What a process writes goes to the network by the rules; nothing else changes, and with
    room for it all nothing is left. *)
Lemma pty_to_net_spec data s :
  (length (concat (netobuf (ng s))) + 2 * length data + 2 <= BUFSIZ)%nat ->
  exists s', pty_to_net data s = (Ok [], s') /\
    put_out (nvt_out (my_state_is_will (options (ng s)) TELOPT_BINARY) data) s s'.
Proof.
  revert data s. fix IH 1. intros [|c data] s Hroom; cbn [pty_to_net nvt_out]; rewrite run_bind_gets;
    (assert ((room s <? 2)%nat = false) as -> by (apply Nat.ltb_ge; unfold room; simpl in Hroom; lia)).
  { exists s. split; [done|apply put_out_nil]. }
  destruct (put_out_char c s) as (s1 & E1 & P1).
  rewrite <- run_bind_assoc, (run_bind_ok _ _ _ _ _ E1). unfold my_will, of_ng. rewrite run_bind_gets.
  rewrite (put_out_options _ _ _ P1). cbn [length] in Hroom.
  assert (length (concat (netobuf (ng s1))) <= length (concat (netobuf (ng s))) + 2)%nat as L1.
  { destruct P1 as (_ & L & _). revert L. case_match; simpl; lia. }
  assert ((c =? 13)%Z = true -> length (concat (netobuf (ng s1))) <= length (concat (netobuf (ng s))) + 1)%nat as L1'.
  { intros Hc. apply Z.eqb_eq in Hc as ->. destruct P1 as (_ & L & _). exact L. }
  set (bin := my_state_is_will _ _) in *.
  assert (forall m s2, m <> [] -> output_data m s1 = (Ok (), s2) -> put_out m s1 s2 ->
    (length (concat (netobuf (ng s1))) + length m + 2 * length data + 2 <= BUFSIZ)%nat ->
    exists s', pty_to_net data s2 = (Ok [], s') /\ put_out (m ++ nvt_out bin data) s1 s') as rec.
  { intros m s2 _ E2 P2 Hr. destruct (IH data s2) as (s' & E' & P').
    { destruct P2 as (_ & L & _). lia. }
    exists s'. split; [done|]. rewrite (put_out_options _ _ _ P2), (put_out_options _ _ _ P1) in P'.
    by eapply put_out_trans. }
  destruct ((c =? 13) && negb bin) eqn:Ec.
  - apply andb_true_iff in Ec as [Ec _]. specialize (L1' Ec).
    destruct data as [|d data]; [|destruct (d =? 10) eqn:Ed].
    + destruct (output_put_out [0] s1) as (s2 & E2 & P2); [done|].
      rewrite (run_bind_ok _ _ _ _ _ E2).
      destruct (rec [0] s2) as (s' & E' & P'); [done|done|done|simpl in *; lia|].
      exists s'. split; [done|]. by eapply put_out_trans.
    + destruct (output_put_out [d] s1) as (s2 & E2 & P2); [done|].
      rewrite (run_bind_ok _ _ _ _ _ E2).
      destruct (IH data s2) as (s3 & E3 & P3).
      { destruct P2 as (_ & L & _). simpl in L, Hroom. lia. }
      exists s3. split; [done|]. rewrite (put_out_options _ _ _ P2), (put_out_options _ _ _ P1) in P3.
      eapply put_out_trans; [done|]. by apply (put_out_trans [d] _ s1 s2).
    + destruct (output_put_out [0] s1) as (s2 & E2 & P2); [done|].
      rewrite (run_bind_ok _ _ _ _ _ E2).
      destruct (rec [0] s2) as (s' & E' & P'); [done|done|done|simpl in *; lia|].
      exists s'. split; [done|]. by eapply put_out_trans.
  - destruct (IH data s1) as (s3 & E3 & P3); [lia|].
    exists s3. split; [done|]. rewrite (put_out_options _ _ _ P1) in P3. by eapply put_out_trans.
Qed.

End Data.
