(* ===== verification/TelnetIOFacts.v ===== *)
(** * telnet and telnetd: what is typed arrives, what is written arrives

    In character-at-a-time mode the octets that the user types reach the server's terminal,
    and those that a process writes there reach the user's terminal, however the network and
    the rings cut them. *)

From Stdlib Require Import ZArith Lia List Bool.
From stdpp Require Import base tactics list numbers functions.
From S2P Require Import Prelude TelnetNeg TelnetOpts Telnetd TelnetdStat TelnetdRecv Telnet TelnetIO.
From S2P Require Import TelnetFocus TelnetdFacts TelnetdRecvFacts TelnetdData.

Local Open Scope Z_scope.

Module IOFacts.
Import ClientIO.

Section Client.
Context `{Termios_h} (K : settings) (command : list Z -> IO unit) (suboption : IO unit).

(** ** Sending *)

(** A character that goes through as it is: not the escape character. *)
Definition ordinary (s : io) (c : Z) : Prop := escape K <> POSIX_VDISABLE -> strip s c <> escape K.

(** What the user types in one run, and the text that is meant: a character for itself, two
    escape characters for one. *)
Inductive keyed (s : io) : list Z -> list Z -> Prop :=
  | keyed_end : keyed s [] []
  | keyed_char c l t : ordinary s c -> keyed s l t -> keyed s (c :: l) (c :: t)
  | keyed_escape c d l t :
      escape K <> POSIX_VDISABLE -> strip s c = escape K -> strip s d = escape K ->
      keyed s l t -> keyed s (c :: d :: l) (c :: t).

(** Characters go to the server one at a time; the user has no rlogin escape. *)
Definition char_mode (s : io) : Prop :=
  rlogin K = POSIX_VDISABLE /\ MODE_LOCAL_CHARS (globalmode s) = false /\ crlf K = false.

(** What sending data does not change. *)
Definition same_keys (s s' : io) : Prop :=
  Client.options (tn s') = Client.options (tn s) /\
  Client.kludgelinemode (tn s') = Client.kludgelinemode (tn s) /\
  globalmode s' = globalmode s.

Lemma same_keys_trans s1 s2 s3 : same_keys s1 s2 -> same_keys s2 s3 -> same_keys s1 s3.
Proof. intros (A & B & C) (D & E & F). split_and!; congruence. Qed.

Definition netout (s : io) : list Z := concat (Client.netoring (tn s)).

Lemma escapes_keyed c rest text s :
  char_mode s -> keyed s (c :: rest) text ->
  exists rest' text', text = c :: text' /\ keyed s rest' text' /\ (length rest' <= length rest)%nat /\
    escapes K command c rest s = (Ok (Send c (strip s c) rest'), set_bol false s).
Proof.
  intros (Hr & _ & _) Hk. unfold escapes, get. cbv [mbind M_bind]. cbv zeta.
  assert ((rlogin K =? POSIX_VDISABLE) = true) as -> by by apply Z.eqb_eq. cbn [negb].
  inversion Hk as [|? ? t Ho Hl|? d l t He Hc Hd Hl]; subst.
  - exists rest, t. split_and!; [done..|].
    assert (negb (escape K =? POSIX_VDISABLE) && (strip s c =? escape K) = false) as ->; [|done].
    destruct (escape K =? POSIX_VDISABLE) eqn:E; [done|]. apply Z.eqb_neq in E. by apply Z.eqb_neq, Ho.
  - exists l, t. split_and!; [done..|simpl; lia|]. apply Z.eqb_neq in He. rewrite He, Hc, Hd, Z.eqb_refl. done.
Qed.

(** Nothing is local in this mode, the switch of the local echo no more than the rest. *)
Lemma local_chars_sent c sc rest s :
  char_mode s -> local_chars K c sc rest s = (Ok (Send c sc rest), s).
Proof.
  intros (_ & Hm & _). unfold local_chars, get. cbv [mbind M_bind]. cbv zeta.
  assert (Z.land (globalmode s) MODE_EDIT = 0) as ->.
  { unfold MODE_LOCAL_CHARS in Hm. apply negb_false_iff, Z.eqb_eq in Hm.
    apply (f_equal (fun z => Z.land z MODE_EDIT)) in Hm. by rewrite <- Z.land_assoc in Hm. }
  by rewrite andb_false_r, Hm.
Qed.

Lemma NETADDS_spec m s :
  exists s', NETADDS m s = (Ok (), s') /\ same_keys s s' /\ netout s' = netout s ++ m /\
    ttyiring s' = ttyiring s.
Proof.
  eexists. split; [done|]. split; [done|]. split; [|done].
  unfold netout. simpl. rewrite concat_app. simpl. by rewrite app_nil_r.
Qed.

Lemma snd_octet_spec c s :
  char_mode s ->
  exists s', snd_octet K c s = (Ok (), s') /\ same_keys s s' /\
    netout s' = netout s ++ nvt_octet (binary_out s) c.
Proof.
  intros (_ & Hm & Hc). unfold snd_octet, get. cbv [mbind M_bind]. unfold nvt_octet. rewrite Hm.
  destruct (binary_out s) eqn:B; cbn [negb andb].
  - rewrite andb_false_r. destruct (c =? IAC) eqn:E; unfold NET2ADD, NETADD;
      destruct (NETADDS_spec (if c =? IAC then [IAC; IAC] else [c]) s) as (s' & E1 & S1 & N1 & _);
      rewrite E in *; by exists s'.
  - rewrite andb_true_r. destruct (c =? 10) eqn:E10; [|destruct (c =? 13) eqn:E13].
    + apply Z.eqb_eq in E10 as ->. unfold mwhen, NETADD, mret, M_ret.
      destruct (NETADDS_spec [10] s) as (s' & E1 & S1 & N1 & _). rewrite E1. by eexists.
    + apply Z.eqb_eq in E13 as ->. rewrite Hc. unfold NET2ADD.
      destruct (NETADDS_spec [13; 0] s) as (s' & E1 & S1 & N1 & _). rewrite E1. by eexists.
    + destruct (c =? IAC) eqn:E; unfold NET2ADD, NETADD;
        destruct (NETADDS_spec (if c =? IAC then [IAC; IAC] else [c]) s) as (s' & E1 & S1 & N1 & _);
        rewrite E in *; by exists s'.
Qed.

Lemma char_mode_same s s' : same_keys s s' -> char_mode s -> char_mode s'.
Proof. intros (_ & _ & E) (? & ? & ?). split_and!; [done|by rewrite E|done]. Qed.

Lemma keyed_same s s' l t : same_keys s s' -> keyed s l t -> keyed s' l t.
Proof.
  intros (E1 & E2 & E3). assert (forall c, strip s' c = strip s c) as Es.
  { intros c. unfold strip, binary_out. by rewrite E1. }
  induction 1; constructor; unfold ordinary in *; rewrite ?Es; done.
Qed.

Lemma binary_out_same s s' : same_keys s s' -> binary_out s' = binary_out s.
Proof. intros (E1 & _). unfold binary_out. by rewrite E1. Qed.

Lemma length_nvt binary data : (length (nvt binary data) <= 2 * length data)%nat.
Proof.
  unfold nvt. induction data as [|c data IH]; simpl; [lia|]. rewrite length_app.
  assert (length (nvt_octet binary c) <= 2)%nat; [|lia]. unfold nvt_octet. repeat case_match; simpl; lia.
Qed.

(** With room in the ring, all the text is sent by the rules. *)
Lemma telsnd_loop_spec fuel s texts :
  char_mode s -> Forall2 (keyed s) (ttyiring s) texts ->
  (turns (ttyiring s) <= fuel)%nat ->
  (length (netout s) + 2 * length (concat texts) + 2 < 2 * BUFSIZ)%nat ->
  exists s', telsnd_loop K command fuel s = (Ok (), s') /\ ttyiring s' = [] /\ same_keys s s' /\
    netout s' = netout s ++ nvt (binary_out s) (concat texts).
Proof.
  revert s texts. induction fuel as [|fuel IH]; intros s texts Hm Ho Hf Hr; cbn [telsnd_loop]; unfold get;
    cbv [mbind M_bind];
    (assert ((NETROOM s <=? 2)%nat = false) as -> by (apply Nat.leb_gt; unfold NETROOM; unfold netout in Hr; lia));
    inversion Ho as [Et|run text runs texts' Hk Hks Et]; subst; rewrite <- Et in Hf;
    try (exists s; split_and!; [done..|simpl; by rewrite app_nil_r]); [unfold turns in Hf; simpl in Hf; lia|].
  symmetry in Et. destruct run as [|c rest].
  - inversion Hk; subst. unfold modify. destruct (IH (set_ttyiring runs s) texts') as (s' & E & Hs & S & N); try done.
    { eapply Forall2_impl; [|exact Hks]. intros ? ?. by apply keyed_same. }
    { unfold turns in *. simpl in *. lia. }
    exists s'. by split_and!.
  - destruct (escapes_keyed c rest text s Hm Hk) as (rest' & t' & -> & Hk' & Hlen & ->).
    set (s1 := set_bol false s). rewrite (local_chars_sent c _ rest' s1 Hm).
    destruct (snd_octet_spec c s1 Hm) as (s2 & E2 & S2 & N2). rewrite E2.
    unfold put_back, modify. set (s3 := set_ttyiring (rest' :: runs) s2).
    assert (same_keys s s3) as S3 by exact S2. change (netout s1) with (netout s) in N2.
    destruct (IH s3 (t' :: texts')) as (s' & E & Hs & S & N).
    + by eapply char_mode_same.
    + change (ttyiring s3) with (rest' :: runs).
      eapply Forall2_impl; [|constructor; [exact Hk'|exact Hks]]. intros ? ?. by apply keyed_same.
    + unfold turns in *. simpl in *. rewrite length_app in *. lia.
    + change (netout s3) with (netout s2). rewrite N2, length_app. simpl in Hr |- *.
      assert (length (nvt_octet (binary_out s1) c) <= 2)%nat by (unfold nvt_octet; repeat case_match; simpl; lia).
      lia.
    + exists s'. split_and!; [done|done|by eapply same_keys_trans|].
      rewrite N. change (netout s3) with (netout s2). rewrite N2, (binary_out_same _ _ S3).
      unfold nvt. simpl. by rewrite app_assoc.
Qed.

(** ** Receiving *)

(** The server echoes, output is shown, and the direction is binary when [b]. *)
Definition shows (b : bool) (s : io) : Prop :=
  0 <= Client.telnetport (tn s) /\ dont_echo s = false /\ SYNCHing s = false /\
  Client.flushout (tn s) = false /\ dont_binary s = negb b /\ crmod K = false.

(** What is still to come in a state of the machine, and what it will show. *)
Inductive expects (b : bool) : ts -> list Z -> list Z -> Prop :=
  | ex_data d : expects b TS_DATA (nvt_out b d) d
  | ex_iac d : expects b TS_IAC (IAC :: nvt_out b d) (IAC :: d)
  | ex_nul d : expects b TS_CR (0 :: nvt_out b d) d
  | ex_lf d : expects b TS_CR (10 :: nvt_out b d) (10 :: d).

(** [s'] is [s] after [o] has been shown. *)
Definition showed (o : list Z) (s s' : io) : Prop :=
  ttyoring s' = ttyoring s ++ o /\ tn s' = tn s /\ SYNCHing s' = SYNCHing s.

Lemma shows_showed b o s s' : showed o s s' -> shows b s -> shows b s'.
Proof. intros (_ & E1 & E2). unfold shows, dont_echo, dont_binary. by rewrite E1, E2. Qed.

Lemma showed_trans o1 o2 s1 s2 s3 : showed o1 s1 s2 -> showed o2 s2 s3 -> showed (o1 ++ o2) s1 s3.
Proof. intros (A & B & C) (D & E & F). split_and!; [by rewrite D, A, app_assoc|congruence..]. Qed.

Lemma showed_nil s : showed [] s s.
Proof. split_and!; [by rewrite app_nil_r|done..]. Qed.

Lemma TTYADD_spec b c s :
  shows b s -> TTYADD c s = (Ok (), set_ttyoring (ttyoring s ++ [c]) s).
Proof.
  intros (_ & _ & Hy & Hf & _). unfold TTYADD, get_neg, gets, mwhen. cbv [mbind M_bind].
  by rewrite Hy, Hf.
Qed.

Lemma add_cr_spec b s : shows b s -> add_cr K s = (Ok (), set_ttyoring (ttyoring s ++ [13]) s).
Proof.
  intros Hs. unfold add_cr. rewrite (run_bind_ok _ _ _ _ _ (TTYADD_spec b 13 s Hs)).
  destruct Hs as (_ & _ & _ & _ & _ & ->). done.
Qed.

(** One turn. *)
Definition turn_ok (b : bool) (s : io) (out : list Z) (n : nat) (r : res halt unit * io) : Prop :=
  exists s' o out', r = (Ok (), s') /\ showed o s s' /\ out = o ++ out' /\
    expects b (telrcv_state s') (concat (netiring s')) out' /\ (turns (netiring s') <= n)%nat.

Lemma recv_data_cr b rest runs d s :
  shows b s -> b = false -> telrcv_state s = TS_DATA -> netiring s = rest :: runs ->
  rest ++ concat runs = (match d with y :: d' => if y =? 10 then y :: nvt_out b d' else 0 :: nvt_out b d | [] => [0] end) ->
  turn_ok b s (13 :: d) (turns (rest :: runs)) (recv_data K 13 s).
Proof.
  intros Hs -> Hst En Et. unfold recv_data, get. cbv [mbind M_bind]. cbn [Z.eqb Pos.eqb IAC andb].
  assert (dont_binary s = true) as -> by by (destruct Hs as (_ & _ & _ & _ & -> & _)).
  rewrite En. destruct rest as [|x rest].
  - unfold go, modify. cbv iota beta. rewrite (add_cr_spec false) by exact Hs.
    eexists _, [13], d. split; [done|]. split; [done|]. split; [done|].
    split; [|simpl; rewrite En; done]. simpl. rewrite En. simpl in *. rewrite Et.
    destruct d as [|y d]; [apply (ex_nul false [])|].
    destruct (y =? 10) eqn:Ey; [apply Z.eqb_eq in Ey as ->; constructor|apply (ex_nul false (y :: d))].
  - simpl in Et. destruct (x =? 0) eqn:E0.
    + unfold modify. cbv iota beta. rewrite (TTYADD_spec false) by exact Hs.
      apply Z.eqb_eq in E0 as ->. eexists _, [13], d. split; [done|]. split; [done|]. split; [done|].
      split; [|unfold turns; simpl; lia]. simpl. rewrite Hst.
      assert (rest ++ concat runs = nvt_out false d) as ->; [|constructor].
      destruct d as [|y d]; [by injection Et as ->|].
      destruct (y =? 10) eqn:Ey; [apply Z.eqb_eq in Ey as ->; done|by injection Et].
    + assert (dont_echo s = false) as -> by by destruct Hs as (_ & -> & _). cbn [andb].
      rewrite (add_cr_spec false) by exact Hs. eexists _, [13], d. split; [done|]. split; [done|].
      split; [done|]. split; [|simpl; rewrite En; done]. simpl. rewrite Hst, En.
      assert (concat ((x :: rest) :: runs) = nvt_out false d) as ->; [|constructor].
      simpl. rewrite Et. destruct d as [|y d]; [injection Et as -> _; done|].
      destruct (y =? 10) eqn:Ey; [apply Z.eqb_eq in Ey as ->; done|by injection Et as -> _].
Qed.

Lemma recv_data_turn b c d rest runs s :
  shows b s -> telrcv_state s = TS_DATA -> netiring s = rest :: runs ->
  c :: rest ++ concat runs = nvt_out b d ->
  turn_ok b s d (turns (rest :: runs)) (recv_data K c s).
Proof.
  intros Hs Hst En Et. destruct d as [|x d]; [done|]. cbn [nvt_out] in Et.
  destruct (x =? IAC) eqn:Ei; [|destruct ((x =? 13) && negb b) eqn:Ec].
  - apply Z.eqb_eq in Ei as ->. simpl in Et. injection Et as -> Et.
    unfold recv_data, get. cbv [mbind M_bind].
    assert ((0 <=? Client.telnetport (tn s)) = true) as -> by (apply Z.leb_le; by destruct Hs).
    eexists _, [], (IAC :: d). split; [done|]. split; [by split_and!; [rewrite app_nil_r|..]|].
    split; [done|]. simpl. rewrite En. simpl. rewrite Et. split; [constructor|done].
  - apply andb_true_iff in Ec as [E13 Eb]. apply Z.eqb_eq in E13 as ->. apply negb_true_iff in Eb.
    simpl in Et. injection Et as -> Et. by eapply recv_data_cr.
  - simpl in Et. injection Et as -> Et. unfold recv_data, get. cbv [mbind M_bind].
    rewrite Ei. cbn [andb]. assert (dont_binary s = negb b) as -> by apply Hs.
    rewrite Ec. rewrite (TTYADD_spec b) by exact Hs. eexists _, [x], d. split; [done|]. split; [done|].
    split; [done|]. simpl. rewrite Hst, En. simpl. rewrite Et. split; [constructor|done].
Qed.

Lemma recv_octet_turn b c rest runs out s :
  shows b s -> netiring s = rest :: runs ->
  expects b (telrcv_state s) (c :: rest ++ concat runs) out ->
  turn_ok b s out (turns (rest :: runs)) (recv_octet K suboption c s).
Proof.
  intros Hs En Hx. unfold recv_octet, get. cbv [mbind M_bind].
  inversion Hx as [d Hst E Eo|d Hst [E Er] Eo|d Hst [E Er] Eo|d Hst [E Er] Eo]; clear Hx.
  - subst d. by eapply recv_data_turn.
  - unfold recv_iac. cbn [Z.eqb Pos.eqb IAC WILL WONT DO DONT SB DM]. cbv [mbind M_bind].
    rewrite (TTYADD_spec b) by exact Hs. eexists _, [IAC], d. split; [done|]. split; [done|].
    split; [done|]. simpl. rewrite En. simpl. split; [|done]. rewrite <- Er. constructor.
  - unfold go, modify. cbn [Z.eqb]. eexists _, [], out. split; [done|].
    split; [by split_and!; [rewrite app_nil_r|..]|]. split; [done|]. simpl. rewrite En. simpl.
    split; [|done]. rewrite <- Er, Eo. constructor.
  - unfold go, modify. cbn [Z.eqb Pos.eqb].
    assert (dont_echo s = false) as -> by by destruct Hs as (_ & -> & _). cbn [andb].
    set (s1 := set_telrcv_state TS_DATA s).
    destruct (recv_data_turn b 10 (10 :: d) rest runs s1) as (s' & o & out' & E1 & S & E2 & X & T); try done.
    { cbn [nvt_out Z.eqb Pos.eqb IAC andb app]. by rewrite Er. }
    exists s', o, out'. by split_and!.
Qed.

Lemma expects_nil b st out : expects b st [] out -> out = [].
Proof.
  intros Hx. remember [] as l eqn:El in Hx. destruct Hx as [d|d|d|d]; [|done..].
  destruct d as [|c d]; [done|]. cbn [nvt_out] in El. by destruct (c =? IAC).
Qed.

(** With room for it, what the rules encode is shown, however it is cut. *)
Lemma telrcv_loop_spec b fuel out s :
  shows b s -> expects b (telrcv_state s) (concat (netiring s)) out ->
  (turns (netiring s) <= fuel)%nat -> (length (ttyoring s) + length out + 2 < 2 * BUFSIZ)%nat ->
  exists s', telrcv_loop K suboption fuel s = (Ok (), s') /\ showed out s s' /\ netiring s' = [].
Proof.
  revert out s. induction fuel as [|fuel IH]; intros out s Hs Hx Hf Hr.
  - destruct (netiring s) as [|r rs] eqn:En; [|unfold turns in Hf; simpl in Hf; lia].
    cbn [telrcv_loop]. unfold get. cbv [mbind M_bind]. rewrite En.
    apply expects_nil in Hx as ->.
    exists s. split; [by case_match|]. split; [apply showed_nil|done].
  - cbn [telrcv_loop]. unfold get. cbv [mbind M_bind].
    assert ((TTYROOM s <=? 2)%nat = false) as -> by (apply Nat.leb_gt; unfold TTYROOM; lia).
    destruct (netiring s) as [|[|c rest] runs] eqn:En.
    + apply expects_nil in Hx as ->.
      exists s. split; [done|]. split; [apply showed_nil|done].
    + unfold modify. apply (IH out (set_netiring runs s)); [done|done| |done].
      unfold turns in *. simpl in *. lia.
    + unfold modify. set (s1 := set_netiring (rest :: runs) s).
      destruct (recv_octet_turn b c rest runs out s1) as (s2 & o & out' & E1 & S1 & -> & X1 & T1); try done.
      rewrite E1. rewrite length_app in Hr.
      destruct (IH out' s2) as (s3 & E2 & S2 & N2).
      * by eapply shows_showed.
      * done.
      * unfold turns in *. simpl in *. lia.
      * destruct S1 as (-> & _). change (ttyoring s1) with (ttyoring s). rewrite length_app. lia.
      * exists s3. split_and!; [done| |done]. by apply (showed_trans o out' s1 s2).
Qed.

End Client.

(** ** The client's machine always comes back *)

(** A computation on the negotiation that returns. *)
Definition Total {A} (m : M halt Client.tn A) : Prop := forall t, exists a t', m t = (Ok a, t').

Lemma always_bind {A B} (m : M halt Client.tn A) (k : A -> M halt Client.tn B) :
  Total m -> (forall a, Total (k a)) -> Total (m ≫= k).
Proof.
  intros Hm Hk t. destruct (Hm t) as (a & t1 & E). rewrite (run_bind_ok _ _ _ _ _ E). apply Hk.
Qed.

Lemma always_when (b : bool) m : Total m -> Total (mwhen b m).
Proof. intros Hm. destruct b; [done|by intros t; eexists _, _]. Qed.

Ltac total :=
  repeat first
    [ apply always_bind; [|intros ?]
    | apply always_when
    | intros ?; eexists _, _; reflexivity
    | match goal with
      | |- Total (if ?b then _ else _) => destruct b
      | |- Total (let x := _ in _) => cbv zeta
      end ].

Lemma total_sends o i :
  Total (Client.send_do o i) /\ Total (Client.send_dont o i) /\
  Total (Client.send_will o i) /\ Total (Client.send_wont o i).
Proof.
  unfold Client.send_do, Client.send_dont, Client.send_will, Client.send_wont. split_and!; total.
Qed.

Ltac total_sends :=
  repeat (total; try match goal with
    | |- Total (Client.send_do ?o ?i) => apply (total_sends o i)
    | |- Total (Client.send_dont ?o ?i) => apply (total_sends o i)
    | |- Total (Client.send_will ?o ?i) => apply (total_sends o i)
    | |- Total (Client.send_wont ?o ?i) => apply (total_sends o i)
    end).

Lemma total_handlers o :
  Total (Client.willoption o) /\ Total (Client.wontoption o) /\
  Total (Client.dooption o) /\ Total (Client.dontoption o).
Proof.
  unfold Client.willoption, Client.wontoption, Client.dooption, Client.dontoption,
    Client.answer_do_dont, Client.answer_will_wont, Client.settimer_modenegotiated.
  split_and!; total_sends.
Qed.

Section Steps.
(** What is kept of what the suboptions are about. *)
Variable P : subs -> Prop.

Definition kept (s : io) : Prop :=
  length (subbuffer s) = SUBBUFSIZE /\ (subpointer s <= SUBBUFSIZE)%nat /\ (subend s <= SUBBUFSIZE)%nat /\
  P (sb s).

(** [m] returns, adds at most [n] octets to the output, takes no input back and keeps the
    suboptions' state; or it leaves the program with status 1. *)
Definition Step {A} (n : nat) (m : IO A) : Prop := forall s, kept s ->
  (exists a s', m s = (Ok a, s') /\ kept s' /\
    (length (ttyoring s') <= length (ttyoring s) + n)%nat /\
    (turns (netiring s') <= turns (netiring s))%nat) \/
  (exists s', m s = (Ex (Exit 1), s')).

Lemma step_bind {A B} n n' (m : IO A) (k : A -> IO B) :
  Step n m -> (forall a, Step n' (k a)) -> Step (n + n') (m ≫= k).
Proof.
  intros Hm Hk s Hs. destruct (Hm s Hs) as [(a & s1 & E & K1 & L & T)|(s1 & E)].
  - rewrite (run_bind_ok _ _ _ _ _ E).
    destruct (Hk a s1 K1) as [(b & s2 & E2 & K2 & L2 & T2)|(s2 & E2)]; [left|right; by exists s2].
    exists b, s2. split_and!; [done|done|lia|lia].
  - right. exists s1. by rewrite (run_bind_ex _ _ _ _ _ E).
Qed.

Lemma step_bind0 {A B} n (m : IO A) (k : A -> IO B) :
  Step 0 m -> (forall a, Step n (k a)) -> Step n (m ≫= k).
Proof. apply (step_bind 0 n). Qed.

Lemma step_more {A} n n' (m : IO A) : (n <= n')%nat -> Step n m -> Step n' m.
Proof.
  intros Hn Hm s Hs. destruct (Hm s Hs) as [(a & s1 & E & K & L & T)|Hx]; [left|by right].
  exists a, s1. split_and!; [done|done|lia|done].
Qed.

Lemma step_ret {A} (a : A) n : Step n (mret a).
Proof. intros s Hs. left. eexists _, s. split_and!; [done|done|lia|lia]. Qed.

Lemma step_when (b : bool) n m : Step n m -> Step n (mwhen b m).
Proof. intros Hm. destruct b; [done|apply step_ret]. Qed.

Lemma step_gets {A} (f : io -> A) n : Step n (gets f).
Proof. intros s Hs. left. eexists _, s. split_and!; [done|done|lia|lia]. Qed.

Lemma step_get n : Step n get.
Proof. apply (step_gets id). Qed.

Lemma step_modify f n :
  (forall s, (length (ttyoring (f s)) <= length (ttyoring s) + n)%nat /\ netiring (f s) = netiring s /\
     (kept s -> kept (f s))) ->
  Step n (modify f).
Proof.
  intros Hf s Hs. left. eexists _, (f s). destruct (Hf s) as (L & E & K).
  split_and!; [done|by apply K|done|by rewrite E].
Qed.

Lemma step_neg {A} n (m : M halt Client.tn A) : Total m -> Step n (neg m).
Proof.
  intros Hm s Hs. left. destruct (Hm (tn s)) as (a & t & E). exists a, (set_tn t s). unfold neg.
  rewrite E. split_and!; [done|done|simpl; lia|simpl; lia].
Qed.

Local Ltac step_modify := apply step_modify; intros ?; split_and!;
  [simpl; lia|reflexivity|first [done | intros (? & ? & ? & ?); split_and!; simpl; done || lia]].

Lemma step_NETADDS m n : Step n (NETADDS m).
Proof. apply step_neg. total. Qed.

Lemma step_TTYADD c : Step 1 (TTYADD c).
Proof.
  unfold TTYADD. apply step_bind0; [apply step_gets|intros f]. apply step_bind0; [apply step_gets|intros y].
  apply step_when, step_modify. intros s. split_and!; [simpl; rewrite length_app; simpl; lia|done|done].
Qed.

Lemma step_add_cr K : Step 2 (add_cr K).
Proof. apply (step_bind 1 1); [apply step_TTYADD|intros _; apply step_when, step_TTYADD]. Qed.

Lemma step_sendnaws n : Step n sendnaws.
Proof.
  unfold sendnaws. apply step_bind0; [apply step_gets|intros on]. apply step_bind0; [apply step_gets|].
  intros [[rows cols]|]; [|apply step_ret]. cbv zeta. apply step_bind0; [apply step_gets|intros room].
  apply step_when, step_NETADDS.
Qed.

Lemma step_recv_iac c : Step 1 (recv_iac c).
Proof.
  assert (forall t n, Step n (go t)) as go_ok by (intros; unfold go; step_modify).
  unfold recv_iac. do 4 (case_match; [apply go_ok|]). case_match.
  { apply step_bind0; [unfold SB_CLEAR; step_modify|intros _; apply go_ok]. }
  apply (step_bind 1 0); [|intros _; apply go_ok]. case_match; [|case_match].
  - apply step_bind0; [step_modify|intros _]. apply step_bind0; [unfold ttyflush_drop; step_modify|intros _].
    apply step_bind0.
    { unfold stilloob. apply step_bind0; [apply step_gets|intros u].
      apply step_bind0; [step_modify|intros _; apply step_ret]. }
    intros u. apply step_bind0; [step_modify|intros _]. apply step_neg. total.
  - apply step_TTYADD.
  - apply step_ret.
Qed.

(** An octet that goes with the next one of its run takes it away. *)
Lemma step_recv_data K c : Step 2 (recv_data K c).
Proof.
  assert (forall t n, Step n (go t)) as go_ok by (intros; unfold go; step_modify).
  assert (forall c, Step 2 (TTYADD c)) as add_ok by (intros; eapply step_more; [|apply step_TTYADD]; lia).
  assert (forall x rest runs s c, netiring s = (x :: rest) :: runs -> kept s ->
    (exists a s', (_ ← modify (set_netiring (rest :: runs)); TTYADD c) s = (Ok a, s') /\ kept s' /\
      (length (ttyoring s') <= length (ttyoring s) + 2)%nat /\
      (turns (netiring s') <= turns (netiring s))%nat) \/
    (exists s', (_ ← modify (set_netiring (rest :: runs)); TTYADD c) s = (Ex (Exit 1), s'))) as drop_ok.
  { intros x rest runs s c' En Hs. rewrite run_bind_modify.
    destruct (add_ok c' (set_netiring (rest :: runs) s) Hs) as [(a & s' & E & K' & L & T)|Hx]; [left|by right].
    exists a, s'. split_and!; [done|done|done|]. rewrite En. unfold turns in *. simpl in *. lia. }
  intros s Hs. unfold recv_data, get. cbv [mbind M_bind].
  case_match; [by apply (go_ok _ 2%nat)|]. case_match; [|by apply add_ok].
  destruct (netiring s) as [|[|x rest] runs] eqn:En.
  1,2: rewrite <- En; exact (step_bind0 2 (go TS_CR) (fun _ => add_cr K) (go_ok TS_CR 0%nat) (fun _ => step_add_cr K) s Hs).
  rewrite <- En. case_match; [exact (drop_ok x rest runs s 13 En Hs)|].
  case_match; [exact (drop_ok x rest runs s 10 En Hs)|by apply step_add_cr].
Qed.

(** When [suboption] comes back and leaves the rings alone. *)
Lemma step_recv_octet K suboption c : Step 0 (_ ← SB_TERM; suboption) -> Step 2 (recv_octet K suboption c).
Proof.
  intros Hsub. assert (forall t n, Step n (go t)) as go_ok by (intros; unfold go; step_modify).
  assert (forall c n, Step n (SB_ACCUM c)) as accum_ok.
  { intros c' n. apply step_modify. intros s. case_match eqn:Hp; (split_and!; [simpl; lia|done|]); [|done].
    apply Nat.ltb_lt in Hp. intros (? & ? & ? & ?). split_and!; simpl; rewrite ?length_insert; done || lia. }
  assert (forall c, Step 0 (sb_end suboption c)) as end_ok.
  { intros c'. unfold sb_end. do 2 (apply step_bind0; [apply accum_ok|intros _]).
    apply step_bind0; [step_modify|intros _]. exact Hsub. }
  assert (forall (m : M halt Client.tn unit) n, Total m -> Step n (_ ← neg m; go TS_DATA)) as neg_ok.
  { intros m n Hm. apply step_bind0; [by apply step_neg|intros _; apply go_ok]. }
  unfold recv_octet. apply step_bind0; [apply step_get|intros s]. destruct (telrcv_state s).
  - apply step_recv_data.
  - eapply step_more; [|apply step_recv_iac]. lia.
  - apply neg_ok, (total_handlers c).
  - apply neg_ok, (total_handlers c).
  - apply step_bind0; [apply step_neg, (total_handlers c)|intros _].
    apply step_bind0; [|intros _; apply go_ok]. case_match; [apply step_sendnaws|].
    case_match; [|apply step_ret]. apply step_bind0; [step_modify|intros _].
    apply step_bind0; [|intros _]; apply step_neg; total.
  - apply step_bind0; [apply step_neg, (total_handlers c)|intros _].
    apply step_bind0; [step_modify|intros _]. apply neg_ok. total.
  - apply step_bind0; [apply go_ok|intros _]. case_match; [apply step_ret|].
    case_match; [eapply step_more; [|apply step_TTYADD]; lia|apply step_recv_data].
  - case_match; [apply go_ok|apply accum_ok].
  - case_match; [apply step_bind0; [apply end_ok|intros _; apply go_ok]|].
    case_match; [apply step_bind0; [apply accum_ok|intros _; apply go_ok]|].
    apply step_bind0; [apply end_ok|intros _]. apply step_bind0; [apply go_ok|intros _].
    eapply step_more; [|apply step_recv_iac]. lia.
Qed.

Lemma client_telrcv_ends K suboption s :
  Step 0 (_ ← SB_TERM; suboption) -> kept s -> (length (ttyoring s) <= 2 * BUFSIZ)%nat ->
  match telrcv K suboption s with
  | (Ok _, s') => kept s' /\ (netiring s' = [] \/ (TTYROOM s' <= 2)%nat) /\
                  (length (ttyoring s') <= 2 * BUFSIZ)%nat
  | (Ex e, _) => e = Exit 1
  end.
Proof.
  intros Hsub Hs Hl. unfold telrcv. rewrite run_bind_gets.
  assert (forall fuel s, (turns (netiring s) <= fuel)%nat -> kept s -> (length (ttyoring s) <= 2 * BUFSIZ)%nat ->
    match telrcv_loop K suboption fuel s with
    | (Ok _, s') => kept s' /\ (netiring s' = [] \/ (TTYROOM s' <= 2)%nat) /\
                    (length (ttyoring s') <= 2 * BUFSIZ)%nat
    | (Ex e, _) => e = Exit 1
    end) as loop.
  { clear s Hs Hl. induction fuel as [|fuel IH]; intros s Hf Hs Hl; cbn [telrcv_loop]; unfold get;
      cbv [mbind M_bind]; (destruct (TTYROOM s <=? 2)%nat eqn:R;
        [apply Nat.leb_le in R; split_and!; [done|by right|done]|apply Nat.leb_gt in R]).
    - destruct (netiring s) eqn:En; [split_and!; [done|by left|done]|].
      unfold turns in Hf. simpl in Hf. lia.
    - destruct (netiring s) as [|[|c rest] runs] eqn:En; [split_and!; [done|by left|done]|..];
        unfold modify.
      + apply IH; [|done|done]. unfold turns in *. simpl in *. lia.
      + destruct (step_recv_octet K suboption c Hsub (set_netiring (rest :: runs) s) Hs)
          as [([] & s1 & E & K1 & L & T)|(s1 & E)]; rewrite E; [|done].
        apply IH; [unfold turns in *; simpl in *; lia|done|]. unfold TTYROOM in R. simpl in L. lia. }
  by apply loop.
Qed.

End Steps.

(** ** The client's sender always comes back *)

Section Sender.
Context `{Termios_h}.

Definition Returns {A} (m : IO A) : Prop := forall s, exists a s', m s = (Ok a, s').

(** [m] returns and does not switch [local]. *)
Definition Quiet {A} (m : IO A) : Prop := forall s, exists a s', m s = (Ok a, s') /\ local s' = local s.

Lemma silent_bind {A B} (m : IO A) (k : A -> IO B) :
  Quiet m -> (forall a, Quiet (k a)) -> Quiet (m ≫= k).
Proof.
  intros Hm Hk s. destruct (Hm s) as (a & s1 & E & L). rewrite (run_bind_ok _ _ _ _ _ E).
  destruct (Hk a s1) as (b & s2 & E2 & L2). exists b, s2. split; [done|congruence].
Qed.

Lemma silent_when (b : bool) m : Quiet m -> Quiet (mwhen b m).
Proof. intros Hm. destruct b; [done|by intros t; eexists _, _]. Qed.

Ltac quiet :=
  repeat first
    [ apply silent_bind; [|intros ?]
    | apply silent_when
    | intros ?; eexists _, _; split; reflexivity
    | match goal with
      | |- Quiet (if ?b then _ else _) => destruct b
      | |- Quiet (let x := _ in _) => cbv zeta
      end ].

Lemma quiet_special K c : Quiet (TerminalSpecialChars K c).
Proof.
  unfold TerminalSpecialChars, intp, sendbrk, sendabort, sendsusp, sendeof, xmitAO, xmitEL, xmitEC,
    send_flush, doflush, dosynch, NETADD, NET2ADD, NETADDS, ttyflush_drop. quiet.
Qed.

Lemma quiet_snd_octet K c : Quiet (snd_octet K c).
Proof. unfold snd_octet, NETADD, NET2ADD, NETADDS. quiet. Qed.

(** What is left after a character has been looked at: the rest of the run, perhaps without
    one more character; or the run itself, when the character is put back, and then [local]
    is switched off. *)
Lemma returns_escapes K command c rest s :
  (forall l, Returns (command l)) ->
  exists f s', escapes K command c rest s = (Ok f, s') /\
    match f with
    | Skip r | Stop r => (length r <= length rest)%nat
    | Send _ _ r => (length r <= length rest)%nat \/
                    r = c :: rest /\ local s = true /\ local s' = false
    end.
Proof.
  intros Hcmd. unfold escapes, get, modify, mret, M_ret. cbv [mbind M_bind]. cbv zeta.
  assert (forall l s, exists a s', command l s = (Ok a, s')) as Hc by exact Hcmd.
  assert (forall (b : bool) s, exists s', mwhen b ((fun s => (Ok (), set_bol true s)) : IO unit) s = (Ok (), s') /\
            local s' = local s) as Hn.
  { intros [] s0; by eexists. }
  repeat match goal with
  | |- context [if ?b then _ else _] => destruct b eqn:?
  | |- context [command ?l ?s] => destruct (Hc l s) as (? & ? & ->)
  | |- context [match rest with _ => _ end] => destruct rest
  | |- context [mwhen ?b ?m ?s] => destruct (Hn b s) as (? & -> & ?)
  end; eexists _, _; (split; [reflexivity|]); simpl; try lia; (left; lia) || (right; by split_and!).
Qed.

Lemma returns_local_chars K c sc rest s :
  exists f s', local_chars K c sc rest s = (Ok f, s') /\ local s' = local s /\
    match f with Skip r | Stop r | Send _ _ r => (length r <= length rest)%nat end.
Proof.
  set (special r := (if MODE_LOCAL_CHARS (globalmode s)
      then yes ← TerminalSpecialChars K sc;
           if (yes : bool) then mret (Send c sc r) else _ ← modify (set_bol true); mret (Stop r)
      else mret (Send c sc r)) : IO fate).
  assert (forall r, (length r <= length rest)%nat -> exists f s', special r s = (Ok f, s') /\
      local s' = local s /\
      match f with Skip r' | Stop r' | Send _ _ r' => (length r' <= length rest)%nat end) as Hl.
  { intros r Hr. unfold special. destruct (MODE_LOCAL_CHARS _); [|by eexists (Send c sc r), _].
    destruct (quiet_special K sc s) as (y & s1 & E & L). rewrite (run_bind_ok _ _ _ _ _ E).
    destruct y; by eexists _, _. }
  set (toggle := (_ ← modify (set_dontlecho (negb (dontlecho s))); _ ← settimer;
    _ ← neg (Client.setconnmode false); _ ← modify (set_flushline true); mret (Stop rest)) : IO fate).
  assert (local_chars K c sc rest s =
    (if Client.kludgelinemode (tn s) && negb (Z.land (globalmode s) MODE_EDIT =? 0) && (sc =? echoc K)
     then match rest with
          | d :: rest' => if strip s d =? echoc K then special rest' else toggle
          | [] => toggle
          end
     else special rest) s) as -> by done.
  destruct (_ && _ && _); [|by apply Hl].
  destruct rest as [|d rest]; [by eexists (Stop []), _|].
  destruct (_ =? _); [apply Hl; simpl; lia|]. by eexists (Stop (d :: rest)), _.
Qed.

(** Whatever the user types, [telsnd] comes back, when the command interpreter does. *)
Lemma telsnd_returns K command s :
  (forall l, Returns (command l)) -> exists s', telsnd K command s = (Ok (), s').
Proof.
  intros Hcmd. unfold telsnd. rewrite run_bind_gets.
  assert (forall fuel s, (turns (ttyiring s) + (if local s then 1 else 0) <= fuel)%nat ->
    exists s', telsnd_loop K command fuel s = (Ok (), s')) as loop.
  { clear s. induction fuel as [|fuel IH]; intros s Hf; cbn [telsnd_loop]; unfold get;
      cbv [mbind M_bind]; (destruct (NETROOM s <=? 2)%nat; [by exists s|]);
      destruct (ttyiring s) as [|[|c rest] runs]; try (by exists s);
      unfold turns in Hf; simpl in Hf; try lia.
    - unfold modify. apply IH. unfold turns. simpl. lia.
    - destruct (returns_escapes K command c rest s Hcmd) as (f & s1 & E1 & L1). rewrite E1.
      assert (forall r s', (length r <= length rest)%nat ->
        exists s2, telsnd_loop K command fuel (set_ttyiring (r :: runs) s') = (Ok (), s2)) as go_on.
      { intros r s' Hr. apply IH. unfold turns. simpl. rewrite length_app in *.
        destruct (local s'); lia. }
      destruct f as [r|r|c1 sc r]; [by apply go_on|by eexists|].
      destruct (returns_local_chars K c1 sc r s1) as (f & s2 & E2 & Hl2 & L2). rewrite E2.
      destruct f as [r2|r2|c2 sc2 r2]; [by eexists|by eexists|].
      destruct (quiet_snd_octet K c2 s2) as ([] & s3 & E3 & Hl3). rewrite E3. unfold put_back, modify.
      destruct L1 as [L1|(-> & Hl & Hl1)]; [apply go_on; lia|].
      apply IH. simpl. rewrite Hl3, Hl2, Hl1. rewrite Hl in Hf. unfold turns. simpl in *.
      rewrite length_app in *. lia. }
  apply loop. destruct (local s); lia.
Qed.

End Sender.

(** ** Both ends *)

Section Both.
Context `{Termios_h} (K : settings) (command : list Z -> IO unit) (suboption : IO unit).

(** C6. What the user types in character-at-a-time mode arrives at the server's terminal: a
    character as it was typed, for two escape characters in one run one of them.  The user has
    no rlogin escape and has not set [crlf], both ends agree on whether the direction is
    binary, and there is room: then the octets that [telsnd] adds to those for the network
    make [telrcv] put the text behind what waits for the terminal, and do nothing else. *)
Theorem typed_arrives (texts : list (list Z)) (c : io) (s : tnd) :
  char_mode K c -> Forall2 (keyed K c) (ttyiring c) texts ->
  plain (binary_out c) s ->
  (length (netout c) + 2 * length (concat texts) + 2 < 2 * BUFSIZ)%nat ->
  (length (ptyobuf (rc s)) + length (concat texts) + 2 <= Telnetd.BUFSIZ)%nat ->
  exists c' octets,
    telsnd K command c = (Ok (), c') /\ ttyiring c' = [] /\ netout c' = netout c ++ octets /\
    TelnetdRecv.telrcv (set_netip octets s) = (Ok (), received [] (concat texts) s).
Proof.
  intros Hm Ho Hp Hr1 Hr2.
  destruct (telsnd_loop_spec K command (S (turns (ttyiring c))) c texts) as (c' & E & Hn & _ & N); try done; [lia|].
  exists c', (nvt (binary_out c) (concat texts)). do 3 (split; [done|]).
  rewrite (telrcv_data (binary_out c) (concat texts)); done.
Qed.

(** C7. What a process writes to the server's terminal is shown to the user as it was
    written, when both ends agree on whether the direction is binary and the server
    echoes, [crmod] is off, output is not being flushed, and there is room: however the network cuts the octets that the server puts out, the client puts
    the written ones behind those for the user's terminal. *)
Theorem written_arrives (written : list Z) (runs : list (list Z)) (s : tnd) (c : io) :
  shows K (my_state_is_will (options (ng s)) TELOPT_BINARY) c -> telrcv_state c = TS_DATA ->
  (length (concat (netobuf (ng s))) + 2 * length written + 2 <= Telnetd.BUFSIZ)%nat ->
  (length (ttyoring c) + length written + 2 < 2 * BUFSIZ)%nat ->
  exists s' octets,
    pty_to_net written s = (Ok [], s') /\ concat (out_log s') = concat (out_log s) ++ octets /\
    (concat runs = octets ->
     exists c', telrcv K suboption (set_netiring runs c) = (Ok (), c') /\
       ttyoring c' = ttyoring c ++ written /\ netiring c' = []).
Proof.
  intros Hs Hst Hr1 Hr2. destruct (pty_to_net_spec written s Hr1) as (s' & E & P & _).
  eexists s', _. split; [exact E|]. split; [exact P|]. intros Hc.
  destruct (telrcv_loop_spec K suboption (my_state_is_will (options (ng s)) TELOPT_BINARY)
              (turns runs) written (set_netiring runs c)) as (c' & E' & (Hd & _) & Hn); try done.
  - simpl. rewrite Hst, Hc. constructor.
  - exists c'. by split_and!.
Qed.

End Both.

End IOFacts.
