(* ===== verification/TelnetSubFacts.v ===== *)
(** * telnet: the client answers every suboption and keeps its buffers

    Whatever the server sends, the client's [telrcv] with its suboptions returns, or leaves
    the program when there is no room for the terminal's name; the replies about special
    characters never pass the end of [slc_reply]. *)

From Stdlib Require Import ZArith Lia List Bool String Ascii.
From stdpp Require Import base tactics list numbers functions strings pretty.
From S2P Require Import Prelude CLib Decimal TelnetNeg TelnetOpts Telnetd TelnetdRecv Telnet TelnetIO TelnetSub TelnetIOFacts.

Local Open Scope Z_scope.

Module SubFacts.
Import ClientIO ClientSub IOFacts.

(** ** Lengths *)

Lemma len_app a b : len (a ++ b) = len a + len b.
Proof. unfold len. rewrite length_app. lia. Qed.

Lemma len_nonneg a : 0 <= len a.
Proof. unfold len. lia. Qed.

Lemma len_upcase s : len (upcase s) = len s.
Proof. unfold len, upcase. by rewrite length_map. Qed.

Lemma len_cstring s : len (cstring s) <= len s.
Proof. induction s as [|c s IH]; simpl; [done|]. case_match; unfold len in *; simpl in *; lia. Qed.

(** ** Names of the terminal *)

Definition short (s : list Z) : Prop := len s <= 40.

Definition scan_ok (r : option (list Z) * list (list Z * bool)) : Prop :=
  match r.1 with Some s => short s | None => True end /\ Forall (fun a => short a.1) r.2.

Lemma mklist_scan_short fuel name : forall buf cp2 bad first own args r,
  mklist_scan fuel name buf cp2 bad first own args = Some r -> scan_ok (own, args) -> scan_ok r.
Proof.
  induction fuel as [|fuel IH]; intros buf cp2 bad first own args r E Hok; [done|].
  destruct buf as [|c buf]; [done|]. cbn [mklist_scan] in E.
  destruct (c =? 0); [by injection E as <-|].
  destruct ((c =? 124) || (c =? 58)); [|by eapply IH].
  set (e := if bad || _ then _ else _) in E.
  assert (scan_ok e) as He.
  { unfold e. destruct Hok as [Ho Ha]. destruct (bad || (40 <? len cp2)) eqn:Hb; [done|].
    apply orb_false_iff in Hb as [_ Hb]. apply Z.ltb_ge in Hb.
    assert (short (cstring cp2)) by (unfold short; pose proof (len_cstring cp2); lia).
    simpl in Ho, Ha. destruct (match name with Some n => _ | None => _ end); [by split|].
    destruct (is_unique _ _); [|by split]. split; [done|]. apply Forall_app; split; [done|by constructor]. }
  destruct e as [own' args']. destruct (c =? 58); [by injection E as <-|].
  destruct (skip_bars buf) as [|d buf']; [done|]. by eapply IH.
Qed.

Lemma mklist_v6_short args : Forall (fun a => short a.1) args -> Forall short (mklist_v6 args).
Proof.
  intros Ha. assert (Forall short (map fst args)) as Hm by (by rewrite Forall_map).
  unfold mklist_v6. destruct args as [|[s []] rest]; try done. case_match; [|done].
  inversion Hm; subst. apply Forall_app; split; [done|by constructor].
Qed.

Lemma short_name_unknown : short name_unknown.
Proof. vm_compute. done. Qed.

Lemma mklist_array_short name own args :
  (match name with Some n => short n | None => True end) ->
  (match own with Some s => short s | None => True end) -> Forall short args ->
  Forall short (mklist_array name own args) /\ mklist_array name own args <> [].
Proof.
  intros Hn Ho Ha. pose proof short_name_unknown as Hu. unfold mklist_array.
  assert (forall z, last args = Some z -> short z) as Hl.
  { intros z Hz. apply last_Some in Hz as [l ->]. apply Forall_app in Ha as [_ Ha]. by inversion Ha. }
  destruct own, (last args) as [z|] eqn:El; try specialize (Hl z eq_refl).
  - split; [|done]. constructor; [done|]. apply Forall_app; split; [done|by constructor].
  - split; [by repeat constructor|done].
  - destruct name.
    + split; [|done]. constructor; [done|]. apply Forall_app; split; [done|by constructor].
    + split; [|by destruct args]. apply Forall_app; split; [done|by repeat constructor].
  - destruct name; (split; [by repeat constructor|done]).
Qed.

(** What [mklist] needs of [ttytype] to stay inside it: names without NUL or ':', the last octet
    of which is no '|', and a NUL or a ':' behind them. *)
Definition good_entry (buf : list Z) : Prop :=
  exists names e rest, buf = names ++ e :: rest /\ (e = 0 \/ e = 58) /\
    Forall (fun c => c <> 0 /\ c <> 58) names /\ last names <> Some 124.

Lemma skip_bars_split names rest :
  Forall (fun c => c <> 0 /\ c <> 58) names -> last names <> Some 124 -> names <> [] ->
  exists d names', skip_bars (names ++ rest) = d :: names' ++ rest /\ (length names' < length names)%nat /\
    Forall (fun c => c <> 0 /\ c <> 58) names' /\ last names' <> Some 124.
Proof.
  induction names as [|c names IH]; intros Hf Hl Hn; [done|]. simpl.
  inversion Hf as [|? ? Hc Hf']; subst.
  assert (last names <> Some 124) as Hl' by (destruct names; [done|by rewrite last_cons_cons in Hl]).
  destruct (Z.eqb_spec c 124) as [->|].
  - destruct names as [|d names]; [done|]. destruct IH as (d' & n' & E & L & F & La); [done|done|done|].
    exists d', n'. split_and!; [done|simpl in *; lia|done|done].
  - exists c, names. split_and!; [done|lia|done|done].
Qed.

Lemma mklist_scan_ends fuel name e : forall names rest cp2 bad first own args,
  (e = 0 \/ e = 58) ->
  Forall (fun c => c <> 0 /\ c <> 58) names -> last names <> Some 124 -> (length names < fuel)%nat ->
  exists r, mklist_scan fuel name (names ++ e :: rest) cp2 bad first own args = Some r.
Proof.
  induction fuel as [|fuel IH]; intros names rest cp2 bad first own args He Hf Hl Hlen; [lia|].
  cbn [mklist_scan]. destruct names as [|c names]; cbn [app].
  { destruct He as [-> | ->]; [by eexists|].
    change (58 =? 0) with false. change ((58 =? 124) || (58 =? 58)) with true.
    change (58 =? 58) with true. cbv iota. destruct (if bad || _ then _ else _). by eexists. }
  inversion Hf as [|? ? [Hc0 Hc58] Hf']; subst. apply Z.eqb_neq in Hc0, Hc58. rewrite Hc0, Hc58.
  assert (last names <> Some 124) as Hl' by (destruct names; [done|by rewrite last_cons_cons in Hl]).
  simpl in Hlen. rewrite orb_false_r. destruct (Z.eqb_spec c 124) as [->|]; [|apply IH; [done..|lia]].
  destruct (if bad || _ then _ else _) as [own' args'].
  destruct (skip_bars_split names (e :: rest)) as (d & n' & -> & L & F & La); [done|done| |].
  { intros ->. done. }
  apply IH; [done..|lia].
Qed.

Lemma mklist_good buf name :
  good_entry buf -> exists l, mklist buf name = Some l /\ Forall short l /\ l <> [].
Proof.
  intros (names & e & rest & -> & He & Hf & Hl). unfold mklist.
  set (name' := if 40 <? len name then None else Some (upcase name)).
  destruct (mklist_scan_ends (S (length (names ++ e :: rest))) name' e names rest [] false true None [])
    as [[own args] E]; [done..|rewrite length_app; lia|].
  rewrite E. simpl. eexists; split; [done|].
  pose proof (mklist_scan_short _ _ _ _ _ _ _ _ _ E) as [Ho Ha]; [by split|].
  apply mklist_array_short; [|done|by apply mklist_v6_short].
  unfold name'. destruct (Z.ltb_spec 40 (len name)); [done|]. unfold short. rewrite len_upcase. lia.
Qed.

(** ** Numbers *)

Lemma len_octets s : len (octets s) = Z.of_nat (String.length s).
Proof. unfold len, octets. rewrite length_map. f_equal. induction s; simpl; congruence. Qed.

Lemma pretty_N_go_length k : forall x t,
  (x < 10 ^ N.of_nat k)%N -> (String.length (pretty_N_go x t) <= k + String.length t)%nat.
Proof.
  induction k as [|k IH]; intros x t Hx.
  { change (10 ^ N.of_nat 0)%N with 1%N in Hx. assert (x = 0%N) as -> by lia. by rewrite pretty_N_go_0. }
  destruct (decide (x = 0%N)) as [->|H0]; [rewrite pretty_N_go_0; lia|].
  rewrite pretty_N_go_step by lia. rewrite Nat2N.inj_succ, N.pow_succ_r' in Hx.
  specialize (IH (x / 10)%N (String (pretty_N_char (x mod 10)) t)). simpl in IH.
  assert (x / 10 < 10 ^ N.of_nat k)%N by (apply N.Div0.div_lt_upper_bound; lia). lia.
Qed.

Lemma pretty_speed_length z : 0 <= z < 2 ^ 63 -> len (octets (pretty z)) <= 19.
Proof.
  intros Hz. rewrite len_octets. destruct z as [|p|p]; [vm_compute; done| |lia].
  change (pretty (Zpos p)) with (pretty (Npos p)). unfold pretty, pretty_N. rewrite decide_False by done.
  pose proof (pretty_N_go_length 19 (Npos p) "") as Hl. change (10 ^ N.of_nat 19)%N with 10000000000000000000%N in Hl.
  simpl String.length in Hl. lia.
Qed.

(** ** The environment option *)

Lemma env_opt_add_some l ep r : Forall (fun e => var e <> []) l -> exists r', env_opt_add 1 l ep r = Some r'.
Proof.
  intros Hl. destruct ep as [|c ep]; [|by eexists]. cbn [env_opt_add].
  assert (Forall (fun ep => ep <> []) (env_default false l ++ env_default true l)) as Hd.
  { assert (forall w, Forall (fun ep => ep <> []) (env_default w l)) as Hw.
    { intros w. unfold env_default. rewrite Forall_map. apply Forall_forall. intros e [_ He]%list_elem_of_filter.
      by eapply Forall_forall in Hl. }
    by apply Forall_app. }
  revert r. induction Hd as [|ep eps Hep Hd IH]; intros r; [by eexists|].
  destruct ep as [|c ep]; [done|]. cbn [fold_left env_opt_add mbind option_bind]. apply IH.
Qed.

Lemma env_opt_adds_some l eps : forall r,
  Forall (fun e => var e <> []) l -> exists r', env_opt_adds 1 l eps r = Some r'.
Proof.
  unfold env_opt_adds. induction eps as [|ep eps IH]; intros r Hl; [by eexists|].
  cbn [fold_left]. destruct (env_opt_add_some l ep r Hl) as [r' E].
  change (r ← Some r; env_opt_add 1 l ep r) with (env_opt_add 1 l ep r). rewrite E. by apply IH.
Qed.

(** ** The client's machine with its suboptions *)

(** What [init_telnet] sets up and every suboption keeps: names of at most 40 characters once
    they have been asked for, no variable without a name, speeds that a [long] holds. *)
Definition subs_ok (b : subs) : Prop :=
  (resettermname b = true \/ names b <> []) /\ Forall short (names b) /\
  Forall (fun e => var e <> []) (envlist b) /\
  0 <= old_ispeed b < 2 ^ 63 /\ 0 <= old_ospeed b < 2 ^ 63.

Abbreviation SStep := (Step subs_ok).

Lemma step_supply m n : SStep n (supply m).
Proof. unfold supply. apply step_bind0; [apply step_gets|intros room]. apply step_when, step_NETADDS. Qed.

Lemma step_upd_sb f n : (forall b, subs_ok b -> subs_ok (f b)) -> SStep n (upd_sb f).
Proof.
  intros Hf. apply step_modify. intros s. split_and!; [simpl; lia|done|].
  intros (? & ? & ? & ?). split_and!; simpl; auto; by apply Hf.
Qed.

(** What [m] gives satisfies [Q]. *)
Lemma step_bind_post {A B} (Q : A -> Prop) n (m : IO A) (k : A -> IO B) :
  SStep 0 m -> (forall s a s', kept subs_ok s -> m s = (Ok a, s') -> Q a) ->
  (forall a, Q a -> SStep n (k a)) -> SStep n (m ≫= k).
Proof.
  intros Hm HQ Hk s Hs. destruct (Hm s Hs) as [(a & s1 & E & K1 & L & T)|(s1 & E)].
  - rewrite (run_bind_ok _ _ _ _ _ E).
    destruct (Hk a (HQ s a s1 Hs E) s1 K1) as [(b & s2 & E2 & K2 & L2 & T2)|Hx]; [left|by right].
    exists b, s2. split_and!; [done|done|lia|lia].
  - right. exists s1. by rewrite (run_bind_ex _ _ _ _ _ E).
Qed.

Lemma step_get_sb {A B} n (f : subs -> A) (Q : A -> Prop) (k : A -> IO B) :
  (forall b, subs_ok b -> Q (f b)) -> (forall a, Q a -> SStep n (k a)) -> SStep n (get_sb f ≫= k).
Proof.
  intros HQ Hk. apply (step_bind_post Q); [apply step_gets| |done].
  intros s a s' (_ & _ & _ & Hs) [= <- <-]. by apply HQ.
Qed.

Lemma step_temp_reply o s n : len s <= 43 -> SStep n (temp_reply o s).
Proof.
  intros Hl. unfold temp_reply. cbv zeta. rewrite !len_app.
  change (len [IAC; SB; o; TELQUAL_IS]) with 4. change (len [IAC; SE]) with 2. unfold TEMP_SIZE.
  destruct (Z.ltb_spec 50 (4 + (len s + 2) + 1)); [lia|apply step_ret].
Qed.

Lemma env_update_nonempty f v l :
  (forall e, var (f e) = var e) -> Forall (fun e => var e <> []) l ->
  Forall (fun e => var e <> []) (env_update f v l).
Proof.
  intros Hf. induction 1 as [|e l He Hl IH]; simpl; [done|].
  case_match; constructor; try done. by rewrite Hf.
Qed.

Section Suboptions.
Context `{Termios_h} (setupterm : list Z -> option (list Z)).
Context (Hsetup : forall t buf, setupterm t = Some buf -> good_entry buf).
Context (libtelnet : list Client.call -> Z -> list Z -> libprog).

Definition good_names (n : list (list Z)) : Prop := Forall short n /\ n <> [].

(** The names for the value of TERM. *)
Definition names_of (tname : list Z) : option (list (list Z)) :=
  match setupterm tname with
  | Some ttytype => mklist ttytype tname
  | None => Some [if 40 <? len tname then name_unknown else upcase tname]
  end.

Lemma names_of_good tname : exists n, names_of tname = Some n /\ good_names n.
Proof.
  unfold names_of. destruct (setupterm tname) as [buf|] eqn:E.
  - destruct (mklist_good buf tname (Hsetup _ _ E)) as (n & En & Hn). by exists n.
  - eexists. split; [done|]. split; [|done]. constructor; [|done].
    destruct (Z.ltb_spec 40 (len tname)); [apply short_name_unknown|]. unfold short. rewrite len_upcase. lia.
Qed.

Lemma terminal_names_spec s :
  kept subs_ok s ->
  exists n b, terminal_names setupterm s = (Ok n, set_sb b s) /\ good_names n /\ subs_ok b.
Proof.
  intros (_ & _ & _ & Hs). unfold terminal_names. unfold get_sb. rewrite run_bind_gets.
  destruct (env_getvalue TERM (envlist (sb s))) as [tname|].
  - set (upd := mwhen _ _).
    assert (exists b, upd s = (Ok (), set_sb b s) /\ subs_ok b) as (b & E & Hb).
    { unfold upd. destruct (negb _); [|exists (sb s); split; [by destruct s|done]]. eexists. split; [done|].
      destruct Hs as (? & ? & ? & [? ?] & [? ?]). split_and!; try done. by apply env_update_nonempty. }
    rewrite (run_bind_ok _ _ _ _ _ E). destruct (names_of_good tname) as (n & En & Hn).
    unfold names_of in En. exists n, b. split; [|done].
    destruct (setupterm tname); [by rewrite En|by injection En as <-].
  - exists [name_unknown], (sb s). split_and!; [by destruct s| |done]. split; [|done].
    constructor; [apply short_name_unknown|done].
Qed.

Lemma gettermname_spec s :
  kept subs_ok s -> exists nm b, gettermname setupterm s = (Ok nm, set_sb b s) /\ short nm /\ subs_ok b.
Proof.
  intros Hk. unfold gettermname, get_sb. rewrite run_bind_gets.
  set (ask := mwhen _ _).
  assert (exists b, ask s = (Ok (), set_sb b s) /\ subs_ok b /\ names b <> []) as (b & E & Hb & Hn).
  { unfold ask. destruct (resettermname (sb s)) eqn:R.
    - destruct (terminal_names_spec s Hk) as (n & b & E & [Hn Hne] & Hb). simpl.
      rewrite (run_bind_ok _ _ _ _ _ E). eexists. split; [done|]. split; [|done].
      destruct Hb as (_ & _ & ? & [? ?] & [? ?]). split_and!; try done. by right.
    - exists (sb s). destruct Hk as (_ & _ & _ & Hs). split_and!; [by destruct s|done|].
      destruct Hs as ([Hx|Hx] & _); [congruence|done]. }
  rewrite (run_bind_ok _ _ _ _ _ E). unfold upd_sb. rewrite !run_bind_gets. cbv zeta. rewrite run_bind_modify.
  simpl. set (i := if (next b <? _)%nat then _ else _).
  assert (i < length (names b))%nat as Hi.
  { unfold i. destruct (Nat.ltb_spec (next b) (length (names b))); [done|]. destruct (names b); [done|simpl; lia]. }
  destruct (lookup_lt_is_Some_2 _ _ Hi) as [nm Enm]. rewrite Enm. eexists nm, _. split; [done|].
  destruct Hb as (? & Hsh & ? & [? ?] & [? ?]). split; [by eapply Forall_lookup_1|]. split_and!; try done. by right.
Qed.

Lemma step_exit {A} n : SStep n (leave (Exit 1) : IO A).
Proof. intros s Hs. right. by eexists. Qed.

Lemma step_sb_next n : SStep n sb_next.
Proof.
  intros s Hs. left. unfold sb_next. unfold SB_EOF. rewrite run_bind_gets.
  destruct (Nat.leb_spec (subend s) (subpointer s)); [by eexists _, s; split_and!; [| |lia|lia]|].
  destruct Hs as (Hl & Hp & He & Hs).
  destruct (lookup_lt_is_Some_2 (subbuffer s) (subpointer s)) as [c Ec]; [lia|].
  exists (Some c), (set_sub (subbuffer s) (S (subpointer s)) (subend s) s).
  unfold SB_GET, get, modify. cbv [mbind M_bind]. rewrite Ec.
  split_and!; try done; simpl; try lia. split_and!; simpl; try done. lia.
Qed.

Lemma step_env_opt_end ok r n : SStep n (env_opt_end ok r).
Proof.
  unfold env_opt_end. destruct r as [b e]. case_match; [apply step_ret|]. apply step_when, step_supply.
Qed.

Lemma step_env_reply eps ok r n : SStep n (env_reply eps ok r).
Proof.
  unfold env_reply. apply (step_get_sb _ _ (Forall (fun e => var e <> []))); [by intros b (_ & _ & Hb & _)|].
  intros l Hl. destruct (env_opt_adds_some l eps r Hl) as [r' ->]. apply step_env_opt_end.
Qed.

Lemma step_env_opt x buf n : SStep n (env_opt x buf).
Proof.
  unfold env_opt. destruct buf as [|q l]; [apply step_ret|]. case_match; [apply step_env_reply|apply step_ret].
Qed.

Lemma step_want (f : opt_words -> Z -> bool) o n :
  SStep n (get_neg (fun t => f (Client.options t) o)).
Proof. apply step_gets. Qed.

Lemma step_calls n :
  SStep n (neg Client.setcommandmode) /\ (forall b, SStep n (neg (Client.setconnmode b))) /\
  (forall o b, SStep n (neg (Client.send_wont o b))).
Proof.
  split_and!; [apply step_neg; total|intros b; apply step_neg; total|].
  intros o b. apply step_neg, (total_sends o b).
Qed.

Lemma step_lm_answer v cmd n : SStep n (lm_answer v cmd).
Proof. unfold lm_answer. destruct cmd; [apply step_ret|apply step_supply]. Qed.

Lemma step_lm_mode cmd i n : SStep n (lm_mode cmd i).
Proof.
  unfold lm_mode. destruct cmd as [|c [|]]; try apply step_ret.
  apply step_bind0; [apply step_gets|intros m]. do 2 (case_match; [apply step_ret|]). cbv zeta.
  apply step_bind0; [apply step_neg; total|intros _].
  apply step_bind0; [apply step_supply|intros _]. apply (step_calls n).
Qed.

(** *** The reply about special characters stays in [slc_reply] *)

Definition in_reply (r : list Z) : Prop := len r + 2 <= SLC_REPLY_SIZE.

Lemma start_in_reply : in_reply slc_start_reply.
Proof. by vm_compute. Qed.

Lemma add_in_reply func fl v r : in_reply r -> in_reply (slc_add_reply func fl v r).
Proof.
  intros Hr. unfold slc_add_reply, in_reply in *. destruct (Z.ltb_spec SLC_REPLY_SIZE (len r + (6 + 2))); [done|].
  assert (forall c, len (slc_octet c) <= 2) as D.
  { intros c. unfold slc_octet, len. case_match; simpl; lia. }
  pose proof (D func). pose proof (D fl). pose proof (D v). rewrite !len_app. lia.
Qed.

Lemma slc_loop_in_reply n : forall l d r, (length l <= n)%nat -> in_reply r -> in_reply (slc_loop l d r).2.
Proof.
  induction n as [|n IH]; intros [|func [|fl [|v l]]] d r Hl Hr; simpl in *; try done; try lia.
  repeat case_match; apply IH; try lia; try done; by apply add_in_reply.
Qed.

Lemma slc_export_in_reply cc d : forall func r, in_reply r -> in_reply (slc_export_loop cc func d r).2.
Proof.
  induction d as [|p d IH]; intros func r Hr; simpl; [done|].
  destruct (mylevel p =? SLC_NOSUPPORT).
  - specialize (IH (func + 1) r Hr). by destruct (slc_export_loop _ _ d _).
  - set (r' := slc_add_reply _ _ _ _). specialize (IH (func + 1) r' (add_in_reply _ _ _ _ Hr)).
    by destruct (slc_export_loop _ _ d _).
Qed.

Lemma slc_check_in_reply cc d : forall func r, in_reply r -> in_reply (slc_check_loop cc func d r).2.
Proof.
  induction d as [|p d IH]; intros func r Hr; simpl; [done|].
  destruct (valp p) as [i|]; [destruct (cc_at cc i =? val p)|].
  1,3: specialize (IH (func + 1) r Hr); by destruct (slc_check_loop _ _ d _).
  set (r' := slc_add_reply _ _ _ _). specialize (IH (func + 1) r' (add_in_reply _ _ _ _ Hr)).
  by destruct (slc_check_loop _ _ d _).
Qed.

(** So the end of the reply is always put behind it. *)
Lemma slc_reply_ends r : in_reply r -> slc_end_reply r = mwhen (6 <? len r + 2) (supply (r ++ [IAC; SE])).
Proof. intros Hr. unfold slc_end_reply, in_reply in *. by destruct (Z.ltb_spec SLC_REPLY_SIZE (len r + 2)); [lia|]. Qed.

Lemma step_slc_update n : SStep n slc_update.
Proof.
  unfold slc_update. apply step_bind0; [apply step_gets|intros b].
  destruct (spc_data b) as [|p0 d]; [apply step_ret|].
  destruct (slc_update_loop d (new_cc b)) as [[d' cc] u].
  do 2 (apply step_bind0; [by apply step_upd_sb|intros _]). apply step_ret.
Qed.

Lemma step_slc_end_reply r n : SStep n (slc_end_reply r).
Proof. unfold slc_end_reply. case_match; [apply step_ret|]. apply step_when, step_supply. Qed.

Lemma step_slc cp n : SStep n (slc cp).
Proof.
  unfold slc. apply step_bind0; [apply step_gets|intros d]. destruct (slc_loop _ _ _) as [d' r].
  apply step_bind0; [by apply step_upd_sb|intros _]. apply step_bind0; [apply step_slc_end_reply|intros _].
  apply step_bind0; [apply step_slc_update|intros u]. apply step_when, (step_calls n).
Qed.

Lemma step_suboption_ttype n : SStep n (suboption_ttype setupterm).
Proof.
  unfold suboption_ttype. apply step_bind0; [apply step_sb_next|intros q]. apply step_when.
  apply (step_bind_post short).
  - intros s Hs. left. destruct (gettermname_spec s Hs) as (nm & b & E & _ & Hb).
    exists nm, (set_sb b s). split_and!; [done| |simpl; lia|simpl; lia]. by destruct Hs as (? & ? & ? & _).
  - intros s a s' Hs E. destruct (gettermname_spec s Hs) as (nm & b & E' & Hn & _). congruence.
  - intros nm Hn. apply step_bind0; [apply step_gets|intros room]. case_match; [|apply step_exit].
    apply step_bind0; [apply step_temp_reply; unfold short in Hn; lia|intros m; apply step_NETADDS].
Qed.

Lemma step_suboption_tspeed n : SStep n suboption_tspeed.
Proof.
  unfold suboption_tspeed. apply step_bind0; [apply step_sb_next|intros q]. apply step_when.
  apply (step_get_sb _ _ (fun p => 0 <= p.1 < 2 ^ 63 /\ 0 <= p.2 < 2 ^ 63)).
  - intros b (_ & _ & _ & Hi & Ho). unfold TerminalSpeeds. simpl. by case_match.
  - intros [i o] [Hi Ho]. simpl in Hi, Ho. apply step_bind0; [|intros m; apply step_supply].
    apply step_temp_reply. rewrite !len_app. pose proof (pretty_speed_length i Hi).
    pose proof (pretty_speed_length o Ho). change (len [44]) with 1. lia.
Qed.

Lemma step_suboption_lflow n : SStep n suboption_lflow.
Proof.
  unfold suboption_lflow. apply step_bind0; [apply step_sb_next|intros [c|]]; [|apply step_ret].
  case_match; [apply step_ret|]. apply step_bind0.
  - repeat case_match; solve [by apply step_upd_sb | apply step_modify; intros s; split_and!; [simpl; lia|done|done]].
  - intros _. apply step_bind0; [|intros _]; apply (step_calls _).
Qed.

Lemma step_suboption_linemode n : SStep n suboption_linemode.
Proof.
  unfold suboption_linemode. apply step_bind0; [apply step_sb_next|intros [c|]]; [|apply step_ret].
  apply step_bind0; [apply step_gets|intros l]. unfold lm_will, lm_wont, lm_do, lm_dont.
  repeat (case_match; [apply step_lm_answer || apply step_ret || apply step_slc || apply step_lm_mode|]).
  apply step_ret.
Qed.

Lemma step_suboption_environ n : SStep n suboption_environ.
Proof.
  unfold suboption_environ. apply step_bind0; [apply step_get|intros s].
  destruct (sb_rest s) as [|q l]; [apply step_ret|]. apply step_bind0; [apply step_gets|intros w].
  apply step_bind0; [apply step_gets|intros d]. apply step_when, step_env_opt.
Qed.

Lemma step_suboption_xdisploc n : SStep n suboption_xdisploc.
Proof.
  unfold suboption_xdisploc. apply step_bind0; [apply step_sb_next|intros q]. apply step_when.
  apply step_bind0; [apply step_gets|intros l]. destruct (env_getvalue _ l) as [dp|]; [|apply (step_calls n)].
  unfold TEMP_SIZE. destruct (Z.ltb_spec (50 - 7) (len dp)); [apply (step_calls n)|].
  apply step_bind0; [apply step_temp_reply; lia|intros m; apply step_supply].
Qed.

Lemma step_lib_run p n : SStep n (lib_run p).
Proof.
  induction p as [|m k IH|v k IH]; simpl; [apply step_ret| |].
  - apply step_bind0; [|intros x; apply IH]. unfold net_write.
    apply step_bind0; [apply step_gets|intros room]. case_match; [|apply step_ret].
    apply step_bind0; [apply step_NETADDS|intros _; apply step_ret].
  - apply step_bind0; [|intros x; apply IH]. unfold telnet_getenv.
    apply step_bind0; [apply step_gets|intros l; apply step_ret].
Qed.

Lemma step_suboption_authentication n : SStep n (suboption_authentication libtelnet).
Proof.
  unfold suboption_authentication. apply step_bind0; [apply step_gets|intros a]. apply step_when.
  apply step_bind0; [apply step_sb_next|intros [q|]]; [|apply step_ret].
  do 2 (apply step_bind0; [apply step_gets|intros ?]). apply step_when.
  do 2 (apply step_bind0; [apply step_gets|intros ?]).
  apply step_bind0; [apply step_neg; total|intros _]. apply step_lib_run.
Qed.

Lemma step_suboption : SStep 0 (_ ← SB_TERM; suboption setupterm libtelnet).
Proof.
  intros s Hs. unfold SB_TERM. rewrite run_bind_modify. set (s1 := set_sub _ _ _ s).
  unfold suboption. destruct Hs as (Hl & Hp & He & Hk).
  destruct (lookup_lt_is_Some_2 (subbuffer s) 0) as [c Ec]; [rewrite Hl; unfold SUBBUFSIZE; lia|].
  set (s2 := set_sub (subbuffer s) 1 (subpointer s) s).
  assert (SB_GET s1 = (Ok c, s2)) as E.
  { unfold SB_GET, get, modify. cbv [mbind M_bind]. simpl. by rewrite Ec. }
  assert (kept subs_ok s2) as Hs2 by (split_and!; simpl; try done; unfold SUBBUFSIZE; lia).
  rewrite (run_bind_ok _ _ _ _ _ E).
  refine (step_bind0 subs_ok 0 (want_will c) _ (step_gets _ _ _) _ s2 Hs2).
  intros on. repeat (case_match; [apply step_when; first
    [apply step_suboption_ttype | apply step_suboption_tspeed | apply step_suboption_lflow
    |apply step_suboption_linemode | apply step_suboption_xdisploc]|]).
  case_match; [apply step_suboption_environ|]. case_match; [apply step_when, step_suboption_xdisploc|].
  case_match; [apply step_suboption_authentication|apply step_ret].
Qed.

(** C9. Whatever octets the server sends, suboptions included, the client's [telrcv] comes
    back: it has taken everything or the ring to the terminal is nearly full and holds no
    more than its size, and [subbuffer], [temp] and the terminal's names stay in bounds; or
    it has left the program, for want of room for the terminal's name.  No variable has an
    empty name ([subs_ok]), what [setupterm] finds is a [good_entry], and libtelnet's
    authentication is any program that makes its calls back and returns. *)
Theorem client_telrcv_safe K s :
  kept subs_ok s -> (length (ttyoring s) <= 2 * BUFSIZ)%nat ->
  match telrcv K (suboption setupterm libtelnet) s with
  | (Ok _, s') => kept subs_ok s' /\ (netiring s' = [] \/ (TTYROOM s' <= 2)%nat) /\
                  (length (ttyoring s') <= 2 * BUFSIZ)%nat
  | (Ex e, _) => e = Exit 1
  end.
Proof. intros Hs Hl. by apply client_telrcv_ends; [apply step_suboption| |]. Qed.

End Suboptions.

End SubFacts.
