(* ===== verification/TelnetReply.v ===== *)
(** * telnet and telnetd: the server asks, the client answers, the server knows

    telnet's [telrcv] takes a frame apart like telnetd's.  With it, the requests of telnetd for
    the environment, the terminal's name and its speed are followed through telnet's answer
    to what telnetd records. *)

From Stdlib Require Import ZArith Lia List Bool String.
From stdpp Require Import base tactics list numbers functions strings pretty.
From S2P Require Import Prelude CLib Decimal TelnetNeg TelnetOpts Telnetd TelnetdStat TelnetdRecv.
From S2P Require Import Telnet TelnetIO TelnetSub TelnetFocus TelnetdFacts TelnetdRecvFacts TelnetFrame.
From S2P Require Import TelnetEnviron TelnetdData TelnetIOFacts TelnetSubFacts.

Local Open Scope Z_scope.

Module Reply.
Import ClientIO IOFacts SubFacts.

(** ** A frame arrives at the client *)

Section Client.
Context `{Termios_h} (K : settings) (suboption : IO unit).

Definition gathered (body : list Z) (s : io) : list Z := body ++ drop (length body) (subbuffer s).

Definition gathering (st : ts) (body : list Z) (s : io) : io :=
  set_telrcv_state st (set_sub (gathered body s) (length body) (subend s) s).

Definition in_suboption (body : list Z) (s : io) : io :=
  set_netiring [[]] (set_telrcv_state TS_SE
    (set_sub (gathered (body ++ [IAC; SE]) s) 0 (length body) s)).

Lemma client_insert_gathered body c s :
  (length body < length (subbuffer s))%nat ->
  <[length body := c]> (gathered body s) = gathered (body ++ [c]) s.
Proof.
  intros Hl. unfold gathered. rewrite insert_app_r_alt, Nat.sub_diag by lia.
  destruct (drop (length body) (subbuffer s)) as [|x l] eqn:E.
  { apply (f_equal length) in E. rewrite length_drop in E. simpl in E. lia. }
  rewrite length_app. simpl. rewrite <- app_assoc. simpl. do 2 f_equal. by rewrite <- drop_drop, E.
Qed.

Lemma client_accum_gathering st body c s :
  (length body < SUBBUFSIZE)%nat -> length (subbuffer s) = SUBBUFSIZE ->
  SB_ACCUM c (gathering st body s) = (Ok (), gathering st (body ++ [c]) s).
Proof.
  intros Hb Hl. unfold SB_ACCUM, modify. f_equal.
  change (subpointer (gathering st body s)) with (length body).
  apply Nat.ltb_lt in Hb as Hb'. rewrite Hb'. symmetry. unfold gathering at 1.
  rewrite <- client_insert_gathered by lia.
  replace (length (body ++ [c])) with (S (length body)) by (rewrite length_app; simpl; lia). done.
Qed.

Definition shows_room (s : io) : Prop := (2 < TTYROOM s)%nat.

Lemma client_loop_octet k c l runs s t :
  shows_room s -> recv_octet K suboption c (set_netiring (l :: runs) s) = (Ok (), t) ->
  telrcv_loop K suboption (S k) (set_netiring ((c :: l) :: runs) s) = telrcv_loop K suboption k t.
Proof.
  intros Hr E. cbn [telrcv_loop]. unfold get. cbv [mbind M_bind].
  change (TTYROOM (set_netiring ((c :: l) :: runs) s)) with (TTYROOM s). unfold shows_room in Hr.
  destruct (Nat.leb_spec (TTYROOM s) 2); [lia|]. cbn [netiring set_netiring]. unfold modify.
  change (set_netiring (l :: runs) (set_netiring ((c :: l) :: runs) s)) with (set_netiring (l :: runs) s).
  by rewrite E.
Qed.

Lemma client_loop_double k c l body s :
  shows_room s -> (length body < SUBBUFSIZE)%nat -> length (subbuffer s) = SUBBUFSIZE ->
  telrcv_loop K suboption (length (double c) + k) (set_netiring [double c ++ l] (gathering TS_SB body s)) =
  telrcv_loop K suboption k (set_netiring [l] (gathering TS_SB (body ++ [c]) s)).
Proof.
  intros Hs Hb Hl. unfold double. destruct (Z.eqb_spec c IAC) as [->|Hc]; simpl length; simpl app; cbn [Nat.add].
  - rewrite (client_loop_octet _ IAC (IAC :: l) [] _ (set_netiring [IAC :: l] (gathering TS_SE body s))) by done.
    apply (client_loop_octet _ IAC l [] (gathering TS_SE body s)); [done|].
    pose proof (client_accum_gathering TS_SE body IAC (set_netiring [l] s) Hb Hl) as E.
    exact (run_bind_ok _ _ _ _ _ E).
  - apply (client_loop_octet k c l [] (gathering TS_SB body s)); [done|].
    apply Z.eqb_neq in Hc. unfold recv_octet, get. cbv [mbind M_bind]. change (telrcv_state _) with TS_SB.
    cbv iota. rewrite Hc. exact (client_accum_gathering TS_SB body c (set_netiring [l] s) Hb Hl).
Qed.

Lemma client_loop_doubled k l more : forall body s,
  shows_room s -> (length body + length more <= SUBBUFSIZE)%nat -> length (subbuffer s) = SUBBUFSIZE ->
  telrcv_loop K suboption (length (doubled more) + k) (set_netiring [doubled more ++ l] (gathering TS_SB body s)) =
  telrcv_loop K suboption k (set_netiring [l] (gathering TS_SB (body ++ more) s)).
Proof.
  induction more as [|c more IH]; intros body s Hs Hb Hl; [by rewrite app_nil_r|].
  simpl in Hb. rewrite doubled_cons, length_app, <- Nat.add_assoc, <- app_assoc.
  rewrite client_loop_double by (done || lia). rewrite IH; [by rewrite <- app_assoc|done| |done].
  rewrite length_app. simpl. lia.
Qed.

Lemma client_recv_se body s :
  (length body + 2 <= SUBBUFSIZE)%nat -> length (subbuffer s) = SUBBUFSIZE ->
  recv_octet K suboption SE (set_netiring [[]] (gathering TS_SE body s)) =
  (_ ← suboption; go TS_DATA) (in_suboption body s).
Proof.
  intros Hb Hl. unfold recv_octet. change (set_netiring [[]] (gathering TS_SE body s))
    with (gathering TS_SE body (set_netiring [[]] s)). set (s1 := set_netiring [[]] s).
  unfold get at 1. cbv [mbind M_bind]. change (telrcv_state _) with TS_SE. cbv iota.
  change (SE =? SE) with true. cbv iota. unfold sb_end.
  cbv [mbind M_bind]. rewrite (client_accum_gathering TS_SE body IAC s1 ltac:(lia) Hl).
  rewrite (client_accum_gathering TS_SE (body ++ [IAC]) SE s1 ltac:(rewrite length_app; simpl; lia) Hl).
  rewrite <- app_assoc. unfold modify at 1, SB_TERM, modify.
  match goal with |- context [suboption ?x] => assert (x = in_suboption body s) as -> end; [|done].
  assert (forall n, n = length body ->
    set_sub (subbuffer s) 0 n s = set_sub (subbuffer s) 0 (length body) s) as _ by (by intros ? ->).
  unfold in_suboption, set_sub, gathering. simpl.
  replace (length (body ++ [IAC; SE]) - 2)%nat with (length body) by (rewrite length_app; simpl; lia). done.
Qed.

Lemma loop_end k s : netiring s = [[]] -> telrcv_loop K suboption (S k) s = (Ok (), set_netiring [] s) \/
  (TTYROOM s <= 2)%nat.
Proof.
  intros En. destruct (decide (TTYROOM s <= 2)%nat) as [|Hr]; [by right|left]. cbn [telrcv_loop]. unfold get.
  cbv [mbind M_bind]. destruct (Nat.leb_spec (TTYROOM s) 2); [lia|]. rewrite En. unfold modify.
  destruct k; cbn [telrcv_loop]; unfold get; cbv [mbind M_bind];
    change (TTYROOM (set_netiring [] s)) with (TTYROOM s);
    (destruct (Nat.leb_spec (TTYROOM s) 2); [lia|done]).
Qed.

(** A whole frame, in one run. *)
Lemma client_frame body s t :
  telrcv_state s = TS_DATA -> 0 <= Client.telnetport (tn s) -> shows_room s ->
  length (subbuffer s) = SUBBUFSIZE -> (length body + 2 <= SUBBUFSIZE)%nat ->
  suboption (in_suboption body s) = (Ok (), t) -> netiring t = [[]] -> shows_room t ->
  telrcv K suboption (set_netiring [frame body] s) = (Ok (), set_netiring [] (set_telrcv_state TS_DATA t)).
Proof.
  intros Hst Hp Hs Hl Hb E En Ht. unfold telrcv. rewrite run_bind_gets.
  cbn [netiring set_netiring]. unfold turns. cbn [concat length]. rewrite app_nil_r.
  assert (length (frame body) = S (S (length (doubled body) + 2))) as Hlen.
  { unfold frame. rewrite !length_app. simpl. lia. }
  replace (2 * length (frame body) + 1)%nat with (S (S (length (doubled body) + S (S (S (length (doubled body) + 4))))))
    by (rewrite Hlen; lia).
  unfold frame. cbn [app].
  rewrite (client_loop_octet _ IAC _ [] s (set_netiring [SB :: doubled body ++ [IAC; SE]] (set_telrcv_state TS_IAC s))); [|done|].
  2:{ unfold recv_octet, get. cbv [mbind M_bind]. change (telrcv_state _) with (telrcv_state s). rewrite Hst.
      unfold recv_data, get. cbv [mbind M_bind]. change (tn (set_netiring _ s)) with (tn s).
      destruct (Z.leb_spec 0 (Client.telnetport (tn s))); [done|lia]. }
  rewrite (client_loop_octet _ SB _ [] (set_telrcv_state TS_IAC s) (set_netiring [doubled body ++ [IAC; SE]] (gathering TS_SB [] s))); [|done|].
  2:{ unfold gathering, gathered. rewrite drop_0. by destruct s. }
  rewrite client_loop_doubled by (done || (simpl; lia)). cbn [app].
  rewrite (client_loop_octet _ IAC _ [] (gathering TS_SB body s) (set_netiring [[SE]] (gathering TS_SE body s))) by done.
  rewrite (client_loop_octet _ SE [] [] (gathering TS_SE body s) (set_telrcv_state TS_DATA t)); [|done|].
  2:{ rewrite (client_recv_se body s Hb Hl). rewrite (run_bind_ok _ _ _ _ _ E). done. }
  destruct (loop_end (length (doubled body) + 4) (set_telrcv_state TS_DATA t) En) as [->|Hx]; [done|].
  change (TTYROOM (set_telrcv_state TS_DATA t)) with (TTYROOM t) in Hx. unfold shows_room in Ht. lia.
Qed.

End Client.
(** ** What telnet puts out for its variables *)

Section Encode.
Import ClientSub.

Definition esc_octet (c : Z) : list Z :=
  if (c =? NEW_ENV_VAR) || (c =? NEW_ENV_VALUE) || (c =? ENV_ESC) || (c =? ENV_USERVAR)
  then [ENV_ESC; c] else [c].
Definition esc (w : list Z) : list Z := concat (map esc_octet w).

(** A variable in the body of the suboption. *)
Definition env_item (l : list env_lst) (ep : list Z) : list Z :=
  [if opt_welldefined ep then NEW_ENV_VAR else ENV_USERVAR] ++ esc ep ++
  match env_getvalue ep l with Some v => NEW_ENV_VALUE :: esc v | None => [] end.

Lemma env_octet_doubled c : env_octet c = doubled (esc_octet c).
Proof.
  unfold env_octet, esc_octet. destruct (Z.eqb_spec c IAC) as [->|Hc]; [done|].
  case_match; unfold doubled; cbn [map concat]; rewrite ?(double_same c) by done; done.
Qed.

Lemma esc_doubled w : concat (map env_octet w) = doubled (esc w).
Proof.
  unfold esc. induction w as [|c w IH]; [done|]. cbn [map concat]. rewrite doubled_app, env_octet_doubled.
  by rewrite IH.
Qed.

Lemma len_env_octet c : 1 <= len (env_octet c) <= 2.
Proof. unfold env_octet. repeat case_match; unfold len; simpl; lia. Qed.

Lemma len_cons c s : len (c :: s) = 1 + len s.
Proof. unfold len. simpl. lia. Qed.

Lemma env_put_spec s : forall b e,
  len b + 2 * len s + 2 <= e ->
  env_put s (b, e) = ((b ++ concat (map env_octet s), e), true) /\
  len (concat (map env_octet s)) <= 2 * len s.
Proof.
  induction s as [|c s IH]; intros b e He; cbn [env_put map concat].
  { rewrite app_nil_r. split; [done|]. unfold len. simpl. lia. }
  rewrite len_cons in *. pose proof (len_nonneg s). destruct (Z.ltb_spec e (len b + (2 + 2))); [lia|].
  pose proof (len_env_octet c). destruct (IH (b ++ env_octet c) e) as [-> L].
  { rewrite len_app. lia. }
  rewrite <- app_assoc, len_app. split; [done|lia].
Qed.

Lemma env_opt_add1_spec l ep b e :
  len b <= e ->
  exists e', env_opt_add1 l ep (b, e) = (b ++ doubled (env_item l ep), e') /\
    len (b ++ doubled (env_item l ep)) + 2 <= e'.
Proof.
  intros Hb. unfold env_opt_add1, env_item.
  set (vl := match env_getvalue ep l with Some v => len v | None => 0 end).
  set (k := if opt_welldefined ep then NEW_ENV_VAR else ENV_USERVAR).
  assert (doubled [k] = [k]) as Hk by (unfold k; by case_match).
  assert (0 <= vl) as Hv by (unfold vl; case_match; [apply len_nonneg|done]).
  pose proof (len_nonneg ep). pose proof (len_nonneg b).
  set (e1 := if _ <? _ then _ else e).
  assert (len b + 2 * vl + 2 * len ep + 6 <= e1) as He1.
  { unfold e1, OPT_REPLY_SIZE. destruct (Z.ltb_spec e (len b + 2 * vl + 2 * len ep + 6)); [|lia].
    unfold SUBBUFSIZE. lia. }
  clearbody e1. destruct (env_put_spec ep (b ++ [k]) e1) as [E1 L1].
  { rewrite len_app. change (len [k]) with 1. lia. }
  rewrite E1. rewrite !doubled_app, Hk, <- esc_doubled.
  destruct (env_getvalue ep l) as [v|].
  - cbn [negb orb]. simpl in vl. fold vl in L1.
    assert (len ((b ++ [k]) ++ concat (map env_octet ep)) + 2 * vl + 5 <= e1) as Hl.
    { rewrite !len_app. change (len [k]) with 1. lia. }
    destruct (Z.ltb_spec e1 (len ((b ++ [k]) ++ concat (map env_octet ep)) + (1 + 2 + 2))); [lia|].
    destruct (env_put_spec v (((b ++ [k]) ++ concat (map env_octet ep)) ++ [NEW_ENV_VALUE]) e1) as [E2 L2].
    { rewrite len_app. change (len [NEW_ENV_VALUE]) with 1. unfold vl in Hl. lia. }
    rewrite E2. cbn [fst]. exists e1. rewrite doubled_cons, <- esc_doubled.
    change (double NEW_ENV_VALUE) with [NEW_ENV_VALUE]. rewrite <- !app_assoc. split; [done|].
    rewrite !len_app in *. change (len [NEW_ENV_VALUE]) with 1. unfold vl in Hl. lia.
  - exists e1. rewrite <- !app_assoc. cbn [doubled map concat]. rewrite app_nil_r. split; [done|].
    rewrite !len_app in *. change (len [k]) with 1. lia.
Qed.

Lemma env_fold_spec l eps : forall b e,
  Forall (fun ep => ep <> []) eps -> len b + 2 <= e ->
  exists e', fold_left (fun r ep => r ← r; env_opt_add 0 l ep r) eps (Some (b, e)) =
    Some (b ++ doubled (concat (map (env_item l) eps)), e') /\
    len (b ++ doubled (concat (map (env_item l) eps))) + 2 <= e'.
Proof.
  induction eps as [|ep eps IH]; intros b e Hn He; cbn [fold_left map concat].
  { exists e. change (doubled []) with (@nil Z). by rewrite app_nil_r. }
  inversion Hn as [|? ? Hep Hn']; subst. destruct ep as [|c ep]; [done|].
  change (r ← Some (b, e); env_opt_add 0 l (c :: ep) r) with (Some (env_opt_add1 l (c :: ep) (b, e))).
  destruct (env_opt_add1_spec l (c :: ep) b e) as (e1 & -> & He1); [lia|].
  destruct (IH _ _ Hn' He1) as (e' & -> & He'). exists e'. rewrite doubled_app, app_assoc. done.
Qed.

(** The variables that are sent when all are asked for. *)
Definition sent_vars (l : list env_lst) : list (list Z) := env_default false l ++ env_default true l.

Definition env_body (l : list env_lst) : list Z :=
  TELOPT_NEW_ENVIRON :: TELQUAL_IS :: concat (map (env_item l) (sent_vars l)).

Lemma sent_vars_nonempty l : Forall (fun e => var e <> []) l -> Forall (fun ep => ep <> []) (sent_vars l).
Proof.
  intros Hl. apply Forall_app. split; unfold env_default; rewrite Forall_map; apply Forall_forall;
    intros e [_ He]%list_elem_of_filter; by eapply Forall_forall in Hl.
Qed.

Lemma run_supply m c :
  len m < Z.of_nat (NETROOM c) ->
  supply m c = (Ok (), set_tn (Client.set_netoring (Client.netoring (tn c) ++ [m]) (tn c)) c).
Proof. intros Hr. unfold supply. rewrite run_bind_gets. apply Z.ltb_lt in Hr as ->. done. Qed.

Lemma env_opt_spec x c :
  Forall (fun e => var e <> []) (envlist (sb c)) ->
  len (frame (env_body (envlist (sb c)))) < Z.of_nat (NETROOM c) ->
  env_opt x [TELQUAL_SEND] c =
  (Ok (), set_tn (Client.set_netoring (Client.netoring (tn c) ++ [frame (env_body (envlist (sb c)))]) (tn c)) c).
Proof.
  intros Hn Hr. set (l := envlist (sb c)) in *. unfold env_opt. change (TELQUAL_SEND =? TELQUAL_SEND) with true.
  cbv iota. unfold env_reply. rewrite run_bind_gets. fold l.
  destruct (env_fold_spec l (sent_vars l) [IAC; SB; TELOPT_NEW_ENVIRON; TELQUAL_IS] OPT_REPLY_SIZE)
    as (e' & E & He'); [by apply sent_vars_nonempty|done|].
  change (env_opt_adds 1 l [[]] env_opt_start) with
    (fold_left (fun r ep => r ← r; env_opt_add 0 l ep r) (sent_vars l)
      (Some ([IAC; SB; TELOPT_NEW_ENVIRON; TELQUAL_IS], OPT_REPLY_SIZE))).
  rewrite E. unfold env_opt_end.
  destruct (Z.ltb_spec e' (len ([IAC; SB; TELOPT_NEW_ENVIRON; TELQUAL_IS] ++
    doubled (concat (map (env_item l) (sent_vars l)))) + 2)); [lia|]. cbn [orb mwhen].
  assert (([IAC; SB; TELOPT_NEW_ENVIRON; TELQUAL_IS] ++ doubled (concat (map (env_item l) (sent_vars l))))
    ++ [IAC; SE] = frame (env_body l)) as ->.
  { unfold frame, env_body. rewrite !doubled_cons. by rewrite <- !app_assoc. }
  by apply run_supply.
Qed.

(** ** ... and how it is decoded *)

Lemma env_decode_esc w : forall r cur name,
  env_decode (esc w ++ r) cur name = env_decode r (cur ++ w) name.
Proof.
  induction w as [|c w IH]; intros r cur name; [by rewrite app_nil_r|].
  unfold esc in *. cbn [map concat]. rewrite <- app_assoc. unfold esc_octet.
  replace (cur ++ c :: w) with ((cur ++ [c]) ++ w) by (by rewrite <- app_assoc).
  destruct ((c =? NEW_ENV_VAR) || (c =? NEW_ENV_VALUE) || (c =? ENV_ESC) || (c =? ENV_USERVAR)) eqn:E.
  - cbn [app env_decode]. change (ENV_ESC =? NEW_ENV_VALUE) with false.
    change ((ENV_ESC =? NEW_ENV_VAR) || (ENV_ESC =? ENV_USERVAR)) with false.
    change (ENV_ESC =? ENV_ESC) with true. apply IH.
  - apply orb_false_iff in E as [E E3]. apply orb_false_iff in E as [E E2]. apply orb_false_iff in E as [E0 E1].
    cbn [app env_decode]. rewrite E0, E1, E2, E3. apply IH.
Qed.

Lemma cstring_no_nul w : 0 ∉ w -> cstring w = w.
Proof.
  induction w as [|c w IH]; intros Hw; [done|]. simpl. apply not_elem_of_cons in Hw as [Hc Hw].
  destruct (Z.eqb_spec c 0); [congruence|]. by rewrite IH.
Qed.

Definition setenv_of (l : list env_lst) (ep : list Z) : envcall :=
  match env_getvalue ep l with Some v => Setenv ep v | None => Unsetenv ep end.

(** Names and values are C strings. *)
Definition cstrings (l : list env_lst) : Prop := Forall (fun e => var e <> [] /\ (0 ∉ var e) /\ (0 ∉ value e)) l.

Lemma env_getvalue_cstring ep v l : cstrings l -> env_getvalue ep l = Some v -> 0 ∉ v.
Proof.
  intros Hl. unfold env_getvalue. induction Hl as [|e l (_ & _ & He) Hl IH]; [done|]. simpl.
  case_match; [|done]. by intros [= <-].
Qed.

Lemma env_decode_items l eps : forall ep,
  cstrings l -> Forall (fun ep => 0 ∉ ep) (ep :: eps) ->
  env_decode (tail (env_item l ep) ++ concat (map (env_item l) eps)) [] None =
  map (setenv_of l) (ep :: eps).
Proof.
  induction eps as [|ep' eps IH]; intros ep Hl Hn; inversion Hn as [|? ? Hep Hn']; subst.
  - cbn [map concat]. rewrite app_nil_r. unfold env_item, setenv_of. cbn [app tail]. rewrite env_decode_esc.
    destruct (env_getvalue ep l) as [v|] eqn:Ev; cbn [app env_decode].
    + change (NEW_ENV_VALUE =? NEW_ENV_VALUE) with true. cbv iota. rewrite <- (app_nil_r (esc v)), env_decode_esc.
      cbn [env_decode env_finish default app]. unfold env_finish, default.
      by rewrite !cstring_no_nul by (done || by eapply env_getvalue_cstring).
    + unfold env_finish. by rewrite cstring_no_nul.
  - assert (forall cur name, env_decode (concat (map (env_item l) (ep' :: eps))) cur name =
      env_finish cur name :: map (setenv_of l) (ep' :: eps)) as Hrest.
    { intros cur name. cbn [map concat]. unfold env_item at 1. cbn [app env_decode].
      replace ((if opt_welldefined ep' then NEW_ENV_VAR else ENV_USERVAR) =? NEW_ENV_VALUE) with false by (by case_match).
      replace ((if opt_welldefined ep' then NEW_ENV_VAR else ENV_USERVAR) =? NEW_ENV_VAR) with (opt_welldefined ep')
        by (by case_match).
      replace (opt_welldefined ep' || ((if opt_welldefined ep' then NEW_ENV_VAR else ENV_USERVAR) =? ENV_USERVAR))
        with true by (by case_match).
      cbv iota. f_equal. by apply IH. }
    unfold env_item at 1. cbn [app tail]. rewrite <- app_assoc, env_decode_esc. cbn [map]. unfold setenv_of at 1.
    destruct (env_getvalue ep l) as [v|] eqn:Ev; cbn [app env_decode].
    + change (NEW_ENV_VALUE =? NEW_ENV_VALUE) with true. cbv iota. rewrite env_decode_esc, Hrest. unfold env_finish, default.
      by rewrite !cstring_no_nul by (done || by eapply env_getvalue_cstring).
    + rewrite Hrest. unfold env_finish. by rewrite cstring_no_nul.
Qed.

End Encode.

(** ** Both ends *)

Section Both.
Context `{Termios_h} (K : settings) (setupterm : list Z -> option (list Z))
  (libtelnet : list Client.call -> Z -> list Z -> ClientSub.libprog).

(** The client is at data of a telnet connection and has room for output. *)
Definition client_ready (c : io) : Prop :=
  telrcv_state c = TS_DATA /\ 0 <= Client.telnetport (tn c) /\ shows_room c /\
  length (subbuffer c) = SUBBUFSIZE.

(** So is the server. *)
Definition server_ready (s : tnd) : Prop :=
  Telnetd.rstate (rc s) = Telnetd.TS_DATA /\ TelnetFrame.takes s /\
  length (Telnetd.subbuffer (rc s)) = TelnetdRecv.SUBBUFSIZE.

Definition sent_more (c : io) (m : list Z) : io :=
  set_tn (Client.set_netoring (Client.netoring (tn c) ++ [m]) (tn c)) c.

Lemma client_octet body c :
  (0 < length body)%nat -> length (subbuffer c) = SUBBUFSIZE -> (length body + 2 <= SUBBUFSIZE)%nat ->
  ClientSub.SB_GET (in_suboption body c) =
    (Ok (default 0 (body !! 0%nat)), set_sub (gathered (body ++ [IAC; SE]) c) 1 (length body) (in_suboption body c)).
Proof.
  intros Hb Hl Hlen. unfold ClientSub.SB_GET, get, modify. cbv [mbind M_bind].
  change (subbuffer (in_suboption body c) !! subpointer (in_suboption body c))
    with (gathered (body ++ [IAC; SE]) c !! 0%nat).
  destruct body as [|x body]; [simpl in Hb; lia|]. done.
Qed.

Lemma client_sb_next body c d :
  body !! 1%nat = Some d -> length (subbuffer c) = SUBBUFSIZE ->
  ClientSub.sb_next (set_sub (gathered (body ++ [IAC; SE]) c) 1 (length body) (in_suboption body c)) =
  (Ok (Some d), set_sub (gathered (body ++ [IAC; SE]) c) 2 (length body) (in_suboption body c)).
Proof.
  intros Hd Hl. unfold ClientSub.sb_next, ClientSub.SB_EOF. rewrite run_bind_gets.
  cbn [subend subpointer set_sub]. pose proof (lookup_lt_Some _ _ _ Hd).
  destruct (Nat.leb_spec (length body) 1); [lia|]. unfold ClientSub.SB_GET, get, modify. cbv [mbind M_bind].
  cbn [subbuffer subpointer set_sub]. destruct body as [|? [|? body]]; try done.
  by injection Hd as ->.
Qed.

(** The client has nothing more to take, and one message more to send. *)
Lemma client_request o c c' m :
  client_ready c ->
  ClientSub.suboption setupterm libtelnet (in_suboption [o; TELQUAL_SEND] c) =
    (Ok (), sent_more c' m) ->
  netiring c' = [[]] -> ttyoring c' = ttyoring c ->
  telrcv K (ClientSub.suboption setupterm libtelnet) (set_netiring [frame [o; TELQUAL_SEND]] c) =
    (Ok (), set_netiring [] (set_telrcv_state TS_DATA (sent_more c' m))).
Proof.
  intros (Hst & Hp & Hr & Hl) E En Et. apply (client_frame K _ [o; TELQUAL_SEND] c); try done.
  - unfold SUBBUFSIZE. simpl. lia.
  - unfold shows_room, TTYROOM in *. cbn [ttyoring sent_more set_tn]. by rewrite Et.
Qed.

Lemma netout_sent c m : netout (sent_more c m) = netout c ++ m.
Proof. unfold netout. cbn. rewrite concat_app. simpl. by rewrite app_nil_r. Qed.

Lemma env_default_found w l ep : ep ∈ ClientSub.env_default w l -> exists v, ClientSub.env_getvalue ep l = Some v.
Proof.
  unfold ClientSub.env_default, ClientSub.env_getvalue. intros Hep. apply list_elem_of_fmap in Hep as (e & -> & He).
  apply list_elem_of_filter in He as [_ He]. induction l as [|e' l IH]; [by apply elem_of_nil in He|]. simpl.
  unfold ClientSub.same at 1. destruct (bool_decide (var e' = var e)) eqn:D; [by eexists|].
  apply elem_of_cons in He as [->|He]; [|by apply IH]. by rewrite bool_decide_eq_true_2 in D.
Qed.

(** The variables that telnet sends, with their values. *)
Definition exported (l : list env_lst) : list envcall :=
  map (fun ep => Setenv ep (default [] (ClientSub.env_getvalue ep l))) (sent_vars l).

Lemma exported_setenv l : map (setenv_of l) (sent_vars l) = exported l.
Proof.
  unfold exported. apply map_ext_in. intros ep Hep. unfold setenv_of.
  apply list_elem_of_In in Hep. unfold sent_vars in Hep.
  apply elem_of_app in Hep as [Hep|Hep]; destruct (env_default_found _ _ _ Hep) as [v ->]; done.
Qed.

Lemma server_environ l s :
  server_ready s -> cstrings l -> (length (env_body l) + 2 <= TelnetdRecv.SUBBUFSIZE)%nat ->
  exists t, TelnetdRecv.telrcv (set_netip (frame (env_body l)) s) = (Ok (), t) /\
    Telnetd.environ (rc t) = Telnetd.environ (rc s) ++ exported l /\ server_ready t.
Proof.
  intros (Hst & Hr & Hl) Hc Hb. remember (env_body l) as body eqn:Eb.
  pose proof (gathered_body body s Hb Hl) as Hm. set (s0 := TelnetFrame.in_suboption body s).
  assert (exists m' p t, length m' = TelnetdRecv.SUBBUFSIZE /\
    TelnetdRecv.suboption s0 = (Ok (), at_ m' p (Telnetd.environ (rc s) ++ exported l) t) /\ rc t = rc s0)
    as (m' & p & t & Hm' & E & Ht).
  { rewrite <- exported_setenv. unfold env_body in Eb. destruct (sent_vars l) as [|ep eps] eqn:Ev; subst body.
    - destruct (environ_taken_none _ (Telnetd.environ (rc s)) s0 Hm eq_refl) as (t & E & Ht).
      eexists _, 2%nat, t. cbn [map]. rewrite app_nil_r. split; [apply Hm|]. by split.
    - assert (Forall (fun ep => (0 ∉ ep) /\ ep <> []) (ep :: eps)) as Hn.
      { rewrite <- Ev. apply Forall_app. split; unfold ClientSub.env_default; rewrite Forall_map;
          apply Forall_forall; intros e [_ He]%list_elem_of_filter;
          eapply Forall_forall in Hc as (? & ? & ?); [|done|..]; done. }
      assert (exists k x r, concat (map (env_item l) (ep :: eps)) = k :: x :: r /\
        (k = NEW_ENV_VAR \/ k = ENV_USERVAR) /\
        x :: r = tail (env_item l ep) ++ concat (map (env_item l) eps)) as (k & x & r & Ek & Hk & Ex).
      { inversion Hn as [|? ? [_ Hne] _]; subst. destruct ep as [|c ep]; [done|].
        assert (exists y w, esc (c :: ep) = y :: w) as (y & w & Ew).
        { unfold esc. cbn [map concat]. unfold esc_octet at 1. case_match; by eexists _, _. }
        cbn [map concat]. unfold env_item at 1 3. rewrite Ew. cbn [app tail].
        eexists _, _, _. split; [reflexivity|]. split; [by case_match; [left|right]|done]. }
      subst s0. rewrite Ek in *. set (s0 := TelnetFrame.in_suboption _ s).
      destruct (environ_taken k x r _ (Telnetd.environ (rc s)) s0 Hk Hm eq_refl) as (m' & t & E & Ht & Hm').
      exists m', (Telnetd.subend (rc s0)), t. split; [done|]. split; [|done].
      rewrite <- env_decode_items, <- Ex; [exact E|done|].
      eapply Forall_impl; [exact Hn|]. by intros ? []. }
  exists (set_rstate Telnetd.TS_DATA (at_ m' p (Telnetd.environ (rc s) ++ exported l) t)).
  assert (rc (at_ m' p (Telnetd.environ (rc s) ++ exported l) t) =
    rc (at_ m' p (Telnetd.environ (rc s) ++ exported l) s0)) as Er.
  { unfold at_, set_environ, set_subpointer, set_subbuffer, in_rc. simpl. by rewrite Ht. }
  split; [|split].
  - apply telrcv_frame_done; try done. by rewrite Er.
  - done.
  - split; [done|]. split; [|exact Hm']. unfold takes in *. simpl. rewrite Ht. exact Hr.
Qed.

(** C5. The server asks for the environment, the client answers, and the server calls
    [setenv] for each variable that the client exports, with its value, its own variables
    first; names and values may hold any octet but NUL.  The option is agreed, the receiving
    machines of both are between commands, and there is room: for the whole answer in the
    client's ring and, without its frame, in the server's suboption buffer of 512 octets. *)
Theorem environ_arrives (c : io) (s : tnd) :
  let l := envlist (sb c) in
  client_ready c -> my_want_state_is_will (Client.options (tn c)) TELOPT_NEW_ENVIRON = true ->
  cstrings l -> ClientSub.len (frame (env_body l)) < Z.of_nat (NETROOM c) ->
  server_ready s -> (length (env_body l) + 2 <= TelnetdRecv.SUBBUFSIZE)%nat ->
  exists c' sent s',
    telrcv K (ClientSub.suboption setupterm libtelnet) (set_netiring [frame [TELOPT_NEW_ENVIRON; TELQUAL_SEND]] c)
      = (Ok (), c') /\ netout c' = netout c ++ sent /\
    TelnetdRecv.telrcv (set_netip sent s) = (Ok (), s') /\
    Telnetd.environ (rc s') = Telnetd.environ (rc s) ++ exported l /\ server_ready s'.
Proof.
  intros l Hc Hw Hl Hroom Hs Hb. destruct (server_environ l s Hs Hl Hb) as (s' & E & Ee & Hs').
  set (c1 := set_sub (gathered ([TELOPT_NEW_ENVIRON; TELQUAL_SEND] ++ [IAC; SE]) c) 1 2
               (in_suboption [TELOPT_NEW_ENVIRON; TELQUAL_SEND] c)).
  exists (set_netiring [] (set_telrcv_state TS_DATA (sent_more c1 (frame (env_body l))))), (frame (env_body l)), s'.
  split_and!; [|exact (netout_sent c1 _)|done|done|apply Hs'..].
  apply client_request; try done. pose proof Hc as (_ & _ & _ & Hlen).
  unfold ClientSub.suboption.
  rewrite (run_bind_ok _ _ _ _ _ (client_octet [TELOPT_NEW_ENVIRON; TELQUAL_SEND] c ltac:(simpl; lia) Hlen
    ltac:(unfold SUBBUFSIZE; simpl; lia))). cbn [length]. fold c1.
  change (default 0 ([TELOPT_NEW_ENVIRON; TELQUAL_SEND] !! 0%nat)) with TELOPT_NEW_ENVIRON.
  unfold ClientSub.want_will, get_neg. rewrite run_bind_gets.
  change (ClientSub.suboption_environ c1 = (Ok (), sent_more c1 (frame (env_body l)))).
  unfold ClientSub.suboption_environ, get. cbv [mbind M_bind].
  change (ClientSub.sb_rest c1) with [TELQUAL_SEND]. unfold ClientSub.want_will, ClientSub.want_do, get_neg, gets.
  change (Client.options (tn c1)) with (Client.options (tn c)). rewrite Hw.
  change ((TELQUAL_SEND =? TELQUAL_IS) || (TELQUAL_SEND =? TELQUAL_INFO)) with false.
  change (TELQUAL_SEND =? TELQUAL_SEND) with true. cbn [mwhen].
  apply env_opt_spec; [|done]. eapply Forall_impl; [exact Hl|]. by intros ? [].
Qed.

(** *** Numbers *)

Lemma octets_cons x t : ClientSub.octets (String x t) = code x :: ClientSub.octets t.
Proof. done. Qed.

Definition digits_only (l : list Z) : Prop := Forall (fun c => 48 <= c <= 57) l.

Lemma pretty_N_digits x : forall t,
  digits_only (ClientSub.octets t) -> digits_only (ClientSub.octets (pretty_N_go x t)).
Proof.
  induction (N.lt_wf_0 x) as [x _ IH]; intros t Ht.
  destruct (decide (x = 0%N)) as [->|Hx]; [by rewrite pretty_N_go_0|].
  rewrite pretty_N_go_step by lia. apply IH; [apply N.div_lt; lia|]. rewrite octets_cons. constructor; [|done].
  assert (x mod 10 < 10)%N as Hm by (apply N.mod_lt; lia).
  destruct (pretty_N_char_digit _ Hm) as [_ ->]. clear IH. generalize dependent (x mod 10)%N. intros n Hn. lia.
Qed.

Lemma atoi_digits_pretty x r : forall t,
  atoi_digits 0 (ClientSub.octets (pretty_N_go x t) ++ r) = atoi_digits (Z.of_N x) (ClientSub.octets t ++ r).
Proof.
  induction (N.lt_wf_0 x) as [x _ IH]; intros t.
  destruct (decide (x = 0%N)) as [->|Hx]; [by rewrite pretty_N_go_0|].
  rewrite pretty_N_go_step by lia. rewrite IH by (apply N.div_lt; lia). rewrite octets_cons. cbn [app atoi_digits].
  assert (x mod 10 < 10)%N as Hm by (apply N.mod_lt; lia). destruct (pretty_N_char_digit _ Hm) as [_ ->].
  assert (is_digit (48 + Z.of_N (x mod 10)) = true) as ->.
  { clear IH. generalize dependent (x mod 10)%N. intros n Hn. unfold is_digit. apply andb_true_intro. lia. }
  f_equal. rewrite N2Z.inj_div, N2Z.inj_mod. clear. pose proof (Z.div_mod (Z.of_N x) 10 ltac:(lia)).
  change (Z.of_N 10) with 10. lia.
Qed.

Lemma pretty_octets n : 0 <= n ->
  digits_only (ClientSub.octets (pretty n)) /\ ClientSub.octets (pretty n) <> [] /\
  forall c r, is_digit c = false -> atoi_digits 0 (ClientSub.octets (pretty n) ++ c :: r) = Some n.
Proof.
  intros Hn. destruct n as [|p|p]; [| |lia].
  - split_and!; [by repeat constructor|done|]. intros c r Hc. cbn. by rewrite Hc.
  - change (pretty (Zpos p)) with (pretty (Npos p)). unfold pretty, pretty_N. rewrite decide_False by done.
    split_and!; [apply pretty_N_digits; constructor| |].
    + destruct (pretty_go_first (Npos p) "") as (c & r & -> & _); [done|]. done.
    + intros c r Hc. rewrite atoi_digits_pretty. cbn. by rewrite Hc.
Qed.

Lemma atoi_pretty n c r :
  0 <= n < 2 ^ 31 -> is_digit c = false -> atoi (ClientSub.octets (pretty n) ++ c :: r) = Some n.
Proof.
  intros Hn Hc. destruct (pretty_octets n ltac:(lia)) as (Hd & Hne & Ha). specialize (Ha c r Hc).
  assert (long_to_int n = n) as Hl.
  { unfold long_to_int. rewrite Z.min_r, Z.max_r by lia. apply swrap_small; simpl; lia. }
  destruct (ClientSub.octets (pretty n)) as [|d l] eqn:E; [done|]. inversion Hd; subst.
  cbn [app] in *. cbn [atoi]. unfold is_space. destruct (Z.eqb_spec d 32); [lia|].
  destruct (Z.leb_spec d 13); [lia|]. rewrite andb_false_r. cbn [orb].
  destruct (Z.eqb_spec d 45); [lia|]. destruct (Z.eqb_spec d 43); [lia|]. rewrite Ha. simpl. by rewrite Hl.
Qed.

Lemma doubled_same l : IAC ∉ l -> doubled l = l.
Proof.
  induction l as [|c l IH]; intros Hl; [done|]. apply not_elem_of_cons in Hl as [Hc Hl].
  rewrite doubled_cons, double_same, IH by congruence. done.
Qed.

Lemma digits_plain l c : digits_only l -> c < 48 \/ 57 < c -> c ∉ l.
Proof. intros Hd Hc Hx. eapply Forall_forall in Hd; [|exact Hx]. simpl in Hd. lia. Qed.

(** *** The window *)

Lemma putshort_doubled x : putshort x = doubled [Z.land (Z.shiftr x 8) 255; Z.land x 255].
Proof. unfold putshort, doubled. cbn [map concat]. by rewrite app_nil_r. Qed.

Lemma short_octets x : 0 <= x < 65536 -> Z.lor (Z.shiftl (Z.land (Z.shiftr x 8) 255) 8) (Z.land x 255) = x.
Proof.
  intros Hx. apply Z.bits_inj'. intros n Hn. rewrite Z.lor_spec, Z.shiftl_spec, !Z.land_spec by lia.
  change 255 with (Z.ones 8). destruct (Z.ltb_spec n 8).
  - rewrite (Z.testbit_neg_r _ (n - 8)), andb_false_l, Z.ones_spec_low by lia. by rewrite andb_true_r.
  - rewrite Z.shiftr_spec, (Z.ones_spec_high 8 n) by lia. replace (n - 8 + 8) with n by lia.
    rewrite andb_false_r, orb_false_r. destruct (Z.ltb_spec n 16).
    + by rewrite Z.ones_spec_low, andb_true_r by lia.
    + rewrite Z.ones_spec_high, andb_false_r by lia. symmetry. apply Z.bits_above_log2; [lia|].
      destruct (decide (x = 0)) as [->|]; [simpl; lia|]. apply Z.log2_lt_pow2; [lia|].
      pose proof (Z.pow_le_mono_r 2 16 n). lia.
Qed.

Definition naws_body (rows cols : Z) : list Z :=
  [TELOPT_NAWS; Z.land (Z.shiftr cols 8) 255; Z.land cols 255; Z.land (Z.shiftr rows 8) 255; Z.land rows 255].

Lemma server_naws rows cols s :
  server_ready s -> his_state_is_will (options (ng s)) TELOPT_NAWS = true ->
  0 <= rows < 65536 -> 0 <= cols < 65536 ->
  exists t, TelnetdRecv.telrcv (set_netip (frame (naws_body rows cols)) s) = (Ok (), t) /\
    def_col (ty t) = cols /\ def_row (ty t) = rows /\
    (terminit (ty s) = true -> Telnetd.winsize (ty t) = Some (cols, rows)).
Proof.
  intros (Hst & Hr & Hl) Ho Hrows Hcols. set (s0 := TelnetFrame.in_suboption (naws_body rows cols) s).
  destruct (naws_taken _ _ _ _ _ (Telnetd.environ (rc s)) s0 Ho
    (gathered_body (naws_body rows cols) s ltac:(unfold TelnetdRecv.SUBBUFSIZE; simpl; lia) Hl) eq_refl)
    as (t & E & Er & Ec & Ew & Hw).
  rewrite short_octets in Ec, Ew by done. exists (set_rstate Telnetd.TS_DATA t). split_and!; [|done|done|].
  - apply telrcv_frame_done; try done; [unfold TelnetdRecv.SUBBUFSIZE; simpl; lia|]. by rewrite Er.
  - intros T. specialize (Hw T). simpl. rewrite Hw, Ec, Ew. unfold uwrap. rewrite !Z.mod_small by lia. done.
Qed.

(** *** The terminal's name *)

(** Code that depends on the state of the suboptions only, and changes nothing else. *)
Definition on_sb {A} (m : IO A) : Prop :=
  forall s t, sb s = sb t -> exists r b, m s = (r, set_sb b s) /\ m t = (r, set_sb b t).

Lemma set_sb_same s : set_sb (sb s) s = s.
Proof. by destruct s. Qed.

Lemma on_sb_ret {A} (x : A) : on_sb (mret x).
Proof. intros s t E. exists (Ok x), (sb s). rewrite E at 2. by rewrite !set_sb_same. Qed.

Lemma on_sb_leave {A} e : on_sb (leave e : IO A).
Proof. intros s t E. exists (Ex e), (sb s). rewrite E at 2. by rewrite !set_sb_same. Qed.

Lemma on_sb_get {A} (g : subs -> A) : on_sb (ClientSub.get_sb g).
Proof.
  intros s t E. exists (Ok (g (sb s))), (sb s). rewrite E at 4. rewrite !set_sb_same.
  unfold ClientSub.get_sb, gets. by rewrite E.
Qed.

Lemma on_sb_upd g : on_sb (ClientSub.upd_sb g).
Proof. intros s t E. exists (Ok ()), (g (sb s)). unfold ClientSub.upd_sb, modify. by rewrite E. Qed.

Lemma on_sb_bind {A B} (m : IO A) (k : A -> IO B) :
  on_sb m -> (forall x, on_sb (k x)) -> on_sb (x ← m; k x).
Proof.
  intros Hm Hk s t E. destruct (Hm s t E) as (r & b & Es & Et). cbv [mbind M_bind]. rewrite Es, Et.
  destruct r as [x|e]; [|by exists (Ex e), b].
  destruct (Hk x (set_sb b s) (set_sb b t) eq_refl) as (r & b' & -> & ->). by exists r, b'.
Qed.

Lemma on_sb_when (c : bool) m : on_sb m -> on_sb (mwhen c m).
Proof. intros Hm. destruct c; [done|apply on_sb_ret]. Qed.

Lemma on_sb_gettermname : on_sb (ClientSub.gettermname setupterm).
Proof.
  unfold ClientSub.gettermname, ClientSub.terminal_names.
  repeat first
    [ apply on_sb_when | apply on_sb_get | apply on_sb_upd | apply on_sb_ret | apply on_sb_leave
    | case_match | apply on_sb_bind; [|intros ?] ].
Qed.

Lemma gettermname_sb name b c c0 :
  ClientSub.gettermname setupterm c = (Ok name, set_sb b c) -> sb c0 = sb c ->
  ClientSub.gettermname setupterm c0 = (Ok name, set_sb b c0).
Proof.
  intros E Es. destruct (on_sb_gettermname c c0 ltac:(done)) as (r & b' & E1 & ->).
  rewrite E1 in E. by injection E as -> ->.
Qed.

Definition ttype_body (name : list Z) : list Z := TELOPT_TTYPE :: TELQUAL_IS :: name.

Lemma client_ttype name b c :
  client_ready c -> my_want_state_is_will (Client.options (tn c)) TELOPT_TTYPE = true ->
  ClientSub.gettermname setupterm c = (Ok name, set_sb b c) -> IAC ∉ name -> (length name <= 40)%nat ->
  (length name + 6 < NETROOM c)%nat ->
  exists c', telrcv K (ClientSub.suboption setupterm libtelnet) (set_netiring [frame [TELOPT_TTYPE; TELQUAL_SEND]] c)
    = (Ok (), c') /\ netout c' = netout c ++ frame (ttype_body name).
Proof.
  intros Hc Hw Hg Hi Hn Hroom. pose proof Hc as (_ & _ & _ & Hlen).
  set (c1 := set_sub (gathered ([TELOPT_TTYPE; TELQUAL_SEND] ++ [IAC; SE]) c) 1 2
               (in_suboption [TELOPT_TTYPE; TELQUAL_SEND] c)).
  set (c2 := set_sub (gathered ([TELOPT_TTYPE; TELQUAL_SEND] ++ [IAC; SE]) c) 2 2
               (in_suboption [TELOPT_TTYPE; TELQUAL_SEND] c)).
  exists (set_netiring [] (set_telrcv_state TS_DATA (sent_more (set_sb b c2) (frame (ttype_body name))))).
  split; [|exact (netout_sent (set_sb b c2) _)]. apply client_request; try done.
  unfold ClientSub.suboption.
  rewrite (run_bind_ok _ _ _ _ _ (client_octet [TELOPT_TTYPE; TELQUAL_SEND] c ltac:(simpl; lia) Hlen
    ltac:(unfold SUBBUFSIZE; simpl; lia))). cbn [length]. fold c1.
  change (default 0 ([TELOPT_TTYPE; TELQUAL_SEND] !! 0%nat)) with TELOPT_TTYPE.
  unfold ClientSub.want_will, get_neg. rewrite run_bind_gets.
  change (TELOPT_TTYPE =? TELOPT_TTYPE) with true. cbv iota.
  change (Client.options (tn c1)) with (Client.options (tn c)). rewrite Hw. cbn [mwhen].
  unfold ClientSub.suboption_ttype.
  rewrite (run_bind_ok _ _ _ _ _ (client_sb_next [TELOPT_TTYPE; TELQUAL_SEND] c TELQUAL_SEND eq_refl Hlen)).
  rewrite bool_decide_eq_true_2 by done. cbn [mwhen]. fold c2.
  rewrite (run_bind_ok _ _ _ _ _ (gettermname_sb name b c c2 Hg eq_refl)). rewrite run_bind_gets.
  change (NETROOM (set_sb b c2)) with (NETROOM c).
  unfold ClientSub.len. destruct (Z.ltb_spec (Z.of_nat (length name) + 4 + 2) (Z.of_nat (NETROOM c))); [|lia].
  unfold ClientSub.temp_reply. set (m := _ ++ _ ++ _).
  assert (m = frame (ttype_body name)) as ->.
  { unfold m, frame, ttype_body. rewrite !doubled_cons, doubled_same by done. done. }
  unfold ClientSub.len, ClientSub.TEMP_SIZE. destruct (Z.ltb_spec 50 (Z.of_nat (length (frame (ttype_body name))) + 1)); [|done].
  exfalso. unfold frame, ttype_body in *. rewrite !length_app, !doubled_cons, doubled_same in * by done.
  rewrite !length_app in *. simpl in *. lia.
Qed.

Lemma server_ttype name s :
  server_ready s -> his_state_is_will (options (ng s)) TELOPT_TTYPE = true -> (length name <= 40)%nat ->
  exists t, TelnetdRecv.telrcv (set_netip (frame (ttype_body name)) s) = (Ok (), t) /\
    Telnetd.terminaltype (rc t) = Some (cstring (map tolower name)).
Proof.
  intros (Hst & Hr & Hl) Ho Hn. set (s0 := TelnetFrame.in_suboption (ttype_body name) s).
  assert (length (ttype_body name) + 2 <= TelnetdRecv.SUBBUFSIZE)%nat as Hb.
  { unfold TelnetdRecv.SUBBUFSIZE. simpl. lia. }
  destruct (ttype_taken name _ (Telnetd.environ (rc s)) s0 Ho (gathered_body (ttype_body name) s Hb Hl) eq_refl Hn)
    as (t & E & Er).
  eexists. split.
  - apply telrcv_frame_done; [done|exact Hr|done|exact Hb| |].
    + exact E.
    + simpl. by rewrite Er.
  - done.
Qed.

(** *** The speeds *)

Definition tspeed_body (out in_ : Z) : list Z :=
  TELOPT_TSPEED :: TELQUAL_IS :: ClientSub.octets (pretty out) ++ 44 :: ClientSub.octets (pretty in_).

Lemma octets_len s : length (ClientSub.octets s) = String.length s.
Proof. unfold ClientSub.octets. rewrite length_map. induction s; simpl; congruence. Qed.

Lemma tspeed_plain out in_ : 0 <= out -> 0 <= in_ -> IAC ∉ tspeed_body out in_.
Proof.
  intros Ho Hi. destruct (pretty_octets out Ho) as (Do & _). destruct (pretty_octets in_ Hi) as (Di & _).
  unfold tspeed_body. rewrite !not_elem_of_cons, not_elem_of_app, not_elem_of_cons.
  split_and!; try done; apply digits_plain; done || (right; unfold IAC; lia).
Qed.

Lemma client_tspeed in_ out c :
  client_ready c -> my_want_state_is_will (Client.options (tn c)) TELOPT_TSPEED = true ->
  ClientSub.TerminalSpeeds (sb c) = (in_, out) ->
  0 <= in_ < 2 ^ 63 -> 0 <= out < 2 ^ 63 -> (50 < NETROOM c)%nat ->
  exists c', telrcv K (ClientSub.suboption setupterm libtelnet) (set_netiring [frame [TELOPT_TSPEED; TELQUAL_SEND]] c)
    = (Ok (), c') /\ netout c' = netout c ++ frame (tspeed_body out in_).
Proof.
  intros Hc Hw Es Hi Ho Hroom.
  pose proof Hc as (_ & _ & _ & Hlen).
  set (c1 := set_sub (gathered ([TELOPT_TSPEED; TELQUAL_SEND] ++ [IAC; SE]) c) 1 2
               (in_suboption [TELOPT_TSPEED; TELQUAL_SEND] c)).
  set (c2 := set_sub (gathered ([TELOPT_TSPEED; TELQUAL_SEND] ++ [IAC; SE]) c) 2 2
               (in_suboption [TELOPT_TSPEED; TELQUAL_SEND] c)).
  exists (set_netiring [] (set_telrcv_state TS_DATA (sent_more c2 (frame (tspeed_body out in_))))).
  split; [|exact (netout_sent c2 _)]. apply client_request; try done.
  unfold ClientSub.suboption.
  rewrite (run_bind_ok _ _ _ _ _ (client_octet [TELOPT_TSPEED; TELQUAL_SEND] c ltac:(simpl; lia) Hlen
    ltac:(unfold SUBBUFSIZE; simpl; lia))). cbn [length]. fold c1.
  change (default 0 ([TELOPT_TSPEED; TELQUAL_SEND] !! 0%nat)) with TELOPT_TSPEED.
  unfold ClientSub.want_will, get_neg. rewrite run_bind_gets.
  change (TELOPT_TSPEED =? TELOPT_TTYPE) with false. change (TELOPT_TSPEED =? TELOPT_TSPEED) with true. cbv iota.
  change (Client.options (tn c1)) with (Client.options (tn c)). rewrite Hw. cbn [mwhen].
  unfold ClientSub.suboption_tspeed.
  rewrite (run_bind_ok _ _ _ _ _ (client_sb_next [TELOPT_TSPEED; TELQUAL_SEND] c TELQUAL_SEND eq_refl Hlen)).
  rewrite bool_decide_eq_true_2 by done. cbn [mwhen].
  change (length [TELOPT_TSPEED; TELQUAL_SEND]) with 2%nat. fold c2.
  unfold ClientSub.get_sb. rewrite run_bind_gets. change (sb c2) with (sb c). rewrite Es.
  assert ([IAC; SB; TELOPT_TSPEED; TELQUAL_IS] ++ (ClientSub.octets (pretty out) ++ [44] ++ ClientSub.octets (pretty in_))
    ++ [IAC; SE] = frame (tspeed_body out in_)) as Em.
  { unfold frame. rewrite (doubled_same (tspeed_body out in_)) by (apply tspeed_plain; lia).
    done. }
  assert (ClientSub.len (frame (tspeed_body out in_)) < 50) as Hm.
  { rewrite <- Em. rewrite !len_app. pose proof (pretty_speed_length in_ Hi). pose proof (pretty_speed_length out Ho).
    change (ClientSub.len [44]) with 1. change (ClientSub.len [IAC; SE]) with 2.
    change (ClientSub.len [IAC; SB; TELOPT_TSPEED; TELQUAL_IS]) with 4. lia. }
  unfold ClientSub.temp_reply. rewrite Em. cbv [ClientSub.TEMP_SIZE].
  destruct (Z.ltb_spec 50 (ClientSub.len (frame (tspeed_body out in_)) + 1)); [lia|].
  rewrite run_bind_ret. apply run_supply. change (NETROOM c2) with (NETROOM c). lia.
Qed.

Lemma server_tspeed out in_ s :
  server_ready s -> his_state_is_will (options (ng s)) TELOPT_TSPEED = true ->
  0 <= out < 2 ^ 31 -> 0 <= in_ < 2 ^ 31 ->
  exists t, TelnetdRecv.telrcv (set_netip (frame (tspeed_body out in_)) s) = (Ok (), t) /\
    def_tspeed (ty t) = out /\ def_rspeed (ty t) = in_.
Proof.
  intros (Hst & Hr & Hl) Hw Ho Hi. set (s0 := TelnetFrame.in_suboption (tspeed_body out in_) s).
  destruct (pretty_octets out ltac:(lia)) as (Do & _ & _). destruct (pretty_octets in_ ltac:(lia)) as (Di & Ni & _).
  assert (length (tspeed_body out in_) + 2 <= TelnetdRecv.SUBBUFSIZE)%nat as Hb.
  { unfold TelnetdRecv.SUBBUFSIZE, tspeed_body. simpl. rewrite length_app. simpl.
    pose proof (pretty_speed_length in_ ltac:(lia)) as L1. pose proof (pretty_speed_length out ltac:(lia)) as L2.
    unfold ClientSub.len in *. lia. }
  destruct (tspeed_taken (ClientSub.octets (pretty out)) (ClientSub.octets (pretty in_)) out in_ _
      (Telnetd.environ (rc s)) s0 Hw (gathered_body (tspeed_body out in_) s Hb Hl) eq_refl) as (t & E & Er & Eo & Ei).
  - apply (digits_plain _ 44 Do). lia.
  - done.
  - intros r. by apply atoi_pretty.
  - match goal with |- atoi (_ ++ ?d) = _ =>
      assert (d = IAC :: SE :: drop (length (tspeed_body out in_ ++ [IAC; SE])) (Telnetd.subbuffer (rc s))) as ->
    end; [|by apply atoi_pretty].
    change (drop (length (tspeed_body out in_)) (TelnetFrame.gathered (tspeed_body out in_ ++ [IAC; SE]) s) =
      IAC :: SE :: drop (length (tspeed_body out in_ ++ [IAC; SE])) (Telnetd.subbuffer (rc s))).
    unfold TelnetFrame.gathered. rewrite <- app_assoc. by rewrite drop_app_length.
  - eexists. split.
    + apply telrcv_frame_done; [done|exact Hr|done|exact Hb|exact E|]. by rewrite Er.
    + done.
Qed.

(** *** What the server knows of the terminal *)

Lemma client_naws rows cols c :
  winsize c = Some (rows, cols) -> my_state_is_will (Client.options (tn c)) TELOPT_NAWS = true ->
  (13 <= NETROOM c)%nat ->
  exists c', sendnaws c = (Ok (), c') /\ netout c' = netout c ++ frame (naws_body rows cols).
Proof.
  intros Ew Hw Hroom. unfold sendnaws, get_neg. rewrite !run_bind_gets. rewrite Ew. cbv zeta.
  rewrite run_bind_gets, Hw. set (m := _ ++ _ ++ _ ++ _).
  assert (m = frame (naws_body rows cols)) as ->.
  { unfold m, frame, naws_body. rewrite !putshort_doubled. unfold doubled. cbn [map concat].
    rewrite !app_nil_r, <- !app_assoc. done. }
  assert (length (frame (naws_body rows cols)) <= 13)%nat as Hm.
  { unfold frame, naws_body. rewrite !length_app, !doubled_cons, !length_app.
    assert (forall x, length (double x) <= 2)%nat as D by (intros x; unfold double; case_match; simpl; lia).
    pose proof (D (Z.land (Z.shiftr cols 8) 255)). pose proof (D (Z.land cols 255)).
    pose proof (D (Z.land (Z.shiftr rows 8) 255)). pose proof (D (Z.land rows 255)).
    change (length (double TELOPT_NAWS)) with 1%nat. change (length (doubled [])) with 0%nat.
    change (length [IAC; SB]) with 2%nat. change (length [IAC; SE]) with 2%nat. lia. }
  destruct (Nat.leb_spec (length (frame (naws_body rows cols))) (NETROOM c)); [|lia]. cbn [andb mwhen].
  eexists. split; [reflexivity|]. exact (netout_sent c _).
Qed.

(** The client is asked for [o], and what it answers makes [P] true of the server. *)
Definition informed (o : Z) (c : io) (s : tnd) (P : tnd -> Prop) : Prop :=
  exists c' sent s',
    telrcv K (ClientSub.suboption setupterm libtelnet) (set_netiring [frame [o; TELQUAL_SEND]] c) = (Ok (), c') /\
    netout c' = netout c ++ sent /\ TelnetdRecv.telrcv (set_netip sent s) = (Ok (), s') /\ P s'.

(** C21. What the client says about its terminal is what the server then has: the window's size
    when it changes, and, asked for, the next name of the terminal in lower case (up to 40
    octets, none of them IAC) and the two speeds of the line below 2^31. *)
Theorem terminal_arrives (c : io) (s : tnd) :
  client_ready c -> server_ready s ->
  (forall rows cols,
    winsize c = Some (rows, cols) -> 0 <= rows < 65536 -> 0 <= cols < 65536 -> (13 <= NETROOM c)%nat ->
    my_state_is_will (Client.options (tn c)) TELOPT_NAWS = true ->
    his_state_is_will (options (ng s)) TELOPT_NAWS = true ->
    exists c' sent s', sendnaws c = (Ok (), c') /\ netout c' = netout c ++ sent /\
      TelnetdRecv.telrcv (set_netip sent s) = (Ok (), s') /\ def_row (ty s') = rows /\ def_col (ty s') = cols /\
      (terminit (ty s) = true -> Telnetd.winsize (ty s') = Some (cols, rows))) /\
  (forall name b,
    ClientSub.gettermname setupterm c = (Ok name, set_sb b c) -> IAC ∉ name ->
    (length name <= 40)%nat -> (length name + 6 < NETROOM c)%nat ->
    my_want_state_is_will (Client.options (tn c)) TELOPT_TTYPE = true ->
    his_state_is_will (options (ng s)) TELOPT_TTYPE = true ->
    informed TELOPT_TTYPE c s (fun s' => Telnetd.terminaltype (rc s') = Some (cstring (map tolower name)))) /\
  (forall in_ out,
    ClientSub.TerminalSpeeds (sb c) = (in_, out) -> 0 <= in_ < 2 ^ 31 -> 0 <= out < 2 ^ 31 ->
    (50 < NETROOM c)%nat ->
    my_want_state_is_will (Client.options (tn c)) TELOPT_TSPEED = true ->
    his_state_is_will (options (ng s)) TELOPT_TSPEED = true ->
    informed TELOPT_TSPEED c s (fun s' => def_rspeed (ty s') = in_ /\ def_tspeed (ty s') = out)).
Proof.
  intros Hc Hs. split; [|split].
  - intros rows cols Ew Hr Hl Hroom Hm Hh. destruct (client_naws rows cols c Ew Hm Hroom) as (c' & E & Ec).
    destruct (server_naws rows cols s Hs Hh Hr Hl) as (s' & Er & H1 & H2 & H3). by exists c', (frame (naws_body rows cols)), s'.
  - intros name b Eg Hi Hn Hroom Hm Hh. destruct (client_ttype name b c Hc Hm Eg Hi Hn Hroom) as (c' & E & Ec).
    destruct (server_ttype name s Hs Hh Hn) as (s' & Er & Et). by exists c', (frame (ttype_body name)), s'.
  - intros in_ out Es Hi Ho Hroom Hm Hh.
    destruct (client_tspeed in_ out c Hc Hm Es ltac:(lia) ltac:(lia) Hroom) as (c' & E & Ec).
    destruct (server_tspeed out in_ s Hs Hh Ho Hi) as (s' & Er & E1 & E2). by exists c', (frame (tspeed_body out in_)), s'.
Qed.

End Both.

End Reply.
