(* ===== verification/TelnetRingFacts.v ===== *)
(** * telnet: a ring buffer is a queue

    [holds t d q k]: the ring [d] holds the queue [q], whose element number [k] is marked.
    Every change keeps this, and the questions answer about the queue; [netflush] sends its
    front, in order, the marked octet alone and as urgent. *)

From Stdlib Require Import ZArith Lia List Bool.
From stdpp Require Import base tactics list numbers.
From S2P Require Import Prelude TelnetRing.

Local Open Scope Z_scope.

Module RingFacts.
Import Ring.

(** The offset of element [i]. *)
Definition place (d : ring) (i : Z) : Z := ring_increment d (consume d) i.

(** How many octets the ring holds, whatever is marked. *)
Definition used (d : ring) : Z := if ring_full d then size d else ring_subtract d (supply d) (consume d).

Record holds (t : Z) (d : ring) (q : list Z) (k : option nat) : Prop := {
  h_size : Z.of_nat (length (mem d)) = size d;
  h_pos : 0 < size d;
  h_consume : 0 <= consume d < size d;
  h_supply : 0 <= supply d < size d;
  h_ctime : consumetime d <= t;
  h_stime : supplytime d <= t;
  h_used : used d = Z.of_nat (length q);
  h_mem : forall i c, q !! i = Some c -> mem d !! Z.to_nat (place d (Z.of_nat i)) = Some c;
  h_mark : mark d = (fun i => place d (Z.of_nat i)) <$> k;
  h_marked : match k with Some i => (i < length q)%nat | None => True end }.

Ltac wrap :=
  unfold used, place, ring_subtract, ring_increment, ring_decrement, ring_full, ring_empty in *;
  repeat match goal with
  | |- context [if ?b then _ else _] => destruct b eqn:?
  | H : context [if ?b then _ else _] |- _ => destruct b eqn:?
  end; rewrite ?andb_true_iff, ?andb_false_iff, ?Z.eqb_eq, ?Z.eqb_neq, ?Z.leb_le, ?Z.leb_gt,
    ?Z.ltb_lt, ?Z.ltb_ge in *.

Lemma used_le t d q k : holds t d q k -> Z.of_nat (length q) <= size d.
Proof. intros [? ? ? ? ? ? Hu _ _ _]. rewrite <- Hu. wrap; lia. Qed.

Lemma empty_iff t d q k : holds t d q k -> ring_empty d = true <-> q = [].
Proof.
  intros [? ? ? ? ? ? Hu _ _ _]. rewrite <- length_zero_iff_nil. wrap; lia.
Qed.

(** ** The questions *)

Lemma full_count_spec t d q k :
  holds t d q k -> no_mark d = true -> ring_full_count d = Z.of_nat (length q).
Proof. intros [? ? ? ? ? ? Hu _ _ _] Hn. unfold ring_full_count. rewrite Hn. exact Hu. Qed.

Lemma no_mark_iff t d q k :
  holds t d q k -> no_mark d = true <-> match k with Some i => i = O | None => True end.
Proof.
  intros [? ? ? ? ? ? Hu _ Hm Hk]. unfold no_mark. rewrite Hm. destruct k as [i|]; simpl; [|done].
  wrap; lia.
Qed.

Lemma marked_count_spec t d q i :
  holds t d q (Some i) -> i <> O -> ring_full_count d = Z.of_nat i.
Proof.
  intros Hh Hi. unfold ring_full_count.
  assert (no_mark d = false) as ->.
  { apply not_true_iff_false. rewrite (no_mark_iff _ _ _ _ Hh). done. }
  pose proof (used_le _ _ _ _ Hh). destruct Hh as [? ? ? ? ? ? Hu _ Hm Hk]. rewrite Hm. simpl.
  wrap; lia.
Qed.

Lemma empty_count_spec t d q k : holds t d q k -> ring_empty_count d = size d - Z.of_nat (length q).
Proof.
  intros Hh. pose proof (empty_iff _ _ _ _ Hh) as He. destruct Hh as [? ? ? ? ? ? Hu _ _ _].
  unfold ring_empty_count. rewrite <- Hu. wrap; lia.
Qed.

Lemma at_mark_spec t d q k : holds t d q k -> ring_at_mark d = true <-> k = Some O.
Proof.
  intros Hh. pose proof (used_le _ _ _ _ Hh). destruct Hh as [? ? ? ? ? ? Hu _ Hm Hk]. unfold ring_at_mark. rewrite Hm.
  destruct k as [i|]; simpl; [|done]. split.
  - intros E. f_equal. wrap; lia.
  - intros [= ->]. wrap; lia.
Qed.

(** How far the reader may go: to the mark, or to the end. *)
Definition limit (q : list Z) (k : option nat) : nat :=
  match k with Some (S i) => S i | _ => length q end.

Lemma full_consecutive_range t d q k :
  holds t d q k ->
  0 <= ring_full_consecutive d <= Z.of_nat (limit q k) /\
  consume d + ring_full_consecutive d <= size d /\
  (limit q k <> O -> 0 < ring_full_consecutive d).
Proof.
  intros Hh. pose proof (used_le _ _ _ _ Hh). pose proof (no_mark_iff _ _ _ _ Hh) as Hn.
  destruct Hh as [? ? ? ? ? ? Hu _ Hm Hk]. unfold ring_full_consecutive, limit.
  destruct (no_mark d) eqn:E.
  - assert (match k with Some (S i) => S i | _ => length q end = length q) as ->.
    { destruct k as [[|i]|]; [done| |done]. destruct Hn as [Hn _]. by specialize (Hn eq_refl). }
    clear Hm. wrap; lia.
  - destruct Hn as [_ Hn]. destruct k as [[|i]|]; [by specialize (Hn eq_refl)| |by specialize (Hn I)].
    rewrite Hm. simpl. wrap; lia.
Qed.

Lemma peek_spec t d q k n :
  holds t d q k -> 0 <= n <= Z.of_nat (length q) -> consume d + n <= size d ->
  peek d n = take (Z.to_nat n) q.
Proof.
  intros Hh Hn Hc. apply list_eq. intros i. unfold peek.
  destruct (decide (i < Z.to_nat n)%nat) as [Hi|Hi].
  - rewrite !lookup_take_lt by done. rewrite lookup_drop.
    destruct (lookup_lt_is_Some_2 q i) as [c Ec]; [lia|]. rewrite Ec.
    destruct Hh as [? ? ? ? ? ? Hu Hmem _ _]. rewrite <- (Hmem i c Ec). f_equal. wrap; lia.
  - rewrite !lookup_take_ge by lia. done.
Qed.

(** ** The changes *)

Lemma holds_init buffer : (0 < length buffer)%nat -> holds 0 (ring_init buffer) [] None.
Proof. intros Hb. split; simpl; try done; try lia. Qed.

Lemma set_mark_same v d : mark d = v -> set_mark v d = d.
Proof. intros <-. by destruct d. Qed.

Lemma consumed_spec t d q k n t' d' :
  holds t d q k -> 0 <= n <= Z.of_nat (length q) -> ring_consumed t d n = (t', d') ->
  holds t' d' (drop (Z.to_nat n) q)
    (i ← k; if (i <? Z.to_nat n)%nat then None else Some (i - Z.to_nat n)%nat).
Proof.
  intros Hh Hn E. pose proof (used_le _ _ _ _ Hh) as Hle. unfold ring_consumed in E.
  destruct (n =? 0) eqn:En.
  { apply Z.eqb_eq in En as ->. injection E as <- <-. simpl. destruct k as [i|]; simpl; [|done].
    by rewrite Nat.sub_0_r. }
  apply Z.eqb_neq in En.
  destruct Hh as [Hs Hp Hc Hsu Hct Hst Hu Hm Hmk Hk].
  assert (forall i, 0 <= i < size d -> ring_subtract d (place d i) (consume d) = i) as Hsub by (intros i Hi; wrap; lia).
  set (k' := i ← k; if (i <? Z.to_nat n)%nat then None else Some (i - Z.to_nat n)%nat).
  set (d1 := match mark d with Some m => _ | None => d end) in E.
  assert (d1 = set_mark (match k' with Some _ => mark d | None => None end) d) as Ed1.
  { unfold d1, k'. rewrite Hmk. destruct k as [j|]; simpl.
    - rewrite Hsub by lia. destruct (Z.of_nat j <? n) eqn:Ej, (j <? Z.to_nat n)%nat eqn:Ej'; try done.
      + apply Z.ltb_lt in Ej. apply Nat.ltb_ge in Ej'. lia.
      + apply Z.ltb_ge in Ej. apply Nat.ltb_lt in Ej'. lia.
      + symmetry. by apply set_mark_same.
    - symmetry. by apply set_mark_same. }
  set (d2 := set_consumetime (t + 1) (set_consume (ring_increment d1 (consume d1) n) d1)) in E.
  assert (consume d2 = place d n) as Ec2 by (unfold d2; rewrite Ed1; done).
  assert (used d2 = Z.of_nat (length q) - n) as Hu2.
  { rewrite <- Hu. unfold used, ring_full, ring_subtract. rewrite Ec2. unfold d2. rewrite Ed1. simpl.
    clear Ec2 Hm Hmk Hsub d2 d1 Ed1 E. wrap; lia. }
  assert (0 <= place d n < size d) as Hpl by (clear -Hn Hle Hc Hp; wrap; lia).
  assert (holds (t + 1) d2 (drop (Z.to_nat n) q) k') as Hd2.
  { assert (forall i, 0 <= i -> n + i < size d -> place d2 i = place d (n + i)) as Hpp.
    { intros i Hi Hni. unfold place at 1, ring_increment. rewrite Ec2. unfold d2. rewrite Ed1. simpl.
      clear - Hi Hni Hn Hc Hp. wrap; lia. }
    assert (size d2 = size d) as Es2 by (unfold d2; by rewrite Ed1).
    split; [unfold d2; by rewrite Ed1|lia|lia|unfold d2; by rewrite Ed1
           |unfold d2; rewrite Ed1; simpl; lia|unfold d2; rewrite Ed1; simpl; lia|..].
    - by rewrite Hu2, length_drop; lia.
    - intros i c Hi. rewrite lookup_drop in Hi. pose proof (lookup_lt_Some _ _ _ Hi).
      rewrite Hpp by lia. replace (n + Z.of_nat i) with (Z.of_nat (Z.to_nat n + i)) by lia.
      unfold d2. rewrite Ed1. simpl. by apply Hm.
    - unfold d2 at 1. rewrite Ed1. simpl. rewrite Hmk. unfold k'. destruct k as [j|]; simpl; [|done].
      destruct (j <? Z.to_nat n)%nat eqn:Ej; [done|]. simpl. f_equal. apply Nat.ltb_ge in Ej.
      rewrite Hpp by lia. f_equal. lia.
    - unfold k'. destruct k as [j|]; simpl; [|done]. destruct (j <? Z.to_nat n)%nat eqn:Ej; [done|].
      apply Nat.ltb_ge in Ej. rewrite length_drop. lia. }
  destruct (ring_empty d2) eqn:Em; injection E as <- <-; [|done].
  pose proof (proj1 (empty_iff _ _ _ _ Hd2) Em) as Hq. rewrite Hq in *.
  assert (k' = None) as Hk'. { destruct Hd2 as [_ _ _ _ _ _ _ _ _ Hx]. by destruct k'; [simpl in Hx; lia|]. }
  rewrite Hk' in *. destruct Hd2 as [? ? ? ? ? ? ? ? Hx _].
  split; simpl; try done; try lia. unfold used, ring_full. simpl.
  unfold ring_empty in Em. apply andb_true_iff in Em as [_ Em]. apply Z.leb_le in Em.
  rewrite Ed1. simpl. by destruct (Z.ltb_spec (t + 1) (supplytime d)); [lia|].
Qed.

Lemma mark_spec t d q k :
  holds t d q k -> q <> [] -> holds t (ring_mark d) q (Some (length q - 1)%nat).
Proof.
  intros Hh Hq. pose proof (used_le _ _ _ _ Hh). destruct Hh as [? ? ? ? ? ? Hu Hm _ _].
  assert (length q <> 0)%nat by (by destruct q).
  split; try done; [|lia]. simpl. f_equal.
  change (ring_decrement d (supply d) 1 = place d (Z.of_nat (length q - 1))). clear Hm. wrap; lia.
Qed.

Lemma clear_mark_spec t d q k : holds t d q k -> holds t (ring_clear_mark d) q None.
Proof. by intros [? ? ? ? ? ? Hu Hm _ _]. Qed.

Lemma empty_consecutive_range t d q k :
  holds t d q k ->
  0 <= ring_empty_consecutive d <= size d - Z.of_nat (length q) /\
  supply d + ring_empty_consecutive d <= size d /\
  (Z.of_nat (length q) < size d -> 0 < ring_empty_consecutive d).
Proof.
  intros Hh. pose proof (used_le _ _ _ _ Hh). destruct Hh as [? ? ? ? ? ? Hu _ _ _].
  unfold ring_empty_consecutive. destruct (consume d <? supply d) eqn:?; simpl; wrap; lia.
Qed.

Lemma write_lookup at_ l m i :
  0 <= at_ -> (Z.to_nat at_ + length l <= length m)%nat ->
  write at_ l m !! i =
  if (i <? Z.to_nat at_)%nat then m !! i
  else if (i <? Z.to_nat at_ + length l)%nat then l !! (i - Z.to_nat at_)%nat else m !! i.
Proof.
  intros Ha Hl. unfold write.
  destruct (Nat.ltb_spec i (Z.to_nat at_)).
  { rewrite lookup_app_l by (rewrite length_take; lia). by apply lookup_take_lt. }
  rewrite lookup_app_r, length_take, Nat.min_l by (rewrite ?length_take; lia).
  destruct (Nat.ltb_spec i (Z.to_nat at_ + length l)).
  { by rewrite lookup_app_l by lia. }
  rewrite lookup_app_r by lia. rewrite lookup_drop. f_equal. lia.
Qed.

Lemma write_length at_ l m :
  0 <= at_ -> (Z.to_nat at_ + length l <= length m)%nat -> length (write at_ l m) = length m.
Proof. intros. unfold write. rewrite !length_app, length_take, length_drop. lia. Qed.

Lemma supplied_spec t d q k l t' d' :
  holds t d q k -> l <> [] -> Z.of_nat (length l) <= ring_empty_consecutive d ->
  ring_supplied t (set_mem (write (supply d) l (mem d)) d) (Z.of_nat (length l)) = (t', d') ->
  holds t' d' (q ++ l) k.
Proof.
  intros Hh Hl Hn [= <- <-]. pose proof (empty_consecutive_range _ _ _ _ Hh) as (Hr & Htop & _).
  assert (length l <> 0)%nat by (by destruct l).
  destruct Hh as [Hs Hp Hc Hsu Hct Hst Hu Hm Hmk Hk].
  set (n := Z.of_nat (length l)) in *.
  assert (forall i, 0 <= i < size d -> 0 <= place d i < size d) as Hpl by (intros; wrap; lia).
  assert (used d <> size d) as Hroom by lia.
  assert (place d (used d) = supply d) as Hnext by (clear -Hroom Hc Hsu; wrap; lia).
  split; simpl; try lia.
  - rewrite write_length; lia.
  - unfold ring_increment. simpl. destruct (_ <? _) eqn:E; [apply Z.ltb_lt in E|apply Z.ltb_ge in E]; lia.
  - rewrite length_app, Nat2Z.inj_add, <- Hu. fold n.
    clear Hm Hmk Hk Hpl Hs Hnext. unfold used, ring_full, ring_subtract, ring_increment in *. simpl. wrap; lia.
  - intros i c Hi. rewrite write_lookup by lia. unfold place, ring_increment. simpl.
    fold (ring_increment d (consume d) (Z.of_nat i)). fold (place d (Z.of_nat i)).
    pose proof (lookup_lt_Some _ _ _ Hi) as Hlen. rewrite length_app in Hlen.
    destruct (decide (i < length q)%nat) as [Hlt|Hge].
    + rewrite lookup_app_l in Hi by done. rewrite <- (Hm i c Hi).
      pose proof (Hpl (Z.of_nat i)).
      destruct (Nat.ltb_spec (Z.to_nat (place d (Z.of_nat i))) (Z.to_nat (supply d))); [done|].
      destruct (Nat.ltb_spec (Z.to_nat (place d (Z.of_nat i))) (Z.to_nat (supply d) + length l)); [|done].
      exfalso. clear Hm Hmk Hpl. wrap; lia.
    + rewrite lookup_app_r in Hi by lia.
      assert (place d (Z.of_nat i) = supply d + (Z.of_nat i - Z.of_nat (length q))) as ->.
      { clear Hm Hmk Hpl. wrap; lia. }
      destruct (Nat.ltb_spec (Z.to_nat (supply d + (Z.of_nat i - Z.of_nat (length q)))) (Z.to_nat (supply d))); [lia|].
      destruct (Nat.ltb_spec (Z.to_nat (supply d + (Z.of_nat i - Z.of_nat (length q)))) (Z.to_nat (supply d) + length l)); [|lia].
      rewrite <- Hi. f_equal. lia.
  - rewrite Hmk. done.
  - destruct k; [|done]. rewrite length_app. lia.
Qed.

(** Enough room: the loop ends, and the queue has grown. *)
Lemma supply_data_spec fuel : forall t d q k l,
  holds t d q k -> Z.of_nat (length q) + Z.of_nat (length l) <= size d -> (length l <= fuel)%nat ->
  exists t' d', ring_supply_data fuel t d l = Some (t', d') /\ holds t' d' (q ++ l) k /\ size d' = size d.
Proof.
  induction fuel as [|fuel IH]; intros t d q k l Hh Hroom Hf.
  { destruct l; simpl in *; [|lia]. exists t, d. by rewrite app_nil_r. }
  destruct l as [|c l]; [exists t, d; by rewrite app_nil_r|].
  cbn [ring_supply_data]. set (buf := c :: l) in *.
  set (i := Z.min (Z.of_nat (length buf)) (ring_empty_consecutive d)).
  pose proof (empty_consecutive_range _ _ _ _ Hh) as (Hr & _ & Hpos).
  assert (length buf <> 0)%nat by done.
  assert (0 < i <= Z.of_nat (length buf)) as Hi by lia.
  assert (length (take (Z.to_nat i) buf) = Z.to_nat i) as Hlen by (rewrite length_take; lia).
  destruct (ring_supplied _ _ _) as [t1 d1] eqn:E1.
  assert (holds t1 d1 (q ++ take (Z.to_nat i) buf) k) as Hh1.
  { eapply (supplied_spec t d q k (take (Z.to_nat i) buf)); [done| | |].
    - intros Hn. rewrite Hn in Hlen. simpl in Hlen. lia.
    - rewrite Hlen. lia.
    - rewrite Hlen, Z2Nat.id by lia. exact E1. }
  assert (size d1 = size d) as Hs1 by (by injection E1 as <- <-).
  destruct (IH t1 d1 _ k (drop (Z.to_nat i) buf) Hh1) as (t' & d' & E & Hh' & Hs').
  { rewrite length_app, Hlen, length_drop. lia. }
  { rewrite length_drop. lia. }
  exists t', d'. split; [done|]. split; [|congruence].
  by rewrite <- app_assoc, take_drop in Hh'.
Qed.

(** ** Flushing *)

(** A queue's octets, the marked one tagged. *)
Definition tagged (q : list Z) (k : option nat) : list (Z * bool) :=
  imap (fun i c => (c, bool_decide (k = Some i))) q.

(** An urgent send is of one octet. *)
Definition alone (s : list Z * bool) : Prop := s.2 = true -> length s.1 = 1%nat.

(** What was sent, the urgent octets tagged. *)
Definition tags (out : list (list Z * bool)) : list (Z * bool) :=
  flat_map (fun s => map (fun c => (c, snd s)) (fst s)) out.

Lemma tagged_lookup q k i : tagged q k !! i = (fun c => (c, bool_decide (k = Some i))) <$> q !! i.
Proof. unfold tagged. apply list_lookup_imap. Qed.

Lemma tagged_length q k : length (tagged q k) = length q.
Proof. unfold tagged. apply length_imap. Qed.

Lemma tagged_drop q k n :
  drop n (tagged q k) = tagged (drop n q) (i ← k; if (i <? n)%nat then None else Some (i - n)%nat).
Proof.
  apply list_eq. intros i. rewrite lookup_drop, !tagged_lookup, lookup_drop.
  destruct (q !! (n + i)%nat); [|done]. simpl. do 2 f_equal. apply bool_decide_ext.
  destruct k as [j|]; simpl; [|done]. destruct (Nat.ltb_spec j n); split; intros [=]; [lia| |];
    f_equal; lia.
Qed.

Lemma tagged_take q k n b :
  (forall i, (i < n)%nat -> bool_decide (k = Some i) = b) ->
  take n (tagged q k) = map (fun c => (c, b)) (take n q).
Proof.
  intros Hb. apply list_eq. intros i. rewrite list_lookup_fmap.
  destruct (decide (i < n)%nat).
  - rewrite !lookup_take_lt, tagged_lookup by done. destruct (q !! i); [|done]. simpl. by rewrite Hb.
  - by rewrite !lookup_take_ge by lia.
Qed.

Lemma mark_consume d t q k : holds t d q k -> ring_at_mark d = false -> limit q k <> O \/ q = [].
Proof.
  intros Hh Hm. destruct k as [[|i]|]; simpl.
  - apply (at_mark_spec _ _ _ _) in Hh as [_ Hx]. rewrite Hx in Hm; done.
  - left. done.
  - destruct q; [by right|by left].
Qed.

Lemma netflush_spec sends : forall t d q k,
  holds t d q k -> Forall (Z.le 0) sends ->
  exists t' d' out q' k', netflush sends t d = (t', d', out) /\ holds t' d' q' k' /\
    tagged q k = tags out ++ tagged q' k' /\ size d' = size d /\ Forall alone out.
Proof.
  induction sends as [|r sends IH]; intros t d q k Hh Hs; simpl.
  { exists t, d, [], q, k. done. }
  apply Forall_cons_1 in Hs as [Hr Hs].
  destruct (Z.ltb_spec 0 (ring_full_consecutive d)) as [Hn1|]; [|exists t, d, [], q, k; done].
  set (n1 := ring_full_consecutive d) in *.
  set (u := ring_at_mark d) in *. set (n := Z.min r (if u then 1 else n1)).
  destruct (Z.eqb_spec n 0) as [|Hn0]; [exists t, d, [], q, k; done|].
  pose proof (full_consecutive_range _ _ _ _ Hh) as ([_ Hlim] & Htop & _). fold n1 in Hlim, Htop.
  assert (0 < n <= n1) as Hn by (unfold n; destruct u; lia).
  assert (limit q k <= length q)%nat as Hlq.
  { destruct Hh as [_ _ _ _ _ _ _ _ _ Hk]. destruct k as [[|i]|]; simpl; lia. }
  assert (peek d n = take (Z.to_nat n) q) as Hpk by (apply (peek_spec t _ _ k); [done|lia|lia]).
  destruct (ring_consumed t d n) as [t1 d1] eqn:E1.
  pose proof (consumed_spec _ _ _ _ n _ _ Hh ltac:(lia) E1) as Hh1.
  rewrite Hpk.
  assert (alone (take (Z.to_nat n) q, u)) as Hal.
  { intros Hu. simpl in Hu |- *. rewrite length_take.
    assert (n <= 1) by (unfold n; rewrite Hu; lia). lia. }
  set (k1 := i ← k; _) in Hh1.
  assert (size d1 = size d) as Hs1.
  { revert E1. unfold ring_consumed. destruct (n =? 0); [by intros [= <- <-]|].
    destruct (mark d); simpl; repeat case_match; by intros [= <- <-]. }
  assert (tagged q k = map (fun c => (c, u)) (take (Z.to_nat n) q) ++ tagged (drop (Z.to_nat n) q) k1) as Ht.
  { unfold k1. rewrite <- tagged_drop, <- (tagged_take q k).
    - by rewrite take_drop.
    - intros i Hi. pose proof (at_mark_spec _ _ _ _ Hh) as Hat. fold u in Hat. destruct u eqn:Eu.
      + destruct Hat as [Hat _]. rewrite (Hat eq_refl). assert (i = O) as -> by lia.
        by apply bool_decide_eq_true.
      + apply bool_decide_eq_false. intros ->. destruct i as [|i]; [destruct Hat as [_ Hat]; by specialize (Hat eq_refl)|].
        simpl in Hlim. lia. }
  destruct (_ && _).
  - destruct (IH t1 d1 _ _ Hh1 Hs) as (t' & d' & out & q' & k' & E & Hh' & Ht' & Hs' & Ha).
    rewrite E. exists t', d', ((take (Z.to_nat n) q, u) :: out), q', k'. split; [done|]. split; [done|].
    split; [|by split; [congruence|constructor]]. rewrite Ht, Ht'. simpl. by rewrite app_assoc.
  - exists t1, d1, [(take (Z.to_nat n) q, u)], (drop (Z.to_nat n) q), k1. split; [done|]. split; [done|].
    split; [|by split; [|repeat constructor]]. rewrite Ht. simpl. by rewrite app_nil_r.
Qed.

(** ** The terminal's side *)

(** When the terminal takes all there is, [ttyflush] answers -1, which its comment keeps for
    work that could not be done; 1 is never the answer. *)
Lemma ttyflush_all t d q k w1 w2 :
  holds t d q k -> q <> [] -> k <> Some O ->
  ring_full_consecutive d <= w1 -> ring_full_count d <= w2 ->
  (ttyflush w1 w2 t d).1.1.1 = -1.
Proof.
  intros Hh Hq Hk H1 H2. pose proof (full_consecutive_range _ _ _ _ Hh) as ([_ Hl] & _ & Hp).
  assert (limit q k <> O) as Hz by (destruct k as [[|i]|]; simpl; [done|lia|by destruct q]).
  specialize (Hp Hz).
  assert (ring_full_count d = Z.of_nat (limit q k)) as Hn.
  { pose proof (no_mark_iff _ _ _ _ Hh) as Hnm. destruct k as [[|i]|]; simpl; [done| |].
    - by apply (marked_count_spec _ _ _ _ Hh).
    - apply (full_count_spec _ _ _ _ Hh). by apply Hnm. }
  unfold ttyflush. destruct (Z.ltb_spec 0 (ring_full_consecutive d)); [|lia].
  rewrite Z.min_r by done. rewrite Z.eqb_refl.
  destruct (Z.ltb_spec 0 (ring_full_consecutive d)); [|lia]. simpl.
  set (n' := if _ <? _ then _ else _).
  assert (ring_full_consecutive d + n' = ring_full_count d) as ->.
  { unfold n'. destruct (Z.ltb_spec (ring_full_consecutive d) (ring_full_count d)); lia. }
  destruct (ring_consumed _ _ _). simpl. rewrite Z.eqb_refl.
  destruct (Z.ltb_spec (ring_full_count d) 0); [lia|].
  by destruct (Z.eqb_spec (ring_full_count d) 0); [lia|].
Qed.

(** ** A ring in use *)

(** What telnet does with [netoring]: [Put] supplies octets when there is room, [Urgent] marks
    the octet supplied last, [Flush] sends. *)
Inductive op := Put (l : list Z) | Urgent | Flush (sends : list Z).

Definition ring_op (o : op) (clock : Z) (d : ring) : option (Z * ring * list (list Z * bool)) :=
  match o with
  | Put l =>
      if Z.of_nat (length l) <=? ring_empty_count d then
        '(clock, d) ← ring_supply_data (length l) clock d l; Some (clock, d, [])
      else Some (clock, d, [])
  | Urgent => Some (clock, if ring_empty d then d else ring_mark d, [])
  | Flush sends => Some (netflush sends clock d)
  end.

Fixpoint ring_run (ops : list op) (clock : Z) (d : ring) : option (Z * ring * list (list Z * bool)) :=
  match ops with
  | [] => Some (clock, d, [])
  | o :: ops =>
      '(clock, d, sent) ← ring_op o clock d;
      '(clock, d, more) ← ring_run ops clock d;
      Some (clock, d, sent ++ more)
  end.

(** The same with a queue of at most [cap] octets, one of which may be marked. *)
Definition queue := (list Z * option nat)%type.

Inductive qstep (cap : Z) : op -> queue -> list (Z * bool) -> queue -> Prop :=
| q_put l q k :
    Z.of_nat (length q) + Z.of_nat (length l) <= cap -> qstep cap (Put l) (q, k) [] (q ++ l, k)
| q_no_room l q k :
    cap < Z.of_nat (length q) + Z.of_nat (length l) -> qstep cap (Put l) (q, k) [] (q, k)
| q_urgent q k : q <> [] -> qstep cap Urgent (q, k) [] (q, Some (length q - 1)%nat)
| q_nothing k : qstep cap Urgent ([], k) [] ([], k)
| q_flush sends q k sent q' k' :
    tagged q k = sent ++ tagged q' k' -> qstep cap (Flush sends) (q, k) sent (q', k').

Inductive qrun (cap : Z) : list op -> queue -> list (Z * bool) -> queue -> Prop :=
| qrun_nil Q : qrun cap [] Q [] Q
| qrun_cons o ops Q sent Q' more Q'' :
    qstep cap o Q sent Q' -> qrun cap ops Q' more Q'' -> qrun cap (o :: ops) Q (sent ++ more) Q''.

Definition sends_ok (o : op) : Prop := match o with Flush sends => Forall (Z.le 0) sends | _ => True end.

Lemma tags_app a b : tags (a ++ b) = tags a ++ tags b.
Proof. unfold tags. apply flat_map_app. Qed.

Lemma ring_op_spec o t d q k :
  holds t d q k -> sends_ok o ->
  exists t' d' out q' k', ring_op o t d = Some (t', d', out) /\ holds t' d' q' k' /\
    qstep (size d) o (q, k) (tags out) (q', k') /\ size d' = size d /\ Forall alone out.
Proof.
  intros Hh Ho. pose proof (empty_count_spec _ _ _ _ Hh) as Hec. destruct o as [l| |sends]; simpl.
  - destruct (Z.leb_spec (Z.of_nat (length l)) (ring_empty_count d)).
    + destruct (supply_data_spec (length l) t d q k l) as (t' & d' & -> & Hh' & Hs); [done|lia|done|].
      exists t', d', [], (q ++ l), k. split_and!; [done|done|constructor; lia|done|done].
    + exists t, d, [], q, k. split_and!; [done|done|apply q_no_room; lia|done|done].
  - destruct (ring_empty d) eqn:E.
    + apply (empty_iff _ _ _ _ Hh) in E as ->. exists t, d, [], [], k.
      split_and!; [done|done|constructor|done|done].
    + assert (q <> []) by (intros Hq; apply (empty_iff _ _ _ _ Hh) in Hq; congruence).
      eexists t, _, [], q, _. split_and!; [done|by eapply mark_spec|by constructor|done|done].
  - destruct (netflush_spec sends t d q k Hh Ho) as (t' & d' & out & q' & k' & -> & Hh' & Ht & Hs & Ha).
    exists t', d', out, q', k'. split_and!; [done|done|by constructor|done|done].
Qed.

Lemma ring_run_spec ops : forall t d q k,
  holds t d q k -> Forall sends_ok ops ->
  exists t' d' out q' k', ring_run ops t d = Some (t', d', out) /\ holds t' d' q' k' /\
    qrun (size d) ops (q, k) (tags out) (q', k') /\ Forall alone out.
Proof.
  induction ops as [|o ops IH]; intros t d q k Hh Ho; simpl.
  { exists t, d, [], q, k. split_and!; [done|done|constructor|done]. }
  apply Forall_cons_1 in Ho as [Ho Hos].
  destruct (ring_op_spec o t d q k Hh Ho) as (t1 & d1 & out & q1 & k1 & -> & Hh1 & Hq & Hs & Ha). simpl.
  destruct (IH t1 d1 q1 k1 Hh1 Hos) as (t' & d' & more & q' & k' & -> & Hh' & Hr & Ha'). simpl.
  exists t', d', (out ++ more), q', k'. split_and!; [done|done| |by apply Forall_app_2].
  rewrite tags_app, <- Hs in *. by econstructor.
Qed.

(** C10. Refinement: a ring buffer of telnet that starts empty is, under any sequence of supplying
    (when there is room), marking and flushing with any partial sends, a queue whose capacity
    is the buffer's size: [ring_supply_data] always ends, what [netflush] sends is the queue's
    front in order, and the octet sent as urgent is the marked one, alone in its send. *)
Theorem ring_refines_queue buffer ops :
  (0 < length buffer)%nat -> Forall sends_ok ops ->
  exists t d out q k,
    ring_run ops 0 (ring_init buffer) = Some (t, d, out) /\
    holds t d q k /\ qrun (Z.of_nat (length buffer)) ops ([], None) (tags out) (q, k) /\
    Forall alone out.
Proof.
  intros Hb Ho. exact (ring_run_spec ops 0 _ [] None (holds_init buffer Hb) Ho).
Qed.

End RingFacts.
