(* ===== verification/TelnetExamples.v ===== *)
(** * telnet and telnetd: runs

    The numbers of a system for the class [Termios_h], the states in which the programs
    start, and runs of the pair by computation. *)

From Stdlib Require Import ZArith Lia List Bool.
From stdpp Require Import base tactics list numbers functions relations.
From S2P Require Import Prelude TelnetNeg TelnetOpts Telnetd TelnetdStat Telnet TelnetFocus.
From S2P Require Import TelnetdFacts TelnetdSlc TelnetFacts TelnetPair.

Local Open Scope Z_scope.

(** ** A system *)

#[export] Instance bsd_termios : Termios_h := {|
  ISTRIP := 32; ICRNL := 256; IXON := 512; IXANY := 2048;
  OPOST := 1; OXTABS := 4; TABDLY := 3076; TAB3 := 4; TAB0 := 0;
  CSIZE := 768; CS7 := 512; CS8 := 768; PARENB := 4096;
  ECHO := 8; ICANON := 256; ISIG := 128; EXTPROC := 2048; ECHOCTL := 64;
  VEOF := 0; VEOL := 1; VEOL2 := 2; VERASE := 3; VWERASE := 4; VKILL := 5;
  VREPRINT := 6; VINTR := 8; VQUIT := 9; VSUSP := 10; VSTART := 12; VSTOP := 13;
  VLNEXT := 14; VDISCARD := 15; VSTATUS := 18;
  POSIX_VDISABLE := 255; NSLC := 18;
  SIGINT := 2; SIGQUIT := 3; SIGTSTP := 18; SIGINFO := 29;
  ioctl_TIOCEXT := fun on t =>
    mkTermios (c_iflag t) (c_oflag t) (c_cflag t)
      (if on =? 0 then Z.land (c_lflag t) (Z.lnot 2048) else Z.lor (c_lflag t) 2048)
      (c_cc t) (c_ispeed t) (c_ospeed t);
  cfsetispeed := fun v t =>
    mkTermios (c_iflag t) (c_oflag t) (c_cflag t) (c_lflag t) (c_cc t) v (c_ospeed t);
  cfsetospeed := fun v t =>
    mkTermios (c_iflag t) (c_oflag t) (c_cflag t) (c_lflag t) (c_cc t) (c_ispeed t) v |}.

(** A terminal with the usual settings and characters. *)
Definition cooked : termios :=
  mkTermios (256 + 512 + 2048) (1 + 4) (768 + 2048) (8 + 256 + 128 + 64)
    [4; 255; 255; 127; 23; 21; 18; 255; 3; 28; 26; 25; 17; 19; 22; 15; 1; 0; 20; 255] 9600 9600.

(** ** Where the programs start *)

Definition tnd0 : tnd :=
  mkTnd (mkNegs (fun _ => 0) (fun _ => 0) (fun _ => 0) [] [])
    (mkModes 0 NO_LINEMODE 1 0 0 0 0 0 0)
    (mkTtys cooked cooked cooked None (-1) (-1) 0 0 false)
    (mkSlcs (replicate 19 slcfun0) false [] None)
    (mkRcvs [] TS_DATA (replicate 512 0) 0 0 [] 0 [] [] [] false [] None (-1) (-1) [])
    (fun _ => 0).

Definition tn0 (disp : bool) : Client.tn :=
  Client.mkTn (fun _ => 0) (fun _ => 0) (fun _ => 0) [] 23 true 0 false false disp 0 0 [].

Definition pair0 (disp : bool) : pair := mkPair tnd0 (tn0 disp) [] [].

Lemma pair0_fresh disp : fresh disp (pair0 disp).
Proof. by split_and!. Qed.

(** ** A session

    Both sides start; all messages are taken; the server settles ECHO; a process turns line
    mode on; the user asks for binary mode. *)
Definition take_all (n : nat) : list move := concat (replicate n [Srv_takes; Cli_takes]).

(** Moves that cannot be made are left out. *)
Fixpoint play_on (mvs : list move) (p : pair) : pair :=
  match mvs with
  | [] => p
  | mv :: mvs' => play_on mvs' (default p (play1 mv p))
  end.

Lemma play_on_steps mvs p : rtc pair_step p (play_on mvs p).
Proof.
  revert p. induction mvs as [|mv mvs IH]; intros p; simpl; [done|].
  destruct (play1 mv p) as [p1|] eqn:E; simpl; [|apply IH].
  eapply rtc_l; [by apply (play1_step mv)|apply IH].
Qed.

Definition session : list move :=
  [Cli_acts _ (does_requests 0); Srv_acts _ does_getterminaltype; Srv_acts _ does_telnet]
  ++ take_all 40
  ++ [Srv_acts _ does_telnet_after] ++ take_all 20
  ++ [Srv_acts _ (does_packet cooked); Cli_acts _ (does_rbinary (-1))] ++ take_all 40.

Definition session_end (disp : bool) : pair := play_on session (pair0 disp).


(** "DO 100": the server refuses, by the common rules. *)
Lemma telnetd_handlers_receive_witness :
  exists s', dooption 100 tnd0 = (Ok (), s') /\
    vside tview true 100 s' = mkSide true false 1 /\ vnegs tview true 100 s' = [false].
Proof. exact (telnetd_handlers_receive true true 100 tnd0 eq_refl). Defined.

(** "WILL ECHO": the client accepts. *)
Lemma telnet_handlers_receive_witness :
  exists s', Client.willoption TELOPT_ECHO (tn0 true) = (Ok (), s') /\
    vside cview false TELOPT_ECHO s' = mkSide true true 0 /\
    vnegs cview false TELOPT_ECHO s' = [true].
Proof. apply (telnet_handlers_receive false true TELOPT_ECHO (tn0 true)); vm_compute; done. Defined.

(** ** Special characters and line mode *)

Lemma slc_replies_overrun_witness :
  let s := set_terminit true tnd0 in
  let request := concat (replicate (2 * NSLC) [254; 0; 0]) in
  length request = (6 * NSLC)%nat /\
  exists s', (_ ← start_slc true; do_opt_slc request) s = (Ex Crash, s') /\
    (SLCBUF_SIZE < 4 + length (slcbuf (sl s')))%nat.
Proof. apply (slc_replies_overrun 254 (set_terminit true tnd0)); simpl; lia || done. Defined.

Lemma linemode_asked_again_witness :
  let s := set_linemode 2048 (set_lmodetype REAL_LINEMODE tnd0) in
  linemode (md (clientstat TELOPT_LINEMODE WILL 0 s).2) = 1 /\
  out_log (clientstat TELOPT_LINEMODE WILL 0 s).2 = [[IAC; SB; TELOPT_LINEMODE; LM_MODE; 11; IAC; SE]].
Proof. exact (proj2 (linemode_asked_again (set_linemode 2048 (set_lmodetype REAL_LINEMODE tnd0))
                 eq_refl eq_refl) eq_refl). Defined.
