(* ===== verification/TelnetIOExamples.v ===== *)
(** * telnet and telnetd: data on the way

    The theorems about the receiving machines, the data path and the rings at states in
    which the programs can be. *)

From Stdlib Require Import ZArith Lia List Bool String.
From stdpp Require Import base tactics list numbers functions.
From S2P Require Import Prelude TelnetNeg TelnetOpts Telnetd TelnetdStat Telnet TelnetdRecv.
From S2P Require Import TelnetIO TelnetSub TelnetRing TelnetdRecvFacts TelnetdData TelnetIOFacts.
From S2P Require Import TelnetSubFacts TelnetFrame TelnetEnviron TelnetReply TelnetRingFacts TelnetdFacts TelnetExamples.

Local Open Scope Z_scope.

(** ** States *)

(** telnetd when it has started, with [octets] from the client. *)
Definition served (octets : list Z) : tnd := set_netip octets (get_slc_defaults tnd0).2.

Lemma served_recv_ok octets : recv_ok (served octets).
Proof.
  split_and!; try (vm_compute; lia || done).
  intros f [-> | ->]; vm_compute; by eexists.
Qed.

(** telnet with its usual characters, in character mode. *)
Definition usual : ClientIO.settings :=
  ClientIO.mkSettings 255 29 5 false false false true.

Definition subs0 : ClientIO.subs :=
  ClientIO.mkSubs [] ClientIO.SLC_EXPORT (c_cc cooked) (c_cc cooked) 9600 9600 false [] true [] 0.

Definition io0 (typed : list (list Z)) : ClientIO.io :=
  ClientIO.mkIo (tn0 true) [] typed [] ClientIO.TS_DATA (replicate 256 0) 0 0
    false true 0 true false true false None [] subs0.

(** ... whose server echoes. *)
Definition showing (runs : list (list Z)) : ClientIO.io :=
  ClientIO.set_tn (Client.set_options (fun o => if o =? TELOPT_ECHO then 12 else 0) (tn0 true))
    (ClientIO.set_netiring runs (io0 [])).

(** ** Witnesses *)


Lemma erase_before_slc_defaults_witness : (telrcv (set_netip [IAC; EC] tnd0)).1 = Ex Crash.
Proof.
  exact (erase_before_slc_defaults EC (set_netip [IAC; EC] tnd0)
    (or_introl eq_refl) eq_refl eq_refl eq_refl eq_refl).
Defined.

(** "A", carriage return, two escape characters, IAC and NUL are typed in two runs. *)
Lemma typed_arrives_witness :
  exists c' octets,
    ClientIO.telsnd usual (fun _ => mret ()) (io0 [[65; 13]; [29; 29; 255; 0]]) = (Ok (), c') /\
    ClientIO.ttyiring c' = [] /\
    IOFacts.netout c' = IOFacts.netout (io0 [[65; 13]; [29; 29; 255; 0]]) ++ octets /\
    TelnetdRecv.telrcv (set_netip octets (set_linemode 0 tnd0)) =
      (Ok (), received [] [65; 13; 29; 255; 0] (set_linemode 0 tnd0)).
Proof.
  apply (IOFacts.typed_arrives usual (fun _ => mret ()) [[65; 13]; [29; 255; 0]]
           (io0 [[65; 13]; [29; 29; 255; 0]]) (set_linemode 0 tnd0)).
  - split_and!; reflexivity.
  - assert (forall c, Z.land c 127 <> 29 -> IOFacts.ordinary usual (io0 [[65; 13]; [29; 29; 255; 0]]) c) as Ho by by intros c Hc _.
    constructor; [|constructor; [apply IOFacts.keyed_escape; [done..|]|by constructor]].
    all: repeat (apply IOFacts.keyed_char; [apply Ho; by vm_compute|]); constructor.
  - repeat split; right; reflexivity.
  - vm_compute. lia.
  - vm_compute. lia.
Defined.

(** telnetd puts out "A", a line feed and IAC; the client reads them in two runs. *)
Lemma written_arrives_witness :
  exists s' octets,
    pty_to_net [65; 10; 255] tnd0 = (Ok [], s') /\ concat (out_log s') = concat (out_log tnd0) ++ octets /\
    (concat [[65; 10]; [255; 255]] = octets ->
     exists c', ClientIO.telrcv usual (mret ()) (ClientIO.set_netiring [[65; 10]; [255; 255]] (showing [])) = (Ok (), c') /\
       ClientIO.ttyoring c' = ClientIO.ttyoring (showing []) ++ [65; 10; 255] /\ ClientIO.netiring c' = []).
Proof.
  apply (IOFacts.written_arrives usual (mret ()) [65; 10; 255] [[65; 10]; [255; 255]] tnd0 (showing [])).
  all: try reflexivity.
  - split_and!; vm_compute; done.
  - vm_compute. lia.
  - vm_compute. lia.
Defined.

(** The system calls every terminal vt100, vt100-am and "DEC VT100". *)
Definition vt100 (t : list Z) : option (list Z) :=
  Some (ClientSub.octets "vt100|vt100-am|DEC VT100"%string ++ [0; 0]).

(** No kind of authentication is known. *)
Definition no_auth (before : list Client.call) (q : Z) (data : list Z) : ClientSub.libprog :=
  ClientSub.Net_write [IAC; SB; TELOPT_AUTHENTICATION; TELQUAL_IS; 0; 0; IAC; SE]
    (fun _ => ClientSub.Lib_return).

(** ... and where autologin is on. *)
Definition logging_in (runs : list (list Z)) : ClientIO.io :=
  ClientIO.set_tn (Client.mkTn (fun _ => 0) (fun _ => 0) (fun _ => 0) [] 23 true 0 false true true 0 0 [])
    (showing runs).

(** "DO 24", "IAC SB 24 SEND IAC SE", "DO 37" and "IAC SB 37 SEND 1 0 IAC SE". *)
Lemma client_telrcv_safe_witness :
  let s := logging_in [[IAC; DO; 24; IAC; SB; 24; 1; IAC; SE; IAC; DO; 37; IAC; SB; 37; 1; 1; 0;
                      IAC; SE]] in
  match ClientIO.telrcv usual (ClientSub.suboption vt100 no_auth) s with
  | (Ok _, s') => IOFacts.kept SubFacts.subs_ok s' /\
      (ClientIO.netiring s' = [] \/ (ClientIO.TTYROOM s' <= 2)%nat) /\
      (length (ClientIO.ttyoring s') <= 2 * ClientIO.BUFSIZ)%nat
  | (Ex e, _) => e = Exit 1
  end.
Proof.
  intros s. apply (SubFacts.client_telrcv_safe vt100).
  - intros ? ? [= <-]. unfold SubFacts.good_entry.
    exists (ClientSub.octets "vt100|vt100-am|DEC VT100"%string), 0, [0].
    split_and!; [done|by left| |done]. apply (bool_decide_eq_true_1 _). by vm_compute.
  - split_and!; [done|vm_compute; lia|vm_compute; lia|]. split_and!; first [by left | by apply List.Forall_nil | simpl; lia].
  - vm_compute. lia.
Defined.

(** telnet with [opts] on and the variables [l]. *)
Definition asked (l : list ClientIO.env_lst) : ClientIO.io :=
  ClientIO.set_sb (ClientIO.set_envlist l subs0)
    (ClientIO.set_tn (Client.set_options (fun _ => 15) (tn0 true)) (io0 [])).

Definition knows : tnd := set_options (fun _ => 15) tnd0.

Lemma knows_ready : Reply.server_ready knows.
Proof. split_and!; [done|vm_compute; lia|done]. Qed.

Lemma asked_ready l : Reply.client_ready (asked l).
Proof. split_and!; [done|done|vm_compute; lia|done]. Qed.

(** USER is "A", a variable without a reserved name is IAC and 2; a third is not exported. *)
Definition variables : list ClientIO.env_lst :=
  [ClientIO.mkEnv [67; 1] [255; 2] true false; ClientIO.mkEnv [85; 83; 69; 82] [65] true true;
   ClientIO.mkEnv [68] [70] false false].

Lemma environ_arrives_witness :
  exists c' sent s',
    ClientIO.telrcv usual (ClientSub.suboption (fun _ => None) no_auth)
      (ClientIO.set_netiring [frame [TELOPT_NEW_ENVIRON; TELQUAL_SEND]] (asked variables)) = (Ok (), c') /\
    IOFacts.netout c' = IOFacts.netout (asked variables) ++ sent /\
    TelnetdRecv.telrcv (set_netip sent knows) = (Ok (), s') /\
    environ (rc s') = environ (rc knows) ++ Reply.exported variables /\ Reply.server_ready s'.
Proof.
  apply (Reply.environ_arrives usual (fun _ => None) no_auth (asked variables) knows).
  - apply asked_ready.
  - reflexivity.
  - apply List.Forall_forall. simpl. intros e He.
    decompose [or] He; subst; try done; (split_and!; [discriminate|apply (bool_decide_eq_true_1 _); reflexivity..]).
  - reflexivity.
  - apply knows_ready.
  - vm_compute. lia.
Defined.

Lemma variables_exported :
  Reply.exported variables = [Setenv [67; 1] [255; 2]; Setenv [85; 83; 69; 82] [65]].
Proof. reflexivity. Qed.

(** A window of 255 columns (IAC is doubled) and 24 rows, no name in the system's table. *)
Lemma terminal_arrives_witness :
  let c := ClientIO.mkIo (ClientIO.tn (asked [])) [] [] [] ClientIO.TS_DATA (replicate 256 0) 0 0
    false true 0 true false true false (Some (24, 255)) [] subs0 in
  (exists c' sent s', ClientIO.sendnaws c = (Ok (), c') /\ IOFacts.netout c' = IOFacts.netout c ++ sent /\
    TelnetdRecv.telrcv (set_netip sent knows) = (Ok (), s') /\ def_row (ty s') = 24 /\ def_col (ty s') = 255) /\
  Reply.informed usual (fun _ => None) no_auth TELOPT_TTYPE c knows
    (fun s' => terminaltype (rc s') = Some [117; 110; 107; 110; 111; 119; 110]) /\
  Reply.informed usual (fun _ => None) no_auth TELOPT_TSPEED c knows
    (fun s' => def_rspeed (ty s') = 9600 /\ def_tspeed (ty s') = 9600).
Proof.
  intros c.
  destruct (Reply.terminal_arrives usual (fun _ => None) no_auth c knows (asked_ready []) knows_ready) as (Hw & Hn & Hs).
  split_and!.
  - destruct (Hw 24 255) as (c' & m & s' & ? & ? & ? & ? & ? & _); [reflexivity|lia|lia|vm_compute; lia|done|done|].
    by exists c', m, s'.
  - refine (Hn ClientSub.name_unknown (ClientIO.set_names [ClientSub.name_unknown] 1 subs0) eq_refl _ _ _ eq_refl eq_refl).
    + apply (bool_decide_eq_true_1 _). reflexivity.
    + vm_compute. lia.
    + vm_compute. lia.
  - apply (Hs 9600 9600); try done; try lia. vm_compute. lia.
Defined.

(** A ring of four octets; the system takes one octet, then all. *)
Lemma ring_refines_queue_witness :
  let ops := [RingFacts.Put [1; 2; 3]; RingFacts.Urgent; RingFacts.Flush [1]; RingFacts.Put [4; 5];
              RingFacts.Flush [9; 9; 9]] in
  exists t d out q k,
    RingFacts.ring_run ops 0 (Ring.ring_init [0; 0; 0; 0]) = Some (t, d, out) /\
    RingFacts.holds t d q k /\ RingFacts.qrun 4 ops ([], None) (RingFacts.tags out) (q, k) /\
    Forall RingFacts.alone out.
Proof.
  apply (RingFacts.ring_refines_queue [0; 0; 0; 0]); [simpl; lia|].
  repeat (constructor; try done); simpl; lia.
Defined.
